(* ===== verification/_CoqProject ===== *)
-Q . S2P
Prelude.v
Overflow.v
Grid.v
Chunks.v
Allocator.v
Storage.v
BTreeV1.v
BTreeChunk.v
Checksum.v
Superblock.v
Messages.v
ObjectHeader.v
Datatype.v
Convert.v
Filters.v
LZF.v
Pipeline.v
ChunkedDataset.v
LocalHeap.v
GroupTree.v
Groups.v
GroupLaws.v
Namespace.v
GlobalHeap.v
BTreeV2.v
FractalHeap.v
LinkMessages.v
DenseStorage.v
Attributes.v
DatasetReader.v
DatasetWrite.v
AttributeWrite.v
DatasetLaws.v
DatasetValues.v
Hyperslab.v
HyperslabLaws.v
HyperslabChunks.v
ChunkIterator.v
ChunkedFile.v
Session.v
OpenFile.v
Links.v
Delete.v
DenseGroup.v
DeleteChunks.v
LowFloat.v
