(* ===== verification/Prelude.v ===== *)
(** * A verification development for the pure-Go HDF5 library

    The repository (Go module [hdf5]) reads and writes HDF5 files without a C
    library.  This development models its storage core in Rocq, definition by
    definition, and proves what makes the parts and their composition correct;
    where the code does not do what it means to, the behaviour it has is the
    theorem.

    ** The program and its parts

    A file open for writing ([FileWriter] of dataset_write.go) has an operating
    system file and a space allocator below it, and above it tables of the groups
    made so far.  Creating a dataset allocates space, encodes three or four header
    messages, writes an object header, and links its address into a parent group:
    a name goes into a local heap, an entry into a symbol table node, the node's
    address into a B-tree node.  Values are encoded to bytes and written to a
    contiguous block, cut into chunks (filtered, stored, indexed by a B-tree whose
    address is patched into the header), or put into global heaps with references
    to them in the dataset.  Closing flushes the heap and rewrites the superblock.
    Reading goes the same way back.

    ** Files of the development

    - Prelude: outcomes of Go calls, machine integers, byte order, slices.
    - Overflow (internal/utils/overflow.go), Grid (row-major boxes), Chunks
      (internal/writer/chunk_coordinator.go; the copy loops of
      internal/core/dataset_reader.go).
    - Allocator (internal/writer/allocator.go); Storage
      (internal/writer/writer.go): files, the file writer, and the class [Storage]
      with its laws [StorageLaws], through which the index, group, header and
      dataset writers use it and against which their theorems are proved;
      [FileWriter_laws] discharges it for the real writer.
    - Checksum (internal/core/checksum.go), Superblock (superblock.go,
      bufferpool.go), Messages (dataspace.go, datalayout.go and their encoders in
      messages_write.go), ObjectHeader (objectheader.go, objectheader_v1.go,
      objectheader_write.go), Datatype (datatype.go, datatype_compound.go,
      datatype_compound_write.go, datatype encoders of messages_write.go).
    - BTreeV1 (internal/core/btree_v1.go) and BTreeChunk
      (internal/structures/btree_chunk.go): the chunk index, read and written.
    - Filters, LZF, Pipeline: internal/writer/filter_*.go and
      internal/core/filterpipeline.go.
    - ChunkedDataset: the data path of dataset_write_chunked.go and
      readChunkedData.
    - LocalHeap, GroupTree (internal/structures), Groups (group_write.go and
      CreateForWrite), GroupLaws (what a group promises), Namespace (the groups of
      a file refine a map of directories).
    - GlobalHeap (internal/core/globalheap.go, global_heap_write.go), Convert and
      DatasetReader (internal/core/dataset_reader*.go), DatasetWrite
      (dataset_write.go, createChunkedDataset), DatasetLaws, DatasetValues.
    - Session: everything together, from CreateForWrite to Close.
    - Hyperslab (dataset_read_hyperslab.go), HyperslabLaws and HyperslabChunks
      (what it selects in compact, contiguous and chunked storage), ChunkIterator
      (dataset_chunk_iterator.go), ChunkedFile (a chunked dataset from
      CreateDataset to the readers of the file).
    - BTreeV2 (internal/structures/btreev2_write.go, btreev2_rebalance.go,
      btreev2_lazy.go), FractalHeap (fractalheap*.go), LinkMessages
      (internal/core/link_message.go, linkinfo.go,
      internal/structures/linkmessage.go): the parts of dense storage;
      DenseStorage (a heap and an index together, and the second readers of both
      in internal/core), Attributes and AttributeWrite (internal/core/attribute*.go,
      attribute_write.go, internal/writer/dense_attribute_writer.go).
    - OpenFile (file.go, group.go): reading a file back as a tree of objects;
      Links (link_write.go), Delete and DeleteChunks (delete_write.go), DenseGroup
      (internal/writer/densegroup_writer.go).
    - LowFloat (internal/core/datatype_bfloat16.go).

    ** What the theorems show

    - Composition: [Session.session_refinement] is a forward simulation from calls
      of the write API to an abstract file system with datasets, and
      [Session.session_readable] says that the bytes left after Close determine
      that state for the readers; [OpenFile.open_lists_session] that Open and Walk
      list exactly the objects reached in it; [Delete.delete_refines] extends the
      simulation to Delete; [ChunkedFile.chunked_file_roundtrip] and
      [ChunkedFile.iterator_delivers_chunks] go from CreateDataset through the file
      to the readers of chunked datasets.
    - Refinements: the name index is a map of hash stacks, the fractal heap a list
      of objects, dense attributes a map of values.
    - Selections: what ReadHyperslab validates and returns on each storage layout,
      and where it returns something else.
    - Round trips: superblock versions 0 and 2, object headers with continuation
      blocks, dataspace, layout and datatype messages, the chunk index, chunk
      cutting, filters and LZF, chunked datasets, global heaps, numbers and
      strings, link and attribute messages and values.
    - Invariants: the allocator's blocks tile the file; a group's structures
      represent a finite map.
    - Safety, termination, bounds: the parsers never index out of range and end,
      with the exceptions stated as theorems (continuation cycles, the global heap
      cursor).
    - Errors: what cannot be read back, or is lost, and why: dense groups, soft and
      external links, datasets with long headers, identifiers of large heaps, the
      space of deleted chunks, hard links.

    ** Conventions

    - [outcome]: [Ret], [Err] (the constant part of the code's message; wrapping
      keeps the inner one) or [Panic] (index or slice out of range, division by
      zero, [make] of an impossible size; also out of fuel, so that a theorem that
      a call is not [Panic] includes its termination).
    - Integers are [Z] with the wrap-around of their Go type written at each
      operation that can leave it ([u8], [u16], [u32], [u64], [i64]); bytes are
      [Byte.byte].
    - A slice is the list of its elements; capacity equals length, except where a
      capacity field is kept ([cChildren] of the group B-tree).  [sort.Slice] is a
      stable merge sort; the in-place sort in [WriteToFile] is not visible to its
      caller.
    - [os.File]: ReadAt past the end is an error, WriteAt extends with zeros, a
      negative offset is an error.  An operation that fails has no resulting file.
    - Loops whose number of rounds depends on the file take fuel; the definitions
      that run them pass one more than the bytes they can consume, and the
      theorems show that this is enough.  Where no bound exists the fuel is an
      argument ([ReadObjectHeader], [ReadGlobalHeapCollection]).
    - Floats are [spec_float], without NaN payloads; where only bits are moved
      (attribute values, bfloat16) they are the bits.
    - The recursion that loads groups has a depth, and [Panic] at its end stands
      for an exhausted stack; the theorems say which depth is enough, or that none
      is.
    - The codecs of Go's standard library (gzip, zlib, bzip2) are the class
      [Codecs], their documented behaviour [CodecLaws].

    ** Not modelled

    Opening an existing file for writing (OpenForWrite and OpenDataset of
    dataset_write.go, file_write.go) and the option functions; the rebalancing
    modes above the B-tree (rebalancing_options.go, internal/rebalancing, a
    background goroutine in btreev2_incremental.go): heuristics, statistics and
    timers that choose when the operations of BTreeV2 run; the 8-bit float types
    of datatype_fp8.go; commands, examples and test helpers. *)

From Stdlib Require Export ZArith Lia.
From Corelib Require Export Init.Byte.
From Stdlib Require Import Strings.Byte.
From stdpp Require Export base gmap list strings sorting.

#[global] Open Scope Z_scope.

(** ** Outcomes of Go code

    A Go function returns its results, returns an error, or panics (index out
    of range, division by zero).  [outcome] keeps the three apart, so that
    "the decoder never panics" is a statement of the model. *)
Inductive outcome (A : Type) : Type :=
| Ret (a : A)
| Err (msg : string)
| Panic.
Arguments Ret {A} a.
Arguments Err {A} msg.
Arguments Panic {A}.

#[global] Instance outcome_eq_dec {A} `{EqDecision A} : EqDecision (outcome A).
Proof. solve_decision. Defined.

Definition obind {A B} (m : outcome A) (k : A -> outcome B) : outcome B :=
  match m with
  | Ret a => k a
  | Err e => Err e
  | Panic => Panic
  end.

Declare Scope go_scope.
Delimit Scope go_scope with go.
Notation "'let!' x := m 'in' k" := (obind m (fun x => k))
  (at level 10, x as pattern, m at level 100, k at level 200,
   format "'[v' 'let!'  x  :=  m  'in' '/' k ']'") : go_scope.
Notation "'guard' b 'else' e ;; k" := (if (b : bool) then k else Err e)
  (at level 10, b at level 99, e at level 99, k at level 200,
   format "'[v' 'guard'  b  'else'  e  ;; '/' k ']'") : go_scope.
#[global] Open Scope go_scope.

(** [no_panic m]: the run of [m] returns a value or an error. *)
Definition no_panic {A} (m : outcome A) : Prop := m <> Panic.
Definition is_ret {A} (m : outcome A) : bool :=
  match m with Ret _ => true | _ => false end.
Definition is_err {A} (m : outcome A) : bool :=
  match m with Err _ => true | _ => false end.

Lemma obind_no_panic {A B} (m : outcome A) (k : A -> outcome B) :
  no_panic m -> (forall a, m = Ret a -> no_panic (k a)) -> no_panic (obind m k).
Proof. unfold no_panic. destruct m; cbn; eauto; congruence. Qed.

Lemma obind_ret_inv {A B} (m : outcome A) (k : A -> outcome B) b :
  obind m k = Ret b -> exists a, m = Ret a /\ k a = Ret b.
Proof. destruct m; cbn; eauto; congruence. Qed.

Lemma no_panic_ret {A} (a : A) : no_panic (Ret a).
Proof. unfold no_panic. congruence. Qed.
Lemma no_panic_err {A} e : @no_panic A (Err e).
Proof. unfold no_panic. congruence. Qed.

Create HintDb go discriminated.
#[export] Hint Resolve no_panic_ret no_panic_err : go.

(** ** Machine integers *)

Definition u8 (x : Z) : Z := x mod 2 ^ 8.
Definition u16 (x : Z) : Z := x mod 2 ^ 16.
Definition u32 (x : Z) : Z := x mod 2 ^ 32.
Definition u64 (x : Z) : Z := x mod 2 ^ 64.
(** Conversion to a signed 64-bit integer ([int], [int64]). *)
Definition i64 (x : Z) : Z := (x + 2 ^ 63) mod 2 ^ 64 - 2 ^ 63.

Definition MaxUint64 : Z := 2 ^ 64 - 1.

(** [is_u w x]: [x] is a value of the unsigned type of width [w]. *)
Definition is_u (w x : Z) : Prop := 0 <= x < 2 ^ w.

Lemma u64_id x : is_u 64 x -> u64 x = x.
Proof. apply Z.mod_small. Qed.
Lemma u32_id x : is_u 32 x -> u32 x = x.
Proof. apply Z.mod_small. Qed.
Lemma u16_id x : is_u 16 x -> u16 x = x.
Proof. apply Z.mod_small. Qed.
Lemma u8_id x : is_u 8 x -> u8 x = x.
Proof. apply Z.mod_small. Qed.
Lemma i64_id x : - 2 ^ 63 <= x < 2 ^ 63 -> i64 x = x.
Proof. intros. unfold i64. rewrite Z.mod_small; lia. Qed.
Lemma u64_range x : is_u 64 (u64 x).
Proof. apply Z.mod_pos_bound. lia. Qed.
Lemma u32_range x : is_u 32 (u32 x).
Proof. apply Z.mod_pos_bound. lia. Qed.
Lemma u16_range x : is_u 16 (u16 x).
Proof. apply Z.mod_pos_bound. lia. Qed.
Lemma u8_range x : is_u 8 (u8 x).
Proof. apply Z.mod_pos_bound. lia. Qed.
#[export] Hint Resolve u64_range u32_range u16_range u8_range : go.

(** ** Bytes *)

Definition b2z (b : byte) : Z := Z.of_N (Byte.to_N b).
(** Go's [byte(x)] conversion truncates. *)
Definition z2b (z : Z) : byte := default x00 (Byte.of_N (Z.to_N (z mod 256))).

Lemma b2z_range b : 0 <= b2z b < 256.
Proof. unfold b2z. pose proof (Byte.to_N_bounded b). lia. Qed.

Lemma z2b_b2z b : z2b (b2z b) = b.
Proof.
  unfold z2b. pose proof (b2z_range b). rewrite Z.mod_small by lia.
  unfold b2z. by rewrite N2Z.id, Byte.of_to_N.
Qed.

Lemma b2z_z2b z : b2z (z2b z) = z mod 256.
Proof.
  unfold z2b. pose proof (Z.mod_pos_bound z 256 ltac:(lia)).
  destruct (Byte.of_N (Z.to_N (z mod 256))) eqn:E; cbn.
  - unfold b2z. apply Byte.to_of_N in E. rewrite E. lia.
  - apply Byte.of_N_None_iff in E. lia.
Qed.

Lemma b2z_z2b_small z : 0 <= z < 256 -> b2z (z2b z) = z.
Proof. intros. rewrite b2z_z2b. by apply Z.mod_small. Qed.

Lemma b2z_inj b c : b2z b = b2z c -> b = c.
Proof. intros H. by rewrite <- (z2b_b2z b), H, z2b_b2z. Qed.

Lemma z2b_mod z : z2b (z mod 256) = z2b z.
Proof. apply b2z_inj. rewrite !b2z_z2b. by rewrite Z.mod_mod. Qed.

#[global] Instance byte_eq_dec : EqDecision byte := Byte.byte_eq_dec.
#[global] Instance byte_countable : Countable byte := inj_countable Byte.to_N Byte.of_N Byte.of_to_N.

Definition byte_eqb (b c : byte) : bool := bool_decide (b = c).

(** ** Byte slices

    A Go slice is the list of its bytes.  [len] is Go's [len]; indices are
    signed. *)

Abbreviation bytes := (list byte).

Definition len {A} (l : list A) : Z := Z.of_nat (length l).
#[global] Arguments len : simpl never.

Lemma len_nonneg {A} (l : list A) : 0 <= len l.
Proof. unfold len. lia. Qed.
Lemma len_nil {A} : len (@nil A) = 0.
Proof. done. Qed.
Lemma len_cons {A} (x : A) l : len (x :: l) = 1 + len l.
Proof. unfold len. cbn [length]. lia. Qed.
Lemma len_app {A} (l k : list A) : len (l ++ k) = len l + len k.
Proof. unfold len. rewrite length_app. lia. Qed.
Lemma len_replicate {A} n (x : A) : len (replicate n x) = Z.of_nat n.
Proof. unfold len. by rewrite length_replicate. Qed.
Lemma len_take {A} n (l : list A) : len (take n l) = Z.min (Z.of_nat n) (len l).
Proof. unfold len. rewrite length_take. lia. Qed.
Lemma len_drop {A} n (l : list A) : len (drop n l) = Z.max 0 (len l - Z.of_nat n).
Proof. unfold len. rewrite length_drop. lia. Qed.
Lemma len_map {A B} (f : A -> B) l : len (map f l) = len l.
Proof. unfold len. by rewrite length_map. Qed.
Lemma len_fmap {A B} (f : A -> B) (l : list A) : len (f <$> l) = len l.
Proof. unfold len. by rewrite length_fmap. Qed.
Lemma len_0_nil {A} (l : list A) : len l = 0 -> l = [].
Proof. destruct l; [done|]. rewrite len_cons. pose proof (len_nonneg l). lia. Qed.
Create Rewrite HintDb len.
#[export] Hint Rewrite @len_nil @len_cons @len_app @len_replicate @len_take @len_drop
  @len_map @len_fmap : len.

(** [len_lia]: arithmetic on lengths of compound slices. *)
Lemma len_length {A} (l : list A) : len l = Z.of_nat (length l).
Proof. done. Qed.

Ltac pose_lens :=
  repeat match goal with
  | |- context [len ?l] => lazymatch goal with
      | _ : len l = Z.of_nat _ |- _ => fail | _ => pose proof (len_length l) end
  | _ : context [len ?l] |- _ => lazymatch goal with
      | _ : len l = Z.of_nat _ |- _ => fail | _ => pose proof (len_length l) end
  end.
Ltac len_lia := autorewrite with len in *; pose_lens; lia.

(** Indexing [s[i]]; out of range panics. *)
Definition idx {A} (l : list A) (i : Z) : outcome A :=
  if i <? 0 then Panic else
  match l !! Z.to_nat i with Some x => Ret x | None => Panic end.

(** Slicing [s[lo:hi]]. *)
Definition slice {A} (l : list A) (lo hi : Z) : outcome (list A) :=
  if (0 <=? lo) && (lo <=? hi) && (hi <=? len l)
  then Ret (take (Z.to_nat (hi - lo)) (drop (Z.to_nat lo) l))
  else Panic.

(** The bytes [s[off:off+n]] as a total function: what is read back from a
    buffer once the bounds are known to hold. *)
Definition sub {A} (l : list A) (off n : Z) : list A :=
  take (Z.to_nat n) (drop (Z.to_nat off) l).

(** [l] with [bs] written over it from [off] on, when it fits. *)
Definition blit {A} (l : list A) (off : Z) (bs : list A) : list A :=
  take (Z.to_nat off) l ++ bs ++ drop (Z.to_nat (off + len bs)) l.

(** Writing into a window of a buffer, [copy(l[off:off+len(bs)], bs)] or
    [PutUintN(l[off:], v)]: the window must exist. *)
Definition put_bytes {A} (l : list A) (off : Z) (bs : list A) : outcome (list A) :=
  if (0 <=? off) && (off + len bs <=? len l) then Ret (blit l off bs) else Panic.

(** ** Encoding integers as bytes ([encoding/binary]) *)

Inductive ByteOrder := LittleEndian | BigEndian.

#[global] Instance ByteOrder_eq_dec : EqDecision ByteOrder.
Proof. solve_decision. Defined.

Fixpoint le_put (n : nat) (v : Z) : bytes :=
  match n with
  | O => []
  | S m => z2b v :: le_put m (v / 256)
  end.

Fixpoint le_get (bs : bytes) : Z :=
  match bs with
  | [] => 0
  | b :: r => b2z b + 256 * le_get r
  end.

Definition put_order (o : ByteOrder) (n : nat) (v : Z) : bytes :=
  match o with LittleEndian => le_put n v | BigEndian => rev (le_put n v) end.
Definition get_order (o : ByteOrder) (bs : bytes) : Z :=
  match o with LittleEndian => le_get bs | BigEndian => le_get (rev bs) end.

(** [binary.LittleEndian.UintN(l[off:off+n])] and [PutUintN]. *)
Definition get_le (n : nat) (l : bytes) (off : Z) : outcome Z :=
  let! s := slice l off (off + Z.of_nat n) in Ret (le_get s).
Definition put_le (n : nat) (l : bytes) (off v : Z) : outcome bytes :=
  put_bytes l off (le_put n v).

(** [r.ReadAt(buf, off)] with a buffer of [n] bytes, on a file with the
    contents [file]: all [n] bytes, or an error. *)
Definition read_at (file : bytes) (off n : Z) : outcome bytes :=
  if (0 <=? off) && (off + n <=? len file)
  then Ret (sub file off n) else Err "EOF".

(** ** Lemmas: slices and windows *)

Lemma idx_ret {A} (l : list A) i x : idx l i = Ret x <-> 0 <= i /\ l !! Z.to_nat i = Some x.
Proof.
  unfold idx. destruct (Z.ltb_spec i 0); [split; [done|lia]|].
  destruct (l !! Z.to_nat i); split; intros; simplify_eq; naive_solver lia.
Qed.

Lemma idx_in_range {A} (l : list A) i : 0 <= i < len l -> exists x, idx l i = Ret x.
Proof.
  intros H. destruct (lookup_lt_is_Some_2 l (Z.to_nat i)) as [x Hx].
  { unfold len in H. lia. }
  exists x. apply idx_ret. split; [lia|done].
Qed.

Lemma idx_lookup {A} (l : list A) (i : nat) x : l !! i = Some x -> idx l (Z.of_nat i) = Ret x.
Proof. intros. apply idx_ret. rewrite Nat2Z.id. split; [lia|done]. Qed.

Lemma idx_some {A} (l : list A) (i : nat) : (i < length l)%nat -> exists x, l !! i = Some x.
Proof. intros H. by apply lookup_lt_is_Some_2 in H as [x ?]; exists x. Qed.

Lemma idx_no_panic {A} (l : list A) i : 0 <= i < len l -> no_panic (idx l i).
Proof. intros [x ->]%idx_in_range. apply no_panic_ret. Qed.

Lemma slice_ret {A} (l : list A) lo hi :
  0 <= lo <= hi -> hi <= len l -> slice l lo hi = Ret (sub l lo (hi - lo)).
Proof.
  intros. unfold slice.
  destruct (Z.leb_spec 0 lo), (Z.leb_spec lo hi), (Z.leb_spec hi (len l)); try lia.
  done.
Qed.

Lemma slice_inv {A} (l : list A) lo hi s :
  slice l lo hi = Ret s -> 0 <= lo <= hi /\ hi <= len l /\ s = sub l lo (hi - lo).
Proof.
  unfold slice. destruct (Z.leb_spec 0 lo), (Z.leb_spec lo hi), (Z.leb_spec hi (len l)); cbn; try done.
  intros [= <-]. done.
Qed.

Lemma slice_not_err {A} (l : list A) lo hi e : slice l lo hi <> Err e.
Proof. unfold slice. by case_match. Qed.

Lemma len_sub {A} (l : list A) off n :
  0 <= off -> 0 <= n -> off + n <= len l -> len (sub l off n) = n.
Proof. intros. unfold sub. len_lia. Qed.

Lemma len_blit {A} (l : list A) off bs :
  0 <= off -> off + len bs <= len l -> len (blit l off bs) = len l.
Proof. intros. unfold blit. len_lia. Qed.

Lemma put_bytes_ret {A} (l : list A) off bs :
  0 <= off -> off + len bs <= len l -> put_bytes l off bs = Ret (blit l off bs).
Proof.
  intros. unfold put_bytes.
  destruct (Z.leb_spec 0 off), (Z.leb_spec (off + len bs) (len l)); try lia. done.
Qed.

Lemma sub_blit_same {A} (l : list A) off bs n :
  0 <= off -> off + len bs <= len l -> n = len bs -> sub (blit l off bs) off n = bs.
Proof.
  intros ?? ->. unfold sub, blit, len in *.
  rewrite drop_app_length' by (rewrite length_take; lia).
  rewrite Nat2Z.id, take_app_length. done.
Qed.

Lemma lookup_blit {A} (l : list A) off bs i :
  0 <= off -> off + len bs <= len l ->
  blit l off bs !! i =
    (if decide (off <= Z.of_nat i < off + len bs)
     then bs !! (i - Z.to_nat off)%nat else l !! i).
Proof.
  intros. unfold blit, len in *. rewrite lookup_app, lookup_take.
  repeat case_decide; try lia.
  - by destruct (l !! i) eqn:E; [|apply lookup_ge_None in E; lia].
  - rewrite length_take, lookup_app_l by lia. f_equal. lia.
  - rewrite length_take, lookup_app_r, lookup_drop by lia. f_equal. lia.
Qed.

Lemma lookup_sub {A} (l : list A) off n i :
  0 <= off ->
  sub l off n !! i = (if decide (Z.of_nat i < n) then l !! (Z.to_nat off + i)%nat else None).
Proof.
  intros. unfold sub. rewrite lookup_take, lookup_drop.
  repeat case_decide; try lia; done.
Qed.

Lemma sub_blit_other {A} (l : list A) off bs o n :
  0 <= off -> off + len bs <= len l -> 0 <= o -> 0 <= n ->
  o + n <= off \/ off + len bs <= o ->
  sub (blit l off bs) o n = sub l o n.
Proof.
  intros. apply list_eq. intros i. rewrite !lookup_sub by done.
  case_decide; [|done]. rewrite lookup_blit by done.
  case_decide; [lia|done].
Qed.

Lemma read_at_ret file off n :
  0 <= off -> off + n <= len file -> read_at file off n = Ret (sub file off n).
Proof.
  intros. unfold read_at.
  destruct (Z.leb_spec 0 off), (Z.leb_spec (off + n) (len file)); try lia. done.
Qed.

Lemma read_at_inv file off n s :
  read_at file off n = Ret s -> 0 <= off /\ off + n <= len file /\ s = sub file off n.
Proof.
  unfold read_at. destruct (Z.leb_spec 0 off), (Z.leb_spec (off + n) (len file)); cbn; try done.
  intros [= <-]. done.
Qed.

Lemma read_at_no_panic file off n : no_panic (read_at file off n).
Proof. unfold read_at. case_match; auto with go. Qed.
#[export] Hint Resolve read_at_no_panic : go.

(** ** Lemmas: integer codecs *)

Lemma length_le_put n v : length (le_put n v) = n.
Proof. revert v. induction n; intros; cbn; auto. Qed.
Lemma len_le_put n v : len (le_put n v) = Z.of_nat n.
Proof. unfold len. by rewrite length_le_put. Qed.
#[export] Hint Rewrite len_le_put : len.

Lemma le_get_put n v : le_get (le_put n v) = v mod 256 ^ Z.of_nat n.
Proof.
  revert v. induction n as [|n IH]; intros v; cbn [le_put le_get].
  - by rewrite Z.mod_1_r.
  - rewrite IH, b2z_z2b, Nat2Z.inj_succ, Z.pow_succ_r by lia.
    rewrite Z.rem_mul_r by lia. done.
Qed.

Lemma le_get_range bs : 0 <= le_get bs < 256 ^ len bs.
Proof.
  induction bs as [|b bs IH]; cbn [le_get].
  - done.
  - rewrite len_cons, Z.add_comm, Z.pow_add_r, Z.pow_1_r by (pose_lens; lia).
    pose proof (b2z_range b). nia.
Qed.

Lemma le_put_get bs : le_put (length bs) (le_get bs) = bs.
Proof.
  induction bs as [|b bs IH]; cbn [length le_put le_get]; [done|].
  pose proof (b2z_range b). f_equal.
  - apply b2z_inj. rewrite b2z_z2b, Z.mul_comm, Z.mod_add, Z.mod_small by lia. done.
  - rewrite Z.mul_comm, Z.div_add, Z.div_small by lia. by rewrite Z.add_0_l.
Qed.

Lemma le_get_put_small n v : 0 <= v < 256 ^ Z.of_nat n -> le_get (le_put n v) = v.
Proof. intros. rewrite le_get_put. by apply Z.mod_small. Qed.

Lemma le_put_inj n v w :
  0 <= v < 256 ^ Z.of_nat n -> 0 <= w < 256 ^ Z.of_nat n -> le_put n v = le_put n w -> v = w.
Proof. intros Hv Hw H. by rewrite <- (le_get_put_small n v), H, le_get_put_small. Qed.

Lemma get_put_order o n v : get_order o (put_order o n v) = v mod 256 ^ Z.of_nat n.
Proof. destruct o; cbn; rewrite ?rev_involutive; apply le_get_put. Qed.

Lemma get_order_range o bs n : len bs = n -> 0 <= get_order o bs < 256 ^ n.
Proof.
  intros <-. unfold get_order. destruct o; [apply le_get_range|]. pose proof (le_get_range (rev bs)) as H.
  unfold len in *. by rewrite length_rev in H.
Qed.

Lemma len_put_order o n v : len (put_order o n v) = Z.of_nat n.
Proof.
  destruct o; cbn; unfold len; rewrite ?length_rev, length_le_put; done.
Qed.
#[export] Hint Rewrite len_put_order : len.

Lemma get_le_ret n l off :
  0 <= off -> off + Z.of_nat n <= len l -> get_le n l off = Ret (le_get (sub l off (Z.of_nat n))).
Proof. intros. unfold get_le. rewrite slice_ret by lia. cbn. do 3 f_equal. lia. Qed.

Lemma put_le_ret n l off v :
  0 <= off -> off + Z.of_nat n <= len l -> put_le n l off v = Ret (blit l off (le_put n v)).
Proof. intros. unfold put_le. apply put_bytes_ret; len_lia. Qed.

(** ** Go's [sort.Search]

    Binary search for the least index in [[0, n)] at which [f] holds, as the
    standard library computes it. *)
Fixpoint search_loop (fuel : nat) (f : nat -> bool) (i j : nat) : nat :=
  match fuel with
  | O => i
  | S fuel =>
      if (i <? j)%nat then
        let h := ((i + j) / 2)%nat in
        if f h then search_loop fuel f i h else search_loop fuel f (S h) j
      else i
  end.

Definition sort_search (n : nat) (f : nat -> bool) : nat := search_loop n f 0 n.

Lemma search_loop_spec f lo i j fuel :
  (forall k, (k < lo)%nat -> f k = false) -> (forall k, (lo <= k)%nat -> (k < j)%nat -> f k = true) ->
  (i <= lo <= j)%nat -> (j - i <= fuel)%nat -> search_loop fuel f i j = lo.
Proof.
  intros Hf. revert i j. induction fuel as [|fuel IH]; intros i j Ht Hr Hfuel; cbn [search_loop]; [lia|].
  destruct (Nat.ltb_spec i j); [|lia].
  pose proof (Nat.Div0.div_lt_upper_bound (i + j) 2 j ltac:(lia)).
  pose proof (Nat.div_le_lower_bound (i + j) 2 i ltac:(lia) ltac:(lia)).
  destruct (f ((i + j) / 2)%nat) eqn:E.
  - apply IH; [intros; apply Ht; lia| |lia]. split; [lia|].
    destruct (decide ((i + j) / 2 < lo)%nat) as [Hl|]; [|lia].
    rewrite Hf in E by done. done.
  - apply IH; [done| |lia]. split; [|lia].
    destruct (decide (lo <= (i + j) / 2)%nat) as [Hl|]; [|lia].
    rewrite Ht in E by done. done.
Qed.

(** On a monotone predicate, [sort_search] returns the boundary. *)
Lemma sort_search_spec n f lo :
  (lo <= n)%nat -> (forall k, (k < lo)%nat -> f k = false) ->
  (forall k, (lo <= k)%nat -> (k < n)%nat -> f k = true) -> sort_search n f = lo.
Proof. intros. apply search_loop_spec; auto; lia. Qed.

(** ** Counted loops

    [for_loop n i body s] runs [body] for the [n] counter values from [i] on,
    threading the state [s]. *)
Fixpoint for_loop {S : Type} (n : nat) (i : Z) (body : Z -> S -> outcome S) (s : S) : outcome S :=
  match n with
  | O => Ret s
  | Datatypes.S m => let! s' := body i s in for_loop m (i + 1) body s'
  end.

(** The invariant rule: a body that always returns and keeps [P]. *)
Lemma for_loop_inv {S} (P : Z -> S -> Prop) n i (body : Z -> S -> outcome S) s :
  P i s ->
  (forall j t, i <= j < i + Z.of_nat n -> P j t -> exists t', body j t = Ret t' /\ P (j + 1) t') ->
  exists s', for_loop n i body s = Ret s' /\ P (i + Z.of_nat n) s'.
Proof.
  revert i s. induction n as [|n IH]; intros i s H0 Hb; cbn [for_loop].
  - exists s. split; [done|]. by rewrite Z.add_0_r.
  - destruct (Hb i s) as (t & -> & Ht); [lia|done|]. cbn [obind].
    destruct (IH (i + 1) t Ht) as (s' & -> & Hs').
    + intros j u Hj Hu. apply Hb; [lia|done].
    + exists s'. split; [done|]. by replace (i + Z.of_nat (Datatypes.S n)) with (i + 1 + Z.of_nat n) by lia.
Qed.

Lemma for_loop_ext {S} n i (f g : Z -> S -> outcome S) s :
  (forall j t, i <= j < i + Z.of_nat n -> f j t = g j t) -> for_loop n i f s = for_loop n i g s.
Proof.
  revert i s. induction n as [|n IH]; intros i s H; cbn [for_loop]; [done|].
  rewrite H by lia. destruct (g i s); cbn [obind]; [|done|done]. apply IH. intros j t Hj. apply H. lia.
Qed.

(** Loops over a list. *)
Fixpoint for_each {A S : Type} (l : list A) (body : A -> S -> outcome S) (s : S) : outcome S :=
  match l with
  | [] => Ret s
  | x :: l => let! s' := body x s in for_each l body s'
  end.

Lemma for_loop_each {S} n : forall i (body : Z -> S -> outcome S) s,
  for_loop n i body s = for_each (seqZ i (Z.of_nat n)) body s.
Proof.
  induction n as [|n IH]; intros i body s; [done|]. rewrite seqZ_cons by lia. cbn [for_loop for_each].
  rewrite Z.add_1_r. destruct (body i s); cbn [obind]; [|done|done].
  rewrite IH. do 2 f_equal. lia.
Qed.

Lemma for_each_app {A S} (l k : list A) (body : A -> S -> outcome S) s :
  for_each (l ++ k) body s = let! s' := for_each l body s in for_each k body s'.
Proof.
  revert s. induction l as [|x l IH]; intros s; cbn; [done|]. destruct (body x s); cbn [obind]; [apply IH|done|done].
Qed.

Lemma for_each_map {A B S} (f : A -> B) (l : list A) (body : B -> S -> outcome S) s :
  for_each (map f l) body s = for_each l (fun x => body (f x)) s.
Proof. revert s. induction l as [|x l IH]; intros s; cbn; [done|]. destruct (body (f x) s); cbn [obind]; [apply IH|done|done]. Qed.

Lemma for_each_flat_map {A B S} (f : A -> list B) (l : list A) (body : B -> S -> outcome S) s :
  for_each (flat_map f l) body s = for_each l (fun x => for_each (f x) body) s.
Proof.
  revert s. induction l as [|x l IH]; intros s; cbn; [done|]. rewrite for_each_app.
  destruct (for_each (f x) body s); cbn [obind]; [apply IH|done|done].
Qed.

Lemma for_each_ext {A S} (l : list A) (f g : A -> S -> outcome S) s :
  (forall x t, x ∈ l -> f x t = g x t) -> for_each l f s = for_each l g s.
Proof.
  revert s. induction l as [|x l IH]; intros s H; cbn; [done|]. rewrite H by left.
  destruct (g x s); cbn [obind]; [|done|done]. apply IH. intros y t Hy. apply H. by right.
Qed.

(** The invariant rule. *)
Lemma for_each_inv {A S} (P : list A -> S -> Prop) (body : A -> S -> outcome S) l : forall done s,
  P done s ->
  (forall d x t, d ++ [x] `prefix_of` done ++ l -> P d t -> exists t', body x t = Ret t' /\ P (d ++ [x]) t') ->
  exists s', for_each l body s = Ret s' /\ P (done ++ l) s'.
Proof.
  induction l as [|x l IH]; intros done s H0 Hb; cbn [for_each].
  - exists s. by rewrite app_nil_r.
  - destruct (Hb done x s) as (t & -> & Ht); [|exact H0|].
    { exists l. by rewrite <- app_assoc. }
    cbn [obind]. destruct (IH (done ++ [x]) t Ht) as (s' & E & Hs').
    + intros d y u Hp. apply Hb. by rewrite <- app_assoc in Hp.
    + exists s'. split; [exact E|]. by rewrite <- app_assoc in Hs'.
Qed.

(** Writing one element. *)
Definition set_idx {A} (l : list A) (i : Z) (x : A) : outcome (list A) :=
  if (0 <=? i) && (i <? len l) then Ret (<[Z.to_nat i := x]> l) else Panic.

Lemma set_idx_ret {A} (l : list A) i x :
  0 <= i < len l -> set_idx l i x = Ret (<[Z.to_nat i := x]> l).
Proof.
  intros. unfold set_idx. destruct (Z.leb_spec 0 i), (Z.ltb_spec i (len l)); try lia. done.
Qed.

Lemma len_insert {A} (l : list A) i x : len (<[i := x]> l) = len l.
Proof. unfold len. by rewrite length_insert. Qed.
#[export] Hint Rewrite @len_insert : len.

Lemma len_lookup_lt {A} (l : list A) i : 0 <= i < len l -> is_Some (l !! Z.to_nat i).
Proof. intros. apply lookup_lt_is_Some_2. unfold len in *. lia. Qed.

Lemma lookup_len {A} (l : list A) (i : nat) x : l !! i = Some x -> Z.of_nat i < len l.
Proof. intros H%lookup_lt_Some. unfold len. lia. Qed.

(** ** Bit fields *)

(** Or-ing a value below [2^n] into one shifted by [n] is an addition. *)
Lemma land_shiftl_low hi lo n : 0 <= n -> 0 <= lo < 2 ^ n -> Z.land (Z.shiftl hi n) lo = 0.
Proof.
  intros Hn Hlo. apply Z.bits_inj'. intros i Hi.
  rewrite Z.land_spec, Z.shiftl_spec, Z.bits_0 by done.
  destruct (Z.ltb_spec i n).
  - by rewrite (Z.testbit_neg_r _ (i - n)) by lia.
  - assert (Z.testbit lo i = false) as ->; [|by rewrite andb_false_r].
    rewrite <- (Z.mod_small lo (2 ^ n)) by done. by apply Z.mod_pow2_bits_high.
Qed.

Lemma lor_shiftl_add hi lo n :
  0 <= n -> 0 <= lo < 2 ^ n -> Z.lor (Z.shiftl hi n) lo = hi * 2 ^ n + lo.
Proof.
  intros Hn Hlo. rewrite <- Z.shiftl_mul_pow2 by done.
  rewrite Z.add_nocarry_lxor by by apply land_shiftl_low.
  symmetry. apply Z.lxor_lor. by apply land_shiftl_low.
Qed.

Lemma lor_add_shiftl hi lo n :
  0 <= n -> 0 <= lo < 2 ^ n -> Z.lor lo (Z.shiftl hi n) = lo + hi * 2 ^ n.
Proof. intros. rewrite Z.lor_comm, lor_shiftl_add by done. apply Z.add_comm. Qed.

(** Overwriting the middle part of a buffer. *)
Lemma blit_app {A} (pre old post bs : list A) off :
  off = len pre -> len old = len bs -> blit (pre ++ old ++ post) off bs = pre ++ bs ++ post.
Proof.
  intros -> Ho. unfold blit, len in *. rewrite Nat2Z.id, take_app_length. do 2 f_equal.
  rewrite <- Ho, <- Nat2Z.inj_add, Nat2Z.id, app_assoc, <- length_app. apply drop_app_length.
Qed.

Lemma sub_app {A} (pre mid post : list A) off n :
  off = len pre -> n = len mid -> sub (pre ++ mid ++ post) off n = mid.
Proof.
  intros -> ->. unfold sub, len. rewrite !Nat2Z.id, drop_app_length. apply take_app_length.
Qed.

Lemma sub_all {A} (l : list A) n : n = len l -> sub l 0 n = l.
Proof. intros ->. unfold sub, len. rewrite Nat2Z.id. by apply take_ge. Qed.

Lemma blit_start {A} (old post bs : list A) : len old = len bs -> blit (old ++ post) 0 bs = bs ++ post.
Proof. intros. by apply (blit_app []). Qed.

Lemma blit_end {A} (pre old bs : list A) off :
  off = len pre -> len old = len bs -> blit (pre ++ old) off bs = pre ++ bs.
Proof. intros. pose proof (blit_app pre old [] bs off) as H'. rewrite !app_nil_r in H'. auto. Qed.

(** Facts about all values of a byte, by enumeration. *)
Lemma byte_enum (p : Z -> bool) :
  forallb p (map Z.of_nat (seq 0 256)) = true -> forall x, 0 <= x < 256 -> p x = true.
Proof.
  intros H x Hx. rewrite forallb_forall in H. apply H. apply in_map_iff.
  exists (Z.to_nat x). split; [lia|]. apply in_seq. lia.
Qed.

(** Indexing past a prefix. *)
Lemma idx_app_r {A} (pre l : list A) i : 0 <= i -> idx (pre ++ l) (len pre + i) = idx l i.
Proof.
  intros Hi. unfold idx, len. destruct (Z.ltb_spec (Z.of_nat (length pre) + i) 0), (Z.ltb_spec i 0); try lia.
  rewrite lookup_app_r by lia. by replace (Z.to_nat (Z.of_nat (length pre) + i) - length pre)%nat with (Z.to_nat i) by lia.
Qed.

Lemma idx_app_0 {A} (pre l : list A) : idx (pre ++ l) (len pre) = idx l 0.
Proof. by rewrite <- (Z.add_0_r (len pre)), idx_app_r by lia. Qed.

Lemma idx_head {A} (x : A) l : idx (x :: l) 0 = Ret x.
Proof. done. Qed.

(** Reading an integer field at a known place of a buffer. *)
Lemma get_le_app n pre v post off :
  off = len pre -> 0 <= v < 256 ^ Z.of_nat n -> get_le n (pre ++ le_put n v ++ post) off = Ret v.
Proof.
  intros -> Hv. rewrite get_le_ret by len_lia. rewrite sub_app by len_lia.
  by rewrite le_get_put_small.
Qed.

Lemma get_le_no_err n l off e : get_le n l off <> Err e.
Proof. unfold get_le, slice. by case_match. Qed.

Lemma get_le_in_range n l off :
  0 <= off -> off + Z.of_nat n <= len l ->
  exists v, get_le n l off = Ret v /\ 0 <= v < 256 ^ Z.of_nat n.
Proof.
  intros. rewrite get_le_ret by done. eexists. split; [done|].
  pose proof (le_get_range (sub l off (Z.of_nat n))) as Hr. by rewrite len_sub in Hr by lia.
Qed.

(** [destruct (b : bool)] on the arithmetic tests of the code. *)
Ltac zcase t := let H := fresh "Hz" in destruct t as [H|H]; try lia.

Lemma get_le_at n data pre v post off :
  data = pre ++ le_put n v ++ post -> off = len pre -> 0 <= v < 256 ^ Z.of_nat n ->
  get_le n data off = Ret v.
Proof. intros ->. apply get_le_app. Qed.

Lemma slice_at {A} (data pre mid post : list A) lo hi :
  data = pre ++ mid ++ post -> lo = len pre -> hi = lo + len mid -> slice data lo hi = Ret mid.
Proof.
  intros -> -> ->. rewrite slice_ret by len_lia. f_equal. apply sub_app; lia.
Qed.

(** The first test on integers in the goal, by cases; impossible cases are
    closed. *)
Ltac ztest :=
  rewrite ?Z.gtb_ltb, ?Z.geb_leb;
  match goal with
  | |- context [?a <? ?b] => zcase (Z.ltb_spec a b)
  | |- context [?a <=? ?b] => zcase (Z.leb_spec a b)
  | |- context [?a =? ?b] => zcase (Z.eqb_spec a b)
  end.

(** ** Sequential writing into a zeroed buffer

    Encoders fill a zeroed buffer from the front: what is written so far is
    [pre], the rest is [zeros k]. *)

Definition zeros (n : Z) : bytes := replicate (Z.to_nat n) x00.

Lemma len_zeros n : 0 <= n -> len (zeros n) = n.
Proof. intros. unfold zeros. rewrite len_replicate. lia. Qed.

Lemma zeros_app n m : 0 <= n -> 0 <= m -> zeros n ++ zeros m = zeros (n + m).
Proof. intros. unfold zeros. rewrite <- replicate_add. f_equal. lia. Qed.

Lemma put_bytes_cursor pre k bs off :
  off = len pre -> len bs <= k -> put_bytes (pre ++ zeros k) off bs = Ret ((pre ++ bs) ++ zeros (k - len bs)).
Proof.
  intros -> Hk. pose proof (len_nonneg bs). pose proof (len_nonneg pre).
  replace (zeros k) with (zeros (len bs) ++ zeros (k - len bs)) by (rewrite zeros_app by lia; f_equal; lia).
  rewrite put_bytes_ret by (rewrite ?len_app, ?len_zeros by lia; lia).
  rewrite blit_app by (done || (rewrite len_zeros; lia)). by rewrite app_assoc.
Qed.

Lemma put_le_cursor n pre k v off :
  off = len pre -> Z.of_nat n <= k ->
  put_le n (pre ++ zeros k) off v = Ret ((pre ++ le_put n v) ++ zeros (k - Z.of_nat n)).
Proof. intros. unfold put_le. rewrite put_bytes_cursor by (rewrite ?len_le_put; done). by rewrite len_le_put. Qed.

Lemma zeros_split k n : 0 <= n <= k -> zeros k = zeros n ++ zeros (k - n).
Proof. intros. rewrite zeros_app by lia. f_equal. lia. Qed.

(** A write that leaves [g] bytes of the zeroed buffer unwritten. *)
Lemma put_bytes_gap pre k g bs off :
  off = len pre + g -> 0 <= g -> g + len bs <= k ->
  put_bytes (pre ++ zeros k) off bs = Ret ((pre ++ zeros g ++ bs) ++ zeros (k - g - len bs)).
Proof.
  intros -> Hg Hk. pose proof (len_nonneg bs). rewrite (zeros_split k g), app_assoc by lia.
  rewrite put_bytes_cursor by (rewrite ?len_app, ?len_zeros by lia; lia). by rewrite <- !app_assoc.
Qed.

Lemma put_le_gap n pre k g v off :
  off = len pre + g -> 0 <= g -> g + Z.of_nat n <= k ->
  put_le n (pre ++ zeros k) off v = Ret ((pre ++ zeros g ++ le_put n v) ++ zeros (k - g - Z.of_nat n)).
Proof. intros. unfold put_le. rewrite (put_bytes_gap _ _ g) by (rewrite ?len_le_put; done). by rewrite len_le_put. Qed.

(** Go's [copy(buf[off:], bs)]. *)
Definition copy_bytes (buf : bytes) (off : Z) (bs : bytes) : outcome bytes :=
  if (0 <=? off) && (off <=? len buf) then Ret (blit buf off (take (Z.to_nat (len buf - off)) bs)) else Panic.

Lemma copy_bytes_cursor pre k bs off : off = len pre -> len bs <= k ->
  copy_bytes (pre ++ zeros k) off bs = Ret ((pre ++ bs) ++ zeros (k - len bs)).
Proof.
  intros -> Hk. pose proof (len_nonneg bs). pose proof (len_nonneg pre). unfold copy_bytes. rewrite len_app, len_zeros by lia.
  destruct (Z.leb_spec 0 (len pre)), (Z.leb_spec (len pre) (len pre + k)); try lia. cbn [andb].
  rewrite take_ge by (unfold len in *; lia). f_equal. rewrite (zeros_split k (len bs)) by lia.
  rewrite blit_app by (done || (rewrite len_zeros; lia)). by rewrite app_assoc.
Qed.

(** A sequence of writes into a buffer, each at its own offset. *)
Fixpoint putFields (buf : bytes) (fields : list (Z * bytes)) : outcome bytes :=
  match fields with
  | [] => Ret buf
  | (off, bs) :: rest => let! buf := put_bytes buf off bs in putFields buf rest
  end.

(** Fields written one after the other from the front of the buffer. *)
Fixpoint contiguous (off : Z) (fields : list (Z * bytes)) : Prop :=
  match fields with
  | [] => True
  | (o, bs) :: rest => o = off /\ contiguous (off + len bs) rest
  end.

Lemma putFields_ret fields : forall pre k,
  contiguous (len pre) fields -> len (concat (map snd fields)) <= k ->
  putFields (pre ++ zeros k) fields =
    Ret (pre ++ concat (map snd fields) ++ zeros (k - len (concat (map snd fields)))).
Proof.
  induction fields as [|[o bs] fields IH]; intros pre k Hc Hk; cbn [putFields map snd concat] in *.
  - rewrite len_nil, Z.sub_0_r. done.
  - destruct Hc as [-> Hc]. rewrite len_app in *. pose proof (len_nonneg (concat (map snd fields))).
    rewrite put_bytes_cursor by lia. cbn [obind].
    rewrite IH by (rewrite ?len_app; done || lia). rewrite <- !app_assoc. do 5 f_equal. lia.
Qed.

(** The two conditions of [putFields_ret] on a list of fields of known sizes. *)
Ltac fields_tac :=
  cbn [contiguous map snd concat]; autorewrite with len;
  first [split_and!; first [reflexivity|exact I] | reflexivity | lia].
