(* ===== verification/Overflow.v ===== *)
(** * Checked arithmetic of internal/utils/overflow.go

    [CheckMultiplyOverflow], [SafeMultiply], the chunk-size computations,
    buffer-size validation and the hyperslab bounds checks, with 64-bit
    wrap-around written out wherever the code computes without a check.
    Error values keep the constant prefix of the code's message. *)

From S2P Require Import Prelude.

(** ** Definitions *)

Definition CheckMultiplyOverflow (a b : Z) : outcome unit :=
  if (a =? 0) || (b =? 0) then Ret tt
  else if a >? MaxUint64 / b then Err "multiplication overflow"
  else Ret tt.

Definition SafeMultiply (a b : Z) : outcome Z :=
  let! _ := CheckMultiplyOverflow a b in
  Ret (u64 (a * b)).

(** The loop over [dimensions] shared by both chunk-size functions: the only
    difference between them is the width of a dimension, and a [uint32] is
    converted to [uint64] without change. *)
Fixpoint chunkSizeLoop (size : Z) (dimensions : list Z) : outcome Z :=
  match dimensions with
  | [] => Ret size
  | dim :: rest =>
      guard negb ((dim >? 0) && (size >? MaxUint64 / dim))
        else "chunk size overflow at dimension";;
      chunkSizeLoop (u64 (size * dim)) rest
  end.

Definition CalculateChunkSize64 (dimensions : list Z) (elementSize : Z) : outcome Z :=
  guard negb (len dimensions =? 0) else "no dimensions provided";;
  guard negb (elementSize =? 0) else "element size cannot be zero";;
  let! size := chunkSizeLoop 1 dimensions in
  guard negb (size >? MaxUint64 / elementSize)
    else "chunk size overflow: total size too large";;
  Ret (u64 (size * elementSize)).

(** [CalculateChunkSize] converts each [uint32] dimension to [uint64] first. *)
Definition CalculateChunkSize (dimensions : list Z) (elementSize : Z) : outcome Z :=
  guard negb (len dimensions =? 0) else "no dimensions provided";;
  guard negb (elementSize =? 0) else "element size cannot be zero";;
  let! size := chunkSizeLoop 1 (map u64 dimensions) in
  guard negb (size >? MaxUint64 / elementSize)
    else "chunk size overflow: total size too large";;
  Ret (u64 (size * elementSize)).

Definition ValidateBufferSize (size maxSize : Z) (description : string) : outcome unit :=
  guard negb (size =? 0) else (description ++ ": size cannot be zero")%string;;
  guard negb (size >? maxSize) else (description ++ ": size exceeds maximum")%string;;
  Ret tt.

Definition MaxChunkSize : Z := 1024 * 1024 * 1024.
Definition MaxAttributeSize : Z := 64 * 1024 * 1024.
Definition MaxStringSize : Z := 16 * 1024 * 1024.
Definition MaxHyperslabElements : Z := 1000000000.

(** One dimension of the hyperslab check. *)
Definition checkDim (start count stride dim : Z) : outcome unit :=
  guard negb (count =? 0) else "hyperslab count must be > 0";;
  let! maxIndex := SafeMultiply (u64 (count - 1)) stride in
  let endIndex := u64 (start + maxIndex) in
  guard negb (endIndex >=? dim) else "hyperslab selection exceeds dataset bounds";;
  Ret tt.

Fixpoint checkDims (start count stride dims : list Z) : outcome unit :=
  match start, count, stride, dims with
  | s :: ss, c :: cs, t :: ts, d :: ds =>
      let! _ := checkDim s c t d in checkDims ss cs ts ds
  | _, _, _, _ => Ret tt
  end.

Definition ValidateHyperslabBounds (start count stride dims : list Z) : outcome unit :=
  guard negb (negb (len start =? len dims) || negb (len count =? len dims)
              || negb (len stride =? len dims))
    else "hyperslab dimension mismatch";;
  checkDims start count stride dims.

Fixpoint countLoop (total : Z) (count : list Z) : outcome Z :=
  match count with
  | [] => Ret total
  | c :: rest =>
      guard negb (c =? 0) else "zero count at dimension";;
      let! _ := CheckMultiplyOverflow total c in
      countLoop (u64 (total * c)) rest
  end.

Definition CalculateHyperslabElements (count : list Z) : outcome Z :=
  guard negb (len count =? 0) else "empty hyperslab count";;
  let! total := countLoop 1 count in
  let! _ := ValidateBufferSize total MaxHyperslabElements "hyperslab selection" in
  Ret total.

(** Mathematical product of a list, the reference for the checked loops. *)
Definition prod (l : list Z) : Z := foldr Z.mul 1 l.

(** The last index a hyperslab selects along one dimension. *)
Definition last_index (start count stride : Z) : Z := start + (count - 1) * stride.

(** ** Helper lemmas *)

Lemma div_guard a b : 0 < b -> (a >? MaxUint64 / b) = negb (a * b <? 2 ^ 64).
Proof.
  intros Hb. unfold MaxUint64.
  destruct (Z.gtb_spec a ((2 ^ 64 - 1) / b)), (Z.ltb_spec (a * b) (2 ^ 64)) as [H1|H1]; cbn; try done; exfalso.
  - assert (a <= (2 ^ 64 - 1) / b) by (apply Z.div_le_lower_bound; [done|clear - H1; lia]). lia.
  - pose proof (Z.mul_div_le (2 ^ 64 - 1) b ltac:(lia)). nia.
Qed.

Lemma SafeMultiply_eq a b :
  is_u 64 a -> is_u 64 b ->
  SafeMultiply a b = if a * b <? 2 ^ 64 then Ret (a * b) else Err "multiplication overflow".
Proof.
  unfold is_u. intros Ha Hb. unfold SafeMultiply, CheckMultiplyOverflow.
  destruct (Z.eqb_spec a 0) as [->|]; [by rewrite Z.mul_0_l|].
  destruct (Z.eqb_spec b 0) as [->|]; [by rewrite Z.mul_0_r|]. cbn [orb].
  rewrite div_guard by lia. destruct (Z.ltb_spec (a * b) (2 ^ 64)); cbn [negb obind]; [|done].
  by rewrite u64_id by (unfold is_u; nia).
Qed.

Lemma prod_nonneg l : Forall (is_u 64) l -> 0 <= prod l.
Proof. induction 1; cbn; [lia|]. unfold is_u in *. unfold prod in *. nia. Qed.

Lemma prod_pos l : Forall (fun d => 0 < d) l -> 0 < prod l.
Proof. induction 1; cbn; [lia|]. unfold prod in *. nia. Qed.

Lemma chunkSizeLoop_sound dims size v :
  Forall (is_u 64) dims -> is_u 64 size ->
  chunkSizeLoop size dims = Ret v -> v = size * prod dims /\ is_u 64 v.
Proof.
  intros Hd. revert size. induction Hd as [|d dims Hdim _ IH]; intros size Hs; cbn.
  - intros [= <-]. split; [lia|done].
  - destruct (Z.gtb_spec d 0) as [Hpos|Hz]; cbn [andb].
    + rewrite div_guard by lia. destruct (Z.ltb_spec (size * d) (2 ^ 64)); cbn [negb]; [|done].
      rewrite u64_id by (unfold is_u in *; nia). intros [-> ?]%IH; [|unfold is_u in *; nia].
      split; [unfold prod; ring|done].
    + assert (d = 0) as -> by (unfold is_u in *; lia). cbn [negb].
      rewrite Z.mul_0_r. change (u64 0) with 0. intros [-> ?]%IH; [|done]. split; [lia|done].
Qed.

Lemma chunkSizeLoop_complete dims size :
  Forall (fun d => 0 < d) dims -> 0 < size -> size * prod dims < 2 ^ 64 ->
  chunkSizeLoop size dims = Ret (size * prod dims).
Proof.
  intros Hd. revert size. induction Hd as [|d dims Hdim Hds IH]; intros size Hs Hb; cbn in *.
  - f_equal. lia.
  - pose proof (prod_pos dims Hds). change (foldr Z.mul 1 dims) with (prod dims) in *.
    rewrite div_guard by lia. destruct (Z.ltb_spec (size * d) (2 ^ 64)); [|nia].
    rewrite andb_false_r. cbn [negb]. rewrite u64_id by (unfold is_u; nia).
    rewrite IH; [f_equal; ring|nia|nia].
Qed.

Lemma chunkSizeLoop_no_panic dims size : no_panic (chunkSizeLoop size dims).
Proof.
  revert size. induction dims; intros; cbn; [auto with go|]. case_match; auto with go.
Qed.

Lemma countLoop_eq count total :
  Forall (is_u 64) count -> Forall (fun c => 0 < c) count -> 0 < total < 2 ^ 64 ->
  countLoop total count =
    if total * prod count <? 2 ^ 64 then Ret (total * prod count)
    else Err "multiplication overflow".
Proof.
  intros Hu Hp. revert total. induction count as [|c count IH]; intros total Ht; cbn.
  - rewrite Z.mul_1_r. destruct (Z.ltb_spec total (2 ^ 64)); [done|lia].
  - apply Forall_cons in Hu as [Hc Hu], Hp as [Hcp Hp]. change (foldr Z.mul 1 count) with (prod count).
    pose proof (prod_pos count Hp).
    destruct (Z.eqb_spec c 0); [lia|]. cbn [negb]. unfold CheckMultiplyOverflow.
    destruct (Z.eqb_spec total 0), (Z.eqb_spec c 0); try lia. cbn [orb].
    rewrite div_guard by lia. destruct (Z.ltb_spec (total * c) (2 ^ 64)); cbn [negb obind].
    + rewrite u64_id by (unfold is_u; nia). rewrite IH by (done || nia).
      by rewrite Z.mul_assoc.
    + destruct (Z.ltb_spec (total * (c * prod count)) (2 ^ 64)); [nia|done].
Qed.

Lemma countLoop_pos count total t :
  Forall (is_u 64) count -> countLoop total count = Ret t -> Forall (fun c => 0 < c) count.
Proof.
  revert total. induction count as [|c count IH]; intros total Hu; cbn; [constructor|].
  apply Forall_cons in Hu as [Hc Hu]. destruct (Z.eqb_spec c 0); cbn [negb]; [done|].
  intros (_ & _ & H%IH)%obind_ret_inv; [|done]. constructor; [unfold is_u in Hc; lia|done].
Qed.

Lemma checkDim_ret start count stride dim :
  is_u 64 start -> is_u 64 count -> is_u 64 stride ->
  last_index start count stride < 2 ^ 64 ->
  checkDim start count stride dim = Ret tt <-> 0 < count /\ last_index start count stride < dim.
Proof.
  unfold is_u, checkDim, last_index. intros Hs Hc Ht Hl.
  destruct (Z.eqb_spec count 0) as [->|Hn]; cbn [negb].
  { split; [done|lia]. }
  rewrite u64_id by (unfold is_u; lia). rewrite SafeMultiply_eq by (unfold is_u; lia).
  destruct (Z.ltb_spec ((count - 1) * stride) (2 ^ 64)); cbn [obind]; [|lia].
  rewrite u64_id by (unfold is_u; nia).
  rewrite Z.geb_leb. destruct (Z.leb_spec dim (start + (count - 1) * stride)); cbn [negb].
  - split; [done|lia].
  - split; [lia|done].
Qed.

(** ** Properties *)

(** [CalculateChunkSize64] never wraps: what it returns is the exact
    product of the dimensions and the element size, and for positive
    dimensions it returns a size exactly when that product fits in 64 bits. *)
Theorem CalculateChunkSize64_exact dims es :
  Forall (is_u 64) dims -> is_u 64 es ->
  (forall v, CalculateChunkSize64 dims es = Ret v -> v = prod dims * es /\ v < 2 ^ 64) /\
  (Forall (fun d => 0 < d) dims -> dims <> [] -> 0 < es ->
   CalculateChunkSize64 dims es = Ret (prod dims * es) <-> prod dims * es < 2 ^ 64).
Proof.
  intros Hd He. assert (Hsound : forall v,
    CalculateChunkSize64 dims es = Ret v -> v = prod dims * es /\ v < 2 ^ 64).
  { unfold CalculateChunkSize64, is_u in *. intros v. do 2 (case_match; [|done]).
    intros (size & Hsz & H')%obind_ret_inv.
    apply chunkSizeLoop_sound in Hsz as [-> Hu]; [|done|unfold is_u; lia].
    unfold is_u in Hu. rewrite Z.mul_1_l, div_guard, negb_involutive in H' by lia.
    destruct (Z.ltb_spec (prod dims * es) (2 ^ 64)); [|done].
    rewrite u64_id in H' by (unfold is_u; nia). injection H' as <-. done. }
  split; [done|]. intros Hp Hne Hes. split; [naive_solver|]. intros Hb.
  unfold CalculateChunkSize64. pose proof (prod_pos dims Hp).
  destruct (Z.eqb_spec (len dims) 0) as [E|]; [by apply len_0_nil in E|].
  destruct (Z.eqb_spec es 0); [lia|]. cbn [negb].
  rewrite chunkSizeLoop_complete by (done || nia). cbn [obind].
  rewrite Z.mul_1_l, div_guard, negb_involutive by lia.
  destruct (Z.ltb_spec (prod dims * es) (2 ^ 64)); [|lia].
  by rewrite u64_id by (unfold is_u; nia).
Qed.

Example CalculateChunkSize64_exact_witness :
  CalculateChunkSize64 [1024; 4096] 8 = Ret (prod [1024; 4096] * 8) <->
  prod [1024; 4096] * 8 < 2 ^ 64.
Proof.
  apply (proj2 (CalculateChunkSize64_exact [1024; 4096] 8
    ltac:(repeat constructor; vm_compute; congruence) ltac:(split; vm_compute; congruence))).
  - repeat constructor.
  - discriminate.
  - reflexivity.
Defined.

(** [CalculateHyperslabElements] accepts exactly the selections whose
    element count is positive and at most one billion, and then returns the
    exact count. *)
Theorem CalculateHyperslabElements_exact count v :
  Forall (is_u 64) count -> count <> [] ->
  CalculateHyperslabElements count = Ret v <->
  Forall (fun c => 0 < c) count /\ prod count <= MaxHyperslabElements /\ v = prod count.
Proof.
  intros Hu Hne. unfold CalculateHyperslabElements.
  destruct (Z.eqb_spec (len count) 0) as [E|_]; [by apply len_0_nil in E|]. cbn [negb].
  destruct (decide (Forall (fun c => 0 < c) count)) as [Hp|Hn].
  - rewrite countLoop_eq by (done || lia). rewrite Z.mul_1_l. pose proof (prod_pos _ Hp).
    unfold MaxHyperslabElements, ValidateBufferSize.
    destruct (Z.ltb_spec (prod count) (2 ^ 64)); cbn [obind]; [|split; [done|lia]].
    destruct (Z.eqb_spec (prod count) 0); [lia|]. cbn [negb].
    destruct (Z.gtb_spec (prod count) 1000000000); cbn; split; try done; try lia.
    + intros [= <-]. done.
    + by intros (_ & _ & ->).
  - split; [|tauto]. intros (t & Hl & _)%obind_ret_inv. exfalso. apply Hn.
    by eapply countLoop_pos.
Qed.

Example CalculateHyperslabElements_exact_witness :
  CalculateHyperslabElements [3; 5] = Ret 15 <->
  Forall (fun c => 0 < c) [3; 5] /\ prod [3; 5] <= MaxHyperslabElements /\ 15 = prod [3; 5].
Proof.
  apply CalculateHyperslabElements_exact; [|discriminate].
  repeat constructor; vm_compute; congruence.
Defined.

(** Where [start + (count-1)*stride] does not exceed 64 bits in any
    dimension, [ValidateHyperslabBounds] accepts exactly the selections of
    the right rank whose last index lies inside the dataset. *)
Theorem ValidateHyperslabBounds_spec start count stride dims :
  Forall (is_u 64) start -> Forall (is_u 64) count -> Forall (is_u 64) stride ->
  Forall2 (fun s p => last_index s p.1 p.2 < 2 ^ 64) start (zip count stride) ->
  ValidateHyperslabBounds start count stride dims = Ret tt <->
  length start = length dims /\ length count = length dims /\ length stride = length dims /\
  forall i s c t d, start !! i = Some s -> count !! i = Some c -> stride !! i = Some t ->
    dims !! i = Some d -> 0 < c /\ last_index s c t < d.
Proof.
  intros Hs Hc Ht Hlast. unfold ValidateHyperslabBounds, len.
  destruct (Z.eqb_spec (Z.of_nat (length start)) (Z.of_nat (length dims))) as [E1|];
    [|cbn; split; [done|lia]].
  destruct (Z.eqb_spec (Z.of_nat (length count)) (Z.of_nat (length dims))) as [E2|];
    [|cbn; split; [done|lia]].
  destruct (Z.eqb_spec (Z.of_nat (length stride)) (Z.of_nat (length dims))) as [E3|];
    [|cbn; split; [done|lia]].
  apply Nat2Z.inj in E1, E2, E3. cbn [negb orb].
  transitivity (forall i s c t d, start !! i = Some s -> count !! i = Some c ->
    stride !! i = Some t -> dims !! i = Some d -> 0 < c /\ last_index s c t < d); [|tauto].
  revert count stride dims Hc Ht Hlast E1 E2 E3.
  induction Hs as [|s start Hs1 Hs IH]; intros [|c count] [|t stride] [|d dims];
    cbn -[checkDim]; intros Hc Ht Hlast; try lia.
  - intros. split; [intros _ [|?]; done|done].
  - intros [= E1] [= E2] [= E3].
    apply Forall_cons in Hc as [Hc1 Hc], Ht as [Ht1 Ht].
    apply Forall2_cons in Hlast as [Hl1 Hlast]. cbn [fst snd] in Hl1.
    pose proof (checkDim_ret s c t d Hs1 Hc1 Ht1 Hl1) as Hd.
    specialize (IH count stride dims Hc Ht Hlast E1 E2 E3). split.
    + intros ([] & Hcd & Hr)%obind_ret_inv. rewrite Hd in Hcd. rewrite IH in Hr.
      intros [|i] ????; cbn; [naive_solver|apply Hr].
    + intros H. rewrite (proj2 Hd), (proj2 IH); [done| |].
      * intros i. apply (H (S i)).
      * apply (H 0%nat); done.
Qed.

Example ValidateHyperslabBounds_spec_witness :
  ValidateHyperslabBounds [2] [3] [4] [11] = Ret tt <->
  length [2] = length [11] /\ length [3] = length [11] /\ length [4] = length [11] /\
  forall i s c t d, [2] !! i = Some s -> [3] !! i = Some c -> [4] !! i = Some t ->
    [11] !! i = Some d -> 0 < c /\ last_index s c t < d.
Proof.
  apply ValidateHyperslabBounds_spec; repeat constructor; vm_compute; congruence.
Defined.

(** The addition [start + maxIndex] is not checked: a selection whose last
    index is 2^64 wraps to 0 and is accepted for a dataset of one element. *)
Theorem ValidateHyperslabBounds_start_wraps :
  ValidateHyperslabBounds [2 ^ 64 - 1] [2] [1] [1] = Ret tt /\
  last_index (2 ^ 64 - 1) 2 1 >= 1.
Proof. split; [vm_compute; reflexivity|vm_compute; congruence]. Qed.
