(* ===== verification/Grid.v ===== *)
(** * Row-major grids

    Index arithmetic shared by the chunk components: the row-major index of a
    point of an N-dimensional box, the elements of a buffer laid out that way,
    and what "a box has been copied" means. *)

From S2P Require Import Prelude Overflow.

(** ** Definitions *)

(** Row-major index of [ix] in a box of dimensions [ds]. *)
Fixpoint lin (ds ix : list Z) : Z :=
  match ds, ix with
  | _ :: ds', i :: ix' => i * prod ds' + lin ds' ix'
  | _, _ => 0
  end.

Definition in_box (ds ix : list Z) : Prop := Forall2 (fun d i => 0 <= i < d) ds ix.

(** Pointwise sum and product of index vectors. *)
Definition vadd : list Z -> list Z -> list Z := zip_with Z.add.
Definition vmul : list Z -> list Z -> list Z := zip_with Z.mul.

(** Element [n] of a buffer of elements of [es] bytes. *)
Definition elem (es : Z) (buf : bytes) (n : Z) : bytes := sub buf (n * es) es.

(** The box [sz] has been copied from the grid [sds] of [src] to the grid [dds]
    of [dst]; its corners are at elements [so] and [do_]. *)
Definition box_copied (es : Z) (src dst : bytes) (so do_ : Z) (sds dds sz : list Z) : Prop :=
  forall k, in_box sz k -> elem es dst (do_ + lin dds k) = elem es src (so + lin sds k).

(** Elements outside the window [[lo, lo + n)] are untouched. *)
Definition same_outside (es : Z) (dst dst' : bytes) (lo n : Z) : Prop :=
  len dst' = len dst /\
  forall i, 0 <= i -> i < lo \/ lo + n <= i -> elem es dst' i = elem es dst i.

(** ** Boxes and row-major indices *)

Lemma prod_cons d ds : prod (d :: ds) = d * prod ds.
Proof. done. Qed.

Lemma prod_app ds ds' : prod (ds ++ ds') = prod ds * prod ds'.
Proof. induction ds as [|d ds IH]; cbn [app]; rewrite ?prod_cons; [cbn; lia|]. rewrite IH. lia. Qed.

Lemma in_box_nil : in_box [] [].
Proof. constructor. Qed.

Lemma in_box_length ds ix : in_box ds ix -> length ix = length ds.
Proof. intros H. symmetry. by apply Forall2_length in H. Qed.

Lemma in_box_cons d ds i ix : in_box (d :: ds) (i :: ix) <-> 0 <= i < d /\ in_box ds ix.
Proof. unfold in_box. split; [by inversion 1|by intros []; constructor]. Qed.

Lemma in_box_cons_inv d ds ix :
  in_box (d :: ds) ix -> exists i ix', ix = i :: ix' /\ 0 <= i < d /\ in_box ds ix'.
Proof. intros (i & ix' & ? & ? & ->)%Forall2_cons_inv_l. eauto 6. Qed.

Lemma in_box_pos ds ix : in_box ds ix -> Forall (fun d => 0 < d) ds.
Proof. intros H. eapply Forall2_Forall_l; [exact H|]. apply Forall_forall. intros i _ d Hd. cbn in Hd. lia. Qed.

Lemma lin_range ds ix : in_box ds ix -> 0 <= lin ds ix < prod ds.
Proof.
  induction 1 as [|d i ds ix Hi Hb IH]; [cbn; lia|]. rewrite prod_cons. cbn [lin]. nia.
Qed.

Lemma lin_inj ds a b : in_box ds a -> in_box ds b -> lin ds a = lin ds b -> a = b.
Proof.
  intros Ha. revert b. induction Ha as [|d i ds ix Hi Hb IH]; intros b Hb' E.
  - by apply Forall2_nil_inv_l in Hb'.
  - apply in_box_cons_inv in Hb' as (j & jx & -> & Hj & Hbj). cbn [lin] in E.
    pose proof (lin_range _ _ Hb). pose proof (lin_range _ _ Hbj).
    assert (i = j) as -> by nia. f_equal. apply IH; [done|lia].
Qed.

Lemma lin_surj ds n :
  Forall (fun d => 0 < d) ds -> 0 <= n < prod ds -> exists ix, in_box ds ix /\ lin ds ix = n.
Proof.
  intros Hp. revert n. induction Hp as [|d ds Hd Hp IH]; intros n Hn.
  - exists []. split; [apply in_box_nil|]. cbn in *. lia.
  - pose proof (prod_pos ds Hp). rewrite prod_cons in Hn.
    destruct (IH (n mod prod ds)) as (ix & Hb & E); [by apply Z.mod_pos_bound|].
    exists (n / prod ds :: ix). split.
    + apply in_box_cons. split; [|done]. split; [apply Z.div_pos; lia|].
      apply Z.div_lt_upper_bound; lia.
    + cbn [lin]. rewrite E. pose proof (Z.div_mod n (prod ds)). lia.
Qed.

Lemma lin_app ds ds' a b :
  length ds = length a -> lin (ds ++ ds') (a ++ b) = lin ds a * prod ds' + lin ds' b.
Proof.
  revert a. induction ds as [|d ds IH]; intros [|i a] Hl; try discriminate; cbn [app lin]; [lia|].
  rewrite IH by (cbn in Hl; lia). rewrite prod_app. lia.
Qed.

(** The row-major index is linear. *)
Lemma lin_vadd ds a b : length a = length b -> lin ds (vadd a b) = lin ds a + lin ds b.
Proof.
  revert a b. induction ds as [|d ds IH]; intros [|x a] [|y b] Hl; try discriminate; cbn; try lia.
  change (zip_with Z.add a b) with (vadd a b). rewrite IH by (cbn in Hl; lia). lia.
Qed.

(** The first dimension does not enter the row-major index. *)
Lemma lin_head d d' ds ix : lin (d :: ds) ix = lin (d' :: ds) ix.
Proof. by destruct ix. Qed.

Lemma in_box_vadd ds st sz k :
  Forall2 (fun d '(s, z) => 0 <= s /\ s + z <= d) ds (zip st sz) -> length st = length sz ->
  in_box sz k -> in_box ds (vadd st k).
Proof.
  intros H Hl Hk. revert ds st H Hl.
  induction Hk as [|z i sz k Hi Hk IH]; intros ds [|s st] H Hl; try discriminate; cbn in H.
  - apply Forall2_nil_inv_r in H as ->. constructor.
  - apply Forall2_cons_inv_r in H as (d & ds' & Hd & H & ->). cbn. apply in_box_cons.
    split; [lia|]. apply IH; [done|]. cbn in Hl. lia.
Qed.

(** ** Products in [uint64] *)

Lemma u64_mul_l x y : u64 (u64 x * y) = u64 (x * y).
Proof. unfold u64. apply Zmult_mod_idemp_l. Qed.
Lemma u64_mul_r x y : u64 (x * u64 y) = u64 (x * y).
Proof. unfold u64. apply Zmult_mod_idemp_r. Qed.
Lemma u64_add_l x y : u64 (u64 x + y) = u64 (x + y).
Proof. unfold u64. apply Zplus_mod_idemp_l. Qed.
Lemma u64_add_r x y : u64 (x + u64 y) = u64 (x + y).
Proof. unfold u64. apply Zplus_mod_idemp_r. Qed.
Lemma u64_sub_l x y : u64 (u64 x - y) = u64 (x - y).
Proof. unfold u64. apply Zminus_mod_idemp_l. Qed.

Lemma u64_u64 x : u64 (u64 x) = u64 x.
Proof. apply u64_id, u64_range. Qed.

(** Intermediate reductions are dropped, products before sums. *)
Ltac u64_norm :=
  rewrite ?u64_mul_l, ?u64_mul_r, ?u64_mul_l, ?u64_add_l, ?u64_add_r, ?u64_sub_l.

(** ** Elements of a buffer *)

Lemma len_elem es buf n :
  0 <= n -> 0 <= es -> (n + 1) * es <= len buf -> len (elem es buf n) = es.
Proof. intros. unfold elem. apply len_sub; nia. Qed.

(** Two buffers of [n] elements with the same elements are equal. *)
Lemma elem_ext es n (a b : bytes) :
  0 < es -> len a = n * es -> len b = n * es ->
  (forall i, 0 <= i < n -> elem es a i = elem es b i) -> a = b.
Proof.
  intros Hes Ha Hb H. apply list_eq. intros k.
  destruct (decide (Z.of_nat k < n * es)) as [Hk|Hk].
  2: { rewrite !lookup_ge_None_2; [done|unfold len in *; lia..]. }
  pose proof (Z.div_mod (Z.of_nat k) es ltac:(lia)) as Hdm.
  pose proof (Z.mod_pos_bound (Z.of_nat k) es Hes).
  assert (0 <= Z.of_nat k / es < n) as Hi.
  { split; [apply Z.div_pos; lia|]. apply Z.div_lt_upper_bound; lia. }
  specialize (H _ Hi). apply (f_equal (fun l => l !! Z.to_nat (Z.of_nat k mod es))) in H.
  unfold elem in H. rewrite !lookup_sub in H by nia.
  rewrite !decide_True in H by lia.
  replace (Z.to_nat (Z.of_nat k / es * es) + Z.to_nat (Z.of_nat k mod es))%nat with k in H; [done|].
  rewrite <- Z2Nat.inj_add by nia. lia.
Qed.

(** Overwriting a run of [m] elements at element [p]. *)
Lemma elem_blit_other es buf p m n bs :
  0 < es -> 0 <= p -> 0 <= n -> len bs = m * es -> (p + m) * es <= len buf -> n < p \/ p + m <= n ->
  elem es (blit buf (p * es) bs) n = elem es buf n.
Proof. intros. apply sub_blit_other; nia. Qed.

Lemma elem_blit_same es buf p m n bs :
  0 < es -> 0 <= p -> len bs = m * es -> (p + m) * es <= len buf -> p <= n < p + m ->
  elem es (blit buf (p * es) bs) n = elem es bs (n - p).
Proof.
  intros Hes Hp Hm Hf Hn. apply list_eq. intros i. unfold elem.
  rewrite !lookup_sub by nia. case_decide as Hi; [|done].
  rewrite lookup_blit by nia. rewrite decide_True by nia. f_equal. nia.
Qed.

Lemma elem_sub es src p m n :
  0 < es -> 0 <= p -> 0 <= n < m -> (p + m) * es <= len src ->
  elem es (sub src (p * es) (m * es)) n = elem es src (p + n).
Proof.
  intros. apply list_eq. intros i. unfold elem. rewrite !lookup_sub by nia.
  repeat case_decide; (done || nia || (f_equal; nia)).
Qed.
