(* ===== verification/Chunks.v ===== *)
(** * Chunk grid: internal/writer/chunk_coordinator.go and the copy routines of
    internal/core/dataset_reader.go

    The coordinator cuts a dataset into chunks for the writer ([NewChunkCoordinator]
    ... [ExtractChunkData]); [copyNDChunk] puts a chunk back for the reader. *)

From S2P Require Import Prelude Overflow Grid.

(** ** Write side: [ChunkCoordinator] *)

Record ChunkCoordinator := mkCoordinator {
  datasetDims : list Z;
  chunkDims : list Z;
  numChunks : list Z }.

(** Ceiling division; the sum is computed in [uint64]. *)
Definition chunksIn (d c : Z) : Z := u64 (u64 (d + c) - 1) / c.

Definition NewChunkCoordinator (datasetDims chunkDims : list Z) : outcome ChunkCoordinator :=
  guard len datasetDims =? len chunkDims else "dimensions mismatch";;
  guard negb (len datasetDims =? 0) else "dataset must have at least 1 dimension";;
  guard forallb (fun dim => negb (dim =? 0)) datasetDims else "dataset dimension cannot be zero";;
  guard forallb (fun dim => negb (dim =? 0)) chunkDims else "chunk dimension cannot be zero";;
  Ret (mkCoordinator datasetDims chunkDims (zip_with chunksIn datasetDims chunkDims)).

(** The running product of a loop over dimensions, in [uint64]. *)
Definition mulAll (start : Z) (dims : list Z) : Z := fold_left (fun t n => u64 (t * n)) dims start.

Definition GetTotalChunks (cc : ChunkCoordinator) : Z := mulAll 1 (numChunks cc).

(** The loop from the last dimension to the first; division by zero panics. *)
Fixpoint coordLoop (i : nat) (numChunks coord : list Z) (remaining : Z) : outcome (list Z) :=
  match i with
  | O => Ret coord
  | S i =>
      let! n := idx numChunks (Z.of_nat i) in
      if n =? 0 then Panic
      else
        let! coord := set_idx coord (Z.of_nat i) (remaining mod n) in
        coordLoop i numChunks coord (remaining / n)
  end.

Definition GetChunkCoordinate (cc : ChunkCoordinator) (index : Z) : outcome (list Z) :=
  coordLoop (length (numChunks cc)) (numChunks cc) (replicate (length (datasetDims cc)) 0) index.

(** Size of the chunk at [coord] in one dimension. *)
Definition chunkExtent (coord chunkDim datasetDim : Z) : Z :=
  let start := u64 (coord * chunkDim) in
  let end_ := u64 (start + chunkDim) in
  let end_ := if end_ >? datasetDim then datasetDim else end_ in
  u64 (end_ - start).

Definition GetChunkSize (cc : ChunkCoordinator) (coord : list Z) : outcome (list Z) :=
  for_loop (length coord) 0 (fun i size =>
    let! c := idx coord i in
    let! cd := idx (chunkDims cc) i in
    let! dd := idx (datasetDims cc) i in
    set_idx size i (chunkExtent c cd dd)) (replicate (length coord) 0).

(** [extractRecursive]: [dim] counts up to the number of dimensions, so that
    many steps of fuel (and one for the base case) are enough. *)
Fixpoint extractRecursive (fuel : nat) (cc : ChunkCoordinator) (src dst : bytes) (coord : list Z)
    (dim srcOff dstOff elemSize : Z) : outcome bytes :=
  match fuel with
  | O => Panic
  | S fuel =>
      if dim =? len (datasetDims cc) then
        let! window := slice dst dstOff (u64 (dstOff + elemSize)) in
        let! s := slice src srcOff (u64 (srcOff + elemSize)) in
        put_bytes dst dstOff (take (length window) s)
      else
        let! chunkSize := GetChunkSize cc coord in
        let dsStride := u64 (mulAll 1 (drop (Z.to_nat (dim + 1)) (datasetDims cc)) * elemSize) in
        let chunkStride := u64 (mulAll 1 (drop (Z.to_nat (dim + 1)) chunkSize) * elemSize) in
        let! c := idx coord dim in
        let! cd := idx (chunkDims cc) dim in
        let start := u64 (c * cd) in
        let! n := idx chunkSize dim in
        for_loop (Z.to_nat n) 0 (fun i dst =>
          let newSrc := u64 (srcOff + u64 (u64 (start + i) * dsStride)) in
          let newDst := u64 (dstOff + u64 (i * chunkStride)) in
          extractRecursive fuel cc src dst coord (dim + 1) newSrc newDst elemSize) dst
  end.

Definition ExtractChunkData (cc : ChunkCoordinator) (data : bytes) (coord : list Z) (elemSize : Z)
    : outcome bytes :=
  let! chunkSize := GetChunkSize cc coord in
  let numElements := mulAll 1 chunkSize in
  let chunkData := replicate (Z.to_nat (u64 (numElements * elemSize))) x00 in
  extractRecursive (S (length (datasetDims cc))) cc data chunkData coord 0 0 0 elemSize.

Definition DatasetDims (cc : ChunkCoordinator) : list Z := datasetDims cc.
Definition ChunkDims (cc : ChunkCoordinator) : list Z := chunkDims cc.
Definition NumChunks (cc : ChunkCoordinator) : list Z := numChunks cc.

(** ** Read side: [copyChunkToArray] *)

(** [strides[i] = strides[i+1] * dims[i+1]], from the last dimension down. *)
Fixpoint strideLoop (i : nat) (dims strides : list Z) : outcome (list Z) :=
  match i with
  | O => Ret strides
  | S i =>
      let! s := idx strides (Z.of_nat i + 1) in
      let! d := idx dims (Z.of_nat i + 1) in
      let! strides := set_idx strides (Z.of_nat i) (u64 (s * d)) in
      strideLoop i dims strides
  end.

Definition stridesOf (ndims : Z) (dims : list Z) : outcome (list Z) :=
  let! strides := set_idx (replicate (Z.to_nat ndims) 0) (ndims - 1) 1 in
  strideLoop (Z.to_nat (ndims - 1)) dims strides.

(** Number of elements of the chunk that lie inside the dataset. *)
Definition copyDim (coord chunkDim dataDim : Z) : Z :=
  let startPos := u64 (coord * chunkDim) in
  if u64 (startPos + chunkDim) >? dataDim then u64 (dataDim - startPos) else chunkDim.

Definition copyDimsOf (ndims : Z) (chunkCoords chunkSize dataDims : list Z) : outcome (list Z) :=
  for_loop (Z.to_nat ndims) 0 (fun i copyDims =>
    let! c := idx chunkCoords i in
    let! cs := idx chunkSize i in
    let! dd := idx dataDims i in
    set_idx copyDims i (copyDim c cs dd)) (replicate (Z.to_nat ndims) 0).

(** The scalar product of [indices] and [strides] over the first [n] places. *)
Definition dotLoop (n : Z) (start : Z) (indices strides : list Z) : outcome Z :=
  for_loop (Z.to_nat n) 0 (fun i off =>
    let! x := idx indices i in
    let! s := idx strides i in
    Ret (u64 (off + u64 (x * s)))) start.

(** One contiguous row. *)
Definition copyRow (chunkData fullData : bytes) (indices : list Z) (dim : Z)
    (copyDims chunkStrides dataStrides : list Z) (dataBaseOffset elemSize : Z) : outcome bytes :=
  let ndims := len indices in
  let! numElements := idx copyDims dim in
  let! chunkOffset := dotLoop ndims 0 indices chunkStrides in
  let chunkOffset := u64 (chunkOffset * elemSize) in
  let! dataOffset := dotLoop (ndims - 1) dataBaseOffset indices dataStrides in
  let dataOffset := u64 (dataOffset * elemSize) in
  let numBytes := u64 (numElements * elemSize) in
  guard negb (u64 (chunkOffset + numBytes) >? len chunkData) else "chunk data truncated";;
  guard negb (u64 (dataOffset + numBytes) >? len fullData) else "full data overflow";;
  let! window := slice fullData dataOffset (u64 (dataOffset + numBytes)) in
  let! row := slice chunkData chunkOffset (u64 (chunkOffset + numBytes)) in
  put_bytes fullData dataOffset (take (length window) row).

(** [copyNDChunkRecursive]: the [indices] array is shared by all the calls and
    is threaded through them. *)
Fixpoint copyNDChunkRecursive (fuel : nat) (chunkData fullData : bytes) (indices : list Z) (dim : Z)
    (copyDims chunkStrides dataStrides : list Z) (dataBaseOffset elemSize : Z)
    : outcome (list Z * bytes) :=
  match fuel with
  | O => Panic
  | S fuel =>
      let ndims := len indices in
      if dim =? ndims - 1 then
        let! full := copyRow chunkData fullData indices dim copyDims chunkStrides dataStrides
                       dataBaseOffset elemSize in
        Ret (indices, full)
      else
        let! n := idx copyDims dim in
        let! (indices, full) :=
          for_loop (Z.to_nat n) 0 (fun i '(indices, full) =>
            let! indices := set_idx indices dim i in
            copyNDChunkRecursive fuel chunkData full indices (dim + 1) copyDims chunkStrides
              dataStrides dataBaseOffset elemSize) (indices, fullData) in
        let! indices := set_idx indices dim n in
        Ret (indices, full)
  end.

Definition copyNDChunk (chunkData fullData : bytes) (chunkCoords chunkSize dataDims : list Z)
    (elemSize : Z) : outcome bytes :=
  let ndims := len chunkCoords in
  let! chunkStrides := stridesOf ndims chunkSize in
  let! dataStrides := stridesOf ndims dataDims in
  let! copyDims := copyDimsOf ndims chunkCoords chunkSize dataDims in
  let! dataOffset := for_loop (Z.to_nat ndims) 0 (fun i off =>
    let! c := idx chunkCoords i in
    let! cs := idx chunkSize i in
    let! s := idx dataStrides i in
    Ret (u64 (off + u64 (u64 (c * cs) * s)))) 0 in
  let! (_, full) := copyNDChunkRecursive (S (length chunkCoords)) chunkData fullData
    (replicate (Z.to_nat ndims) 0) 0 copyDims chunkStrides dataStrides dataOffset elemSize in
  Ret full.

Definition copyChunkToArray (chunkData fullData : bytes) (chunkCoords chunkSize dataDims : list Z)
    (elemSize : Z) : outcome bytes :=
  let ndims := len chunkCoords in
  guard negb (negb (ndims =? len chunkSize) || negb (ndims =? len dataDims)) else "dimension mismatch";;
  copyNDChunk chunkData fullData chunkCoords chunkSize dataDims elemSize.

(** ** Loops over dimensions *)

Lemma mulAll_u64 s dims : mulAll (u64 s) dims = u64 (s * prod dims).
Proof.
  revert s. induction dims as [|d dims IH]; intros s; unfold mulAll in *; cbn [fold_left].
  - cbn. f_equal. lia.
  - rewrite u64_mul_l, IH, prod_cons. f_equal. lia.
Qed.

Lemma mulAll_1 dims : mulAll 1 dims = u64 (prod dims).
Proof. change 1 with (u64 1) at 1. rewrite mulAll_u64. f_equal. lia. Qed.

(** A loop that fills a list of [n] zeros with [f 0], ..., [f (n-1)]. *)
Lemma for_loop_fill {A} (z : A) (body : Z -> list A -> outcome (list A)) (r : list A) :
  (forall i v l, r !! i = Some v -> len l = len r ->
     body (Z.of_nat i) l = set_idx l (Z.of_nat i) v) ->
  for_loop (length r) 0 body (replicate (length r) z) = Ret r.
Proof.
  intros Hb. destruct (for_loop_inv (fun i l => len l = len r /\
      forall j, (Z.of_nat j < i) -> l !! j = r !! j)
    (length r) 0 body (replicate (length r) z)) as (l & E & Hl & Hj).
  - split; [len_lia|]. intros; lia.
  - intros j l Hj [Hl Hc]. destruct (len_lookup_lt r j) as [v Hv]; [unfold len; lia|].
    specialize (Hb (Z.to_nat j) v l Hv Hl). rewrite Z2Nat.id in Hb by lia. rewrite Hb.
    rewrite set_idx_ret by (unfold len in *; lia). eexists. split; [done|]. split; [by rewrite len_insert|].
    intros k Hk. destruct (decide (k = Z.to_nat j)) as [->|Hne].
    + rewrite list_lookup_insert_eq; [done|]. unfold len in *. lia.
    + rewrite list_lookup_insert_ne by done. apply Hc. lia.
  - rewrite E. f_equal. apply list_eq. intros i.
    destruct (decide (i < length r)%nat) as [Hi|Hi]; [apply Hj; lia|].
    rewrite !lookup_ge_None_2; [done|unfold len in *; lia..].
Qed.

Definition sizeOf (cc : ChunkCoordinator) (coord : list Z) : list Z :=
  zip_with (fun c '(cd, dd) => chunkExtent c cd dd) coord (zip (chunkDims cc) (datasetDims cc)).

Lemma GetChunkSize_ret cc coord :
  length (chunkDims cc) = length coord -> length (datasetDims cc) = length coord ->
  GetChunkSize cc coord = Ret (sizeOf cc coord).
Proof.
  intros H1 H2. unfold GetChunkSize.
  assert (length coord = length (sizeOf cc coord)) as El.
  { unfold sizeOf. rewrite length_zip_with, length_zip. lia. }
  rewrite El. apply for_loop_fill. intros i v l Hv Hl. unfold sizeOf in Hv.
  apply lookup_zip_with_Some in Hv as (c & [cd dd] & -> & Hc & (Hcd & Hdd)%lookup_zip_Some).
  by rewrite (idx_lookup _ _ _ Hc), (idx_lookup _ _ _ Hcd), (idx_lookup _ _ _ Hdd).
Qed.

(** ** Extraction *)

(** A state of the extraction at one dimension: the part of the grid still to
    traverse lies inside the buffers. *)
Record room (es : Z) (buf : bytes) (o : Z) (ds : list Z) : Prop := {
  room_es : 0 < es;
  room_off : 0 <= o;
  room_fit : (o + prod ds) * es <= len buf;
  room_len : len buf < 2 ^ 64 }.

Lemma room_slab es buf o d ds i :
  room es buf o (d :: ds) -> 0 <= i < d -> 0 < prod ds -> room es buf (o + i * prod ds) ds.
Proof. intros [] Hi Hp. rewrite prod_cons in *. split; try done; nia. Qed.

Lemma room_offset es buf o ds : room es buf o ds -> 0 < prod ds -> u64 (o * es) = o * es.
Proof. intros [] Hp. apply u64_id. unfold is_u. nia. Qed.

(** Copying one element. *)
Lemma copy_element es src dst so do_ :
  room es src so [] -> room es dst do_ [] ->
  exists dst',
    (let! window := slice dst (do_ * es) (u64 (do_ * es + es)) in
     let! s := slice src (so * es) (u64 (so * es + es)) in
     put_bytes dst (do_ * es) (take (length window) s)) = Ret dst' /\
    same_outside es dst dst' do_ 1 /\ elem es dst' do_ = elem es src so.
Proof.
  intros [Hes Hso Hsf Hsl] [_ Hdo Hdf Hdl]. cbn in Hsf, Hdf.
  rewrite !u64_id by (unfold is_u; nia). rewrite !slice_ret by nia. cbn [obind].
  assert (Hw : len (sub src (so * es) es) = es) by (apply len_sub; nia).
  replace (do_ * es + es - do_ * es) with es by lia. replace (so * es + es - so * es) with es by lia.
  rewrite take_ge.
  2: { pose proof (len_sub dst (do_ * es) es). unfold len in *. nia. }
  rewrite put_bytes_ret by nia. eexists. split; [done|]. split.
  - split; [apply len_blit; nia|]. intros i Hi Ho. apply (elem_blit_other es dst do_ 1); lia.
  - rewrite (elem_blit_same es dst do_ 1) by lia. rewrite Z.sub_diag. unfold elem. cbn.
    apply sub_all. lia.
Qed.

Section extract.
Context (cc : ChunkCoordinator) (coord : list Z) (es : Z).

Definition startOf : list Z := zip_with (fun c cd => u64 (c * cd)) coord (chunkDims cc).

(** [dims], [chunkDims] and the coordinate have one length, and the chunk lies
    inside the dataset in every dimension. *)
Record chunk_fits : Prop := {
  fit_cd : length (chunkDims cc) = length coord;
  fit_dd : length (datasetDims cc) = length coord;
  fit_in : forall i d s z, datasetDims cc !! i = Some d -> startOf !! i = Some s ->
    sizeOf cc coord !! i = Some z -> 0 <= s /\ 0 < z /\ s + z <= d }.

Hypothesis Hfit : chunk_fits.

Local Lemma fit_lengths : length startOf = length coord /\ length (sizeOf cc coord) = length coord.
Proof using Hfit.
  destruct Hfit. unfold startOf, sizeOf. rewrite !length_zip_with. lia.
Qed.

Local Lemma fit_at i : (i < length coord)%nat ->
  exists c cd d z, coord !! i = Some c /\ chunkDims cc !! i = Some cd /\
    datasetDims cc !! i = Some d /\ sizeOf cc coord !! i = Some z /\
    startOf !! i = Some (u64 (c * cd)) /\ 0 <= u64 (c * cd) /\ 0 < z /\ u64 (c * cd) + z <= d.
Proof using Hfit.
  intros Hi. destruct fit_lengths as [Hs Hz]. destruct Hfit as [H1 H2 Hin].
  destruct (lookup_lt_is_Some_2 coord i) as [c Hc]; [lia|].
  destruct (lookup_lt_is_Some_2 (chunkDims cc) i) as [cd Hcd]; [lia|].
  destruct (lookup_lt_is_Some_2 (datasetDims cc) i) as [d Hd]; [lia|].
  destruct (lookup_lt_is_Some_2 (sizeOf cc coord) i) as [z Hzi]; [lia|].
  assert (startOf !! i = Some (u64 (c * cd))) as Hst.
  { unfold startOf. rewrite lookup_zip_with, Hc, Hcd. done. }
  destruct (Hin i _ _ _ Hd Hst Hzi) as (?&?&?). exists c, cd, d, z. split_and!; done.
Qed.

Local Lemma fit_pos : Forall (fun d => 0 < d) (datasetDims cc) /\ Forall (fun z => 0 < z) (sizeOf cc coord).
Proof using Hfit.
  destruct fit_lengths as [Hs Hz]. pose proof (fit_dd Hfit).
  split; apply Forall_lookup; intros i x Hx; pose proof (lookup_lt_Some _ _ _ Hx);
    destruct (fit_at i ltac:(lia)) as (?&?&?&?&?&?&?&?&?); simplify_eq; naive_solver lia.
Qed.

Local Lemma prod_drop_pos n :
  0 < prod (drop n (datasetDims cc)) /\ 0 < prod (drop n (sizeOf cc coord)).
Proof using Hfit. destruct fit_pos. split; apply prod_pos; by apply Forall_drop. Qed.

(** The slab at index [i] of dimension [dim] in source and destination. *)
Lemma extractRecursive_ok fuel dim src dst so do_ :
  (length coord - dim < fuel)%nat -> (dim <= length coord)%nat ->
  room es src so (drop dim (datasetDims cc)) -> room es dst do_ (drop dim (sizeOf cc coord)) ->
  exists dst', extractRecursive fuel cc src dst coord (Z.of_nat dim) (so * es) (do_ * es) es = Ret dst' /\
    same_outside es dst dst' do_ (prod (drop dim (sizeOf cc coord))) /\
    box_copied es src dst' (so + lin (drop dim (datasetDims cc)) (drop dim startOf)) do_
      (drop dim (datasetDims cc)) (drop dim (sizeOf cc coord)) (drop dim (sizeOf cc coord)).
Proof using Hfit.
  destruct fit_lengths as [Hls Hlz]. destruct (Hfit) as [Hlc Hld _].
  revert dim dst so do_. induction fuel as [|fuel IH]; intros dim dst so do_ Hfuel Hdim Hsrc Hdst; [lia|].
  cbn [extractRecursive]. ztest.
  { rewrite !drop_ge in * by (unfold len in *; lia).
    destruct (copy_element es src dst so do_ Hsrc Hdst) as (dst' & -> & Ho & He).
    exists dst'. split; [done|]. split; [done|]. intros k Hk%Forall2_nil_inv_l. subst k. cbn.
    by rewrite !Z.add_0_r. }
  assert (Hd' : (dim < length coord)%nat) by (unfold len in *; lia).
  rewrite GetChunkSize_ret by done. cbn [obind].
  destruct (fit_at dim) as (c & cd & d & z & Hc & Hcd & Hd & Hzi & Hst & Hs0 & Hzp & Hsz); [unfold len in *; lia|].
  rewrite (idx_lookup _ _ _ Hc), (idx_lookup _ _ _ Hcd), (idx_lookup _ _ _ Hzi). cbn [obind]. cbv zeta.
  replace (Z.to_nat (Z.of_nat dim + 1)) with (S dim) by lia. rewrite !mulAll_1.
  rewrite (drop_S _ _ _ Hd), (drop_S _ _ _ Hzi), (drop_S _ _ _ Hst) in *.
  destruct (prod_drop_pos (S dim)) as [Hpd Hpz].
  set (s := u64 (c * cd)) in *. set (DS := drop (S dim) (datasetDims cc)) in *.
  set (SZ := drop (S dim) (sizeOf cc coord)) in *. set (ST := drop (S dim) startOf) in *.
  destruct (for_loop_inv (fun i t => same_outside es dst t do_ (i * prod SZ) /\
      forall j, 0 <= j < i -> box_copied es src t (so + (s + j) * prod DS + lin DS ST) (do_ + j * prod SZ) DS SZ SZ)
    (Z.to_nat z) 0 (fun i t => extractRecursive fuel cc src t coord (Z.of_nat dim + 1)
       (u64 (so * es + u64 (u64 (s + i) * u64 (u64 (prod DS) * es))))
       (u64 (do_ * es + u64 (i * u64 (u64 (prod SZ) * es)))) es) dst) as (dst' & E & Ho & Hc').
  - split; [done|]. intros; lia.
  - intros i t Hi [[Hlt Hot] Hct].
    assert (Hsrc' : room es src (so + (s + i) * prod DS) DS) by (apply (room_slab es src so d); [done|lia|done]).
    assert (Hdst' : room es t (do_ + i * prod SZ) SZ).
    { destruct (room_slab es dst do_ z SZ i) as [???]; [done|lia|done|]. split; congruence || lia. }
    u64_norm.
    replace (so * es + (s + i) * (prod DS * es)) with ((so + (s + i) * prod DS) * es) by ring.
    replace (do_ * es + i * (prod SZ * es)) with ((do_ + i * prod SZ) * es) by ring.
    rewrite (room_offset _ _ _ _ Hsrc'), (room_offset _ _ _ _ Hdst') by done.
    replace (Z.of_nat dim + 1) with (Z.of_nat (S dim)) by lia.
    destruct (IH (S dim) t _ _ ltac:(lia) ltac:(unfold len in *; lia) Hsrc' Hdst') as (t' & -> & [Hl Ho] & Hb).
    fold SZ DS ST in Ho, Hb. exists t'. split; [done|]. split.
    + split; [congruence|]. intros n Hn Hout. assert (0 <= i * prod SZ) by nia.
      rewrite Z.mul_add_distr_r, Z.mul_1_l in Hout. rewrite Ho by lia. apply Hot; lia.
    + intros j Hj. destruct (decide (j = i)) as [->|Hne]; [exact Hb|].
      intros k Hk. pose proof (lin_range _ _ Hk). destruct Hdst. rewrite Ho by nia.
      apply Hct; [lia|done].
  - exists dst'. split; [done|]. rewrite prod_cons. rewrite Z2Nat.id in Ho, Hc' by lia. split; [done|].
    intros k (i & k' & -> & Hi & Hk)%in_box_cons_inv. cbn [lin].
    specialize (Hc' i Hi k' Hk).
    replace (do_ + (i * prod SZ + lin SZ k')) with (do_ + i * prod SZ + lin SZ k') by ring.
    rewrite Hc'. f_equal. ring.
Qed.

(** [ExtractChunkData] returns the chunk's box, row-major. *)
Lemma ExtractChunkData_ok data :
  0 < es -> prod (datasetDims cc) * es = len data -> len data < 2 ^ 64 ->
  prod (sizeOf cc coord) * es < 2 ^ 64 ->
  exists out, ExtractChunkData cc data coord es = Ret out /\
    len out = prod (sizeOf cc coord) * es /\
    box_copied es data out (lin (datasetDims cc) startOf) 0
      (datasetDims cc) (sizeOf cc coord) (sizeOf cc coord).
Proof using Hfit.
  intros Hes Hdata Hlen Hsz. destruct (Hfit) as [Hlc Hld _]. unfold ExtractChunkData.
  rewrite GetChunkSize_ret by done. cbn [obind]. cbv zeta. rewrite mulAll_1. u64_norm.
  destruct (prod_drop_pos 0) as [Hp1 Hp2]. rewrite !drop_0 in Hp1, Hp2.
  rewrite (u64_id (_ * es)) by (unfold is_u; nia).
  set (buf := replicate _ x00). assert (Hb : len buf = prod (sizeOf cc coord) * es) by (subst buf; len_lia).
  destruct (extractRecursive_ok (S (length (datasetDims cc))) 0 data buf 0 0) as (out & E & [Hl _] & Hc).
  - lia.
  - lia.
  - rewrite drop_0. split; lia.
  - rewrite drop_0. split; lia.
  - rewrite !drop_0 in Hc. exists out. split; [exact E|]. split; [congruence|exact Hc].
Qed.
End extract.

(** ** Strides and offsets *)

(** Exact strides of a grid; [lin] is a scalar product with them. *)
Fixpoint strides (ds : list Z) : list Z :=
  match ds with [] => [] | _ :: ds => prod ds :: strides ds end.

Fixpoint dot (a b : list Z) : Z :=
  match a, b with x :: a, y :: b => x * y + dot a b | _, _ => 0 end.

Lemma lin_dot ds ix : lin ds ix = dot ix (strides ds).
Proof.
  revert ix. induction ds as [|d ds IH]; intros [|i ix]; try done. cbn. by rewrite IH.
Qed.

Lemma length_strides ds : length (strides ds) = length ds.
Proof. induction ds; cbn; congruence. Qed.

Lemma strides_lookup ds i : (i < length ds)%nat -> strides ds !! i = Some (prod (drop (S i) ds)).
Proof.
  revert i. induction ds as [|d ds IH]; intros [|i] Hi; cbn in *; try lia; [by rewrite drop_0|].
  apply IH. lia.
Qed.

Lemma dot_app a b c : length b = length a -> dot (a ++ c) b = dot a b.
Proof. revert b. induction a as [|x a IH]; intros [|y b] Hl; try done; [by destruct c|]. cbn. rewrite IH; [done|]. cbn in Hl; lia. Qed.

Lemma dot_snoc a b x y : length a = length b -> dot (a ++ [x]) (b ++ [y]) = dot a b + x * y.
Proof.
  revert b. induction a as [|v a IH]; intros [|w b] Hl; try discriminate; cbn; [lia|].
  rewrite IH by (cbn in Hl; lia). lia.
Qed.

(** [dotLoop] over the first [n] places. *)
Lemma dotLoop_ret n start a b :
  (n <= length a)%nat -> (n <= length b)%nat -> u64 start = start ->
  dotLoop (Z.of_nat n) start a (map u64 b) = Ret (u64 (start + dot (take n a) (take n b))).
Proof.
  intros Ha Hb Hs. unfold dotLoop. rewrite Nat2Z.id.
  destruct (for_loop_inv (fun i off => off = u64 (start + dot (take (Z.to_nat i) a) (take (Z.to_nat i) b)))
    n 0 (fun i off => let! x := idx a i in let! s := idx (map u64 b) i in Ret (u64 (off + u64 (x * s)))) start)
    as (r & E & Hr).
  - cbn. by rewrite Z.add_0_r.
  - intros j t Hj ->. destruct (idx_some a (Z.to_nat j)) as [x Hx]; [lia|].
    destruct (idx_some b (Z.to_nat j)) as [y Hy]; [lia|].
    assert (Hy' : map u64 b !! Z.to_nat j = Some (u64 y)) by (change (map u64 b) with (u64 <$> b); by rewrite list_lookup_fmap, Hy).
    apply idx_lookup in Hx as Ix, Hy' as Iy. rewrite Z2Nat.id in Ix, Iy by lia. rewrite Ix, Iy. cbn [obind].
    eexists. split; [done|]. u64_norm.
    replace (Z.to_nat (j + 1)) with (S (Z.to_nat j)) by lia.
    rewrite (take_S_r _ _ _ Hx), (take_S_r _ _ _ Hy), dot_snoc by (rewrite !length_take; lia).
    f_equal. lia.
  - rewrite E, Hr. by rewrite Z.add_0_l, Nat2Z.id.
Qed.

(** The strides the reader computes are the exact ones modulo [2^64]. *)
Lemma strideLoop_ok i dims l :
  length l = length dims -> (i < length dims)%nat ->
  (forall j, (i <= j < length dims)%nat -> l !! j = map u64 (strides dims) !! j) ->
  strideLoop i dims l = Ret (map u64 (strides dims)).
Proof.
  revert l. induction i as [|i IH]; intros l Hl Hi Hj; cbn [strideLoop].
  - f_equal. apply list_eq. intros j. destruct (decide (j < length dims)%nat) as [Hd|Hd]; [apply Hj; lia|].
    rewrite !lookup_ge_None_2; [done|rewrite length_map, length_strides; lia|lia].
  - assert (Hs : map u64 (strides dims) !! S i = Some (u64 (prod (drop (S (S i)) dims)))).
    { change (map u64) with (fmap (M:=list) u64). by rewrite list_lookup_fmap, strides_lookup by lia. }
    destruct (idx_some dims (S i)) as [d Hd]; [lia|].
    replace (Z.of_nat i + 1) with (Z.of_nat (S i)) by lia.
    rewrite (idx_lookup l (S i) _ (eq_trans (Hj (S i) ltac:(lia)) Hs)), (idx_lookup _ _ _ Hd). cbn [obind].
    rewrite set_idx_ret by (unfold len; lia). cbn [obind]. rewrite Nat2Z.id. apply IH.
    + by rewrite length_insert.
    + lia.
    + intros j Hj'. destruct (decide (j = i)) as [->|Hne].
      * rewrite list_lookup_insert_eq by lia. change (map u64) with (fmap (M:=list) u64).
        rewrite list_lookup_fmap, strides_lookup by lia. cbn. u64_norm.
        rewrite (drop_S _ _ _ Hd), prod_cons. do 2 f_equal. lia.
      * rewrite list_lookup_insert_ne by done. apply Hj. lia.
Qed.

Lemma stridesOf_ret dims :
  dims <> [] -> stridesOf (len dims) dims = Ret (map u64 (strides dims)).
Proof.
  intros Hd. assert (0 < length dims)%nat as Hp by (destruct dims; cbn; [done|lia]). unfold stridesOf.
  rewrite set_idx_ret by len_lia. cbn [obind]. apply strideLoop_ok.
  - unfold len. rewrite length_insert, length_replicate. lia.
  - unfold len. lia.
  - intros j Hj. replace j with (Z.to_nat (len dims - 1)) by (unfold len in *; lia).
    rewrite list_lookup_insert_eq by (rewrite length_replicate; unfold len; lia).
    change (map u64) with (fmap (M:=list) u64). rewrite list_lookup_fmap, strides_lookup by (unfold len; lia).
    by rewrite drop_ge by (unfold len; lia).
Qed.

(** ** Copying a chunk back *)

Lemma dot_snoc_0 a b : dot (a ++ [0]) b = dot a b.
Proof. revert b. induction a as [|x a IH]; intros [|y b]; cbn; try done. by rewrite IH. Qed.

Lemma dot_take a b : dot a (take (length a) b) = dot a b.
Proof. revert b. induction a as [|x a IH]; intros [|y b]; cbn; try done. by rewrite IH. Qed.

Lemma drop_last_singleton {A} (l : list A) n x : drop n l = [x] -> length l = S n.
Proof. intros H. apply (f_equal length) in H. rewrite length_drop in H. cbn in H. lia. Qed.

(** The elements of box [sz] of a grid at offset [o] lie inside the buffer. *)
Record inside (es : Z) (buf : bytes) (o : Z) (ds sz : list Z) : Prop := {
  inside_es : 0 < es;
  inside_len : len buf < 2 ^ 64;
  inside_at : forall k, in_box sz k -> 0 <= o + lin ds k /\ (o + lin ds k + 1) * es <= len buf }.

Lemma inside_slab es buf o d ds z sz i :
  inside es buf o (d :: ds) (z :: sz) -> 0 <= i < z -> inside es buf (o + i * prod ds) ds sz.
Proof.
  intros [He Hl Ha] Hi. split; [done|done|]. intros k Hk.
  destruct (Ha (i :: k)) as [H1 H2]; [by apply in_box_cons|]. cbn [lin] in *. lia.
Qed.

Definition untouched (es : Z) (full full' : bytes) (o : Z) (ds sz : list Z) : Prop :=
  len full' = len full /\
  forall n, 0 <= n -> (forall k, in_box sz k -> n <> o + lin ds k) -> elem es full' n = elem es full n.

(** The base case: one row of [z] elements. *)
Lemma row_copied es chunk full so do_ g d z :
  0 < z -> inside es chunk so [g] [z] -> inside es full do_ [d] [z] ->
  exists full',
    (guard negb (u64 (u64 (so * es) + u64 (z * es)) >? len chunk) else "chunk data truncated";;
     guard negb (u64 (u64 (do_ * es) + u64 (z * es)) >? len full) else "full data overflow";;
     let! window := slice full (u64 (do_ * es)) (u64 (u64 (do_ * es) + u64 (z * es))) in
     let! row := slice chunk (u64 (so * es)) (u64 (u64 (so * es) + u64 (z * es))) in
     put_bytes full (u64 (do_ * es)) (take (length window) row)) = Ret full' /\
    untouched es full full' do_ [d] [z] /\ box_copied es chunk full' so do_ [g] [d] [z].
Proof.
  intros Hz [Hes Hcl Hca] [_ Hfl Hfa].
  destruct (Hca [0]) as [Hs0 _]; [by repeat constructor|]. destruct (Hfa [0]) as [Hd0 _]; [by repeat constructor|].
  destruct (Hca [z - 1]) as [_ Hs1]; [repeat constructor; lia|].
  destruct (Hfa [z - 1]) as [_ Hd1]; [repeat constructor; lia|]. cbn in Hs0, Hd0, Hs1, Hd1.
  assert (0 <= z * es /\ 0 <= so * es /\ 0 <= do_ * es /\ so * es + z * es <= len chunk /\
    do_ * es + z * es <= len full) as (H1 & H2 & H3 & H4 & H5) by (split_and!; nia).
  rewrite !(u64_id (_ * es)) by (unfold is_u; lia). rewrite !u64_id by (unfold is_u; lia).
  do 2 (ztest; cbn [negb]). rewrite !slice_ret by lia. cbn [obind].
  replace (do_ * es + z * es - do_ * es) with (z * es) by lia.
  replace (so * es + z * es - so * es) with (z * es) by lia.
  assert (Hw : len (sub chunk (so * es) (z * es)) = z * es) by (apply len_sub; lia).
  rewrite take_ge by (pose proof (len_sub full (do_ * es) (z * es)); unfold len in *; lia).
  rewrite put_bytes_ret by lia. eexists. split; [done|]. split.
  - split; [apply len_blit; lia|]. intros n Hn Ho. apply (elem_blit_other es full do_ z); try lia.
    destruct (decide (n < do_ \/ do_ + z <= n)) as [|Hin]; [done|]. exfalso.
    apply (Ho [n - do_]); [repeat constructor; lia|]. cbn. lia.
  - intros k (i & k' & -> & Hi & Hk)%in_box_cons_inv. apply Forall2_nil_inv_l in Hk as ->. cbn.
    rewrite (elem_blit_same es full do_ z) by lia. rewrite elem_sub by lia. f_equal. lia.
Qed.

Lemma sub_box ds sz n k :
  Forall2 (fun d z => z <= d) ds sz -> in_box (drop n sz) k -> in_box (drop n ds) k.
Proof.
  intros Hsub Hk. assert (Forall2 (fun d z => z <= d) (drop n ds) (drop n sz)) as H by by apply Forall2_drop.
  revert H. generalize (drop n ds). induction Hk as [|z i l k Hi Hk IH]; intros ds' H.
  - apply Forall2_nil_inv_r in H as ->. constructor.
  - apply Forall2_cons_inv_r in H as (d & ds'' & Hd & H & ->). apply in_box_cons. split; [lia|auto].
Qed.

Lemma dot_stride pre i ds :
  (length pre < length ds)%nat ->
  dot (pre ++ [i]) (strides ds) = dot pre (strides ds) + i * prod (drop (S (length pre)) ds).
Proof.
  revert ds. induction pre as [|x pre IH]; intros [|d ds] Hl; cbn in Hl; try lia.
  - cbn [app length dot strides skipn]. rewrite drop_0. destruct (strides ds); cbn; lia.
  - cbn [app length dot strides skipn]. rewrite IH by lia. lia.
Qed.

Lemma zero_in_box sz : Forall (fun z => 0 < z) sz -> in_box sz (replicate (length sz) 0).
Proof. induction 1; constructor; auto. lia. Qed.

Lemma lin_zero ds n : lin ds (replicate n 0) = 0.
Proof. revert n. induction ds as [|d ds IH]; intros [|n]; cbn [lin replicate]; [done..|]. by rewrite IH. Qed.

(** Adding one slab to a box of which the first [j] slabs are done. *)
Lemma slab_step es chunk full t t' so do_ g gs d ds j sz :
  0 <= j -> (forall k, in_box sz k -> in_box ds k) -> 0 <= do_ -> Forall (fun z => 0 < z) sz ->
  untouched es full t do_ (d :: ds) (j :: sz) -> box_copied es chunk t so do_ (g :: gs) (d :: ds) (j :: sz) ->
  untouched es t t' (do_ + j * prod ds) ds sz ->
  box_copied es chunk t' (so + j * prod gs) (do_ + j * prod ds) gs ds sz ->
  untouched es full t' do_ (d :: ds) (j + 1 :: sz) /\ box_copied es chunk t' so do_ (g :: gs) (d :: ds) (j + 1 :: sz).
Proof.
  intros Hj Hsub Hdo Hp [Hl Hu] Hc [Hl' Hu'] Hc'. split; [split; [congruence|]|].
  - intros n Hn Hout. rewrite Hu'; [apply Hu|..]; try done.
    + intros k (i & k' & -> & Hi & Hk)%in_box_cons_inv. apply Hout, in_box_cons. split; [lia|done].
    + intros k Hk E. apply (Hout (j :: k)); [apply in_box_cons; split; [lia|done]|]. cbn [lin]. lia.
  - intros k (i & k' & -> & Hi & Hk)%in_box_cons_inv. cbn [lin]. pose proof (lin_range _ _ (Hsub _ Hk)).
    destruct (decide (i = j)) as [->|Hne].
    + specialize (Hc' k' Hk). rewrite !Z.add_assoc. done.
    + rewrite Hu'; [apply (Hc (i :: k')), in_box_cons; split; [lia|done]|nia|].
      intros k'' Hk''. pose proof (lin_range _ _ (Hsub _ Hk'')). nia.
Qed.

Lemma list_set_middle {A} (pre : list A) x y l :
  <[Z.to_nat (len pre) := y]> (pre ++ x :: l) = (pre ++ [y]) ++ l.
Proof. unfold len. rewrite Nat2Z.id, insert_app_r_alt, Nat.sub_diag, <- app_assoc by lia. done. Qed.

Section copy.
Context (es : Z) (chunk : bytes) (gs ds sz : list Z) (base : Z).
Hypothesis Hgs : length gs = length sz.
Hypothesis Hds : length ds = length sz.
Hypothesis Hpos : Forall (fun z => 0 < z) sz.
Hypothesis Hsub : Forall2 (fun d z => z <= d) ds sz.

Lemma copyNDChunkRecursive_ok fuel pre rest full :
  length (pre ++ rest ++ [0]) = length sz -> (length sz - length pre < fuel)%nat ->
  inside es chunk (dot pre (strides gs)) (drop (length pre) gs) (drop (length pre) sz) ->
  inside es full (base + dot pre (strides ds)) (drop (length pre) ds) (drop (length pre) sz) ->
  exists rest' full',
    copyNDChunkRecursive fuel chunk full (pre ++ rest ++ [0]) (len pre) sz (map u64 (strides gs))
      (map u64 (strides ds)) (u64 base) es = Ret (pre ++ rest' ++ [0], full') /\
    length rest' = length rest /\
    untouched es full full' (base + dot pre (strides ds)) (drop (length pre) ds) (drop (length pre) sz) /\
    box_copied es chunk full' (dot pre (strides gs)) (base + dot pre (strides ds))
      (drop (length pre) gs) (drop (length pre) ds) (drop (length pre) sz).
Proof using Hgs Hds Hpos Hsub.
  revert pre rest full. induction fuel as [|fuel IH]; intros pre rest full Hlen Hfuel Hsrc Hdst; [lia|].
  cbn [copyNDChunkRecursive]. rewrite !length_app in Hlen. cbn [length] in Hlen.
  destruct (idx_some sz (length pre)) as [z Hz]; [lia|]. destruct (idx_some gs (length pre)) as [g Hg]; [lia|].
  destruct (idx_some ds (length pre)) as [d Hd]; [lia|].
  pose proof (proj1 (Forall_lookup _ _) Hpos _ _ Hz) as Hzp. cbn in Hzp.
  rewrite (drop_S _ _ _ Hz), (drop_S _ _ _ Hg), (drop_S _ _ _ Hd) in *.
  unfold len. rewrite (idx_lookup _ _ _ Hz). cbn [obind]. rewrite !length_app. cbn [length].
  destruct rest as [|r rest]; cbn [length app] in *; ztest.
  - rewrite !(drop_ge _ (S (length pre))) in * by lia.
    destruct (row_copied es chunk full _ _ g d z Hzp Hsrc Hdst) as (full' & E & Hu & Hc).
    exists [], full'. split; [|by split_and!]. unfold copyRow. rewrite (idx_lookup _ _ _ Hz). cbn [obind].
    replace (len (pre ++ [0])) with (Z.of_nat (length sz)) by (rewrite len_app; len_lia).
    rewrite dotLoop_ret by (rewrite ?length_app, ?length_strides; cbn; lia || done). cbn [obind].
    replace (Z.of_nat (length sz) - 1) with (Z.of_nat (length pre)) by lia.
    rewrite dotLoop_ret by (rewrite ?length_app, ?length_strides; cbn; lia || done || by rewrite u64_u64).
    cbn [obind]. rewrite take_app_length, dot_take, !take_ge, dot_snoc_0
      by (rewrite ?length_app, ?length_strides; cbn; lia).
    rewrite Z.add_0_l, (u64_mul_l (dot pre (strides gs))), (u64_add_l base), (u64_mul_l (base + _)).
    rewrite E. done.
  - set (do_ := base + dot pre (strides ds)) in *. set (so := dot pre (strides gs)) in *.
    set (GS := drop (S (length pre)) gs) in *. set (DS := drop (S (length pre)) ds) in *.
    set (SZ := drop (S (length pre)) sz) in *.
    assert (Hdo : 0 <= do_).
    { destruct (inside_at _ _ _ _ _ Hdst (replicate (S (length SZ)) 0)) as [Hdo _]; [|].
      - constructor; [lia|]. apply zero_in_box, Forall_drop. done.
      - by rewrite lin_zero, Z.add_0_r in Hdo. }
    destruct (for_loop_inv (fun i st => exists rest', st.1 = pre ++ rest' ++ [0] /\ length rest' = S (length rest) /\
        untouched es full st.2 do_ (d :: DS) (i :: SZ) /\ box_copied es chunk st.2 so do_ (g :: GS) (d :: DS) (i :: SZ))
      (Z.to_nat z) 0 (fun i '(indices, full) =>
        let! indices := set_idx indices (len pre) i in
        copyNDChunkRecursive fuel chunk full indices (len pre + 1) sz (map u64 (strides gs))
          (map u64 (strides ds)) (u64 base) es) (pre ++ r :: rest ++ [0], full)) as ([ind t] & E & (r' & Hr & Hrl & Hu & Hc)).
    + exists (r :: rest). split; [done|]. split; [done|]. split; [by split|].
      intros k (i & k' & -> & Hi & _)%in_box_cons_inv. lia.
    + intros j [ind t] Hj (r' & Hr & Hrl & Hu & Hc). cbn [fst snd] in *. subst ind.
      destruct r' as [|x r']; [done|]. rewrite Z.add_0_l, Z2Nat.id in Hj by lia.
      rewrite set_idx_ret by len_lia. cbn [obind app]. rewrite list_set_middle.
      replace (len pre + 1) with (len (pre ++ [j])) by len_lia.
      assert (Ej : length (pre ++ [j]) = S (length pre)) by (rewrite length_app; cbn; lia).
      specialize (IH (pre ++ [j]) r' t). rewrite Ej, !dot_stride, !Z.add_assoc in IH by lia.
      fold GS DS SZ so do_ in IH. destruct IH as (r'' & t' & -> & Hrl' & Hu' & Hc').
      * rewrite !length_app. cbn in *. lia.
      * lia.
      * apply (inside_slab _ _ _ g _ z); [done|lia].
      * destruct Hu as [Hl _]. destruct (inside_slab _ _ _ d DS z SZ j Hdst ltac:(lia)).
        split; [done|congruence|]. by rewrite Hl.
      * eexists. split; [done|]. exists (j :: r''). rewrite <- app_assoc. cbn [fst snd].
        split; [done|]. split; [cbn in *; lia|].
        apply (slab_step es chunk full t t'); try done; [lia| |by apply Forall_drop].
        intros k. by apply sub_box.
    + unfold len in E. rewrite E. cbn [obind fst snd] in *. subst ind.
      rewrite Z.add_0_l, Z2Nat.id in Hu, Hc by lia. destruct r' as [|x r']; [done|].
      fold (len pre). cbn [app]. rewrite set_idx_ret by len_lia. cbn [obind]. rewrite list_set_middle, <- app_assoc.
      exists (z :: r'), t. split; [done|]. split; [done|]. by split.
Qed.
End copy.

(** Sizes and corner of the box the reader copies. *)
Definition copySizes (coords cs ds : list Z) : list Z :=
  zip_with (fun c '(cd, dd) => copyDim c cd dd) coords (zip cs ds).
Definition corner (coords cs : list Z) : list Z := zip_with (fun c cd => u64 (c * cd)) coords cs.

Lemma copyDimsOf_ret coords cs ds :
  length cs = length coords -> length ds = length coords ->
  copyDimsOf (len coords) coords cs ds = Ret (copySizes coords cs ds).
Proof.
  intros H1 H2. unfold copyDimsOf, len. rewrite Nat2Z.id.
  assert (length coords = length (copySizes coords cs ds)) as El.
  { unfold copySizes. rewrite length_zip_with, length_zip. lia. }
  rewrite El. apply for_loop_fill. intros i v l Hv Hl. unfold copySizes in Hv.
  apply lookup_zip_with_Some in Hv as (c & [cd dd] & -> & Hc & (Hcd & Hdd)%lookup_zip_Some).
  by rewrite (idx_lookup _ _ _ Hc), (idx_lookup _ _ _ Hcd), (idx_lookup _ _ _ Hdd).
Qed.

(** The element offset of the chunk's corner. *)
Lemma offsetLoop_ret coords cs ds :
  length cs = length coords -> length ds = length coords ->
  for_loop (length coords) 0 (fun i off =>
    let! c := idx coords i in
    let! cd := idx cs i in
    let! s := idx (map u64 (strides ds)) i in
    Ret (u64 (off + u64 (u64 (c * cd) * s)))) 0 = Ret (u64 (lin ds (corner coords cs))).
Proof.
  intros H1 H2.
  destruct (for_loop_inv (fun i off => off = u64 (dot (take (Z.to_nat i) (corner coords cs)) (take (Z.to_nat i) (strides ds))))
    (length coords) 0 (fun i off =>
      let! c := idx coords i in
      let! cd := idx cs i in
      let! s := idx (map u64 (strides ds)) i in
      Ret (u64 (off + u64 (u64 (c * cd) * s)))) 0) as (r & E & Hr).
  - done.
  - intros j t Hj ->. destruct (idx_some coords (Z.to_nat j)) as [c Hc]; [lia|].
    destruct (idx_some cs (Z.to_nat j)) as [cd Hcd]; [lia|].
    destruct (idx_some (strides ds) (Z.to_nat j)) as [y Hy]; [rewrite length_strides; lia|].
    assert (Hy' : map u64 (strides ds) !! Z.to_nat j = Some (u64 y)).
    { change (map u64) with (fmap (M:=list) u64). by rewrite list_lookup_fmap, Hy. }
    assert (Hx : corner coords cs !! Z.to_nat j = Some (u64 (c * cd))).
    { unfold corner. by rewrite lookup_zip_with, Hc, Hcd. }
    apply idx_lookup in Hc as I1, Hcd as I2, Hy' as I3. rewrite Z2Nat.id in I1, I2, I3 by lia.
    rewrite I1, I2, I3. cbn [obind]. eexists. split; [done|]. u64_norm.
    replace (Z.to_nat (j + 1)) with (S (Z.to_nat j)) by lia.
    rewrite (take_S_r _ _ _ Hx), (take_S_r _ _ _ Hy), dot_snoc.
    + u64_norm. rewrite <- (u64_add_r _ (u64 (c * cd) * y)), u64_mul_l. by u64_norm.
    + unfold corner. rewrite !length_take, length_zip_with, length_strides. lia.
  - rewrite E, Hr, lin_dot. f_equal. f_equal. rewrite Z.add_0_l, Nat2Z.id.
    rewrite !take_ge; [done|..]; unfold corner; rewrite ?length_zip_with, ?length_strides; lia.
Qed.

Lemma copyNDChunk_ok es chunk full coords cs ds gs :
  coords <> [] -> length cs = length coords -> length ds = length coords -> length gs = length coords ->
  strides gs = strides cs ->
  Forall (fun z => 0 < z) (copySizes coords cs ds) ->
  Forall2 (fun d z => z <= d) ds (copySizes coords cs ds) ->
  inside es chunk 0 gs (copySizes coords cs ds) ->
  inside es full (lin ds (corner coords cs)) ds (copySizes coords cs ds) ->
  exists full', copyNDChunk chunk full coords cs ds es = Ret full' /\
    untouched es full full' (lin ds (corner coords cs)) ds (copySizes coords cs ds) /\
    box_copied es chunk full' 0 (lin ds (corner coords cs)) gs ds (copySizes coords cs ds).
Proof.
  intros Hne Hlc Hld Hlg Hstr Hpos Hle Hsrc Hdst. unfold copyNDChunk. cbv zeta.
  assert (0 < length coords)%nat as Hp by (destruct coords; cbn; [done|lia]).
  assert (Hls : length (copySizes coords cs ds) = length coords).
  { unfold copySizes. rewrite length_zip_with, length_zip. lia. }
  assert (Hst : forall l, length l = length coords -> stridesOf (len coords) l = Ret (map u64 (strides l))).
  { intros l Hl. replace (len coords) with (len l) by (unfold len; lia).
    apply stridesOf_ret. intros ->. cbn in *. lia. }
  rewrite !Hst by done. cbn [obind].
  rewrite copyDimsOf_ret by done. cbn [obind]. unfold len. rewrite Nat2Z.id, offsetLoop_ret by done.
  cbn [obind]. rewrite <- Hstr.
  destruct (copyNDChunkRecursive_ok es chunk gs ds (copySizes coords cs ds) (lin ds (corner coords cs))
    ltac:(lia) ltac:(lia) Hpos Hle (S (length coords)) [] (replicate (length coords - 1) 0) full)
    as (r & full' & E & _ & Hu & Hc).
  - cbn [app]. rewrite length_app, length_replicate, Hls. cbn. lia.
  - cbn. lia.
  - done.
  - cbn. by rewrite Z.add_0_r.
  - cbn [app length] in E. change [0] with (replicate 1 0) in E at 1. rewrite <- replicate_add in E.
    replace (length coords - 1 + 1)%nat with (length coords) in E by lia.
    change (len []) with 0 in E. rewrite E. cbn [obind]. exists full'. split; [done|].
    cbn [length dot] in Hu, Hc. rewrite Z.add_0_r, !drop_0 in *. done.
Qed.

(** ** The grid of chunks *)

(** Coordinates: the loop computes the digits of the index, last dimension first. *)
Lemma coordLoop_ok i ncs coord rem :
  (i <= length ncs)%nat -> length coord = length ncs -> Forall (fun n => 0 < n) ncs -> 0 <= rem ->
  exists c, coordLoop i ncs coord rem = Ret (c ++ drop i coord) /\
    in_box (take i ncs) c /\ lin (take i ncs) c = rem mod prod (take i ncs).
Proof.
  intros Hi Hl Hp. revert coord rem Hi Hl. induction i as [|i IH]; intros coord rem Hi Hl Hr; cbn [coordLoop].
  - exists []. rewrite take_0, drop_0. cbn. split_and!; [done|constructor|by rewrite Z.mod_1_r].
  - destruct (idx_some ncs i) as [n Hn]; [lia|]. rewrite (idx_lookup _ _ _ Hn). cbn [obind].
    pose proof (proj1 (Forall_lookup _ _) Hp _ _ Hn) as Hnp. cbn in Hnp. ztest.
    rewrite set_idx_ret by (unfold len; lia). cbn [obind]. rewrite Nat2Z.id.
    destruct (IH (<[i:=rem mod n]> coord) (rem / n)) as (c & -> & Hb & Hc).
    + lia.
    + by rewrite length_insert.
    + apply Z.div_pos; lia.
    + assert (Hlc : length (take i ncs) = length c) by by apply Forall2_length in Hb.
      exists (c ++ [rem mod n]). rewrite <- app_assoc. split_and!.
      * f_equal. rewrite (drop_S _ (rem mod n)) by (rewrite list_lookup_insert_eq by lia; done).
        by rewrite drop_insert_lt by lia.
      * rewrite (take_S_r _ _ _ Hn). apply Forall2_app; [done|]. repeat constructor; by apply Z.mod_pos_bound.
      * rewrite (take_S_r _ _ _ Hn), lin_app, Hc, prod_app by done. cbn. rewrite Z.mul_1_r.
        rewrite (Z.mul_comm (prod _) n), Z.rem_mul_r by (assert (0 < prod (take i ncs)) by (apply prod_pos; by apply Forall_take); lia).
        lia.
Qed.

#[local] Arguments chunkExtent : simpl never.
#[local] Arguments copyDim : simpl never.
#[local] Arguments chunksIn : simpl never.

(** Dimensions for which the ceiling division does not wrap. *)
Record dims_ok (ds cs : list Z) : Prop := {
  dims_ne : ds <> [];
  dims_at : Forall2 (fun d c => 0 < d /\ 0 < c /\ d + c <= 2 ^ 64) ds cs }.

Lemma chunksIn_spec d c x :
  0 < d -> 0 < c -> d + c <= 2 ^ 64 ->
  chunksIn d c = (d + c - 1) / c /\ 0 < chunksIn d c /\
  (0 <= x < chunksIn d c <-> 0 <= x /\ x * c < d).
Proof.
  intros Hd Hc Hs. unfold chunksIn. rewrite u64_sub_l. rewrite u64_id by (unfold is_u; lia).
  split; [done|]. pose proof (Z.div_mod (d + c - 1) c ltac:(lia)).
  pose proof (Z.mod_pos_bound (d + c - 1) c Hc). split; [|split; intros; nia].
  apply Z.div_str_pos. lia.
Qed.

Lemma extent_spec d c x :
  0 < d -> 0 < c -> d + c <= 2 ^ 64 -> 0 <= x -> x * c < d ->
  u64 (x * c) = x * c /\ chunkExtent x c d = Z.min c (d - x * c) /\ copyDim x c d = Z.min c (d - x * c).
Proof.
  intros Hd Hc Hs Hx Hxc. unfold chunkExtent, copyDim.
  rewrite (u64_id (x * c)) by (unfold is_u; nia). rewrite !(u64_id (x * c + c)) by (unfold is_u; nia).
  split; [done|]. split; ztest; rewrite ?u64_id by (unfold is_u; nia); lia.
Qed.

Lemma NewChunkCoordinator_ok ds cs :
  dims_ok ds cs -> NewChunkCoordinator ds cs = Ret (mkCoordinator ds cs (zip_with chunksIn ds cs)).
Proof.
  intros [Hne Hat]. pose proof (Forall2_length _ _ _ Hat) as Hl. unfold NewChunkCoordinator, len.
  rewrite Hl, Z.eqb_refl. ztest; [destruct ds, cs; done|].
  assert (Hp : forallb (fun dim => negb (dim =? 0)) ds = true /\ forallb (fun dim => negb (dim =? 0)) cs = true).
  { clear -Hat. induction Hat as [|d c ds cs (H1 & H2 & _) Hat [IH1 IH2]]; cbn [forallb]; [done|].
    rewrite IH1, IH2. destruct (Z.eqb_spec d 0), (Z.eqb_spec c 0); lia || done. }
  by rewrite (proj1 Hp), (proj2 Hp).
Qed.

Section grid.
Context (ds cs : list Z).
Hypothesis Hok : dims_ok ds cs.
Let cc := mkCoordinator ds cs (zip_with chunksIn ds cs).

(** Per-dimension facts of a chunk of the grid. *)
Local Lemma grid_at coord i d :
  in_box (zip_with chunksIn ds cs) coord -> ds !! i = Some d ->
  exists c x, cs !! i = Some c /\ coord !! i = Some x /\ 0 < c /\ 0 <= x /\ x * c < d /\
    corner coord cs !! i = Some (x * c) /\ sizeOf cc coord !! i = Some (Z.min c (d - x * c)) /\
    copySizes coord cs ds !! i = Some (Z.min c (d - x * c)).
Proof using Hok.
  intros Hb Hd. destruct Hok as [_ Hat]. destruct (Forall2_lookup_l _ _ _ _ _ Hat Hd) as (c & Hc & H1 & H2 & H3).
  assert (Hn : zip_with chunksIn ds cs !! i = Some (chunksIn d c)) by by rewrite lookup_zip_with, Hd, Hc.
  destruct (Forall2_lookup_l _ _ _ _ _ Hb Hn) as (x & Hx & Hxr).
  apply (chunksIn_spec d c x H1 H2 H3) in Hxr as [Hx0 Hxd].
  destruct (extent_spec d c x H1 H2 H3 Hx0 Hxd) as (E1 & E2 & E3). exists c, x.
  unfold corner, sizeOf, copySizes. cbn [chunkDims datasetDims].
  do 3 (rewrite ?lookup_zip_with, ?Hc, ?Hx, ?Hd; cbn). rewrite E1, E2, E3. split_and!; done.
Qed.

Local Lemma grid_lengths coord :
  in_box (zip_with chunksIn ds cs) coord -> length cs = length coord /\ length ds = length coord.
Proof using Hok.
  intros Hb%Forall2_length. destruct Hok as [_ Hat%Forall2_length]. rewrite length_zip_with in Hb. lia.
Qed.

Lemma grid_chunk_fits coord : in_box (zip_with chunksIn ds cs) coord -> chunk_fits cc coord.
Proof using Hok.
  intros Hb. destruct (grid_lengths coord Hb). split; [done|done|].
  intros i d s z Hd Hs Hz. destruct (grid_at coord i d Hb Hd) as (c & x & ? & ? & ? & ? & ? & Hs' & Hz' & _).
  change (startOf cc coord) with (corner coord cs) in Hs. simplify_eq. lia.
Qed.

Lemma grid_sizes coord : in_box (zip_with chunksIn ds cs) coord -> copySizes coord cs ds = sizeOf cc coord.
Proof using Hok.
  intros Hb. destruct (grid_lengths coord Hb). apply list_eq. intros i.
  destruct (decide (i < length ds)%nat) as [Hi|Hi].
  - destruct (idx_some ds i Hi) as [d Hd].
    destruct (grid_at coord i d Hb Hd) as (c & x & ? & ? & ? & ? & ? & _ & -> & ->). done.
  - rewrite !lookup_ge_None_2; [done|..]; unfold sizeOf, copySizes; rewrite ?length_zip_with, ?length_zip; cbn; lia.
Qed.

(** Every point of the dataset lies in exactly one chunk, at a place inside the
    chunk's extent. *)
Lemma grid_cover p :
  in_box ds p -> exists coord k, in_box (zip_with chunksIn ds cs) coord /\
    in_box (sizeOf cc coord) k /\ p = vadd (corner coord cs) k.
Proof using Hok.
  intros Hp. unfold sizeOf, corner, cc. cbn [chunkDims datasetDims]. destruct Hok as [_ Hat]. clear Hok cc.
  revert p Hp. induction Hat as [|d c ds' cs' (H1 & H2 & H3) Hat IH]; intros p Hp.
  - apply Forall2_nil_inv_l in Hp as ->. exists [], []. repeat split; constructor.
  - apply in_box_cons_inv in Hp as (x & p' & -> & Hx & Hp). destruct (IH p' Hp) as (co & k & Hco & Hk & ->).
    pose proof (Z.div_mod x c ltac:(lia)). pose proof (Z.mod_pos_bound x c H2).
    assert (Hq : 0 <= x / c) by (apply Z.div_pos; lia).
    destruct (extent_spec d c (x / c) H1 H2 H3 Hq ltac:(nia)) as (E1 & E2 & _).
    exists (x / c :: co), (x mod c :: k). cbn. rewrite E1, E2. split_and!.
    + apply in_box_cons. split; [|done]. apply chunksIn_spec; nia.
    + apply in_box_cons. split; [lia|done].
    + f_equal. lia.
Qed.

Lemma grid_disjoint c1 c2 k1 k2 :
  in_box (zip_with chunksIn ds cs) c1 -> in_box (zip_with chunksIn ds cs) c2 ->
  in_box (sizeOf cc c1) k1 -> in_box (sizeOf cc c2) k2 ->
  vadd (corner c1 cs) k1 = vadd (corner c2 cs) k2 -> c1 = c2 /\ k1 = k2.
Proof using Hok.
  unfold sizeOf, corner, cc. cbn [chunkDims datasetDims]. destruct Hok as [_ Hat]. clear Hok cc. intros Hb1.
  revert c1 Hb1 c2 k1 k2. induction Hat as [|d c ds' cs' (H1 & H2 & H3) Hat IH]; intros c1 Hb1 c2 k1 k2 Hb2 Hk1 Hk2.
  - apply Forall2_nil_inv_l in Hb1 as ->, Hb2 as ->. apply Forall2_nil_inv_l in Hk1 as ->, Hk2 as ->. done.
  - apply in_box_cons_inv in Hb1 as (x1 & c1' & -> & Hx1 & Hb1), Hb2 as (x2 & c2' & -> & Hx2 & Hb2).
    apply (chunksIn_spec d c x1 H1 H2 H3) in Hx1 as [Hx1 Hd1]. apply (chunksIn_spec d c x2 H1 H2 H3) in Hx2 as [Hx2 Hd2].
    destruct (extent_spec d c x1 H1 H2 H3 Hx1 Hd1) as (E1 & F1 & _).
    destruct (extent_spec d c x2 H1 H2 H3 Hx2 Hd2) as (E2 & F2 & _).
    cbn in Hk1, Hk2. rewrite F1 in Hk1. rewrite F2 in Hk2.
    apply in_box_cons_inv in Hk1 as (y1 & k1' & -> & Hy1 & Hk1), Hk2 as (y2 & k2' & -> & Hy2 & Hk2).
    cbn. rewrite E1, E2. intros [= E Ev]. assert (x1 = x2) as -> by nia.
    destruct (IH c1' Hb1 c2' k1' k2' Hb2 Hk1 Hk2 Ev) as [-> ->]. split; [done|]. f_equal. lia.
Qed.

Lemma grid_in coord k :
  in_box (zip_with chunksIn ds cs) coord -> in_box (sizeOf cc coord) k ->
  in_box ds (vadd (corner coord cs) k) /\ length (corner coord cs) = length k.
Proof using Hok.
  intros Hb Hk. destruct (grid_lengths coord Hb) as [L1 L2].
  pose proof (in_box_length _ _ Hk) as Hl.
  assert (Hs : length (sizeOf cc coord) = length coord).
  { unfold sizeOf, cc. cbn. rewrite length_zip_with, length_zip. lia. }
  assert (Hc : length (corner coord cs) = length coord) by (unfold corner; rewrite length_zip_with; lia).
  split; [|lia]. apply Forall2_same_length_lookup. split; [unfold vadd; rewrite length_zip_with; lia|].
  intros i d p Hd Hp. apply lookup_zip_with_Some in Hp as (s & y & -> & Hs' & Hy).
  destruct (grid_at coord i d Hb Hd) as (c & x & _ & _ & ? & ? & ? & Hco & Hz & _).
  destruct (Forall2_lookup_r _ _ _ _ _ Hk Hy) as (z & Hz' & Hyz). simplify_eq. lia.
Qed.

(** The chunks are not cut in any dimension but the first. *)
Definition inner_exact : Prop := Forall2 (fun d c => d mod c = 0) (tail ds) (tail cs).

Lemma exact_strides coord :
  inner_exact -> in_box (zip_with chunksIn ds cs) coord -> strides (sizeOf cc coord) = strides cs.
Proof using Hok.
  intros Hex Hb. destruct (grid_lengths coord Hb) as [L1 L2].
  assert (Hs : length (sizeOf cc coord) = length coord).
  { unfold sizeOf, cc. cbn. rewrite length_zip_with, length_zip. lia. }
  assert (Ht : tail (sizeOf cc coord) = tail cs).
  { apply list_eq. intros i. rewrite !lookup_tail.
    destruct (decide (S i < length ds)%nat) as [Hi|Hi]; [|rewrite !lookup_ge_None_2 by lia; done].
    destruct (idx_some ds (S i) Hi) as [d Hd].
    destruct (grid_at coord (S i) d Hb Hd) as (c & x & Hc & _ & ? & ? & ? & _ & -> & _). rewrite Hc.
    rewrite <- lookup_tail in Hd, Hc. pose proof (Forall2_lookup_lr _ _ _ _ _ _ Hex Hd Hc) as Hdc. cbn in Hdc.
    f_equal. pose proof (Z.div_mod d c ltac:(lia)). apply Z.min_l.
    assert (x + 1 <= d / c) by nia. nia. }
  destruct (sizeOf cc coord) as [|z sz], cs as [|c cs']; cbn in *; try lia; [done|]. by subst.
Qed.

(** The reader puts back what the writer cut out, and touches nothing else. *)
Lemma chunk_back coord es data full :
  inner_exact -> in_box (zip_with chunksIn ds cs) coord -> 0 < es ->
  len data = prod ds * es -> len data < 2 ^ 64 -> len full = len data ->
  exists chunk full', ExtractChunkData cc data coord es = Ret chunk /\
    len chunk = prod (sizeOf cc coord) * es /\
    copyChunkToArray chunk full coord cs ds es = Ret full' /\ len full' = len full /\
    (forall k, in_box (sizeOf cc coord) k -> elem es full' (lin ds (vadd (corner coord cs) k)) =
                                            elem es data (lin ds (vadd (corner coord cs) k))) /\
    (forall p, in_box ds p -> (forall k, in_box (sizeOf cc coord) k -> p <> vadd (corner coord cs) k) ->
       elem es full' (lin ds p) = elem es full (lin ds p)).
Proof using Hok.
  intros Hex Hb Hes Hdl Hlt Hfl. destruct (grid_lengths coord Hb) as [L1 L2].
  pose proof (grid_chunk_fits coord Hb) as Hfit. pose proof (grid_sizes coord Hb) as Hsz.
  destruct (fit_pos cc coord Hfit) as [Hdp Hzp]. cbn [datasetDims] in Hdp.
  assert (Hle : Forall2 (fun d z => z <= d) ds (sizeOf cc coord)).
  { apply Forall2_same_length_lookup. split; [pose proof (fit_lengths cc coord Hfit); lia|].
    intros i d z Hd Hz. destruct (grid_at coord i d Hb Hd) as (c & x & _ & _ & ? & ? & ? & _ & Hz' & _).
    simplify_eq. lia. }
  assert (Hpl : 0 < prod (sizeOf cc coord) <= prod ds).
  { split; [by apply prod_pos|]. clear -Hle Hzp Hdp. induction Hle as [|d z l l' H Hle IH]; [done|].
    rewrite !prod_cons. apply Forall_cons in Hzp as [? Hzp], Hdp as [? Hdp].
    specialize (IH Hdp Hzp). pose proof (prod_pos l' Hzp). nia. }
  destruct (ExtractChunkData_ok cc coord es Hfit data Hes (eq_sym Hdl) Hlt ltac:(nia)) as (chunk & E & Hcl & Hbox).
  destruct (copyNDChunk_ok es chunk full coord cs ds (sizeOf cc coord)) as (full' & E' & [Hfl' Hu] & Hc);
    try (rewrite Hsz; done || lia).
  - destruct Hok as [Hne _]. destruct ds; [done|]. intros ->. discriminate L2.
  - done.
  - done.
  - pose proof (fit_lengths cc coord Hfit). lia.
  - by apply exact_strides.
  - rewrite Hsz. split; [done|nia|]. intros k Hk%lin_range. nia.
  - rewrite Hsz. split; [done|lia|]. intros k Hk. destruct (grid_in coord k Hb Hk) as [Hin Hl].
    apply lin_range in Hin. rewrite lin_vadd in Hin by done. nia.
  - exists chunk, full'. rewrite Hsz in *. split_and!; try done.
    + unfold copyChunkToArray, len. rewrite L1, L2, Z.eqb_refl. exact E'.
    + intros k Hk. destruct (grid_in coord k Hb Hk) as [Hin Hl]. rewrite lin_vadd by done.
      rewrite (Hc k Hk), Hbox by done. cbn [datasetDims]. done.
    + intros p Hp Hno. apply Hu; [apply lin_range in Hp; lia|]. intros k Hk Eq.
      destruct (grid_in coord k Hb Hk) as [Hin Hl]. rewrite <- lin_vadd in Eq by done.
      apply (Hno k Hk). by apply (lin_inj ds).
Qed.
End grid.

(** The coordinates computed from the indices. *)
Lemma numChunks_pos ds cs : dims_ok ds cs -> Forall (fun n => 0 < n) (zip_with chunksIn ds cs).
Proof.
  intros [_ Hat]. induction Hat as [|d c ds' cs' (? & ? & ?) Hat IH]; cbn [zip_with]; constructor; [|done].
  by apply (chunksIn_spec d c 0).
Qed.

Lemma prod_numChunks_le ds cs : dims_ok ds cs -> prod (zip_with chunksIn ds cs) <= prod ds.
Proof.
  intros Hok. pose proof (numChunks_pos ds cs Hok) as Hp. destruct Hok as [_ Hat].
  induction Hat as [|d c ds' cs' (Hd & Hc & Hs) Hat IH]; [done|]. cbn [zip_with] in *.
  apply Forall_cons in Hp as [Hn Hp]. specialize (IH Hp). rewrite !prod_cons. pose proof (prod_pos _ Hp).
  destruct (chunksIn_spec d c (chunksIn d c - 1) Hd Hc Hs) as (_ & _ & Hx).
  assert (chunksIn d c <= d) by (assert (0 <= chunksIn d c - 1 < chunksIn d c) as (? & ?)%Hx by lia; nia). nia.
Qed.

Lemma GetTotalChunks_ok ds cs :
  dims_ok ds cs -> prod (zip_with chunksIn ds cs) < 2 ^ 64 ->
  GetTotalChunks (mkCoordinator ds cs (zip_with chunksIn ds cs)) = prod (zip_with chunksIn ds cs).
Proof.
  intros Hok Hlt. pose proof (prod_pos _ (numChunks_pos ds cs Hok)).
  unfold GetTotalChunks. cbn [numChunks]. rewrite mulAll_1. apply u64_id. unfold is_u. lia.
Qed.

Lemma GetChunkCoordinate_ok ds cs i :
  dims_ok ds cs -> 0 <= i < prod (zip_with chunksIn ds cs) -> exists c,
    GetChunkCoordinate (mkCoordinator ds cs (zip_with chunksIn ds cs)) i = Ret c /\
    in_box (zip_with chunksIn ds cs) c /\ lin (zip_with chunksIn ds cs) c = i.
Proof.
  intros Hok Hi. pose proof (numChunks_pos ds cs Hok) as Hpos. destruct Hok as [_ Hat%Forall2_length].
  unfold GetChunkCoordinate. cbn [numChunks datasetDims].
  destruct (coordLoop_ok (length (zip_with chunksIn ds cs)) (zip_with chunksIn ds cs) (replicate (length ds) 0) i)
    as (c & -> & Hb & E); [lia|rewrite length_replicate, length_zip_with; lia|done|lia|].
  rewrite take_ge in Hb, E by lia. rewrite drop_ge by (rewrite length_replicate, length_zip_with; lia).
  rewrite app_nil_r, Z.mod_small in * by lia. eauto.
Qed.

(** ** Properties *)

(** Chunk coordinates: for dimensions whose ceiling division does not wrap
    and at most 2^64 - 1 chunks, [GetTotalChunks] is the product of the chunk
    counts, and [GetChunkCoordinate] is the bijection between the indices
    below it and the chunk coordinates, in row-major order. *)
Theorem GetChunkCoordinate_bijective ds cs :
  dims_ok ds cs -> prod (zip_with chunksIn ds cs) < 2 ^ 64 ->
  exists cc, NewChunkCoordinator ds cs = Ret cc /\ GetTotalChunks cc = prod (numChunks cc) /\
    (forall i, 0 <= i < GetTotalChunks cc -> exists c, GetChunkCoordinate cc i = Ret c /\
       in_box (numChunks cc) c /\ lin (numChunks cc) c = i) /\
    (forall c, in_box (numChunks cc) c ->
       0 <= lin (numChunks cc) c < GetTotalChunks cc /\
       GetChunkCoordinate cc (lin (numChunks cc) c) = Ret c).
Proof.
  intros Hok Hlt. eexists. split; [by apply NewChunkCoordinator_ok|]. cbn [numChunks].
  rewrite GetTotalChunks_ok by done. split; [done|]. split; [intros i; by apply GetChunkCoordinate_ok|].
  intros c Hb. pose proof (lin_range _ _ Hb) as Hr. split; [done|].
  destruct (GetChunkCoordinate_ok ds cs _ Hok Hr) as (c' & -> & Hb' & E). by apply (lin_inj _ _ _ Hb' Hb) in E as ->.
Qed.

Example GetChunkCoordinate_bijective_witness :
  exists cc, NewChunkCoordinator [25; 35] [10; 10] = Ret cc /\ GetTotalChunks cc = 12 /\
    GetChunkCoordinate cc 11 = Ret [2; 3].
Proof.
  destruct (GetChunkCoordinate_bijective [25; 35] [10; 10]) as (cc & E & Ht & _ & _).
  - split; [done|]. repeat constructor; lia.
  - vm_compute. reflexivity.
  - exists cc. split; [exact E|]. injection E as <-. split; [exact Ht|vm_compute; reflexivity].
Defined.

(** The chunks partition the dataset: every point lies in one chunk, at one
    place inside the extent [GetChunkSize] reports for it. *)
Theorem chunks_partition ds cs p :
  dims_ok ds cs -> in_box ds p ->
  exists cc, NewChunkCoordinator ds cs = Ret cc /\
    exists coord size k, in_box (numChunks cc) coord /\ GetChunkSize cc coord = Ret size /\
      in_box size k /\ p = vadd (vmul coord cs) k /\
      forall coord' size' k', in_box (numChunks cc) coord' -> GetChunkSize cc coord' = Ret size' ->
        in_box size' k' -> p = vadd (vmul coord' cs) k' -> coord' = coord /\ k' = k.
Proof.
  intros Hok Hp. eexists. split; [by apply NewChunkCoordinator_ok|]. cbn [numChunks].
  assert (Hs : forall c, in_box (zip_with chunksIn ds cs) c ->
    GetChunkSize (mkCoordinator ds cs (zip_with chunksIn ds cs)) c =
      Ret (sizeOf (mkCoordinator ds cs (zip_with chunksIn ds cs)) c) /\ corner c cs = vmul c cs).
  { intros c Hb. destruct (grid_lengths ds cs Hok c Hb). split; [by apply GetChunkSize_ret|].
    apply list_eq. intros i. destruct (decide (i < length ds)%nat) as [Hi|Hi].
    - destruct (idx_some ds i Hi) as [d Hd].
      destruct (grid_at ds cs Hok c i d Hb Hd) as (c' & x & H1 & H2 & _ & _ & _ & -> & _).
      unfold vmul. by rewrite lookup_zip_with, H1, H2.
    - unfold corner, vmul. rewrite !lookup_ge_None_2; [done|rewrite length_zip_with; lia..]. }
  destruct (grid_cover ds cs Hok p Hp) as (coord & k & Hb & Hk & ->).
  destruct (Hs coord Hb) as [Es Ec0]. eexists coord, _, k. rewrite <- Ec0. split_and!; try done.
  intros coord' size' k' Hb' Es' Hk' E. destruct (Hs coord' Hb') as [Es'' Ec]. rewrite Es'' in Es'.
  injection Es' as <-. rewrite <- Ec in E. symmetry in E. by apply (grid_disjoint ds cs Hok) in E.
Qed.

Example chunks_partition_witness :
  exists cc, NewChunkCoordinator [25; 35] [10; 10] = Ret cc /\
    exists coord size k, in_box (numChunks cc) coord /\ GetChunkSize cc coord = Ret size /\
      in_box size k /\ [24; 34] = vadd (vmul coord [10; 10]) k.
Proof.
  destruct (chunks_partition [25; 35] [10; 10] [24; 34]) as (cc & E & coord & size & k & H1 & H2 & H3 & H4 & _).
  - split; [done|]. repeat constructor; lia.
  - repeat constructor; lia.
  - exists cc. split; [exact E|]. exists coord, size, k. split_and!; assumption.
Defined.

(** C23. Cutting a chunk out and putting it back: when the inner dimensions are
    multiples of the chunk's, the reader's [copyChunkToArray] restores exactly
    the points of the chunk that [ExtractChunkData] cut out, and leaves every
    other element of the array alone. *)
Theorem extract_copy_roundtrip ds cs coord es data full :
  dims_ok ds cs -> inner_exact ds cs -> 0 < es -> len data = prod ds * es -> len data < 2 ^ 64 ->
  len full = len data -> in_box (zip_with chunksIn ds cs) coord ->
  exists cc size chunk full', NewChunkCoordinator ds cs = Ret cc /\ GetChunkSize cc coord = Ret size /\
    ExtractChunkData cc data coord es = Ret chunk /\
    copyChunkToArray chunk full coord cs ds es = Ret full' /\ len full' = len full /\
    (forall k, in_box size k ->
       elem es full' (lin ds (vadd (corner coord cs) k)) = elem es data (lin ds (vadd (corner coord cs) k))) /\
    (forall p, in_box ds p -> (forall k, in_box size k -> p <> vadd (corner coord cs) k) ->
       elem es full' (lin ds p) = elem es full (lin ds p)).
Proof.
  intros Hok Hex Hes Hdl Hlt Hfl Hb.
  destruct (chunk_back ds cs Hok coord es data full Hex Hb Hes Hdl Hlt Hfl) as (chunk & full' & E1 & _ & E2 & ?).
  eexists _, _, chunk, full'. split; [by apply NewChunkCoordinator_ok|].
  destruct (grid_lengths ds cs Hok coord Hb). split; [by apply GetChunkSize_ret|]. done.
Qed.

Example extract_copy_roundtrip_witness :
  exists chunk full', copyChunkToArray chunk [x00; x00; x00; x00; x00; x00] [1; 0] [2; 2] [3; 2] 1 = Ret full' /\
    len full' = 6.
Proof.
  destruct (extract_copy_roundtrip [3; 2] [2; 2] [1; 0] 1 [x01; x02; x03; x04; x05; x06]
    [x00; x00; x00; x00; x00; x00]) as (cc & size & chunk & full' & _ & _ & _ & E & El & _).
  - split; [done|]. repeat constructor; lia.
  - repeat constructor.
  - lia.
  - reflexivity.
  - vm_compute. reflexivity.
  - reflexivity.
  - repeat constructor; lia.
  - exists chunk, full'. split; [exact E|exact El].
Defined.

(** An edge chunk that is partial in an inner dimension cannot be read back:
    the writer stores it at its partial size, the reader expects rows of the
    full chunk width.  Every 2 x 3 dataset of bytes cut into 2 x 2 chunks
    fails on its second chunk. *)
Theorem inner_edge_chunk_unreadable a b c d e f full :
  let cc := mkCoordinator [2; 3] [2; 2] [1; 2] in
  len full = 6 ->
  NewChunkCoordinator [2; 3] [2; 2] = Ret cc /\ GetTotalChunks cc = 2 /\
  GetChunkCoordinate cc 1 = Ret [0; 1] /\
  ExtractChunkData cc [a; b; c; d; e; f] [0; 1] 1 = Ret [c; f] /\
  copyChunkToArray [c; f] full [0; 1] [2; 2] [2; 3] 1 = Err "chunk data truncated".
Proof.
  intros cc Hl. split_and!; try reflexivity.
  do 6 (destruct full as [|? full]; [discriminate Hl|]). destruct full; [reflexivity|].
  exfalso. clear -Hl. len_lia.
Qed.

Example inner_edge_chunk_unreadable_witness :
  copyChunkToArray [x03; x06] (replicate 6 x00) [0; 1] [2; 2] [2; 3] 1 = Err "chunk data truncated".
Proof.
  exact (proj2 (proj2 (proj2 (proj2
    (inner_edge_chunk_unreadable x01 x02 x03 x04 x05 x06 (replicate 6 x00) eq_refl))))).
Defined.

(** The ceiling division wraps: a dimension of 2^64 - 1 elements in chunks
    of 2 has no chunk at all, so nothing of it would be written. *)
Theorem chunk_count_wraps :
  exists cc, NewChunkCoordinator [2 ^ 64 - 1] [2] = Ret cc /\ GetTotalChunks cc = 0.
Proof. eexists. split; [reflexivity|]. vm_compute. reflexivity. Qed.
