(* ===== verification/Allocator.v ===== *)
(** * The file-space allocator of internal/writer/allocator.go

    State: the tracked blocks, the sorted and coalesced free list, and the
    end-of-file address.  [Allocate] is best fit over the free list with
    end-of-file growth; [Free] shrinks the file or inserts into the free list
    and merges neighbours.  64-bit additions wrap as in the code. *)

From S2P Require Import Prelude.


(** ** Definitions *)

(** [AllocatedBlock] and [FreeBlock] have the same two fields. *)
Record block := mkBlock { Offset : Z; Size : Z }.

#[global] Instance block_eq_dec : EqDecision block.
Proof. solve_decision. Defined.

Record Allocator := mkAllocator {
  blocks : list block;
  freeList : list block;
  nextOffset : Z }.

Definition NewAllocator (initialOffset : Z) : Allocator :=
  {| blocks := []; freeList := []; nextOffset := initialOffset |}.

(** The best-fit scan: index and size of the best block so far
    ([bestIdx == -1] is [None]). *)
Fixpoint bestFit (size : Z) (i : nat) (best : option (nat * Z)) (fl : list block)
    : option (nat * Z) :=
  match fl with
  | [] => best
  | fb :: rest =>
      let better := match best with None => true | Some (_, bestSize) => Size fb <? bestSize end in
      bestFit size (S i)
        (if (Size fb >=? size) && better then Some (i, Size fb) else best) rest
  end.

Definition Allocate (a : Allocator) (size : Z) : outcome (Z * Allocator) :=
  guard negb (size =? 0) else "cannot allocate zero bytes";;
  match bestFit size 0 None (freeList a) with
  | Some (bestIdx, _) =>
      let! fb := idx (freeList a) (Z.of_nat bestIdx) in
      let addr := Offset fb in
      let fl :=
        if Size fb =? size then take bestIdx (freeList a) ++ drop (S bestIdx) (freeList a)
        else <[bestIdx := mkBlock (u64 (Offset fb + size)) (u64 (Size fb - size))]> (freeList a) in
      Ret (addr, {| blocks := blocks a ++ [mkBlock addr size];
                    freeList := fl; nextOffset := nextOffset a |})
  | None =>
      let addr := nextOffset a in
      Ret (addr, {| blocks := blocks a ++ [mkBlock addr size];
                    freeList := freeList a; nextOffset := u64 (addr + size) |})
  end.

Definition IsAllocated (a : Allocator) (offset size : Z) : bool :=
  if size =? 0 then false
  else
    let rangeEnd := u64 (offset + size) in
    existsb (fun b => (offset <? u64 (Offset b + Size b)) && (Offset b <? rangeEnd)) (blocks a).

Definition EndOfFile (a : Allocator) : Z := nextOffset a.

Definition by_offset (b c : block) : Prop := Offset b <= Offset c.
#[global] Instance by_offset_dec : RelDecision by_offset.
Proof. intros b c. unfold by_offset. apply _. Defined.

(** [sort.Slice] by offset on a copy of the blocks. *)
Definition Blocks (a : Allocator) : list block := merge_sort by_offset (blocks a).

Fixpoint noOverlapScan (bs : list block) : outcome unit :=
  match bs with
  | current :: ((next :: _) as rest) =>
      guard negb (u64 (Offset current + Size current) >? Offset next) else "overlap detected";;
      noOverlapScan rest
  | _ => Ret tt
  end.

Definition ValidateNoOverlaps (a : Allocator) : outcome unit := noOverlapScan (Blocks a).

(** Removal of the first block with exactly this offset and size. *)
Fixpoint removeBlock (offset size : Z) (bs : list block) : list block :=
  match bs with
  | [] => []
  | b :: rest =>
      if (Offset b =? offset) && (Size b =? size) then rest
      else b :: removeBlock offset size rest
  end.

(** Coalescing of the block at [insertIdx] with the next one, then with the
    previous one. *)
Definition coalesceNext (fl : list block) (insertIdx : nat) : list block :=
  match fl !! insertIdx, fl !! S insertIdx with
  | Some cur, Some next =>
      if u64 (Offset cur + Size cur) =? Offset next
      then take insertIdx fl ++ mkBlock (Offset cur) (u64 (Size cur + Size next))
             :: drop (S (S insertIdx)) fl
      else fl
  | _, _ => fl
  end.

Definition coalescePrev (fl : list block) (insertIdx : nat) : list block :=
  match insertIdx with
  | O => fl
  | S p =>
      match fl !! p, fl !! insertIdx with
      | Some prev, Some cur =>
          if u64 (Offset prev + Size prev) =? Offset cur
          then take p fl ++ mkBlock (Offset prev) (u64 (Size prev + Size cur))
                 :: drop (S insertIdx) fl
          else fl
      | _, _ => fl
      end
  end.

Definition addToFreeList (fl : list block) (offset size : Z) : list block :=
  let insertIdx := sort_search (length fl)
    (fun i => match fl !! i with Some b => Offset b >=? offset | None => true end) in
  let fl1 := take insertIdx fl ++ mkBlock offset size :: drop insertIdx fl in
  coalescePrev (coalesceNext fl1 insertIdx) insertIdx.

(** The loop absorbs the last free block while it ends at the end of file; it
    runs on the reversed list, whose head is the last free block. *)
Fixpoint shrinkLoop (rfl : list block) (eof : Z) : list block * Z :=
  match rfl with
  | [] => ([], eof)
  | last :: rest =>
      if u64 (Offset last + Size last) =? eof then shrinkLoop rest (Offset last)
      else (rfl, eof)
  end.

Definition shrinkTrailingFreeBlocks (a : Allocator) : Allocator :=
  let '(rfl, eof) := shrinkLoop (rev (freeList a)) (nextOffset a) in
  {| blocks := blocks a; freeList := rev rfl; nextOffset := eof |}.

Definition Free (a : Allocator) (offset size : Z) : outcome Allocator :=
  guard negb (size =? 0) else "cannot free zero bytes";;
  let bs := removeBlock offset size (blocks a) in
  if u64 (offset + size) =? nextOffset a then
    Ret (shrinkTrailingFreeBlocks
      {| blocks := bs; freeList := freeList a; nextOffset := offset |})
  else
    Ret {| blocks := bs; freeList := addToFreeList (freeList a) offset size;
           nextOffset := nextOffset a |}.

Definition FreeBlocks (a : Allocator) : list block := freeList a.

(** ** The contract

    The managed part of the file, from the initial address to the end of file,
    is tiled by the tracked and the free blocks: every byte belongs to exactly
    one of them. *)

Fixpoint tiles (lo : Z) (l : list block) (hi : Z) : Prop :=
  match l with
  | [] => lo = hi
  | b :: r => Offset b = lo /\ 0 < Size b /\ tiles (lo + Size b) r hi
  end.

Definition bend (b : block) : Z := Offset b + Size b.

(** The first offset of a list of blocks, or a default. *)
Definition hd_off (l : list block) (d : Z) : Z :=
  match l with [] => d | c :: _ => Offset c end.

(** The free list is sorted, with a gap between neighbours (it is coalesced)
    and before the end of file. *)
Fixpoint free_ok (fl : list block) (eof : Z) : Prop :=
  match fl with
  | [] => True
  | b :: r => bend b < hd_off r eof /\ free_ok r eof
  end.

Record Inv (init : Z) (a : Allocator) : Prop := {
  inv_init : 0 <= init;
  inv_eof : nextOffset a < 2 ^ 64;
  inv_tiles : exists l, l ≡ₚ blocks a ++ freeList a /\ tiles init l (nextOffset a);
  inv_free : free_ok (freeList a) (nextOffset a) }.

Definition disjoint_blocks (b c : block) : Prop := bend b <= Offset c \/ bend c <= Offset b.

(** The operations a client may perform: allocate, or free a tracked block. *)
Inductive step : Allocator -> Allocator -> Prop :=
| step_alloc a size addr a' :
    0 < size -> nextOffset a + size < 2 ^ 64 -> Allocate a size = Ret (addr, a') -> step a a'
| step_free a b a' :
    b ∈ blocks a -> Free a (Offset b) (Size b) = Ret a' -> step a a'.

Definition reachable (init : Z) (a : Allocator) : Prop := rtc step (NewAllocator init) a.

Definition total (l : list block) : Z := foldr (fun b s => Size b + s) 0 l.

(** ** Tilings *)

Lemma tiles_app lo l1 l2 hi :
  tiles lo (l1 ++ l2) hi <-> exists mid, tiles lo l1 mid /\ tiles mid l2 hi.
Proof.
  revert lo. induction l1 as [|b l1 IH]; intros lo; cbn.
  - naive_solver.
  - rewrite IH. naive_solver.
Qed.

Lemma tiles_le lo l hi : tiles lo l hi -> lo <= hi.
Proof. revert lo. induction l; cbn; [lia|]. intros lo (?&?&?%IHl). lia. Qed.

Lemma tiles_split lo l hi b :
  tiles lo l hi -> b ∈ l ->
  exists l1 l2, l = l1 ++ b :: l2 /\ tiles lo l1 (Offset b) /\ 0 < Size b /\ tiles (bend b) l2 hi.
Proof.
  intros Ht (l1 & l2 & ->)%list_elem_of_split. apply tiles_app in Ht as (mid & H1 & <- & Hs & H2).
  by exists l1, l2.
Qed.

Lemma tiles_bounds lo l hi b :
  tiles lo l hi -> b ∈ l -> lo <= Offset b /\ 0 < Size b /\ bend b <= hi.
Proof.
  intros Ht (l1 & l2 & -> & ?%tiles_le & ? & ?%tiles_le)%(tiles_split _ _ _ _ Ht). done.
Qed.

Lemma tiles_disjoint lo l1 b l2 hi c :
  tiles lo (l1 ++ b :: l2) hi -> c ∈ l1 ++ l2 -> disjoint_blocks b c.
Proof.
  intros (mid & H1 & <- & ? & H2)%tiles_app Hc. unfold disjoint_blocks.
  apply elem_of_app in Hc as [Hc|Hc]; eapply tiles_bounds in Hc; eauto; unfold bend in *; lia.
Qed.

Lemma tiles_NoDup lo l hi : tiles lo l hi -> NoDup l.
Proof.
  revert lo. induction l as [|b l IH]; intros lo Ht; [constructor|].
  constructor; [|destruct Ht as (?&?&?); eauto].
  intros Hin. pose proof (tiles_disjoint lo [] b l hi b Ht Hin) as Hd.
  destruct Ht as (?&?&?). unfold disjoint_blocks, bend in Hd. lia.
Qed.

(** Adjacent blocks of a tiling are neighbours in it. *)
Lemma tiles_next lo l hi b c :
  tiles lo l hi -> b ∈ l -> c ∈ l -> bend b = Offset c -> exists l1 l2, l = l1 ++ b :: c :: l2.
Proof.
  intros Ht Hb Hc E. destruct (tiles_split _ _ _ _ Ht Hb) as (l1 & l2 & -> & H1 & Hs & H2).
  destruct l2 as [|d l2]; cbn in H2.
  - destruct (tiles_bounds _ _ _ _ Ht Hc) as (?&?&?). unfold bend in *. lia.
  - destruct H2 as (Hd & Hd' & H2). exists l1, l2. do 3 f_equal.
    apply elem_of_app in Hc as [Hc|Hc].
    + destruct (tiles_bounds _ _ _ _ H1 Hc) as (?&?&?). unfold bend in *. lia.
    + apply elem_of_cons in Hc as [->|Hc]; [unfold bend in *; lia|].
      apply elem_of_cons in Hc as [->|Hc]; [done|].
      destruct (tiles_bounds _ _ _ _ H2 Hc) as (?&?&?). unfold bend in *. lia.
Qed.

Lemma tiles_last lo l hi b :
  tiles lo l hi -> b ∈ l -> bend b = hi -> exists l1, l = l1 ++ [b] /\ tiles lo l1 (Offset b).
Proof.
  intros Ht Hb E. destruct (tiles_split _ _ _ _ Ht Hb) as (l1 & l2 & -> & H1 & Hs & H2).
  exists l1. split; [|done]. destruct l2 as [|d l2]; [done|].
  cbn in H2. destruct H2 as (?&?&?%tiles_le). lia.
Qed.

Lemma tiles_total lo l hi : tiles lo l hi -> total l = hi - lo.
Proof.
  revert lo. induction l as [|b l IH]; intros lo; cbn.
  - lia.
  - intros (_ & _ & H%IH). unfold total in H. lia.
Qed.

Lemma total_perm l k : l ≡ₚ k -> total l = total k.
Proof. induction 1; cbn; unfold total in *; lia. Qed.

Lemma total_app l k : total (l ++ k) = total l + total k.
Proof. induction l as [|b l IH]; cbn; unfold total in *; lia. Qed.

(** Merging two neighbours of a tiling. *)
Lemma tiles_merge lo l hi b c rest :
  tiles lo l hi -> l ≡ₚ b :: c :: rest -> bend b = Offset c ->
  exists l', l' ≡ₚ mkBlock (Offset b) (Size b + Size c) :: rest /\ tiles lo l' hi.
Proof.
  intros Ht Hp E.
  destruct (tiles_next lo l hi b c) as (l1 & l2 & ->); [done|rewrite Hp; set_solver..|done|].
  exists (l1 ++ mkBlock (Offset b) (Size b + Size c) :: l2). split.
  - rewrite <- !Permutation_middle in Hp. apply Permutation_cons_inv, Permutation_cons_inv in Hp.
    by rewrite <- Permutation_middle, Hp.
  - apply tiles_app in Ht as (mid & H1 & H2). apply tiles_app. exists mid. split; [done|].
    cbn in *. destruct H2 as (<- & ? & ? & ? & H2). split_and!; [done|lia|].
    unfold bend in E. by rewrite Z.add_assoc.
Qed.

(** ** The free list *)

Lemma free_ok_mono l e e' : e <= e' -> free_ok l e -> free_ok l e'.
Proof.
  intros He. induction l as [|b l IH]; cbn; [done|]. intros [Hb Hl]. split; [|auto].
  destruct l; cbn in *; lia.
Qed.

Lemma free_ok_app l1 l2 e : free_ok (l1 ++ l2) e <-> free_ok l1 (hd_off l2 e) /\ free_ok l2 e.
Proof.
  induction l1 as [|b l1 IH]; cbn; [tauto|]. rewrite IH.
  destruct l1; cbn; tauto.
Qed.

Lemma free_ok_sorted b l e :
  Forall (fun c => 0 < Size c) (b :: l) -> free_ok (b :: l) e -> Forall (fun c => bend b < Offset c) l.
Proof.
  revert b. induction l as [|c l IH]; intros b Hs [Hb Hl]; [constructor|].
  apply Forall_cons in Hs as [Hb0 Hs]. cbn in Hb. constructor; [done|].
  eapply Forall_impl; [by apply IH|]. apply Forall_cons in Hs as [? _].
  unfold bend in *. cbn. intros. lia.
Qed.

(** The insertion point found by [sort_search]. *)
Lemma free_split fl e off :
  Forall (fun c => 0 < Size c) fl -> free_ok fl e ->
  exists l1 l2, fl = l1 ++ l2 /\ Forall (fun c => Offset c < off) l1 /\
    Forall (fun c => off <= Offset c) l2.
Proof.
  induction fl as [|b fl IH]; intros Hs Hf; [by exists [], []|].
  destruct (decide (Offset b < off)).
  - destruct IH as (l1 & l2 & -> & ? & ?); [by apply Forall_cons in Hs as []|by destruct Hf|].
    exists (b :: l1), l2. auto.
  - exists [], (b :: fl). split_and!; [done|constructor|]. constructor; [lia|].
    eapply Forall_impl; [by eapply free_ok_sorted|]. apply Forall_cons in Hs as [? _].
    unfold bend. cbn. intros. lia.
Qed.

Lemma search_split l1 l2 off :
  Forall (fun c => Offset c < off) l1 -> Forall (fun c => off <= Offset c) l2 ->
  sort_search (length (l1 ++ l2))
    (fun i => match (l1 ++ l2) !! i with Some b => Offset b >=? off | None => true end) = length l1.
Proof.
  intros H1 H2. rewrite length_app. apply sort_search_spec; [lia| |].
  - intros k Hk. rewrite lookup_app_l by done.
    destruct (lookup_lt_is_Some_2 l1 k Hk) as [b Hb]. rewrite Hb.
    eapply Forall_lookup_1 in Hb; [|done]. cbn in Hb. rewrite Z.geb_leb. lia.
  - intros k Hk1 Hk2. rewrite lookup_app_r by done.
    destruct (lookup_lt_is_Some_2 l2 (k - length l1)) as [b Hb]; [lia|]. rewrite Hb.
    eapply Forall_lookup_1 in Hb; [|done]. cbn in Hb. rewrite Z.geb_leb. lia.
Qed.

(** ** [bestFit] *)

Lemma bestFit_spec size fl i best :
  match bestFit size i best fl with
  | None => best = None /\ Forall (fun b => Size b < size) fl
  | Some (k, s) =>
      (best = Some (k, s) \/
       exists b, (i <= k)%nat /\ fl !! (k - i)%nat = Some b /\ Size b = s /\ size <= s) /\
      (forall k0 s0, best = Some (k0, s0) -> s <= s0) /\
      Forall (fun b => size <= Size b -> s <= Size b) fl
  end.
Proof.
  revert i best. induction fl as [|fb fl IH]; intros i best; cbn.
  { destruct best as [[k s]|]; [|done]. split_and!; [by left|naive_solver lia|constructor]. }
  rewrite Z.geb_leb.
  set (best' := if _ : bool then _ else best). specialize (IH (S i) best').
  destruct (bestFit size (S i) best' fl) as [[k s]|].
  - destruct IH as (Hk & Hm & Hf). destruct (Z.leb_spec size (Size fb)) as [Hsz|Hsz]; cbn in best'.
    + destruct best as [[k0 s0]|]; [destruct (Z.ltb_spec (Size fb) s0)|]; subst best'.
      1,3: pose proof (Hm _ _ eq_refl); split_and!;
        [right; destruct Hk as [[= <- <-]|(b & ? & Hb & ?)];
         [exists fb; rewrite Nat.sub_diag; auto with lia
         |exists b; split; [lia|]; by replace (k - i)%nat with (S (k - S i)) by lia]
        |naive_solver lia|constructor; auto].
      pose proof (Hm _ _ eq_refl). split_and!; [|naive_solver|constructor; [lia|done]].
      destruct Hk as [?|(b & ? & Hb & ?)]; [by left|]. right.
      exists b. split; [lia|]. by replace (k - i)%nat with (S (k - S i)) by lia.
    + subst best'. split_and!; [|done|constructor; [lia|done]].
      destruct Hk as [?|(b & ? & Hb & ?)]; [by left|]. right.
      exists b. split; [lia|]. by replace (k - i)%nat with (S (k - S i)) by lia.
  - destruct IH as [Hb Hf]. subst best'.
    destruct (Z.leb_spec size (Size fb)) as [Hsz|Hsz]; cbn in Hb.
    + destruct best as [[k0 s0]|]; [destruct (Z.ltb_spec (Size fb) s0)|]; done.
    + split; [done|]. by constructor.
Qed.

(** ** Bounds drawn from the invariant *)

Lemma Inv_block init a b :
  Inv init a -> b ∈ blocks a ++ freeList a ->
  init <= Offset b /\ 0 < Size b /\ bend b <= nextOffset a /\ u64 (Offset b + Size b) = bend b.
Proof.
  intros [? ? (l & Hp & Ht) ?] Hb. rewrite <- Hp in Hb.
  destruct (tiles_bounds _ _ _ _ Ht Hb) as (?&?&?). unfold bend in *.
  split_and!; try lia. apply u64_id. unfold is_u. lia.
Qed.

Lemma Inv_disjoint init a b rest :
  Inv init a -> blocks a ++ freeList a ≡ₚ b :: rest -> Forall (disjoint_blocks b) rest.
Proof.
  intros [? ? (l & Hp & Ht) ?] Hb. rewrite Hb in Hp.
  assert (b ∈ l) as (l1 & l2 & ->)%list_elem_of_split by (rewrite Hp; set_solver).
  rewrite <- Permutation_middle in Hp. apply Permutation_cons_inv in Hp.
  apply Forall_forall. intros c Hc. rewrite <- Hp in Hc. by eapply tiles_disjoint.
Qed.

(** The last tracked block is disjoint from the others. *)
Lemma Inv_last init a bs b :
  Inv init a -> blocks a = bs ++ [b] -> Forall (disjoint_blocks b) bs.
Proof.
  intros HI Hb. assert (Hr : blocks a ++ freeList a ≡ₚ b :: bs ++ freeList a).
  { rewrite Hb, <- app_assoc. cbn. by rewrite <- Permutation_middle. }
  apply (Inv_disjoint init) in Hr; [|done]. by apply Forall_app in Hr as [? _].
Qed.

Lemma free_sizes init a : Inv init a -> Forall (fun b => 0 < Size b) (freeList a).
Proof. intros HI. apply Forall_forall. intros b Hb. by apply (Inv_block init a b HI); set_solver. Qed.

(** ** [Allocate] keeps the contract *)

Lemma block_eta b : b = mkBlock (Offset b) (Size b).
Proof. by destruct b. Qed.

(** The three shapes of a successful allocation. *)
Lemma Allocate_cases init a size :
  Inv init a -> 0 < size ->
  (exists l1 fb l2, freeList a = l1 ++ fb :: l2 /\ size <= Size fb /\
     Forall (fun b => size <= Size b -> Size fb <= Size b) (freeList a) /\
     Allocate a size = Ret (Offset fb,
       {| blocks := blocks a ++ [mkBlock (Offset fb) size];
          freeList := l1 ++ (if Size fb =? size then []
                             else [mkBlock (Offset fb + size) (Size fb - size)]) ++ l2;
          nextOffset := nextOffset a |})) \/
  (Forall (fun b => Size b < size) (freeList a) /\
   Allocate a size = Ret (nextOffset a,
       {| blocks := blocks a ++ [mkBlock (nextOffset a) size];
          freeList := freeList a; nextOffset := u64 (nextOffset a + size) |})).
Proof.
  intros HI Hs. unfold Allocate. destruct (Z.eqb_spec size 0); [lia|]. cbn [negb].
  pose proof (bestFit_spec size (freeList a) 0 None) as Hbf.
  destruct (bestFit size 0 None (freeList a)) as [[k s]|]; [left|right; naive_solver].
  destruct Hbf as ([|(fb & _ & Hk & <- & Hsz)] & _ & Hmin); [done|].
  rewrite Nat.sub_0_r in Hk.
  pose proof (take_drop_middle _ _ _ Hk) as Hsplit.
  assert (Hlen : length (take k (freeList a)) = k).
  { rewrite length_take. apply lookup_lt_Some in Hk. lia. }
  exists (take k (freeList a)), fb, (drop (S k) (freeList a)).
  split_and!; [done..|].
  rewrite (proj2 (idx_ret _ _ fb)) by (rewrite Nat2Z.id; auto with lia). cbn [obind].
  do 3 f_equal. destruct (Z.eqb_spec (Size fb) size) as [|Hne]; [done|].
  rewrite <- Hsplit at 1. rewrite insert_app_r_alt by lia. rewrite Hlen, Nat.sub_diag. cbn.
  destruct (Inv_block init a fb HI) as (?&?&?&Hend); [rewrite <- Hsplit; set_solver|].
  destruct HI. unfold bend in *. rewrite !u64_id by (unfold is_u; lia). done.
Qed.

Lemma Allocate_Inv init a size addr a' :
  Inv init a -> 0 < size -> nextOffset a + size < 2 ^ 64 -> Allocate a size = Ret (addr, a') ->
  Inv init a'.
Proof.
  intros HI Hs Hov HA. destruct (Allocate_cases init a size HI Hs) as
    [(l1 & fb & l2 & Hfl & Hsz & _ & E)|[_ E]]; rewrite E in HA; injection HA as <- <-.
  - destruct (Inv_block init a fb HI) as (?&?&?&Hend); [rewrite Hfl; set_solver|].
    destruct HI as [? ? (l & Hp & Ht) Hf]. rewrite Hfl in Hp, Hf.
    apply free_ok_app in Hf as [Hf1 [Hfb Hf2]]. cbn in Hf1.
    assert (fb ∈ l) as Hin by (rewrite Hp; set_solver).
    destruct (tiles_split _ _ _ _ Ht Hin) as (k1 & k2 & -> & Ht1 & _ & Ht2).
    rewrite <- !Permutation_middle in Hp.
    apply Permutation_cons_inv in Hp.
    destruct (Z.eqb_spec (Size fb) size) as [<-|Hne]; split; cbn; try done.
    + exists (k1 ++ fb :: k2). split.
      * rewrite <- app_assoc, <- block_eta. cbn. by rewrite <- !Permutation_middle, Hp.
      * apply tiles_app. eexists. split; [done|]. by cbn.
    + apply free_ok_app. split; [|done]. eapply free_ok_mono; [|done].
      unfold bend in *. destruct l2; cbn in *; lia.
    + exists (k1 ++ mkBlock (Offset fb) size :: mkBlock (Offset fb + size) (Size fb - size) :: k2). split.
      * rewrite <- app_assoc. cbn. rewrite <- !Permutation_middle, Hp.
        first [done | apply Permutation_swap].
      * apply tiles_app. eexists. split; [done|]. cbn. split_and!; try lia; try done.
        unfold bend in Ht2. by replace (Offset fb + size + (Size fb - size)) with (Offset fb + Size fb) by lia.
    + apply free_ok_app. split; [eapply free_ok_mono; [|done]; cbn; lia|].
      split; [|done]. unfold bend in *. cbn. lia.
  - destruct HI as [? ? (l & Hp & Ht) Hf]. pose proof (tiles_le _ _ _ Ht).
    rewrite u64_id by (unfold is_u; lia). split; cbn; try done.
    + exists (l ++ [mkBlock (nextOffset a) size]). split.
      * rewrite Hp, <- !app_assoc. f_equiv. apply Permutation_app_comm.
      * apply tiles_app. exists (nextOffset a). cbn. auto.
    + eapply free_ok_mono; [|done]. lia.
Qed.

(** ** [Free] keeps the contract *)

Lemma removeBlock_perm b bs :
  b ∈ bs -> bs ≡ₚ b :: removeBlock (Offset b) (Size b) bs.
Proof.
  induction bs as [|c bs IH]; intros Hb; [set_solver|]. cbn.
  destruct (Z.eqb_spec (Offset c) (Offset b)), (Z.eqb_spec (Size c) (Size b)); cbn.
  { assert (c = b) as -> by (destruct b, c; cbn in *; congruence). done. }
  all: apply elem_of_cons in Hb as [->|Hb]; [done|]; rewrite IH at 1 by done; apply Permutation_swap.
Qed.

(** Absorbing trailing free blocks; the free list may touch the end of file
    before, and does not after. *)
Lemma shrink_Inv init bs fl eof l :
  0 <= init -> eof < 2 ^ 64 -> l ≡ₚ bs ++ fl -> tiles init l eof -> free_ok fl (eof + 1) ->
  Inv init (shrinkTrailingFreeBlocks {| blocks := bs; freeList := fl; nextOffset := eof |}).
Proof.
  intros H0. revert eof l. unfold shrinkTrailingFreeBlocks. cbn.
  induction fl as [|b fl IH] using rev_ind; intros eof l He Hp Ht Hf.
  { cbn. split; cbn; eauto. }
  rewrite rev_app_distr. cbn.
  assert (b ∈ l) as Hb by (rewrite Hp; set_solver).
  destruct (tiles_bounds _ _ _ _ Ht Hb) as (?&?&?).
  apply free_ok_app in Hf as [Hf [Hfb _]]. cbn in Hfb, Hf. unfold bend in *.
  rewrite u64_id by (unfold is_u; lia).
  destruct (Z.eqb_spec (Offset b + Size b) eof) as [E|Hne].
  - destruct (tiles_last _ _ _ _ Ht Hb E) as (l1 & -> & Ht1).
    apply (IH (Offset b) l1); [lia| |done|eapply free_ok_mono; [|done]; lia].
    rewrite app_assoc in Hp. by apply Permutation_app_inv_r in Hp.
  - split; cbn; rewrite ?rev_app_distr, ?rev_involutive; cbn; eauto.
    apply free_ok_app. cbn. split; [done|]. unfold bend. split; [lia|done].
Qed.

(** [bs] and [fl] tile the managed space up to [eof]. *)
Definition tiled (init : Z) (bs fl : list block) (eof : Z) : Prop :=
  exists l, l ≡ₚ bs ++ fl /\ tiles init l eof.

Lemma tiled_bounds init bs fl eof b :
  tiled init bs fl eof -> b ∈ fl -> init <= Offset b /\ 0 < Size b /\ bend b <= eof.
Proof. intros (l & Hp & Ht) Hb. apply (tiles_bounds _ _ _ _ Ht). rewrite Hp. set_solver. Qed.

Lemma tiled_merge init bs l1 b c l2 eof :
  tiled init bs (l1 ++ b :: c :: l2) eof -> bend b = Offset c ->
  tiled init bs (l1 ++ mkBlock (Offset b) (Size b + Size c) :: l2) eof.
Proof.
  intros (l & Hp & Ht) E.
  destruct (tiles_merge _ _ _ b c (bs ++ l1 ++ l2) Ht) as (l' & Hp' & Ht'); [|done|].
  - rewrite Hp. by rewrite <- !Permutation_middle.
  - exists l'. split; [|done]. rewrite Hp'. by rewrite <- !Permutation_middle.
Qed.

Lemma drop_middle2 {A} (l1 : list A) b c l2 : drop (S (S (length l1))) (l1 ++ b :: c :: l2) = l2.
Proof.
  rewrite drop_app_ge by lia. by replace (S (S (length l1)) - length l1)%nat with 2%nat by lia.
Qed.

Lemma lookup_middle_next {A} (l1 : list A) b l2 : (l1 ++ b :: l2) !! S (length l1) = head l2.
Proof.
  rewrite lookup_app_r, Nat.sub_succ_l, Nat.sub_diag by lia. by destruct l2.
Qed.

(** Merging a free block with its right neighbour, when they touch. *)
Lemma coalesceNext_ok init bs l1 b l2 eof :
  0 <= init -> eof < 2 ^ 64 -> tiled init bs (l1 ++ b :: l2) eof ->
  bend b < hd_off l2 eof + 1 -> bend b < eof -> free_ok l2 eof ->
  exists b' l2', coalesceNext (l1 ++ b :: l2) (length l1) = l1 ++ b' :: l2' /\
    Offset b' = Offset b /\ bend b' < hd_off l2' eof /\ free_ok l2' eof /\
    tiled init bs (l1 ++ b' :: l2') eof.
Proof.
  intros H0 He Ht Hb Hbe Hf2. unfold coalesceNext.
  rewrite list_lookup_middle, lookup_middle_next by done.
  destruct l2 as [|c l2]; cbn in *; [exists b, []; split_and!; eauto|].
  destruct (tiled_bounds _ _ _ _ b Ht) as (?&?&?); [set_solver|].
  destruct (tiled_bounds _ _ _ _ c Ht) as (?&?&?); [set_solver|].
  unfold bend in *. rewrite !u64_id by (unfold is_u; lia).
  destruct (Z.eqb_spec (Offset b + Size b) (Offset c)) as [E|Hne].
  - rewrite take_app_length, drop_middle2. destruct Hf2 as [Hc Hf2].
    exists (mkBlock (Offset b) (Size b + Size c)), l2. unfold bend in *.
    split_and!; cbn; [done|done|lia|done|by apply tiled_merge].
  - exists b, (c :: l2). unfold bend. split; [done|]. split; [done|]. split; [cbn; lia|done].
Qed.

(** Merging a free block with its left neighbour, when they touch, completes
    the insertion. *)
Lemma coalescePrev_ok init bs l1 b l2 eof :
  0 <= init -> eof < 2 ^ 64 -> tiled init bs (l1 ++ b :: l2) eof ->
  free_ok l1 (Offset b + 1) -> bend b < hd_off l2 eof -> free_ok l2 eof ->
  Inv init {| blocks := bs; freeList := coalescePrev (l1 ++ b :: l2) (length l1);
              nextOffset := eof |}.
Proof.
  intros H0 He Ht Hf1 Hb Hf2.
  destruct l1 as [|p l1 _] using rev_ind; [by split|].
  rewrite length_app. cbn. rewrite Nat.add_1_r. cbn [coalescePrev].
  rewrite <- app_assoc in *. cbn in *. rewrite list_lookup_middle, lookup_middle_next by done. cbn.
  destruct (tiled_bounds _ _ _ _ b Ht) as (?&?&?); [set_solver|].
  destruct (tiled_bounds _ _ _ _ p Ht) as (?&?&?); [set_solver|].
  apply free_ok_app in Hf1 as [Hf1 [Hp1 _]]. cbn in *. unfold bend in *.
  rewrite !u64_id by (unfold is_u; lia).
  destruct (Z.eqb_spec (Offset p + Size p) (Offset b)) as [E|Hne].
  - rewrite take_app_length, drop_middle2. split; cbn; try done.
    + by apply tiled_merge.
    + apply free_ok_app. cbn. unfold bend. cbn. split_and!; [done|lia|done].
  - split; cbn; try done. apply free_ok_app. cbn. unfold bend. split_and!; [done|lia|lia|done].
Qed.

(** Neighbours of a free list that avoid [b], seen from [b]. *)
Lemma free_ok_before l b e :
  free_ok l e -> Forall (disjoint_blocks b) l -> Forall (fun c => 0 < Size c) l ->
  Forall (fun c => Offset c < bend b) l -> free_ok l (Offset b + 1).
Proof.
  induction l as [|c l IH]; [done|]. intros [Hc Hl] Hd Hs Ho.
  apply Forall_cons in Hd as [? Hd], Hs as [? Hs], Ho as [? Ho].
  split; [|by apply IH]. unfold disjoint_blocks, bend in *. destruct l; cbn in *; lia.
Qed.

Lemma Free_Inv init a b a' :
  Inv init a -> b ∈ blocks a -> Free a (Offset b) (Size b) = Ret a' -> Inv init a'.
Proof.
  intros HI Hb. pose proof (removeBlock_perm b _ Hb) as Hrm.
  destruct (Inv_block init a b HI) as (?&?&?&Hend); [set_solver|].
  assert (Hdis : Forall (disjoint_blocks b) (freeList a)).
  { assert (Hall : Forall (disjoint_blocks b) (removeBlock (Offset b) (Size b) (blocks a) ++ freeList a)).
    { eapply Inv_disjoint; [done|]. by rewrite Hrm at 1. }
    by apply Forall_app in Hall as [_ ?]. }
  pose proof (free_sizes init a HI) as Hsz.
  destruct HI as [? Heof (l & Hp & Ht) Hf]. rewrite Hrm in Hp. cbn in Hp.
  unfold Free. destruct (Z.eqb_spec (Size b) 0); [lia|]. cbn [negb].
  rewrite Hend. destruct (Z.eqb_spec (bend b) (nextOffset a)) as [E|Hne]; intros [= <-].
  - assert (b ∈ l) as Hin by (rewrite Hp; set_solver).
    destruct (tiles_last _ _ _ _ Ht Hin E) as (l1 & -> & Ht1).
    eapply shrink_Inv; [done|unfold bend in *; lia| |done|].
    + rewrite (Permutation_app_comm l1) in Hp. by apply Permutation_cons_inv in Hp.
    + eapply free_ok_before; [done..|]. apply Forall_forall. intros c Hc.
      destruct (tiles_bounds _ _ _ c Ht) as (?&?&?); [rewrite Hp; set_solver|].
      unfold bend in *. lia.
  - unfold addToFreeList. destruct (free_split (freeList a) (nextOffset a) (Offset b)) as
      (l1 & l2 & Efl & Hlt & Hge); [done|done|]. rewrite Efl in *.
    rewrite search_split, take_app_length, drop_app_length by done.
    rewrite <- block_eta. apply free_ok_app in Hf as [Hf1 Hf2].
    apply Forall_app in Hdis as [Hd1 Hd2]. apply Forall_app in Hsz as [Hs1 Hs2].
    destruct (coalesceNext_ok init (removeBlock (Offset b) (Size b) (blocks a)) l1 b l2 (nextOffset a))
      as (b' & l2' & -> & Hoff & ? & ? & ?); try done.
    + exists l. split; [|done]. rewrite Hp. by rewrite <- !Permutation_middle.
    + destruct l2 as [|c l2]; cbn; [lia|]. apply Forall_cons in Hd2 as [Hd _], Hs2 as [? _], Hge as [? _].
      unfold disjoint_blocks, bend in *. lia.
    + lia.
    + apply coalescePrev_ok; try done. rewrite Hoff. eapply free_ok_before; [done..|].
      eapply Forall_impl; [done|]. unfold bend. cbn. lia.
Qed.

(** ** The overlap scan *)

#[global] Instance by_offset_trans : Transitive by_offset.
Proof. intros b c d. unfold by_offset. lia. Qed.
#[global] Instance by_offset_total : Total by_offset.
Proof. intros b c. unfold by_offset. lia. Qed.

Lemma noOverlapScan_ok bs :
  StronglySorted by_offset bs ->
  Forall (fun b => 0 < Size b /\ u64 (Offset b + Size b) = bend b) bs ->
  (forall l1 b c l2, bs = l1 ++ b :: c :: l2 -> disjoint_blocks b c) ->
  noOverlapScan bs = Ret tt.
Proof.
  induction bs as [|b [|c bs] IH]; [done..|]. intros Hs Hb Hd.
  pose proof (Hd [] b c bs eq_refl) as Hbc. apply StronglySorted_inv in Hs as [Hs Hall].
  apply Forall_cons in Hall as [Hle _], Hb as [[? Hend] Hb]. cbn [noOverlapScan].
  rewrite Hend. unfold by_offset in Hle.
  apply Forall_cons in Hb as Hb'. destruct Hb' as [[? ?] _].
  destruct (Z.gtb_spec (bend b) (Offset c)); cbn [negb].
  { unfold disjoint_blocks, bend in *. lia. }
  apply IH; [done..|]. intros l1 b' c' l2 E. apply (Hd (b :: l1) b' c' l2). by rewrite E.
Qed.

Lemma ValidateNoOverlaps_ok init a : Inv init a -> ValidateNoOverlaps a = Ret tt.
Proof.
  intros HI. unfold ValidateNoOverlaps, Blocks.
  pose proof (merge_sort_Permutation by_offset (blocks a)) as Hp.
  apply noOverlapScan_ok.
  - apply StronglySorted_merge_sort; apply _.
  - apply Forall_forall. intros b Hb. rewrite Hp in Hb.
    destruct (Inv_block init a b HI) as (?&?&?&?); [set_solver|done].
  - intros l1 b c l2 E. rewrite E in Hp.
    assert (Hr : blocks a ++ freeList a ≡ₚ b :: (c :: l1 ++ l2 ++ freeList a)).
    { rewrite <- Hp, <- app_assoc. cbn. by rewrite <- !Permutation_middle. }
    apply (Inv_disjoint init) in Hr; [|done]. by apply Forall_cons in Hr as [? _].
Qed.

Lemma NewAllocator_Inv init : 0 <= init < 2 ^ 64 -> Inv init (NewAllocator init).
Proof. intros [??]. split; cbn; try done. by exists []. Qed.

Lemma step_Inv init a a' : Inv init a -> step a a' -> Inv init a'.
Proof.
  intros HI Hst. inversion Hst as [? size addr ? Hs Hov E|? b ? Hb E]; subst.
  - exact (Allocate_Inv _ _ _ _ _ HI Hs Hov E).
  - exact (Free_Inv _ _ _ _ HI Hb E).
Qed.

Lemma reachable_Inv init a : 0 <= init < 2 ^ 64 -> reachable init a -> Inv init a.
Proof.
  intros Hi Hr. assert (H : Inv init (NewAllocator init)) by by apply NewAllocator_Inv.
  revert H. induction Hr; eauto using step_Inv.
Qed.

Lemma Forall_free_exact init a :
  Inv init a ->
  Forall (fun b => 0 < Size b /\ u64 (Offset b + Size b) = bend b) (freeList a).
Proof.
  intros HI. apply Forall_forall. intros b Hb.
  destruct (Inv_block init a b HI) as (?&?&?&?); [set_solver|done].
Qed.

Lemma shrinkLoop_le fl eof :
  Forall (fun b => 0 < Size b /\ u64 (Offset b + Size b) = bend b) fl ->
  (shrinkLoop fl eof).2 <= eof.
Proof.
  revert eof. induction fl as [|c fl IH]; intros eof Hs; [done|]. cbn.
  apply Forall_cons in Hs as [[? Hc] Hs]. rewrite Hc.
  destruct (Z.eqb_spec (bend c) eof); [|done].
  etransitivity; [by apply IH|]. unfold bend in *. lia.
Qed.

(** ** Properties *)

(** C24. Allocator contract: in every state reached by allocating and by
    freeing tracked blocks, the tracked and the free blocks tile the space
    between the initial address and the end of file (no overlap, no leak), the
    free list is sorted, coalesced and does not touch the end of file, and
    [ValidateNoOverlaps] reports no error. *)
Theorem reachable_contract init a :
  0 <= init < 2 ^ 64 -> reachable init a ->
  Inv init a /\ ValidateNoOverlaps a = Ret tt /\
  total (blocks a) + total (freeList a) = EndOfFile a - init.
Proof.
  intros Hi Hr. pose proof (reachable_Inv init a Hi Hr) as HI.
  split_and!; [done|by eapply ValidateNoOverlaps_ok|].
  destruct HI as [_ _ (l & Hp & Ht) _]. unfold EndOfFile. apply tiles_total in Ht.
  by rewrite (total_perm _ _ Hp), total_app in Ht.
Qed.

Example reachable_contract_witness :
  exists a, reachable 48 a /\ freeList a = [mkBlock 48 100] /\
  total (blocks a) + total (freeList a) = EndOfFile a - 48.
Proof.
  eexists (mkAllocator [mkBlock 148 50] [mkBlock 48 100] 198).
  assert (Hr : reachable 48 (mkAllocator [mkBlock 148 50] [mkBlock 48 100] 198)).
  { eapply rtc_l; [apply (step_alloc _ 100 48); [lia|vm_compute; reflexivity|vm_compute; reflexivity]|].
    eapply rtc_l; [apply (step_alloc _ 50 148); [lia|vm_compute; reflexivity|vm_compute; reflexivity]|].
    eapply rtc_l; [apply (step_free _ (mkBlock 48 100)); [by left|vm_compute; reflexivity]|].
    apply rtc_refl. }
  split; [exact Hr|]. split; [reflexivity|].
  apply (reachable_contract 48 _ ltac:(lia) Hr).
Defined.

(** [Allocate] returns space that no tracked block uses: the new range is
    disjoint from every tracked block and lies below the new end of file; it
    comes from a smallest sufficient free block when there is one, and the
    file grows only when every free block is too small. *)
Theorem Allocate_fresh init a size :
  Inv init a -> 0 < size -> nextOffset a + size < 2 ^ 64 ->
  exists addr a', Allocate a size = Ret (addr, a') /\ Inv init a' /\
    blocks a' = blocks a ++ [mkBlock addr size] /\
    Forall (disjoint_blocks (mkBlock addr size)) (blocks a) /\
    init <= addr /\ addr + size <= EndOfFile a' /\
    ((exists fb, fb ∈ freeList a /\ addr = Offset fb /\ EndOfFile a' = EndOfFile a /\
        Forall (fun b => size <= Size b -> Size fb <= Size b) (freeList a)) \/
     (Forall (fun b => Size b < size) (freeList a) /\
        addr = EndOfFile a /\ EndOfFile a' = EndOfFile a + size)).
Proof.
  intros HI Hs Hov.
  assert (exists addr a', Allocate a size = Ret (addr, a')) as (addr & a' & E).
  { destruct (Allocate_cases init a size HI Hs) as [(?&?&?&_&_&_&E)|[_ E]]; eauto. }
  exists addr, a'. pose proof (Allocate_Inv _ _ _ _ _ HI Hs Hov E) as HI'.
  assert (Hb : blocks a' = blocks a ++ [mkBlock addr size]).
  { destruct (Allocate_cases init a size HI Hs) as [(?&?&?&_&_&_&E')|[_ E']];
      rewrite E' in E; injection E as <- <-; done. }
  destruct (Inv_block init a' (mkBlock addr size) HI') as (?&?&?&_); [rewrite Hb; set_solver|].
  split_and!; try done.
  - by eapply Inv_last.
  - destruct (Allocate_cases init a size HI Hs) as [(l1 & fb & l2 & Hfl & ? & Hmin & E')|[Hf E']];
      rewrite E' in E; injection E as <- <-; [left|right].
    + exists fb. rewrite Hfl at 1. split_and!; [set_solver|done..].
    + split_and!; [done..|]. unfold EndOfFile. cbn. apply u64_id.
      destruct HI as [? ? (l & _ & Ht%tiles_le) _]. unfold is_u. lia.
Qed.

Example Allocate_fresh_witness :
  exists addr a', Allocate (NewAllocator 48) 16 = Ret (addr, a') /\ Inv 48 a' /\
    blocks a' = [] ++ [mkBlock addr 16].
Proof.
  destruct (Allocate_fresh 48 (NewAllocator 48) 16 (NewAllocator_Inv 48 ltac:(lia))
    ltac:(lia) ltac:(vm_compute; reflexivity)) as (addr & a' & H1 & H2 & H3 & _).
  exists addr, a'. split; [exact H1|]. split; [exact H2|exact H3].
Defined.

(** [IsAllocated] answers whether a range meets a tracked block, with
    touching ranges and empty ranges not counting. *)
Theorem IsAllocated_spec init a offset size :
  Inv init a -> 0 <= offset -> 0 <= size -> offset + size < 2 ^ 64 ->
  IsAllocated a offset size = true <->
  0 < size /\ exists b, b ∈ blocks a /\ ~ disjoint_blocks (mkBlock offset size) b.
Proof.
  intros HI Ho Hs Hov. unfold IsAllocated.
  destruct (Z.eqb_spec size 0) as [->|]; [split; [done|lia]|].
  rewrite existsb_exists. split.
  - intros (b & Hb%list_elem_of_In & Hc%andb_true_iff). split; [lia|]. exists b. split; [done|].
    destruct (Inv_block init a b HI) as (?&?&?&Hend); [set_solver|].
    rewrite Hend, u64_id in Hc by (unfold is_u; lia).
    unfold disjoint_blocks, bend in *. cbn. lia.
  - intros (_ & b & Hb & Hd). exists b. split; [by apply list_elem_of_In|].
    destruct (Inv_block init a b HI) as (?&?&?&Hend); [set_solver|].
    rewrite Hend, u64_id by (unfold is_u; lia).
    unfold disjoint_blocks, bend in *. cbn in Hd. apply andb_true_iff. lia.
Qed.

Example IsAllocated_spec_witness :
  IsAllocated (NewAllocator 48) 48 8 = true <->
  0 < 8 /\ exists b, b ∈ [] /\
    ~ disjoint_blocks (mkBlock 48 8) b.
Proof.
  apply (IsAllocated_spec 48 (NewAllocator 48)); [apply NewAllocator_Inv; lia|lia|lia|vm_compute; reflexivity].
Defined.

(** Freeing a tracked block always succeeds, keeps the contract and
    untracks exactly that block. *)
Theorem Free_tracked init a b :
  Inv init a -> b ∈ blocks a ->
  exists a', Free a (Offset b) (Size b) = Ret a' /\ Inv init a' /\
    blocks a ≡ₚ b :: blocks a' /\ (b ∉ blocks a') /\ EndOfFile a' <= EndOfFile a.
Proof.
  intros HI Hb. destruct (Inv_block init a b HI) as (?&Hs&?&?); [set_solver|].
  assert (exists a', Free a (Offset b) (Size b) = Ret a' /\
    blocks a' = removeBlock (Offset b) (Size b) (blocks a)) as (a' & E & Hbs).
  { unfold Free. destruct (Z.eqb_spec (Size b) 0); [lia|]. cbn [negb].
    case_match; eexists; split; try done. unfold shrinkTrailingFreeBlocks. by case_match. }
  pose proof (Free_Inv _ _ _ _ HI Hb E) as HI'. exists a'.
  pose proof (removeBlock_perm b _ Hb) as Hp. rewrite <- Hbs in Hp.
  assert (Hnd : NoDup (blocks a ++ freeList a)).
  { destruct HI as [_ _ (l & Hp' & Ht) _]. rewrite <- Hp'. by eapply tiles_NoDup. }
  apply NoDup_app in Hnd as (Hnd & _ & _).
  split_and!; [done..| |].
  - rewrite Hp in Hnd. by apply NoDup_cons in Hnd as [? _].
  - revert E. unfold Free. case_match; [|done]. case_match; intros [= <-]; [|done].
    unfold shrinkTrailingFreeBlocks, EndOfFile. cbn.
    pose proof (shrinkLoop_le (rev (freeList a)) (Offset b)
      (Forall_rev (Forall_free_exact init a HI))) as Hsh.
    destruct (shrinkLoop _ _). cbn in *.
    unfold bend in *. lia.
Qed.

Example Free_tracked_witness :
  exists a', Free (mkAllocator [mkBlock 48 100] [] 148) 48 100 = Ret a' /\ blocks a' = [] /\
    EndOfFile a' = 48.
Proof.
  destruct (Free_tracked 48 (mkAllocator [mkBlock 48 100] [] 148) (mkBlock 48 100)) as (a' & E & HI & Hp & _).
  - split; cbn; [lia|lia|exists [mkBlock 48 100]; split; [reflexivity|cbn; lia]|exact I].
  - by left.
  - exists a'. split; [exact E|]. vm_compute in E. injection E as <-. split; reflexivity.
Defined.

(** [Free] does not check what it is given: freeing the same block twice
    succeeds both times, and the two allocations that follow both return its
    address, so two live blocks alias and [ValidateNoOverlaps] fails. *)
Theorem Free_twice_aliases :
  (let! a1 := Free (mkAllocator [mkBlock 0 8; mkBlock 8 8] [] 16) 0 8 in
   let! a2 := Free a1 0 8 in
   let! (p, a3) := Allocate a2 8 in
   let! (q, a4) := Allocate a3 8 in
   Ret (p, q, ValidateNoOverlaps a4)) = Ret (0, 0, Err "overlap detected").
Proof. vm_compute. reflexivity. Qed.
