(* ===== verification/Storage.v ===== *)
(** * File storage: internal/writer/writer.go

    The [FileWriter] (an open file and the space allocator), the interface the
    index writers use it through ([Writer] and [Allocator] of
    internal/structures/btree_chunk.go), and the laws of that interface. *)

From S2P Require Import Prelude Allocator.

(** ** Files

    [os.File.WriteAt] extends the file with zeros when it writes past the end;
    a negative offset is an error. *)

Definition write_at (file : bytes) (off : Z) (data : bytes) : bytes :=
  blit (file ++ replicate (Z.to_nat (off + len data - len file)) x00) off data.

Definition os_write_at (file : bytes) (off : Z) (data : bytes) : outcome bytes :=
  guard 0 <=? off else "negative offset";; Ret (write_at file off data).

(** ** [FileWriter]: [None] is the closed file. *)

Record FileWriter := mkWriter { file : option bytes; allocator : Allocator }.

Definition NewFileWriter (initialOffset : Z) : FileWriter :=
  mkWriter (Some []) (NewAllocator initialOffset).

Definition OpenFileWriter (contents : bytes) (initialOffset : Z) : FileWriter :=
  let fileSize := len contents in
  let allocatorOffset := if initialOffset >? fileSize then initialOffset else fileSize in
  mkWriter (Some contents) (NewAllocator allocatorOffset).

Definition fwAllocate (w : FileWriter) (size : Z) : outcome (Z * FileWriter) :=
  match file w with
  | None => Err "writer is closed"
  | Some f => let! (addr, a) := Allocate (allocator w) size in Ret (addr, mkWriter (Some f) a)
  end.

Definition fwWriteAt (w : FileWriter) (data : bytes) (offset : Z) : outcome FileWriter :=
  match file w with
  | None => Err "writer is closed"
  | Some f =>
      if len data =? 0 then Ret w
      else let! f := os_write_at f offset data in Ret (mkWriter (Some f) (allocator w))
  end.

Definition WriteAtAddress (w : FileWriter) (data : bytes) (addr : Z) : outcome FileWriter :=
  fwWriteAt w data (i64 addr).

Definition fwReadAt (w : FileWriter) (n addr : Z) : outcome bytes :=
  match file w with
  | None => Err "writer is closed"
  | Some f => read_at f addr n
  end.

Definition fwEndOfFile (w : FileWriter) : Z := EndOfFile (allocator w).

Definition WriteAtWithAllocation (w : FileWriter) (data : bytes) : outcome (Z * FileWriter) :=
  guard negb (len data =? 0) else "cannot write empty data";;
  let! (addr, w) := fwAllocate w (len data) in
  let! w := WriteAtAddress w data addr in
  Ret (addr, w).

Definition Close (w : FileWriter) : FileWriter := mkWriter None (allocator w).

(** ** The interface and its laws *)

Class Storage (St : Type) := {
  allocate : St -> Z -> outcome (Z * St);
  write_to : St -> bytes -> Z -> outcome St;
  contents : St -> bytes }.

(** [usable st n]: the storage is open and [n] more bytes can be handed out at
    addresses that fit [int64]. *)
Class StorageLaws (St : Type) `{Storage St} := {
  usable : St -> Z -> Prop;
  owned : St -> list block;
  first_address : Z;
  owned_from st n b : usable st n -> b ∈ owned st -> first_address <= Offset b;
  usable_mono st n m : usable st n -> m <= n -> usable st m;
  owned_range st n b : usable st n -> b ∈ owned st ->
    0 <= Offset b /\ 0 < Size b /\ bend b < 2 ^ 63;
  owned_disjoint st n b rest : usable st n -> owned st ≡ₚ b :: rest -> Forall (disjoint_blocks b) rest;
  allocate_law st n size : usable st n -> 0 < size <= n ->
    exists addr st', allocate st size = Ret (addr, st') /\ usable st' (n - size) /\
      contents st' = contents st /\ owned st' = owned st ++ [mkBlock addr size] /\
      Forall (disjoint_blocks (mkBlock addr size)) (owned st);
  write_law st n data addr : usable st n -> 0 <= addr < 2 ^ 63 -> 0 < len data ->
    exists st', write_to st data addr = Ret st' /\ usable st' n /\ owned st' = owned st /\
      contents st' = write_at (contents st) addr data }.

#[export] Instance FileWriter_Storage : Storage FileWriter := {|
  allocate := fwAllocate;
  write_to := WriteAtAddress;
  contents := fun w => default [] (file w) |}.

(** ** Reading back what was written *)

Lemma len_write_at f off data :
  0 <= off -> len (write_at f off data) = Z.max (len f) (off + len data).
Proof. intros. unfold write_at. rewrite len_blit; len_lia. Qed.

Lemma read_at_sub f off n : 0 <= off -> off + n <= len f -> read_at f off n = Ret (sub f off n).
Proof. apply read_at_ret. Qed.

Lemma read_written f off data : 0 <= off -> read_at (write_at f off data) off (len data) = Ret data.
Proof.
  intros Ho. rewrite read_at_ret by (rewrite ?len_write_at; lia). f_equal.
  unfold write_at. apply sub_blit_same; len_lia.
Qed.

Lemma sub_app_l {A} (l k : list A) o n : 0 <= o -> 0 <= n -> o + n <= len l -> sub (l ++ k) o n = sub l o n.
Proof.
  intros. unfold sub, len in *. rewrite drop_app_le by lia. rewrite take_app_le; [done|].
  rewrite length_drop. lia.
Qed.

(** A write leaves what lies outside its range. *)
Lemma read_unwritten f off data o n s :
  0 <= off -> 0 <= n -> o + n <= off \/ off + len data <= o ->
  read_at f o n = Ret s -> read_at (write_at f off data) o n = Ret s.
Proof.
  intros Ho Hn Hd (H1 & H2 & ->)%read_at_inv. rewrite read_at_ret by (rewrite ?len_write_at; lia). f_equal.
  unfold write_at. rewrite sub_blit_other by len_lia. apply sub_app_l; lia.
Qed.

(** ** [bs] is stored at [addr] *)

Definition stored (f : bytes) (addr : Z) (bs : bytes) : Prop := read_at f addr (len bs) = Ret bs.

Lemma stored_write f addr bs : 0 <= addr -> stored (write_at f addr bs) addr bs.
Proof. apply read_written. Qed.

Lemma stored_other f addr bs a data :
  0 <= a -> disjoint_blocks (mkBlock addr (len bs)) (mkBlock a (len data)) ->
  stored f addr bs -> stored (write_at f a data) addr bs.
Proof.
  intros Ha Hd. apply read_unwritten; [done|apply len_nonneg|].
  unfold disjoint_blocks, bend in Hd. cbn in Hd. lia.
Qed.

(** Reading a part of what is stored. *)
Lemma stored_part f addr pre mid post :
  stored f addr (pre ++ mid ++ post) -> read_at f (addr + len pre) (len mid) = Ret mid.
Proof.
  intros (H1 & H2 & H3)%read_at_inv. rewrite !len_app in *.
  pose proof (len_nonneg pre). pose proof (len_nonneg mid). pose proof (len_nonneg post).
  rewrite read_at_ret by lia. f_equal. apply list_eq. intros i. rewrite lookup_sub by lia.
  apply (f_equal (fun l => l !! (length pre + i)%nat)) in H3. rewrite lookup_sub in H3 by lia.
  rewrite lookup_app_r, Nat.add_sub' in H3 by lia.
  destruct (decide (Z.of_nat i < len mid)) as [Hi|Hi].
  - rewrite lookup_app_l in H3 by (unfold len in *; lia). rewrite H3, decide_True by (unfold len in *; lia).
    f_equal. unfold len in *. lia.
  - by rewrite lookup_ge_None_2 by (unfold len in *; lia).
Qed.

Lemma stored_app_r f a x y : stored f a (x ++ y) -> stored f (a + len x) y.
Proof. intros H. unfold stored. eapply stored_part. by rewrite app_nil_r. Qed.

Lemma stored_app_l f a x y : stored f a (x ++ y) -> stored f a x.
Proof. intros H. unfold stored. rewrite <- (Z.add_0_r a). by apply (stored_part f a [] x y). Qed.

Lemma stored_bounds f a bs : stored f a bs -> 0 <= a /\ a + len bs <= len f.
Proof. by intros (? & ? & _)%read_at_inv. Qed.

(** Reading [n] bytes where more are stored. *)
Lemma stored_read f a bs n : stored f a bs -> 0 <= n <= len bs -> read_at f a n = Ret (take (Z.to_nat n) bs).
Proof.
  intros H Hn. rewrite <- (take_drop (Z.to_nat n) bs) in H. apply stored_app_l in H. unfold stored in H.
  rewrite len_take in H. by replace (Z.min (Z.of_nat (Z.to_nat n)) (len bs)) with n in H by lia.
Qed.

Lemma lookup_write_at f a d (i : nat) : 0 <= a ->
  write_at f a d !! i =
    (if decide (a <= Z.of_nat i < a + len d) then d !! (i - Z.to_nat a)%nat
     else if decide (len f <= Z.of_nat i < a) then (if decide (0 < a + len d - len f) then Some x00 else None)
     else f !! i).
Proof.
  intros Ha. pose proof (len_nonneg d). unfold write_at. rewrite lookup_blit by len_lia.
  destruct (decide (a <= Z.of_nat i < a + len d)); [done|].
  destruct (decide (len f <= Z.of_nat i < a)) as [Hi|Hi].
  - rewrite lookup_app_r by (unfold len in *; lia). destruct (decide (0 < a + len d - len f)); [|lia].
    apply lookup_replicate_2. unfold len in *. lia.
  - destruct (decide (Z.of_nat i < len f)) as [Hl|Hl]; [rewrite lookup_app_l by (unfold len in *; lia); done|].
    rewrite !lookup_ge_None_2 by (rewrite ?length_app, ?length_replicate; unfold len in *; lia). done.
Qed.

(** Two writes one after the other are one. *)
Lemma write_at_app f a x y : 0 <= a -> write_at (write_at f a x) (a + len x) y = write_at f a (x ++ y).
Proof.
  intros Ha. pose proof (len_nonneg x). pose proof (len_nonneg y). apply list_eq. intros i.
  rewrite !lookup_write_at, len_write_at, len_app by lia.
  destruct (decide (a + len x <= Z.of_nat i < a + len x + len y)) as [Hy|Hy].
  - rewrite decide_True by lia. rewrite lookup_app_r by (unfold len in *; lia). f_equal. unfold len in *. lia.
  - destruct (decide (a <= Z.of_nat i < a + len x)) as [Hx|Hx].
    + rewrite decide_False by lia. rewrite (decide_True (P := a <= Z.of_nat i < a + (len x + len y))) by lia.
      rewrite lookup_app_l by (unfold len in *; lia). done.
    + rewrite (decide_False (P := a <= Z.of_nat i < a + (len x + len y))) by lia.
      rewrite (decide_False (P := Z.max (len f) (a + len x) <= Z.of_nat i < a + len x)) by lia.
      destruct (decide (len f <= Z.of_nat i < a)); [|done]. by rewrite !decide_True by lia.
Qed.

(** What is stored in the blocks of [own] is still there. *)
Definition keeps (f f' : bytes) (own : list block) : Prop :=
  forall b bs, b ∈ own -> len bs = Size b -> stored f (Offset b) bs -> stored f' (Offset b) bs.

Lemma keeps_refl f own : keeps f f own.
Proof. by intros b bs. Qed.

Lemma keeps_sub f f' own own' : own ⊆ own' -> keeps f f' own' -> keeps f f' own.
Proof. intros Hs Hk b bs Hb. apply Hk. by apply Hs. Qed.

Lemma keeps_trans f g h own own' : own ⊆ own' -> keeps f g own -> keeps g h own' -> keeps f h own.
Proof. intros Hs H1 H2 b bs Hb Hl Hst. apply H2; [set_solver|done|auto]. Qed.

(** A write into a block disjoint from all of [own] keeps them. *)
Lemma write_keeps f a data own :
  0 <= a -> Forall (disjoint_blocks (mkBlock a (len data))) own -> keeps f (write_at f a data) own.
Proof.
  intros Ha Hd b bs Hb Hl Hst. rewrite Forall_forall in Hd. specialize (Hd b Hb).
  apply stored_other; [done| |done]. unfold disjoint_blocks, bend in *. cbn in *. rewrite Hl. lia.
Qed.

(** Whatever is stored inside a block of [own] is still there. *)
Definition preserves (f f' : bytes) (own : list block) : Prop :=
  forall b a bs, b ∈ own -> Offset b <= a -> a + len bs <= bend b -> stored f a bs -> stored f' a bs.

Lemma preserves_keeps f f' own : preserves f f' own -> keeps f f' own.
Proof. intros H b bs Hb Hl. apply (H b); [done|lia|]. unfold bend. lia. Qed.

Lemma preserves_refl f own : preserves f f own.
Proof. by intros b a bs. Qed.

Lemma preserves_sub f f' own own' : own ⊆ own' -> preserves f f' own' -> preserves f f' own.
Proof. intros Hs Hk b a bs Hb. apply (Hk b). by apply Hs. Qed.

Lemma preserves_trans f g h own own' : own ⊆ own' -> preserves f g own -> preserves g h own' -> preserves f h own.
Proof. intros Hs H1 H2 b a bs Hb Ha Hl Hst. apply (H2 b); [by apply Hs|done..|]. by apply (H1 b). Qed.

(** A write inside a block disjoint from all of [own] preserves them. *)
Lemma write_preserves f w a data own :
  0 <= a -> Offset w <= a -> a + len data <= bend w -> Forall (disjoint_blocks w) own ->
  preserves f (write_at f a data) own.
Proof.
  intros Ha Hw He Hd b o bs Hb Ho Hl Hst. rewrite Forall_forall in Hd. specialize (Hd b Hb).
  apply stored_other; [done| |done]. unfold disjoint_blocks, bend in *. cbn in *. lia.
Qed.

(** ** [FileWriter] satisfies the laws *)

Section instance.
Variable init : Z.

Definition fw_usable (w : FileWriter) (n : Z) : Prop :=
  is_Some (file w) /\ Inv init (allocator w) /\ nextOffset (allocator w) + n < 2 ^ 63 /\
  nextOffset (allocator w) < 2 ^ 63.

Lemma fw_allocate_law w n size :
  fw_usable w n -> 0 < size <= n ->
  exists addr w', fwAllocate w size = Ret (addr, w') /\ fw_usable w' (n - size) /\
    default [] (file w') = default [] (file w) /\
    blocks (allocator w') = blocks (allocator w) ++ [mkBlock addr size] /\
    Forall (disjoint_blocks (mkBlock addr size)) (blocks (allocator w)).
Proof.
  intros ([f Hf] & HI & Hn & Hm) Hs. unfold fwAllocate. rewrite Hf.
  assert (0 <= nextOffset (allocator w)) as H0 by (destruct HI as [? ? (l & _ & Hl%tiles_le) _]; lia).
  destruct (Allocate_cases init (allocator w) size HI ltac:(lia)) as [(l1 & fb & l2 & _ & _ & _ & E)|[_ E]];
    pose proof (Allocate_Inv init _ size _ _ HI ltac:(lia) ltac:(lia) E) as HI'; rewrite E; cbn [obind].
  all: eexists _, _; split; [done|]; split; [unfold fw_usable; cbn [file allocator nextOffset]|split; [done|split; [done|]]].
  2,4: by eapply Inv_last.
  - split_and!; [done|done|lia|lia].
  - rewrite u64_id in * by (unfold is_u; lia). split_and!; [done|done|lia|lia].
Qed.

#[export] Instance FileWriter_laws : StorageLaws FileWriter.
Proof.
  refine {| usable := fw_usable; owned := fun w => blocks (allocator w); first_address := init |}.
  - intros w n b (_ & HI & _) Hb. destruct (Inv_block init (allocator w) b HI) as (?&?&?&_); [set_solver|]. done.
  - intros w n m (?&?&?&?) ?. unfold fw_usable. split_and!; auto; lia.
  - intros w n b (_ & HI & _ & Hm) Hb. destruct (Inv_block init (allocator w) b HI) as (?&?&?&_); [set_solver|].
    destruct HI. lia.
  - intros w n b rest (_ & HI & _) Hp.
    assert (Hd : Forall (disjoint_blocks b) (rest ++ freeList (allocator w))) by
      (apply (Inv_disjoint init (allocator w)); [done|by rewrite Hp]).
    by apply Forall_app in Hd as [Hd _].
  - intros w n size. apply fw_allocate_law.
  - intros w n data addr ([f Hf] & HI & ? & ?) Ha Hd. cbn. unfold WriteAtAddress, fwWriteAt.
    rewrite Hf, i64_id by lia. destruct (Z.eqb_spec (len data) 0); [lia|]. unfold os_write_at.
    destruct (Z.leb_spec 0 addr); [|lia]. cbn. eexists. split; [done|]. unfold fw_usable. cbn [file allocator]. done.
Defined.
End instance.

(** A new file is usable up to the address space. *)
Lemma NewFileWriter_usable init n :
  0 <= init -> init + n < 2 ^ 63 -> init < 2 ^ 63 -> fw_usable init (NewFileWriter init) n.
Proof.
  intros. unfold fw_usable. cbn. split_and!; [done|by apply NewAllocator_Inv; lia|done|done].
Qed.

(** ** Properties *)

(** Writing through the allocator is safe: [WriteAtWithAllocation] returns an
    address at which [ReadAt] gives the data back, and every block that was
    tracked before still reads as it did. *)
Theorem WriteAtWithAllocation_roundtrip init w data :
  fw_usable init w (len data) -> 0 < len data ->
  exists addr w', WriteAtWithAllocation w data = Ret (addr, w') /\
    fwReadAt w' (len data) addr = Ret data /\ Inv init (allocator w') /\
    forall b bs, b ∈ blocks (allocator w) -> fwReadAt w (Size b) (Offset b) = Ret bs ->
      fwReadAt w' (Size b) (Offset b) = Ret bs.
Proof.
  intros Hu Hd. destruct (fw_allocate_law init w (len data) (len data) Hu ltac:(lia))
    as (addr & w1 & E & Hu1 & Hf & Hb & Hdis).
  destruct (@owned_range _ _ (FileWriter_laws init) w1 _ (mkBlock addr (len data)) Hu1) as (Ha & _ & He).
  { cbn. rewrite Hb. set_solver. }
  unfold bend in He. cbn [Offset Size] in Ha, He.
  destruct (@write_law _ _ (FileWriter_laws init) w1 _ data addr Hu1 ltac:(lia) Hd) as (w2 & E2 & Hu2 & _ & Hc).
  cbn in E2, Hc. exists addr, w2. unfold WriteAtWithAllocation. ztest. cbn [negb]. rewrite E. cbn [obind].
  rewrite E2. cbn [obind]. destruct Hu2 as ([f2 Hf2] & HI & _), Hu as ([f Hw] & HI0 & _).
  rewrite Hf2, Hf, Hw in Hc. cbn in Hc. subst f2. unfold fwReadAt. rewrite Hf2, Hw.
  split_and!; [done|by apply read_written|done|].
  intros b bs Hin Hr. rewrite Forall_forall in Hdis. specialize (Hdis b Hin).
  destruct (Inv_block init _ b HI0) as (? & ? & _); [set_solver|].
  apply read_unwritten; [done|lia| |done]. unfold disjoint_blocks, bend in Hdis. cbn in Hdis. lia.
Qed.

Example WriteAtWithAllocation_roundtrip_witness :
  exists addr w', WriteAtWithAllocation (NewFileWriter 48) [x01; x02] = Ret (addr, w') /\
    fwReadAt w' 2 addr = Ret [x01; x02].
Proof.
  destruct (WriteAtWithAllocation_roundtrip 48 (NewFileWriter 48) [x01; x02]) as (addr & w' & E & R & _).
  - apply NewFileWriter_usable; vm_compute; congruence.
  - reflexivity.
  - exists addr, w'. split; [exact E|exact R].
Defined.
