(* ===== verification/BTreeV1.v ===== *)
(** * Chunk index, read side: internal/core/btree_v1.go *)

From S2P Require Import Prelude Storage.

(** ** Definitions *)

Record ChunkKey := mkKey { Scaled : list Z; Nbytes : Z; FilterMask : Z }.

Record BTreeV1Node := mkNode {
  NodeType : Z;
  NodeLevel : Z;
  EntriesUsed : Z;
  LeftSibling : Z;
  RightSibling : Z;
  Keys : list ChunkKey;
  Children : list Z }.

Record ChunkEntry := mkEntry { Key : ChunkKey; Address : Z }.

(** [readAddress]: sizes other than 1, 2, 4 and 8 go through an 8-byte buffer. *)
Definition readAddress (data : bytes) (size : Z) : outcome Z :=
  let size := if size >? len data then len data else size in
  let! d := slice data 0 size in
  if (size =? 1) || (size =? 2) || (size =? 4) || (size =? 8) then Ret (le_get d)
  else let! buf := put_bytes (replicate 8 x00) 0 (take 8 d) in Ret (le_get buf).

(** The coordinates of one key, scaled by the chunk dimensions. *)
Fixpoint readCoords (n : nat) (data : bytes) (dataOffset : Z) (chunkDims : list Z) (j : Z)
    : outcome (list Z) :=
  match n with
  | O => Ret []
  | S n =>
      let! byteOffset := get_le 8 data dataOffset in
      let! d := idx chunkDims j in
      guard negb (d =? 0) else "chunk dimension is zero";;
      let! r := readCoords n data (dataOffset + 8) chunkDims (j + 1) in
      Ret (byteOffset / d :: r)
  end.

Definition readKey (data : bytes) (dataOffset : Z) (ndims : nat) (chunkDims : list Z) : outcome ChunkKey :=
  let! nbytes := get_le 4 data dataOffset in
  let! mask := get_le 4 data (dataOffset + 4) in
  let! scaled := readCoords ndims data (dataOffset + 8) chunkDims 0 in
  Ret (mkKey scaled nbytes mask).

(** Keys and children interleaved; after the last child comes one more key. *)
Fixpoint readEntries (n : nat) (data : bytes) (dataOffset : Z) (ndims : nat) (chunkDims : list Z)
    (childSize : Z) : outcome (list ChunkKey * list Z) :=
  let keySize := 4 + 4 + Z.of_nat ndims * 8 in
  guard negb (dataOffset + keySize >? len data) else "b-tree data truncated reading key";;
  let! key := readKey data dataOffset ndims chunkDims in
  let dataOffset := dataOffset + keySize in
  match n with
  | O => Ret ([key], [])
  | S n =>
      guard negb (dataOffset + childSize >? len data) else "b-tree data truncated reading child";;
      let! tl := slice data dataOffset (len data) in
      let! child := readAddress tl childSize in
      let! (ks, cs) := readEntries n data (dataOffset + childSize) ndims chunkDims childSize in
      Ret (key :: ks, child :: cs)
  end.

Definition tree_sig : bytes := String.list_byte_of_string "TREE".

Definition ParseBTreeV1Node (file : bytes) (address offsetSize : Z) (ndims : nat) (chunkDims : list Z)
    : outcome BTreeV1Node :=
  let headerSize := 4 + 1 + 1 + 2 + offsetSize * 2 in
  let! header := read_at file (i64 address) headerSize in
  let! sig := slice header 0 4 in
  guard bool_decide (sig = tree_sig) else "invalid B-tree signature";;
  let! nodeType := idx header 4 in
  let! nodeLevel := idx header 5 in
  let! entriesUsed := get_le 2 header 6 in
  let! tl := slice header 8 (len header) in
  let! lsib := readAddress tl offsetSize in
  let! tl := slice header (8 + offsetSize) (len header) in
  let! rsib := readAddress tl offsetSize in
  if entriesUsed =? 0 then
    Ret (mkNode (b2z nodeType) (b2z nodeLevel) entriesUsed lsib rsib [] [])
  else
    let keySize := 4 + 4 + Z.of_nat ndims * 8 in
    let entrySize := keySize + offsetSize in
    let dataSize := entriesUsed * entrySize + keySize in
    let! data := read_at file (i64 (i64 address + headerSize)) dataSize in
    let! (ks, cs) := readEntries (Z.to_nat entriesUsed) data 0 ndims chunkDims offsetSize in
    Ret (mkNode (b2z nodeType) (b2z nodeLevel) entriesUsed lsib rsib ks cs).

(** [compareCoords]: lexicographic over the common length. *)
Fixpoint compareCoords (a b : list Z) : Z :=
  match a, b with
  | x :: a, y :: b => if x <? y then -1 else if x >? y then 1 else compareCoords a b
  | _, _ => 0
  end.

(** The child index of [FindChunk]: the loop stops at the first key above
    [coords]. *)
Fixpoint findIndex (n : nat) (i : Z) (coords : list Z) (keys : list ChunkKey) (childIndex : Z) : outcome Z :=
  match n with
  | O => Ret childIndex
  | S n =>
      let! k := idx keys i in
      if compareCoords coords (Scaled k) <? 0 then Ret childIndex
      else findIndex n (i + 1) coords keys (i + 1)
  end.

Fixpoint FindChunk (fuel : nat) (file : bytes) (node : BTreeV1Node) (coords : list Z) (offsetSize : Z)
    (chunkDims : list Z) : outcome Z :=
  match fuel with
  | O => Panic
  | S fuel =>
      let! childIndex := findIndex (Z.to_nat (EntriesUsed node)) 0 coords (Keys node) 0 in
      let childIndex := if childIndex >? EntriesUsed node then EntriesUsed node else childIndex in
      let! childAddr := idx (Children node) childIndex in
      if NodeLevel node =? 0 then Ret childAddr
      else
        let! childNode := ParseBTreeV1Node file childAddr offsetSize (length coords) chunkDims in
        FindChunk fuel file childNode coords offsetSize chunkDims
  end.

(** [CollectAllChunks] recurses on the node addresses found in the file. *)
Fixpoint CollectAllChunks (fuel : nat) (file : bytes) (node : BTreeV1Node) (offsetSize : Z)
    (chunkDims : list Z) : outcome (list ChunkEntry) :=
  match fuel with
  | O => Panic
  | S fuel =>
      if NodeLevel node =? 0 then
        for_loop (Z.to_nat (EntriesUsed node)) 0 (fun i chunks =>
          let! k := idx (Keys node) i in
          let! a := idx (Children node) i in
          Ret (chunks ++ [mkEntry k a])) []
      else
        for_loop (Z.to_nat (EntriesUsed node)) 0 (fun i chunks =>
          let! childAddr := idx (Children node) i in
          let! childNode := ParseBTreeV1Node file childAddr offsetSize (length chunkDims) chunkDims in
          let! childChunks := CollectAllChunks fuel file childNode offsetSize chunkDims in
          Ret (chunks ++ childChunks)) []
  end.

(** ** Layout of a node

    The bytes of a node as the format prescribes them, for 8-byte addresses. *)

(** Coordinates as stored: byte offsets. *)
Definition coordBytes (raw : list Z) : bytes := concat (map (le_put 8) raw).

Record rawKey := mkRaw { rNbytes : Z; rMask : Z; rCoords : list Z }.

Definition keyBytes (k : rawKey) : bytes :=
  le_put 4 (rNbytes k) ++ le_put 4 (rMask k) ++ coordBytes (rCoords k).

Fixpoint entryBytes (keys : list rawKey) (children : list Z) : bytes :=
  match keys, children with
  | k :: ks, c :: cs => keyBytes k ++ le_put 8 c ++ entryBytes ks cs
  | k :: _, [] => keyBytes k
  | [], _ => []
  end.

Definition headerBytes (level n left right : Z) : bytes :=
  tree_sig ++ [z2b 1; z2b level] ++ le_put 2 n ++ le_put 8 left ++ le_put 8 right.

Definition rawKey_ok (ndims : nat) (k : rawKey) : Prop :=
  is_u 32 (rNbytes k) /\ is_u 32 (rMask k) /\ length (rCoords k) = ndims /\ Forall (is_u 64) (rCoords k).

(** What the reader makes of a stored key. *)
Definition scaledKey (chunkDims : list Z) (k : rawKey) : ChunkKey :=
  mkKey (zip_with Z.div (rCoords k) chunkDims) (rNbytes k) (rMask k).

(** ** Reading the layout back *)

Lemma len_coordBytes raw : len (coordBytes raw) = 8 * len raw.
Proof.
  unfold coordBytes. induction raw as [|r raw IH]; cbn [map concat]; [done|].
  rewrite len_app, len_le_put, IH, len_cons. lia.
Qed.

Lemma len_keyBytes ndims k : rawKey_ok ndims k -> len (keyBytes k) = 4 + 4 + Z.of_nat ndims * 8.
Proof.
  intros (_ & _ & Hl & _). unfold keyBytes. rewrite !len_app, !len_le_put, len_coordBytes.
  unfold len. rewrite Hl. lia.
Qed.

Lemma len_headerBytes level n l r : len (headerBytes level n l r) = 24.
Proof. unfold headerBytes. rewrite !len_app, !len_le_put. done. Qed.

Lemma len_entryBytes ndims keys children :
  length keys = S (length children) -> Forall (rawKey_ok ndims) keys ->
  len (entryBytes keys children) =
    Z.of_nat (length children) * (4 + 4 + Z.of_nat ndims * 8 + 8) + (4 + 4 + Z.of_nat ndims * 8).
Proof.
  revert children. induction keys as [|k keys IH]; intros [|c cs] Hl Hk; try discriminate Hl;
    apply Forall_cons in Hk as [Hk Hks].
  - cbn [entryBytes]. rewrite (len_keyBytes ndims) by done. cbn. lia.
  - cbn [entryBytes]. rewrite !len_app, (len_keyBytes ndims), IH, len_le_put by (done || (cbn in Hl; lia)).
    cbn [length]. lia.
Qed.

Lemma readCoords_at raw : forall data pre post off cd0 cd j,
  data = pre ++ coordBytes raw ++ post -> off = len pre -> j = len cd0 ->
  Forall (is_u 64) raw -> length cd = length raw -> Forall (fun d => 0 < d) cd ->
  readCoords (length raw) data off (cd0 ++ cd) j = Ret (zip_with Z.div raw cd).
Proof.
  induction raw as [|r raw IH]; intros data pre post off cd0 cd j -> -> -> Hr Hl Hp; [done|].
  destruct cd as [|d cd]; [discriminate|]. apply Forall_cons in Hr as [Hr Hrs], Hp as [Hd Hp].
  cbn [length readCoords]. unfold coordBytes. cbn [map concat]. rewrite <- app_assoc.
  rewrite get_le_app by (done || exact Hr). cbn [obind]. rewrite idx_app_0, idx_head. cbn [obind]. ztest. cbn [negb].
  replace (cd0 ++ d :: cd) with ((cd0 ++ [d]) ++ cd) by by rewrite <- app_assoc.
  rewrite (IH _ (pre ++ le_put 8 r) post); [done|..]; try done.
  - by rewrite <- app_assoc.
  - len_lia.
  - rewrite len_app. done.
  - cbn in Hl. lia.
Qed.

Lemma readKey_at k ndims data pre post off cd :
  data = pre ++ keyBytes k ++ post -> off = len pre -> rawKey_ok ndims k -> length cd = ndims ->
  Forall (fun d => 0 < d) cd -> readKey data off ndims cd = Ret (scaledKey cd k).
Proof.
  intros -> -> (Hn & Hm & Hl & Hu) Hc Hp. unfold readKey, keyBytes. rewrite <- !app_assoc.
  rewrite get_le_app by (done || exact Hn). cbn [obind].
  rewrite (get_le_at 4 _ (pre ++ le_put 4 (rNbytes k)) (rMask k) (coordBytes (rCoords k) ++ post));
    [|by rewrite <- app_assoc|len_lia|exact Hm]. cbn [obind]. rewrite <- Hl.
  rewrite (readCoords_at (rCoords k) _ (pre ++ le_put 4 (rNbytes k) ++ le_put 4 (rMask k)) post _ [] cd);
    [done|by rewrite <- !app_assoc|len_lia|done|done|lia|done].
Qed.

Lemma readAddress_8 v post : is_u 64 v -> readAddress (le_put 8 v ++ post) 8 = Ret v.
Proof.
  intros Hv. unfold readAddress. pose proof (len_nonneg post). rewrite len_app, len_le_put. ztest.
  rewrite (slice_at _ [] (le_put 8 v) post) by (done || len_lia). cbn [obind]. cbn -[le_get le_put].
  by rewrite le_get_put_small.
Qed.

Lemma slice_tail {A} (pre post : list A) off : off = len pre -> slice (pre ++ post) off (len (pre ++ post)) = Ret post.
Proof.
  intros ->. apply (slice_at _ pre post []); [by rewrite app_nil_r|done|len_lia].
Qed.

Lemma readEntries_at ndims cd keys : forall children data pre post off,
  data = pre ++ entryBytes keys children ++ post -> off = len pre ->
  length keys = S (length children) -> Forall (rawKey_ok ndims) keys -> Forall (is_u 64) children ->
  length cd = ndims -> Forall (fun d => 0 < d) cd ->
  readEntries (length children) data off ndims cd 8 = Ret (map (scaledKey cd) keys, children).
Proof.
  induction keys as [|k keys IH]; intros children data pre post off Hdata Hoff Hl Hk Hc Hcd Hp; [discriminate|].
  apply Forall_cons in Hk as [Hk Hks]. pose proof (len_keyBytes ndims k Hk) as Hkl.
  destruct children as [|c cs]; cbn [length readEntries entryBytes map] in *; subst data off.
  - destruct keys; [|discriminate].
    ztest; [len_lia|]. cbn [negb]. by rewrite (readKey_at k ndims _ pre post) by done.
  - ztest; [len_lia|]. cbn [negb].
    rewrite (readKey_at k ndims _ pre (le_put 8 c ++ entryBytes keys cs ++ post));
      [|by rewrite <- !app_assoc|done..]. cbn [obind].
    apply Forall_cons in Hc as [Hc Hcs]. ztest; [len_lia|]. cbn [negb].
    replace (pre ++ (keyBytes k ++ le_put 8 c ++ entryBytes keys cs) ++ post)
      with ((pre ++ keyBytes k) ++ le_put 8 c ++ entryBytes keys cs ++ post) by by rewrite <- !app_assoc.
    rewrite slice_tail by (rewrite len_app; lia). cbn [obind]. rewrite readAddress_8 by done. cbn [obind].
    rewrite (IH cs _ (pre ++ keyBytes k ++ le_put 8 c) post); [done|..]; try done.
    + by rewrite <- !app_assoc.
    + rewrite !len_app, len_le_put. lia.
    + lia.
Qed.

(** A node stored in the file is read back. *)
Lemma ParseBTreeV1Node_stored file addr ndims cd level keys children l r pad :
  stored file addr (headerBytes level (len children) l r ++ entryBytes keys children ++ pad) ->
  addr + 24 < 2 ^ 63 -> 0 <= level < 256 -> is_u 64 l -> is_u 64 r ->
  length keys = S (length children) -> 0 < len children < 2 ^ 16 ->
  Forall (rawKey_ok ndims) keys -> Forall (is_u 64) children ->
  length cd = ndims -> Forall (fun d => 0 < d) cd ->
  ParseBTreeV1Node file addr 8 ndims cd =
    Ret (mkNode 1 level (len children) l r (map (scaledKey cd) keys) children).
Proof.
  intros Hst Ha Hlev Hl Hr Hkl Hn Hk Hc Hcd Hp.
  pose proof (stored_part _ _ [] _ _ Hst) as Hh. pose proof (stored_part _ _ (headerBytes level (len children) l r) _ _ Hst) as He.
  apply read_at_inv in Hst as (H0 & _).
  rewrite len_headerBytes in Hh, He. rewrite (len_entryBytes ndims) in He by done.
  unfold ParseBTreeV1Node. cbv zeta. rewrite i64_id by lia. change (len []) with 0 in Hh. rewrite Z.add_0_r in Hh.
  change (4 + 1 + 1 + 2 + 8 * 2) with 24. rewrite Hh. cbn [obind].
  rewrite (slice_at _ [] tree_sig ([z2b 1; z2b level] ++ le_put 2 (len children) ++ le_put 8 l ++ le_put 8 r)) by done.
  cbn [obind]. rewrite bool_decide_true by done.
  change (idx (headerBytes level (len children) l r) 4) with (Ret (z2b 1)).
  change (idx (headerBytes level (len children) l r) 5) with (Ret (z2b level)). cbn [obind].
  rewrite (get_le_at 2 _ (tree_sig ++ [z2b 1; z2b level]) (len children) (le_put 8 l ++ le_put 8 r)) by (done || lia).
  cbn [obind]. replace (headerBytes level (len children) l r) with
    ((tree_sig ++ [z2b 1; z2b level] ++ le_put 2 (len children)) ++ le_put 8 l ++ le_put 8 r) by done.
  rewrite slice_tail by done. cbn [obind]. rewrite readAddress_8 by done. cbn [obind].
  replace ((tree_sig ++ [z2b 1; z2b level] ++ le_put 2 (len children)) ++ le_put 8 l ++ le_put 8 r) with
    ((tree_sig ++ [z2b 1; z2b level] ++ le_put 2 (len children) ++ le_put 8 l) ++ le_put 8 r ++ [])
    by by rewrite <- !app_assoc, app_nil_r.
  rewrite slice_tail by done. cbn [obind]. rewrite readAddress_8 by done. cbn [obind]. ztest.
  rewrite i64_id by lia. fold (len children) in He.
  replace (Z.of_nat ndims * 8) with (Z.of_nat ndims * 8) by done. rewrite He. cbn [obind].
  replace (Z.to_nat (len children)) with (length children) by (unfold len; lia).
  rewrite (readEntries_at ndims cd keys children _ [] []); try done; [|by rewrite app_nil_r].
  cbn [obind]. rewrite !b2z_z2b_small by lia. done.
Qed.

(** ** Collecting the chunks of a tree *)

Lemma for_loop_collect {A} (xs : list (list A)) (body : Z -> list A -> outcome (list A)) acc :
  (forall i x acc, xs !! i = Some x -> body (Z.of_nat i) acc = Ret (acc ++ x)) ->
  for_loop (length xs) 0 body acc = Ret (acc ++ concat xs).
Proof.
  intros Hb. change 0 with (Z.of_nat 0).
  assert (forall ys n acc, (forall i x acc, ys !! i = Some x -> body (Z.of_nat (n + i)) acc = Ret (acc ++ x)) ->
    for_loop (length ys) (Z.of_nat n) body acc = Ret (acc ++ concat ys)) as H.
  { clear. induction ys as [|y ys IH]; intros n acc H; cbn [length for_loop concat]; [by rewrite app_nil_r|].
    specialize (H 0%nat y acc eq_refl) as H0. rewrite Nat.add_0_r in H0. rewrite H0. cbn [obind].
    replace (Z.of_nat n + 1) with (Z.of_nat (S n)) by lia. rewrite IH; [by rewrite app_assoc|].
    intros i x acc' Hi. specialize (H (S i) x acc' Hi). by rewrite Nat.add_succ_r in H. }
  apply H. intros. by apply Hb.
Qed.

(** The tree of height [level] at [addr] holds the chunk entries [es]. *)
Fixpoint indexes (level : nat) (file : bytes) (cd : list Z) (addr : Z) (es : list ChunkEntry) : Prop :=
  exists node, ParseBTreeV1Node file addr 8 (length cd) cd = Ret node /\
    NodeLevel node = Z.of_nat level /\ EntriesUsed node = len (Children node) /\
    match level with
    | O => length (Keys node) = S (length (Children node)) /\ es = zip_with mkEntry (Keys node) (Children node)
    | S level => exists ess, Forall2 (indexes level file cd) (Children node) ess /\ es = concat ess
    end.

Lemma concat_singletons {A} (l : list A) : concat (map (fun x => [x]) l) = l.
Proof. induction l as [|x l IH]; cbn; [done|]. by rewrite IH. Qed.

Lemma CollectAllChunks_ok level file cd addr es fuel :
  indexes level file cd addr es -> (level < fuel)%nat ->
  exists node, ParseBTreeV1Node file addr 8 (length cd) cd = Ret node /\
    CollectAllChunks fuel file node 8 cd = Ret es.
Proof.
  revert addr es fuel. induction level as [|level IH]; intros addr es [|fuel] H Hf; try lia;
    destruct H as (node & Hp & Hlev & Hn & H); exists node; (split; [done|]); cbn [CollectAllChunks].
  - rewrite Hlev. cbn [Z.of_nat Z.eqb]. destruct H as [Hk ->].
    rewrite Hn. unfold len. rewrite Nat2Z.id.
    assert (Hl : length (map (fun e => [e]) (zip_with mkEntry (Keys node) (Children node))) = length (Children node)).
    { rewrite length_map, length_zip_with. lia. }
    rewrite <- Hl. rewrite (for_loop_collect (map (fun e => [e]) (zip_with mkEntry (Keys node) (Children node)))).
    + cbn [app]. by rewrite concat_singletons.
    + intros i x acc Hx. change (map (fun e => [e])) with (fmap (M:=list) (fun e : ChunkEntry => [e])) in Hx.
      rewrite list_lookup_fmap in Hx. apply fmap_Some in Hx as (e & He & ->).
      apply lookup_zip_with_Some in He as (k & a & -> & Hk' & Ha).
      by rewrite (idx_lookup _ _ _ Hk'), (idx_lookup _ _ _ Ha).
  - rewrite Hlev. ztest. destruct H as (ess & Hes & ->). rewrite Hn. unfold len.
    rewrite Nat2Z.id, (Forall2_length _ _ _ Hes), for_loop_collect; [done|].
    intros i x acc Hx. destruct (Forall2_lookup_r _ _ _ _ _ Hes Hx) as (c & Hc & Hi).
    rewrite (idx_lookup _ _ _ Hc). cbn [obind].
    destruct (IH c x fuel Hi ltac:(lia)) as (node' & -> & E). cbn [obind]. by rewrite E.
Qed.

(** ** Lookup *)

Lemma compareCoords_refl x : compareCoords x x = 0.
Proof. induction x as [|a x IH]; cbn; [done|]. by repeat ztest. Qed.

Lemma compareCoords_flip x y : compareCoords x y = -1 -> compareCoords y x = 1.
Proof.
  revert y. induction x as [|a x IH]; intros [|b y]; cbn; try done. repeat ztest; try done. apply IH.
Qed.

(** Keys in strictly increasing order. *)
Definition increasing (keys : list ChunkKey) : Prop :=
  forall a b x y, (a < b)%nat -> keys !! a = Some x -> keys !! b = Some y ->
    compareCoords (Scaled x) (Scaled y) = -1.

Lemma findIndex_at keys i k n j :
  increasing keys -> keys !! i = Some k -> (j <= S i)%nat -> (S i <= j + n)%nat ->
  (j + n <= length keys)%nat ->
  findIndex n (Z.of_nat j) (Scaled k) keys (Z.of_nat j) = Ret (Z.of_nat (S i)).
Proof.
  intros Hinc Hk. revert j. induction n as [|n IH]; intros j H1 H2 H3; cbn [findIndex].
  - do 2 f_equal. lia.
  - destruct (idx_some keys j) as [k' Hk']; [lia|]. rewrite (idx_lookup _ _ _ Hk'). cbn [obind].
    destruct (decide (j = S i)) as [->|Hne].
    { rewrite (Hinc i (S i) k k') by (done || lia). done. }
    assert (compareCoords (Scaled k) (Scaled k') = 0 \/ compareCoords (Scaled k) (Scaled k') = 1) as Hc.
    { destruct (decide (j = i)) as [->|Hji].
      - simplify_eq. left. apply compareCoords_refl.
      - right. apply compareCoords_flip, (Hinc j i); done || lia. }
    destruct (Z.ltb_spec (compareCoords (Scaled k) (Scaled k')) 0); [lia|].
    replace (Z.of_nat j + 1) with (Z.of_nat (S j)) by lia. apply IH; lia.
Qed.

(** ** Properties *)

(** [FindChunk] is off by one: in a leaf whose keys are in strictly
    increasing order, looking up the chunk at key [i] answers the address of
    chunk [i + 1]; looking up the last chunk reads past the children and
    panics. *)
Theorem FindChunk_off_by_one file node i k offsetSize cd fuel :
  NodeLevel node = 0 -> EntriesUsed node = len (Children node) -> increasing (Keys node) ->
  (length (Children node) <= length (Keys node))%nat ->
  (i < length (Children node))%nat -> Keys node !! i = Some k ->
  FindChunk (S fuel) file node (Scaled k) offsetSize cd = idx (Children node) (Z.of_nat i + 1) /\
  (S i = length (Children node) -> FindChunk (S fuel) file node (Scaled k) offsetSize cd = Panic).
Proof.
  intros Hlev Hn Hinc Hlen Hi Hk.
  assert (FindChunk (S fuel) file node (Scaled k) offsetSize cd = idx (Children node) (Z.of_nat i + 1)) as E.
  { cbn [FindChunk]. rewrite Hlev, Hn. unfold len. rewrite Nat2Z.id. change 0 with (Z.of_nat 0) at 1 2.
    rewrite (findIndex_at _ i k) by (done || lia). cbn [obind]. ztest.
    replace (Z.of_nat (S i)) with (Z.of_nat i + 1) by lia. by destruct (idx _ _). }
  split; [exact E|]. intros Hlast. rewrite E. unfold idx. ztest.
  by rewrite lookup_ge_None_2 by lia.
Qed.

Example FindChunk_off_by_one_witness :
  let node := mkNode 1 0 2 MaxUint64 MaxUint64 [mkKey [0] 8 0; mkKey [1] 8 0; mkKey [2] 0 0] [1000; 2000] in
  FindChunk 1 [] node [0] 8 [10] = Ret 2000 /\ FindChunk 1 [] node [1] 8 [10] = Panic.
Proof.
  intros node. assert (Hinc : increasing (Keys node)).
  { intros [|[|[|a]]] [|[|[|b]]] x y Hab Hx Hy; try lia; cbn in Hx, Hy; try done; by simplify_eq. }
  split.
  - apply (FindChunk_off_by_one [] node 0 (mkKey [0] 8 0) 8 [10] 0); (exact Hinc || reflexivity || (cbn; lia)).
  - apply (FindChunk_off_by_one [] node 1 (mkKey [1] 8 0) 8 [10] 0); (exact Hinc || reflexivity || (cbn; lia)).
Defined.

(** A node at address 0 whose only child is itself. *)
Definition cyclic_file : bytes :=
  headerBytes 1 1 MaxUint64 MaxUint64 ++ entryBytes [mkRaw 0 0 [0]; mkRaw 0 0 [0]] [0].

Definition cyclic_node : BTreeV1Node :=
  mkNode 1 1 1 MaxUint64 MaxUint64 [mkKey [0] 0 0; mkKey [0] 0 0] [0].

(** [CollectAllChunks] trusts the file: on a node that is its own child it
    never returns, whatever the depth of recursion allowed. *)
Theorem CollectAllChunks_cycle fuel :
  ParseBTreeV1Node cyclic_file 0 8 1 [1] = Ret cyclic_node /\
  CollectAllChunks fuel cyclic_file cyclic_node 8 [1] = Panic.
Proof.
  assert (ParseBTreeV1Node cyclic_file 0 8 1 [1] = Ret cyclic_node) as E by (vm_compute; reflexivity).
  split; [exact E|]. induction fuel as [|fuel IH]; [reflexivity|]. cbn [CollectAllChunks].
  change (NodeLevel cyclic_node) with 1. change (EntriesUsed cyclic_node) with 1.
  change (Children cyclic_node) with [0]. change (1 =? 0) with false. cbn iota.
  change (Z.to_nat 1) with 1%nat. cbn [for_loop]. rewrite idx_head. cbn [obind].
  change (length [1]) with 1%nat. rewrite E. cbn [obind]. rewrite IH. reflexivity.
Qed.
