(* ===== verification/BTreeChunk.v ===== *)
(** * Chunk index, write side: internal/structures/btree_chunk.go

    The writer collects chunk addresses, sorts them and builds a B-tree of
    nodes of at most 64 entries, bottom-up.  It runs on any [Storage]. *)

From S2P Require Import Prelude Allocator Storage BTreeV1.

(** ** Definitions *)

Record WChunkKey := mkWKey { Coords : list Z; wFilterMask : Z; wNbytes : Z }.

Record ChunkBTreeNode := mkWNode {
  wLevel : Z;
  wEntriesUsed : Z;
  wLeft : Z;
  wRight : Z;
  wKeys : list WChunkKey;
  ChildAddrs : list Z }.

Record ChunkBTreeEntry := mkWEntry { Coordinate : list Z; eAddress : Z; eNbytes : Z }.

Record ChunkBTreeWriter := mkBWriter {
  dimensionality : Z;
  bChunkDims : list Z;
  elementSize : Z;
  entries : list ChunkBTreeEntry }.

Definition chunkBTreeK : Z := 32.

Definition NewChunkBTreeWriter (dimensionality : Z) (chunkDims : list Z) (elementSize : Z) : ChunkBTreeWriter :=
  mkBWriter dimensionality chunkDims elementSize [].

Definition AddChunkWithSize (w : ChunkBTreeWriter) (coord : list Z) (address nbytes : Z)
    : outcome ChunkBTreeWriter :=
  guard len coord =? dimensionality w else "coordinate dimensionality mismatch";;
  Ret (mkBWriter (dimensionality w) (bChunkDims w) (elementSize w)
         (entries w ++ [mkWEntry coord address nbytes])).

Definition AddChunk (w : ChunkBTreeWriter) (coord : list Z) (address : Z) : outcome ChunkBTreeWriter :=
  AddChunkWithSize w coord address 0.

Definition compareChunkCoords (a b : list Z) : Z := compareCoords a b.

(** [sort.Slice] by coordinate. *)
Definition entry_le (a b : ChunkBTreeEntry) : Prop :=
  compareChunkCoords (Coordinate a) (Coordinate b) <= 0.
#[global] Instance entry_le_dec : RelDecision entry_le.
Proof. intros a b. unfold entry_le. apply _. Defined.

Definition sortEntries : list ChunkBTreeEntry -> list ChunkBTreeEntry := merge_sort entry_le.

(** One coordinate of a key as stored. *)
Definition coordAt (coords chunkDims : list Z) (j : Z) : outcome Z :=
  if j <? len coords then
    let! coord := idx coords j in
    if negb (coord =? MaxUint64) && (j <? len chunkDims)
    then let! d := idx chunkDims j in Ret (u64 (coord * d))
    else Ret coord
  else Ret 0.

Fixpoint putCoords (n : nat) (buf : bytes) (pos : Z) (coords chunkDims : list Z) (j : Z) : outcome bytes :=
  match n with
  | O => Ret buf
  | S n =>
      let! c := coordAt coords chunkDims j in
      let! buf := put_le 8 buf pos c in
      putCoords n buf (pos + 8) coords chunkDims (j + 1)
  end.

(** Keys and children, interleaved; [i] is the index of the first key. *)
Fixpoint putEntries (keys : list WChunkKey) (i : Z) (buf : bytes) (pos : Z) (children : list Z)
    (onDiskDims : Z) (chunkDims : list Z) : outcome bytes :=
  match keys with
  | [] => Ret buf
  | key :: rest =>
      let! buf := put_le 4 buf pos (wNbytes key) in
      let pos := pos + 4 in
      let! buf := put_le 4 buf pos (wFilterMask key) in
      let pos := pos + 4 in
      let! buf := putCoords (Z.to_nat onDiskDims) buf pos (Coords key) chunkDims 0 in
      let pos := pos + 8 * onDiskDims in
      let! (buf, pos) :=
        (if i <? len children then
           let! c := idx children i in
           let! buf := put_le 8 buf pos c in
           Ret (buf, pos + 8)
         else Ret (buf, pos)) in
      putEntries rest (i + 1) buf pos children onDiskDims chunkDims
  end.

Definition nodeBytes (onDiskDims : Z) : Z :=
  24 + 2 * chunkBTreeK * 8 + (2 * chunkBTreeK + 1) * (4 + 4 + onDiskDims * 8).

Definition serializeChunkBTreeNode (node : ChunkBTreeNode) (onDiskDims : Z) (chunkDims : list Z)
    : outcome bytes :=
  let buf := zeros (nodeBytes onDiskDims) in
  let! buf := put_bytes buf 0 tree_sig in
  let! buf := put_bytes buf 4 [z2b 1] in
  let! buf := put_bytes buf 5 [z2b (wLevel node)] in
  let! buf := put_le 2 buf 6 (wEntriesUsed node) in
  let! buf := put_le 8 buf 8 (wLeft node) in
  let! buf := put_le 8 buf 16 (wRight node) in
  putEntries (wKeys node) 0 buf 24 (ChildAddrs node) onDiskDims chunkDims.

(** The key after the last entry of a leaf. *)
Definition sentinelCoords (dim : Z) (es : list ChunkBTreeEntry) : list Z :=
  let onDiskDims := Z.to_nat (dim + 1) in
  match last es with
  | None => replicate onDiskDims 0
  | Some e =>
      let bumped := map (fun c => u64 (c + 1)) (take (Z.to_nat dim) (Coordinate e)) in
      bumped ++ replicate (onDiskDims - length bumped) 0
  end.

Definition keyOf (e : ChunkBTreeEntry) : WChunkKey := mkWKey (Coordinate e) 0 (eNbytes e).

Definition buildLeafNode (w : ChunkBTreeWriter) (es : list ChunkBTreeEntry) (lsib rsib : Z) : ChunkBTreeNode :=
  mkWNode 0 (u16 (len es)) lsib rsib
    (map keyOf es ++ [mkWKey (sentinelCoords (dimensionality w) es) 0 0]) (map eAddress es).

Record internalChild := mkChild { addr : Z; firstKey : WChunkKey; lastKey : WChunkKey }.

Definition no_key : WChunkKey := mkWKey [] 0 0.

(** An internal node: first keys of the children, then the last child's end. *)
Definition buildInternalNode (level : Z) (group : list internalChild) (lsib rsib : Z) : ChunkBTreeNode :=
  mkWNode level (u16 (len group)) lsib rsib
    (map firstKey group ++ [default no_key (lastKey <$> last group)]) (map addr group).

(** Consecutive groups of [n] elements. *)
Fixpoint groupsOf {A} (fuel n : nat) (l : list A) : list (list A) :=
  match fuel, l with
  | S fuel, _ :: _ => take n l :: groupsOf fuel n (drop n l)
  | _, _ => []
  end.

Section with_storage.
Context `{Storage St}.

(** Pass 1 of a level: one address per node. *)
Fixpoint allocNodes (n : nat) (st : St) (nodeSize : Z) : outcome (list Z * St) :=
  match n with
  | O => Ret ([], st)
  | S n =>
      let! (a, st) := allocate st nodeSize in
      let! (r, st) := allocNodes n st nodeSize in
      Ret (a :: r, st)
  end.

(** Pass 2 of a level: node [i] goes to address [i], with its neighbours as
    siblings.  Leaf and internal levels differ in how a node is built. *)
Fixpoint writeNodes {A} (build : list A -> Z -> Z -> ChunkBTreeNode) (w : ChunkBTreeWriter)
    (groups : list (list A)) (i nGroups : Z) (addrs : list Z) (st : St) : outcome (list internalChild * St) :=
  match groups with
  | [] => Ret ([], st)
  | group :: rest =>
      let! lsib := (if i >? 0 then idx addrs (i - 1) else Ret MaxUint64) in
      let! rsib := (if i <? nGroups - 1 then idx addrs (i + 1) else Ret MaxUint64) in
      let node := build group lsib rsib in
      let! buf := serializeChunkBTreeNode node (dimensionality w + 1) (bChunkDims w) in
      let! a := idx addrs i in
      let! st := write_to st buf a in
      let! first := idx (wKeys node) 0 in
      let! last := idx (wKeys node) (len (wKeys node) - 1) in
      let! (r, st) := writeNodes build w rest (i + 1) nGroups addrs st in
      Ret (mkChild a first last :: r, st)
  end.

Definition writeLevel {A} (build : list A -> Z -> Z -> ChunkBTreeNode) (w : ChunkBTreeWriter)
    (items : list A) (st : St) : outcome (list internalChild * St) :=
  let groups := groupsOf (length items) (Z.to_nat (2 * chunkBTreeK)) items in
  let nodeSize := u64 (nodeBytes (dimensionality w + 1)) in
  let! (addrs, st) := allocNodes (length groups) st nodeSize in
  writeNodes build w groups 0 (len groups) addrs st.

Definition writeInternalLevel (w : ChunkBTreeWriter) (children : list internalChild) (level : Z) (st : St)
    : outcome (list internalChild * St) :=
  writeLevel (buildInternalNode level) w children st.

(** The loop over the internal levels. *)
Fixpoint internalLevels (fuel : nat) (w : ChunkBTreeWriter) (children : list internalChild) (level : Z) (st : St)
    : outcome (Z * St) :=
  if len children >? 1 then
    match fuel with
    | O => Panic
    | S fuel =>
        let! (children, st) := writeInternalLevel w children level st in
        internalLevels fuel w children (u8 (level + 1)) st
    end
  else let! c := idx children 0 in Ret (addr c, st).

Definition buildMultiLevelTree (w : ChunkBTreeWriter) (st : St) : outcome (Z * St) :=
  let! (children, st) := writeLevel (buildLeafNode w) w (entries w) st in
  internalLevels (length children) w children 1 st.

Definition writeSingleLeaf (w : ChunkBTreeWriter) (st : St) : outcome (Z * St) :=
  let node := buildLeafNode w (entries w) MaxUint64 MaxUint64 in
  let! buf := serializeChunkBTreeNode node (dimensionality w + 1) (bChunkDims w) in
  let! (a, st) := allocate st (len buf) in
  let! st := write_to st buf a in
  Ret (a, st).

Definition WriteToFile (w : ChunkBTreeWriter) (st : St) : outcome (Z * St) :=
  guard negb (len (entries w) =? 0) else "no chunks to write (empty B-tree)";;
  let w := mkBWriter (dimensionality w) (bChunkDims w) (elementSize w) (sortEntries (entries w)) in
  if len (entries w) <=? 2 * chunkBTreeK then writeSingleLeaf w st else buildMultiLevelTree w st.
End with_storage.

(** ** The bytes of a node *)

Definition coordZ (coords chunkDims : list Z) (j : nat) : Z :=
  match coords !! j with
  | None => 0
  | Some c => match chunkDims !! j with
              | Some d => if c =? MaxUint64 then c else u64 (c * d)
              | None => c
              end
  end.

Definition rawOf (nd : nat) (chunkDims : list Z) (k : WChunkKey) : rawKey :=
  mkRaw (wNbytes k) (wFilterMask k) (map (coordZ (Coords k) chunkDims) (seq 0 nd)).

Lemma coordAt_ret coords cd j : coordAt coords cd (Z.of_nat j) = Ret (coordZ coords cd j).
Proof.
  unfold coordAt, coordZ. destruct (coords !! j) as [c|] eqn:Hc.
  - pose proof (lookup_len _ _ _ Hc). ztest. rewrite (idx_lookup _ _ _ Hc). cbn [obind].
    destruct (cd !! j) as [d|] eqn:Hd.
    + pose proof (lookup_len _ _ _ Hd). destruct (Z.eqb_spec c MaxUint64); [done|]. cbn [negb andb].
      destruct (Z.ltb_spec (Z.of_nat j) (len cd)); [|lia]. by rewrite (idx_lookup _ _ _ Hd).
    + apply lookup_ge_None in Hd. destruct (Z.ltb_spec (Z.of_nat j) (len cd)); [unfold len in *; lia|].
      by rewrite andb_false_r.
  - apply lookup_ge_None in Hc. ztest; [unfold len in *; lia|done].
Qed.

Lemma putCoords_ret coords cd n : forall pre k j,
  8 * Z.of_nat n <= k ->
  putCoords n (pre ++ zeros k) (len pre) coords cd (Z.of_nat j) =
    Ret ((pre ++ coordBytes (map (coordZ coords cd) (seq j n))) ++ zeros (k - 8 * Z.of_nat n)).
Proof.
  induction n as [|n IH]; intros pre k j Hk; cbn [putCoords].
  - unfold coordBytes. cbn [seq map concat]. rewrite app_nil_r. do 3 f_equal. lia.
  - rewrite coordAt_ret. cbn [obind]. rewrite put_le_cursor by lia. cbn [obind].
    replace (len pre + 8) with (len (pre ++ le_put 8 (coordZ coords cd j))) by len_lia.
    replace (Z.of_nat j + 1) with (Z.of_nat (S j)) by lia. rewrite IH by lia.
    unfold coordBytes. cbn [seq map concat]. rewrite <- !app_assoc. do 4 f_equal. f_equal. lia.
Qed.

Lemma len_key nd k cd : len (keyBytes (rawOf nd cd k)) = 8 + 8 * Z.of_nat nd.
Proof.
  unfold keyBytes. rewrite !len_app, !len_le_put, len_coordBytes. unfold rawOf. cbn [rCoords].
  rewrite len_map. unfold len. rewrite length_seq. lia.
Qed.

Lemma putEntries_ret nd cd keys : forall cdone crest pre k,
  length keys = S (length crest) ->
  8 * Z.of_nat (length crest) + (8 + 8 * Z.of_nat nd) * Z.of_nat (length keys) <= k ->
  putEntries keys (len cdone) (pre ++ zeros k) (len pre) (cdone ++ crest) (Z.of_nat nd) cd =
    Ret ((pre ++ entryBytes (map (rawOf nd cd) keys) crest) ++
      zeros (k - (8 * Z.of_nat (length crest) + (8 + 8 * Z.of_nat nd) * Z.of_nat (length keys)))).
Proof.
  induction keys as [|key keys IH]; intros cdone crest pre k Hl Hk; [discriminate|]. cbn [putEntries].
  cbn [length] in Hl, Hk. rewrite put_le_cursor by lia. cbn [obind].
  replace (len pre + 4) with (len (pre ++ le_put 4 (wNbytes key))) by len_lia.
  rewrite put_le_cursor by lia. cbn [obind].
  replace (len (pre ++ le_put 4 (wNbytes key)) + 4)
    with (len ((pre ++ le_put 4 (wNbytes key)) ++ le_put 4 (wFilterMask key))) by len_lia.
  rewrite Nat2Z.id. change 0 with (Z.of_nat 0) at 1. rewrite putCoords_ret by lia. cbn [obind].
  set (coords := coordBytes _).
  replace (((pre ++ le_put 4 (wNbytes key)) ++ le_put 4 (wFilterMask key)) ++ coords)
    with (pre ++ keyBytes (rawOf nd cd key)) by by rewrite <- !app_assoc.
  pose proof (len_key nd key cd) as Hkl.
  replace (len ((pre ++ le_put 4 (wNbytes key)) ++ le_put 4 (wFilterMask key)) + 8 * Z.of_nat nd)
    with (len (pre ++ keyBytes (rawOf nd cd key))) by (rewrite !len_app, Hkl, !len_le_put; lia).
  destruct crest as [|c crest]; cbn [length] in Hl, Hk.
  - destruct keys; [|discriminate]. rewrite app_nil_r. ztest. cbn [obind putEntries map entryBytes length].
    do 3 f_equal. lia.
  - ztest; [|len_lia]. rewrite idx_app_0, idx_head. cbn [obind]. rewrite put_le_cursor by lia. cbn [obind].
    replace (len (pre ++ keyBytes (rawOf nd cd key)) + 8)
      with (len ((pre ++ keyBytes (rawOf nd cd key)) ++ le_put 8 c)) by len_lia.
    replace (cdone ++ c :: crest) with ((cdone ++ [c]) ++ crest) by by rewrite <- app_assoc.
    replace (len cdone + 1) with (len (cdone ++ [c])) by len_lia. rewrite IH by lia.
    cbn [map entryBytes length]. rewrite <- !app_assoc. do 6 f_equal. lia.
Qed.

(** The layout the reader expects, padded to the node size. *)
Definition layout (nd : nat) (cd : list Z) (node : ChunkBTreeNode) : bytes :=
  headerBytes (wLevel node) (wEntriesUsed node) (wLeft node) (wRight node) ++
  entryBytes (map (rawOf nd cd) (wKeys node)) (ChildAddrs node) ++
  zeros (nodeBytes (Z.of_nat nd) - 24 - (8 * Z.of_nat (length (ChildAddrs node)) +
    (8 + 8 * Z.of_nat nd) * Z.of_nat (length (wKeys node)))).

Lemma serialize_layout nd cd node :
  length (wKeys node) = S (length (ChildAddrs node)) -> (length (ChildAddrs node) <= 64)%nat ->
  serializeChunkBTreeNode node (Z.of_nat nd) cd = Ret (layout nd cd node).
Proof.
  intros Hk Hc. unfold serializeChunkBTreeNode, layout. cbv zeta.
  assert (Hn : nodeBytes (Z.of_nat nd) = 24 + 512 + 65 * (8 + 8 * Z.of_nat nd)) by (unfold nodeBytes, chunkBTreeK; lia).
  change (zeros (nodeBytes (Z.of_nat nd))) with ([] ++ zeros (nodeBytes (Z.of_nat nd))).
  rewrite put_bytes_cursor by (done || (change (len tree_sig) with 4; lia)). cbn [obind].
  rewrite put_bytes_cursor by (done || (change (len tree_sig) with 4; change (len [z2b 1]) with 1; lia)). cbn [obind].
  change (len tree_sig) with 4. change (len [z2b 1]) with 1.
  rewrite put_bytes_cursor by (done || (change (len [z2b (wLevel node)]) with 1; lia)). cbn [obind].
  change (len [z2b (wLevel node)]) with 1.
  do 3 (rewrite put_le_cursor by (done || lia); cbn [obind]).
  set (pre := _ ++ le_put 8 (wRight node)).
  replace 24 with (len pre) at 2 by done.
  rewrite (putEntries_ret nd cd (wKeys node) [] (ChildAddrs node) pre) by (done || nia).
  f_equal. rewrite <- app_assoc. do 2 f_equal. f_equal. change (len pre) with 24. lia.
Qed.

(** ** Nodes the reader accepts *)

Definition key_ok (k : WChunkKey) : Prop :=
  is_u 32 (wNbytes k) /\ is_u 32 (wFilterMask k) /\ Forall (is_u 64) (Coords k).

Record node_ok (node : ChunkBTreeNode) : Prop := {
  node_keys : length (wKeys node) = S (length (ChildAddrs node));
  node_size : (0 < length (ChildAddrs node) <= 64)%nat;
  node_used : wEntriesUsed node = len (ChildAddrs node);
  node_level : 0 <= wLevel node < 256;
  node_left : is_u 64 (wLeft node);
  node_right : is_u 64 (wRight node);
  node_key_ok : Forall key_ok (wKeys node);
  node_child : Forall (is_u 64) (ChildAddrs node) }.

Lemma coordZ_u64 coords cd j : Forall (is_u 64) coords -> is_u 64 (coordZ coords cd j).
Proof.
  intros Hc. unfold coordZ. destruct (coords !! j) as [c|] eqn:E; [|done].
  pose proof (proj1 (Forall_lookup _ _) Hc _ _ E) as Hcu. cbn in Hcu.
  destruct (cd !! j); [|done]. destruct (c =? MaxUint64); [done|apply u64_range].
Qed.

Lemma rawOf_ok nd cd k : key_ok k -> rawKey_ok nd (rawOf nd cd k).
Proof.
  intros (H1 & H2 & H3). split_and!; cbn; [done|done|by rewrite length_map, length_seq|].
  apply Forall_fmap, Forall_forall. intros j _. by apply coordZ_u64.
Qed.

Lemma nodeBytes_eq nd : nodeBytes (Z.of_nat nd) = 24 + 512 + 65 * (8 + 8 * Z.of_nat nd).
Proof. unfold nodeBytes, chunkBTreeK. lia. Qed.

Lemma len_layout nd cd node : node_ok node -> len (layout nd cd node) = nodeBytes (Z.of_nat nd).
Proof.
  intros [Hk Hs _ _ _ _ Hkk _]. unfold layout. rewrite !len_app, len_headerBytes, (len_entryBytes nd).
  - rewrite len_zeros by (rewrite nodeBytes_eq, Hk; nia). rewrite Hk. lia.
  - by rewrite length_map.
  - apply Forall_fmap. eapply Forall_impl; [exact Hkk|]. intros k. apply rawOf_ok.
Qed.

(** What the reader makes of a key. *)
Definition readBack (nd : nat) (wcd rcd : list Z) (k : WChunkKey) : ChunkKey := scaledKey rcd (rawOf nd wcd k).

Lemma parse_layout f a nd wcd rcd node :
  stored f a (layout nd wcd node) -> node_ok node -> a + 24 < 2 ^ 63 -> length rcd = nd ->
  Forall (fun d => 0 < d) rcd ->
  ParseBTreeV1Node f a 8 nd rcd =
    Ret (mkNode 1 (wLevel node) (len (ChildAddrs node)) (wLeft node) (wRight node)
           (map (readBack nd wcd rcd) (wKeys node)) (ChildAddrs node)).
Proof.
  intros Hst [Hk Hs Hu Hl Hll Hlr Hkk Hc] Ha Hr Hp. unfold layout in Hst. rewrite Hu in Hst.
  rewrite (ParseBTreeV1Node_stored f a nd rcd _ (map (rawOf nd wcd) (wKeys node)) _ _ _ _ Hst); try done.
  - by rewrite map_map.
  - by rewrite length_map.
  - unfold len. lia.
  - apply Forall_fmap. eapply Forall_impl; [exact Hkk|]. intros k. apply rawOf_ok.
Qed.

(** ** Trees in a file *)

(** The tree of height [level] at [a] holds [es]; every node fills a block of
    [own]. *)
Fixpoint built (level : nat) (f : bytes) (own : list block) (nd : nat) (wcd rcd : list Z) (a : Z)
    (es : list ChunkEntry) : Prop :=
  exists node, stored f a (layout nd wcd node) /\ mkBlock a (nodeBytes (Z.of_nat nd)) ∈ own /\
    node_ok node /\ wLevel node = Z.of_nat level /\ a + 24 < 2 ^ 63 /\
    match level with
    | O => es = zip_with mkEntry (map (readBack nd wcd rcd) (wKeys node)) (ChildAddrs node)
    | S level => exists ess, Forall2 (built level f own nd wcd rcd) (ChildAddrs node) ess /\ es = concat ess
    end.

Lemma built_indexes level f own nd wcd rcd a es :
  built level f own nd wcd rcd a es -> length rcd = nd -> Forall (fun d => 0 < d) rcd ->
  indexes level f rcd a es.
Proof.
  revert a es. induction level as [|level IH]; intros a es (node & Hst & _ & Hok & Hl & Ha & H) Hr Hp;
    cbn [indexes]; rewrite Hr; eexists; (split; [by apply (parse_layout f a nd wcd)|]); cbn;
    (split; [done|]); (split; [done|]).
  - split; [|done]. rewrite length_map. apply Hok.
  - destruct H as (ess & Hess & ->). exists ess. split; [|done]. eapply Forall2_impl; [exact Hess|]. auto.
Qed.

Lemma built_mono level f f' own own' nd wcd rcd a es :
  keeps f f' own -> own ⊆ own' -> built level f own nd wcd rcd a es -> built level f' own' nd wcd rcd a es.
Proof.
  intros Hk Hs. revert a es. induction level as [|level IH]; intros a es (node & Hst & Hin & Hok & Hl & Ha & H);
    exists node; (split; [apply (Hk (mkBlock a (nodeBytes (Z.of_nat nd)))); [done|by apply len_layout|done]|]);
    split_and!; try done; try (by apply Hs); [apply Hok..|].
  destruct H as (ess & Hess & ->). exists ess. split; [|done]. eapply Forall2_impl; [exact Hess|]. auto.
Qed.

(** ** Groups *)

Lemma groupsOf_concat {A} fuel n (l : list A) :
  (0 < n)%nat -> (length l <= fuel)%nat -> concat (groupsOf fuel n l) = l.
Proof.
  intros Hn. revert l. induction fuel as [|fuel IH]; intros [|x l] Hf; cbn [groupsOf concat]; try done.
  - cbn in Hf. lia.
  - rewrite IH by (rewrite length_drop; cbn in *; lia). apply take_drop.
Qed.

Lemma groupsOf_sizes {A} fuel n (l : list A) :
  (0 < n)%nat -> Forall (fun g => (0 < length g <= n)%nat) (groupsOf fuel n l).
Proof.
  intros Hn. revert l. induction fuel as [|fuel IH]; intros [|x l]; cbn [groupsOf]; constructor; [|apply IH].
  rewrite length_take. cbn. lia.
Qed.

Lemma groupsOf_count {A} fuel n (l : list A) :
  (0 < n)%nat -> (length l <= fuel)%nat -> (n * length (groupsOf fuel n l) < length l + n)%nat.
Proof.
  intros Hn. revert l. induction fuel as [|fuel IH]; intros [|x l] Hf; cbn [groupsOf length]; cbn in Hf; try lia.
  specialize (IH (drop n (x :: l))). rewrite length_drop in IH. cbn [length] in IH.
  specialize (IH ltac:(lia)). destruct (Nat.le_gt_cases n (S (length l))) as [|Hlt]; [lia|].
  rewrite drop_ge by (cbn; lia). destruct fuel; cbn; lia.
Qed.

Lemma concat_Forall2 {A B} (P : A -> B -> Prop) (ls : list (list A)) (k : list B) :
  Forall2 P (concat ls) k -> exists ks, Forall2 (Forall2 P) ls ks /\ concat ks = k.
Proof.
  revert k. induction ls as [|l ls IH]; intros k Hk; cbn in Hk.
  - apply Forall2_nil_inv_l in Hk as ->. by exists [].
  - apply Forall2_app_inv_l in Hk as (k1 & k2 & H1 & (ks & H2 & <-)%IH & ->). exists (k1 :: ks). by split; [constructor|].
Qed.

(** ** Writing one level *)

Section storage.
Context `{StorageLaws St}.
Context (nd : nat) (wcd rcd : list Z).
Let size := nodeBytes (Z.of_nat nd).

Local Lemma size_pos : 0 < size.
Proof. unfold size. rewrite nodeBytes_eq. lia. Qed.

(** Addresses handed out one after the other, disjoint from [own] and from each
    other. *)
Fixpoint fresh (own : list block) (addrs : list Z) : Prop :=
  match addrs with
  | [] => True
  | a :: r => 0 <= a /\ a + size < 2 ^ 63 /\ Forall (disjoint_blocks (mkBlock a size)) own /\
              fresh (own ++ [mkBlock a size]) r
  end.

Definition blocksOf (addrs : list Z) : list block := map (fun a => mkBlock a size) addrs.

Lemma allocNodes_ok n : forall st m,
  usable st (Z.of_nat n * size + m) -> 0 <= m ->
  exists addrs st', allocNodes n st size = Ret (addrs, st') /\ length addrs = n /\ usable st' m /\
    contents st' = contents st /\ owned st' = owned st ++ blocksOf addrs /\ fresh (owned st) addrs.
Proof.
  pose proof size_pos as Hs. induction n as [|n IH]; intros st m Hu Hm; cbn [allocNodes].
  - exists [], st. cbn. rewrite app_nil_r. split_and!; try done.
  - destruct (allocate_law st _ size Hu) as (a & st1 & -> & Hu1 & Hc1 & Ho1 & Hd1); [nia|]. cbn [obind].
    destruct (owned_range st1 _ (mkBlock a size) Hu1) as (Ha1 & _ & Ha2); [rewrite Ho1; set_solver|].
    replace (Z.of_nat (S n) * size + m - size) with (Z.of_nat n * size + m) in Hu1 by lia.
    destruct (IH st1 m Hu1 Hm) as (r & st2 & -> & Hl & Hu2 & Hc2 & Ho2 & Hf2). cbn [obind].
    exists (a :: r), st2. rewrite Hc2, Ho2, Ho1, <- app_assoc in *. cbn. split_and!; try done. by rewrite Hl.
Qed.

Lemma fresh_mono own own' addrs : own' ⊆ own -> fresh own addrs -> fresh own' addrs.
Proof.
  revert own own'. induction addrs as [|a r IH]; intros own own' Hs; [done|].
  intros (? & ? & Hd & Hr). split_and!; try done.
  - rewrite Forall_forall in *. auto.
  - eapply IH; [|exact Hr]. set_solver.
Qed.

Lemma fresh_u64 own addrs : fresh own addrs -> Forall (is_u 64) addrs.
Proof.
  pose proof size_pos. revert own. induction addrs as [|a r IH]; intros own; [constructor|].
  intros (? & ? & _ & Hr). constructor; [unfold is_u; lia|eauto].
Qed.

Context (w : ChunkBTreeWriter).
Hypothesis Hdim : dimensionality w + 1 = Z.of_nat nd.
Hypothesis Hwcd : bChunkDims w = wcd.

Section level.
Context {A : Type} (build : list A -> Z -> Z -> ChunkBTreeNode).

(** A written node: the child's address holds a node built from the group. *)
Definition node_written (f : bytes) (ch : internalChild) (a : Z) (g : list A) : Prop :=
  addr ch = a /\ key_ok (firstKey ch) /\ key_ok (lastKey ch) /\ a + size < 2 ^ 63 /\ 0 <= a /\
  exists l r, is_u 64 l /\ is_u 64 r /\ stored f a (layout nd wcd (build g l r)).

Lemma node_written_keeps f f' ch a g own :
  keeps f f' own -> mkBlock a size ∈ own ->
  (forall l r, is_u 64 l -> is_u 64 r -> node_ok (build g l r)) ->
  node_written f ch a g -> node_written f' ch a g.
Proof.
  intros Hk Hin Hok (H1 & H2 & H3 & H4 & H5 & l & r & Hl & Hr & Hst). split_and!; try done.
  exists l, r. split_and!; try done; try apply Hl; try apply Hr.
  apply (Hk (mkBlock a size) _ Hin); [|done]. by apply len_layout, Hok.
Qed.

Lemma node_ends node : node_ok node ->
  exists k1 k2, idx (wKeys node) 0 = Ret k1 /\ idx (wKeys node) (len (wKeys node) - 1) = Ret k2 /\
    key_ok k1 /\ key_ok k2.
Proof.
  intros [Hk Hs _ _ _ _ Hkk _]. destruct (idx_in_range (wKeys node) 0) as [k1 E1]; [unfold len; lia|].
  destruct (idx_in_range (wKeys node) (len (wKeys node) - 1)) as [k2 E2]; [unfold len; lia|].
  exists k1, k2. rewrite Forall_lookup in Hkk. apply idx_ret in E1 as F1, E2 as F2.
  split_and!; try done; [apply (Hkk _ _ (proj2 F1))|apply (Hkk _ _ (proj2 F2))].
Qed.

Lemma sibling_ret (b : bool) (addrs : list Z) (i : Z) :
  (b = true -> 0 <= i < len addrs) -> Forall (is_u 64) addrs ->
  exists v, (if b then idx addrs i else Ret MaxUint64) = Ret v /\ is_u 64 v.
Proof.
  intros Hb Hu. destruct b; [|exists MaxUint64; by vm_compute].
  destruct (idx_in_range addrs i (Hb eq_refl)) as [v Hv]. exists v. split; [done|].
  apply idx_ret in Hv as [_ Hv]. by apply (proj1 (Forall_lookup _ _) Hu _ _ Hv).
Qed.

Lemma writeNodes_ok groups : forall done pend own st m,
  (forall g l r, g ∈ groups -> is_u 64 l -> is_u 64 r -> node_ok (build g l r)) ->
  length pend = length groups -> Forall (is_u 64) (done ++ pend) -> fresh own pend -> usable st m ->
  exists chs st', writeNodes build w groups (len done) (len (done ++ pend)) (done ++ pend) st = Ret (chs, st') /\
    usable st' m /\ owned st' = owned st /\ keeps (contents st) (contents st') own /\
    Forall2 (fun ch p => node_written (contents st') ch p.1 p.2) chs (zip pend groups).
Proof.
  pose proof size_pos as Hs. induction groups as [|g groups IH]; intros dn pend own st m Hb Hl Hu Hf Hus.
  { exists [], st. destruct pend; [|discriminate]. split_and!; try done. apply keeps_refl. }
  destruct pend as [|a pend]; [discriminate|]. destruct Hf as (Ha & Ha' & Hd & Hf). cbn [writeNodes].
  destruct (sibling_ret (len dn >? 0) (dn ++ a :: pend) (len dn - 1)) as (l & -> & Hlu); [|done|].
  { intros E. apply Z.gtb_lt in E. len_lia. }
  destruct (sibling_ret (len dn <? len (dn ++ a :: pend) - 1) (dn ++ a :: pend) (len dn + 1)) as (r & -> & Hru); [|done|].
  { intros E. apply Z.ltb_lt in E. len_lia. }
  cbn [obind]. cbv zeta. assert (Hok : node_ok (build g l r)) by (apply Hb; [set_solver|done|done]).
  rewrite Hdim, Hwcd, serialize_layout by (pose proof (node_keys _ Hok); pose proof (node_size _ Hok); lia).
  cbn [obind]. rewrite idx_app_0, idx_head. cbn [obind].
  pose proof (len_layout nd wcd _ Hok) as Hlay. fold size in Hlay.
  destruct (write_law st m (layout nd wcd (build g l r)) a Hus) as (st1 & -> & Hu1 & Ho1 & Hc1); [lia|lia|].
  cbn [obind]. destruct (node_ends _ Hok) as (k1 & k2 & -> & -> & Hk1 & Hk2). cbn [obind].
  replace (dn ++ a :: pend) with ((dn ++ [a]) ++ pend) in * by by rewrite <- app_assoc.
  replace (len dn + 1) with (len (dn ++ [a])) by len_lia.
  destruct (IH (dn ++ [a]) pend (own ++ [mkBlock a size]) st1 m) as (chs & st2 & -> & Hu2 & Ho2 & Hkp & Hw);
    [intros; apply Hb; set_solver|cbn in Hl; lia|done|done|done|].
  cbn [obind]. eexists _, st2. split; [done|]. split_and!; [done|congruence| |].
  - apply (keeps_trans _ (contents st1) _ _ (own ++ [mkBlock a size])); [set_solver| |done].
    rewrite Hc1. apply write_keeps; [done|]. by rewrite Hlay.
  - cbn [zip zip_with]. constructor; [|done]. cbn [fst snd].
    apply (node_written_keeps (contents st1) _ _ _ _ _ Hkp); [set_solver|intros; apply Hb; set_solver|].
    split_and!; try done. exists l, r. split_and!; try done; try apply Hlu; try apply Hru.
    rewrite Hc1. by apply stored_write.
Qed.

Hypothesis Hsize : size < 2 ^ 63.

Lemma writeLevel_ok items st m :
  let groups := groupsOf (length items) 64 items in
  (forall g l r, g ∈ groups -> is_u 64 l -> is_u 64 r -> node_ok (build g l r)) ->
  usable st (len groups * size + m) -> 0 <= m ->
  exists chs addrs st', writeLevel build w items st = Ret (chs, st') /\ usable st' m /\
    owned st' = owned st ++ blocksOf addrs /\ keeps (contents st) (contents st') (owned st) /\
    length addrs = length groups /\
    Forall2 (fun ch p => node_written (contents st') ch p.1 p.2) chs (zip addrs groups).
Proof.
  intros groups Hb Hu Hm. pose proof size_pos as Hs. unfold writeLevel.
  change (Z.to_nat (2 * chunkBTreeK)) with 64%nat. fold groups. rewrite Hdim. fold size.
  rewrite u64_id by (unfold is_u; lia).
  destruct (allocNodes_ok (length groups) st m Hu Hm) as (addrs & st1 & -> & Hl & Hu1 & Hc1 & Ho1 & Hf). cbn [obind].
  destruct (writeNodes_ok groups [] addrs (owned st) st1 m Hb Hl (fresh_u64 _ _ Hf) Hf Hu1)
    as (chs & st2 & E & Hu2 & Ho2 & Hk & Hw).
  cbn [app] in E. replace (len groups) with (len addrs) by (unfold len; lia).
  change (len []) with 0 in E. rewrite E. exists chs, addrs, st2. rewrite Hc1 in Hk.
  split_and!; try done. congruence.
Qed.
End level.

(** ** Leaf nodes *)

Hypothesis Hsize : size < 2 ^ 63.
Context (es : Z).
Hypothesis Hrcd : rcd = wcd ++ [es].

Record entry_ok (e : ChunkBTreeEntry) : Prop := {
  entry_nbytes : is_u 32 (eNbytes e);
  entry_addr : is_u 64 (eAddress e);
  entry_coords : Forall2 (fun c d => 0 <= c /\ 0 < d /\ c * d < 2 ^ 64) (Coordinate e) wcd }.

(** The entry the reader reports: a trailing 0 for the element dimension. *)
Definition entryOf (e : ChunkBTreeEntry) : ChunkEntry :=
  mkEntry (mkKey (Coordinate e ++ [0]) (eNbytes e) 0) (eAddress e).

Lemma coordZ_map coords cds :
  length coords = length cds ->
  map (coordZ coords cds) (seq 0 (length coords)) =
  zip_with (fun c d => if c =? MaxUint64 then c else u64 (c * d)) coords cds.
Proof.
  revert cds. induction coords as [|c coords IH]; intros [|d cds] Hl; try discriminate; [done|].
  cbn [length seq map zip_with]. f_equal; try done. rewrite <- seq_shift, map_map. apply IH. cbn in Hl. lia.
Qed.

Lemma readBack_keyOf e :
  Z.of_nat nd = len wcd + 1 -> entry_ok e ->
  readBack nd wcd rcd (keyOf e) = mkKey (Coordinate e ++ [0]) (eNbytes e) 0.
Proof.
  intros Hnd [_ _ Hc]. pose proof (Forall2_length _ _ _ Hc) as Hl. unfold readBack, scaledKey, rawOf, keyOf. cbn.
  f_equal. replace nd with (length (Coordinate e) + 1)%nat by (unfold len in Hnd; lia).
  rewrite seq_app, map_app, coordZ_map, Hrcd by done. cbn [seq map Nat.add].
  rewrite zip_with_app by (rewrite length_zip_with; lia). cbn [zip_with].
  assert (coordZ (Coordinate e) wcd (length (Coordinate e)) = 0) as ->.
  { unfold coordZ. by rewrite lookup_ge_None_2 by lia. }
  rewrite Zdiv_0_l. f_equal. clear -Hc. induction Hc as [|c d cs ds (H1 & H2 & H3) Hc IH]; [done|].
  cbn [zip_with]. f_equal; [|done]. destruct (Z.eqb_spec c MaxUint64) as [->|_].
  - unfold MaxUint64 in *. assert (d = 1) as -> by nia. by rewrite Z.div_1_r.
  - rewrite u64_id by (unfold is_u; nia). apply Z.div_mul. lia.
Qed.

Lemma entry_ok_key e : entry_ok e -> key_ok (keyOf e).
Proof.
  intros [H1 _ H3]. split_and!; cbn; [done|by vm_compute|]. eapply Forall2_Forall_l; [exact H3|].
  apply Forall_forall. intros d _ c (?&?&?). unfold is_u. nia.
Qed.

Lemma sentinel_ok dim l : key_ok (mkWKey (sentinelCoords dim l) 0 0).
Proof.
  split_and!; cbn; [by vm_compute..|]. unfold sentinelCoords. destruct (last l) as [e|].
  - apply Forall_app. split; [|apply Forall_replicate; by vm_compute].
    apply Forall_fmap, Forall_forall. intros c _. apply u64_range.
  - apply Forall_replicate. by vm_compute.
Qed.

Lemma leaf_ok g l r :
  (0 < length g <= 64)%nat -> Forall entry_ok g -> is_u 64 l -> is_u 64 r -> node_ok (buildLeafNode w g l r).
Proof.
  intros Hg He Hl Hr. split; cbn; rewrite ?length_app, ?length_map; cbn; try done; try lia.
  - unfold len. rewrite length_map. apply u16_id. unfold is_u. lia.
  - apply Forall_app. split; [|by repeat constructor; apply sentinel_ok].
    apply Forall_fmap. eapply Forall_impl; [exact He|]. intros e. apply entry_ok_key.
  - apply Forall_fmap. eapply Forall_impl; [exact He|]. intros e [_ ? _]. done.
Qed.

Lemma leaf_entries g l r :
  Z.of_nat nd = len wcd + 1 -> Forall entry_ok g ->
  zip_with mkEntry (map (readBack nd wcd rcd) (wKeys (buildLeafNode w g l r))) (ChildAddrs (buildLeafNode w g l r)) =
  map entryOf g.
Proof.
  intros Hnd He. cbn. rewrite map_app. generalize (map (readBack nd wcd rcd) [mkWKey (sentinelCoords (dimensionality w) g) 0 0]).
  intros sent. induction He as [|e g Hok He IH]; [by destruct sent|]. cbn.
  rewrite readBack_keyOf by done. unfold entryOf at 1. f_equal. exact IH.
Qed.

(** A child whose tree is in the file. *)
Definition good_child (lvl : nat) (f : bytes) (own : list block) (ch : internalChild) (l : list ChunkEntry) : Prop :=
  key_ok (firstKey ch) /\ key_ok (lastKey ch) /\ is_u 64 (addr ch) /\ built lvl f own nd wcd rcd (addr ch) l.

Lemma internal_ok lvl f own g ess l r :
  (0 < length g <= 64)%nat -> Forall2 (good_child lvl f own) g ess -> Z.of_nat lvl + 1 < 256 ->
  is_u 64 l -> is_u 64 r -> node_ok (buildInternalNode (Z.of_nat lvl + 1) g l r).
Proof.
  intros Hg Hc Hlv Hl Hr. assert (Hf : Forall (fun ch => key_ok (firstKey ch) /\ key_ok (lastKey ch) /\ is_u 64 (addr ch)) g).
  { eapply Forall2_Forall_l; [exact Hc|]. apply Forall_forall. intros e _ ch (?&?&?&_). done. }
  split; cbn; rewrite ?length_app, ?length_map; cbn; try done; try lia.
  - unfold len. rewrite length_map. apply u16_id. unfold is_u. lia.
  - apply Forall_app. split.
    + apply Forall_fmap. eapply Forall_impl; [exact Hf|]. intros ch. naive_solver.
    + constructor; [|done]. destruct (last g) as [ch|] eqn:E; cbn.
      * apply last_Some in E as [g' ->]. apply Forall_app in Hf as [_ Hf]. apply Forall_cons in Hf. naive_solver.
      * apply last_None in E as ->. cbn in Hg. lia.
  - apply Forall_fmap. eapply Forall_impl; [exact Hf|]. intros ch. naive_solver.
Qed.

(** ** The levels of the tree *)

Lemma zip_children {A B C D} (P : A -> B -> C -> Prop) (R : C -> D -> Prop) (Q : A -> D -> Prop) xs bs gs ds :
  Forall2 (fun x p => P x p.1 p.2) xs (zip bs gs) -> length bs = length gs -> Forall2 R gs ds ->
  (forall x b g d, b ∈ bs -> g ∈ gs -> P x b g -> R g d -> Q x d) -> Forall2 Q xs ds.
Proof.
  intros Hx Hl HR. revert xs bs Hx Hl. induction HR as [|g d gs ds Hgd HR IH]; intros xs [|b bs] Hx Hl HQ;
    try discriminate; cbn in Hx.
  - apply Forall2_nil_inv_r in Hx as ->. constructor.
  - apply Forall2_cons_inv_r in Hx as (x & xs' & Hp & Hx & ->). constructor.
    + eapply HQ; [..|exact Hp|exact Hgd]; set_solver.
    + apply (IH xs' bs Hx); [cbn in Hl; lia|]. intros. eapply HQ; set_solver.
Qed.

Lemma level_children {A} (build : list A -> Z -> Z -> ChunkBTreeNode) lvl f own chs addrs groups (R : list A -> list ChunkEntry -> Prop) dss :
  Forall2 (fun ch p => node_written build f ch p.1 p.2) chs (zip addrs groups) ->
  length addrs = length groups -> blocksOf addrs ⊆ own -> Forall2 R groups dss ->
  (forall g l r d a, g ∈ groups -> is_u 64 l -> is_u 64 r -> R g d -> stored f a (layout nd wcd (build g l r)) ->
     mkBlock a size ∈ own -> a + 24 < 2 ^ 63 -> built lvl f own nd wcd rcd a d) ->
  Forall2 (good_child lvl f own) chs dss.
Proof.
  intros Hw Hl Ho HR Hb. eapply (zip_children _ R); [exact Hw|done|done|].
  intros ch a g d Ha Hg (<- & H1 & H2 & H3 & H4 & l & r & Hlu & Hru & Hst) Hd.
  pose proof size_pos as Hs. unfold good_child. split_and!; try done; try apply H1; try apply H2; [unfold is_u; lia|].
  apply (Hb g l r); try done.
  - apply Ho. unfold blocksOf. apply list_elem_of_fmap. eauto.
  - unfold size in H3. rewrite nodeBytes_eq in H3. lia.
Qed.

Lemma groups_of_64 {A} (l : list A) g :
  g ∈ groupsOf (length l) 64 l -> (0 < length g <= 64)%nat /\ g ⊆ l.
Proof.
  intros Hg. split.
  - pose proof (groupsOf_sizes (length l) 64 l ltac:(lia)) as Hs. rewrite Forall_forall in Hs. by apply Hs.
  - intros x Hx. rewrite <- (groupsOf_concat (length l) 64 l) by lia. apply list_elem_of_In, in_concat.
    exists g. split; by apply list_elem_of_In.
Qed.

Lemma app_own {A} (l k o : list A) : o = l ++ k -> l ⊆ o /\ k ⊆ o.
Proof. intros ->. split; intros x Hx; apply elem_of_app; auto. Qed.

Lemma leaf_level_ok items st m old own :
  Z.of_nat nd = len wcd + 1 -> Forall entry_ok items -> owned st = old ++ own ->
  usable st (len (groupsOf (length items) 64 items) * size + m) -> 0 <= m ->
  exists chs dss st' own', writeLevel (buildLeafNode w) w items st = Ret (chs, st') /\ usable st' m /\
    owned st' = old ++ own' /\ own ⊆ own' /\ keeps (contents st) (contents st') (owned st) /\
    Forall2 (good_child 0 (contents st') own') chs dss /\ concat dss = map entryOf items /\
    length dss = length (groupsOf (length items) 64 items).
Proof.
  intros Hnd He Hown Hu Hm. set (groups := groupsOf (length items) 64 items) in *.
  assert (Hg : forall g, g ∈ groups -> (0 < length g <= 64)%nat /\ Forall entry_ok g).
  { intros g [H1 H2]%groups_of_64. split; [done|]. rewrite Forall_forall in *. auto. }
  destruct (writeLevel_ok (buildLeafNode w) Hsize items st m) as (chs & addrs & st' & -> & Hu' & Ho & Hk & Hl & Hw);
    [intros g l r Hgi ? ?; destruct (Hg g Hgi); by apply leaf_ok|done|done|].
  destruct (app_own own (blocksOf addrs) _ eq_refl) as [Ho1 Ho2]. rewrite Hown, <- app_assoc in Ho.
  exists chs, (map (map entryOf) groups), st', (own ++ blocksOf addrs). split_and!; try done; [| |by rewrite length_map].
  - eapply (level_children _ 0 _ _ _ addrs groups (fun g d => d = map entryOf g)); [done|done|done| |].
    + apply Forall2_fmap_r, Forall_Forall2_diag, Forall_forall. done.
    + intros g l r d a Hgi Hlu Hru -> Hst Hin Ha. destruct (Hg g Hgi). exists (buildLeafNode w g l r).
      split_and!; try done; [by apply leaf_ok..|]. by rewrite leaf_entries.
  - rewrite <- concat_map. unfold groups. by rewrite groupsOf_concat by lia.
Qed.

Lemma internal_level_ok lvl items dss st m old own :
  Z.of_nat lvl + 1 < 256 -> owned st = old ++ own -> Forall2 (good_child lvl (contents st) own) items dss ->
  usable st (len (groupsOf (length items) 64 items) * size + m) -> 0 <= m ->
  exists chs dss' st' own', writeInternalLevel w items (Z.of_nat lvl + 1) st = Ret (chs, st') /\ usable st' m /\
    owned st' = old ++ own' /\ own ⊆ own' /\ keeps (contents st) (contents st') (owned st) /\
    Forall2 (good_child (S lvl) (contents st') own') chs dss' /\ concat dss' = concat dss /\
    length dss' = length (groupsOf (length items) 64 items).
Proof.
  intros Hlv Hown Hgood Hu Hm. set (groups := groupsOf (length items) 64 items) in *.
  assert (Hcat : concat groups = items) by (apply groupsOf_concat; lia).
  rewrite <- Hcat in Hgood. apply concat_Forall2 in Hgood as (ess & Hess & <-).
  assert (Hg : forall g, g ∈ groups -> exists e, (0 < length g <= 64)%nat /\
     Forall2 (good_child lvl (contents st) own) g e).
  { intros g Hgi. destruct (groups_of_64 _ _ Hgi) as [H1 _].
    apply list_elem_of_lookup in Hgi as [i Hi]. destruct (Forall2_lookup_l _ _ _ _ _ Hess Hi) as (e & _ & He). eauto. }
  destruct (writeLevel_ok (buildInternalNode (Z.of_nat lvl + 1)) Hsize items st m)
    as (chs & addrs & st' & E & Hu' & Ho & Hk & Hl & Hw);
    [intros g l r Hgi ? ?; destruct (Hg g Hgi) as (e & ? & ?); by apply (internal_ok lvl (contents st) own g e)|done|done|].
  destruct (app_own own (blocksOf addrs) _ eq_refl) as [Ho1 Ho2]. destruct (app_own old own _ Hown) as [_ Ho3].
  rewrite Hown, <- app_assoc in Ho. unfold writeInternalLevel. rewrite E.
  exists chs, (map (@concat ChunkEntry) ess), st', (own ++ blocksOf addrs). split_and!; try done.
  - eapply (level_children _ (S lvl) _ _ _ addrs groups
      (fun g d => exists e, Forall2 (good_child lvl (contents st) own) g e /\ d = concat e)); [done|done|done| |].
    + apply Forall2_fmap_r. eapply Forall2_impl; [exact Hess|]. cbn. eauto.
    + intros g l r d a Hgi Hlu Hru (e & He & ->) Hst Hin Ha. destruct (groups_of_64 _ _ Hgi) as [Hsz _].
      exists (buildInternalNode (Z.of_nat lvl + 1) g l r).
      split_and!; try done; [by apply (internal_ok lvl (contents st) own g e)..|cbn; lia|].
      exists e. split; [|done]. cbn. apply Forall2_fmap_l. eapply Forall2_impl; [exact He|].
      intros ch d (_ & _ & _ & Hb). eapply built_mono; [by eapply keeps_sub|exact Ho1|exact Hb].
  - clear. induction ess as [|e ess IH]; cbn; [done|]. by rewrite concat_app, IH.
  - rewrite length_map. symmetry. by apply Forall2_length in Hess.
Qed.

Lemma group_count {A} (l : list A) :
  (64 * length (groupsOf (length l) 64 l) < length l + 64)%nat /\ (l <> [] -> groupsOf (length l) 64 l <> []).
Proof.
  split; [apply groupsOf_count; lia|]. intros Hl E. apply Hl.
  rewrite <- (groupsOf_concat (length l) 64 l), E by lia. done.
Qed.

Lemma single_root fuel lvl chs dss st m old own :
  length chs = 1%nat -> Z.of_nat lvl < 256 -> owned st = old ++ own ->
  Forall2 (good_child lvl (contents st) own) chs dss -> usable st ((len chs - 1) * size + m) ->
  exists a st' top own', internalLevels fuel w chs (Z.of_nat lvl + 1) st = Ret (a, st') /\ usable st' m /\
    owned st' = old ++ own' /\ own ⊆ own' /\ keeps (contents st) (contents st') (owned st) /\ (top < 256)%nat /\
    built top (contents st') own' nd wcd rcd a (concat dss).
Proof.
  intros E1 Hlv Hown Hg Hu. destruct chs as [|c [|]]; try discriminate.
  apply Forall2_cons_inv_l in Hg as (d & ds & (_ & _ & _ & Hb) & Hd & ->). apply Forall2_nil_inv_l in Hd as ->.
  exists (addr c), st, lvl, own. cbn [concat]. rewrite app_nil_r. split_and!; try done; [by destruct fuel|apply keeps_refl|lia].
Qed.

(** Each level has at most half as many nodes as the one below, so [j] levels
    suffice for [2 ^ j] nodes. *)
Lemma internalLevels_ok j : forall fuel lvl chs dss st m old own,
  (length chs <= 2 ^ j)%nat -> (j <= fuel)%nat -> Z.of_nat lvl + Z.of_nat j < 255 -> chs <> [] ->
  owned st = old ++ own -> Forall2 (good_child lvl (contents st) own) chs dss ->
  usable st ((len chs - 1) * size + m) -> 0 <= m ->
  exists a st' top own', internalLevels fuel w chs (Z.of_nat lvl + 1) st = Ret (a, st') /\ usable st' m /\
    owned st' = old ++ own' /\ own ⊆ own' /\ keeps (contents st) (contents st') (owned st) /\ (top < 256)%nat /\
    built top (contents st') own' nd wcd rcd a (concat dss).
Proof.
  pose proof size_pos as Hs. induction j as [|j IH]; intros fuel lvl chs dss st m old own Hk Hfuel Hlv Hne Hown Hg Hu Hm.
  { apply (single_root fuel lvl chs dss st m old own); try done; [|lia]. destruct chs as [|? [|]]; cbn in *; [done|done|lia]. }
  destruct (decide (length chs = 1)%nat) as [E1|E1]; [by apply (single_root fuel lvl chs dss st m old own); try lia|].
  assert (0 < length chs)%nat by (destruct chs; cbn; [done|lia]).
  destruct fuel as [|fuel]; [lia|]. cbn [internalLevels]. unfold len at 1. ztest.
  destruct (group_count chs) as [Hc Hcn]. set (groups := groupsOf (length chs) 64 chs) in *.
  assert (H2g : 2 * len groups <= len chs) by (unfold len; lia).
  destruct (internal_level_ok lvl chs dss st ((len groups - 1) * size + m) old own) as
    (chs' & dss' & st1 & own1 & -> & Hu1 & Ho1 & Hs1 & Hk1 & Hg1 & <- & Hl1); [lia|done|done| | |].
  { eapply usable_mono; [exact Hu|]. fold groups. clear -Hs H2g. nia. }
  { specialize (Hcn Hne). destruct groups; [done|]. rewrite len_cons. pose proof (len_nonneg groups). nia. }
  cbn [obind]. fold groups in Hl1. pose proof (Forall2_length _ _ _ Hg1) as Hl2.
  rewrite u8_id by (unfold is_u; lia). replace (Z.of_nat lvl + 1 + 1) with (Z.of_nat (S lvl) + 1) by lia.
  destruct (IH fuel (S lvl) chs' dss' st1 m old own1) as (a & st2 & top & own2 & -> & Hu2 & Ho2 & Hs2 & Hk2 & Ht & Hb);
    [pose proof (Nat.pow_nonzero 2 j ltac:(lia)); cbn [Nat.pow] in Hk; lia|lia|lia| |done|done| |done|].
  { intros ->. specialize (Hcn Hne). destruct groups; [done|cbn in *; lia]. }
  { replace (len chs') with (len groups) by (unfold len; lia). done. }
  exists a, st2, top, own2. split_and!; try done; [by etrans|].
  apply (keeps_trans _ (contents st1) _ _ (owned st1)); [|done|done].
  rewrite Hown, Ho1. intros x. rewrite !elem_of_app. set_solver.
Qed.

(** ** [WriteToFile] *)

Lemma build_tree_ok st m :
  let old := owned st in
  Z.of_nat nd = len wcd + 1 -> Forall entry_ok (entries w) -> entries w <> [] -> len (entries w) < 2 ^ 62 ->
  usable st (2 * len (entries w) * size + m) -> 0 <= m ->
  exists a st' top own',
    (if len (entries w) <=? 2 * chunkBTreeK then writeSingleLeaf w st else buildMultiLevelTree w st) = Ret (a, st') /\
    usable st' m /\ owned st' = old ++ own' /\ keeps (contents st) (contents st') old /\ (top < 256)%nat /\
    built top (contents st') own' nd wcd rcd a (map entryOf (entries w)) /\
    (len (entries w) <= 64 -> stored (contents st') a (layout nd wcd (buildLeafNode w (entries w) MaxUint64 MaxUint64))).
Proof.
  intros old Hnd He Hne Hlt Hu Hm. pose proof size_pos as Hs. unfold chunkBTreeK.
  assert (0 < length (entries w))%nat by (destruct (entries w); cbn; [done|lia]).
  destruct (Z.leb_spec (len (entries w)) (2 * 32)) as [Hle|Hgt].
  - assert (Hok : node_ok (buildLeafNode w (entries w) MaxUint64 MaxUint64)).
    { apply leaf_ok; [unfold len in *; lia|done|by vm_compute..]. }
    unfold writeSingleLeaf. cbv zeta. rewrite Hdim, Hwcd.
    rewrite serialize_layout by (pose proof (node_keys _ Hok); pose proof (node_size _ Hok); lia). cbn [obind].
    rewrite len_layout by done. fold size.
    destruct (allocate_law st _ size Hu) as (a & st1 & -> & Hu1 & Hc1 & Ho1 & Hd1); [unfold len; nia|]. cbn [obind].
    destruct (owned_range st1 _ (mkBlock a size) Hu1) as (Ha1 & _ & Ha2); [rewrite Ho1; set_solver|].
    unfold bend in Ha2. cbn [Offset Size] in Ha1, Ha2.
    pose proof (len_layout nd wcd _ Hok) as Hlay. fold size in Hlay.
    destruct (write_law st1 _ (layout nd wcd (buildLeafNode w (entries w) MaxUint64 MaxUint64)) a Hu1)
      as (st2 & -> & Hu2 & Ho2 & Hc2); [lia|lia|]. cbn [obind].
    destruct (app_own _ _ _ Ho1) as [Ho3 Ho4].
    exists a, st2, 0%nat, [mkBlock a size]. split_and!; [done| |by rewrite Ho2| |lia| |].
    + eapply usable_mono; [exact Hu2|]. unfold len. nia.
    + rewrite Hc2, Hc1. apply write_keeps; [done|]. by rewrite Hlay.
    + exists (buildLeafNode w (entries w) MaxUint64 MaxUint64). split_and!; try done; try apply Hok.
      * rewrite Hc2. by apply stored_write.
      * set_solver.
      * unfold size in Ha2. rewrite nodeBytes_eq in Ha2. lia.
      * by rewrite leaf_entries.
    + intros _. rewrite Hc2. by apply stored_write.
  - assert (Hold : owned st = old ++ []) by by rewrite app_nil_r.
    unfold buildMultiLevelTree. destruct (group_count (entries w)) as [Hc Hcn].
    set (groups := groupsOf (length (entries w)) 64 (entries w)) in *.
    assert (H2g : len groups <= len (entries w)) by (unfold len; lia).
    destruct (leaf_level_ok (entries w) st ((len groups - 1) * size + m) old []) as
      (chs & dss & st1 & own1 & -> & Hu1 & Ho1 & _ & Hk1 & Hg1 & Hcat & Hl1); [done|done|done| | |].
    { eapply usable_mono; [exact Hu|]. fold groups. clear -Hs H2g. nia. }
    { specialize (Hcn Hne). destruct groups; [done|]. rewrite len_cons. pose proof (len_nonneg groups). nia. }
    cbn [obind]. fold groups in Hl1. pose proof (Forall2_length _ _ _ Hg1) as Hl2.
    set (j := Nat.min 62 (length chs)).
    destruct (internalLevels_ok j (length chs) 0 chs dss st1 m old own1) as (a & st2 & top & own2 & E & Hu2 & Ho2 & _ & Hk2 & Ht & Hb).
    + subst j. destruct (Nat.min_spec 62 (length chs)) as [[_ ->]|[_ ->]].
      * apply Nat2Z.inj_le. rewrite Nat2Z.inj_pow. unfold len in *. change (Z.of_nat 2 ^ Z.of_nat 62) with (2 ^ 62). lia.
      * apply Nat.lt_le_incl, Nat.pow_gt_lin_r. lia.
    + subst j. lia.
    + subst j. lia.
    + intros ->. specialize (Hcn Hne). destruct groups; [done|cbn in *; lia].
    + done.
    + done.
    + replace (len chs) with (len groups) by (unfold len; lia). done.
    + done.
    + change (Z.of_nat 0 + 1) with 1 in E. rewrite E. rewrite Hcat in Hb. exists a, st2, top, own2.
      split_and!; try done; [|lia]. apply (keeps_trans _ (contents st1) _ _ (owned st1)); [|done|done].
      rewrite Ho1. intros x. rewrite elem_of_app. auto.
Qed.
End storage.

#[local] Instance entry_le_total : Total entry_le.
Proof.
  intros a b. unfold entry_le, compareChunkCoords. generalize (Coordinate a) (Coordinate b). clear.
  induction l as [|x l IH]; intros [|y l']; cbn; try lia. repeat ztest. apply IH.
Qed.

Lemma sortEntries_sorted l : Sorted entry_le (sortEntries l).
Proof. apply (Sorted_merge_sort entry_le). Qed.

(** The node of an index that needs only one. *)
Definition singleLeaf (dim : Z) (cs : list Z) (es : Z) (l : list ChunkBTreeEntry) : ChunkBTreeNode :=
  buildLeafNode (mkBWriter dim cs es (sortEntries l)) (sortEntries l) MaxUint64 MaxUint64.

Lemma singleLeaf_ok dim cs es l : Forall (entry_ok cs) l -> 0 < len l <= 64 -> node_ok (singleLeaf dim cs es l).
Proof.
  intros He Hl. assert (Hp : sortEntries l ≡ₚ l) by apply merge_sort_Permutation.
  unfold singleLeaf. apply (leaf_ok 0 cs); [|by rewrite Hp|by vm_compute..]. pose proof (Permutation_length Hp). unfold len in Hl. lia.
Qed.

(** The index as a whole: what [WriteToFile] leaves in the storage. *)
Lemma WriteToFile_ok `{StorageLaws St} (w : ChunkBTreeWriter) (es : Z) st m :
  let size := nodeBytes (dimensionality w + 1) in
  dimensionality w = len (bChunkDims w) -> size < 2 ^ 63 ->
  Forall (entry_ok (bChunkDims w)) (entries w) -> entries w <> [] -> len (entries w) < 2 ^ 62 ->
  usable st (2 * len (entries w) * size + m) -> 0 <= m ->
  exists a st' top own', WriteToFile w st = Ret (a, st') /\ usable st' m /\ owned st' = owned st ++ own' /\
    keeps (contents st) (contents st') (owned st) /\ (top < 256)%nat /\
    built top (contents st') own' (S (length (bChunkDims w))) (bChunkDims w) (bChunkDims w ++ [es]) a
      (map entryOf (sortEntries (entries w))) /\
    (len (entries w) <= 64 -> stored (contents st') a (layout (S (length (bChunkDims w))) (bChunkDims w)
      (singleLeaf (dimensionality w) (bChunkDims w) (elementSize w) (entries w)))).
Proof.
  intros size Hdim Hsize He Hne Hlt Hu Hm. unfold WriteToFile.
  assert (Hp : sortEntries (entries w) ≡ₚ entries w) by apply merge_sort_Permutation.
  assert (Hpl : len (sortEntries (entries w)) = len (entries w)) by (unfold len; by rewrite Hp).
  destruct (Z.eqb_spec (len (entries w)) 0) as [E0|_]; [by apply len_0_nil in E0|]. cbn [negb]. cbv zeta.
  set (w' := mkBWriter _ _ _ _).
  assert (Hd' : dimensionality w' + 1 = Z.of_nat (S (length (bChunkDims w)))) by (cbn; unfold len in Hdim; lia).
  rewrite <- Hpl. change (sortEntries (entries w)) with (entries w').
  apply (build_tree_ok (S (length (bChunkDims w))) (bChunkDims w) (bChunkDims w ++ [es]) w' Hd' eq_refl
    ltac:(rewrite <- Hd'; exact Hsize) es eq_refl).
  - unfold len. lia.
  - cbn. by rewrite Hp.
  - cbn. intros E. rewrite E in Hp. symmetry in Hp. by apply Permutation_nil_r in Hp.
  - cbn. by rewrite Hpl.
  - cbn [entries w']. rewrite Hpl, <- Hd'. exact Hu.
  - done.
Qed.

(** ** Properties *)

(** C21. The chunk index round-trips: for any storage that keeps its contract,
    [WriteToFile] sorts the chunks, builds the B-tree (one leaf, or as many
    levels as needed) and returns its root; parsing the root and collecting
    yields every chunk with its scaled coordinates, size and address, in
    row-major order, and everything stored before is still there. *)
Theorem chunk_index_roundtrip St `(SL : StorageLaws St) (w : ChunkBTreeWriter) es st m fuel :
  let size := nodeBytes (dimensionality w + 1) in
  let cd := bChunkDims w ++ [es] in
  dimensionality w = len (bChunkDims w) -> size < 2 ^ 63 -> Forall (fun d => 0 < d) cd ->
  Forall (entry_ok (bChunkDims w)) (entries w) -> entries w <> [] -> len (entries w) < 2 ^ 62 ->
  usable st (2 * len (entries w) * size + m) -> 0 <= m -> (256 <= fuel)%nat ->
  exists root st' node, WriteToFile w st = Ret (root, st') /\ usable st' m /\
    keeps (contents st) (contents st') (owned st) /\
    ParseBTreeV1Node (contents st') root 8 (length cd) cd = Ret node /\
    CollectAllChunks fuel (contents st') node 8 cd = Ret (map entryOf (sortEntries (entries w))) /\
    sortEntries (entries w) ≡ₚ entries w /\ Sorted entry_le (sortEntries (entries w)).
Proof.
  intros size cd Hdim Hsize Hpos He Hne Hlt Hu Hm Hf.
  destruct (WriteToFile_ok w es st m Hdim Hsize He Hne Hlt Hu Hm) as (a & st' & top & own' & E & Hu' & Ho & Hk & Ht & Hb & _).
  apply built_indexes in Hb; [|unfold cd; rewrite length_app; cbn; lia|exact Hpos]. fold cd in Hb.
  destruct (CollectAllChunks_ok _ _ _ _ _ fuel Hb ltac:(lia)) as (node & Hp & Hc).
  exists a, st', node. split_and!; try done; [apply merge_sort_Permutation|apply sortEntries_sorted].
Qed.

(** Two chunks of a one-dimensional dataset, added in reverse order, in a new
    file. *)
Example chunk_index_roundtrip_witness :
  let w := mkBWriter 1 [10] 8 [mkWEntry [1] 2000 80; mkWEntry [0] 1000 80] in
  exists root st' node, WriteToFile w (NewFileWriter 48) = Ret (root, st') /\
    ParseBTreeV1Node (contents st') root 8 2 [10; 8] = Ret node /\
    CollectAllChunks 256 (contents st') node 8 [10; 8] =
      Ret [mkEntry (mkKey [0; 0] 80 0) 1000; mkEntry (mkKey [1; 0] 80 0) 2000].
Proof.
  intros w.
  destruct (chunk_index_roundtrip FileWriter (FileWriter_laws 48) w 8 (NewFileWriter 48) 0 256)
    as (root & st' & node & E & _ & _ & Hp & Hc & _).
  - reflexivity.
  - vm_compute. reflexivity.
  - repeat constructor.
  - assert (entry_ok [10] (mkWEntry [1] 2000 80)) by (split; cbn; unfold is_u; [lia|lia|repeat constructor; lia]).
    assert (entry_ok [10] (mkWEntry [0] 1000 80)) by (split; cbn; unfold is_u; [lia|lia|repeat constructor; lia]).
    constructor; [assumption|]. constructor; [assumption|]. constructor.
  - discriminate.
  - vm_compute. reflexivity.
  - apply NewFileWriter_usable; [lia|vm_compute; reflexivity|lia].
  - lia.
  - lia.
  - exists root, st', node. split; [exact E|]. split; [exact Hp|exact Hc].
Defined.
