(* ===== verification/Checksum.v ===== *)
(** * Jenkins lookup3 checksum: internal/core/checksum.go

    The 32-bit arithmetic is written out; array accesses go through [idx], so
    that the absence of out-of-range accesses is a theorem. *)

From S2P Require Import Prelude.

(** ** Definitions *)

Definition rot (x k : Z) : Z := Z.lor (u32 (Z.shiftl x k)) (Z.shiftr x (32 - k)).

Record state := mkState { sa : Z; sb : Z; sc : Z }.

(** Four bytes from [i] on as a little-endian word. *)
Definition word32 (data : bytes) (i : Z) : outcome Z :=
  let! b0 := idx data i in
  let! b1 := idx data (i + 1) in
  let! b2 := idx data (i + 2) in
  let! b3 := idx data (i + 3) in
  Ret (Z.lor (Z.lor (Z.lor (b2z b0) (Z.shiftl (b2z b1) 8)) (Z.shiftl (b2z b2) 16)) (Z.shiftl (b2z b3) 24)).

(** [x -= z; x ^= rot z k; z += y], the round the mix repeats. *)
Definition round (k x y z : Z) : Z * Z :=
  let x := u32 (x - z) in
  let x := Z.lxor x (rot z k) in
  let z := u32 (z + y) in
  (x, z).

Definition mix (s : state) : state :=
  let '(a, b, c) := (sa s, sb s, sc s) in
  let '(a, c) := round 4 a b c in
  let '(b, a) := round 6 b c a in
  let '(c, b) := round 8 c a b in
  let '(a, c) := round 16 a b c in
  let '(b, a) := round 19 b c a in
  let '(c, b) := round 4 c a b in
  mkState a b c.

(** [x ^= y; x -= rot y k], the step of the final mix. *)
Definition fin (k x y : Z) : Z := u32 (Z.lxor x y - rot y k).

Definition final (s : state) : state :=
  let '(a, b, c) := (sa s, sb s, sc s) in
  let c := fin 14 c b in
  let a := fin 11 a c in
  let b := fin 25 b a in
  let c := fin 16 c b in
  let a := fin 4 a c in
  let b := fin 14 b a in
  let c := fin 24 c b in
  mkState a b c.

(** The loop over 12-byte chunks, left with at most 12 bytes to go. *)
Fixpoint chunkLoop (fuel : nat) (data : bytes) (i : Z) (s : state) : outcome (Z * state) :=
  match fuel with
  | O => Panic
  | S fuel =>
      if i + 12 <? len data then
        let! wa := word32 data i in
        let! wb := word32 data (i + 4) in
        let! wc := word32 data (i + 8) in
        chunkLoop fuel data (i + 12)
          (mix (mkState (u32 (sa s + wa)) (u32 (sb s + wb)) (u32 (sc s + wc))))
      else Ret (i, s)
  end.

(** One case of the fall-through switch: byte [i + k], if the chunk has it, is
    added to its word at its place. *)
Definition tailByte (data : bytes) (i remaining k : Z) (s : state) : outcome state :=
  if remaining >? k then
    let! b := idx data (i + k) in
    let v := Z.shiftl (b2z b) (8 * (k mod 4)) in
    Ret (if k <? 4 then mkState (u32 (sa s + v)) (sb s) (sc s)
         else if k <? 8 then mkState (sa s) (u32 (sb s + v)) (sc s)
         else mkState (sa s) (sb s) (u32 (sc s + v)))
  else Ret s.

(** The switch runs from byte 11 down to byte 0. *)
Fixpoint tailLoop (n : nat) (data : bytes) (i remaining : Z) (s : state) : outcome state :=
  match n with
  | O => Ret s
  | S m => let! s := tailByte data i remaining (Z.of_nat m) s in tailLoop m data i remaining s
  end.

Definition jenkinsLookup3 (data : bytes) (initval : Z) : outcome Z :=
  let length := len data in
  let a := u32 (u32 (0xdeadbeef + u32 length) + initval) in
  let! (i, s) := chunkLoop (S (List.length data)) data 0 (mkState a a a) in
  let remaining := length - i in
  if remaining =? 0 then Ret (sc s)
  else
    let! s := tailLoop 12 data i remaining s in
    Ret (sc (final s)).

Definition JenkinsChecksum (data : bytes) : outcome Z := jenkinsLookup3 data 0.

(** ** Inverting the mix *)

Definition unround (k x y z : Z) : Z * Z :=
  let z := u32 (z - y) in
  let x := u32 (Z.lxor x (rot z k) + z) in
  (x, z).

Definition unmix (s : state) : state :=
  let '(a, b, c) := (sa s, sb s, sc s) in
  let '(c, b) := unround 4 c a b in
  let '(b, a) := unround 19 b c a in
  let '(a, c) := unround 16 a b c in
  let '(c, b) := unround 8 c a b in
  let '(b, a) := unround 6 b c a in
  let '(a, c) := unround 4 a b c in
  mkState a b c.

Definition unfin (k x y : Z) : Z := Z.lxor (u32 (x + rot y k)) y.

Definition unfinal (s : state) : state :=
  let '(a, b, c) := (sa s, sb s, sc s) in
  let c := unfin 24 c b in
  let b := unfin 14 b a in
  let a := unfin 4 a c in
  let c := unfin 16 c b in
  let b := unfin 25 b a in
  let a := unfin 11 a c in
  let c := unfin 14 c b in
  mkState a b c.

Definition state_ok (s : state) : Prop := is_u 32 (sa s) /\ is_u 32 (sb s) /\ is_u 32 (sc s).

(** ** Lemmas *)

Lemma lt_pow2_testbit x n : 0 <= n -> 0 <= x -> (forall i, n <= i -> Z.testbit x i = false) -> x < 2 ^ n.
Proof.
  intros Hn Hx H. destruct (decide (x = 0)) as [->|]; [lia|].
  apply Z.log2_lt_pow2; [lia|]. destruct (Z.lt_ge_cases (Z.log2 x) n) as [|Hge]; [done|].
  specialize (H _ Hge). by rewrite Z.bit_log2 in H by lia.
Qed.

Lemma testbit_u x n i : 0 <= x < 2 ^ n -> 0 <= n -> n <= i -> Z.testbit x i = false.
Proof. intros Hx Hn Hi. rewrite <- (Z.mod_small x (2 ^ n)) by done. by apply Z.mod_pow2_bits_high. Qed.

Lemma lxor_u x y : is_u 32 x -> is_u 32 y -> is_u 32 (Z.lxor x y).
Proof.
  unfold is_u. intros Hx Hy. assert (0 <= Z.lxor x y) by (apply Z.lxor_nonneg; lia).
  split; [done|]. apply lt_pow2_testbit; [lia|done|]. intros i Hi.
  rewrite Z.lxor_spec, !(testbit_u _ 32) by (done || lia). done.
Qed.

Lemma lxor_twice x y : Z.lxor (Z.lxor x y) y = x.
Proof. by rewrite Z.lxor_assoc, Z.lxor_nilpotent, Z.lxor_0_r. Qed.

Lemma u32_add_sub x y : is_u 32 x -> u32 (u32 (x - y) + y) = x.
Proof.
  intros. unfold u32. rewrite Zplus_mod_idemp_l. replace (x - y + y) with x by lia. by apply u32_id.
Qed.

Lemma u32_sub_add x y : is_u 32 x -> u32 (u32 (x + y) - y) = x.
Proof.
  intros. unfold u32. rewrite Zminus_mod_idemp_l. replace (x + y - y) with x by lia. by apply u32_id.
Qed.

Lemma shiftr_u x k : is_u 32 x -> 0 <= k -> is_u 32 (Z.shiftr x k).
Proof.
  unfold is_u. intros. rewrite Z.shiftr_div_pow2 by lia.
  assert (0 < 2 ^ k) by (apply Z.pow_pos_nonneg; lia). split; [apply Z.div_pos; lia|].
  apply Z.div_lt_upper_bound; [lia|]. nia.
Qed.

Lemma lor_u x y : is_u 32 x -> is_u 32 y -> is_u 32 (Z.lor x y).
Proof.
  unfold is_u. intros Hx Hy. assert (0 <= Z.lor x y) by (apply Z.lor_nonneg; lia).
  split; [done|]. apply lt_pow2_testbit; [lia|done|]. intros i Hi.
  rewrite Z.lor_spec, !(testbit_u _ 32) by (done || lia). done.
Qed.

Lemma rot_u x k : is_u 32 x -> 0 <= k <= 32 -> is_u 32 (rot x k).
Proof. intros. apply lor_u; [auto with go|]. apply shiftr_u; [done|lia]. Qed.

Lemma round_u k x y z :
  0 <= k <= 32 -> is_u 32 z -> is_u 32 (round k x y z).1 /\ is_u 32 (round k x y z).2.
Proof. intros. cbn. split; [apply lxor_u; [auto with go|by apply rot_u]|auto with go]. Qed.

Lemma unround_round k x y z :
  is_u 32 x -> is_u 32 z -> unround k (round k x y z).1 y (round k x y z).2 = (x, z).
Proof.
  intros. unfold round, unround. cbn [fst snd]. rewrite u32_sub_add by done.
  by rewrite lxor_twice, u32_add_sub.
Qed.

(** Peeling one round off [unmix (mix s)]. *)
Ltac peel_round :=
  match goal with
  | |- context [round ?k ?x ?y ?z] =>
      let E := fresh "E" in let H1 := fresh in let H2 := fresh in
      destruct (round_u k x y z) as [H1 H2]; [lia|assumption|];
      pose proof (unround_round k x y z ltac:(assumption) ltac:(assumption)) as E;
      destruct (round k x y z) as [? ?]; cbn [fst snd] in *
  end.

Lemma unmix_mix s : state_ok s -> unmix (mix s) = s /\ state_ok (mix s).
Proof.
  destruct s as [a b c]. intros (Ha & Hb & Hc). cbn [sa sb sc] in *. unfold mix. cbn [sa sb sc].
  do 6 peel_round. split; [|done]. unfold unmix. cbn [sa sb sc].
  repeat match goal with E : unround _ _ _ _ = _ |- _ => rewrite E; clear E end. done.
Qed.

Lemma unfin_fin k x y : is_u 32 x -> is_u 32 y -> unfin k (fin k x y) y = x /\ is_u 32 (fin k x y).
Proof.
  intros. unfold fin, unfin. split; [|auto with go].
  rewrite u32_add_sub by by apply lxor_u. apply lxor_twice.
Qed.

Ltac peel_fin :=
  match goal with
  | |- context [fin ?k ?x ?y] =>
      let E := fresh "E" in let H := fresh in
      destruct (unfin_fin k x y) as [E H]; [assumption|assumption|];
      generalize dependent (fin k x y); intros
  end.

Lemma unfinal_final s : state_ok s -> unfinal (final s) = s /\ state_ok (final s).
Proof.
  destruct s as [a b c]. intros (Ha & Hb & Hc). cbn [sa sb sc] in *. unfold final. cbn [sa sb sc].
  do 7 peel_fin. split; [|done]. unfold unfinal. cbn [sa sb sc].
  repeat match goal with E : unfin _ _ _ = _ |- _ => rewrite E; clear E end. done.
Qed.

Lemma word32_u data i :
  0 <= i -> i + 4 <= len data -> exists w, word32 data i = Ret w /\ is_u 32 w.
Proof.
  intros. unfold word32.
  destruct (idx_in_range data i) as [b0 ->]; [lia|]. destruct (idx_in_range data (i + 1)) as [b1 ->]; [lia|].
  destruct (idx_in_range data (i + 2)) as [b2 ->]; [lia|]. destruct (idx_in_range data (i + 3)) as [b3 ->]; [lia|].
  cbn [obind]. eexists. split; [done|].
  pose proof (b2z_range b0). pose proof (b2z_range b1). pose proof (b2z_range b2). pose proof (b2z_range b3).
  repeat apply lor_u; unfold is_u; rewrite ?Z.shiftl_mul_pow2 by lia; lia.
Qed.

Lemma mix_ok s : state_ok s -> state_ok (mix s).
Proof. intros. by apply unmix_mix. Qed.

Lemma chunkLoop_spec data fuel i s :
  (Z.to_nat (len data - i) < fuel)%nat -> 0 <= i <= len data -> state_ok s ->
  exists j s', chunkLoop fuel data i s = Ret (j, s') /\ i <= j <= len data /\ len data - j <= 12 /\
    (i < len data -> j < len data) /\ state_ok s'.
Proof.
  revert i s. induction fuel as [|fuel IH]; intros i s Hf Hi Hs; [lia|]. cbn [chunkLoop].
  ztest; [|exists i, s; repeat split; try lia; apply Hs].
  destruct (word32_u data i) as (wa & -> & Ha); [lia..|].
  destruct (word32_u data (i + 4)) as (wb & -> & Hb); [lia..|].
  destruct (word32_u data (i + 8)) as (wc & -> & Hc); [lia..|]. cbn [obind].
  edestruct (IH (i + 12)) as (j & s' & -> & ? & ? & ? & ?); [lia|lia| |].
  { apply mix_ok. split_and!; cbn [sa sb sc]; apply u32_range. }
  exists j, s'. split_and!; [done|lia|lia|lia|lia|done].
Qed.

Lemma tailLoop_spec data i n s :
  0 <= i <= len data -> state_ok s ->
  exists s', tailLoop n data i (len data - i) s = Ret s' /\ state_ok s'.
Proof.
  intros Hi. revert s. induction n as [|n IH]; intros s Hs; cbn [tailLoop]; [eauto|].
  assert (exists s', tailByte data i (len data - i) (Z.of_nat n) s = Ret s' /\ state_ok s') as (s' & -> & Hs').
  { destruct Hs as (? & ? & ?). unfold tailByte. rewrite Z.gtb_ltb. ztest; [|by eexists].
    destruct (idx_in_range data (i + Z.of_nat n)) as [b ->]; [lia|]. cbn [obind]. eexists. split; [done|].
    repeat ztest; split_and!; cbn [sa sb sc]; (done || apply u32_range). }
  cbn [obind]. by apply IH.
Qed.

Lemma jenkinsLookup3_ret data initval :
  exists v, jenkinsLookup3 data initval = Ret v /\ is_u 32 v.
Proof.
  unfold jenkinsLookup3. cbv zeta.
  set (a := u32 (u32 (0xdeadbeef + u32 (len data)) + initval)).
  assert (Hi : state_ok (mkState a a a)) by (split_and!; apply u32_range).
  destruct (chunkLoop_spec data (S (length data)) 0 _ ltac:(unfold len; lia)
    ltac:(pose proof (len_nonneg data); lia) Hi) as (j & s & -> & Hj & ? & ? & Hs).
  cbn [obind]. ztest; [exists (sc s); split; [done|apply Hs]|].
  destruct (tailLoop_spec data j 12 s) as (s' & -> & Hs'); [lia|done|]. cbn [obind].
  eexists. split; [done|]. by destruct (proj2 (unfinal_final s' Hs')) as (_ & _ & ?).
Qed.

(** ** Checksummed bytes *)

(** Bytes followed by their checksum. *)
Definition summed (body : bytes) : bytes :=
  body ++ le_put 4 (match JenkinsChecksum body with Ret c => c | _ => 0 end).

Lemma summed_ret body : exists c, is_u 32 c /\ JenkinsChecksum body = Ret c /\ summed body = body ++ le_put 4 c.
Proof.
  destruct (jenkinsLookup3_ret body 0) as (c & E & Hc). exists c. split; [done|]. unfold summed.
  unfold JenkinsChecksum. by rewrite E.
Qed.

Lemma len_summed body : len (summed body) = len body + 4.
Proof. unfold summed. by rewrite len_app, len_le_put. Qed.

(** The checksum goes after the bytes it covers. *)
Lemma put_summed body :
  (let! covered := slice (body ++ zeros 4) 0 (len body) in
   let! checksum := JenkinsChecksum covered in put_le 4 (body ++ zeros 4) (len body) checksum) = Ret (summed body).
Proof.
  rewrite (slice_at _ [] body (zeros 4)) by done. cbn [obind].
  destruct (summed_ret body) as (c & _ & -> & ->). cbn [obind]. rewrite put_le_cursor by (done || lia).
  change (zeros (4 - Z.of_nat 4)) with (@nil byte). by rewrite app_nil_r.
Qed.

(** ** Properties *)

(** [jenkinsLookup3] of internal/core/checksum.go is total on every byte
    string and every seed: its chunk loop ends, the fall-through switch never
    reads outside the data, and the result is a 32-bit word. *)
Theorem jenkinsLookup3_total data initval :
  exists v, jenkinsLookup3 data initval = Ret v /\ is_u 32 v.
Proof. apply jenkinsLookup3_ret. Qed.

(** The two mixing functions of lookup3 are permutations of the 96-bit
    state: distinct states stay distinct through [mix] and [final], so no
    input information is lost before the last word is taken. *)
Theorem mix_final_injective s t :
  state_ok s -> state_ok t -> (mix s = mix t -> s = t) /\ (final s = final t -> s = t).
Proof.
  intros Hs Ht. split; intros E.
  - rewrite <- (proj1 (unmix_mix s Hs)), <- (proj1 (unmix_mix t Ht)). by rewrite E.
  - rewrite <- (proj1 (unfinal_final s Hs)), <- (proj1 (unfinal_final t Ht)). by rewrite E.
Qed.

(** Two distinct states. *)
Lemma mix_final_injective_witness :
  state_ok (mkState 1 2 3) /\ state_ok (mkState 1 2 4) /\
  (final (mkState 1 2 3) = final (mkState 1 2 4) -> mkState 1 2 3 = mkState 1 2 4).
Proof.
  split; [|split]; [by vm_compute|by vm_compute|].
  apply (mix_final_injective (mkState 1 2 3) (mkState 1 2 4)); by vm_compute.
Defined.

(** The published test vectors of lookup3, and one with two chunks. *)
Example JenkinsChecksum_empty : JenkinsChecksum [] = Ret 0xdeadbeef.
Proof. reflexivity. Qed.
Example JenkinsChecksum_score :
  JenkinsChecksum (String.list_byte_of_string "Four score and seven years ago") = Ret 0x17770551.
Proof. vm_compute. reflexivity. Qed.
