(* ===== verification/Superblock.v ===== *)
(** * Superblock: internal/core/superblock.go

    Reading versions 0, 2 and 3, writing all three.  The read buffer comes from
    a pool (internal/utils/bufferpool.go) and is not cleared, so its former
    contents are an argument of the reader. *)

From S2P Require Import Prelude Storage Checksum.

(** ** Definitions *)

Definition signature : bytes := [x89; x48; x44; x46; x0d; x0a; x1a; x0a].

Record Superblock := mkSuperblock {
  Version : Z;
  OffsetSize : Z;
  LengthSize : Z;
  BaseAddress : Z;
  RootGroup : Z;
  Endianness : ByteOrder;
  SuperExtension : Z;
  DriverInfo : Z;
  RootBTreeAddr : Z;
  RootHeapAddr : Z }.

(** [GetBuffer(128)] with contents [stale], then [r.ReadAt(buf, 0)]: the bytes
    that were read, and how many. *)
Definition fillBuffer (stale file : bytes) : bytes * Z :=
  (take 128 file ++ drop (length (take 128 file)) (take 128 stale), len (take 128 file)).

Definition validSize (size : Z) : bool := (size =? 1) || (size =? 2) || (size =? 4) || (size =? 8).

Definition sizeCode (code : Z) : option Z :=
  if code =? 0 then Some 1 else if code =? 1 then Some 2 else if code =? 2 then Some 4
  else if code =? 3 then Some 8 else None.

#[global] Instance Superblock_eq_dec : EqDecision Superblock.
Proof. solve_decision. Defined.

(** Endianness and sizes: bytes 13 and 14 for version 0; byte 9 and the packed
    or direct byte 10 for versions 2 and 3. *)
Definition readSizes (buf : bytes) (version : Z) : outcome (ByteOrder * Z * Z) :=
  if version =? 0 then
    let! o := idx buf 13 in
    let! l := idx buf 14 in
    Ret (LittleEndian, b2z o, b2z l)
  else
    let! flags := idx buf 9 in
    let endianness := if Z.land (b2z flags) 1 =? 0 then LittleEndian else BigEndian in
    let! sizes := idx buf 10 in
    let sizesByte := b2z sizes in
    if validSize sizesByte then Ret (endianness, sizesByte, 8)
    else
      match sizeCode (Z.land sizesByte 15) with
      | None => Err "invalid offset size code"
      | Some o =>
          match sizeCode (Z.land (Z.shiftr sizesByte 4) 15) with
          | None => Err "invalid length size code"
          | Some l => Ret (endianness, o, l)
          end
      end.

Definition readValue (buf : bytes) (endianness : ByteOrder) (offset size : Z) : outcome Z :=
  guard negb ((offset <? 0) || (offset + size >? len buf)) else "buffer overflow";;
  let! data := slice buf offset (offset + size) in
  if validSize size then Ret (get_order endianness data) else Err "unsupported size".

Definition ReadSuperblock (stale file : bytes) : outcome Superblock :=
  let '(buf, n) := fillBuffer stale file in
  guard negb (n <? 48) else "file too small to contain a superblock";;
  let! sig := slice buf 0 8 in
  guard bool_decide (sig = signature) else "invalid HDF5 signature";;
  let! v := idx buf 8 in
  let version := b2z v in
  guard (version =? 0) || (version =? 2) || (version =? 3) else "unsupported superblock version";;
  let! (endianness, offsetSize, lengthSize) := readSizes buf version in
  let offsetSize := if offsetSize =? 0 then 8 else offsetSize in
  let lengthSize := if lengthSize =? 0 then 8 else lengthSize in
  guard validSize offsetSize && validSize lengthSize else "invalid sizes";;
  if version =? 0 then
    let! root := readValue buf endianness 64 offsetSize in
    let! btree := readValue buf endianness 80 offsetSize in
    let! heap := readValue buf endianness 88 offsetSize in
    Ret (mkSuperblock version offsetSize lengthSize 0 root endianness 0 0 btree heap)
  else
    let current := 12 in
    let! base := readValue buf endianness current offsetSize in
    let current := current + offsetSize in
    let! ext := readValue buf endianness current offsetSize in
    let current := current + offsetSize in
    let current := current + offsetSize in
    let! root := readValue buf endianness current offsetSize in
    Ret (mkSuperblock version offsetSize lengthSize base root endianness ext 0 0 0).

(** The buffers of [writeV2] and [writeV0]. *)
Definition encodeSbV2 (sb : Superblock) (eofAddress : Z) : outcome bytes :=
  guard negb (negb (OffsetSize sb =? 8) || negb (LengthSize sb =? 8))
    else "only 8-byte offsets and lengths are supported for writing";;
  let superExt := if SuperExtension sb =? 0 then MaxUint64 else SuperExtension sb in
  let! buf := putFields (zeros 48)
    [(0, signature); (8, [z2b (Version sb)]); (9, [z2b 8]); (10, [z2b 8]); (11, [z2b 0]);
     (12, le_put 8 (BaseAddress sb)); (20, le_put 8 superExt); (28, le_put 8 eofAddress);
     (36, le_put 8 (RootGroup sb))] in
  let! head := slice buf 0 44 in
  let! checksum := JenkinsChecksum head in
  put_le 4 buf 44 checksum.

Definition writeV2 (sb : Superblock) (file : bytes) (eofAddress : Z) : outcome bytes :=
  let! buf := encodeSbV2 sb eofAddress in os_write_at file 0 buf.

Definition encodeSbV0 (sb : Superblock) (eofAddress : Z) : outcome bytes :=
  guard negb (negb (OffsetSize sb =? 8) || negb (LengthSize sb =? 8))
    else "only 8-byte offsets and lengths are supported for writing";;
  let! buf := putFields (zeros 96)
    [(0, signature); (8, [z2b 0]); (9, [z2b 0]); (10, [z2b 0]); (11, [z2b 0]); (12, [z2b 0]);
     (13, [z2b 8]); (14, [z2b 8]); (15, [z2b 0]); (16, le_put 2 4); (18, le_put 2 16); (20, le_put 4 0);
     (24, le_put 8 (BaseAddress sb)); (32, le_put 8 MaxUint64); (40, le_put 8 eofAddress);
     (48, le_put 8 MaxUint64); (56, le_put 8 0); (64, le_put 8 (RootGroup sb)); (72, le_put 4 1);
     (76, le_put 4 0); (80, le_put 8 (RootBTreeAddr sb)); (88, le_put 8 (RootHeapAddr sb))] in
  Ret buf.

Definition writeV0 (sb : Superblock) (file : bytes) (eofAddress : Z) : outcome bytes :=
  let! buf := encodeSbV0 sb eofAddress in os_write_at file 0 buf.

Definition WriteTo (sb : Superblock) (file : bytes) (eofAddress : Z) : outcome bytes :=
  guard negb (negb (Version sb =? 0) && negb (Version sb =? 2) && negb (Version sb =? 3))
    else "only superblock version 0, 2, and 3 are supported for writing";;
  if Version sb =? 0 then writeV0 sb file eofAddress else writeV2 sb file eofAddress.

(** [WriteTo] on any storage. *)
Definition storeSuperblock `{Storage St} (sb : Superblock) (st : St) (eofAddress : Z) : outcome St :=
  guard negb (negb (Version sb =? 0) && negb (Version sb =? 2) && negb (Version sb =? 3))
    else "only superblock version 0, 2, and 3 are supported for writing";;
  let! buf := (if Version sb =? 0 then encodeSbV0 sb eofAddress else encodeSbV2 sb eofAddress) in
  write_to st buf 0.

(** ** Lemmas *)

Lemma len_signature : len signature = 8.
Proof. done. Qed.
#[export] Hint Rewrite len_signature : len.

Lemma write_at_0 file buf : write_at file 0 buf = buf ++ drop (length buf) file.
Proof.
  unfold write_at, blit, len. rewrite Z.add_0_l, Nat2Z.id. change (Z.to_nat 0) with 0%nat. rewrite take_0. cbn [app]. f_equal.
  destruct (Nat.le_gt_cases (length buf) (length file)).
  - replace (Z.to_nat (Z.of_nat (length buf) - Z.of_nat (length file))) with 0%nat by lia. cbn [replicate]. by rewrite app_nil_r.
  - rewrite !drop_ge; [done|lia|rewrite length_app, length_replicate; lia].
Qed.

(** The buffer after reading a file that starts with a full superblock. *)
Lemma fillBuffer_prefix stale sb rest :
  length stale = 128%nat -> (length sb <= 128)%nat ->
  exists tl n, fillBuffer stale (sb ++ rest) = (sb ++ tl, n) /\ len sb <= n /\ length (sb ++ tl) = 128%nat.
Proof.
  intros Hs Hl. unfold fillBuffer. rewrite take_app, !(take_ge sb), (take_ge stale) by lia.
  eexists _, _. rewrite <- app_assoc. split; [done|]. rewrite len_app. split; [pose proof (len_nonneg (take (128 - length sb) rest)); lia|].
  rewrite ?length_app, ?length_drop, ?length_app, ?length_take. lia.
Qed.

Lemma readValue_at buf o pre v post off :
  buf = pre ++ le_put 8 v ++ post -> off = len pre -> is_u 64 v -> o = LittleEndian ->
  readValue buf o off 8 = Ret v.
Proof.
  intros -> -> Hv ->. unfold readValue. pose proof (len_nonneg pre). pose proof (len_nonneg post).
  ztest. cbn [orb]. ztest; [rewrite !len_app, len_le_put in *; lia|]. cbn [negb].
  rewrite (slice_at _ pre (le_put 8 v) post) by (done || len_lia). cbn [obind].
  cbn -[le_get le_put]. by rewrite le_get_put_small.
Qed.

(** The 44 bytes the version-2 checksum covers. *)
Definition v2_head (sb : Superblock) (ext eof : Z) : bytes :=
  signature ++ [z2b (Version sb)] ++ [z2b 8] ++ [z2b 8] ++ [z2b 0] ++ le_put 8 (BaseAddress sb) ++
  le_put 8 ext ++ le_put 8 eof ++ le_put 8 (RootGroup sb).

Definition undef_if_zero (ext : Z) : Z := if ext =? 0 then MaxUint64 else ext.

Lemma len_v2_head sb ext eof : len (v2_head sb ext eof) = 44.
Proof. unfold v2_head. autorewrite with len. done. Qed.
#[export] Hint Rewrite len_v2_head : len.

Lemma encodeSbV2_ret sb eof (head := v2_head sb (undef_if_zero (SuperExtension sb)) eof) :
  OffsetSize sb = 8 -> LengthSize sb = 8 ->
  exists c, is_u 32 c /\ JenkinsChecksum head = Ret c /\ encodeSbV2 sb eof = Ret (head ++ le_put 4 c).
Proof.
  intros Ho Hl. destruct (jenkinsLookup3_ret head 0) as (c & Ec & Hc).
  exists c. split; [done|]. split; [done|]. unfold encodeSbV2. rewrite Ho, Hl. cbn [Z.eqb Pos.eqb negb orb]. cbv zeta.
  fold (undef_if_zero (SuperExtension sb)). change (zeros 48) with ([] ++ zeros 48).
  rewrite putFields_ret by fields_tac.
  match goal with |- context [concat (map snd ?fs)] => replace (concat (map snd fs)) with head by
    (cbn [map snd concat]; rewrite app_nil_r; reflexivity) end.
  assert (Hh : len head = 44) by apply len_v2_head. clearbody head. rewrite Hh. cbn [obind app].
  rewrite (slice_at _ [] head (zeros (48 - 44))) by done. cbn [obind]. unfold JenkinsChecksum. rewrite Ec. cbn [obind].
  rewrite put_le_cursor by (done || lia). change (zeros (48 - 44 - Z.of_nat 4)) with (@nil byte). by rewrite app_nil_r.
Qed.

Lemma writeV2_ret sb file eof (head := v2_head sb (undef_if_zero (SuperExtension sb)) eof) :
  OffsetSize sb = 8 -> LengthSize sb = 8 ->
  exists c, is_u 32 c /\ JenkinsChecksum head = Ret c /\
    writeV2 sb file eof = Ret ((head ++ le_put 4 c) ++ drop 48 file).
Proof.
  intros Ho Hl. destruct (encodeSbV2_ret sb eof Ho Hl) as (c & Hc & Ec & E). exists c. split_and!; [done..|].
  unfold writeV2. rewrite E. cbn [obind]. unfold os_write_at. cbn [Z.leb Z.compare]. rewrite write_at_0.
  fold head. assert (Hh : len head = 44) by apply len_v2_head. clearbody head.
  rewrite length_app, length_le_put. unfold len in Hh. by replace (length head + 4)%nat with 48%nat by lia.
Qed.

#[local] Opaque JenkinsChecksum writeV2 writeV0.

Lemma MaxUint64_u : is_u 64 MaxUint64.
Proof. unfold is_u, MaxUint64. lia. Qed.

Lemma undef_if_zero_u ext : is_u 64 ext -> is_u 64 (undef_if_zero ext).
Proof. intros. unfold undef_if_zero. destruct (_ =? _); [apply MaxUint64_u|done]. Qed.

(** Reading a buffer that starts with the version-2 fields. *)
Lemma ReadSuperblock_v2 stale file buf n sb ext eof post :
  fillBuffer stale file = (buf, n) -> 48 <= n -> buf = v2_head sb ext eof ++ post ->
  Version sb = 2 \/ Version sb = 3 -> is_u 64 (BaseAddress sb) -> is_u 64 (RootGroup sb) -> is_u 64 ext ->
  ReadSuperblock stale file =
    Ret (mkSuperblock (Version sb) 8 8 (BaseAddress sb) (RootGroup sb) LittleEndian ext 0 0 0).
Proof.
  intros Ef Hn Hbuf Hv Hb Hr He. unfold v2_head in Hbuf. rewrite <- !app_assoc in Hbuf.
  set (p8 := signature ++ [z2b (Version sb)] ++ [z2b 8] ++ [z2b 8] ++ [z2b 0]).
  assert (R : forall pre v post' off, buf = pre ++ le_put 8 v ++ post' -> off = len pre -> is_u 64 v ->
    readValue buf LittleEndian off 8 = Ret v) by (intros; by eapply readValue_at).
  assert (E1 : slice buf 0 8 = Ret signature) by (by eapply (slice_at _ [] signature)).
  assert (E2 : idx buf 8 = Ret (z2b (Version sb))) by (subst buf; reflexivity).
  assert (E3 : readSizes buf (Version sb) = Ret (LittleEndian, 8, 8)).
  { destruct Hv as [-> | ->]; subst buf; reflexivity. }
  assert (E4 : readValue buf LittleEndian 12 8 = Ret (BaseAddress sb)).
  { apply (R p8 _ (le_put 8 ext ++ le_put 8 eof ++ le_put 8 (RootGroup sb) ++ post)); [|reflexivity|done].
    subst p8. by rewrite <- !app_assoc. }
  assert (E5 : readValue buf LittleEndian 20 8 = Ret ext).
  { apply (R (p8 ++ le_put 8 (BaseAddress sb)) _ (le_put 8 eof ++ le_put 8 (RootGroup sb) ++ post)); [|subst p8; autorewrite with len; reflexivity|done].
    subst p8. by rewrite <- !app_assoc. }
  assert (E6 : readValue buf LittleEndian 36 8 = Ret (RootGroup sb)).
  { apply (R (p8 ++ le_put 8 (BaseAddress sb) ++ le_put 8 ext ++ le_put 8 eof) _ post); [|subst p8; autorewrite with len; reflexivity|done].
    subst p8. by rewrite <- !app_assoc. }
  clear R. clearbody p8. clear Hbuf. unfold ReadSuperblock. rewrite Ef. ztest. cbn [negb]. rewrite E1. cbn [obind].
  rewrite bool_decide_true by done. rewrite E2. cbn [obind]. rewrite b2z_z2b_small by lia.
  rewrite E3. cbn [obind]. cbv zeta.
  destruct Hv as [-> | ->]; cbn [Z.eqb Pos.eqb validSize orb andb];
    change (12 + 8) with 20; change (20 + 8 + 8) with 36;
    rewrite E4; cbn [obind]; rewrite E5; cbn [obind]; rewrite E6; reflexivity.
Qed.

(** The 96 bytes of a version-0 superblock. *)
Definition v0_bytes (sb : Superblock) (eof : Z) : bytes :=
  (signature ++ [z2b 0] ++ [z2b 0] ++ [z2b 0] ++ [z2b 0] ++ [z2b 0] ++ [z2b 8] ++ [z2b 8] ++ [z2b 0] ++
   le_put 2 4 ++ le_put 2 16 ++ le_put 4 0 ++ le_put 8 (BaseAddress sb) ++ le_put 8 MaxUint64 ++ le_put 8 eof ++
   le_put 8 MaxUint64 ++ le_put 8 0) ++ le_put 8 (RootGroup sb) ++ (le_put 4 1 ++ le_put 4 0) ++
  le_put 8 (RootBTreeAddr sb) ++ le_put 8 (RootHeapAddr sb).

Lemma len_v0_bytes sb eof : len (v0_bytes sb eof) = 96.
Proof. unfold v0_bytes. autorewrite with len. done. Qed.
#[export] Hint Rewrite len_v0_bytes : len.

#[local] Transparent writeV0.
Lemma encodeSbV0_ret sb eof :
  OffsetSize sb = 8 -> LengthSize sb = 8 -> encodeSbV0 sb eof = Ret (v0_bytes sb eof).
Proof.
  intros Ho Hl. unfold encodeSbV0. rewrite Ho, Hl. cbn [Z.eqb Pos.eqb negb orb].
  change (zeros 96) with ([] ++ zeros 96). rewrite putFields_ret by fields_tac.
  match goal with |- context [concat (map snd ?fs)] => replace (concat (map snd fs)) with (v0_bytes sb eof) by
    (unfold v0_bytes; cbn [map snd concat]; rewrite <- !app_assoc, app_nil_r; reflexivity) end.
  rewrite len_v0_bytes. change (zeros (96 - 96)) with (@nil byte). cbn [obind app]. by rewrite app_nil_r.
Qed.

Lemma writeV0_ret sb file eof :
  OffsetSize sb = 8 -> LengthSize sb = 8 -> writeV0 sb file eof = Ret (v0_bytes sb eof ++ drop 96 file).
Proof.
  intros Ho Hl. unfold writeV0. rewrite encodeSbV0_ret by done. cbn [obind].
  unfold os_write_at. cbn [Z.leb Z.compare]. rewrite write_at_0. pose proof (len_v0_bytes sb eof) as H96. unfold len in H96.
  by replace (length (v0_bytes sb eof)) with 96%nat by lia.
Qed.
#[local] Opaque writeV0.

Lemma ReadSuperblock_v0 stale file buf n sb eof post :
  fillBuffer stale file = (buf, n) -> 48 <= n -> buf = v0_bytes sb eof ++ post ->
  is_u 64 (RootGroup sb) -> is_u 64 (RootBTreeAddr sb) -> is_u 64 (RootHeapAddr sb) ->
  ReadSuperblock stale file =
    Ret (mkSuperblock 0 8 8 0 (RootGroup sb) LittleEndian 0 0 (RootBTreeAddr sb) (RootHeapAddr sb)).
Proof.
  intros Ef Hn Hbuf Hr Hb Hh. unfold v0_bytes in Hbuf.
  match type of Hbuf with _ = (?p ++ _) ++ _ => set (p64 := p) in Hbuf end. set (mid := le_put 4 1 ++ le_put 4 0) in Hbuf.
  assert (Hp : len p64 = 64) by (subst p64; by autorewrite with len).
  assert (R : forall pre v post' off, buf = pre ++ le_put 8 v ++ post' -> off = len pre -> is_u 64 v ->
    readValue buf LittleEndian off 8 = Ret v) by (intros; by eapply readValue_at).
  assert (E1 : slice buf 0 8 = Ret signature).
  { apply (slice_at _ [] signature (drop 8 buf)); subst buf p64; reflexivity. }
  assert (E2 : idx buf 8 = Ret (z2b 0)) by (subst buf p64; reflexivity).
  assert (E3 : readSizes buf 0 = Ret (LittleEndian, 8, 8)) by (subst buf p64; reflexivity).
  assert (E4 : readValue buf LittleEndian 64 8 = Ret (RootGroup sb)).
  { eapply (R p64); [|done|done]. rewrite Hbuf, <- !app_assoc. done. }
  assert (E5 : readValue buf LittleEndian 80 8 = Ret (RootBTreeAddr sb)).
  { eapply (R (p64 ++ le_put 8 (RootGroup sb) ++ mid)); [|autorewrite with len; rewrite Hp; done|done].
    rewrite Hbuf, <- !app_assoc. done. }
  assert (E6 : readValue buf LittleEndian 88 8 = Ret (RootHeapAddr sb)).
  { eapply (R (p64 ++ le_put 8 (RootGroup sb) ++ mid ++ le_put 8 (RootBTreeAddr sb)));
      [|autorewrite with len; rewrite Hp; done|done]. rewrite Hbuf, <- !app_assoc. done. }
  clear R. clearbody p64 mid. clear Hbuf. unfold ReadSuperblock. rewrite Ef. ztest. cbn [negb]. rewrite E1. cbn [obind].
  rewrite bool_decide_true by done. rewrite E2. cbn [obind]. change (b2z (z2b 0)) with 0. cbn [Z.eqb orb].
  rewrite E3. cbn [obind]. cbv zeta. cbn [Z.eqb Pos.eqb validSize orb andb].
  rewrite E4; cbn [obind]; rewrite E5; cbn [obind]; rewrite E6; reflexivity.
Qed.

(** ** Properties *)

(** Superblock versions 2 and 3 round-trip: what [WriteTo] writes,
    [ReadSuperblock] reads back field by field (a zero extension address
    becomes the undefined address), whatever the pooled read buffer held; the
    bytes after the superblock are kept, and the stored checksum is the
    lookup3 checksum of the 44 bytes before it. *)
Theorem superblock_v2_roundtrip sb file eof stale :
  length stale = 128%nat -> Version sb = 2 \/ Version sb = 3 -> OffsetSize sb = 8 -> LengthSize sb = 8 ->
  is_u 64 (BaseAddress sb) -> is_u 64 (RootGroup sb) -> is_u 64 (SuperExtension sb) ->
  exists file' c, WriteTo sb file eof = Ret file' /\
    ReadSuperblock stale file' = Ret (mkSuperblock (Version sb) 8 8 (BaseAddress sb) (RootGroup sb) LittleEndian
      (undef_if_zero (SuperExtension sb)) 0 0 0) /\
    drop 48 file' = drop 48 file /\ JenkinsChecksum (take 44 file') = Ret c /\ get_le 4 file' 44 = Ret c.
Proof.
  intros Hst Hv Ho Hl Hb Hr He%undef_if_zero_u. destruct (writeV2_ret sb file eof Ho Hl) as (c & Hc & Ej & Ew).
  pose proof (len_v2_head sb (undef_if_zero (SuperExtension sb)) eof) as Hh. unfold len in Hh.
  eexists _, c. split; [unfold WriteTo; destruct Hv as [-> | ->]; cbn [Z.eqb Pos.eqb negb andb]; exact Ew|].
  split_and!.
  - destruct (fillBuffer_prefix stale (v2_head sb (undef_if_zero (SuperExtension sb)) eof ++ le_put 4 c)
      (drop 48 file) Hst) as (tl & n & Ef & Hn & Hbuf).
    { rewrite length_app, length_le_put. lia. }
    eapply ReadSuperblock_v2; [exact Ef| |symmetry; apply app_assoc|done..].
    autorewrite with len in Hn. lia.
  - rewrite drop_app, drop_ge by (rewrite length_app, length_le_put; lia).
    rewrite length_app, length_le_put. by replace (48 - _)%nat with 0%nat by lia.
  - rewrite <- app_assoc, take_app, take_ge by lia. replace (44 - _)%nat with 0%nat by lia. by rewrite take_0, app_nil_r.
  - rewrite <- app_assoc. apply get_le_app; [by rewrite len_v2_head|done].
Qed.

Example superblock_v2_roundtrip_witness :
  exists file' c, WriteTo (mkSuperblock 2 8 8 0 48 LittleEndian 0 0 0 0) [] 2000 = Ret file' /\
    ReadSuperblock (zeros 128) file' = Ret (mkSuperblock 2 8 8 0 48 LittleEndian MaxUint64 0 0 0) /\
    JenkinsChecksum (take 44 file') = Ret c.
Proof.
  destruct (superblock_v2_roundtrip (mkSuperblock 2 8 8 0 48 LittleEndian 0 0 0 0) [] 2000 (zeros 128))
    as (file' & c & Ew & Er & _ & Ec & _).
  1-7: first [reflexivity | left; reflexivity | split; vm_compute; congruence].
  exists file', c. split; [exact Ew|]. split; [exact Er|exact Ec].
Defined.

(** Superblock version 0 round-trips except for the base address: the root
    group's object header, B-tree and local heap addresses are read back, from
    any pooled buffer, the base address that was written always as 0; the
    bytes after the 96 are kept. *)
Theorem superblock_v0_roundtrip sb file eof stale :
  length stale = 128%nat -> Version sb = 0 -> OffsetSize sb = 8 -> LengthSize sb = 8 ->
  is_u 64 (BaseAddress sb) -> is_u 64 (RootGroup sb) -> is_u 64 (RootBTreeAddr sb) -> is_u 64 (RootHeapAddr sb) ->
  exists file', WriteTo sb file eof = Ret file' /\
    ReadSuperblock stale file' = Ret (mkSuperblock 0 8 8 0 (RootGroup sb) LittleEndian 0 0
      (RootBTreeAddr sb) (RootHeapAddr sb)) /\
    get_le 8 file' 24 = Ret (BaseAddress sb) /\ drop 96 file' = drop 96 file.
Proof.
  intros Hst Hv Ho Hl Hb Hr Hbt Hh. pose proof (writeV0_ret sb file eof Ho Hl) as Ew.
  pose proof (len_v0_bytes sb eof) as H96. unfold len in H96.
  eexists. split; [unfold WriteTo; rewrite Hv; cbn [Z.eqb Pos.eqb negb andb]; exact Ew|]. split_and!.
  - destruct (fillBuffer_prefix stale (v0_bytes sb eof) (drop 96 file) Hst) as (tl & n & Ef & Hn & Hbuf); [lia|].
    eapply ReadSuperblock_v0; [exact Ef| |done..]. autorewrite with len in Hn. lia.
  - unfold v0_bytes. eapply (get_le_at 8 _ (signature ++ [z2b 0] ++ [z2b 0] ++ [z2b 0] ++ [z2b 0] ++ [z2b 0] ++
      [z2b 8] ++ [z2b 8] ++ [z2b 0] ++ le_put 2 4 ++ le_put 2 16 ++ le_put 4 0)); [|reflexivity|done].
    rewrite <- !app_assoc. reflexivity.
  - rewrite drop_app, drop_ge by lia. by replace (96 - _)%nat with 0%nat by lia.
Qed.

Example superblock_v0_roundtrip_witness :
  exists file', WriteTo (mkSuperblock 0 8 8 512 96 LittleEndian 0 0 800 1200) [] 2000 = Ret file' /\
    ReadSuperblock (zeros 128) file' = Ret (mkSuperblock 0 8 8 0 96 LittleEndian 0 0 800 1200).
Proof.
  destruct (superblock_v0_roundtrip (mkSuperblock 0 8 8 512 96 LittleEndian 0 0 800 1200) [] 2000 (zeros 128))
    as (file' & Ew & Er & _).
  1-8: first [reflexivity | split; vm_compute; congruence].
  exists file'. split; [exact Ew|exact Er].
Defined.

(** A version-0 superblock cut after 64 bytes: the root group address is
    missing. *)
Definition truncatedV0 : bytes := take 64 (v0_bytes (mkSuperblock 0 8 8 0 96 LittleEndian 0 0 0 0) 2000).

(** A truncated version-0 file of 48 to 95 bytes is not refused: the reader
    only asks for 48 bytes, so the root group address it returns for the same
    file is whatever an earlier user of the pooled buffer left there. *)
Theorem superblock_v0_stale_buffer :
  (forall stale, exists buf, fillBuffer stale truncatedV0 = (buf, 64)) /\
  (forall old, 0 <= old < 256 -> exists stale sb,
    length stale = 128%nat /\ ReadSuperblock stale truncatedV0 = Ret sb /\ RootGroup sb = old).
Proof.
  split; [intros; by eexists|]. intros old Hold.
  exists (zeros 64 ++ [z2b old] ++ zeros 63), (mkSuperblock 0 8 8 0 old LittleEndian 0 0 0 0).
  split; [done|]. split; [|done].
  pose proof (byte_enum (fun x => bool_decide (ReadSuperblock (zeros 64 ++ [z2b x] ++ zeros 63) truncatedV0 =
    Ret (mkSuperblock 0 8 8 0 x LittleEndian 0 0 0 0))) ltac:(by vm_compute) old Hold) as H.
  by apply bool_decide_eq_true in H.
Qed.
