(* ===== verification/Messages.v ===== *)
(** * Header messages of a dataset: dataspace and data layout

    internal/core/dataspace.go and internal/core/datalayout.go parse them,
    internal/core/messages_write.go encodes them. *)

From S2P Require Import Prelude Grid Chunks Superblock.

(** ** Dataspace *)

Definition DataspaceScalar : Z := 0.
Definition DataspaceSimple : Z := 1.
Definition DataspaceNull : Z := 2.

Record DataspaceMessage := mkDataspace {
  dsVersion : Z;
  dsType : Z;
  Dimensions : list Z;
  MaxDims : list Z }.

(** [n] dimensions of [dimSize] bytes, with the offset after them. *)
Fixpoint readDims (n : nat) (data : bytes) (offset dimSize : Z) : outcome (list Z * Z) :=
  match n with
  | O => Ret ([], offset)
  | S n =>
      guard negb (offset + dimSize >? len data) else "dataspace message truncated";;
      let! d := (if dimSize =? 4 then get_le 4 data offset else get_le 8 data offset) in
      let! (r, offset) := readDims n data (offset + dimSize) dimSize in
      Ret (d :: r, offset)
  end.

Definition ParseDataspaceMessage (data : bytes) : outcome DataspaceMessage :=
  guard negb (len data <? 2) else "dataspace message too short";;
  let! v := idx data 0 in
  let version := b2z v in
  guard negb (negb (version =? 1) && negb (version =? 2)) else "unsupported dataspace version";;
  let! d := idx data 1 in
  let dimensionality := b2z d in
  let! f := idx data 2 in
  let hasMaxDims := negb (Z.land (b2z f) 1 =? 0) in
  if dimensionality =? 0 then Ret (mkDataspace version DataspaceScalar [1] [])
  else
    let offset := if version =? 1 then 8 else 4 in
    let totalDimsCount := if hasMaxDims then dimensionality * 2 else dimensionality in
    let expectedSize4 := offset + totalDimsCount * 4 in
    let expectedSize8 := offset + totalDimsCount * 8 in
    let! dimSize :=
      (if len data >=? expectedSize8 then Ret 8
       else if len data >=? expectedSize4 then Ret 4
       else Err "dataspace message too short") in
    let! (dims, offset) := readDims (Z.to_nat dimensionality) data offset dimSize in
    if hasMaxDims then
      let! (maxDims, _) := readDims (Z.to_nat dimensionality) data offset dimSize in
      Ret (mkDataspace version DataspaceSimple dims maxDims)
    else Ret (mkDataspace version DataspaceSimple dims []).

Definition TotalElements (ds : DataspaceMessage) : Z :=
  if dsType ds =? DataspaceNull then 0
  else if dsType ds =? DataspaceScalar then 1
  else mulAll 1 (Dimensions ds).

Definition IsScalar (ds : DataspaceMessage) : bool := dsType ds =? DataspaceScalar.
Definition Is1D (ds : DataspaceMessage) : bool := (dsType ds =? DataspaceSimple) && (len (Dimensions ds) =? 1).
Definition Is2D (ds : DataspaceMessage) : bool := (dsType ds =? DataspaceSimple) && (len (Dimensions ds) =? 2).

(** Consecutive integers of [n] bytes; the buffer and the next offset. *)
Fixpoint putInts (n : nat) (vs : list Z) (buf : bytes) (offset : Z) : outcome (bytes * Z) :=
  match vs with
  | [] => Ret (buf, offset)
  | v :: vs => let! buf := put_le n buf offset v in putInts n vs buf (offset + Z.of_nat n)
  end.

Definition EncodeDataspaceMessage (dims maxDims : list Z) : outcome bytes :=
  guard negb (len dims =? 0) else "dimensions cannot be empty (use [1] for scalar)";;
  guard negb ((len maxDims >? 0) && negb (len maxDims =? len dims)) else "maxDims length must match dims length";;
  let version := 1 in
  let dimensionality := u8 (len dims) in
  let flags := if len maxDims >? 0 then 1 else 0 in
  let dimsSize := dimensionality * 8 in
  let maxDimsSize := if len maxDims >? 0 then dimensionality * 8 else 0 in
  let messageSize := 8 + dimsSize + maxDimsSize in
  let! buf := putFields (zeros messageSize) [(0, [z2b version]); (1, [z2b dimensionality]); (2, [z2b flags])] in
  let! (buf, offset) := putInts 8 dims buf 8 in
  if len maxDims >? 0 then let! (buf, _) := putInts 8 maxDims buf offset in Ret buf
  else Ret buf.

(** ** Integers of the sizes the superblock prescribes *)

Definition readUint64 (data : bytes) (size : Z) (endianness : ByteOrder) : outcome Z :=
  let size := if size >? len data then len data else size in
  if size =? 1 then let! b := idx data 0 in Ret (b2z b)
  else if (size =? 2) || (size =? 4) || (size =? 8) then
    let! d := slice data 0 size in Ret (get_order endianness d)
  else
    let! d := slice data 0 size in
    let d := take 8 d in
    Ret (get_order endianness (d ++ zeros (8 - len d))).

(** [writeUint64(buf[offset:], value, size, endianness)]. *)
Definition writeUint64 (buf : bytes) (offset value size : Z) (endianness : ByteOrder) : outcome bytes :=
  if size =? 1 then put_bytes buf offset [z2b value]
  else if (size =? 2) || (size =? 4) || (size =? 8) then
    put_bytes buf offset (put_order endianness (Z.to_nat size) value)
  else put_bytes buf offset (le_put (Z.to_nat (Z.min size 8)) value).

(** ** Data layout *)

Definition LayoutCompact : Z := 0.
Definition LayoutContiguous : Z := 1.
Definition LayoutChunked : Z := 2.
Definition LayoutVirtual : Z := 3.

Record DataLayoutMessage := mkLayout {
  lVersion : Z;
  Class_ : Z;
  DataAddress : Z;
  DataSize : Z;
  CompactData : bytes;
  ChunkSize : list Z;
  ChunkKeySize : Z }.

Definition determineChunkKeySize (superblockVersion : Z) : Z := if superblockVersion >=? 4 then 8 else 4.

(** [n] chunk dimensions of [size] bytes. *)
Fixpoint readChunkDims (n : nat) (data : bytes) (offset : Z) (size : nat) : outcome (list Z) :=
  match n with
  | O => Ret []
  | S n =>
      guard negb (offset + Z.of_nat size >? len data) else "chunked layout dimension truncated";;
      let! d := get_le size data offset in
      let! r := readChunkDims n data (offset + Z.of_nat size) size in
      Ret (d :: r)
  end.

(** [data[4 : 4+size]] is computed in 16 bits. *)
Definition parseLayoutV3 (data : bytes) (sb : Superblock) (version keySize : Z) : outcome DataLayoutMessage :=
  guard negb (len data <? 2) else "layout v3 message too short";;
  let! c := idx data 1 in
  let cls := b2z c in
  if cls =? LayoutCompact then
    guard negb (len data <? 4) else "compact layout message too short";;
    let! size := get_le 2 data 2 in
    guard negb (len data <? 4 + size) else "compact layout data truncated";;
    let! compact := slice data 4 (u16 (4 + size)) in
    Ret (mkLayout version cls 0 size compact [] keySize)
  else if cls =? LayoutContiguous then
    guard negb (len data <? 2 + OffsetSize sb + LengthSize sb) else "contiguous layout message too short";;
    let offset := 2 in
    let! rest := slice data offset (len data) in
    let! address := readUint64 rest (OffsetSize sb) (Endianness sb) in
    let offset := offset + OffsetSize sb in
    let! rest := slice data offset (len data) in
    let! size := readUint64 rest (LengthSize sb) (Endianness sb) in
    Ret (mkLayout version cls address size [] [] keySize)
  else if cls =? LayoutChunked then
    guard negb (len data <? 3) else "chunked layout message too short";;
    let! d := idx data 2 in
    let dimensionality := b2z d in
    let offset := 3 in
    guard negb (offset + OffsetSize sb >? len data) else "chunked layout address truncated";;
    let! rest := slice data offset (len data) in
    let! address := readUint64 rest (OffsetSize sb) (Endianness sb) in
    let offset := offset + OffsetSize sb in
    let! dims := readChunkDims (Z.to_nat dimensionality) data offset (if keySize =? 8 then 8 else 4) in
    Ret (mkLayout version cls address 0 [] dims keySize)
  else Err "unsupported layout class".

Definition parseLayoutV4 (data : bytes) (sb : Superblock) (version keySize : Z) : outcome DataLayoutMessage :=
  parseLayoutV3 data sb version keySize.

Definition ParseDataLayoutMessage (data : bytes) (sb : Superblock) : outcome DataLayoutMessage :=
  guard negb (len data <? 1) else "data layout message too short";;
  let! v := idx data 0 in
  let version := b2z v in
  guard negb ((version <? 3) || (version >? 4)) else "unsupported data layout version";;
  let keySize := determineChunkKeySize (Version sb) in
  if version =? 3 then parseLayoutV3 data sb version keySize
  else parseLayoutV4 data sb version keySize.

Definition IsContiguous (dl : DataLayoutMessage) : bool := Class_ dl =? LayoutContiguous.
Definition IsCompact (dl : DataLayoutMessage) : bool := Class_ dl =? LayoutCompact.
Definition IsChunked (dl : DataLayoutMessage) : bool := Class_ dl =? LayoutChunked.

Definition encodeContiguousLayout (dataSize dataAddress : Z) (sb : Superblock) : outcome bytes :=
  let messageSize := 2 + OffsetSize sb + LengthSize sb in
  let! buf := putFields (zeros messageSize) [(0, [z2b 3]); (1, [z2b LayoutContiguous])] in
  let! buf := writeUint64 buf 2 dataAddress (OffsetSize sb) (Endianness sb) in
  writeUint64 buf (2 + OffsetSize sb) dataSize (LengthSize sb) (Endianness sb).

Definition encodeChunkedLayout (chunkDims : list Z) (btreeAddress : Z) (sb : Superblock) (elementSize : Z)
    : outcome bytes :=
  guard negb (len chunkDims =? 0) else "chunk dimensions cannot be empty";;
  let dimensionality := len chunkDims + 1 in
  guard negb (dimensionality >? 255) else "dimensionality exceeds maximum 255";;
  guard forallb (fun dim => negb (dim >? 4294967295)) chunkDims else "chunk dimension exceeds uint32 maximum";;
  let messageSize := 3 + OffsetSize sb + dimensionality * 4 in
  let! buf := putFields (zeros messageSize) [(0, [z2b 3]); (1, [z2b LayoutChunked]); (2, [z2b dimensionality])] in
  let! buf := writeUint64 buf 3 btreeAddress (OffsetSize sb) (Endianness sb) in
  let! (buf, offset) := putInts 4 chunkDims buf (3 + OffsetSize sb) in
  put_le 4 buf offset elementSize.

Definition EncodeLayoutMessage (layoutClass dataSize dataAddress : Z) (sb : Superblock) (chunkDims : list Z)
    (elementSize : Z) : outcome bytes :=
  if layoutClass =? LayoutContiguous then encodeContiguousLayout dataSize dataAddress sb
  else if layoutClass =? LayoutChunked then
    guard negb (len chunkDims =? 0) else "chunk dimensions required for chunked layout";;
    encodeChunkedLayout chunkDims dataAddress sb elementSize
  else Err "unsupported layout class for writing".

(** ** Lemmas *)

Definition intBytes (n : nat) (vs : list Z) : bytes := concat (map (le_put n) vs).

Lemma len_intBytes n vs : len (intBytes n vs) = Z.of_nat n * len vs.
Proof.
  unfold intBytes. induction vs; cbn [map concat]; [unfold len; cbn [length]; lia|].
  rewrite len_app, IHvs, len_le_put, len_cons. lia.
Qed.
#[export] Hint Rewrite len_intBytes : len.

Lemma putInts_ret n vs : forall pre k,
  Z.of_nat n * len vs <= k ->
  putInts n vs (pre ++ zeros k) (len pre) =
    Ret ((pre ++ intBytes n vs) ++ zeros (k - Z.of_nat n * len vs), len (pre ++ intBytes n vs)).
Proof.
  induction vs as [|v vs IH]; intros pre k Hk; cbn [putInts].
  - unfold intBytes. cbn [map concat]. rewrite app_nil_r, len_nil. do 4 f_equal. lia.
  - rewrite len_cons in *. pose proof (len_nonneg vs). rewrite put_le_cursor by (done || nia). cbn [obind].
    replace (len pre + Z.of_nat n) with (len (pre ++ le_put n v)) by len_lia.
    rewrite IH by nia. unfold intBytes. cbn [map concat]. rewrite <- !app_assoc. do 6 f_equal. lia.
Qed.

Lemma readDims_ret (n : nat) vs : n = 4%nat \/ n = 8%nat -> forall data pre post,
  data = pre ++ intBytes n vs ++ post -> Forall (fun v => 0 <= v < 256 ^ Z.of_nat n) vs ->
  readDims (length vs) data (len pre) (Z.of_nat n) = Ret (vs, len (pre ++ intBytes n vs)).
Proof.
  intros Hn. induction vs as [|v vs IH]; intros data pre post Hd Hf; cbn [readDims length].
  - unfold intBytes. cbn [map concat]. by rewrite app_nil_r.
  - apply Forall_cons in Hf as [Hv Hf]. unfold intBytes in Hd. cbn [map concat] in Hd. rewrite <- app_assoc in Hd.
    assert (Hl : len pre + Z.of_nat n <= len data) by (subst data; len_lia).
    ztest. cbn [negb].
    replace (if Z.of_nat n =? 4 then get_le 4 data (len pre) else get_le 8 data (len pre)) with (Ret v)
      by (symmetry; destruct Hn as [-> | ->]; cbn [Z.eqb Z.of_nat Pos.eqb Pos.of_succ_nat Pos.succ];
          eapply get_le_at; done).
    cbn [obind]. replace (len pre + Z.of_nat n) with (len (pre ++ le_put n v)) by len_lia.
    rewrite (IH data _ post) by (done || (rewrite Hd, <- app_assoc; done)). cbn [obind].
    unfold intBytes. cbn [map concat]. by rewrite <- app_assoc.
Qed.

Lemma readChunkDims_ret (n : nat) vs : forall data pre post,
  data = pre ++ intBytes n vs ++ post -> Forall (fun v => 0 <= v < 256 ^ Z.of_nat n) vs ->
  readChunkDims (length vs) data (len pre) n = Ret vs.
Proof.
  induction vs as [|v vs IH]; intros data pre post Hd Hf; cbn [readChunkDims length]; [done|].
  apply Forall_cons in Hf as [Hv Hf]. unfold intBytes in Hd. cbn [map concat] in Hd. rewrite <- app_assoc in Hd.
  assert (Hl : len pre + Z.of_nat n <= len data) by (subst data; len_lia).
  ztest. cbn [negb].
  rewrite (get_le_at n data pre v (concat (map (le_put n) vs) ++ post)) by done. cbn [obind].
  replace (len pre + Z.of_nat n) with (len (pre ++ le_put n v)) by len_lia.
  rewrite (IH data _ post) by (done || (rewrite Hd, <- app_assoc; done)). done.
Qed.

Lemma readDims_no_panic n data offset dimSize :
  0 <= offset -> dimSize = 4 \/ dimSize = 8 ->
  no_panic (readDims n data offset dimSize) /\
  forall r o, readDims n data offset dimSize = Ret (r, o) -> 0 <= o.
Proof.
  intros Ho Hd. revert offset Ho. induction n as [|n IH]; intros offset Ho; cbn [readDims].
  - split; [apply no_panic_ret|]. by intros r o [= _ <-].
  - ztest; cbn [negb]; [split; [apply no_panic_err|done]|].
    destruct (IH (offset + dimSize) ltac:(lia)) as [Hp Hr].
    assert (exists v, (if dimSize =? 4 then get_le 4 data offset else get_le 8 data offset) = Ret v) as [v ->].
    { destruct Hd as [-> | ->]; cbn [Z.eqb Pos.eqb];
        [destruct (get_le_in_range 4 data offset) as (v & -> & _)|destruct (get_le_in_range 8 data offset) as (v & -> & _)];
        eauto; lia. }
    cbn [obind]. destruct (readDims n data (offset + dimSize) dimSize) as [[r o]| |] eqn:E; cbn [obind].
    + split; [apply no_panic_ret|]. intros r' o' [= _ <-]. by eapply Hr.
    + split; [apply no_panic_err|done].
    + by destruct Hp.
Qed.

(** A variable-width field between a prefix and the unwritten rest. *)
Lemma writeUint64_cursor pre k v size e off :
  validSize size = true -> off = len pre -> size <= k ->
  writeUint64 (pre ++ zeros k) off v size e = Ret ((pre ++ put_order e (Z.to_nat size) v) ++ zeros (k - size)).
Proof.
  intros Hs -> Hk. unfold validSize in Hs. unfold writeUint64.
  repeat (ztest; cbn [orb] in *; subst); try discriminate;
    rewrite put_bytes_cursor by (rewrite ?len_put_order; done || (change (len [z2b v]) with 1; lia));
    rewrite ?len_put_order; try reflexivity.
  destruct e; reflexivity.
Qed.

Lemma readUint64_at v size e post :
  validSize size = true -> 0 <= v < 256 ^ size ->
  readUint64 (put_order e (Z.to_nat size) v ++ post) size e = Ret v.
Proof.
  intros Hs Hv. unfold validSize in Hs. unfold readUint64.
  assert (0 < size) by (repeat (ztest; cbn [orb] in *; subst); try discriminate; lia).
  assert (Hl : len (put_order e (Z.to_nat size) v) = size) by (rewrite len_put_order; lia).
  rewrite len_app. pose proof (len_nonneg post).
  destruct (Z.gtb_spec size (len (put_order e (Z.to_nat size) v) + len post)); [lia|].
  rewrite (slice_at _ [] (put_order e (Z.to_nat size) v) post) by (done || (rewrite Hl; done)). cbn [obind].
  rewrite get_put_order, Z2Nat.id, Z.mod_small by lia.
  destruct (Z.eqb_spec size 1) as [->|]; [|cbn [orb] in Hs; by rewrite Hs].
  assert (put_order e (Z.to_nat 1) v = [z2b v]) as -> by (by destruct e). cbn [app].
  rewrite idx_head. cbn [obind]. rewrite b2z_z2b_small; [done|lia].
Qed.

Lemma readUint64_no_panic data size e : 0 <= size -> no_panic (readUint64 data size e).
Proof.
  intros Hs. unfold readUint64. cbv zeta. pose proof (len_nonneg data). set (n := if size >? len data then len data else size).
  assert (0 <= n <= len data) by (subst n; destruct (Z.gtb_spec size (len data)); lia).
  repeat case_match; rewrite ?slice_ret by lia; cbn [obind]; try apply no_panic_ret.
  destruct (idx_in_range data 0) as [b ->]; [lia|]. apply no_panic_ret.
Qed.

Lemma readChunkDims_no_panic n data offset size : 0 <= offset -> no_panic (readChunkDims n data offset size).
Proof.
  revert offset. induction n as [|n IH]; intros offset Ho; cbn [readChunkDims]; [apply no_panic_ret|].
  ztest; cbn [negb]; [apply no_panic_err|]. destruct (get_le_in_range size data offset) as (v & -> & _); [lia..|].
  cbn [obind]. apply obind_no_panic; [apply IH; lia|]. intros; apply no_panic_ret.
Qed.

Lemma readUint64_total data size e : 0 <= size -> exists v, readUint64 data size e = Ret v.
Proof.
  intros Hs. pose proof (readUint64_no_panic data size e Hs) as Hp. destruct (readUint64 data size e) as [v|m|] eqn:E.
  - by exists v.
  - exfalso. revert E. unfold readUint64. cbv zeta.
    repeat case_match; unfold idx, slice; repeat case_match; cbn [obind]; discriminate.
  - by destruct Hp.
Qed.

Lemma put_bytes_cases {A} (l : list A) off bs :
  0 <= off -> (off + len bs <= len l /\ put_bytes l off bs = Ret (blit l off bs)) \/
    (len l < off + len bs /\ put_bytes l off bs = Panic).
Proof.
  intros. unfold put_bytes. destruct (Z.leb_spec 0 off), (Z.leb_spec (off + len bs) (len l)); try lia;
    [left|right]; done.
Qed.

Lemma putInts_panic n vs : forall buf off,
  0 <= off -> vs <> [] -> len buf < off + Z.of_nat n * len vs -> putInts n vs buf off = Panic.
Proof.
  induction vs as [|v vs IH]; intros buf off Ho Hne Hl; [done|]. rewrite len_cons in Hl. cbn [putInts]. unfold put_le.
  destruct (put_bytes_cases buf off (le_put n v) Ho) as [[Hb ->]|[_ ->]]; [|done]. cbn [obind].
  rewrite len_le_put in Hb. destruct vs as [|w vs].
  - rewrite len_nil in Hl. lia.
  - apply IH; [lia|done|]. rewrite len_blit by (rewrite ?len_le_put; lia). lia.
Qed.

Lemma flags_bit (b : bool) : negb (Z.land (b2z (z2b (if b then 1 else 0))) 1 =? 0) = b.
Proof. by destruct b. Qed.

Lemma putInts_cursor n vs pre k off :
  off = len pre -> Z.of_nat n * len vs <= k ->
  putInts n vs (pre ++ zeros k) off =
    Ret ((pre ++ intBytes n vs) ++ zeros (k - Z.of_nat n * len vs), off + Z.of_nat n * len vs).
Proof. intros -> Hk. rewrite putInts_ret by done. do 2 f_equal. by rewrite len_app, len_intBytes. Qed.

(** The bytes of an encoded dataspace. *)
Definition dataspaceBytes (dims maxDims : list Z) : bytes :=
  [z2b 1; z2b (len dims); z2b (if len maxDims >? 0 then 1 else 0); x00; x00; x00; x00; x00] ++
  intBytes 8 dims ++ intBytes 8 maxDims.

Lemma len_dataspaceBytes dims maxDims : len (dataspaceBytes dims maxDims) = 8 + 8 * len dims + 8 * len maxDims.
Proof. unfold dataspaceBytes. rewrite !len_app, !len_intBytes. change (len [_; _; _; x00; x00; x00; x00; x00]) with 8. lia. Qed.

Lemma EncodeDataspaceMessage_ret dims maxDims :
  0 < len dims <= 255 -> maxDims = [] \/ len maxDims = len dims ->
  EncodeDataspaceMessage dims maxDims = Ret (dataspaceBytes dims maxDims).
Proof.
  intros Hd Hm. unfold EncodeDataspaceMessage. cbv zeta.
  replace (u8 (len dims)) with (len dims) by (symmetry; apply u8_id; unfold is_u; lia).
  destruct (Z.eqb_spec (len dims) 0) as [Hz|_]; [lia|]. cbn [negb].
  destruct (Z.gtb_spec (len maxDims) 0) as [Hg|Hg]; cbn [andb].
  - destruct Hm as [-> |Hm]; [unfold len in Hg; cbn in Hg; lia|]. rewrite Hm, Z.eqb_refl. cbn [negb].
    set (n := 8 + _ + _). change (zeros n) with ([] ++ zeros n).
    rewrite putFields_ret by (subst n; fields_tac). cbn [obind map snd concat app].
    replace (n - _) with (5 + (n - 8)) by len_lia. rewrite <- zeros_app by lia.
    change (z2b 1 :: z2b (len dims) :: z2b 1 :: zeros 5 ++ zeros (n - 8))
      with ([z2b 1; z2b (len dims); z2b 1; x00; x00; x00; x00; x00] ++ zeros (n - 8)).
    rewrite putInts_cursor by (done || lia). cbn [obind].
    rewrite putInts_cursor by (rewrite ?len_app, ?len_intBytes; done || lia). cbn [obind].
    replace (zeros _) with (@nil byte) by (change (zeros 0 = zeros (n - 8 - Z.of_nat 8 * len dims - Z.of_nat 8 * len maxDims)); f_equal; lia).
    rewrite app_nil_r, <- app_assoc. unfold dataspaceBytes. ztest. done.
  - assert (maxDims = []) as -> by (apply len_0_nil; pose proof (len_nonneg maxDims); lia).
    cbn [negb andb]. set (n := 8 + _ + _). change (zeros n) with ([] ++ zeros n).
    rewrite putFields_ret by (subst n; fields_tac). cbn [obind map snd concat app].
    replace (n - _) with (5 + (n - 8)) by len_lia. rewrite <- zeros_app by lia.
    change (z2b 1 :: z2b (len dims) :: z2b 0 :: zeros 5 ++ zeros (n - 8))
      with ([z2b 1; z2b (len dims); z2b 0; x00; x00; x00; x00; x00] ++ zeros (n - 8)).
    rewrite putInts_cursor by (done || lia). cbn [obind].
    replace (zeros _) with (@nil byte) by (change (zeros 0 = zeros (n - 8 - Z.of_nat 8 * len dims)); f_equal; lia).
    unfold dataspaceBytes. change (intBytes 8 []) with (@nil byte). by rewrite !app_nil_r.
Qed.

(** ** The encoded layouts *)

Definition contiguousBytes (size addr : Z) (sb : Superblock) : bytes :=
  [z2b 3; z2b LayoutContiguous] ++ put_order (Endianness sb) (Z.to_nat (OffsetSize sb)) addr ++
  put_order (Endianness sb) (Z.to_nat (LengthSize sb)) size.

Definition chunkedBytes (dims : list Z) (addr : Z) (sb : Superblock) (es : Z) : bytes :=
  [z2b 3; z2b LayoutChunked; z2b (len dims + 1)] ++
  put_order (Endianness sb) (Z.to_nat (OffsetSize sb)) addr ++ intBytes 4 (dims ++ [es]).

Lemma validSize_range s : validSize s = true -> 1 <= s <= 8.
Proof. unfold validSize. repeat (ztest; cbn [orb]; try lia). Qed.

Lemma encodeContiguousLayout_ret size addr sb :
  validSize (OffsetSize sb) = true -> validSize (LengthSize sb) = true ->
  encodeContiguousLayout size addr sb = Ret (contiguousBytes size addr sb).
Proof.
  intros Ho Hl. pose proof (validSize_range _ Ho). pose proof (validSize_range _ Hl).
  unfold encodeContiguousLayout, contiguousBytes. cbv zeta. set (n := 2 + _ + _).
  change (zeros n) with ([] ++ zeros n). rewrite putFields_ret by (subst n; fields_tac). cbn [obind map snd concat app].
  replace (n - _) with (n - 2) by len_lia.
  change (z2b 3 :: z2b LayoutContiguous :: zeros (n - 2)) with ([z2b 3; z2b LayoutContiguous] ++ zeros (n - 2)).
  rewrite writeUint64_cursor by (done || lia). cbn [obind].
  rewrite writeUint64_cursor by (rewrite ?len_app, ?len_put_order, ?len_cons, ?len_nil; done || lia).
  replace (zeros _) with (@nil byte) by (change (zeros 0 = zeros (n - 2 - OffsetSize sb - LengthSize sb)); f_equal; lia).
  rewrite app_nil_r, <- app_assoc. done.
Qed.

Lemma encodeChunkedLayout_ret dims addr sb es :
  validSize (OffsetSize sb) = true -> 0 < len dims <= 254 -> Forall (is_u 32) dims ->
  encodeChunkedLayout dims addr sb es = Ret (chunkedBytes dims addr sb es).
Proof.
  intros Ho Hd Hf. pose proof (validSize_range _ Ho). unfold encodeChunkedLayout, chunkedBytes. cbv zeta.
  destruct (Z.eqb_spec (len dims) 0) as [Hz|_]; [lia|]. destruct (Z.gtb_spec (len dims + 1) 255) as [Hz|_]; [lia|].
  cbn [negb]. rewrite (proj2 (forallb_forall _ dims)).
  2: { intros x Hx%list_elem_of_In. rewrite Forall_forall in Hf. pose proof (Hf x Hx) as Hu. unfold is_u in Hu.
       destruct (Z.gtb_spec x 4294967295); [lia|done]. }
  set (n := 3 + _ + _). change (zeros n) with ([] ++ zeros n).
  rewrite putFields_ret by (subst n; fields_tac). cbn [obind map snd concat app].
  replace (n - _) with (n - 3) by len_lia.
  change (z2b 3 :: z2b LayoutChunked :: z2b (len dims + 1) :: zeros (n - 3))
    with ([z2b 3; z2b LayoutChunked; z2b (len dims + 1)] ++ zeros (n - 3)).
  rewrite writeUint64_cursor by (done || lia). cbn [obind].
  rewrite putInts_cursor by (rewrite ?len_app, ?len_put_order, ?len_cons, ?len_nil; lia). cbn [obind].
  rewrite put_le_cursor by (rewrite ?len_app, ?len_put_order, ?len_intBytes, ?len_cons, ?len_nil; lia).
  replace (zeros _) with (@nil byte) by
    (change (zeros 0 = zeros (n - 3 - OffsetSize sb - Z.of_nat 4 * len dims - Z.of_nat 4)); f_equal; lia).
  rewrite app_nil_r. unfold intBytes. rewrite map_app, concat_app. cbn [map concat]. rewrite app_nil_r, <- !app_assoc. done.
Qed.

Lemma readUint64_field data pre v post e size :
  data = pre ++ put_order e (Z.to_nat size) v ++ post -> validSize size = true -> 0 <= v < 256 ^ size ->
  exists rest, slice data (len pre) (len data) = Ret rest /\ readUint64 rest size e = Ret v.
Proof.
  intros -> Hs Hv. exists (put_order e (Z.to_nat size) v ++ post). split; [|by apply readUint64_at].
  rewrite (slice_at _ pre (put_order e (Z.to_nat size) v ++ post) []) by (rewrite ?app_nil_r; done || len_lia). done.
Qed.

(** [parseDataspaceMessage] on the bytes of a message. *)
Lemma parse_dataspace dims maxDims pad :
  0 < len dims <= 255 -> Forall (is_u 64) dims -> Forall (is_u 64) maxDims ->
  maxDims = [] \/ len maxDims = len dims ->
  ParseDataspaceMessage (dataspaceBytes dims maxDims ++ pad) = Ret (mkDataspace 1 DataspaceSimple dims maxDims).
Proof.
  intros Hd Hf Hfm Hm.
  set (b := len maxDims >? 0).
  assert (Hb : Z.of_nat 8 * len maxDims = if b then Z.of_nat 8 * len dims else 0).
  { subst b. destruct Hm as [-> | ->]; [done|]. by destruct (Z.gtb_spec (len dims) 0); [|lia]. }
  set (hd := [z2b 1; z2b (len dims); z2b (if b then 1 else 0); x00; x00; x00; x00; x00]).
  set (data := dataspaceBytes dims maxDims ++ pad).
  assert (Hdata : data = hd ++ intBytes 8 dims ++ intBytes 8 maxDims ++ pad)
    by (subst data; unfold dataspaceBytes; by rewrite <- !app_assoc).
  assert (Hl : len data = 8 + 8 * len dims + (if b then 8 * len dims else 0) + len pad).
  { rewrite Hdata, !len_app, !len_intBytes. change (len hd) with 8. destruct b; lia. }
  pose proof (len_nonneg pad). unfold ParseDataspaceMessage.
  assert (E0 : idx data 0 = Ret (z2b 1)) by by rewrite Hdata. assert (E1 : idx data 1 = Ret (z2b (len dims))) by by rewrite Hdata.
  assert (E2 : idx data 2 = Ret (z2b (if b then 1 else 0))) by by rewrite Hdata.
  destruct (Z.ltb_spec (len data) 2) as [Hz|_]; [destruct b; lia|]. cbn [negb]. rewrite E0. cbn [obind].
  change (b2z (z2b 1)) with 1. cbn [Z.eqb Pos.eqb negb andb]. rewrite E1. cbn [obind]. rewrite E2. cbn [obind].
  rewrite b2z_z2b_small, flags_bit by lia. destruct (Z.eqb_spec (len dims) 0) as [Hz|_]; [lia|].
  destruct (Z.geb_spec (len data) (8 + (if b then len dims * 2 else len dims) * 8)) as [_|Hz]; [|destruct b; lia].
  cbn [obind]. replace (Z.to_nat (len dims)) with (length dims) by (unfold len; lia).
  pose proof (readDims_ret 8 dims (or_intror eq_refl) data hd (intBytes 8 maxDims ++ pad) Hdata Hf) as R1.
  change (readDims (length dims) data 8 8 = Ret (dims, len (hd ++ intBytes 8 dims))) in R1. rewrite R1. cbn [obind].
  subst b. destruct (Z.gtb_spec (len maxDims) 0) as [Hg|Hg].
  - destruct Hm as [-> |Hm]; [unfold len in Hg; cbn in Hg; lia|].
    replace (length dims) with (length maxDims) by (unfold len in Hm; lia).
    pose proof (readDims_ret 8 maxDims (or_intror eq_refl) data (hd ++ intBytes 8 dims) pad) as R2.
    rewrite <- app_assoc in R2. specialize (R2 Hdata Hfm). change (Z.of_nat 8) with 8 in R2. by rewrite R2.
  - assert (maxDims = []) as -> by (apply len_0_nil; pose proof (len_nonneg maxDims); lia). done.
Qed.

(** ** Properties *)

(** The dataspace message round-trips for every rank from 1 to 255, with or
    without maximum dimensions, and whatever padding the object header adds
    after it. *)
Theorem dataspace_roundtrip dims maxDims pad :
  0 < len dims <= 255 -> Forall (is_u 64) dims -> Forall (is_u 64) maxDims ->
  maxDims = [] \/ len maxDims = len dims ->
  exists data, EncodeDataspaceMessage dims maxDims = Ret data /\
    ParseDataspaceMessage (data ++ pad) = Ret (mkDataspace 1 DataspaceSimple dims maxDims).
Proof.
  intros Hd Hf Hfm Hm. exists (dataspaceBytes dims maxDims). split; [by apply EncodeDataspaceMessage_ret|].
  by apply parse_dataspace.
Qed.

Example dataspace_roundtrip_witness :
  exists data, EncodeDataspaceMessage [10; 20] [10; MaxUint64] = Ret data /\
    ParseDataspaceMessage (data ++ [x00]) = Ret (mkDataspace 1 DataspaceSimple [10; 20] [10; MaxUint64]).
Proof.
  apply (dataspace_roundtrip [10; 20] [10; MaxUint64] [x00]).
  - unfold len. cbn. lia.
  - repeat constructor; vm_compute; congruence.
  - repeat constructor; vm_compute; congruence.
  - by right.
Defined.

(** The dataspace parser panics on exactly the two-byte messages of a known
    version: it tests for two bytes and then reads a third. *)
Theorem ParseDataspaceMessage_panics data :
  ParseDataspaceMessage data = Panic <-> exists v, data = [x01; v] \/ data = [x02; v].
Proof.
  split; [|by intros [v [-> | ->]]; destruct v].
  destruct data as [|a [|v [|f data]]]; try done.
  - unfold ParseDataspaceMessage. change (len [a; v] <? 2) with false. cbn [negb]. change (idx [a; v] 0) with (Ret a).
    cbn [obind]. intros Hp. exists v. destruct (Z.eqb_spec (b2z a) 1) as [E|]; [left; by apply (b2z_inj _ x01) in E as ->|].
    destruct (Z.eqb_spec (b2z a) 2) as [E|]; [right; by apply (b2z_inj _ x02) in E as ->|done].
  - intros Hp. exfalso. revert Hp. change (no_panic (ParseDataspaceMessage (a :: v :: f :: data))).
    unfold ParseDataspaceMessage. set (d := a :: v :: f :: data).
    destruct (Z.ltb_spec (len d) 2) as [Hz|_]; [apply no_panic_err|]. cbn [negb]. change (idx d 0) with (Ret a).
    change (idx d 1) with (Ret v). change (idx d 2) with (Ret f). cbn [obind].
    destruct (negb _ && negb _); cbn [negb]; [apply no_panic_err|].
    destruct (b2z v =? 0); [apply no_panic_ret|]. cbv zeta.
    set (o := if b2z a =? 1 then 8 else 4). assert (0 <= o) by (subst o; by destruct (_ =? 1)).
    apply obind_no_panic; [repeat case_match; apply no_panic_ret || apply no_panic_err|]. intros s Es.
    assert (s = 4 \/ s = 8) by (repeat case_match; simplify_eq; auto).
    destruct (readDims_no_panic (Z.to_nat (b2z v)) d o s) as [Hn Ho]; [done..|].
    apply obind_no_panic; [done|]. intros [r o'] Er. specialize (Ho _ _ Er).
    destruct (negb _); [|apply no_panic_ret].
    apply obind_no_panic; [by apply readDims_no_panic|]. intros [? ?] _. apply no_panic_ret.
Qed.

Lemma parse_contiguous size addr sb pad :
  validSize (OffsetSize sb) = true -> validSize (LengthSize sb) = true -> 0 <= Version sb < 4 ->
  0 <= size < 256 ^ LengthSize sb -> 0 <= addr < 256 ^ OffsetSize sb ->
  ParseDataLayoutMessage (contiguousBytes size addr sb ++ pad) sb =
    Ret (mkLayout 3 LayoutContiguous addr size [] [] 4).
Proof.
  intros Ho Hl Hv Hs Ha. pose proof (validSize_range _ Ho). pose proof (validSize_range _ Hl).
  set (hd := [z2b 3; z2b LayoutContiguous]). set (A := put_order (Endianness sb) (Z.to_nat (OffsetSize sb)) addr).
  set (data := contiguousBytes size addr sb ++ pad).
  assert (Hd : data = hd ++ A ++ put_order (Endianness sb) (Z.to_nat (LengthSize sb)) size ++ pad)
    by (subst data; unfold contiguousBytes; by rewrite <- !app_assoc).
  assert (HlA : len A = OffsetSize sb) by (subst A; rewrite len_put_order; lia).
  assert (Hlen : len data = 2 + OffsetSize sb + LengthSize sb + len pad).
  { rewrite Hd, !len_app, HlA, len_put_order. change (len hd) with 2. lia. }
  pose proof (len_nonneg pad).
  destruct (readUint64_field data hd addr _ (Endianness sb) (OffsetSize sb) Hd Ho Ha) as (r1 & S1 & R1).
  destruct (readUint64_field data (hd ++ A) size pad (Endianness sb) (LengthSize sb)) as (r2 & S2 & R2);
    [by rewrite Hd, <- app_assoc|done|done|]. rewrite len_app, HlA in S2. change (len hd) with 2 in *.
  unfold ParseDataLayoutMessage. assert (E0 : idx data 0 = Ret (z2b 3)) by by rewrite Hd.
  assert (E1 : idx data 1 = Ret (z2b 1)) by by rewrite Hd. clearbody data. clear Hd.
  destruct (Z.ltb_spec (len data) 1) as [Hz|_]; [lia|]. cbn [negb]. rewrite E0. cbn [obind].
  change (b2z (z2b 3)) with 3. cbn [Z.ltb Z.gtb Z.compare Pos.compare Pos.compare_cont orb negb Z.eqb Pos.eqb].
  unfold parseLayoutV3. destruct (Z.ltb_spec (len data) 2) as [Hz|_]; [lia|]. cbn [negb]. rewrite E1. cbn [obind].
  change (b2z (z2b 1)) with 1. change (1 =? LayoutCompact) with false. change (1 =? LayoutContiguous) with true. cbv iota zeta.
  destruct (Z.ltb_spec (len data) (2 + OffsetSize sb + LengthSize sb)) as [Hz|_]; [lia|]. cbn [negb].
  rewrite S1. cbn [obind]. rewrite R1. cbn [obind]. rewrite S2. cbn [obind]. rewrite R2. cbn [obind].
  unfold determineChunkKeySize. by destruct (Z.geb_spec (Version sb) 4); [lia|].
Qed.

Lemma parse_chunked dims addr sb es pad :
  validSize (OffsetSize sb) = true -> 0 <= Version sb < 4 -> 0 < len dims <= 254 -> Forall (is_u 32) dims ->
  is_u 32 es -> 0 <= addr < 256 ^ OffsetSize sb ->
  ParseDataLayoutMessage (chunkedBytes dims addr sb es ++ pad) sb =
    Ret (mkLayout 3 LayoutChunked addr 0 [] (dims ++ [es]) 4).
Proof.
  intros Ho Hv Hdim Hf He Ha. pose proof (validSize_range _ Ho).
  set (hd := [z2b 3; z2b LayoutChunked; z2b (len dims + 1)]).
  set (A := put_order (Endianness sb) (Z.to_nat (OffsetSize sb)) addr).
  set (data := chunkedBytes dims addr sb es ++ pad).
  assert (Hd : data = hd ++ A ++ intBytes 4 (dims ++ [es]) ++ pad)
    by (subst data; unfold chunkedBytes; by rewrite <- !app_assoc).
  assert (HlA : len A = OffsetSize sb) by (subst A; rewrite len_put_order; lia).
  assert (Hlen : len data = 3 + OffsetSize sb + 4 * (len dims + 1) + len pad).
  { rewrite Hd, !len_app, HlA, len_intBytes, len_app. change (len hd) with 3. change (len [es]) with 1. lia. }
  pose proof (len_nonneg pad).
  destruct (readUint64_field data hd addr _ (Endianness sb) (OffsetSize sb) Hd Ho Ha) as (r1 & S1 & R1).
  pose proof (readChunkDims_ret 4 (dims ++ [es]) data (hd ++ A) pad) as RD.
  rewrite len_app, HlA in RD. change (len hd) with 3 in *.
  specialize (RD ltac:(by rewrite Hd, <- app_assoc)). rewrite Forall_app, Forall_singleton in RD. specialize (RD (conj Hf He)).
  unfold ParseDataLayoutMessage. assert (E0 : idx data 0 = Ret (z2b 3)) by by rewrite Hd.
  assert (E1 : idx data 1 = Ret (z2b 2)) by by rewrite Hd.
  assert (E2 : idx data 2 = Ret (z2b (len dims + 1))) by by rewrite Hd. clearbody data. clear Hd.
  destruct (Z.ltb_spec (len data) 1) as [Hz|_]; [lia|]. cbn [negb]. rewrite E0. cbn [obind].
  change (b2z (z2b 3)) with 3. cbn [Z.ltb Z.gtb Z.compare Pos.compare Pos.compare_cont orb negb Z.eqb Pos.eqb].
  unfold parseLayoutV3. destruct (Z.ltb_spec (len data) 2) as [Hz|_]; [lia|]. cbn [negb]. rewrite E1. cbn [obind].
  change (b2z (z2b 2)) with 2. change (2 =? LayoutCompact) with false. change (2 =? LayoutContiguous) with false.
  change (2 =? LayoutChunked) with true. cbv iota zeta.
  destruct (Z.ltb_spec (len data) 3) as [Hz|_]; [lia|]. cbn [negb]. rewrite E2. cbn [obind].
  destruct (Z.gtb_spec (3 + OffsetSize sb) (len data)) as [Hz|_]; [lia|]. cbn [negb].
  rewrite S1. cbn [obind]. rewrite R1. cbn [obind]. rewrite b2z_z2b_small by lia.
  replace (Z.to_nat (len dims + 1)) with (length (dims ++ [es])) by (rewrite length_app; unfold len; cbn; lia).
  unfold determineChunkKeySize. destruct (Z.geb_spec (Version sb) 4); [lia|]. cbn [Z.eqb Pos.eqb]. by rewrite RD.
Qed.

(** The data layout message round-trips for both layouts the writer
    produces, any offset and length sizes (1, 2, 4, 8), both byte orders and
    any padding: contiguous with its address and size, chunked with the index
    address and the chunk dimensions followed by the element size. *)
Theorem layout_roundtrip sb pad :
  validSize (OffsetSize sb) = true -> validSize (LengthSize sb) = true -> 0 <= Version sb < 4 ->
  (forall size addr, 0 <= size < 256 ^ LengthSize sb -> 0 <= addr < 256 ^ OffsetSize sb ->
     exists data, EncodeLayoutMessage LayoutContiguous size addr sb [] 0 = Ret data /\
       ParseDataLayoutMessage (data ++ pad) sb = Ret (mkLayout 3 LayoutContiguous addr size [] [] 4)) /\
  (forall dims addr es, 0 < len dims <= 254 -> Forall (is_u 32) dims -> is_u 32 es -> 0 <= addr < 256 ^ OffsetSize sb ->
     exists data, EncodeLayoutMessage LayoutChunked 0 addr sb dims es = Ret data /\
       ParseDataLayoutMessage (data ++ pad) sb = Ret (mkLayout 3 LayoutChunked addr 0 [] (dims ++ [es]) 4)).
Proof.
  intros Ho Hl Hv. split.
  - intros size addr Hs Ha. exists (contiguousBytes size addr sb). split; [by apply encodeContiguousLayout_ret|].
    by apply parse_contiguous.
  - intros dims addr es Hd Hf He Ha. exists (chunkedBytes dims addr sb es). split; [|by apply parse_chunked].
    unfold EncodeLayoutMessage. cbn [LayoutChunked LayoutContiguous Z.eqb Pos.eqb].
    destruct (Z.eqb_spec (len dims) 0); [lia|]. by apply encodeChunkedLayout_ret.
Qed.

Example layout_roundtrip_witness :
  let sb := mkSuperblock 2 8 8 0 48 LittleEndian 0 0 0 0 in
  exists data, EncodeLayoutMessage LayoutChunked 0 4096 sb [10; 20] 8 = Ret data /\
    ParseDataLayoutMessage (data ++ []) sb = Ret (mkLayout 3 LayoutChunked 4096 0 [] [10; 20; 8] 4).
Proof.
  intros sb. apply (layout_roundtrip sb []).
  1-2: reflexivity.
  - split; vm_compute; congruence.
  - split; vm_compute; congruence.
  - repeat constructor; vm_compute; congruence.
  - split; vm_compute; congruence.
  - split; vm_compute; congruence.
Defined.

(** The layout parser panics on exactly the compact messages whose size
    field is 65532 or more (and whose data is there): the upper bound of the
    data slice is computed in 16 bits and wraps. *)
Theorem ParseDataLayoutMessage_panics data sb :
  0 <= OffsetSize sb -> 0 <= LengthSize sb ->
  ParseDataLayoutMessage data sb = Panic <->
  exists v size, idx data 0 = Ret v /\ (v = x03 \/ v = x04) /\ idx data 1 = Ret x00 /\ get_le 2 data 2 = Ret size /\
    65532 <= size /\ 4 + size <= len data.
Proof.
  intros Ho Hl. unfold ParseDataLayoutMessage, parseLayoutV4. split.
  - destruct (Z.ltb_spec (len data) 1) as [|Hn]; [done|]. cbn [negb].
    destruct (idx_in_range data 0) as [v E0]; [lia|]. rewrite E0. cbn [obind]. cbv zeta.
    destruct ((b2z v <? 3) || (b2z v >? 4)) eqn:Ev; [done|]. cbn [negb].
    assert (Hv : v = x03 \/ v = x04).
    { apply orb_false_iff in Ev as [E1 E2]. apply Z.ltb_ge in E1. rewrite Z.gtb_ltb in E2. apply Z.ltb_ge in E2.
      assert (b2z v = 3 \/ b2z v = 4) as [E|E] by lia; [left|right]; by apply b2z_inj. }
    intros H. assert (Hp : exists k, parseLayoutV3 data sb (b2z v) k = Panic) by (destruct (b2z v =? 3); eauto).
    clear H. destruct Hp as [k Hp]. revert Hp. unfold parseLayoutV3.
    destruct (Z.ltb_spec (len data) 2); [done|]. cbn [negb]. destruct (idx_in_range data 1) as [c E1]; [lia|].
    rewrite E1. cbn [obind]. cbv zeta. destruct (Z.eqb_spec (b2z c) LayoutCompact) as [Hc|_].
    + destruct (Z.ltb_spec (len data) 4); [done|]. cbn [negb].
      destruct (get_le_in_range 2 data 2) as (size & Eg & Hsz); [lia..|]. rewrite Eg. cbn [obind].
      destruct (Z.ltb_spec (len data) (4 + size)); [done|]. cbn [negb]. intros Hp. exists v, size.
      split_and!; try done; [by rewrite (b2z_inj c x00)|].
      destruct (Z.le_gt_cases 65532 size); [done|]. rewrite u16_id in Hp by (unfold is_u; lia).
      rewrite slice_ret in Hp by lia. done.
    + intros Hp. exfalso. revert Hp.
      destruct (_ =? LayoutContiguous).
      * destruct (Z.ltb_spec (len data) (2 + OffsetSize sb + LengthSize sb)); [done|]. cbn [negb].
        rewrite slice_ret by lia. cbn [obind]. edestruct readUint64_total as [? ->]; [exact Ho|]. cbn [obind].
        rewrite slice_ret by lia. cbn [obind]. by edestruct readUint64_total as [? ->]; [exact Hl|].
      * destruct (_ =? LayoutChunked); [|done].
        destruct (Z.ltb_spec (len data) 3); [done|]. cbn [negb]. destruct (idx_in_range data 2) as [d E2]; [lia|].
        rewrite E2. cbn [obind]. destruct (Z.gtb_spec (3 + OffsetSize sb) (len data)); [done|]. cbn [negb].
        rewrite slice_ret by lia. cbn [obind]. edestruct readUint64_total as [? ->]; [exact Ho|]. cbn [obind].
        apply obind_no_panic; [apply readChunkDims_no_panic; lia|]. intros; apply no_panic_ret.
  - intros (v & size & E0 & Hv & E1 & Eg & Hs & Hlen).
    assert (size < 65536).
    { destruct (get_le_in_range 2 data 2) as (s' & Es & ?); [lia..|]. rewrite Eg in Es. injection Es as ->. lia. }
    destruct (Z.ltb_spec (len data) 1); [lia|]. cbn [negb]. rewrite E0. cbn [obind]. cbv zeta.
    assert (E : forall version k, parseLayoutV3 data sb version k = Panic).
    { intros version k. unfold parseLayoutV3. destruct (Z.ltb_spec (len data) 2); [lia|]. cbn [negb]. rewrite E1. cbn [obind].
      change (b2z x00 =? LayoutCompact) with true. cbv iota zeta. destruct (Z.ltb_spec (len data) 4); [lia|]. cbn [negb].
      rewrite Eg. cbn [obind]. destruct (Z.ltb_spec (len data) (4 + size)); [lia|]. cbn [negb].
      replace (u16 (4 + size)) with (4 + size - 65536) by (unfold u16; apply Z.mod_unique with 1; lia).
      unfold slice. destruct (Z.leb_spec 4 (4 + size - 65536)); [lia|]. by rewrite andb_false_r. }
    destruct Hv as [-> | ->]; cbn -[parseLayoutV3]; by rewrite E.
Qed.

Example ParseDataLayoutMessage_panics_witness :
  ParseDataLayoutMessage ([x03; x00; xfc; xff] ++ zeros 65532) (mkSuperblock 2 8 8 0 48 LittleEndian 0 0 0 0) = Panic.
Proof.
  apply ParseDataLayoutMessage_panics; [vm_compute; congruence..|]. exists x03, 65532.
  split; [reflexivity|]. split; [left; reflexivity|]. split; [reflexivity|]. split; [reflexivity|].
  split; vm_compute; congruence.
Defined.

(** The rank is stored in one byte and not tested: encoding a dataspace of
    256 or more dimensions panics. *)
Theorem EncodeDataspaceMessage_high_rank dims :
  256 <= len dims -> EncodeDataspaceMessage dims [] = Panic.
Proof.
  intros Hd. unfold EncodeDataspaceMessage. cbv zeta. destruct (Z.eqb_spec (len dims) 0) as [Hz|_]; [lia|].
  change (len (@nil Z) >? 0) with false. cbn [negb andb]. cbv iota. pose proof (u8_range (len dims)) as Hr. unfold is_u in Hr.
  set (n := 8 + _ + _). change (zeros n) with ([] ++ zeros n).
  rewrite putFields_ret by (subst n; fields_tac). cbn [obind map snd concat app].
  rewrite putInts_panic; [done|lia|intros ->; unfold len in Hd; cbn in Hd; lia|].
  rewrite !len_cons, len_zeros; [|len_lia]. autorewrite with len. subst n. lia.
Qed.

Example EncodeDataspaceMessage_high_rank_witness : EncodeDataspaceMessage (replicate 256 1) [] = Panic.
Proof. apply EncodeDataspaceMessage_high_rank. vm_compute. congruence. Defined.
