(* ===== verification/ObjectHeader.v ===== *)
(** * Object headers: internal/core/objectheader.go, objectheader_v1.go and
    objectheader_write.go

    The parser of version 1 and 2 headers with their continuation blocks, and
    the writers.  Attributes, which [ReadObjectHeader] parses last and whose
    errors it ignores, are not part of the model. *)

From S2P Require Import Prelude Allocator Storage Checksum Superblock Messages.

(** ** Data *)

Definition MsgNil : Z := 0.
Definition MsgDataspace : Z := 1.
Definition MsgLinkInfo : Z := 2.
Definition MsgDatatype : Z := 3.
Definition MsgLinkMessage : Z := 6.
Definition MsgDataLayout : Z := 8.
Definition MsgFilterPipeline : Z := 11.
Definition MsgAttribute : Z := 12.
Definition MsgName : Z := 13.
Definition MsgContinuation : Z := 16.
Definition MsgSymbolTable : Z := 17.
Definition MsgRefCount : Z := 22.

Inductive ObjectType := ObjectTypeGroup | ObjectTypeDataset | ObjectTypeDatatype | ObjectTypeUnknown.

Record HeaderMessage := mkMsg {
  mType : Z;
  mOffset : Z;
  mData : bytes;
  FromContinuation : bool }.

Record ObjectHeader := mkHeader {
  hVersion : Z;
  hFlags : Z;
  hType : ObjectType;
  hMessages : list HeaderMessage;
  hName : bytes;
  ReferenceCount : Z }.

(** ** Reading version 2 *)

Definition order_of (isBE : bool) : ByteOrder := if isBE then BigEndian else LittleEndian.

(** The message loop of a header and of a continuation block.  Every message
    read lies in the file, so that a file of [n] bytes needs at most [n] + 1
    rounds. *)
Fixpoint parseMessages (fuel : nat) (file : bytes) (current end_ msgHeaderSize : Z) (isBE : bool) (name : bytes)
    : outcome (list HeaderMessage * bytes) :=
  if current <? end_ then
    match fuel with
    | O => Panic
    | S fuel =>
        let! headerBuf := read_at file (i64 current) 6 in
        let! t := idx headerBuf 0 in
        let msgType := b2z t in
        let! sz := slice headerBuf 1 3 in
        let msgSize := get_order (order_of isBE) sz in
        if msgSize =? 0 then parseMessages fuel file (u64 (current + msgHeaderSize)) end_ msgHeaderSize isBE name
        else
          let! data := read_at file (i64 (u64 (current + msgHeaderSize))) msgSize in
          let name := if (msgType =? MsgName) && (len data >? 1) then drop 1 data else name in
          let! (messages, name) :=
            parseMessages fuel file (u64 (current + u64 (msgHeaderSize + msgSize))) end_ msgHeaderSize isBE name in
          Ret (mkMsg msgType current data false :: messages, name)
    end
  else Ret ([], name).

Definition headerSizeOf (flags : Z) : Z := if negb (Z.land flags 4 =? 0) then 6 else 4.

Definition ochk_sig : bytes := String.list_byte_of_string "OCHK".
Definition ohdr_sig : bytes := String.list_byte_of_string "OHDR".

Definition parseV2ContinuationBlock (file : bytes) (blockAddr blockSize flags : Z) (isBE : bool)
    : outcome (list HeaderMessage * bytes) :=
  guard negb (blockSize <? 8) else "OCHK block too small";;
  let! sigBuf := read_at file (i64 blockAddr) 4 in
  guard bool_decide (sigBuf = ochk_sig) else "invalid OCHK signature";;
  let msgStart := u64 (blockAddr + 4) in
  let msgEnd := u64 (u64 (blockAddr + blockSize) - 4) in
  parseMessages (S (length file)) file msgStart msgEnd (headerSizeOf flags) isBE [].

(** Continuation messages: address and size of the block. *)
Definition readSized (data : bytes) (offset size : Z) (e : ByteOrder) (msg : string) : outcome Z :=
  if size =? 1 then let! b := idx data offset in Ret (b2z b)
  else if (size =? 2) || (size =? 4) || (size =? 8) then
    let! d := slice data offset (offset + size) in Ret (get_order e d)
  else Err msg.

Definition parseContinuationMessage (data : bytes) (sb : Superblock) : outcome (Z * Z) :=
  let minSize := u8 (OffsetSize sb + LengthSize sb) in
  guard negb (len data <? minSize) else "continuation message too small";;
  let! address := readSized data 0 (OffsetSize sb) (Endianness sb) "invalid offset size" in
  let! size := readSized data (OffsetSize sb) (LengthSize sb) (Endianness sb) "invalid length size" in
  guard negb (size =? 0) else "invalid continuation block size: 0";;
  Ret (address, size).

(** Invalid continuation messages are skipped. *)
Fixpoint findContinuations (messages : list HeaderMessage) (sb : Superblock) : outcome (list (Z * Z)) :=
  match messages with
  | [] => Ret []
  | msg :: rest =>
      if (mType msg =? MsgContinuation) && (len (mData msg) >? 0) then
        match parseContinuationMessage (mData msg) sb with
        | Ret c => let! r := findContinuations rest sb in Ret (c :: r)
        | Err _ => findContinuations rest sb
        | Panic => Panic
        end
      else findContinuations rest sb
  end.

Definition markContinuation (m : HeaderMessage) : HeaderMessage := mkMsg (mType m) (mOffset m) (mData m) true.

(** The queue of continuation blocks, with the parser of a block as argument:
    the loop is the same for both versions. *)
Fixpoint followContinuations (fuel : nat) (parseBlock : Z -> Z -> outcome (list HeaderMessage * bytes))
    (sb : Superblock) (continuations : list (Z * Z)) (messages : list HeaderMessage) (name : bytes)
    : outcome (list HeaderMessage * bytes) :=
  match continuations with
  | [] => Ret (messages, name)
  | (address, size) :: continuations =>
      match fuel with
      | O => Panic
      | S fuel =>
          let! (contMessages, contName) := parseBlock address size in
          let contMessages := map markContinuation contMessages in
          let name := if negb (len contName =? 0) && (len name =? 0) then contName else name in
          let! newConts := findContinuations contMessages sb in
          followContinuations fuel parseBlock sb (continuations ++ newConts) (messages ++ contMessages) name
      end
  end.

Definition parseV2Header (fuel : nat) (file : bytes) (headerAddr flags : Z) (sb : Superblock) (isBE : bool)
    : outcome (list HeaderMessage * bytes) :=
  let current := u64 (headerAddr + 6) in
  let current := if negb (Z.land flags 32 =? 0) then u64 (current + 16) else current in
  let current := if negb (Z.land flags 16 =? 0) then u64 (current + 4) else current in
  let chunkSizeBytes := Z.shiftl 1 (Z.land flags 3) in
  let! sizeBuf := read_at file (i64 current) chunkSizeBytes in
  let chunkSize := get_order (order_of isBE) sizeBuf in
  let current := u64 (current + chunkSizeBytes) in
  let end_ := u64 (current + chunkSize) in
  let! (messages, name) := parseMessages (S (length file)) file current end_ (headerSizeOf flags) isBE [] in
  let! continuations := findContinuations messages sb in
  followContinuations fuel (fun a s => parseV2ContinuationBlock file a s flags isBE) sb continuations messages name.

(** ** Reading version 1 *)

(** The name up to its first zero byte. *)
Fixpoint untilZero (bs : bytes) : bytes :=
  match bs with
  | [] => []
  | b :: r => if b2z b =? 0 then [] else b :: untilZero r
  end.

(** End of file ends the block, another read error is reported. *)
Fixpoint parseV1MessagesInBlock (fuel : nat) (file : bytes) (current end_ messageCount maxMessages : Z)
    (sb : Superblock) (name : bytes) : outcome (list HeaderMessage * bytes) :=
  if current <? end_ then
    match fuel with
    | O => Panic
    | S fuel =>
        if messageCount >=? maxMessages then Ret ([], name)
        else if u64 (current + 8) >? end_ then Ret ([], name)
        else if i64 current <? 0 then Err "message header read failed"
        else
          match read_at file (i64 current) 8 with
          | Ret hdr =>
              let! t := slice hdr 0 2 in
              let msgType := get_order (Endianness sb) t in
              let! s := slice hdr 2 4 in
              let msgSize := get_order (Endianness sb) s in
              if msgSize =? 0 then
                parseV1MessagesInBlock fuel file (u64 (current + 8)) end_ messageCount maxMessages sb name
              else if u64 (u64 (current + 8) + msgSize) >? end_ then Ret ([], name)
              else if i64 (u64 (current + 8)) <? 0 then Err "message data read failed"
              else
                match read_at file (i64 (u64 (current + 8))) msgSize with
                | Ret data =>
                    let name := if (msgType =? MsgName) && (len data >? 0) then untilZero data else name in
                    let msgTotalSize := 8 + msgSize in
                    let msgTotalSize :=
                      if negb (msgTotalSize mod 8 =? 0) then msgTotalSize + (8 - msgTotalSize mod 8) else msgTotalSize in
                    let! (messages, name) :=
                      parseV1MessagesInBlock fuel file (u64 (current + msgTotalSize)) end_ (u16 (messageCount + 1))
                        maxMessages sb name in
                    Ret (mkMsg msgType current data false :: messages, name)
                | _ => Ret ([], name)
                end
          | _ => Ret ([], name)
          end
    end
  else Ret ([], name).

Definition parseV1ContinuationBlock (file : bytes) (blockAddr blockSize : Z) (sb : Superblock)
    : outcome (list HeaderMessage * bytes) :=
  parseV1MessagesInBlock (S (length file)) file blockAddr (u64 (blockAddr + blockSize)) 0 65535 sb [].

Definition parseV1Header (fuel : nat) (file : bytes) (headerAddr : Z) (sb : Superblock)
    : outcome (list HeaderMessage * bytes * Z) :=
  let! headerBuf := read_at file (i64 headerAddr) 16 in
  let! v := idx headerBuf 0 in
  if negb (b2z v =? 1) then Ret ([], [], 0)
  else
    let! n := slice headerBuf 2 4 in
    let numMessages := get_order (Endianness sb) n in
    let! c := slice headerBuf 4 8 in
    let refCount := get_order (Endianness sb) c in
    let! h := slice headerBuf 8 12 in
    let headerSize := get_order (Endianness sb) h in
    let current := u64 (headerAddr + 16) in
    let end_ := u64 (u64 (headerAddr + 16) + headerSize) in
    let! (messages, name) := parseV1MessagesInBlock (S (length file)) file current end_ 0 numMessages sb [] in
    let! continuations := findContinuations messages sb in
    let! (messages, name) :=
      followContinuations fuel (fun a s => parseV1ContinuationBlock file a s sb) sb continuations messages name in
    Ret (messages, name, refCount).

(** ** Reading a header *)

Fixpoint firstType (messages : list HeaderMessage) : option ObjectType :=
  match messages with
  | [] => None
  | msg :: rest =>
      if (mType msg =? MsgSymbolTable) || (mType msg =? MsgLinkInfo) || (mType msg =? MsgLinkMessage)
      then Some ObjectTypeGroup
      else if mType msg =? MsgDataspace then Some ObjectTypeDataset
      else firstType rest
  end.

Definition determineObjectType (messages : list HeaderMessage) : ObjectType :=
  match firstType messages with
  | Some t => t
  | None => if existsb (fun msg => mType msg =? MsgDatatype) messages then ObjectTypeDatatype else ObjectTypeUnknown
  end.

(** The first reference count message long enough. *)
Fixpoint refCountOf (messages : list HeaderMessage) (sb : Superblock) (default : Z) : outcome Z :=
  match messages with
  | [] => Ret default
  | msg :: rest =>
      if (mType msg =? MsgRefCount) && (len (mData msg) >=? 4) then
        let! d := slice (mData msg) 0 4 in Ret (get_order (Endianness sb) d)
      else refCountOf rest sb default
  end.

(** Version, flags and byte order from the 8-byte prefix. *)
Definition headerKind (prefix : bytes) : outcome (Z * Z * bool) :=
  let! sig := slice prefix 0 4 in
  if bool_decide (sig = ohdr_sig) then
    let! v := idx prefix 4 in let! f := idx prefix 5 in Ret (b2z v, b2z f, false)
  else if bool_decide (rev sig = ohdr_sig) then
    let! v := idx prefix 7 in let! f := idx prefix 6 in Ret (b2z v, b2z f, true)
  else
    let! p0 := idx prefix 0 in
    let! p1 := idx prefix 1 in
    if (b2z p0 =? 1) && (b2z p1 =? 0) then Ret (1, 0, false) else Err "invalid object header signature".

(** [fuel] bounds the number of continuation blocks followed. *)
Definition ReadObjectHeader (fuel : nat) (file : bytes) (address : Z) (sb : Superblock) : outcome ObjectHeader :=
  let offset := i64 address in
  guard negb (offset <? 0) else "negative offset";;
  let! prefix := read_at file offset 8 in
  let! (version, flags, isBE) := headerKind prefix in
  if version =? 1 then
    let! (messages, name, refCount) := parseV1Header fuel file address sb in
    Ret (mkHeader version flags (determineObjectType messages) messages name refCount)
  else if version =? 2 then
    let! (messages, name) := parseV2Header fuel file address flags sb isBE in
    let! refCount := refCountOf messages sb 1 in
    Ret (mkHeader version flags (determineObjectType messages) messages name refCount)
  else Err "unsupported object header version".

Definition IncrementReferenceCount (oh : ObjectHeader) : Z * ObjectHeader :=
  let c := u32 (ReferenceCount oh + 1) in
  (c, mkHeader (hVersion oh) (hFlags oh) (hType oh) (hMessages oh) (hName oh) c).

Definition DecrementReferenceCount (oh : ObjectHeader) : Z * ObjectHeader :=
  let c := if ReferenceCount oh >? 0 then ReferenceCount oh - 1 else ReferenceCount oh in
  (c, mkHeader (hVersion oh) (hFlags oh) (hType oh) (hMessages oh) (hName oh) c).

Definition GetReferenceCount (oh : ObjectHeader) : Z := ReferenceCount oh.

(** ** Writing *)

Abbreviation MessageWriter := (Z * bytes)%type.

Record ObjectHeaderWriter := mkHeaderWriter {
  wVersion : Z;
  wFlags : Z;
  Messages : list MessageWriter;
  RefCount : Z }.

Definition UndefAddress : Z := MaxUint64.

Definition NewMinimalRootGroupHeader : outcome ObjectHeaderWriter :=
  let! linkInfoData := putFields (zeros 18)
    [(0, [z2b 0]); (1, [z2b 0]); (2, le_put 8 UndefAddress); (10, le_put 8 UndefAddress)] in
  Ret (mkHeaderWriter 2 0 [(MsgLinkInfo, linkInfoData)] 0).

Definition MinOHDRAllocSize : Z := 256.

(** Sum of the message sizes; one message takes [size n] bytes for [n] of data. *)
Definition sumSizes (size : Z -> Z) (messages : list MessageWriter) : Z :=
  fold_left (fun t '(_, d) => u64 (t + size (len d))) messages 0.

Definition sizeV2Msg (n : Z) : Z := 1 + 2 + 1 + n.
Definition sizeV1Msg (n : Z) : Z :=
  let msgSize := 8 + n in
  if negb (msgSize mod 8 =? 0) then msgSize + (8 - msgSize mod 8) else msgSize.

Definition chunkSizeFieldWidth (chunkSize : Z) : Z :=
  if chunkSize <=? 255 then 1 else if chunkSize <=? 65535 then 2 else if chunkSize <=? 4294967295 then 4 else 8.

Definition sizeV1 (ohw : ObjectHeaderWriter) : Z := u64 (16 + sumSizes sizeV1Msg (Messages ohw)).

Definition sizeV2 (ohw : ObjectHeaderWriter) : Z :=
  let messageDataSize := sumSizes sizeV2Msg (Messages ohw) in
  u64 (4 + 1 + 1 + chunkSizeFieldWidth messageDataSize + messageDataSize + 4).

(** An unsupported version panics. *)
Definition Size_ (ohw : ObjectHeaderWriter) : outcome Z :=
  if wVersion ohw =? 1 then Ret (sizeV1 ohw) else if wVersion ohw =? 2 then Ret (sizeV2 ohw) else Panic.

Definition PadToSize (ohw : ObjectHeaderWriter) (minSize : Z) : outcome ObjectHeaderWriter :=
  let! currentSize := Size_ ohw in
  if currentSize >=? minSize then Ret ohw
  else
    let needed := minSize - currentSize in
    let msgOverhead := if wVersion ohw =? 1 then 8 else 4 in
    let needed := if needed <=? msgOverhead then msgOverhead + 1 else needed in
    let paddingDataSize := needed - msgOverhead in
    Ret (mkHeaderWriter (wVersion ohw) (wFlags ohw) (Messages ohw ++ [(MsgNil, zeros paddingDataSize)]) (RefCount ohw)).

(** [writeChunkSize(buf[offset:], chunkSize, width)]. *)
Definition writeChunkSize (buf : bytes) (offset chunkSize width : Z) : outcome bytes :=
  if (width =? 1) || (width =? 2) || (width =? 4) || (width =? 8)
  then put_bytes buf offset (le_put (Z.to_nat width) chunkSize) else Ret buf.

(** The messages from [offset] on, in the format of version 2 and of
    continuation blocks; the length is stored in 16 bits. *)
Fixpoint putMessages (messages : list MessageWriter) (buf : bytes) (offset : Z) : outcome (bytes * Z) :=
  match messages with
  | [] => Ret (buf, offset)
  | (t, d) :: rest =>
      let! buf := put_bytes buf offset [z2b t] in
      let! buf := put_le 2 buf (offset + 1) (len d) in
      let! buf := put_bytes buf (offset + 3) [x00] in
      let! buf := put_bytes buf (offset + 4) d in
      putMessages rest buf (offset + 4 + len d)
  end.

Definition flagsBits (csWidth : Z) : Z :=
  if csWidth =? 1 then 0 else if csWidth =? 2 then 1 else if csWidth =? 4 then 2 else if csWidth =? 8 then 3 else 0.

(** The buffer of [writeToV2], with its size. *)
Definition encodeV2 (ohw : ObjectHeaderWriter) : outcome (Z * bytes) :=
  let messageDataSize := sumSizes sizeV2Msg (Messages ohw) in
  let chunkSize := messageDataSize in
  let csWidth := chunkSizeFieldWidth chunkSize in
  let flags := Z.lor (Z.land (wFlags ohw) 252) (flagsBits csWidth) in
  let headerSize := u64 (4 + 1 + 1 + csWidth + messageDataSize + 4) in
  let! buf := putFields (zeros headerSize) [(0, ohdr_sig); (4, [z2b (wVersion ohw)]); (5, [z2b flags])] in
  let! buf := writeChunkSize buf 6 chunkSize csWidth in
  let! (buf, offset) := putMessages (Messages ohw) buf (6 + csWidth) in
  let! head := slice buf 0 offset in
  let! checksum := JenkinsChecksum head in
  let! buf := put_le 4 buf offset checksum in
  Ret (headerSize, buf).

Definition writeToV2 (ohw : ObjectHeaderWriter) (file : bytes) (address : Z) : outcome (Z * bytes) :=
  let! (headerSize, buf) := encodeV2 ohw in
  let! file := os_write_at file (i64 address) buf in
  Ret (headerSize, file).

(** Version 1 messages: 8-byte header, data padded to 8 bytes. *)
Fixpoint putMessagesV1 (messages : list MessageWriter) (buf : bytes) (offset : Z) : outcome bytes :=
  match messages with
  | [] => Ret buf
  | (t, d) :: rest =>
      let! buf := put_le 2 buf offset t in
      let! buf := put_le 2 buf (offset + 2) (len d) in
      let! buf := put_bytes buf (offset + 4) [x00] in
      let! buf := put_bytes buf (offset + 8) d in
      putMessagesV1 rest buf (offset + sizeV1Msg (len d))
  end.

(** The buffer of [writeToV1], with its size. *)
Definition encodeV1 (ohw : ObjectHeaderWriter) : outcome (Z * bytes) :=
  let totalSize := sizeV1 ohw in
  let objectHeaderSize := u32 (16 + len (Messages ohw) * 8) in
  let! buf := putFields (zeros totalSize)
    [(0, [z2b 1]); (1, [z2b 0]); (2, le_put 2 (len (Messages ohw))); (4, le_put 4 (RefCount ohw));
     (8, le_put 4 objectHeaderSize)] in
  let! buf := putMessagesV1 (Messages ohw) buf 16 in
  Ret (totalSize, buf).

Definition writeToV1 (ohw : ObjectHeaderWriter) (file : bytes) (address : Z) : outcome (Z * bytes) :=
  let! (totalSize, buf) := encodeV1 ohw in
  let! file := os_write_at file (i64 address) buf in
  Ret (totalSize, file).

Definition headerWriteTo (ohw : ObjectHeaderWriter) (file : bytes) (address : Z) : outcome (Z * bytes) :=
  if wVersion ohw =? 1 then writeToV1 ohw file address
  else if wVersion ohw =? 2 then writeToV2 ohw file address
  else Err "unsupported object header version".

(** [WriteTo] on any storage. *)
Definition storeHeader `{Storage St} (ohw : ObjectHeaderWriter) (st : St) (address : Z) : outcome (Z * St) :=
  let! (size, buf) := (if wVersion ohw =? 1 then encodeV1 ohw
                       else if wVersion ohw =? 2 then encodeV2 ohw
                       else Err "unsupported object header version") in
  let! st := write_to st buf address in
  Ret (size, st).

Definition AddMessageToObjectHeader (oh : ObjectHeader) (msgType : Z) (msgData : bytes) : outcome ObjectHeader :=
  guard hVersion oh =? 2 else "only object header version 2 is supported for modification";;
  Ret (mkHeader (hVersion oh) (hFlags oh) (hType oh) (hMessages oh ++ [mkMsg msgType 0 msgData false]) (hName oh)
         (ReferenceCount oh)).

Definition messagesOf (oh : ObjectHeader) : list MessageWriter := map (fun m => (mType m, mData m)) (hMessages oh).

Definition WriteObjectHeader (file : bytes) (addr : Z) (oh : ObjectHeader) : outcome bytes :=
  guard hVersion oh =? 2 else "only object header version 2 is supported for writing";;
  let ohw := mkHeaderWriter (hVersion oh) (hFlags oh) (messagesOf oh) 0 in
  let! (_, file) := headerWriteTo ohw file addr in
  Ret file.

Definition ObjectHeaderSizeFromParsed (oh : ObjectHeader) : outcome Z :=
  if negb (hVersion oh =? 1) && negb (hVersion oh =? 2) then Ret 0
  else Size_ (mkHeaderWriter (hVersion oh) (hFlags oh) (messagesOf oh) 0).

(** [OffsetSize + LengthSize] is a [uint8] sum. *)
Definition putSized (buf : bytes) (offset size v : Z) : outcome bytes :=
  if size =? 2 then put_le 2 buf offset v
  else if size =? 4 then put_le 4 buf offset v
  else if size =? 8 then put_le 8 buf offset v
  else put_bytes buf offset [z2b v].

Definition EncodeContinuationMessage (ochkAddr ochkSize : Z) (sb : Superblock) : outcome bytes :=
  let data := zeros (u8 (OffsetSize sb + LengthSize sb)) in
  let! data := putSized data 0 (OffsetSize sb) ochkAddr in
  putSized data (OffsetSize sb) (LengthSize sb) ochkSize.

Definition ContinuationChunkSizeV2 (messages : list MessageWriter) : Z := u64 (4 + sumSizes sizeV2Msg messages + 4).

Definition WriteContinuationChunkV2 (file : bytes) (address : Z) (messages : list MessageWriter)
    : outcome (Z * bytes) :=
  let totalSize := u64 (4 + sumSizes sizeV2Msg messages + 4) in
  let! buf := putFields (zeros totalSize) [(0, ochk_sig)] in
  let! (buf, offset) := putMessages messages buf 4 in
  let! head := slice buf 0 offset in
  let! checksum := JenkinsChecksum head in
  let! buf := put_le 4 buf offset checksum in
  let! file := os_write_at file (i64 address) buf in
  Ret (totalSize, file).

Definition RewriteObjectHeaderV2 (fuel : nat) (file : bytes) (addr : Z) (sb : Superblock)
    (newMessages : list HeaderMessage) : outcome bytes :=
  let! oh := ReadObjectHeader fuel file addr sb in
  guard hVersion oh =? 2 else "only v2 headers supported for rewrite";;
  let! oh := fold_left (fun acc msg => let! oh := acc in AddMessageToObjectHeader oh (mType msg) (mData msg))
    newMessages (Ret oh) in
  WriteObjectHeader file addr oh.

(** ** Lemmas: the bytes of messages *)

Definition msgBytes (m : MessageWriter) : bytes := [z2b m.1] ++ le_put 2 (len m.2) ++ [x00] ++ m.2.
Definition bodyBytes (messages : list MessageWriter) : bytes := concat (map msgBytes messages).

Lemma len_msgBytes m : len (msgBytes m) = 4 + len m.2.
Proof. unfold msgBytes. autorewrite with len. lia. Qed.
#[export] Hint Rewrite len_msgBytes : len.

Lemma bodyBytes_cons m ms : bodyBytes (m :: ms) = msgBytes m ++ bodyBytes ms.
Proof. done. Qed.

Lemma bodyBytes_app l k : bodyBytes (l ++ k) = bodyBytes l ++ bodyBytes k.
Proof. unfold bodyBytes. by rewrite map_app, concat_app. Qed.

Lemma bodyBytes_length ms : (length ms <= length (bodyBytes ms))%nat.
Proof.
  induction ms as [|m ms IH]; [done|]. rewrite bodyBytes_cons, length_app. pose proof (len_msgBytes m) as Hm.
  pose proof (len_nonneg m.2). unfold len in Hm at 1. cbn [length]. lia.
Qed.

Lemma fold_sizes size ms : (forall n, 0 <= n -> 0 <= size n) -> forall t, 0 <= t ->
  fold_left (fun t '(_, d) => u64 (t + size (len d))) ms (u64 t) =
  u64 (t + fold_right (fun (m : MessageWriter) t => size (len m.2) + t) 0 ms).
Proof.
  intros Hs. induction ms as [|[k d] ms IH]; intros t Ht; cbn [fold_left fold_right].
  - f_equal. lia.
  - assert (u64 (u64 t + size (len d)) = u64 (t + size (len d))) as -> by
      (unfold u64; rewrite Zplus_mod_idemp_l; done).
    rewrite IH by (pose proof (Hs (len d) (len_nonneg d)); lia). f_equal. cbn. lia.
Qed.

Lemma sumSizes_eq size ms : (forall n, 0 <= n -> 0 <= size n) ->
  sumSizes size ms = u64 (fold_right (fun (m : MessageWriter) t => size (len m.2) + t) 0 ms).
Proof. intros Hs. unfold sumSizes. change 0 with (u64 0) at 1. by rewrite fold_sizes by done. Qed.

Lemma sumSizes_body ms : len (bodyBytes ms) < 2 ^ 64 -> sumSizes sizeV2Msg ms = len (bodyBytes ms).
Proof.
  intros Hl. assert (He : fold_right (fun (m : MessageWriter) t => sizeV2Msg (len m.2) + t) 0 ms = len (bodyBytes ms)).
  { clear. induction ms as [|m ms IH]; cbn [fold_right]; [done|].
    rewrite IH, bodyBytes_cons, len_app, len_msgBytes. unfold sizeV2Msg. lia. }
  rewrite sumSizes_eq by (unfold sizeV2Msg; lia). rewrite He. apply u64_id. pose proof (len_nonneg (bodyBytes ms)).
  unfold is_u. lia.
Qed.

Lemma putMessages_cursor ms : forall pre k off,
  off = len pre -> len (bodyBytes ms) <= k ->
  putMessages ms (pre ++ zeros k) off =
    Ret ((pre ++ bodyBytes ms) ++ zeros (k - len (bodyBytes ms)), off + len (bodyBytes ms)).
Proof.
  induction ms as [|[t d] ms IH]; intros pre k off -> Hk; cbn [putMessages].
  - change (bodyBytes []) with (@nil byte). rewrite app_nil_r, len_nil, Z.sub_0_r. by rewrite Z.add_0_r.
  - rewrite bodyBytes_cons, len_app, len_msgBytes in *. cbn [snd] in *. pose proof (len_nonneg (bodyBytes ms)).
    pose proof (len_nonneg d).
    rewrite put_bytes_cursor by (done || (change (len [z2b t]) with 1; lia)). cbn [obind].
    change (len [z2b t]) with 1.
    rewrite put_le_cursor by (rewrite ?len_app; change (len [z2b t]) with 1; lia). cbn [obind].
    rewrite put_bytes_cursor by (rewrite ?len_app, ?len_le_put; change (len [z2b t]) with 1; change (len [x00]) with 1; lia).
    cbn [obind]. change (len [x00]) with 1.
    rewrite put_bytes_cursor by (rewrite ?len_app, ?len_le_put; change (len [z2b t]) with 1; change (len [x00]) with 1; lia).
    cbn [obind].
    match goal with |- putMessages _ (?p ++ _) _ = _ => replace p with (pre ++ msgBytes (t, d))
      by (unfold msgBytes; cbn [fst snd]; by rewrite <- !app_assoc) end.
    rewrite IH by (rewrite ?len_app, ?len_msgBytes; cbn [snd]; lia). rewrite <- !app_assoc. do 2 f_equal; [|lia].
    do 4 f_equal. lia.
Qed.

(** ** Lemmas: reading messages back *)

(** What the reader returns for messages stored from [a] on; empty messages are
    dropped. *)
Fixpoint readBackMessages (a : Z) (ms : list MessageWriter) : list HeaderMessage :=
  match ms with
  | [] => []
  | (t, d) :: ms =>
      (if len d =? 0 then [] else [mkMsg t a d false]) ++ readBackMessages (a + (4 + len d)) ms
  end.

Fixpoint nameAfter (ms : list MessageWriter) (name : bytes) : bytes :=
  match ms with
  | [] => name
  | (t, d) :: ms => nameAfter ms (if (t =? MsgName) && (len d >? 1) then drop 1 d else name)
  end.

Definition msg_ok (m : MessageWriter) : Prop := 0 <= m.1 < 256 /\ len m.2 < 65536.

Lemma parseMessages_ok f isz : forall ms a tail name fuel,
  isz = 4 -> Forall msg_ok ms -> stored f a (bodyBytes ms ++ tail) -> 2 <= len tail -> len f < 2 ^ 63 ->
  (length ms < fuel)%nat ->
  parseMessages fuel f a (a + len (bodyBytes ms)) isz false name = Ret (readBackMessages a ms, nameAfter ms name).
Proof.
  intros ms a tail name fuel ->. revert a name fuel.
  induction ms as [|[t d] ms IH]; intros a name [|fuel] Hok Hst Ht Hf Hfuel; cbn [length] in *; try lia; cbn [parseMessages].
  - change (bodyBytes []) with (@nil byte). rewrite len_nil, Z.add_0_r, Z.ltb_irrefl. done.
  - apply Forall_cons in Hok as [[Hm Hd] Hok]. cbn [fst snd] in Hm, Hd.
    destruct (stored_bounds _ _ _ Hst) as [Ha Hlen]. rewrite bodyBytes_cons in *.
    rewrite <- app_assoc in Hst. rewrite !len_app, len_msgBytes in *. cbn [snd] in *.
    pose proof (len_nonneg (bodyBytes ms)). pose proof (len_nonneg d).
    destruct (Z.ltb_spec a (a + (4 + len d + len (bodyBytes ms)))); [|lia].
    rewrite (i64_id a) by lia. rewrite (stored_read _ _ _ 6 Hst) by (rewrite !len_app, len_msgBytes; cbn [snd]; lia).
    cbn [obind]. change (Z.to_nat 6) with 6%nat.
    set (h := take 6 _). assert (E0 : idx h 0 = Ret (z2b t)) by done. rewrite E0. cbn [obind].
    assert (E1 : slice h 1 3 = Ret (le_put 2 (len d))).
    { apply (slice_at _ [z2b t] (le_put 2 (len d)) (take 3 ([x00] ++ d ++ bodyBytes ms ++ tail))); [|done|done].
      subst h. unfold msgBytes. cbn [fst snd]. reflexivity. }
    rewrite E1. cbn [obind order_of get_order]. rewrite le_get_put_small by lia. rewrite b2z_z2b_small by lia.
    rewrite (u64_id (a + 4)) by (unfold is_u; lia).
    pose proof (stored_app_r _ _ _ _ Hst) as Hst'. rewrite len_msgBytes in Hst'. cbn [snd] in Hst'.
    cbn [readBackMessages nameAfter]. destruct (Z.eqb_spec (len d) 0) as [E|E].
    + rewrite E in *. replace (a + (4 + 0 + len (bodyBytes ms))) with (a + 4 + len (bodyBytes ms)) by lia.
      rewrite IH by (done || lia). cbn [app]. rewrite andb_false_r. done.
    + rewrite i64_id by lia. unfold msgBytes in Hst. cbn [fst snd] in Hst.
      replace ([z2b t] ++ le_put 2 (len d) ++ [x00] ++ d) with (([z2b t] ++ le_put 2 (len d) ++ [x00]) ++ d) in Hst
        by by rewrite <- !app_assoc.
      rewrite <- app_assoc in Hst. apply stored_app_r in Hst. apply stored_app_l in Hst. unfold stored in Hst.
      change (len ([z2b t] ++ le_put 2 (len d) ++ [x00])) with 4 in Hst. rewrite Hst. cbn [obind].
      rewrite (u64_id (4 + len d)) by (unfold is_u; lia). rewrite (u64_id (a + (4 + len d))) by (unfold is_u; lia).
      replace (a + (4 + len d + len (bodyBytes ms))) with (a + (4 + len d) + len (bodyBytes ms)) by lia.
      rewrite IH by (done || lia). done.
Qed.

(** ** Lemmas: a version-2 header *)

Definition nonEmpty (m : MessageWriter) : bool := negb (len m.2 =? 0).

(** What a message says, apart from its place. *)
Definition msgFields (m : HeaderMessage) : Z * bytes * bool := (mType m, mData m, FromContinuation m).

Lemma readBack_contents ms : forall a,
  map msgFields (readBackMessages a ms) = map (fun m => (m.1, m.2, false)) (List.filter nonEmpty ms).
Proof.
  induction ms as [|[t d] ms IH]; intros a; cbn [readBackMessages List.filter map]; [done|].
  unfold nonEmpty at 1. cbn [snd]. destruct (len d =? 0); cbn [negb app map]; [apply IH|]. by rewrite IH.
Qed.

Lemma readBack_app ms ks : forall a,
  readBackMessages a (ms ++ ks) = readBackMessages a ms ++ readBackMessages (a + len (bodyBytes ms)) ks.
Proof.
  induction ms as [|[t d] ms IH]; intros a; cbn [readBackMessages app].
  - change (bodyBytes []) with (@nil byte). by rewrite len_nil, Z.add_0_r.
  - rewrite IH, bodyBytes_cons, len_app, len_msgBytes, <- app_assoc. cbn [snd]. do 3 f_equal. lia.
Qed.

Lemma findContinuations_none ms sb :
  Forall (fun m => mType m <> MsgContinuation) ms -> findContinuations ms sb = Ret [].
Proof.
  induction 1 as [|m ms Hm _ IH]; cbn [findContinuations]; [done|].
  destruct (Z.eqb_spec (mType m) MsgContinuation); [done|]. exact IH.
Qed.

Lemma findContinuations_app l k sb :
  findContinuations (l ++ k) sb =
    let! c := findContinuations l sb in let! d := findContinuations k sb in Ret (c ++ d).
Proof.
  induction l as [|m l IH]; cbn [app findContinuations].
  - cbn [obind app]. by destruct (findContinuations k sb).
  - rewrite IH. destruct (_ && _); [|done]. destruct (parseContinuationMessage _ _); [|done..].
    destruct (findContinuations l sb); cbn [obind]; [|done..]. by destruct (findContinuations k sb).
Qed.

Lemma readBack_no_cont ms : forall a,
  Forall (fun m : MessageWriter => m.1 <> MsgContinuation) ms ->
  Forall (fun m => mType m <> MsgContinuation) (readBackMessages a ms).
Proof.
  induction ms as [|[t d] ms IH]; intros a H; cbn [readBackMessages]; [constructor|].
  apply Forall_cons in H as [H1 H2]. destruct (len d =? 0); cbn [app]; auto.
Qed.

Lemma refCountOf_total ms sb c : exists n, refCountOf ms sb c = Ret n.
Proof.
  induction ms as [|m ms [n IH]]; cbn [refCountOf]; [eauto|].
  destruct (_ =? _); cbn [andb]; [|eauto]. destruct (Z.geb_spec (len (mData m)) 4); [|eauto].
  rewrite slice_ret by lia. cbn [obind]. eauto.
Qed.

(** The flags as written: the size bits are replaced, the others kept. *)
Definition flagsOf (ohw : ObjectHeaderWriter) : Z :=
  Z.lor (Z.land (wFlags ohw) 252) (flagsBits (chunkSizeFieldWidth (len (bodyBytes (Messages ohw))))).

Definition headBytes (ohw : ObjectHeaderWriter) : bytes :=
  let body := bodyBytes (Messages ohw) in
  ohdr_sig ++ [z2b (wVersion ohw)] ++ [z2b (flagsOf ohw)] ++
  le_put (Z.to_nat (chunkSizeFieldWidth (len body))) (len body) ++ body.

Lemma width_cases n :
  0 <= n < 2 ^ 64 -> let w := chunkSizeFieldWidth n in
  (w = 1 \/ w = 2 \/ w = 4 \/ w = 8) /\ Z.shiftl 1 (flagsBits w) = w /\ 0 <= flagsBits w < 4 /\ n < 256 ^ w.
Proof.
  intros Hn. unfold chunkSizeFieldWidth. repeat ztest; cbv zeta; cbn [flagsBits Z.eqb Pos.eqb];
    (split; [lia|]); (split; [done|]); lia.
Qed.

Lemma len_headBytes ohw :
  len (bodyBytes (Messages ohw)) < 2 ^ 64 ->
  len (headBytes ohw) = 6 + chunkSizeFieldWidth (len (bodyBytes (Messages ohw))) + len (bodyBytes (Messages ohw)).
Proof.
  intros Hl. unfold headBytes. pose proof (len_nonneg (bodyBytes (Messages ohw))).
  destruct (width_cases (len (bodyBytes (Messages ohw)))) as (Hw & _); [lia|].
  rewrite !len_app, len_le_put, Z2Nat.id by lia. change (len ohdr_sig) with 4. rewrite !len_cons, !len_nil. lia.
Qed.

Lemma writeChunkSize_cursor pre k n off :
  off = len pre -> 0 <= n < 2 ^ 64 -> chunkSizeFieldWidth n <= k ->
  writeChunkSize (pre ++ zeros k) off n (chunkSizeFieldWidth n) =
    Ret ((pre ++ le_put (Z.to_nat (chunkSizeFieldWidth n)) n) ++ zeros (k - chunkSizeFieldWidth n)).
Proof.
  intros -> Hn Hk. destruct (width_cases n Hn) as (Hw & _). unfold writeChunkSize.
  replace (_ || _) with true by (destruct Hw as [-> |[-> |[-> | ->]]]; done).
  rewrite put_bytes_cursor by (rewrite ?len_le_put; lia). rewrite len_le_put, Z2Nat.id by lia. done.
Qed.

Lemma encodeV2_ret ohw :
  len (bodyBytes (Messages ohw)) + 18 < 2 ^ 63 ->
  exists c, is_u 32 c /\ JenkinsChecksum (headBytes ohw) = Ret c /\
    encodeV2 ohw = Ret (len (headBytes ohw) + 4, headBytes ohw ++ le_put 4 c) /\
    sizeV2 ohw = len (headBytes ohw) + 4.
Proof.
  intros Hlt. pose proof (len_nonneg (bodyBytes (Messages ohw))). set (n := len (bodyBytes (Messages ohw))) in *.
  destruct (width_cases n) as (Hw & _); [lia|]. pose proof (len_headBytes ohw ltac:(lia)) as Hlh. fold n in Hlh.
  destruct (jenkinsLookup3_ret (headBytes ohw) 0) as (c & Ec & Hc). exists c. split; [done|]. split; [done|].
  unfold encodeV2, sizeV2. rewrite sumSizes_body by lia. fold n. cbv zeta.
  rewrite (u64_id (4 + 1 + 1 + chunkSizeFieldWidth n + n + 4)) by (unfold is_u; lia). split; [|lia].
  rewrite <- (app_nil_l (zeros (4 + 1 + 1 + _ + n + 4))).
  set (pre := ohdr_sig ++ [z2b (wVersion ohw)] ++ [z2b (flagsOf ohw)]).
  assert (Hp : len pre = 6) by done.
  rewrite putFields_ret by (cbn [contiguous map snd concat]; first [split_and!; done | fold (flagsOf ohw); rewrite app_nil_r; change (len pre <= 4 + 1 + 1 + chunkSizeFieldWidth n + n + 4); lia]).
  cbn [obind map snd concat]. rewrite app_nil_r, app_nil_l. change (ohdr_sig ++ _ ++ [z2b (Z.lor _ _)]) with pre. rewrite Hp.
  rewrite writeChunkSize_cursor by (done || lia). cbn [obind].
  rewrite putMessages_cursor by (rewrite ?len_app, ?len_le_put; fold n; lia).
  cbn [obind]. fold n.
  assert (Eh : (pre ++ le_put (Z.to_nat (chunkSizeFieldWidth n)) n) ++ bodyBytes (Messages ohw) = headBytes ohw)
    by (unfold pre, headBytes; by rewrite <- !app_assoc).
  rewrite Eh. replace (6 + chunkSizeFieldWidth n + n) with (len (headBytes ohw)) by lia.
  erewrite (slice_at _ [] (headBytes ohw)) by (reflexivity || lia). cbn [obind].
  unfold JenkinsChecksum. rewrite Ec. cbn [obind]. rewrite put_le_cursor by lia. cbn [obind].
  do 2 f_equal; [lia|]. match goal with |- _ ++ zeros ?k = _ => replace k with 0 by lia end. by rewrite app_nil_r.
Qed.

Lemma writeToV2_ret ohw file address :
  0 <= address -> address + len (bodyBytes (Messages ohw)) + 18 < 2 ^ 63 ->
  exists c, is_u 32 c /\ JenkinsChecksum (headBytes ohw) = Ret c /\
    writeToV2 ohw file address = Ret (len (headBytes ohw) + 4, write_at file address (headBytes ohw ++ le_put 4 c)) /\
    sizeV2 ohw = len (headBytes ohw) + 4.
Proof.
  intros Ha Hlt. pose proof (len_nonneg (bodyBytes (Messages ohw))).
  destruct (encodeV2_ret ohw ltac:(lia)) as (c & Hc & Ec & E & Es). exists c. split_and!; [done..| |done].
  unfold writeToV2. rewrite E. cbn [obind]. unfold os_write_at. rewrite i64_id by lia.
  destruct (Z.leb_spec 0 address); [|lia]. done.
Qed.

Lemma flagsOf_bits ohw :
  0 <= wFlags ohw < 256 -> Z.land (wFlags ohw) 52 = 0 -> len (bodyBytes (Messages ohw)) < 2 ^ 64 ->
  0 <= flagsOf ohw < 256 /\
  Z.land (flagsOf ohw) 3 = flagsBits (chunkSizeFieldWidth (len (bodyBytes (Messages ohw)))) /\
  Z.land (flagsOf ohw) 4 = 0 /\ Z.land (flagsOf ohw) 16 = 0 /\ Z.land (flagsOf ohw) 32 = 0.
Proof.
  intros Hf H52 Hn. pose proof (len_nonneg (bodyBytes (Messages ohw))).
  destruct (width_cases (len (bodyBytes (Messages ohw)))) as (Hw & _); [lia|]. unfold flagsOf.
  set (w := chunkSizeFieldWidth _) in *. clearbody w.
  pose proof (byte_enum (fun f => implb (Z.land f 52 =? 0) (forallb (fun w => let g := Z.lor (Z.land f 252) (flagsBits w) in
    (0 <=? g) && (g <? 256) && (Z.land g 3 =? flagsBits w) && (Z.land g 4 =? 0) && (Z.land g 16 =? 0) &&
    (Z.land g 32 =? 0)) [1; 2; 4; 8])) ltac:(vm_compute; reflexivity) _ Hf) as Hb.
  cbv beta in Hb. rewrite H52 in Hb. change (0 =? 0) with true in Hb. cbn [implb] in Hb. rewrite forallb_forall in Hb.
  assert (Hin : In w [1; 2; 4; 8]) by (cbn; lia). specialize (Hb w Hin). cbv zeta in Hb.
  rewrite !andb_true_iff, !Z.eqb_eq, Z.leb_le, Z.ltb_lt in Hb. lia.
Qed.

Lemma flagsOf_high ohw :
  0 <= wFlags ohw < 256 -> len (bodyBytes (Messages ohw)) < 2 ^ 64 ->
  Z.land (flagsOf ohw) 252 = Z.land (wFlags ohw) 252.
Proof.
  intros Hf Hn. pose proof (len_nonneg (bodyBytes (Messages ohw))). unfold flagsOf.
  rewrite Z.land_lor_distr_l, <- Z.land_assoc. change (Z.land 252 252) with 252.
  destruct (width_cases (len (bodyBytes (Messages ohw)))) as ([-> |[-> |[-> | ->]]] & _); [lia|..]; cbn [flagsBits Z.eqb Pos.eqb];
    apply Z.lor_0_r.
Qed.

Lemma parseV2Header_ok fuel f a sb ohw tail :
  0 <= wFlags ohw < 256 -> Z.land (wFlags ohw) 52 = 0 -> Forall msg_ok (Messages ohw) ->
  stored f a (headBytes ohw ++ tail) -> 2 <= len tail -> len f < 2 ^ 63 ->
  exists off name, parseV2Header fuel f a (flagsOf ohw) sb false =
    let! continuations := findContinuations (readBackMessages off (Messages ohw)) sb in
    followContinuations fuel (fun a s => parseV2ContinuationBlock f a s (flagsOf ohw) false) sb continuations
      (readBackMessages off (Messages ohw)) name.
Proof.
  intros Hf H52 Hok Hst Ht Hlt. pose proof (stored_bounds _ _ _ Hst) as [Ha Hb]. rewrite len_app in Hb.
  pose proof (len_nonneg (headBytes ohw)). set (n := len (bodyBytes (Messages ohw))).
  assert (Hn : 0 <= n < 2 ^ 63).
  { split; [apply len_nonneg|]. unfold headBytes in Hb. rewrite !len_app in Hb. fold n in Hb. len_lia. }
  destruct (width_cases n) as (Hw & Hsh & _ & Hnw); [lia|].
  destruct (flagsOf_bits ohw Hf H52) as (_ & F3 & F4 & F16 & F32); [lia|]. fold n in F3.
  pose proof (len_headBytes ohw ltac:(lia)) as Hlh. fold n in Hlh. set (w := chunkSizeFieldWidth n) in *.
  unfold parseV2Header, headerSizeOf. rewrite F3, F4, F16, F32. cbn [Z.eqb negb]. rewrite Hsh.
  assert (Hst' : stored f (a + 6) (le_put (Z.to_nat w) n ++ bodyBytes (Messages ohw) ++ tail)).
  { unfold headBytes in Hst. fold n w in Hst.
    replace (a + 6) with (a + len (ohdr_sig ++ [z2b (wVersion ohw)] ++ [z2b (flagsOf ohw)])) by done.
    eapply stored_app_r. rewrite <- !app_assoc in *. exact Hst. }
  rewrite (u64_id (a + 6)) by (unfold is_u; lia). rewrite i64_id by lia.
  pose proof (stored_app_l _ _ _ _ Hst') as Hsz. unfold stored in Hsz. rewrite len_le_put, Z2Nat.id in Hsz by lia.
  rewrite Hsz. cbn [obind order_of get_order]. rewrite le_get_put_small by (rewrite Z2Nat.id by lia; lia).
  rewrite (u64_id (a + 6 + w)) by (unfold is_u; lia). rewrite (u64_id (a + 6 + w + n)) by (unfold is_u; lia).
  apply stored_app_r in Hst'. rewrite len_le_put, Z2Nat.id in Hst' by lia.
  rewrite (parseMessages_ok f 4 (Messages ohw) (a + 6 + w) tail) by
    (done || (pose proof (bodyBytes_length (Messages ohw)); unfold n, len in *; lia)).
  cbn [obind]. eauto.
Qed.

Lemma headerKind_v2 ohw tail :
  0 <= flagsOf ohw < 256 -> wVersion ohw = 2 ->
  headerKind (take 8 (headBytes ohw ++ tail)) = Ret (2, flagsOf ohw, false).
Proof.
  intros Hf Hv. unfold headBytes. rewrite Hv. set (w := le_put _ _). rewrite <- !app_assoc. cbn [app take].
  set (r := take _ _). unfold headerKind. erewrite (slice_at _ [] ohdr_sig) by reflexivity. cbn [obind].
  rewrite bool_decide_true by done. change (idx _ 4) with (Ret (z2b 2)). cbn [obind].
  change (idx _ 5) with (Ret (z2b (flagsOf ohw))). cbn [obind]. by rewrite !b2z_z2b_small by lia.
Qed.

(** Reading a stored version-2 header up to its continuation messages. *)
Lemma ReadObjectHeader_v2 fuel f a sb ohw tail :
  wVersion ohw = 2 -> 0 <= wFlags ohw < 256 -> Z.land (wFlags ohw) 52 = 0 -> Forall msg_ok (Messages ohw) ->
  stored f a (headBytes ohw ++ tail) -> 4 <= len tail -> len f < 2 ^ 63 ->
  exists off name, ReadObjectHeader fuel f a sb =
    let! continuations := findContinuations (readBackMessages off (Messages ohw)) sb in
    let! (messages, name) := followContinuations fuel
      (fun a s => parseV2ContinuationBlock f a s (flagsOf ohw) false) sb continuations
      (readBackMessages off (Messages ohw)) name in
    let! refCount := refCountOf messages sb 1 in
    Ret (mkHeader 2 (flagsOf ohw) (determineObjectType messages) messages name refCount).
Proof.
  intros Hv Hf H52 Hok Hst Ht Hlt. destruct (stored_bounds _ _ _ Hst) as [Ha Hb]. rewrite len_app in Hb.
  pose proof (len_nonneg (bodyBytes (Messages ohw))) as Hn.
  assert (Hn' : len (bodyBytes (Messages ohw)) < 2 ^ 63).
  { unfold headBytes in Hb. rewrite !len_app in Hb. len_lia. }
  pose proof (len_headBytes ohw ltac:(lia)) as Hlh.
  destruct (width_cases (len (bodyBytes (Messages ohw)))) as (Hw & _); [lia|].
  destruct (flagsOf_bits ohw Hf H52) as (Hfl & _); [lia|].
  destruct (parseV2Header_ok fuel f a sb ohw tail Hf H52 Hok Hst) as (off & name & E); [lia|done|]. exists off, name.
  unfold ReadObjectHeader. rewrite i64_id by lia. destruct (Z.ltb_spec a 0); [lia|]. cbn [negb].
  rewrite (stored_read _ _ _ 8 Hst) by (rewrite len_app; lia). cbn [obind]. change (Z.to_nat 8) with 8%nat.
  rewrite headerKind_v2 by done. cbn [obind Z.eqb Pos.eqb]. rewrite E.
  destruct (findContinuations _ _); cbn [obind]; [|done..]. by destruct (followContinuations _ _ _ _ _ _) as [[]| |].
Qed.

(** ** Continuation blocks *)

Definition ochkBytes (messages : list MessageWriter) (checksum : Z) : bytes :=
  ochk_sig ++ bodyBytes messages ++ le_put 4 checksum.

Lemma len_ochkBytes ms c : len (ochkBytes ms c) = len (bodyBytes ms) + 8.
Proof. unfold ochkBytes. rewrite !len_app, len_le_put. change (len ochk_sig) with 4. lia. Qed.

Lemma ContinuationChunkSizeV2_eq ms :
  len (bodyBytes ms) + 8 < 2 ^ 64 -> ContinuationChunkSizeV2 ms = len (bodyBytes ms) + 8.
Proof.
  intros H. pose proof (len_nonneg (bodyBytes ms)). unfold ContinuationChunkSizeV2. rewrite sumSizes_body by lia.
  rewrite u64_id by (unfold is_u; lia). lia.
Qed.

Lemma WriteContinuationChunkV2_ret file address ms :
  0 <= address < 2 ^ 63 -> len (bodyBytes ms) + 8 < 2 ^ 64 ->
  exists c, WriteContinuationChunkV2 file address ms =
    Ret (ContinuationChunkSizeV2 ms, write_at file address (ochkBytes ms c)).
Proof.
  intros Ha Hl. rewrite ContinuationChunkSizeV2_eq by done. pose proof (len_nonneg (bodyBytes ms)).
  set (n := len (bodyBytes ms)) in *. destruct (jenkinsLookup3_ret (ochk_sig ++ bodyBytes ms) 0) as (c & Ec & _).
  exists c. unfold WriteContinuationChunkV2. rewrite sumSizes_body by lia. fold n. cbv zeta.
  rewrite (u64_id (4 + n + 4)) by (unfold is_u; lia). rewrite <- (app_nil_l (zeros _)).
  rewrite putFields_ret by (cbn [contiguous map snd concat]; first [split_and!; done | rewrite app_nil_r; change (4 <= 4 + n + 4); lia]).
  cbn [obind map snd concat]. rewrite app_nil_r, app_nil_l. change (len ochk_sig) with 4.
  rewrite putMessages_cursor by (done || (fold n; lia)). cbn [obind]. fold n.
  erewrite (slice_at _ [] (ochk_sig ++ bodyBytes ms)) by (reflexivity || (rewrite len_app; change (len ochk_sig) with 4; fold n; lia)).
  cbn [obind]. unfold JenkinsChecksum. rewrite Ec. cbn [obind].
  rewrite put_le_cursor by (rewrite ?len_app; change (len ochk_sig) with 4; fold n; lia). cbn [obind].
  unfold os_write_at. rewrite i64_id by lia. destruct (Z.leb_spec 0 address); [|lia]. cbn [obind].
  do 2 f_equal; [lia|]. f_equal. match goal with |- _ ++ zeros ?k = _ => replace k with 0 by lia end.
  unfold ochkBytes. by rewrite app_nil_r, <- app_assoc.
Qed.

Lemma parseV2ContinuationBlock_ok f a ms c flags :
  Z.land flags 4 = 0 -> Forall msg_ok ms -> stored f a (ochkBytes ms c) -> len f < 2 ^ 63 ->
  parseV2ContinuationBlock f a (len (bodyBytes ms) + 8) flags false =
    Ret (readBackMessages (a + 4) ms, nameAfter ms []).
Proof.
  intros F4 Hok Hst Hlt. destruct (stored_bounds _ _ _ Hst) as [Ha Hb]. rewrite len_ochkBytes in Hb.
  pose proof (len_nonneg (bodyBytes ms)). unfold parseV2ContinuationBlock, headerSizeOf. rewrite F4. cbn [Z.eqb negb].
  destruct (Z.ltb_spec (len (bodyBytes ms) + 8) 8); [lia|]. cbn [negb]. rewrite i64_id by lia.
  rewrite (stored_read _ _ _ 4 Hst) by (rewrite len_ochkBytes; lia). cbn [obind].
  change (take (Z.to_nat 4) _) with ochk_sig. rewrite bool_decide_true by done.
  rewrite (u64_id (a + 4)), (u64_id (a + _)), u64_id by (unfold is_u; lia).
  unfold ochkBytes in Hst. apply stored_app_r in Hst. change (len ochk_sig) with 4 in Hst.
  replace (a + (len (bodyBytes ms) + 8) - 4) with (a + 4 + len (bodyBytes ms)) by lia.
  apply (parseMessages_ok f 4 ms (a + 4) (le_put 4 c)); try done.
  pose proof (bodyBytes_length ms). unfold len in *. lia.
Qed.

Definition width_ok (w : Z) : Prop := w = 2 \/ w = 4 \/ w = 8.

Lemma putSized_cursor pre k off w v :
  width_ok w -> off = len pre -> w <= k ->
  putSized (pre ++ zeros k) off w v = Ret ((pre ++ le_put (Z.to_nat w) v) ++ zeros (k - w)).
Proof. intros [-> |[-> | ->]] Ho Hk; unfold putSized; cbn [Z.eqb Pos.eqb]; by rewrite put_le_cursor by lia. Qed.

Lemma readSized_at data pre w v post off msg :
  width_ok w -> data = pre ++ le_put (Z.to_nat w) v ++ post -> off = len pre -> 0 <= v < 256 ^ w ->
  readSized data off w LittleEndian msg = Ret v.
Proof.
  intros Hw -> -> Hv. unfold readSized.
  assert (E : slice (pre ++ le_put (Z.to_nat w) v ++ post) (len pre) (len pre + w) = Ret (le_put (Z.to_nat w) v)).
  { eapply slice_at; [done..|]. rewrite len_le_put. unfold width_ok in Hw. lia. }
  rewrite E. cbn [obind get_order]. rewrite le_get_put_small by (unfold width_ok in Hw; rewrite Z2Nat.id by lia; done).
  by destruct Hw as [-> |[-> | ->]].
Qed.

(** The address and size of a continuation message are read back. *)
Lemma continuation_message_ok ochkAddr ochkSize sb :
  width_ok (OffsetSize sb) -> width_ok (LengthSize sb) -> Endianness sb = LittleEndian ->
  0 <= ochkAddr < 256 ^ OffsetSize sb -> 0 < ochkSize < 256 ^ LengthSize sb ->
  exists d, EncodeContinuationMessage ochkAddr ochkSize sb = Ret d /\ 0 < len d < 65536 /\
    parseContinuationMessage d sb = Ret (ochkAddr, ochkSize).
Proof.
  intros Ho Hl He Ha Hs. set (o := OffsetSize sb) in *. set (l := LengthSize sb) in *.
  exists (le_put (Z.to_nat o) ochkAddr ++ le_put (Z.to_nat l) ochkSize).
  assert (Hol : u8 (o + l) = o + l) by (apply u8_id; unfold is_u, width_ok in *; lia).
  assert (Hpos : 0 < o /\ 0 < l /\ o + l < 65536) by (unfold width_ok in *; lia). split_and!.
  - unfold EncodeContinuationMessage. fold o l. rewrite Hol, <- (app_nil_l (zeros _)).
    rewrite putSized_cursor by (done || lia). cbn [obind]. rewrite app_nil_l.
    rewrite putSized_cursor by (done || (rewrite ?len_le_put; lia)). replace (o + l - o - l) with 0 by lia.
    by rewrite app_nil_r.
  - rewrite len_app, !len_le_put. lia.
  - rewrite len_app, !len_le_put. lia.
  - unfold parseContinuationMessage. fold o l. rewrite Hol, len_app, !len_le_put, !Z2Nat.id, He by lia.
    destruct (Z.ltb_spec (o + l) (o + l)); [lia|]. cbn [negb].
    erewrite (readSized_at _ [] o ochkAddr) by (done || lia). cbn [obind].
    rewrite (readSized_at _ (le_put (Z.to_nat o) ochkAddr) l ochkSize []) by
      first [done | by rewrite app_nil_r | rewrite len_le_put; lia | split; lia].
    cbn [obind]. destruct (Z.eqb_spec ochkSize 0); [lia|]. done.
Qed.

(** ** Properties *)

(** Reading a written version-2 header: every message with data, in order;
    flag bits other than the two size bits unchanged. *)
Definition header_ok (ohw : ObjectHeaderWriter) (address : Z) (file : bytes) : Prop :=
  wVersion ohw = 2 /\ 0 <= wFlags ohw < 256 /\ Z.land (wFlags ohw) 52 = 0 /\ Forall msg_ok (Messages ohw) /\
  0 <= address /\ address + len (bodyBytes (Messages ohw)) + 18 < 2 ^ 63 /\ len file < 2 ^ 63.

Lemma headerWriteTo_ok ohw address file :
  header_ok ohw address file ->
  exists c n, Size_ ohw = Ret n /\ n = len (headBytes ohw ++ le_put 4 c) /\ JenkinsChecksum (headBytes ohw) = Ret c /\
    headerWriteTo ohw file address = Ret (n, write_at file address (headBytes ohw ++ le_put 4 c)) /\
    n <= len (bodyBytes (Messages ohw)) + 18.
Proof.
  intros (Hv & Hf & H52 & Hok & Ha & Hn & Hfile). destruct (writeToV2_ret ohw file address Ha Hn) as (c & Hc & Ec & Ew & Es).
  exists c, (len (headBytes ohw) + 4). pose proof (len_nonneg (bodyBytes (Messages ohw))).
  unfold Size_, headerWriteTo. rewrite Hv. cbn [Z.eqb Pos.eqb]. rewrite Ew, Es. split_and!; try done.
  - rewrite len_app, len_le_put. lia.
  - rewrite len_headBytes by lia. destruct (width_cases (len (bodyBytes (Messages ohw)))) as (Hw & _); lia.
Qed.

(** C20. A written version-2 object header is read back: [WriteTo] writes
    exactly [Size] bytes, among them the lookup3 checksum of the header, and
    [ReadObjectHeader] returns version, flags (but for the two bits of the size
    field, which the writer sets) and the messages that carry data, in order;
    bytes outside the header keep their value. *)
Theorem object_header_v2_roundtrip ohw file address sb fuel :
  header_ok ohw address file -> Forall (fun m => m.1 <> MsgContinuation) (Messages ohw) ->
  exists n file' oh, Size_ ohw = Ret n /\ headerWriteTo ohw file address = Ret (n, file') /\
    ReadObjectHeader fuel file' address sb = Ret oh /\
    hVersion oh = 2 /\ Z.land (hFlags oh) 252 = Z.land (wFlags ohw) 252 /\
    map msgFields (hMessages oh) = map (fun m => (m.1, m.2, false)) (List.filter nonEmpty (Messages ohw)) /\
    (exists c, JenkinsChecksum (headBytes ohw) = Ret c /\ read_at file' (address + n - 4) 4 = Ret (le_put 4 c)) /\
    (forall a bs, stored file a bs -> a + len bs <= address \/ address + n <= a -> stored file' a bs).
Proof.
  intros Hok Hc. destruct (headerWriteTo_ok _ _ _ Hok) as (c & n & Es & En & Ec & Ew & Hn).
  destruct Hok as (Hv & Hf & H52 & Hms & Ha & Hlt & Hfile). set (file' := write_at _ _ _) in Ew.
  assert (Hst : stored file' address (headBytes ohw ++ le_put 4 c)) by (by apply stored_write).
  assert (Hf' : len file' < 2 ^ 63) by (unfold file'; rewrite len_write_at by lia; lia).
  destruct (ReadObjectHeader_v2 fuel file' address sb ohw _ Hv Hf H52 Hms Hst) as (off & name & Er);
    [rewrite len_le_put; lia|done|].
  rewrite findContinuations_none in Er by (by apply readBack_no_cont). cbn [obind] in Er.
  assert (Er' : ReadObjectHeader fuel file' address sb =
    let! refCount := refCountOf (readBackMessages off (Messages ohw)) sb 1 in
    Ret (mkHeader 2 (flagsOf ohw) (determineObjectType (readBackMessages off (Messages ohw)))
      (readBackMessages off (Messages ohw)) name refCount)) by (rewrite Er; by destruct fuel).
  destruct (refCountOf_total (readBackMessages off (Messages ohw)) sb 1) as [rc Erc]. rewrite Erc in Er'.
  exists n, file', (mkHeader 2 (flagsOf ohw) (determineObjectType (readBackMessages off (Messages ohw)))
      (readBackMessages off (Messages ohw)) name rc).
  split_and!; try done; cbn [hFlags hMessages].
  - apply flagsOf_high; [done|]. lia.
  - apply readBack_contents.
  - exists c. split; [done|]. apply stored_app_r in Hst. unfold stored in Hst. rewrite len_le_put in Hst.
    rewrite En, len_app, len_le_put. rewrite <- Hst. f_equal; lia.
  - intros a bs Hs Hd. apply stored_other; [done| |done]. unfold disjoint_blocks, bend. cbn [Offset Size]. lia.
Qed.

Definition demo_sb : Superblock := mkSuperblock 2 8 8 0 96 LittleEndian 0 0 0 0.

Definition demo_header : ObjectHeaderWriter :=
  mkHeaderWriter 2 0 [(MsgDataspace, [x01; x02; x03]); (MsgNil, []); (MsgName, [x41; x42])] 0.

Example object_header_v2_roundtrip_witness :
  exists n file' oh, Size_ demo_header = Ret n /\ headerWriteTo demo_header (zeros 20) 5 = Ret (n, file') /\
    ReadObjectHeader 0 file' 5 demo_sb = Ret oh /\ 
    map msgFields (hMessages oh) = [(MsgDataspace, [x01; x02; x03], false); (MsgName, [x41; x42], false)].
Proof.
  destruct (object_header_v2_roundtrip demo_header (zeros 20) 5 demo_sb 0)
    as (n & file' & oh & E1 & E2 & E3 & _ & _ & E4 & _).
  - unfold header_ok. split_and!; try done. unfold demo_header. cbn [Messages].
    repeat (apply Forall_cons_2; [unfold msg_ok; split_and!; by vm_compute|]). apply Forall_nil_2.
  - repeat (apply Forall_cons_2; [done|]). apply Forall_nil_2.
  - exists n, file', oh. by split_and!.
Defined.

(** C27. A header whose last message points to a continuation block: the
    messages of the block follow those of the header, marked as coming from it,
    for the block written by [WriteContinuationChunkV2] and the continuation
    message by [EncodeContinuationMessage], at field widths of 2, 4 and 8 bytes
    of a little-endian file. *)
Theorem continuation_roundtrip sb file address ochkAddr ms ks flags fuel d :
  width_ok (OffsetSize sb) -> width_ok (LengthSize sb) -> Endianness sb = LittleEndian ->
  len (bodyBytes ks) + 8 < Z.min (2 ^ 63) (256 ^ LengthSize sb) ->
  0 <= ochkAddr < Z.min (2 ^ 63) (256 ^ OffsetSize sb) -> ochkAddr + len (bodyBytes ks) + 8 < 2 ^ 63 ->
  Forall msg_ok ks -> Forall (fun m => m.1 <> MsgContinuation) (ms ++ ks) ->
  EncodeContinuationMessage ochkAddr (ContinuationChunkSizeV2 ks) sb = Ret d ->
  let ohw := mkHeaderWriter 2 flags (ms ++ [(MsgContinuation, d)]) 0 in
  header_ok ohw address file ->
  address + len (bodyBytes (Messages ohw)) + 18 <= ochkAddr \/ ochkAddr + len (bodyBytes ks) + 8 <= address ->
  exists sz file1 n file2 oh,
    WriteContinuationChunkV2 file ochkAddr ks = Ret (sz, file1) /\ headerWriteTo ohw file1 address = Ret (n, file2) /\
    ReadObjectHeader (S fuel) file2 address sb = Ret oh /\
    map msgFields (hMessages oh) =
      map (fun m => (m.1, m.2, false)) (List.filter nonEmpty ms ++ [(MsgContinuation, d)]) ++
      map (fun m => (m.1, m.2, true)) (List.filter nonEmpty ks).
Proof.
  intros Ho Hl He Hks Ha Hak Hkok Hc Ed ohw Hok Hdis. apply Forall_app in Hc as [Hcm Hck].
  pose proof (len_nonneg (bodyBytes ks)) as Hk0. pose proof (ContinuationChunkSizeV2_eq ks ltac:(lia)) as Esz.
  destruct (continuation_message_ok ochkAddr (ContinuationChunkSizeV2 ks) sb) as (d' & Ed' & Hd & Ep); [done..|lia|lia|].
  rewrite Ed in Ed'. injection Ed' as <-.
  destruct (WriteContinuationChunkV2_ret file ochkAddr ks) as (c1 & E1); [lia|lia|]. set (file1 := write_at _ _ _) in E1.
  assert (Hf1 : len file1 < 2 ^ 63) by (destruct Hok as (_ & _ & _ & _ & _ & _ & Hf); unfold file1;
    rewrite len_write_at, len_ochkBytes by lia; lia).
  assert (Hok1 : header_ok ohw address file1) by (unfold header_ok in *; tauto).
  destruct (headerWriteTo_ok _ _ _ Hok1) as (c & n & _ & En & _ & Ew & Hn). set (file2 := write_at _ address _) in Ew.
  destruct Hok1 as (Hv & Hf & H52 & Hms & Haddr & Hlt & _).
  assert (Hf2 : len file2 < 2 ^ 63) by (unfold file2; rewrite len_write_at by lia; lia).
  assert (Hst : stored file2 address (headBytes ohw ++ le_put 4 c)) by (by apply stored_write).
  assert (Hst2 : stored file2 ochkAddr (ochkBytes ks c1)).
  { apply stored_other; [done| |apply stored_write; lia]. unfold disjoint_blocks, bend. cbn [Offset Size].
    rewrite len_ochkBytes. lia. }
  destruct (ReadObjectHeader_v2 (S fuel) file2 address sb ohw _ Hv Hf H52 Hms Hst) as (off & name & Er);
    [rewrite len_le_put; lia|done|].
  cbn [Messages ohw] in Er. rewrite readBack_app in Er. cbn [readBackMessages] in Er.
  destruct (Z.eqb_spec (len d) 0); [lia|]. cbn [app] in Er. set (off2 := off + _) in Er.
  assert (Ef : findContinuations (readBackMessages off ms ++ [mkMsg MsgContinuation off2 d false]) sb =
    Ret [(ochkAddr, ContinuationChunkSizeV2 ks)]).
  { rewrite findContinuations_app. rewrite findContinuations_none by (by apply readBack_no_cont). cbn [obind].
    cbn [findContinuations mType mData]. destruct (Z.gtb_spec (len d) 0); [|lia]. cbn [Z.eqb Pos.eqb andb].
    change (MsgContinuation =? MsgContinuation) with true. cbn [andb]. by rewrite Ep. }
  rewrite Ef in Er. cbn [obind followContinuations] in Er.
  destruct (flagsOf_bits ohw Hf H52) as (_ & _ & F4 & _); [lia|]. rewrite Esz in Er.
  rewrite (parseV2ContinuationBlock_ok _ _ ks c1) in Er by done. cbn [obind] in Er.
  rewrite findContinuations_none in Er by (apply Forall_map, readBack_no_cont; done). cbn [obind app] in Er.
  match type of Er with _ = obind (followContinuations _ _ _ _ ?l ?nm) _ =>
    assert (Er' : ReadObjectHeader (S fuel) file2 address sb = let! refCount := refCountOf l sb 1 in
      Ret (mkHeader 2 (flagsOf ohw) (determineObjectType l) l nm refCount)) by (rewrite Er; by destruct fuel);
    destruct (refCountOf_total l sb 1) as [rc Erc] end.
  rewrite Erc in Er'. cbn [obind] in Er'. do 5 eexists. split_and!; [done|done|exact Er'|]. cbn [hMessages].
  rewrite !map_app, readBack_contents. cbn [map msgFields mType mData FromContinuation]. f_equal.
  rewrite map_map. rewrite <- (map_map msgFields (fun x => (x.1, true))). rewrite readBack_contents, map_map. done.
Qed.

Example continuation_roundtrip_witness :
  let ms := [(MsgDataspace, [x01; x02; x03])] in let ks := [(MsgName, [x41; x42])] in
  let d := le_put 8 100 ++ le_put 8 14 in
  exists sz file1 n file2 oh,
    WriteContinuationChunkV2 [] 100 ks = Ret (sz, file1) /\
    headerWriteTo (mkHeaderWriter 2 0 (ms ++ [(MsgContinuation, d)]) 0) file1 0 = Ret (n, file2) /\
    ReadObjectHeader 1 file2 0 demo_sb = Ret oh /\
    map msgFields (hMessages oh) = [(MsgDataspace, [x01; x02; x03], false); (MsgContinuation, d, false); (MsgName, [x41; x42], true)].
Proof.
  intros ms ks d.
  destruct (continuation_roundtrip demo_sb [] 0 100 ms ks 0 0 d) as (sz & f1 & n & f2 & oh & H).
  - by right; right.
  - by right; right.
  - done.
  - by vm_compute.
  - split; by vm_compute.
  - by vm_compute.
  - apply Forall_cons_2; [unfold msg_ok; split_and!; by vm_compute|]. apply Forall_nil_2.
  - subst ms ks. cbn [app]. repeat (apply Forall_cons_2; [done|]). apply Forall_nil_2.
  - by vm_compute.
  - unfold header_ok. split_and!; try done. subst ms. cbn [Messages app].
    repeat (apply Forall_cons_2; [unfold msg_ok; split_and!; by vm_compute|]). apply Forall_nil_2.
  - left. by vm_compute.
  - exists sz, f1, n, f2, oh. exact H.
Defined.

(** ** Safety and termination of the message loops *)

Lemma parseMessages_safe file end_ isz isBE : len file < 2 ^ 63 -> 4 <= isz <= 6 -> forall fuel current name,
  0 <= current < 2 ^ 64 -> Z.max 0 (len file - current) < Z.of_nat fuel ->
  no_panic (parseMessages fuel file current end_ isz isBE name).
Proof.
  intros Hf Hi. induction fuel as [|fuel IH]; intros current name Hc Hfuel; cbn [parseMessages];
    (destruct (current <? end_); [|apply no_panic_ret]); [lia|].
  destruct (read_at file (i64 current) 6) as [h|e|] eqn:Eh; cbn [obind];
    [|apply no_panic_err|by destruct (read_at_no_panic file (i64 current) 6)].
  pose proof (len_nonneg file). apply read_at_inv in Eh as (H1 & H2 & ->).
  assert (Hci : i64 current = current) by (unfold i64 in *; Z.div_mod_to_equations; lia). rewrite Hci in *.
  set (h := sub file current 6). assert (Hh : len h = 6) by (unfold h; rewrite len_sub; lia).
  destruct (idx_in_range h 0) as [t Et]; [lia|]. rewrite Et. cbn [obind]. rewrite slice_ret by lia. cbn [obind].
  rewrite (u64_id (current + isz)) by (unfold is_u; lia).
  set (sz := get_order _ _). assert (Hsz : 0 <= sz < 65536) by (change 65536 with (256 ^ 2); apply get_order_range; rewrite len_sub; lia).
  clearbody sz. destruct (sz =? 0); [apply IH; lia|].
  rewrite (u64_id (isz + sz)) by (unfold is_u; lia).
  destruct (read_at file _ sz) as [d|e|] eqn:Ed; cbn [obind];
    [|apply no_panic_err|by destruct (read_at_no_panic file (i64 (current + isz)) sz)].
  apply read_at_inv in Ed as (H3 & H4 & _). rewrite i64_id in * by lia.
  apply obind_no_panic; [apply IH; [|rewrite u64_id by (unfold is_u; lia)]; [apply u64_range|lia]|]. intros [] _. apply no_panic_ret.
Qed.

Lemma parseV1MessagesInBlock_safe file end_ maxMessages sb : len file < 2 ^ 63 -> forall fuel current count name,
  0 <= current < 2 ^ 64 -> Z.max 0 (len file - current) < Z.of_nat fuel ->
  no_panic (parseV1MessagesInBlock fuel file current end_ count maxMessages sb name).
Proof.
  intros Hf. induction fuel as [|fuel IH]; intros current count name Hc Hfuel; cbn [parseV1MessagesInBlock];
    (destruct (current <? end_); [|apply no_panic_ret]); [lia|].
  destruct (_ >=? _); [apply no_panic_ret|]. destruct (_ >? _); [apply no_panic_ret|].
  destruct (Z.ltb_spec (i64 current) 0) as [Hneg|Hneg]; [apply no_panic_err|].
  destruct (read_at file (i64 current) 8) as [h|e|] eqn:Eh; [|apply no_panic_ret..].
  pose proof (len_nonneg file). apply read_at_inv in Eh as (H1 & H2 & ->).
  assert (Hci : i64 current = current) by (unfold i64 in *; Z.div_mod_to_equations; lia). rewrite Hci in *.
  set (h := sub file current 8). assert (Hh : len h = 8) by (unfold h; rewrite len_sub; lia).
  rewrite !slice_ret by lia. cbn [obind]. rewrite !(u64_id (current + 8)) by (unfold is_u; lia).
  set (sz := get_order _ _). assert (Hsz : 0 <= sz < 65536) by (change 65536 with (256 ^ 2); apply get_order_range; rewrite len_sub; lia). clearbody sz.
  destruct (sz =? 0); [apply IH; lia|]. destruct (_ >? _); [apply no_panic_ret|].
  destruct (Z.ltb_spec (i64 (current + 8)) 0); [apply no_panic_err|].
  destruct (read_at file _ sz) as [d|e|] eqn:Ed; [|apply no_panic_ret..].
  apply read_at_inv in Ed as (H3 & H4 & _). rewrite i64_id in * by lia.
  apply obind_no_panic; [|intros [] _; apply no_panic_ret]. cbv zeta. apply IH; [apply u64_range|].
  assert (Ht : forall t, sz + 8 <= t < sz + 16 -> Z.max 0 (len file - u64 (current + t)) < Z.of_nat fuel)
    by (intros t Ht; rewrite u64_id by (unfold is_u; lia); lia).
  apply Ht. pose proof (Z.mod_pos_bound (8 + sz) 8). destruct (Z.eqb_spec ((8 + sz) mod 8) 0); cbn [negb]; lia.
Qed.

(** The message loops of both header versions terminate on every file, each
    message read being a step forward inside it: no continuation block, whatever
    its address, size and contents, makes the parser run on or index out of range. *)
Theorem continuation_blocks_safe file address size flags isBE sb :
  len file < 2 ^ 63 -> is_u 64 address ->
  no_panic (parseV2ContinuationBlock file address size flags isBE) /\
  no_panic (parseV1ContinuationBlock file address size sb).
Proof.
  intros Hf Ha. pose proof (len_nonneg file). split.
  - unfold parseV2ContinuationBlock. destruct (negb _); [|apply no_panic_err].
    apply obind_no_panic; [apply read_at_no_panic|]. intros sig _. destruct (bool_decide _); [|apply no_panic_err].
    pose proof (u64_range (address + 4)). apply parseMessages_safe; [done| |done|].
    + unfold headerSizeOf. destruct (negb _); lia.
    + unfold is_u, len in *. lia.
  - unfold parseV1ContinuationBlock. apply parseV1MessagesInBlock_safe; unfold is_u, len in *; [done..|lia].
Qed.

Example continuation_blocks_safe_witness :
  no_panic (parseV2ContinuationBlock (zeros 40) 3 100 0 false) /\
  no_panic (parseV1ContinuationBlock (zeros 40) 3 100 demo_sb).
Proof. apply continuation_blocks_safe; [by vm_compute|unfold is_u; lia]. Defined.

(** ** A continuation block that continues in itself *)

Definition cyclicFile : bytes :=
  let cont := le_put 8 40 ++ le_put 8 28 in
  take 40 (headBytes (mkHeaderWriter 2 0 [(MsgContinuation, cont)] 0) ++ zeros 40) ++
  ochkBytes [(MsgContinuation, cont)] 0.

Lemma followContinuations_cycle parse sb block msgs name :
  parse block.1 block.2 = Ret (msgs, name) -> findContinuations (map markContinuation msgs) sb = Ret [block] ->
  forall fuel messages nm, followContinuations fuel parse sb [block] messages nm = Panic.
Proof.
  intros Hp Hc. destruct block as [a s]. cbn in Hp. induction fuel as [|fuel IH]; intros messages nm; [done|].
  cbn [followContinuations]. rewrite Hp. cbn [obind]. rewrite Hc. cbn [obind app]. apply IH.
Qed.

(** A continuation block whose continuation message points to the block
    itself is followed for ever: no number of rounds is enough. *)
Theorem continuation_cycle_diverges fuel : ReadObjectHeader fuel cyclicFile 0 demo_sb = Panic.
Proof.
  assert (E : ReadObjectHeader fuel cyclicFile 0 demo_sb =
    let! (messages, name) := followContinuations fuel (fun a s => parseV2ContinuationBlock cyclicFile a s 0 false) demo_sb
      [(40, 28)] [mkMsg MsgContinuation 7 (le_put 8 40 ++ le_put 8 28) false] [] in
    let! refCount := refCountOf messages demo_sb 1 in
    Ret (mkHeader 2 0 (determineObjectType messages) messages name refCount)) by (by destruct fuel).
  rewrite E. by rewrite (followContinuations_cycle _ _ _ [mkMsg MsgContinuation 44 (le_put 8 40 ++ le_put 8 28) false] [])
    by (by vm_compute).
Qed.

(** ** Version 1 headers *)

Definition v1MsgBytes (m : MessageWriter) : bytes :=
  (le_put 2 m.1 ++ le_put 2 (len m.2) ++ zeros 4 ++ m.2) ++ zeros (sizeV1Msg (len m.2) - (8 + len m.2)).
Definition v1Body (messages : list MessageWriter) : bytes := concat (map v1MsgBytes messages).

Lemma sizeV1Msg_bounds n : 0 <= n -> 8 + n <= sizeV1Msg n < 16 + n.
Proof.
  intros Hn. unfold sizeV1Msg. pose proof (Z.mod_pos_bound (8 + n) 8 ltac:(lia)). destruct (Z.eqb_spec ((8 + n) mod 8) 0); cbn [negb]; lia.
Qed.

Lemma len_v1MsgBytes m : len (v1MsgBytes m) = sizeV1Msg (len m.2).
Proof.
  pose proof (sizeV1Msg_bounds (len m.2) (len_nonneg _)). unfold v1MsgBytes.
  rewrite !len_app, !len_le_put, len_zeros, len_zeros by lia. lia.
Qed.

Lemma v1Body_cons m ms : v1Body (m :: ms) = v1MsgBytes m ++ v1Body ms.
Proof. done. Qed.

Lemma len_v1Body ms : len (v1Body ms) = fold_right (fun (m : MessageWriter) t => sizeV1Msg (len m.2) + t) 0 ms.
Proof. induction ms as [|m ms IH]; [done|]. rewrite v1Body_cons, len_app, len_v1MsgBytes, IH. done. Qed.

Lemma putMessagesV1_cursor ms : forall pre k off,
  off = len pre -> len (v1Body ms) <= k ->
  putMessagesV1 ms (pre ++ zeros k) off = Ret ((pre ++ v1Body ms) ++ zeros (k - len (v1Body ms))).
Proof.
  induction ms as [|[t d] ms IH]; intros pre k off -> Hk; cbn [putMessagesV1].
  - change (v1Body []) with (@nil byte). by rewrite app_nil_r, len_nil, Z.sub_0_r.
  - rewrite v1Body_cons, len_app, len_v1MsgBytes in *. cbn [snd] in *. pose proof (len_nonneg (v1Body ms)).
    pose proof (len_nonneg d). pose proof (sizeV1Msg_bounds (len d) ltac:(lia)) as Hs. set (s := sizeV1Msg (len d)) in *.
    rewrite put_le_cursor by (done || lia). cbn [obind]. rewrite put_le_cursor by (rewrite ?len_app, ?len_le_put; lia).
    cbn [obind]. rewrite put_bytes_cursor by (rewrite ?len_app, ?len_le_put; change (len [x00]) with 1; lia). cbn [obind].
    change (len [x00]) with 1.
    rewrite (put_bytes_gap _ _ 3) by (rewrite ?len_app, ?len_le_put; change (len [x00]) with 1; lia). cbn [obind].
    rewrite (zeros_split (_ - len d) (s - (8 + len d))) by lia. rewrite app_assoc.
    match goal with |- putMessagesV1 _ (?p ++ _) _ = _ => replace p with (pre ++ v1MsgBytes (t, d))
      by (unfold v1MsgBytes; cbn [fst snd]; fold s; change (zeros 4) with ([x00] ++ zeros 3); by rewrite <- !app_assoc) end.
    rewrite IH by (rewrite ?len_app, ?len_v1MsgBytes; cbn [snd]; lia). rewrite <- !app_assoc. do 4 f_equal. f_equal. lia.
Qed.

(** The messages that lie before [end_], up to the first that does not. *)
Fixpoint fitV1 (a end_ : Z) (ms : list MessageWriter) : list HeaderMessage :=
  match ms with
  | [] => []
  | (t, d) :: ms =>
      if a + 8 + len d <=? end_ then mkMsg t a d false :: fitV1 (a + sizeV1Msg (len d)) end_ ms else []
  end.

Definition v1_msg_ok (m : MessageWriter) : Prop := 0 <= m.1 < 65536 /\ 0 < len m.2 < 65536.

Lemma parseV1_ok f sb maxMessages end_ : Endianness sb = LittleEndian -> len f < 2 ^ 63 -> maxMessages < 65536 ->
  forall ms a tail name fuel count,
  Forall v1_msg_ok ms -> stored f a (v1Body ms ++ tail) -> 0 <= count -> count + len ms = maxMessages ->
  (length ms < fuel)%nat ->
  exists name', parseV1MessagesInBlock fuel f a end_ count maxMessages sb name = Ret (fitV1 a end_ ms, name').
Proof.
  intros He Hf Hmax. induction ms as [|[t d] ms IH]; intros a tail name [|fuel] count Hok Hst Hc Hcm Hfuel;
    cbn [length] in *; try lia; cbn [parseV1MessagesInBlock].
  - rewrite len_nil in Hcm. destruct (a <? end_); [|eauto]. destruct (Z.geb_spec count maxMessages); [eauto|lia].
  - apply Forall_cons in Hok as [[Hm Hd] Hok]. cbn [fst snd] in Hm, Hd. rewrite len_cons in Hcm. pose proof (len_nonneg ms).
    destruct (stored_bounds _ _ _ Hst) as [Ha Hlen]. rewrite v1Body_cons, <- app_assoc in Hst.
    rewrite v1Body_cons, !len_app, len_v1MsgBytes in Hlen. cbn [snd] in Hlen.
    pose proof (sizeV1Msg_bounds (len d) ltac:(lia)) as Hs. pose proof (len_nonneg (v1Body ms)). pose proof (len_nonneg tail).
    cbn [fitV1]. rewrite !(u64_id (a + 8)) by (unfold is_u; lia).
    destruct (Z.geb_spec count maxMessages); [lia|].
    destruct (Z.ltb_spec a end_); [|destruct (Z.leb_spec (a + 8 + len d) end_); [lia|eauto]].
    destruct (Z.gtb_spec (a + 8) end_); [destruct (Z.leb_spec (a + 8 + len d) end_); [lia|eauto]|].
    rewrite !i64_id by lia. destruct (Z.ltb_spec a 0); [lia|].
    rewrite (stored_read _ _ _ 8 Hst) by (rewrite !len_app, len_v1MsgBytes; cbn [snd]; lia). change (Z.to_nat 8) with 8%nat.
    set (h := take 8 _). assert (Eh : h = le_put 2 t ++ le_put 2 (len d) ++ zeros 4) by done.
    assert (E0 : slice h 0 2 = Ret (le_put 2 t)) by (by rewrite Eh; eapply (slice_at _ [])).
    assert (E1 : slice h 2 4 = Ret (le_put 2 (len d))) by (by rewrite Eh; eapply slice_at).
    rewrite E0, E1, He. cbn [obind get_order]. rewrite !le_get_put_small by (cbn; lia).
    destruct (Z.eqb_spec (len d) 0); [lia|]. rewrite (u64_id (a + 8 + len d)) by (unfold is_u; lia).
    destruct (Z.gtb_spec (a + 8 + len d) end_), (Z.leb_spec (a + 8 + len d) end_); try lia; [eauto|].
    destruct (Z.ltb_spec (a + 8) 0); [lia|].
    assert (Ed : read_at f (a + 8) (len d) = Ret d).
    { unfold v1MsgBytes in Hst. cbn [fst snd] in Hst.
      apply (stored_part f a (le_put 2 t ++ le_put 2 (len d) ++ zeros 4) d
        (zeros (sizeV1Msg (len d) - (8 + len d)) ++ v1Body ms ++ tail)). by rewrite <- !app_assoc in *. }
    rewrite Ed. cbv zeta. fold (sizeV1Msg (len d)). rewrite (u64_id (a + sizeV1Msg (len d))) by (unfold is_u; lia).
    rewrite (u16_id (count + 1)) by (unfold is_u; lia). apply stored_app_r in Hst. rewrite len_v1MsgBytes in Hst. cbn [snd] in Hst.
    match goal with |- context [parseV1MessagesInBlock _ _ _ _ _ _ _ ?nm] =>
      destruct (IH (a + sizeV1Msg (len d)) tail nm fuel (count + 1) Hok Hst) as [name' E]; [lia..|] end.
    rewrite E. cbn [obind]. eauto.
Qed.

Lemma fitV1_all ms : forall a end_, a + len (v1Body ms) <= end_ ->
  map msgFields (fitV1 a end_ ms) = map (fun m => (m.1, m.2, false)) ms.
Proof.
  induction ms as [|[t d] ms IH]; intros a end_ H; cbn [fitV1]; [done|].
  rewrite v1Body_cons, len_app, len_v1MsgBytes in H. cbn [snd] in H. pose proof (len_nonneg (v1Body ms)).
  pose proof (sizeV1Msg_bounds (len d) (len_nonneg _)). destruct (Z.leb_spec (a + 8 + len d) end_); [|lia].
  cbn [map msgFields mType mData FromContinuation fst snd]. by rewrite IH by lia.
Qed.

Lemma fitV1_no_cont ms end_ : forall a,
  Forall (fun m : MessageWriter => m.1 <> MsgContinuation) ms ->
  Forall (fun m => mType m <> MsgContinuation) (fitV1 a end_ ms).
Proof.
  induction ms as [|[t d] ms IH]; intros a H; cbn [fitV1]; [constructor|].
  apply Forall_cons in H as [H1 H2]. destruct (_ <=? _); auto.
Qed.

Definition v1Head (ohw : ObjectHeaderWriter) : bytes :=
  ([z2b 1] ++ [z2b 0] ++ le_put 2 (len (Messages ohw)) ++ le_put 4 (RefCount ohw) ++
   le_put 4 (16 + len (Messages ohw) * 8)) ++ zeros 4.

Lemma len_v1Head ohw : len (v1Head ohw) = 16.
Proof. done. Qed.

Lemma headerKind_v1 ohw tail : headerKind (take 8 (v1Head ohw ++ tail)) = Ret (1, 0, false).
Proof.
  unfold headerKind. set (h := take 8 _).
  assert (E : slice h 0 4 = Ret ([x01; x00] ++ le_put 2 (len (Messages ohw)))) by done.
  rewrite E. cbn [obind]. rewrite !bool_decide_false by (cbn; discriminate). done.
Qed.

Lemma v1Body_length ms : 8 * len ms <= len (v1Body ms).
Proof.
  induction ms as [|m ms IH]; [done|]. rewrite v1Body_cons, len_app, len_cons, len_v1MsgBytes.
  pose proof (sizeV1Msg_bounds (len m.2) (len_nonneg _)). pose proof (len_nonneg m.2). lia.
Qed.

Lemma writeToV1_ret ohw file address :
  0 <= address -> address + 16 + len (v1Body (Messages ohw)) < 2 ^ 63 -> len (Messages ohw) < 65536 ->
  sizeV1 ohw = 16 + len (v1Body (Messages ohw)) /\
  writeToV1 ohw file address = Ret (sizeV1 ohw, write_at file address (v1Head ohw ++ v1Body (Messages ohw))).
Proof.
  intros Ha Hl Hn. pose proof (len_nonneg (v1Body (Messages ohw))). pose proof (len_nonneg (Messages ohw)).
  assert (Hs : sizeV1 ohw = 16 + len (v1Body (Messages ohw))).
  { unfold sizeV1. rewrite sumSizes_eq by (intros n Hn'; pose proof (sizeV1Msg_bounds n Hn'); lia).
    rewrite <- len_v1Body. rewrite !u64_id by (unfold is_u; rewrite ?u64_id by (unfold is_u; lia); lia). lia. }
  split; [done|]. unfold writeToV1, encodeV1. rewrite Hs. set (n := len (v1Body _)) in *. cbv zeta.
  rewrite u32_id by (unfold is_u; lia). rewrite <- (app_nil_l (zeros _)).
  set (pre := [z2b 1] ++ [z2b 0] ++ le_put 2 (len (Messages ohw)) ++ le_put 4 (RefCount ohw) ++
    le_put 4 (16 + len (Messages ohw) * 8)).
  rewrite putFields_ret by (cbn [contiguous map snd concat]; first [split_and!; done | rewrite app_nil_r; change (12 <= 16 + n); lia]).
  cbn [obind map snd concat]. rewrite app_nil_r, app_nil_l. change ([z2b 1] ++ _) with pre. change (len pre) with 12.
  rewrite (zeros_split _ 4), app_assoc by lia. change (pre ++ zeros 4) with (v1Head ohw).
  rewrite putMessagesV1_cursor by (done || (fold n; lia)). cbn [obind]. fold n.
  unfold os_write_at. rewrite i64_id by lia. destruct (Z.leb_spec 0 address); [|lia]. cbn [obind].
  replace (16 + n - 12 - 4 - n) with 0 by lia. by rewrite app_nil_r.
Qed.

(** A written version-1 header is read back as the messages that lie in its
    first [16 + 8 n] bytes, [n] being their number: the writer stores the size of
    the message headers where the reader expects that of the whole message area.
    All messages are read back when their data fits those bytes, as the one
    message of a root group does; the others are lost without an error. *)
Theorem object_header_v1_prefix ohw file address sb fuel :
  wVersion ohw = 1 -> Forall v1_msg_ok (Messages ohw) -> len (Messages ohw) < 65536 -> is_u 32 (RefCount ohw) ->
  Forall (fun m => m.1 <> MsgContinuation) (Messages ohw) -> Endianness sb = LittleEndian ->
  0 <= address -> address + 32 + len (v1Body (Messages ohw)) < 2 ^ 63 -> len file < 2 ^ 63 ->
  let area := 16 + 8 * len (Messages ohw) in
  exists n file' oh, Size_ ohw = Ret n /\ headerWriteTo ohw file address = Ret (n, file') /\
    ReadObjectHeader fuel file' address sb = Ret oh /\ hVersion oh = 1 /\ ReferenceCount oh = RefCount ohw /\
    hMessages oh = fitV1 (address + 16) (address + 16 + area) (Messages ohw) /\
    (len (v1Body (Messages ohw)) <= area ->
     map msgFields (hMessages oh) = map (fun m => (m.1, m.2, false)) (Messages ohw)).
Proof.
  intros Hv Hok Hn Hrc Hc He Ha Hl Hf area. pose proof (len_nonneg (v1Body (Messages ohw))). pose proof (len_nonneg (Messages ohw)).
  pose proof (v1Body_length (Messages ohw)) as Hbl.
  destruct (writeToV1_ret ohw file address Ha) as [Hs Hw]; [lia|done|]. set (file' := write_at _ _ _) in Hw.
  assert (Hst : stored file' address (v1Head ohw ++ v1Body (Messages ohw))) by (by apply stored_write).
  assert (Hf' : len file' < 2 ^ 63) by (unfold file'; rewrite len_write_at, len_app, len_v1Head by lia; lia).
  pose proof (stored_app_r _ _ _ _ Hst) as Hb. rewrite len_v1Head in Hb. rewrite <- (app_nil_r (v1Body _)) in Hb.
  destruct (stored_bounds _ _ _ Hst) as [_ Hbd]. rewrite len_app, len_v1Head in Hbd.
  destruct (parseV1_ok file' sb (len (Messages ohw)) (address + 16 + area) He Hf' Hn (Messages ohw) (address + 16) []
    [] (S (length file')) 0 Hok Hb) as [name E]; [lia|lia|unfold len in *; lia|].
  exists (sizeV1 ohw), file'.
  exists (mkHeader 1 0 (determineObjectType (fitV1 (address + 16) (address + 16 + area) (Messages ohw)))
    (fitV1 (address + 16) (address + 16 + area) (Messages ohw)) name (RefCount ohw)).
  split_and!; try done.
  - unfold Size_. by rewrite Hv.
  - unfold headerWriteTo. by rewrite Hv.
  - unfold ReadObjectHeader. rewrite i64_id by lia. destruct (Z.ltb_spec address 0); [lia|]. cbn [negb].
    rewrite (stored_read _ _ _ 8 Hst) by (rewrite !len_app, len_v1Head; lia). cbn [obind].
    change (Z.to_nat 8) with 8%nat. rewrite headerKind_v1. cbn [obind Z.eqb Pos.eqb].
    unfold parseV1Header. rewrite i64_id by lia.
    rewrite (stored_read _ _ _ 16 Hst) by (rewrite !len_app, len_v1Head; lia). cbn [obind].
    replace (take (Z.to_nat 16) _) with (v1Head ohw) by done. change (idx (v1Head ohw) 0) with (Ret x01). cbn [obind].
    change (negb (b2z x01 =? 1)) with false. cbv iota.
    assert (E2 : slice (v1Head ohw) 2 4 = Ret (le_put 2 (len (Messages ohw)))) by done.
    assert (E4 : slice (v1Head ohw) 4 8 = Ret (le_put 4 (RefCount ohw))) by done.
    assert (E8 : slice (v1Head ohw) 8 12 = Ret (le_put 4 (16 + len (Messages ohw) * 8))) by done.
    rewrite E2, E4, E8, He. cbn [obind get_order]. rewrite !le_get_put_small by (unfold is_u in *; cbn; lia).
    rewrite (u64_id (address + 16)) by (unfold is_u; lia). rewrite u64_id by (unfold is_u; lia).
    replace (address + 16 + (16 + len (Messages ohw) * 8)) with (address + 16 + area) by lia. rewrite E. cbn [obind].
    rewrite findContinuations_none by (by apply fitV1_no_cont). cbn [obind]. by destruct fuel.
  - intros Hfit. apply fitV1_all. lia.
Qed.

Definition demo_v1 : ObjectHeaderWriter := mkHeaderWriter 1 0 [(MsgSymbolTable, zeros 16)] 1.

Example object_header_v1_prefix_witness :
  exists n file' oh, Size_ demo_v1 = Ret n /\ headerWriteTo demo_v1 [] 0 = Ret (n, file') /\
    ReadObjectHeader 0 file' 0 demo_sb = Ret oh /\ map msgFields (hMessages oh) = [(MsgSymbolTable, zeros 16, false)].
Proof.
  destruct (object_header_v1_prefix demo_v1 [] 0 demo_sb 0) as (n & file' & oh & E1 & E2 & E3 & _ & _ & _ & E4).
  - done.
  - apply Forall_cons_2; [|apply Forall_nil_2]. unfold v1_msg_ok. split_and!; by vm_compute.
  - done.
  - unfold is_u. cbn. lia.
  - apply Forall_cons_2; [done|apply Forall_nil_2].
  - done.
  - done.
  - done.
  - done.
  - exists n, file', oh. split_and!; try done. by apply E4.
Defined.

(** Two messages of 16 bytes: the second one is gone. *)
Example v1_second_message_lost :
  (let! (_, f) := headerWriteTo (mkHeaderWriter 1 0 [(MsgSymbolTable, zeros 16); (MsgName, zeros 16)] 1) [] 0 in
   let! oh := ReadObjectHeader 5 f 0 demo_sb in Ret (map mType (hMessages oh))) = Ret [MsgSymbolTable].
Proof. vm_compute. reflexivity. Qed.

(** A size bit set for the caller's flags is written over; the bits that announce
    optional fields are kept although no field is written. *)
Example rewritten_flags_unreadable :
  (let! (_, f) := headerWriteTo (mkHeaderWriter 2 32 [(MsgDataspace, [x01; x02; x03])] 0) [] 0 in
   ReadObjectHeader 5 f 0 demo_sb) = Err "EOF".
Proof. vm_compute. reflexivity. Qed.
