(* ===== verification/Datatype.v ===== *)
(** * Datatype messages: internal/core/datatype.go, datatype_compound.go,
    datatype_compound_write.go and the datatype encoders of messages_write.go

    The parser recurses into compound members; it is modelled with fuel, and
    every member starts strictly inside its parent, so that one more than the
    length of the message is always enough ([ParseDatatypeMessage]). *)

From S2P Require Import Prelude.

(** ** Data *)

Definition DatatypeFixed : Z := 0.
Definition DatatypeFloat : Z := 1.
Definition DatatypeTime : Z := 2.
Definition DatatypeString : Z := 3.
Definition DatatypeBitfield : Z := 4.
Definition DatatypeOpaque : Z := 5.
Definition DatatypeCompound : Z := 6.
Definition DatatypeReference : Z := 7.
Definition DatatypeEnum : Z := 8.
Definition DatatypeVarLen : Z := 9.
Definition DatatypeArray : Z := 10.
Definition DatatypeComplex : Z := 11.

Record DatatypeMessage := mkDatatype {
  dtClass : Z;
  dtVersion : Z;
  dtSize : Z;
  ClassBitField : Z;
  Properties : bytes }.

#[global] Instance DatatypeMessage_eq_dec : EqDecision DatatypeMessage.
Proof. solve_decision. Defined.

(** ** Parsing *)

(** The bytes before the first zero byte. *)
Fixpoint cstring (bs : bytes) : bytes :=
  match bs with
  | [] => []
  | b :: r => if b2z b =? 0 then [] else b :: cstring r
  end.

(** The name that starts at [start], and where it ends: at its null byte, or at
    the end of [properties]. *)
Definition nameAt (properties : bytes) (start : Z) : bytes := cstring (drop (Z.to_nat start) properties).
Definition nameEndAt (properties : bytes) (start : Z) : Z := start + len (nameAt properties start).

(** The members of a version-3 compound, skipped one after the other; the result
    is the offset after the last. *)
Fixpoint skipMembers (parse : bytes -> outcome DatatypeMessage) (fuel : nat) (properties : bytes)
    (numMembers i offset : Z) : outcome Z :=
  if i <? numMembers then
    match fuel with
    | O => Panic
    | S fuel =>
        let nameEnd := nameEndAt properties offset in
        guard negb (nameEnd >=? len properties) else "name not null-terminated";;
        let offset := nameEnd + 1 in
        guard negb (offset + 4 >? len properties) else "offset field truncated";;
        let offset := offset + 4 in
        guard negb (offset + 8 >? len properties) else "datatype header truncated";;
        let! rest := slice properties offset (len properties) in
        let! memberDt := parse rest in
        skipMembers parse fuel properties numMembers (i + 1) (offset + (8 + len (Properties memberDt)))
    end
  else Ret offset.

Definition calculateCompoundPropsLen (parse : bytes -> outcome DatatypeMessage) (properties : bytes) (version : Z)
    : outcome Z :=
  guard version =? 3 else "compound v1/v2 inline size calculation not yet implemented";;
  guard negb (len properties <? 4) else "compound v3 properties too short for member count";;
  let! numMembers := get_le 4 properties 0 in
  skipMembers parse (S (length properties)) properties numMembers 0 4.

(** How many bytes of [data] after the header are the type's properties. *)
Definition propsLenOf (parse : bytes -> outcome DatatypeMessage) (data : bytes) (class version : Z) : outcome Z :=
  if class =? DatatypeFixed then Ret 4
  else if class =? DatatypeFloat then Ret 12
  else if class =? DatatypeBitfield then Ret 4
  else if class =? DatatypeTime then Ret 2
  else if class =? DatatypeCompound then
    let! props := slice data 8 (len data) in
    match calculateCompoundPropsLen parse props version with
    | Ret calculatedLen => Ret calculatedLen
    | Err _ => Ret (len data - 8)
    | Panic => Panic
    end
  else Ret (len data - 8).

Fixpoint parseDatatype (fuel : nat) (data : bytes) : outcome DatatypeMessage :=
  match fuel with
  | O => Panic
  | S fuel =>
      guard negb (len data <? 8) else "datatype message too short";;
      let! classAndVersion := get_le 4 data 0 in
      let class := Z.land classAndVersion 15 in
      let version := Z.land (Z.shiftr classAndVersion 4) 15 in
      let classBitField := Z.land (Z.shiftr classAndVersion 8) 16777215 in
      let! size := get_le 4 data 4 in
      let! propsLen := propsLenOf (parseDatatype fuel) data class version in
      let propsLen := if 8 + propsLen >? len data then len data - 8 else propsLen in
      let! properties := slice data 8 (8 + propsLen) in
      Ret (mkDatatype class version size classBitField properties)
  end.

Definition ParseDatatypeMessage (data : bytes) : outcome DatatypeMessage := parseDatatype (S (length data)) data.

Definition IsFloat64 (dt : DatatypeMessage) : bool := (dtClass dt =? DatatypeFloat) && (dtSize dt =? 8).
Definition IsFloat32 (dt : DatatypeMessage) : bool := (dtClass dt =? DatatypeFloat) && (dtSize dt =? 4).
Definition IsInt32 (dt : DatatypeMessage) : bool := (dtClass dt =? DatatypeFixed) && (dtSize dt =? 4).
Definition IsInt64 (dt : DatatypeMessage) : bool := (dtClass dt =? DatatypeFixed) && (dtSize dt =? 8).
Definition IsFixedPoint (dt : DatatypeMessage) : bool := dtClass dt =? DatatypeFixed.
Definition IsSignedFixedPoint (dt : DatatypeMessage) : bool :=
  (dtClass dt =? DatatypeFixed) && negb (Z.land (ClassBitField dt) 8 =? 0).
Definition IsString (dt : DatatypeMessage) : bool := dtClass dt =? DatatypeString.
Definition IsFixedString (dt : DatatypeMessage) : bool :=
  if negb (dtClass dt =? DatatypeString) then false else dtSize dt >? 0.
Definition IsVariableString (dt : DatatypeMessage) : bool :=
  if dtClass dt =? DatatypeVarLen then Z.land (ClassBitField dt) 15 =? 1 else false.
Definition IsCompound (dt : DatatypeMessage) : bool := dtClass dt =? DatatypeCompound.
Definition GetStringPadding (dt : DatatypeMessage) : Z := Z.land (ClassBitField dt) 15.
Definition GetByteOrder (dt : DatatypeMessage) : ByteOrder :=
  if Z.land (ClassBitField dt) 1 =? 0 then LittleEndian else BigEndian.

Definition GetEncodedSize (dt : DatatypeMessage) : Z :=
  if dtClass dt =? DatatypeFixed then 12
  else if dtClass dt =? DatatypeFloat then 20
  else if dtClass dt =? DatatypeBitfield then 12
  else if dtClass dt =? DatatypeTime then 10
  else 8 + len (Properties dt).

(** ** Compound types *)

Record CompoundMember := mkMember {
  cmName : bytes;
  cmOffset : Z;
  cmType : DatatypeMessage }.

Record CompoundType := mkCompound {
  ctSize : Z;
  ctMembers : list CompoundMember }.

Fixpoint parseMembersV1 (fuel : nat) (properties : bytes) (numMembers i offset : Z) : outcome (list CompoundMember) :=
  if i <? numMembers then
    match fuel with
    | O => Panic
    | S fuel =>
        let nameEnd := nameEndAt properties offset in
        guard negb (nameEnd >=? len properties) else "name not null-terminated";;
        let! name := slice properties offset nameEnd in
        let nameLen := nameEnd - offset in
        let offset := offset + (nameLen + 8) / 8 * 8 in
        guard negb (offset + 4 >? len properties) else "offset field truncated";;
        let! mOffset := get_le 4 properties offset in
        let offset := offset + 4 in
        guard negb (offset + 28 >? len properties) else "array info truncated";;
        let offset := offset + 28 in
        guard negb (offset + 8 >? len properties) else "datatype header truncated";;
        let! rest := slice properties offset (len properties) in
        let! memberType := ParseDatatypeMessage rest in
        let! members := parseMembersV1 fuel properties numMembers (i + 1) (offset + GetEncodedSize memberType) in
        Ret (mkMember name mOffset memberType :: members)
    end
  else Ret [].

(** Every member takes at least 48 bytes, so the loop ends within the fuel. *)
Definition parseCompoundV1 (size : Z) (properties : bytes) (numMembers : Z) : outcome CompoundType :=
  let! members := parseMembersV1 (S (length properties)) properties numMembers 0 0 in Ret (mkCompound size members).

Fixpoint parseMembersV3 (fuel : nat) (properties : bytes) (numMembers i offset : Z) : outcome (list CompoundMember) :=
  if i <? numMembers then
    match fuel with
    | O => Panic
    | S fuel =>
        let nameEnd := nameEndAt properties offset in
        guard negb (nameEnd >=? len properties) else "name not null-terminated";;
        let! name := slice properties offset nameEnd in
        let offset := nameEnd + 1 in
        guard negb (offset + 4 >? len properties) else "offset field truncated";;
        let! mOffset := get_le 4 properties offset in
        let offset := offset + 4 in
        guard negb (offset + 8 >? len properties) else "datatype header truncated";;
        let! rest := slice properties offset (len properties) in
        let! memberType := ParseDatatypeMessage rest in
        let! members :=
          parseMembersV3 fuel properties numMembers (i + 1) (offset + (8 + len (Properties memberType))) in
        Ret (mkMember name mOffset memberType :: members)
    end
  else Ret [].

Definition parseCompoundV3 (size : Z) (properties : bytes) : outcome CompoundType :=
  guard negb (len properties <? 4) else "compound v3 properties too short";;
  let! numMembers := get_le 4 properties 0 in
  let! members := parseMembersV3 (S (length properties)) properties numMembers 0 4 in
  Ret (mkCompound size members).

Definition ParseCompoundType (dt : DatatypeMessage) : outcome CompoundType :=
  guard dtClass dt =? DatatypeCompound else "not a compound datatype";;
  guard negb (len (Properties dt) <? 2) else "compound properties too short";;
  if dtVersion dt =? 1 then parseCompoundV1 (dtSize dt) (Properties dt) (u16 (Z.land (ClassBitField dt) 65535))
  else if dtVersion dt =? 3 then parseCompoundV3 (dtSize dt) (Properties dt)
  else Err "unsupported compound datatype version".

(** ** Encoding *)

(** [uint32(class) | uint32(version) << 4 | classBitField << 8]. *)
Definition packHeader (class version classBitField : Z) : Z :=
  Z.lor (Z.lor class (u32 (Z.shiftl version 4))) (u32 (Z.shiftl classBitField 8)).

(** Header and properties into a buffer of the right size. *)
Definition encodeMessage (class version classBitField size : Z) (properties : bytes) (messageSize : Z) : outcome bytes :=
  putFields (zeros messageSize)
    [(0, le_put 4 (packHeader class version classBitField)); (4, le_put 4 size); (8, properties)].

Definition floatProperties (size : Z) : outcome bytes :=
  let props epos esize msize ebias :=
    le_put 2 0 ++ le_put 2 (size * 8) ++ [z2b epos; z2b esize; z2b 0; z2b msize] ++ le_put 4 ebias in
  if size =? 4 then Ret (props 23 8 23 127)
  else if size =? 8 then Ret (props 52 11 52 1023)
  else Err "unsupported float size".

Definition encodeDatatypeNumeric (dt : DatatypeMessage) : outcome bytes :=
  let size := dtSize dt in
  guard (size =? 1) || (size =? 2) || (size =? 4) || (size =? 8) else "invalid numeric datatype size";;
  let! properties :=
    (if dtClass dt =? DatatypeFloat then floatProperties size else Ret (le_put 2 0 ++ le_put 2 (size * 8))) in
  encodeMessage (dtClass dt) 1 (ClassBitField dt) size properties (8 + len properties).

Definition encodeDatatypeString (dt : DatatypeMessage) : outcome bytes :=
  guard negb (dtSize dt =? 0) else "fixed-length strings must have size > 0";;
  let properties := [x00] in
  encodeMessage (dtClass dt) 1 (ClassBitField dt) (dtSize dt) properties (8 + len properties).

Definition encodeDatatypeCompound (dt : DatatypeMessage) : outcome bytes :=
  guard negb (len (Properties dt) =? 0) else "compound datatype has no member definitions";;
  encodeMessage (dtClass dt) (dtVersion dt) (ClassBitField dt) (dtSize dt) (Properties dt) (8 + len (Properties dt)).

Definition encodeDatatypeVLen (dt : DatatypeMessage) : outcome bytes :=
  encodeMessage (dtClass dt) (dtVersion dt) (ClassBitField dt) (dtSize dt) (Properties dt) (8 + len (Properties dt)).

Definition encodeDatatypeReference (dt : DatatypeMessage) : outcome bytes :=
  guard (dtSize dt =? 8) || (dtSize dt =? 12) else "invalid reference datatype size";;
  encodeMessage (dtClass dt) 1 (ClassBitField dt) (dtSize dt) [] 8.

Definition encodeDatatypeOpaque (dt : DatatypeMessage) : outcome bytes :=
  guard negb (dtSize dt =? 0) else "opaque datatype size cannot be 0";;
  let tag := Properties dt in
  guard negb (len tag =? 0) else "opaque datatype requires non-empty tag";;
  let paddedLen := (len tag + 7) / 8 * 8 in
  encodeMessage (dtClass dt) 1 (u32 paddedLen) (dtSize dt) tag (8 + paddedLen).

Definition EncodeDatatypeMessage (dt : DatatypeMessage) : outcome bytes :=
  guard negb (dtSize dt =? 0) else "datatype size cannot be 0";;
  let c := dtClass dt in
  if (c =? DatatypeFixed) || (c =? DatatypeFloat) then encodeDatatypeNumeric dt
  else if c =? DatatypeString then encodeDatatypeString dt
  else if c =? DatatypeArray then Err "array datatype encoding requires EncodeArrayDatatypeMessage"
  else if c =? DatatypeEnum then Err "enum datatype encoding requires EncodeEnumDatatypeMessage"
  else if c =? DatatypeReference then encodeDatatypeReference dt
  else if c =? DatatypeOpaque then encodeDatatypeOpaque dt
  else if c =? DatatypeCompound then encodeDatatypeCompound dt
  else if c =? DatatypeVarLen then encodeDatatypeVLen dt
  else Err "unsupported datatype class for writing".

(** The dimensions of an array type, each checked before it is stored. *)
Fixpoint putArrayDims (dims : list Z) (buf : bytes) (offset : Z) : outcome (bytes * Z) :=
  match dims with
  | [] => Ret (buf, offset)
  | dim :: dims =>
      guard negb (dim >? 4294967295) else "dimension too large";;
      let! buf := put_le 4 buf offset dim in putArrayDims dims buf (offset + 4)
  end.

Definition EncodeArrayDatatypeMessage (baseType : bytes) (dims : list Z) (arraySize : Z) : outcome bytes :=
  guard negb (len dims =? 0) else "array dimensions cannot be empty";;
  guard negb (len dims >? 255) else "too many array dimensions";;
  guard negb (len baseType =? 0) else "base type cannot be empty";;
  let ndims := len dims in
  let messageSize := 8 + (1 + ndims * 4) + len baseType in
  let! buf := putFields (zeros messageSize)
    [(0, le_put 4 (packHeader DatatypeArray 3 0)); (4, le_put 4 arraySize); (8, [z2b ndims])] in
  let! (buf, offset) := putArrayDims dims buf 9 in
  put_bytes buf offset baseType.

(** Null-terminated name padded to a multiple of 8, as enum members have it. *)
Definition paddedName (name : bytes) : Z := (len name + 1 + 7) / 8 * 8.

Fixpoint enumSizeLoop (names : list bytes) (values : bytes) (enumSize i total : Z) : outcome Z :=
  match names with
  | [] => Ret total
  | name :: names =>
      let total := total + paddedName name in
      guard negb (i * enumSize + enumSize >? len values) else "not enough value bytes for member";;
      enumSizeLoop names values enumSize (i + 1) (total + enumSize)
  end.

Fixpoint putEnumMembers (names : list bytes) (values : bytes) (enumSize i : Z) (buf : bytes) (offset : Z)
    : outcome bytes :=
  match names with
  | [] => Ret buf
  | name :: names =>
      let! buf := put_bytes buf offset name in
      let! buf := put_bytes buf (offset + len name) [x00] in
      let offset := offset + paddedName name in
      let! value := slice values (i * enumSize) (i * enumSize + enumSize) in
      let! buf := put_bytes buf offset value in
      putEnumMembers names values enumSize (i + 1) buf (offset + enumSize)
  end.

Definition EncodeEnumDatatypeMessage (baseType : bytes) (names : list bytes) (values : bytes) (enumSize : Z)
    : outcome bytes :=
  guard negb (len names =? 0) else "enum must have at least one member";;
  guard negb (len names >? 65535) else "too many enum members";;
  guard negb (len baseType =? 0) else "base type cannot be empty";;
  let! namesValuesSize := enumSizeLoop names values enumSize 0 0 in
  let! buf := putFields (zeros (8 + len baseType + namesValuesSize))
    [(0, le_put 4 (packHeader DatatypeEnum 3 (len names))); (4, le_put 4 enumSize); (8, baseType)] in
  putEnumMembers names values enumSize 0 buf (8 + len baseType).

(** ** Encoding compound types *)

(** [fType]: a nil pointer is [None]. *)
Record CompoundFieldDef := mkField {
  fName : bytes;
  fOffset : Z;
  fType : option DatatypeMessage }.

(** The size of all member definitions: [nameSize] bytes for a name and [fixed]
    bytes more per member. *)
Fixpoint fieldsSize (nameSize : Z -> Z) (fixed : Z) (fields : list CompoundFieldDef) (propsSize : Z) : outcome Z :=
  match fields with
  | [] => Ret propsSize
  | field :: fields =>
      guard negb (len (fName field) =? 0) else "name cannot be empty";;
      match fType field with
      | None => Err "type cannot be nil"
      | Some t =>
          fieldsSize nameSize fixed fields (propsSize + nameSize (len (fName field)) + fixed + 8 + len (Properties t))
      end
  end.

Definition nameSizeV3 (n : Z) : Z := n + 1.
Definition nameSizeV1 (n : Z) : Z := (n + 8) / 8 * 8.

(** Member datatype: header and properties. *)
Definition putMemberType (buf : bytes) (offset : Z) (t : DatatypeMessage) : outcome (bytes * Z) :=
  let! buf := put_le 4 buf offset (packHeader (dtClass t) (dtVersion t) (ClassBitField t)) in
  let! buf := put_le 4 buf (offset + 4) (dtSize t) in
  let! buf := put_bytes buf (offset + 8) (Properties t) in
  Ret (buf, offset + 8 + len (Properties t)).

(** Members of version 3 and 1: [nameSize] as above, [gap] bytes of zeros between
    the member's offset and its type. *)
Fixpoint putFieldDefs (nameSize : Z -> Z) (gap : Z) (fields : list CompoundFieldDef) (buf : bytes) (offset : Z)
    : outcome (bytes * Z) :=
  match fields with
  | [] => Ret (buf, offset)
  | field :: fields =>
      let! buf := put_bytes buf offset (fName field) in
      let! buf := put_bytes buf (offset + len (fName field)) [x00] in
      let offset := offset + nameSize (len (fName field)) in
      let! buf := put_le 4 buf offset (fOffset field) in
      let offset := offset + 4 + gap in
      match fType field with
      | None => Panic
      | Some t => let! (buf, offset) := putMemberType buf offset t in putFieldDefs nameSize gap fields buf offset
      end
  end.

Definition EncodeCompoundDatatypeV3 (totalSize : Z) (fields : list CompoundFieldDef) : outcome bytes :=
  guard negb (len fields =? 0) else "compound datatype must have at least one field";;
  guard negb (totalSize =? 0) else "compound datatype size cannot be 0";;
  guard negb (len fields >? 4294967295) else "too many fields";;
  let! propsSize := fieldsSize nameSizeV3 4 fields 4 in
  let! buf := putFields (zeros (8 + propsSize))
    [(0, le_put 4 (packHeader DatatypeCompound 3 0)); (4, le_put 4 totalSize); (8, le_put 4 (len fields))] in
  let! (buf, offset) := putFieldDefs nameSizeV3 0 fields buf 12 in
  guard offset =? len buf else "internal error: buffer size mismatch";;
  Ret buf.

Definition EncodeCompoundDatatypeV1 (totalSize : Z) (fields : list CompoundFieldDef) : outcome bytes :=
  guard negb (len fields =? 0) else "compound datatype must have at least one field";;
  guard negb (totalSize =? 0) else "compound datatype size cannot be 0";;
  guard negb (len fields >? 65535) else "too many fields for version 1";;
  let! propsSize := fieldsSize nameSizeV1 32 fields 0 in
  let! buf := putFields (zeros (8 + propsSize))
    [(0, le_put 4 (packHeader DatatypeCompound 1 (len fields))); (4, le_put 4 totalSize)] in
  let! (buf, offset) := putFieldDefs nameSizeV1 28 fields buf 8 in
  guard offset =? len buf else "internal error: buffer size mismatch";;
  Ret buf.

(** The offsets are checked against the running [uint32] sum of the sizes; a nil
    type is dereferenced. *)
Fixpoint checkOffsets (fields : list CompoundFieldDef) (currentOffset : Z) : outcome Z :=
  match fields with
  | [] => Ret currentOffset
  | field :: fields =>
      guard fOffset field =? currentOffset else "offset mismatch";;
      match fType field with
      | None => Panic
      | Some t => checkOffsets fields (u32 (currentOffset + dtSize t))
      end
  end.

Definition CreateCompoundTypeFromFields (fields : list CompoundFieldDef) : outcome DatatypeMessage :=
  guard negb (len fields =? 0) else "compound type must have at least one field";;
  let! totalSize := checkOffsets fields 0 in
  let! encoded := EncodeCompoundDatatypeV3 totalSize fields in
  ParseDatatypeMessage encoded.

Definition CreateBasicDatatypeMessage (class size : Z) : outcome DatatypeMessage :=
  if class =? DatatypeFixed then Ret (mkDatatype class 1 size 0 [x00; z2b (u32 (size * 8)); x00; x00])
  else if class =? DatatypeFloat then Ret (mkDatatype class 1 size 0 ([x00; z2b (u32 (size * 8)); x00] ++ zeros 9))
  else if class =? DatatypeString then Ret (mkDatatype class 1 size 0 [x00])
  else Err "unsupported datatype class".

(** ** Termination and safety *)

Lemma cstring_le bs : len (cstring bs) <= len bs.
Proof. induction bs as [|b bs IH]; cbn [cstring]; [done|]. destruct (_ =? _); len_lia. Qed.

Lemma nameEndAt_ge properties start : start <= nameEndAt properties start.
Proof. unfold nameEndAt. pose proof (len_nonneg (nameAt properties start)). lia. Qed.

(** The reads of one member: the offsets checked before them are enough. *)
Lemma slice_rest {A} (l : list A) lo : 0 <= lo <= len l -> slice l lo (len l) = Ret (sub l lo (len l - lo)).
Proof. intros. apply slice_ret; lia. Qed.

Lemma length_sub_lt {A} (l : list A) lo : 0 < lo <= len l -> (length (sub l lo (len l - lo)) < length l)%nat.
Proof. intros. pose proof (len_sub l lo (len l - lo)). unfold len in *. lia. Qed.

Section skip.
Variable properties : bytes.

Lemma skipMembers_safe parse numMembers :
  (forall d, (length d < length properties)%nat -> no_panic (parse d)) -> forall fuel i offset,
  0 <= offset -> Z.max 0 (len properties - offset) < Z.of_nat fuel ->
  no_panic (skipMembers parse fuel properties numMembers i offset).
Proof.
  intros Hp. induction fuel as [|fuel IH]; intros i offset Ho Hf; cbn [skipMembers];
    (destruct (i <? numMembers); [|apply no_panic_ret]); [lia|].
  pose proof (nameEndAt_ge properties offset). set (ne := nameEndAt properties offset) in *.
  destruct (Z.geb_spec ne (len properties)); cbn [negb]; [apply no_panic_err|].
  destruct (Z.gtb_spec (ne + 1 + 4) (len properties)); cbn [negb]; [apply no_panic_err|].
  destruct (Z.gtb_spec (ne + 1 + 4 + 8) (len properties)); cbn [negb]; [apply no_panic_err|].
  rewrite slice_rest by lia. cbn [obind]. apply obind_no_panic; [apply Hp, length_sub_lt; lia|].
  intros m _. pose proof (len_nonneg (Properties m)). apply IH; lia.
Qed.

Lemma skipMembers_ext parse1 parse2 numMembers :
  (forall d, (length d < length properties)%nat -> parse1 d = parse2 d) -> forall fuel i offset,
  0 <= offset -> skipMembers parse1 fuel properties numMembers i offset = skipMembers parse2 fuel properties numMembers i offset.
Proof.
  intros Hp. induction fuel as [|fuel IH]; intros i offset Ho; cbn [skipMembers]; [done|].
  destruct (i <? numMembers); [|done].
  pose proof (nameEndAt_ge properties offset). set (ne := nameEndAt properties offset) in *.
  destruct (Z.geb_spec ne (len properties)); cbn [negb]; [done|].
  destruct (Z.gtb_spec (ne + 1 + 4) (len properties)); cbn [negb]; [done|].
  destruct (Z.gtb_spec (ne + 1 + 4 + 8) (len properties)); cbn [negb]; [done|].
  rewrite slice_rest by lia. cbn [obind]. rewrite Hp by (apply length_sub_lt; lia).
  destruct (parse2 _) as [m|e|]; cbn [obind]; [|done..]. pose proof (len_nonneg (Properties m)). apply IH. lia.
Qed.
End skip.

Lemma calculate_safe parse properties version :
  (forall d, (length d < length properties)%nat -> no_panic (parse d)) ->
  no_panic (calculateCompoundPropsLen parse properties version).
Proof.
  intros Hp. unfold calculateCompoundPropsLen. destruct (version =? 3); [|apply no_panic_err].
  destruct (Z.ltb_spec (len properties) 4); cbn [negb]; [apply no_panic_err|].
  destruct (get_le_in_range 4 properties 0) as (n & -> & _); [lia..|]. cbn [obind].
  apply skipMembers_safe; [done|lia|unfold len in *; lia].
Qed.

Lemma skipMembers_ge parse properties numMembers : forall fuel i offset n,
  skipMembers parse fuel properties numMembers i offset = Ret n -> offset <= n.
Proof.
  induction fuel as [|fuel IH]; intros i offset n; cbn [skipMembers]; (destruct (i <? numMembers); [|intros [= ->]; lia]); [done|].
  pose proof (nameEndAt_ge properties offset). destruct (negb _); [|done]. destruct (negb _); [|done]. destruct (negb _); [|done].
  intros (rest & _ & H')%obind_ret_inv. apply obind_ret_inv in H' as (m & _ & H'). apply IH in H'.
  pose proof (len_nonneg (Properties m)). lia.
Qed.

Lemma calculate_nonneg parse properties version n :
  calculateCompoundPropsLen parse properties version = Ret n -> 0 <= n.
Proof.
  unfold calculateCompoundPropsLen. destruct (version =? 3); [|done]. destruct (negb _); [|done].
  intros (k & _ & H)%obind_ret_inv. apply skipMembers_ge in H. lia.
Qed.

Lemma propsLenOf_total parse data class version :
  8 <= len data -> (forall d, (length d < length data)%nat -> no_panic (parse d)) ->
  exists n, propsLenOf parse data class version = Ret n /\ 0 <= n.
Proof.
  intros H8 Hp. unfold propsLenOf. repeat (destruct (class =? _); [eexists; split; [done|]; lia|]).
  rewrite slice_rest by lia. cbn [obind]. pose proof (length_sub_lt data 8 ltac:(lia)) as Hs.
  repeat (destruct (class =? _); [eexists; split; [done|]; lia|]).
  assert (Hd : exists n, Ret (len data - 8) = Ret n /\ 0 <= n) by (eexists; split; [done|]; lia).
  destruct (class =? DatatypeCompound); [|done].
  destruct (calculateCompoundPropsLen parse _ version) as [n|e|] eqn:E; [|done|].
  - exists n. split; [done|]. by eapply calculate_nonneg.
  - exfalso. revert E. apply calculate_safe. intros d Hl. apply Hp. lia.
Qed.

Lemma parseDatatype_safe : forall fuel data, (length data < fuel)%nat -> no_panic (parseDatatype fuel data).
Proof.
  induction fuel as [|fuel IH]; intros data Hf; [lia|]. cbn [parseDatatype].
  destruct (Z.ltb_spec (len data) 8) as [|H8]; cbn [negb]; [apply no_panic_err|].
  destruct (get_le_in_range 4 data 0) as (cv & -> & _); [lia..|]. cbn [obind].
  destruct (get_le_in_range 4 data 4) as (sz & -> & _); [lia..|]. cbn [obind].
  set (class := Z.land cv 15). set (version := Z.land (Z.shiftr cv 4) 15).
  destruct (propsLenOf_total (parseDatatype fuel) data class version) as (n & -> & Hn);
    [done|intros d Hd; apply IH; lia|]. cbn [obind].
  destruct (Z.gtb_spec (8 + n) (len data)); rewrite slice_ret by lia; apply no_panic_ret.
Qed.

(** More fuel than the length of the message changes nothing. *)
Lemma parseDatatype_fuel : forall fuel1 fuel2 data,
  (length data < fuel1)%nat -> (length data < fuel2)%nat -> parseDatatype fuel1 data = parseDatatype fuel2 data.
Proof.
  induction fuel1 as [|fuel1 IH]; intros [|fuel2] data H1 H2; [lia..|]. cbn [parseDatatype].
  destruct (Z.ltb_spec (len data) 8) as [|H8]; cbn [negb]; [done|].
  destruct (get_le_in_range 4 data 0) as (cv & -> & _); [lia..|]. cbn [obind].
  destruct (get_le_in_range 4 data 4) as (sz & -> & _); [lia..|]. cbn [obind].
  set (class := Z.land cv 15). set (version := Z.land (Z.shiftr cv 4) 15).
  replace (propsLenOf (parseDatatype fuel1) data class version) with (propsLenOf (parseDatatype fuel2) data class version); [done|].
  unfold propsLenOf. repeat (destruct (class =? _); [done|]). destruct (class =? DatatypeCompound); [|done].
  rewrite slice_rest by lia. cbn [obind].
  assert (Hs : (length (sub data 8 (len data - 8)) < length data)%nat) by (apply length_sub_lt; lia).
  unfold calculateCompoundPropsLen. destruct (version =? 3); [|done]. destruct (negb _); [|done].
  destruct (get_le _ _ _) as [n|e|]; cbn [obind]; [|done..].
  rewrite (skipMembers_ext _ (parseDatatype fuel2) (parseDatatype fuel1)); [done| |lia].
  intros d Hd. symmetry. apply IH; lia.
Qed.

Lemma parseMembersV1_safe properties numMembers : forall fuel i offset,
  0 <= offset -> Z.max 0 (len properties - offset) < Z.of_nat fuel ->
  no_panic (parseMembersV1 fuel properties numMembers i offset).
Proof.
  induction fuel as [|fuel IH]; intros i offset Ho Hf; cbn [parseMembersV1];
    (destruct (i <? numMembers); [|apply no_panic_ret]); [lia|].
  pose proof (nameEndAt_ge properties offset). set (ne := nameEndAt properties offset) in *.
  destruct (Z.geb_spec ne (len properties)); cbn [negb]; [apply no_panic_err|].
  rewrite slice_ret by lia. cbn [obind]. set (o := offset + _ / 8 * 8).
  assert (Hoo : ne < o) by (subst o; Z.div_mod_to_equations; lia).
  destruct (Z.gtb_spec (o + 4) (len properties)); cbn [negb]; [apply no_panic_err|].
  destruct (get_le_in_range 4 properties o) as (mo & -> & _); [lia..|]. cbn [obind].
  destruct (Z.gtb_spec (o + 4 + 28) (len properties)); cbn [negb]; [apply no_panic_err|].
  destruct (Z.gtb_spec (o + 4 + 28 + 8) (len properties)); cbn [negb]; [apply no_panic_err|].
  rewrite slice_rest by lia. cbn [obind]. apply obind_no_panic; [apply parseDatatype_safe; lia|].
  intros m _. apply obind_no_panic; [|intros; apply no_panic_ret].
  assert (8 <= GetEncodedSize m) by (unfold GetEncodedSize; pose proof (len_nonneg (Properties m)); repeat case_match; lia).
  apply IH; lia.
Qed.

Lemma parseMembersV3_safe properties numMembers : forall fuel i offset,
  0 <= offset -> Z.max 0 (len properties - offset) < Z.of_nat fuel ->
  no_panic (parseMembersV3 fuel properties numMembers i offset).
Proof.
  induction fuel as [|fuel IH]; intros i offset Ho Hf; cbn [parseMembersV3];
    (destruct (i <? numMembers); [|apply no_panic_ret]); [lia|].
  pose proof (nameEndAt_ge properties offset). set (ne := nameEndAt properties offset) in *.
  destruct (Z.geb_spec ne (len properties)); cbn [negb]; [apply no_panic_err|].
  rewrite slice_ret by lia. cbn [obind].
  destruct (Z.gtb_spec (ne + 1 + 4) (len properties)); cbn [negb]; [apply no_panic_err|].
  destruct (get_le_in_range 4 properties (ne + 1)) as (mo & -> & _); [lia..|]. cbn [obind].
  destruct (Z.gtb_spec (ne + 1 + 4 + 8) (len properties)); cbn [negb]; [apply no_panic_err|].
  rewrite slice_rest by lia. cbn [obind]. apply obind_no_panic; [apply parseDatatype_safe; lia|].
  intros m _. pose proof (len_nonneg (Properties m)). apply obind_no_panic; [|intros; apply no_panic_ret]. apply IH; lia.
Qed.

(** C29. The datatype parser terminates on every message and never indexes outside
    it, however deep the compound types in it are nested; nor does the parser of
    the members, on any datatype message. *)
Theorem datatype_parsers_safe data dt : no_panic (ParseDatatypeMessage data) /\ no_panic (ParseCompoundType dt).
Proof.
  split; [apply parseDatatype_safe; lia|]. unfold ParseCompoundType.
  destruct (_ =? _); [|apply no_panic_err]. destruct (Z.ltb_spec (len (Properties dt)) 2); cbn [negb]; [apply no_panic_err|].
  destruct (_ =? _); [|destruct (_ =? _); [|apply no_panic_err]].
  - unfold parseCompoundV1. apply obind_no_panic; [|intros; apply no_panic_ret].
    apply parseMembersV1_safe; unfold len in *; lia.
  - unfold parseCompoundV3. destruct (Z.ltb_spec (len (Properties dt)) 4); cbn [negb]; [apply no_panic_err|].
    destruct (get_le_in_range 4 (Properties dt) 0) as (n & -> & _); [lia..|]. cbn [obind].
    apply obind_no_panic; [|intros; apply no_panic_ret]. apply parseMembersV3_safe; unfold len in *; lia.
Qed.

(** ** Encoded datatypes *)

Definition dt_wf (t : DatatypeMessage) : Prop :=
  0 <= dtClass t < 16 /\ 0 <= dtVersion t < 16 /\ 0 <= ClassBitField t < 2 ^ 24 /\ is_u 32 (dtSize t).

Definition headerBytes (t : DatatypeMessage) : bytes :=
  le_put 4 (packHeader (dtClass t) (dtVersion t) (ClassBitField t)) ++ le_put 4 (dtSize t).
Definition inlineBytes (t : DatatypeMessage) : bytes := headerBytes t ++ Properties t.

Lemma len_typeHeader t : len (headerBytes t) = 8.
Proof. done. Qed.

Lemma len_inlineBytes t : len (inlineBytes t) = 8 + len (Properties t).
Proof. unfold inlineBytes. by rewrite len_app, len_typeHeader. Qed.

Lemma packHeader_eq c v f :
  0 <= c < 16 -> 0 <= v < 16 -> 0 <= f < 2 ^ 24 -> packHeader c v f = c + v * 2 ^ 4 + f * 2 ^ 8.
Proof.
  intros Hc Hv Hf. unfold packHeader.
  rewrite !u32_id by (unfold is_u; rewrite Z.shiftl_mul_pow2 by lia; lia).
  rewrite (lor_add_shiftl v c 4) by lia. by rewrite (lor_add_shiftl f _ 8) by lia.
Qed.

Lemma packHeader_fields c v f :
  0 <= c < 16 -> 0 <= v < 16 -> 0 <= f < 2 ^ 24 -> let p := packHeader c v f in
  0 <= p < 2 ^ 32 /\ Z.land p 15 = c /\ Z.land (Z.shiftr p 4) 15 = v /\ Z.land (Z.shiftr p 8) 16777215 = f.
Proof.
  intros Hc Hv Hf p. subst p. rewrite packHeader_eq by done. split; [lia|].
  change 15 with (Z.ones 4). change 16777215 with (Z.ones 24). rewrite !Z.land_ones, !Z.shiftr_div_pow2 by lia.
  split_and!; Z.div_mod_to_equations; lia.
Qed.

(** What the parser does with a message whose header is well formed: it takes the
    properties whose length [propsLenOf] gives, at most all. *)
Lemma parse_inline fuel t body :
  dt_wf t ->
  parseDatatype (S fuel) (headerBytes t ++ body) =
    let! n := propsLenOf (parseDatatype fuel) (headerBytes t ++ body) (dtClass t) (dtVersion t) in
    let n := if 8 + n >? 8 + len body then len body else n in
    let! properties := slice (headerBytes t ++ body) 8 (8 + n) in
    Ret (mkDatatype (dtClass t) (dtVersion t) (dtSize t) (ClassBitField t) properties).
Proof.
  intros (Hc & Hv & Hf & Hs). cbn [parseDatatype]. set (data := headerBytes t ++ body).
  assert (Hl : len data = 8 + len body) by (unfold data; by rewrite len_app, len_typeHeader).
  rewrite Hl. pose proof (len_nonneg body). destruct (Z.ltb_spec (8 + len body) 8); [lia|]. cbn [negb].
  destruct (packHeader_fields _ _ _ Hc Hv Hf) as (Hp & E1 & E2 & E3).
  set (P := packHeader _ _ _) in *.
  assert (Ed : data = le_put 4 P ++ le_put 4 (dtSize t) ++ body) by (unfold data, headerBytes; by rewrite <- app_assoc).
  rewrite (get_le_at 4 data [] P _ 0 Ed eq_refl Hp). cbn [obind].
  rewrite (get_le_at 4 data (le_put 4 P) (dtSize t) body 4 Ed eq_refl Hs).
  cbn [obind]. cbv zeta. rewrite E1, E2, E3. destruct (propsLenOf _ _ _ _) as [n|e|]; cbn [obind]; [|done..].
  by replace (8 + len body - 8) with (len body) by lia.
Qed.

(** A type that the parser delimits by itself, whatever follows it. *)
Definition selfDelimiting (t : DatatypeMessage) : Prop :=
  forall tail, ParseDatatypeMessage (inlineBytes t ++ tail) = Ret t.
Definition readsBack (t : DatatypeMessage) : Prop := ParseDatatypeMessage (inlineBytes t) = Ret t.

Lemma selfDelimiting_readsBack t : selfDelimiting t -> readsBack t.
Proof. intros H. unfold readsBack. rewrite <- (app_nil_r (inlineBytes t)). apply H. Qed.

Lemma dt_eta t : mkDatatype (dtClass t) (dtVersion t) (dtSize t) (ClassBitField t) (Properties t) = t.
Proof. by destruct t. Qed.

Lemma parse_delimited fuel t tail :
  dt_wf t -> propsLenOf (parseDatatype fuel) (inlineBytes t ++ tail) (dtClass t) (dtVersion t) = Ret (len (Properties t)) ->
  parseDatatype (S fuel) (inlineBytes t ++ tail) = Ret t.
Proof.
  intros Hwf Hp. unfold inlineBytes in *. rewrite <- app_assoc in *. rewrite parse_inline by done. rewrite Hp. cbn [obind].
  rewrite len_app. pose proof (len_nonneg tail). destruct (Z.gtb_spec (8 + len (Properties t)) (8 + (len (Properties t) + len tail))); [lia|].
  rewrite (slice_at _ (headerBytes t) (Properties t) tail) by (done || rewrite len_typeHeader; lia).
  cbn [obind]. by rewrite dt_eta.
Qed.

(** The number of property bytes of the classes that have a fixed one. *)
Definition fixedProps (class : Z) : option Z :=
  if class =? DatatypeFixed then Some 4 else if class =? DatatypeFloat then Some 12
  else if class =? DatatypeBitfield then Some 4 else if class =? DatatypeTime then Some 2 else None.

Lemma fixed_selfDelimiting t : dt_wf t -> fixedProps (dtClass t) = Some (len (Properties t)) -> selfDelimiting t.
Proof.
  intros Hwf Hf tail. apply parse_delimited; [done|]. unfold propsLenOf, fixedProps in *.
  destruct (dtClass t =? DatatypeFixed); [by injection Hf as ->|]. destruct (dtClass t =? DatatypeFloat); [by injection Hf as ->|].
  destruct (dtClass t =? DatatypeBitfield); [by injection Hf as ->|]. destruct (dtClass t =? DatatypeTime); [by injection Hf as ->|].
  discriminate Hf.
Qed.

(** Classes whose properties are taken to be all that follows. *)
Lemma greedy_readsBack t : dt_wf t -> fixedProps (dtClass t) = None -> dtClass t <> DatatypeCompound ->
  forall tail, ParseDatatypeMessage (inlineBytes t ++ tail) =
    Ret (mkDatatype (dtClass t) (dtVersion t) (dtSize t) (ClassBitField t) (Properties t ++ tail)).
Proof.
  intros Hwf Hf Hc tail. unfold ParseDatatypeMessage, inlineBytes. rewrite <- app_assoc, parse_inline by done.
  assert (E : propsLenOf (parseDatatype (length (headerBytes t ++ Properties t ++ tail)))
    (headerBytes t ++ Properties t ++ tail) (dtClass t) (dtVersion t) = Ret (len (Properties t ++ tail))).
  { unfold propsLenOf, fixedProps in *. destruct (dtClass t =? DatatypeFixed); [discriminate Hf|].
    destruct (dtClass t =? DatatypeFloat); [discriminate Hf|]. destruct (dtClass t =? DatatypeBitfield); [discriminate Hf|].
    destruct (dtClass t =? DatatypeTime); [discriminate Hf|]. destruct (Z.eqb_spec (dtClass t) DatatypeCompound); [contradiction|].
    rewrite !len_app, len_typeHeader. f_equal. lia. }
  rewrite E. cbn [obind]. rewrite Z.gtb_ltb, Z.ltb_irrefl.
  rewrite (slice_at _ (headerBytes t) (Properties t ++ tail) []) by (rewrite ?app_nil_r, ?len_typeHeader; done). done.
Qed.

(** ** Encoded members, of both versions *)

Definition toField (m : CompoundMember) : CompoundFieldDef := mkField (cmName m) (cmOffset m) (Some (cmType m)).

Definition name_ok (name : bytes) : Prop := name <> [] /\ Forall (fun b => b2z b <> 0) name.
Definition member_ok (m : CompoundMember) : Prop := name_ok (cmName m) /\ is_u 32 (cmOffset m) /\ dt_wf (cmType m).

Lemma cstring_name name rest : Forall (fun b => b2z b <> 0) name -> cstring (name ++ x00 :: rest) = name.
Proof. induction 1 as [|b name Hb _ IH]; cbn [app cstring]; [done|]. destruct (Z.eqb_spec (b2z b) 0); [done|]. by rewrite IH. Qed.

Lemma nameAt_ok pre name rest :
  Forall (fun b => b2z b <> 0) name -> nameAt (pre ++ name ++ x00 :: rest) (len pre) = name.
Proof.
  intros H. unfold nameAt. replace (Z.to_nat (len pre)) with (length pre) by (unfold len; lia).
  rewrite drop_app_length. by apply cstring_name.
Qed.

Section members.
(** [nameSize n]: what a name of [n] bytes takes; [gap]: the bytes between the
    member's offset and its type. *)
Variable nameSize : Z -> Z.
Variable gap : Z.
Hypothesis nameSize_ge : forall n, 0 <= n -> n + 1 <= nameSize n.
Hypothesis gap_ge : 0 <= gap.

Definition memberBytes (m : CompoundMember) : bytes :=
  (cmName m ++ [x00]) ++ zeros (nameSize (len (cmName m)) - (len (cmName m) + 1)) ++ le_put 4 (cmOffset m) ++
  zeros gap ++ inlineBytes (cmType m).
Definition membersBytes (ms : list CompoundMember) : bytes := concat (map memberBytes ms).

Lemma len_memberBytes m :
  len (memberBytes m) = nameSize (len (cmName m)) + 4 + gap + 8 + len (Properties (cmType m)).
Proof.
  pose proof (nameSize_ge _ (len_nonneg (cmName m))). unfold memberBytes.
  rewrite !len_app, len_inlineBytes, len_le_put, !len_zeros by lia. change (len [x00]) with 1. lia.
Qed.

Lemma membersBytes_cons m ms : membersBytes (m :: ms) = memberBytes m ++ membersBytes ms.
Proof. done. Qed.

Lemma fieldsSize_eq fixed ms : forall t,
  fixed = 4 + gap -> Forall member_ok ms ->
  fieldsSize nameSize fixed (map toField ms) t = Ret (t + len (membersBytes ms)).
Proof.
  intros t ->. revert t. induction ms as [|m ms IH]; intros t Hok; cbn [map fieldsSize].
  - change (membersBytes []) with (@nil byte). rewrite len_nil. do 2 f_equal. lia.
  - apply Forall_cons in Hok as [[[Hn _] _] Hok]. cbn [toField fName fType].
    destruct (Z.eqb_spec (len (cmName m)) 0) as [E|_]; [by apply len_0_nil in E|]. cbn [negb].
    rewrite IH by done. rewrite membersBytes_cons, len_app, len_memberBytes. f_equal. lia.
Qed.

Lemma putMemberType_cursor pre k t :
  8 + len (Properties t) <= k ->
  putMemberType (pre ++ zeros k) (len pre) t =
    Ret ((pre ++ inlineBytes t) ++ zeros (k - (8 + len (Properties t))), len pre + (8 + len (Properties t))).
Proof.
  intros Hk. pose proof (len_nonneg (Properties t)). unfold putMemberType.
  rewrite put_le_cursor by lia. cbn [obind]. rewrite put_le_cursor by (rewrite ?len_app, ?len_le_put; lia). cbn [obind].
  rewrite put_bytes_cursor by (rewrite ?len_app, ?len_le_put; lia). cbn [obind].
  unfold inlineBytes, headerBytes. rewrite <- !app_assoc. f_equal. f_equal; [|lia]. do 5 f_equal. lia.
Qed.

Lemma putFieldDefs_cursor ms : forall pre k off,
  off = len pre -> len (membersBytes ms) <= k ->
  putFieldDefs nameSize gap (map toField ms) (pre ++ zeros k) off =
    Ret ((pre ++ membersBytes ms) ++ zeros (k - len (membersBytes ms)), off + len (membersBytes ms)).
Proof.
  induction ms as [|m ms IH]; intros pre k off -> Hk; cbn [map putFieldDefs].
  - change (membersBytes []) with (@nil byte). rewrite app_nil_r, len_nil, Z.sub_0_r. by rewrite Z.add_0_r.
  - rewrite membersBytes_cons, len_app, len_memberBytes in *. cbn [toField fName fType fOffset].
    pose proof (len_nonneg (membersBytes ms)). pose proof (len_nonneg (Properties (cmType m))).
    set (n := len (cmName m)) in *. pose proof (nameSize_ge n (len_nonneg _)) as Hn. pose proof (len_nonneg (cmName m)) as Hn0. fold n in Hn0.
    rewrite put_bytes_cursor by (done || (fold n; lia)). cbn [obind]. fold n.
    rewrite put_bytes_cursor by (rewrite ?len_app; fold n; change (len [x00]) with 1; lia). cbn [obind]. change (len [x00]) with 1.
    rewrite (put_le_gap 4 _ _ (nameSize n - (n + 1))) by (rewrite ?len_app; fold n; change (len [x00]) with 1; lia). cbn [obind].
    match goal with |- context [putMemberType (?p ++ zeros ?k') _ _] => rewrite (zeros_split k' gap), (app_assoc p) by lia end.
    match goal with |- context [putMemberType (?p ++ _) ?o _] => set (pre' := p); replace o with (len pre')
      by (unfold pre'; rewrite !len_app, len_le_put, !len_zeros by lia; fold n; change (len [x00]) with 1; lia) end.
    rewrite putMemberType_cursor by lia. cbn [obind].
    assert (E : pre' ++ inlineBytes (cmType m) = pre ++ memberBytes m)
      by (unfold pre', memberBytes; fold n; by rewrite <- !app_assoc).
    assert (El : len pre' = len pre + nameSize n + 4 + gap)
      by (unfold pre'; rewrite !len_app, len_le_put, !len_zeros by lia; fold n; change (len [x00]) with 1; lia).
    rewrite E, IH by (rewrite ?len_app, ?len_memberBytes; fold n; lia). rewrite <- !app_assoc. f_equal. f_equal; [|lia].
    do 3 f_equal. f_equal. lia.
Qed.

(** What the parsers read of the first member after [pre]. *)
Lemma member_reads pre m rest :
  member_ok m -> let props := pre ++ memberBytes m ++ rest in
  let next := len pre + nameSize (len (cmName m)) in
  nameEndAt props (len pre) = len pre + len (cmName m) /\
  next + 4 + gap + 8 <= len props /\
  slice props (len pre) (len pre + len (cmName m)) = Ret (cmName m) /\
  get_le 4 props next = Ret (cmOffset m) /\
  slice props (next + 4 + gap) (len props) = Ret (inlineBytes (cmType m) ++ rest).
Proof.
  intros [[_ Hz] [Hoff _]] props next. pose proof (nameSize_ge _ (len_nonneg (cmName m))) as Hns.
  pose proof (len_nonneg (cmName m)). pose proof (len_nonneg rest). pose proof (len_nonneg (Properties (cmType m))).
  set (n := len (cmName m)) in *. set (z := zeros (nameSize n - (n + 1))).
  assert (Hz' : len z = nameSize n - (n + 1)) by (apply len_zeros; lia).
  assert (E : props = pre ++ cmName m ++ x00 :: z ++ le_put 4 (cmOffset m) ++ zeros gap ++ inlineBytes (cmType m) ++ rest)
    by (unfold props, memberBytes; fold n z; rewrite <- !app_assoc; done).
  assert (Hl : len props = next + 4 + gap + 8 + len (Properties (cmType m)) + len rest)
    by (unfold props, next; rewrite !len_app, len_memberBytes; fold n; lia).
  split_and!.
  - unfold nameEndAt. rewrite E. by rewrite nameAt_ok.
  - lia.
  - rewrite E. by apply (slice_at _ pre (cmName m) (x00 :: z ++ le_put 4 (cmOffset m) ++ zeros gap ++ inlineBytes (cmType m) ++ rest)).
  - apply (get_le_at 4 _ (pre ++ (cmName m ++ [x00]) ++ z) _ (zeros gap ++ inlineBytes (cmType m) ++ rest)); [| |done].
    + rewrite E. by rewrite <- !app_assoc.
    + rewrite !len_app, Hz'. change (len [x00]) with 1. fold n. lia.
  - apply (slice_at _ (pre ++ (cmName m ++ [x00]) ++ z ++ le_put 4 (cmOffset m) ++ zeros gap) _ []).
    + rewrite E, app_nil_r. by rewrite <- !app_assoc.
    + rewrite !len_app, Hz', len_le_put, len_zeros by lia. change (len [x00]) with 1. fold n. lia.
    + rewrite Hl, len_app, len_inlineBytes. lia.
Qed.
End members.

Lemma nameSizeV3_ge n : 0 <= n -> n + 1 <= nameSizeV3 n.
Proof. unfold nameSizeV3. lia. Qed.
Lemma nameSizeV1_ge n : 0 <= n -> n + 1 <= nameSizeV1 n.
Proof. unfold nameSizeV1. intros. Z.div_mod_to_equations. lia. Qed.
#[export] Hint Resolve nameSizeV3_ge nameSizeV1_ge : go.

Abbreviation bytesV3 := (membersBytes nameSizeV3 0).
Abbreviation bytesV1 := (membersBytes nameSizeV1 28).

(** The parser takes every member's type to end where it ends. *)
Fixpoint delimited (rest : list CompoundMember -> bytes) (ms : list CompoundMember) (tail : bytes) : Prop :=
  match ms with
  | [] => True
  | m :: ms => ParseDatatypeMessage (inlineBytes (cmType m) ++ rest ms ++ tail) = Ret (cmType m) /\ delimited rest ms tail
  end.

Lemma delimited_all rest ms tail : Forall (fun m => selfDelimiting (cmType m)) ms -> delimited rest ms tail.
Proof. induction 1 as [|m ms Hm _ IH]; cbn [delimited]; [done|]. split; [apply Hm|done]. Qed.

(** All but the last member delimit themselves; the last may take all that follows. *)
Lemma delimited_last rest ms m :
  rest [] = [] -> Forall (fun m => selfDelimiting (cmType m)) ms -> readsBack (cmType m) -> delimited rest (ms ++ [m]) [].
Proof.
  intros E H Hm. induction H as [|m' ms Hm' _ IH]; cbn [delimited app].
  - rewrite E, !app_nil_r. by split.
  - split; [apply Hm'|done].
Qed.

Lemma membersBytes_length ns gap (Hns : forall n, 0 <= n -> n + 1 <= ns n) (Hg : 0 <= gap) ms :
  len ms <= len (membersBytes ns gap ms).
Proof.
  induction ms as [|m ms IH]; [done|]. rewrite membersBytes_cons, len_app, len_memberBytes, len_cons by done.
  pose proof (Hns _ (len_nonneg (cmName m))). pose proof (len_nonneg (cmName m)). pose proof (len_nonneg (Properties (cmType m))). lia.
Qed.

Section readV3.
Variables (props tail : bytes) (numMembers : Z).

Lemma skipMembers_ok parse ms : forall pre fuel i,
  (forall d, (length d < length props)%nat -> parse d = ParseDatatypeMessage d) ->
  props = pre ++ bytesV3 ms ++ tail -> delimited bytesV3 ms tail -> Forall member_ok ms ->
  numMembers = i + len ms -> (length ms < fuel)%nat ->
  skipMembers parse fuel props numMembers i (len pre) = Ret (len pre + len (bytesV3 ms)).
Proof.
  induction ms as [|m ms IH]; intros pre [|fuel] i Hp E Hd Hok Hn Hf; cbn [length] in *; [lia| |lia|]; cbn [skipMembers].
  - rewrite len_nil in Hn. destruct (Z.ltb_spec i numMembers); [lia|]. change (bytesV3 []) with (@nil byte). by rewrite len_nil, Z.add_0_r.
  - apply Forall_cons in Hok as [Hm Hok]. destruct Hd as [Hd1 Hd]. rewrite len_cons in Hn. pose proof (len_nonneg ms).
    destruct (Z.ltb_spec i numMembers); [|lia]. rewrite membersBytes_cons, <- app_assoc in E.
    destruct (member_reads nameSizeV3 0 nameSizeV3_ge ltac:(lia) pre m (bytesV3 ms ++ tail) Hm) as (E1 & E2 & _ & _ & E4).
    rewrite <- E in *. change (nameSizeV3 (len (cmName m))) with (len (cmName m) + 1) in *. rewrite E1. pose proof (len_nonneg (cmName m)). pose proof (len_nonneg pre).
    destruct (Z.geb_spec (len pre + len (cmName m)) (len props)); [lia|]. cbn [negb].
    destruct (Z.gtb_spec (len pre + len (cmName m) + 1 + 4) (len props)); [lia|]. cbn [negb].
    destruct (Z.gtb_spec (len pre + len (cmName m) + 1 + 4 + 8) (len props)); [lia|]. cbn [negb].
    replace (len pre + len (cmName m) + 1 + 4) with (len pre + (len (cmName m) + 1) + 4 + 0) by lia. rewrite E4. cbn [obind].
    rewrite Hp, Hd1. 2:{ apply slice_inv in E4 as (_ & _ & Es). rewrite Es. apply length_sub_lt. lia. }
    cbn [obind]. replace (_ + (8 + len (Properties (cmType m)))) with (len (pre ++ memberBytes nameSizeV3 0 m))
      by (rewrite len_app, len_memberBytes by (auto with go; lia); unfold nameSizeV3; lia).
    rewrite IH by (done || lia || (rewrite <- app_assoc; done)). rewrite membersBytes_cons, !len_app. f_equal. lia.
Qed.

Lemma parseMembersV3_ok ms : forall pre fuel i,
  props = pre ++ bytesV3 ms ++ tail -> delimited bytesV3 ms tail -> Forall member_ok ms ->
  numMembers = i + len ms -> (length ms < fuel)%nat ->
  parseMembersV3 fuel props numMembers i (len pre) = Ret ms.
Proof.
  induction ms as [|m ms IH]; intros pre [|fuel] i E Hd Hok Hn Hf; cbn [length] in *; [lia| |lia|]; cbn [parseMembersV3].
  - rewrite len_nil in Hn. destruct (Z.ltb_spec i numMembers); [lia|]. done.
  - apply Forall_cons in Hok as [Hm Hok]. destruct Hd as [Hd1 Hd]. rewrite len_cons in Hn. pose proof (len_nonneg ms).
    destruct (Z.ltb_spec i numMembers); [|lia]. rewrite membersBytes_cons, <- app_assoc in E.
    destruct (member_reads nameSizeV3 0 nameSizeV3_ge ltac:(lia) pre m (bytesV3 ms ++ tail) Hm) as (E1 & E2 & E0 & E3 & E4).
    rewrite <- E in *. change (nameSizeV3 (len (cmName m))) with (len (cmName m) + 1) in *. rewrite E1, E0. pose proof (len_nonneg (cmName m)). pose proof (len_nonneg pre).
    destruct (Z.geb_spec (len pre + len (cmName m)) (len props)); [lia|]. cbn [negb obind].
    destruct (Z.gtb_spec (len pre + len (cmName m) + 1 + 4) (len props)); [lia|]. cbn [negb].
    replace (len pre + len (cmName m) + 1) with (len pre + (len (cmName m) + 1)) by lia. rewrite E3. cbn [obind].
    destruct (Z.gtb_spec (len pre + (len (cmName m) + 1) + 4 + 8) (len props)); [lia|]. cbn [negb].
    replace (len pre + (len (cmName m) + 1) + 4) with (len pre + (len (cmName m) + 1) + 4 + 0) by lia. rewrite E4. cbn [obind]. rewrite Hd1. cbn [obind].
    replace (_ + (8 + len (Properties (cmType m)))) with (len (pre ++ memberBytes nameSizeV3 0 m))
      by (rewrite len_app, len_memberBytes by (auto with go; lia); unfold nameSizeV3; lia).
    rewrite IH by (done || lia || (rewrite <- app_assoc; done)). cbn [obind]. by destruct m.
Qed.

(** In version 1 the member's type is taken to have its canonical size. *)
Lemma parseMembersV1_ok ms : forall pre fuel i,
  props = pre ++ bytesV1 ms ++ tail -> delimited bytesV1 ms tail -> Forall member_ok ms ->
  Forall (fun m => GetEncodedSize (cmType m) = len (inlineBytes (cmType m))) ms ->
  numMembers = i + len ms -> (length ms < fuel)%nat ->
  parseMembersV1 fuel props numMembers i (len pre) = Ret ms.
Proof.
  induction ms as [|m ms IH]; intros pre [|fuel] i E Hd Hok Hs Hn Hf; cbn [length] in *; [lia| |lia|]; cbn [parseMembersV1].
  - rewrite len_nil in Hn. destruct (Z.ltb_spec i numMembers); [lia|]. done.
  - apply Forall_cons in Hok as [Hm Hok]. apply Forall_cons in Hs as [Hs1 Hs]. destruct Hd as [Hd1 Hd].
    rewrite len_cons in Hn. pose proof (len_nonneg ms).
    destruct (Z.ltb_spec i numMembers); [|lia]. rewrite membersBytes_cons, <- app_assoc in E.
    destruct (member_reads nameSizeV1 28 nameSizeV1_ge ltac:(lia) pre m (bytesV1 ms ++ tail) Hm) as (E1 & E2 & E0 & E3 & E4).
    rewrite <- E in *. rewrite E1, E0. pose proof (len_nonneg (cmName m)). pose proof (len_nonneg pre).
    pose proof (nameSizeV1_ge (len (cmName m)) ltac:(lia)). cbv zeta.
    replace (len pre + len (cmName m) - len pre) with (len (cmName m)) by lia. fold (nameSizeV1 (len (cmName m))).
    set (next := len pre + nameSizeV1 (len (cmName m))) in *.
    destruct (Z.geb_spec (len pre + len (cmName m)) (len props)); [lia|]. cbn [negb obind].
    destruct (Z.gtb_spec (next + 4) (len props)); [lia|]. cbn [negb]. rewrite E3. cbn [obind].
    destruct (Z.gtb_spec (next + 4 + 28) (len props)); [lia|]. cbn [negb].
    destruct (Z.gtb_spec (next + 4 + 28 + 8) (len props)); [lia|]. cbn [negb]. rewrite E4. cbn [obind]. rewrite Hd1. cbn [obind].
    rewrite Hs1, len_inlineBytes. replace (_ + (8 + len (Properties (cmType m)))) with (len (pre ++ memberBytes nameSizeV1 28 m))
      by (rewrite len_app, len_memberBytes by (auto with go; lia); lia).
    rewrite IH by (done || lia || (rewrite <- app_assoc; done)). cbn [obind]. by destruct m.
Qed.
End readV3.

(** ** Encoded compound types *)

Definition compoundV3 (size : Z) (ms : list CompoundMember) : DatatypeMessage :=
  mkDatatype DatatypeCompound 3 size 0 (le_put 4 (len ms) ++ bytesV3 ms).
Definition compoundV1 (size : Z) (ms : list CompoundMember) : DatatypeMessage :=
  mkDatatype DatatypeCompound 1 size (len ms) (bytesV1 ms).

Lemma compoundV3_wf size ms : is_u 32 size -> dt_wf (compoundV3 size ms).
Proof. unfold dt_wf, is_u. intros H. cbn [dtClass dtVersion dtSize ClassBitField compoundV3]. unfold DatatypeCompound. lia. Qed.
Lemma compoundV1_wf size ms : is_u 32 size -> len ms <= 65535 -> dt_wf (compoundV1 size ms).
Proof.
  unfold dt_wf, is_u. intros H Hl. pose proof (len_nonneg ms). cbn [dtClass dtVersion dtSize ClassBitField compoundV1].
  unfold DatatypeCompound. lia.
Qed.

Lemma EncodeCompoundDatatypeV3_ret size ms :
  ms <> [] -> size <> 0 -> len ms < 2 ^ 32 -> Forall member_ok ms ->
  EncodeCompoundDatatypeV3 size (map toField ms) = Ret (inlineBytes (compoundV3 size ms)).
Proof.
  intros Hne Hs Hl Hok. unfold EncodeCompoundDatatypeV3. rewrite len_map.
  destruct (Z.eqb_spec (len ms) 0) as [E|_]; [by apply len_0_nil in E|]. cbn [negb].
  destruct (Z.eqb_spec size 0) as [|_]; [done|]. cbn [negb]. destruct (Z.gtb_spec (len ms) 4294967295); [lia|]. cbn [negb].
  rewrite (fieldsSize_eq nameSizeV3 0 nameSizeV3_ge ltac:(lia) 4 ms 4 eq_refl Hok). cbn [obind]. set (n := len (bytesV3 ms)).
  assert (Hn : 0 <= n) by apply len_nonneg. rewrite <- (app_nil_l (zeros _)).
  set (pre := le_put 4 (packHeader DatatypeCompound 3 0) ++ le_put 4 size ++ le_put 4 (len ms)).
  rewrite putFields_ret by (cbn [contiguous map snd concat]; first [split_and!; done | rewrite app_nil_r; change (12 <= 8 + (4 + n)); lia]).
  cbn [obind map snd concat]. rewrite app_nil_r, app_nil_l. fold pre. change (len pre) with 12.
  rewrite (putFieldDefs_cursor nameSizeV3 0 nameSizeV3_ge ltac:(lia)) by first [done | fold n; lia]. cbn [obind]. fold n.
  rewrite !len_app, len_zeros by lia. fold n. change (len pre) with 12.
  destruct (Z.eqb_spec (12 + n) (12 + n + (8 + (4 + n) - 12 - n))); [|lia].
  replace (8 + (4 + n) - 12 - n) with 0 by lia. change (zeros 0) with (@nil byte). rewrite app_nil_r. done.
Qed.

Lemma EncodeCompoundDatatypeV1_ret size ms :
  ms <> [] -> size <> 0 -> len ms <= 65535 -> Forall member_ok ms ->
  EncodeCompoundDatatypeV1 size (map toField ms) = Ret (inlineBytes (compoundV1 size ms)).
Proof.
  intros Hne Hs Hl Hok. unfold EncodeCompoundDatatypeV1. rewrite len_map.
  destruct (Z.eqb_spec (len ms) 0) as [E|_]; [by apply len_0_nil in E|]. cbn [negb].
  destruct (Z.eqb_spec size 0) as [|_]; [done|]. cbn [negb]. destruct (Z.gtb_spec (len ms) 65535); [lia|]. cbn [negb].
  rewrite (fieldsSize_eq nameSizeV1 28 nameSizeV1_ge ltac:(lia) 32 ms 0 eq_refl Hok). cbn [obind]. set (n := len (bytesV1 ms)).
  assert (Hn : 0 <= n) by apply len_nonneg. rewrite <- (app_nil_l (zeros _)).
  set (pre := le_put 4 (packHeader DatatypeCompound 1 (len ms)) ++ le_put 4 size).
  rewrite putFields_ret by (cbn [contiguous map snd concat]; first [split_and!; done | rewrite app_nil_r; change (8 <= 8 + (0 + n)); lia]).
  cbn [obind map snd concat]. rewrite app_nil_r, app_nil_l. fold pre. change (len pre) with 8.
  rewrite (putFieldDefs_cursor nameSizeV1 28 nameSizeV1_ge ltac:(lia)) by first [done | fold n; lia]. cbn [obind]. fold n.
  rewrite !len_app, len_zeros by lia. fold n. change (len pre) with 8.
  destruct (Z.eqb_spec (8 + n) (8 + n + (8 + (0 + n) - 8 - n))); [|lia].
  replace (8 + (0 + n) - 8 - n) with 0 by lia. change (zeros 0) with (@nil byte). rewrite app_nil_r. done.
Qed.

Lemma calculate_compoundV3 fuel size ms tail :
  (length (Properties (compoundV3 size ms) ++ tail) <= fuel)%nat ->
  len ms < 2 ^ 32 -> Forall member_ok ms -> delimited bytesV3 ms tail ->
  calculateCompoundPropsLen (parseDatatype fuel) (Properties (compoundV3 size ms) ++ tail) 3 =
    Ret (len (Properties (compoundV3 size ms))).
Proof.
  intros Hf Hl Hok Hd. unfold calculateCompoundPropsLen, compoundV3 in *. cbn [Properties] in *.
  set (props := (le_put 4 (len ms) ++ bytesV3 ms) ++ tail) in *. pose proof (len_nonneg (bytesV3 ms)). pose proof (len_nonneg tail).
  assert (Hlp : len props = 4 + len (bytesV3 ms) + len tail) by (unfold props; rewrite !len_app, len_le_put; done).
  destruct (Z.ltb_spec (len props) 4); [lia|]. cbn [Z.eqb Pos.eqb negb]. pose proof (len_nonneg ms).
  assert (Ep : props = le_put 4 (len ms) ++ bytesV3 ms ++ tail) by (unfold props; by rewrite <- app_assoc).
  rewrite (get_le_at 4 props [] (len ms) _ 0 Ep eq_refl) by (cbn; lia). cbn [obind].
  rewrite (skipMembers_ok props tail (len ms) (parseDatatype fuel) ms (le_put 4 (len ms)) _ 0); try done.
  - by rewrite len_app.
  - intros d Hdl. apply parseDatatype_fuel; lia.
  - pose proof (membersBytes_length nameSizeV3 0 nameSizeV3_ge ltac:(lia) ms). unfold len in *. lia.
Qed.

Lemma propsLen_compoundV3 fuel size ms tail :
  (length (inlineBytes (compoundV3 size ms) ++ tail) <= fuel)%nat ->
  len ms < 2 ^ 32 -> Forall member_ok ms -> delimited bytesV3 ms tail ->
  propsLenOf (parseDatatype fuel) (inlineBytes (compoundV3 size ms) ++ tail) DatatypeCompound 3 =
    Ret (len (Properties (compoundV3 size ms))).
Proof.
  intros Hf Hl Hok Hd. unfold inlineBytes in *. rewrite <- app_assoc in *.
  unfold propsLenOf, DatatypeCompound, DatatypeFixed, DatatypeFloat, DatatypeBitfield, DatatypeTime. cbn [Z.eqb Pos.eqb].
  rewrite (slice_at _ (headerBytes (compoundV3 size ms)) (Properties (compoundV3 size ms) ++ tail) [] 8)
    by first [by rewrite app_nil_r | done | by rewrite len_app, len_typeHeader]. cbn [obind].
  rewrite calculate_compoundV3; try done. rewrite length_app in Hf. lia.
Qed.

(** Compound types whose members delimit themselves delimit themselves: nesting
    is unlimited. *)
Lemma compoundV3_selfDelimiting size ms :
  is_u 32 size -> len ms < 2 ^ 32 -> Forall member_ok ms -> Forall (fun m => selfDelimiting (cmType m)) ms ->
  selfDelimiting (compoundV3 size ms).
Proof.
  intros Hs Hl Hok Hd tail. apply parse_delimited; [by apply compoundV3_wf|].
  apply propsLen_compoundV3; try done. by apply delimited_all.
Qed.

Lemma compoundV3_readsBack size ms :
  is_u 32 size -> len ms < 2 ^ 32 -> Forall member_ok ms -> delimited bytesV3 ms [] -> readsBack (compoundV3 size ms).
Proof.
  intros Hs Hl Hok Hd. unfold readsBack. rewrite <- (app_nil_r (inlineBytes _)). unfold ParseDatatypeMessage.
  apply parse_delimited; [by apply compoundV3_wf|]. apply propsLen_compoundV3; done.
Qed.

Lemma ParseCompoundType_V3 size ms :
  len ms < 2 ^ 32 -> Forall member_ok ms -> delimited bytesV3 ms [] ->
  ParseCompoundType (compoundV3 size ms) = Ret (mkCompound size ms).
Proof.
  intros Hl Hok Hd. unfold ParseCompoundType. cbn [dtClass dtVersion dtSize Properties compoundV3 Z.eqb Pos.eqb].
  rewrite len_app, len_le_put. pose proof (len_nonneg (bytesV3 ms)). pose proof (len_nonneg ms).
  destruct (Z.ltb_spec (Z.of_nat 4 + len (bytesV3 ms)) 2); [lia|]. cbn [negb].
  unfold parseCompoundV3. set (props := le_put 4 (len ms) ++ bytesV3 ms).
  assert (Hlp : len props = 4 + len (bytesV3 ms)) by (unfold props; rewrite !len_app, len_le_put; done).
  destruct (Z.ltb_spec (len props) 4); [lia|]. cbn [negb].
  rewrite (get_le_at 4 props [] (len ms) (bytesV3 ms) 0 eq_refl eq_refl) by (cbn; lia). cbn [obind].
  rewrite (parseMembersV3_ok props [] (len ms) ms (le_put 4 (len ms)) _ 0); try done.
  - unfold props. by rewrite app_nil_r.
  - pose proof (membersBytes_length nameSizeV3 0 nameSizeV3_ge ltac:(lia) ms). unfold len in *. lia.
Qed.

(** ** Properties *)

(** C22. Compound types of version 3 are read back: the encoded message parses to a
    datatype whose members are the fields that were given, names, offsets and
    types, nested compound types included.  A type that only the end of the
    message delimits (string, array, enum, ...) may be the last member's. *)
Theorem compound_v3_roundtrip size ms m :
  is_u 32 size -> size <> 0 -> len (ms ++ [m]) < 2 ^ 32 -> Forall member_ok (ms ++ [m]) ->
  Forall (fun m => selfDelimiting (cmType m)) ms -> readsBack (cmType m) ->
  exists bs dt, EncodeCompoundDatatypeV3 size (map toField (ms ++ [m])) = Ret bs /\
    ParseDatatypeMessage bs = Ret dt /\ ParseCompoundType dt = Ret (mkCompound size (ms ++ [m])) /\
    (selfDelimiting (cmType m) -> selfDelimiting dt).
Proof.
  intros Hs Hs0 Hl Hok Hd Hm. pose proof (delimited_last bytesV3 ms m eq_refl Hd Hm) as Hdl.
  exists (inlineBytes (compoundV3 size (ms ++ [m]))), (compoundV3 size (ms ++ [m])). split_and!.
  - apply EncodeCompoundDatatypeV3_ret; try done. by destruct ms.
  - by apply compoundV3_readsBack.
  - by apply ParseCompoundType_V3.
  - intros Hsm. apply compoundV3_selfDelimiting; try done. apply Forall_app. by repeat constructor.
Qed.

Definition int32T : DatatypeMessage := mkDatatype DatatypeFixed 1 4 8 [x00; x00; x20; x00].
Definition pointT : DatatypeMessage := compoundV3 8 [mkMember [x78] 0 int32T; mkMember [x79] 4 int32T].
Definition tagT : DatatypeMessage := mkDatatype DatatypeString 1 5 0 [x00].

Lemma int32T_delimits : selfDelimiting int32T.
Proof. apply fixed_selfDelimiting; [unfold dt_wf, is_u; split_and!; by vm_compute|done]. Qed.

Lemma member_ok_intro name off t :
  name <> [] -> forallb (fun b => negb (b2z b =? 0)) name = true -> is_u 32 off -> dt_wf t -> member_ok (mkMember name off t).
Proof.
  intros Hn Hz Ho Ht. split; [split; [done|]|by split]. apply Forall_forall. intros b Hb. rewrite forallb_forall in Hz.
  specialize (Hz b ltac:(by apply list_elem_of_In)). by destruct (Z.eqb_spec (b2z b) 0).
Qed.

Lemma pointT_delimits : selfDelimiting pointT.
Proof.
  apply compoundV3_selfDelimiting; [unfold is_u; lia|by vm_compute| |].
  - repeat (apply Forall_cons_2; [apply member_ok_intro; [done|done|unfold is_u; lia|unfold dt_wf, is_u; split_and!; by vm_compute]|]). apply Forall_nil_2.
  - repeat (apply Forall_cons_2; [apply int32T_delimits|]). apply Forall_nil_2.
Qed.

(** A point, an integer and a string, in this order. *)
Example compound_v3_roundtrip_witness :
  let ms := [mkMember [x70] 0 pointT; mkMember [x69] 8 int32T] in let m := mkMember [x73] 12 tagT in
  exists bs dt, EncodeCompoundDatatypeV3 17 (map toField (ms ++ [m])) = Ret bs /\
    ParseDatatypeMessage bs = Ret dt /\ ParseCompoundType dt = Ret (mkCompound 17 (ms ++ [m])).
Proof.
  intros ms m. destruct (compound_v3_roundtrip 17 ms m) as (bs & dt & E1 & E2 & E3 & _).
  - unfold is_u. lia.
  - done.
  - by vm_compute.
  - subst ms m. cbn [app]. repeat (apply Forall_cons_2; [apply member_ok_intro; [done|done|unfold is_u; lia|unfold dt_wf, is_u; split_and!; by vm_compute]|]).
    apply Forall_nil_2.
  - apply Forall_cons_2; [apply pointT_delimits|]. apply Forall_cons_2; [apply int32T_delimits|]. apply Forall_nil_2.
  - by vm_compute.
  - exists bs, dt. split; [exact E1|]. split; [exact E2|exact E3].
Defined.

(** Compound types of version 1 are read back as well, when every member's
    type has the property bytes its class prescribes (what the reader skips). *)
Theorem compound_v1_roundtrip size ms m :
  is_u 32 size -> size <> 0 -> len (ms ++ [m]) <= 65535 -> Forall member_ok (ms ++ [m]) ->
  Forall (fun m => selfDelimiting (cmType m)) ms -> readsBack (cmType m) ->
  Forall (fun m => GetEncodedSize (cmType m) = len (inlineBytes (cmType m))) (ms ++ [m]) ->
  exists bs dt, EncodeCompoundDatatypeV1 size (map toField (ms ++ [m])) = Ret bs /\
    ParseDatatypeMessage bs = Ret dt /\ ParseCompoundType dt = Ret (mkCompound size (ms ++ [m])).
Proof.
  intros Hs Hs0 Hl Hok Hd Hm Hes. pose proof (delimited_last bytesV1 ms m eq_refl Hd Hm) as Hdl.
  set (l := ms ++ [m]) in *. assert (Hne : l <> []) by (unfold l; by destruct ms). clearbody l.
  pose proof (len_nonneg (bytesV1 l)). pose proof (membersBytes_length nameSizeV1 28 nameSizeV1_ge ltac:(lia) l) as Hbl.
  pose proof (len_nonneg l). assert (Hbig : 48 <= len (bytesV1 l)).
  { destruct l as [|m' l']; [done|]. rewrite membersBytes_cons, len_app, len_memberBytes by (auto with go; lia).
    pose proof (len_nonneg (bytesV1 l')). pose proof (len_nonneg (Properties (cmType m'))).
    pose proof (nameSizeV1_ge (len (cmName m')) (len_nonneg _)). apply Forall_cons in Hok as [[[Hn _] _] _].
    unfold nameSizeV1 in *. pose proof (len_nonneg (cmName m')). Z.div_mod_to_equations. lia. }
  exists (inlineBytes (compoundV1 size l)), (compoundV1 size l). split_and!.
  - by apply EncodeCompoundDatatypeV1_ret.
  - rewrite <- (app_nil_r (inlineBytes _)). unfold ParseDatatypeMessage. apply parse_delimited; [by apply compoundV1_wf|].
    unfold propsLenOf, compoundV1, DatatypeCompound, DatatypeFixed, DatatypeFloat, DatatypeBitfield, DatatypeTime.
    cbn [dtClass dtVersion Z.eqb Pos.eqb]. rewrite app_nil_r, len_inlineBytes. cbn [Properties].
    rewrite slice_ret by (rewrite ?len_inlineBytes; cbn [Properties]; lia). cbn [obind]. unfold calculateCompoundPropsLen.
    cbn [Z.eqb Pos.eqb]. f_equal. lia.
  - unfold ParseCompoundType, compoundV1. cbn [dtClass dtVersion dtSize Properties ClassBitField Z.eqb Pos.eqb].
    destruct (Z.ltb_spec (len (bytesV1 l)) 2); [lia|]. cbn [negb]. change 65535 with (Z.ones 16).
    rewrite Z.land_ones, (Z.mod_small (len l)), u16_id by (unfold is_u; lia). unfold parseCompoundV1.
    rewrite (parseMembersV1_ok (bytesV1 l) [] (len l) l [] _ 0); try done.
    + by rewrite app_nil_r.
    + unfold len in *. lia.
Qed.

Example compound_v1_roundtrip_witness :
  let ms := [mkMember [x69] 0 int32T] in let m := mkMember [x73] 4 tagT in
  exists bs dt, EncodeCompoundDatatypeV1 9 (map toField (ms ++ [m])) = Ret bs /\
    ParseDatatypeMessage bs = Ret dt /\ ParseCompoundType dt = Ret (mkCompound 9 (ms ++ [m])).
Proof.
  intros ms m. apply (compound_v1_roundtrip 9 ms m).
  - unfold is_u. lia.
  - done.
  - by vm_compute.
  - subst ms m. cbn [app]. repeat (apply Forall_cons_2; [apply member_ok_intro; [done|done|unfold is_u; lia|unfold dt_wf, is_u; split_and!; by vm_compute]|]).
    apply Forall_nil_2.
  - apply Forall_cons_2; [apply int32T_delimits|]. apply Forall_nil_2.
  - by vm_compute.
  - subst ms m. repeat (apply Forall_cons_2; [by vm_compute|]). apply Forall_nil_2.
Defined.

(** A member whose type is taken to be all that follows leaves no member after it. *)
Definition greedy (t : DatatypeMessage) : Prop := fixedProps (dtClass t) = None /\ dtClass t <> DatatypeCompound.

Section greedyV3.
Variables (props rest : bytes) (m : CompoundMember) (pre : bytes) (numMembers : Z).
Hypothesis E : props = pre ++ memberBytes nameSizeV3 0 m ++ rest.
Hypothesis Hm : member_ok m.
Hypothesis Hg : greedy (cmType m).
Hypothesis Hnum : 2 <= numMembers.

Let t' := mkDatatype (dtClass (cmType m)) (dtVersion (cmType m)) (dtSize (cmType m)) (ClassBitField (cmType m))
  (Properties (cmType m) ++ rest).

Lemma greedy_read : ParseDatatypeMessage (inlineBytes (cmType m) ++ rest) = Ret t'.
Proof. destruct Hg, Hm as (_ & _ & Hwf). by apply greedy_readsBack. Qed.

Lemma greedy_next_name offset : len props <= offset -> nameEndAt props offset = offset.
Proof.
  intros H. unfold nameEndAt, nameAt. rewrite drop_ge by (unfold len in *; lia). cbn [cstring]. rewrite len_nil. lia.
Qed.

Lemma greedy_end : len pre + len (cmName m) + 1 + 4 + (8 + len (Properties t')) = len props.
Proof.
  rewrite E. cbn [Properties t']. rewrite !len_app, len_memberBytes by (auto with go; lia). unfold nameSizeV3. lia.
Qed.

Lemma greedy_fails parse fuel :
  (forall d, (length d < length props)%nat -> parse d = ParseDatatypeMessage d) ->
  skipMembers parse (S (S fuel)) props numMembers 0 (len pre) = Err "name not null-terminated" /\
  parseMembersV3 (S (S fuel)) props numMembers 0 (len pre) = Err "name not null-terminated".
Proof.
  intros Hp. destruct (member_reads nameSizeV3 0 nameSizeV3_ge ltac:(lia) pre m rest Hm) as (E1 & E2 & E0 & E3 & E4).
  rewrite <- E in *. change (nameSizeV3 (len (cmName m))) with (len (cmName m) + 1) in *.
  pose proof (len_nonneg (cmName m)). pose proof (len_nonneg pre). pose proof greedy_end as Ee.
  replace (len pre + (len (cmName m) + 1) + 4 + 0) with (len pre + len (cmName m) + 1 + 4) in * by lia.
  replace (len pre + (len (cmName m) + 1)) with (len pre + len (cmName m) + 1) in * by lia.
  assert (Hpd : parse (inlineBytes (cmType m) ++ rest) = Ret t').
  { rewrite Hp; [apply greedy_read|]. apply slice_inv in E4 as (_ & _ & ->). apply length_sub_lt. lia. }
  cbn [skipMembers parseMembersV3]. destruct (Z.ltb_spec 0 numMembers); [|lia]. rewrite E1, E0.
  destruct (Z.geb_spec (len pre + len (cmName m)) (len props)); [lia|]. cbn [negb obind].
  destruct (Z.gtb_spec (len pre + len (cmName m) + 1 + 4) (len props)); [lia|]. cbn [negb]. rewrite E3. cbn [obind].
  destruct (Z.gtb_spec (len pre + len (cmName m) + 1 + 4 + 8) (len props)); [lia|]. cbn [negb].
  rewrite E4. cbn [obind]. rewrite Hpd, greedy_read. cbn [obind]. rewrite Ee.
  destruct (Z.ltb_spec (0 + 1) numMembers); [|lia]. rewrite greedy_next_name by lia.
  destruct (Z.geb_spec (len props) (len props)); [|lia]. done.
Qed.
End greedyV3.

(** A string, array, enum, opaque, reference or variable-length member that is
    not the last makes the whole compound unreadable: the encoder accepts it, the
    parser takes the member's properties to be all that follows and then finds no
    further member. *)
Theorem compound_string_member_unreadable size m ms :
  is_u 32 size -> size <> 0 -> ms <> [] -> len (m :: ms) < 2 ^ 32 -> Forall member_ok (m :: ms) -> greedy (cmType m) ->
  exists bs dt, EncodeCompoundDatatypeV3 size (map toField (m :: ms)) = Ret bs /\
    ParseDatatypeMessage bs = Ret dt /\ ParseCompoundType dt = Err "name not null-terminated".
Proof.
  intros Hs Hs0 Hne Hl Hok Hg. exists (inlineBytes (compoundV3 size (m :: ms))), (compoundV3 size (m :: ms)).
  assert (Hlen : 2 <= len (m :: ms)) by (destruct ms; [done|]; rewrite !len_cons; pose proof (len_nonneg ms); lia).
  set (props := Properties (compoundV3 size (m :: ms))).
  assert (E : props = le_put 4 (len (m :: ms)) ++ memberBytes nameSizeV3 0 m ++ bytesV3 ms) by done.
  assert (Hp4 : 4 <= len props) by (rewrite E, len_app, len_le_put; pose proof (len_nonneg (memberBytes nameSizeV3 0 m ++ bytesV3 ms)); lia).
  assert (Hget : get_le 4 props 0 = Ret (len (m :: ms))) by (apply (get_le_at 4 _ [] _ _ 0 E eq_refl); cbn; lia).
  assert (Hfl : (2 <= S (length props))%nat) by (unfold len in *; lia).
  destruct (length props) as [|k] eqn:Ek; [lia|].
  assert (Hm : member_ok m) by (by apply Forall_cons in Hok as [? _]).
  split_and!; [by apply EncodeCompoundDatatypeV3_ret| |].
  - rewrite <- (app_nil_r (inlineBytes _)). unfold ParseDatatypeMessage. apply parse_delimited; [by apply compoundV3_wf|].
    rewrite app_nil_r. unfold propsLenOf. cbn [dtClass dtVersion compoundV3].
    unfold DatatypeCompound, DatatypeFixed, DatatypeFloat, DatatypeBitfield, DatatypeTime. cbn [Z.eqb Pos.eqb].
    unfold inlineBytes at 1. fold props. rewrite (slice_at _ (headerBytes (compoundV3 size (m :: ms))) props [] 8)
      by first [by rewrite app_nil_r | done | by rewrite len_inlineBytes]. cbn [obind].
    unfold calculateCompoundPropsLen. cbn [Z.eqb Pos.eqb]. destruct (Z.ltb_spec (len props) 4); [lia|]. cbn [negb].
    rewrite Hget, Ek. cbn [obind].
    destruct (greedy_fails props (bytesV3 ms) m (le_put 4 (len (m :: ms))) (len (m :: ms)) E Hm Hg Hlen
      (parseDatatype (length (inlineBytes (compoundV3 size (m :: ms))))) k) as [Hsk _].
    + intros d Hd. apply parseDatatype_fuel; [|lia]. pose proof (len_inlineBytes (compoundV3 size (m :: ms))) as Hli. fold props in Hli.
      unfold len in Hli. lia.
    + change (len (le_put 4 (len (m :: ms)))) with 4 in Hsk. rewrite Hsk, len_inlineBytes. fold props. f_equal. lia.
  - unfold ParseCompoundType. cbn [dtClass dtVersion compoundV3 Z.eqb Pos.eqb]. fold props.
    destruct (Z.ltb_spec (len props) 2); [lia|]. cbn [negb]. unfold parseCompoundV3.
    destruct (Z.ltb_spec (len props) 4); [lia|]. cbn [negb]. rewrite Hget, Ek. cbn [obind].
    destruct (greedy_fails props (bytesV3 ms) m (le_put 4 (len (m :: ms))) (len (m :: ms)) E Hm Hg Hlen
      ParseDatatypeMessage k) as [_ Hpm]; [done|]. change (len (le_put 4 (len (m :: ms)))) with 4 in Hpm. by rewrite Hpm.
Qed.

Example compound_string_member_unreadable_witness :
  exists bs dt, EncodeCompoundDatatypeV3 9 (map toField [mkMember [x73] 0 tagT; mkMember [x69] 5 int32T]) = Ret bs /\
    ParseDatatypeMessage bs = Ret dt /\ ParseCompoundType dt = Err "name not null-terminated".
Proof.
  apply (compound_string_member_unreadable 9 (mkMember [x73] 0 tagT) [mkMember [x69] 5 int32T]).
  - unfold is_u. lia.
  - done.
  - done.
  - by vm_compute.
  - repeat (apply Forall_cons_2; [apply member_ok_intro; [done|done|unfold is_u; lia|unfold dt_wf, is_u; split_and!; by vm_compute]|]).
    apply Forall_nil_2.
  - by split.
Defined.

(** ** Messages *)

Lemma encodeMessage_ret t properties n :
  len properties <= n ->
  encodeMessage (dtClass t) (dtVersion t) (ClassBitField t) (dtSize t) properties (8 + n) =
    Ret (headerBytes t ++ properties ++ zeros (n - len properties)).
Proof.
  intros Hn. pose proof (len_nonneg properties). unfold encodeMessage. rewrite <- (app_nil_l (zeros _)).
  rewrite putFields_ret by (cbn [contiguous map snd concat];
    first [split_and!; done | rewrite app_nil_r, !len_app, !len_le_put; lia]).
  cbn [map snd concat]. rewrite app_nil_r, app_nil_l. unfold headerBytes. rewrite !len_app, !len_le_put, <- !app_assoc.
  do 5 f_equal. lia.
Qed.

Lemma parse_header t body :
  dt_wf t -> exists props, ParseDatatypeMessage (headerBytes t ++ body) =
    Ret (mkDatatype (dtClass t) (dtVersion t) (dtSize t) (ClassBitField t) props).
Proof.
  intros Hwf. unfold ParseDatatypeMessage. rewrite parse_inline by done. pose proof (len_nonneg body).
  destruct (propsLenOf_total (parseDatatype (length (headerBytes t ++ body))) (headerBytes t ++ body) (dtClass t) (dtVersion t))
    as (n & -> & Hn); [rewrite len_app, len_typeHeader; lia|intros; by apply parseDatatype_safe|]. cbn [obind].
  destruct (Z.gtb_spec (8 + n) (8 + len body)); rewrite slice_ret by (rewrite ?len_app, ?len_typeHeader; lia); eauto.
Qed.

(** An encoded datatype message parses to the class and size it was encoded
    from and, opaque types apart (whose bit field holds the length of the tag), to
    the same class bit field: sign, byte order, string padding and kind of
    reference survive. *)
Theorem datatype_message_roundtrip dt bs :
  dt_wf dt -> len (Properties dt) < 2 ^ 24 - 8 -> EncodeDatatypeMessage dt = Ret bs ->
  exists dt', ParseDatatypeMessage bs = Ret dt' /\ dtClass dt' = dtClass dt /\ dtSize dt' = dtSize dt /\
    (dtClass dt <> DatatypeOpaque -> ClassBitField dt' = ClassBitField dt) /\
    (dtClass dt = DatatypeVarLen -> dt' = dt).
Proof.
  intros Hwf Htag. pose proof Hwf as (Hc & Hv & Hf & Hs). unfold EncodeDatatypeMessage.
  destruct (Z.eqb_spec (dtSize dt) 0); [done|]. cbn [negb].
  intros Henc.
  assert (Hgen : exists v f properties n, 0 <= v < 16 /\ 0 <= f < 2 ^ 24 /\ len properties <= n /\
    encodeMessage (dtClass dt) v f (dtSize dt) properties (8 + n) = Ret bs /\
    (dtClass dt <> DatatypeOpaque -> f = ClassBitField dt) /\
    (dtClass dt = DatatypeVarLen -> v = dtVersion dt /\ properties = Properties dt /\ n = len properties)).
  { destruct dt as [c v sz f props]. cbn [dtClass dtVersion dtSize ClassBitField Properties] in *.
    destruct (_ || _) eqn:Ec in Henc.
    - unfold encodeDatatypeNumeric in Henc. cbn [dtClass dtVersion dtSize ClassBitField Properties] in *.
      destruct (_ || _) in Henc; [|done]. apply obind_ret_inv in Henc as (ps & _ & He).
      exists 1, f, ps, (len ps). split_and!; try done; try lia. intros ->. done.
    - destruct (Z.eqb_spec c DatatypeString) as [->|].
      { unfold encodeDatatypeString in Henc. cbn [dtClass dtVersion dtSize ClassBitField Properties] in *.
        destruct (negb _) in Henc; [|done]. by exists 1, f, [x00], (len [x00]). }
      destruct (c =? DatatypeArray); [done|]. destruct (c =? DatatypeEnum); [done|].
      destruct (Z.eqb_spec c DatatypeReference) as [->|].
      { unfold encodeDatatypeReference in Henc. cbn [dtClass dtVersion dtSize ClassBitField Properties] in *.
        destruct (_ || _) in Henc; [|done]. by exists 1, f, [], 0. }
      destruct (Z.eqb_spec c DatatypeOpaque) as [->|].
      { unfold encodeDatatypeOpaque in Henc. cbn [dtClass dtVersion dtSize ClassBitField Properties] in *.
        destruct (negb _) in Henc; [|done]. destruct (negb _) in Henc; [|done].
        exists 1, (u32 ((len props + 7) / 8 * 8)), props, ((len props + 7) / 8 * 8).
        pose proof (len_nonneg props). assert (0 <= (len props + 7) / 8 * 8 < 2 ^ 24) by (Z.div_mod_to_equations; lia).
        rewrite u32_id in * by (unfold is_u; lia). split_and!; try done; try lia. Z.div_mod_to_equations; lia. }
      destruct (Z.eqb_spec c DatatypeCompound) as [->|].
      { unfold encodeDatatypeCompound in Henc. cbn [dtClass dtVersion dtSize ClassBitField Properties] in *.
        destruct (negb _) in Henc; [|done]. by exists v, f, props, (len props). }
      destruct (c =? DatatypeVarLen); [|done]. by exists v, f, props, (len props). }
  destruct Hgen as (v & f & properties & n' & Hv' & Hf' & Hn' & Ee & Hop & Hvl).
  set (t := mkDatatype (dtClass dt) v (dtSize dt) f []).
  pose proof (encodeMessage_ret t properties n' Hn') as Er. cbn [t dtClass dtVersion dtSize ClassBitField] in Er.
  rewrite Ee in Er. injection Er as ->.
  destruct (parse_header t (properties ++ zeros (n' - len properties))) as [props Ep]; [by unfold dt_wf|].
  eexists. split; [exact Ep|]. cbn [dtClass dtSize ClassBitField t]. split_and!; [done..|].
  intros Hc'. destruct (Hvl Hc') as (-> & -> & ->). assert (Ef : f = ClassBitField dt) by (apply Hop; by rewrite Hc'). subst f.
  rewrite Z.sub_diag in Ep. change (zeros 0) with (@nil byte) in Ep. rewrite app_nil_r in Ep.
  pose proof (greedy_readsBack dt Hwf ltac:(by rewrite Hc') ltac:(by rewrite Hc') []) as Hg.
  rewrite !app_nil_r, dt_eta in Hg. unfold inlineBytes in Hg.
  change (headerBytes dt) with (headerBytes t) in Hg. rewrite Ep in Hg. by injection Hg.
Qed.

Example datatype_message_roundtrip_witness :
  exists bs dt', EncodeDatatypeMessage int32T = Ret bs /\ ParseDatatypeMessage bs = Ret dt' /\
    dtClass dt' = DatatypeFixed /\ dtSize dt' = 4 /\ ClassBitField dt' = 8.
Proof.
  destruct (EncodeDatatypeMessage int32T) as [bs|e|] eqn:E; [|by vm_compute in E..].
  destruct (datatype_message_roundtrip int32T bs) as (dt' & E1 & E2 & E3 & E4 & _); [|by vm_compute|done|].
  - unfold dt_wf, is_u. split_and!; by vm_compute.
  - exists bs, dt'. split_and!; try done. by apply E4.
Defined.
