(* ===== verification/Convert.v ===== *)
(** * Element conversion: convertToFloat64 of internal/core/dataset_reader.go and
    internal/core/dataset_reader_strings.go

    Go's [float64] is the Standard Library's [spec_float] at precision 53; NaN
    payloads, which [spec_float] does not have, are not modelled.  Conversions of
    integers and of [float32] round to nearest, ties to even. *)

From Stdlib Require Import SpecFloat.
From S2P Require Import Prelude Overflow Datatype.

(** ** Floating point *)

(** The IEEE 754 number of the given bits: [mw] mantissa bits, [ew] exponent bits. *)
Definition decodeIEEE (mw ew bits : Z) : spec_float :=
  let s := Z.testbit bits (mw + ew) in
  let e := (bits / 2 ^ mw) mod 2 ^ ew in
  let m := bits mod 2 ^ mw in
  let emin := 2 - 2 ^ (ew - 1) - mw in
  if e =? 2 ^ ew - 1 then (if m =? 0 then S754_infinity s else S754_nan)
  else if e =? 0 then (if m =? 0 then S754_zero s else S754_finite s (Z.to_pos m) emin)
  else S754_finite s (Z.to_pos (m + 2 ^ mw)) (e + emin - 1).

Definition Float64frombits (bits : Z) : spec_float := decodeIEEE 52 11 bits.
Definition Float32frombits (bits : Z) : spec_float := decodeIEEE 23 8 bits.

(** [float64(x)] for a [float32] and for an integer. *)
Definition float64_of_float32 (x : spec_float) : spec_float :=
  match x with
  | S754_finite s m e => binary_round 53 1024 s m e
  | _ => x
  end.
Definition float64_of_int (n : Z) : spec_float := binary_normalize 53 1024 n 0 false.

(** The [w]-bit two's complement value. *)
Definition signed (w x : Z) : Z := if x >=? 2 ^ (w - 1) then x - 2 ^ w else x.

(** ** Conversion *)

(** Elements [i], [i + 1], ... of the result, [n] of them. *)
Fixpoint convertElements {A} (n : nat) (i : Z) (read : Z -> outcome A) : outcome (list A) :=
  match n with
  | O => Ret []
  | S n => let! x := read i in let! r := convertElements n (i + 1) read in Ret (x :: r)
  end.

Definition readFloat64 (rawData : bytes) (order : ByteOrder) (i : Z) : outcome spec_float :=
  let offset := u64 (i * 8) in
  guard negb (u64 (offset + 8) >? len rawData) else "data truncated (float64)";;
  let! d := slice rawData offset (u64 (offset + 8)) in Ret (Float64frombits (get_order order d)).

Definition readFloat32 (rawData : bytes) (order : ByteOrder) (i : Z) : outcome spec_float :=
  let offset := u64 (i * 4) in
  guard negb (u64 (offset + 4) >? len rawData) else "data truncated (float32)";;
  let! d := slice rawData offset (u64 (offset + 4)) in
  Ret (float64_of_float32 (Float32frombits (get_order order d))).

Definition readFixed (rawData : bytes) (order : ByteOrder) (isSigned : bool) (size i : Z) : outcome spec_float :=
  let! d := slice rawData (u64 (i * size)) (u64 (u64 (i * size) + size)) in
  let x := get_order order d in
  Ret (float64_of_int (if isSigned then signed (8 * size) x else x)).

Definition convertToFloat64 (rawData : bytes) (datatype : DatatypeMessage) (numElements : Z)
    : outcome (list spec_float) :=
  let byteOrder := GetByteOrder datatype in
  let n := Z.to_nat numElements in
  if IsFloat64 datatype then convertElements n 0 (readFloat64 rawData byteOrder)
  else if IsFloat32 datatype then convertElements n 0 (readFloat32 rawData byteOrder)
  else if IsFixedPoint datatype then
    let size := dtSize datatype in
    guard (size =? 1) || (size =? 2) || (size =? 4) || (size =? 8) else "unsupported fixed-point width";;
    guard negb (u64 (numElements * size) >? len rawData) else "data truncated (int)";;
    convertElements n 0 (readFixed rawData byteOrder (IsSignedFixedPoint datatype) size)
  else Err "unsupported datatype for conversion to float64".

(** ** Strings *)

(** [bytes.TrimRight(data, c)]: every trailing [c] removed. *)
Definition TrimRight (data : bytes) (c : byte) : bytes :=
  rev ((fix trim (l : bytes) := match l with [] => [] | b :: r => if byte_eqb b c then trim r else l end) (rev data)).

Definition decodeFixedString (data : bytes) (paddingType : Z) : bytes :=
  if paddingType =? 0 then cstring data
  else if paddingType =? 1 then TrimRight data x00
  else if paddingType =? 2 then TrimRight data x20
  else data.

Definition readString (rawData : bytes) (stringSize paddingType i : Z) : outcome bytes :=
  let offset := u64 (i * stringSize) in
  guard negb (u64 (offset + stringSize) >? len rawData) else "data truncated (fixed string)";;
  let! stringBytes := slice rawData offset (u64 (offset + stringSize)) in
  Ret (decodeFixedString stringBytes paddingType).

Definition convertToStrings (rawData : bytes) (datatype : DatatypeMessage) (numElements : Z) : outcome (list bytes) :=
  if IsFixedString datatype then
    let stringSize := dtSize datatype in
    let paddingType := GetStringPadding datatype in
    let! _ := ValidateBufferSize stringSize MaxStringSize "string element" in
    convertElements (Z.to_nat numElements) 0 (readString rawData stringSize paddingType)
  else if IsVariableString datatype then Err "variable-length strings not yet supported"
  else Err "unknown string type".

(** ** Integers are exact up to 2^53 *)

(** The integer a float stands for, if it is one. *)
Definition SF2Z (x : spec_float) : option Z :=
  match x with
  | S754_zero _ => Some 0
  | S754_finite s m e =>
      if 0 <=? e then Some (cond_Zopp s (Z.pos m * 2 ^ e))
      else if Z.pos m mod 2 ^ (- e) =? 0 then Some (cond_Zopp s (Z.pos m / 2 ^ (- e))) else None
  | _ => None
  end.

Lemma digits2_pos_log2 p : Z.pos (digits2_pos p) = Z.log2 (Z.pos p) + 1.
Proof.
  induction p as [p IH|p IH|]; cbn [digits2_pos]; [| |done]; rewrite Pos2Z.inj_succ, IH.
  - rewrite (Pos2Z.inj_xI p), Z.log2_succ_double by lia. lia.
  - rewrite (Pos2Z.inj_xO p), Z.log2_double by lia. lia.
Qed.

Lemma iter_xO p d : Z.pos (Pos.iter xO p d) = Z.pos p * 2 ^ Z.pos d.
Proof.
  induction d as [|d IH] using Pos.peano_ind; [cbn; lia|].
  rewrite Pos.iter_succ, Pos2Z.inj_xO, IH, Pos2Z.inj_succ, Z.pow_succ_r by lia. lia.
Qed.

(** A mantissa of at most 53 bits at exponent 0 is only aligned, never rounded. *)
Lemma binary_round_exact s m :
  Z.pos m < 2 ^ 53 -> exists m' k, 0 <= k /\ binary_round 53 1024 s m 0 = S754_finite s m' (- k) /\ Z.pos m' = Z.pos m * 2 ^ k.
Proof.
  intros Hm. set (d := Z.log2 (Z.pos m) + 1). assert (Hd : 1 <= d <= 53).
  { unfold d. pose proof (Z.log2_nonneg (Z.pos m)). pose proof (Z.log2_lt_pow2 (Z.pos m) 53 ltac:(lia)). lia. }
  assert (Hs : exists m', shl_align m 0 (d - 53) = (m', d - 53) /\ Z.pos m' = Z.pos m * 2 ^ (53 - d)).
  { unfold shl_align. rewrite Z.sub_0_r. destruct (d - 53) as [|k|k] eqn:E; [|lia|].
    - exists m. split; [done|]. replace (53 - d) with 0 by lia. lia.
    - exists (Pos.iter xO m k). split; [done|]. rewrite iter_xO. f_equal. f_equal. lia. }
  destruct Hs as (m' & Es & Em). exists m', (53 - d). split; [lia|]. split; [|done].
  assert (Hl : Z.log2 (Z.pos m') = 52).
  { rewrite Em, <- Z.shiftl_mul_pow2, Z.log2_shiftl by lia. unfold d. lia. }
  unfold binary_round. rewrite digits2_pos_log2. fold d. unfold fexp, SpecFloat.emin.
  replace (Z.max (d + 0 - 53) (3 - 1024 - 53)) with (d - 53) by lia. rewrite Es.
  assert (Hsh : shr_fexp 53 1024 (Z.pos m') (d - 53) loc_Exact = (Build_shr_record (Z.pos m') false false, d - 53)).
  { unfold shr_fexp. cbn [Zdigits2]. rewrite digits2_pos_log2, Hl. unfold fexp, SpecFloat.emin.
    replace (_ - (d - 53)) with 0 by lia. done. }
  unfold binary_round_aux. rewrite Hsh. cbn [shr_m loc_of_shr_record round_nearest_even]. rewrite Hsh. cbn [shr_m].
  destruct (Z.leb_spec (d - 53) (1024 - 53)); [|lia]. f_equal. lia.
Qed.

Lemma SF2Z_scaled s m m' k : 0 <= k -> Z.pos m' = Z.pos m * 2 ^ k -> SF2Z (S754_finite s m' (- k)) = Some (cond_Zopp s (Z.pos m)).
Proof.
  intros Hk Em. cbn [SF2Z]. rewrite Em, Z.opp_involutive. destruct (Z.leb_spec 0 (- k)).
  - replace k with 0 by lia. do 2 f_equal. lia.
  - rewrite Z.mod_mul, Z.div_mul by lia. done.
Qed.

Lemma float64_of_int_exact n : Z.abs n < 2 ^ 53 -> SF2Z (float64_of_int n) = Some n.
Proof.
  intros Hn. unfold float64_of_int, binary_normalize. destruct n as [|p|p]; [done| |].
  - destruct (binary_round_exact false p) as (m' & k & Hk & -> & Em); [lia|]. by rewrite (SF2Z_scaled false p).
  - destruct (binary_round_exact true p) as (m' & k & Hk & -> & Em); [lia|]. by rewrite (SF2Z_scaled true p).
Qed.

(** ** Conversion of encoded data *)

Lemma convertElements_ok {A} (read : Z -> outcome A) (xs : list A) : forall i,
  (forall j x, xs !! j = Some x -> read (i + Z.of_nat j) = Ret x) -> convertElements (length xs) i read = Ret xs.
Proof.
  induction xs as [|x xs IH]; intros i H; cbn [convertElements length]; [done|].
  pose proof (H 0%nat x eq_refl) as E. rewrite Z.add_0_r in E. rewrite E. cbn [obind].
  rewrite (IH (i + 1)); [done|]. intros j y Hj. rewrite <- (H (S j) y Hj). f_equal. lia.
Qed.

(** Element [j] of a concatenation of blocks of the same size. *)
Lemma concat_block {A} (bss : list (list A)) (size : Z) :
  Forall (fun bs => len bs = size) bss ->
  len (concat bss) = size * len bss /\
  (forall j bs, bss !! j = Some bs -> slice (concat bss) (Z.of_nat j * size) (Z.of_nat j * size + size) = Ret bs).
Proof.
  intros H. assert (Hl : forall l : list (list A), Forall (fun bs => len bs = size) l -> len (concat l) = size * len l).
  { clear. intros l. induction 1 as [|b l Hb _ IH]; cbn [concat]; [unfold len; cbn; lia|]. rewrite len_app, len_cons, IH. lia. }
  split; [by apply Hl|]. intros j bs Hj. rewrite <- (take_drop_middle bss j bs Hj) in H |- *.
  apply Forall_app in H as [H1 H2]. apply Forall_cons in H2 as [H2 H3].
  rewrite concat_app, concat_cons. apply (slice_at _ (concat (take j bss)) bs (concat (drop (S j) bss))); [done| |lia].
  rewrite (Hl _ H1), len_take. apply lookup_lt_Some in Hj. unfold len. lia.
Qed.

Definition int_range (isSigned : bool) (w v : Z) : Prop :=
  if isSigned then - 2 ^ (w - 1) <= v < 2 ^ (w - 1) else 0 <= v < 2 ^ w.

Lemma signed_wrap w v : 0 < w -> - 2 ^ (w - 1) <= v < 2 ^ (w - 1) -> signed w (v mod 2 ^ w) = v.
Proof.
  intros Hw Hv. assert (E : 2 ^ w = 2 * 2 ^ (w - 1)) by (rewrite <- Z.pow_succ_r by lia; f_equal; lia).
  unfold signed. destruct (Z.ltb_spec v 0).
  - replace (v mod 2 ^ w) with (v + 2 ^ w) by (rewrite <- (Z.mod_small (v + 2 ^ w) (2 ^ w)) by lia;
      rewrite <- (Z_mod_plus_full v 1); f_equal; lia).
    destruct (Z.geb_spec (v + 2 ^ w) (2 ^ (w - 1))); lia.
  - rewrite Z.mod_small by lia. destruct (Z.geb_spec v (2 ^ (w - 1))); lia.
Qed.

Definition fixed_type (dt : DatatypeMessage) : Prop :=
  dtClass dt = DatatypeFixed /\ (dtSize dt = 1 \/ dtSize dt = 2 \/ dtSize dt = 4 \/ dtSize dt = 8).

(** Integer data of any width, sign and byte order convert to the floats that
    stand for the same integers, as long as these are below 2^53 in magnitude
    (every integer of at most 4 bytes is). *)
Lemma convert_integers dt vs :
  fixed_type dt -> Forall (int_range (IsSignedFixedPoint dt) (8 * dtSize dt)) vs -> Forall (fun v => Z.abs v < 2 ^ 53) vs ->
  dtSize dt * len vs < 2 ^ 63 ->
  exists fs, convertToFloat64 (concat (map (put_order (GetByteOrder dt) (Z.to_nat (dtSize dt))) vs)) dt (len vs) = Ret fs /\
    map SF2Z fs = map Some vs.
Proof.
  intros [Hc Hs] Hr Hb Hl. set (o := GetByteOrder dt). set (s := dtSize dt) in *. set (sg := IsSignedFixedPoint dt) in *.
  set (bss := map (put_order o (Z.to_nat s)) vs). pose proof (len_nonneg vs) as Hv.
  assert (Hbl : Forall (fun bs => len bs = s) bss).
  { apply Forall_map, Forall_forall. intros v _. rewrite len_put_order. lia. }
  destruct (concat_block bss s Hbl) as [Hcl Hsl]. unfold bss in Hcl at 2. rewrite len_map in Hcl.
  exists (map float64_of_int vs). split.
  - unfold convertToFloat64, IsFloat64, IsFloat32, IsFixedPoint. rewrite Hc. cbn [andb].
    change (DatatypeFixed =? DatatypeFloat) with false. cbn [andb]. fold s. rewrite Z.eqb_refl.
    replace (_ || _) with true by (destruct Hs as [-> |[-> |[-> | ->]]]; done).
    rewrite u64_id by (unfold is_u; lia). fold bss. rewrite Hcl.
    destruct (Z.gtb_spec (len vs * s) (s * len vs)); [lia|]. cbn [negb].
    replace (Z.to_nat (len vs)) with (length (map float64_of_int vs)) by (rewrite length_map; unfold len; lia).
    apply convertElements_ok. intros j x Hj. rewrite Z.add_0_l. apply list_lookup_fmap_Some in Hj as (v & -> & Hj).
    pose proof (lookup_len _ _ _ Hj) as Hjl. unfold readFixed. fold o sg.
    assert (Hjs : 0 <= Z.of_nat j * s < 2 ^ 63) by nia.
    rewrite (u64_id (Z.of_nat j * s)) by (unfold is_u; lia). rewrite u64_id by (unfold is_u; nia).
    rewrite (Hsl j (put_order o (Z.to_nat s) v)) by (unfold bss; by rewrite list_lookup_fmap, Hj). cbn [obind].
    rewrite get_put_order, Z2Nat.id by lia. replace (256 ^ s) with (2 ^ (8 * s)) by (rewrite Z.pow_mul_r by lia; done).
    rewrite Forall_forall in Hr. specialize (Hr v (list_elem_of_lookup_2 _ _ _ Hj)). unfold int_range in Hr.
    destruct sg; [by rewrite signed_wrap by lia|]. by rewrite Z.mod_small.
  - rewrite map_map. apply map_ext_in. intros v Hin. apply float64_of_int_exact. rewrite Forall_forall in Hb.
    apply Hb. by apply list_elem_of_In.
Qed.
