(* ===== verification/Filters.v ===== *)
(** * Byte-shuffle and Fletcher-32 filters

    The write side is internal/writer/filter_shuffle.go and
    filter_fletcher32.go, the read side the functions [applyShuffle] and
    [applyFletcher32] of internal/core/filterpipeline.go. *)

From S2P Require Import Prelude.

(** ** Shuffle *)

(** The double loop of [ShuffleFilter.Apply] and [Remove]: for every byte
    position and element, one byte is copied from [srcIndex] to [dstIndex].
    Indices are [uint32]. *)
Definition transposeLoop (src dst : Z -> Z -> Z) (elementSize numElements : Z)
    (data out : bytes) : outcome bytes :=
  for_loop (Z.to_nat elementSize) 0 (fun byteIndex out =>
    for_loop (Z.to_nat numElements) 0 (fun elemIndex out =>
      let! b := idx data (u32 (src byteIndex elemIndex)) in
      set_idx out (u32 (dst byteIndex elemIndex)) b) out) out.

Definition shuffleWith (src dst : Z -> Z -> Z -> Z -> Z) (elementSize : Z) (data : bytes)
    : outcome bytes :=
  let dataLen := u32 (len data) in
  if dataLen =? 0 then Ret data
  else if elementSize =? 0 then Panic
  else
    guard dataLen mod elementSize =? 0 else "data length not multiple of element size";;
    let numElements := dataLen / elementSize in
    transposeLoop (src elementSize numElements) (dst elementSize numElements)
      elementSize numElements data (replicate (Z.to_nat dataLen) x00).

(** Position of byte [b] of element [e] in element order and in shuffled order. *)
Definition elemPos (elementSize numElements b e : Z) : Z := e * elementSize + b.
Definition planePos (elementSize numElements b e : Z) : Z := b * numElements + e.

(** [ShuffleFilter.Apply] and [ShuffleFilter.Remove]. *)
Definition shuffleApply (elementSize : Z) (data : bytes) : outcome bytes :=
  shuffleWith elemPos planePos elementSize data.
Definition shuffleRemove (elementSize : Z) (data : bytes) : outcome bytes :=
  shuffleWith planePos elemPos elementSize data.

(** The reader's inverse: loops nested the other way round, with [int]
    indices and its own argument checks. *)
Definition applyShuffle (data : bytes) (clientData : list Z) : outcome bytes :=
  match clientData with
  | [] => Err "shuffle filter missing element size"
  | elementSize :: _ =>
      guard negb ((elementSize <=? 0) || (elementSize >? len data))
        else "invalid shuffle element size";;
      let numElements := len data / elementSize in
      guard len data mod elementSize =? 0 else "data size not multiple of element size";;
      for_loop (Z.to_nat numElements) 0 (fun elemIdx result =>
        for_loop (Z.to_nat elementSize) 0 (fun byteIdx result =>
          let! b := idx data (byteIdx * numElements + elemIdx) in
          set_idx result (elemIdx * elementSize + byteIdx) b) result)
        (replicate (length data) x00)
  end.

(** ** Fletcher-32 *)

(** [calculateFletcher32]: 16-bit little-endian words, an odd last byte alone. *)
Fixpoint fletcherLoop (data : bytes) (sum1 sum2 : Z) : Z * Z :=
  match data with
  | b0 :: b1 :: rest =>
      let word := Z.lor (b2z b0) (Z.shiftl (b2z b1) 8) in
      let sum1 := u32 (sum1 + word) mod 65535 in
      let sum2 := u32 (sum2 + sum1) mod 65535 in
      fletcherLoop rest sum1 sum2
  | [b0] =>
      let sum1 := u32 (sum1 + b2z b0) mod 65535 in
      let sum2 := u32 (sum2 + sum1) mod 65535 in
      (sum1, sum2)
  | [] => (sum1, sum2)
  end.

Definition calculateFletcher32 (data : bytes) : Z :=
  let '(sum1, sum2) := fletcherLoop data 0 0 in
  Z.lor (u32 (Z.shiftl sum2 16)) sum1.

(** [Fletcher32Filter.Apply] and [Remove]. *)
Definition fletcherApply (data : bytes) : outcome bytes :=
  let checksum := calculateFletcher32 data in
  let! result := put_bytes (replicate (length data + 4) x00) 0 data in
  put_le 4 result (len data) checksum.

Definition fletcherRemove (data : bytes) : outcome bytes :=
  guard negb (len data <? 4) else "data too short for fletcher32";;
  let dataLen := len data - 4 in
  let! originalData := slice data 0 dataLen in
  let! storedChecksum := get_le 4 data dataLen in
  let calculatedChecksum := calculateFletcher32 originalData in
  guard calculatedChecksum =? storedChecksum else "fletcher32 checksum mismatch";;
  Ret originalData.

(** The reader strips the checksum without looking at it. *)
Definition applyFletcher32 (data : bytes) : outcome bytes :=
  guard negb (len data <? 4) else "data too short for Fletcher32 checksum";;
  slice data 0 (len data - 4).

(** ** Transposition loops *)

(** A double loop that copies byte [rd i j] of [data] to [wr i j], for an
    injective [wr], leaves at every [wr i j] the byte [rd i j]. *)
Section copy2.
Context (rd wr : Z -> Z -> Z) (n m N : Z) (data : bytes).
Hypothesis Hn : 0 <= n.
Hypothesis Hm : 0 <= m.
Hypothesis Hrd : forall i j, 0 <= i < n -> 0 <= j < m -> 0 <= rd i j < len data.
Hypothesis Hwr : forall i j, 0 <= i < n -> 0 <= j < m -> 0 <= wr i j < N.
Hypothesis Hinj : forall i j i' j', 0 <= i < n -> 0 <= j < m -> 0 <= i' < n -> 0 <= j' < m ->
    wr i j = wr i' j' -> i = i' /\ j = j'.

Definition copied (i j : Z) (out : bytes) : Prop :=
    len out = N /\
    forall i' j', 0 <= i' < n -> 0 <= j' < m -> i' < i \/ (i' = i /\ j' < j) ->
      out !! Z.to_nat (wr i' j') = data !! Z.to_nat (rd i' j').

Lemma copied_step i j out :
    0 <= i < n -> 0 <= j < m -> copied i j out ->
    exists out', (let! b := idx data (rd i j) in set_idx out (wr i j) b) = Ret out' /\
      copied i (j + 1) out'.
  Proof using Hrd Hwr Hinj.
    intros Hi Hj [Hl Hc]. destruct (idx_in_range data (rd i j)) as [b Hb]; [auto|].
    rewrite Hb. cbn [obind]. pose proof (Hwr i j Hi Hj) as Hw.
    rewrite set_idx_ret by lia. eexists. split; [done|]. split; [len_lia|].
    intros i' j' Hi' Hj' Hlt. apply idx_ret in Hb as [_ Hb].
    destruct (decide (i' = i /\ j' = j)) as [[-> ->]|Hne].
    - rewrite list_lookup_insert_eq; [done|]. unfold len in *. lia.
    - rewrite list_lookup_insert_ne.
      + apply Hc; [done..|]. lia.
      + intros E. pose proof (Hwr i' j' Hi' Hj'). apply Z2Nat.inj in E; [|lia..].
        apply Hinj in E; [lia|done..].
  Qed.

Lemma copy2_ok out :
    len out = N ->
    exists out',
      for_loop (Z.to_nat n) 0 (fun i out => for_loop (Z.to_nat m) 0 (fun j out =>
        let! b := idx data (rd i j) in set_idx out (wr i j) b) out) out = Ret out' /\
      len out' = N /\
      forall i j, 0 <= i < n -> 0 <= j < m ->
        out' !! Z.to_nat (wr i j) = data !! Z.to_nat (rd i j).
  Proof using All.
    intros Hl. destruct (for_loop_inv (fun i out => copied i 0 out) (Z.to_nat n) 0
      (fun i out => for_loop (Z.to_nat m) 0 (fun j out =>
        let! b := idx data (rd i j) in set_idx out (wr i j) b) out) out) as (out' & E & Hc).
    - split; [done|]. intros. lia.
    - intros i t Hi Ht. destruct (for_loop_inv (copied i) (Z.to_nat m) 0
        (fun j out => let! b := idx data (rd i j) in set_idx out (wr i j) b) t) as (t' & E & Hc).
      + done.
      + intros j u Hj Hu. apply copied_step; [lia|lia|done].
      + exists t'. split; [done|]. destruct Hc as [Hl' Hc]. split; [done|].
        intros i' j' ?? H'. apply Hc; [done..|]. lia.
    - exists out'. split; [done|]. destruct Hc as [Hl' Hc]. split; [done|].
      intros. apply Hc; [done..|]. lia.
  Qed.
End copy2.

(** Row-major positions: bounds and injectivity. *)
Lemma pos_bound n m i j : 0 <= i < n -> 0 <= j < m -> 0 <= i * m + j < n * m.
Proof. nia. Qed.

Lemma pos_inj m i j i' j' :
  0 <= j < m -> 0 <= j' < m -> i * m + j = i' * m + j' -> i = i' /\ j = j'.
Proof. intros. assert (i = i') as -> by nia. lia. Qed.

(** Every position of a buffer of [n * m] bytes is one of them. *)
Lemma pos_cover n m (k : nat) :
  0 < m -> Z.of_nat k < n * m -> exists i j, 0 <= i < n /\ 0 <= j < m /\ k = Z.to_nat (i * m + j).
Proof.
  intros. exists (Z.of_nat k / m), (Z.of_nat k mod m).
  pose proof (Z.mod_pos_bound (Z.of_nat k) m). pose proof (Z.div_mod (Z.of_nat k) m).
  split_and!; try lia.
  - apply Z.div_pos; lia.
  - apply Z.div_lt_upper_bound; lia.
Qed.

(** Two buffers that agree at every row-major position are equal. *)
Lemma row_major_ext n m (d r : bytes) :
  0 < m -> len d = n * m -> len r = n * m ->
  (forall i j, 0 <= i < n -> 0 <= j < m -> r !! Z.to_nat (i * m + j) = d !! Z.to_nat (i * m + j)) ->
  r = d.
Proof.
  intros Hm Hd Hr H. apply list_eq. intros k.
  destruct (decide (Z.of_nat k < n * m)) as [Hk|Hk].
  - destruct (pos_cover n m k Hm Hk) as (i & j & ? & ? & ->). auto.
  - rewrite !lookup_ge_None_2; [done|unfold len in *; lia..].
Qed.

Lemma mod_divide_eq a b : 0 < b -> a mod b = 0 -> a / b * b = a.
Proof. intros ? H. pose proof (Z.div_mod a b). lia. Qed.

Section shuffle.
Context (es : Z) (data : bytes).
Hypothesis Hes : 0 < es.
Hypothesis Hlen : 0 < len data < 2 ^ 32.
Hypothesis Hdiv : len data mod es = 0.
Let ne := len data / es.

Local Lemma ne_pos : 0 < ne /\ ne * es = len data.
  Proof using Hes Hlen Hdiv. pose proof (mod_divide_eq _ _ Hes Hdiv). subst ne. nia. Qed.

Lemma shuffleApply_ok :
    exists out, shuffleApply es data = Ret out /\ len out = len data /\
      forall b e, 0 <= b < es -> 0 <= e < ne ->
        out !! Z.to_nat (b * ne + e) = data !! Z.to_nat (e * es + b).
  Proof using Hes Hlen Hdiv.
    destruct ne_pos as [Hne Hmul]. unfold shuffleApply, shuffleWith.
    rewrite u32_id by (unfold is_u; lia).
    destruct (Z.eqb_spec (len data) 0) as [?E0|_]; [lia|].
    destruct (Z.eqb_spec es 0) as [?E0|_]; [lia|].
    destruct (Z.eqb_spec (len data mod es) 0) as [_|?E0]; [|lia]. fold ne. unfold transposeLoop.
    destruct (copy2_ok (fun b e => u32 (elemPos es ne b e)) (fun b e => u32 (planePos es ne b e))
      es ne (len data) data) with (out := replicate (Z.to_nat (len data)) x00)
      as (out & E & Hl & Hc); unfold elemPos, planePos; try lia.
    - intros b e ? ?. pose proof (pos_bound ne es e b). rewrite u32_id by (unfold is_u; lia). lia.
    - intros b e ? ?. pose proof (pos_bound es ne b e). rewrite u32_id by (unfold is_u; lia). lia.
    - intros b e b' e' ? ? ? ?. pose proof (pos_bound es ne b e). pose proof (pos_bound es ne b' e').
      rewrite !u32_id by (unfold is_u; lia). apply pos_inj; lia.
    - len_lia.
    - exists out. split_and!; [done..|]. intros b e ? ?. specialize (Hc b e).
      pose proof (pos_bound ne es e b). pose proof (pos_bound es ne b e).
      rewrite !u32_id in Hc by (unfold is_u, elemPos, planePos; lia). auto.
  Qed.

Lemma shuffleRemove_ok :
    exists out, shuffleRemove es data = Ret out /\ len out = len data /\
      forall b e, 0 <= b < es -> 0 <= e < ne ->
        out !! Z.to_nat (e * es + b) = data !! Z.to_nat (b * ne + e).
  Proof using Hes Hlen Hdiv.
    destruct ne_pos as [Hne Hmul]. unfold shuffleRemove, shuffleWith.
    rewrite u32_id by (unfold is_u; lia).
    destruct (Z.eqb_spec (len data) 0) as [?E0|_]; [lia|].
    destruct (Z.eqb_spec es 0) as [?E0|_]; [lia|].
    destruct (Z.eqb_spec (len data mod es) 0) as [_|?E0]; [|lia]. fold ne. unfold transposeLoop.
    destruct (copy2_ok (fun b e => u32 (planePos es ne b e)) (fun b e => u32 (elemPos es ne b e))
      es ne (len data) data) with (out := replicate (Z.to_nat (len data)) x00)
      as (out & E & Hl & Hc); unfold elemPos, planePos; try lia.
    - intros b e ? ?. pose proof (pos_bound es ne b e). rewrite u32_id by (unfold is_u; lia). lia.
    - intros b e ? ?. pose proof (pos_bound ne es e b). rewrite u32_id by (unfold is_u; lia). lia.
    - intros b e b' e' ? ? ? ?. pose proof (pos_bound ne es e b). pose proof (pos_bound ne es e' b').
      rewrite !u32_id by (unfold is_u; lia). intros [? ?]%pos_inj; lia.
    - len_lia.
    - exists out. split_and!; [done..|]. intros b e ? ?. specialize (Hc b e).
      pose proof (pos_bound ne es e b). pose proof (pos_bound es ne b e).
      rewrite !u32_id in Hc by (unfold is_u, elemPos, planePos; lia). auto.
  Qed.

  (** The reader's function computes the same bytes as [shuffleRemove]. *)
Lemma applyShuffle_ok cd :
    exists out, applyShuffle data (es :: cd) = Ret out /\ len out = len data /\
      forall b e, 0 <= b < es -> 0 <= e < ne ->
        out !! Z.to_nat (e * es + b) = data !! Z.to_nat (b * ne + e).
  Proof using Hes Hlen Hdiv.
    destruct ne_pos as [Hne Hmul]. unfold applyShuffle.
    destruct (Z.leb_spec es 0); [lia|]. rewrite Z.gtb_ltb.
    destruct (Z.ltb_spec (len data) es); [nia|]. cbn [negb orb].
    destruct (Z.eqb_spec (len data mod es) 0) as [_|?E0]; [|lia]. fold ne.
    destruct (copy2_ok (fun e b => b * ne + e) (fun e b => e * es + b)
      ne es (len data) data) with (out := replicate (length data) x00)
      as (out & E & Hl & Hc); try lia.
    - intros e b ? ?. pose proof (pos_bound es ne b e). lia.
    - intros e b ? ?. pose proof (pos_bound ne es e b). lia.
    - intros e b e' b' ? ? ? ?. apply pos_inj; lia.
    - rewrite len_replicate. done.
    - exists out. split_and!; auto.
  Qed.
End shuffle.

(** The inverse laws share their last step. *)
Lemma unshuffle_id es (d s r : bytes) :
  0 < es -> 0 < len d -> len d mod es = 0 -> len s = len d -> len r = len s ->
  (forall b e, 0 <= b < es -> 0 <= e < len d / es ->
     s !! Z.to_nat (b * (len d / es) + e) = d !! Z.to_nat (e * es + b)) ->
  (forall b e, 0 <= b < es -> 0 <= e < len s / es ->
     r !! Z.to_nat (e * es + b) = s !! Z.to_nat (b * (len s / es) + e)) ->
  r = d.
Proof.
  intros Hes Hd Hdiv Hs Hr H1 H2. pose proof (mod_divide_eq _ _ Hes Hdiv).
  apply (row_major_ext (len d / es) es); [lia..|]. intros e b ??.
  rewrite Hs in H2. rewrite H2, H1 by done. done.
Qed.

(** ** Fletcher-32 sums *)

(** The 16-bit words of the data. *)
Fixpoint words (data : bytes) : list Z :=
  match data with
  | b0 :: b1 :: rest => b2z b0 + 256 * b2z b1 :: words rest
  | [b0] => [b2z b0]
  | [] => []
  end.

Lemma word_lor b0 b1 : Z.lor (b2z b0) (Z.shiftl (b2z b1) 8) = b2z b0 + 256 * b2z b1.
Proof.
  pose proof (b2z_range b0). rewrite lor_add_shiftl by lia. lia.
Qed.

Fixpoint zsum (l : list Z) : Z := match l with [] => 0 | x :: r => x + zsum r end.

(** [sum1] is the sum of the words modulo 65535, and both sums stay below it. *)
Lemma fletcherLoop_sum1 data s1 s2 :
  0 <= s1 < 65535 -> 0 <= s2 < 65535 ->
  (fletcherLoop data s1 s2).1 = (s1 + zsum (words data)) mod 65535 /\
  0 <= (fletcherLoop data s1 s2).1 < 65535 /\ 0 <= (fletcherLoop data s1 s2).2 < 65535.
Proof.
  remember (length data) as k eqn:Hk. assert (length data <= k)%nat as Hle by lia. clear Hk.
  revert data s1 s2 Hle. induction k as [|k IH]; intros [|b0 [|b1 rest]] s1 s2 Hle H1 H2;
    cbn in Hle; try lia; cbn [fletcherLoop words zsum].
  1,2: cbn [fst snd]; rewrite Z.add_0_r, Z.mod_small by lia; lia.
  - pose proof (b2z_range b0). cbn [fst snd]. rewrite Z.add_0_r.
    rewrite (u32_id (s1 + b2z b0)) by (unfold is_u; lia).
    pose proof (Z.mod_pos_bound (s1 + b2z b0) 65535 ltac:(lia)).
    rewrite u32_id by (unfold is_u; lia). split; [done|]. split; apply Z.mod_pos_bound; lia.
  - pose proof (b2z_range b0). pose proof (b2z_range b1). rewrite word_lor.
    rewrite (u32_id (s1 + _)) by (unfold is_u; lia).
    pose proof (Z.mod_pos_bound (s1 + (b2z b0 + 256 * b2z b1)) 65535 ltac:(lia)).
    destruct (IH rest ((s1 + (b2z b0 + 256 * b2z b1)) mod 65535)
      (u32 (s2 + (s1 + (b2z b0 + 256 * b2z b1)) mod 65535) mod 65535)) as (-> & ? & ?);
      [lia|lia|apply Z.mod_pos_bound; lia|].
    split; [|done]. rewrite Zplus_mod_idemp_l. f_equal. lia.
Qed.

Lemma zsum_insert l (i : nat) x y :
  l !! i = Some x -> zsum (<[i := y]> l) = zsum l - x + y.
Proof.
  revert i. induction l as [|z l IH]; intros [|i] H; try done.
  - cbn in *. injection H as ->. lia.
  - change (z + zsum (<[i := y]> l) = z + zsum l - x + y). rewrite (IH i H). lia.
Qed.

(** Changing byte [i] changes the word that holds it. *)
Lemma words_insert data (i : nat) b b' :
  data !! i = Some b ->
  exists w w' j, words data !! j = Some w /\ words (<[i := b']> data) = <[j := w']> (words data) /\
    (w' - w = b2z b' - b2z b \/ w' - w = 256 * (b2z b' - b2z b)).
Proof.
  remember (length data) as k eqn:Hk. assert (length data <= k)%nat as Hle by lia. clear Hk.
  revert data i Hle. induction k as [|k IH]; intros [|b0 [|b1 rest]] i Hle Hi; cbn in Hle; try lia; try done.
  - destruct i; [|done]. injection Hi as ->. exists (b2z b), (b2z b'), 0%nat. split_and!; auto.
  - destruct i as [|[|i]]; cbn in Hi.
    + injection Hi as ->. eexists _, _, 0%nat. split_and!; [done..|]. left. lia.
    + injection Hi as ->. eexists _, _, 0%nat. split_and!; [done..|]. right. lia.
    + destruct (IH rest i) as (w & w' & j & H1 & H2 & H3); [lia|done|].
      exists w, w', (S j). split_and!; [done| |done].
      change (words (b0 :: b1 :: <[i := b']> rest) = <[S j := w']> (words (b0 :: b1 :: rest))).
      cbn [words]. by rewrite H2.
Qed.

Lemma byte_diff b b' : b <> b' -> b2z b <> b2z b'.
Proof. intros Hne E. by apply b2z_inj in E. Qed.

(** Two sums that differ by a byte's worth differ modulo 65535. *)
Lemma mod_65535_differ x y b b' :
  b <> b' -> (y - x = b2z b' - b2z b \/ y - x = 256 * (b2z b' - b2z b)) -> x mod 65535 <> y mod 65535.
Proof.
  intros Hne%byte_diff Hd E. pose proof (b2z_range b). pose proof (b2z_range b').
  assert ((y - x) mod 65535 = 0) as Hz.
  { rewrite Zminus_mod, E, Z.sub_diag. done. }
  apply Z.mod_divide in Hz as [q Hq]; [|lia]. lia.
Qed.

Lemma calculateFletcher32_sum1 data :
  calculateFletcher32 data mod 2 ^ 16 = zsum (words data) mod 65535 /\
  is_u 32 (calculateFletcher32 data).
Proof.
  unfold calculateFletcher32. pose proof (fletcherLoop_sum1 data 0 0 ltac:(lia) ltac:(lia)) as H.
  destruct (fletcherLoop data 0 0) as [s1 s2]. cbn [fst snd] in H. destruct H as (Hs & H1 & H2).
  rewrite u32_id by (unfold is_u; rewrite Z.shiftl_mul_pow2 by lia; lia).
  rewrite lor_shiftl_add by lia. unfold is_u. split; [|lia].
  rewrite Z.add_comm, Z.mod_add, Z.mod_small by lia. by rewrite Hs.
Qed.

(** [fletcherApply] appends the checksum. *)
Lemma fletcherApply_eq data : fletcherApply data = Ret (data ++ le_put 4 (calculateFletcher32 data)).
Proof.
  unfold fletcherApply. rewrite put_bytes_ret by len_lia. cbn [obind].
  rewrite replicate_add.
  rewrite blit_start by len_lia.
  rewrite put_le_ret by len_lia. f_equal.
  apply blit_end; len_lia.
Qed.

(** Reading a data part and its 4-byte tail. *)
Lemma fletcherRemove_app data tail :
  len tail = 4 ->
  fletcherRemove (data ++ tail) =
    if calculateFletcher32 data =? le_get tail then Ret data else Err "fletcher32 checksum mismatch".
Proof.
  intros Ht. unfold fletcherRemove. rewrite len_app, Ht.
  pose proof (len_nonneg data). destruct (Z.ltb_spec (len data + 4) 4); [lia|]. cbn [negb].
  rewrite slice_ret by len_lia. cbn [obind]. rewrite get_le_ret by len_lia. cbn [obind].
  replace (len data + 4 - 4 - 0) with (len data) by lia.
  assert (sub (data ++ tail) 0 (len data) = data) as ->.
  { by apply (sub_app [] data tail). }
  assert (sub (data ++ tail) (len data + 4 - 4) (Z.of_nat 4) = tail) as ->.
  { rewrite <- (app_nil_r tail) at 1. apply sub_app; lia. }
  done.
Qed.

(** A corrupted byte of a two-part buffer is in one part. *)
Lemma insert_app_cases {A} (l k : list A) (i : nat) x :
  (i < length l + length k)%nat ->
  (<[i := x]> (l ++ k) = <[i := x]> l ++ k /\ (i < length l)%nat) \/
  (exists j, i = (length l + j)%nat /\ (j < length k)%nat /\ <[i := x]> (l ++ k) = l ++ <[j := x]> k).
Proof.
  intros Hi. destruct (decide (i < length l)%nat) as [Hlt|Hge].
  - left. split; [by apply insert_app_l|done].
  - right. exists (i - length l)%nat. split_and!; [lia|lia|].
    by rewrite insert_app_r_alt by lia.
Qed.

Lemma applyFletcher32_app data tail : len tail = 4 -> applyFletcher32 (data ++ tail) = Ret data.
Proof.
  intros Ht. unfold applyFletcher32. rewrite len_app, Ht. pose proof (len_nonneg data).
  zcase (Z.ltb_spec (len data + 4) 4). cbn [negb].
  rewrite slice_ret by len_lia. f_equal. apply (sub_app [] data tail); [done|lia].
Qed.

(** ** Properties *)

(** Shuffle round trip: for every element size that divides the data, what
    [ShuffleFilter.Apply] produces is undone both by [ShuffleFilter.Remove]
    and by the reader's [applyShuffle]. *)
Theorem shuffle_roundtrip es data :
  0 < es -> 0 < len data < 2 ^ 32 -> len data mod es = 0 ->
  exists s, shuffleApply es data = Ret s /\ len s = len data /\
    shuffleRemove es s = Ret data /\ applyShuffle s [es] = Ret data.
Proof.
  intros Hes Hl Hd. destruct (shuffleApply_ok es data Hes Hl Hd) as (s & Es & Ls & Hs).
  exists s. assert (len s mod es = 0) as Hds by (by rewrite Ls).
  split_and!; [done..| |].
  - destruct (shuffleRemove_ok es s Hes ltac:(lia) Hds) as (r & -> & Lr & Hr).
    f_equal. eapply unshuffle_id; eauto; lia.
  - destruct (applyShuffle_ok es s Hes ltac:(lia) Hds []) as (r & -> & Lr & Hr).
    f_equal. eapply unshuffle_id; eauto; lia.
Qed.

Example shuffle_roundtrip_witness :
  exists s, shuffleApply 2 [x01; x02; x03; x04] = Ret s /\ len s = 4 /\
    shuffleRemove 2 s = Ret [x01; x02; x03; x04] /\ applyShuffle s [2] = Ret [x01; x02; x03; x04].
Proof. apply (shuffle_roundtrip 2 [x01; x02; x03; x04]); [lia|split; reflexivity|reflexivity]. Defined.

(** Fletcher-32 integrity: [Remove] returns the data that [Apply]
    protected, and reports an error when any single byte of the stored form,
    data or checksum, has another value. *)
Theorem fletcher_detects_corruption data :
  exists s, fletcherApply data = Ret s /\ fletcherRemove s = Ret data /\
    forall (i : nat) b b', s !! i = Some b -> b <> b' ->
      fletcherRemove (<[i := b']> s) = Err "fletcher32 checksum mismatch".
Proof.
  exists (data ++ le_put 4 (calculateFletcher32 data)). split; [apply fletcherApply_eq|].
  destruct (calculateFletcher32_sum1 data) as [Hsum Hu]. split.
  { rewrite fletcherRemove_app by len_lia. rewrite le_get_put_small by done. by rewrite Z.eqb_refl. }
  intros i b b' Hi Hne. pose proof (lookup_lt_Some _ _ _ Hi) as Hlt. rewrite length_app in Hlt.
  destruct (insert_app_cases data (le_put 4 (calculateFletcher32 data)) i b' Hlt)
    as [[-> Hl]|(j & -> & Hj & ->)]; rewrite fletcherRemove_app by len_lia.
  - rewrite lookup_app_l in Hi by done. rewrite le_get_put_small by done.
    destruct (Z.eqb_spec (calculateFletcher32 (<[i := b']> data)) (calculateFletcher32 data)) as [E|]; [|done].
    exfalso. destruct (calculateFletcher32_sum1 (<[i := b']> data)) as [Hsum' _].
    rewrite E, Hsum in Hsum'. destruct (words_insert data i b b' Hi) as (w & w' & k & Hw & Hins & Hd).
    rewrite Hins, (zsum_insert _ _ _ _ Hw) in Hsum'. revert Hsum'.
    apply (mod_65535_differ _ _ b b' Hne). lia.
  - rewrite lookup_app_r, Nat.add_comm, Nat.add_sub in Hi by lia.
    set (tail := le_put 4 (calculateFletcher32 data)) in *.
    destruct (Z.eqb_spec (calculateFletcher32 data) (le_get (<[j := b']> tail))) as [E|]; [|done].
    exfalso. assert (<[j := b']> tail = tail) as Et.
    { rewrite <- (le_put_get (<[j := b']> tail)), <- E, length_insert. subst tail. by rewrite length_le_put. }
    rewrite <- Et, list_lookup_insert_eq in Hi by done. by injection Hi as ->.
Qed.

(** The reader's [applyFletcher32] does not verify: any trailer of four
    bytes is stripped, right or wrong. *)
Theorem applyFletcher32_unverified data tail :
  len tail = 4 -> applyFletcher32 (data ++ tail) = Ret data.
Proof. apply applyFletcher32_app. Qed.

Example applyFletcher32_unverified_witness :
  fletcherRemove ([x01] ++ [x00; x00; x00; x00]) = Err "fletcher32 checksum mismatch" /\
  applyFletcher32 ([x01] ++ [x00; x00; x00; x00]) = Ret [x01].
Proof. split; [vm_compute; reflexivity|]. apply applyFletcher32_unverified. reflexivity. Defined.
