(* ===== verification/LZF.v ===== *)
(** * LZF compression: internal/writer/filter_lzf.go

    The compressor with its hash table, the decompressor, and the read side's
    copy of the decompressor in internal/core/filterpipeline.go.  Loops carry
    fuel; running out of it is [Panic], so the theorems that a call returns
    [Ret] also show that the fuel is enough. *)

From S2P Require Import Prelude.

(** ** Definitions *)

Definition hashLZF (b0 b1 b2 : byte) : Z :=
  let v := Z.lor (Z.lor (Z.shiftl (b2z b0) 16) (Z.shiftl (b2z b1) 8)) (b2z b2) in
  let v := Z.lxor v (Z.shiftr v 16) in
  let v := u32 (v * 0x45d9f3b) in
  let v := Z.lxor v (Z.shiftr v 16) in
  Z.land v 0x3fff.

Fixpoint appendLiteralLoop (fuel : nat) (output literal : bytes) : bytes :=
  match fuel with
  | O => output
  | S fuel =>
      if len literal >? 0 then
        let runLen := if len literal >? 32 then 32 else len literal in
        let ctrl := z2b (runLen - 1) in
        appendLiteralLoop fuel (output ++ [ctrl] ++ take (Z.to_nat runLen) literal)
          (drop (Z.to_nat runLen) literal)
      else output
  end.

Definition appendLiteral (output literal : bytes) : bytes :=
  appendLiteralLoop (length literal) output literal.

Definition appendBackref (output : bytes) (offset length : Z) : bytes :=
  let offset := offset - 1 in
  if length <=? 8 then
    let runBits := Z.shiftl (length - 2) 5 in
    let ctrl := z2b (Z.lor runBits (Z.shiftr offset 8)) in
    output ++ [ctrl; z2b (Z.land offset 0xFF)]
  else
    let ctrl := z2b (Z.lor 0xE0 (Z.shiftr offset 8)) in
    output ++ [ctrl; z2b (Z.land offset 0xFF); z2b (length - 9)].

(** [input[i] == input[j]]. *)
Definition sameByte (input : bytes) (i j : Z) : outcome bool :=
  let! x := idx input i in
  let! y := idx input j in
  Ret (byte_eqb x y).

(** Short-circuit [&&] with a right operand that may panic. *)
Definition andThen (c : bool) (k : outcome bool) : outcome bool := if c then k else Ret false.

(** The match test at [inPos] against position [ref]. *)
Definition isMatch (input : bytes) (ref inPos : Z) : outcome bool :=
  let offset := inPos - ref in
  andThen ((ref >? 0) && (offset <=? 8192) && (offset >? 0))
    (let! e0 := sameByte input ref inPos in
     andThen e0
       (let! e1 := sameByte input (ref + 1) (inPos + 1) in
        andThen e1 (sameByte input (ref + 2) (inPos + 2)))).

Fixpoint extendMatch (fuel : nat) (input : bytes) (ref inPos maxLen matchLen : Z) : outcome Z :=
  match fuel with
  | O => Panic
  | S fuel =>
      let! more := andThen (matchLen <? maxLen) (sameByte input (ref + matchLen) (inPos + matchLen)) in
      if more then extendMatch fuel input ref inPos maxLen (matchLen + 1) else Ret matchLen
  end.

Definition hashAt (input : bytes) (p : Z) : outcome Z :=
  let! b0 := idx input p in
  let! b1 := idx input (p + 1) in
  let! b2 := idx input (p + 2) in
  Ret (hashLZF b0 b1 b2).

(** The hash table [htab]: 2^14 entries, all zero at first. *)
Abbreviation htable := (gmap Z Z).
Definition hget (htab : htable) (h : Z) : Z := default 0 (htab !! h).

(** Entering the positions inside a match into the table: [i] from 1 to
    [matchLen - 3], with [inPos] the position after the match. *)
Definition updateHash (input : bytes) (inPos matchLen : Z) (htab : htable) : outcome htable :=
  for_loop (Z.to_nat (matchLen - 2 - 1)) 1 (fun i htab =>
    let pos := inPos - matchLen + i in
    if pos + 2 <? len input then
      let! h := hashAt input pos in Ret (<[h := u32 pos]> htab)
    else Ret htab) htab.

(** The main loop; the result is the output so far and the start of the last
    literal run. *)
Fixpoint compressLoop (fuel : nat) (input : bytes) (inPos litPos : Z) (htab : htable)
    (output : bytes) : outcome (bytes * Z) :=
  match fuel with
  | O => Panic
  | S fuel =>
      let inLen := len input in
      if negb (inPos <? inLen) then Ret (output, litPos)
      else if inPos + 3 >? inLen then Ret (output, litPos)
      else
        let! hash := hashAt input inPos in
        let ref := hget htab hash in
        let htab := <[hash := u32 inPos]> htab in
        let offset := inPos - ref in
        let! m := isMatch input ref inPos in
        if m then
          let! output :=
            (if litPos <? inPos
             then let! lit := slice input litPos inPos in Ret (appendLiteral output lit)
             else Ret output) in
          let maxLen := if inLen - inPos >? 264 then 264 else inLen - inPos in
          let! matchLen := extendMatch (Z.to_nat maxLen + 1) input ref inPos maxLen 3 in
          let output := appendBackref output offset matchLen in
          let inPos := inPos + matchLen in
          let! htab := updateHash input inPos matchLen htab in
          compressLoop fuel input inPos inPos htab output
        else compressLoop fuel input (inPos + 1) litPos htab output
  end.

Definition lzfCompress (input : bytes) : outcome bytes :=
  if len input =? 0 then Ret input
  else
    let! (output, litPos) := compressLoop (S (length input)) input 0 0 ∅ [] in
    if litPos <? len input
    then let! lit := slice input litPos (len input) in Ret (appendLiteral output lit)
    else Ret output.

(** The copy of [runLen] bytes from inside the output. *)
Definition copyRun (runLen srcPos : Z) (output : bytes) : outcome bytes :=
  for_loop (Z.to_nat runLen) 0 (fun i output =>
    let! b := idx output (srcPos + i) in Ret (output ++ [b])) output.

(** One segment: the input position and output after it. *)
Definition decompressStep (input : bytes) (inPos : Z) (output : bytes) : outcome (Z * bytes) :=
  let inLen := len input in
  let! c := idx input inPos in
  let ctrl := b2z c in
  let inPos := inPos + 1 in
  if Z.land ctrl 0xE0 =? 0 then
    let runLen := ctrl + 1 in
    guard negb (inPos + runLen >? inLen) else "lzf: truncated literal run";;
    let! run := slice input inPos (inPos + runLen) in
    Ret (inPos + runLen, output ++ run)
  else
    guard negb (inPos >=? inLen) else "lzf: truncated backreference";;
    let offsetHigh := Z.land ctrl 0x1F in
    let! lo := idx input inPos in
    let inPos := inPos + 1 in
    let offset := Z.lor (Z.shiftl offsetHigh 8) (b2z lo) + 1 in
    let! (runLen, inPos) :=
      (if Z.land ctrl 0xE0 =? 0xE0 then
         guard negb (inPos >=? inLen) else "lzf: truncated long backreference";;
         let! r := idx input inPos in Ret (b2z r + 9, inPos + 1)
       else Ret (Z.land (Z.shiftr ctrl 5) 0x07 + 2, inPos)) in
    guard negb (offset >? len output) else "lzf: invalid offset";;
    let! output := copyRun runLen (len output - offset) output in
    Ret (inPos, output).

Fixpoint decompressLoop (fuel : nat) (input : bytes) (inPos : Z) (output : bytes) : outcome bytes :=
  match fuel with
  | O => Panic
  | S fuel =>
      if inPos <? len input then
        let! (inPos, output) := decompressStep input inPos output in
        decompressLoop fuel input inPos output
      else Ret output
  end.

Definition lzfDecompress (input : bytes) : outcome bytes :=
  if len input =? 0 then Ret input
  else decompressLoop (S (length input)) input 0 [].

(** [LZFFilter.Apply], [LZFFilter.Remove]. *)
Definition lzfApply (data : bytes) : outcome bytes :=
  if len data =? 0 then Ret data else lzfCompress data.
Definition lzfRemove (data : bytes) : outcome bytes :=
  if len data =? 0 then Ret data else lzfDecompress data.

(** The reader's [applyLZF], over its own copy of the decompressor. *)
Definition core_lzfDecompress (input : bytes) : outcome bytes := lzfDecompress input.
Definition applyLZF (data : bytes) : outcome bytes :=
  if len data =? 0 then Ret data else core_lzfDecompress data.

(** ** The format

    A compressed stream is a sequence of tokens; [enc] writes one and [expand]
    says what it adds to the output.  The compressor is proved to write tokens
    that expand to its input, the decompressor to expand tokens. *)

Inductive token :=
| Lit (run : bytes)
| Backref (offset length : Z).

Definition enc (t : token) : bytes :=
  match t with
  | Lit run => z2b (len run - 1) :: run
  | Backref offset length => appendBackref [] offset length
  end.

Definition token_ok (t : token) (output : bytes) : Prop :=
  match t with
  | Lit run => 1 <= len run <= 32
  | Backref offset length =>
      1 <= offset <= 8192 /\ offset <= len output /\ 3 <= length <= 264
  end.

(** [expand t out out']: decoding [t] takes the output from [out] to [out']. *)
Definition expand (t : token) (out out' : bytes) : Prop :=
  token_ok t out /\
  match t with
  | Lit run => out' = out ++ run
  | Backref offset length => copyRun length (len out - offset) out = Ret out'
  end.

Inductive expands : list token -> bytes -> bytes -> Prop :=
| expands_nil out : expands [] out out
| expands_cons t ts out out' out'' :
    expand t out out' -> expands ts out' out'' -> expands (t :: ts) out out''.

(** ** Control bytes *)

Lemma land_E0 x : 0 <= x < 256 -> Z.land x 0xE0 = 32 * (x / 32).
Proof.
  intros Hx. apply Z.eqb_eq.
  apply (byte_enum (fun x => Z.land x 0xE0 =? 32 * (x / 32))); [vm_compute; reflexivity|done].
Qed.

Lemma land_1F x : Z.land x 0x1F = x mod 32.
Proof. by apply (Z.land_ones x 5). Qed.

Lemma run_bits x : 0 <= x < 256 -> Z.land (Z.shiftr x 5) 0x07 = x / 32.
Proof.
  intros Hx. apply Z.eqb_eq.
  apply (byte_enum (fun x => Z.land (Z.shiftr x 5) 0x07 =? x / 32)); [vm_compute; reflexivity|done].
Qed.

Lemma appendBackref_app out offset length :
  appendBackref out offset length = out ++ appendBackref [] offset length.
Proof. unfold appendBackref. by case_match. Qed.

(** The bytes of a back reference, with plain arithmetic. *)
Lemma enc_backref offset length :
  1 <= offset <= 8192 -> 3 <= length <= 264 ->
  let o := offset - 1 in
  enc (Backref offset length) =
    if length <=? 8 then [z2b ((length - 2) * 32 + o / 256); z2b (o mod 256)]
    else [z2b (7 * 32 + o / 256); z2b (o mod 256); z2b (length - 9)].
Proof.
  intros Ho Hl o. cbn [enc]. unfold appendBackref. fold o.
  assert (0 <= o / 256 < 32) by (split; [apply Z.div_pos; lia|apply Z.div_lt_upper_bound; lia]).
  rewrite Z.shiftr_div_pow2 by lia. change (2 ^ 8) with 256.
  change 0xFF with (Z.ones 8). rewrite Z.land_ones by lia. change (2 ^ 8) with 256.
  change 0xE0 with (Z.shiftl 7 5). rewrite !lor_shiftl_add by lia. change (2 ^ 5) with 32.
  by case_match.
Qed.

(** ** The decompressor expands tokens *)

Lemma decode_lit pre run post out :
  1 <= len run <= 32 ->
  decompressStep (pre ++ enc (Lit run) ++ post) (len pre) out =
    Ret (len pre + len (enc (Lit run)), out ++ run).
Proof.
  intros Hr. unfold decompressStep. cbn [enc].
  rewrite idx_app_0. cbn [app]. rewrite idx_head. cbn [obind].
  rewrite b2z_z2b_small by lia. rewrite land_E0 by lia. rewrite (Z.div_small _ 32) by lia.
  cbn [Z.eqb Z.mul]. change (0 =? 0) with true. cbn beta iota.
  replace (len pre + 1 + (len run - 1 + 1)) with (len pre + 1 + len run) by lia.
  rewrite Z.gtb_ltb. destruct (Z.ltb_spec (len (pre ++ z2b (len run - 1) :: run ++ post)) (len pre + 1 + len run)).
  { len_lia. }
  cbn [negb]. rewrite slice_ret by len_lia. cbn [obind].
  replace (sub _ _ _) with run.
  - f_equal. f_equal. len_lia.
  - symmetry. rewrite (cons_middle (z2b _) pre), app_assoc. apply sub_app; len_lia.
Qed.

Lemma ctrl_fields k h : 0 <= h < 32 -> (k * 32 + h) / 32 = k /\ (k * 32 + h) mod 32 = h.
Proof.
  intros. rewrite Z.add_comm, Z.div_add, Z.mod_add, Z.div_small, Z.mod_small by lia. lia.
Qed.

Lemma offset_fields o : 0 <= o -> Z.lor (Z.shiftl (o / 256) 8) (b2z (z2b (o mod 256))) = o.
Proof.
  intros. pose proof (Z.mod_pos_bound o 256 ltac:(lia)). rewrite b2z_z2b_small by lia.
  rewrite lor_shiftl_add by lia. pose proof (Z.div_mod o 256). lia.
Qed.

Lemma decode_backref pre offset length post out out' :
  1 <= offset <= 8192 -> offset <= len out -> 3 <= length <= 264 ->
  copyRun length (len out - offset) out = Ret out' ->
  decompressStep (pre ++ enc (Backref offset length) ++ post) (len pre) out =
    Ret (len pre + len (enc (Backref offset length)), out').
Proof.
  intros Ho Hout Hl Hc. rewrite enc_backref by done. unfold decompressStep.
  set (o := offset - 1).
  assert (Hh : 0 <= o / 256 < 32) by (split; [apply Z.div_pos; lia|apply Z.div_lt_upper_bound; lia]).
  pose proof (offset_fields o ltac:(lia)) as Hoff.
  destruct (Z.leb_spec length 8) as [Hs|Hs].
  - destruct (ctrl_fields (length - 2) (o / 256) Hh) as [Hd Hm].
    set (c := (length - 2) * 32 + o / 256) in *. assert (Hc0 : 0 <= c < 256) by lia.
    set (input := pre ++ _). assert (Hin : len input = len pre + 2 + len post) by (subst input; len_lia).
    assert (idx input (len pre) = Ret (z2b c)) as -> by (subst input; by rewrite idx_app_0).
    assert (idx input (len pre + 1) = Ret (z2b (o mod 256))) as E1
      by (subst input; by rewrite idx_app_r by lia).
    cbn [obind]. rewrite b2z_z2b_small, land_E0, land_1F, run_bits, Hd, Hm by lia.
    destruct (Z.eqb_spec (32 * (length - 2)) 0) as [?|_]; [lia|].
    pose proof (len_nonneg post). rewrite Z.geb_leb.
    destruct (Z.leb_spec (len input) (len pre + 1)); [lia|]. cbn [negb].
    rewrite E1. cbn [obind]. rewrite Hoff.
    destruct (Z.eqb_spec (32 * (length - 2)) 0xE0) as [?|_]; [lia|]. cbn [obind].
    replace (o + 1) with offset by lia. replace (length - 2 + 2) with length by lia.
    rewrite Z.gtb_ltb. destruct (Z.ltb_spec (len out) offset); [lia|]. cbn [negb].
    rewrite Hc. cbn [obind]. do 2 f_equal. len_lia.
  - destruct (ctrl_fields 7 (o / 256) Hh) as [Hd Hm].
    set (c := 7 * 32 + o / 256) in *. assert (Hc0 : 0 <= c < 256) by lia.
    set (input := pre ++ _). assert (Hin : len input = len pre + 3 + len post) by (subst input; len_lia).
    assert (idx input (len pre) = Ret (z2b c)) as -> by (subst input; by rewrite idx_app_0).
    assert (idx input (len pre + 1) = Ret (z2b (o mod 256))) as E1
      by (subst input; by rewrite idx_app_r by lia).
    assert (idx input (len pre + 1 + 1) = Ret (z2b (length - 9))) as E2
      by (subst input; by rewrite <- Z.add_assoc, idx_app_r by lia).
    cbn [obind]. rewrite b2z_z2b_small, land_E0, land_1F, Hd, Hm by lia.
    change (32 * 7 =? 0) with false. change (32 * 7 =? 0xE0) with true. cbn beta iota.
    pose proof (len_nonneg post). rewrite !Z.geb_leb.
    destruct (Z.leb_spec (len input) (len pre + 1)); [lia|]. cbn [negb].
    rewrite E1. cbn [obind]. rewrite Hoff.
    destruct (Z.leb_spec (len input) (len pre + 1 + 1)); [lia|]. cbn [negb].
    rewrite E2. cbn [obind]. rewrite b2z_z2b_small by lia.
    replace (o + 1) with offset by lia. replace (length - 9 + 9) with length by lia.
    rewrite Z.gtb_ltb. destruct (Z.ltb_spec (len out) offset); [lia|]. cbn [negb].
    rewrite Hc. cbn [obind]. do 2 f_equal. len_lia.
Qed.

Lemma decode_token pre t post out out' :
  expand t out out' ->
  decompressStep (pre ++ enc t ++ post) (len pre) out = Ret (len pre + len (enc t), out').
Proof.
  destruct t; cbn [expand token_ok]; intros [Hok H].
  - subst. by apply decode_lit.
  - destruct Hok as (? & ? & ?). by apply decode_backref.
Qed.

Definition encs (ts : list token) : bytes := concat (map enc ts).

Lemma encs_app ts us : encs (ts ++ us) = encs ts ++ encs us.
Proof. unfold encs. by rewrite map_app, concat_app. Qed.

Lemma enc_nonempty t : 1 <= len (enc t).
Proof. destruct t; cbn; [len_lia|]. unfold appendBackref. case_match; len_lia. Qed.

Lemma decompressLoop_expands ts pre out out' fuel :
  expands ts out out' -> len (encs ts) < Z.of_nat fuel ->
  decompressLoop fuel (pre ++ encs ts) (len pre) out = Ret out'.
Proof.
  intros He. revert pre fuel. induction He as [out|t ts out out' out'' Ht _ IH]; intros pre fuel Hf.
  - destruct fuel; [change (len (encs [])) with 0 in Hf; lia|]. cbn. rewrite app_nil_r.
    destruct (Z.ltb_spec (len pre) (len pre)); [lia|done].
  - pose proof (enc_nonempty t).
    change (encs (t :: ts)) with (enc t ++ encs ts) in *. rewrite len_app in Hf.
    destruct fuel; [len_lia|]. cbn [decompressLoop].
    destruct (Z.ltb_spec (len pre) (len (pre ++ enc t ++ encs ts))); [|len_lia].
    rewrite (decode_token _ _ _ _ _ Ht). cbn [obind].
    rewrite app_assoc, <- len_app. apply IH. lia.
Qed.

(** ** The compressor writes tokens *)

(** [output] is a stream of tokens that expand to [target]. *)
Definition encodes (output target : bytes) : Prop :=
  exists ts, output = encs ts /\ expands ts [] target.

Lemma expands_app ts us out out' out'' :
  expands ts out out' -> expands us out' out'' -> expands (ts ++ us) out out''.
Proof. induction 1; cbn; eauto using expands. Qed.

Lemma encodes_nil : encodes [] [].
Proof. exists []. split; [done|constructor]. Qed.

Lemma encodes_snoc output target t target' :
  encodes output target -> expand t target target' -> encodes (output ++ enc t) target'.
Proof.
  intros (ts & -> & He) Ht. exists (ts ++ [t]). split.
  - rewrite encs_app. unfold encs. cbn. by rewrite app_nil_r.
  - eapply expands_app; [done|]. econstructor; [done|constructor].
Qed.

Lemma appendLiteralLoop_encodes fuel output target literal :
  (length literal <= fuel)%nat -> encodes output target ->
  encodes (appendLiteralLoop fuel output literal) (target ++ literal).
Proof.
  revert output target literal. induction fuel as [|fuel IH]; intros output target literal Hf He.
  - destruct literal; [by rewrite app_nil_r|cbn in Hf; lia].
  - cbn [appendLiteralLoop]. rewrite !Z.gtb_ltb. destruct (Z.ltb_spec 0 (len literal)) as [Hp|Hz].
    + set (runLen := if _ : bool then _ else _).
      assert (Hr : 1 <= runLen <= 32 /\ runLen <= len literal).
      { subst runLen. destruct (Z.ltb_spec 32 (len literal)); lia. }
      assert (Hrun : len (take (Z.to_nat runLen) literal) = runLen) by len_lia.
      replace (target ++ literal) with
        ((target ++ take (Z.to_nat runLen) literal) ++ drop (Z.to_nat runLen) literal)
        by (by rewrite <- app_assoc, take_drop).
      apply IH; [rewrite length_drop; lia|].
      replace ([z2b (runLen - 1)] ++ _) with (enc (Lit (take (Z.to_nat runLen) literal))) by (cbn; by rewrite Hrun).
      eapply encodes_snoc; [done|]. split; [cbn; lia|done].
    + assert (literal = []) as -> by (apply len_0_nil; pose_lens; lia). by rewrite app_nil_r.
Qed.

Lemma appendLiteral_encodes output target literal :
  encodes output target -> encodes (appendLiteral output literal) (target ++ literal).
Proof. by apply appendLiteralLoop_encodes. Qed.

Lemma sameByte_in_range input i j :
  0 <= i < len input -> 0 <= j < len input ->
  exists e, sameByte input i j = Ret e /\ (e = true -> input !! Z.to_nat i = input !! Z.to_nat j).
Proof.
  intros Hi Hj. unfold sameByte.
  destruct (idx_in_range input i Hi) as [x Hx], (idx_in_range input j Hj) as [y Hy].
  rewrite Hx, Hy. cbn [obind]. eexists. split; [done|].
  intros H%bool_decide_eq_true. apply idx_ret in Hx as [_ ->], Hy as [_ ->]. by subst.
Qed.

(** [agree n]: the [n] bytes from [ref] and from [p] on are the same. *)
Definition agree (input : bytes) (ref p n : Z) : Prop :=
  forall j, 0 <= j < n -> input !! Z.to_nat (ref + j) = input !! Z.to_nat (p + j).

Lemma isMatch_spec input ref p :
  0 <= p -> p + 3 <= len input ->
  exists m, isMatch input ref p = Ret m /\
    (m = true -> 0 < ref < p /\ p - ref <= 8192 /\ agree input ref p 3).
Proof.
  intros Hp Hl. unfold isMatch. rewrite !Z.gtb_ltb.
  destruct (Z.ltb_spec 0 ref), (Z.leb_spec (p - ref) 8192), (Z.ltb_spec 0 (p - ref));
    cbn [andb andThen]; try (by exists false).
  destruct (sameByte_in_range input ref p) as (e0 & -> & He0); [lia|lia|]. cbn [obind].
  destruct e0; cbn [andThen]; [|by exists false].
  destruct (sameByte_in_range input (ref + 1) (p + 1)) as (e1 & -> & He1); [lia|lia|]. cbn [obind].
  destruct e1; cbn [andThen]; [|by exists false].
  destruct (sameByte_in_range input (ref + 2) (p + 2)) as (e2 & -> & He2); [lia|lia|].
  exists e2. split; [done|]. intros ->. split_and!; try lia. intros j Hj.
  assert (j = 0 \/ j = 1 \/ j = 2) as [->|[->| ->]] by lia; [rewrite !Z.add_0_r|..]; auto.
Qed.

Lemma extendMatch_spec fuel input ref p maxLen n :
  0 <= ref < p -> p + maxLen <= len input -> 0 <= n <= maxLen -> maxLen - n < Z.of_nat fuel ->
  agree input ref p n ->
  exists n', extendMatch fuel input ref p maxLen n = Ret n' /\ n <= n' <= maxLen /\ agree input ref p n'.
Proof.
  intros Hr Hl. revert n. induction fuel as [|fuel IH]; intros n Hn Hf Ha; [lia|]. cbn [extendMatch].
  destruct (Z.ltb_spec n maxLen); cbn [andThen].
  - destruct (sameByte_in_range input (ref + n) (p + n)) as (e & -> & He); [lia|lia|]. cbn [obind].
    destruct e; [|exists n; split_and!; (done || lia)].
    destruct (IH (n + 1)) as (n' & -> & ? & ?); [lia|lia| |exists n'; split_and!; (done || lia)].
    intros j Hj. destruct (decide (j = n)) as [->|]; [auto|apply Ha; lia].
  - exists n. cbn [obind]. split_and!; (done || lia).
Qed.

Lemma hashAt_in_range input p : 0 <= p -> p + 3 <= len input -> exists h, hashAt input p = Ret h.
Proof.
  intros. unfold hashAt.
  destruct (idx_in_range input p) as [? ->]; [lia|]. destruct (idx_in_range input (p + 1)) as [? ->]; [lia|].
  destruct (idx_in_range input (p + 2)) as [? ->]; [lia|]. cbn. eauto.
Qed.

Lemma updateHash_returns input p n htab :
  0 <= n <= p -> p <= len input -> exists htab', updateHash input p n htab = Ret htab'.
Proof.
  intros Hn Hp. unfold updateHash.
  edestruct (for_loop_inv (fun _ (_ : htable) => True)) as (h & -> & _); [done| |by exists h].
  intros j t Hj _. cbn beta. destruct (Z.ltb_spec (p - n + j + 2) (len input)); [|eauto].
  destruct (hashAt_in_range input (p - n + j)) as (h & ->); [lia|lia|]. cbn. eauto.
Qed.

(** Copying from inside the output reproduces a run that agrees with it, also
    when the run overlaps its source. *)
Lemma copyRun_agree input ref p n :
  0 <= ref < p -> p + n <= len input -> 0 <= n -> agree input ref p n ->
  copyRun n ref (take (Z.to_nat p) input) = Ret (take (Z.to_nat (p + n)) input).
Proof.
  intros Hr Hl Hn Ha. unfold copyRun.
  edestruct (for_loop_inv (fun i out => out = take (Z.to_nat (p + i)) input)) as (out & -> & ->).
  3: by rewrite Z2Nat.id, Z.add_0_l by lia.
  { by rewrite Z.add_0_r. }
  intros j t Hj ->. cbn beta.
  destruct (len_lookup_lt input (p + j)) as [b Hb]; [lia|].
  rewrite (proj2 (idx_ret _ _ b)).
  - cbn [obind]. eexists. split; [done|]. rewrite <- take_S_r by done. f_equal. lia.
  - split; [lia|]. rewrite lookup_take_lt by lia. rewrite Ha by lia. done.
Qed.

Lemma take_slice_app (input : bytes) lit p :
  0 <= lit <= p -> p <= len input ->
  take (Z.to_nat lit) input ++ sub input lit (p - lit) = take (Z.to_nat p) input.
Proof.
  intros. unfold sub. rewrite take_take_drop. f_equal. lia.
Qed.

(** One match: the pending literals and a back reference encode the input up
    to the end of the match. *)
Lemma match_encodes input litPos p ref n output :
  0 <= litPos <= p -> 0 < ref < p -> p - ref <= 8192 -> 3 <= n <= 264 -> p + n <= len input ->
  agree input ref p n -> encodes output (take (Z.to_nat litPos) input) ->
  exists output1,
    (if litPos <? p
     then let! lit := slice input litPos p in Ret (appendLiteral output lit)
     else Ret output) = Ret output1 /\
    encodes (appendBackref output1 (p - ref) n) (take (Z.to_nat (p + n)) input).
Proof.
  intros Hlit Hr Hoff Hn Hl Ha He.
  assert (Hstep : forall output1, encodes output1 (take (Z.to_nat p) input) ->
    encodes (appendBackref output1 (p - ref) n) (take (Z.to_nat (p + n)) input)).
  { intros output1 H1. rewrite appendBackref_app. apply (encodes_snoc _ _ (Backref (p - ref) n) _ H1).
    assert (Hlen : len (take (Z.to_nat p) input) = p) by len_lia.
    split; cbn; rewrite Hlen; [lia|]. replace (p - (p - ref)) with ref by lia.
    apply copyRun_agree; (done || lia). }
  destruct (Z.ltb_spec litPos p).
  - rewrite slice_ret by lia. cbn [obind]. eexists. split; [done|]. apply Hstep.
    rewrite <- (take_slice_app input litPos p) by lia. by apply appendLiteral_encodes.
  - assert (litPos = p) as -> by lia. eauto.
Qed.

Lemma compressLoop_encodes fuel input p litPos htab output :
  0 <= litPos <= p -> p <= len input -> len input - p < Z.of_nat fuel ->
  encodes output (take (Z.to_nat litPos) input) ->
  exists output' litPos', compressLoop fuel input p litPos htab output = Ret (output', litPos') /\
    0 <= litPos' <= len input /\ encodes output' (take (Z.to_nat litPos') input).
Proof.
  revert p litPos htab output. induction fuel as [|fuel IH]; intros p litPos htab output Hlit Hp Hf He; [lia|].
  cbn [compressLoop]. rewrite !Z.gtb_ltb.
  destruct (Z.ltb_spec p (len input)); cbn [negb];
    [|exists output, litPos; split_and!; (done || lia)].
  destruct (Z.ltb_spec (len input) (p + 3));
    [exists output, litPos; split_and!; (done || lia)|].
  destruct (hashAt_in_range input p) as (h & ->); [lia|lia|]. cbn [obind].
  destruct (isMatch_spec input (hget htab h) p) as (m & -> & Hm); [lia|lia|]. cbn [obind].
  destruct m; [|apply IH; (done || lia)].
  destruct Hm as (Hr & Hoff & Ha); [done|]. set (ref := hget htab h) in *.
  set (maxLen := if 264 <? len input - p then 264 else len input - p).
  assert (Hmax : 3 <= maxLen <= 264 /\ p + maxLen <= len input).
  { subst maxLen. destruct (Z.ltb_spec 264 (len input - p)); lia. }
  destruct (extendMatch_spec (Z.to_nat maxLen + 1) input ref p maxLen 3) as (n & En & Hn & Han);
    [lia|lia|lia|lia|done|].
  destruct (match_encodes input litPos p ref n output) as (output1 & -> & H1);
    [lia|lia|lia|lia|lia|done|done|].
  cbn [obind]. rewrite En. cbn [obind].
  destruct (updateHash_returns input (p + n) n (<[h := u32 p]> htab)) as (htab' & ->); [lia|lia|].
  cbn [obind]. apply IH; [lia|lia|lia|done].
Qed.

Lemma lzfCompress_encodes data :
  data <> [] -> exists out, lzfCompress data = Ret out /\ encodes out data.
Proof.
  intros Hne. unfold lzfCompress.
  destruct (Z.eqb_spec (len data) 0) as [E|_]; [by apply len_0_nil in E|].
  destruct (compressLoop_encodes (S (length data)) data 0 0 ∅ []) as (out & lit & -> & Hl & He);
    [lia|len_lia|len_lia|apply encodes_nil|].
  cbn [obind]. destruct (Z.ltb_spec lit (len data)).
  - rewrite slice_ret by lia. cbn [obind]. eexists. split; [done|].
    assert (take (Z.to_nat (len data)) data = data) as Hall by (apply take_ge; unfold len; lia).
    rewrite <- Hall at 3. rewrite <- (take_slice_app data lit (len data)) by lia.
    by apply appendLiteral_encodes.
  - eexists. split; [done|]. rewrite take_ge in He; [done|unfold len in *; lia].
Qed.

Lemma expands_nonempty ts out out' : expands ts out out' -> out <> out' -> encs ts <> [].
Proof.
  intros He Hne. destruct He as [|t ts]; [done|]. intros E%(f_equal len).
  change (encs (t :: ts)) with (enc t ++ encs ts) in E. pose proof (enc_nonempty t). len_lia.
Qed.

(** ** Absence of panics in the decompressor *)

Lemma copyRun_no_panic n s out :
  0 <= s < len out -> exists out', copyRun n s out = Ret out' /\ len out <= len out'.
Proof.
  intros Hs. unfold copyRun.
  edestruct (for_loop_inv (fun i (out' : bytes) => len out' = len out + i)) as (out' & -> & Hl).
  3: { eexists. split; [done|]. lia. }
  { lia. }
  intros j t Hj Ht. cbn beta. destruct (idx_in_range t (s + j)) as [b ->]; [lia|].
  cbn [obind]. eexists. split; [done|]. len_lia.
Qed.

Lemma decompressStep_progress input p out :
  0 <= p < len input ->
  match decompressStep input p out with
  | Ret (p', _) => p < p' <= len input
  | Err _ => True
  | Panic => False
  end.
Proof.
  intros Hp. unfold decompressStep. destruct (idx_in_range input p) as [c ->]; [lia|]. cbn [obind].
  pose proof (b2z_range c). destruct (Z.land (b2z c) 0xE0 =? 0).
  - rewrite Z.gtb_ltb. destruct (Z.ltb_spec (len input) (p + 1 + (b2z c + 1))); [done|]. cbn [negb].
    rewrite slice_ret by lia. cbn [obind]. lia.
  - rewrite !Z.geb_leb. destruct (Z.leb_spec (len input) (p + 1)); [done|]. cbn [negb].
    destruct (idx_in_range input (p + 1)) as [lo ->]; [lia|]. cbn [obind].
    set (offset := Z.lor _ _ + 1). assert (Ho : 1 <= offset).
    { subst offset. enough (0 <= Z.lor (Z.shiftl (Z.land (b2z c) 0x1F) 8) (b2z lo)) by lia.
      apply Z.lor_nonneg. pose proof (b2z_range lo). split; [|lia].
      apply Z.shiftl_nonneg. rewrite land_1F. apply Z.mod_pos_bound. lia. }
    assert (Hfin : forall n p', p < p' <= len input ->
      match (guard negb (offset >? len out) else "lzf: invalid offset";;
             let! output := copyRun n (len out - offset) out in Ret (p', output)) with
      | Ret (p', _) => p < p' <= len input | Err _ => True | Panic => False end).
    { intros n p' Hp'. rewrite Z.gtb_ltb. destruct (Z.ltb_spec (len out) offset); [done|]. cbn [negb].
      destruct (copyRun_no_panic n (len out - offset) out) as (? & -> & _); [lia|]. done. }
    destruct (Z.land (b2z c) 0xE0 =? 0xE0); [|apply Hfin; lia].
    destruct (Z.leb_spec (len input) (p + 1 + 1)); [done|]. cbn [negb].
    destruct (idx_in_range input (p + 1 + 1)) as [r ->]; [lia|]. cbn [obind]. apply Hfin. lia.
Qed.

Lemma decompressLoop_no_panic fuel input p out :
  0 <= p <= len input -> len input - p < Z.of_nat fuel -> no_panic (decompressLoop fuel input p out).
Proof.
  revert p out. induction fuel as [|fuel IH]; intros p out Hp Hf; [lia|]. cbn [decompressLoop].
  destruct (Z.ltb_spec p (len input)); [|auto with go].
  pose proof (decompressStep_progress input p out ltac:(lia)) as Hs.
  destruct (decompressStep input p out) as [[p' out']| |]; cbn [obind]; [|auto with go|done].
  apply IH; lia.
Qed.

Lemma lzf_inverse_both data :
  exists out, lzfApply data = Ret out /\ lzfRemove out = Ret data /\ applyLZF out = Ret data.
Proof.
  unfold lzfApply, applyLZF, core_lzfDecompress, lzfRemove, lzfDecompress.
  destruct (decide (data = [])) as [->|Hne]; [by exists []|].
  destruct (Z.eqb_spec (len data) 0) as [E|_]; [by apply len_0_nil in E|].
  destruct (lzfCompress_encodes data Hne) as (out & -> & ts & -> & He).
  exists (encs ts). split; [done|].
  pose proof (expands_nonempty _ _ _ He (not_eq_sym Hne)) as Hout.
  destruct (Z.eqb_spec (len (encs ts)) 0) as [E|_]; [by apply len_0_nil in E|].
  pose proof (decompressLoop_expands ts [] [] data (S (length (encs ts))) He ltac:(len_lia)) as H.
  done.
Qed.

(** ** Properties *)

(** C25. LZF round trip: for every input, the compressor terminates without a
    panic and both decompressors (the filter's [Remove] and the reader's
    [applyLZF]) give the input back. *)
Theorem lzf_roundtrip data :
  exists out, lzfApply data = Ret out /\ lzfRemove out = Ret data /\ applyLZF out = Ret data.
Proof. apply lzf_inverse_both. Qed.

(** The decompressor is safe on hostile input: on any bytes it terminates
    and returns data or an error, without an out-of-range access. *)
Theorem lzfDecompress_safe input : no_panic (lzfDecompress input).
Proof.
  unfold lzfDecompress. case_match; [auto with go|].
  apply decompressLoop_no_panic; len_lia.
Qed.

(** The compressor finds repetition: sixteen equal bytes take five. *)
Example lzf_example : lzfApply (replicate 16 x41) = Ret [x01; x41; x41; xe0; x00; x05].
Proof. vm_compute. reflexivity. Qed.
