(* ===== verification/Pipeline.v ===== *)
(** * The filter pipeline

    Write side: internal/writer/filter_pipeline.go with the concrete filters
    of filter_*.go.  Read side: internal/core/filterpipeline.go (message
    parser and filter application).  The compressors of Go's standard library
    are the class [Codecs], its documented behaviour the class [CodecLaws]. *)

From S2P Require Import Prelude Filters LZF.

(** ** Standard-library codecs *)

Class Codecs := {
  gzip_compress : Z -> bytes -> bytes;       (* compress/gzip, level, data *)
  gunzip : bytes -> outcome bytes;           (* compress/gzip reader *)
  zlib_inflate : bytes -> outcome bytes;     (* compress/zlib reader *)
  bunzip2 : bytes -> outcome bytes }.        (* compress/bzip2 reader *)

(** RFC 1952 (gzip: magic 1f 8b, the reader inverts the writer) and RFC 1950
    (zlib: method nibble 8 and a header check modulo 31, else an error). *)
Class CodecLaws (C : Codecs) : Prop := {
  gunzip_gzip level data : gunzip (gzip_compress level data) = Ret data;
  gzip_magic level data : exists rest, gzip_compress level data = x1f :: x8b :: rest;
  zlib_header cmf flg rest :
    Z.land (b2z cmf) 15 <> 8 \/ (256 * b2z cmf + b2z flg) mod 31 <> 0 ->
    zlib_inflate (cmf :: flg :: rest) = Err "zlib reader creation failed" }.

(** ** Write side *)

(** The [Filter] interface. *)
Record Filter := mkFilter {
  ID : Z;
  Name : bytes;
  Apply : bytes -> outcome bytes;
  Remove : bytes -> outcome bytes;
  Encode : Z * list Z }.

Definition FilterGZIP : Z := 1.
Definition FilterShuffle : Z := 2.
Definition FilterFletcher32 : Z := 3.
Definition FilterSZIP : Z := 4.
Definition FilterBZIP2 : Z := 307.
Definition FilterLZF : Z := 32000.

Definition str (s : string) : bytes := String.list_byte_of_string s.

Definition NewShuffleFilter (elementSize : Z) : Filter :=
  {| ID := FilterShuffle; Name := str "shuffle";
     Apply := shuffleApply elementSize; Remove := shuffleRemove elementSize;
     Encode := (0, [elementSize]) |}.

Definition NewFletcher32Filter : Filter :=
  {| ID := FilterFletcher32; Name := str "fletcher32";
     Apply := fletcherApply; Remove := fletcherRemove; Encode := (0, []) |}.

Definition NewLZFFilter : Filter :=
  {| ID := FilterLZF; Name := str "lzf";
     Apply := lzfApply; Remove := lzfRemove; Encode := (0, [0; 0; 0]) |}.

Definition NewSZIPFilter (optionMask pixelsPerBlock bitsPerPixel pixelsPerScan : Z) : Filter :=
  {| ID := FilterSZIP; Name := str "szip";
     Apply := fun _ => Err "szip compression not implemented yet";
     Remove := fun _ => Err "szip decompression not implemented yet";
     Encode := (0, [bitsPerPixel; optionMask; pixelsPerBlock; pixelsPerScan]) |}.

Section with_codecs.
Context `{C : Codecs}.

Definition NewGZIPFilter (level : Z) : Filter :=
  let level := if (level <? 1) || (level >? 9) then 6 else level in
  {| ID := FilterGZIP; Name := str "deflate";
     Apply := fun data => Ret (gzip_compress level data); Remove := gunzip;
     Encode := (0, [level]) |}.

Definition NewBZIP2Filter (blockSize : Z) : Filter :=
  let blockSize := if (blockSize <? 1) || (blockSize >? 9) then 9 else blockSize in
  {| ID := FilterBZIP2; Name := str "bzip2";
     Apply := fun _ => Err "bzip2 compression not implemented yet";
     Remove := fun data => if len data =? 0 then Ret data else bunzip2 data;
     Encode := (0, [blockSize]) |}.

(** [FilterPipeline]: the filters in write order. *)
Record FilterPipeline := mkPipeline { filters : list Filter }.

Definition NewFilterPipeline : FilterPipeline := mkPipeline [].
Definition AddFilter (fp : FilterPipeline) (f : Filter) : FilterPipeline :=
  mkPipeline (filters fp ++ [f]).
Definition AddFilterAtStart (fp : FilterPipeline) (f : Filter) : FilterPipeline :=
  mkPipeline ([f] ++ filters fp).
Definition IsEmpty (fp : FilterPipeline) : bool := len (filters fp) =? 0.
Definition Count (fp : FilterPipeline) : Z := len (filters fp).

Fixpoint applyAll (fs : list Filter) (result : bytes) : outcome bytes :=
  match fs with
  | [] => Ret result
  | f :: rest => let! result := Apply f result in applyAll rest result
  end.

Fixpoint removeAll (rfs : list Filter) (result : bytes) : outcome bytes :=
  match rfs with
  | [] => Ret result
  | f :: rest => let! result := Remove f result in removeAll rest result
  end.

Definition pipelineApply (fp : FilterPipeline) (data : bytes) : outcome bytes :=
  applyAll (filters fp) data.
(** The loop runs over the filters from the last to the first. *)
Definition pipelineRemove (fp : FilterPipeline) (data : bytes) : outcome bytes :=
  removeAll (rev (filters fp)) data.

(** Writing the client data values from [offset] on. *)
Fixpoint putValues (buf : bytes) (offset : Z) (cdValues : list Z) : outcome bytes :=
  match cdValues with
  | [] => Ret buf
  | v :: rest => let! buf := put_le 4 buf offset v in putValues buf (offset + 4) rest
  end.

Definition encodeFilter (f : Filter) : outcome bytes :=
  let '(flags, cdValues) := Encode f in
  let name := Name f in
  let nameLen := u16 (len name) in
  let paddedNameLen := if nameLen >? 0 then u16 (u16 (nameLen + 7) / 8 * 8) else 0 in
  let bufSize := 8 + paddedNameLen + len cdValues * 4 in
  let buf := replicate (Z.to_nat bufSize) x00 in
  let! buf := put_le 2 buf 0 (ID f) in
  let! buf := put_le 2 buf 2 nameLen in
  let! buf := put_le 2 buf 4 flags in
  let! buf := put_le 2 buf 6 (u16 (len cdValues)) in
  let offset := 8 in
  let! (buf, offset) :=
    (if nameLen >? 0 then
       let! window := slice buf offset (len buf) in
       let! buf := put_bytes buf offset (take (length window) name) in
       Ret (buf, offset + paddedNameLen)
     else Ret (buf, offset)) in
  putValues buf offset cdValues.

Fixpoint encodeFilters (fs : list Filter) : outcome bytes :=
  match fs with
  | [] => Ret []
  | f :: rest =>
      let! b := encodeFilter f in
      let! r := encodeFilters rest in
      Ret (b ++ r)
  end.

Definition EncodePipelineMessage (fp : FilterPipeline) : outcome bytes :=
  guard negb (IsEmpty fp) else "empty filter pipeline";;
  let header := [z2b 2; z2b (len (filters fp)); x00; x00; x00; x00; x00; x00] in
  let! body := encodeFilters (filters fp) in
  Ret (header ++ body).

(** ** Read side *)

(** [core.Filter]. *)
Record FilterInfo := mkInfo {
  fID : Z;
  fNameLength : Z;
  fFlags : Z;
  fNumClientData : Z;
  fName : bytes;
  fClientData : list Z }.

Record FilterPipelineMessage := mkMessage {
  Version : Z;
  NumFilters : Z;
  Filters : list FilterInfo }.

(** Bytes up to the first zero. *)
Fixpoint untilNull (bs : bytes) : option bytes :=
  match bs with
  | [] => None
  | b :: r => if b2z b =? 0 then Some [] else (b ::.) <$> untilNull r
  end.

(** The name loop: cut at the first zero byte; if that gives the empty string
    (or there is no zero), the whole field. *)
Definition nameOf (nameBytes : bytes) : bytes :=
  match untilNull nameBytes with
  | Some (b :: r) => b :: r
  | _ => nameBytes
  end.

Fixpoint readValues (n : nat) (data : bytes) (offset : Z) : outcome (list Z) :=
  match n with
  | O => Ret []
  | S m =>
      let! v := get_le 4 data offset in
      let! r := readValues m data (offset + 4) in
      Ret (v :: r)
  end.

(** The name field of an entry (version 1 only), padded to eight bytes, and
    the offset after it; [padded] is a [uint16]. *)
Definition parseName (version : Z) (data : bytes) (offset nameLength : Z) : outcome (bytes * Z) :=
  if (version =? 1) && (nameLength >? 0) then
    let padded := if negb (nameLength mod 8 =? 0)
                  then u16 (nameLength + (8 - nameLength mod 8)) else nameLength in
    guard negb (offset + padded >? len data) else "filter name truncated";;
    let! nameBytes := slice data offset (offset + nameLength) in
    Ret (nameOf nameBytes, offset + padded)
  else Ret ([], offset).

(** The client data of an entry, padded to eight bytes in version 1. *)
Definition parseClientData (version : Z) (data : bytes) (offset numClientData : Z)
    : outcome (list Z * Z) :=
  if numClientData >? 0 then
    let dataSize := numClientData * 4 in
    guard negb (offset + dataSize >? len data) else "filter client data truncated";;
    let! vs := readValues (Z.to_nat numClientData) data offset in
    let offset := offset + dataSize in
    Ret (vs, if (version =? 1) && negb (dataSize mod 8 =? 0)
             then offset + (8 - dataSize mod 8) else offset)
  else Ret ([], offset).

(** One filter entry: the filter and the offset after it. *)
Definition parseFilter (version : Z) (data : bytes) (offset : Z) : outcome (FilterInfo * Z) :=
  guard negb (offset + 8 >? len data) else "filter pipeline truncated";;
  let! id := get_le 2 data offset in
  let offset := offset + 2 in
  let! (nameLength, offset) :=
    (if version =? 1 then let! n := get_le 2 data offset in Ret (n, offset + 2)
     else Ret (0, offset)) in
  let! flags := get_le 2 data offset in
  let offset := offset + 2 in
  let! numClientData := get_le 2 data offset in
  let offset := offset + 2 in
  let! (name, offset) := parseName version data offset nameLength in
  let! (clientData, offset) := parseClientData version data offset numClientData in
  Ret ({| fID := id; fNameLength := nameLength; fFlags := flags;
          fNumClientData := numClientData; fName := name; fClientData := clientData |}, offset).

Fixpoint parseFilters (n : nat) (version : Z) (data : bytes) (offset : Z)
    : outcome (list FilterInfo) :=
  match n with
  | O => Ret []
  | S m =>
      let! (f, offset) := parseFilter version data offset in
      let! r := parseFilters m version data offset in
      Ret (f :: r)
  end.

Definition ParseFilterPipelineMessage (data : bytes) : outcome FilterPipelineMessage :=
  guard negb (len data <? 2) else "filter pipeline message too short";;
  let! v := idx data 0 in
  let! n := idx data 1 in
  let version := b2z v in
  guard negb ((version <? 1) || (version >? 2)) else "unsupported filter pipeline version";;
  let offset := if version =? 1 then 2 + 6 else 2 in
  let! fs := parseFilters (Z.to_nat (b2z n)) version data offset in
  Ret {| Version := version; NumFilters := b2z n; Filters := fs |}.

Definition applyFilter (filter : FilterInfo) (data : bytes) : outcome bytes :=
  let id := fID filter in
  if id =? FilterGZIP then zlib_inflate data
  else if id =? FilterShuffle then applyShuffle data (fClientData filter)
  else if id =? FilterFletcher32 then applyFletcher32 data
  else if id =? FilterBZIP2 then bunzip2 data
  else if id =? FilterLZF then
    match fClientData filter with
    | _ :: _ :: expectedSize :: _ =>
        if (expectedSize >? 0) && (len data =? expectedSize) then Ret data else applyLZF data
    | _ => applyLZF data
    end
  else if id =? FilterSZIP then Err "SZIP decompression requires libaec library"
  else Err "unsupported filter ID".

(** Zero padding of LZF output up to the size recorded in the client data. *)
Definition padLZF (filter : FilterInfo) (result : bytes) : bytes :=
  match fClientData filter with
  | _ :: _ :: expectedSize :: _ =>
      if (fID filter =? FilterLZF) && (expectedSize >? 0) && (len result <? expectedSize)
      then result ++ replicate (Z.to_nat (expectedSize - len result)) x00 else result
  | _ => result
  end.

(** On an error, Go's [result] has been overwritten with nil before the
    optional filter is skipped. *)
Fixpoint applyInfos (rfs : list FilterInfo) (result : bytes) : outcome bytes :=
  match rfs with
  | [] => Ret result
  | filter :: rest =>
      let isOptional := negb (Z.land (fFlags filter) 1 =? 0) in
      match applyFilter filter result with
      | Ret result => applyInfos rest (padLZF filter result)
      | Err e => if isOptional then applyInfos rest [] else Err e
      | Panic => Panic
      end
  end.

Definition ApplyFilters (fp : FilterPipelineMessage) (data : bytes) : outcome bytes :=
  if len (Filters fp) =? 0 then Ret data else applyInfos (rev (Filters fp)) data.
End with_codecs.

(** ** Inverting a pipeline *)

(** What a filter promises to the pipeline: on data that satisfy [P], its
    output is turned back into the data by [undo]. *)
Class InverseOn (apply undo : bytes -> outcome bytes) (P : bytes -> Prop) : Prop :=
  inverse_on data : P data -> exists out, apply data = Ret out /\ undo out = Ret data.

(** Element size divides a non-empty buffer below 4 GiB. *)
Definition shuffleable (es : Z) (data : bytes) : Prop :=
  0 < es /\ 0 < len data < 2 ^ 32 /\ len data mod es = 0.

#[export] Instance shuffle_inverse es :
  InverseOn (shuffleApply es) (shuffleRemove es) (shuffleable es).
Proof.
  intros data (? & ? & ?). destruct (shuffleApply_ok es data) as (s & Es & Ls & Hs); [done..|].
  exists s. split; [done|]. assert (len s mod es = 0) by (by rewrite Ls).
  destruct (shuffleRemove_ok es s) as (r & -> & Lr & Hr); [done|lia|done|].
  f_equal. eapply unshuffle_id; eauto; lia.
Qed.

#[export] Instance shuffle_reader_inverse es cd :
  InverseOn (shuffleApply es) (fun s => applyShuffle s (es :: cd)) (shuffleable es).
Proof.
  intros data (? & ? & ?). destruct (shuffleApply_ok es data) as (s & Es & Ls & Hs); [done..|].
  exists s. split; [done|]. assert (len s mod es = 0) by (by rewrite Ls).
  destruct (applyShuffle_ok es s) with (cd := cd) as (r & -> & Lr & Hr); [done|lia|done|].
  f_equal. eapply unshuffle_id; eauto; lia.
Qed.

#[export] Instance fletcher_inverse : InverseOn fletcherApply fletcherRemove (fun _ => True).
Proof.
  intros data _. rewrite fletcherApply_eq. eexists. split; [done|].
  destruct (calculateFletcher32_sum1 data) as [_ Hu].
  rewrite fletcherRemove_app by len_lia. by rewrite le_get_put_small, Z.eqb_refl.
Qed.

#[export] Instance fletcher_reader_inverse : InverseOn fletcherApply applyFletcher32 (fun _ => True).
Proof.
  intros data _. rewrite fletcherApply_eq. eexists. split; [done|]. apply applyFletcher32_app. len_lia.
Qed.

#[export] Instance lzf_inverse : InverseOn lzfApply lzfRemove (fun _ => True).
Proof. intros data _. destruct (lzf_inverse_both data) as (out & ? & ? & _). eauto. Qed.

#[export] Instance lzf_reader_inverse : InverseOn lzfApply applyLZF (fun _ => True).
Proof. intros data _. destruct (lzf_inverse_both data) as (out & ? & _ & ?). eauto. Qed.

Section pipelines.
Context `{C : Codecs} `{CL : !CodecLaws C}.

#[export] Instance gzip_inverse level :
  InverseOn (fun data => Ret (gzip_compress level data)) gunzip (fun _ => True).
Proof using CL. intros data _. eexists. split; [done|]. apply gunzip_gzip. Qed.

(** The supported filters and the data each accepts. *)
Inductive supported : Filter -> (bytes -> Prop) -> Prop :=
| sup_shuffle es : 0 <= es < 2 ^ 32 -> supported (NewShuffleFilter es) (shuffleable es)
| sup_fletcher : supported NewFletcher32Filter (fun _ => True)
| sup_lzf : supported NewLZFFilter (fun _ => True)
| sup_gzip level : supported (NewGZIPFilter level) (fun _ => True).

(** Every filter of the chain accepts what the filters before it produce. *)
Inductive accepts : list Filter -> bytes -> Prop :=
| accepts_nil data : accepts [] data
| accepts_cons f fs P data :
    supported f P -> P data ->
    (forall out, Apply f data = Ret out -> accepts fs out) -> accepts (f :: fs) data.

Lemma supported_inverse f P : supported f P -> InverseOn (Apply f) (Remove f) P.
Proof using CL. intros []; cbn; apply _. Qed.

Lemma removeAll_app l1 l2 data :
  removeAll (l1 ++ l2) data = let! r := removeAll l1 data in removeAll l2 r.
Proof. revert data. induction l1 as [|f l1 IH]; intros data; cbn; [done|]. destruct (Remove f data); cbn; auto. Qed.

Lemma applyInfos_app l1 l2 data :
  applyInfos (l1 ++ l2) data = let! r := applyInfos l1 data in applyInfos l2 r.
Proof.
  revert data. induction l1 as [|f l1 IH]; intros data; cbn; [done|].
  destruct (applyFilter f data); cbn; auto. case_match; cbn; auto.
Qed.

(** The description of a writer filter that the reader works from. *)
Definition infoOf (f : Filter) : FilterInfo :=
  {| fID := ID f; fNameLength := len (Name f); fFlags := (Encode f).1;
     fNumClientData := len (Encode f).2; fName := Name f; fClientData := (Encode f).2 |}.

(** Reading one filter back, padding included. *)
Lemma supported_reader f P data :
  supported f P -> ID f <> FilterGZIP -> P data ->
  exists out, Apply f data = Ret out /\ applyInfos [infoOf f] out = Ret data.
Proof.
  intros Hs Hg HP. destruct Hs as [es Hes| | |level]; cbn in Hg; try done.
  - destruct (shuffle_reader_inverse es [] data HP) as (out & E1 & E2). exists out. split; [done|].
    cbn -[applyShuffle]. by rewrite E2.
  - destruct (fletcher_reader_inverse data I) as (out & E1 & E2). exists out. split; [done|].
    cbn -[applyFletcher32]. by rewrite E2.
  - destruct (lzf_reader_inverse data I) as (out & E1 & E2). exists out. split; [done|].
    cbn -[applyLZF]. by rewrite E2.
Qed.

Lemma pipeline_inverse fs data :
  accepts fs data -> exists out, applyAll fs data = Ret out /\ removeAll (rev fs) out = Ret data.
Proof using CL.
  revert data. induction fs as [|f fs IH]; intros data Ha; cbn; [eauto|].
  inversion Ha as [|? ? P ? Hs HP Hr]; subst. destruct (supported_inverse f P Hs data HP) as (o & Eo & Er).
  rewrite Eo. cbn [obind]. destruct (IH o (Hr o Eo)) as (out & -> & Eout).
  exists out. split; [done|]. rewrite removeAll_app, Eout. cbn. by rewrite Er.
Qed.

Lemma pipeline_reader_inverse fs data :
  accepts fs data -> Forall (fun f => ID f <> FilterGZIP) fs ->
  exists out, applyAll fs data = Ret out /\ applyInfos (rev (map infoOf fs)) out = Ret data.
Proof using CL.
  revert data. induction fs as [|f fs IH]; intros data Ha Hg; cbn -[applyInfos]; [by exists data|].
  apply Forall_cons in Hg as [Hf Hg]. inversion Ha as [|? ? P ? Hs HP Hr]; subst.
  destruct (supported_reader f P data Hs Hf HP) as (o & Eo & Er).
  rewrite Eo. cbn -[applyInfos]. destruct (IH o (Hr o Eo) Hg) as (out & -> & Eout).
  exists out. split; [done|]. rewrite applyInfos_app, Eout. done.
Qed.

(** ** Safety of the read side *)

Lemma applyShuffle_no_panic data cd : no_panic (applyShuffle data cd).
Proof.
  unfold applyShuffle. destruct cd as [|es cd]; [auto with go|].
  zcase (Z.leb_spec es 0); cbn [negb orb]; [auto with go|].
  rewrite Z.gtb_ltb. zcase (Z.ltb_spec (len data) es); cbn [negb]; [auto with go|].
  zcase (Z.eqb_spec (len data mod es) 0); [|auto with go].
  pose proof (mod_divide_eq (len data) es). set (ne := len data / es) in *.
  edestruct (for_loop_inv (fun _ (out : bytes) => len out = len data)) as (out & -> & _).
  3: auto with go. { len_lia. }
  intros e t He Ht. cbn beta.
  edestruct (for_loop_inv (fun _ (out : bytes) => len out = len data)) as (out & -> & Ho).
  3: eauto. { done. }
  intros b u Hb Hu. cbn beta. pose proof (pos_bound es ne b e). pose proof (pos_bound ne es e b).
  destruct (idx_in_range data (b * ne + e)) as [x ->]; [lia|]. cbn [obind].
  rewrite set_idx_ret by lia. eexists. split; [done|]. len_lia.
Qed.

Lemma applyFletcher32_no_panic data : no_panic (applyFletcher32 data).
Proof.
  unfold applyFletcher32. zcase (Z.ltb_spec (len data) 4); cbn [negb]; [auto with go|].
  rewrite slice_ret by lia. auto with go.
Qed.

Lemma applyLZF_no_panic data : no_panic (applyLZF data).
Proof.
  unfold applyLZF, core_lzfDecompress, lzfDecompress. case_match; [auto with go|].
  apply decompressLoop_no_panic; len_lia.
Qed.

Lemma applyFilter_no_panic f data :
  (forall d, no_panic (zlib_inflate d)) -> (forall d, no_panic (bunzip2 d)) ->
  no_panic (applyFilter f data).
Proof.
  intros Hz Hb. unfold applyFilter.
  repeat case_match; auto using applyShuffle_no_panic, applyFletcher32_no_panic, applyLZF_no_panic with go.
Qed.

Lemma applyInfos_no_panic fs data :
  (forall d, no_panic (zlib_inflate d)) -> (forall d, no_panic (bunzip2 d)) ->
  no_panic (applyInfos fs data).
Proof.
  intros Hz Hb. revert data. induction fs as [|f fs IH]; intros data; cbn; [auto with go|].
  pose proof (applyFilter_no_panic f data Hz Hb) as Hf.
  destruct (applyFilter f data); [auto| |done]. case_match; auto with go.
Qed.

Lemma readValues_in_range n data off :
  0 <= off -> off + Z.of_nat n * 4 <= len data ->
  exists vs, readValues n data off = Ret vs /\ length vs = n.
Proof.
  revert off. induction n as [|n IH]; intros off H0 Hl; cbn [readValues]; [by exists []|].
  destruct (get_le_in_range 4 data off) as (v & -> & _); [lia|lia|]. cbn [obind].
  destruct (IH (off + 4)) as (vs & -> & <-); [lia|lia|]. cbn. eauto.
Qed.

(** A version-2 entry is read without a panic, and the offset moves on. *)
Lemma parseFilter_v2 data off :
  0 <= off ->
  match parseFilter 2 data off with
  | Ret (f, off') => off < off' <= len data
  | Err _ => True
  | Panic => False
  end.
Proof.
  intros H0. unfold parseFilter. rewrite Z.gtb_ltb.
  zcase (Z.ltb_spec (len data) (off + 8)); cbn [negb]; [done|].
  destruct (get_le_in_range 2 data off) as (id & -> & _); [lia|lia|].
  change (2 =? 1) with false. cbn [obind andb].
  destruct (get_le_in_range 2 data (off + 2)) as (fl & -> & _); [lia|lia|]. cbn [obind].
  destruct (get_le_in_range 2 data (off + 2 + 2)) as (n & -> & Hn); [lia|lia|]. cbn [obind].
  change (parseName 2 data (off + 2 + 2 + 2) 0) with (@Ret (bytes * Z) ([], off + 2 + 2 + 2)).
  unfold parseClientData. cbv zeta. cbn [obind]. rewrite !Z.gtb_ltb. zcase (Z.ltb_spec 0 n); cbn [obind]; [|lia].
  zcase (Z.ltb_spec (len data) (off + 2 + 2 + 2 + n * 4)); cbn [negb obind]; [done|].
  destruct (readValues_in_range (Z.to_nat n) data (off + 2 + 2 + 2)) as (vs & -> & _); [lia|lia|].
  cbn [obind andb]. change (2 =? 1) with false. cbn. lia.
Qed.

Lemma parseFilters_v2_no_panic n data off : 0 <= off -> no_panic (parseFilters n 2 data off).
Proof.
  revert off. induction n as [|n IH]; intros off H0; cbn [parseFilters]; [auto with go|].
  pose proof (parseFilter_v2 data off H0) as Hp.
  destruct (parseFilter 2 data off) as [[f off']| |]; cbn [obind]; [|auto with go|done].
  apply obind_no_panic; [apply IH; lia|]. auto with go.
Qed.

Lemma Parse_v2_no_panic data : data !! 0%nat <> Some x01 -> no_panic (ParseFilterPipelineMessage data).
Proof.
  intros Hv. unfold ParseFilterPipelineMessage.
  zcase (Z.ltb_spec (len data) 2); cbn [negb]; [auto with go|].
  destruct data as [|v [|n rest]]; [len_lia..|]. cbn in Hv.
  change (idx (v :: n :: rest) 0) with (Ret v). change (idx (v :: n :: rest) 1) with (Ret n). cbn [obind].
  pose proof (b2z_range v). destruct (_ || _) eqn:Hver; cbn [negb]; [auto with go|].
  assert (b2z v <> 1) by (intros E; apply (b2z_inj v x01) in E; congruence).
  assert (b2z v = 2) as -> by lia. change (2 =? 1) with false. cbn beta iota.
  apply obind_no_panic; [by apply parseFilters_v2_no_panic|]. auto with go.
Qed.
End pipelines.

(** ** The version-1 message as a reference encoder *)

(** A name field: empty, or a name without zero bytes followed by at least one
    zero, of a length divisible by eight. *)
Definition name_field (name field : bytes) : Prop :=
  (name = [] /\ field = []) \/
  (name <> [] /\ (exists k, field = name ++ replicate (S k) x00) /\
   Forall (fun b => b <> x00) name /\ len field mod 8 = 0 /\ len field < 2 ^ 16).

(** The entry of a filter in a message of the given version: in version 1 with
    its name field and padded client data, in version 2 without either. *)
Definition entry (version : Z) (f : FilterInfo) (field : bytes) : bytes :=
  le_put 2 (fID f) ++ (if version =? 1 then le_put 2 (len field) else []) ++
  le_put 2 (fFlags f) ++ le_put 2 (fNumClientData f) ++
  (if version =? 1 then field else []) ++ concat (map (le_put 4) (fClientData f)) ++
  (if (version =? 1) && negb ((fNumClientData f * 4) mod 8 =? 0) then replicate 4 x00 else []).

Definition info_ok (version : Z) (f : FilterInfo) (field : bytes) : Prop :=
  is_u 16 (fID f) /\ is_u 16 (fFlags f) /\ fNumClientData f = len (fClientData f) /\
  is_u 16 (fNumClientData f) /\ Forall (is_u 32) (fClientData f) /\
  (if version =? 1 then name_field (fName f) field /\ fNameLength f = len field
   else fName f = [] /\ field = [] /\ fNameLength f = 0).

Lemma untilNull_app name k :
  Forall (fun b => b <> x00) name -> untilNull (name ++ replicate (S k) x00) = Some name.
Proof.
  induction 1 as [|b name Hb _ IH]; cbn in *; [done|].
  destruct (Z.eqb_spec (b2z b) 0) as [E|_]; [by apply (b2z_inj b x00) in E|]. by rewrite IH.
Qed.

Lemma readValues_app pre vs post off :
  off = len pre -> Forall (is_u 32) vs ->
  readValues (length vs) (pre ++ concat (map (le_put 4) vs) ++ post) off = Ret vs.
Proof.
  intros -> Hvs. revert pre. induction Hvs as [|v vs Hv _ IH]; intros pre; [done|].
  cbn [length readValues map concat]. rewrite <- app_assoc, get_le_app by (done || exact Hv).
  cbn [obind]. rewrite app_assoc. replace (len pre + 4) with (len (pre ++ le_put 4 v)) by len_lia.
  by rewrite IH.
Qed.

Lemma len_values vs : len (concat (map (le_put 4) vs)) = 4 * len vs.
Proof. induction vs as [|v vs IH]; [done|]. cbn [map concat]. len_lia. Qed.

Lemma readValues_at data pre vs post off n :
  data = pre ++ concat (map (le_put 4) vs) ++ post -> off = len pre -> n = length vs ->
  Forall (is_u 32) vs -> readValues n data off = Ret vs.
Proof. intros -> -> -> ?. by apply readValues_app. Qed.

Lemma nameOf_field name field : name_field name field -> field <> [] -> nameOf field = name.
Proof.
  intros [[_ ->]|(Hne & (k & ->) & Hz & _)] Hf; [done|]. unfold nameOf.
  rewrite untilNull_app by done. by destruct name.
Qed.

Lemma name_field_len name field :
  name_field name field -> len field mod 8 = 0 /\ is_u 16 (len field) /\ (len field = 0 -> name = []).
Proof.
  intros [[-> ->]|(Hne & (k & ->) & _ & H8 & Hl)]; [done|].
  unfold is_u. pose proof (len_nonneg (name ++ replicate (S k) x00)). split_and!; try done.
  intros E. exfalso. len_lia.
Qed.

Lemma parseName_field data pre name field post off :
  data = pre ++ field ++ post -> off = len pre -> name_field name field ->
  parseName 1 data off (len field) = Ret (name, off + len field).
Proof.
  intros Hd -> Hname. destruct (name_field_len _ _ Hname) as (H8 & Hfu & Hempty).
  unfold parseName. change (1 =? 1) with true. cbn [andb]. cbv zeta. rewrite H8, !Z.gtb_ltb. cbn [negb Z.eqb].
  change (0 =? 0) with true. cbn [negb]. pose proof (len_nonneg field). pose proof (len_nonneg post).
  assert (Hdata : len data = len pre + len field + len post) by (subst data; len_lia).
  zcase (Z.ltb_spec 0 (len field)).
  - zcase (Z.ltb_spec (len data) (len pre + len field)). cbn [negb].
    erewrite (slice_at data pre field); [|done..]. cbn [obind].
    rewrite (nameOf_field name field); [done..|]. by intros ->.
  - rewrite Hempty by lia. do 2 f_equal. lia.
Qed.

(** Padding of the client data of a version-1 entry. *)
Definition cd_pad (version n : Z) : bytes :=
  if (version =? 1) && negb ((n * 4) mod 8 =? 0) then replicate 4 x00 else [].

Lemma len_cd_pad n :
  len (cd_pad 1 n) = if (n * 4) mod 8 =? 0 then 0 else 8 - (n * 4) mod 8.
Proof.
  unfold cd_pad. change (1 =? 1) with true. cbn [andb].
  destruct (Z.eqb_spec (n * 4 mod 8) 0) as [|Hn]; cbn [negb]; [done|].
  rewrite len_replicate. pose proof (Z.mul_mod_distr_r n 2 4 ltac:(lia) ltac:(lia)) as Hm.
  change (2 * 4) with 8 in Hm. pose proof (Z.mod_pos_bound n 2 ltac:(lia)). lia.
Qed.

Lemma parseClientData_values version data pre cd post off n :
  data = pre ++ concat (map (le_put 4) cd) ++ cd_pad version n ++ post -> off = len pre ->
  n = len cd -> Forall (is_u 32) cd ->
  parseClientData version data off n = Ret (cd, off + 4 * n + len (cd_pad version n)).
Proof.
  intros Hd -> -> Hcd. pose proof (len_values cd) as Hvs. unfold parseClientData. cbv zeta. rewrite !Z.gtb_ltb.
  pose proof (len_nonneg post). pose proof (len_nonneg (cd_pad version (len cd))).
  assert (Hdata : len data = len pre + 4 * len cd + len (cd_pad version (len cd)) + len post)
    by (subst data; len_lia).
  zcase (Z.ltb_spec 0 (len cd)).
  - zcase (Z.ltb_spec (len data) (len pre + len cd * 4)). cbn [negb].
    erewrite (readValues_at data pre cd); [|done|done|len_lia|done]. cbn [obind]. do 2 f_equal.
    destruct (Z.eqb_spec version 1) as [->|Hv]; cbn [andb].
    + rewrite len_cd_pad. destruct (Z.eqb_spec (len cd * 4 mod 8) 0); cbn [negb]; lia.
    + unfold cd_pad. destruct (Z.eqb_spec version 1); [lia|]. cbn [andb]. len_lia.
  - assert (cd = []) as -> by (apply len_0_nil; len_lia). unfold cd_pad.
    change ((len [] * 4) mod 8 =? 0) with true. cbn [negb]. rewrite andb_false_r. do 2 f_equal. len_lia.
Qed.

Lemma parseFilter_entry_v2 pre f post :
  info_ok 2 f [] -> 8 <= len (entry 2 f [] ++ post) ->
  parseFilter 2 (pre ++ entry 2 f [] ++ post) (len pre) = Ret (f, len pre + len (entry 2 f [])).
Proof.
  intros (Hid & Hfl & Hn & Hnu & Hcd & Hname & _ & Hnl) Hl.
  destruct f as [id nl fl n name cd]. cbn [fID fNameLength fFlags fNumClientData fName fClientData] in *.
  subst name nl. pose proof (len_values cd) as Hvs.
  set (data := pre ++ _). assert (Hdata : len data = len pre + len (entry 2 (mkInfo id 0 fl n [] cd) [] ++ post))
    by (subst data; len_lia).
  unfold parseFilter. rewrite Z.gtb_ltb. zcase (Z.ltb_spec (len data) (len pre + 8)). cbn [negb].
  unfold entry in *. cbn [fID fFlags fNumClientData fClientData] in *. fold (cd_pad 2 n) in *.
  change (2 =? 1) with false in *. cbn [app] in *.
  erewrite (get_le_at 2 data pre id); [|subst data; by rewrite <- ?app_assoc|done|done]. cbn [obind].
  erewrite (get_le_at 2 data (pre ++ le_put 2 id) fl); [|subst data; by rewrite <- ?app_assoc|len_lia|done].
  cbn [obind].
  erewrite (get_le_at 2 data (pre ++ le_put 2 id ++ le_put 2 fl) n);
    [|subst data; by rewrite <- ?app_assoc|len_lia|done].
  cbn [obind]. change (parseName 2 data (len pre + 2 + 2 + 2) 0) with (@Ret (bytes * Z) ([], len pre + 2 + 2 + 2)).
  cbn [obind]. erewrite (parseClientData_values 2 data (pre ++ le_put 2 id ++ le_put 2 fl ++ le_put 2 n) cd);
    [|subst data; by rewrite <- ?app_assoc|len_lia|done|done].
  cbn [obind]. do 2 f_equal. len_lia.
Qed.

Lemma parseFilter_entry_v1 pre f field post :
  info_ok 1 f field ->
  parseFilter 1 (pre ++ entry 1 f field ++ post) (len pre) = Ret (f, len pre + len (entry 1 f field)).
Proof.
  intros (Hid & Hfl & Hn & Hnu & Hcd & Hname & Hnl).
  destruct (name_field_len _ _ Hname) as (_ & Hfu & _). unfold is_u in *.
  destruct f as [id nl fl n name cd]. cbn [fID fNameLength fFlags fNumClientData fName fClientData] in *.
  subst nl. pose proof (len_values cd) as Hvs. set (data := pre ++ _).
  assert (Hdata : len data = len pre + len (entry 1 (mkInfo id (len field) fl n name cd) field) + len post)
    by (subst data; len_lia).
  unfold entry in *. cbn [fID fFlags fNumClientData fClientData] in *. fold (cd_pad 1 n) in *.
  change (1 =? 1) with true in *. cbn iota in *.
  unfold parseFilter. rewrite Z.gtb_ltb. zcase (Z.ltb_spec (len data) (len pre + 8)); [len_lia|]. cbn [negb].
  erewrite (get_le_at 2 data pre id); [|subst data; by rewrite <- ?app_assoc|done|done].
  change (1 =? 1) with true. cbn [obind].
  erewrite (get_le_at 2 data (pre ++ le_put 2 id) (len field));
    [|subst data; by rewrite <- ?app_assoc|len_lia|done]. cbn [obind].
  erewrite (get_le_at 2 data (pre ++ le_put 2 id ++ le_put 2 (len field)) fl);
    [|subst data; by rewrite <- ?app_assoc|len_lia|done]. cbn [obind].
  erewrite (get_le_at 2 data (pre ++ le_put 2 id ++ le_put 2 (len field) ++ le_put 2 fl) n);
    [|subst data; by rewrite <- ?app_assoc|len_lia|done]. cbn [obind].
  erewrite (parseName_field data (pre ++ le_put 2 id ++ le_put 2 (len field) ++ le_put 2 fl ++ le_put 2 n) name field);
    [|subst data; by rewrite <- ?app_assoc|len_lia|done]. cbn [obind].
  erewrite (parseClientData_values 1 data
    (pre ++ le_put 2 id ++ le_put 2 (len field) ++ le_put 2 fl ++ le_put 2 n ++ field) cd);
    [|subst data; by rewrite <- ?app_assoc|len_lia|done|done].
  cbn [obind]. do 2 f_equal. len_lia.
Qed.

(** A whole message of either version. *)
Definition entries (version : Z) (fs : list (FilterInfo * bytes)) : bytes :=
  concat (map (fun p => entry version p.1 p.2) fs).

Definition message (version : Z) (fs : list (FilterInfo * bytes)) : bytes :=
  [z2b version; z2b (len fs)] ++ (if version =? 1 then replicate 6 x00 else []) ++ entries version fs.

Lemma parseFilters_v1 fs pre :
  Forall (fun p => info_ok 1 p.1 p.2) fs ->
  parseFilters (length fs) 1 (pre ++ entries 1 fs) (len pre) = Ret (map fst fs).
Proof.
  intros Hf. revert pre. induction Hf as [|[f field] fs Hok _ IH]; intros pre; [done|].
  cbn [length parseFilters map fst snd]. change (entries 1 ((f, field) :: fs)) with (entry 1 f field ++ entries 1 fs).
  rewrite parseFilter_entry_v1 by done. cbn [obind]. rewrite app_assoc, <- len_app. by rewrite IH.
Qed.

(** In version 2 the parser wants eight bytes for every entry, although an
    entry without client data has six. *)
Fixpoint v2_long (fs : list FilterInfo) : Prop :=
  match fs with
  | [] => True
  | f :: rest => (rest = [] -> fClientData f <> []) /\ v2_long rest
  end.

Lemma entry_v2_len f : len (entry 2 f []) = 6 + 4 * len (fClientData f).
Proof. unfold entry. change (2 =? 1) with false. cbn [andb]. pose proof (len_values (fClientData f)). len_lia. Qed.

Lemma parseFilters_v2 fs pre :
  Forall (fun f => info_ok 2 f []) fs -> v2_long fs ->
  parseFilters (length fs) 2 (pre ++ entries 2 (map (., []) fs)) (len pre) = Ret fs.
Proof.
  intros Hf. revert pre. induction Hf as [|f fs Hok _ IH]; intros pre; [done|]. intros [Hl Hlong].
  cbn [length parseFilters map fst snd].
  change (entries 2 ((f, []) :: map (., []) fs)) with (entry 2 f [] ++ entries 2 (map (., []) fs)).
  rewrite parseFilter_entry_v2; [|done|].
  - cbn [obind]. rewrite app_assoc, <- len_app. by rewrite IH.
  - rewrite len_app, entry_v2_len. destruct fs as [|g fs].
    + destruct (fClientData f) eqn:E; [by specialize (Hl eq_refl)|]. len_lia.
    + change (entries 2 (map (., []) (g :: fs))) with (entry 2 g [] ++ entries 2 (map (., []) fs)).
      rewrite len_app, entry_v2_len. pose_lens. lia.
Qed.

Lemma is_err_not_ret {A} (m : outcome A) : no_panic m -> (forall a, m <> Ret a) -> is_err m = true.
Proof. unfold no_panic. intros Hp Hr. destruct m as [a| |]; [by destruct (Hr a)|done|done]. Qed.

(** Six reserved zero bytes read as an entry of the absent filter 0. *)
Lemma parseFilter_zero a b body f off :
  parseFilter 2 (a :: b :: x00 :: x00 :: x00 :: x00 :: x00 :: x00 :: body) 2 = Ret (f, off) ->
  f = mkInfo 0 0 0 0 [] [] /\ off = 8.
Proof.
  intros H. destruct (decide (2 <= len body)) as [Hb|Hb].
  - pose proof (parseFilter_entry_v2 [a; b] (mkInfo 0 0 0 0 [] []) body) as He.
    change (entry 2 (mkInfo 0 0 0 0 [] []) []) with [x00; x00; x00; x00; x00; x00] in He.
    cbn [app] in He. change (len [a; b]) with 2 in He. rewrite H in He.
    assert (Ret (f, off) = Ret (mkInfo 0 0 0 0 [] [], 2 + len [x00; x00; x00; x00; x00; x00])) as [= -> ->].
    { apply He; [|len_lia]. repeat split; done || constructor. }
    done.
  - exfalso. revert H. unfold parseFilter. rewrite Z.gtb_ltb.
    zcase (Z.ltb_spec (len (a :: b :: x00 :: x00 :: x00 :: x00 :: x00 :: x00 :: body)) (2 + 8)); [done|len_lia].
Qed.

(** A message whose first entry decodes to the absent filter 0 is useless. *)
Lemma zero_filter_unreadable `{C : Codecs} rest data :
  forall d, applyInfos (rev ((mkInfo 0 0 0 0 [] []) :: rest)) data <> Ret d.
Proof.
  intros d. cbn [rev]. rewrite applyInfos_app. destruct (applyInfos (rev rest) data); cbn; done.
Qed.

(** ** Properties *)

Section properties.
Context `{C : Codecs} `{CL : !CodecLaws C}.

(** C26. Writing and reading chunk data: whatever chain of shuffle, LZF and
    Fletcher-32 filters the writer applies, in any order and number, the
    reader's [ApplyFilters] on the corresponding descriptions returns the
    original data. *)
Theorem reader_inverts_writer fp data :
  accepts (filters fp) data -> Forall (fun f => ID f <> FilterGZIP) (filters fp) ->
  exists stored, pipelineApply fp data = Ret stored /\
    ApplyFilters (mkMessage 1 (Count fp) (map infoOf (filters fp))) stored = Ret data.
Proof using CL.
  intros Ha Hg. destruct (pipeline_reader_inverse _ _ Ha Hg) as (out & E1 & E2).
  exists out. split; [done|]. unfold ApplyFilters. cbn [Filters].
  destruct (Z.eqb_spec (len (map infoOf (filters fp))) 0) as [E|_]; [|done].
  apply len_0_nil in E. destruct (filters fp); [|done]. cbn in E1. congruence.
Qed.

(** The write side's own inverse: [Remove] undoes [Apply] for every chain
    of shuffle, LZF, Fletcher-32 and GZIP filters. *)
Theorem pipeline_roundtrip fp data :
  accepts (filters fp) data ->
  exists stored, pipelineApply fp data = Ret stored /\ pipelineRemove fp stored = Ret data.
Proof using CL. apply pipeline_inverse. Qed.

(** Data written through the GZIP filter is not readable: the filter writes
    the gzip format, the reader expects a zlib stream, and the two headers are
    incompatible. *)
Theorem gzip_unreadable level data :
  exists stored, Apply (NewGZIPFilter level) data = Ret stored /\
    applyFilter (infoOf (NewGZIPFilter level)) stored = Err "zlib reader creation failed".
Proof using CL.
  eexists. split; [reflexivity|]. cbn.
  edestruct gzip_magic as [rest ->]. apply zlib_header. left. vm_compute. congruence.
Qed.

(** The reader applies filters without a panic, whatever the descriptions
    and the data, provided the standard codecs do not panic. *)
Theorem ApplyFilters_safe fp data :
  (forall d, no_panic (zlib_inflate d)) -> (forall d, no_panic (bunzip2 d)) ->
  no_panic (ApplyFilters fp data).
Proof. intros. unfold ApplyFilters. case_match; auto using applyInfos_no_panic with go. Qed.

(** A pipeline message written by [EncodePipelineMessage] is never usable:
    the writer stores version 2 with the version-1 layout (six reserved bytes,
    names), the parser reads the reserved bytes as filter 0, and reading any
    chunk fails. *)
Theorem written_message_unreadable fp msg data :
  (forall d, no_panic (zlib_inflate d)) -> (forall d, no_panic (bunzip2 d)) ->
  1 <= Count fp < 256 -> EncodePipelineMessage fp = Ret msg ->
  is_err (let! m := ParseFilterPipelineMessage msg in ApplyFilters m data) = true.
Proof.
  intros Hz Hb Hn He. unfold Count in Hn. unfold EncodePipelineMessage, IsEmpty in He.
  zcase (Z.eqb_spec (len (filters fp)) 0). cbn [negb] in He.
  apply obind_ret_inv in He as (body & _ & [= <-]). cbn [app].
  set (msg := z2b 2 :: _). apply is_err_not_ret.
  - apply obind_no_panic; [by apply Parse_v2_no_panic|]. intros m _.
    unfold ApplyFilters. case_match; auto using applyInfos_no_panic with go.
  - intros d. intros (m & Hp & Ha)%obind_ret_inv. revert Hp. unfold ParseFilterPipelineMessage.
    subst msg. zcase (Z.ltb_spec (len (z2b 2 :: z2b (len (filters fp)) :: x00 :: x00 :: x00 :: x00 :: x00 :: x00 :: body)) 2).
    1: by len_lia.
    cbn [negb]. rewrite idx_head. cbn [obind].
    change (idx (_ :: z2b (len (filters fp)) :: _) 1) with (Ret (z2b (len (filters fp)))).
    cbn [obind]. change (b2z (z2b 2)) with 2. cbn [Z.ltb Z.gtb Z.eqb orb negb].
    rewrite b2z_z2b_small by lia. change (2 <? 1) with false. change (2 >? 2) with false. change (2 =? 1) with false.
    cbn [orb negb]. destruct (Z.to_nat (len (filters fp))) as [|n] eqn:En; [lia|]. cbn [parseFilters].
    intros (fs & Hfs & [= <-])%obind_ret_inv. cbn [Filters] in Ha.
    apply obind_ret_inv in Hfs as ([f off] & Hf & Hrest). apply obind_ret_inv in Hrest as (r & _ & [= <-]).
    apply parseFilter_zero in Hf as [-> _].
    unfold ApplyFilters in Ha. cbn [Filters] in Ha. by apply zero_filter_unreadable in Ha.
Qed.

(** An optional filter that fails loses the chunk: the reader goes on with
    an empty buffer instead of the unfiltered data, and reports success. *)
Theorem optional_failure_drops_data data :
  ApplyFilters (mkMessage 2 1 [mkInfo FilterShuffle 0 1 0 [] []]) data = Ret [].
Proof. reflexivity. Qed.
End properties.

(** The parser inverts the version-1 message format: names, flags and
    client data of up to 255 filters are all recovered. *)
Theorem parse_v1_roundtrip fs :
  len fs < 256 -> Forall (fun p => info_ok 1 p.1 p.2) fs ->
  ParseFilterPipelineMessage (message 1 fs) = Ret (mkMessage 1 (len fs) (map fst fs)).
Proof.
  intros Hn Hf. unfold ParseFilterPipelineMessage, message. change (1 =? 1) with true. cbn iota.
  pose proof (len_nonneg fs). zcase (Z.ltb_spec (len ([z2b 1; z2b (len fs)] ++ replicate 6 x00 ++ entries 1 fs)) 2).
  { len_lia. }
  cbn [negb]. change (idx (_ ++ _ ++ _) 0) with (Ret (z2b 1)).
  change (idx ([_; z2b (len fs)] ++ _) 1) with (Ret (z2b (len fs))). cbn [obind].
  rewrite (b2z_z2b_small (len fs)) by lia. change (b2z (z2b 1)) with 1. change (1 <? 1) with false. change (1 >? 2) with false.
  change (1 =? 1) with true. cbn [orb negb]. replace (Z.to_nat (len fs)) with (length fs) by len_lia.
  rewrite app_assoc. change (2 + 6) with (len ([z2b 1; z2b (len fs)] ++ replicate 6 x00)).
  by rewrite parseFilters_v1.
Qed.

Example parse_v1_roundtrip_witness :
  ParseFilterPipelineMessage (message 1 [(mkInfo 2 8 0 1 (str "shuffle") [4], str "shuffle" ++ [x00])])
  = Ret (mkMessage 1 1 [mkInfo 2 8 0 1 (str "shuffle") [4]]).
Proof.
  apply (parse_v1_roundtrip [(mkInfo 2 8 0 1 (str "shuffle") [4], str "shuffle" ++ [x00])]); [reflexivity|].
  constructor; [|constructor]. unfold info_ok, is_u. cbn [fst snd fID fFlags fNumClientData fClientData fName fNameLength].
  split; [lia|]. split; [lia|]. split; [reflexivity|]. split; [lia|].
  split; [constructor; [lia|constructor]|]. split; [|reflexivity].
  right. split; [discriminate|]. split; [exists 0%nat; reflexivity|].
  split; [repeat (constructor; [discriminate|]); constructor|]. split; reflexivity.
Defined.

(** Version-2 messages: the parser recovers every filter of a message whose
    last filter has client data, and never panics on a message that is not of
    version 1. *)
Theorem parse_v2_roundtrip_safe fs msg :
  len fs < 256 -> Forall (fun f => info_ok 2 f []) fs -> v2_long fs ->
  ParseFilterPipelineMessage (message 2 (map (., []) fs)) = Ret (mkMessage 2 (len fs) fs) /\
  (msg !! 0%nat <> Some x01 -> no_panic (ParseFilterPipelineMessage msg)).
Proof.
  intros Hn Hf Hl. split; [|apply Parse_v2_no_panic].
  unfold ParseFilterPipelineMessage, message. change (2 =? 1) with false. cbn iota. rewrite len_map, app_nil_l.
  pose proof (len_nonneg fs).
  zcase (Z.ltb_spec (len ([z2b 2; z2b (len fs)] ++ entries 2 (map (., []) fs))) 2).
  { len_lia. }
  cbn [negb]. change (idx (_ ++ _) 0) with (Ret (z2b 2)).
  change (idx ([_; z2b (len fs)] ++ _) 1) with (Ret (z2b (len fs))). cbn [obind].
  rewrite (b2z_z2b_small (len fs)) by lia. change (b2z (z2b 2)) with 2. change (2 <? 1) with false. change (2 >? 2) with false.
  change (2 =? 1) with false. cbn [orb negb]. replace (Z.to_nat (len fs)) with (length fs) by len_lia.
  change 2 with (len [z2b 2; z2b (len fs)]) at 3. by rewrite parseFilters_v2.
Qed.

Example parse_v2_roundtrip_safe_witness :
  ParseFilterPipelineMessage (message 2 (map (., []) [mkInfo 2 0 0 1 [] [4]]))
    = Ret (mkMessage 2 1 [mkInfo 2 0 0 1 [] [4]]) /\
  ([x02; x01] !! 0%nat <> Some x01 -> no_panic (ParseFilterPipelineMessage [x02; x01])).
Proof.
  apply (parse_v2_roundtrip_safe [mkInfo 2 0 0 1 [] [4]] [x02; x01]); [reflexivity| |].
  - constructor; [|constructor]. unfold info_ok, is_u. cbn [fID fFlags fNumClientData fClientData fName fNameLength].
    split; [lia|]. split; [lia|]. split; [reflexivity|]. split; [lia|].
    split; [constructor; [lia|constructor]|]. split; [reflexivity|split; reflexivity].
  - split; [discriminate|exact I].
Defined.

(** A version-1 message with a name length just below 2^16 makes the parser
    panic: the padded length wraps to 0, passes the bounds check, and the name
    slice is out of range. *)
Theorem parse_v1_panics :
  ParseFilterPipelineMessage
    [x01; x01; x00; x00; x00; x00; x00; x00; x02; x00; xff; xff; x00; x00; x00; x00] = Panic.
Proof. vm_compute. reflexivity. Qed.

(** A version-2 message that ends with a filter without client data is refused. *)
Example parse_v2_short_entry :
  ParseFilterPipelineMessage (message 2 [(mkInfo 3 0 0 0 [] [], [])]) = Err "filter pipeline truncated".
Proof. vm_compute. reflexivity. Qed.

(** ** Witnesses with concrete codecs

    Stored-block codecs with the right headers: gzip puts its magic before the
    data, zlib checks its two header bytes. *)
#[local] Instance storedCodecs : Codecs := {
  gzip_compress _ data := x1f :: x8b :: data;
  gunzip data := match data with x1f :: x8b :: rest => Ret rest | _ => Err "gzip" end;
  zlib_inflate data := match data with
    | cmf :: flg :: rest =>
        if (Z.land (b2z cmf) 15 =? 8) && ((256 * b2z cmf + b2z flg) mod 31 =? 0)
        then Ret rest else Err "zlib reader creation failed"
    | _ => Err "zlib reader creation failed" end;
  bunzip2 _ := Err "bzip2" }.

#[local] Instance storedLaws : CodecLaws storedCodecs.
Proof.
  split.
  - reflexivity.
  - intros. eexists. reflexivity.
  - intros cmf flg rest [H|H]; cbn [zlib_inflate storedCodecs].
    + destruct (Z.eqb_spec (Z.land (b2z cmf) 15) 8); [done|reflexivity].
    + destruct (Z.eqb_spec ((256 * b2z cmf + b2z flg) mod 31) 0); [done|]. by rewrite andb_false_r.
Defined.

Definition demo_pipeline : FilterPipeline :=
  AddFilter (AddFilter (AddFilterAtStart NewFilterPipeline (NewShuffleFilter 2)) NewLZFFilter) NewFletcher32Filter.

Lemma demo_accepts : accepts (filters demo_pipeline) [x01; x02; x03; x04].
Proof.
  cbn. eapply accepts_cons; [apply sup_shuffle; lia| |].
  - split; [lia|]. split; [split; reflexivity|reflexivity].
  - intros o1 _. eapply accepts_cons; [apply sup_lzf|exact I|].
    intros o2 _. eapply accepts_cons; [apply sup_fletcher|exact I|]. intros. constructor.
Defined.

Example reader_inverts_writer_witness :
  exists stored, pipelineApply demo_pipeline [x01; x02; x03; x04] = Ret stored /\
    ApplyFilters (mkMessage 1 3 (map infoOf (filters demo_pipeline))) stored = Ret [x01; x02; x03; x04].
Proof.
  apply (reader_inverts_writer demo_pipeline); [exact demo_accepts|].
  cbn. repeat (constructor; [discriminate|]). constructor.
Defined.

Example pipeline_roundtrip_witness :
  exists stored, pipelineApply demo_pipeline [x01; x02; x03; x04] = Ret stored /\
    pipelineRemove demo_pipeline stored = Ret [x01; x02; x03; x04].
Proof. apply (pipeline_roundtrip demo_pipeline). exact demo_accepts. Defined.

Example gzip_unreadable_witness :
  exists stored, Apply (NewGZIPFilter 6) [x01; x02] = Ret stored /\
    applyFilter (infoOf (NewGZIPFilter 6)) stored = Err "zlib reader creation failed".
Proof. apply gzip_unreadable. Defined.

Lemma stored_no_panic :
  (forall d, no_panic (zlib_inflate d)) /\ (forall d, no_panic (bunzip2 d)).
Proof.
  split; intros d; cbn; [|discriminate].
  destruct d as [|a [|b d]]; [discriminate..|]. destruct (_ && _); discriminate.
Defined.

Example ApplyFilters_safe_witness :
  no_panic (ApplyFilters (mkMessage 2 1 [mkInfo 32000 0 0 0 [] []]) [xff; xff; xff]).
Proof. apply ApplyFilters_safe; apply stored_no_panic. Defined.

Example written_message_unreadable_witness :
  exists msg, EncodePipelineMessage (mkPipeline [NewShuffleFilter 4]) = Ret msg /\
    is_err (let! m := ParseFilterPipelineMessage msg in ApplyFilters m [x01]) = true.
Proof.
  eexists. split; [vm_compute; reflexivity|].
  apply (written_message_unreadable (mkPipeline [NewShuffleFilter 4]));
    [apply stored_no_panic|apply stored_no_panic|split; [discriminate|reflexivity]|vm_compute; reflexivity].
Defined.
