(* ===== verification/ChunkedDataset.v ===== *)
(** * Chunked datasets: dataset_write_chunked.go and internal/core/dataset_reader.go

    [writeChunkedData] cuts the data into chunks, filters and stores them,
    writes the index and patches the object header; [readChunkedData] is the
    reader's side.  Both run on the components of the other files; the writer
    runs on any [Storage]. *)

From S2P Require Import Prelude Overflow Grid Chunks Allocator Storage BTreeV1 BTreeChunk Checksum Filters LZF Pipeline Superblock Messages.

(** ** Writing *)

Record DatasetWriter := mkDatasetWriter {
  address : Z;
  dataAddress : Z;
  dataSize : Z;
  dtypeSize : Z;
  dims : list Z;
  isChunked : bool;
  chunkCoordinator : ChunkCoordinator;
  dwChunkDims : list Z;
  pipeline : option FilterPipeline;
  layoutBTreeOffset : Z;
  headerSize : Z }.

(** Filters of one chunk, if a pipeline is configured. *)
Definition filterChunk (p : option FilterPipeline) (chunkData : bytes) : outcome bytes :=
  match p with
  | Some fp => if negb (IsEmpty fp) then pipelineApply fp chunkData else Ret chunkData
  | None => Ret chunkData
  end.

Section with_storage.
Context `{Storage St}.

(** The loop body for chunk [i]. *)
Definition writeChunk (dw : DatasetWriter) (buf : bytes) (i : Z) (s : ChunkBTreeWriter * St)
    : outcome (ChunkBTreeWriter * St) :=
  let '(btreeWriter, st) := s in
  let! coord := GetChunkCoordinate (chunkCoordinator dw) i in
  let! chunkData := ExtractChunkData (chunkCoordinator dw) buf coord (dtypeSize dw) in
  let! chunkData := filterChunk (pipeline dw) chunkData in
  let! (chunkAddr, st) := allocate st (len chunkData) in
  let! st := write_to st chunkData chunkAddr in
  let! btreeWriter := AddChunkWithSize btreeWriter coord chunkAddr (u32 (len chunkData)) in
  Ret (btreeWriter, st).

(** The index address goes into the layout message of the object header, whose
    checksum is then recomputed from the file. *)
Definition patchHeader (dw : DatasetWriter) (offsetSize btreeAddr : Z) (st : St) : outcome St :=
  if layoutBTreeOffset dw >? 0 then
    let! addrBuf := (if offsetSize =? 8 then Ret (le_put 8 btreeAddr)
                     else if offsetSize =? 4 then Ret (le_put 4 (u32 btreeAddr))
                     else Err "unsupported offset size") in
    let! st := write_to st addrBuf (layoutBTreeOffset dw) in
    let dataLen := u64 (headerSize dw - 4) in
    if dataLen >=? 2 ^ 63 then Panic
    else
      let! ohdrBuf := read_at (contents st) (i64 (address dw)) dataLen in
      let! newChecksum := JenkinsChecksum ohdrBuf in
      write_to st (le_put 4 newChecksum) (u64 (address dw + dataLen))
  else Ret st.

Definition writeChunkedData (dw : DatasetWriter) (offsetSize : Z) (buf : bytes) (st : St)
    : outcome (DatasetWriter * St) :=
  guard isChunked dw else "writeChunkedData called on non-chunked dataset";;
  guard len buf =? dataSize dw else "data size mismatch";;
  let elemSize := dtypeSize dw in
  let btreeWriter := NewChunkBTreeWriter (len (dims dw)) (dwChunkDims dw) elemSize in
  let totalChunks := GetTotalChunks (chunkCoordinator dw) in
  let! (btreeWriter, st) := for_loop (Z.to_nat totalChunks) 0 (writeChunk dw buf) (btreeWriter, st) in
  let! (btreeAddr, st) := WriteToFile btreeWriter st in
  let dw := mkDatasetWriter (address dw) btreeAddr (dataSize dw) (dtypeSize dw) (dims dw) (isChunked dw)
    (chunkCoordinator dw) (dwChunkDims dw) (pipeline dw) (layoutBTreeOffset dw) (headerSize dw) in
  let! st := patchHeader dw offsetSize btreeAddr st in
  Ret (dw, st).
End with_storage.

(** ** Reading *)

Section with_codecs.
Context `{C : Codecs}.

Definition unfilterChunk (p : option FilterPipelineMessage) (chunkData : bytes) : outcome bytes :=
  match p with Some fp => ApplyFilters fp chunkData | None => Ret chunkData end.

(** One chunk of the index, read and copied into the dataset's buffer. *)
Definition readChunk (file : bytes) (layout : DataLayoutMessage) (dataspace : DataspaceMessage) (elementSize : Z)
    (filterPipeline : option FilterPipelineMessage) (chunk : ChunkEntry) (rawData : bytes) : outcome bytes :=
  let chunkKey := Key chunk in
  let! _ := ValidateBufferSize (Nbytes chunkKey) MaxChunkSize "chunk data" in
  let! chunkData := read_at file (i64 (Address chunk)) (Nbytes chunkKey) in
  let! chunkData := unfilterChunk filterPipeline chunkData in
  let dataDims := Dimensions dataspace in
  let! actualChunkDims := slice (ChunkSize layout) 0 (len dataDims) in
  let! actualChunkCoords := slice (Scaled chunkKey) 0 (len dataDims) in
  copyChunkToArray chunkData rawData actualChunkCoords actualChunkDims dataDims elementSize.

Fixpoint readChunks (file : bytes) (layout : DataLayoutMessage) (dataspace : DataspaceMessage) (elementSize : Z)
    (filterPipeline : option FilterPipelineMessage) (chunks : list ChunkEntry) (rawData : bytes) : outcome bytes :=
  match chunks with
  | [] => Ret rawData
  | chunk :: rest =>
      let! rawData := readChunk file layout dataspace elementSize filterPipeline chunk rawData in
      readChunks file layout dataspace elementSize filterPipeline rest rawData
  end.

(** [fuel] bounds the height of the index tree. *)
Definition readChunkedData (fuel : nat) (file : bytes) (layout : DataLayoutMessage) (dataspace : DataspaceMessage)
    (elementSize : Z) (sb : Superblock) (filterPipeline : option FilterPipelineMessage) : outcome bytes :=
  let ndims := length (ChunkSize layout) in
  let! btree := ParseBTreeV1Node file (DataAddress layout) (OffsetSize sb) ndims (ChunkSize layout) in
  let! totalBytes := SafeMultiply (TotalElements dataspace) elementSize in
  let! _ := ValidateBufferSize totalBytes (MaxChunkSize * 1024) "dataset" in
  let rawData := zeros totalBytes in
  let! chunks := CollectAllChunks fuel file btree (OffsetSize sb) (ChunkSize layout) in
  readChunks file layout dataspace elementSize filterPipeline chunks rawData.
End with_codecs.

(** ** Patching stored bytes *)

Lemma stored_blit f a bs o d :
  0 <= o -> o + len d <= len bs -> stored f a bs -> stored (write_at f (a + o) d) a (blit bs o d).
Proof.
  intros Ho Hl (H1 & H2 & H3)%read_at_inv. pose proof (len_nonneg d). unfold stored. rewrite len_blit by done.
  rewrite read_at_ret by (rewrite ?len_write_at; lia). f_equal. apply list_eq. intros i.
  rewrite lookup_sub, lookup_blit by done. unfold write_at.
  apply (f_equal (fun l => l !! i)) in H3. rewrite lookup_sub in H3 by done.
  destruct (decide (Z.of_nat i < len bs)) as [Hi|Hi].
  - rewrite lookup_blit by len_lia. destruct (decide (o <= Z.of_nat i < o + len d)).
    + rewrite decide_True by lia. f_equal. lia.
    + rewrite decide_False by lia. rewrite H3. rewrite lookup_app_l by (unfold len in *; lia). done.
  - rewrite decide_False by lia. rewrite lookup_ge_None_2; [done|unfold len in Hi; lia].
Qed.

Lemma blit_app_l {A} (l k : list A) o d : 0 <= o -> o + len d <= len l -> blit (l ++ k) o d = blit l o d ++ k.
Proof.
  intros Ho Hl. pose proof (len_nonneg d). unfold blit, len in *.
  rewrite take_app_le, drop_app_le, <- !app_assoc by lia. done.
Qed.

(** A write inside a block keeps the blocks disjoint from it. *)
Lemma write_inside_keeps f b a data own :
  0 <= a -> Offset b <= a -> a + len data <= bend b -> Forall (disjoint_blocks b) own -> keeps f (write_at f a data) own.
Proof.
  intros Ha H1 H2 Hd. apply write_keeps; [done|]. eapply Forall_impl; [exact Hd|].
  unfold disjoint_blocks, bend. cbn. intros c Hc. cbn in Hc. unfold bend in H2. lia.
Qed.

(** ** The header patch *)

Lemma patchHeader_ok `{SL : StorageLaws St} (dw : DatasetWriter) root st m o (hdr : bytes)
    (b := mkBlock (address dw) (headerSize dw)) :
  usable st m -> b ∈ owned st -> stored (contents st) (address dw) hdr -> len hdr = headerSize dw ->
  layoutBTreeOffset dw = address dw + o -> 0 < layoutBTreeOffset dw -> 0 <= o -> o + 8 <= headerSize dw - 4 ->
  exists st' c, let head := blit (take (Z.to_nat (headerSize dw - 4)) hdr) o (le_put 8 root) in
    patchHeader dw 8 root st = Ret st' /\ usable st' m /\ owned st' = owned st /\
    JenkinsChecksum head = Ret c /\ stored (contents st') (address dw) (head ++ le_put 4 c) /\
    forall own, Forall (disjoint_blocks b) own -> keeps (contents st) (contents st') own.
Proof.
  intros Hu Hb Hst Hl Ho Hpos Ho0 Ho8. destruct (owned_range st m b Hu Hb) as (Ha & Hs & He).
  unfold bend, b in Ha, Hs, He. cbn [Offset Size] in Ha, Hs, He.
  set (h0 := take (Z.to_nat (headerSize dw - 4)) hdr). set (t := drop (Z.to_nat (headerSize dw - 4)) hdr).
  assert (Eh : hdr = h0 ++ t) by (subst h0 t; by rewrite take_drop).
  assert (Hl0 : len h0 = headerSize dw - 4) by (subst h0; rewrite len_take; lia).
  assert (Hlt : len t = 4) by (rewrite Eh, len_app in Hl; lia).
  set (head := blit h0 o (le_put 8 root)). assert (Hlh : len head = headerSize dw - 4).
  { subst head. rewrite len_blit; [done|done|rewrite len_le_put; lia]. }
  destruct (jenkinsLookup3_ret head 0) as (c & Ec & Hc).
  destruct (write_law st m (le_put 8 root) (layoutBTreeOffset dw) Hu) as (st1 & E1 & Hu1 & Ho1 & Hc1);
    [lia|by rewrite len_le_put|].
  assert (Hst1 : stored (contents st1) (address dw) (head ++ t)).
  { rewrite Hc1, Ho. subst head. rewrite <- blit_app_l by (rewrite ?len_le_put; lia). rewrite <- Eh.
    apply stored_blit; [done|rewrite len_le_put; lia|done]. }
  destruct (write_law st1 m (le_put 4 c) (address dw + (headerSize dw - 4)) Hu1) as (st2 & E2 & Hu2 & Ho2 & Hc2);
    [lia|by rewrite len_le_put|].
  exists st2, c. cbv zeta. fold h0. fold head. split_and!; [|done|congruence|exact Ec| |].
  - unfold patchHeader. destruct (Z.gtb_spec (layoutBTreeOffset dw) 0); [|lia]. cbn [Z.eqb Pos.eqb obind].
    rewrite E1. cbn [obind]. rewrite (u64_id (headerSize dw - 4)) by (unfold is_u; lia). cbv zeta.
    destruct (Z.geb_spec (headerSize dw - 4) (2 ^ 63)); [lia|]. rewrite i64_id by lia.
    pose proof (stored_part (contents st1) (address dw) [] head t Hst1) as Hr. rewrite len_nil, Z.add_0_r, Hlh in Hr.
    rewrite Hr. cbn [obind]. unfold JenkinsChecksum. rewrite Ec. cbn [obind].
    by rewrite u64_id by (unfold is_u; lia).
  - rewrite Hc2. replace (head ++ le_put 4 c) with (blit (head ++ t) (headerSize dw - 4) (le_put 4 c))
      by (apply blit_end; [by rewrite Hlh|by rewrite len_le_put]).
    apply stored_blit; [lia|rewrite len_app, len_le_put; lia|done].
  - intros own Hd. apply (keeps_trans _ (contents st1) _ _ own); [done| |].
    + rewrite Hc1. apply (write_inside_keeps _ b); unfold bend, b; cbn [Offset Size]; rewrite ?len_le_put; done || lia.
    + rewrite Hc2. apply (write_inside_keeps _ b); unfold bend, b; cbn [Offset Size]; rewrite ?len_le_put; done || lia.
Qed.

(** ** Writing the chunks *)

Section roundtrip.
Context `{SL : StorageLaws St} `{C : Codecs}.
Context (ds cs : list Z) (es B : Z) (buf : bytes) (wp : option FilterPipeline) (rp : option FilterPipelineMessage).
Let nums := zip_with chunksIn ds cs.
Let cc := mkCoordinator ds cs nums.

(** The dataset: dimensions whose chunk grid does not wrap, inner dimensions
    that are multiples of the chunk's, data that fit the reader's limit. *)
Record dataset_ok : Prop := {
  ok_dims : dims_ok ds cs;
  ok_exact : inner_exact ds cs;
  ok_es : 0 < es < 2 ^ 32;
  ok_len : len buf = prod ds * es;
  ok_max : len buf <= MaxChunkSize * 1024 }.

(** The filters the writer applies to a chunk are undone by the reader's, and
    what is stored of a chunk has 1 to [B] bytes. *)
Definition filters_ok : Prop :=
  forall coord chunk, in_box nums coord -> ExtractChunkData cc buf coord es = Ret chunk ->
    exists s, filterChunk wp chunk = Ret s /\ unfilterChunk rp s = Ret chunk /\ 0 < len s <= B.

Hypothesis Hds : dataset_ok.
Hypothesis Hfl : filters_ok.
Hypothesis HB : B <= MaxChunkSize.

Local Lemma HB32 : B < 2 ^ 32.
Proof. unfold MaxChunkSize in HB. lia. Qed.

Local Lemma buf_lt : len buf < 2 ^ 64.
Proof. destruct Hds as [_ _ _ _ Hm]. unfold MaxChunkSize in Hm. lia. Qed.

Local Lemma extract_ret coord :
  in_box nums coord -> exists chunk, ExtractChunkData cc buf coord es = Ret chunk.
Proof.
  intros Hb. destruct Hds as [Hok Hex Hes Hl _].
  destruct (chunk_back ds cs Hok coord es buf buf Hex Hb) as (chunk & full' & E & _); eauto using buf_lt; lia.
Qed.

(** Chunk [e] of the index is stored. *)
Record chunk_done (f : bytes) (own : list block) (e : ChunkBTreeEntry) : Prop := {
  done_coord : in_box nums (Coordinate e);
  done_stored : exists chunk s, ExtractChunkData cc buf (Coordinate e) es = Ret chunk /\
    unfilterChunk rp s = Ret chunk /\ len s = eNbytes e /\ stored f (eAddress e) s;
  done_size : 0 < eNbytes e <= B;
  done_addr : 0 <= eAddress e /\ eAddress e + eNbytes e < 2 ^ 63;
  done_own : mkBlock (eAddress e) (eNbytes e) ∈ own }.

Lemma chunk_done_mono f f' own own' e :
  keeps f f' own -> own ⊆ own' -> chunk_done f own e -> chunk_done f' own' e.
Proof.
  intros Hk Hs [Hc (chunk & s & H1 & H2 & H3 & H4) ? ? Ho]. split; [done| |done|done|by apply Hs].
  exists chunk, s. split_and!; try done. by apply (Hk (mkBlock (eAddress e) (eNbytes e))).
Qed.

(** The grid coordinates in the order of the loop. *)
Definition listed (l : list ChunkBTreeEntry) : Prop :=
  forall k e, l !! k = Some e -> lin nums (Coordinate e) = Z.of_nat k.

Context (dw : DatasetWriter).
Hypothesis Hcc : chunkCoordinator dw = cc.
Hypothesis Hpipe : pipeline dw = wp.
Hypothesis Hels : dtypeSize dw = es.

Local Lemma total_chunks :
  0 < prod nums < 2 ^ 64 /\ GetTotalChunks cc = prod nums /\
  forall i, 0 <= i < prod nums -> exists c, GetChunkCoordinate cc i = Ret c /\ in_box nums c /\ lin nums c = i.
Proof.
  destruct Hds as [Hok _ Hes Hl _]. pose proof buf_lt. pose proof (prod_numChunks_le ds cs Hok) as Hle.
  pose proof (prod_pos _ (numChunks_pos ds cs Hok)) as Hp. fold nums in Hle, Hp.
  assert (prod nums < 2 ^ 64) by nia. split; [lia|]. split; [by apply GetTotalChunks_ok|].
  intros i Hi. by apply GetChunkCoordinate_ok.
Qed.

(** The loop has stored the first [i] chunks. *)
Definition loop_inv (st0 : St) (R i : Z) (s : ChunkBTreeWriter * St) : Prop :=
  exists l own, s.1 = mkBWriter (len ds) cs es l /\ len l = i /\ usable s.2 (R - i * B) /\
    owned s.2 = owned st0 ++ own /\ keeps (contents st0) (contents s.2) (owned st0) /\
    Forall (chunk_done (contents s.2) own) l /\ listed l.

Lemma listed_snoc l e : listed l -> lin nums (Coordinate e) = len l -> listed (l ++ [e]).
Proof.
  intros Hl He k e' Hk. apply lookup_app_Some in Hk as [Hk|[Hle Hk]]; [by apply Hl|].
  apply list_lookup_singleton_Some in Hk as [Hk <-]. rewrite He. unfold len. lia.
Qed.

Lemma writeChunk_ok st0 R i s :
  0 <= i < prod nums -> prod nums * B <= R -> loop_inv st0 R i s ->
  exists s', writeChunk dw buf i s = Ret s' /\ loop_inv st0 R (i + 1) s'.
Proof.
  intros Hi HR. destruct s as [w st]. intros (l & own & Hw & Hll & Hu & Ho & Hk & Hd & Hli). cbn [fst snd] in *.
  unfold writeChunk. rewrite Hcc, Hels, Hpipe. destruct total_chunks as (_ & _ & Hco).
  destruct (Hco i Hi) as (coord & Ec & Hb & Hlin). rewrite Ec. cbn [obind].
  destruct (extract_ret coord Hb) as [chunk Ex]. rewrite Ex. cbn [obind].
  destruct (Hfl coord chunk Hb Ex) as (sd & Es & Eu & Hs). rewrite Es. cbn [obind].
  pose proof HB32. destruct (allocate_law st _ (len sd) Hu) as (a & st1 & Ea & Hu1 & Hc1 & Ho1 & Hdis); [nia|].
  rewrite Ea. cbn [obind].
  destruct (owned_range st1 _ (mkBlock a (len sd)) Hu1) as (Ha1 & _ & Ha2); [rewrite Ho1; set_solver|].
  unfold bend in Ha2. cbn [Offset Size] in Ha1, Ha2.
  destruct (write_law st1 _ sd a Hu1) as (st2 & Ew & Hu2 & Ho2 & Hc2); [lia|lia|]. rewrite Ew. cbn [obind].
  rewrite Hc1 in Hc2. assert (Hkw : keeps (contents st) (contents st2) (owned st)) by (rewrite Hc2; by apply write_keeps).
  rewrite Ho in Hkw, Hdis. rewrite (u32_id (len sd)) by (unfold is_u; lia).
  unfold AddChunkWithSize. rewrite Hw. cbn [dimensionality bChunkDims elementSize entries].
  assert (Hlc : len coord = len ds).
  { apply in_box_length in Hb. unfold len. unfold nums in Hb. rewrite length_zip_with in Hb.
    pose proof (Forall2_length _ _ _ (dims_at _ _ (ok_dims Hds))). lia. }
  rewrite Hlc, Z.eqb_refl. cbn [obind].
  eexists. split; [done|]. exists (l ++ [mkWEntry coord a (len sd)]), (own ++ [mkBlock a (len sd)]). cbn [fst snd].
  split_and!.
  - done.
  - rewrite len_app, Hll. done.
  - eapply usable_mono; [exact Hu2|]. lia.
  - by rewrite Ho2, Ho1, Ho, app_assoc.
  - eapply keeps_trans; [|exact Hk|exact Hkw]. set_solver.
  - apply Forall_app. split.
    + eapply Forall_impl; [exact Hd|]. intros e He. eapply chunk_done_mono; [|apply (list_subseteq_app_l own _ _); reflexivity|exact He].
      eapply keeps_sub; [|exact Hkw]. set_solver.
    + constructor; [|done]. split; cbn; try done; try lia; [|set_solver].
      exists chunk, sd. split_and!; try done. rewrite Hc2. by apply stored_write.
  - apply listed_snoc; [done|]. cbn. by rewrite Hlin, Hll.
Qed.

Lemma writeChunks_ok st0 R :
  usable st0 R -> prod nums * B <= R ->
  exists l own st, for_loop (Z.to_nat (prod nums)) 0 (writeChunk dw buf) (mkBWriter (len ds) cs es [], st0) =
      Ret (mkBWriter (len ds) cs es l, st) /\
    len l = prod nums /\ usable st (R - prod nums * B) /\ owned st = owned st0 ++ own /\
    keeps (contents st0) (contents st) (owned st0) /\ Forall (chunk_done (contents st) own) l /\ listed l.
Proof.
  intros Hu HR. destruct total_chunks as (Hn & _ & _).
  destruct (for_loop_inv (loop_inv st0 R) (Z.to_nat (prod nums)) 0 (writeChunk dw buf) (mkBWriter (len ds) cs es [], st0))
    as ([w st] & E & l & own & Hw & Hl & Hu' & Ho & Hk & Hd & Hli).
  - exists [], []. cbn [fst snd]. rewrite Z.mul_0_l, Z.sub_0_r, app_nil_r. split_and!; try done; apply keeps_refl || constructor.
  - intros j t Hj Ht. apply writeChunk_ok; [lia|done|done].
  - cbn [fst snd] in *. subst w. rewrite Z.add_0_l, Z2Nat.id in * by lia. exists l, own, st. by rewrite E.
Qed.

Lemma listed_complete l c :
  listed l -> len l = prod nums -> Forall (fun e => in_box nums (Coordinate e)) l -> in_box nums c ->
  c ∈ map Coordinate l.
Proof.
  intros Hl Hn Hb Hc. pose proof (lin_range _ _ Hc) as Hr.
  destruct (idx_some l (Z.to_nat (lin nums c))) as [e He]; [unfold len in Hn; lia|].
  pose proof (Hl _ _ He) as Hlin. rewrite Z2Nat.id in Hlin by lia.
  pose proof (proj1 (Forall_lookup _ _) Hb _ _ He) as Hbe. cbn in Hbe.
  apply (lin_inj _ _ _ Hbe Hc) in Hlin as <-. apply list_elem_of_fmap. exists e. split; [done|].
  by apply list_elem_of_lookup_2 in He.
Qed.

Lemma chunk_done_entry f own e : chunk_done f own e -> entry_ok cs e.
Proof.
  intros [Hb _ Hs Ha _]. pose proof HB32. destruct Hds as [Hok _ _ _ _].
  split; [unfold is_u; lia|unfold is_u; lia|].
  apply Forall2_same_length_lookup. destruct (Chunks.grid_lengths ds cs Hok (Coordinate e) Hb) as [L1 L2].
  split; [lia|]. intros i x c Hx Hc. destruct (idx_some ds i) as [d Hd]; [apply lookup_lt_Some in Hx; lia|].
  destruct (Chunks.grid_at ds cs Hok _ i d Hb Hd) as (c' & x' & Hc' & Hx' & ? & ? & ? & _). simplify_eq.
  pose proof (Forall2_lookup_lr _ _ _ _ _ _ (dims_at _ _ Hok) Hd Hc) as Hdc. cbn in Hdc. lia.
Qed.

(** ** Reading the chunks *)

Lemma readChunk_ok f own layout dataspace e full :
  chunk_done f own e -> ChunkSize layout = cs ++ [es] -> Dimensions dataspace = ds -> len full = len buf ->
  exists full', readChunk f layout dataspace es rp (entryOf e) full = Ret full' /\ len full' = len buf /\
    forall c k, in_box nums c -> in_box (sizeOf cc c) k ->
      elem es full (lin ds (vadd (corner c cs) k)) = elem es buf (lin ds (vadd (corner c cs) k)) \/ c = Coordinate e ->
      elem es full' (lin ds (vadd (corner c cs) k)) = elem es buf (lin ds (vadd (corner c cs) k)).
Proof.
  intros [Hb (chunk & s & Ex & Eu & Hs & Hst) Hsz Ha _] Hcs Hdd Hfull. destruct Hds as [Hok Hexact Hes Hl _].
  destruct (chunk_back ds cs Hok (Coordinate e) es buf full Hexact Hb) as
    (chunk' & full' & Ex' & _ & Ec & Hlf & Hin & Hout); [lia|done|apply buf_lt|done|].
  pose proof (eq_trans (eq_sym Ex') Ex) as Eq. injection Eq as ->. exists full'. split; [|split; [congruence|]].
  - unfold readChunk, entryOf. cbn [Key Nbytes Address Scaled]. unfold ValidateBufferSize, MaxChunkSize in *.
    destruct (Z.eqb_spec (eNbytes e) 0); [lia|]. cbn [negb].
    destruct (Z.gtb_spec (eNbytes e) (1024 * 1024 * 1024)); [lia|]. cbn [negb obind].
    rewrite i64_id by lia. unfold stored in Hst. rewrite Hs in Hst. rewrite Hst. cbn [obind]. rewrite Eu. cbn [obind].
    destruct (Chunks.grid_lengths ds cs Hok (Coordinate e) Hb) as [L1 L2].
    rewrite Hcs, Hdd. rewrite (slice_at _ [] cs [es]) by (done || (unfold len; lia)). cbn [obind].
    rewrite (slice_at _ [] (Coordinate e) [0]) by (done || (unfold len; lia)). exact Ec.
  - intros c k Hc Hk [Hold| ->]; [|by apply Hin].
    destruct (decide (c = Coordinate e)) as [-> |Hne]; [by apply Hin|].
    destruct (grid_in ds cs Hok c k Hc Hk) as [Hp _]. rewrite Hout; [done|done|].
    intros k' Hk' E. by destruct (grid_disjoint ds cs Hok c (Coordinate e) k k' Hc Hb Hk Hk' E).
Qed.

Lemma readChunks_ok f own layout dataspace l :
  Forall (chunk_done f own) l -> ChunkSize layout = cs ++ [es] -> Dimensions dataspace = ds ->
  forall full, len full = len buf ->
  exists full', readChunks f layout dataspace es rp (map entryOf l) full = Ret full' /\ len full' = len buf /\
    forall c k, in_box nums c -> in_box (sizeOf cc c) k ->
      elem es full (lin ds (vadd (corner c cs) k)) = elem es buf (lin ds (vadd (corner c cs) k)) \/ c ∈ map Coordinate l ->
      elem es full' (lin ds (vadd (corner c cs) k)) = elem es buf (lin ds (vadd (corner c cs) k)).
Proof.
  intros Hd Hcs Hdd. induction Hd as [|e l He Hd IH]; intros full Hfull; cbn [map readChunks].
  - exists full. split; [done|]. split; [done|]. intros c k _ _ [?|Hn]; [done|]. by apply not_elem_of_nil in Hn.
  - destruct (readChunk_ok f own layout dataspace e full He Hcs Hdd Hfull) as (full1 & -> & Hl1 & H1). cbn [obind].
    destruct (IH full1 Hl1) as (full2 & E & Hl2 & H2). exists full2. split; [exact E|]. split; [done|].
    intros c k Hc Hk Hor. apply (H2 c k Hc Hk). rewrite elem_of_cons in Hor.
    destruct (decide (c ∈ map Coordinate l)); [by right|]. left. apply (H1 c k Hc Hk). naive_solver.
Qed.

(** All chunks read back give the data. *)
Lemma readChunks_all f own layout dataspace l :
  Forall (chunk_done f own) l -> (forall c, in_box nums c -> c ∈ map Coordinate l) ->
  ChunkSize layout = cs ++ [es] -> Dimensions dataspace = ds ->
  readChunks f layout dataspace es rp (map entryOf l) (zeros (len buf)) = Ret buf.
Proof.
  intros Hd Hall Hcs Hdd. pose proof (len_nonneg buf).
  destruct (readChunks_ok f own layout dataspace l Hd Hcs Hdd (zeros (len buf))) as (full & -> & Hl & Hf);
    [by rewrite len_zeros|]. f_equal. destruct Hds as [Hok _ Hes Hlen _].
  apply (elem_ext es (prod ds)); [lia|lia|lia|]. intros i Hi.
  destruct (lin_surj ds i) as (p & Hp & <-); [|done|].
  { eapply Forall2_Forall_l; [exact (dims_at _ _ Hok)|]. apply Forall_forall. intros c _ d ?. naive_solver. }
  destruct (grid_cover ds cs Hok p Hp) as (c & k & Hc & Hk & ->). apply Hf; [done|done|]. right. by apply Hall.
Qed.

(** The reader on a file that holds the chunks and their index. *)
Lemma readChunkedData_ok f own l top ownT root layout dataspace sb fuel :
  Forall (chunk_done f own) l -> listed l -> len l = prod nums ->
  built top f ownT (S (length cs)) cs (cs ++ [es]) root (map entryOf (sortEntries l)) -> (top < fuel)%nat ->
  DataAddress layout = root -> ChunkSize layout = cs ++ [es] -> dsType dataspace = DataspaceSimple ->
  Dimensions dataspace = ds -> OffsetSize sb = 8 ->
  readChunkedData fuel f layout dataspace es sb rp = Ret buf.
Proof.
  intros Hd Hli Hl Hb Htop Hroot Hcs Hty Hdim Hsb. unfold readChunkedData. rewrite Hroot, Hcs, Hsb.
  destruct total_chunks as (Hn & _ & _). pose proof buf_lt as Hlt.
  assert (Hps : sortEntries l ≡ₚ l) by apply merge_sort_Permutation.
  assert (Hr : readChunks f layout dataspace es rp (map entryOf (sortEntries l)) (zeros (len buf)) = Ret buf).
  { apply (readChunks_all f own); [by rewrite Hps| |done|done]. intros c Hc. rewrite Hps.
    apply listed_complete; [done|done| |done]. eapply Forall_impl; [exact Hd|]. by intros e [? _ _ _ _]. }
  destruct Hds as [Hok _ Hes Hlen Hm]. pose proof (prod_numChunks_le ds cs Hok) as Hle. fold nums in Hle.
  apply built_indexes in Hb; [|rewrite length_app; cbn; lia|].
  2: { apply Forall_app. split; [|repeat constructor; lia]. eapply Forall2_Forall_r; [exact (dims_at _ _ Hok)|].
       apply Forall_forall. intros d _ c' ?. naive_solver. }
  destruct (CollectAllChunks_ok _ _ _ _ _ fuel Hb Htop) as (node & -> & Hcol). cbn [obind].
  assert (Hte : TotalElements dataspace = prod ds).
  { unfold TotalElements. rewrite Hty, Hdim. cbn [DataspaceSimple DataspaceNull DataspaceScalar Z.eqb Pos.eqb].
    rewrite mulAll_1. apply u64_id. unfold is_u. nia. }
  rewrite Hte, SafeMultiply_eq by (unfold is_u; nia). rewrite <- Hlen.
  destruct (Z.ltb_spec (len buf) (2 ^ 64)); [|lia]. cbn [obind]. unfold ValidateBufferSize.
  destruct (Z.eqb_spec (len buf) 0); [nia|]. cbn [negb].
  destruct (Z.gtb_spec (len buf) (MaxChunkSize * 1024)); [lia|]. cbn [negb obind]. rewrite Hcol. exact Hr.
Qed.
End roundtrip.

(** ** The dataset as a whole *)

(** The reader's description of the writer's pipeline; GZIP chunks are not
    readable (Pipeline.v). *)
Definition same_pipeline (wp : option FilterPipeline) (rp : option FilterPipelineMessage) : Prop :=
  match wp with
  | None => rp = None
  | Some fp => rp = Some (mkMessage 1 (Count fp) (map infoOf (filters fp))) /\
               Forall (fun f => ID f <> FilterGZIP) (filters fp)
  end.

(** Every chunk is in the domain of the filters and is stored in 1 to [B] bytes. *)
Definition chunks_accepted `{Codecs} (ds cs : list Z) (es B : Z) (buf : bytes) (wp : option FilterPipeline) : Prop :=
  let nums := zip_with chunksIn ds cs in
  forall coord chunk, in_box nums coord -> ExtractChunkData (mkCoordinator ds cs nums) buf coord es = Ret chunk ->
    (forall fp, wp = Some fp -> accepts (filters fp) chunk) /\
    (forall s, filterChunk wp chunk = Ret s -> 0 < len s <= B).

Lemma filters_ok_pipeline `{C : Codecs} `{CL : !CodecLaws C} ds cs es B buf wp rp :
  same_pipeline wp rp -> chunks_accepted ds cs es B buf wp -> filters_ok ds cs es B buf wp rp.
Proof.
  intros Hs Ha coord chunk Hb Ex. destruct (Ha coord chunk Hb Ex) as [Hacc Hlen].
  destruct wp as [fp|]; cbn in Hs.
  - destruct Hs as [-> Hg]. destruct (pipeline_reader_inverse _ _ (Hacc fp eq_refl) Hg) as (s & E1 & E2).
    assert (Ef : filterChunk (Some fp) chunk = Ret s).
    { cbn. unfold IsEmpty. destruct (Z.eqb_spec (len (filters fp)) 0) as [E0|_]; cbn [negb]; [|exact E1].
      apply len_0_nil in E0. by rewrite E0 in E1. }
    exists s. split; [done|]. split; [|by apply Hlen].
    unfold unfilterChunk, ApplyFilters. cbn [Filters]. rewrite len_map.
    destruct (Z.eqb_spec (len (filters fp)) 0) as [E0|_]; [|exact E2].
    apply len_0_nil in E0. rewrite E0 in E2. exact E2.
  - subst rp. exists chunk. split_and!; try done; by apply Hlen.
Qed.

(** The chunks of the dataset and their index are in the file. *)
Definition chunks_stored `{C : Codecs} (ds cs : list Z) (es B : Z) (buf : bytes) (rp : option FilterPipelineMessage)
    (f : bytes) (root : Z) : Prop :=
  exists l own top ownT, Forall (chunk_done ds cs es B buf rp f own) l /\ listed ds cs l /\
    len l = prod (zip_with chunksIn ds cs) /\ (top < 256)%nat /\
    built top f ownT (S (length cs)) cs (cs ++ [es]) root (map entryOf (sortEntries l)).

(** The same, with the chunks [l], none of them nor the index below [lo], and the
    bytes of the node where one is enough. *)
Record chunks_listed `{C : Codecs} (lo : Z) (ds cs : list Z) (es B : Z) (buf : bytes) (rp : option FilterPipelineMessage)
    (f : bytes) (root : Z) (l : list ChunkBTreeEntry) : Prop := {
  cl_done : exists own, Forall (chunk_done ds cs es B buf rp f own) l;
  cl_listed : listed ds cs l;
  cl_count : len l = prod (zip_with chunksIn ds cs);
  cl_built : exists top ownT, (top < 256)%nat /\ built top f ownT (S (length cs)) cs (cs ++ [es]) root (map entryOf (sortEntries l));
  cl_leaf : len l <= 64 -> stored f root (layout (S (length cs)) cs (singleLeaf (len ds) cs es l));
  cl_above : lo <= root /\ Forall (fun e => lo <= eAddress e) l }.

Lemma chunks_listed_stored `{C : Codecs} lo ds cs es B buf rp f root l :
  chunks_listed lo ds cs es B buf rp f root l -> chunks_stored ds cs es B buf rp f root.
Proof. intros [[own Hd] Hl Hc (top & ownT & Ht & Hb) _ _]. by exists l, own, top, ownT. Qed.

Lemma writeChunkedData_listed `{SL : StorageLaws St} `{C : Codecs} `{CL : !CodecLaws C}
    ds cs es B buf wp rp addr da o hdr st :
  let nums := zip_with chunksIn ds cs in
  let dw := mkDatasetWriter addr da (len buf) es ds true (mkCoordinator ds cs nums) cs wp (addr + o) (len hdr) in
  dataset_ok ds cs es buf -> same_pipeline wp rp -> chunks_accepted ds cs es B buf wp -> B <= MaxChunkSize ->
  nodeBytes (len ds + 1) < 2 ^ 63 -> usable st (prod nums * (B + 2 * nodeBytes (len ds + 1))) ->
  mkBlock addr (len hdr) ∈ owned st -> stored (contents st) addr hdr -> 0 < addr + o -> 0 <= o -> o + 12 <= len hdr ->
  exists root st' c l, let head := blit (take (Z.to_nat (len hdr - 4)) hdr) o (le_put 8 root) in
    writeChunkedData dw 8 buf st =
      Ret (mkDatasetWriter addr root (len buf) es ds true (mkCoordinator ds cs nums) cs wp (addr + o) (len hdr), st') /\
    JenkinsChecksum head = Ret c /\ stored (contents st') addr (head ++ le_put 4 c) /\
    chunks_listed first_address ds cs es B buf rp (contents st') root l /\
    (forall rest, owned st ≡ₚ mkBlock addr (len hdr) :: rest -> keeps (contents st) (contents st') rest).
Proof.
  intros nums dw Hds Hsp Hacc HB Hns Hu Hin Hst Hpos Ho0 Ho12.
  pose proof (filters_ok_pipeline ds cs es B buf wp rp Hsp Hacc) as Hfl.
  destruct (total_chunks ds cs es buf Hds) as (Hn & Htot & _). fold nums in Hn, Htot.
  set (N := nodeBytes (len ds + 1)) in *.
  assert (HN : 0 < N) by (subst N; unfold nodeBytes, chunkBTreeK; pose proof (len_nonneg ds); lia).
  destruct (writeChunks_ok ds cs es B buf wp rp Hds Hfl HB dw eq_refl eq_refl eq_refl st _ Hu)
    as (l & ownC & st1 & E1 & Hl & Hu1 & Ho1 & Hk1 & Hd1 & Hli).
  { fold nums. destruct (Z.le_gt_cases 0 B); nia. }
  fold nums in E1, Hl, Hu1, Hd1, Hli.
  assert (Hcl : len ds = len cs) by (unfold len; by rewrite (Forall2_length _ _ _ (dims_at _ _ (ok_dims _ _ _ _ Hds)))).
  destruct (WriteToFile_ok (mkBWriter (len ds) cs es l) es st1 0) as
    (root & st2 & top & ownT & E2 & Hu2 & Ho2 & Hk2 & Htop & Hb2 & Hleaf); cbn [dimensionality bChunkDims BTreeChunk.entries].
  { done. }
  { done. }
  { eapply Forall_impl; [exact Hd1|]. intros e He. by eapply (chunk_done_entry ds cs es B buf rp Hds HB). }
  { intros ->. unfold len in Hl. cbn in Hl. lia. }
  { rewrite Hl. pose proof (prod_numChunks_le ds cs (ok_dims _ _ _ _ Hds)) as Hle. fold nums in Hle.
    destruct Hds as [_ _ Hes Hlen Hm]. unfold MaxChunkSize in Hm. nia. }
  { fold N. rewrite Hl. eapply usable_mono; [exact Hu1|]. lia. }
  { done. }
  cbn [bChunkDims BTreeChunk.entries] in E2, Hb2, Hleaf. cbn [dimensionality bChunkDims BTreeChunk.entries elementSize] in Hleaf.
  set (dw' := mkDatasetWriter addr root (len buf) es ds true (mkCoordinator ds cs nums) cs wp (addr + o) (len hdr)).
  assert (Hown : owned st2 = owned st ++ ownC ++ ownT) by by rewrite Ho2, Ho1, app_assoc.
  assert (Hst2 : stored (contents st2) addr hdr).
  { apply (Hk2 (mkBlock addr (len hdr))); [rewrite Ho1; set_solver|done|].
    by apply (Hk1 (mkBlock addr (len hdr))). }
  destruct (patchHeader_ok dw' root st2 0 o hdr Hu2) as (st3 & c & E3 & Hu3 & Ho3 & Hc & Hst3 & Hk3);
    [rewrite Hown; set_solver|exact Hst2|done|done|exact Hpos|done|cbn; lia|].
  destruct (elem_of_Permutation (owned st) (mkBlock addr (len hdr))) as [Hperm _]. destruct (Hperm Hin) as [rest0 Hrest0].
  assert (Hdis : Forall (disjoint_blocks (mkBlock addr (len hdr))) (rest0 ++ ownC ++ ownT)).
  { apply (owned_disjoint st2 0 _ _ Hu2). by rewrite Hown, Hrest0. }
  exists root, st3, c, l. cbv zeta. split_and!.
  - unfold writeChunkedData, dw in *. cbn [isChunked dataSize dtypeSize dims dwChunkDims chunkCoordinator]. rewrite Z.eqb_refl, Htot.
    cbn [negb]. unfold NewChunkBTreeWriter. rewrite E1. cbn [obind]. rewrite E2. cbn [obind address pipeline layoutBTreeOffset headerSize].
    fold dw'. by rewrite E3.
  - exact Hc.
  - exact Hst3.
  - apply Forall_app in Hdis as [_ Hdis]. apply Forall_app in Hdis as [HdC HdT].
    assert (Hd3 : Forall (chunk_done ds cs es B buf rp (contents st3) ownC) l).
    { eapply Forall_impl; [exact Hd1|]. intros e He.
      eapply chunk_done_mono; [|reflexivity|eapply chunk_done_mono; [|reflexivity|exact He]]; [by apply Hk3|].
      eapply keeps_sub; [|exact Hk2]. rewrite Ho1. set_solver. }
    assert (Hblk : mkBlock root (nodeBytes (Z.of_nat (S (length cs)))) ∈ ownT) by (by destruct top; destruct Hb2 as (node & _ & Hin2 & _)).
    constructor; [by exists ownC|exact Hli|exact Hl| | |].
    + exists top, ownT. split; [exact Htop|]. eapply built_mono; [by apply Hk3|reflexivity|exact Hb2].
    + intros H64. apply (Hk3 ownT HdT (mkBlock root (nodeBytes (Z.of_nat (S (length cs)))))); [exact Hblk| |by apply Hleaf].
      rewrite len_layout; [done|]. apply singleLeaf_ok; [|fold nums in Hl; lia].
      eapply Forall_impl; [exact Hd1|]. intros e He. by eapply (chunk_done_entry ds cs es B buf rp Hds HB).
    + split; [apply (owned_from _ _ (mkBlock root (nodeBytes (Z.of_nat (S (length cs))))) Hu2); rewrite Hown; set_solver|].
      eapply Forall_impl; [exact Hd1|]. intros e [_ _ _ _ He].
      apply (owned_from _ _ (mkBlock (eAddress e) (eNbytes e)) Hu2). rewrite Hown. set_solver.
  - intros rest Hrest. assert (Hrr : rest0 ≡ₚ rest) by (apply (Permutation_cons_inv (a:=mkBlock addr (len hdr))); by rewrite <- Hrest0).
    assert (Hsub : rest ⊆ owned st) by (rewrite Hrest; set_solver).
    eapply keeps_trans; [reflexivity|eapply keeps_sub; [exact Hsub|exact Hk1]|].
    eapply keeps_trans; [reflexivity|eapply keeps_sub; [|exact Hk2]; rewrite Ho1; set_solver|].
    apply Hk3. apply Forall_app in Hdis as [Hdis _]. by rewrite <- Hrr.
Qed.

Lemma writeChunkedData_ok `{SL : StorageLaws St} `{C : Codecs} `{CL : !CodecLaws C}
    ds cs es B buf wp rp addr da o hdr st :
  let nums := zip_with chunksIn ds cs in
  let dw := mkDatasetWriter addr da (len buf) es ds true (mkCoordinator ds cs nums) cs wp (addr + o) (len hdr) in
  dataset_ok ds cs es buf -> same_pipeline wp rp -> chunks_accepted ds cs es B buf wp -> B <= MaxChunkSize ->
  nodeBytes (len ds + 1) < 2 ^ 63 -> usable st (prod nums * (B + 2 * nodeBytes (len ds + 1))) ->
  mkBlock addr (len hdr) ∈ owned st -> stored (contents st) addr hdr -> 0 < addr + o -> 0 <= o -> o + 12 <= len hdr ->
  exists root st' c, let head := blit (take (Z.to_nat (len hdr - 4)) hdr) o (le_put 8 root) in
    writeChunkedData dw 8 buf st =
      Ret (mkDatasetWriter addr root (len buf) es ds true (mkCoordinator ds cs nums) cs wp (addr + o) (len hdr), st') /\
    JenkinsChecksum head = Ret c /\ stored (contents st') addr (head ++ le_put 4 c) /\
    chunks_stored ds cs es B buf rp (contents st') root /\
    (forall rest, owned st ≡ₚ mkBlock addr (len hdr) :: rest -> keeps (contents st) (contents st') rest).
Proof.
  intros nums dw Hds Hsp Hacc HB Hns Hu Hin Hst Hpos Ho0 Ho12.
  destruct (writeChunkedData_listed ds cs es B buf wp rp addr da o hdr st Hds Hsp Hacc HB Hns Hu Hin Hst Hpos Ho0 Ho12)
    as (root & st' & c & l & E & Hc & Hs & Hl & Hk).
  exists root, st', c. split_and!; [exact E|exact Hc|exact Hs|by eapply chunks_listed_stored|exact Hk].
Qed.

Lemma chunks_stored_read `{C : Codecs} ds cs es B buf rp f root fuel layout dataspace sb :
  dataset_ok ds cs es buf -> B <= MaxChunkSize -> chunks_stored ds cs es B buf rp f root -> (256 <= fuel)%nat ->
  DataAddress layout = root -> ChunkSize layout = cs ++ [es] -> dsType dataspace = DataspaceSimple ->
  Dimensions dataspace = ds -> OffsetSize sb = 8 ->
  readChunkedData fuel f layout dataspace es sb rp = Ret buf.
Proof.
  intros Hds HB (l & own & top & ownT & Hd & Hli & Hl & Htop & Hb) Hf Hroot Hcs Hty Hdim Hsb.
  apply (readChunkedData_ok ds cs es B buf rp Hds HB f own l top ownT root); try done. lia.
Qed.

(** ** Properties *)

(** C7. A chunked dataset is read back as it was written.  For every rank,
    chunk shape and element size (inner dimensions multiples of the chunk's),
    with or without a chain of shuffle, LZF and Fletcher-32 filters, on any
    storage that keeps its contract: [writeChunkedData] returns; the layout
    message in the object header then holds the index address and the header
    its lookup3 checksum; [readChunkedData] at that address returns the data;
    and every other tracked block of the file is untouched. *)
Theorem chunked_dataset_roundtrip `{SL : StorageLaws St} `{C : Codecs} `{CL : !CodecLaws C}
    ds cs es B buf wp rp addr da o hdr st fuel :
  let nums := zip_with chunksIn ds cs in
  let dw := mkDatasetWriter addr da (len buf) es ds true (mkCoordinator ds cs nums) cs wp (addr + o) (len hdr) in
  dataset_ok ds cs es buf -> same_pipeline wp rp -> chunks_accepted ds cs es B buf wp -> B <= MaxChunkSize ->
  nodeBytes (len ds + 1) < 2 ^ 63 -> usable st (prod nums * (B + 2 * nodeBytes (len ds + 1))) ->
  mkBlock addr (len hdr) ∈ owned st -> stored (contents st) addr hdr -> 0 < addr + o -> 0 <= o -> o + 12 <= len hdr ->
  (256 <= fuel)%nat ->
  exists root st' c, let head := blit (take (Z.to_nat (len hdr - 4)) hdr) o (le_put 8 root) in
    writeChunkedData dw 8 buf st =
      Ret (mkDatasetWriter addr root (len buf) es ds true (mkCoordinator ds cs nums) cs wp (addr + o) (len hdr), st') /\
    JenkinsChecksum head = Ret c /\ stored (contents st') addr (head ++ le_put 4 c) /\
    (forall layout dataspace sb, DataAddress layout = root -> ChunkSize layout = cs ++ [es] ->
       dsType dataspace = DataspaceSimple -> Dimensions dataspace = ds -> OffsetSize sb = 8 ->
       readChunkedData fuel (contents st') layout dataspace es sb rp = Ret buf) /\
    (forall rest, owned st ≡ₚ mkBlock addr (len hdr) :: rest -> keeps (contents st) (contents st') rest).
Proof.
  intros nums dw Hds Hsp Hacc HB Hns Hu Hin Hst Hpos Ho0 Ho12 Hf.
  destruct (writeChunkedData_ok ds cs es B buf wp rp addr da o hdr st Hds Hsp Hacc HB Hns Hu Hin Hst Hpos Ho0 Ho12)
    as (root & st' & c & E & Hc & Hs & Hch & Hk).
  exists root, st', c. split_and!; [exact E|exact Hc|exact Hs| |exact Hk].
  intros layout dataspace sb. by apply (chunks_stored_read ds cs es B buf rp).
Qed.

(** Three bytes in chunks of two, through LZF and Fletcher-32, in a new file
    with a header of 20 zero bytes whose layout message is at offset 4. *)
#[local] Existing Instance Pipeline.storedCodecs.
#[local] Existing Instance Pipeline.storedLaws.

Definition demo_filters : FilterPipeline := mkPipeline [NewLZFFilter; NewFletcher32Filter].

Lemma demo_accepted : chunks_accepted [3] [2] 1 100 [x01; x02; x03] (Some demo_filters).
Proof.
  intros coord chunk Hb Ex. split.
  - intros fp [= <-]. eapply accepts_cons; [apply sup_lzf|exact I|]. intros o1 _.
    eapply accepts_cons; [apply sup_fletcher|exact I|]. intros. constructor.
  - apply in_box_cons_inv in Hb as (i & r & -> & Hi & Hr). apply Forall2_nil_inv_l in Hr as ->.
    change (chunksIn 3 2) with 2 in Hi. assert (i = 0 \/ i = 1) as [-> | ->] by lia.
    + change (Ret [x01; x02] = Ret chunk) in Ex. injection Ex as <-. intros s Es. vm_compute in Es. injection Es as <-.
      split; vm_compute; congruence.
    + change (Ret [x03] = Ret chunk) in Ex. injection Ex as <-. intros s Es. vm_compute in Es. injection Es as <-.
      split; vm_compute; congruence.
Qed.

Lemma demo_storage :
  exists addr st, @usable _ _ (FileWriter_laws 48) st 8584 /\ 0 <= addr /\
    @owned _ _ (FileWriter_laws 48) st = [mkBlock addr 20] /\ stored (contents st) addr (zeros 20).
Proof.
  destruct (@allocate_law _ _ (FileWriter_laws 48) (NewFileWriter 48) 8604 20) as (addr & st1 & _ & Hu & _ & Ho & _).
  { apply NewFileWriter_usable; lia. }
  { lia. }
  destruct (@owned_range _ _ (FileWriter_laws 48) st1 _ (mkBlock addr 20) Hu) as (Ha & _ & He); [rewrite Ho; set_solver|].
  unfold bend in He. cbn [Offset Size] in Ha, He.
  destruct (@write_law _ _ (FileWriter_laws 48) st1 _ (zeros 20) addr Hu) as (st2 & _ & Hu2 & Ho2 & Hc); [lia|by vm_compute|].
  exists addr, st2. split_and!; [exact Hu2|done|by rewrite Ho2, Ho|]. rewrite Hc. by apply stored_write.
Qed.

Example chunked_dataset_roundtrip_witness :
  exists addr root st dw' st', @owned _ _ (FileWriter_laws 48) st = [mkBlock addr 20] /\
    writeChunkedData (mkDatasetWriter addr 0 3 1 [3] true (mkCoordinator [3] [2] [2]) [2] (Some demo_filters) (addr + 4) 20)
      8 [x01; x02; x03] st = Ret (dw', st') /\
    readChunkedData 256 (contents st') (mkLayout 3 LayoutChunked root 0 [] [2; 1] 4) (mkDataspace 1 DataspaceSimple [3] [])
      1 (mkSuperblock 2 8 8 0 48 LittleEndian 0 0 0 0) (Some (mkMessage 1 2 (map infoOf (filters demo_filters)))) =
      Ret [x01; x02; x03].
Proof.
  destruct demo_storage as (addr & st & Hu & Ha & Ho & Hst).
  destruct (@chunked_dataset_roundtrip FileWriter _ (FileWriter_laws 48) _ _ [3] [2] 1 100 [x01; x02; x03]
    (Some demo_filters) (Some (mkMessage 1 2 (map infoOf (filters demo_filters)))) addr 0 4 (zeros 20) st 256)
    as (root & st' & c & Ew & _ & _ & Hr & _).
  - split; [split; [discriminate|]|..].
    + repeat constructor; lia.
    + constructor.
    + lia.
    + reflexivity.
    + vm_compute. congruence.
  - split; [reflexivity|]. repeat (constructor; [discriminate|]). constructor.
  - exact demo_accepted.
  - vm_compute. congruence.
  - vm_compute. reflexivity.
  - exact Hu.
  - rewrite Ho. apply list_elem_of_singleton. reflexivity.
  - exact Hst.
  - lia.
  - lia.
  - vm_compute. congruence.
  - lia.
  - exists addr, root, st. eexists. exists st'. split; [exact Ho|]. split; [exact Ew|].
    apply (Hr _ _ (mkSuperblock 2 8 8 0 48 LittleEndian 0 0 0 0)); reflexivity.
Defined.

(** Data of an array or enum datatype is lost in chunked storage:
    [createChunkedDataset] gives the writer the size of the base type as
    element size.  Two elements of eight bytes with a four-byte base type, in
    chunks of one: the last eight bytes never reach the file. *)
Theorem chunked_array_data_lost `{Storage St} addr da off hs h t t' (st : St) :
  let dw := mkDatasetWriter addr da 16 4 [2] true (mkCoordinator [2] [1] [2]) [1] None off hs in
  len h = 8 -> len t = 8 -> len t' = 8 ->
  NewChunkCoordinator [2] [1] = Ret (chunkCoordinator dw) /\
  writeChunkedData dw 8 (h ++ t) st = writeChunkedData dw 8 (h ++ t') st.
Proof.
  intros dw Hh Ht Ht'. split; [done|]. unfold writeChunkedData. rewrite !len_app, Hh, Ht, Ht'.
  change (GetTotalChunks (chunkCoordinator dw)) with 2.
  assert (Hx : forall i, i = 0 \/ i = 1 ->
    ExtractChunkData (chunkCoordinator dw) (h ++ t) [i] 4 = ExtractChunkData (chunkCoordinator dw) (h ++ t') [i] 4).
  { do 8 (destruct h as [|? h]; [discriminate Hh|]). destruct h; [|exfalso; clear -Hh; len_lia].
    do 8 (destruct t as [|? t]; [discriminate Ht|]). destruct t; [|exfalso; clear -Ht; len_lia].
    do 8 (destruct t' as [|? t']; [discriminate Ht'|]). destruct t'; [|exfalso; clear -Ht'; len_lia].
    intros i [-> | ->]; reflexivity. }
  rewrite (for_loop_ext (Z.to_nat 2) 0 (writeChunk dw (h ++ t)) (writeChunk dw (h ++ t'))); [done|].
  intros j [w s] Hj. unfold writeChunk.
  assert (j = 0 \/ j = 1) as Hj2 by lia. specialize (Hx j Hj2).
  replace (GetChunkCoordinate (chunkCoordinator dw) j) with (Ret (A:=list Z) [j]) by (by destruct Hj2 as [-> | ->]).
  cbn [obind]. change (dtypeSize dw) with 4. by rewrite Hx.
Qed.

Example chunked_array_data_lost_witness :
  let dw := mkDatasetWriter 48 0 16 4 [2] true (mkCoordinator [2] [1] [2]) [1] None 60 100 in
  writeChunkedData dw 8 (zeros 8 ++ zeros 8) (NewFileWriter 148) =
  writeChunkedData dw 8 (zeros 8 ++ replicate 8 xff) (NewFileWriter 148).
Proof.
  intros dw. apply (chunked_array_data_lost 48 0 60 100 (zeros 8) (zeros 8) (replicate 8 xff) (NewFileWriter 148));
    reflexivity.
Defined.
