(* ===== verification/LocalHeap.v ===== *)
(** * Local heaps: internal/structures/localheap.go

    The names of a symbol-table group.  A heap is read whole into [lhData]; a
    heap under construction keeps its bytes in [lhStrings]. *)

From S2P Require Import Prelude Allocator Storage Superblock Datatype.

(** [lhData]: [None] is the nil slice of a heap that was not read from a file.
    [FreeList], which nothing sets, is left out. *)
Record LocalHeap := mkHeap {
  lhData : option bytes;
  lhHeaderSize : Z;
  DataSegmentSize : Z;
  OffsetToHeadFreeList : Z;
  DataSegmentAddress : Z;
  lhStrings : bytes }.

Definition heap_sig : bytes := String.list_byte_of_string "HEAP".

(** A size or address field of 2, 4 or 8 bytes; other widths leave 0. *)
Definition readField (buf : bytes) (pos size : Z) (o : ByteOrder) : outcome Z :=
  if (size =? 2) || (size =? 4) || (size =? 8)
  then let! s := slice buf pos (pos + size) in Ret (get_order o s) else Ret 0.

Definition LoadLocalHeap (file : bytes) (address : Z) (sb : Superblock) : outcome LocalHeap :=
  let headerSize := 8 + LengthSize sb * 2 + OffsetSize sb in
  let! headerBuf := read_at file (i64 address) headerSize in
  guard bool_decide (take 4 headerBuf = heap_sig) else "invalid local heap signature";;
  let! dataSegmentSize := readField headerBuf 8 (LengthSize sb) (Endianness sb) in
  let! dataSegmentAddr := readField headerBuf (8 + LengthSize sb + LengthSize sb) (OffsetSize sb) (Endianness sb) in
  if dataSegmentSize >=? 2 ^ 63 then Panic
  else
    let! data := read_at file (i64 dataSegmentAddr) dataSegmentSize in
    Ret (mkHeap (Some data) headerSize 0 0 0 []).

Definition dataOf (h : LocalHeap) : bytes := default [] (lhData h).

Definition GetString (h : LocalHeap) (offset : Z) : outcome bytes :=
  guard negb (offset >=? len (dataOf h)) else "offset beyond heap data";;
  guard negb (nameEndAt (dataOf h) offset >=? len (dataOf h)) else "string not null-terminated";;
  Ret (nameAt (dataOf h) offset).

Definition NewLocalHeap (initialSize : Z) : LocalHeap :=
  let initialSize := if initialSize <? 16 then 16 else initialSize in
  let initialSize := if negb (initialSize mod 8 =? 0) then u64 ((initialSize / 8 + 1) * 8) else initialSize in
  mkHeap None 0 initialSize 1 0 [x00].

Definition AddString (h : LocalHeap) (s : bytes) : outcome (Z * LocalHeap) :=
  let needed := len s + 1 in
  let currentSize := len (lhStrings h) in
  guard negb (u64 (currentSize + needed) >? DataSegmentSize h) else "local heap is full";;
  Ret (currentSize, mkHeap (lhData h) (lhHeaderSize h) (DataSegmentSize h) (OffsetToHeadFreeList h)
    (DataSegmentAddress h) (lhStrings h ++ s ++ [x00])).

Definition heapHeader (h : LocalHeap) : outcome bytes :=
  putFields (zeros 32) [(0, heap_sig); (4, [x00]); (5, [x00; x00; x00]); (8, le_put 8 (DataSegmentSize h));
    (16, le_put 8 (OffsetToHeadFreeList h)); (24, le_put 8 (DataSegmentAddress h))].

(** The padding of [strings] to the size of the data segment. *)
Definition padStrings (h : LocalHeap) : bytes :=
  if len (lhStrings h) <? DataSegmentSize h then lhStrings h ++ zeros (DataSegmentSize h - len (lhStrings h))
  else lhStrings h.

Definition heapWriteTo `{Storage St} (h : LocalHeap) (st : St) (address : Z) : outcome (LocalHeap * St) :=
  let h := mkHeap (lhData h) (lhHeaderSize h) (DataSegmentSize h) (OffsetToHeadFreeList h)
    (u64 (address + 32)) (padStrings h) in
  let! header := heapHeader h in
  let! st := write_to st header address in
  let! st := write_to st (lhStrings h) (DataSegmentAddress h) in
  Ret (h, st).

Definition heapSize (h : LocalHeap) : Z := u64 (32 + DataSegmentSize h).

Definition CopyStringsFrom (h src : LocalHeap) : outcome LocalHeap :=
  guard negb (len (lhStrings src) >? DataSegmentSize h) else "source strings exceed new heap capacity";;
  Ret (mkHeap (lhData h) (lhHeaderSize h) (DataSegmentSize h) (OffsetToHeadFreeList h) (DataSegmentAddress h)
    (lhStrings src)).

(** The inner loop: the first zero of [rest], which starts at index [j]. *)
Fixpoint nextZero (rest : bytes) (j usedSize : Z) : Z :=
  match rest with
  | [] => usedSize
  | b :: rest => if b2z b =? 0 then j + 1 else nextZero rest (j + 1) usedSize
  end.

(** The outer loop, from index [n - 1] down. *)
Fixpoint usedSizeOf (data : bytes) (n : nat) : Z :=
  match n with
  | O => 1
  | S i =>
      match data !! i with
      | Some b => if negb (b2z b =? 0) then nextZero (drop (S i) data) (Z.of_nat i + 1) (Z.of_nat i + 1)
                  else usedSizeOf data i
      | None => usedSizeOf data i
      end
  end.

Definition PrepareForModification (h : LocalHeap) : outcome LocalHeap :=
  match lhData h with
  | None => Err "heap has no data to prepare"
  | Some data =>
      let usedSize := usedSizeOf data (length data) in
      let! used := slice data 0 usedSize in
      let size := if DataSegmentSize h =? 0 then len data else DataSegmentSize h in
      Ret (mkHeap (lhData h) (lhHeaderSize h) size (OffsetToHeadFreeList h) (DataSegmentAddress h) used)
  end.

(** ** The used part of a heap

    [used] is the heap's bytes up to the null that ends its last string. *)

Definition used_ok (used : bytes) : Prop :=
  used = [x00] \/ exists u b, used = u ++ [b; x00] /\ b2z b <> 0.

Lemma used_pos used : used_ok used -> 1 <= len used.
Proof. intros [->|(u & b & -> & _)]; len_lia. Qed.

Lemma usedSizeOf_zeros data k n : (n <= length data + k)%nat -> (length data <= n)%nat ->
  usedSizeOf (data ++ replicate k x00) n = usedSizeOf (data ++ replicate k x00) (length data).
Proof.
  intros Hn Hd. induction n as [|n IH]; [by replace (length data) with 0%nat by lia|].
  destruct (decide (length data <= n)%nat); [|by replace (length data) with (S n) by lia].
  cbn [usedSizeOf]. rewrite lookup_app_r, lookup_replicate_2 by lia.
  cbn [negb b2z]. rewrite IH by lia. done.
Qed.

Lemma usedSizeOf_ok used k : used_ok used -> usedSizeOf (used ++ zeros k) (length (used ++ zeros k)) = len used.
Proof.
  intros Hu. unfold zeros. rewrite usedSizeOf_zeros by (rewrite length_app, ?length_replicate; lia).
  destruct Hu as [->|(u & b & -> & Hb)]; [done|].
  rewrite length_app. cbn [length]. replace (length u + 2)%nat with (S (S (length u))) by lia.
  rewrite <- app_assoc. cbn [app usedSizeOf].
  rewrite lookup_app_r by lia. replace (S (length u) - length u)%nat with 1%nat by lia. cbn [lookup list_lookup].
  change (b2z x00) with 0. cbn [Z.eqb negb].
  rewrite list_lookup_middle by done. destruct (Z.eqb_spec (b2z b) 0) as [|_]; [lia|]. cbn [negb].
  replace (S (length u)) with (length (u ++ [b])) by (rewrite length_app; cbn; lia).
  change (u ++ b :: x00 :: replicate (Z.to_nat k) x00) with (u ++ [b] ++ x00 :: replicate (Z.to_nat k) x00).
  rewrite app_assoc, drop_app_length. cbn [nextZero]. change (b2z x00 =? 0) with true. cbn iota. len_lia.
Qed.

(** A heap as the writer leaves it in the file: [used], padded. *)
Definition heapBytes (size address : Z) (used : bytes) : bytes :=
  heap_sig ++ zeros 4 ++ le_put 8 size ++ le_put 8 1 ++ le_put 8 (address + 32) ++ used ++ zeros (size - len used).

Lemma len_heapBytes size address used : 0 <= size -> len used <= size -> len (heapBytes size address used) = 32 + size.
Proof. intros. unfold heapBytes. rewrite !len_app, !len_le_put, !len_zeros by lia. change (len heap_sig) with 4. lia. Qed.

Definition sb8 (sb : Superblock) : Prop := OffsetSize sb = 8 /\ LengthSize sb = 8 /\ Endianness sb = LittleEndian.

Lemma readField_at buf pre v post pos : buf = pre ++ le_put 8 v ++ post -> pos = len pre -> is_u 64 v ->
  readField buf pos 8 LittleEndian = Ret v.
Proof.
  intros -> -> Hv. unfold readField. cbn [Z.eqb Pos.eqb orb].
  rewrite (slice_at _ pre (le_put 8 v) post) by (rewrite ?len_le_put; done || lia). cbn [obind get_order].
  by rewrite le_get_put_small.
Qed.

Lemma LoadLocalHeap_ok f a size used sb :
  sb8 sb -> a + 32 + size < 2 ^ 63 -> len used <= size -> stored f a (heapBytes size a used) ->
  LoadLocalHeap f a sb = Ret (mkHeap (Some (used ++ zeros (size - len used))) 32 0 0 0 []).
Proof.
  intros (HO & HL & HE) Hb Hu Hst. pose proof (len_nonneg used) as H0.
  destruct (stored_bounds _ _ _ Hst) as [Ha _].
  unfold LoadLocalHeap. rewrite HO, HL, HE, i64_id by lia.
  set (h := heap_sig ++ zeros 4 ++ le_put 8 size ++ le_put 8 1 ++ le_put 8 (a + 32)).
  assert (Hh : heapBytes size a used = h ++ (used ++ zeros (size - len used))).
  { unfold heapBytes, h. by rewrite <- !app_assoc. }
  assert (len h = 32) as Hl by done. rewrite Hh in Hst.
  pose proof (stored_app_l _ _ _ _ Hst) as H1. pose proof (stored_app_r _ _ _ _ Hst) as H2.
  unfold stored in H1, H2. rewrite Hl in H1, H2.
  assert (len (used ++ zeros (size - len used)) = size) as Hs by (rewrite len_app, len_zeros; lia). rewrite Hs in H2.
  change (8 + 8 * 2 + 8) with 32. rewrite H1. cbn [obind].
  change (take 4 h) with heap_sig. rewrite bool_decide_true by done.
  rewrite (readField_at h (heap_sig ++ zeros 4) size (le_put 8 1 ++ le_put 8 (a + 32))) by (done || (unfold is_u; lia)).
  cbn [obind].
  rewrite (readField_at h (heap_sig ++ zeros 4 ++ le_put 8 size ++ le_put 8 1) (a + 32) []).
  2: { unfold h. by rewrite app_nil_r, <- !app_assoc. }
  2: done.
  2: { unfold is_u. lia. }
  cbn [obind]. ztest. rewrite i64_id, H2 by lia. done.
Qed.

Lemma PrepareForModification_ok used k hs :
  used_ok used -> PrepareForModification (mkHeap (Some (used ++ zeros k)) hs 0 0 0 []) =
    Ret (mkHeap (Some (used ++ zeros k)) hs (len (used ++ zeros k)) 0 0 used).
Proof.
  intros Hu. unfold PrepareForModification. cbn [lhData lhHeaderSize DataSegmentSize OffsetToHeadFreeList DataSegmentAddress].
  rewrite usedSizeOf_ok by done. rewrite (slice_at _ [] used (zeros k)) by (done || lia). done.
Qed.

Lemma heapWriteTo_ok `{StorageLaws St} h st n a :
  usable st n -> 0 <= a -> a + 32 + DataSegmentSize h < 2 ^ 63 -> len (lhStrings h) <= DataSegmentSize h ->
  0 < len (lhStrings h) -> OffsetToHeadFreeList h = 1 ->
  exists h' st', heapWriteTo h st a = Ret (h', st') /\ usable st' n /\ owned st' = owned st /\
    contents st' = write_at (contents st) a (heapBytes (DataSegmentSize h) a (lhStrings h)).
Proof.
  intros Hu Ha Hb Hl Hpos Hf. unfold heapWriteTo. cbv zeta. unfold heapHeader.
  cbn [lhData lhHeaderSize DataSegmentSize OffsetToHeadFreeList DataSegmentAddress lhStrings].
  rewrite Hf. rewrite u64_id by (unfold is_u; lia).
  rewrite (putFields_ret _ [] 32) by fields_tac. cbn [obind map snd concat app].
  match goal with |- context [write_to st ?x a] => set (hdr := x) end.
  assert (Hh : len hdr = 32) by done.
  destruct (write_law st n hdr a Hu) as (st1 & -> & Hu1 & Ho1 & Hc1); [lia|lia|]. cbn [obind].
  assert (Hp : padStrings h = lhStrings h ++ zeros (DataSegmentSize h - len (lhStrings h))).
  { unfold padStrings. ztest; [done|]. replace (DataSegmentSize h - len (lhStrings h)) with 0 by lia.
    cbn. by rewrite app_nil_r. }
  rewrite Hp. assert (len (lhStrings h ++ zeros (DataSegmentSize h - len (lhStrings h))) = DataSegmentSize h) as Hd
    by (rewrite len_app, len_zeros; lia).
  destruct (write_law st1 n (lhStrings h ++ zeros (DataSegmentSize h - len (lhStrings h))) (a + 32) Hu1)
    as (st2 & -> & Hu2 & Ho2 & Hc2); [lia|lia|]. cbn [obind].
  eexists _, st2. split; [done|]. split_and!; [done|congruence|]. rewrite Hc2, Hc1.
  rewrite <- Hh, write_at_app by done. f_equal.
Qed.

(** ** Strings of a heap *)

Definition no_nul (name : bytes) : Prop := Forall (fun b => b2z b <> 0) name.

(** [name] and its null are in [used] from offset [o] on. *)
Definition str_at (used : bytes) (o : Z) (name : bytes) : Prop :=
  exists pre post, used = pre ++ name ++ x00 :: post /\ len pre = o.

Lemma str_at_app used x o name : str_at used o name -> str_at (used ++ x) o name.
Proof. intros (pre & post & -> & Ho). exists pre, (post ++ x). split; [|done]. by rewrite <- !app_assoc. Qed.

Lemma str_at_end used name : str_at (used ++ name ++ [x00]) (len used) name.
Proof. by exists used, []. Qed.

Lemma str_at_range used o name : str_at used o name -> 0 <= o /\ o + len name < len used.
Proof. intros (pre & post & -> & <-). len_lia. Qed.

Lemma nameAt_str data o name : str_at data o name -> no_nul name -> nameAt data o = name.
Proof.
  intros (pre & post & -> & <-) Hn. unfold nameAt, len. rewrite Nat2Z.id, drop_app_length. by apply cstring_name.
Qed.

Lemma GetString_ok h data o name : lhData h = Some data -> str_at data o name -> no_nul name ->
  GetString h o = Ret name.
Proof.
  intros Hd Hs Hn. unfold GetString. replace (dataOf h) with data by (unfold dataOf; by rewrite Hd). pose proof (str_at_range _ _ _ Hs).
  pose proof (len_nonneg name). unfold nameEndAt. rewrite (nameAt_str _ _ _ Hs Hn). do 2 (ztest; cbn [negb]). done.
Qed.

Lemma used_ok_add used name : no_nul name -> name <> [] -> used_ok (used ++ name ++ [x00]).
Proof.
  intros Hn Hne. right. destruct (exists_last Hne) as (u & b & ->). exists (used ++ u), b.
  split; [by rewrite <- !app_assoc|]. apply Forall_app in Hn as [_ Hn]. by apply Forall_cons in Hn as [? _].
Qed.

(** Two names at the same place are the same. *)
Lemma str_at_inj used o n1 n2 : no_nul n1 -> no_nul n2 -> str_at used o n1 -> str_at used o n2 -> n1 = n2.
Proof. intros H1 H2 S1 S2. by rewrite <- (nameAt_str _ _ _ S1 H1), (nameAt_str _ _ _ S2 H2). Qed.
