(* ===== verification/GroupTree.v ===== *)
(** * Symbol tables: internal/structures/symboltable.go, symboltable_node.go, btree_group.go and btree.go

    The nodes that hold a group's entries and the B-tree node that lists them. *)

From S2P Require Import Prelude Allocator Storage Superblock.

(** ** Addresses of any width *)

(** [readAddressFromBytes]; [readAddress] of btree_group.go has the same body. *)
Definition readAddressFromBytes (data : bytes) (size : Z) (o : ByteOrder) : outcome Z :=
  let size := if size >? len data then len data else size in
  let! d := slice data 0 size in
  if size =? 1 then let! b := idx data 0 in Ret (b2z b)
  else if (size =? 2) || (size =? 4) || (size =? 8) then Ret (get_order o d)
  else Ret (get_order o (take 8 d ++ zeros (8 - len (take 8 d)))).

Definition group_readAddress : bytes -> Z -> ByteOrder -> outcome Z := readAddressFromBytes.

(** The bytes of an address in [size] bytes, [size] at most 8. *)
Definition addressBytes (addr size : Z) (o : ByteOrder) : bytes :=
  if size =? 1 then [z2b addr]
  else if (size =? 2) || (size =? 4) || (size =? 8) then put_order o (Z.to_nat size) addr
  else take (Z.to_nat size) (put_order o 8 addr).

(** [writeAddressToBytes(buf[pos:], ...)]; [writeAddr] of btree_group.go has the
    same body.  A width above 8 is out of the range of the local buffer. *)
Definition writeAddressToBytes (buf : bytes) (pos addr size : Z) (o : ByteOrder) : outcome bytes :=
  let! data := slice buf pos (len buf) in
  let size := if size >? len data then len data else size in
  if size >? 8 then Panic else put_bytes buf pos (addressBytes addr size o).

Definition writeAddr : bytes -> Z -> Z -> Z -> ByteOrder -> outcome bytes := writeAddressToBytes.

(** ** Symbol table nodes *)

Definition CacheTypeSymbolTable : Z := 1.
Definition CacheTypeSoftLink : Z := 2.

Record SymbolTableEntry := mkEntry {
  LinkNameOffset : Z;
  ObjectAddress : Z;
  CacheType : Z;
  sReserved : Z;
  CachedBTreeAddr : Z;
  CachedHeapAddr : Z;
  CachedSoftLinkOffset : Z }.

Definition IsSoftLink (e : SymbolTableEntry) : bool := CacheType e =? CacheTypeSoftLink.

(** [sCapacity] is the capacity of the slice of entries. *)
Record SymbolTableNode := mkSNode {
  sVersion : Z;
  NumSymbols : Z;
  Entries : list SymbolTableEntry;
  sCapacity : Z }.

Definition snod_sig : bytes := String.list_byte_of_string "SNOD".
Definition tree_sig : bytes := String.list_byte_of_string "TREE".
Definition btre_sig : bytes := String.list_byte_of_string "BTRE".

Definition readU (n : nat) (o : ByteOrder) (data : bytes) (offset : Z) : outcome Z :=
  let! s := slice data offset (offset + Z.of_nat n) in Ret (get_order o s).

Definition readAddressAt (data : bytes) (offset size : Z) (o : ByteOrder) : outcome Z :=
  let! tl := slice data offset (len data) in readAddressFromBytes tl size o.

(** One entry of a node: the scratch pad is read for groups only. *)
Definition parseSnodEntry (data : bytes) (offset offsetSize : Z) (o : ByteOrder) : outcome SymbolTableEntry :=
  let! linkOffset := readAddressAt data offset offsetSize o in
  let offset := offset + offsetSize in
  let! objAddr := readAddressAt data offset offsetSize o in
  let offset := offset + offsetSize in
  let! cacheType := readU 4 o data offset in
  let! reserved := readU 4 o data (offset + 4) in
  let offset := offset + 8 in
  if cacheType =? CacheTypeSymbolTable then
    let! cachedBTree := readAddressAt data offset offsetSize o in
    let! cachedHeap := readAddressAt data (offset + offsetSize) offsetSize o in
    Ret (mkEntry linkOffset objAddr cacheType reserved cachedBTree cachedHeap 0)
  else Ret (mkEntry linkOffset objAddr cacheType reserved 0 0 0).

Fixpoint parseSnodEntries (n : nat) (data : bytes) (offset offsetSize : Z) (o : ByteOrder)
    : outcome (list SymbolTableEntry) :=
  match n with
  | O => Ret []
  | S n =>
      let entrySize := offsetSize * 2 + 24 in
      guard negb (offset + entrySize >? len data) else "SNOD data truncated";;
      let! e := parseSnodEntry data offset offsetSize o in
      let! es := parseSnodEntries n data (offset + entrySize) offsetSize o in
      Ret (e :: es)
  end.

Definition ParseSymbolTableNode (file : bytes) (address : Z) (sb : Superblock) : outcome SymbolTableNode :=
  let! header := read_at file (i64 address) 8 in
  guard bool_decide (take 4 header = snod_sig) else "invalid SNOD signature";;
  let! version := idx header 4 in
  guard b2z version =? 1 else "unsupported SNOD version";;
  let! numSymbols := readU 2 (Endianness sb) header 6 in
  let capacity := if numSymbols >? 8 then numSymbols else 8 in
  if numSymbols =? 0 then Ret (mkSNode 1 0 [] capacity)
  else
    let entrySize := OffsetSize sb * 2 + 24 in
    let! data := read_at file (i64 (address + 8)) (numSymbols * entrySize) in
    let! es := parseSnodEntries (Z.to_nat numSymbols) data 0 (OffsetSize sb) (Endianness sb) in
    Ret (mkSNode 1 numSymbols es capacity).

Definition NewSymbolTableNode (capacity : Z) : SymbolTableNode := mkSNode 1 0 [] capacity.

Definition AddEntry (stn : SymbolTableNode) (entry : SymbolTableEntry) : outcome SymbolTableNode :=
  guard negb (NumSymbols stn >=? sCapacity stn) else "symbol table node is full";;
  Ret (mkSNode (sVersion stn) (u16 (NumSymbols stn + 1)) (Entries stn ++ [entry]) (sCapacity stn)).

(** The entry loop of [WriteAt]; the scratch pad of 16 bytes stays zero. *)
Fixpoint putSnodEntries (n : nat) (i : Z) (stn : SymbolTableNode) (buf : bytes) (pos offsetSize : Z) (o : ByteOrder)
    : outcome bytes :=
  match n with
  | O => Ret buf
  | S n =>
      let! (buf, pos) :=
        (if i <? NumSymbols stn then
           let! entry := idx (Entries stn) i in
           let! buf := writeAddressToBytes buf pos (LinkNameOffset entry) offsetSize o in
           let pos := pos + offsetSize in
           let! buf := writeAddressToBytes buf pos (ObjectAddress entry) offsetSize o in
           let pos := pos + offsetSize in
           let! buf := put_bytes buf pos (put_order o 4 (CacheType entry)) in
           let! buf := put_bytes buf (pos + 4) (put_order o 4 (sReserved entry)) in
           Ret (buf, pos + 4 + 4 + 16)
         else Ret (buf, pos + (offsetSize * 2 + 24))) in
      putSnodEntries n (i + 1) stn buf pos offsetSize o
  end.

Definition encodeSnod (stn : SymbolTableNode) (offsetSize maxEntries : Z) (o : ByteOrder) : outcome bytes :=
  let entrySize := offsetSize * 2 + 24 in
  let! buf := putFields (zeros (8 + maxEntries * entrySize))
    [(0, snod_sig); (4, [z2b (sVersion stn)]); (5, [x00]); (6, put_order o 2 (NumSymbols stn))] in
  putSnodEntries (Z.to_nat maxEntries) 0 stn buf 8 offsetSize o.

Definition snodWriteAt `{Storage St} (stn : SymbolTableNode) (st : St) (address offsetSize maxEntries : Z) (o : ByteOrder)
    : outcome St :=
  let! buf := encodeSnod stn offsetSize maxEntries o in write_to st buf address.

(** ** The older symbol table reader (symboltable.go) *)

Record SymbolTable := mkTable {
  tVersion : Z;
  EntryCount : Z;
  BTreeAddress : Z;
  HeapAddress : Z }.

Definition ParseSymbolTable (file : bytes) (offset : Z) (sb : Superblock) : outcome SymbolTable :=
  let! buf := read_at file (i64 offset) 24 in
  guard bool_decide (take 4 buf = snod_sig) else "invalid symbol table signature";;
  let! version := idx buf 4 in
  guard b2z version =? 1 else "unsupported symbol table version";;
  let! count := readU 2 (Endianness sb) buf 6 in
  let! btree := readU 8 (Endianness sb) buf 8 in
  let! heap := readU 8 (Endianness sb) buf 16 in
  Ret (mkTable (b2z version) count btree heap).

Definition ParseSymbolTableEntry (file : bytes) (offset : Z) (sb : Superblock) : outcome SymbolTableEntry :=
  let o := Endianness sb in
  let! buf := read_at file (i64 offset) 40 in
  let! link := readU 8 o buf 0 in
  let! obj := readU 8 o buf 8 in
  let! cacheType := readU 4 o buf 16 in
  let! reserved := readU 4 o buf 20 in
  if cacheType =? CacheTypeSymbolTable then
    let! b := readU 8 o buf 24 in
    let! h := readU 8 o buf 32 in
    Ret (mkEntry link obj cacheType reserved b h 0)
  else if cacheType =? CacheTypeSoftLink then
    let! l := readU 4 o buf 24 in
    Ret (mkEntry link obj cacheType reserved 0 0 l)
  else Ret (mkEntry link obj cacheType reserved 0 0 0).

Fixpoint readTableEntries (n : nat) (file : bytes) (offset : Z) (sb : Superblock) : outcome (list SymbolTableEntry) :=
  match n with
  | O => Ret []
  | S n =>
      let! e := ParseSymbolTableEntry file offset sb in
      let! es := readTableEntries n file (u64 (offset + 40)) sb in
      Ret (e :: es)
  end.

Definition ReadSymbolTableEntries (file : bytes) (tableAddress : Z) (table : SymbolTable) (sb : Superblock)
    : outcome (list SymbolTableEntry) :=
  readTableEntries (Z.to_nat (EntryCount table)) file (u64 (tableAddress + 8)) sb.

(** ** B-tree nodes of groups *)

(** [BTreeEntry] has the fields of [SymbolTableEntry]. *)
Abbreviation BTreeEntry := SymbolTableEntry.

(** [kCapacity]: the capacity of the slice of keys. *)
Record BTreeNodeV1 := mkGNode {
  gNodeType : Z;
  gNodeLevel : Z;
  gEntriesUsed : Z;
  gLeftSibling : Z;
  gRightSibling : Z;
  gKeys : list Z;
  ChildPointers : list Z;
  kCapacity : Z }.

Definition NewBTreeNodeV1 (nodeType k : Z) : BTreeNodeV1 :=
  mkGNode nodeType 0 0 MaxUint64 MaxUint64 [] [] (2 * k + 1).

Definition AddKey (btn : BTreeNodeV1) (key childAddr : Z) : outcome BTreeNodeV1 :=
  guard negb (len (gKeys btn) >=? kCapacity btn) else "b-tree node is full";;
  Ret (mkGNode (gNodeType btn) (gNodeLevel btn) (u16 (gEntriesUsed btn + 1)) (gLeftSibling btn) (gRightSibling btn)
    (gKeys btn ++ [key]) (ChildPointers btn ++ [childAddr]) (kCapacity btn)).

(** Keys and children, interleaved; what is missing is written as 0. *)
Fixpoint putKeys (n : nat) (i maxChildren : Z) (btn : BTreeNodeV1) (buf : bytes) (pos offsetSize : Z) (o : ByteOrder)
    : outcome bytes :=
  match n with
  | O => Ret buf
  | S n =>
      let key := default 0 (gKeys btn !! Z.to_nat i) in
      let! buf := writeAddr buf pos key offsetSize o in
      let pos := pos + offsetSize in
      let! (buf, pos) :=
        (if i <? maxChildren then
           let child := default 0 (ChildPointers btn !! Z.to_nat i) in
           let! buf := writeAddr buf pos child offsetSize o in Ret (buf, pos + offsetSize)
         else Ret (buf, pos)) in
      putKeys n (i + 1) maxChildren btn buf pos offsetSize o
  end.

Definition encodeGroupNode (btn : BTreeNodeV1) (offsetSize k : Z) (o : ByteOrder) : outcome bytes :=
  let maxKeys := 2 * k + 1 in
  let maxChildren := 2 * k in
  let headerSize := 8 + 2 * offsetSize in
  let! buf := putFields (zeros (headerSize + maxKeys * offsetSize + maxChildren * offsetSize))
    [(0, tree_sig); (4, [z2b (gNodeType btn)]); (5, [z2b (gNodeLevel btn)]); (6, put_order o 2 (gEntriesUsed btn))] in
  let! buf := writeAddr buf 8 (gLeftSibling btn) offsetSize o in
  let! buf := writeAddr buf (8 + offsetSize) (gRightSibling btn) offsetSize o in
  putKeys (Z.to_nat maxKeys) 0 maxChildren btn buf headerSize offsetSize o.

Definition btreeWriteAt `{Storage St} (btn : BTreeNodeV1) (st : St) (address offsetSize k : Z) (o : ByteOrder)
    : outcome St :=
  let! buf := encodeGroupNode btn offsetSize k o in write_to st buf address.

(** The addresses of the symbol table nodes; 0 and the undefined address are left out. *)
Fixpoint readSnodAddresses (n : nat) (data : bytes) (pos offsetSize : Z) (o : ByteOrder) : outcome (list Z) :=
  match n with
  | O => Ret []
  | S n =>
      let pos := pos + offsetSize in
      let! tl := slice data pos (len data) in
      let! childAddr := group_readAddress tl offsetSize o in
      let! rest := readSnodAddresses n data (pos + offsetSize) offsetSize o in
      Ret (if negb (childAddr =? 0) && negb (childAddr =? MaxUint64) then childAddr :: rest else rest)
  end.

Definition toBTreeEntry (e : SymbolTableEntry) : BTreeEntry :=
  mkEntry (LinkNameOffset e) (ObjectAddress e) (CacheType e) 0 (CachedBTreeAddr e) (CachedHeapAddr e) 0.

(** Nodes that cannot be parsed are skipped. *)
Fixpoint collectEntries (file : bytes) (snodAddresses : list Z) (sb : Superblock) : outcome (list BTreeEntry) :=
  match snodAddresses with
  | [] => Ret []
  | a :: rest =>
      match ParseSymbolTableNode file a sb with
      | Panic => Panic
      | Err _ => collectEntries file rest sb
      | Ret node => let! es := collectEntries file rest sb in Ret (map toBTreeEntry (Entries node) ++ es)
      end
  end.

Definition ReadGroupBTreeEntries (file : bytes) (address : Z) (sb : Superblock) : outcome (list BTreeEntry) :=
  let headerSize := 4 + 1 + 1 + 2 + OffsetSize sb * 2 in
  let! header := read_at file (i64 address) headerSize in
  guard bool_decide (take 4 header = tree_sig) else "invalid B-tree signature";;
  let! nodeType := idx header 4 in
  guard b2z nodeType =? 0 else "expected group B-tree";;
  let! nodeLevel := idx header 5 in
  guard b2z nodeLevel =? 0 else "non-leaf B-tree nodes not supported yet";;
  let! entriesUsed := readU 2 (Endianness sb) header 6 in
  if entriesUsed =? 0 then Ret []
  else
    let dataSize := entriesUsed * 2 * OffsetSize sb in
    let! data := read_at file (i64 (i64 address + headerSize)) (dataSize + OffsetSize sb) in
    let! snodAddresses := readSnodAddresses (Z.to_nat entriesUsed) data 0 (OffsetSize sb) (Endianness sb) in
    collectEntries file snodAddresses sb.

(** The reader of the older node format (btree.go). *)
Fixpoint readBTREEntries (n : nat) (i : Z) (file : bytes) (address : Z) (o : ByteOrder) : outcome (list BTreeEntry) :=
  match n with
  | O => Ret []
  | S n =>
      let! buf := read_at file (i64 (u64 (address + 8 + i * 24))) 24 in
      let! link := readU 8 o buf 0 in
      let! obj := readU 8 o buf 8 in
      let! cacheType := readU 4 o buf 16 in
      let! reserved := readU 4 o buf 20 in
      let! es := readBTREEntries n (i + 1) file address o in
      Ret (mkEntry link obj cacheType reserved 0 0 0 :: es)
  end.

Definition ReadBTreeEntries (file : bytes) (address : Z) (sb : Superblock) : outcome (list BTreeEntry) :=
  let! buf := read_at file (i64 address) 6 in
  guard bool_decide (take 4 buf = btre_sig) else "invalid B-tree signature";;
  let! level := idx buf 5 in
  guard b2z level =? 0 else "non-leaf nodes not supported yet";;
  let! countBuf := read_at file (i64 (u64 (address + 6))) 2 in
  readBTREEntries (Z.to_nat (get_order (Endianness sb) countBuf)) 0 file address (Endianness sb).

(** ** Eight-byte little-endian files, as the writer makes them *)

Lemma writeAddr_cursor pre k v pos : pos = len pre -> 8 <= k ->
  writeAddressToBytes (pre ++ zeros k) pos v 8 LittleEndian = Ret ((pre ++ le_put 8 v) ++ zeros (k - 8)).
Proof.
  intros -> Hk. unfold writeAddressToBytes. assert (len (pre ++ zeros k) = len pre + k) as Hl by (rewrite len_app, len_zeros; lia).
  pose proof (len_nonneg pre). rewrite (slice_at _ pre (zeros k) []) by (rewrite ?app_nil_r, ?Hl, ?len_zeros; done || lia).
  cbn [obind]. rewrite len_zeros by lia. replace (8 >? k) with false by (symmetry; rewrite Z.gtb_ltb; apply Z.ltb_ge; lia).
  change (8 >? 8) with false. cbn iota. change (addressBytes v 8 LittleEndian) with (le_put 8 v).
  by rewrite put_bytes_cursor by (rewrite ?len_le_put; lia).
Qed.

Lemma readAddress_at data pre v post offset : data = pre ++ le_put 8 v ++ post -> offset = len pre -> is_u 64 v ->
  readAddressAt data offset 8 LittleEndian = Ret v.
Proof.
  intros -> -> Hv. unfold readAddressAt. pose proof (len_nonneg pre). pose proof (len_nonneg post).
  rewrite (slice_at _ pre (le_put 8 v ++ post) []) by (rewrite ?app_nil_r; done || len_lia). cbn [obind].
  unfold readAddressFromBytes. rewrite len_app, len_le_put.
  replace (8 >? Z.of_nat 8 + len post) with false by (symmetry; rewrite Z.gtb_ltb; apply Z.ltb_ge; lia).
  rewrite (slice_at _ [] (le_put 8 v) post) by (rewrite ?len_le_put; done). cbn [obind Z.eqb Pos.eqb orb].
  cbn [get_order]. by rewrite le_get_put_small.
Qed.

Lemma readU_at n data pre v post offset : data = pre ++ le_put n v ++ post -> offset = len pre ->
  0 <= v < 256 ^ Z.of_nat n -> readU n LittleEndian data offset = Ret v.
Proof.
  intros -> -> Hv. unfold readU. rewrite (slice_at _ pre (le_put n v) post) by (rewrite ?len_le_put; done || lia).
  cbn [obind get_order]. by rewrite le_get_put_small.
Qed.

(** *** Symbol table nodes *)

(** The entries the library writes: nothing cached. *)
Definition plain (e : SymbolTableEntry) : Prop :=
  is_u 64 (LinkNameOffset e) /\ is_u 64 (ObjectAddress e) /\
  e = mkEntry (LinkNameOffset e) (ObjectAddress e) 0 0 0 0 0.

Definition entryBytes (e : SymbolTableEntry) : bytes :=
  le_put 8 (LinkNameOffset e) ++ le_put 8 (ObjectAddress e) ++ le_put 4 (CacheType e) ++ le_put 4 (sReserved e) ++ zeros 16.

Definition snodBytes (es : list SymbolTableEntry) : bytes :=
  snod_sig ++ [x01] ++ [x00] ++ le_put 2 (len es) ++ concat (map entryBytes es) ++ zeros ((8 - len es) * 40).

Lemma len_snodEntryBytes e : len (entryBytes e) = 40.
Proof. done. Qed.

Lemma len_entriesBytes es : len (concat (map entryBytes es)) = 40 * len es.
Proof. induction es as [|e es IH]; [done|]. cbn [map concat]. rewrite len_app, len_snodEntryBytes, IH, len_cons. lia. Qed.

Lemma len_snodBytes es : len es <= 8 -> len (snodBytes es) = 328.
Proof.
  intros H. unfold snodBytes. rewrite !len_app, len_entriesBytes, len_zeros, len_le_put by lia.
  change (len snod_sig) with 4. rewrite !len_cons, !len_nil. lia.
Qed.

Definition nodeOf (es : list SymbolTableEntry) : SymbolTableNode := mkSNode 1 (len es) es 8.

Lemma putSnodEntries_rest n stn : forall i buf pos, NumSymbols stn <= i ->
  putSnodEntries n i stn buf pos 8 LittleEndian = Ret buf.
Proof.
  induction n as [|n IH]; intros i buf pos Hi; cbn [putSnodEntries]; [done|].
  destruct (Z.ltb_spec i (NumSymbols stn)); [lia|]. cbn [obind]. apply IH. lia.
Qed.

Lemma putSnodEntries_ok es : forall dn pre k n, 40 * len es <= k ->
  putSnodEntries (length es + n) (len dn) (nodeOf (dn ++ es)) (pre ++ zeros k) (len pre) 8 LittleEndian =
    Ret ((pre ++ concat (map entryBytes es)) ++ zeros (k - 40 * len es)).
Proof.
  induction es as [|e es IH]; intros dn pre k n Hk.
  - cbn [length Nat.add map concat]. rewrite !app_nil_r. change (40 * len []) with 0. rewrite Z.sub_0_r.
    apply putSnodEntries_rest. cbn. lia.
  - rewrite len_cons in *. cbn [length Nat.add putSnodEntries].
    change (NumSymbols (nodeOf (dn ++ e :: es))) with (len (dn ++ e :: es)).
    change (Entries (nodeOf (dn ++ e :: es))) with (dn ++ e :: es).
    pose proof (len_nonneg es). rewrite len_app, len_cons. destruct (Z.ltb_spec (len dn) (len dn + (1 + len es))); [|lia].
    rewrite idx_app_0, idx_head. cbn [obind].
    rewrite writeAddr_cursor by lia. cbn [obind]. rewrite writeAddr_cursor by (rewrite ?len_app, ?len_le_put; lia).
    cbn [obind]. cbn [put_order].
    rewrite put_bytes_cursor by (rewrite ?len_app, ?len_le_put; lia). cbn [obind].
    rewrite put_bytes_cursor by (rewrite ?len_app, ?len_le_put; lia). cbn [obind].
    rewrite !len_le_put. rewrite (zeros_split _ 16) by lia. rewrite app_assoc.
    replace (dn ++ e :: es) with ((dn ++ [e]) ++ es) by by rewrite <- app_assoc.
    replace (len dn + 1) with (len (dn ++ [e])) by len_lia.
    match goal with |- putSnodEntries _ _ _ (?p ++ zeros ?m) ?q _ _ = _ =>
      replace q with (len p) by (rewrite !len_app, !len_le_put, len_zeros; lia);
      replace m with (k - 40) by lia;
      replace p with (pre ++ entryBytes e) by (unfold entryBytes; by rewrite <- !app_assoc) end.
    rewrite IH by lia. cbn [map concat]. rewrite <- !app_assoc.
    by replace (k - 40 - 40 * len es) with (k - 40 * (1 + len es)) by lia.
Qed.

Lemma encodeSnod_ok es : len es <= 8 -> encodeSnod (nodeOf es) 8 8 LittleEndian = Ret (snodBytes es).
Proof.
  intros Hn. pose proof (len_nonneg es). unfold encodeSnod. cbv zeta. change (8 + 8 * (8 * 2 + 24)) with 328.
  rewrite (putFields_ret _ [] 328); [|fields_tac|].
  2: { cbn [map snd concat]. autorewrite with len. change (len snod_sig) with 4. lia. }
  cbn [obind map snd concat app put_order].
  rewrite app_nil_r. change (Z.to_nat 8) with 8%nat.
  match goal with |- putSnodEntries _ _ _ ?b _ _ _ = _ =>
    replace b with ((snod_sig ++ [x01] ++ [x00] ++ le_put 2 (len es)) ++ zeros 320) by done end.
  replace 8%nat with (length es + (8 - length es))%nat by (unfold len in *; lia).
  rewrite (putSnodEntries_ok es [] (snod_sig ++ [x01] ++ [x00] ++ le_put 2 (len es)) 320) by lia.
  unfold snodBytes. rewrite <- !app_assoc. by replace (320 - 40 * len es) with ((8 - len es) * 40) by lia.
Qed.

Lemma parseSnodEntry_ok data pre e post offset : plain e -> data = pre ++ entryBytes e ++ post -> offset = len pre ->
  parseSnodEntry data offset 8 LittleEndian = Ret e.
Proof.
  intros (Hl & Ho & He) -> ->. unfold parseSnodEntry, entryBytes. rewrite <- !app_assoc.
  erewrite (readAddress_at _ pre (LinkNameOffset e)) by done. cbn [obind].
  rewrite (readAddress_at _ (pre ++ le_put 8 (LinkNameOffset e)) (ObjectAddress e)
    (le_put 4 (CacheType e) ++ le_put 4 (sReserved e) ++ zeros 16 ++ post)) by
    (rewrite ?len_app, ?len_le_put, <- ?app_assoc; done). cbn [obind].
  assert (CacheType e = 0) as HC by by rewrite He. assert (sReserved e = 0) as HR by by rewrite He.
  rewrite (readU_at 4 _ (pre ++ le_put 8 (LinkNameOffset e) ++ le_put 8 (ObjectAddress e)) 0
    (le_put 4 (sReserved e) ++ zeros 16 ++ post)) by
    (rewrite ?len_app, ?len_le_put, <- ?app_assoc, ?HC; done || lia). cbn [obind].
  rewrite (readU_at 4 _ (pre ++ le_put 8 (LinkNameOffset e) ++ le_put 8 (ObjectAddress e) ++ le_put 4 0) 0
    (zeros 16 ++ post)) by
    (rewrite ?len_app, ?len_le_put, <- ?app_assoc, ?HC, ?HR; done || lia). cbn [obind Z.eqb CacheTypeSymbolTable].
  by rewrite <- He.
Qed.

Lemma parseSnodEntries_ok es : forall data pre post offset, Forall plain es ->
  data = pre ++ concat (map entryBytes es) ++ post -> offset = len pre ->
  parseSnodEntries (length es) data offset 8 LittleEndian = Ret es.
Proof.
  induction es as [|e es IH]; intros data pre post offset Hp Hd Ho; cbn [length parseSnodEntries]; [done|].
  apply Forall_cons in Hp as [He Hp]. cbn [map concat] in Hd. rewrite <- app_assoc in Hd.
  assert (offset + (8 * 2 + 24) <= len data) as Hl by
    (rewrite Hd, Ho, !len_app, len_snodEntryBytes; pose proof (len_nonneg (concat (map entryBytes es))); pose proof (len_nonneg post); lia).
  destruct (Z.gtb_spec (offset + (8 * 2 + 24)) (len data)); [lia|]. cbn [negb].
  rewrite (parseSnodEntry_ok _ _ e _ _ He Hd Ho). cbn [obind].
  rewrite (IH data (pre ++ entryBytes e) post); [done|done|by rewrite <- app_assoc|].
  rewrite len_app, len_snodEntryBytes. lia.
Qed.

Lemma ParseSymbolTableNode_ok f a es sb :
  OffsetSize sb = 8 -> Endianness sb = LittleEndian -> a + 328 < 2 ^ 63 -> len es <= 8 -> Forall plain es ->
  stored f a (snodBytes es) -> ParseSymbolTableNode f a sb = Ret (nodeOf es).
Proof.
  intros HO HE Ha Hn Hp Hst. destruct (stored_bounds _ _ _ Hst) as [Ha0 _]. pose proof (len_nonneg es).
  unfold ParseSymbolTableNode. rewrite HO, HE, !i64_id by lia.
  set (h := snod_sig ++ [x01] ++ [x00] ++ le_put 2 (len es)).
  assert (snodBytes es = h ++ concat (map entryBytes es) ++ zeros ((8 - len es) * 40)) as Hb
    by (unfold snodBytes, h; by rewrite <- !app_assoc).
  assert (len h = 8) as Hh by done. rewrite Hb in Hst.
  pose proof (stored_app_l _ _ _ _ Hst) as H1. unfold stored in H1. rewrite Hh in H1. rewrite H1. cbn [obind].
  change (take 4 h) with snod_sig. rewrite bool_decide_true by done.
  change (idx h 4) with (@Ret byte x01). cbn [obind]. change (b2z x01 =? 1) with true. cbn iota.
  rewrite (readU_at 2 h (snod_sig ++ [x01] ++ [x00]) (len es) []) by (done || lia || (unfold h; by rewrite app_nil_r, <- !app_assoc)).
  cbn [obind]. cbv zeta. destruct (Z.gtb_spec (len es) 8); [lia|].
  destruct (Z.eqb_spec (len es) 0) as [Hz|_].
  { apply len_0_nil in Hz as ->. done. }
  pose proof (stored_app_l _ _ _ _ (stored_app_r _ _ _ _ Hst)) as H2. unfold stored in H2.
  rewrite Hh, len_entriesBytes in H2. replace (len es * (8 * 2 + 24)) with (40 * len es) by lia.
  rewrite H2. cbn [obind]. replace (Z.to_nat (len es)) with (length es) by (unfold len; lia).
  rewrite (parseSnodEntries_ok es _ [] [] 0 Hp); [done| |done]. by rewrite app_nil_r.
Qed.

(** *** B-tree nodes *)

(** Key [i] and child [i]; the last of 33 keys has no child. *)
Definition slotBytes (btn : BTreeNodeV1) (i : nat) : bytes :=
  le_put 8 (default 0 (gKeys btn !! i)) ++
  (if Z.of_nat i <? 32 then le_put 8 (default 0 (ChildPointers btn !! i)) else []).

Definition groupNodeBytes (btn : BTreeNodeV1) : bytes :=
  tree_sig ++ [z2b (gNodeType btn)] ++ [z2b (gNodeLevel btn)] ++ le_put 2 (gEntriesUsed btn) ++
  le_put 8 (gLeftSibling btn) ++ le_put 8 (gRightSibling btn) ++ concat (map (slotBytes btn) (seq 0 33)).

Lemma len_slots btn n i : (i + n <= 32)%nat -> len (concat (map (slotBytes btn) (seq i n))) = 16 * Z.of_nat n.
Proof.
  revert i. induction n as [|n IH]; intros i Hi; [done|]. cbn [seq map concat]. rewrite len_app, IH by lia.
  unfold slotBytes. destruct (Z.ltb_spec (Z.of_nat i) 32); [|lia]. len_lia.
Qed.

Lemma len_slots33 btn : len (concat (map (slotBytes btn) (seq 0 33))) = 520.
Proof.
  change (seq 0 33) with (seq 0 32 ++ [32%nat]). rewrite map_app, concat_app, len_app, len_slots by lia. done.
Qed.

Lemma len_groupNodeBytes btn : len (groupNodeBytes btn) = 544.
Proof.
  unfold groupNodeBytes. rewrite !len_app, len_slots33, !len_le_put, !len_cons, !len_nil. done.
Qed.

Lemma putKeys_ok btn n : forall i pre k pos, pos = len pre -> (i + n <= 33)%nat ->
  k = len (concat (map (slotBytes btn) (seq i n))) ->
  putKeys n (Z.of_nat i) 32 btn (pre ++ zeros k) pos 8 LittleEndian = Ret (pre ++ concat (map (slotBytes btn) (seq i n))).
Proof.
  induction n as [|n IH]; intros i pre k pos -> Hi Hk; cbn [putKeys seq map concat] in *.
  - rewrite Hk. cbn. by rewrite !app_nil_r.
  - rewrite len_app in Hk. pose proof (len_nonneg (concat (map (slotBytes btn) (seq (S i) n)))) as Hr.
    assert (Hs : len (slotBytes btn i) = if Z.of_nat i <? 32 then 16 else 8) by
      (unfold slotBytes; rewrite len_app; destruct (Z.of_nat i <? 32); done).
    unfold writeAddr. rewrite Nat2Z.id, writeAddr_cursor by (destruct (Z.of_nat i <? 32); lia). cbn [obind].
    replace (Z.of_nat i + 1) with (Z.of_nat (S i)) by lia. rewrite (app_assoc pre).
    destruct (Z.ltb_spec (Z.of_nat i) 32) as [Hlt|Hge].
    + rewrite writeAddr_cursor by (rewrite ?len_app, ?len_le_put; lia). cbn [obind].
      rewrite (IH (S i)) by (rewrite ?len_app, ?len_le_put; lia). f_equal. unfold slotBytes.
      destruct (Z.ltb_spec (Z.of_nat i) 32); [|lia]. by rewrite <- !app_assoc.
    + cbn [obind]. rewrite (IH (S i)) by (rewrite ?len_app, ?len_le_put; lia). f_equal. unfold slotBytes.
      destruct (Z.ltb_spec (Z.of_nat i) 32); [lia|]. by rewrite app_nil_r, <- !app_assoc.
Qed.

Lemma encodeGroupNode_ok btn : encodeGroupNode btn 8 16 LittleEndian = Ret (groupNodeBytes btn).
Proof.
  unfold encodeGroupNode. cbv zeta. change (8 + 2 * 8 + (2 * 16 + 1) * 8 + 2 * 16 * 8) with 544.
  rewrite (putFields_ret _ [] 544); [|fields_tac|].
  2: { cbn [map snd concat]. autorewrite with len. change (len tree_sig) with 4. lia. }
  cbn [obind map snd concat app put_order]. rewrite app_nil_r.
  match goal with |- context [writeAddr ?b 8] =>
    replace b with ((tree_sig ++ [z2b (gNodeType btn)] ++ [z2b (gNodeLevel btn)] ++ le_put 2 (gEntriesUsed btn)) ++ zeros 536) by done end.
  unfold writeAddr. rewrite writeAddr_cursor by done. cbn [obind]. rewrite writeAddr_cursor by done. cbn [obind].
  change 0 with (Z.of_nat 0). change (Z.to_nat (2 * 16 + 1)) with 33%nat. change (2 * 16) with 32.
  rewrite putKeys_ok by (rewrite ?len_slots33; done || lia). unfold groupNodeBytes. by rewrite <- !app_assoc.
Qed.

(** A leaf whose children are the addresses [cs]. *)
Definition leafOf (keys cs : list Z) : BTreeNodeV1 := mkGNode 0 0 (len cs) MaxUint64 MaxUint64 keys cs 33.

Definition addr_ok (a : Z) : Prop := 0 < a < MaxUint64.

Lemma addr_ok_u64 a : addr_ok a -> is_u 64 a.
Proof. unfold addr_ok, MaxUint64, is_u. lia. Qed.

Lemma slot_at keys cs i : (i < length cs)%nat -> len cs <= 32 ->
  exists c, cs !! i = Some c /\ slotBytes (leafOf keys cs) i = le_put 8 (default 0 (keys !! i)) ++ le_put 8 c.
Proof.
  intros Hi Hc. destruct (idx_some cs i Hi) as [c E]. exists c. split; [done|]. unfold slotBytes.
  destruct (Z.ltb_spec (Z.of_nat i) 32); [|unfold len in *; lia]. cbn [gKeys ChildPointers leafOf]. by rewrite E.
Qed.

Lemma len_slot keys cs i : (i < length cs)%nat -> len cs <= 32 -> len (slotBytes (leafOf keys cs) i) = 16.
Proof. intros Hi Hc. destruct (slot_at keys cs i Hi Hc) as (c & _ & ->). done. Qed.

Lemma readSnodAddresses_ok keys cs n : forall i data pre post pos,
  Forall addr_ok cs -> len cs <= 32 -> (i + n = length cs)%nat ->
  data = pre ++ concat (map (slotBytes (leafOf keys cs)) (seq i n)) ++ post -> pos = len pre ->
  readSnodAddresses n data pos 8 LittleEndian = Ret (drop i cs).
Proof.
  induction n as [|n IH]; intros i data pre post pos Ha Hc Hn Hd ->; cbn [readSnodAddresses].
  - by rewrite drop_ge by lia.
  - cbn [seq map concat] in Hd. rewrite <- app_assoc in Hd.
    destruct (slot_at keys cs i ltac:(lia) Hc) as (c & E & Hs). rewrite Hs in Hd.
    assert (addr_ok c) as Hac by (by apply (proj1 (Forall_lookup _ _) Ha i)).
    set (tail := concat (map (slotBytes (leafOf keys cs)) (seq (S i) n)) ++ post) in *.
    assert (readAddressAt data (len pre + 8) 8 LittleEndian = Ret c) as Hr.
    { apply (readAddress_at data (pre ++ le_put 8 (default 0 (keys !! i))) c tail); [|len_lia|by apply addr_ok_u64].
      by rewrite Hd, <- !app_assoc. }
    unfold readAddressAt in Hr. apply obind_ret_inv in Hr as (tl & -> & Hr). cbn [obind]. unfold group_readAddress. rewrite Hr. cbn [obind].
    rewrite (IH (S i) data (pre ++ slotBytes (leafOf keys cs) i) post);
      [|done|done|lia|by rewrite Hd, Hs, <- !app_assoc|rewrite len_app, len_slot by lia; lia].
    cbn [obind]. unfold addr_ok in Hac. destruct (Z.eqb_spec c 0); [lia|]. destruct (Z.eqb_spec c MaxUint64); [lia|].
    cbn [negb andb]. by rewrite (drop_S _ _ _ E).
Qed.

(** The parts of a stored B-tree node: its header, and its slots with the final key. *)
Lemma groupNode_parts f a keys cs : len cs <= 32 -> stored f a (groupNodeBytes (leafOf keys cs)) ->
  exists k, read_at f a 24 = Ret (tree_sig ++ [x00; x00] ++ le_put 2 (len cs) ++ le_put 8 MaxUint64 ++ le_put 8 MaxUint64) /\
    read_at f (a + 24) (16 * len cs + 8) =
      Ret (concat (map (slotBytes (leafOf keys cs)) (seq 0 (length cs))) ++ le_put 8 k).
Proof.
  intros Hc Hst. pose proof (len_nonneg cs).
  set (h := tree_sig ++ [x00; x00] ++ le_put 2 (len cs) ++ le_put 8 MaxUint64 ++ le_put 8 MaxUint64).
  set (sl := map (slotBytes (leafOf keys cs))).
  assert (Hb : groupNodeBytes (leafOf keys cs) = h ++ concat (sl (seq 0 33))) by
    (unfold groupNodeBytes, h; cbn [gNodeType gNodeLevel gEntriesUsed gLeftSibling gRightSibling leafOf]; rewrite <- !app_assoc; done).
  rewrite Hb in Hst. pose proof (stored_app_l _ _ _ _ Hst) as H1. apply stored_app_r in Hst.
  change (len h) with 24 in Hst. exists (default 0 (keys !! length cs)).
  split; [exact H1|].
  replace (seq 0 33) with (seq 0 (length cs) ++ length cs :: seq (S (length cs)) (32 - length cs)) in Hst.
  2: { change (length cs :: seq (S (length cs)) (32 - length cs)) with (seq (length cs) (S (32 - length cs))).
       rewrite <- seq_app. f_equal. unfold len in Hc. lia. }
  unfold sl in Hst. rewrite map_app, concat_app in Hst. cbn [map concat] in Hst.
  unfold slotBytes at 2 in Hst. rewrite <- !app_assoc in Hst. rewrite app_assoc in Hst. apply stored_app_l in Hst.
  unfold stored in Hst. rewrite len_app, len_slots, len_le_put in Hst by (unfold len in Hc; lia).
  replace (16 * len cs + 8) with (16 * Z.of_nat (length cs) + Z.of_nat 8) by done. exact Hst.
Qed.

Lemma collectEntries_ok f sb cs ess :
  OffsetSize sb = 8 -> Endianness sb = LittleEndian ->
  Forall2 (fun a es => a + 328 < 2 ^ 63 /\ len es <= 8 /\ Forall plain es /\ stored f a (snodBytes es)) cs ess ->
  collectEntries f cs sb = Ret (concat ess).
Proof.
  intros HO HE. induction 1 as [|a es cs ess (Ha & Hn & Hp & Hst) _ IH]; [done|]. cbn [collectEntries concat].
  rewrite (ParseSymbolTableNode_ok f a es) by done. rewrite IH. cbn [obind Entries nodeOf]. do 2 f_equal.
  clear -Hp. induction Hp as [|e es (_ & _ & He) Hp IH]; [done|]. cbn [map]. rewrite IH. f_equal. by rewrite He.
Qed.

Lemma ReadGroupBTreeEntries_ok f a keys cs ess sb :
  OffsetSize sb = 8 -> Endianness sb = LittleEndian -> 0 <= a < 2 ^ 63 - 24 -> len cs <= 32 -> Forall addr_ok cs ->
  stored f a (groupNodeBytes (leafOf keys cs)) ->
  Forall2 (fun a es => a + 328 < 2 ^ 63 /\ len es <= 8 /\ Forall plain es /\ stored f a (snodBytes es)) cs ess ->
  ReadGroupBTreeEntries f a sb = Ret (concat ess).
Proof.
  intros HO HE Ha Hc Hac Hst Hf. destruct (groupNode_parts f a keys cs Hc Hst) as (k & H1 & H2).
  pose proof (len_nonneg cs). unfold ReadGroupBTreeEntries. rewrite HO, HE. change (4 + 1 + 1 + 2 + 8 * 2) with 24.
  rewrite !i64_id by (rewrite ?i64_id; lia). rewrite H1. cbn [obind].
  set (h := tree_sig ++ _). change (take 4 h) with tree_sig. rewrite bool_decide_true by done.
  change (idx h 4) with (@Ret byte x00). change (idx h 5) with (@Ret byte x00). cbn [obind].
  change (b2z x00 =? 0) with true. cbn iota.
  rewrite (readU_at 2 h (tree_sig ++ [x00; x00]) (len cs) (le_put 8 MaxUint64 ++ le_put 8 MaxUint64)) by
    (done || lia || (unfold h; by rewrite <- !app_assoc)). cbn [obind].
  destruct (Z.eqb_spec (len cs) 0) as [Hz|_].
  { apply len_0_nil in Hz as ->. apply Forall2_nil_inv_l in Hf as ->. done. }
  replace (len cs * 2 * 8 + 8) with (16 * len cs + 8) by lia. rewrite H2. cbn [obind].
  replace (Z.to_nat (len cs)) with (length cs) by (unfold len; lia).
  rewrite (readSnodAddresses_ok keys cs (length cs) 0 _ [] (le_put 8 k) 0) by done. cbn [obind].
  rewrite drop_0. by apply collectEntries_ok.
Qed.
