(* ===== verification/Groups.v ===== *)
(** * Groups: group_write.go

    Symbol-table groups of a file open for writing: creating them, linking
    objects into them, removing links and looking paths up.  A path is the list
    of its bytes. *)

From S2P Require Import Prelude Allocator Storage Superblock Messages ObjectHeader LocalHeap GroupTree.

(** ** State *)

Record GroupMetadata := mkMeta {
  heapAddr : Z;
  stNodeAddr : Z;
  btreeAddr : Z;
  headerAddr : Z;
  headerAllocSz : Z }.

(** The parts of hdf5.FileWriter that groups and datasets use: the file, the
    superblock, the root group's addresses and the groups created so far. *)
Record FileW (St : Type) := mkFW {
  storage : St;
  sblock : Superblock;
  rootGroupAddr : Z;
  rootBTreeAddr : Z;
  rootHeapAddr : Z;
  rootStNodeAddr : Z;
  rootHeaderAllocSz : Z;
  groups : gmap bytes GroupMetadata }.
Arguments mkFW {St}.
Arguments storage {St}.
Arguments sblock {St}.
Arguments rootGroupAddr {St}.
Arguments rootBTreeAddr {St}.
Arguments rootHeapAddr {St}.
Arguments rootStNodeAddr {St}.
Arguments rootHeaderAllocSz {St}.
Arguments groups {St}.

Definition with_storage {St} (fw : FileW St) (st : St) : FileW St :=
  mkFW st (sblock fw) (rootGroupAddr fw) (rootBTreeAddr fw) (rootHeapAddr fw) (rootStNodeAddr fw)
    (rootHeaderAllocSz fw) (groups fw).
Definition with_rootHeap {St} (fw : FileW St) (a : Z) : FileW St :=
  mkFW (storage fw) (sblock fw) (rootGroupAddr fw) (rootBTreeAddr fw) a (rootStNodeAddr fw)
    (rootHeaderAllocSz fw) (groups fw).
Definition with_rootStNode {St} (fw : FileW St) (a : Z) : FileW St :=
  mkFW (storage fw) (sblock fw) (rootGroupAddr fw) (rootBTreeAddr fw) (rootHeapAddr fw) a
    (rootHeaderAllocSz fw) (groups fw).
Definition with_groups {St} (fw : FileW St) (g : gmap bytes GroupMetadata) : FileW St :=
  mkFW (storage fw) (sblock fw) (rootGroupAddr fw) (rootBTreeAddr fw) (rootHeapAddr fw) (rootStNodeAddr fw)
    (rootHeaderAllocSz fw) g.

(** ** Constants *)

Definition groupLeafNodeK : Z := 4.
Definition snodCapacity : Z := 2 * groupLeafNodeK.
Definition snodEntrySize : Z := 2 * 8 + 4 + 4 + 16.
Definition snodTotalSize : Z := 8 + snodCapacity * snodEntrySize.
Definition groupBTreeK : Z := 16.

(** ** Paths *)

Definition slash : byte := x2f.
Definition is_root (path : bytes) : bool := bool_decide (path = []) || bool_decide (path = [slash]).
Definition HasSlashPrefix (path : bytes) : bool := bool_decide (head path = Some slash).

Definition validateGroupPath (path : bytes) : outcome () :=
  guard negb (bool_decide (path = [])) else "group path cannot be empty";;
  guard HasSlashPrefix path else "group path must start with '/'";;
  guard negb (bool_decide (path = [slash])) else "root group already exists";;
  Ret tt.

Definition TrimSlashSuffix (path : bytes) : bytes :=
  if bool_decide (last path = Some slash) then take (length path - 1) path else path.

(** [strings.LastIndex(path, "/")]; [i] is the index of the head of [l]. *)
Fixpoint lastIndex (l : bytes) (i : Z) (found : Z) : Z :=
  match l with
  | [] => found
  | b :: l => lastIndex l (i + 1) (if byte_eqb b slash then i else found)
  end.

Definition parsePath (path : bytes) : outcome (bytes * bytes) :=
  if bool_decide (path = [slash]) then Ret ([], [])
  else
    let path := TrimSlashSuffix path in
    let lastSlash := lastIndex path 0 (-1) in
    if lastSlash =? 0 then let! name := slice path 1 (len path) in Ret ([], name)
    else
      let! parent := slice path 0 lastSlash in
      let! name := slice path (lastSlash + 1) (len path) in
      Ret (parent, name).

(** ** Symbol table messages *)

Definition EncodeSymbolTableMessage (btreeAddr heapAddr offsetSize : Z) : outcome bytes :=
  let! buf := writeUint64 (zeros (2 * offsetSize)) 0 btreeAddr offsetSize LittleEndian in
  writeUint64 buf offsetSize heapAddr offsetSize LittleEndian.

Definition readAddrFromBuf (data : bytes) (size : Z) (o : ByteOrder) : outcome Z :=
  let size := if size >? len data then len data else size in
  if (size =? 2) || (size =? 4) || (size =? 8)
  then let! d := slice data 0 size in Ret (get_order o d)
  else let! b := idx data 0 in Ret (b2z b).

(** ** Names in order *)

(** Go's [<] on strings. *)
Fixpoint bytes_lt (a b : bytes) : bool :=
  match a, b with
  | [], _ :: _ => true
  | x :: a, y :: b => if b2z x <? b2z y then true else if b2z y <? b2z x then false else bytes_lt a b
  | _, [] => false
  end.

Definition resolveEntryName (heap : LocalHeap) (nameOffset : Z) (childName : bytes) (entry : SymbolTableEntry) : bytes :=
  if LinkNameOffset entry =? nameOffset then childName
  else match GetString heap (LinkNameOffset entry) with Ret name => name | _ => [] end.

Definition name_le (name : SymbolTableEntry -> bytes) (a b : SymbolTableEntry) : Prop := bytes_lt (name b) (name a) = false.
#[global] Instance name_le_dec name : RelDecision (name_le name).
Proof. intros a b. unfold name_le. apply _. Defined.

(** [sort.Slice] by name. *)
Definition sortEntriesByName (entries : list SymbolTableEntry) (heap : LocalHeap) (nameOffset : Z) (childName : bytes)
    : list SymbolTableEntry :=
  merge_sort (name_le (resolveEntryName heap nameOffset childName)) entries.

(** ** Reading a group back *)

Definition readLocalHeap (file : bytes) (addr : Z) (sb : Superblock) : outcome LocalHeap :=
  let! heap := LoadLocalHeap file addr sb in
  let! heap := PrepareForModification heap in
  Ret (mkHeap (lhData heap) (lhHeaderSize heap) (DataSegmentSize heap) 1 (DataSegmentAddress heap) (lhStrings heap)).

(** Keys, children, and the children that are addresses of symbol table nodes. *)
Fixpoint readNodeEntries (n : nat) (data : bytes) (pos offsetSize : Z) (o : ByteOrder)
    : outcome (list Z * list Z * list Z) :=
  match n with
  | O => Ret ([], [], [])
  | S n =>
      let! tl := slice data pos (len data) in
      let! key := readAddrFromBuf tl offsetSize o in
      let! tl := slice data (pos + offsetSize) (len data) in
      let! child := readAddrFromBuf tl offsetSize o in
      let! (keys, children, snods) := readNodeEntries n data (pos + offsetSize + offsetSize) offsetSize o in
      Ret (key :: keys, child :: children,
           if negb (child =? 0) && negb (child =? MaxUint64) then child :: snods else snods)
  end.

Definition readGroupBTree (file : bytes) (btreeAddr : Z) (sb : Superblock) : outcome (BTreeNodeV1 * list Z) :=
  let offsetSize := OffsetSize sb in
  let headerSize := 8 + 2 * offsetSize in
  let! header := read_at file (i64 btreeAddr) headerSize in
  guard bool_decide (take 4 header = tree_sig) else "invalid B-tree signature";;
  let! entriesUsed := readU 2 (Endianness sb) header 6 in
  let dataSize := (entriesUsed + 1) * offsetSize + entriesUsed * offsetSize in
  let! data := read_at file (i64 (i64 btreeAddr + headerSize)) dataSize in
  let! nodeType := idx header 4 in
  let! nodeLevel := idx header 5 in
  let! (keys, children, snodAddrs) := readNodeEntries (Z.to_nat entriesUsed) data 0 offsetSize (Endianness sb) in
  let pos := entriesUsed * (offsetSize + offsetSize) in
  let! keys :=
    (if pos + offsetSize <=? len data then
       let! tl := slice data pos (len data) in
       let! finalKey := readAddrFromBuf tl offsetSize (Endianness sb) in Ret (keys ++ [finalKey])
     else Ret keys) in
  Ret (mkGNode (b2z nodeType) (b2z nodeLevel) entriesUsed MaxUint64 MaxUint64 keys children (entriesUsed + 1), snodAddrs).

(** The entries of all nodes, in order; a node that cannot be read is an error. *)
Fixpoint readAllEntries (file : bytes) (snodAddrs : list Z) (sb : Superblock) : outcome (list SymbolTableEntry) :=
  match snodAddrs with
  | [] => Ret []
  | addr :: rest =>
      let! sn := ParseSymbolTableNode file addr sb in
      let! es := readAllEntries file rest sb in
      Ret (Entries sn ++ es)
  end.

(** The first entry called [name], scanning the entries of one node. *)
Fixpoint findName (heap : LocalHeap) (name : bytes) (es : list SymbolTableEntry) : option SymbolTableEntry :=
  match es with
  | [] => None
  | e :: es =>
      match GetString heap (LinkNameOffset e) with
      | Ret linkName => if bool_decide (linkName = name) then Some e else findName heap name es
      | _ => findName heap name es
      end
  end.

(** Here a node that cannot be read is skipped. *)
Fixpoint findInNodes (file : bytes) (sb : Superblock) (heap : LocalHeap) (name : bytes) (snodAddrs : list Z) : outcome Z :=
  match snodAddrs with
  | [] => Err "object not found"
  | addr :: rest =>
      match ParseSymbolTableNode file addr sb with
      | Panic => Panic
      | Err _ => findInNodes file sb heap name rest
      | Ret stNode =>
          match findName heap name (Entries stNode) with
          | Some entry => Ret (ObjectAddress entry)
          | None => findInNodes file sb heap name rest
          end
      end
  end.

(** Heap and B-tree address of a group. *)
Definition groupAddrs {St} (fw : FileW St) (parentPath : bytes) : outcome (Z * Z) :=
  if is_root parentPath then Ret (rootHeapAddr fw, rootBTreeAddr fw)
  else match groups fw !! parentPath with
       | None => Err "parent group not found"
       | Some meta => Ret (heapAddr meta, btreeAddr meta)
       end.

Section with_storage.
Context `{Storage St}.

Definition resolveObjectAddress (fw : FileW St) (path : bytes) : outcome Z :=
  let file := contents (storage fw) in
  if bool_decide (path = [slash]) then Ret (rootGroupAddr fw)
  else
    guard HasSlashPrefix path else "path must start with /";;
    let! (parent, name) := parsePath path in
    let! (heapAddr, btreeAddr) := groupAddrs fw parent in
    let! (_, snodAddrs) := readGroupBTree file btreeAddr (sblock fw) in
    let! heap := readLocalHeap file heapAddr (sblock fw) in
    findInNodes file (sblock fw) heap name snodAddrs.

(** ** Writing a group *)

(** As many more node addresses as [n] nodes need. *)
Fixpoint allocSnods (fuel : nat) (n : Z) (snodAddrs : list Z) (st : St) : outcome (list Z * St) :=
  if len snodAddrs <? n then
    match fuel with
    | O => Panic
    | S fuel =>
        let! (newAddr, st) := allocate st snodTotalSize in
        allocSnods fuel n (snodAddrs ++ [newAddr]) st
    end
  else Ret (snodAddrs, st).

(** The separator key before node [i]. *)
Definition leftKeyAt (allEntries : list SymbolTableEntry) (i : Z) : outcome Z :=
  if i >? 0 then
    let prevEnd := i * snodCapacity in
    let prevEnd := if prevEnd >? len allEntries then len allEntries else prevEnd in
    let! e := idx allEntries (prevEnd - 1) in Ret (LinkNameOffset e)
  else Ret 0.

Fixpoint addKeys (n : nat) (i : Z) (allEntries : list SymbolTableEntry) (snodAddrs : list Z) (btn : BTreeNodeV1)
    : outcome BTreeNodeV1 :=
  match n with
  | O => Ret btn
  | S n =>
      let! leftKey := leftKeyAt allEntries i in
      let! a := idx snodAddrs i in
      let! btn := AddKey btn leftKey a in
      addKeys n (i + 1) allEntries snodAddrs btn
  end.

Definition appendKey (btn : BTreeNodeV1) (key : Z) : BTreeNodeV1 :=
  mkGNode (gNodeType btn) (gNodeLevel btn) (gEntriesUsed btn) (gLeftSibling btn) (gRightSibling btn)
    (gKeys btn ++ [key]) (ChildPointers btn) (kCapacity btn).

Fixpoint addEntries (sn : SymbolTableNode) (chunk : list SymbolTableEntry) : outcome SymbolTableNode :=
  match chunk with
  | [] => Ret sn
  | e :: chunk => let! sn := AddEntry sn e in addEntries sn chunk
  end.

(** Nodes [i], [i + 1], ...: eight entries each, from [pos] on. *)
Fixpoint writeSnods (n : nat) (i pos : Z) (allEntries : list SymbolTableEntry) (snodAddrs : list Z) (sb : Superblock)
    (st : St) : outcome St :=
  match n with
  | O => Ret st
  | S n =>
      let end_ := pos + snodCapacity in
      let end_ := if end_ >? len allEntries then len allEntries else end_ in
      let! chunk := slice allEntries pos end_ in
      let! sn := addEntries (NewSymbolTableNode snodCapacity) chunk in
      let! a := idx snodAddrs i in
      let! st := snodWriteAt sn st a (OffsetSize sb) snodCapacity (Endianness sb) in
      writeSnods n (i + 1) end_ allEntries snodAddrs sb st
  end.

(** The first 128 bytes of the header, as many as there are, are searched for the
    B-tree address. *)
Definition readUpTo (file : bytes) (off n : Z) : bytes :=
  if 0 <=? off then sub file off n else [].

Fixpoint findBTreeAddr (fuel : nat) (i : Z) (headerBuf : bytes) (msgLen offsetSize btreeAddr : Z) (o : ByteOrder)
    : outcome Z :=
  match fuel with
  | O => Err "symbol table message not found"
  | S fuel =>
      if i <=? len headerBuf - msgLen then
        let! b := idx headerBuf i in
        let! b0 := idx (put_order o 8 btreeAddr) 0 in
        if byte_eqb b b0 && (i + offsetSize <=? len headerBuf) then
          let! tl := slice headerBuf i (len headerBuf) in
          let! candidate := readAddrFromBuf tl offsetSize o in
          if candidate =? btreeAddr then Ret i
          else findBTreeAddr fuel (i + 1) headerBuf msgLen offsetSize btreeAddr o
        else findBTreeAddr fuel (i + 1) headerBuf msgLen offsetSize btreeAddr o
      else Err "symbol table message not found"
  end.

Definition rewriteSymbolTableMessage (fw : FileW St) (headerAddr btreeAddr heapAddr : Z) : outcome (FileW St) :=
  let sb := sblock fw in
  let! stMsg := EncodeSymbolTableMessage btreeAddr heapAddr (OffsetSize sb) in
  let headerBuf := readUpTo (contents (storage fw)) (i64 headerAddr) 128 in
  guard negb (len headerBuf <? 32) else "read object header for rewrite";;
  let! i := findBTreeAddr 129 0 headerBuf (len stMsg) (OffsetSize sb) btreeAddr (Endianness sb) in
  let! st := write_to (storage fw) stMsg (i64 headerAddr + i) in
  Ret (with_storage fw st).

(** For a group other than the root, only the table in memory is updated. *)
Definition updateGroupHeapAddr (fw : FileW St) (parentPath : bytes) (newHeapAddr : Z) : outcome (FileW St) :=
  if is_root parentPath then
    let fw := with_rootHeap fw newHeapAddr in
    rewriteSymbolTableMessage fw (rootGroupAddr fw) (rootBTreeAddr fw) newHeapAddr
  else match groups fw !! parentPath with
       | None => Err "group not found"
       | Some meta =>
           Ret (with_groups fw (<[parentPath := mkMeta newHeapAddr (stNodeAddr meta) (btreeAddr meta)
             (headerAddr meta) (headerAllocSz meta)]> (groups fw)))
       end.

Definition updateGroupStNodeAddr (fw : FileW St) (parentPath : bytes) (a : Z) : FileW St :=
  if is_root parentPath then with_rootStNode fw a
  else match groups fw !! parentPath with
       | None => fw
       | Some meta =>
           with_groups fw (<[parentPath := mkMeta (heapAddr meta) a (btreeAddr meta) (headerAddr meta)
             (headerAllocSz meta)]> (groups fw))
       end.

Definition expandHeapAndAdd (fw : FileW St) (heap : LocalHeap) (parentPath childName : bytes)
    : outcome (LocalHeap * Z * Z * FileW St) :=
  let newSize := u64 (DataSegmentSize heap * 2) in
  let! newHeap := CopyStringsFrom (NewLocalHeap newSize) heap in
  let! (nameOffset, newHeap) := AddString newHeap childName in
  let! (newHeapAddr, st) := allocate (storage fw) (heapSize newHeap) in
  let! fw := updateGroupHeapAddr (with_storage fw st) parentPath newHeapAddr in
  Ret (newHeap, newHeapAddr, nameOffset, fw).

(** How many nodes [n] entries take. *)
Definition snodCount (n : Z) : Z :=
  let numSNODs := (n + snodCapacity - 1) / snodCapacity in
  if numSNODs <? 1 then 1 else numSNODs.

Definition linkToParent (fw : FileW St) (parentPath childName : bytes) (childAddr : Z) : outcome (FileW St) :=
  let sb := sblock fw in
  let! (heapAddr, btreeAddr) := groupAddrs fw parentPath in
  let! heap := readLocalHeap (contents (storage fw)) heapAddr sb in
  let! (heap, heapAddr, nameOffset, fw) :=
    (match AddString heap childName with
     | Ret (nameOffset, heap) => Ret (heap, heapAddr, nameOffset, fw)
     | Err _ => expandHeapAndAdd fw heap parentPath childName
     | Panic => Panic
     end) in
  let! (btreeNode, snodAddrs) := readGroupBTree (contents (storage fw)) btreeAddr sb in
  let! allEntries := readAllEntries (contents (storage fw)) snodAddrs sb in
  let newEntry := mkEntry nameOffset childAddr 0 0 0 0 0 in
  let allEntries := sortEntriesByName (allEntries ++ [newEntry]) heap nameOffset childName in
  let numSNODs := snodCount (len allEntries) in
  let! (snodAddrs, st) := allocSnods (Z.to_nat numSNODs) numSNODs snodAddrs (storage fw) in
  let! newBTree := addKeys (Z.to_nat numSNODs) 0 allEntries snodAddrs (NewBTreeNodeV1 0 groupBTreeK) in
  let! lastEntry := idx allEntries (len allEntries - 1) in
  let newBTree := appendKey newBTree (LinkNameOffset lastEntry) in
  let! st := btreeWriteAt newBTree st btreeAddr (OffsetSize sb) groupBTreeK (Endianness sb) in
  let! first := idx snodAddrs 0 in
  let fw := if bool_decide (head (ChildPointers btreeNode) = Some first) then fw
            else updateGroupStNodeAddr fw parentPath first in
  let! st := writeSnods (Z.to_nat numSNODs) 0 0 allEntries snodAddrs sb st in
  let! (_, st) := heapWriteTo heap st heapAddr in
  Ret (with_storage fw st).

(** The index of the first entry called [childName]. *)
Fixpoint findIdx (heap : LocalHeap) (childName : bytes) (es : list SymbolTableEntry) : option nat :=
  match es with
  | [] => None
  | e :: es =>
      match GetString heap (LinkNameOffset e) with
      | Ret name => if bool_decide (name = childName) then Some 0%nat else S <$> findIdx heap childName es
      | _ => S <$> findIdx heap childName es
      end
  end.

Definition unlinkFromParent (fw : FileW St) (parentPath childName : bytes) : outcome (Z * FileW St) :=
  let sb := sblock fw in
  let file := contents (storage fw) in
  let! (heapAddr, btreeAddr) := groupAddrs fw parentPath in
  let! heap := readLocalHeap file heapAddr sb in
  let! (_, snodAddrs) := readGroupBTree file btreeAddr sb in
  let! allEntries := readAllEntries file snodAddrs sb in
  match findIdx heap childName allEntries with
  | None => Err "child not found in parent group"
  | Some foundIdx =>
      let! removed := idx allEntries (Z.of_nat foundIdx) in
      let allEntries := take foundIdx allEntries ++ drop (S foundIdx) allEntries in
      let numSNODs := if len allEntries >? 0 then (len allEntries + snodCapacity - 1) / snodCapacity else 1 in
      let! (snodAddrs, st) := allocSnods (Z.to_nat numSNODs) numSNODs snodAddrs (storage fw) in
      let! snodAddrs := slice snodAddrs 0 numSNODs in
      let! newBTree :=
        (if len allEntries >? 0 then
           let! b := addKeys (Z.to_nat numSNODs) 0 allEntries snodAddrs (NewBTreeNodeV1 0 groupBTreeK) in
           let! lastEntry := idx allEntries (len allEntries - 1) in
           Ret (appendKey b (LinkNameOffset lastEntry))
         else
           let! a := idx snodAddrs 0 in
           let! b := AddKey (NewBTreeNodeV1 0 groupBTreeK) 0 a in
           Ret (appendKey b 0)) in
      let! st := btreeWriteAt newBTree st btreeAddr (OffsetSize sb) groupBTreeK (Endianness sb) in
      let! st := writeSnods (Z.to_nat numSNODs) 0 0 allEntries snodAddrs sb st in
      let! (_, st) := heapWriteTo heap st heapAddr in
      Ret (ObjectAddress removed, with_storage fw st)
  end.

(** Heap, symbol table node and B-tree of a new group. *)
Definition createGroupStructures (fw : FileW St) : outcome (Z * Z * Z * FileW St) :=
  let sb := sblock fw in
  let offsetSize := OffsetSize sb in
  let heap := NewLocalHeap 4096 in
  let! (heapAddr, st) := allocate (storage fw) (heapSize heap) in
  let! (stNodeAddr, st) := allocate st snodTotalSize in
  let! st := snodWriteAt (NewSymbolTableNode snodCapacity) st stNodeAddr offsetSize snodCapacity (Endianness sb) in
  let! btree := AddKey (NewBTreeNodeV1 0 groupBTreeK) 0 stNodeAddr in
  let btreeSize := 24 + (2 * 16 + 1) * offsetSize + 2 * 16 * offsetSize in
  let! (btreeAddr, st) := allocate st btreeSize in
  let! st := btreeWriteAt btree st btreeAddr offsetSize groupBTreeK (Endianness sb) in
  let! (_, st) := heapWriteTo heap st heapAddr in
  Ret (heapAddr, stNodeAddr, btreeAddr, with_storage fw st).

(** The new group's object header address is the result. *)
Definition CreateGroup (fw : FileW St) (path : bytes) : outcome (Z * FileW St) :=
  let! _ := validateGroupPath path in
  let! (parent, name) := parsePath path in
  guard is_root parent || bool_decide (is_Some (groups fw !! parent)) else "parent group does not exist";;
  let! (heapAddr, stNodeAddr, btreeAddr, fw) := createGroupStructures fw in
  let! stMsg := EncodeSymbolTableMessage btreeAddr heapAddr (OffsetSize (sblock fw)) in
  let! ohw := PadToSize (mkHeaderWriter 2 0 [(MsgSymbolTable, stMsg)] 0) MinOHDRAllocSize in
  let! headerSize := Size_ ohw in
  let! (headerAddr, st) := allocate (storage fw) headerSize in
  let! (writtenSize, st) := storeHeader ohw st headerAddr in
  guard writtenSize =? headerSize else "header size mismatch";;
  let fw := with_groups (with_storage fw st)
    (<[path := mkMeta heapAddr stNodeAddr btreeAddr headerAddr headerSize]> (groups fw)) in
  let! fw := linkToParent fw parent name headerAddr in
  Ret (headerAddr, fw).
End with_storage.

(** ** Creating a file (dataset_write.go) *)

Record rootGroupInfo := mkRootInfo {
  groupAddr : Z;
  groupSize : Z;
  riBtreeAddr : Z;
  riHeapAddr : Z;
  riStNodeAddr : Z;
  riHeapSize : Z }.

Section root_group.
Context `{Storage St}.

Definition writeSymbolTableNodeAt (st : St) (addr offsetSize : Z) : outcome St :=
  snodWriteAt (NewSymbolTableNode snodCapacity) st addr offsetSize snodCapacity LittleEndian.

Definition createSymbolTableNode (st : St) (offsetSize : Z) : outcome (Z * St) :=
  let! (rootStNodeAddr, st) := allocate st snodTotalSize in
  let! st := snodWriteAt (NewSymbolTableNode snodCapacity) st rootStNodeAddr offsetSize snodCapacity LittleEndian in
  Ret (rootStNodeAddr, st).

Definition writeBTreeNodeAt (st : St) (addr stNodeAddr offsetSize : Z) : outcome St :=
  let! rootBTree := AddKey (NewBTreeNodeV1 0 16) 0 stNodeAddr in
  btreeWriteAt rootBTree st addr offsetSize 16 LittleEndian.

Definition createBTreeNode (st : St) (stNodeAddr offsetSize : Z) : outcome (Z * St) :=
  let! rootBTree := AddKey (NewBTreeNodeV1 0 16) 0 stNodeAddr in
  let btreeSize := 24 + (2 * 16 + 1) * offsetSize + 2 * 16 * offsetSize in
  let! (rootBTreeAddr, st) := allocate st btreeSize in
  let! st := btreeWriteAt rootBTree st rootBTreeAddr offsetSize 16 LittleEndian in
  Ret (rootBTreeAddr, st).

Definition writeRootGroupHeaderAt (st : St) (addr btreeAddr heapAddr offsetSize objectHeaderVersion : Z)
    : outcome (Z * St) :=
  let! stMsg := EncodeSymbolTableMessage btreeAddr heapAddr offsetSize in
  storeHeader (mkHeaderWriter objectHeaderVersion 0 [(MsgSymbolTable, stMsg)] 1) st addr.

Definition writeRootGroupHeader (st : St) (btreeAddr heapAddr offsetSize : Z) : outcome (Z * Z * St) :=
  let! stMsg := EncodeSymbolTableMessage btreeAddr heapAddr offsetSize in
  let! rootGroupHeader := PadToSize (mkHeaderWriter 2 0 [(MsgSymbolTable, stMsg)] 1) MinOHDRAllocSize in
  let! rootGroupSize := Size_ rootGroupHeader in
  let! (rootGroupAddr, st) := allocate st rootGroupSize in
  let! (writtenSize, st) := storeHeader rootGroupHeader st rootGroupAddr in
  guard writtenSize =? rootGroupSize else "root group size mismatch";;
  Ret (rootGroupAddr, rootGroupSize, st).

Definition createRootGroupStructureV2 (st : St) : outcome (rootGroupInfo * St) :=
  let rootHeap := NewLocalHeap 4096 in
  let! (rootHeapAddr, st) := allocate st (heapSize rootHeap) in
  let! (rootStNodeAddr, st) := createSymbolTableNode st 8 in
  let! (rootBTreeAddr, st) := createBTreeNode st rootStNodeAddr 8 in
  let! (rootHeap, st) := heapWriteTo rootHeap st rootHeapAddr in
  let! (rootGroupAddr, rootGroupSize, st) := writeRootGroupHeader st rootBTreeAddr rootHeapAddr 8 in
  Ret (mkRootInfo rootGroupAddr rootGroupSize rootBTreeAddr rootHeapAddr rootStNodeAddr (heapSize rootHeap), st).

(** Version 0: one reservation, whose parts lie at computed addresses. *)
Definition createRootGroupStructureV0 (st : St) : outcome (rootGroupInfo * St) :=
  let objHeaderSize := 16 + 20 + 4 in
  let btreeSize := 8 + 2 * 8 + (2 * 16 + 1) * 8 + 2 * 16 * 8 in
  let stNodeSize := snodTotalSize in
  let heapSize := 4096 in
  let rootGroupAddr := 96 in
  let rootBTreeAddr := rootGroupAddr + objHeaderSize in
  let rootStNodeAddr := rootBTreeAddr + btreeSize in
  let rootHeapAddr := rootStNodeAddr + stNodeSize in
  let totalRootSize := objHeaderSize + btreeSize + stNodeSize + 32 + heapSize in
  let! (_, st) := allocate st totalRootSize in
  let! (actualObjHeaderSize, st) := writeRootGroupHeaderAt st rootGroupAddr rootBTreeAddr rootHeapAddr 8 1 in
  let! st := writeBTreeNodeAt st rootBTreeAddr rootStNodeAddr 8 in
  let! st := writeSymbolTableNodeAt st rootStNodeAddr 8 in
  let! (_, st) := heapWriteTo (NewLocalHeap 4096) st rootHeapAddr in
  Ret (mkRootInfo rootGroupAddr actualObjHeaderSize rootBTreeAddr rootHeapAddr rootStNodeAddr heapSize, st).

Definition createRootGroupStructure (st : St) (superblockVersion : Z) : outcome (rootGroupInfo * St) :=
  if superblockVersion =? 0 then createRootGroupStructureV0 st else createRootGroupStructureV2 st.
End root_group.

(** The version is the only option with an effect on the file; the writer of
    global heaps starts empty. *)
Definition CreateForWrite (superblockVersion : Z) : outcome (FileW FileWriter) :=
  let superblockSize := if superblockVersion =? 0 then 96 else 48 in
  let fw := NewFileWriter superblockSize in
  let! (rootInfo, fw) := createRootGroupStructure fw superblockVersion in
  let sb := mkSuperblock superblockVersion 8 8 0 (groupAddr rootInfo) LittleEndian 0 0
    (riBtreeAddr rootInfo) (riHeapAddr rootInfo) in
  let eofAddress := if superblockVersion =? 0 then u64 (riHeapAddr rootInfo + riHeapSize rootInfo)
                    else fwEndOfFile fw in
  let! fw := storeSuperblock sb fw eofAddress in
  Ret (mkFW fw sb (groupAddr rootInfo) (riBtreeAddr rootInfo) (riHeapAddr rootInfo) (riStNodeAddr rootInfo)
    (groupSize rootInfo) ∅).
