(* ===== verification/GroupLaws.v ===== *)
(** * What groups promise: the theorems about Groups.v

    A group in a file is a heap of names, a B-tree node and symbol table nodes;
    [group_ok] says when these represent a list of named links.  [linkToParent],
    [unlinkFromParent] and [resolveObjectAddress] refine insertion, deletion and
    lookup of a finite map from names to addresses. *)

From S2P Require Import Prelude Allocator Storage Superblock Messages ObjectHeader Datatype LocalHeap GroupTree Groups.

(** ** Order of names *)

Lemma bytes_lt_asym a : forall b, bytes_lt a b = true -> bytes_lt b a = false.
Proof.
  induction a as [|x a IH]; intros [|y b]; cbn [bytes_lt]; try done.
  repeat ztest; try done. auto.
Qed.

Lemma bytes_le_trans a : forall b c, bytes_lt b a = false -> bytes_lt c b = false -> bytes_lt c a = false.
Proof.
  induction a as [|x a IH]; intros [|y b] [|z c]; cbn [bytes_lt]; try done.
  repeat ztest; try done. eauto.
Qed.

#[export] Instance name_le_total name : Total (name_le name).
Proof.
  intros a b. unfold name_le. destruct (bytes_lt (name b) (name a)) eqn:E; [right|by left]. by apply bytes_lt_asym.
Qed.

#[export] Instance name_le_transitive name : Transitive (name_le name).
Proof. intros a b c. unfold name_le. apply bytes_le_trans. Qed.

(** ** Items: a name and its entry *)

Abbreviation item := (bytes * SymbolTableEntry)%type.

Definition item_ok (used : bytes) (it : item) : Prop :=
  plain it.2 /\ str_at used (LinkNameOffset it.2) it.1 /\ no_nul it.1 /\ it.1 <> [].

Definition item_le (a b : item) : Prop := bytes_lt b.1 a.1 = false.

#[export] Instance item_le_transitive : Transitive item_le.
Proof. intros a b c. unfold item_le. apply bytes_le_trans. Qed.

(** The links of a group as a map. *)
Definition links (items : list item) : gmap bytes Z := list_to_map (map (fun it => (it.1, ObjectAddress it.2)) items).

Lemma item_ok_app used x it : item_ok used it -> item_ok (used ++ x) it.
Proof. intros (? & ? & ? & ?). split_and!; try done. by apply str_at_app. Qed.

Lemma item_name used k h it : item_ok used it -> lhData h = Some (used ++ zeros k) ->
  GetString h (LinkNameOffset it.2) = Ret it.1.
Proof. intros (_ & Hs & Hn & _) Hd. apply (GetString_ok h (used ++ zeros k)); [done| |done]. by apply str_at_app. Qed.

Lemma links_perm items items' : NoDup (map fst items) -> items ≡ₚ items' -> links items = links items'.
Proof.
  intros Hnd Hp. unfold links. apply list_to_map_proper; [|by rewrite Hp].
  rewrite <- list_fmap_compose. erewrite (list_fmap_ext _ fst); [done|]. done.
Qed.

Lemma links_snoc items name e : name ∉ map fst items ->
  links (items ++ [(name, e)]) = <[name := ObjectAddress e]> (links items).
Proof.
  intros Hn. unfold links. rewrite map_app. cbn [map fst snd]. apply list_to_map_snoc.
  rewrite <- list_fmap_compose. done.
Qed.

Lemma links_lookup_None items name : name ∉ map fst items -> links items !! name = None.
Proof. intros Hn. apply not_elem_of_list_to_map. rewrite <- list_fmap_compose. done. Qed.

Lemma links_lookup items it : NoDup (map fst items) -> it ∈ items -> links items !! it.1 = Some (ObjectAddress it.2).
Proof.
  intros Hnd Hin. apply elem_of_list_to_map.
  - rewrite <- list_fmap_compose. done.
  - apply list_elem_of_fmap. by exists it.
Qed.

Lemma links_delete items1 it items2 : NoDup (map fst (items1 ++ it :: items2)) ->
  links (items1 ++ items2) = delete it.1 (links (items1 ++ it :: items2)).
Proof.
  intros Hnd. assert (Hp : items1 ++ it :: items2 ≡ₚ (items1 ++ items2) ++ [it]) by (rewrite <- app_assoc; solve_Permutation).
  rewrite (links_perm _ _ Hnd Hp). destruct it as [n e].
  assert (n ∉ map fst (items1 ++ items2)) as Hn.
  { rewrite Hp, map_app in Hnd. apply NoDup_app in Hnd as (_ & Hd & _). intros Hin. apply (Hd _ Hin). cbn. set_solver. }
  rewrite links_snoc by done. cbn [fst]. rewrite delete_insert_id; [done|]. by apply links_lookup_None.
Qed.

(** ** Eight entries to a node *)

Fixpoint chunks {A} (n : nat) (l : list A) : list (list A) :=
  match n with O => [] | S n => take 8 l :: chunks n (drop 8 l) end.

Lemma chunks_map {A B} (f : A -> B) n l : chunks n (map f l) = map (map f) (chunks n l).
Proof. revert l. induction n as [|n IH]; intros l; [done|]. cbn [chunks map]. by rewrite firstn_map, skipn_map, IH. Qed.

Lemma concat_chunks {A} n (l : list A) : len l <= 8 * Z.of_nat n -> concat (chunks n l) = l.
Proof.
  revert l. induction n as [|n IH]; intros l Hl; cbn [chunks concat].
  - symmetry. apply len_0_nil. pose proof (len_nonneg l). lia.
  - rewrite IH by len_lia. apply take_drop.
Qed.

Lemma length_chunks {A} n (l : list A) : length (chunks n l) = n.
Proof. revert l. induction n as [|n IH]; intros l; cbn [chunks length]; [done|]. by rewrite IH. Qed.

Lemma chunks_le {A} n (l c : list A) : c ∈ chunks n l -> len c <= 8.
Proof.
  revert l. induction n as [|n IH]; intros l; cbn [chunks]; [by intros ?%elem_of_nil|].
  intros [->|Hc]%elem_of_cons; [len_lia|by eapply IH].
Qed.

Lemma Forall_concat_iff {A} (P : A -> Prop) (ls : list (list A)) : Forall P (concat ls) <-> Forall (Forall P) ls.
Proof.
  induction ls as [|l ls IH]; cbn [concat]; [split; constructor|]. rewrite Forall_app, IH. split.
  - intros [? ?]. by constructor.
  - intros [? ?]%Forall_cons. done.
Qed.

(** ** The group in the file *)

Record GroupState := mkGS {
  gsHeapSize : Z;
  gsUsed : bytes;
  gsKeys : list Z;
  gsSnods : list Z;
  gsItems : list item }.

Definition snod_at (f : bytes) (a : Z) (es : list SymbolTableEntry) : Prop :=
  a + 328 < 2 ^ 63 /\ len es <= 8 /\ Forall plain es /\ stored f a (snodBytes es).

Record group_ok (f : bytes) (ha ba : Z) (gs : GroupState) : Prop := {
  go_used : used_ok (gsUsed gs);
  go_fits : len (gsUsed gs) <= gsHeapSize gs;
  go_ha : 0 <= ha /\ ha + 32 + gsHeapSize gs < 2 ^ 63;
  go_ba : 0 <= ba /\ ba + 544 < 2 ^ 63;
  go_heap : stored f ha (heapBytes (gsHeapSize gs) ha (gsUsed gs));
  go_tree : stored f ba (groupNodeBytes (leafOf (gsKeys gs) (gsSnods gs)));
  go_count : len (gsSnods gs) = snodCount (len (gsItems gs)) /\ len (gsSnods gs) <= 32;
  go_keys : Forall (is_u 64) (gsKeys gs);
  go_addrs : Forall addr_ok (gsSnods gs);
  go_snods : Forall2 (fun a its => snod_at f a (map snd its)) (gsSnods gs) (chunks (length (gsSnods gs)) (gsItems gs));
  go_items : Forall (item_ok (gsUsed gs)) (gsItems gs);
  go_nodup : NoDup (map fst (gsItems gs));
  go_sorted : StronglySorted item_le (gsItems gs) }.

Lemma snodCount_bounds n : 0 <= n -> 1 <= snodCount n /\ n <= 8 * snodCount n /\ snodCount n <= n / 8 + 1.
Proof.
  intros Hn. unfold snodCount, snodCapacity, groupLeafNodeK. change (2 * 4) with 8.
  destruct (Z.ltb_spec ((n + 8 - 1) / 8) 1); Z.to_euclidean_division_equations; lia.
Qed.

Lemma group_items_chunks f ha ba gs : group_ok f ha ba gs -> concat (chunks (length (gsSnods gs)) (gsItems gs)) = gsItems gs.
Proof.
  intros Hg. apply concat_chunks. destruct (go_count _ _ _ _ Hg) as [Hc _].
  pose proof (snodCount_bounds (len (gsItems gs)) (len_nonneg _)). unfold len in *. lia.
Qed.

(** ** Reading it *)

Lemma readAddrFromBuf_at data pre v post pos : data = pre ++ le_put 8 v ++ post -> pos = len pre -> is_u 64 v ->
  (let! tl := slice data pos (len data) in readAddrFromBuf tl 8 LittleEndian) = Ret v.
Proof.
  intros -> -> Hv. pose proof (len_nonneg pre). pose proof (len_nonneg post).
  rewrite (slice_at _ pre (le_put 8 v ++ post) []) by (rewrite ?app_nil_r; done || len_lia). cbn [obind].
  unfold readAddrFromBuf. rewrite len_app, len_le_put.
  replace (8 >? Z.of_nat 8 + len post) with false by (symmetry; rewrite Z.gtb_ltb; apply Z.ltb_ge; lia).
  cbn [Z.eqb Pos.eqb orb]. rewrite (slice_at _ [] (le_put 8 v) post) by (rewrite ?len_le_put; done). cbn [obind get_order].
  by rewrite le_get_put_small.
Qed.

Lemma readNodeEntries_ok keys cs n : forall i data pre post pos,
  Forall addr_ok cs -> Forall (is_u 64) keys -> len cs <= 32 -> (i + n = length cs)%nat ->
  data = pre ++ concat (map (slotBytes (leafOf keys cs)) (seq i n)) ++ post -> pos = len pre ->
  exists ks, readNodeEntries n data pos 8 LittleEndian = Ret (ks, drop i cs, drop i cs).
Proof.
  induction n as [|n IH]; intros i data pre post pos Ha Hk Hc Hn Hd ->; cbn [readNodeEntries].
  - exists []. by rewrite drop_ge by lia.
  - cbn [seq map concat] in Hd. rewrite <- app_assoc in Hd.
    destruct (slot_at keys cs i ltac:(lia) Hc) as (c & E & Hs). pose proof (len_slot keys cs i ltac:(lia) Hc) as Hsl.
    rewrite Hs in Hd. assert (addr_ok c) as Hac by (by apply (proj1 (Forall_lookup _ _) Ha i)).
    set (tail := concat (map (slotBytes (leafOf keys cs)) (seq (S i) n)) ++ post) in *.
    assert (is_u 64 (default 0 (keys !! i))) as Hku.
    { destruct (keys !! i) as [k|] eqn:Ek; [by apply (proj1 (Forall_lookup _ _) Hk i)|by vm_compute]. }
    pose proof (readAddrFromBuf_at data pre (default 0 (keys !! i)) (le_put 8 c ++ tail) (len pre)
      ltac:(by rewrite Hd, <- !app_assoc) eq_refl Hku) as (tl & -> & Hr1)%obind_ret_inv.
    cbn [obind]. rewrite Hr1. cbn [obind].
    pose proof (readAddrFromBuf_at data (pre ++ le_put 8 (default 0 (keys !! i))) c tail (len pre + 8)
      ltac:(by rewrite Hd, <- !app_assoc) ltac:(len_lia) (addr_ok_u64 _ Hac)) as (tl2 & -> & Hr2)%obind_ret_inv.
    cbn [obind]. rewrite Hr2. cbn [obind].
    destruct (IH (S i) data (pre ++ slotBytes (leafOf keys cs) i) post (len pre + 8 + 8)) as [ks ->];
      [done..|lia|by rewrite Hd, Hs, <- !app_assoc|rewrite len_app; lia|].
    cbn [obind]. eexists. unfold addr_ok in Hac. destruct (Z.eqb_spec c 0); [lia|]. destruct (Z.eqb_spec c MaxUint64); [lia|].
    cbn [negb andb]. by rewrite (drop_S _ _ _ E).
Qed.

Lemma readGroupBTree_ok f ba keys cs sb :
  OffsetSize sb = 8 -> Endianness sb = LittleEndian -> 0 <= ba /\ ba + 544 < 2 ^ 63 -> len cs <= 32 ->
  Forall addr_ok cs -> Forall (is_u 64) keys -> stored f ba (groupNodeBytes (leafOf keys cs)) ->
  exists node, readGroupBTree f ba sb = Ret (node, cs) /\ ChildPointers node = cs.
Proof.
  intros HO HE Hba Hc Ha Hk Hst. destruct (groupNode_parts f ba keys cs Hc Hst) as (k & H1 & H2).
  pose proof (len_nonneg cs). unfold readGroupBTree. rewrite HO, HE. change (8 + 2 * 8) with 24.
  rewrite !i64_id by (rewrite ?i64_id; lia). rewrite H1. cbn [obind].
  set (h := tree_sig ++ _). change (take 4 h) with tree_sig. rewrite bool_decide_true by done.
  change (idx h 4) with (@Ret byte x00). change (idx h 5) with (@Ret byte x00).
  rewrite (readU_at 2 h (tree_sig ++ [x00; x00]) (len cs) (le_put 8 MaxUint64 ++ le_put 8 MaxUint64)) by
    (done || lia || (unfold h; by rewrite <- !app_assoc)). cbn [obind].
  replace ((len cs + 1) * 8 + len cs * 8) with (16 * len cs + 8) by lia. rewrite H2. cbn [obind].
  replace (Z.to_nat (len cs)) with (length cs) by (unfold len; lia).
  destruct (readNodeEntries_ok keys cs (length cs) 0 _ [] (le_put 8 k) 0 Ha Hk Hc eq_refl eq_refl eq_refl) as [ks E].
  rewrite app_nil_l in E. rewrite E. cbn [obind]. rewrite drop_0.
  set (data := concat _ ++ le_put 8 k). assert (len data = len cs * (8 + 8) + 8) as Hl.
  { unfold data. rewrite len_app, len_slots, len_le_put by (unfold len in Hc; lia). unfold len. lia. }
  destruct (Z.leb_spec (len cs * (8 + 8) + 8) (len data)); [|lia].
  assert (slice data (len cs * (8 + 8)) (len data) = Ret (le_put 8 k)) as ->.
  { apply (slice_at _ (concat (map (slotBytes (leafOf keys cs)) (seq 0 (length cs)))) (le_put 8 k) []).
    - by rewrite app_nil_r.
    - rewrite len_slots by (unfold len in Hc; lia). unfold len. lia.
    - rewrite len_le_put. lia. }
  cbn [obind]. change (readAddrFromBuf (le_put 8 k) 8 LittleEndian) with (Ret (get_order LittleEndian (le_put 8 k))).
  cbn [obind]. eexists. split; [done|]. done.
Qed.

Lemma readAllEntries_ok f cs ess sb : OffsetSize sb = 8 -> Endianness sb = LittleEndian ->
  Forall2 (snod_at f) cs ess -> readAllEntries f cs sb = Ret (concat ess).
Proof.
  intros HO HE. induction 1 as [|a es cs ess (Ha & Hn & Hp & Hst) _ IH]; [done|]. cbn [readAllEntries concat].
  rewrite (ParseSymbolTableNode_ok f a es) by done. cbn [obind]. by rewrite IH.
Qed.

Lemma readLocalHeap_ok f ha size used sb : sb8 sb -> 0 <= ha /\ ha + 32 + size < 2 ^ 63 -> len used <= size -> used_ok used ->
  stored f ha (heapBytes size ha used) ->
  readLocalHeap f ha sb = Ret (mkHeap (Some (used ++ zeros (size - len used))) 32 size 1 0 used).
Proof.
  intros Hsb Ha Hu Hok Hst. unfold readLocalHeap. rewrite (LoadLocalHeap_ok f ha size used) by (done || lia).
  cbn [obind]. rewrite PrepareForModification_ok by done. cbn [obind lhData lhHeaderSize DataSegmentSize DataSegmentAddress lhStrings].
  pose proof (used_pos _ Hok). do 2 f_equal. rewrite len_app, len_zeros; lia.
Qed.

Lemma findName_ok h used k name its : lhData h = Some (used ++ zeros k) -> Forall (item_ok used) its ->
  findName h name (map snd its) = snd <$> List.find (fun it : item => bool_decide (it.1 = name)) its.
Proof.
  intros Hd. induction 1 as [|it its Hit _ IH]; [done|]. cbn [map findName List.find].
  rewrite (item_name used k h it Hit Hd). case_bool_decide; [done|]. exact IH.
Qed.

Lemma find_app {A} (p : A -> bool) l k :
  List.find p (l ++ k) = match List.find p l with Some x => Some x | None => List.find p k end.
Proof. induction l as [|x l IH]; cbn; [done|]. by destruct (p x). Qed.

Lemma findInNodes_ok f sb h used k name cs itss :
  OffsetSize sb = 8 -> Endianness sb = LittleEndian -> lhData h = Some (used ++ zeros k) ->
  Forall (item_ok used) (concat itss) -> Forall2 (fun a its => snod_at f a (map snd its)) cs itss ->
  findInNodes f sb h name cs =
    match List.find (fun it : item => bool_decide (it.1 = name)) (concat itss) with
    | Some it => Ret (ObjectAddress it.2) | None => Err "object not found" end.
Proof.
  intros HO HE Hd Hok. induction 1 as [|a its cs itss (Ha & Hn & Hp & Hst) _ IH]; [done|].
  cbn [concat] in *. apply Forall_app in Hok as [Hok1 Hok2]. cbn [findInNodes].
  rewrite (ParseSymbolTableNode_ok f a _) by done. cbn [Entries nodeOf]. rewrite (findName_ok h used k name its Hd Hok1), find_app.
  destruct (List.find _ its) as [it|]; cbn [fmap option_fmap option_map]; [done|]. by apply IH.
Qed.

Lemma find_links items name : NoDup (map fst items) ->
  ObjectAddress ∘ snd <$> List.find (fun it : item => bool_decide (it.1 = name)) items = links items !! name.
Proof.
  intros Hnd. destruct (List.find _ items) as [it|] eqn:E.
  - apply List.find_some in E as [Hin Hb]. apply bool_decide_eq_true in Hb as <-.
    symmetry. by apply links_lookup; [|apply list_elem_of_In].
  - symmetry. apply links_lookup_None. intros (it & -> & Hin)%list_elem_of_fmap.
    pose proof (List.find_none _ _ E it ltac:(by apply list_elem_of_In)) as Hf.
    cbn beta in Hf. by rewrite bool_decide_true in Hf.
Qed.

(** ** Storage *)

Section storage.
Context `{StorageLaws St}.
Hypothesis Hfirst : 0 < first_address.

Definition snodBlock (a : Z) : block := mkBlock a 328.
Definition groupBlocks (ha ba : Z) (gs : GroupState) : list block :=
  mkBlock ha (32 + gsHeapSize gs) :: mkBlock ba 544 :: map snodBlock (gsSnods gs).

(** The file holds a group: it is [group_ok] and its blocks are allocated; [rest]
    are all other allocated blocks. *)
Definition group_in (st : St) (ha ba : Z) (gs : GroupState) (rest : list block) : Prop :=
  group_ok (contents st) ha ba gs /\ owned st ≡ₚ groupBlocks ha ba gs ++ rest.

Lemma owned_pairwise st n l r : usable st n -> owned st ≡ₚ l ++ r -> ForallOrdPairs disjoint_blocks l.
Proof.
  intros Hu. revert r. induction l as [|b l IH]; intros r Hp; [constructor|]. constructor.
  - cbn [app] in Hp. pose proof (owned_disjoint st n b _ Hu Hp) as Hd. by apply Forall_app in Hd as [Hd _].
  - apply (IH (b :: r)). rewrite Hp. solve_Permutation.
Qed.

Lemma allocSnods_ok n st m cs :
  usable st (328 + m) -> 0 <= m -> len cs <= n <= len cs + 1 -> 1 <= n ->
  exists extra st', allocSnods (Z.to_nat n) n cs st = Ret (cs ++ extra, st') /\ len (cs ++ extra) = n /\ usable st' m /\
    contents st' = contents st /\ owned st' = owned st ++ map snodBlock extra /\ Forall addr_ok extra /\
    Forall (fun a => a + 328 < 2 ^ 63) extra.
Proof.
  intros Hu Hm Hn H1. destruct (Z.to_nat n) as [|k] eqn:Ek; [lia|]. cbn [allocSnods].
  destruct (Z.ltb_spec (len cs) n) as [Hlt|Hge].
  - destruct (allocate_law st _ 328 Hu ltac:(lia)) as (a & st1 & E & Hu1 & Hc1 & Ho1 & _).
    change snodTotalSize with 328. rewrite E. cbn [obind].
    assert (mkBlock a 328 ∈ owned st1) as Hin by (rewrite Ho1; set_solver).
    pose proof (owned_from _ _ _ Hu1 Hin) as Hf. destruct (owned_range _ _ _ Hu1 Hin) as (_ & _ & Hb).
    unfold bend in Hb. cbn [Offset Size] in *.
    assert (len (cs ++ [a]) = n) as Hl by len_lia. exists [a], st1.
    replace (328 + m - 328) with m in Hu1 by lia.
    destruct k; cbn [allocSnods]; rewrite Hl, Z.ltb_irrefl; split_and!; try done; constructor; try constructor;
      unfold addr_ok, MaxUint64; lia.
  - exists [], st. rewrite app_nil_r. cbn [map]. rewrite app_nil_r. split_and!; try done; [lia|].
    by eapply usable_mono; [exact Hu|lia].
Qed.

Lemma addKeys_ok es cs n : forall i ks dn, Forall (fun e => is_u 64 (LinkNameOffset e)) es ->
  Forall (is_u 64) ks -> length ks = i -> dn = take i cs -> (i + n <= length cs)%nat -> (i + n <= 33)%nat ->
  (i + n <= 1 + length es)%nat ->
  exists ks', addKeys n (Z.of_nat i) es cs (mkGNode 0 0 (Z.of_nat i) MaxUint64 MaxUint64 ks dn 33) =
    Ret (mkGNode 0 0 (Z.of_nat (i + n)) MaxUint64 MaxUint64 (ks ++ ks') (take (i + n) cs) 33) /\
    Forall (is_u 64) ks'.
Proof.
  induction n as [|n IH]; intros i ks dn He Hk Hl -> Hc H33 Hes; cbn [addKeys].
  - exists []. rewrite app_nil_r, Nat.add_0_r. done.
  - assert (exists k, leftKeyAt es (Z.of_nat i) = Ret k /\ is_u 64 k) as (k & Ek & Hku).
    { unfold leftKeyAt. destruct (Z.gtb_spec (Z.of_nat i) 0); [|exists 0; by vm_compute].
      change snodCapacity with 8.
      match goal with |- context [idx es ?j] => destruct (idx_in_range es j) as [e Ee] end.
      { destruct (Z.gtb_spec (Z.of_nat i * 8) (len es)); unfold len in *; lia. }
      rewrite Ee. cbn [obind]. eexists. split; [done|]. apply idx_ret in Ee as [_ Ee].
      by apply (proj1 (Forall_lookup _ _) He _ _ Ee). }
    destruct (idx_some cs i ltac:(lia)) as [a Ea]. rewrite Ek. cbn [obind].
    rewrite (idx_lookup cs i a Ea). cbn [obind]. unfold AddKey. cbn [gKeys kCapacity gNodeType gNodeLevel gEntriesUsed gLeftSibling gRightSibling ChildPointers].
    destruct (Z.geb_spec (len ks) 33); [unfold len in *; lia|]. cbn [negb obind].
    rewrite u16_id by (unfold is_u; lia). rewrite <- (take_S_r _ _ _ Ea).
    replace (Z.of_nat i + 1) with (Z.of_nat (S i)) by lia.
    destruct (IH (S i) (ks ++ [k]) (take (S i) cs)) as (ks' & -> & Hk');
      [done|by apply Forall_app_2; [|constructor]|rewrite length_app; cbn; lia|done|lia..|].
    exists (k :: ks'). rewrite <- app_assoc. replace (i + S n)%nat with (S i + n)%nat by lia. split; [done|by constructor].
Qed.

(** Several writes one after the other. *)
Fixpoint write_all (f : bytes) (ws : list (Z * bytes)) : bytes :=
  match ws with [] => f | w :: ws => write_all (write_at f w.1 w.2) ws end.

Definition wblock (w : Z * bytes) : block := mkBlock w.1 (len w.2).

Lemma write_all_keeps ws : forall f a bs,
  Forall (fun w => 0 <= w.1 /\ disjoint_blocks (mkBlock a (len bs)) (wblock w)) ws ->
  stored f a bs -> stored (write_all f ws) a bs.
Proof.
  induction ws as [|w ws IH]; intros f a bs Hw Hst; cbn [write_all]; [done|].
  apply Forall_cons in Hw as [[Ha Hd] Hw]. apply IH; [done|]. by apply stored_other.
Qed.

Lemma disjoint_sym a b : disjoint_blocks a b -> disjoint_blocks b a.
Proof. unfold disjoint_blocks. tauto. Qed.

Lemma write_all_stored ws : forall f, Forall (fun w => 0 <= w.1) ws -> ForallOrdPairs disjoint_blocks (map wblock ws) ->
  Forall (fun w => stored (write_all f ws) w.1 w.2) ws.
Proof.
  induction ws as [|w ws IH]; intros f Hpos Hp; cbn [write_all]; [constructor|].
  apply Forall_cons in Hpos as [Hw Hpos]. inversion Hp as [|? ? Hd Hp']; subst. constructor; [|by apply IH].
  apply write_all_keeps; [|by apply stored_write]. rewrite List.Forall_forall in Hd. apply Forall_forall. intros v Hv.
  rewrite Forall_forall in Hpos. split; [by apply Hpos|]. apply (Hd (wblock v)). apply in_map. by apply list_elem_of_In.
Qed.

Lemma write_all_app f ws ws' : write_all f (ws ++ ws') = write_all (write_all f ws) ws'.
Proof. revert f. induction ws as [|w ws IH]; intros f; cbn [write_all app]; auto. Qed.

Lemma addEntries_ok es : forall dn, len (dn ++ es) <= 8 -> addEntries (nodeOf dn) es = Ret (nodeOf (dn ++ es)).
Proof.
  induction es as [|e es IH]; intros dn Hl; cbn [addEntries]; [by rewrite app_nil_r|].
  unfold AddEntry. cbn [NumSymbols sCapacity nodeOf sVersion Entries]. pose proof (len_nonneg es). pose proof (len_nonneg dn).
  rewrite len_app, len_cons in Hl. destruct (Z.geb_spec (len dn) 8); [lia|]. cbn [negb obind].
  rewrite u16_id by (unfold is_u; lia). replace (len dn + 1) with (len (dn ++ [e])) by len_lia.
  change (mkSNode 1 (len (dn ++ [e])) (dn ++ [e]) 8) with (nodeOf (dn ++ [e])).
  rewrite IH by (rewrite <- app_assoc; cbn [app]; len_lia). by rewrite <- app_assoc.
Qed.

Lemma snodWriteAt_ok st n es a : usable st n -> 0 <= a < 2 ^ 63 -> len es <= 8 ->
  exists st', snodWriteAt (nodeOf es) st a 8 snodCapacity LittleEndian = Ret st' /\ usable st' n /\ owned st' = owned st /\
    contents st' = write_at (contents st) a (snodBytes es).
Proof.
  intros Hu Ha Hn. unfold snodWriteAt. change snodCapacity with 8. rewrite encodeSnod_ok by done. cbn [obind].
  apply write_law; [done|done|]. by rewrite len_snodBytes.
Qed.

Lemma btreeWriteAt_ok st n btn a : usable st n -> 0 <= a < 2 ^ 63 ->
  exists st', btreeWriteAt btn st a 8 groupBTreeK LittleEndian = Ret st' /\ usable st' n /\ owned st' = owned st /\
    contents st' = write_at (contents st) a (groupNodeBytes btn).
Proof.
  intros Hu Ha. unfold btreeWriteAt. change groupBTreeK with 16. rewrite encodeGroupNode_ok. cbn [obind].
  apply write_law; [done|done|]. by rewrite len_groupNodeBytes.
Qed.

Lemma writeSnods_ok es cs sb m : OffsetSize sb = 8 -> Endianness sb = LittleEndian ->
  Forall addr_ok cs -> Forall (fun a => a + 328 < 2 ^ 63) cs -> forall n i pos st,
  usable st m -> 0 <= pos <= len es -> (i + n <= length cs)%nat ->
  exists st', writeSnods n (Z.of_nat i) pos es cs sb st = Ret st' /\ usable st' m /\ owned st' = owned st /\
    contents st' = write_all (contents st)
      (zip (take n (drop i cs)) (map snodBytes (chunks n (drop (Z.to_nat pos) es)))).
Proof.
  intros HO HE Ha Hb n. induction n as [|n IH]; intros i pos st Hu Hp Hc; cbn [writeSnods].
  { exists st. done. }
  cbv zeta. change snodCapacity with 8. set (e := if pos + 8 >? len es then len es else pos + 8).
  assert (e = Z.min (pos + 8) (len es)) as He by (unfold e; destruct (Z.gtb_spec (pos + 8) (len es)); lia).
  rewrite (slice_ret es pos e) by lia. cbn [obind].
  assert (sub es pos (e - pos) = take 8 (drop (Z.to_nat pos) es)) as ->.
  { unfold sub. destruct (decide (pos + 8 <= len es)); [f_equal; lia|]. rewrite !take_ge; [done|..];
      rewrite length_drop; unfold len in *; lia. }
  set (chunk := take 8 (drop (Z.to_nat pos) es)). assert (len chunk <= 8) as Hch by (unfold chunk; len_lia).
  change (NewSymbolTableNode 8) with (nodeOf []). rewrite addEntries_ok by done. cbn [obind].
  destruct (idx_some cs i ltac:(lia)) as [a Ea]. rewrite (idx_lookup cs i a Ea). cbn [obind].
  assert (addr_ok a /\ a + 328 < 2 ^ 63) as [Haa Hab] by
    (split; [apply (proj1 (Forall_lookup _ _) Ha i)|apply (proj1 (Forall_lookup _ _) Hb i)]; done).
  rewrite HO, HE. unfold addr_ok in Haa.
  destruct (snodWriteAt_ok st m chunk a Hu ltac:(lia) Hch) as (st1 & E & Hu1 & Ho1 & Hc1).
  change snodCapacity with 8 in E. rewrite app_nil_l. rewrite E. cbn [obind].
  destruct (IH (S i) e st1 Hu1 ltac:(lia) ltac:(lia)) as (st2 & E2 & Hu2 & Ho2 & Hc2).
  replace (Z.of_nat i + 1) with (Z.of_nat (S i)) by lia. rewrite E2. exists st2. split_and!; [done|done|congruence|].
  rewrite Hc2, Hc1. rewrite (drop_S _ _ _ Ea). cbn [take chunks map zip zip_with write_all fst snd]. fold chunk.
  rewrite drop_drop. do 4 f_equal. 
  destruct (decide (pos + 8 <= len es)); [f_equal; lia|]. rewrite !drop_ge; [done|unfold len in *; lia..].
Qed.

Lemma wblock_snods cs (itss : list (list SymbolTableEntry)) : length cs = length itss -> Forall (fun c => len c <= 8) itss ->
  map wblock (zip cs (map snodBytes itss)) = map snodBlock cs.
Proof.
  revert itss. induction cs as [|a cs IH]; intros [|c itss] Hl Hc; try done. cbn in Hl.
  apply Forall_cons in Hc as [Hc Hcs]. cbn [map zip zip_with]. rewrite IH by (done || lia).
  unfold wblock, snodBlock. cbn [fst snd]. by rewrite len_snodBytes.
Qed.

Lemma Forall_zip_l {A B} (P : A -> Prop) (l : list A) (k : list B) : Forall P l -> Forall (fun w => P w.1) (zip l k).
Proof. intros H1. revert k. induction H1; intros [|]; cbn; constructor; auto. Qed.

Lemma keeps_write_all f ws rest : Forall (fun w => 0 <= w.1 /\ Forall (disjoint_blocks (wblock w)) rest) ws ->
  keeps f (write_all f ws) rest.
Proof.
  intros Hw b bs Hb Hl Hst. apply write_all_keeps; [|done]. eapply Forall_impl; [exact Hw|]. cbn beta. intros w [H1 H2].
  split; [done|]. rewrite Forall_forall in H2. apply disjoint_sym. unfold disjoint_blocks, bend in *. cbn [Offset Size].
  rewrite Hl. exact (H2 b Hb).
Qed.

Lemma preserves_write_all ws rest : forall f, Forall (fun w => 0 <= w.1 /\ Forall (disjoint_blocks (wblock w)) rest) ws ->
  preserves f (write_all f ws) rest.
Proof.
  induction ws as [|w ws IH]; intros f Hw; cbn [write_all]; [apply preserves_refl|]. apply Forall_cons in Hw as [[H1 H2] Hw].
  apply (preserves_trans _ (write_at f w.1 w.2) _ rest rest); [done| |by apply IH].
  apply (write_preserves _ (wblock w)); unfold wblock, bend; cbn [Offset Size]; (lia || done).
Qed.

Lemma pairwise_across (l r : list block) : ForallOrdPairs disjoint_blocks (l ++ r) -> Forall (fun b => Forall (disjoint_blocks b) r) l.
Proof.
  induction l as [|b l IH]; intros Hp; [constructor|]. inversion Hp as [|? ? Hd Hp']; subst. constructor; [|by apply IH].
  apply Forall_app in Hd. apply Hd.
Qed.

(** Writing B-tree node, symbol table nodes and heap gives the group of the items. *)
Lemma store_group_ok sb st m ha ba hsz used keys cs items h rest :
  sb8 sb -> usable st m ->
  owned st ≡ₚ groupBlocks ha ba (mkGS hsz used keys cs items) ++ rest ->
  len cs = snodCount (len items) -> len cs <= 32 -> Forall addr_ok cs -> Forall (is_u 64) keys ->
  used_ok used -> len used <= hsz -> Forall (item_ok used) items -> NoDup (map fst items) -> StronglySorted item_le items ->
  DataSegmentSize h = hsz -> lhStrings h = used -> OffsetToHeadFreeList h = 1 ->
  exists st1 st2 h' st3, btreeWriteAt (leafOf keys cs) st ba (OffsetSize sb) groupBTreeK (Endianness sb) = Ret st1 /\
    writeSnods (length cs) 0 0 (map snd items) cs sb st1 = Ret st2 /\ heapWriteTo h st2 ha = Ret (h', st3) /\
    usable st3 m /\ owned st3 = owned st /\ group_ok (contents st3) ha ba (mkGS hsz used keys cs items) /\
    preserves (contents st) (contents st3) rest.
Proof.
  intros (HO & HL & HE) Hu Hown Hcnt Hc32 Hca Hk Hused Hfit Hit Hnd Hso Hhs Hhst Hhf. rewrite HO, HE.
  assert (Hrange : forall b, b ∈ groupBlocks ha ba (mkGS hsz used keys cs items) -> 0 <= Offset b /\ bend b < 2 ^ 63).
  { intros b Hb. destruct (owned_range st m b Hu) as (? & ? & ?); [|done]. rewrite Hown. set_solver. }
  destruct (Hrange (mkBlock ba 544)) as [Hba Hba']; [set_solver|].
  destruct (Hrange (mkBlock ha (32 + hsz))) as [Hha Hha']; [set_solver|]. unfold bend in Hba', Hha'. cbn [Offset Size] in *.
  assert (Hcb : Forall (fun a => a + 328 < 2 ^ 63) cs).
  { apply Forall_forall. intros a Hin. destruct (Hrange (snodBlock a)) as [_ Hb]; [|exact Hb].
    unfold groupBlocks. cbn [gsSnods]. apply elem_of_cons. right. apply elem_of_cons. right. by apply list_elem_of_fmap_2. }
  destruct (btreeWriteAt_ok st m (leafOf keys cs) ba Hu ltac:(lia)) as (st1 & E1 & Hu1 & Ho1 & Hc1).
  set (es := map snd items). pose proof (len_nonneg items) as Hn0.
  destruct (writeSnods_ok es cs sb m HO HE Hca Hcb (length cs) 0 0 st1 Hu1 ltac:(pose proof (len_nonneg es); lia) ltac:(lia))
    as (st2 & E2 & Hu2 & Ho2 & Hc2). change (Z.of_nat 0) with 0 in E2.
  pose proof (used_pos _ Hused) as Hup.
  destruct (heapWriteTo_ok h st2 m ha Hu2 ltac:(lia)) as (h' & st3 & E3 & Hu3 & Ho3 & Hc3); [rewrite ?Hhs, ?Hhst; lia..|done|].
  exists st1, st2, h', st3. split_and!; [exact E1|exact E2|exact E3|exact Hu3|congruence|..].
  all: change (Z.to_nat 0) with 0%nat in Hc2; rewrite !drop_0, (take_ge cs) in Hc2 by lia;
    rewrite Hc2, Hc1, Hhs, Hhst in Hc3; set (itss := chunks (length cs) es) in *;
    set (ws := (ba, groupNodeBytes (leafOf keys cs)) :: zip cs (map snodBytes itss) ++ [(ha, heapBytes hsz ha used)]);
    assert (Hf : contents st3 = write_all (contents st) ws) by
      (rewrite Hc3; unfold ws; cbn [write_all fst snd]; by rewrite write_all_app).
  all: assert (Hits : Forall (fun c => len c <= 8) itss) by (apply Forall_forall; intros c Hcc; by eapply chunks_le).
  all: assert (Hlit : length cs = length itss) by (unfold itss; by rewrite length_chunks).
  all: assert (Hblk : map wblock ws ++ rest ≡ₚ owned st) by
    (rewrite Hown; unfold ws, groupBlocks; cbn [gsSnods gsHeapSize map]; rewrite map_app, wblock_snods by done; cbn [map];
     unfold wblock; cbn [fst snd]; rewrite len_groupNodeBytes, len_heapBytes by lia; solve_Permutation).
  all: assert (Hpos : Forall (fun w => 0 <= w.1) ws) by
    (unfold ws; constructor; [done|]; apply Forall_app; split; [|by constructor]; apply (Forall_zip_l (fun a => 0 <= a));
     eapply Forall_impl; [exact Hca|]; unfold addr_ok; intros; lia).
  all: pose proof (owned_pairwise st m (map wblock ws ++ rest) [] Hu ltac:(by rewrite app_nil_r, Hblk)) as Hpw.
  - rewrite Hf. pose proof (owned_pairwise st m (map wblock ws) rest Hu ltac:(by rewrite Hblk)) as Hpw1.
    pose proof (write_all_stored ws (contents st) Hpos Hpw1) as Hst. unfold ws in Hst at 2. apply Forall_cons in Hst as [Hst1 Hst].
    apply Forall_app in Hst as [Hst2 Hst3]. apply Forall_cons in Hst3 as [Hst3 _]. cbn [fst snd] in Hst1, Hst3.
    constructor; cbn [gsHeapSize gsUsed gsKeys gsSnods gsItems];
      [exact Hused|exact Hfit|lia|lia|exact Hst3|exact Hst1|lia|exact Hk|exact Hca| |exact Hit|exact Hnd|exact Hso].
    assert (Forall2 (fun a c => snod_at (write_all (contents st) ws) a c) cs itss) as H2.
    { apply Forall2_same_length_lookup. split; [done|]. intros i a c Ea Ec.
      assert (zip cs (map snodBytes itss) !! i = Some (a, snodBytes c)) as Ez.
      { apply lookup_zip_with_Some. exists a, (snodBytes c). split; [reflexivity|]. split; [exact Ea|].
        apply list_lookup_fmap_Some. exists c. split; [reflexivity|exact Ec]. }
      pose proof (proj1 (Forall_lookup _ _) Hst2 _ _ Ez) as Hs. cbn [fst snd] in Hs.
      pose proof (proj1 (Forall_lookup _ _) Hcb _ _ Ea). pose proof (proj1 (Forall_lookup _ _) Hits _ _ Ec).
      unfold snod_at. split_and!; [done|done| |exact Hs].
      assert (Forall (Forall plain) itss) as Hp; [|by apply (proj1 (Forall_lookup _ _) Hp _ _ Ec)].
      apply Forall_concat_iff. unfold itss. rewrite concat_chunks.
      - unfold es. apply Forall_fmap. eapply Forall_impl; [exact Hit|]. by intros it [? _].
      - pose proof (snodCount_bounds (len items) Hn0). unfold es, len in *. rewrite length_map. lia. }
    unfold itss, es in H2. rewrite chunks_map, Forall2_fmap_r in H2. exact H2.
  - rewrite Hf. apply preserves_write_all. apply pairwise_across in Hpw. rewrite Forall_fmap in Hpw.
    apply Forall_and. split; [done|]. eapply Forall_impl; [exact Hpw|]. done.
Qed.

(** The entries sorted by name are the items sorted by name. *)
Lemma sort_items entries heap off child items :
  entries = map snd items -> (forall it, it ∈ items -> resolveEntryName heap off child it.2 = it.1) ->
  exists items', sortEntriesByName entries heap off child = map snd items' /\ items ≡ₚ items' /\ StronglySorted item_le items'.
Proof.
  intros -> Hr. unfold sortEntriesByName. set (R := name_le (resolveEntryName heap off child)).
  pose proof (merge_sort_Permutation R (map snd items)) as Hp.
  destruct (Permutation_map_inv snd _ Hp) as (items' & E & Hp'). exists items'. split_and!; [exact E|exact Hp'|].
  pose proof (StronglySorted_merge_sort R (map snd items)) as Hs. rewrite E in Hs.
  assert (forall it, it ∈ items' -> resolveEntryName heap off child it.2 = it.1) as Hr' by (intros it Hi; apply Hr; by rewrite Hp').
  clear -Hs Hr'. induction items' as [|it items IH]; [constructor|]. cbn [map] in Hs. apply StronglySorted_inv in Hs as [Hs Hf].
  constructor; [apply IH; [done|]; intros; apply Hr'; set_solver|]. rewrite Forall_fmap in Hf.
  rewrite Forall_forall in Hf. apply Forall_forall. intros x Hx. specialize (Hf x Hx). cbn in Hf. unfold R, name_le in Hf.
  unfold item_le. rewrite !Hr' in Hf by set_solver. exact Hf.
Qed.

Lemma snodCount_succ n : 0 <= n -> snodCount n <= snodCount (1 + n) <= snodCount n + 1.
Proof.
  intros Hn. unfold snodCount, snodCapacity, groupLeafNodeK. change (2 * 4) with 8.
  destruct (Z.ltb_spec ((n + 8 - 1) / 8) 1), (Z.ltb_spec ((1 + n + 8 - 1) / 8) 1); Z.to_euclidean_division_equations; lia.
Qed.

(** The new B-tree node: the keys are heap offsets. *)
Lemma newTree_ok items cs used :
  Forall (item_ok used) items -> items <> [] -> len cs = snodCount (len items) -> len cs <= 32 ->
  exists ks e, addKeys (length cs) 0 (map snd items) cs (NewBTreeNodeV1 0 groupBTreeK) =
      Ret (mkGNode 0 0 (len cs) MaxUint64 MaxUint64 ks cs 33) /\
    idx (map snd items) (len (map snd items) - 1) = Ret e /\ Forall (is_u 64) (ks ++ [LinkNameOffset e]).
Proof.
  intros Hit Hne Hc H32. pose proof (len_nonneg items). destruct (snodCount_bounds (len items)) as (Hs1 & Hs2 & Hs3); [done|].
  assert (0 < len items) as Hpos by (destruct items; [done|]; rewrite len_cons; pose proof (len_nonneg items); lia).
  assert (Hu : Forall (fun e => is_u 64 (LinkNameOffset e)) (map snd items)).
  { apply Forall_fmap. eapply Forall_impl; [exact Hit|]. by intros it ((? & ? & ?) & _). }
  destruct (addKeys_ok (map snd items) cs (length cs) 0 [] [] Hu) as (ks & E & Hk); [constructor|done|done|lia|unfold len in *; lia| |].
  { rewrite length_map. unfold len in *. Z.to_euclidean_division_equations; lia. }
  destruct (idx_in_range (map snd items) (len (map snd items) - 1)) as [e Ee]; [rewrite len_map; lia|].
  exists ks, e. cbn [app Nat.add] in E. rewrite take_ge in E by lia. split_and!; [exact E|exact Ee|].
  apply Forall_app. split; [done|]. constructor; [|done]. apply idx_ret in Ee as [_ Ee].
  by apply (proj1 (Forall_lookup _ _) Hu _ _ Ee).
Qed.

Lemma linkToParent_ok fw parent ha ba gs name addr m rest :
  sb8 (sblock fw) -> groupAddrs fw parent = Ret (ha, ba) -> usable (storage fw) (328 + m) -> 0 <= m ->
  group_in (storage fw) ha ba gs rest -> no_nul name -> name <> [] -> name ∉ map fst (gsItems gs) ->
  len (gsUsed gs) + len name + 1 <= gsHeapSize gs -> len (gsItems gs) < 256 -> is_u 64 addr ->
  exists st' gs', linkToParent fw parent name addr = Ret (with_storage fw st') /\ usable st' m /\
    group_in st' ha ba gs' rest /\ links (gsItems gs') = <[name := addr]> (links (gsItems gs)) /\
    preserves (contents (storage fw)) (contents st') rest /\
    gsUsed gs' = gsUsed gs ++ name ++ [x00] /\ gsHeapSize gs' = gsHeapSize gs /\
    length (gsItems gs') = S (length (gsItems gs)).
Proof.
  intros Hsb Hga Hu Hm [Hg Hown] Hnn Hne Hfresh Hroom H256 Haddr. destruct gs as [hsz used keys cs items].
  cbn [gsHeapSize gsUsed gsKeys gsSnods gsItems] in *. destruct Hg. cbn [gsHeapSize gsUsed gsKeys gsSnods gsItems] in *.
  destruct go_count0 as [Hcnt H32]. pose proof (len_nonneg items). pose proof (len_nonneg used). pose proof (len_nonneg name).
  destruct (snodCount_bounds (len items)) as (Hs1 & Hs2 & Hs3); [done|]. pose proof (snodCount_succ (len items) ltac:(done)) as Hs4.
  destruct Hsb as (HO & HL & HE). unfold linkToParent. cbv zeta. rewrite Hga. cbn [obind].
  rewrite (readLocalHeap_ok _ _ hsz used) by done. cbn [obind]. set (st := storage fw) in *.
  unfold AddString. cbn [lhData lhHeaderSize DataSegmentSize OffsetToHeadFreeList DataSegmentAddress lhStrings].
  rewrite (u64_id (len used + (len name + 1))) by (unfold is_u; lia).
  destruct (Z.gtb_spec (len used + (len name + 1)) hsz); [lia|]. cbn [negb obind]. fold st.
  destruct (readGroupBTree_ok (contents st) ba keys cs (sblock fw)) as (node & -> & Hch); [done..|]. cbn [obind].
  rewrite (readAllEntries_ok _ cs (map (map snd) (chunks (length cs) items))); [|done|done|by rewrite Forall2_fmap_r].
  cbn [obind]. rewrite <- chunks_map, concat_chunks by (rewrite len_map; unfold len in *; lia).
  set (heap := mkHeap _ _ _ _ _ (used ++ name ++ [x00])). set (newE := mkEntry (len used) addr 0 0 0 0 0).
  set (used' := used ++ name ++ [x00]).
  assert (Hit0 : Forall (item_ok used') (items ++ [(name, newE)])).
  { apply Forall_app. split; [eapply Forall_impl; [exact go_items0|]; intros; by apply item_ok_app|].
    constructor; [|done]. split_and!; [|apply str_at_end|done|done]. split_and!; cbn; [unfold is_u; lia|done|done]. }
  destruct (sort_items (map snd items ++ [newE]) heap (len used) name (items ++ [(name, newE)])) as (items' & Esort & Hperm & Hsorted).
  { by rewrite map_app. }
  { intros it [Hi|Hi]%elem_of_app; unfold resolveEntryName.
    - pose proof (proj1 (Forall_forall _ _) go_items0 it Hi) as Hok. pose proof Hok as (_ & Hs & _).
      pose proof (str_at_range _ _ _ Hs). pose proof (len_nonneg it.1). destruct (Z.eqb_spec (LinkNameOffset it.2) (len used)); [lia|].
      rewrite (item_name used (hsz - len used) heap it); [done|exact Hok|done].
    - apply list_elem_of_singleton in Hi as ->. cbn. by rewrite Z.eqb_refl. }
  rewrite Esort. assert (Hlen : len items' = 1 + len items).
  { unfold len. rewrite <- Hperm, length_app. cbn. lia. }
  rewrite len_map, Hlen. set (n := snodCount (1 + len items)) in *.
  assert (n <= 32) as Hn32.
  { unfold n, snodCount, snodCapacity, groupLeafNodeK. change (2 * 4) with 8.
    destruct (Z.ltb_spec ((1 + len items + 8 - 1) / 8) 1); Z.to_euclidean_division_equations; lia. }
  destruct (allocSnods_ok n st m cs Hu Hm ltac:(lia) ltac:(lia)) as (extra & st0 & -> & Hln & Hu0 & Hc0 & Ho0 & Hxa & Hxb).
  cbn [obind]. rewrite Hperm in Hit0. assert (Hnd' : NoDup (map fst items')).
  { rewrite <- Hperm, map_app. apply NoDup_app. split_and!; [done| |apply NoDup_singleton]. cbn. set_solver. }
  assert (items' <> []) as Hne' by (intros ->; change (len []) with 0 in Hlen; lia).
  destruct (newTree_ok items' (cs ++ extra) used') as (ks & e & Et & Ee & Hku); [done|done|by rewrite Hlen, Hln|lia|].
  replace (Z.to_nat n) with (length (cs ++ extra)) by (rewrite <- Hln; unfold len; lia). rewrite Et. cbn [obind].
  rewrite <- Hlen, <- (len_map snd items'), Ee. cbn [obind]. unfold appendKey.
  cbn [gNodeType gNodeLevel gEntriesUsed gLeftSibling gRightSibling gKeys ChildPointers kCapacity].
  change (mkGNode 0 0 (len (cs ++ extra)) MaxUint64 MaxUint64 (ks ++ [LinkNameOffset e]) (cs ++ extra) 33)
    with (leafOf (ks ++ [LinkNameOffset e]) (cs ++ extra)).
  destruct (store_group_ok (sblock fw) st0 m ha ba hsz used' (ks ++ [LinkNameOffset e]) (cs ++ extra) items' heap rest)
    as (st1 & st2 & h' & st3 & E1 & E2 & E3 & Hu3 & Ho3 & Hg3 & Hk3); try done.
  { rewrite Ho0, Hown. unfold groupBlocks. cbn [gsHeapSize gsSnods]. rewrite map_app. solve_Permutation. }
  { by rewrite Hlen, Hln. }
  { lia. }
  { by apply Forall_app. }
  { by apply used_ok_add. }
  { unfold used'. len_lia. }
  rewrite E1. cbn [obind]. destruct cs as [|c0 cs]; [rewrite len_nil in Hcnt; lia|]. cbn [app]. rewrite idx_head. cbn [obind].
  rewrite Hch. cbn [head]. rewrite bool_decide_true by done. cbn [app] in E2. rewrite E2. cbn [obind]. rewrite E3. cbn [obind].
  exists st3, (mkGS hsz used' (ks ++ [LinkNameOffset e]) ((c0 :: cs) ++ extra) items').
  cbn [gsHeapSize gsUsed gsKeys gsSnods gsItems]. split_and!; try done.
  - split; [exact Hg3|]. rewrite Ho3, Ho0, Hown. unfold groupBlocks. cbn [gsHeapSize gsSnods]. rewrite map_app. solve_Permutation.
  - rewrite <- (links_perm (items ++ [(name, newE)]) items'); [by apply links_snoc| |done]. by rewrite Hperm.
  - by rewrite <- Hc0.
  - rewrite <- Hperm, length_app. cbn. lia.
Qed.

Lemma findIdx_ok h used k name its : lhData h = Some (used ++ zeros k) -> Forall (item_ok used) its ->
  findIdx h name (map snd its) = fst <$> list_find (fun it : item => it.1 = name) its.
Proof.
  intros Hd. induction 1 as [|it its Hit _ IH]; [done|]. cbn [map findIdx list_find].
  rewrite (item_name used k h it Hit Hd). case_decide as Hn.
  - by rewrite bool_decide_true.
  - rewrite bool_decide_false, IH by done. by destruct (list_find _ its) as [[]|].
Qed.

Lemma StronglySorted_middle {A} (R : relation A) (l1 : list A) x l2 :
  StronglySorted R (l1 ++ x :: l2) -> StronglySorted R (l1 ++ l2).
Proof.
  induction l1 as [|y l1 IH]; cbn; intros Hs; apply StronglySorted_inv in Hs as [Hs Hf]; [done|].
  constructor; [by apply IH|]. apply Forall_app in Hf as [Hf1 Hf2]. apply Forall_cons in Hf2 as [_ Hf2]. by apply Forall_app.
Qed.

Lemma allocSnods_none fuel n cs st : n <= len cs -> allocSnods fuel n cs st = Ret (cs, st).
Proof. intros Hn. destruct fuel; cbn [allocSnods]; (destruct (Z.ltb_spec (len cs) n); [lia|done]). Qed.

Lemma shrinkTree_ok items cs used :
  Forall (item_ok used) items -> len cs = snodCount (len items) -> len cs <= 32 ->
  exists keys, (if len (map snd items) >? 0 then
      let! b := addKeys (length cs) 0 (map snd items) cs (NewBTreeNodeV1 0 groupBTreeK) in
      let! lastEntry := idx (map snd items) (len (map snd items) - 1) in
      Ret (appendKey b (LinkNameOffset lastEntry))
    else
      let! a := idx cs 0 in
      let! b := AddKey (NewBTreeNodeV1 0 groupBTreeK) 0 a in
      Ret (appendKey b 0)) = Ret (leafOf keys cs) /\ Forall (is_u 64) keys.
Proof.
  intros Hit Hc H32. rewrite len_map. destruct items as [|it items].
  - exists [0; 0]. change (snodCount (len [])) with 1 in Hc. destruct cs as [|c [|c' cs]]; rewrite ?len_cons, ?len_nil in Hc;
      [lia| |pose proof (len_nonneg cs); lia]. rewrite idx_head. cbn [obind]. split; [done|]. repeat constructor; by vm_compute.
  - destruct (Z.gtb_spec (len (it :: items)) 0); [|rewrite len_cons in *; pose proof (len_nonneg items); lia].
    destruct (newTree_ok (it :: items) cs used) as (ks & e & -> & Ee & Hk); [done|done|done|lia|].
    rewrite <- (len_map snd (it :: items)). cbn [obind]. rewrite Ee. cbn [obind]. eexists. split; [done|exact Hk].
Qed.

Lemma unlinkFromParent_ok fw parent ha ba gs i1 it i2 m rest :
  sb8 (sblock fw) -> groupAddrs fw parent = Ret (ha, ba) -> usable (storage fw) m ->
  group_in (storage fw) ha ba gs rest -> gsItems gs = i1 ++ it :: i2 ->
  exists st' gs' rest', unlinkFromParent fw parent it.1 = Ret (ObjectAddress it.2, with_storage fw st') /\ usable st' m /\
    group_in st' ha ba gs' (rest' ++ rest) /\ gsItems gs' = i1 ++ i2 /\
    keeps (contents (storage fw)) (contents st') rest /\
    gsUsed gs' = gsUsed gs /\ gsHeapSize gs' = gsHeapSize gs.
Proof.
  intros Hsb Hga Hu [Hg Hown] Hitems. destruct gs as [hsz used keys cs items].
  cbn [gsHeapSize gsUsed gsKeys gsSnods gsItems] in *. destruct Hg. cbn [gsHeapSize gsUsed gsKeys gsSnods gsItems] in *.
  subst items. destruct go_count0 as [Hcnt H32].
  assert (Hl : len (i1 ++ it :: i2) = 1 + len (i1 ++ i2)) by len_lia. pose proof (len_nonneg (i1 ++ i2)) as Hn0.
  destruct (snodCount_bounds (len (i1 ++ i2)) Hn0) as (Hs1 & Hs2 & Hs3). pose proof (snodCount_succ (len (i1 ++ i2)) Hn0) as Hs4.
  destruct (snodCount_bounds (len (i1 ++ it :: i2)) (len_nonneg _)) as (_ & Ht & _).
  rewrite Hl in *. pose proof Hsb as (HO & HL & HE). unfold unlinkFromParent. cbv zeta. rewrite Hga. cbn [obind].
  rewrite (readLocalHeap_ok _ _ hsz used) by done. cbn [obind]. set (st := storage fw) in *.
  destruct (readGroupBTree_ok (contents st) ba keys cs (sblock fw)) as (node & -> & _); [done..|]. cbn [obind].
  rewrite (readAllEntries_ok _ cs (map (map snd) (chunks (length cs) (i1 ++ it :: i2)))); [|done|done|by rewrite Forall2_fmap_r].
  cbn [obind]. rewrite <- chunks_map, concat_chunks by (rewrite len_map; unfold len in *; lia).
  set (heap := mkHeap _ _ _ _ _ used).
  rewrite (findIdx_ok heap used (hsz - len used)) by done.
  assert (list_find (fun x : item => x.1 = it.1) (i1 ++ it :: i2) = Some (length i1, it)) as ->.
  { apply list_find_Some. split_and!; [by apply list_lookup_middle|done|]. intros j y Hj Hlt Hy.
    rewrite lookup_app_l in Hj by done. rewrite map_app in go_nodup0. apply NoDup_app in go_nodup0 as (_ & Hd & _).
    apply (Hd y.1); [by apply list_elem_of_fmap_2, (list_elem_of_lookup_2 _ j)|]. cbn. rewrite Hy. set_solver. }
  cbn [fmap option_fmap option_map fst]. rewrite (idx_lookup _ _ it.2) by (by rewrite list_lookup_fmap, list_lookup_middle).
  cbn [obind]. rewrite map_app. cbn [map].
  rewrite take_app_length', (cons_middle it.2), app_assoc, drop_app_length' by (rewrite ?length_app, length_map; cbn; lia).
  rewrite <- map_app. set (its := i1 ++ i2) in *.
  assert ((if len (map snd its) >? 0 then (len (map snd its) + snodCapacity - 1) / snodCapacity else 1) = snodCount (len its)) as ->.
  { rewrite len_map. unfold snodCount, snodCapacity, groupLeafNodeK. change (2 * 4) with 8.
    destruct (Z.gtb_spec (len its) 0), (Z.ltb_spec ((len its + 8 - 1) / 8) 1); Z.to_euclidean_division_equations; lia. }
  set (n := snodCount (len its)) in *. rewrite allocSnods_none by lia. cbn [obind].
  rewrite slice_ret by lia. cbn [obind]. rewrite Z.sub_0_r. set (cs' := sub cs 0 n).
  assert (Hcs : cs = cs' ++ drop (Z.to_nat n) cs) by (unfold cs', sub; by rewrite drop_0, take_drop).
  assert (Hl' : len cs' = n) by (apply len_sub; lia).
  replace (Z.to_nat n) with (length cs') by (rewrite <- Hl'; unfold len; lia).
  assert (Hit' : Forall (item_ok used) its).
  { apply Forall_app in go_items0 as [? [_ ?]%Forall_cons]. by apply Forall_app. }
  destruct (shrinkTree_ok its cs' used) as (keys' & -> & Hk'); [done|done|lia|]. cbn [obind].
  set (rest' := map snodBlock (drop (Z.to_nat n) cs) ++ rest).
  assert (Hown' : owned st ≡ₚ groupBlocks ha ba (mkGS hsz used keys' cs' its) ++ rest').
  { rewrite Hown. unfold groupBlocks, rest'. cbn [gsHeapSize gsSnods]. rewrite Hcs at 1. rewrite map_app. solve_Permutation. }
  assert (Hnd' : NoDup (map fst its)).
  { unfold its. rewrite map_app in *. cbn [map] in go_nodup0. apply NoDup_app in go_nodup0 as (N1 & N2 & [_ N3]%NoDup_cons).
    apply NoDup_app. split_and!; [done| |done]. intros x Hx Hx2. apply (N2 x Hx). set_solver. }
  destruct (store_group_ok (sblock fw) st m ha ba hsz used keys' cs' its heap rest')
    as (st1 & st2 & h' & st3 & E1 & E2 & E3 & Hu3 & Ho3 & Hg3 & Hk3); try done.
  { lia. }
  { rewrite Hcs in go_addrs0. by apply Forall_app in go_addrs0 as [? _]. }
  { by eapply StronglySorted_middle. }
  rewrite E1. cbn [obind]. rewrite E2. cbn [obind]. rewrite E3. cbn [obind].
  exists st3, (mkGS hsz used keys' cs' its), (map snodBlock (drop (Z.to_nat n) cs)). split_and!; try done.
  - split; [exact Hg3|]. by rewrite Ho3.
  - eapply keeps_sub; [|exact (preserves_keeps _ _ _ Hk3)]. unfold rest'. set_solver.
Qed.

(** Looking a name up in the group of its parent. *)
Lemma resolve_ok fw path parent name ha ba gs rest :
  sb8 (sblock fw) -> path <> [slash] -> HasSlashPrefix path = true -> parsePath path = Ret (parent, name) ->
  groupAddrs fw parent = Ret (ha, ba) -> group_in (storage fw) ha ba gs rest ->
  resolveObjectAddress fw path =
    match links (gsItems gs) !! name with Some a => Ret a | None => Err "object not found" end.
Proof.
  intros Hsb Hroot Hpre Hparse Hga [Hg _]. pose proof Hsb as (HO & HL & HE).
  destruct (go_count _ _ _ _ Hg) as [_ H32].
  unfold resolveObjectAddress. rewrite bool_decide_false, Hpre, Hparse by done. cbn [obind]. rewrite Hga. cbn [obind].
  destruct (readGroupBTree_ok _ ba (gsKeys gs) (gsSnods gs) (sblock fw) HO HE (go_ba _ _ _ _ Hg) H32 (go_addrs _ _ _ _ Hg)
    (go_keys _ _ _ _ Hg) (go_tree _ _ _ _ Hg)) as (node & -> & _). cbn [obind].
  rewrite (readLocalHeap_ok _ _ (gsHeapSize gs) (gsUsed gs)) by (done || apply Hg). cbn [obind].
  rewrite (findInNodes_ok _ _ _ (gsUsed gs) (gsHeapSize gs - len (gsUsed gs)) name (gsSnods gs)
    (chunks (length (gsSnods gs)) (gsItems gs))); [|done|done|done| |apply Hg].
  - rewrite (group_items_chunks _ _ _ _ Hg), <- (find_links (gsItems gs) name) by apply Hg.
    by destruct (List.find _ (gsItems gs)).
  - rewrite (group_items_chunks _ _ _ _ Hg). apply Hg.
Qed.

(** A new group is empty; what was allocated before is kept. *)
Lemma createGroupStructures_ok fw m :
  sb8 (sblock fw) -> usable (storage fw) (5000 + m) -> 0 <= m ->
  exists ha sa ba st' gs, createGroupStructures fw = Ret (ha, sa, ba, with_storage fw st') /\ usable st' m /\
    group_in st' ha ba gs (owned (storage fw)) /\ gsItems gs = [] /\ gsUsed gs = [x00] /\ gsHeapSize gs = 4096 /\
    keeps (contents (storage fw)) (contents st') (owned (storage fw)) /\
    owned st' ≡ₚ groupBlocks ha ba gs ++ owned (storage fw).
Proof.
  intros (HO & HL & HE) Hu Hm. unfold createGroupStructures. cbv zeta. set (st := storage fw) in *.
  change (NewLocalHeap 4096) with (mkHeap None 0 4096 1 0 [x00]).
  change (heapSize _) with (32 + 4096).
  destruct (allocate_law st _ (32 + 4096) Hu ltac:(lia)) as (ha & st1 & -> & Hu1 & Hc1 & Ho1 & _). cbn [obind].
  destruct (allocate_law st1 _ 328 Hu1 ltac:(lia)) as (sa & st2 & E2 & Hu2 & Hc2 & Ho2 & _).
  change snodTotalSize with 328. rewrite E2. cbn [obind].
  assert (Hsa : mkBlock sa 328 ∈ owned st2) by (rewrite Ho2; set_solver).
  pose proof (owned_from _ _ _ Hu2 Hsa) as Hsf. destruct (owned_range _ _ _ Hu2 Hsa) as (_ & _ & Hsb).
  unfold bend in Hsb. cbn [Offset Size] in *. rewrite HO, HE.
  change (NewSymbolTableNode snodCapacity) with (nodeOf []).
  destruct (snodWriteAt_ok st2 _ [] sa Hu2 ltac:(lia) ltac:(by vm_compute)) as (st3 & -> & Hu3 & Ho3 & Hc3). cbn [obind].
  change (AddKey (NewBTreeNodeV1 0 groupBTreeK) 0 sa) with (Ret (leafOf [0] [sa])). cbn [obind].
  destruct (allocate_law st3 _ 544 Hu3 ltac:(lia)) as (ba & st4 & E4 & Hu4 & Hc4 & Ho4 & _).
  change (24 + (2 * 16 + 1) * 8 + 2 * 16 * 8) with 544. rewrite E4. cbn [obind].
  assert (Hba : mkBlock ba 544 ∈ owned st4) by (rewrite Ho4; set_solver).
  destruct (owned_range _ _ _ Hu4 Hba) as (Hba0 & _ & Hba1).
  assert (Hha : mkBlock ha (32 + 4096) ∈ owned st4) by (rewrite Ho4, Ho3, Ho2, Ho1; set_solver).
  destruct (owned_range _ _ _ Hu4 Hha) as (Hha0 & _ & Hha1). unfold bend in Hba1, Hha1. cbn [Offset Size] in *.
  destruct (btreeWriteAt_ok st4 _ (leafOf [0] [sa]) ba Hu4 ltac:(lia)) as (st5 & -> & Hu5 & Ho5 & Hc5). cbn [obind].
  destruct (heapWriteTo_ok (mkHeap None 0 4096 1 0 [x00]) st5 _ ha Hu5 ltac:(lia)) as (h' & st6 & -> & Hu6 & Ho6 & Hc6);
    [cbn [DataSegmentSize]; lia|done|done|done|]. cbn [obind].
  set (gs := mkGS 4096 [x00] [0] [sa] []). exists ha, sa, ba, st6, gs.
  assert (Hown : owned st6 ≡ₚ groupBlocks ha ba gs ++ owned st).
  { rewrite Ho6, Ho5, Ho4, Ho3, Ho2, Ho1. unfold groupBlocks. cbn [gsHeapSize gsSnods gs map]. unfold snodBlock. solve_Permutation. }
  set (ws := [(sa, snodBytes []); (ba, groupNodeBytes (leafOf [0] [sa])); (ha, heapBytes 4096 ha [x00])]).
  assert (Hf : contents st6 = write_all (contents st) ws) by
    (unfold ws; cbn [write_all fst snd]; rewrite Hc6, Hc5, Hc4, Hc3, Hc2, Hc1; done).
  assert (Hblk : map wblock ws ++ owned st ≡ₚ owned st6).
  { rewrite Hown. unfold ws, groupBlocks. cbn [gsSnods gsHeapSize map gs]. unfold wblock. cbn [fst snd].
    rewrite len_groupNodeBytes, len_heapBytes, len_snodBytes by (by vm_compute). unfold snodBlock. solve_Permutation. }
  assert (Hpos : Forall (fun w => 0 <= w.1) ws) by (unfold ws; repeat (constructor; [cbn; lia|]); constructor).
  pose proof (owned_pairwise st6 _ (map wblock ws ++ owned st) [] Hu6 ltac:(by rewrite app_nil_r, Hblk)) as Hpw.
  pose proof (owned_pairwise st6 _ (map wblock ws) (owned st) Hu6 ltac:(by rewrite Hblk)) as Hpw1.
  pose proof (write_all_stored ws (contents st) Hpos Hpw1) as Hst. unfold ws in Hst at 2. rewrite <- Hf in Hst.
  apply Forall_cons in Hst as [S1 Hst]. apply Forall_cons in Hst as [S2 Hst]. apply Forall_cons in Hst as [S3 _]. cbn [fst snd] in S1, S2, S3.
  split_and!; [reflexivity|by eapply usable_mono; [exact Hu6|lia]| |done|done|done| |exact Hown].
  - split; [|exact Hown]. constructor; cbn [gsHeapSize gsUsed gsKeys gsSnods gsItems gs];
      [by left|by vm_compute|lia|lia|exact S3|exact S2|done|by repeat constructor; vm_compute| | |constructor|constructor|constructor].
    + constructor; [|done]. unfold addr_ok, MaxUint64. lia.
    + constructor; [|constructor]. split_and!; [lia|by vm_compute|constructor|exact S1].
  - rewrite Hf. apply keeps_write_all. apply pairwise_across in Hpw. rewrite Forall_fmap in Hpw.
    apply Forall_and. split; [done|]. eapply Forall_impl; [exact Hpw|]. done.
Qed.

Lemma unlinkFromParent_absent fw parent ha ba gs name rest :
  sb8 (sblock fw) -> groupAddrs fw parent = Ret (ha, ba) -> group_in (storage fw) ha ba gs rest ->
  name ∉ map fst (gsItems gs) -> unlinkFromParent fw parent name = Err "child not found in parent group".
Proof.
  intros Hsb Hga [Hg _] Hn. pose proof Hsb as (HO & HL & HE). destruct (go_count _ _ _ _ Hg) as [_ H32].
  unfold unlinkFromParent. cbv zeta. rewrite Hga. cbn [obind].
  rewrite (readLocalHeap_ok _ _ (gsHeapSize gs) (gsUsed gs)) by (done || apply Hg). cbn [obind].
  destruct (readGroupBTree_ok _ ba (gsKeys gs) (gsSnods gs) (sblock fw) HO HE (go_ba _ _ _ _ Hg) H32 (go_addrs _ _ _ _ Hg)
    (go_keys _ _ _ _ Hg) (go_tree _ _ _ _ Hg)) as (node & -> & _). cbn [obind].
  rewrite (readAllEntries_ok _ (gsSnods gs) (map (map snd) (chunks (length (gsSnods gs)) (gsItems gs))));
    [|done|done|rewrite Forall2_fmap_r; apply Hg].
  cbn [obind]. rewrite <- concat_map, (group_items_chunks _ _ _ _ Hg).
  rewrite (findIdx_ok _ (gsUsed gs) (gsHeapSize gs - len (gsUsed gs))) by (done || apply Hg).
  assert (list_find (fun it : item => it.1 = name) (gsItems gs) = None) as ->; [|done].
  apply list_find_None. apply Forall_forall. intros it Hit Heq. apply Hn. rewrite <- Heq. by apply list_elem_of_fmap_2.
Qed.

(** The group read back by the reader's functions (btree_group.go, localheap.go):
    every entry, with its name. *)
Lemma group_readable st ha ba gs rest sb :
  sb8 sb -> group_in st ha ba gs rest ->
  exists heap es, LoadLocalHeap (contents st) ha sb = Ret heap /\ ReadGroupBTreeEntries (contents st) ba sb = Ret es /\
    Forall2 (fun e it => GetString heap (LinkNameOffset e) = Ret it.1 /\ ObjectAddress e = ObjectAddress it.2) es (gsItems gs).
Proof.
  intros Hsb [Hg _]. pose proof Hsb as (HO & HL & HE). destruct (go_count _ _ _ _ Hg) as [_ H32].
  eexists _, _. split_and!.
  - apply (LoadLocalHeap_ok _ _ (gsHeapSize gs) (gsUsed gs)); [done|apply Hg|apply Hg|apply Hg].
  - pose proof (go_ba _ _ _ _ Hg). apply (ReadGroupBTreeEntries_ok _ _ (gsKeys gs) (gsSnods gs)
      (map (map snd) (chunks (length (gsSnods gs)) (gsItems gs)))); [done|done|lia|done|apply Hg|apply Hg|].
    rewrite Forall2_fmap_r. eapply Forall2_impl; [apply Hg|]. done.
  - rewrite <- concat_map, (group_items_chunks _ _ _ _ Hg). pose proof (go_items _ _ _ _ Hg) as Hit. clear -Hit.
    set (used := gsUsed gs) in *. clearbody used. generalize (gsHeapSize gs - len used). intros k.
    induction Hit as [|it its Hok _ IH]; cbn [map]; constructor; [|done]. split; [|done]. by eapply item_name.
Qed.
End storage.
