(* ===== verification/Namespace.v ===== *)
(** * The name space of a file: group_write.go as a refinement

    The groups of an open file, taken together, implement a map from paths to
    directories.  The abstract specification is the relation [ns_step]; [repr]
    says that the bytes of the file and the writer's tables represent an abstract
    state; [run_refines] is the simulation. *)

From S2P Require Import Prelude Allocator Storage Checksum Superblock Messages ObjectHeader LocalHeap GroupTree Groups GroupLaws.

(** ** Specification *)

(** A directory: where its object header is, what it links to, and how many bytes
    of its name heap are used. *)
Record dir := mkDir { dHeader : Z; dEntries : gmap bytes Z; dUsed : Z }.

Abbreviation ns := (gmap bytes dir).

(** The root has two names. *)
Definition norm (path : bytes) : bytes := if is_root path then [] else path.

Definition childPath (parent name : bytes) : bytes := parent ++ slash :: name.

Inductive nsOp :=
  | Link (parent name : bytes) (addr : Z)
  | Unlink (parent name : bytes)
  | Mkdir (parent name : bytes)
  | Lookup (parent name : bytes).

Definition addEntry (d : dir) (name : bytes) (addr : Z) : dir :=
  mkDir (dHeader d) (<[name := addr]> (dEntries d)) (dUsed d + len name + 1).

Inductive ns_step : ns -> nsOp -> outcome Z -> ns -> Prop :=
  | step_link A p n a d : A !! norm p = Some d -> dEntries d !! n = None ->
      ns_step A (Link p n a) (Ret a) (<[norm p := addEntry d n a]> A)
  | step_link_parent A p n a : A !! norm p = None ->
      ns_step A (Link p n a) (Err "parent group not found") A
  | step_unlink A p n d a : A !! norm p = Some d -> dEntries d !! n = Some a ->
      ns_step A (Unlink p n) (Ret a) (<[norm p := mkDir (dHeader d) (delete n (dEntries d)) (dUsed d)]> A)
  | step_unlink_absent A p n d : A !! norm p = Some d -> dEntries d !! n = None ->
      ns_step A (Unlink p n) (Err "child not found in parent group") A
  | step_unlink_parent A p n : A !! norm p = None ->
      ns_step A (Unlink p n) (Err "parent group not found") A
  | step_mkdir A p n d a : A !! norm p = Some d -> dEntries d !! n = None -> is_u 64 a ->
      ns_step A (Mkdir p n) (Ret a) (<[norm p := addEntry d n a]> (<[childPath p n := mkDir a ∅ 1]> A))
  | step_mkdir_parent A p n : A !! norm p = None ->
      ns_step A (Mkdir p n) (Err "parent group does not exist") A
  | step_lookup A p n d a : A !! norm p = Some d -> dEntries d !! n = Some a ->
      ns_step A (Lookup p n) (Ret a) A
  | step_lookup_absent A p n d : A !! norm p = Some d -> dEntries d !! n = None ->
      ns_step A (Lookup p n) (Err "object not found") A
  | step_lookup_parent A p n : A !! norm p = None ->
      ns_step A (Lookup p n) (Err "parent group not found") A.

Inductive ns_run : ns -> list nsOp -> list (outcome Z) -> ns -> Prop :=
  | run_nil A : ns_run A [] [] A
  | run_cons A op r A' ops rs A'' : ns_step A op r A' -> ns_run A' ops rs A'' -> ns_run A (op :: ops) (r :: rs) A''.

Definition name_ok (n : bytes) : Prop := n <> [] /\ no_nul n.
Definition path_ok (p n : bytes) : Prop := (p = [] \/ head p = Some slash) /\ n <> [] /\ slash ∉ n.

(** Room for one more name: the heap has 4096 bytes, the B-tree node 32 children
    of 8 entries. *)
Definition room (A : ns) (p n : bytes) : Prop :=
  forall d, A !! norm p = Some d ->
    dEntries d !! n = None /\ dUsed d + len n + 1 <= 4096 /\ Z.of_nat (size (dEntries d)) < 256.

(** What the caller sees to. *)
Definition op_ok (A : ns) (op : nsOp) : Prop :=
  match op with
  | Link p n a => name_ok n /\ is_u 64 a /\ room A p n
  | Mkdir p n => name_ok n /\ path_ok p n /\ room A p n
  | Unlink _ _ => True
  | Lookup p n => path_ok p n
  end.

Fixpoint admissible (A : ns) (ops : list nsOp) : Prop :=
  match ops with
  | [] => True
  | op :: ops => op_ok A op /\ forall r A', ns_step A op r A' -> admissible A' ops
  end.

(** ** Paths *)

Lemma lastIndex_no_slash l : forall i found, slash ∉ l -> lastIndex l i found = found.
Proof.
  induction l as [|b l IH]; intros i found Hn; cbn [lastIndex]; [done|].
  apply not_elem_of_cons in Hn as [Hb Hl]. unfold byte_eqb. rewrite bool_decide_false by congruence. by apply IH.
Qed.

Lemma lastIndex_child p n : forall i found, slash ∉ n -> lastIndex (p ++ slash :: n) i found = i + len p.
Proof.
  induction p as [|b p IH]; intros i found Hn; cbn [app lastIndex].
  - unfold byte_eqb. rewrite bool_decide_true, lastIndex_no_slash by done. rewrite len_nil. lia.
  - rewrite IH by done. rewrite len_cons. lia.
Qed.

Lemma TrimSlashSuffix_child p n : n <> [] -> slash ∉ n -> TrimSlashSuffix (childPath p n) = childPath p n.
Proof.
  intros Hne Hn. unfold TrimSlashSuffix, childPath. rewrite bool_decide_false; [done|].
  destruct (exists_last Hne) as (n' & b & ->). rewrite app_comm_cons, app_assoc, last_snoc. intros [= ->]. set_solver.
Qed.

Lemma childPath_not_root p n : n <> [] -> childPath p n <> [] /\ childPath p n <> [slash].
Proof. intros Hn. unfold childPath. destruct p as [|b [|c p]]; cbn; split; congruence. Qed.

Lemma parsePath_child p n : n <> [] -> slash ∉ n -> parsePath (childPath p n) = Ret (p, n).
Proof.
  intros Hne Hn. destruct (childPath_not_root p n Hne) as [_ H2]. unfold parsePath.
  rewrite bool_decide_false by done. rewrite TrimSlashSuffix_child by done. cbv zeta.
  replace (lastIndex (childPath p n) 0 (-1)) with (len p) by (unfold childPath; by rewrite lastIndex_child).
  pose proof (len_nonneg p). unfold childPath. destruct (Z.eqb_spec (len p) 0) as [Hp|Hp].
  - destruct p; [|rewrite len_cons in Hp; pose proof (len_nonneg p); lia]. cbn [app].
    by rewrite (slice_at (slash :: n) [slash] n []) by (rewrite ?app_nil_r; done || len_lia).
  - rewrite (slice_at (p ++ slash :: n) [] p (slash :: n)) by (done || len_lia). cbn [obind].
    by rewrite (slice_at (p ++ slash :: n) (p ++ [slash]) n []) by (rewrite ?app_nil_r, <- ?app_assoc; done || len_lia).
Qed.

Lemma validate_child p n : path_ok p n -> validateGroupPath (childPath p n) = Ret tt.
Proof.
  intros (Hp & Hne & Hn). destruct (childPath_not_root p n Hne) as [H1 H2]. unfold validateGroupPath.
  rewrite !bool_decide_false by done. cbn [negb]. unfold HasSlashPrefix. rewrite bool_decide_true; [done|].
  unfold childPath. destruct Hp as [-> | Hp]; [done|]. by destruct p.
Qed.

Lemma prefix_child p n : path_ok p n -> HasSlashPrefix (childPath p n) = true.
Proof. intros ([-> | Hp] & _); apply bool_decide_true; [done|]. unfold childPath. by destruct p. Qed.

(** ** Representation *)

(** A group of the file: its object header, heap and B-tree addresses, and what
    heap and tree hold. *)
Record FG := mkFG { gOh : Z; gHa : Z; gBa : Z; gSt : GroupState }.

(** The object header [CreateGroup] writes: the symbol table message, padded to
    256 bytes. *)
Definition groupHeader (ba ha : Z) : ObjectHeaderWriter :=
  mkHeaderWriter 2 0 [(MsgSymbolTable, le_put 8 ba ++ le_put 8 ha); (MsgNil, zeros 221)] 0.

Definition header_stored (f : bytes) (g : FG) : Prop :=
  exists c, stored f (gOh g) (headBytes (groupHeader (gBa g) (gHa g)) ++ le_put 4 c).

Definition group_abs (g : FG) : dir := mkDir (gOh g) (links (gsItems (gSt g))) (len (gsUsed (gSt g))).

Lemma len_groupHeader ba ha : len (headBytes (groupHeader ba ha)) = 252.
Proof.
  assert (H : len (bodyBytes (Messages (groupHeader ba ha))) = 245).
  { cbn [Messages groupHeader]. rewrite !bodyBytes_cons. change (bodyBytes []) with (@nil byte).
    rewrite !len_app, !len_msgBytes. cbn [snd]. rewrite len_app, !len_le_put. by vm_compute. }
  rewrite len_headBytes, H by (rewrite H; lia). reflexivity.
Qed.

(** [PadToSize] gives exactly the smallest header size. *)
Lemma PadToSize_group ba ha rc :
  PadToSize (mkHeaderWriter 2 0 [(MsgSymbolTable, le_put 8 ba ++ le_put 8 ha)] rc) MinOHDRAllocSize =
    Ret (mkHeaderWriter 2 0 (Messages (groupHeader ba ha)) rc).
Proof.
  unfold PadToSize, Size_, sizeV2. cbn [wVersion Messages wFlags RefCount Z.eqb Pos.eqb obind].
  assert (sumSizes sizeV2Msg [(MsgSymbolTable, le_put 8 ba ++ le_put 8 ha)] = 20) as ->; [|reflexivity].
  unfold sumSizes. cbn [fold_left]. rewrite len_app, !len_le_put. reflexivity.
Qed.

Lemma encode_group ba ha rc : exists c,
  encodeV2 (mkHeaderWriter 2 0 (Messages (groupHeader ba ha)) rc) = Ret (256, headBytes (groupHeader ba ha) ++ le_put 4 c) /\
  Size_ (mkHeaderWriter 2 0 (Messages (groupHeader ba ha)) rc) = Ret 256.
Proof.
  pose proof (len_groupHeader ba ha) as Hl. destruct (encodeV2_ret (mkHeaderWriter 2 0 (Messages (groupHeader ba ha)) rc)) as (c & _ & _ & E & Es).
  { cbn [Messages groupHeader]. rewrite !bodyBytes_cons. change (bodyBytes []) with (@nil byte).
    rewrite !len_app, !len_msgBytes. cbn [snd]. rewrite len_app, !len_le_put. by vm_compute. }
  change (headBytes (mkHeaderWriter 2 0 (Messages (groupHeader ba ha)) rc)) with (headBytes (groupHeader ba ha)) in *.
  exists c. unfold Size_. cbn [wVersion Z.eqb Pos.eqb]. rewrite Es, E, Hl. change (252 + 4) with 256. split; reflexivity.
Qed.

Lemma EncodeSymbolTable8 ba ha : EncodeSymbolTableMessage ba ha 8 = Ret (le_put 8 ba ++ le_put 8 ha).
Proof. reflexivity. Qed.

Section refinement.
Context `{StorageLaws St}.
Hypothesis Hfirst : 0 < first_address.

Definition gBlocks (g : FG) : list block := mkBlock (gOh g) 256 :: groupBlocks (gHa g) (gBa g) (gSt g).

Definition blocksOf (G : gmap bytes FG) : list block := map_to_list G ≫= fun kv => gBlocks kv.2.

(** One group as it is in the file. *)
Definition fg_ok (f : bytes) (g : FG) : Prop :=
  group_ok f (gHa g) (gBa g) (gSt g) /\ gsHeapSize (gSt g) = 4096 /\ is_u 64 (gOh g) /\ header_stored f g.

(** The file holds the groups [G], at the addresses the writer's tables give;
    [rest] are the other allocated blocks. *)
Record fs_ok (fw : FileW St) (G : gmap bytes FG) (rest : list block) : Prop := {
  fs_sb : sb8 (sblock fw);
  fs_root : exists g, G !! [] = Some g /\ gOh g = rootGroupAddr fw /\ gHa g = rootHeapAddr fw /\ gBa g = rootBTreeAddr fw;
  fs_noroot : groups fw !! [] = None /\ groups fw !! [slash] = None;
  fs_table p : p <> [] -> (fun m => (headerAddr m, heapAddr m, btreeAddr m)) <$> groups fw !! p =
    (fun g => (gOh g, gHa g, gBa g)) <$> G !! p;
  fs_groups : map_Forall (fun _ => fg_ok (contents (storage fw))) G;
  fs_own : owned (storage fw) ≡ₚ blocksOf G ++ rest }.

Definition repr (fw : FileW St) (A : ns) : Prop := exists G rest, fs_ok fw G rest /\ A = group_abs <$> G.

Lemma blocksOf_delete G p g : G !! p = Some g -> blocksOf G ≡ₚ gBlocks g ++ blocksOf (delete p G).
Proof. intros Hg. unfold blocksOf. by rewrite <- (map_to_list_delete G p g Hg). Qed.

Lemma blocksOf_insert G p g : G !! p = None -> blocksOf (<[p := g]> G) ≡ₚ gBlocks g ++ blocksOf G.
Proof. intros Hg. unfold blocksOf. by rewrite map_to_list_insert. Qed.

Lemma in_blocksOf G p g : G !! p = Some g -> gBlocks g ⊆ blocksOf G.
Proof. intros Hg b Hb. rewrite (blocksOf_delete G p g Hg). set_solver. Qed.

Lemma group_ok_keeps f f' ha ba gs : group_ok f ha ba gs -> keeps f f' (groupBlocks ha ba gs) -> group_ok f' ha ba gs.
Proof.
  intros Hg Hk. pose proof (go_fits _ _ _ _ Hg). pose proof (go_snods _ _ _ _ Hg) as Hsn. constructor; try apply Hg.
  - apply (Hk (mkBlock ha (32 + gsHeapSize gs)));
      [unfold groupBlocks; set_solver|apply len_heapBytes; pose proof (len_nonneg (gsUsed gs)); lia|apply Hg].
  - apply (Hk (mkBlock ba 544)); [unfold groupBlocks; set_solver|apply len_groupNodeBytes|apply Hg].
  - assert (Hs : map snodBlock (gsSnods gs) ⊆ groupBlocks ha ba gs) by (unfold groupBlocks; set_solver). revert Hs.
    clear -Hk Hsn. induction Hsn as [|a its cs itss (? & ? & ? & Hst) _ IH]; intros Hs; constructor.
    + split_and!; [done..|]. apply (Hk (snodBlock a)); [apply Hs; set_solver|by apply len_snodBytes|exact Hst].
    + apply IH. set_solver.
Qed.

Lemma fg_ok_keeps f f' g : fg_ok f g -> keeps f f' (gBlocks g) -> fg_ok f' g.
Proof.
  intros (Hg & Hs & Ha & c & Hc) Hk. split_and!; [|done..|].
  - eapply group_ok_keeps; [exact Hg|]. eapply keeps_sub; [|exact Hk]. unfold gBlocks. set_solver.
  - exists c. apply (Hk (mkBlock (gOh g) 256)); [unfold gBlocks; set_solver| |exact Hc].
    rewrite len_app, len_groupHeader, len_le_put. done.
Qed.

Lemma links_size its : NoDup (map fst its) -> size (links its) = length its.
Proof.
  intros Hnd. unfold links. rewrite map_size_list_to_map; [by rewrite length_map|]. by rewrite map_map.
Qed.

Lemma links_None its n : NoDup (map fst its) -> links its !! n = None -> n ∉ map fst its.
Proof.
  intros Hnd Hl [it [-> Hit]]%list_elem_of_fmap. by rewrite (links_lookup _ it) in Hl.
Qed.

Lemma links_Some its n a : NoDup (map fst its) -> links its !! n = Some a ->
  exists i1 it i2, its = i1 ++ it :: i2 /\ it.1 = n /\ ObjectAddress it.2 = a.
Proof.
  intros Hnd Hl. unfold links in Hl. apply elem_of_list_to_map in Hl; [|by rewrite map_map].
  apply list_elem_of_fmap in Hl as ([n' e] & [= -> ->] & Hit).
  apply list_elem_of_split in Hit as (i1 & i2 & ->). by exists i1, (n', e), i2.
Qed.

(** Where a directory's group is. *)
Lemma fs_addrs fw G rest p g : fs_ok fw G rest -> G !! norm p = Some g -> groupAddrs fw p = Ret (gHa g, gBa g).
Proof.
  intros [] Hg. unfold groupAddrs, norm in *. destruct (is_root p) eqn:Er.
  - destruct fs_root0 as (g' & Hg' & _ & <- & <-). by simplify_eq.
  - assert (p <> []) as Hp by (intros ->; by vm_compute in Er). specialize (fs_table0 p Hp). rewrite Hg in fs_table0.
    destruct (groups fw !! p) as [m|]; [|done]. cbn in fs_table0. by injection fs_table0 as _ -> ->.
Qed.

Lemma fs_no_addrs fw G rest p : fs_ok fw G rest -> G !! norm p = None ->
  is_root p = false /\ groups fw !! p = None /\ groupAddrs fw p = Err "parent group not found".
Proof.
  intros [] Hg. unfold groupAddrs, norm in *. destruct (is_root p) eqn:Er.
  - destruct fs_root0 as (g' & Hg' & _). congruence.
  - assert (p <> []) as Hp by (intros ->; by vm_compute in Er). specialize (fs_table0 p Hp). rewrite Hg in fs_table0.
    by destruct (groups fw !! p) as [m|].
Qed.

(** ** One group changes *)

(** All allocated blocks but the heap, tree and nodes of one group. *)
Definition others (G : gmap bytes FG) (k : bytes) (g : FG) (rest : list block) : list block :=
  mkBlock (gOh g) 256 :: blocksOf (delete k G) ++ rest.

Lemma others_rest G k g rest : rest ⊆ others G k g rest.
Proof. unfold others. intros b Hb. apply elem_of_cons. right. apply elem_of_app. by right. Qed.

Lemma fs_group_in fw G rest k g : fs_ok fw G rest -> G !! k = Some g ->
  group_in (storage fw) (gHa g) (gBa g) (gSt g) (others G k g rest).
Proof.
  intros Hfs Hk. destruct (fs_groups _ _ _ Hfs k g Hk) as (Hg & _). split; [exact Hg|].
  rewrite (fs_own _ _ _ Hfs), (blocksOf_delete G k g Hk). unfold gBlocks, others. solve_Permutation.
Qed.

Lemma fs_update fw G rest k g gs' st' rest' : fs_ok fw G rest -> G !! k = Some g ->
  group_in st' (gHa g) (gBa g) gs' (rest' ++ others G k g rest) -> gsHeapSize gs' = 4096 ->
  keeps (contents (storage fw)) (contents st') (others G k g rest) ->
  fs_ok (with_storage fw st') (<[k := mkFG (gOh g) (gHa g) (gBa g) gs']> G) (rest' ++ rest).
Proof.
  intros Hfs Hk [Hg' Hown'] Hsz Hkeep. destruct (fs_groups _ _ _ Hfs k g Hk) as (Hg & Hs & Ha & Hh).
  set (g' := mkFG _ _ _ _). assert (Hhdr : header_stored (contents st') g').
  { destruct Hh as [c Hc]. exists c. apply (Hkeep (mkBlock (gOh g) 256)); [unfold others; set_solver| |exact Hc].
    rewrite len_app, len_groupHeader, len_le_put. done. }
  constructor; cbn [sblock groups storage with_storage rootGroupAddr rootHeapAddr rootBTreeAddr].
  - apply Hfs.
  - destruct (fs_root _ _ _ Hfs) as (r & Hr & Hr1 & Hr2 & Hr3). destruct (decide (k = [])) as [-> |Hne].
    + simplify_eq. exists g'. by rewrite lookup_insert_eq.
    + exists r. by rewrite lookup_insert_ne.
  - apply Hfs.
  - intros p Hp. rewrite (fs_table _ _ _ Hfs p Hp). destruct (decide (k = p)) as [-> |Hne].
    + by rewrite lookup_insert_eq, Hk.
    + by rewrite lookup_insert_ne.
  - intros p q Hpq. destruct (decide (k = p)) as [-> |Hne].
    + rewrite lookup_insert_eq in Hpq. injection Hpq as <-. done.
    + rewrite lookup_insert_ne in Hpq by done. eapply fg_ok_keeps; [by apply (fs_groups _ _ _ Hfs p)|].
      eapply keeps_sub; [|exact Hkeep]. intros b Hb. unfold others. apply elem_of_cons. right. apply elem_of_app. left.
      by apply (in_blocksOf (delete k G) p q); [rewrite lookup_delete_ne|].
  - rewrite Hown', (blocksOf_delete _ k g') by apply lookup_insert_eq. rewrite delete_insert_eq.
    unfold others, gBlocks. cbn [gOh gHa gBa gSt g']. solve_Permutation.
Qed.

(** ** The operations *)

Lemma fs_link fw G rest p n a g m : fs_ok fw G rest -> G !! norm p = Some g -> usable (storage fw) (328 + m) -> 0 <= m ->
  name_ok n -> is_u 64 a -> dEntries (group_abs g) !! n = None -> dUsed (group_abs g) + len n + 1 <= 4096 ->
  Z.of_nat (size (dEntries (group_abs g))) < 256 ->
  exists st' g', linkToParent fw p n a = Ret (with_storage fw st') /\ usable st' m /\
    fs_ok (with_storage fw st') (<[norm p := g']> G) rest /\ group_abs g' = addEntry (group_abs g) n a /\
    preserves (contents (storage fw)) (contents st') rest.
Proof.
  intros Hfs Hg Hu Hm [Hne Hnn] Ha Hfresh Hroom H256. cbn [group_abs dEntries dUsed] in *.
  pose proof (fs_group_in _ _ _ _ _ Hfs Hg) as Hin. pose proof (proj1 Hin) as Hok.
  destruct (fs_groups _ _ _ Hfs _ _ Hg) as (_ & Hsz & _). pose proof (go_nodup _ _ _ _ Hok) as Hnd.
  rewrite links_size in H256 by done.
  destruct (linkToParent_ok Hfirst fw p _ _ _ n a m _ (fs_sb _ _ _ Hfs) (fs_addrs _ _ _ _ _ Hfs Hg) Hu Hm Hin Hnn Hne
    (links_None _ _ Hnd Hfresh) ltac:(lia) H256 Ha) as (st' & gs' & E & Hu' & Hin' & Hl' & Hk' & Hused & Hsz' & _).
  exists st', (mkFG (gOh g) (gHa g) (gBa g) gs'). split_and!; [exact E|exact Hu'| | |].
  - apply (fs_update fw G rest _ _ _ _ [] Hfs Hg); [exact Hin'|by rewrite Hsz'|by apply preserves_keeps].
  - unfold group_abs, addEntry. cbn [gOh gSt dHeader dEntries dUsed]. rewrite Hl', Hused. f_equal. len_lia.
  - eapply preserves_sub; [apply others_rest|exact Hk'].
Qed.

Lemma fs_unlink fw G rest p n a g m : fs_ok fw G rest -> G !! norm p = Some g -> usable (storage fw) m ->
  dEntries (group_abs g) !! n = Some a ->
  exists st' g' extra, unlinkFromParent fw p n = Ret (a, with_storage fw st') /\ usable st' m /\
    fs_ok (with_storage fw st') (<[norm p := g']> G) (extra ++ rest) /\
    group_abs g' = mkDir (dHeader (group_abs g)) (delete n (dEntries (group_abs g))) (dUsed (group_abs g)) /\
    keeps (contents (storage fw)) (contents st') rest.
Proof.
  intros Hfs Hg Hu Hn. cbn [group_abs dEntries dUsed dHeader] in *.
  pose proof (fs_group_in _ _ _ _ _ Hfs Hg) as Hin. pose proof (proj1 Hin) as Hok.
  destruct (fs_groups _ _ _ Hfs _ _ Hg) as (_ & Hsz & _). pose proof (go_nodup _ _ _ _ Hok) as Hnd.
  destruct (links_Some _ _ _ Hnd Hn) as (i1 & it & i2 & Hits & <- & <-).
  destruct (unlinkFromParent_ok Hfirst fw p _ _ _ i1 it i2 m _ (fs_sb _ _ _ Hfs) (fs_addrs _ _ _ _ _ Hfs Hg) Hu Hin Hits)
    as (st' & gs' & rest' & E & Hu' & Hin' & Hl' & Hk' & Hused & Hsz').
  exists st', (mkFG (gOh g) (gHa g) (gBa g) gs'), rest'. split_and!; [exact E|exact Hu'| | |].
  - apply (fs_update fw G rest _ _ _ _ rest' Hfs Hg); [exact Hin'|by rewrite Hsz'|exact Hk'].
  - unfold group_abs. cbn [gOh gSt]. rewrite Hl', Hused. f_equal. rewrite Hits in Hnd |- *. by apply links_delete.
  - eapply keeps_sub; [apply others_rest|exact Hk'].
Qed.

(** Allocating and writing the object header. *)
Lemma store_group_header st m ba ha rc : usable st (256 + m) -> 0 <= m ->
  exists oh st1 st2, allocate st 256 = Ret (oh, st1) /\
    storeHeader (mkHeaderWriter 2 0 (Messages (groupHeader ba ha)) rc) st1 oh = Ret (256, st2) /\ usable st2 m /\
    owned st2 = owned st ++ [mkBlock oh 256] /\ keeps (contents st) (contents st2) (owned st) /\ is_u 64 oh /\
    exists c, stored (contents st2) oh (headBytes (groupHeader ba ha) ++ le_put 4 c).
Proof.
  intros Hu Hm. destruct (allocate_law st _ 256 Hu ltac:(lia)) as (oh & st1 & E1 & Hu1 & Hc1 & Ho1 & Hd).
  assert (Hb : mkBlock oh 256 ∈ owned st1) by (rewrite Ho1; set_solver).
  destruct (owned_range _ _ _ Hu1 Hb) as (Hr1 & _ & Hr2). unfold bend in Hr2. cbn [Offset Size] in *.
  destruct (encode_group ba ha rc) as (c & E & _).
  assert (Hl : len (headBytes (groupHeader ba ha) ++ le_put 4 c) = 256) by (by rewrite len_app, len_groupHeader, len_le_put).
  destruct (write_law st1 _ (headBytes (groupHeader ba ha) ++ le_put 4 c) oh Hu1 ltac:(lia)) as (st2 & E2 & Hu2 & Ho2 & Hc2);
    [rewrite Hl; lia|].
  exists oh, st1, st2. unfold storeHeader. cbn [wVersion Z.eqb Pos.eqb]. rewrite E. cbn [obind]. rewrite E2. cbn [obind].
  split_and!; [exact E1|done|by eapply usable_mono; [exact Hu2|lia]|by rewrite Ho2, Ho1| |unfold is_u; lia|].
  - rewrite Hc2, Hc1. apply write_keeps; [lia|]. by rewrite Hl.
  - exists c. rewrite Hc2. by apply stored_write.
Qed.

Lemma fs_create fw G rest p n g m : fs_ok fw G rest -> G !! norm p = Some g -> path_ok p n ->
  usable (storage fw) (5256 + m) -> 0 <= m ->
  exists a fw' g' extra, CreateGroup fw (childPath p n) =
      (let! fw'' := linkToParent fw' p n a in Ret (a, fw'')) /\ usable (storage fw') m /\
    fs_ok fw' (<[childPath p n := g']> G) (extra ++ rest) /\ group_abs g' = mkDir a ∅ 1 /\ is_u 64 a /\
    keeps (contents (storage fw)) (contents (storage fw')) rest /\ sblock fw' = sblock fw /\
    rootGroupAddr fw' = rootGroupAddr fw.
Proof.
  intros Hfs Hg Hp Hu Hm. pose proof Hp as (_ & Hne & Hns). pose proof (fs_sb _ _ _ Hfs) as (HO & HL & HE).
  destruct (childPath_not_root p n Hne) as [Hc1 Hc2]. unfold CreateGroup. rewrite (validate_child p n) by done. cbn [obind].
  rewrite (parsePath_child p n) by done. cbn [obind].
  assert (is_root p || bool_decide (is_Some (groups fw !! p)) = true) as ->.
  { unfold norm in Hg. destruct (is_root p) eqn:Er; [done|]. apply bool_decide_true.
    assert (p <> []) as Hpn by (intros ->; by vm_compute in Er). pose proof (fs_table _ _ _ Hfs p Hpn) as Ht.
    rewrite Hg in Ht. destruct (groups fw !! p); [eauto|done]. }
  destruct (createGroupStructures_ok Hfirst fw (256 + m)) as (ha & sa & ba & st1 & gs & -> & Hu1 & Hg1 & Hi1 & Hus1 & Hs1 & Hk1 & Ho1);
    [by split_and!|by eapply usable_mono; [exact Hu|lia]|lia|]. cbn [obind].
  cbn [sblock with_storage storage groups]. rewrite HO, EncodeSymbolTable8. cbn [obind].
  rewrite PadToSize_group. cbn [obind]. destruct (encode_group ba ha 0) as (_ & _ & ->). cbn [obind].
  destruct (store_group_header st1 m ba ha 0 Hu1 Hm) as (oh & st2 & st3 & -> & E3 & Hu3 & Ho3 & Hk3 & Hoh & Hst). cbn [obind].
  rewrite E3. cbn [obind Z.eqb Pos.eqb]. clear E3. set (g' := mkFG oh ha ba gs).
  set (fw' := with_groups _ _). set (k := childPath p n) in *.
  exists oh, fw', g', (match G !! k with Some o => gBlocks o | None => [] end).
  assert (Hin : forall q o, G !! q = Some o -> fg_ok (contents st3) o).
  { intros q o Hq. eapply fg_ok_keeps; [by apply (fs_groups _ _ _ Hfs q)|]. eapply keeps_trans; [| |exact Hk3].
    - rewrite Ho1, (fs_own _ _ _ Hfs). by apply list_subseteq_app_r, list_subseteq_app_l, (in_blocksOf _ q).
    - eapply keeps_sub; [|exact Hk1]. rewrite (fs_own _ _ _ Hfs). by apply list_subseteq_app_l, (in_blocksOf _ q). }
  assert (Hkr : keeps (contents (storage fw)) (contents st3) rest).
  { eapply keeps_trans; [| |exact Hk3].
    - rewrite Ho1, (fs_own _ _ _ Hfs). by apply list_subseteq_app_r, list_subseteq_app_r.
    - eapply keeps_sub; [|exact Hk1]. rewrite (fs_own _ _ _ Hfs). by apply list_subseteq_app_r. }
  split_and!; [done|exact Hu3| |unfold group_abs; cbn [gOh gSt g']; by rewrite Hi1, Hus1|done|exact Hkr|reflexivity|reflexivity].
  constructor; cbn [sblock groups storage with_storage with_groups rootGroupAddr rootHeapAddr rootBTreeAddr fw'].
  - by split_and!.
  - destruct (fs_root _ _ _ Hfs) as (r & Hr & Hr1). exists r. by rewrite lookup_insert_ne.
  - destruct (fs_noroot _ _ _ Hfs). by rewrite !lookup_insert_ne.
  - intros q Hq. destruct (decide (k = q)) as [<- |Hkq]; [by rewrite !lookup_insert_eq|].
    rewrite !lookup_insert_ne by done. by apply (fs_table _ _ _ Hfs).
  - intros q o Hq. destruct (decide (k = q)) as [<- |Hkq].
    + rewrite lookup_insert_eq in Hq. injection Hq as <-. split_and!; [|done|done|exact Hst].
      destruct Hg1 as [Hg1 _]. cbn [gHa gBa gSt g']. eapply group_ok_keeps; [exact Hg1|]. eapply keeps_sub; [|exact Hk3].
      rewrite Ho1. by apply list_subseteq_app_l.
    + rewrite lookup_insert_ne in Hq by done. by eapply Hin.
  - rewrite (blocksOf_delete _ k g') by apply lookup_insert_eq. rewrite delete_insert_eq, Ho3, Ho1, (fs_own _ _ _ Hfs).
    unfold gBlocks at 1. cbn [gOh gHa gBa gSt g']. destruct (G !! k) as [o|] eqn:Ek.
    + rewrite (blocksOf_delete G k o Ek). solve_Permutation.
    + rewrite delete_id by done. solve_Permutation.
Qed.

Lemma fs_lookup fw G rest p n g : fs_ok fw G rest -> G !! norm p = Some g -> path_ok p n ->
  resolveObjectAddress fw (childPath p n) =
    match dEntries (group_abs g) !! n with Some a => Ret a | None => Err "object not found" end.
Proof.
  intros Hfs Hg Hp. pose proof Hp as (_ & Hne & Hn).
  eapply resolve_ok; [apply Hfs|by apply childPath_not_root|by apply prefix_child|by apply parsePath_child
    |by eapply fs_addrs|by eapply fs_group_in].
Qed.

(** ** Simulation *)

(** One operation of the writer; an error leaves the writer as it was. *)
Definition runOp (fw : FileW St) (op : nsOp) : outcome Z * FileW St :=
  match (match op with
         | Link p n a => let! fw' := linkToParent fw p n a in Ret (a, fw')
         | Unlink p n => unlinkFromParent fw p n
         | Mkdir p n => CreateGroup fw (childPath p n)
         | Lookup p n => let! a := resolveObjectAddress fw (childPath p n) in Ret (a, fw)
         end) with
  | Ret (a, fw') => (Ret a, fw')
  | Err e => (Err e, fw)
  | Panic => (Panic, fw)
  end.

Fixpoint runOps (fw : FileW St) (ops : list nsOp) : list (outcome Z) * FileW St :=
  match ops with
  | [] => ([], fw)
  | op :: ops =>
      let '(r, fw) := runOp fw op in
      let '(rs, fw) := runOps fw ops in
      (r :: rs, fw)
  end.

(** Bytes one operation takes from the file at most. *)
Definition opSpace : Z := 5584.

Lemma abs_lookup (G : gmap bytes FG) k : (group_abs <$> G) !! k = group_abs <$> G !! k.
Proof. apply lookup_fmap. Qed.

(** One operation on the groups: it does what the specification says, keeps the
    other blocks [rest] and may leave some of its own behind. *)
Lemma fs_runOp fw G rest op m : fs_ok fw G rest -> op_ok (group_abs <$> G) op -> usable (storage fw) (opSpace + m) -> 0 <= m ->
  exists r fw' G' extra, runOp fw op = (r, fw') /\ ns_step (group_abs <$> G) op r (group_abs <$> G') /\
    fs_ok fw' G' (extra ++ rest) /\ usable (storage fw') m /\ keeps (contents (storage fw)) (contents (storage fw')) rest /\
    sblock fw' = sblock fw /\ rootGroupAddr fw' = rootGroupAddr fw.
Proof.
  intros Hfs Hop Hu Hm. unfold opSpace in Hu.
  assert (Hstay : forall r, ns_step (group_abs <$> G) op r (group_abs <$> G) ->
    exists r' fw' G' extra, (r, fw) = (r', fw') /\ ns_step (group_abs <$> G) op r' (group_abs <$> G') /\
      fs_ok fw' G' (extra ++ rest) /\ usable (storage fw') m /\ keeps (contents (storage fw)) (contents (storage fw')) rest /\
      sblock fw' = sblock fw /\ rootGroupAddr fw' = rootGroupAddr fw).
  { intros r Hs. exists r, fw, G, []. split_and!; [done|done|done|eapply usable_mono; [exact Hu|lia]|apply keeps_refl|done|done]. }
  destruct op as [p n a|p n|p n|p n]; unfold runOp; cbn [op_ok] in *;
    (destruct (G !! norm p) as [g|] eqn:Eg;
     [assert (Ea : (group_abs <$> G) !! norm p = Some (group_abs g)) by (by rewrite abs_lookup, Eg)
     |destruct (fs_no_addrs _ _ _ _ Hfs Eg) as (Er & Egr & Ega);
      assert (Ea : (group_abs <$> G) !! norm p = None) by (by rewrite abs_lookup, Eg)]).
  - destruct Hop as (Hn & Ha & Hroom). destruct (Hroom _ Ea) as (R1 & R2 & R3).
    destruct (fs_link fw G rest p n a g (5256 + m) Hfs Eg) as (st' & g' & E & Hu' & Hfs' & Habs & Hk%preserves_keeps);
      [eapply usable_mono; [exact Hu|lia]|lia|done..|]. rewrite E. cbn [obind].
    eexists _, _, (<[norm p := g']> G), []. split_and!; [reflexivity| |exact Hfs'|eapply usable_mono; [exact Hu'|lia]|exact Hk|done|done].
    rewrite fmap_insert, Habs. by apply step_link.
  - unfold linkToParent. cbv zeta. rewrite Ega. cbn [obind]. apply Hstay. by constructor.
  - destruct (dEntries (group_abs g) !! n) as [a|] eqn:En.
    + destruct (fs_unlink fw G rest p n a g m Hfs Eg) as (st' & g' & extra & -> & Hu' & Hfs' & Habs & Hk);
        [eapply usable_mono; [exact Hu|lia]|done|].
      eexists _, _, (<[norm p := g']> G), extra. split_and!; [reflexivity| |exact Hfs'|done|exact Hk|done|done].
      rewrite fmap_insert, Habs. by eapply step_unlink.
    + destruct (fs_groups _ _ _ Hfs _ _ Eg) as (Hg & _). pose proof (go_nodup _ _ _ _ Hg) as Hnd.
      erewrite unlinkFromParent_absent; [|apply Hfs|by eapply fs_addrs|by eapply fs_group_in|by eapply links_None].
      apply Hstay. by eapply step_unlink_absent.
  - unfold unlinkFromParent. cbv zeta. rewrite Ega. cbn [obind]. apply Hstay. by constructor.
  - destruct Hop as (Hn & Hp & Hroom). destruct (Hroom _ Ea) as (R1 & R2 & R3).
    destruct (fs_create fw G rest p n g (328 + m) Hfs Eg Hp) as (a & fw1 & g1 & extra & E & Hu1 & Hfs1 & Habs1 & Ha & Hk1 & Hsb1 & Hra1);
      [eapply usable_mono; [exact Hu|lia]|lia|].
    assert (Eg1 : (<[childPath p n := g1]> G) !! norm p = Some g).
    { rewrite lookup_insert_ne; [done|]. unfold norm, childPath. destruct (is_root p); [by destruct p|].
      intros Heq. apply (f_equal length) in Heq. rewrite length_app in Heq. cbn in Heq. lia. }
    destruct (fs_link fw1 _ (extra ++ rest) p n a g m Hfs1 Eg1) as (st2 & g2 & E2 & Hu2 & Hfs2 & Habs2 & Hk2%preserves_keeps); [done..|].
    rewrite E, E2. cbn [obind]. eexists _, _, (<[norm p := g2]> (<[childPath p n := g1]> G)), extra.
    split_and!; [reflexivity| |exact Hfs2|done| |done|done].
    + rewrite !fmap_insert, Habs1, Habs2. by apply step_mkdir.
    + eapply keeps_trans; [|exact Hk1|exact Hk2]. by apply list_subseteq_app_r.
  - destruct Hop as (Hn & Hp & _). pose proof Hp as (_ & Hne & Hns). unfold CreateGroup.
    rewrite (validate_child p n) by done. cbn [obind]. rewrite (parsePath_child p n) by done. cbn [obind].
    rewrite Er, Egr. cbn [orb]. rewrite bool_decide_false by (by intros [? ?]). apply Hstay. by constructor.
  - rewrite (fs_lookup _ _ _ _ _ _ Hfs Eg Hop). destruct (dEntries (group_abs g) !! n) as [a|] eqn:En; cbn [obind];
      apply Hstay; [by eapply step_lookup|by eapply step_lookup_absent].
  - pose proof Hop as (_ & Hne & Hns). unfold resolveObjectAddress. cbv zeta. destruct (childPath_not_root p n Hne) as [_ Hc].
    rewrite bool_decide_false by done. rewrite prefix_child by done. rewrite parsePath_child by done. cbn [obind]. rewrite Ega. cbn [obind].
    apply Hstay. by constructor.
Qed.

Lemma runOp_refines fw A op m : repr fw A -> op_ok A op -> usable (storage fw) (opSpace + m) -> 0 <= m ->
  exists r fw' A', runOp fw op = (r, fw') /\ ns_step A op r A' /\ repr fw' A' /\ usable (storage fw') m.
Proof.
  intros (G & rest & Hfs & ->) Hop Hu Hm. destruct (fs_runOp fw G rest op m Hfs Hop Hu Hm) as (r & fw' & G' & extra & E & Hs & Hfs' & Hu' & _).
  exists r, fw', (group_abs <$> G'). split_and!; [done|done| |done]. by exists G', (extra ++ rest).
Qed.

(** Every admissible sequence of operations behaves as the specification says. *)
Lemma run_refines ops : forall fw A m, repr fw A -> admissible A ops -> usable (storage fw) (opSpace * len ops + m) -> 0 <= m ->
  exists rs fw' A', runOps fw ops = (rs, fw') /\ ns_run A ops rs A' /\ repr fw' A' /\ usable (storage fw') m.
Proof.
  induction ops as [|op ops IH]; intros fw A m Hr Had Hu Hm; cbn [runOps].
  - exists [], fw, A. split_and!; [done|constructor|done|]. by eapply usable_mono; [exact Hu|].
  - destruct Had as [Hop Had]. rewrite len_cons in Hu. pose proof (len_nonneg ops).
    destruct (runOp_refines fw A op (opSpace * len ops + m) Hr Hop) as (r & fw1 & A1 & E & Hs & Hr1 & Hu1);
      [eapply usable_mono; [exact Hu|unfold opSpace; lia]|unfold opSpace; lia|].
    destruct (IH fw1 A1 m Hr1 (Had _ _ Hs) Hu1 Hm) as (rs & fw2 & A2 & E2 & Hs2 & Hr2 & Hu2).
    rewrite E, E2. exists (r :: rs), fw2, A2. split_and!; [done|by econstructor|done..].
Qed.

(** ** The root group of a new file *)

Lemma group_ok_of st ha ba gs rest : group_in st ha ba gs rest -> group_ok (contents st) ha ba gs.
Proof. by intros [? _]. Qed.

(** [createRootGroupStructureV2] is [createGroupStructures] followed by the object
    header. *)
Lemma root_structures st fw0 ha sa ba st1 : sb8 (sblock fw0) -> storage fw0 = st ->
  createGroupStructures fw0 = Ret (ha, sa, ba, with_storage fw0 st1) ->
  exists hsz, createRootGroupStructureV2 st =
    let! (ga, gsz, st2) := writeRootGroupHeader st1 ba ha 8 in Ret (mkRootInfo ga gsz ba ha sa hsz, st2).
Proof.
  intros (HO & HL & HE) <-. unfold createGroupStructures, createRootGroupStructureV2, createSymbolTableNode, createBTreeNode.
  cbv zeta. rewrite HO, HE. change groupBTreeK with 16.
  intros ((a1 & s1) & -> & E)%obind_ret_inv. cbn [obind]. apply obind_ret_inv in E as ((a2 & s2) & -> & E). cbn [obind].
  apply obind_ret_inv in E as (s3 & -> & E). cbn [obind]. apply obind_ret_inv in E as (b & -> & E). cbn [obind].
  apply obind_ret_inv in E as ((a3 & s4) & -> & E). cbn [obind]. apply obind_ret_inv in E as (s5 & -> & E). cbn [obind].
  apply obind_ret_inv in E as ((h' & s6) & -> & E). cbn [obind].
  assert (E' := f_equal (fun o => match o with Ret x => Some (x.1, storage x.2) | _ => None end) E). cbn in E'.
  injection E' as -> -> -> ->. eauto.
Qed.

Lemma root_ok st m : usable st (5256 + m) -> 0 <= m -> owned st = [] ->
  exists info st' g, createRootGroupStructureV2 st = Ret (info, st') /\ usable st' m /\
    group_abs g = mkDir (groupAddr info) ∅ 1 /\ is_u 64 (groupAddr info) /\
    forall sb, sb8 sb -> fs_ok (mkFW st' sb (groupAddr info) (riBtreeAddr info) (riHeapAddr info) (riStNodeAddr info)
      (groupSize info) ∅) {[ [] := g ]} [].
Proof.
  intros Hu Hm Ho. set (fw0 := mkFW st (mkSuperblock 2 8 8 0 0 LittleEndian 0 0 0 0) 0 0 0 0 0 ∅).
  destruct (createGroupStructures_ok Hfirst fw0 (256 + m)) as (ha & sa & ba & st1 & gs & E & Hu1 & Hg1 & Hi1 & Hus1 & Hs1 & Hk1 & Ho1);
    [done|by eapply usable_mono; [exact Hu|lia]|lia|]. cbn [storage fw0] in *.
  destruct (root_structures st fw0 ha sa ba st1) as [hsz ->]; [done|done|exact E|].
  destruct (store_group_header st1 m ba ha 1 Hu1 Hm) as (oh & st2 & st3 & E2 & E3 & Hu3 & Ho3 & Hk3 & Hoh & Hst).
  unfold writeRootGroupHeader. rewrite EncodeSymbolTable8. cbn [obind]. rewrite PadToSize_group. cbn [obind].
  destruct (encode_group ba ha 1) as (_ & _ & ->). cbn [obind]. rewrite E2. cbn [obind]. rewrite E3. cbn [obind Z.eqb Pos.eqb].
  eexists _, st3, (mkFG oh ha ba gs). split_and!; [reflexivity|exact Hu3| |exact Hoh|].
  { unfold group_abs. cbn [gOh gSt groupAddr]. by rewrite Hi1, Hus1. }
  intros sb Hsb. constructor; cbn [sblock groups storage rootGroupAddr rootHeapAddr rootBTreeAddr groupAddr riHeapAddr riBtreeAddr].
  - done.
  - exists (mkFG oh ha ba gs). split; [apply lookup_singleton_eq|]. split_and!; reflexivity.
  - split; reflexivity.
  - intros p Hp. by rewrite lookup_empty, lookup_singleton_ne.
  - apply map_Forall_singleton. split_and!; [|done|done|exact Hst]. cbn [gHa gBa gSt].
    eapply group_ok_keeps; [exact (group_ok_of _ _ _ _ _ Hg1)|]. eapply keeps_sub; [|exact Hk3]. rewrite Ho1. by apply list_subseteq_app_l.
  - unfold blocksOf. rewrite map_to_list_singleton. cbn. rewrite Ho3, Ho1, Ho. unfold gBlocks. cbn [gOh gHa gBa gSt]. solve_Permutation.
Qed.

Lemma fs_keeps fw G rest st' : fs_ok fw G rest -> owned st' = owned (storage fw) ->
  keeps (contents (storage fw)) (contents st') (owned (storage fw)) -> fs_ok (with_storage fw st') G rest.
Proof.
  intros Hfs Ho Hk. constructor; cbn [sblock groups storage with_storage rootGroupAddr rootHeapAddr rootBTreeAddr]; try apply Hfs.
  - intros p g Hg. eapply fg_ok_keeps; [by apply (fs_groups _ _ _ Hfs p)|]. eapply keeps_sub; [|exact Hk].
    rewrite (fs_own _ _ _ Hfs). apply list_subseteq_app_l. by apply (in_blocksOf _ p).
  - rewrite Ho. apply Hfs.
Qed.

(** ** What a reader of the file finds *)

(** The object header of a group, read back, and the group behind it. *)
Lemma repr_readable fuel fw A p d : repr fw A -> A !! p = Some d -> len (contents (storage fw)) < 2 ^ 63 ->
  exists oh off ba ha heap es, ReadObjectHeader fuel (contents (storage fw)) (dHeader d) (sblock fw) = Ret oh /\
    hType oh = ObjectTypeGroup /\
    hMessages oh = [mkMsg MsgSymbolTable off (le_put 8 ba ++ le_put 8 ha) false; mkMsg MsgNil (off + 20) (zeros 221) false] /\
    is_u 64 ba /\ is_u 64 ha /\
    LoadLocalHeap (contents (storage fw)) ha (sblock fw) = Ret heap /\
    ReadGroupBTreeEntries (contents (storage fw)) ba (sblock fw) = Ret es /\
    exists its, Forall2 (fun e it => GetString heap (LinkNameOffset e) = Ret it.1 /\ ObjectAddress e = ObjectAddress it.2) es its /\
      NoDup (map fst its) /\ StronglySorted item_le its /\ links its = dEntries d.
Proof.
  intros (G & rest & Hfs & ->) Hp Hlen. rewrite abs_lookup in Hp. destruct (G !! p) as [g|] eqn:Eg; [|done].
  injection Hp as <-. destruct (fs_groups _ _ _ Hfs _ _ Eg) as (Hg & Hs & Ha & c & Hc).
  destruct (group_readable (storage fw) (gHa g) (gBa g) (gSt g) _ (sblock fw) (fs_sb _ _ _ Hfs) (fs_group_in _ _ _ _ _ Hfs Eg))
    as (heap & es & El & Er & Hes).
  destruct (ReadObjectHeader_v2 fuel (contents (storage fw)) (gOh g) (sblock fw) (groupHeader (gBa g) (gHa g)) (le_put 4 c))
    as (off & name & Eh); [done|done|done| |exact Hc|rewrite len_le_put; lia|done|].
  { cbn [Messages groupHeader]. repeat constructor; cbn [fst snd]; rewrite ?len_app, ?len_le_put; by vm_compute. }
  cbn [Messages groupHeader] in Eh.
  assert (Em : readBackMessages off [(MsgSymbolTable, le_put 8 (gBa g) ++ le_put 8 (gHa g)); (MsgNil, zeros 221)] =
    [mkMsg MsgSymbolTable off (le_put 8 (gBa g) ++ le_put 8 (gHa g)) false; mkMsg MsgNil (off + 20) (zeros 221) false]).
  { cbn [readBackMessages]. rewrite len_app, !len_le_put, len_zeros by lia. reflexivity. }
  rewrite Em in Eh. rewrite findContinuations_none in Eh by (repeat constructor; done). cbn [obind] in Eh.
  destruct fuel as [|fuel]; cbn [followContinuations obind] in Eh.
  all: destruct (refCountOf_total (hMessages (mkHeader 2 0 ObjectTypeGroup
      [mkMsg MsgSymbolTable off (le_put 8 (gBa g) ++ le_put 8 (gHa g)) false; mkMsg MsgNil (off + 20) (zeros 221) false]
      [] 0)) (sblock fw) 1) as [rc Erc]; cbn [hMessages] in Erc; rewrite Erc in Eh; cbn [obind] in Eh;
    eexists _, off, (gBa g), (gHa g), heap, es; (split_and!; [exact Eh|reflexivity|reflexivity| | |exact El|exact Er|]);
    [pose proof (go_ba _ _ _ _ Hg); unfold is_u; lia|pose proof (go_ha _ _ _ _ Hg); unfold is_u; lia|
     exists (gsItems (gSt g)); split_and!; [exact Hes|apply Hg|apply Hg|reflexivity]].
Qed.
End refinement.

(** ** Properties *)

Lemma storeSuperblock_keeps fw sb eof (n := 0) m : Version sb = 2 -> OffsetSize sb = 8 -> LengthSize sb = 8 ->
  @usable _ _ (FileWriter_laws 48) fw m ->
  exists fw', storeSuperblock sb fw eof = Ret fw' /\ @usable _ _ (FileWriter_laws 48) fw' m /\
    @owned _ _ (FileWriter_laws 48) fw' = @owned _ _ (FileWriter_laws 48) fw /\
    keeps (contents fw) (contents fw') (@owned _ _ (FileWriter_laws 48) fw).
Proof.
  intros Hv HO HL Hu. destruct (encodeSbV2_ret sb eof HO HL) as (c & _ & _ & E). unfold storeSuperblock. rewrite Hv.
  cbn [Z.eqb Pos.eqb negb andb]. rewrite E. cbn [obind].
  assert (Hl : len (v2_head sb (undef_if_zero (SuperExtension sb)) eof ++ le_put 4 c) = 48) by (by rewrite len_app, len_v2_head, len_le_put).
  destruct (@write_law _ _ (FileWriter_laws 48) fw m (v2_head sb (undef_if_zero (SuperExtension sb)) eof ++ le_put 4 c) 0 Hu
    ltac:(lia) ltac:(lia)) as (fw' & -> & Hu' & Ho & Hc). exists fw'. split_and!; [done|exact Hu'|exact Ho|].
  rewrite Hc. apply write_keeps; [lia|]. apply Forall_forall. intros b Hb.
  pose proof (@owned_from _ _ (FileWriter_laws 48) fw m b Hu Hb) as Hf. cbn [first_address FileWriter_laws] in Hf.
  unfold disjoint_blocks, bend. cbn [Offset Size]. rewrite Hl. lia.
Qed.

(** The name space of a file that holds only its root group. *)
Definition newSpace (a : Z) : ns := {[ [] := mkDir a ∅ 1 ]}.

Lemma CreateForWrite_ok m : 0 <= m < 2 ^ 62 ->
  exists fw g b h, CreateForWrite 2 = Ret fw /\ @fs_ok _ _ (FileWriter_laws 48) fw {[ [] := g ]} [] /\
    group_abs g = mkDir (rootGroupAddr fw) ∅ 1 /\ @usable _ _ (FileWriter_laws 48) (storage fw) m /\
    sblock fw = mkSuperblock 2 8 8 0 (rootGroupAddr fw) LittleEndian 0 0 b h.
Proof.
  intros Hm. destruct (@root_ok _ _ (FileWriter_laws 48) ltac:(cbn; lia) (NewFileWriter 48) m) as (info & st & g & E & Hu & Habs & _ & Hfs);
    [apply NewFileWriter_usable; lia|lia|done|].
  unfold CreateForWrite. cbv zeta. cbn [Z.eqb]. unfold createRootGroupStructure. cbn [Z.eqb]. rewrite E. cbn [obind].
  set (sb := mkSuperblock _ _ _ _ _ _ _ _ _ _).
  destruct (storeSuperblock_keeps st sb (fwEndOfFile st) m) as (fw' & -> & Hu' & Ho' & Hk'); [done|done|done|exact Hu|]. cbn [obind].
  eexists _, g, _, _. split; [reflexivity|]. split; [|split; [exact Habs|split; [exact Hu'|reflexivity]]].
  assert (H48 : 0 < @first_address _ _ (FileWriter_laws 48)) by (cbn; lia).
  assert (Hsb : sb8 sb) by (unfold sb; split_and!; reflexivity).
  pose proof (@fs_keeps _ _ (FileWriter_laws 48) H48 _ _ _ fw' (Hfs sb Hsb)) as Hfin.
  cbn [with_storage storage sblock rootGroupAddr rootBTreeAddr rootHeapAddr rootStNodeAddr rootHeaderAllocSz groups] in Hfin.
  exact (Hfin Ho' Hk').
Qed.

Lemma CreateForWrite_repr m : 0 <= m < 2 ^ 62 ->
  exists fw, CreateForWrite 2 = Ret fw /\ @repr _ _ (FileWriter_laws 48) fw (newSpace (rootGroupAddr fw)) /\
    @usable _ _ (FileWriter_laws 48) (storage fw) m.
Proof.
  intros Hm. destruct (CreateForWrite_ok m Hm) as (fw & g & b & h & E & Hfs & Habs & Hu & _). exists fw.
  split_and!; [exact E| |exact Hu]. exists {[ [] := g ]}, []. split; [exact Hfs|]. unfold newSpace. by rewrite map_fmap_singleton, Habs.
Qed.

(** The groups of a file refine a map of directories: on a new file, every
    admissible sequence of links, removals, group creations and look-ups returns
    what the specification allows - the address linked last under a name, the
    code's error where parent or name is missing, never a panic - and leaves a file
    that represents the specified directories. *)
Theorem namespace_refinement ops :
  (forall a, admissible (newSpace a) ops) -> opSpace * len ops < 2 ^ 62 ->
  exists fw0 rs fw A, CreateForWrite 2 = Ret fw0 /\ runOps fw0 ops = (rs, fw) /\
    ns_run (newSpace (rootGroupAddr fw0)) ops rs A /\ @repr _ _ (FileWriter_laws 48) fw A.
Proof.
  intros Had Hsp. pose proof (len_nonneg ops). destruct (CreateForWrite_repr (opSpace * len ops)) as (fw0 & E & Hr & Hu);
    [unfold opSpace in *; lia|].
  destruct (@run_refines _ _ (FileWriter_laws 48) ltac:(cbn; lia) ops fw0 _ 0 Hr (Had _)) as (rs & fw & A & Er & Hs & Hr' & _);
    [rewrite Z.add_0_r; exact Hu|lia|]. exists fw0, rs, fw, A. split_and!; assumption.
Qed.

(** A file written this way is readable: for every directory of the state the
    run ends in, the reader's [ReadObjectHeader] at the directory's address gives a
    group header whose symbol-table message holds the addresses of a B-tree and a
    heap, and [ReadGroupBTreeEntries] and [LoadLocalHeap] on them give, sorted by
    name, exactly the directory's entries. *)
Theorem namespace_readable ops fuel :
  (forall a, admissible (newSpace a) ops) -> opSpace * len ops < 2 ^ 62 ->
  exists fw0 rs fw A, CreateForWrite 2 = Ret fw0 /\ runOps fw0 ops = (rs, fw) /\
    ns_run (newSpace (rootGroupAddr fw0)) ops rs A /\
    (let f := contents (storage fw) in len f < 2 ^ 63 -> forall p d, A !! p = Some d ->
      exists oh off ba ha heap es its, ReadObjectHeader fuel f (dHeader d) (sblock fw) = Ret oh /\
        hType oh = ObjectTypeGroup /\
        hMessages oh = [mkMsg MsgSymbolTable off (le_put 8 ba ++ le_put 8 ha) false; mkMsg MsgNil (off + 20) (zeros 221) false] /\
        LoadLocalHeap f ha (sblock fw) = Ret heap /\ ReadGroupBTreeEntries f ba (sblock fw) = Ret es /\
        Forall2 (fun e it => GetString heap (LinkNameOffset e) = Ret it.1 /\ ObjectAddress e = ObjectAddress it.2) es its /\
        NoDup (map fst its) /\ StronglySorted item_le its /\ links its = dEntries d).
Proof.
  intros Had Hsp. pose proof (len_nonneg ops). destruct (CreateForWrite_repr (opSpace * len ops)) as (fw0 & E & Hr & Hu);
    [unfold opSpace in *; lia|].
  destruct (@run_refines _ _ (FileWriter_laws 48) ltac:(cbn; lia) ops fw0 _ 0 Hr (Had _)) as (rs & fw & A & Er & Hs & Hr' & _);
    [rewrite Z.add_0_r; exact Hu|lia|]. exists fw0, rs, fw, A. split_and!; [assumption..|]. intros f Hf p d Hp.
  destruct (@repr_readable _ _ (FileWriter_laws 48) fuel fw A p d Hr' Hp Hf)
    as (oh & off & ba & ha & heap & es & R1 & R2 & R3 & _ & _ & R4 & R5 & its & R6 & R7 & R8 & R9).
  exists oh, off, ba, ha, heap, es, its. split_and!; assumption.
Qed.

Definition demo_ops : list nsOp :=
  [Mkdir [] [x67]; Link [x2f; x67] [x64] 77; Lookup [x2f; x67] [x64]; Unlink [x2f; x67] [x64];
   Lookup [x2f; x67] [x64]; Mkdir [x2f; x78] [x79]].

Ltac ns_simpl := unfold newSpace, childPath in *; cbn in *; simplify_map_eq.

Lemma demo_admissible a : admissible (newSpace a) demo_ops.
Proof.
  assert (Hp : forall p n, p = [] \/ head p = Some slash -> n <> slash -> path_ok p [n]).
  { intros p n Hp Hn. split_and!; [done|done|]. by rewrite list_elem_of_singleton. }
  assert (Hn : forall b, b <> x00 -> name_ok [b]).
  { intros b Hb. split; [done|]. constructor; [|constructor]. intros He. apply Hb. by apply b2z_inj. }
  cbn [admissible demo_ops]. 
  split; [split_and!; [by apply Hn|apply Hp; [by left|done]|]; intros d Hd; ns_simpl; done|].
  intros r A1 S1. inversion S1; subst; ns_simpl. split; [split_and!; [by apply Hn|done|]; intros d' Hd; ns_simpl; done|].
  intros r A2 S2. inversion S2; subst; ns_simpl. split; [apply Hp; [by right|done]|].
  intros r A3 S3. inversion S3; subst; ns_simpl. split; [done|].
  intros r A4 S4. inversion S4; subst; ns_simpl. split; [apply Hp; [by right|done]|].
  intros r A5 S5. inversion S5; subst; ns_simpl. split; [|done]. split_and!; [by apply Hn|apply Hp; [by right|done]|].
  intros d' Hd; ns_simpl; done.
Qed.

Example namespace_refinement_witness : exists fw0 rs fw A, CreateForWrite 2 = Ret fw0 /\ runOps fw0 demo_ops = (rs, fw) /\
  ns_run (newSpace (rootGroupAddr fw0)) demo_ops rs A /\ @repr _ _ (FileWriter_laws 48) fw A.
Proof. apply (namespace_refinement demo_ops demo_admissible). vm_compute. reflexivity. Defined.

Example namespace_readable_witness : exists fw0 rs fw A, CreateForWrite 2 = Ret fw0 /\ runOps fw0 demo_ops = (rs, fw) /\
  ns_run (newSpace (rootGroupAddr fw0)) demo_ops rs A.
Proof.
  destruct (namespace_readable demo_ops 0 demo_admissible) as (fw0 & rs & fw & A & E1 & E2 & E3 & _); [vm_compute; reflexivity|].
  exists fw0, rs, fw, A. split_and!; assumption.
Defined.

(** The same run, computed. *)
Example demo_run : exists a b fw0, CreateForWrite 2 = Ret fw0 /\
  (runOps fw0 demo_ops).1 = [Ret a; Ret 77; Ret 77; Ret 77; Err "object not found"; Err "parent group does not exist"] /\
  a = b /\ a = 10304.
Proof. eexists _, _, _. split; [vm_compute; reflexivity|]. split; [vm_compute; reflexivity|]. split; reflexivity. Qed.
