(* ===== verification/GlobalHeap.v ===== *)
(** * Global heaps: internal/core/globalheap.go and global_heap_write.go

    Collections of numbered byte objects, which variable-length data refers to.
    The writer fills one collection in memory and starts a new one when an object
    does not fit. *)

From S2P Require Import Prelude Allocator Storage.

Definition GlobalHeapSignature : bytes := String.list_byte_of_string "GCOL".

(** ** Reading *)

Record GlobalHeapObject := mkObject {
  objIndex : Z;
  objSize : Z;
  objData : bytes;
  objNRefs : Z }.

(** [CollectionID] is never set. *)
Record GlobalHeapCollection := mkCollection {
  collAddress : Z;
  collSize : Z;
  collObjects : list GlobalHeapObject }.

Record GlobalHeapReference := mkReference { refHeapAddress : Z; refObjectIndex : Z }.

(** [size] rounded up to a multiple of 8, in 64 bits. *)
Definition align8 (size : Z) : Z :=
  if negb (size mod 8 =? 0) then u64 (size + (8 - size mod 8)) else size.

(** An offset or length of 4 or 8 bytes. *)
Definition getSized (offsetSize : Z) (data : bytes) (off : Z) : outcome Z :=
  if offsetSize =? 8 then get_le 8 data off else get_le 4 data off.

(** The loop over the objects from [offset] on; [fuel] bounds its steps, since a
    size stored in the file may move [offset] backwards. *)
Fixpoint parseObjects (fuel : nat) (data : bytes) (offset offsetSize : Z) : outcome (list GlobalHeapObject) :=
  match fuel with
  | O => Panic
  | S fuel =>
      if offset <? len data then
        let objHeaderSize := 2 + 2 + 4 + offsetSize in
        if offset + objHeaderSize >? len data then Ret []
        else
          let! objID := get_le 2 data offset in
          let! nRefs := get_le 2 data (offset + 2) in
          let! objSize := getSized offsetSize data (offset + 8) in
          if objID =? 0 then
            parseObjects fuel data (i64 (offset + objHeaderSize + i64 (align8 objSize))) offsetSize
          else
            let dataStart := offset + objHeaderSize in
            let dataEnd := i64 (dataStart + i64 objSize) in
            guard negb (dataEnd >? len data) else "object data extends beyond collection";;
            let! objData := (if objSize >=? 2 ^ 63 then Panic else slice data dataStart dataEnd) in
            let! rest := parseObjects fuel data (i64 (offset + objHeaderSize + i64 (align8 objSize))) offsetSize in
            Ret (mkObject objID objSize objData nRefs :: rest)
      else Ret []
  end.

Definition ReadGlobalHeapCollection (fuel : nat) (file : bytes) (address offsetSize : Z) : outcome GlobalHeapCollection :=
  guard negb (negb (offsetSize =? 4) && negb (offsetSize =? 8)) else "invalid offset size";;
  let headerSize := 4 + 1 + 3 + offsetSize in
  let! headerBuf := read_at file (i64 address) headerSize in
  guard bool_decide (take 4 headerBuf = GlobalHeapSignature) else "invalid global heap signature";;
  let! version := idx headerBuf 4 in
  guard b2z version =? 1 else "unsupported global heap version";;
  let! collectionSize := getSized offsetSize headerBuf 8 in
  guard negb (collectionSize <? headerSize) else "invalid collection size";;
  if collectionSize >=? 2 ^ 63 then Panic
  else
    let! collectionData := read_at file (i64 address) collectionSize in
    let offset := if negb (headerSize mod 8 =? 0) then headerSize + (8 - headerSize mod 8) else headerSize in
    let! objects := parseObjects fuel collectionData offset offsetSize in
    Ret (mkCollection address collectionSize objects).

Fixpoint findObject (objects : list GlobalHeapObject) (index : Z) : outcome GlobalHeapObject :=
  match objects with
  | [] => Err "object not found in collection"
  | o :: objects => if objIndex o =? index then Ret o else findObject objects index
  end.

Definition GetObject (gc : GlobalHeapCollection) (index : Z) : outcome GlobalHeapObject :=
  findObject (collObjects gc) index.

Definition ParseGlobalHeapReference (data : bytes) (offsetSize : Z) : outcome GlobalHeapReference :=
  guard negb (negb (offsetSize =? 4) && negb (offsetSize =? 8)) else "invalid offset size";;
  let requiredSize := offsetSize + 4 in
  guard negb (len data <? requiredSize) else "insufficient data for global heap reference";;
  let! heapAddr := getSized offsetSize data 0 in
  let! objIndex := get_le 4 data offsetSize in
  Ret (mkReference heapAddr objIndex).

(** ** Writing *)

Record objectBuilder := mkBuilder { bIndex : Z; bRefCount : Z; bData : bytes }.

Record collectionBuilder := mkColl {
  cAddress : Z;
  cSize : Z;
  cObjects : list objectBuilder;
  nextIndex : Z;
  usedSpace : Z;
  freeSpace : Z }.

Record globalHeapWriter := mkGHW { currentHeap : option collectionBuilder; minCollectionSize : Z }.

Record HeapID := mkHeapID { CollectionAddress : Z; ObjectIndex : Z; SeqLen : Z }.

Definition newGlobalHeapWriter : globalHeapWriter := mkGHW None 4096.

Definition alignTo8 (size : Z) : Z := if size mod 8 =? 0 then size else u64 (size + (8 - size mod 8)).

Definition hasSpace (ghc : collectionBuilder) (objectSize : Z) : bool := freeSpace ghc >=? objectSize.

Definition addObject (ghc : collectionBuilder) (data : bytes) : Z * collectionBuilder :=
  let totalSize := u64 (16 + alignTo8 (len data)) in
  (nextIndex ghc,
   mkColl (cAddress ghc) (cSize ghc) (cObjects ghc ++ [mkBuilder (nextIndex ghc) 0 data]) (u16 (nextIndex ghc + 1))
     (u64 (usedSpace ghc + totalSize)) (u64 (freeSpace ghc - totalSize))).

(** The objects from [offset] on; the last result is the offset after them. *)
Fixpoint putObjects (objects : list objectBuilder) (buf : bytes) (offset : Z) : outcome (bytes * Z) :=
  match objects with
  | [] => Ret (buf, offset)
  | o :: objects =>
      let! buf := put_le 2 buf offset (bIndex o) in
      let! buf := put_le 2 buf (offset + 2) (bRefCount o) in
      let! buf := put_le 8 buf (offset + 8) (len (bData o)) in
      let! buf := copy_bytes buf (offset + 16) (bData o) in
      let offset := offset + 16 + len (bData o) in
      let offset := if negb (offset mod 8 =? 0) then offset + (8 - offset mod 8) else offset in
      putObjects objects buf offset
  end.

(** The zero index, reference count and reserved bytes of the free space are
    written over zeros. *)
Definition encodeHeapCollection (heap : collectionBuilder) : outcome bytes :=
  if cSize heap >=? 2 ^ 63 then Panic
  else
    let! buf := putFields (zeros (cSize heap)) [(0, GlobalHeapSignature); (4, [z2b 1])] in
    let! buf := put_le 8 buf 8 (cSize heap) in
    let! (buf, offset) := putObjects (cObjects heap) buf 16 in
    if freeSpace heap >=? 16 then
      let! buf := put_le 2 buf offset 0 in
      let! buf := put_le 2 buf (offset + 2) 0 in
      put_le 8 buf (offset + 8) (freeSpace heap)
    else Ret buf.

Section with_storage.
Context `{Storage St}.

Definition flushCurrentHeap (ghw : globalHeapWriter) (st : St) : outcome St :=
  match currentHeap ghw with
  | None => Ret st
  | Some heap => let! heapData := encodeHeapCollection heap in write_to st heapData (cAddress heap)
  end.

Definition createNewHeap (ghw : globalHeapWriter) (st : St) (minObjectSize : Z) : outcome (globalHeapWriter * St) :=
  let headerSize := 16 in
  let neededSize := u64 (headerSize + minObjectSize + 16) in
  let collectionSize := if neededSize >? minCollectionSize ghw then u64 (u64 (neededSize + 4095) / 4096 * 4096)
                        else minCollectionSize ghw in
  let! (heapAddr, st) := allocate st collectionSize in
  Ret (mkGHW (Some (mkColl heapAddr collectionSize [] 1 headerSize (u64 (collectionSize - headerSize))))
         (minCollectionSize ghw), st).

(** [addObject] on the current heap; there is one after [createNewHeap]. *)
Definition addToCurrent (ghw : globalHeapWriter) (data : bytes) : outcome (HeapID * globalHeapWriter) :=
  match currentHeap ghw with
  | None => Panic
  | Some heap =>
      let '(i, heap) := addObject heap data in
      Ret (mkHeapID (cAddress heap) i 0, mkGHW (Some heap) (minCollectionSize ghw))
  end.

Definition WriteToGlobalHeap (ghw : globalHeapWriter) (st : St) (data : bytes) : outcome (HeapID * globalHeapWriter * St) :=
  let totalObjectSize := u64 (16 + alignTo8 (len data)) in
  let needsNewHeap := match currentHeap ghw with None => true | Some h => negb (hasSpace h totalObjectSize) end in
  let! (ghw, st) :=
    (if needsNewHeap then
       let! st := (if bool_decide (is_Some (currentHeap ghw)) then flushCurrentHeap ghw st else Ret st) in
       createNewHeap ghw st totalObjectSize
     else Ret (ghw, st)) in
  let! (id, ghw) := addToCurrent ghw data in
  Ret (id, ghw, st).

Definition Flush (ghw : globalHeapWriter) (st : St) : outcome St := flushCurrentHeap ghw st.
End with_storage.

Definition EncodeHeapID (hid : HeapID) : bytes :=
  le_put 4 (SeqLen hid) ++ le_put 8 (CollectionAddress hid) ++ le_put 4 (ObjectIndex hid).

(** ** Layout of a collection *)

Definition padTo8 (n : Z) : Z := (- n) mod 8.

Definition objBytes (o : objectBuilder) : bytes :=
  le_put 2 (bIndex o) ++ le_put 2 (bRefCount o) ++ zeros 4 ++ le_put 8 (len (bData o)) ++ bData o ++ zeros (padTo8 (len (bData o))).

Definition objsBytes (os : list objectBuilder) : bytes := concat (map objBytes os).

Definition tailBytes (free : Z) : bytes :=
  if free >=? 16 then zeros 8 ++ le_put 8 free ++ zeros (free - 16) else zeros free.

Definition collHead (size : Z) : bytes := GlobalHeapSignature ++ [z2b 1] ++ zeros 3 ++ le_put 8 size.

Definition collBytes (h : collectionBuilder) : bytes :=
  collHead (cSize h) ++ objsBytes (cObjects h) ++ tailBytes (freeSpace h).

(** What the reader makes of an object. *)
Definition readObject (o : objectBuilder) : GlobalHeapObject :=
  mkObject (bIndex o) (len (bData o)) (bData o) (bRefCount o).

Lemma padTo8_bounds n : 0 <= padTo8 n < 8.
Proof. unfold padTo8. by apply Z.mod_pos_bound. Qed.

Lemma alignTo8_eq n : 0 <= n < 2 ^ 63 -> alignTo8 n = n + padTo8 n /\ align8 n = n + padTo8 n /\ (n + padTo8 n) mod 8 = 0.
Proof.
  intros Hn. unfold alignTo8, align8, padTo8. destruct (Z.eqb_spec (n mod 8) 0) as [Hz|Hz]; cbn [negb].
  - rewrite Z.mod_opp_l_z by lia. split_and!; Z.to_euclidean_division_equations; lia.
  - rewrite Z.mod_opp_l_nz by lia. rewrite !u64_id by (unfold is_u; pose proof (Z.mod_pos_bound n 8); lia).
    split_and!; try lia. Z.to_euclidean_division_equations; lia.
Qed.

Lemma len_objBytes o : len (objBytes o) = 16 + (len (bData o) + padTo8 (len (bData o))).
Proof.
  unfold objBytes. pose proof (padTo8_bounds (len (bData o))). rewrite !len_app, !len_le_put, !len_zeros by lia. lia.
Qed.

Lemma objsBytes_cons o os : objsBytes (o :: os) = objBytes o ++ objsBytes os.
Proof. done. Qed.

Lemma objsBytes_snoc os o : objsBytes (os ++ [o]) = objsBytes os ++ objBytes o.
Proof. unfold objsBytes. rewrite map_app, concat_app. cbn. by rewrite app_nil_r. Qed.

Lemma len_objsBytes_mod os : len (objsBytes os) mod 8 = 0 /\ 16 * len os <= len (objsBytes os).
Proof.
  induction os as [|o os IH]; [done|]. rewrite objsBytes_cons, len_app, len_cons, len_objBytes.
  pose proof (len_nonneg (bData o)). pose proof (padTo8_bounds (len (bData o))).
  assert ((len (bData o) + padTo8 (len (bData o))) mod 8 = 0) by (unfold padTo8; Z.to_euclidean_division_equations; lia).
  split; [Z.to_euclidean_division_equations; lia|lia].
Qed.

Lemma len_tailBytes free : 0 <= free -> len (tailBytes free) = free.
Proof.
  intros Hf. unfold tailBytes. destruct (Z.geb_spec free 16).
  - rewrite !len_app, len_le_put, !len_zeros by lia. lia.
  - by apply len_zeros.
Qed.

Lemma len_collHead size : len (collHead size) = 16.
Proof. unfold collHead. rewrite !len_app, len_le_put, len_zeros by lia. done. Qed.

(** A collection the writer builds: numbered from 1, of the size it says. *)
Record coll_ok (h : collectionBuilder) : Prop := {
  co_index : map bIndex (cObjects h) = seqZ 1 (len (cObjects h));
  co_next : nextIndex h = 1 + len (cObjects h);
  co_count : 0 < len (cObjects h) -> 16 * (len (cObjects h) - 1) + freeSpace h <= 4112;
  co_refs : Forall (fun o => bRefCount o = 0) (cObjects h);
  co_free : 0 <= freeSpace h;
  co_size : 16 + len (objsBytes (cObjects h)) + freeSpace h = cSize h;
  co_used : usedSpace h = 16 + len (objsBytes (cObjects h));
  co_bound : cSize h <= 2 ^ 62 + 8192 }.

Lemma len_collBytes h : coll_ok h -> len (collBytes h) = cSize h.
Proof.
  intros []. unfold collBytes. rewrite !len_app, len_collHead, len_tailBytes by done. lia.
Qed.

Lemma putObjects_ret os : forall pre k off, off = len pre -> off mod 8 = 0 -> len (objsBytes os) <= k ->
  off + len (objsBytes os) < 2 ^ 63 ->
  putObjects os (pre ++ zeros k) off = Ret ((pre ++ objsBytes os) ++ zeros (k - len (objsBytes os)), off + len (objsBytes os)).
Proof.
  induction os as [|o os IH]; intros pre k off Hoff Hmod Hk Hlt; cbn [putObjects].
  - change (objsBytes []) with (@nil byte). rewrite len_nil, Z.sub_0_r, Z.add_0_r, app_nil_r. done.
  - rewrite objsBytes_cons, len_app, len_objBytes in *. pose proof (len_nonneg (objsBytes os)).
    pose proof (len_nonneg (bData o)) as Hd. pose proof (padTo8_bounds (len (bData o))) as Hp. pose proof (len_nonneg pre).
    rewrite put_le_cursor by (done || lia). cbn [obind].
    rewrite put_le_cursor by (rewrite ?len_app, ?len_le_put; lia). cbn [obind].
    rewrite (put_le_gap _ _ _ 4) by (rewrite ?len_app, ?len_le_put; lia). cbn [obind].
    rewrite copy_bytes_cursor by (rewrite ?len_app, ?len_le_put, ?len_zeros; lia). cbn [obind].
    set (off' := if negb _ then _ else _).
    assert (Hoff' : off' = off + (16 + (len (bData o) + padTo8 (len (bData o))))).
    { unfold off', padTo8. destruct (Z.eqb_spec ((off + 16 + len (bData o)) mod 8) 0); cbn [negb]; Z.to_euclidean_division_equations; lia. }
    match goal with |- putObjects os (?b ++ zeros ?j) _ = _ =>
      rewrite (zeros_split j (padTo8 (len (bData o)))) by lia; rewrite (app_assoc b) end.
    rewrite IH; [|rewrite !len_app, !len_le_put, !len_zeros by lia; lia| |lia|lia].
    + rewrite Hoff'. unfold objBytes. rewrite <- !app_assoc. f_equal. f_equal; [|lia]. do 8 f_equal. f_equal. lia.
    + rewrite Hoff'. unfold padTo8. Z.to_euclidean_division_equations; lia.
Qed.

Lemma encodeHeapCollection_ret h : coll_ok h -> encodeHeapCollection h = Ret (collBytes h).
Proof.
  intros []. pose proof (len_nonneg (objsBytes (cObjects h))). unfold encodeHeapCollection. destruct (Z.geb_spec (cSize h) (2 ^ 63)); [lia|].
  change (zeros (cSize h)) with ([] ++ zeros (cSize h)).
  rewrite putFields_ret by (cbn [contiguous map snd concat]; first [split_and!; done | change (len _) with 5; lia]).
  cbn [obind map snd concat app]. change (len _) with 5.
  rewrite (put_le_gap 8 (GlobalHeapSignature ++ [z2b 1]) _ 3) by (change (len (GlobalHeapSignature ++ [z2b 1])) with 5; lia). cbn [obind].
  change ((GlobalHeapSignature ++ [z2b 1]) ++ zeros 3 ++ le_put 8 (cSize h)) with (collHead (cSize h)).
  pose proof (len_collHead (cSize h)). rewrite putObjects_ret by (done || lia). cbn [obind].
  unfold collBytes, tailBytes. set (k := cSize h - 5 - 3 - Z.of_nat 8 - len (objsBytes (cObjects h))).
  assert (Hk : k = freeSpace h) by (unfold k; lia). rewrite Hk.
  destruct (Z.geb_spec (freeSpace h) 16) as [Hf|Hf]; [|by rewrite <- app_assoc].
  rewrite put_le_cursor by (rewrite ?len_app; lia). cbn [obind].
  rewrite put_le_cursor by (rewrite ?len_app, ?len_le_put; lia). cbn [obind].
  rewrite (put_le_gap _ _ _ 4) by (rewrite ?len_app, ?len_le_put; lia). rewrite <- !app_assoc.
  match goal with |- context [zeros (freeSpace h - ?a - ?b - ?c - ?d)] =>
    replace (freeSpace h - a - b - c - d) with (freeSpace h - 16) by lia end. reflexivity.
Qed.

(** ** Reading a collection back *)

Lemma parseObjects_ok os : forall fuel data pre free, data = pre ++ objsBytes os ++ tailBytes free ->
  Forall (fun o => 0 < bIndex o < 2 ^ 16 /\ bRefCount o = 0) os -> 0 <= free -> len data < 2 ^ 62 + 8193 ->
  (length os + 2 <= fuel)%nat -> parseObjects fuel data (len pre) 8 = Ret (map readObject os).
Proof.
  induction os as [|o os IH]; intros fuel data pre free Hd Ho Hfree Hlt Hfuel; (destruct fuel as [|fuel]; [cbn in Hfuel; lia|]);
    cbn [parseObjects map].
  - change (objsBytes [] ++ ?x) with x in Hd. pose proof (len_tailBytes free Hfree) as Hlt'. pose proof (len_nonneg pre).
    assert (Hl : len data = len pre + free) by (subst data; rewrite len_app; lia). rewrite Hl.
    destruct (Z.ltb_spec (len pre) (len pre + free)); [|done]. change (2 + 2 + 4 + 8) with 16.
    destruct (Z.gtb_spec (len pre + 16) (len pre + free)); [done|]. unfold tailBytes in Hd.
    destruct (Z.geb_spec free 16); [|lia].
    rewrite (get_le_at 2 _ pre 0 (zeros 6 ++ le_put 8 free ++ zeros (free - 16))) by (done || lia). cbn [obind].
    rewrite (get_le_at 2 _ (pre ++ zeros 2) 0 (zeros 4 ++ le_put 8 free ++ zeros (free - 16)));
      [|subst data; by rewrite <- app_assoc|rewrite len_app, len_zeros; lia|lia]. cbn [obind].
    unfold getSized. cbn [Z.eqb Pos.eqb].
    rewrite (get_le_at 8 _ (pre ++ zeros 8) free (zeros (free - 16)));
      [|subst data; by rewrite <- app_assoc|rewrite len_app, len_zeros; lia|lia]. cbn [obind].
    destruct (alignTo8_eq free) as (_ & -> & _); [lia|]. pose proof (padTo8_bounds free).
    rewrite !i64_id by (rewrite ?i64_id; lia). destruct fuel as [|fuel]; [cbn in Hfuel; lia|]. cbn [parseObjects].
    destruct (Z.ltb_spec (len pre + 16 + (free + padTo8 free)) (len data)); [lia|done].
  - apply Forall_cons in Ho as [[Hi Hr] Ho]. rewrite objsBytes_cons in Hd. pose proof (len_nonneg pre). pose proof (len_nonneg (bData o)).
    pose proof (len_nonneg (objsBytes os)). pose proof (padTo8_bounds (len (bData o))). pose proof (len_tailBytes free Hfree).
    assert (Hl : len data = len pre + (16 + (len (bData o) + padTo8 (len (bData o)))) + len (objsBytes os) + free).
    { subst data. rewrite !len_app, len_objBytes. lia. }
    unfold objBytes in Hd. rewrite <- !app_assoc in Hd. rewrite Hr in Hd.
    set (rest := objsBytes os ++ tailBytes free) in *. set (pd := zeros (padTo8 (len (bData o)))) in *.
    destruct (Z.ltb_spec (len pre) (len data)); [|lia]. change (2 + 2 + 4 + 8) with 16.
    destruct (Z.gtb_spec (len pre + 16) (len data)); [lia|].
    rewrite (get_le_at 2 _ pre (bIndex o) _ _ Hd) by (done || lia). cbn [obind].
    rewrite (get_le_at 2 _ (pre ++ le_put 2 (bIndex o)) 0 (zeros 4 ++ le_put 8 (len (bData o)) ++ bData o ++ pd ++ rest));
      [|subst data; by rewrite <- app_assoc|rewrite len_app, len_le_put; lia|lia]. cbn [obind].
    unfold getSized. cbn [Z.eqb Pos.eqb].
    rewrite (get_le_at 8 _ (pre ++ le_put 2 (bIndex o) ++ le_put 2 0 ++ zeros 4) (len (bData o)) (bData o ++ pd ++ rest));
      [|subst data; by rewrite <- !app_assoc|rewrite !len_app, !len_le_put, len_zeros; lia|lia]. cbn [obind].
    destruct (Z.eqb_spec (bIndex o) 0); [lia|]. destruct (alignTo8_eq (len (bData o))) as (_ & -> & _); [lia|].
    rewrite !i64_id by (rewrite ?i64_id; lia).
    destruct (Z.gtb_spec (len pre + 16 + len (bData o)) (len data)); [lia|]. cbn [negb].
    destruct (Z.geb_spec (len (bData o)) (2 ^ 63)); [lia|].
    rewrite (slice_at _ (pre ++ le_put 2 (bIndex o) ++ le_put 2 0 ++ zeros 4 ++ le_put 8 (len (bData o))) (bData o) (pd ++ rest));
      [|subst data; by rewrite <- !app_assoc|rewrite !len_app, !len_le_put, len_zeros; lia|lia]. cbn [obind].
    assert (Hlp : len pre + 16 + (len (bData o) + padTo8 (len (bData o))) = len (pre ++ objBytes o)) by (rewrite len_app, len_objBytes; lia).
    rewrite Hlp, (IH fuel data (pre ++ objBytes o) free); [|subst data; unfold objBytes; by rewrite Hr, <- !app_assoc|done|done|done|cbn in Hfuel; lia].
    cbn [obind]. unfold readObject. by rewrite Hr.
Qed.

Lemma coll_indices h : coll_ok h -> len (cObjects h) <= 258 /\
  Forall (fun o => 0 < bIndex o < 2 ^ 16 /\ bRefCount o = 0) (cObjects h).
Proof.
  intros []. pose proof (len_nonneg (cObjects h)).
  assert (len (cObjects h) <= 258) as Hc by (destruct (decide (0 < len (cObjects h))) as [Hn|Hn]; [specialize (co_count0 Hn)|]; lia). split; [done|]. apply Forall_forall. intros o Ho.
  split; [|by apply (proj1 (Forall_forall _ _) co_refs0 o)].
  assert (Hi : bIndex o ∈ map bIndex (cObjects h)) by (by apply list_elem_of_fmap_2).
  rewrite co_index0 in Hi. apply elem_of_seqZ in Hi. lia.
Qed.

Lemma findObject_ok os o : NoDup (map bIndex os) -> o ∈ os -> findObject (map readObject os) (bIndex o) = Ret (readObject o).
Proof.
  induction os as [|p os IH]; intros Hnd Ho; [by apply elem_of_nil in Ho|]. cbn [map findObject] in *.
  apply NoDup_cons in Hnd as [Hp Hnd]. apply elem_of_cons in Ho as [-> | Ho].
  - cbn. by rewrite Z.eqb_refl.
  - cbn [objIndex readObject]. destruct (Z.eqb_spec (bIndex p) (bIndex o)) as [Hpo|Hpo]; [|by apply IH].
    exfalso. apply Hp. rewrite Hpo. by apply list_elem_of_fmap_2.
Qed.

Lemma ReadGlobalHeapCollection_ok fuel f h : coll_ok h -> stored f (cAddress h) (collBytes h) -> cAddress h < 2 ^ 63 ->
  (300 <= fuel)%nat ->
  ReadGlobalHeapCollection fuel f (cAddress h) 8 = Ret (mkCollection (cAddress h) (cSize h) (map readObject (cObjects h))).
Proof.
  intros Hok Hst Ha Hfuel. destruct (coll_indices h Hok) as [Hc Hi]. pose proof (len_collBytes h Hok) as Hl.
  destruct (stored_bounds _ _ _ Hst) as [Ha0 _]. pose proof Hok as []. pose proof (len_nonneg (objsBytes (cObjects h))).
  unfold ReadGlobalHeapCollection. cbn [Z.eqb Pos.eqb negb andb]. change (4 + 1 + 3 + 8) with 16. rewrite i64_id by lia.
  rewrite (stored_read _ _ _ 16 Hst) by lia. cbn [obind]. change (Z.to_nat 16) with 16%nat.
  assert (take 16 (collBytes h) = collHead (cSize h)) as ->.
  { unfold collBytes. rewrite take_app_le by (pose proof (len_collHead (cSize h)); unfold len in *; lia).
    apply take_ge. pose proof (len_collHead (cSize h)); unfold len in *; lia. }
  rewrite bool_decide_true by done. change (idx (collHead (cSize h)) 4) with (Ret (z2b 1)). cbn [obind].
  rewrite b2z_z2b_small by lia. cbn [Z.eqb Pos.eqb]. unfold getSized. cbn [Z.eqb Pos.eqb].
  rewrite (get_le_at 8 _ (GlobalHeapSignature ++ [z2b 1] ++ zeros 3) (cSize h) []); [|by rewrite app_nil_r|done|lia]. cbn [obind].
  destruct (Z.ltb_spec (cSize h) 16); [lia|]. cbn [negb]. destruct (Z.geb_spec (cSize h) (2 ^ 63)); [lia|].
  rewrite <- Hl. unfold stored in Hst. rewrite Hst. cbn [obind]. change (negb (16 mod 8 =? 0)) with false. cbn iota.
  rewrite <- (len_collHead (cSize h)).
  rewrite (parseObjects_ok (cObjects h) fuel _ _ (freeSpace h)); [reflexivity|reflexivity|done|done|lia|unfold len in *; lia].
Qed.

(** ** The writer *)

Lemma addObject_ok h d : coll_ok h -> len d < 2 ^ 62 -> u64 (16 + alignTo8 (len d)) <= freeSpace h ->
  (len (cObjects h) = 0 -> freeSpace h <= u64 (16 + alignTo8 (len d)) + 4112) ->
  coll_ok (addObject h d).2 /\ (addObject h d).1 = 1 + len (cObjects h) /\
  cObjects (addObject h d).2 = cObjects h ++ [mkBuilder (1 + len (cObjects h)) 0 d] /\
  cAddress (addObject h d).2 = cAddress h /\ cSize (addObject h d).2 = cSize h.
Proof.
  intros Hok Hd Hf Hnew. pose proof (len_nonneg d). destruct (coll_indices h Hok) as [Hc _]. pose proof (padTo8_bounds (len d)).
  pose proof (len_nonneg (cObjects h)). pose proof (len_nonneg (objsBytes (cObjects h))). destruct Hok.
  destruct (alignTo8_eq (len d)) as (E & _ & _); [lia|]. unfold addObject. rewrite E in *.
  rewrite (u64_id (16 + (len d + padTo8 (len d)))) in * by (unfold is_u; lia). cbn [fst snd cObjects cAddress cSize].
  rewrite co_next0. split; [|done].
  assert (Ho : len (objBytes (mkBuilder (1 + len (cObjects h)) 0 d)) = 16 + (len d + padTo8 (len d))) by apply len_objBytes.
  constructor; cbn [cObjects nextIndex freeSpace cSize usedSpace].
  - rewrite map_app, co_index0, len_app. cbn [map bIndex]. change (len [_]) with 1. rewrite seqZ_app by lia. done.
  - rewrite len_app. change (len [_]) with 1. rewrite u16_id by (unfold is_u; lia). lia.
  - intros _. rewrite len_app. change (len [_]) with 1. rewrite u64_id by (unfold is_u; lia).
    destruct (decide (0 < len (cObjects h))) as [Hn|Hn]; [specialize (co_count0 Hn)|specialize (Hnew ltac:(lia))]; lia.
  - apply Forall_app. by split; [|constructor].
  - rewrite u64_id by (unfold is_u; lia). lia.
  - rewrite objsBytes_snoc, len_app, Ho, u64_id by (unfold is_u; lia). lia.
  - rewrite objsBytes_snoc, len_app, Ho, u64_id by (unfold is_u; lia). lia.
  - done.
Qed.

(** A new collection has room for the object it is made for. *)
Definition newSize (total : Z) : Z := if 16 + total + 16 >? 4096 then (16 + total + 16 + 4095) / 4096 * 4096 else 4096.

Lemma newSize_bounds total : 0 <= total -> total + 32 <= newSize total /\ newSize total <= total + 4127 \/ newSize total = 4096 /\ total + 32 <= 4096.
Proof. intros H. unfold newSize. destruct (Z.gtb_spec (16 + total + 16) 4096); Z.to_euclidean_division_equations; lia. Qed.

Section writer.
Context `{StorageLaws St}.

Definition collBlock (h : collectionBuilder) : block := mkBlock (cAddress h) (cSize h).
Definition current (ghw : globalHeapWriter) : list collectionBuilder := option_list (currentHeap ghw).

(** The collections written so far are in the file, the current one has its
    block; [rest] are the other allocated blocks. *)
Record gh_ok (ghw : globalHeapWriter) (st : St) (n : Z) (flushed : list collectionBuilder) (rest : list block) : Prop := {
  gh_min : minCollectionSize ghw = 4096;
  gh_usable : usable st n;
  gh_colls : Forall coll_ok (flushed ++ current ghw);
  gh_own : owned st ≡ₚ map collBlock (flushed ++ current ghw) ++ rest;
  gh_stored : Forall (fun h => stored (contents st) (cAddress h) (collBytes h)) flushed }.

(** The object [d] is in one of the collections [hs], under [id]. *)
Definition recorded (hs : list collectionBuilder) (e : HeapID * bytes) : Prop :=
  exists h, h ∈ hs /\ cAddress h = CollectionAddress e.1 /\ mkBuilder (ObjectIndex e.1) 0 e.2 ∈ cObjects h.

Lemma gh_range ghw st n flushed rest h : gh_ok ghw st n flushed rest -> h ∈ flushed ++ current ghw ->
  0 <= cAddress h /\ cAddress h + cSize h < 2 ^ 63 /\ 0 < cSize h.
Proof.
  intros [] Hh. destruct (owned_range st n (collBlock h) gh_usable0) as (H1 & H2 & H3).
  - rewrite gh_own0. apply elem_of_app. left. by apply list_elem_of_fmap_2.
  - by unfold bend in H3.
Qed.

Lemma flush_ok ghw st n flushed rest : gh_ok ghw st n flushed rest ->
  exists st', flushCurrentHeap ghw st = Ret st' /\ usable st' n /\ owned st' = owned st /\
    Forall (fun h => stored (contents st') (cAddress h) (collBytes h)) (flushed ++ current ghw) /\
    keeps (contents st) (contents st') rest.
Proof.
  intros Hg. pose proof (fun h => gh_range _ _ _ _ _ h Hg) as Hr. pose proof Hg as []. unfold flushCurrentHeap, current in *.
  destruct (currentHeap ghw) as [h|]; cbn [option_list] in *.
  - assert (Hh : h ∈ flushed ++ [h]) by set_solver. destruct (Hr h Hh) as (Ha & Hb & Hs).
    pose proof (proj1 (Forall_forall _ _) gh_colls0 h Hh) as Hok. pose proof (len_collBytes h Hok) as Hl.
    rewrite encodeHeapCollection_ret by done. cbn [obind].
    destruct (write_law st n (collBytes h) (cAddress h) gh_usable0) as (st' & E & Hu & Ho & Hc); [lia|lia|].
    exists st'. split_and!; [exact E|exact Hu|exact Ho| |].
    + apply Forall_app. split; [|constructor; [|done]].
      * apply Forall_forall. intros k Hk. rewrite Hc. apply stored_other; [lia| |by apply (proj1 (Forall_forall _ _) gh_stored0)].
        rewrite len_collBytes, Hl by (apply (proj1 (Forall_forall _ _) gh_colls0); set_solver).
        assert (Hd : Forall (disjoint_blocks (collBlock h)) (map collBlock flushed ++ rest)).
        { eapply owned_disjoint; [exact gh_usable0|]. rewrite gh_own0, map_app. cbn [map]. solve_Permutation. }
        apply Forall_app in Hd as [Hd _]. rewrite Forall_map, Forall_forall in Hd. specialize (Hd k Hk).
        unfold disjoint_blocks, collBlock, bend in *. cbn [Offset Size] in *. lia.
      * rewrite Hc. by apply stored_write.
    + rewrite Hc. apply write_keeps; [lia|]. rewrite Hl.
      assert (Hd : Forall (disjoint_blocks (collBlock h)) (rest ++ map collBlock flushed)).
      { eapply owned_disjoint; [exact gh_usable0|]. rewrite gh_own0, map_app. cbn [map]. solve_Permutation. }
      by apply Forall_app in Hd as [Hd _].
  - rewrite app_nil_r in *. exists st. split_and!; [done|done|done|done|apply keeps_refl].
Qed.

Lemma createNewHeap_ok ghw st n flushed rest total : gh_ok ghw st (newSize total + n) flushed rest ->
  0 <= total <= 2 ^ 62 + 32 -> 0 <= n -> Forall (fun h => stored (contents st) (cAddress h) (collBytes h)) (current ghw) ->
  exists h st', createNewHeap ghw st total = Ret (mkGHW (Some h) 4096, st') /\
    gh_ok (mkGHW (Some h) 4096) st' n (flushed ++ current ghw) rest /\ contents st' = contents st /\
    cObjects h = [] /\ total <= freeSpace h /\ freeSpace h <= total + 4112.
Proof.
  intros [] Ht Hn Hcur. unfold createNewHeap. rewrite gh_min0, (u64_id (16 + total + 16)), (u64_id (16 + total + 16 + 4095)) by (unfold is_u; lia).
  assert (Hdiv : 0 <= (16 + total + 16 + 4095) / 4096 * 4096 <= 2 ^ 62 + 8192) by (Z.to_euclidean_division_equations; lia).
  rewrite (u64_id ((16 + total + 16 + 4095) / 4096 * 4096)) by (unfold is_u; lia). fold (newSize total).
  destruct (newSize_bounds total) as [Hs|[Hs1 Hs2]]; [lia| |].
  all: destruct (allocate_law st _ (newSize total) gh_usable0 ltac:(lia)) as (a & st' & -> & Hu & Hc & Ho & _); cbn [obind];
    rewrite (u64_id (newSize total - 16)) by (unfold is_u; lia); eexists _, st'; (split_and!; [reflexivity| |exact Hc|done|cbn [freeSpace]; lia..]);
    (constructor; cbn [minCollectionSize current currentHeap option_list];
     [done|by eapply usable_mono; [exact Hu|lia]| | |rewrite Hc; by apply Forall_app]);
    [apply Forall_app; split; [done|]; constructor; [|done]; constructor; cbn [cObjects nextIndex freeSpace cSize usedSpace];
       change (objsBytes []) with (@nil byte); rewrite ?len_nil; first [done | lia | reflexivity]
    |rewrite Ho, gh_own0, !map_app; cbn [map]; unfold collBlock at 3; cbn [cAddress cSize]; solve_Permutation].
Qed.

Lemma recorded_sub hs hs' e : hs ⊆ hs' -> recorded hs e -> recorded hs' e.
Proof. intros Hs (h & Hh & ?). exists h. split; [by apply Hs|done]. Qed.

(** A collection is made for an object, so it has one. *)
Definition started (ghw : globalHeapWriter) : Prop :=
  match currentHeap ghw with None => True | Some h => cObjects h <> [] end.

(** [addObject] on the current collection. *)
Lemma addToCurrent_ok ghw h st n flushed rest d : gh_ok ghw st n flushed rest -> currentHeap ghw = Some h ->
  len d < 2 ^ 62 -> u64 (16 + alignTo8 (len d)) <= freeSpace h ->
  (cObjects h = [] -> freeSpace h <= u64 (16 + alignTo8 (len d)) + 4112) ->
  exists id ghw', addToCurrent ghw d = Ret (id, ghw') /\ gh_ok ghw' st n flushed rest /\
    recorded (current ghw') (id, d) /\ (forall e, recorded (current ghw) e -> recorded (current ghw') e) /\ started ghw'.
Proof.
  intros Hg Hcur Hd Hf Hnew. pose proof Hg as []. unfold addToCurrent, current in *. rewrite Hcur in *. cbn [option_list] in *.
  assert (Hok : coll_ok h) by (apply (proj1 (Forall_forall _ _) gh_colls0); set_solver).
  destruct (addObject_ok h d Hok Hd Hf) as (Hok' & Hi & Ho & Ha & Hs).
  { intros Hl. apply Hnew. by apply len_0_nil. }
  destruct (addObject h d) as [i h'] eqn:Eadd. cbn [fst snd] in *.
  eexists _, _. split; [reflexivity|]. cbn [currentHeap option_list]. split_and!.
  - constructor; cbn [minCollectionSize current currentHeap option_list]; [done|done| | |done].
    + apply Forall_app in gh_colls0 as [? _]. apply Forall_app. split; [done|by constructor].
    + rewrite gh_own0. unfold current. cbn [currentHeap option_list]. rewrite !map_app. cbn [map].
      assert (collBlock h' = collBlock h) as Hb by (unfold collBlock; by rewrite Ha, Hs).
      change (option_list (Some ?x)) with [x]. cbn [map]. by rewrite Hb.
  - exists h'. cbn [fst snd CollectionAddress ObjectIndex]. split_and!; [set_solver|done|]. rewrite Ho, Hi. set_solver.
  - intros e (k & Hk & Hka & Hko). apply list_elem_of_singleton in Hk as ->. exists h'. split_and!; [set_solver|congruence|].
    rewrite Ho. set_solver.
  - unfold started. cbn [currentHeap]. rewrite Ho. by destruct (cObjects h).
Qed.

(** Bytes of the file one object takes at most. *)
Definition itemSpace (d : bytes) : Z := len d + 4160.

Lemma WriteToGlobalHeap_ok ghw st n flushed rest d : gh_ok ghw st (itemSpace d + n) flushed rest -> started ghw ->
  len d < 2 ^ 62 -> 0 <= n ->
  exists id ghw' st' flushed', WriteToGlobalHeap ghw st d = Ret (id, ghw', st') /\ gh_ok ghw' st' n flushed' rest /\ started ghw' /\
    recorded (flushed' ++ current ghw') (id, d) /\
    (forall e, recorded (flushed ++ current ghw) e -> recorded (flushed' ++ current ghw') e) /\
    keeps (contents st) (contents st') rest.
Proof.
  intros Hg Hstart Hd Hn. pose proof (len_nonneg d). pose proof (padTo8_bounds (len d)).
  destruct (alignTo8_eq (len d)) as (E & _ & _); [lia|]. unfold WriteToGlobalHeap, itemSpace in *.
  set (total := u64 (16 + alignTo8 (len d))). assert (Ht : total = 16 + (len d + padTo8 (len d))).
  { unfold total. rewrite E. apply u64_id. unfold is_u. lia. }
  assert (Hmono : forall n', n' <= len d + 4160 + n -> gh_ok ghw st n' flushed rest).
  { intros n' Hn'. destruct Hg. constructor; try done. by eapply usable_mono. }
  set (need := match currentHeap ghw with None => true | _ => _ end). destruct need eqn:En.
  - destruct (flush_ok _ _ _ _ _ (Hmono (len d + 4160 + n) ltac:(lia))) as (st1 & E1 & Hu1 & Ho1 & Hs1 & Hk1).
    assert ((if bool_decide (is_Some (currentHeap ghw)) then flushCurrentHeap ghw st else Ret st) = Ret st1) as ->.
    { case_bool_decide as Hc; [exact E1|]. unfold flushCurrentHeap in E1. destruct (currentHeap ghw); [|exact E1].
      exfalso. apply Hc. eauto. }
    cbn [obind]. apply Forall_app in Hs1 as [Hs1 Hs1c].
    destruct (createNewHeap_ok ghw st1 n flushed rest total) as (h & st2 & -> & Hg2 & Hc2 & Hnil & Hf1 & Hf2); [|lia|done|exact Hs1c|].
    { pose proof Hg as []. constructor; [done| |done|by rewrite Ho1|done]. eapply usable_mono; [exact Hu1|].
      destruct (newSize_bounds total) as [?|[? ?]]; lia. }
    cbn [obind]. destruct (addToCurrent_ok _ h _ _ _ _ d Hg2 eq_refl Hd) as (id & ghw' & -> & Hg3 & Hr & Hrec & Hst3);
      [fold total; lia|intros _; fold total; lia|]. cbn [obind].
    exists id, ghw', st2, (flushed ++ current ghw). split_and!; [reflexivity|exact Hg3|exact Hst3| | |by rewrite Hc2].
    + eapply recorded_sub; [|exact Hr]. set_solver.
    + intros e He. eapply recorded_sub; [|exact He]. set_solver.
  - unfold need in En. destruct (currentHeap ghw) as [h|] eqn:Ec; [|done]. cbn [obind].
    apply negb_false_iff in En. unfold hasSpace in En. apply Z.geb_le in En.
    destruct (addToCurrent_ok ghw h st n flushed rest d (Hmono n ltac:(lia)) Ec Hd En) as (id & ghw' & -> & Hg3 & Hr & Hrec & Hst3).
    { intros Hnil. unfold started in Hstart. by rewrite Ec in Hstart. }
    cbn [obind]. exists id, ghw', st, flushed. split_and!; [reflexivity|exact Hg3|exact Hst3| | |apply keeps_refl].
    + eapply recorded_sub; [|exact Hr]. set_solver.
    + intros e (k & [Hk|Hk]%elem_of_app & Hk2); [exists k; split; [set_solver|done]|].
      eapply recorded_sub; [|apply Hrec]; [set_solver|by exists k].
Qed.

(** Several objects one after the other. *)
Fixpoint writeAll (ghw : globalHeapWriter) (st : St) (ds : list bytes) : outcome (list HeapID * globalHeapWriter * St) :=
  match ds with
  | [] => Ret ([], ghw, st)
  | d :: ds =>
      let! (id, ghw, st) := WriteToGlobalHeap ghw st d in
      let! (ids, ghw, st) := writeAll ghw st ds in
      Ret (id :: ids, ghw, st)
  end.

Definition space (ds : list bytes) : Z := fold_right (fun d n => itemSpace d + n) 0 ds.

Lemma space_nonneg ds : 0 <= space ds.
Proof.
  induction ds as [|d ds IH]; [done|]. change (0 <= itemSpace d + space ds). unfold itemSpace. pose proof (len_nonneg d). lia.
Qed.

Lemma writeAll_ok ds : forall ghw st n flushed rest, gh_ok ghw st (space ds + n) flushed rest -> started ghw ->
  Forall (fun d : bytes => len d < 2 ^ 62) ds -> 0 <= n ->
  exists ids ghw' st' flushed', writeAll ghw st ds = Ret (ids, ghw', st') /\ gh_ok ghw' st' n flushed' rest /\
    Forall2 (fun id d => recorded (flushed' ++ current ghw') (id, d)) ids ds /\
    (forall e, recorded (flushed ++ current ghw) e -> recorded (flushed' ++ current ghw') e) /\
    keeps (contents st) (contents st') rest.
Proof.
  induction ds as [|d ds IH]; intros ghw st n flushed rest Hg Hst Hlen Hn; cbn [writeAll].
  - exists [], ghw, st, flushed. split_and!; [done|done|constructor|done|apply keeps_refl].
  - apply Forall_cons in Hlen as [Hd Hlen]. pose proof (space_nonneg ds).
    assert (Hg' : gh_ok ghw st (itemSpace d + (space ds + n)) flushed rest).
    { cbn [space fold_right] in Hg. fold (space ds) in Hg. by rewrite Z.add_assoc. }
    destruct (WriteToGlobalHeap_ok ghw st (space ds + n) flushed rest d) as (id & ghw1 & st1 & fl1 & -> & Hg1 & Hs1 & Hr1 & Hp1 & Hk1); [done|done|done|lia|].
    cbn [obind]. destruct (IH ghw1 st1 n fl1 rest Hg1 Hs1 Hlen Hn) as (ids & ghw2 & st2 & fl2 & -> & Hg2 & Hr2 & Hp2 & Hk2).
    cbn [obind]. exists (id :: ids), ghw2, st2, fl2. split_and!; [done|done| | |].
    + constructor; [by apply Hp2|done].
    + intros e He. by apply Hp2, Hp1.
    + eapply keeps_trans; [|exact Hk1|exact Hk2]. done.
Qed.

Lemma HeapID_reference hid : is_u 64 (CollectionAddress hid) -> is_u 32 (ObjectIndex hid) ->
  ParseGlobalHeapReference (drop 4 (EncodeHeapID hid)) 8 = Ret (mkReference (CollectionAddress hid) (ObjectIndex hid)).
Proof.
  intros Ha Hi. unfold EncodeHeapID. rewrite drop_app_length' by reflexivity.
  unfold ParseGlobalHeapReference. cbn [Z.eqb Pos.eqb negb andb]. rewrite len_app, !len_le_put. cbn [Z.ltb negb].
  change (Z.of_nat 8 + Z.of_nat 4 <? 8 + 4) with false. cbn [negb]. unfold getSized. cbn [Z.eqb Pos.eqb].
  rewrite (get_le_at 8 _ [] (CollectionAddress hid) (le_put 4 (ObjectIndex hid))) by done. cbn [obind].
  by rewrite (get_le_at 4 _ (le_put 8 (CollectionAddress hid)) (ObjectIndex hid) []) by (rewrite ?app_nil_r, ?len_le_put; done).
Qed.

(** A recorded object is read by its identifier from the flushed heaps. *)
Lemma recorded_read hs f id d fuel : Forall coll_ok hs -> Forall (fun h => stored f (cAddress h) (collBytes h)) hs ->
  Forall (fun h => 0 <= cAddress h /\ cAddress h < 2 ^ 63) hs -> recorded hs (id, d) -> (300 <= fuel)%nat ->
  is_u 64 (CollectionAddress id) /\ is_u 32 (ObjectIndex id) /\
  exists gc obj, ReadGlobalHeapCollection fuel f (CollectionAddress id) 8 = Ret gc /\ GetObject gc (ObjectIndex id) = Ret obj /\ objData obj = d.
Proof.
  intros Hok Hs Ha (h & Hh & Ea & Ho) Hfuel. cbn [fst snd] in *. rewrite Forall_forall in Hok, Hs, Ha.
  specialize (Hok h Hh). specialize (Hs h Hh). specialize (Ha h Hh).
  destruct (coll_indices h Hok) as [_ Hi]. pose proof (proj1 (Forall_forall _ _) Hi _ Ho) as [Hi1 _]. cbn [bIndex] in Hi1.
  split; [unfold is_u; lia|]. split; [unfold is_u; lia|]. eexists _, _. split; [|split].
  - rewrite <- Ea. apply ReadGlobalHeapCollection_ok; [done|done|lia|done].
  - unfold GetObject. cbn [collObjects]. apply (findObject_ok _ (mkBuilder (ObjectIndex id) 0 d)); [|done].
    rewrite (co_index _ Hok). apply NoDup_seqZ.
  - done.
Qed.

(** C32. What is written to global heaps is read back: after any sequence of
    [WriteToGlobalHeap] and a final [Flush], the reference encoded for each object
    leads [ReadGlobalHeapCollection] and [GetObject] to exactly its bytes, in however
    many collections they ended up, and every block allocated before keeps its
    contents. *)
Theorem global_heap_roundtrip st datas fuel : usable st (space datas) ->
  Forall (fun d : bytes => len d < 2 ^ 62) datas -> (300 <= fuel)%nat ->
  exists ids ghw st1 st2, writeAll newGlobalHeapWriter st datas = Ret (ids, ghw, st1) /\ Flush ghw st1 = Ret st2 /\
    Forall2 (fun id d => exists ref gc obj, ParseGlobalHeapReference (drop 4 (EncodeHeapID id)) 8 = Ret ref /\
      ReadGlobalHeapCollection fuel (contents st2) (refHeapAddress ref) 8 = Ret gc /\
      GetObject gc (refObjectIndex ref) = Ret obj /\ objData obj = d) ids datas /\
    keeps (contents st) (contents st2) (owned st).
Proof.
  intros Hu Hlen Hfuel. destruct (writeAll_ok datas newGlobalHeapWriter st 0 [] (owned st)) as (ids & ghw & st1 & fl & E1 & Hg1 & Hr1 & _ & Hk1);
    [constructor; [done|by rewrite Z.add_0_r|constructor|done|constructor]|exact I|done|lia|].
  destruct (flush_ok _ _ _ _ _ Hg1) as (st2 & E2 & Hu2 & Ho2 & Hs2 & Hk2).
  exists ids, ghw, st1, st2. split_and!; [exact E1|exact E2| |by eapply keeps_trans; [|exact Hk1|exact Hk2]].
  eapply Forall2_impl; [exact Hr1|]. intros id d Hrec.
  destruct (recorded_read _ (contents st2) id d fuel (gh_colls _ _ _ _ _ Hg1) Hs2) as (Ha & Hi & gc & obj & E3 & E4 & E5); [|exact Hrec|exact Hfuel|].
  - apply Forall_forall. intros h Hh. destruct (gh_range _ _ _ _ _ _ Hg1 Hh) as (H1 & H2 & H3). lia.
  - exists (mkReference (CollectionAddress id) (ObjectIndex id)), gc, obj. split; [by apply HeapID_reference|]. done.
Qed.
End writer.

Example global_heap_roundtrip_witness : exists ids ghw st1 st2,
  writeAll newGlobalHeapWriter (NewFileWriter 48) [[x61]; zeros 4090; [x62; x63]] = Ret (ids, ghw, st1) /\ Flush ghw st1 = Ret st2.
Proof.
  destruct (@global_heap_roundtrip _ _ (FileWriter_laws 48) (NewFileWriter 48) [[x61]; zeros 4090; [x62; x63]] 300) as (ids & ghw & st1 & st2 & E1 & E2 & _).
  - apply NewFileWriter_usable; vm_compute; congruence.
  - repeat constructor.
  - reflexivity.
  - exists ids, ghw, st1, st2. split; [exact E1|exact E2].
Defined.

(** ** A collection that is never read to its end *)

(** A free-space object of size 2^64 - 16 moves the cursor back to itself. *)
Definition loopingHeap : bytes := collHead 32 ++ zeros 8 ++ le_put 8 (2 ^ 64 - 16).

Lemma parseObjects_stuck fuel : parseObjects fuel loopingHeap 16 8 = Panic.
Proof.
  induction fuel as [|fuel IH]; [done|]. cbn [parseObjects]. change (16 <? len loopingHeap) with true. cbn iota.
  change (16 + (2 + 2 + 4 + 8) >? len loopingHeap) with false. cbn iota.
  change (get_le 2 loopingHeap 16) with (Ret 0). change (get_le 2 loopingHeap (16 + 2)) with (Ret 0). cbn [obind].
  assert (getSized 8 loopingHeap (16 + 8) = Ret (2 ^ 64 - 16)) as -> by (vm_compute; reflexivity). cbn [obind Z.eqb].
  assert (i64 (16 + (2 + 2 + 4 + 8) + i64 (align8 (2 ^ 64 - 16))) = 16) as -> by (vm_compute; reflexivity). exact IH.
Qed.

(** C33. [ReadGlobalHeapCollection] does not terminate on every file: in a
    collection whose free-space object claims 2^64 - 16 bytes the conversion of the
    size to a signed integer moves the cursor back by the 16 bytes it advanced, so no
    number of steps is enough. *)
Theorem global_heap_cursor_loops fuel : ReadGlobalHeapCollection fuel loopingHeap 0 8 = Panic.
Proof.
  unfold ReadGlobalHeapCollection. cbn [Z.eqb Pos.eqb negb andb].
  change (read_at loopingHeap (i64 0) (4 + 1 + 3 + 8)) with (Ret (collHead 32)). cbn [obind].
  rewrite bool_decide_true by reflexivity. change (idx (collHead 32) 4) with (Ret (z2b 1)). cbn [obind].
  change (b2z (z2b 1) =? 1) with true. cbn iota. assert (getSized 8 (collHead 32) 8 = Ret 32) as -> by (vm_compute; reflexivity).
  cbn [obind]. change (negb (32 <? 4 + 1 + 3 + 8)) with true. change (32 >=? 2 ^ 63) with false. cbn iota.
  assert (read_at loopingHeap (i64 0) 32 = Ret loopingHeap) as -> by (vm_compute; reflexivity). cbn [obind].
  change (if negb ((4 + 1 + 3 + 8) mod 8 =? 0) then _ else _) with 16. by rewrite parseObjects_stuck.
Qed.
