(* ===== verification/BTreeV2.v ===== *)
(** * B-tree version 2, name index: internal/structures/btreev2_write.go,
    btreev2_rebalance.go and btreev2_lazy.go

    The single-leaf index from the hash of a name to a 7-byte fractal heap
    identifier: its operations, the deletion modes, the encoding of the header
    and the leaf, and the readers.  A Go string is the list of its bytes.  The
    clock ([time.Now]) is an argument of the operations that read it; a
    duration is a number of nanoseconds. *)

From Stdlib Require Import SpecFloat.
From S2P Require Import Prelude Allocator Storage Checksum Superblock.

(** ** The name hash *)

(** The loop over 12-byte chunks; unlike [Checksum.chunkLoop] it takes a last
    full chunk too. *)
Fixpoint hashLoop (fuel : nat) (name : bytes) (i : Z) (s : state) : outcome (Z * state) :=
  match fuel with
  | O => Panic
  | S fuel =>
      if i + 12 <=? len name then
        let! wa := word32 name i in
        let! wb := word32 name (i + 4) in
        let! wc := word32 name (i + 8) in
        hashLoop fuel name (i + 12)
          (mix (mkState (u32 (sa s + wa)) (u32 (sb s + wb)) (u32 (sc s + wc))))
      else Ret (i, s)
  end.

Definition jenkinsHash (name : bytes) : outcome Z :=
  let length := len name in
  let a := u32 (0xdeadbeef + u32 length) in
  let! (i, s) := hashLoop (S (List.length name)) name 0 (mkState a a a) in
  let remaining := length - i in
  let! s := tailLoop 11 name i remaining s in
  Ret (sc (final s)).

(** ** Data *)

Record LinkNameRecord := mkRecord {
  NameHash : Z;
  RecordHeapID : bytes }.

Record BTreeV2Header := mkBTreeHeader {
  HeaderSignature : bytes;
  HeaderVersion : Z;
  HeaderType : Z;
  NodeSize : Z;
  RecordSize : Z;
  Depth : Z;
  SplitPercent : Z;
  MergePercent : Z;
  RootNodeAddr : Z;
  NumRecordsRoot : Z;
  TotalRecords : Z }.

Record BTreeV2LeafNode := mkLeaf {
  LeafSignature : bytes;
  LeafVersion : Z;
  LeafType : Z;
  Records : list LinkNameRecord }.

Record LazyRebalancingConfig := mkLazyConfig {
  Enabled : bool;
  Threshold : spec_float;
  MaxDelay : Z;
  BatchSize : Z }.

Record LazyRebalancingState := mkLazyState {
  Config : LazyRebalancingConfig;
  UnderflowCount : Z;
  TotalNodes : Z;
  LastRebalance : Z;
  PendingDeletes : Z;
  UnderflowNodes : list Z }.

Record WritableBTreeV2 := mkBTree {
  header : BTreeV2Header;
  leaf : BTreeV2LeafNode;
  records : list LinkNameRecord;
  nodeSize : Z;
  loadedHeaderAddress : Z;
  loadedLeafAddress : Z;
  lazyState : option LazyRebalancingState }.

Definition BTreeV2HeaderSignature : bytes := String.list_byte_of_string "BTHD".
Definition BTreeV2LeafSignature : bytes := String.list_byte_of_string "BTLF".
Definition BTreeV2TypeLinkNameIndex : Z := 5.
Definition DefaultBTreeV2NodeSize : Z := 4096.
Definition DefaultBTreeV2SplitPercent : Z := 100.
Definition DefaultBTreeV2MergePercent : Z := 40.

Definition emptyLeaf : BTreeV2LeafNode := mkLeaf BTreeV2LeafSignature 0 BTreeV2TypeLinkNameIndex [].

Definition NewWritableBTreeV2 (nodeSize : Z) : WritableBTreeV2 :=
  let nodeSize := if nodeSize =? 0 then DefaultBTreeV2NodeSize else nodeSize in
  mkBTree
    (mkBTreeHeader BTreeV2HeaderSignature 0 BTreeV2TypeLinkNameIndex nodeSize 11 0
       DefaultBTreeV2SplitPercent DefaultBTreeV2MergePercent 0 0 0)
    emptyLeaf [] nodeSize 0 0 None.

(** ** Operations on the records *)

(** The tree with other records and counters moved by [d]; [leaf.Records] is
    set to the same slice. *)
Definition with_records (bt : WritableBTreeV2) (rs : list LinkNameRecord) (d : Z) : WritableBTreeV2 :=
  let h := header bt in
  mkBTree
    (mkBTreeHeader (HeaderSignature h) (HeaderVersion h) (HeaderType h) (NodeSize h) (RecordSize h) (Depth h)
       (SplitPercent h) (MergePercent h) (RootNodeAddr h) (u16 (NumRecordsRoot h + d)) (u64 (TotalRecords h + d)))
    (mkLeaf (LeafSignature (leaf bt)) (LeafVersion (leaf bt)) (LeafType (leaf bt)) rs)
    rs (nodeSize bt) (loadedHeaderAddress bt) (loadedLeafAddress bt) (lazyState bt).

Definition with_lazy (bt : WritableBTreeV2) (ls : option LazyRebalancingState) : WritableBTreeV2 :=
  mkBTree (header bt) (leaf bt) (records bt) (nodeSize bt) (loadedHeaderAddress bt) (loadedLeafAddress bt) ls.

(** The first seven bytes of the little-endian identifier. *)
Definition heapIDBytes (heapID : Z) : bytes := take 7 (le_put 8 heapID).

Definition calculateMaxRecords (bt : WritableBTreeV2) : Z := u32 (nodeSize bt - 10) / 11.

Fixpoint insertRecordSorted (rs : list LinkNameRecord) (new : LinkNameRecord) : list LinkNameRecord :=
  match rs with
  | [] => [new]
  | r :: rs' => if NameHash r >=? NameHash new then new :: rs else r :: insertRecordSorted rs' new
  end.

Definition InsertRecord (bt : WritableBTreeV2) (linkName : bytes) (heapID : Z) : outcome WritableBTreeV2 :=
  let! hash := jenkinsHash linkName in
  let record := mkRecord hash (heapIDBytes heapID) in
  guard negb (len (records bt) >=? calculateMaxRecords bt) else "b-tree node is full";;
  Ret (with_records bt (insertRecordSorted (records bt) record) 1).

(** The first index from [i] on with the hash. *)
Fixpoint findRecord (rs : list LinkNameRecord) (hash : Z) : option (nat * LinkNameRecord) :=
  match rs with
  | [] => None
  | r :: rs => if NameHash r =? hash then Some (O, r)
               else match findRecord rs hash with Some (i, x) => Some (S i, x) | None => None end
  end.

Definition HasKey (bt : WritableBTreeV2) (name : bytes) : outcome bool :=
  let! hash := jenkinsHash name in
  Ret (match findRecord (records bt) hash with Some _ => true | None => false end).

(** The eight bytes of the identifier, the last one zero. *)
Definition SearchRecord (bt : WritableBTreeV2) (name : bytes) : outcome (option bytes) :=
  let! hash := jenkinsHash name in
  Ret (match findRecord (records bt) hash with
       | Some (_, r) => Some (take 8 (RecordHeapID r ++ zeros 8))
       | None => None
       end).

Definition UpdateRecord (bt : WritableBTreeV2) (name : bytes) (newHeapID : Z) : outcome WritableBTreeV2 :=
  let! hash := jenkinsHash name in
  match findRecord (records bt) hash with
  | Some (i, r) =>
      Ret (with_records bt (<[i := mkRecord (NameHash r) (heapIDBytes newHeapID)]> (records bt)) 0)
  | None => Err "record not found for name"
  end.

Definition handleRootDepthDecrease (bt : WritableBTreeV2) : outcome WritableBTreeV2 := Ret bt.

Definition DeleteRecordWithRebalancing (bt : WritableBTreeV2) (name : bytes) : outcome WritableBTreeV2 :=
  let! hash := jenkinsHash name in
  match findRecord (records bt) hash with
  | Some (i, _) =>
      let bt := with_records bt (take i (records bt) ++ drop (S i) (records bt)) (-1) in
      if (NumRecordsRoot (header bt) =? 0) && (Depth (header bt) >? 0) then handleRootDepthDecrease bt
      else Ret bt
  | None => Err "record not found for name"
  end.

Definition DeleteRecord (bt : WritableBTreeV2) (name : bytes) : outcome WritableBTreeV2 :=
  DeleteRecordWithRebalancing bt name.

Definition GetRecords (bt : WritableBTreeV2) : list LinkNameRecord := records bt.

(** ** Rebalancing between leaves *)

Definition calculateMinRecords (bt : WritableBTreeV2) : Z := calculateMaxRecords bt / 2.

Definition with_leaf_records (l : BTreeV2LeafNode) (rs : list LinkNameRecord) : BTreeV2LeafNode :=
  mkLeaf (LeafSignature l) (LeafVersion l) (LeafType l) rs.

Definition mergeNodes (bt : WritableBTreeV2) (left right : BTreeV2LeafNode) : outcome (BTreeV2LeafNode * BTreeV2LeafNode) :=
  let mergedRecords := Records left ++ Records right in
  guard negb (len mergedRecords >? calculateMaxRecords bt) else "cannot merge";;
  Ret (with_leaf_records left mergedRecords, with_leaf_records right []).

Definition redistributeRecords (left right : BTreeV2LeafNode) : BTreeV2LeafNode * BTreeV2LeafNode :=
  let allRecords := Records left ++ Records right in
  let leftCount := Z.to_nat (len allRecords / 2) in
  (with_leaf_records left (take leftCount allRecords), with_leaf_records right (drop leftCount allRecords)).

Definition borrowFromLeft (current left : BTreeV2LeafNode) : outcome (BTreeV2LeafNode * BTreeV2LeafNode) :=
  guard negb (len (Records left) =? 0) else "left sibling has no records to borrow";;
  let! borrowed := idx (Records left) (len (Records left) - 1) in
  Ret (with_leaf_records current (borrowed :: Records current),
       with_leaf_records left (take (length (Records left) - 1) (Records left))).

Definition borrowFromRight (current right : BTreeV2LeafNode) : outcome (BTreeV2LeafNode * BTreeV2LeafNode) :=
  guard negb (len (Records right) =? 0) else "right sibling has no records to borrow";;
  let! borrowed := idx (Records right) 0 in
  Ret (with_leaf_records current (Records current ++ [borrowed]),
       with_leaf_records right (drop 1 (Records right))).

(** Stubs of the code. *)
Definition RebalanceAll (bt : WritableBTreeV2) : outcome WritableBTreeV2 := Ret bt.

(** ** Lazy rebalancing *)

Definition z2f (x : Z) : spec_float := binary_normalize 53 1024 x 0 false.

(** The [float64] nearest to 0.05 and to 0.20. *)
Definition f005 : spec_float := S754_finite false 7205759403792794 (-57).
Definition f020 : spec_float := S754_finite false 7205759403792794 (-55).

Definition minutes5 : Z := 300000000000.

Definition DefaultLazyConfig : LazyRebalancingConfig := mkLazyConfig true f005 minutes5 100.

Definition EnableLazyRebalancing (bt : WritableBTreeV2) (config : LazyRebalancingConfig) (now : Z) : WritableBTreeV2 :=
  let threshold := if SFleb (Threshold config) (z2f 0) then f005 else Threshold config in
  let threshold := if SFltb f020 threshold then f020 else threshold in
  let maxDelay := if MaxDelay config <=? 0 then minutes5 else MaxDelay config in
  let batchSize := if BatchSize config <=? 0 then 100 else BatchSize config in
  with_lazy bt (Some (mkLazyState (mkLazyConfig (Enabled config) threshold maxDelay batchSize) 0 1 now 0 [])).

Definition IsLazyRebalancingEnabled (bt : WritableBTreeV2) : bool :=
  match lazyState bt with Some ls => Enabled (Config ls) | None => false end.

Definition BatchRebalance (bt : WritableBTreeV2) (now : Z) : outcome WritableBTreeV2 :=
  match lazyState bt with
  | None => Ret bt
  | Some ls => Ret (with_lazy bt (Some (mkLazyState (Config ls) 0 (TotalNodes ls) now 0 [])))
  end.

Definition DisableLazyRebalancing (bt : WritableBTreeV2) (now : Z) : outcome WritableBTreeV2 :=
  match lazyState bt with
  | None => Ret bt
  | Some _ => let! bt := BatchRebalance bt now in Ret (with_lazy bt None)
  end.

Definition shouldTriggerBatchRebalancing (bt : WritableBTreeV2) (now : Z) : bool :=
  match lazyState bt with
  | None => false
  | Some ls =>
      let thresholdReached :=
        (TotalNodes ls >? 0) &&
        SFleb (Threshold (Config ls)) (SFdiv 53 1024 (z2f (UnderflowCount ls)) (z2f (TotalNodes ls))) in
      let maxDelayExceeded := now - LastRebalance ls >=? MaxDelay (Config ls) in
      thresholdReached || maxDelayExceeded
  end.

Definition DeleteRecordLazy (bt : WritableBTreeV2) (name : bytes) (now : Z) : outcome WritableBTreeV2 :=
  guard IsLazyRebalancingEnabled bt else "lazy rebalancing not enabled, use EnableLazyRebalancing() first";;
  let! hash := jenkinsHash name in
  match findRecord (records bt) hash, lazyState bt with
  | Some (i, _), Some ls =>
      let bt := with_records bt (take i (records bt) ++ drop (S i) (records bt)) (-1) in
      let underflow := if len (records bt) <? calculateMinRecords bt then 1 else UnderflowCount ls in
      let ls := mkLazyState (Config ls) underflow (TotalNodes ls) (LastRebalance ls) (PendingDeletes ls + 1)
                  (UnderflowNodes ls) in
      let bt := with_lazy bt (Some ls) in
      if shouldTriggerBatchRebalancing bt now then BatchRebalance bt now else Ret bt
  | _, _ => Err "record not found for name"
  end.

Definition GetLazyRebalancingStats (bt : WritableBTreeV2) (now : Z) : Z * Z * Z :=
  match lazyState bt with
  | None => (0, 0, 0)
  | Some ls => (UnderflowCount ls, PendingDeletes ls, now - LastRebalance ls)
  end.

Definition ForceBatchRebalance (bt : WritableBTreeV2) (now : Z) : outcome WritableBTreeV2 :=
  match lazyState bt with
  | None => Err "lazy rebalancing not enabled"
  | Some _ => BatchRebalance bt now
  end.

(** ** Encoding *)

(** [writeUint64] and [readUint64] of this package: sizes other than 1, 2, 4
    and 8 write nothing and read as zero. *)
Definition plainSize (size : Z) : bool := (size =? 1) || (size =? 2) || (size =? 4) || (size =? 8).

Definition writeUint64 (buf : bytes) (off value size : Z) (order : ByteOrder) : outcome bytes :=
  if plainSize size then put_bytes buf off (put_order order (Z.to_nat size) value) else Ret buf.

Definition readUint64 (buf : bytes) (size : Z) (order : ByteOrder) : outcome Z :=
  if plainSize size then let! s := slice buf 0 size in Ret (get_order order s) else Ret 0.

Definition calculateHeaderSize (sb : Superblock) : Z := 16 + OffsetSize sb + 14.

Definition calculateLeafSize (bt : WritableBTreeV2) : Z := 6 + len (Records (leaf bt)) * 11 + 4.

Definition encodeHeader (h : BTreeV2Header) (sb : Superblock) : outcome bytes :=
  let size := calculateHeaderSize sb in
  let! buf := putFields (zeros size)
    [(0, HeaderSignature h); (4, [z2b (HeaderVersion h)]); (5, [z2b (HeaderType h)]); (6, le_put 4 (NodeSize h));
     (10, le_put 2 (RecordSize h)); (12, le_put 2 (Depth h)); (14, [z2b (SplitPercent h)]); (15, [z2b (MergePercent h)])] in
  let! buf := writeUint64 buf 16 (RootNodeAddr h) (OffsetSize sb) (Endianness sb) in
  let offset := 16 + OffsetSize sb in
  let! buf := put_le 2 buf offset (NumRecordsRoot h) in
  let! buf := put_le 8 buf (offset + 2) (TotalRecords h) in
  let offset := offset + 10 in
  let! covered := slice buf 0 offset in
  let! checksum := JenkinsChecksum covered in
  put_le 4 buf offset checksum.

(** One record at [offset]; the last result is the offset after it. *)
Definition putRecord (r : LinkNameRecord) (s : bytes * Z) : outcome (bytes * Z) :=
  let '(buf, offset) := s in
  let! buf := put_le 4 buf offset (NameHash r) in
  let! buf := put_bytes buf (offset + 4) (RecordHeapID r) in
  Ret (buf, offset + 11).

Definition encodeLeafNode (bt : WritableBTreeV2) : outcome bytes :=
  let l := leaf bt in
  let! buf := putFields (zeros (calculateLeafSize bt))
    [(0, LeafSignature l); (4, [z2b (LeafVersion l)]); (5, [z2b (LeafType l)])] in
  let! (buf, offset) := for_each (Records l) putRecord (buf, 6) in
  let! covered := slice buf 0 offset in
  let! checksum := JenkinsChecksum covered in
  put_le 4 buf offset checksum.

(** ** Decoding *)

Definition readBTreeV2Header (file : bytes) (address : Z) (sb : Superblock) : outcome BTreeV2Header :=
  let O := OffsetSize sb in
  let size := 16 + O + 14 in
  let! buf := read_at file (i64 address) size in
  let! signature := slice buf 0 4 in
  guard bool_decide (signature = BTreeV2HeaderSignature) else "invalid B-tree header signature";;
  let! version := idx buf 4 in
  guard b2z version =? 0 else "unsupported B-tree version";;
  let! btreeType := idx buf 5 in
  let! nodeSize := get_le 4 buf 6 in
  let! recordSize := get_le 2 buf 10 in
  let! depth := get_le 2 buf 12 in
  let! splitPercent := idx buf 14 in
  let! mergePercent := idx buf 15 in
  let! window := slice buf 16 (16 + O) in
  let! rootNodeAddr := readUint64 window O (Endianness sb) in
  let! numRecordsRoot := get_le 2 buf (16 + O) in
  let! totalRecords := get_le 8 buf (16 + O + 2) in
  let! storedChecksum := get_le 4 buf (16 + O + 10) in
  let! covered := slice buf 0 (16 + O + 10) in
  let! expectedChecksum := JenkinsChecksum covered in
  guard storedChecksum =? expectedChecksum else "b-tree header checksum mismatch";;
  Ret (mkBTreeHeader signature (b2z version) (b2z btreeType) nodeSize recordSize depth (b2z splitPercent)
         (b2z mergePercent) rootNodeAddr numRecordsRoot totalRecords).

Definition readRecord (buf : bytes) (_ : Z) (s : Z * list LinkNameRecord) : outcome (Z * list LinkNameRecord) :=
  let '(offset, rs) := s in
  let! nameHash := get_le 4 buf offset in
  let! heapID := slice buf (offset + 4) (offset + 11) in
  Ret (offset + 11, rs ++ [mkRecord nameHash heapID]).

Definition readBTreeV2LeafNode (file : bytes) (address numRecords : Z) : outcome (BTreeV2LeafNode * list LinkNameRecord) :=
  let size := 6 + numRecords * 11 + 4 in
  let! buf := read_at file (i64 address) size in
  let! signature := slice buf 0 4 in
  guard bool_decide (signature = BTreeV2LeafSignature) else "invalid B-tree leaf signature";;
  let! version := idx buf 4 in
  guard b2z version =? 0 else "unsupported B-tree leaf version";;
  let! leafType := idx buf 5 in
  let! (offset, rs) := for_loop (Z.to_nat numRecords) 0 (readRecord buf) (6, []) in
  let! storedChecksum := get_le 4 buf offset in
  let! covered := slice buf 0 offset in
  let! expectedChecksum := JenkinsChecksum covered in
  guard storedChecksum =? expectedChecksum else "b-tree leaf checksum mismatch";;
  Ret (mkLeaf signature (b2z version) (b2z leafType) rs, rs).

Definition LoadFromFile (bt : WritableBTreeV2) (file : bytes) (headerAddr : Z) (sb : Superblock) : outcome WritableBTreeV2 :=
  let! h := readBTreeV2Header file headerAddr sb in
  guard HeaderType h =? BTreeV2TypeLinkNameIndex else "invalid b-tree type";;
  guard Depth h =? 0 else "only single-leaf B-trees are supported (depth 0)";;
  if NumRecordsRoot h >? 0 then
    let! (l, rs) := readBTreeV2LeafNode file (RootNodeAddr h) (NumRecordsRoot h) in
    Ret (mkBTree h l rs (NodeSize h) headerAddr (RootNodeAddr h) (lazyState bt))
  else Ret (mkBTree h emptyLeaf [] (NodeSize h) headerAddr (RootNodeAddr h) (lazyState bt)).

(** ** Storing *)

Definition with_root (bt : WritableBTreeV2) (addr : Z) : WritableBTreeV2 :=
  let h := header bt in
  mkBTree
    (mkBTreeHeader (HeaderSignature h) (HeaderVersion h) (HeaderType h) (NodeSize h) (RecordSize h) (Depth h)
       (SplitPercent h) (MergePercent h) addr (NumRecordsRoot h) (TotalRecords h))
    (leaf bt) (records bt) (nodeSize bt) (loadedHeaderAddress bt) (loadedLeafAddress bt) (lazyState bt).

Section with_storage.
Context `{Storage St}.

(** The header's address, the tree with the leaf's address in its header, and
    the storage. *)
Definition WriteToFile (bt : WritableBTreeV2) (st : St) (sb : Superblock) : outcome (Z * WritableBTreeV2 * St) :=
  let! (leafAddr, st) := allocate st (nodeSize bt) in
  let! leafData := encodeLeafNode bt in
  let! st := write_to st leafData leafAddr in
  let! (headerAddr, st) := allocate st (calculateHeaderSize sb) in
  let bt := with_root bt leafAddr in
  let! headerData := encodeHeader (header bt) sb in
  let! st := write_to st headerData headerAddr in
  Ret (headerAddr, bt, st).

Definition WriteAt (bt : WritableBTreeV2) (st : St) (sb : Superblock) : outcome (WritableBTreeV2 * St) :=
  guard negb (loadedHeaderAddress bt =? 0) else "cannot use WriteAt: B-tree not loaded from file";;
  let! leafData := encodeLeafNode bt in
  let! st := write_to st leafData (loadedLeafAddress bt) in
  let bt := with_root bt (loadedLeafAddress bt) in
  let! headerData := encodeHeader (header bt) sb in
  let! st := write_to st headerData (loadedHeaderAddress bt) in
  Ret (bt, st).
End with_storage.

(** ** The hash is total *)

Lemma hashLoop_spec name fuel i s :
  (Z.to_nat (len name - i) < fuel)%nat -> 0 <= i <= len name -> state_ok s ->
  exists j s', hashLoop fuel name i s = Ret (j, s') /\ i <= j <= len name /\ len name - j < 12 /\ state_ok s'.
Proof.
  revert i s. induction fuel as [|fuel IH]; intros i s Hf Hi Hs; [lia|]. cbn [hashLoop].
  ztest; [|exists i, s; split_and!; (done || lia || apply Hs)].
  destruct (word32_u name i) as (wa & -> & Ha); [lia..|].
  destruct (word32_u name (i + 4)) as (wb & -> & Hb); [lia..|].
  destruct (word32_u name (i + 8)) as (wc & -> & Hc); [lia..|]. cbn [obind].
  destruct (IH (i + 12) (mix (mkState (u32 (sa s + wa)) (u32 (sb s + wb)) (u32 (sc s + wc))))) as (j & s' & -> & ? & ? & ?).
  - lia.
  - lia.
  - apply mix_ok. split_and!; cbn [sa sb sc]; apply u32_range.
  - exists j, s'. split_and!; (done || lia).
Qed.

Lemma jenkinsHash_ret name : exists h, jenkinsHash name = Ret h /\ is_u 32 h.
Proof.
  unfold jenkinsHash. cbv zeta. pose proof (len_nonneg name).
  set (a := u32 (0xdeadbeef + u32 (len name))).
  destruct (hashLoop_spec name (S (length name)) 0 (mkState a a a)) as (j & s & -> & Hj & _ & Hs).
  - unfold len. lia.
  - lia.
  - split_and!; apply u32_range.
  - cbn [obind]. destruct (tailLoop_spec name j 11 s) as (s' & -> & Hs'); [lia|done|]. cbn [obind].
    eexists. split; [done|]. by destruct (proj2 (unfinal_final s' Hs')) as (_ & _ & ?).
Qed.

(** The hash as a function. *)
Definition hashOf (name : bytes) : Z := match jenkinsHash name with Ret h => h | _ => 0 end.

Lemma jenkinsHash_eq name : jenkinsHash name = Ret (hashOf name).
Proof. unfold hashOf. by destruct (jenkinsHash_ret name) as (h & -> & _). Qed.

Lemma hashOf_u name : is_u 32 (hashOf name).
Proof. unfold hashOf. by destruct (jenkinsHash_ret name) as (h & -> & ?). Qed.

(** Both loops take the same chunks when the last one is not full. *)
Lemma hashLoop_chunkLoop name fuel i s :
  (Z.to_nat (len name - i) < fuel)%nat -> 0 <= i <= len name -> (len name - i) mod 12 <> 0 ->
  hashLoop fuel name i s = chunkLoop fuel name i s.
Proof.
  revert i s. induction fuel as [|fuel IH]; intros i s Hf Hi Hm; [lia|]. cbn [hashLoop chunkLoop].
  destruct (Z.leb_spec (i + 12) (len name)), (Z.ltb_spec (i + 12) (len name)); try lia; [| |done].
  - destruct (word32 name i); cbn [obind]; [|done..]. destruct (word32 name (i + 4)); cbn [obind]; [|done..].
    destruct (word32 name (i + 8)); cbn [obind]; [|done..]. apply IH; [lia|lia|].
    replace (len name - (i + 12)) with (len name - i + -1 * 12) by lia. by rewrite Z.mod_add.
  - replace (len name - i) with (1 * 12) in Hm by lia. by rewrite Z.mod_mul in Hm.
Qed.

(** Where the name is not a multiple of 12 bytes long, the name hash is the
    lookup3 hash the format prescribes. *)
Lemma jenkinsHash_is_lookup3 name : len name mod 12 <> 0 -> jenkinsHash name = jenkinsLookup3 name 0.
Proof.
  intros Hm. unfold jenkinsHash, jenkinsLookup3. cbv zeta. pose proof (len_nonneg name).
  rewrite Z.add_0_r. rewrite (u32_id (u32 _)) by apply u32_range. set (a := u32 _).
  rewrite hashLoop_chunkLoop by (rewrite ?Z.sub_0_r; unfold len in *; lia || done).
  destruct (chunkLoop_spec name (S (length name)) 0 (mkState a a a)) as (j & s & E & Hj & Hl & Hlt & Hs).
  - unfold len. lia.
  - lia.
  - split_and!; apply u32_range.
  - rewrite E. cbn [obind]. assert (j < len name) by (apply Hlt; destruct (decide (len name = 0)) as [E0|]; [by rewrite E0 in Hm|lia]).
    ztest. assert (len name - j <> 12).
    { rewrite <- hashLoop_chunkLoop in E by (rewrite ?Z.sub_0_r; unfold len in *; lia || done).
      destruct (hashLoop_spec name (S (length name)) 0 (mkState a a a)) as (j' & s'' & E' & ? & ? & ?);
        [unfold len; lia|lia|split_and!; apply u32_range|]. rewrite E in E'. injection E' as <- <-. lia. }
    change (tailLoop 12 name j (len name - j) s) with
      (let! s := tailByte name j (len name - j) (Z.of_nat 11) s in tailLoop 11 name j (len name - j) s).
    unfold tailByte at 1. change (Z.of_nat 11) with 11. ztest. done.
Qed.

(** ** The records with a hash *)

(** The identifiers stored under a hash, in record order. *)
Definition idsOf (rs : list LinkNameRecord) (h : Z) : list bytes :=
  map RecordHeapID (filter (fun r => NameHash r = h) rs).

Lemma idsOf_cons r rs h :
  idsOf (r :: rs) h = if decide (NameHash r = h) then RecordHeapID r :: idsOf rs h else idsOf rs h.
Proof. unfold idsOf. rewrite filter_cons. by case_decide. Qed.

Lemma idsOf_app rs ss h : idsOf (rs ++ ss) h = idsOf rs h ++ idsOf ss h.
Proof. unfold idsOf. by rewrite filter_app, map_app. Qed.

Lemma idsOf_none rs h : Forall (fun r => NameHash r <> h) rs -> idsOf rs h = [].
Proof.
  induction 1 as [|r rs Hr _ IH]; [done|]. rewrite idsOf_cons. by rewrite decide_False.
Qed.

Lemma insert_split rs new : exists l k,
  rs = l ++ k /\ insertRecordSorted rs new = l ++ new :: k /\ Forall (fun r => NameHash r < NameHash new) l.
Proof.
  induction rs as [|r rs (l & k & -> & E & Hl)]; [by exists [], []|]. cbn [insertRecordSorted].
  destruct (Z.geb_spec (NameHash r) (NameHash new)).
  - by exists [], (r :: l ++ k).
  - exists (r :: l), k. rewrite E. split_and!; [done..|]. by constructor.
Qed.

Lemma tree_idsOf_insert rs new h :
  idsOf (insertRecordSorted rs new) h =
    if decide (NameHash new = h) then RecordHeapID new :: idsOf rs h else idsOf rs h.
Proof.
  destruct (insert_split rs new) as (l & k & -> & -> & Hl). rewrite !idsOf_app, idsOf_cons.
  case_decide as Hh; [|done]. rewrite (idsOf_none l); [done|].
  eapply Forall_impl; [exact Hl|]. cbn. lia.
Qed.

Lemma findRecord_spec rs h :
  match findRecord rs h with
  | Some (i, r) => exists l k, rs = l ++ r :: k /\ length l = i /\ NameHash r = h /\ Forall (fun r => NameHash r <> h) l
  | None => Forall (fun r => NameHash r <> h) rs
  end.
Proof.
  induction rs as [|r rs IH]; cbn [findRecord]; [done|]. destruct (Z.eqb_spec (NameHash r) h) as [E|E].
  - by exists [], rs.
  - destruct (findRecord rs h) as [[i x]|].
    + destruct IH as (l & k & -> & <- & Hx & Hl). exists (r :: l), k. split_and!; [done..|]. by constructor.
    + by constructor.
Qed.

(** [findRecord] gives the first identifier, and where it is. *)
Lemma findRecord_ids rs h i r : findRecord rs h = Some (i, r) ->
  exists l k, rs = l ++ r :: k /\ length l = i /\ NameHash r = h /\
    (forall h', idsOf (l ++ k) h' = if decide (h' = h) then drop 1 (idsOf rs h') else idsOf rs h') /\
    (forall x h', idsOf (l ++ mkRecord h x :: k) h' = if decide (h' = h) then x :: drop 1 (idsOf rs h') else idsOf rs h') /\
    head (idsOf rs h) = Some (RecordHeapID r).
Proof.
  intros E. pose proof (findRecord_spec rs h) as H. rewrite E in H. destruct H as (l & k & -> & Hl & Hr & Hn).
  exists l, k. split_and!; [done..| | |].
  - intros h'. rewrite !idsOf_app, idsOf_cons. destruct (decide (h' = h)) as [->|Hne].
    + rewrite (idsOf_none l) by done. by rewrite decide_True.
    + by rewrite decide_False by congruence.
  - intros x h'. rewrite !idsOf_app, !idsOf_cons. cbn [NameHash RecordHeapID]. destruct (decide (h' = h)) as [->|Hne].
    + rewrite (idsOf_none l) by done. by rewrite !decide_True.
    + by rewrite !decide_False by congruence.
  - rewrite idsOf_app, (idsOf_none l), idsOf_cons by done. by rewrite decide_True.
Qed.

Lemma findRecord_none rs h : findRecord rs h = None -> idsOf rs h = [].
Proof. intros E. pose proof (findRecord_spec rs h) as H. rewrite E in H. by apply idsOf_none. Qed.

(** ** The invariant *)

Definition hash_le (r s : LinkNameRecord) : Prop := NameHash r <= NameHash s.

Definition record_ok (r : LinkNameRecord) : Prop := is_u 32 (NameHash r) /\ length (RecordHeapID r) = 7%nat.

Record tree_ok (bt : WritableBTreeV2) : Prop := {
  to_leaf : leaf bt = mkLeaf BTreeV2LeafSignature 0 BTreeV2TypeLinkNameIndex (records bt);
  to_sorted : StronglySorted hash_le (records bt);
  to_records : Forall record_ok (records bt);
  to_count : len (records bt) <= calculateMaxRecords bt;
  to_header : header bt = mkBTreeHeader BTreeV2HeaderSignature 0 BTreeV2TypeLinkNameIndex (nodeSize bt) 11 0 100 40
                (RootNodeAddr (header bt)) (u16 (len (records bt))) (u64 (len (records bt))) }.

Lemma heapIDBytes_length x : length (heapIDBytes x) = 7%nat.
Proof. done. Qed.

Lemma sorted_app (l k : list LinkNameRecord) :
  StronglySorted hash_le (l ++ k) <->
    StronglySorted hash_le l /\ StronglySorted hash_le k /\ forall x y, x ∈ l -> y ∈ k -> hash_le x y.
Proof.
  induction l as [|a l IH]; cbn.
  - split; [intros H; split_and!; [constructor|done|]; by intros ? ? ?%not_elem_of_nil|tauto].
  - split.
    + intros (Hs & Ha)%StronglySorted_inv. apply IH in Hs as (Hl & Hk & Hc). apply Forall_app in Ha as (Ha & Hb).
      split_and!; [by constructor|done|]. intros x y [->|Hx]%elem_of_cons Hy; [|by apply Hc].
      by rewrite Forall_forall in Hb; apply Hb.
    + intros ((Hl & Ha)%StronglySorted_inv & Hk & Hc). constructor.
      * apply IH. split_and!; [done..|]. intros x y Hx. apply Hc. by right.
      * apply Forall_app. split; [done|]. apply Forall_forall. intros y Hy. apply Hc; [by left|done].
Qed.

Lemma insert_sorted rs new : StronglySorted hash_le rs -> StronglySorted hash_le (insertRecordSorted rs new).
Proof.
  induction 1 as [|r rs Hs IH Hr]; cbn [insertRecordSorted]; [by repeat constructor|].
  destruct (Z.geb_spec (NameHash r) (NameHash new)) as [Hg|Hg].
  - constructor; [by constructor|]. constructor; [unfold hash_le; lia|].
    eapply Forall_impl; [exact Hr|]. unfold hash_le. cbn. lia.
  - constructor; [done|]. destruct (insert_split rs new) as (l & k & -> & -> & _).
    apply Forall_app in Hr as [Hl Hk]. apply Forall_app. split; [done|]. constructor; [unfold hash_le; lia|done].
Qed.

(** Replacing the records keeps the invariant. *)
Lemma with_records_ok bt rs d :
  tree_ok bt -> StronglySorted hash_le rs -> Forall record_ok rs -> len rs <= calculateMaxRecords bt ->
  d = len rs - len (records bt) -> tree_ok (with_records bt rs d).
Proof.
  intros [E1 E2 E3 E4 E5] Hs Hr Hl ->. unfold with_records. constructor; cbn [leaf records header nodeSize].
  - by rewrite E1.
  - done.
  - done.
  - exact Hl.
  - rewrite E5. cbn. f_equal; unfold u16, u64; rewrite Zplus_mod_idemp_l; f_equal; lia.
Qed.

Lemma New_ok n : tree_ok (NewWritableBTreeV2 n).
Proof.
  unfold NewWritableBTreeV2. constructor; cbn [leaf records header nodeSize]; try done.
  - constructor.
  - unfold calculateMaxRecords. change (len []) with 0. apply Z.div_pos; [|done]. apply u32_range.
Qed.

(** The result of an operation on the tree: the new records, with the same
    geometry. *)
Definition same_shape (bt bt' : WritableBTreeV2) : Prop :=
  nodeSize bt' = nodeSize bt /\ loadedHeaderAddress bt' = loadedHeaderAddress bt /\
  loadedLeafAddress bt' = loadedLeafAddress bt.

Lemma InsertRecord_cases bt name id : tree_ok bt ->
  (len (records bt) < calculateMaxRecords bt /\
   exists bt', InsertRecord bt name id = Ret bt' /\ tree_ok bt' /\ same_shape bt bt' /\ lazyState bt' = lazyState bt /\
     len (records bt') = len (records bt) + 1 /\
     forall h, idsOf (records bt') h = if decide (h = hashOf name) then heapIDBytes id :: idsOf (records bt) h else idsOf (records bt) h) \/
  (calculateMaxRecords bt <= len (records bt) /\ InsertRecord bt name id = Err "b-tree node is full").
Proof.
  intros Hok. unfold InsertRecord. rewrite jenkinsHash_eq. cbn [obind].
  destruct (Z.geb_spec (len (records bt)) (calculateMaxRecords bt)); cbn [negb]; [by right|left]. split; [done|].
  set (r := mkRecord (hashOf name) (heapIDBytes id)).
  assert (Hlen : len (insertRecordSorted (records bt) r) = len (records bt) + 1).
  { destruct (insert_split (records bt) r) as (l & k & E & -> & _). rewrite E, !len_app, len_cons. lia. }
  eexists. split; [done|]. split_and!; try done.
  - apply with_records_ok; [done|by apply insert_sorted, to_sorted| |lia|lia].
    destruct (insert_split (records bt) r) as (l & k & E & -> & _). pose proof (to_records _ Hok) as Hr. rewrite E in Hr.
    apply Forall_app in Hr as [Hl Hk]. apply Forall_app. split; [done|]. constructor; [|done].
    split; [apply hashOf_u|done].
  - intros h. cbn [with_records records]. rewrite tree_idsOf_insert. cbn [NameHash r RecordHeapID].
    destruct (decide (hashOf name = h)), (decide (h = hashOf name)); congruence.
Qed.

Lemma removed_ok bt l r k : tree_ok bt -> records bt = l ++ r :: k ->
  tree_ok (with_records bt (l ++ k) (-1)).
Proof.
  intros Hok E. pose proof (to_sorted _ Hok) as Hs. pose proof (to_records _ Hok) as Hr. pose proof (to_count _ Hok) as Hc.
  rewrite E in Hs, Hr, Hc. rewrite len_app, len_cons in Hc.
  apply with_records_ok; [done| | |rewrite len_app; lia|rewrite E, !len_app, len_cons; lia].
  - apply sorted_app in Hs as (Hl & (Hk & _)%StronglySorted_inv & Hc'). apply sorted_app. split_and!; [done..|].
    intros x y Hx Hy. apply Hc'; [done|by right].
  - apply Forall_app in Hr as (Hl & (_ & Hk)%Forall_cons). by apply Forall_app.
Qed.

Lemma take_drop_mid {A} (l k : list A) r i : length l = i -> take i (l ++ r :: k) = l /\ drop (S i) (l ++ r :: k) = k.
Proof.
  intros <-. rewrite take_app_length, drop_app_ge by lia. by replace (S (length l) - length l)%nat with 1%nat by lia.
Qed.

(** What deleting the first record under a name does. *)
Definition deleted_first (bt bt' : WritableBTreeV2) (name : bytes) : Prop :=
  tree_ok bt' /\ same_shape bt bt' /\ len (records bt') = len (records bt) - 1 /\
  forall h, idsOf (records bt') h = if decide (h = hashOf name) then drop 1 (idsOf (records bt) h) else idsOf (records bt) h.

Lemma remove_first bt name i r : tree_ok bt -> findRecord (records bt) (hashOf name) = Some (i, r) ->
  idsOf (records bt) (hashOf name) <> [] /\
  deleted_first bt (with_records bt (take i (records bt) ++ drop (S i) (records bt)) (-1)) name.
Proof.
  intros Hok E. destruct (findRecord_ids _ _ _ _ E) as (l & k & Hr & Hi & Hh & Hd & _ & Hhd).
  split; [by destruct (idsOf _ _)|]. destruct (take_drop_mid l k r i Hi) as [E1 E2]. rewrite Hr at 1 2. rewrite E1, E2.
  split_and!; try done.
  - by eapply removed_ok.
  - cbn [with_records records]. rewrite Hr, !len_app, len_cons. lia.
Qed.

Lemma DeleteRecord_cases bt name : tree_ok bt ->
  (idsOf (records bt) (hashOf name) <> [] /\
   exists bt', DeleteRecord bt name = Ret bt' /\ deleted_first bt bt' name /\ lazyState bt' = lazyState bt) \/
  (idsOf (records bt) (hashOf name) = [] /\ DeleteRecord bt name = Err "record not found for name").
Proof.
  intros Hok. unfold DeleteRecord, DeleteRecordWithRebalancing. rewrite jenkinsHash_eq. cbn [obind].
  destruct (findRecord (records bt) (hashOf name)) as [[i r]|] eqn:E; [left|right; split; [by apply findRecord_none|done]].
  destruct (remove_first bt name i r Hok E) as [Hne Hd]. split; [done|]. eexists. split; [|split; [exact Hd|done]].
  assert (Depth (header bt) = 0) as Hdep by (rewrite (to_header _ Hok); done).
  cbn [with_records header Depth]. rewrite Hdep. by rewrite andb_false_r.
Qed.

Lemma UpdateRecord_cases bt name id : tree_ok bt ->
  (idsOf (records bt) (hashOf name) <> [] /\
   exists bt', UpdateRecord bt name id = Ret bt' /\ tree_ok bt' /\ same_shape bt bt' /\ lazyState bt' = lazyState bt /\
     len (records bt') = len (records bt) /\
     forall h, idsOf (records bt') h = if decide (h = hashOf name) then heapIDBytes id :: drop 1 (idsOf (records bt) h) else idsOf (records bt) h) \/
  (idsOf (records bt) (hashOf name) = [] /\ UpdateRecord bt name id = Err "record not found for name").
Proof.
  intros Hok. unfold UpdateRecord. rewrite jenkinsHash_eq. cbn [obind].
  destruct (findRecord (records bt) (hashOf name)) as [[i r]|] eqn:E; [left|right; split; [by apply findRecord_none|done]].
  destruct (findRecord_ids _ _ _ _ E) as (l & k & Hr & Hi & Hh & _ & Hu & Hhd).
  split; [by destruct (idsOf _ _)|]. eexists. split; [done|].
  assert (Ei : <[i := mkRecord (NameHash r) (heapIDBytes id)]> (records bt) = l ++ mkRecord (hashOf name) (heapIDBytes id) :: k).
  { rewrite Hr, <- Hi, Hh. rewrite insert_app_r_alt by lia. by rewrite Nat.sub_diag. }
  rewrite Ei. pose proof (to_sorted _ Hok) as Hs. pose proof (to_records _ Hok) as Hf. pose proof (to_count _ Hok) as Hc.
  rewrite Hr in Hs, Hf, Hc. rewrite len_app, len_cons in Hc. split_and!; try done.
  - apply with_records_ok; [done| | |rewrite len_app, len_cons; lia|rewrite Hr, !len_app, !len_cons; lia].
    + apply sorted_app in Hs as (Hl & (Hk & Hrk)%StronglySorted_inv & Hc'). apply sorted_app. split_and!; [done| |].
      * constructor; [done|]. eapply Forall_impl; [exact Hrk|]. unfold hash_le. cbn. by rewrite Hh.
      * intros x y Hx [->|Hy]%elem_of_cons; [|apply Hc'; [done|by right]].
        specialize (Hc' x r Hx ltac:(by left)). unfold hash_le in *. cbn. by rewrite <- Hh.
    + apply Forall_app in Hf as (Hl & (_ & Hk)%Forall_cons). apply Forall_app. split; [done|]. constructor; [|done].
      split; [apply hashOf_u|done].
  - cbn [with_records records]. rewrite Hr, !len_app, !len_cons. done.
  - apply Hu.
Qed.

(** ** Lazy deletion removes the same record *)

Lemma with_lazy_ok bt ls : tree_ok bt -> tree_ok (with_lazy bt ls).
Proof. intros [E1 E2 E3 E4 E5]. by constructor. Qed.

Definition lazyEnabled (ls : option LazyRebalancingState) : bool :=
  match ls with Some ls => Enabled (Config ls) | None => false end.

Lemma DeleteRecordLazy_cases bt name now : tree_ok bt ->
  if IsLazyRebalancingEnabled bt then
    (idsOf (records bt) (hashOf name) <> [] /\
     exists bt', DeleteRecordLazy bt name now = Ret bt' /\ deleted_first bt bt' name /\
       lazyEnabled (lazyState bt') = true) \/
    (idsOf (records bt) (hashOf name) = [] /\ DeleteRecordLazy bt name now = Err "record not found for name")
  else DeleteRecordLazy bt name now = Err "lazy rebalancing not enabled, use EnableLazyRebalancing() first".
Proof.
  intros Hok. unfold DeleteRecordLazy. destruct (IsLazyRebalancingEnabled bt) eqn:El; [|done].
  unfold IsLazyRebalancingEnabled in El. destruct (lazyState bt) as [ls|]; [|done]. rewrite jenkinsHash_eq. cbn [obind].
  destruct (findRecord (records bt) (hashOf name)) as [[i r]|] eqn:E; [left|right; split; [by apply findRecord_none|done]].
  destruct (remove_first bt name i r Hok E) as [Hne (Hb & Hs & Hl & Hd)]. split; [done|].
  set (bt1 := with_records _ _ _) in *. unfold BatchRebalance. cbn [with_lazy lazyState].
  destruct (shouldTriggerBatchRebalancing _ _); eexists; (split; [done|]); split; try exact El;
    (split; [repeat apply with_lazy_ok; exact Hb|split; [exact Hs|split; [exact Hl|exact Hd]]]).
Qed.

(** ** The abstract index

    A stack of identifiers per hash, the number of identifiers, and whether
    lazy deletion is on. *)

Record index := mkIndex {
  stacks : gmap Z (list bytes);
  count : Z;
  lazyOn : bool }.

Inductive call :=
| CInsert (name : bytes) (heapID : Z)
| CUpdate (name : bytes) (heapID : Z)
| CDelete (name : bytes)
| CDeleteLazy (name : bytes) (now : Z)
| CSearch (name : bytes)
| CHasKey (name : bytes)
| CEnableLazy (config : LazyRebalancingConfig) (now : Z)
| CDisableLazy (now : Z)
| CRebalance (now : Z).

Inductive answer :=
| Done
| Found (id : option bytes)
| Known (b : bool)
| Failed (msg : string)
| Crashed.

Definition stackOf (ix : index) (name : bytes) : list bytes := default [] (stacks ix !! hashOf name).

Definition set_stack (ix : index) (name : bytes) (s : list bytes) (d : Z) : index :=
  mkIndex (<[hashOf name := s]> (stacks ix)) (count ix + d) (lazyOn ix).

(** What each call should do, [capacity] being the number of records that fit. *)
Definition spec_call (capacity : Z) (ix : index) (c : call) : index * answer :=
  match c with
  | CInsert name id =>
      if count ix <? capacity then (set_stack ix name (heapIDBytes id :: stackOf ix name) 1, Done)
      else (ix, Failed "b-tree node is full")
  | CUpdate name id =>
      match stackOf ix name with
      | _ :: rest => (set_stack ix name (heapIDBytes id :: rest) 0, Done)
      | [] => (ix, Failed "record not found for name")
      end
  | CDelete name =>
      match stackOf ix name with
      | _ :: rest => (set_stack ix name rest (-1), Done)
      | [] => (ix, Failed "record not found for name")
      end
  | CDeleteLazy name _ =>
      if lazyOn ix then
        match stackOf ix name with
        | _ :: rest => (set_stack ix name rest (-1), Done)
        | [] => (ix, Failed "record not found for name")
        end
      else (ix, Failed "lazy rebalancing not enabled, use EnableLazyRebalancing() first")
  | CSearch name => (ix, Found (match stackOf ix name with id :: _ => Some (id ++ zeros 1) | [] => None end))
  | CHasKey name => (ix, Known (match stackOf ix name with _ :: _ => true | [] => false end))
  | CEnableLazy config _ => (mkIndex (stacks ix) (count ix) (Enabled config), Done)
  | CDisableLazy _ => (mkIndex (stacks ix) (count ix) false, Done)
  | CRebalance _ => (ix, Done)
  end.

(** The calls on the tree; one that fails leaves the tree as it was. *)
Definition settle (bt : WritableBTreeV2) (m : outcome WritableBTreeV2) : WritableBTreeV2 * answer :=
  match m with Ret bt' => (bt', Done) | Err e => (bt, Failed e) | Panic => (bt, Crashed) end.

Definition settle_answer {A} (bt : WritableBTreeV2) (f : A -> answer) (m : outcome A) : WritableBTreeV2 * answer :=
  (bt, match m with Ret a => f a | Err e => Failed e | Panic => Crashed end).

Definition run_call (bt : WritableBTreeV2) (c : call) : WritableBTreeV2 * answer :=
  match c with
  | CInsert name id => settle bt (InsertRecord bt name id)
  | CUpdate name id => settle bt (UpdateRecord bt name id)
  | CDelete name => settle bt (DeleteRecord bt name)
  | CDeleteLazy name now => settle bt (DeleteRecordLazy bt name now)
  | CSearch name => settle_answer bt Found (SearchRecord bt name)
  | CHasKey name => settle_answer bt Known (HasKey bt name)
  | CEnableLazy config now => (EnableLazyRebalancing bt config now, Done)
  | CDisableLazy now => settle bt (DisableLazyRebalancing bt now)
  | CRebalance now => settle bt (BatchRebalance bt now)
  end.

(** A run of calls and its answers. *)
Fixpoint run_calls {S} (step : S -> call -> S * answer) (s : S) (cs : list call) : S * list answer :=
  match cs with
  | [] => (s, [])
  | c :: cs => let '(s, a) := step s c in let '(s, l) := run_calls step s cs in (s, a :: l)
  end.

(** The tree holds the abstract index. *)
Record holds (capacity : Z) (bt : WritableBTreeV2) (ix : index) : Prop := {
  ho_tree : tree_ok bt;
  ho_capacity : calculateMaxRecords bt = capacity;
  ho_stacks : forall h, idsOf (records bt) h = default [] (stacks ix !! h);
  ho_count : len (records bt) = count ix;
  ho_lazy : lazyEnabled (lazyState bt) = lazyOn ix }.

Definition emptyIndex : index := mkIndex ∅ 0 false.

Lemma same_shape_capacity bt bt' : same_shape bt bt' -> calculateMaxRecords bt' = calculateMaxRecords bt.
Proof. intros (E & _). unfold calculateMaxRecords. by rewrite E. Qed.

(** Storing a new stack under one hash. *)
Lemma holds_set capacity bt bt' ix name s d :
  holds capacity bt ix -> tree_ok bt' -> same_shape bt bt' -> lazyEnabled (lazyState bt') = lazyOn ix ->
  len (records bt') = len (records bt) + d ->
  (forall h, idsOf (records bt') h = if decide (h = hashOf name) then s else idsOf (records bt) h) ->
  holds capacity bt' (set_stack ix name s d).
Proof.
  intros [H1 H2 H3 H4 H5] Hok Hs Hl Hn Hi. constructor; [done|by rewrite (same_shape_capacity _ _ Hs)| |cbn; lia|done].
  intros h. rewrite Hi. cbn [set_stack stacks]. case_decide as Hd; [by rewrite Hd, lookup_insert_eq|].
  by rewrite lookup_insert_ne.
Qed.

Lemma stack_ids capacity bt ix name : holds capacity bt ix -> idsOf (records bt) (hashOf name) = stackOf ix name.
Proof. intros H. apply ho_stacks with (1 := H). Qed.

Lemma idsOf_length bt h x l : tree_ok bt -> idsOf (records bt) h = x :: l -> length x = 7%nat.
Proof.
  intros Hok E. pose proof (to_records _ Hok) as Hr.
  assert (x ∈ idsOf (records bt) h) as Hx by (rewrite E; left).
  unfold idsOf in Hx. apply list_elem_of_fmap in Hx as (r & -> & [_ Hin]%list_elem_of_filter).
  rewrite Forall_forall in Hr. by apply Hr.
Qed.

Lemma SearchRecord_eq bt name : tree_ok bt ->
  SearchRecord bt name = Ret (match idsOf (records bt) (hashOf name) with id :: _ => Some (id ++ zeros 1) | [] => None end).
Proof.
  intros Hok. unfold SearchRecord. rewrite jenkinsHash_eq. cbn [obind]. f_equal.
  destruct (findRecord (records bt) (hashOf name)) as [[i r]|] eqn:E.
  - destruct (findRecord_ids _ _ _ _ E) as (l & k & Hr & _ & _ & _ & _ & Hh).
    destruct (idsOf _ _) as [|x rest] eqn:Ei; [done|]. injection Hh as ->.
    pose proof (idsOf_length _ _ _ _ Hok Ei) as Hl. f_equal. rewrite take_app, take_ge by lia. by rewrite Hl.
  - by rewrite (findRecord_none _ _ E).
Qed.

Lemma HasKey_eq bt name :
  HasKey bt name = Ret (match idsOf (records bt) (hashOf name) with _ :: _ => true | [] => false end).
Proof.
  unfold HasKey. rewrite jenkinsHash_eq. cbn [obind]. f_equal.
  destruct (findRecord (records bt) (hashOf name)) as [[i r]|] eqn:E.
  - destruct (findRecord_ids _ _ _ _ E) as (l & k & _ & _ & _ & _ & _ & Hh). by destruct (idsOf _ _).
  - by rewrite (findRecord_none _ _ E).
Qed.

Lemma holds_lazy capacity bt ix ls b :
  holds capacity bt ix -> lazyEnabled ls = b -> holds capacity (with_lazy bt ls) (mkIndex (stacks ix) (count ix) b).
Proof. intros [H1 H2 H3 H4 H5] Hb. constructor; [by apply with_lazy_ok|done..]. Qed.

(** One call keeps the tree and the index together. *)
Lemma tree_call_refines capacity bt ix c : holds capacity bt ix ->
  (run_call bt c).2 = (spec_call capacity ix c).2 /\ holds capacity (run_call bt c).1 (spec_call capacity ix c).1.
Proof.
  intros H. pose proof (ho_tree _ _ _ H) as Hok. pose proof (ho_lazy _ _ _ H) as Hlz.
  destruct c as [name id|name id|name|name now|name|name|config now|now|now]; cbn [run_call spec_call].
  - rewrite <- (ho_count _ _ _ H), <- (ho_capacity _ _ _ H), <- (stack_ids _ _ _ name H).
    destruct (InsertRecord_cases bt name id Hok) as [(Hl & bt' & -> & Hb & Hs & El & Hn & Hi)|(Hl & ->)]; ztest; cbn [settle fst snd].
    + split; [done|]. rewrite (ho_capacity _ _ _ H). apply (holds_set _ bt); [done..|by rewrite El|lia|]. intros h. rewrite Hi.
      by case_decide as Hd; [rewrite Hd|].
    + split; [done|]. by rewrite (ho_capacity _ _ _ H).
  - rewrite <- (stack_ids _ _ _ name H).
    destruct (UpdateRecord_cases bt name id Hok) as [(Hne & bt' & -> & Hb & Hs & El & Hn & Hi)|(-> & ->)]; [|done].
    destruct (idsOf (records bt) (hashOf name)) as [|x rest] eqn:Ei; [done|]. cbn [settle fst snd]. split; [done|].
    apply (holds_set _ bt); [done..|by rewrite El|lia|]. intros h. rewrite Hi. by case_decide as Hd; [rewrite Hd, Ei|].
  - rewrite <- (stack_ids _ _ _ name H).
    destruct (DeleteRecord_cases bt name Hok) as [(Hne & bt' & -> & (Hb & Hs & Hn & Hi) & El)|(-> & ->)]; [|done].
    destruct (idsOf (records bt) (hashOf name)) as [|x rest] eqn:Ei; [done|]. cbn [settle fst snd]. split; [done|].
    apply (holds_set _ bt); [done..|by rewrite El|lia|]. intros h. rewrite Hi. by case_decide as Hd; [rewrite Hd, Ei|].
  - pose proof (DeleteRecordLazy_cases bt name now Hok) as Hc. change (IsLazyRebalancingEnabled bt) with (lazyEnabled (lazyState bt)) in Hc.
    rewrite Hlz in Hc. destruct (lazyOn ix) eqn:Eon; [|by rewrite Hc]. rewrite <- (stack_ids _ _ _ name H).
    destruct Hc as [(Hne & bt' & -> & (Hb & Hs & Hn & Hi) & El)|(-> & ->)]; [|done].
    destruct (idsOf (records bt) (hashOf name)) as [|x rest] eqn:Ei; [done|]. cbn [settle fst snd]. split; [done|].
    apply (holds_set _ bt); [done..|by rewrite El, Eon|lia|]. intros h. rewrite Hi. by case_decide as Hd; [rewrite Hd, Ei|].
  - rewrite SearchRecord_eq by done. by rewrite (stack_ids _ _ _ name H).
  - rewrite HasKey_eq. by rewrite (stack_ids _ _ _ name H).
  - split; [done|]. by apply holds_lazy.
  - unfold DisableLazyRebalancing, BatchRebalance. destruct (lazyState bt) as [ls|] eqn:El; cbn [obind settle fst snd].
    + split; [done|]. by apply (holds_lazy _ bt).
    + split; [done|]. destruct H as [H1 H2 H3 H4 H5]. constructor; [done..|by rewrite El].
  - unfold BatchRebalance. destruct (lazyState bt) as [ls|] eqn:El; cbn [settle fst snd]; [|done]. split; [done|].
    destruct ix as [m n b]. by apply (holds_lazy _ bt (mkIndex m n b) _ b).
Qed.

Lemma tree_calls_refine capacity cs : forall bt ix, holds capacity bt ix ->
  (run_calls run_call bt cs).2 = (run_calls (spec_call capacity) ix cs).2 /\
  holds capacity (run_calls run_call bt cs).1 (run_calls (spec_call capacity) ix cs).1.
Proof.
  induction cs as [|c cs IH]; intros bt ix H; cbn [run_calls]; [done|].
  destruct (tree_call_refines capacity bt ix c H) as [Ea Hh].
  destruct (run_call bt c) as [bt' a], (spec_call capacity ix c) as [ix' b]. cbn [fst snd] in *. subst b.
  destruct (IH bt' ix' Hh) as [El Hh']. destruct (run_calls run_call bt' cs), (run_calls (spec_call capacity) ix' cs).
  cbn [fst snd] in *. by subst.
Qed.

Lemma tree_New_holds n : holds (calculateMaxRecords (NewWritableBTreeV2 n)) (NewWritableBTreeV2 n) emptyIndex.
Proof. constructor; [apply New_ok|done..]. Qed.

(** ** Layout *)

Definition headerBody (h : BTreeV2Header) (sb : Superblock) : bytes :=
  HeaderSignature h ++ [z2b (HeaderVersion h)] ++ [z2b (HeaderType h)] ++ le_put 4 (NodeSize h) ++
  le_put 2 (RecordSize h) ++ le_put 2 (Depth h) ++ [z2b (SplitPercent h)] ++ [z2b (MergePercent h)] ++
  put_order (Endianness sb) (Z.to_nat (OffsetSize sb)) (RootNodeAddr h) ++
  le_put 2 (NumRecordsRoot h) ++ le_put 8 (TotalRecords h).

Definition recordBytes (r : LinkNameRecord) : bytes := le_put 4 (NameHash r) ++ RecordHeapID r.

Definition leafBody (l : BTreeV2LeafNode) : bytes :=
  LeafSignature l ++ [z2b (LeafVersion l)] ++ [z2b (LeafType l)] ++ concat (map recordBytes (Records l)).

(** A superblock whose addresses the B-tree code can store. *)
Definition sb_plain (sb : Superblock) : Prop := plainSize (OffsetSize sb) = true.

Lemma sb_plain_range sb : sb_plain sb -> 1 <= OffsetSize sb <= 8.
Proof. unfold sb_plain, plainSize. intros H. repeat (apply orb_true_iff in H as [H|H]); lia. Qed.

#[local] Hint Rewrite len_put_order : len.

Lemma len_headerBody h sb : length (HeaderSignature h) = 4%nat -> sb_plain sb -> len (headerBody h sb) = 26 + OffsetSize sb.
Proof.
  intros Hs Hp%sb_plain_range. unfold headerBody. autorewrite with len. change (len (@nil byte)) with 0.
  unfold len. rewrite Hs. lia.
Qed.

#[local] Opaque JenkinsChecksum.

Lemma encodeHeader_ret h sb : length (HeaderSignature h) = 4%nat -> sb_plain sb ->
  encodeHeader h sb = Ret (summed (headerBody h sb)).
Proof.
  intros Hs Hp. pose proof (sb_plain_range sb Hp) as Hr. unfold encodeHeader, calculateHeaderSize. cbv zeta.
  assert (Hsl : len (HeaderSignature h) = 4) by (unfold len; lia).
  change (zeros (16 + OffsetSize sb + 14)) with ([] ++ zeros (16 + OffsetSize sb + 14)).
  rewrite putFields_ret; cycle 1.
  { cbn [contiguous]. rewrite Hsl. autorewrite with len. split_and!; done. }
  { cbn [map snd concat]. autorewrite with len. change (len (@nil byte)) with 0. lia. }
  cbn [obind map snd concat app]. set (pre := HeaderSignature h ++ _).
  assert (Hpre : len pre = 16) by (subst pre; autorewrite with len; change (len (@nil byte)) with 0; lia).
  assert (Epre : headerBody h sb = pre ++ put_order (Endianness sb) (Z.to_nat (OffsetSize sb)) (RootNodeAddr h) ++
    le_put 2 (NumRecordsRoot h) ++ le_put 8 (TotalRecords h)) by (subst pre; unfold headerBody; rewrite <- !app_assoc; done).
  clearbody pre. unfold writeUint64. rewrite Hp. rewrite Hpre.
  rewrite put_bytes_cursor by (rewrite ?len_put_order; lia). cbn [obind].
  rewrite put_le_cursor by (rewrite ?len_app, ?len_put_order; lia). cbn [obind].
  rewrite put_le_cursor by (rewrite ?len_app, ?len_put_order, ?len_le_put; lia). cbn [obind].
  rewrite <- !app_assoc, len_put_order. rewrite !(app_assoc _ _ (zeros _)), <- Epre.
  replace (16 + OffsetSize sb + 14 - 16 - _ - _ - _) with 4 by lia.
  replace (16 + OffsetSize sb + 10) with (len (headerBody h sb)) by (rewrite len_headerBody by done; lia).
  apply put_summed.
Qed.

Lemma len_recordBytes r : record_ok r -> len (recordBytes r) = 11.
Proof. intros [_ H]. unfold recordBytes. rewrite len_app, len_le_put. unfold len. lia. Qed.

Lemma len_recordsBytes rs : Forall record_ok rs -> len (concat (map recordBytes rs)) = len rs * 11.
Proof.
  induction 1 as [|r rs Hr _ IH]; [done|]. cbn [map concat]. rewrite len_app, len_cons, IH, len_recordBytes by done. lia.
Qed.

Lemma len_leafBody l : length (LeafSignature l) = 4%nat -> Forall record_ok (Records l) ->
  len (leafBody l) = 6 + len (Records l) * 11.
Proof.
  intros Hs Hr. unfold leafBody. rewrite !len_app, len_recordsBytes by done. unfold len at 1. rewrite Hs.
  rewrite !len_cons. change (len (@nil byte)) with 0. lia.
Qed.

Lemma putRecords_ret rs : forall pre k off, Forall record_ok rs -> off = len pre -> len rs * 11 <= k ->
  for_each rs putRecord (pre ++ zeros k, off) =
    Ret ((pre ++ concat (map recordBytes rs)) ++ zeros (k - len rs * 11), off + len rs * 11).
Proof.
  induction rs as [|r rs IH]; intros pre k off Hr Hoff Hk; cbn [for_each map concat].
  - change (len (@nil LinkNameRecord)) with 0. rewrite Z.sub_0_r, Z.add_0_r, app_nil_r. done.
  - apply Forall_cons in Hr as [Hr Hrs]. rewrite len_cons in *. pose proof (len_nonneg rs). pose proof Hr as [_ Hl].
    unfold putRecord at 1. rewrite put_le_cursor by (done || lia). cbn [obind].
    assert (len (RecordHeapID r) = 7) by (unfold len; lia).
    rewrite put_bytes_cursor by (rewrite ?len_app, ?len_le_put; lia). cbn [obind].
    rewrite IH; [|done|rewrite !len_app, len_le_put; lia|lia].
    f_equal. f_equal; [|lia]. unfold recordBytes. rewrite <- !app_assoc. do 4 f_equal. f_equal. lia.
Qed.

Lemma encodeLeafNode_ret bt : length (LeafSignature (leaf bt)) = 4%nat -> Forall record_ok (Records (leaf bt)) ->
  encodeLeafNode bt = Ret (summed (leafBody (leaf bt))).
Proof.
  intros Hs Hr. unfold encodeLeafNode, calculateLeafSize. cbv zeta. pose proof (len_nonneg (Records (leaf bt))).
  assert (Hsl : len (LeafSignature (leaf bt)) = 4) by (unfold len; lia).
  match goal with |- context [zeros ?n] => set (size := n); change (zeros size) with ([] ++ zeros size) end.
  rewrite putFields_ret; cycle 1.
  { cbn [contiguous]. rewrite Hsl. autorewrite with len. split_and!; done. }
  { cbn [map snd concat]. autorewrite with len. change (len (@nil byte)) with 0. subst size. lia. }
  cbn [obind map snd concat app]. set (pre := LeafSignature (leaf bt) ++ _).
  assert (Hpre : len pre = 6) by (subst pre; autorewrite with len; change (len (@nil byte)) with 0; lia).
  rewrite putRecords_ret by (done || (subst size; lia)). cbn [obind].
  assert (Epre : pre ++ concat (map recordBytes (Records (leaf bt))) = leafBody (leaf bt)).
  { subst pre. unfold leafBody. rewrite <- !app_assoc. done. }
  rewrite Hpre, Epre. replace (size - 6 - len (Records (leaf bt)) * 11) with 4 by (subst size; lia).
  replace (6 + len (Records (leaf bt)) * 11) with (len (leafBody (leaf bt))) by (by rewrite len_leafBody).
  apply put_summed.
Qed.

(** ** Reading back *)

Record header_ok (h : BTreeV2Header) (sb : Superblock) : Prop := {
  hd_sig : HeaderSignature h = BTreeV2HeaderSignature;
  hd_version : HeaderVersion h = 0;
  hd_type : is_u 8 (HeaderType h);
  hd_node : is_u 32 (NodeSize h);
  hd_rec : is_u 16 (RecordSize h);
  hd_depth : is_u 16 (Depth h);
  hd_split : is_u 8 (SplitPercent h);
  hd_merge : is_u 8 (MergePercent h);
  hd_root : 0 <= RootNodeAddr h < 256 ^ OffsetSize sb;
  hd_num : is_u 16 (NumRecordsRoot h);
  hd_total : is_u 64 (TotalRecords h) }.

Lemma get_order_put o n v : 0 <= v < 256 ^ Z.of_nat n -> get_order o (put_order o n v) = v.
Proof. intros. rewrite get_put_order. by apply Z.mod_small. Qed.

Lemma readBTreeV2Header_ret f a h sb : sb_plain sb -> header_ok h sb -> 0 <= a < 2 ^ 63 ->
  stored f a (summed (headerBody h sb)) -> readBTreeV2Header f a sb = Ret h.
Proof.
  intros Hp [] Ha Hst. pose proof (sb_plain_range sb Hp) as Hr. unfold readBTreeV2Header. cbv zeta. rewrite i64_id by lia.
  assert (Hl : len (headerBody h sb) = 26 + OffsetSize sb) by (apply len_headerBody; [by rewrite hd_sig0|done]).
  unfold stored in Hst. rewrite len_summed, Hl in Hst. replace (16 + OffsetSize sb + 14) with (26 + OffsetSize sb + 4) by lia.
  rewrite Hst. cbn [obind]. destruct (summed_ret (headerBody h sb)) as (c & Hc & Ec & Es). clear Hst.
  set (addr := put_order (Endianness sb) (Z.to_nat (OffsetSize sb)) (RootNodeAddr h)).
  assert (Hla : len addr = OffsetSize sb) by (subst addr; rewrite len_put_order; lia).
  set (p16 := HeaderSignature h ++ [z2b (HeaderVersion h)] ++ [z2b (HeaderType h)] ++ le_put 4 (NodeSize h) ++
    le_put 2 (RecordSize h) ++ le_put 2 (Depth h) ++ [z2b (SplitPercent h)] ++ [z2b (MergePercent h)]).
  assert (H16 : len p16 = 16) by (subst p16; rewrite hd_sig0; done).
  set (buf := summed (headerBody h sb)) in *.
  assert (Eb : buf = p16 ++ addr ++ le_put 2 (NumRecordsRoot h) ++ le_put 8 (TotalRecords h) ++ le_put 4 c).
  { rewrite Es. unfold headerBody. subst p16 addr. rewrite <- !app_assoc. done. }
  set (tail := addr ++ le_put 2 (NumRecordsRoot h) ++ le_put 8 (TotalRecords h) ++ le_put 4 c) in *.
  assert (E0 : slice buf 0 4 = Ret (HeaderSignature h)).
  { eapply (slice_at _ [] (HeaderSignature h)); [rewrite Eb; subst p16; rewrite <- !app_assoc; reflexivity|done|by rewrite hd_sig0]. }
  assert (E4 : idx buf 4 = Ret (z2b (HeaderVersion h))) by (rewrite Eb; subst p16; rewrite hd_sig0; reflexivity).
  assert (E5 : idx buf 5 = Ret (z2b (HeaderType h))) by (rewrite Eb; subst p16; rewrite hd_sig0; reflexivity).
  assert (E14 : idx buf 14 = Ret (z2b (SplitPercent h))) by (rewrite Eb; subst p16; rewrite hd_sig0; reflexivity).
  assert (E15 : idx buf 15 = Ret (z2b (MergePercent h))) by (rewrite Eb; subst p16; rewrite hd_sig0; reflexivity).
  assert (E6 : get_le 4 buf 6 = Ret (NodeSize h)).
  { eapply (get_le_at 4 _ (HeaderSignature h ++ [z2b (HeaderVersion h)] ++ [z2b (HeaderType h)])); [|by rewrite hd_sig0|done].
    rewrite Eb. subst p16. rewrite <- !app_assoc. reflexivity. }
  assert (E10 : get_le 2 buf 10 = Ret (RecordSize h)).
  { eapply (get_le_at 2 _ (HeaderSignature h ++ [z2b (HeaderVersion h)] ++ [z2b (HeaderType h)] ++ le_put 4 (NodeSize h)));
      [|by rewrite hd_sig0|done]. rewrite Eb. subst p16. rewrite <- !app_assoc. reflexivity. }
  assert (E12 : get_le 2 buf 12 = Ret (Depth h)).
  { eapply (get_le_at 2 _ (HeaderSignature h ++ [z2b (HeaderVersion h)] ++ [z2b (HeaderType h)] ++ le_put 4 (NodeSize h) ++
      le_put 2 (RecordSize h))); [|by rewrite hd_sig0|done]. rewrite Eb. subst p16. rewrite <- !app_assoc. reflexivity. }
  assert (EW : slice buf 16 (16 + OffsetSize sb) = Ret addr).
  { eapply (slice_at _ p16 addr); [by rewrite Eb|lia|lia]. }
  assert (EN : get_le 2 buf (16 + OffsetSize sb) = Ret (NumRecordsRoot h)).
  { eapply (get_le_at 2 _ (p16 ++ addr)); [rewrite Eb; subst tail; by rewrite <- !app_assoc|rewrite len_app; lia|done]. }
  assert (ET : get_le 8 buf (16 + OffsetSize sb + 2) = Ret (TotalRecords h)).
  { eapply (get_le_at 8 _ (p16 ++ addr ++ le_put 2 (NumRecordsRoot h)));
      [rewrite Eb; subst tail; by rewrite <- !app_assoc|rewrite !len_app, len_le_put; lia|done]. }
  assert (EC : get_le 4 buf (16 + OffsetSize sb + 10) = Ret c).
  { eapply (get_le_at 4 _ (headerBody h sb) c []); [by rewrite app_nil_r|lia|done]. }
  assert (ES : slice buf 0 (16 + OffsetSize sb + 10) = Ret (headerBody h sb)).
  { eapply (slice_at _ [] (headerBody h sb) (le_put 4 c)); [done|done|lia]. }
  clearbody buf p16 tail. rewrite E0. cbn [obind]. rewrite bool_decide_true by done.
  rewrite E4. cbn [obind]. rewrite hd_version0. change (b2z (z2b 0) =? 0) with true. cbn iota.
  rewrite E5, E6, E10, E12, E14, E15, EW. cbn [obind]. unfold readUint64. rewrite Hp.
  rewrite (slice_at addr [] addr []) by (by rewrite ?app_nil_r). cbn [obind].
  rewrite EN. cbn [obind]. rewrite ET. cbn [obind]. rewrite EC. cbn [obind]. rewrite ES. cbn [obind]. rewrite Ec. cbn [obind].
  rewrite Z.eqb_refl. subst addr. rewrite get_order_put by (rewrite Z2Nat.id by lia; done).
  rewrite !b2z_z2b_small by done. destruct h; cbn in *. by subst.
Qed.

Lemma readRecords_ret rs : forall pre post acc i, Forall record_ok rs ->
  for_loop (length rs) i (readRecord (pre ++ concat (map recordBytes rs) ++ post)) (len pre, acc) =
    Ret (len pre + len rs * 11, acc ++ rs).
Proof.
  induction rs as [|r rs IH]; intros pre post acc i Hr; cbn [length for_loop].
  - change (len (@nil LinkNameRecord)) with 0. by rewrite Z.add_0_r, app_nil_r.
  - apply Forall_cons in Hr as [Hr Hrs]. pose proof Hr as [Hh Hl]. cbn [map concat].
    assert (Hl7 : len (RecordHeapID r) = 7) by (unfold len; lia).
    pose proof (IH (pre ++ recordBytes r) post (acc ++ [r]) (i + 1) Hrs) as IHr.
    rewrite len_app, len_recordBytes in IHr by done. set (k := concat (map recordBytes rs)) in *.
    unfold recordBytes in *. rewrite <- !app_assoc in *. unfold readRecord at 1.
    rewrite get_le_app by done. cbn [obind].
    rewrite (slice_at _ (pre ++ le_put 4 (NameHash r)) (RecordHeapID r) (k ++ post));
      [|by rewrite <- !app_assoc|rewrite len_app, len_le_put; lia|lia]. cbn [obind].
    replace (mkRecord (NameHash r) (RecordHeapID r)) with r by (by destruct r). rewrite IHr. rewrite len_cons.
    f_equal. f_equal. lia.
Qed.

Lemma readBTreeV2LeafNode_ret f a rs n (l := mkLeaf BTreeV2LeafSignature 0 BTreeV2TypeLinkNameIndex rs) :
  Forall record_ok rs -> n = len rs -> 0 <= a < 2 ^ 63 -> stored f a (summed (leafBody l)) ->
  readBTreeV2LeafNode f a n = Ret (l, rs).
Proof.
  intros Hr -> Ha Hst. unfold readBTreeV2LeafNode. cbv zeta. rewrite i64_id by lia.
  assert (Hl : len (leafBody l) = 6 + len rs * 11) by by apply len_leafBody.
  unfold stored in Hst. rewrite len_summed, Hl in Hst. rewrite Hst. cbn [obind]. clear Hst.
  destruct (summed_ret (leafBody l)) as (c & Hc & Ec & Es). rewrite Es.
  assert (Eb : leafBody l = (BTreeV2LeafSignature ++ [z2b 0] ++ [z2b 5]) ++ concat (map recordBytes rs)).
  { unfold leafBody. rewrite <- !app_assoc. done. }
  rewrite (slice_at _ [] BTreeV2LeafSignature ([z2b 0] ++ [z2b 5] ++ concat (map recordBytes rs) ++ le_put 4 c));
    [|rewrite Eb, <- !app_assoc; done|done|done]. cbn [obind]. rewrite bool_decide_true by done.
  assert (E4 : idx (leafBody l ++ le_put 4 c) 4 = Ret (z2b 0)) by (rewrite Eb; reflexivity).
  assert (E5 : idx (leafBody l ++ le_put 4 c) 5 = Ret (z2b 5)) by (rewrite Eb; reflexivity).
  rewrite E4. cbn [obind]. change (b2z (z2b 0) =? 0) with true. cbn iota. rewrite E5. cbn [obind].
  replace (Z.to_nat (len rs)) with (length rs) by (unfold len; lia).
  pose proof (readRecords_ret rs (BTreeV2LeafSignature ++ [z2b 0] ++ [z2b 5]) (le_put 4 c) [] 0 Hr) as Er.
  rewrite app_assoc, <- Eb in Er. change (len (BTreeV2LeafSignature ++ [z2b 0] ++ [z2b 5])) with 6 in Er.
  rewrite Er. cbn [obind app]. rewrite <- Hl.
  rewrite (get_le_at 4 _ (leafBody l) c []) by (rewrite ?app_nil_r; done). cbn [obind].
  rewrite (slice_at _ [] (leafBody l) (le_put 4 c)) by done. cbn [obind]. rewrite Ec. cbn [obind]. by rewrite Z.eqb_refl.
Qed.

(** ** Trees in a file *)

(** The tree [bt] is stored with its header at [addr]. *)
Record tree_at (f : bytes) (addr : Z) (sb : Superblock) (bt : WritableBTreeV2) : Prop := {
  ta_header : stored f addr (summed (headerBody (header bt) sb));
  ta_leaf : stored f (RootNodeAddr (header bt)) (summed (leafBody (leaf bt)));
  ta_addr : 0 <= addr < 2 ^ 63;
  ta_root : 0 <= RootNodeAddr (header bt) < 2 ^ 63 }.

(** The tree as [LoadFromFile] leaves it. *)
Definition loaded (bt bt0 : WritableBTreeV2) (addr : Z) : WritableBTreeV2 :=
  mkBTree (header bt) (leaf bt) (records bt) (nodeSize bt) addr (RootNodeAddr (header bt)) (lazyState bt0).

Lemma loaded_ok bt bt0 addr : tree_ok bt -> tree_ok (loaded bt bt0 addr).
Proof. intros [E1 E2 E3 E4 E5]. by constructor. Qed.

Lemma header_fits bt sb : tree_ok bt -> OffsetSize sb = 8 -> is_u 32 (nodeSize bt) ->
  is_u 64 (RootNodeAddr (header bt)) -> header_ok (header bt) sb.
Proof.
  intros Hok Ho Hn Hr. pose proof (to_header _ Hok) as E. revert Hr. rewrite E. intros Hr.
  constructor; cbn; try done; [rewrite Ho; exact Hr|apply u16_range|apply u64_range].
Qed.

Lemma max_records bt : 10 <= nodeSize bt < 2 ^ 32 ->
  0 <= calculateMaxRecords bt /\ 10 + 11 * calculateMaxRecords bt <= nodeSize bt.
Proof.
  intros H. unfold calculateMaxRecords. rewrite u32_id by (unfold is_u; lia).
  split; [apply Z.div_pos; lia|]. pose proof (Z.mul_div_le (nodeSize bt - 10) 11). lia.
Qed.

Lemma tree_LoadFromFile_ret f addr sb bt bt0 :
  tree_at f addr sb bt -> tree_ok bt -> OffsetSize sb = 8 -> is_u 32 (nodeSize bt) -> is_u 16 (len (records bt)) ->
  LoadFromFile bt0 f addr sb = Ret (loaded bt bt0 addr).
Proof.
  intros [Hh Hl Ha Hr] Hok Ho Hn Hc. unfold LoadFromFile.
  rewrite (readBTreeV2Header_ret f addr (header bt) sb); [|unfold sb_plain; by rewrite Ho| |lia|exact Hh].
  2: { apply header_fits; [done..|unfold is_u; lia]. }
  cbn [obind]. pose proof (to_header _ Hok) as E. pose proof (to_leaf _ Hok) as El.
  assert ((HeaderType (header bt) =? BTreeV2TypeLinkNameIndex) = true) as -> by by rewrite E.
  assert ((Depth (header bt) =? 0) = true) as -> by by rewrite E.
  assert (NumRecordsRoot (header bt) = len (records bt)) as -> by (rewrite E; by apply u16_id).
  assert (NodeSize (header bt) = nodeSize bt) as -> by by rewrite E.
  destruct (Z.gtb_spec (len (records bt)) 0) as [Hp|Hz].
  - rewrite El in Hl. rewrite (readBTreeV2LeafNode_ret f _ (records bt)); [|by apply to_records|done|done|exact Hl].
    cbn [obind]. unfold loaded. by rewrite El.
  - assert (records bt = []) as Enil by (apply len_0_nil; pose proof (len_nonneg (records bt)); lia).
    unfold loaded, emptyLeaf. by rewrite El, Enil.
Qed.

Lemma with_root_ok bt a : tree_ok bt -> tree_ok (with_root bt a).
Proof. intros [E1 E2 E3 E4 E5]. constructor; try done. cbn. by rewrite E5. Qed.

Section storing.
Context `{SL : StorageLaws St}.
Hypothesis Hfirst : 0 <= first_address.

(** A block is allocated and its front written. *)
Lemma tree_allocate_write st n size data : usable st n -> 0 < size <= n -> 0 < len data <= size ->
  exists a st1 st2, allocate st size = Ret (a, st1) /\ write_to st1 data a = Ret st2 /\ usable st2 (n - size) /\
    owned st2 = owned st ++ [mkBlock a size] /\ Forall (disjoint_blocks (mkBlock a size)) (owned st) /\
    first_address <= a /\ a + size < 2 ^ 63 /\ stored (contents st2) a data /\
    preserves (contents st) (contents st2) (owned st).
Proof.
  intros Hu Hs Hd. destruct (allocate_law st n size Hu Hs) as (a & st1 & Ea & Hu1 & Ec & Eo & Hdis).
  assert (mkBlock a size ∈ owned st1) as Hin by (rewrite Eo; set_solver).
  pose proof (owned_range _ _ _ Hu1 Hin) as (H1 & H2 & H3). pose proof (owned_from _ _ _ Hu1 Hin) as H4.
  unfold bend in H3. cbn [Offset Size] in *.
  destruct (write_law st1 (n - size) data a Hu1 ltac:(lia) ltac:(lia)) as (st2 & Ew & Hu2 & Eo2 & Ec2).
  exists a, st1, st2. split_and!; [done..|by rewrite Eo2|done|done|done| |].
  - rewrite Ec2. apply stored_write. lia.
  - rewrite Ec2, Ec. apply (write_preserves _ (mkBlock a size)); [lia|cbn; lia|unfold bend; cbn; lia|done].
Qed.

Lemma len_leaf_summed bt : tree_ok bt -> len (summed (leafBody (leaf bt))) = 10 + 11 * len (records bt).
Proof.
  intros Hok. rewrite (to_leaf _ Hok), len_summed, len_leafBody; [cbn; lia|done|by apply to_records].
Qed.

Lemma len_header_summed bt sb : tree_ok bt -> OffsetSize sb = 8 -> len (summed (headerBody (header bt) sb)) = 38.
Proof.
  intros Hok Ho. rewrite len_summed, len_headerBody; [lia|by rewrite (to_header _ Hok)|unfold sb_plain; by rewrite Ho].
Qed.

Lemma encode_tree bt sb : tree_ok bt -> OffsetSize sb = 8 ->
  encodeLeafNode bt = Ret (summed (leafBody (leaf bt))) /\ encodeHeader (header bt) sb = Ret (summed (headerBody (header bt) sb)).
Proof.
  intros Hok Ho. split.
  - apply encodeLeafNode_ret; rewrite (to_leaf _ Hok); [done|by apply to_records].
  - apply encodeHeader_ret; [by rewrite (to_header _ Hok)|unfold sb_plain; by rewrite Ho].
Qed.

(** Storing a new tree. *)
Lemma tree_WriteToFile_ok bt st n sb :
  usable st n -> tree_ok bt -> OffsetSize sb = 8 -> 10 <= nodeSize bt < 2 ^ 32 -> nodeSize bt + 38 <= n ->
  exists addr leafAddr st', WriteToFile bt st sb = Ret (addr, with_root bt leafAddr, st') /\
    usable st' (n - nodeSize bt - 38) /\
    owned st' = owned st ++ [mkBlock leafAddr (nodeSize bt); mkBlock addr 38] /\
    first_address <= addr /\ preserves (contents st) (contents st') (owned st) /\
    tree_at (contents st') addr sb (with_root bt leafAddr).
Proof.
  intros Hu Hok Ho Hn Hs. destruct (max_records bt Hn) as [Hm Hfit]. pose proof (to_count _ Hok) as Hc.
  pose proof (len_nonneg (records bt)).
  destruct (tree_allocate_write st n (nodeSize bt) (summed (leafBody (leaf bt))) Hu ltac:(lia))
    as (la & st1 & st2 & Ea & Ew & Hu2 & Eo2 & Hd2 & Hf2 & Hb2 & Hst2 & Hp2); [rewrite len_leaf_summed by done; lia|].
  pose proof (encode_tree bt sb Hok Ho) as [Ee _]. pose proof (with_root_ok bt la Hok) as Hok'.
  pose proof (encode_tree (with_root bt la) sb Hok' Ho) as [_ Eh].
  destruct (tree_allocate_write st2 _ 38 (summed (headerBody (header (with_root bt la)) sb)) Hu2 ltac:(lia))
    as (ha & st3 & st4 & Ea' & Ew' & Hu4 & Eo4 & Hd4 & Hf4 & Hb4 & Hst4 & Hp4); [by rewrite len_header_summed|].
  exists ha, la, st4. unfold WriteToFile, calculateHeaderSize. rewrite Ea. cbn [obind]. rewrite Ee. cbn [obind].
  rewrite Ew. cbn [obind]. rewrite Ho. change (16 + 8 + 14) with 38. rewrite Ea'. cbn [obind]. rewrite Eh. cbn [obind].
  rewrite Ew'. cbn [obind]. split; [done|]. split; [done|]. split; [by rewrite Eo4, Eo2, <- app_assoc|]. split; [done|].
  split; [eapply (preserves_trans _ _ _ (owned st) (owned st2)); [rewrite Eo2; set_solver|done|done]|].
  constructor; [done| |lia|cbn; lia]. change (RootNodeAddr (header (with_root bt la))) with la.
  change (leaf (with_root bt la)) with (leaf bt). apply (Hp4 (mkBlock la (nodeSize bt)) la); [rewrite Eo2; apply elem_of_app; right; left|cbn [Offset]; lia| |exact Hst2].
  unfold bend. cbn [Offset Size]. rewrite len_leaf_summed by done. lia.
Qed.

(** Storing a loaded tree in place: its two blocks are written, everything in
    the other blocks stays. *)
Lemma tree_WriteAt_ok bt st n sb rest :
  usable st n -> tree_ok bt -> OffsetSize sb = 8 -> 10 <= nodeSize bt < 2 ^ 32 -> loadedHeaderAddress bt <> 0 ->
  owned st ≡ₚ mkBlock (loadedLeafAddress bt) (nodeSize bt) :: mkBlock (loadedHeaderAddress bt) 38 :: rest ->
  exists st', WriteAt bt st sb = Ret (with_root bt (loadedLeafAddress bt), st') /\ usable st' n /\ owned st' = owned st /\
    preserves (contents st) (contents st') rest /\
    tree_at (contents st') (loadedHeaderAddress bt) sb (with_root bt (loadedLeafAddress bt)).
Proof.
  intros Hu Hok Ho Hn Hla Hown. destruct (max_records bt Hn) as [Hm Hfit]. pose proof (to_count _ Hok) as Hc.
  pose proof (len_nonneg (records bt)). set (lb := mkBlock (loadedLeafAddress bt) (nodeSize bt)) in *.
  set (hb := mkBlock (loadedHeaderAddress bt) 38) in *.
  pose proof (owned_disjoint _ _ _ _ Hu Hown) as Hd1.
  assert (owned st ≡ₚ hb :: lb :: rest) as Hown' by (rewrite Hown; constructor).
  pose proof (owned_disjoint _ _ _ _ Hu Hown') as Hd2.
  assert (Hinl : lb ∈ owned st) by (rewrite Hown; left). assert (Hinh : hb ∈ owned st) by (rewrite Hown'; left).
  pose proof (owned_range _ _ _ Hu Hinl) as (Hl1 & Hl2 & Hl3). pose proof (owned_range _ _ _ Hu Hinh) as (Hh1 & Hh2 & Hh3).
  unfold bend in Hl3, Hh3. subst lb hb. cbn [Offset Size] in *.
  pose proof (encode_tree bt sb Hok Ho) as [Ee _]. pose proof (with_root_ok bt (loadedLeafAddress bt) Hok) as Hok'.
  pose proof (encode_tree (with_root bt (loadedLeafAddress bt)) sb Hok' Ho) as [_ Eh].
  set (ld := summed (leafBody (leaf bt))) in *. set (hd := summed (headerBody _ sb)) in *.
  assert (Hld : len ld = 10 + 11 * len (records bt)) by by apply len_leaf_summed.
  assert (Hhd : len hd = 38) by by apply len_header_summed.
  destruct (write_law st n ld (loadedLeafAddress bt) Hu ltac:(lia) ltac:(lia)) as (st1 & Ew1 & Hu1 & Eo1 & Ec1).
  destruct (write_law st1 n hd (loadedHeaderAddress bt) Hu1 ltac:(lia) ltac:(lia)) as (st2 & Ew2 & Hu2 & Eo2 & Ec2).
  exists st2. unfold WriteAt. destruct (Z.eqb_spec (loadedHeaderAddress bt) 0); [done|]. cbn [negb].
  rewrite Ee. cbn [obind]. rewrite Ew1. cbn [obind]. rewrite Eh. cbn [obind].
  change (loadedHeaderAddress (with_root bt (loadedLeafAddress bt))) with (loadedHeaderAddress bt). rewrite Ew2. cbn [obind].
  split; [done|]. split; [done|]. split; [congruence|].
  apply Forall_cons in Hd1 as [Hlh Hlr]. apply Forall_cons in Hd2 as [_ Hhr]. split.
  - rewrite Ec2, Ec1. eapply (preserves_trans _ (write_at (contents st) (loadedLeafAddress bt) ld) _ rest rest); [done| |].
    + eapply write_preserves; [lia| | |exact Hlr]; unfold bend; cbn [Offset Size]; lia.
    + eapply write_preserves; [lia| | |exact Hhr]; unfold bend; cbn [Offset Size]; lia.
  - constructor.
    + change (stored (contents st2) (loadedHeaderAddress bt) hd). rewrite Ec2. apply stored_write. lia.
    + change (stored (contents st2) (loadedLeafAddress bt) ld). rewrite Ec2, Ec1.
      apply stored_other; [lia| |apply stored_write; lia]. unfold disjoint_blocks, bend in *. cbn [Offset Size] in *. lia.
    + lia.
    + cbn [with_root header RootNodeAddr]. lia.
Qed.
End storing.

(** ** Properties *)

(** C13. The name index does what the abstract index says: whatever calls are made
    on a new tree, each answer is the one of a map from name hashes to stacks
    of heap identifiers with room for [calculateMaxRecords] of them (an insert
    pushes, a search reads the top, an update replaces it, a delete pops it,
    lazily or not), a failing call changes nothing, none panics, and the tree
    stays sorted by hash with its two counters equal to the number of its
    records. *)
Theorem name_index_refines size cs
  (bt := NewWritableBTreeV2 size) (capacity := calculateMaxRecords bt) :
  (run_calls run_call bt cs).2 = (run_calls (spec_call capacity) emptyIndex cs).2 /\
  holds capacity (run_calls run_call bt cs).1 (run_calls (spec_call capacity) emptyIndex cs).1.
Proof. apply tree_calls_refine, tree_New_holds. Qed.

(** The calls keep the shape of the tree. *)
Lemma tree_run_call_shape bt c capacity ix : holds capacity bt ix -> same_shape bt (run_call bt c).1.
Proof.
  intros H. pose proof (ho_tree _ _ _ H) as Hok. destruct c as [name id|name id|name|name now|name|name|config now|now|now]; cbn [run_call].
  - destruct (InsertRecord_cases bt name id Hok) as [(_ & bt' & -> & _ & Hs & _)|(_ & ->)]; done.
  - destruct (UpdateRecord_cases bt name id Hok) as [(_ & bt' & -> & _ & Hs & _)|(_ & ->)]; done.
  - destruct (DeleteRecord_cases bt name Hok) as [(_ & bt' & -> & (_ & Hs & _) & _)|(_ & ->)]; done.
  - pose proof (DeleteRecordLazy_cases bt name now Hok) as Hc. destruct (IsLazyRebalancingEnabled bt); [|by rewrite Hc].
    destruct Hc as [(_ & bt' & -> & (_ & Hs & _) & _)|(_ & ->)]; done.
  - done.
  - done.
  - done.
  - unfold DisableLazyRebalancing, BatchRebalance. by destruct (lazyState bt).
  - unfold BatchRebalance. by destruct (lazyState bt).
Qed.

Lemma same_shape_trans a b c : same_shape a b -> same_shape b c -> same_shape a c.
Proof. unfold same_shape. intros (? & ? & ?) (? & ? & ?). split_and!; congruence. Qed.

Lemma run_calls_shape capacity cs : forall bt ix, holds capacity bt ix -> same_shape bt (run_calls run_call bt cs).1.
Proof.
  induction cs as [|c cs IH]; intros bt ix H; cbn [run_calls]; [done|].
  pose proof (tree_run_call_shape bt c capacity ix H) as Hs. destruct (tree_call_refines capacity bt ix c H) as [_ Hh].
  destruct (run_call bt c) as [bt' a]. cbn [fst] in *. specialize (IH bt' _ Hh).
  destruct (run_calls run_call bt' cs). cbn [fst] in *. by eapply same_shape_trans.
Qed.

(** A stored tree that holds an index is read back holding it. *)
Lemma load_holds f addr sb bt bt0 capacity ix :
  tree_at f addr sb bt -> holds capacity bt ix -> OffsetSize sb = 8 -> 10 <= nodeSize bt < 720895 ->
  LoadFromFile bt0 f addr sb = Ret (loaded bt bt0 addr) /\
  holds capacity (loaded bt bt0 addr) (mkIndex (stacks ix) (count ix) (lazyEnabled (lazyState bt0))).
Proof.
  intros Hat [H1 H2 H3 H4 H5] Ho Hn. destruct (max_records bt ltac:(lia)) as [Hm Hf]. pose proof (to_count _ H1).
  pose proof (len_nonneg (records bt)). split.
  - apply tree_LoadFromFile_ret; unfold is_u; (done || lia).
  - constructor; [by apply loaded_ok|done..].
Qed.

(** C14. The name index persists and can be edited in place: for nodes of 10 to
    720894 bytes (the library uses 4096) and 8-byte offsets, after any calls the
    tree is written to new space, a reader of the file gets a tree that answers
    any further calls as the index does, and writing that tree back over the old
    one and loading it again gives the index after both runs of calls;
    everything stored in the blocks owned before is preserved. *)
Theorem name_index_persists {St} `{SL : StorageLaws St} size cs cs' st n sb
  (Hfirst : 0 < first_address) (Hu : usable st n) (Ho : OffsetSize sb = 8)
  (Hn : 10 <= size < 720895) (Hroom : size + 38 <= n)
  (capacity := calculateMaxRecords (NewWritableBTreeV2 size))
  (bt := (run_calls run_call (NewWritableBTreeV2 size) cs).1)
  (ix := (run_calls (spec_call capacity) emptyIndex cs).1)
  (ix1 := mkIndex (stacks ix) (count ix) false) :
  exists addr bt' st1 bt1, WriteToFile bt st sb = Ret (addr, bt', st1) /\
    LoadFromFile (NewWritableBTreeV2 0) (contents st1) addr sb = Ret bt1 /\
    (run_calls run_call bt1 cs').2 = (run_calls (spec_call capacity) ix1 cs').2 /\
    exists bt2 st2 bt3, WriteAt (run_calls run_call bt1 cs').1 st1 sb = Ret (bt2, st2) /\
      preserves (contents st) (contents st2) (owned st) /\
      LoadFromFile (NewWritableBTreeV2 0) (contents st2) addr sb = Ret bt3 /\
      let ix2 := (run_calls (spec_call capacity) ix1 cs').1 in
      holds capacity bt3 (mkIndex (stacks ix2) (count ix2) false).
Proof.
  assert (H0 : 0 <= first_address) by lia.
  assert (Hns0 : nodeSize (NewWritableBTreeV2 size) = size).
  { unfold NewWritableBTreeV2. cbn. by destruct (Z.eqb_spec size 0); [lia|]. }
  destruct (tree_calls_refine capacity cs _ _ (tree_New_holds size)) as [_ Hh]. fold bt ix in Hh.
  pose proof (run_calls_shape capacity cs _ _ (tree_New_holds size)) as (Hns & _). fold bt in Hns. rewrite Hns0 in Hns.
  destruct (tree_WriteToFile_ok H0 bt st n sb Hu (ho_tree _ _ _ Hh) Ho) as (addr & la & st1 & E1 & Hu1 & Eo1 & Ha & Hp1 & Hat1); [lia|lia|].
  rewrite Hns in Hu1, Eo1.
  set (bt' := with_root bt la) in *. assert (Hh' : holds capacity bt' ix).
  { destruct Hh as [H1 H2 H3 H4 H5]. constructor; [by apply with_root_ok|done..]. }
  destruct (load_holds _ addr sb bt' (NewWritableBTreeV2 0) capacity ix Hat1 Hh' Ho) as [E2 Hh2]; [cbn; lia|].
  set (bt1 := loaded bt' (NewWritableBTreeV2 0) addr) in *. exists addr, bt', st1, bt1. split; [done|]. split; [done|].
  destruct (tree_calls_refine capacity cs' bt1 _ Hh2) as [Ea Hh3]. split; [exact Ea|].
  pose proof (run_calls_shape capacity cs' bt1 _ Hh2) as (Hs1 & Hs2 & Hs3).
  change (mkIndex (stacks ix) (count ix) (lazyEnabled (lazyState (NewWritableBTreeV2 0)))) with ix1 in *.
  set (ed := (run_calls run_call bt1 cs').1) in *.
  change (nodeSize bt1) with (nodeSize bt) in Hs1. change (loadedHeaderAddress bt1) with addr in Hs2.
  change (loadedLeafAddress bt1) with la in Hs3.
  destruct (tree_WriteAt_ok ed st1 _ sb (owned st) Hu1 (ho_tree _ _ _ Hh3) Ho) as (st2 & E3 & Hu2 & Eo2 & Hp2 & Hat2);
    [lia|rewrite Hs2; lia| |].
  { rewrite Eo1, Hs1, Hs2, Hs3, Hns. by rewrite Permutation_app_comm. }
  set (bt2 := with_root ed (loadedLeafAddress ed)) in *. rewrite Hs2 in Hat2.
  assert (Hh4 : holds capacity bt2 (run_calls (spec_call capacity) ix1 cs').1).
  { destruct Hh3 as [H1 H2 H3 H4 H5]. constructor; [by apply with_root_ok|done..]. }
  destruct (load_holds _ addr sb bt2 (NewWritableBTreeV2 0) capacity _ Hat2 Hh4 Ho) as [E4 Hh5]; [cbn; lia|].
  exists bt2, st2, (loaded bt2 (NewWritableBTreeV2 0) addr). split; [done|]. split; [by eapply preserves_trans|]. by split.
Qed.

Definition demo_link : bytes := String.list_byte_of_string "link7243".
Definition other_link : bytes := String.list_byte_of_string "link27525".

(** A node of 43 bytes has room for three names. *)
Lemma name_index_persists_witness : exists addr bt' st1 bt1,
  WriteToFile (run_calls run_call (NewWritableBTreeV2 43) [CInsert demo_link 5]).1 (NewFileWriter 48)
    (mkSuperblock 2 8 8 0 48 LittleEndian 0 0 0 0) = Ret (addr, bt', st1) /\
  LoadFromFile (NewWritableBTreeV2 0) (contents st1) addr (mkSuperblock 2 8 8 0 48 LittleEndian 0 0 0 0) = Ret bt1 /\
  (run_calls run_call bt1 [CSearch demo_link; CDelete demo_link; CHasKey demo_link]).2 =
    [Found (Some (le_put 8 5)); Done; Known false].
Proof.
  destruct (@name_index_persists _ _ (FileWriter_laws 48) 43 [CInsert demo_link 5]
    [CSearch demo_link; CDelete demo_link; CHasKey demo_link] (NewFileWriter 48) 8000
    (mkSuperblock 2 8 8 0 48 LittleEndian 0 0 0 0)) as (addr & bt' & st1 & bt1 & E1 & E2 & E3 & _).
  - cbn. lia.
  - apply NewFileWriter_usable; lia.
  - reflexivity.
  - lia.
  - lia.
  - exists addr, bt', st1, bt1. split; [exact E1|]. split; [exact E2|]. rewrite E3. vm_compute. reflexivity.
Defined.

(** The name hash is the lookup3 hash the format prescribes, for every name
    whose length is not a multiple of 12; for the empty name and for names of
    12 bytes it is another function, since the code takes a last full chunk
    through the mix where lookup3 leaves it to the final switch. *)
Theorem jenkinsHash_lookup3 :
  (forall name, len name mod 12 <> 0 -> jenkinsHash name = jenkinsLookup3 name 0) /\
  jenkinsHash [] <> jenkinsLookup3 [] 0 /\
  (forall name, name = String.list_byte_of_string "temperatures" ->
     jenkinsHash name <> jenkinsLookup3 name 0).
Proof.
  split; [apply jenkinsHash_is_lookup3|]. split; [vm_compute; congruence|]. intros name ->. vm_compute. congruence.
Qed.

(** The index keeps hashes only: two names with the same 32-bit hash, such as
    link7243 and link27525, are one name to every call on every tree, so a
    name that was never inserted is found, read with the other's identifier,
    updated and deleted. *)
Theorem hash_collision_confuses :
  demo_link <> other_link /\
  (forall bt, HasKey bt demo_link = HasKey bt other_link /\ SearchRecord bt demo_link = SearchRecord bt other_link /\
     DeleteRecord bt demo_link = DeleteRecord bt other_link /\
     forall id, UpdateRecord bt demo_link id = UpdateRecord bt other_link id) /\
  (run_calls run_call (NewWritableBTreeV2 0)
     [CInsert demo_link 5; CHasKey other_link; CSearch other_link; CDelete other_link; CHasKey demo_link]).2 =
    [Done; Known true; Found (Some (le_put 8 5)); Done; Known false].
Proof.
  assert (jenkinsHash demo_link = jenkinsHash other_link) as E by (vm_compute; reflexivity).
  split; [vm_compute; congruence|]. split; [|vm_compute; reflexivity]. intros bt.
  unfold HasKey, SearchRecord, DeleteRecord, DeleteRecordWithRebalancing, UpdateRecord.
  rewrite E. clear E. split; [reflexivity|split; [reflexivity|split; reflexivity]].
Qed.

(** The moves between sibling leaves lose and reorder nothing: each keeps the
    records of the left leaf followed by those of the right one, and a merge
    is refused exactly where the result would not fit. *)
Theorem leaf_moves_keep_records bt left right :
  (let '(l, r) := redistributeRecords left right in
   Records l ++ Records r = Records left ++ Records right /\ len (Records l) <= len (Records r) <= len (Records l) + 1) /\
  match mergeNodes bt left right with
  | Ret (l, r) => Records l = Records left ++ Records right /\ Records r = [] /\ len (Records l) <= calculateMaxRecords bt
  | Err _ => calculateMaxRecords bt < len (Records left) + len (Records right)
  | Panic => False
  end /\
  match borrowFromLeft right left with
  | Ret (r, l) => Records l ++ Records r = Records left ++ Records right /\ len (Records r) = len (Records right) + 1
  | Err _ => Records left = []
  | Panic => False
  end /\
  match borrowFromRight left right with
  | Ret (l, r) => Records l ++ Records r = Records left ++ Records right /\ len (Records l) = len (Records left) + 1
  | Err _ => Records right = []
  | Panic => False
  end.
Proof.
  split; [|split; [|split]].
  - unfold redistributeRecords. cbn [with_leaf_records Records]. rewrite take_drop. split; [done|].
    set (all := Records left ++ Records right). pose proof (len_nonneg all). rewrite len_take, len_drop.
    Z.to_euclidean_division_equations. lia.
  - unfold mergeNodes. cbv zeta. rewrite len_app. destruct (Z.gtb_spec (len (Records left) + len (Records right)) (calculateMaxRecords bt)); cbn [negb]; [assumption|].
    cbn [with_leaf_records Records]. rewrite len_app. split; [reflexivity|split; [reflexivity|assumption]].
  - unfold borrowFromLeft. destruct (Z.eqb_spec (len (Records left)) 0) as [E|E]; cbn [negb]; [by apply len_0_nil|].
    destruct (Records left) as [|x l _] eqn:El using rev_ind; [done|]. rewrite len_app. change (len [x]) with 1.
    replace (len l + 1 - 1) with (len l) by lia. rewrite idx_app_0, idx_head. cbn [obind with_leaf_records Records].
    rewrite length_app. cbn [length]. rewrite Nat.add_sub, take_app_length, len_cons. split; [by rewrite <- app_assoc|lia].
  - unfold borrowFromRight. destruct (Z.eqb_spec (len (Records right)) 0) as [E|E]; cbn [negb]; [by apply len_0_nil|].
    destruct (Records right) as [|x r] eqn:Er; [done|]. rewrite idx_head. cbn [obind with_leaf_records Records drop].
    rewrite len_app. split; [by rewrite <- app_assoc|done].
Qed.
