(* ===== verification/FractalHeap.v ===== *)
(** * Fractal heaps: internal/structures/fractalheap.go, fractalheap_write.go
    and fractalheap_indirect.go

    The writable heap (a direct block, or an indirect root over several), the
    object identifiers, the encoding of header, direct and indirect blocks, and
    the readers.  [DirectBlock] and the values of [DirectBlocks] are pointers:
    the blocks live in the store [blocks] and are referred to by position.  The
    order in which Go's [range] visits a map is an argument. *)

From S2P Require Import Prelude Allocator Storage Checksum Superblock.

(** ** Integers of any size *)

(** [writeUintVar(buf[off:], value, size, order)]: sizes up to 8 write that
    many bytes; a larger one writes the eight bytes at the low end. *)
Definition writeUintVar (buf : bytes) (off value size : Z) (order : ByteOrder) : outcome bytes :=
  if size <=? 8 then put_bytes buf off (put_order order (Z.to_nat size) value)
  else match order with
       | LittleEndian => put_bytes buf off (le_put 8 value)
       | BigEndian => put_bytes buf (off + (size - 8)) (rev (le_put 8 value))
       end.

Definition readUint (data : bytes) (size : Z) (order : ByteOrder) : Z :=
  if len data <? size then 0 else get_order order (take (Z.to_nat (Z.min size 8)) data).

(** The number of bits of a 64-bit value, by shifting it down. *)
Fixpoint bitCount (fuel : nat) (v : Z) : Z :=
  match fuel with
  | O => 0
  | S fuel => if v >? 0 then 1 + bitCount fuel (Z.shiftr v 1) else 0
  end.

Definition computeOffsetSize (value : Z) : Z :=
  if value =? 0 then 1 else u8 ((bitCount 65 value + 7) / 8).

(** A run of integers written one after the other, each with its byte order,
    size and value; the last result is the offset after them. *)
Fixpoint writeUints (buf : bytes) (off : Z) (fields : list (ByteOrder * Z * Z)) : outcome (bytes * Z) :=
  match fields with
  | [] => Ret (buf, off)
  | (order, size, value) :: fields =>
      let! buf := writeUintVar buf off value size order in
      writeUints buf (off + size) fields
  end.

(** A run of integers read one after the other. *)
Fixpoint readUints (buf : bytes) (off : Z) (order : ByteOrder) (sizes : list Z) : outcome (list Z) :=
  match sizes with
  | [] => Ret []
  | size :: sizes =>
      let! s := slice buf off (off + size) in
      let! vs := readUints buf (off + size) order sizes in
      Ret (readUint s size order :: vs)
  end.

(** ** Data *)

Record WritableHeapHeader := mkHeapHeader {
  Version : Z;
  HeapIDLength : Z;
  IOFiltersLength : Z;
  Flags : Z;
  MaxManagedObjectSize : Z;
  NextHugeObjectID : Z;
  HugeObjectBTreeAddr : Z;
  FreeSpace : Z;
  FreeSectionAddress : Z;
  ManagedSpaceSize : Z;
  AllocatedManagedSpace : Z;
  ManagedSpaceOffset : Z;
  NumManagedObjects : Z;
  SizeHugeObjects : Z;
  NumHugeObjects : Z;
  SizeTinyObjects : Z;
  NumTinyObjects : Z;
  TableWidth : Z;
  StartingBlockSize : Z;
  MaxDirectBlockSize : Z;
  MaxHeapSize : Z;
  StartingNumRows : Z;
  RootBlockAddress : Z;
  CurrentNumRows : Z;
  HeapOffsetSize : Z;
  HeapLengthSize : Z }.

Record WritableDirectBlock := mkDirect {
  BlockVersion : Z;
  HeapHeaderAddress : Z;
  BlockOffset : Z;
  BlockSize : Z;
  Objects : bytes;
  FreeOffset : Z;
  ChecksumEnabled : bool }.

Record WritableIndirectBlock := mkIndirect {
  IVersion : Z;
  IHeapHeaderAddr : Z;
  IBlockOffset : Z;
  INumRows : Z;
  ITableWidth : Z;
  IMaxDirectRows : Z;
  IChecksumEnabled : bool;
  ChildAddresses : list Z;
  loadedAddress : Z }.

Record WritableFractalHeap := mkHeap {
  Header : WritableHeapHeader;
  blocks : list WritableDirectBlock;
  DirectBlock : nat;
  RootIndirectBlock : option WritableIndirectBlock;
  HeapMaxDirectBlockSize : Z;
  DirectBlocks : gmap Z nat;
  loadedHeaderAddress : Z;
  loadedDirectBlockAddress : Z }.

(** What the reader keeps: the header (with the checksum flag) and where the
    heap is; the file and the superblock's sizes are arguments. *)
Record FractalHeap := mkReader {
  rHeader : WritableHeapHeader;
  ChecksumDirectBlocks : bool;
  headerAddr : Z }.

Record DirectBlockData := mkDirectRead {
  rVersion : Z;
  rHeapHeaderAddr : Z;
  rBlockOffset : Z;
  rData : bytes }.

Record HeapID := mkHeapID {
  Raw : bytes;
  IDVersion : Z;
  IDType : Z;
  IDOffset : Z;
  IDLength : Z }.

Definition HeapSignature : bytes := String.list_byte_of_string "FRHP".
Definition DirectBlockSignature : bytes := String.list_byte_of_string "FHDB".
Definition IndirectBlockSignature : bytes := String.list_byte_of_string "FHIB".

Definition DefaultHeapIDLength : Z := 8.
Definition DefaultMaxManagedObjectSize : Z := 65536.
Definition DefaultTableWidth : Z := 2.

Definition HeapIDTypeManaged : Z := 0x00.
Definition HeapIDTypeHuge : Z := 0x10.
Definition HeapIDTypeTiny : Z := 0x20.

(** ** A new heap *)

Definition NewWritableFractalHeap (blockSize : Z) : WritableFractalHeap :=
  let maxHeapSize := 16 in
  let heapOffsetSize := u8 ((maxHeapSize + 7) / 8) in
  let heapLengthSize := computeOffsetSize DefaultMaxManagedObjectSize in
  mkHeap
    (mkHeapHeader 0 DefaultHeapIDLength 0 0 DefaultMaxManagedObjectSize 0 0 blockSize 0 blockSize blockSize 0 0 0 0 0 0
       DefaultTableWidth blockSize blockSize maxHeapSize 0 0 0 heapOffsetSize heapLengthSize)
    [mkDirect 0 0 0 blockSize [] 0 false] 0 None blockSize ∅ 0 0.

(** ** Indirect blocks *)

Definition NewWritableIndirectBlock (heapHeaderAddr blockOffset numRows tableWidth maxDirectRows : Z) : WritableIndirectBlock :=
  mkIndirect 0 heapHeaderAddr blockOffset numRows tableWidth maxDirectRows false
    (replicate (Z.to_nat (numRows * tableWidth)) 0) 0.

Definition with_children (wb : WritableIndirectBlock) (cs : list Z) : WritableIndirectBlock :=
  mkIndirect (IVersion wb) (IHeapHeaderAddr wb) (IBlockOffset wb) (INumRows wb) (ITableWidth wb) (IMaxDirectRows wb)
    (IChecksumEnabled wb) cs (loadedAddress wb).

Definition SetChildAddress (wb : WritableIndirectBlock) (entryIndex address : Z) : outcome WritableIndirectBlock :=
  guard negb ((entryIndex <? 0) || (entryIndex >=? len (ChildAddresses wb))) else "invalid entry index";;
  let! cs := set_idx (ChildAddresses wb) entryIndex address in
  Ret (with_children wb cs).

Definition GetChildAddress (wb : WritableIndirectBlock) (entryIndex : Z) : outcome Z :=
  guard negb ((entryIndex <? 0) || (entryIndex >=? len (ChildAddresses wb))) else "invalid entry index";;
  idx (ChildAddresses wb) entryIndex.

Definition CalculateEntryIndex (wb : WritableIndirectBlock) (row col : Z) : Z := row * ITableWidth wb + col.

(** The block's size in the file. *)
Definition indirectSize (wb : WritableIndirectBlock) (sb : Superblock) (heapOffsetSize : Z) : Z :=
  5 + OffsetSize sb + heapOffsetSize + len (ChildAddresses wb) * OffsetSize sb + (if IChecksumEnabled wb then 4 else 0).

Definition encodeIndirect (wb : WritableIndirectBlock) (sb : Superblock) (heapOffsetSize : Z) : outcome bytes :=
  let! buf := putFields (zeros (indirectSize wb sb heapOffsetSize)) [(0, IndirectBlockSignature); (4, [z2b (IVersion wb)])] in
  let! (buf, offset) := writeUints buf 5
    ((Endianness sb, OffsetSize sb, IHeapHeaderAddr wb) :: (Endianness sb, heapOffsetSize, IBlockOffset wb) ::
     map (fun addr => (Endianness sb, OffsetSize sb, addr)) (ChildAddresses wb)) in
  if IChecksumEnabled wb then
    let! covered := slice buf 0 offset in
    let! checksum := JenkinsChecksum covered in
    put_le 4 buf offset checksum
  else Ret buf.

Definition ParseIndirectBlock (file : bytes) (address numRows tableWidth sizeofAddr heapOffsetSize : Z) (endianness : ByteOrder)
    (expectedHeapHeaderAddr : Z) : outcome WritableIndirectBlock :=
  guard negb ((address =? 0) || (address =? MaxUint64)) else "invalid indirect block address";;
  let numEntries := numRows * tableWidth in
  let headerSize := 5 + sizeofAddr + heapOffsetSize in
  let entriesSize := numEntries * sizeofAddr in
  let totalSize := headerSize + entriesSize + 4 in
  let! buf := read_at file (i64 address) totalSize in
  let! sig := slice buf 0 4 in
  guard bool_decide (sig = IndirectBlockSignature) else "invalid indirect block signature";;
  let! version := idx buf 4 in
  guard b2z version =? 0 else "unsupported indirect block version";;
  let! vs := readUints buf 5 endianness [sizeofAddr; heapOffsetSize] in
  match vs with
  | [heapHeaderAddr; blockOffset] =>
      guard heapHeaderAddr =? expectedHeapHeaderAddr else "indirect block heap header address mismatch";;
      let! entries := readUints buf headerSize endianness (replicate (Z.to_nat numEntries) sizeofAddr) in
      Ret (mkIndirect (b2z version) heapHeaderAddr blockOffset numRows tableWidth 0
             (totalSize =? headerSize + entriesSize + 4) entries 0)
  | _ => Panic
  end.

Definition LoadIndirect (file : bytes) (address numRows tableWidth maxDirectRows : Z) (sb : Superblock)
    (heapOffsetSize expectedHeapHeaderAddr : Z) : outcome WritableIndirectBlock :=
  let! iblock := ParseIndirectBlock file address numRows tableWidth (OffsetSize sb) heapOffsetSize (Endianness sb)
    expectedHeapHeaderAddr in
  Ret (mkIndirect (IVersion iblock) (IHeapHeaderAddr iblock) (IBlockOffset iblock) numRows tableWidth maxDirectRows
         (IChecksumEnabled iblock) (ChildAddresses iblock) address).

(** ** Inserting *)

Definition encodeHeapID (h : WritableHeapHeader) (offset length : Z) : outcome bytes :=
  let! heapID := put_bytes (zeros (HeapIDLength h)) 0 [x00] in
  let! heapID := writeUintVar heapID 1 offset (HeapOffsetSize h) LittleEndian in
  writeUintVar heapID (1 + HeapOffsetSize h) length (HeapLengthSize h) LittleEndian.

(** The block with [data] at its free offset, and that offset. *)
Definition appendObject (b : WritableDirectBlock) (data : bytes) : outcome (WritableDirectBlock * Z) :=
  let objectOffset := FreeOffset b in
  let neededLen := i64 (u64 (objectOffset + len data)) in
  let objects := if neededLen >? len (Objects b) then Objects b ++ zeros (neededLen - len (Objects b)) else Objects b in
  let! objects := copy_bytes objects objectOffset data in
  Ret (mkDirect (BlockVersion b) (HeapHeaderAddress b) (BlockOffset b) (BlockSize b) objects
         (u64 (FreeOffset b + len data)) (ChecksumEnabled b), objectOffset).

(** The header's counters after an insertion of [size] bytes. *)
Definition countInsert (h : WritableHeapHeader) (size : Z) : WritableHeapHeader :=
  mkHeapHeader (Version h) (HeapIDLength h) (IOFiltersLength h) (Flags h) (MaxManagedObjectSize h) (NextHugeObjectID h)
    (HugeObjectBTreeAddr h) (u64 (FreeSpace h - size)) (FreeSectionAddress h) (ManagedSpaceSize h) (AllocatedManagedSpace h)
    (u64 (ManagedSpaceOffset h + size)) (u64 (NumManagedObjects h + 1)) (SizeHugeObjects h) (NumHugeObjects h)
    (SizeTinyObjects h) (NumTinyObjects h) (TableWidth h) (StartingBlockSize h) (MaxDirectBlockSize h) (MaxHeapSize h)
    (StartingNumRows h) (RootBlockAddress h) (CurrentNumRows h) (HeapOffsetSize h) (HeapLengthSize h).

Definition with_blocks (fh : WritableFractalHeap) (h : WritableHeapHeader) (bs : list WritableDirectBlock) : WritableFractalHeap :=
  mkHeap h bs (DirectBlock fh) (RootIndirectBlock fh) (HeapMaxDirectBlockSize fh) (DirectBlocks fh)
    (loadedHeaderAddress fh) (loadedDirectBlockAddress fh).

(** Following a pointer to a block. *)
Definition deref (fh : WritableFractalHeap) (p : nat) : outcome WritableDirectBlock :=
  match blocks fh !! p with Some b => Ret b | None => Panic end.

Definition insertViaDirect (fh : WritableFractalHeap) (data : bytes) : outcome (bytes * WritableFractalHeap) :=
  let! b := deref fh (DirectBlock fh) in
  guard negb (u64 (FreeOffset b + len data) >? BlockSize b) else "fractal heap is full";;
  let! (b, objectOffset) := appendObject b data in
  let h := countInsert (Header fh) (len data) in
  let! heapID := encodeHeapID h objectOffset (len data) in
  Ret (heapID, with_blocks fh h (<[DirectBlock fh := b]> (blocks fh))).

(** The first block in the order visited that has room. *)
Fixpoint findRoom (fh : WritableFractalHeap) (order : list Z) (size : Z) : outcome (option (Z * nat)) :=
  match order with
  | [] => Ret None
  | off :: order =>
      match DirectBlocks fh !! off with
      | None => findRoom fh order size
      | Some p =>
          let! b := deref fh p in
          if u64 (FreeOffset b + size) <=? BlockSize b then Ret (Some (off, p)) else findRoom fh order size
      end
  end.

(** The header's totals after a new block of [size] bytes. *)
Definition countBlock (h : WritableHeapHeader) (size : Z) : WritableHeapHeader :=
  mkHeapHeader (Version h) (HeapIDLength h) (IOFiltersLength h) (Flags h) (MaxManagedObjectSize h) (NextHugeObjectID h)
    (HugeObjectBTreeAddr h) (u64 (FreeSpace h + size)) (FreeSectionAddress h) (u64 (ManagedSpaceSize h + size))
    (u64 (AllocatedManagedSpace h + size)) (ManagedSpaceOffset h) (NumManagedObjects h) (SizeHugeObjects h) (NumHugeObjects h)
    (SizeTinyObjects h) (NumTinyObjects h) (TableWidth h) (StartingBlockSize h) (MaxDirectBlockSize h) (MaxHeapSize h)
    (StartingNumRows h) (RootBlockAddress h) (CurrentNumRows h) (HeapOffsetSize h) (HeapLengthSize h).

(** A new block after the managed space. *)
Definition addBlock (fh : WritableFractalHeap) : WritableFractalHeap * Z * nat :=
  let off := ManagedSpaceSize (Header fh) in
  let size := HeapMaxDirectBlockSize fh in
  let p := length (blocks fh) in
  (mkHeap (countBlock (Header fh) size) (blocks fh ++ [mkDirect 0 0 off size [] 0 false]) (DirectBlock fh)
     (RootIndirectBlock fh) size (<[off := p]> (DirectBlocks fh)) (loadedHeaderAddress fh) (loadedDirectBlockAddress fh),
   off, p).

Definition with_root (fh : WritableFractalHeap) (wb : WritableIndirectBlock) : WritableFractalHeap :=
  mkHeap (Header fh) (blocks fh) (DirectBlock fh) (Some wb) (HeapMaxDirectBlockSize fh) (DirectBlocks fh)
    (loadedHeaderAddress fh) (loadedDirectBlockAddress fh).

(** The insertion into the block found. *)
Definition insertAt (fh : WritableFractalHeap) (off : Z) (p : nat) (data : bytes) : outcome (bytes * WritableFractalHeap) :=
  let! b := deref fh p in
  let! (b, objectOffset) := appendObject b data in
  let h := countInsert (Header fh) (len data) in
  let! heapID := encodeHeapID h (u64 (off + objectOffset)) (len data) in
  Ret (heapID, with_blocks fh h (<[p := b]> (blocks fh))).

(** A failing insertion may leave the heap changed: the state is returned with
    the outcome. *)
Definition insertViaIndirect (fh : WritableFractalHeap) (wb : WritableIndirectBlock) (order : list Z) (data : bytes) :
    WritableFractalHeap * outcome bytes :=
  let settle fh m := match m with Ret (id, fh') => (fh', Ret id) | Err e => (fh, Err e) | Panic => (fh, Panic) end in
  match findRoom fh order (len data) with
  | Ret (Some (off, p)) => settle fh (insertAt fh off p data)
  | Ret None =>
      let '(fh, off, p) := addBlock fh in
      let numExistingBlocks := Z.of_nat (size (DirectBlocks fh)) - 1 in
      if numExistingBlocks >=? len (ChildAddresses wb) then (fh, Err "indirect block full (need to grow)")
      else match SetChildAddress wb numExistingBlocks 0 with
           | Ret wb => let fh := with_root fh wb in settle fh (insertAt fh off p data)
           | Err e => (fh, Err e)
           | Panic => (fh, Panic)
           end
  | Err e => (fh, Err e)
  | Panic => (fh, Panic)
  end.

Definition needsTransition (fh : WritableFractalHeap) (objectSize : Z) : outcome bool :=
  match RootIndirectBlock fh with
  | Some _ => Ret false
  | None =>
      let! b := deref fh (DirectBlock fh) in
      Ret (negb (u64 (FreeOffset b + objectSize) <=? BlockSize b))
  end.

Definition with_rows (h : WritableHeapHeader) (rows : Z) : WritableHeapHeader :=
  mkHeapHeader (Version h) (HeapIDLength h) (IOFiltersLength h) (Flags h) (MaxManagedObjectSize h) (NextHugeObjectID h)
    (HugeObjectBTreeAddr h) (FreeSpace h) (FreeSectionAddress h) (ManagedSpaceSize h) (AllocatedManagedSpace h)
    (ManagedSpaceOffset h) (NumManagedObjects h) (SizeHugeObjects h) (NumHugeObjects h) (SizeTinyObjects h)
    (NumTinyObjects h) (TableWidth h) (StartingBlockSize h) (MaxDirectBlockSize h) (MaxHeapSize h) (StartingNumRows h)
    (RootBlockAddress h) rows (HeapOffsetSize h) (HeapLengthSize h).

Definition transitionToIndirectRoot (fh : WritableFractalHeap) : outcome WritableFractalHeap :=
  match RootIndirectBlock fh with
  | Some _ => Err "heap already has indirect root"
  | None =>
      let numRows := 1 in
      let wb := NewWritableIndirectBlock 0 0 numRows (TableWidth (Header fh)) numRows in
      let! wb := SetChildAddress wb (CalculateEntryIndex wb 0 0) 0 in
      let! b := deref fh (DirectBlock fh) in
      Ret (mkHeap (with_rows (Header fh) numRows) (blocks fh) (DirectBlock fh) (Some wb) (HeapMaxDirectBlockSize fh)
             (<[BlockOffset b := DirectBlock fh]> (DirectBlocks fh)) (loadedHeaderAddress fh) (loadedDirectBlockAddress fh))
  end.

Definition InsertObject (fh : WritableFractalHeap) (order : list Z) (data : bytes) : WritableFractalHeap * outcome bytes :=
  if len data =? 0 then (fh, Err "cannot insert empty object")
  else if len data >? MaxManagedObjectSize (Header fh) then (fh, Err "object size exceeds maximum managed size")
  else
    match needsTransition fh (len data) with
    | Ret t =>
        match (if t then transitionToIndirectRoot fh else Ret fh) with
        | Ret fh =>
            match RootIndirectBlock fh with
            | Some wb => insertViaIndirect fh wb order data
            | None => match insertViaDirect fh data with Ret (id, fh') => (fh', Ret id) | Err e => (fh, Err e) | Panic => (fh, Panic) end
            end
        | Err e => (fh, Err e)
        | Panic => (fh, Panic)
        end
    | Err e => (fh, Err e)
    | Panic => (fh, Panic)
    end.

(** ** Objects by identifier *)

(** The checks and the two integers every operation takes from an identifier. *)
Definition locate (h : WritableHeapHeader) (heapID : bytes) : outcome (Z * Z) :=
  guard negb (len heapID <? 1) else "invalid object ID";;
  let! flags := idx heapID 0 in
  let version := Z.shiftr (Z.land (b2z flags) 0xC0) 6 in
  let idType := Z.land (b2z flags) 0x30 in
  guard version =? 0 else "invalid object ID: unsupported version";;
  guard idType =? HeapIDTypeManaged else "invalid object ID: only managed objects supported";;
  guard len heapID =? HeapIDLength h else "invalid object ID: wrong size";;
  let! vs := readUints heapID 1 LittleEndian [HeapOffsetSize h; HeapLengthSize h] in
  match vs with [offset; length] => Ret (offset, length) | _ => Panic end.

(** Bytes [offset, offset+length) of the objects, with the code's checks. *)
Definition window (objects : bytes) (offset length : Z) : outcome bytes :=
  guard negb (offset >=? len objects) else "object not found in heap";;
  guard negb (u64 (offset + length) >? len objects) else "object extends beyond used space";;
  slice objects offset (u64 (offset + length)).

(** The blocks in the order visited; the first whose range has the offset. *)
Fixpoint getObjectFromIndirect (fh : WritableFractalHeap) (order : list Z) (globalOffset length : Z) : outcome bytes :=
  match order with
  | [] => Err "object not found in heap"
  | off :: order =>
      match DirectBlocks fh !! off with
      | None => getObjectFromIndirect fh order globalOffset length
      | Some p =>
          let! b := deref fh p in
          let blockEnd := u64 (off + BlockSize b) in
          if (globalOffset >=? off) && (globalOffset <? blockEnd) then window (Objects b) (globalOffset - off) length
          else getObjectFromIndirect fh order globalOffset length
      end
  end.

Definition GetObject (fh : WritableFractalHeap) (order : list Z) (heapID : bytes) : outcome bytes :=
  let! (offset, length) := locate (Header fh) heapID in
  match RootIndirectBlock fh with
  | Some _ => getObjectFromIndirect fh order offset length
  | None => let! b := deref fh (DirectBlock fh) in window (Objects b) offset length
  end.

Definition with_objects (b : WritableDirectBlock) (objects : bytes) : WritableDirectBlock :=
  mkDirect (BlockVersion b) (HeapHeaderAddress b) (BlockOffset b) (BlockSize b) objects (FreeOffset b) (ChecksumEnabled b).

Definition OverwriteObject (fh : WritableFractalHeap) (heapID newData : bytes) : outcome WritableFractalHeap :=
  let! (offset, length) := locate (Header fh) heapID in
  guard len newData =? length else "size mismatch";;
  let! b := deref fh (DirectBlock fh) in
  let! _ := window (Objects b) offset length in
  let! objects := put_bytes (Objects b) offset newData in
  Ret (with_blocks fh (Header fh) (<[DirectBlock fh := with_objects b objects]> (blocks fh))).

(** The header's counters after a deletion. *)
Definition countDelete (h : WritableHeapHeader) (size : Z) : WritableHeapHeader :=
  mkHeapHeader (Version h) (HeapIDLength h) (IOFiltersLength h) (Flags h) (MaxManagedObjectSize h) (NextHugeObjectID h)
    (HugeObjectBTreeAddr h) (u64 (FreeSpace h + size)) (FreeSectionAddress h) (ManagedSpaceSize h) (AllocatedManagedSpace h)
    (ManagedSpaceOffset h) (u64 (NumManagedObjects h - 1)) (SizeHugeObjects h) (NumHugeObjects h)
    (SizeTinyObjects h) (NumTinyObjects h) (TableWidth h) (StartingBlockSize h) (MaxDirectBlockSize h) (MaxHeapSize h)
    (StartingNumRows h) (RootBlockAddress h) (CurrentNumRows h) (HeapOffsetSize h) (HeapLengthSize h).

Definition DeleteObject (fh : WritableFractalHeap) (heapID : bytes) : outcome WritableFractalHeap :=
  let! (offset, length) := locate (Header fh) heapID in
  let! b := deref fh (DirectBlock fh) in
  let! _ := window (Objects b) offset length in
  let! objects := put_bytes (Objects b) offset (zeros length) in
  Ret (with_blocks fh (countDelete (Header fh) length) (<[DirectBlock fh := with_objects b objects]> (blocks fh))).

(** ** Encoding *)

Definition heapHeaderSize (sb : Superblock) : Z := 22 + 12 * LengthSize sb + 3 * OffsetSize sb.

(** The fields after signature and version, in file order. *)
Definition headerFields (h : WritableHeapHeader) (sb : Superblock) : list (ByteOrder * Z * Z) :=
  let o := Endianness sb in let L := LengthSize sb in let O := OffsetSize sb in
  [(LittleEndian, 2, HeapIDLength h); (LittleEndian, 2, IOFiltersLength h); (LittleEndian, 1, Flags h);
   (LittleEndian, 4, MaxManagedObjectSize h); (o, L, NextHugeObjectID h); (o, O, HugeObjectBTreeAddr h);
   (o, L, FreeSpace h); (o, O, FreeSectionAddress h); (o, L, ManagedSpaceSize h); (o, L, AllocatedManagedSpace h);
   (o, L, ManagedSpaceOffset h); (o, L, NumManagedObjects h); (o, L, SizeHugeObjects h); (o, L, NumHugeObjects h);
   (o, L, SizeTinyObjects h); (o, L, NumTinyObjects h); (LittleEndian, 2, TableWidth h); (o, L, StartingBlockSize h);
   (o, L, MaxDirectBlockSize h); (LittleEndian, 2, MaxHeapSize h); (LittleEndian, 2, StartingNumRows h);
   (o, O, RootBlockAddress h); (LittleEndian, 2, CurrentNumRows h)].

Definition encodeHeapHeader (h : WritableHeapHeader) (sb : Superblock) : outcome bytes :=
  let! buf := putFields (zeros (heapHeaderSize sb + 4)) [(0, HeapSignature); (4, [z2b (Version h)])] in
  let! (buf, offset) := writeUints buf 5 (headerFields h sb) in
  let! covered := slice buf 0 offset in
  let! checksum := JenkinsChecksum covered in
  put_le 4 buf offset checksum.

Definition encodeDirectBlock (h : WritableHeapHeader) (b : WritableDirectBlock) (sb : Superblock) : outcome bytes :=
  let totalSize := BlockSize b in
  let! buf := copy_bytes (zeros totalSize) 0 DirectBlockSignature in
  let! buf := put_bytes buf 4 [z2b (BlockVersion b)] in
  let! (buf, offset) := writeUints buf 5
    [(Endianness sb, OffsetSize sb, HeapHeaderAddress b); (Endianness sb, HeapOffsetSize h, BlockOffset b)] in
  let! buf := copy_bytes buf offset (Objects b) in
  let checksumOffset := totalSize - 4 in
  let! covered := slice buf 0 checksumOffset in
  let! checksum := JenkinsChecksum covered in
  put_le 4 buf checksumOffset checksum.

(** ** Decoding *)

Definition parseFractalHeapHeader (file : bytes) (address : Z) (sb : Superblock) : outcome (WritableHeapHeader * bool) :=
  let L := LengthSize sb in let O := OffsetSize sb in
  let! buf := read_at file (i64 address) (heapHeaderSize sb) in
  let! sig := slice buf 0 4 in
  guard bool_decide (sig = HeapSignature) else "invalid fractal heap signature";;
  let! version := idx buf 4 in
  guard b2z version =? 0 else "unsupported fractal heap version";;
  let! vs := readUints buf 5 (Endianness sb)
    [2; 2; 1; 4; L; O; L; O; L; L; L; L; L; L; L; L; 2; L; L; 2; 2; O; 2] in
  match vs with
  | [heapIDLen; ioFiltersLen; flags; maxManaged; nextHuge; hugeBTree; freeSpace; freeSection; managedSize; allocSize;
     iterOffset; managedCount; hugeSize; hugeCount; tinySize; tinyCount; tableWidth; startingBlockSize; maxDirect;
     maxHeapSize; startRows; rootBlock; rowCount] =>
      let heapOffsetSize := u8 (u16 (maxHeapSize + 7) / 8) in
      let maxDirBlockOffsetSize := computeOffsetSize maxDirect in
      let maxManSizeEncoded := computeOffsetSize maxManaged in
      let heapLengthSize := if maxDirBlockOffsetSize <? maxManSizeEncoded then maxDirBlockOffsetSize else maxManSizeEncoded in
      Ret (mkHeapHeader (b2z version) heapIDLen ioFiltersLen flags maxManaged nextHuge hugeBTree freeSpace freeSection
             managedSize allocSize iterOffset managedCount hugeSize hugeCount tinySize tinyCount tableWidth
             startingBlockSize maxDirect maxHeapSize startRows rootBlock rowCount heapOffsetSize heapLengthSize,
           negb (Z.land flags 0x02 =? 0))
  | _ => Panic
  end.

Definition OpenFractalHeap (file : bytes) (address : Z) (sb : Superblock) : outcome FractalHeap :=
  guard negb ((address =? 0) || (address =? MaxUint64)) else "invalid fractal heap address";;
  let! (h, c) := parseFractalHeapHeader file address sb in
  Ret (mkReader h c address).

(** The common part of [readDirectBlock] and [readDirectBlockFromFile]: they
    differ in where the data ends. *)
Definition parseDirectBlock (file : bytes) (address blockSize heapOffsetSize headerAddr dataEnd : Z) (sb : Superblock) :
    outcome DirectBlockData :=
  guard negb ((address =? 0) || (address =? MaxUint64)) else "invalid direct block address";;
  if blockSize >=? 2 ^ 63 then Panic
  else
    let! buf := read_at file (i64 address) blockSize in
    let! sig := slice buf 0 4 in
    guard bool_decide (sig = DirectBlockSignature) else "invalid direct block signature";;
    let! version := idx buf 4 in
    guard b2z version =? 0 else "unsupported direct block version";;
    let! vs := readUints buf 5 (Endianness sb) [OffsetSize sb] in
    match vs with
    | [heapHeaderAddr] =>
        guard heapHeaderAddr =? headerAddr else "direct block heap header address mismatch";;
        let! ws := readUints buf (5 + OffsetSize sb) (Endianness sb) [heapOffsetSize] in
        match ws with
        | [blockOffset] =>
            let! data := slice buf (5 + OffsetSize sb + heapOffsetSize) dataEnd in
            Ret (mkDirectRead (b2z version) heapHeaderAddr blockOffset data)
        | _ => Panic
        end
    | _ => Panic
    end.

Definition readDirectBlock (fh : FractalHeap) (file : bytes) (address blockSize : Z) (sb : Superblock) : outcome DirectBlockData :=
  parseDirectBlock file address blockSize (HeapOffsetSize (rHeader fh)) (headerAddr fh)
    (if ChecksumDirectBlocks fh then blockSize - 4 else blockSize) sb.

Definition readDirectBlockFromFile (file : bytes) (address blockSize heapOffsetSize : Z) (sb : Superblock) (headerAddr : Z) :
    outcome DirectBlockData :=
  parseDirectBlock file address blockSize heapOffsetSize headerAddr (blockSize - 4) sb.

Definition parseHeapID (fh : FractalHeap) (heapID : bytes) (sb : Superblock) : outcome HeapID :=
  guard negb (len heapID <? 1) else "heap ID too short";;
  let! flags := idx heapID 0 in
  let version := Z.shiftr (Z.land (b2z flags) 0xC0) 6 in
  let type := Z.land (b2z flags) 0x30 in
  guard version =? 0 else "unsupported heap ID version";;
  let offsetSize := HeapOffsetSize (rHeader fh) in
  let lengthSize := HeapLengthSize (rHeader fh) in
  if type =? HeapIDTypeManaged then
    guard negb (len heapID <? 1 + offsetSize + lengthSize) else "heap ID too short for managed object";;
    let! vs := readUints heapID 1 (Endianness sb) [offsetSize; lengthSize] in
    match vs with [offset; length] => Ret (mkHeapID heapID version type offset length) | _ => Panic end
  else if type =? HeapIDTypeTiny then Ret (mkHeapID heapID version type 0 (len heapID - 1))
  else Ret (mkHeapID heapID version type 0 0).

Definition readManagedObject (fh : FractalHeap) (file : bytes) (id : HeapID) (sb : Superblock) : outcome bytes :=
  guard CurrentNumRows (rHeader fh) =? 0 else "indirect blocks not supported in minimal implementation";;
  let! dblock := readDirectBlock fh file (RootBlockAddress (rHeader fh)) (StartingBlockSize (rHeader fh)) sb in
  guard negb (IDOffset id <? rBlockOffset dblock) else "object offset before block offset";;
  let relativeOffset := IDOffset id - rBlockOffset dblock in
  guard negb (relativeOffset >? len (rData dblock)) else "object offset beyond block data";;
  guard negb (u64 (relativeOffset + IDLength id) >? len (rData dblock)) else "object extends beyond block data";;
  slice (rData dblock) relativeOffset (u64 (relativeOffset + IDLength id)).

Definition readTinyObject (id : HeapID) : outcome bytes :=
  if len (Raw id) <? 2 then Ret [] else slice (Raw id) 1 (len (Raw id)).

Definition ReadObject (fh : FractalHeap) (file : bytes) (heapID : bytes) (sb : Superblock) : outcome bytes :=
  let! id := parseHeapID fh heapID sb in
  if IDType id =? HeapIDTypeManaged then readManagedObject fh file id sb
  else if IDType id =? HeapIDTypeHuge then Err "huge objects not supported in minimal implementation"
  else if IDType id =? HeapIDTypeTiny then readTinyObject id
  else Err "unsupported heap ID type".

(** The receiver's indirect root and block map stay as they were. *)
Definition LoadFromFile (fh : WritableFractalHeap) (file : bytes) (address : Z) (sb : Superblock) : outcome WritableFractalHeap :=
  guard negb ((address =? 0) || (address =? MaxUint64)) else "invalid heap address";;
  let! readHeap := OpenFractalHeap file address sb in
  let h := rHeader readHeap in
  guard CurrentNumRows h =? 0 else "cannot modify heap with indirect blocks";;
  let! dblock := readDirectBlockFromFile file (RootBlockAddress h) (StartingBlockSize h) (HeapOffsetSize h) sb (headerAddr readHeap) in
  let b := mkDirect (rVersion dblock) (rHeapHeaderAddr dblock) (rBlockOffset dblock) (StartingBlockSize h) (rData dblock)
             (ManagedSpaceOffset h) (ChecksumDirectBlocks readHeap) in
  Ret (mkHeap h (blocks fh ++ [b]) (length (blocks fh)) (RootIndirectBlock fh) (HeapMaxDirectBlockSize fh) (DirectBlocks fh)
         address (RootBlockAddress h)).

(** ** Storing *)

Definition with_root_address (h : WritableHeapHeader) (addr : Z) : WritableHeapHeader :=
  mkHeapHeader (Version h) (HeapIDLength h) (IOFiltersLength h) (Flags h) (MaxManagedObjectSize h) (NextHugeObjectID h)
    (HugeObjectBTreeAddr h) (FreeSpace h) (FreeSectionAddress h) (ManagedSpaceSize h) (AllocatedManagedSpace h)
    (ManagedSpaceOffset h) (NumManagedObjects h) (SizeHugeObjects h) (NumHugeObjects h) (SizeTinyObjects h)
    (NumTinyObjects h) (TableWidth h) (StartingBlockSize h) (MaxDirectBlockSize h) (MaxHeapSize h) (StartingNumRows h)
    addr (CurrentNumRows h) (HeapOffsetSize h) (HeapLengthSize h).

Definition with_header_address (b : WritableDirectBlock) (addr : Z) : WritableDirectBlock :=
  mkDirect (BlockVersion b) addr (BlockOffset b) (BlockSize b) (Objects b) (FreeOffset b) (ChecksumEnabled b).

(** The heap with the two addresses set, as both writers do. *)
Definition with_addresses (fh : WritableFractalHeap) (b : WritableDirectBlock) (headerAddr rootAddr : Z) : WritableFractalHeap :=
  with_blocks fh (with_root_address (Header fh) rootAddr)
    (<[DirectBlock fh := with_header_address b headerAddr]> (blocks fh)).

Section with_storage.
Context `{Storage St}.

Definition writeHeaderAt (fh : WritableFractalHeap) (st : St) (addr : Z) (sb : Superblock) : outcome St :=
  let! buf := encodeHeapHeader (Header fh) sb in write_to st buf addr.

Definition writeDirectBlockAt (fh : WritableFractalHeap) (st : St) (addr : Z) (sb : Superblock) : outcome St :=
  let! b := deref fh (DirectBlock fh) in
  let! buf := encodeDirectBlock (Header fh) b sb in
  write_to st buf addr.

Definition WriteToFile (fh : WritableFractalHeap) (st : St) (sb : Superblock) : outcome (Z * WritableFractalHeap * St) :=
  let! b := deref fh (DirectBlock fh) in
  let! (headerAddr, st) := allocate st (heapHeaderSize sb + 4) in
  let! (directBlockAddr, st) := allocate st (BlockSize b) in
  let fh := with_addresses fh b headerAddr directBlockAddr in
  let! st := writeHeaderAt fh st headerAddr sb in
  let! st := writeDirectBlockAt fh st directBlockAddr sb in
  Ret (headerAddr, fh, st).

Definition WriteAt (fh : WritableFractalHeap) (st : St) (sb : Superblock) : outcome (WritableFractalHeap * St) :=
  guard negb (loadedHeaderAddress fh =? 0) else "cannot use WriteAt: heap not loaded from file";;
  let! b := deref fh (DirectBlock fh) in
  let fh := with_addresses fh b (loadedHeaderAddress fh) (loadedDirectBlockAddress fh) in
  let! st := writeHeaderAt fh st (loadedHeaderAddress fh) sb in
  let! st := writeDirectBlockAt fh st (loadedDirectBlockAddress fh) sb in
  Ret (fh, st).

Definition with_loaded (wb : WritableIndirectBlock) (addr : Z) : WritableIndirectBlock :=
  mkIndirect (IVersion wb) (IHeapHeaderAddr wb) (IBlockOffset wb) (INumRows wb) (ITableWidth wb) (IMaxDirectRows wb)
    (IChecksumEnabled wb) (ChildAddresses wb) addr.

Definition WriteIndirect (wb : WritableIndirectBlock) (st : St) (sb : Superblock) (heapOffsetSize : Z) :
    outcome (Z * WritableIndirectBlock * St) :=
  let! (address, st) := allocate st (indirectSize wb sb heapOffsetSize) in
  let! buf := encodeIndirect wb sb heapOffsetSize in
  let! st := write_to st buf address in
  Ret (address, with_loaded wb address, st).

Definition WriteIndirectAt (wb : WritableIndirectBlock) (st : St) (sb : Superblock) (heapOffsetSize : Z) : outcome St :=
  guard negb (loadedAddress wb =? 0) else "cannot use WriteAt: block not loaded from file";;
  let! buf := encodeIndirect wb sb heapOffsetSize in
  write_to st buf (loadedAddress wb).
End with_storage.

(** ** Lemmas: runs of integers *)

Definition fieldBytes (f : ByteOrder * Z * Z) : bytes :=
  let '(order, size, value) := f in put_order order (Z.to_nat size) value.

Definition fieldsBytes (fs : list (ByteOrder * Z * Z)) : bytes := concat (map fieldBytes fs).

Definition fieldSize (f : ByteOrder * Z * Z) : Z := let '(_, size, _) := f in size.
Definition fieldValue (f : ByteOrder * Z * Z) : Z := let '(_, _, value) := f in value.

(** A field whose value fits, read back in the order [o] it was written in. *)
Definition field_ok (o : ByteOrder) (f : ByteOrder * Z * Z) : Prop :=
  let '(order, size, value) := f in order = o /\ 0 <= size <= 8 /\ 0 <= value < 256 ^ size.

Definition field_sized (f : ByteOrder * Z * Z) : Prop := 0 <= fieldSize f <= 8.

Lemma field_ok_sized o f : field_ok o f -> field_sized f.
Proof. destruct f as [[order size] value]. by intros (_ & ? & _). Qed.

Lemma len_fieldBytes f : field_sized f -> len (fieldBytes f) = fieldSize f.
Proof. destruct f as [[order size] value]. unfold field_sized. cbn [fieldBytes fieldSize]. intros. rewrite len_put_order. lia. Qed.

Lemma fieldsBytes_cons f fs : fieldsBytes (f :: fs) = fieldBytes f ++ fieldsBytes fs.
Proof. done. Qed.

Lemma writeUints_ret fs : forall pre k off, Forall field_sized fs -> off = len pre -> len (fieldsBytes fs) <= k ->
  writeUints (pre ++ zeros k) off fs =
    Ret ((pre ++ fieldsBytes fs) ++ zeros (k - len (fieldsBytes fs)), off + len (fieldsBytes fs)).
Proof.
  induction fs as [|f fs IH]; intros pre k off Hs Hoff Hk.
  - cbn. change (len (fieldsBytes [])) with 0. by rewrite Z.sub_0_r, Z.add_0_r, app_nil_r.
  - apply Forall_cons in Hs as [Hf Hfs]. pose proof (len_fieldBytes f Hf) as Hl. rewrite fieldsBytes_cons, len_app in *.
    pose proof (len_nonneg (fieldsBytes fs)). destruct f as [[order size] value]. unfold field_sized in Hf.
    cbn [fieldSize fieldBytes writeUints] in *. unfold writeUintVar. ztest.
    rewrite put_bytes_cursor by lia. cbn [obind].
    rewrite IH by (done || (rewrite len_app; lia) || lia). rewrite <- !app_assoc. f_equal. f_equal; [|lia].
    do 4 f_equal. lia.
Qed.

Lemma readUint_put o n v : 0 <= n <= 8 -> 0 <= v < 256 ^ n -> readUint (put_order o (Z.to_nat n) v) n o = v.
Proof.
  intros Hn Hv. unfold readUint. rewrite len_put_order. ztest.
  rewrite take_ge by (pose proof (len_put_order o (Z.to_nat n) v); unfold len in *; lia).
  rewrite get_put_order, Z2Nat.id by lia. by apply Z.mod_small.
Qed.

Lemma readUints_ret o fs : forall pre post, Forall (field_ok o) fs ->
  readUints (pre ++ fieldsBytes fs ++ post) (len pre) o (map fieldSize fs) = Ret (map fieldValue fs).
Proof.
  induction fs as [|f fs IH]; intros pre post Hs; [done|]. apply Forall_cons in Hs as [Hf Hfs].
  pose proof (len_fieldBytes f (field_ok_sized o f Hf)) as Hl. cbn [map readUints]. rewrite fieldsBytes_cons, <- app_assoc.
  rewrite (slice_at _ pre (fieldBytes f) (fieldsBytes fs ++ post)) by (done || lia). cbn [obind].
  specialize (IH (pre ++ fieldBytes f) post Hfs). rewrite len_app, Hl, <- app_assoc in IH. rewrite IH. cbn [obind].
  destruct f as [[order size] value]. destruct Hf as (-> & Hsz & Hv). cbn [fieldBytes fieldSize fieldValue] in *.
  by rewrite readUint_put.
Qed.

(** A run read at the place it was written. *)
Lemma readUints_at o fs data pre post off sizes : Forall (field_ok o) fs -> data = pre ++ fieldsBytes fs ++ post ->
  off = len pre -> sizes = map fieldSize fs -> readUints data off o sizes = Ret (map fieldValue fs).
Proof. intros Hf -> -> ->. by apply readUints_ret. Qed.

#[local] Opaque JenkinsChecksum.

(** ** Lemmas: sizes of lengths *)

Lemma bitCount_spec fuel v : 0 <= v < 2 ^ Z.of_nat fuel -> v < 2 ^ bitCount fuel v /\ 0 <= bitCount fuel v <= Z.of_nat fuel.
Proof.
  revert v. induction fuel as [|fuel IH]; intros v Hv; cbn [bitCount]; [cbn in *; lia|].
  rewrite Nat2Z.inj_succ, Z.pow_succ_r in Hv by lia. destruct (Z.gtb_spec v 0); [|cbn; lia].
  rewrite Z.shiftr_div_pow2, Z.pow_1_r by lia.
  destruct (IH (v / 2)) as [H1 H2]; [split; [apply Z.div_pos; lia|apply Z.div_lt_upper_bound; lia]|].
  rewrite Z.pow_add_r, Z.pow_1_r by lia. pose proof (Z.div_mod v 2). pose proof (Z.mod_pos_bound v 2). lia.
Qed.

Lemma computeOffsetSize_fits v : is_u 64 v -> 0 <= v < 256 ^ computeOffsetSize v /\ 1 <= computeOffsetSize v <= 9.
Proof.
  intros Hv. unfold computeOffsetSize. destruct (Z.eqb_spec v 0) as [->|Hne]; [done|].
  destruct (bitCount_spec 65 v) as [H1 H2]; [unfold is_u in Hv; cbn; lia|].
  set (n := bitCount 65 v) in *. assert (0 < n) by (destruct (decide (n = 0)) as [E|]; [rewrite E in H1; unfold is_u in Hv; lia|lia]).
  pose proof (Z.div_mod (n + 7) 8). pose proof (Z.mod_pos_bound (n + 7) 8).
  assert ((n + 7) / 8 <= 9) by (apply Z.lt_succ_r, Z.div_lt_upper_bound; lia).
  unfold u8. rewrite Z.mod_small by lia. split; [|lia]. split; [unfold is_u in Hv; lia|].
  eapply Z.lt_le_trans; [exact H1|]. change 256 with (2 ^ 8). rewrite <- Z.pow_mul_r by lia. apply Z.pow_le_mono_r; lia.
Qed.

(** ** Lemmas: identifiers *)

(** The identifier of the object at [offset] with [length] bytes. *)
Definition hid (offset length : Z) : bytes := [x00] ++ le_put 2 offset ++ le_put 5 length.

Lemma length_hid o l : len (hid o l) = 8.
Proof. done. Qed.

Lemma le_put_small n m v : 0 <= v < 256 ^ Z.of_nat n -> le_put (n + m) v = le_put n v ++ zeros (Z.of_nat m).
Proof.
  revert v. induction n as [|n IH]; intros v Hv; cbn [Nat.add le_put app].
  - cbn in Hv. replace v with 0 by lia. unfold zeros. rewrite Nat2Z.id. induction m as [|m IHm]; [done|].
    cbn [le_put replicate]. change (0 / 256) with 0. by rewrite IHm.
  - rewrite Nat2Z.inj_succ, Z.pow_succ_r in Hv by lia. rewrite IH; [done|].
    split; [apply Z.div_pos; lia|apply Z.div_lt_upper_bound; lia].
Qed.

(** The sizes an identifier of the writer has. *)
Record id_sizes (h : WritableHeapHeader) (ls : Z) : Prop := {
  is_len : HeapIDLength h = 8;
  is_off : HeapOffsetSize h = 2;
  is_ls : HeapLengthSize h = ls;
  is_range : 1 <= ls <= 3 }.

Lemma hid_split ls o l : 1 <= ls <= 3 -> 0 <= l < 256 ^ ls ->
  hid o l = [x00] ++ (le_put 2 o ++ le_put (Z.to_nat ls) l) ++ zeros (5 - ls).
Proof.
  intros Hls Hl. unfold hid. replace 5%nat with (Z.to_nat ls + Z.to_nat (5 - ls))%nat by lia.
  rewrite le_put_small by (by rewrite Z2Nat.id by lia). rewrite <- app_assoc. do 4 f_equal. lia.
Qed.

Lemma encodeHeapID_ret h ls o l : id_sizes h ls -> 0 <= l < 256 ^ ls -> encodeHeapID h o l = Ret (hid o l).
Proof.
  intros [H1 H2 H3 H4] Hl. unfold encodeHeapID. rewrite H1, H2, H3.
  change (zeros 8) with ([] ++ zeros 8). rewrite put_bytes_cursor by done. cbn [obind app].
  change (8 - len [x00]) with 7. unfold writeUintVar. ztest. ztest. cbn [put_order].
  change (x00 :: zeros 7) with ([x00] ++ zeros 7). rewrite put_bytes_cursor by done. cbn [obind].
  change (7 - len (le_put (Z.to_nat 2) o)) with 5. rewrite put_bytes_cursor by (first [reflexivity | rewrite len_le_put; lia]).
  rewrite (hid_split ls) by done. rewrite len_le_put, Z2Nat.id by lia. by rewrite <- !app_assoc.
Qed.

Lemma locate_ret h ls o l : id_sizes h ls -> 0 <= o < 65536 -> 0 <= l < 256 ^ ls -> locate h (hid o l) = Ret (o, l).
Proof.
  intros [H1 H2 H3 H4] Ho Hl. unfold locate. rewrite length_hid, H1, H2, H3. cbn [Z.ltb Z.compare Pos.compare Pos.compare_cont negb].
  change (idx (hid o l) 0) with (Ret x00). cbn [obind]. change (b2z x00) with 0. cbn [Z.land Z.shiftr Z.shiftl Z.eqb].
  rewrite (readUints_at LittleEndian [(LittleEndian, 2, o); (LittleEndian, ls, l)] _ [x00] (zeros (5 - ls))); [done| | |done|done].
  - repeat constructor; cbn; lia.
  - rewrite (hid_split ls) by done. unfold fieldsBytes. cbn [map concat fieldBytes put_order]. by rewrite app_nil_r.
Qed.

(** ** The abstract heap: the objects in the order of their insertion *)

Definition offsetOf (objs : list bytes) (i : nat) : Z := len (concat (take i objs)).

Definition idAt (objs : list bytes) (i : nat) : bytes := hid (offsetOf objs i) (len (objs !!! i)).

(** The header of a heap with a direct root of [B] bytes. *)
Definition heapHdr (B free used count root ls : Z) : WritableHeapHeader :=
  mkHeapHeader 0 8 0 0 65536 0 0 free 0 B B used count 0 0 0 0 2 B B 16 0 root 0 2 ls.

(** A header of [heapHdr]'s form after [used] bytes of objects. *)
Definition header_holds (h : WritableHeapHeader) (B used : Z) : Prop :=
  exists free count root ls, h = heapHdr B free used count root ls /\
    is_u 64 free /\ is_u 64 count /\ is_u 64 root /\ 1 <= ls <= 3 /\ B < 256 ^ ls.

(** The writable heap [fh] with a direct root of [B] bytes holds [objs], in its
    first [cap] bytes of object space. *)
Record holds (fh : WritableFractalHeap) (B cap : Z) (objs : list bytes) : Prop := {
  ho_root : RootIndirectBlock fh = None;
  ho_header : header_holds (Header fh) B (len (concat objs));
  ho_B : 0 < B < 16777216 /\ cap <= B /\ cap <= 65536;
  ho_block : exists a c k, blocks fh !! DirectBlock fh =
      Some (mkDirect 0 a 0 B (concat objs ++ zeros k) (len (concat objs)) c) /\ 0 <= k /\
      len (concat objs) <= cap /\ len (concat objs) + k <= Z.max cap (B - 19);
  ho_objs : Forall (fun d => 0 < len d) objs }.

Inductive heap_call :=
| HInsert (data : bytes)
| HGet (i : nat)
| HOverwrite (i : nat) (data : bytes)
| HDelete (i : nat).

Inductive heap_answer :=
| HId (id : bytes)
| HData (data : bytes)
| HDone
| HFailed (msg : string)
| HCrashed.

(** What each call should do; objects are named by their position. *)
Definition spec_heap (objs : list bytes) (c : heap_call) : list bytes * heap_answer :=
  match c with
  | HInsert d =>
      if len d =? 0 then (objs, HFailed "cannot insert empty object")
      else if len d >? 65536 then (objs, HFailed "object size exceeds maximum managed size")
      else (objs ++ [d], HId (hid (len (concat objs)) (len d)))
  | HGet i => (objs, HData (objs !!! i))
  | HOverwrite i d => if len d =? len (objs !!! i) then (<[i := d]> objs, HDone) else (objs, HFailed "size mismatch")
  | HDelete i => (<[i := zeros (len (objs !!! i))]> objs, HDone)
  end.

(** The calls on the heap, with the identifiers given out so far. *)
Definition run_heap (s : WritableFractalHeap * list bytes) (c : heap_call) : (WritableFractalHeap * list bytes) * heap_answer :=
  let '(fh, ids) := s in
  match c with
  | HInsert d =>
      match InsertObject fh [] d with
      | (fh, Ret id) => ((fh, ids ++ [id]), HId id)
      | (fh, Err e) => ((fh, ids), HFailed e)
      | (fh, Panic) => ((fh, ids), HCrashed)
      end
  | HGet i =>
      (s, match GetObject fh [] (ids !!! i) with Ret d => HData d | Err e => HFailed e | Panic => HCrashed end)
  | HOverwrite i d =>
      match OverwriteObject fh (ids !!! i) d with
      | Ret fh => ((fh, ids), HDone) | Err e => (s, HFailed e) | Panic => (s, HCrashed)
      end
  | HDelete i =>
      match DeleteObject fh (ids !!! i) with
      | Ret fh => ((fh, ids), HDone) | Err e => (s, HFailed e) | Panic => (s, HCrashed)
      end
  end.

Fixpoint run_heaps {S} (step : S -> heap_call -> S * heap_answer) (s : S) (cs : list heap_call) : S * list heap_answer :=
  match cs with
  | [] => (s, [])
  | c :: cs => let '(s, a) := step s c in let '(s, l) := run_heaps step s cs in (s, a :: l)
  end.

(** Calls that name objects there are and insert no more than [cap] bytes in
    all. *)
Definition call_fits (cap : Z) (objs : list bytes) (c : heap_call) : Prop :=
  match c with
  | HInsert d => len (concat objs) + len d <= cap
  | HGet i | HOverwrite i _ | HDelete i => (i < length objs)%nat
  end.

Fixpoint calls_fit (cap : Z) (objs : list bytes) (cs : list heap_call) : Prop :=
  match cs with
  | [] => True
  | c :: cs => call_fits cap objs c /\ calls_fit cap (spec_heap objs c).1 cs
  end.

Lemma concat_split (objs : list bytes) (i : nat) : (i < length objs)%nat ->
  concat objs = concat (take i objs) ++ (objs !!! i) ++ concat (drop (S i) objs).
Proof.
  intros Hi. destruct (lookup_lt_is_Some_2 objs i Hi) as [x Hx]. rewrite (list_lookup_total_correct _ _ _ Hx).
  rewrite <- (take_drop_middle objs i x Hx) at 1. by rewrite concat_app.
Qed.

Lemma concat_insert (objs : list bytes) (i : nat) d : (i < length objs)%nat ->
  concat (<[i := d]> objs) = concat (take i objs) ++ d ++ concat (drop (S i) objs).
Proof. intros Hi. rewrite insert_take_drop by done. by rewrite concat_app. Qed.

(** Identifiers depend on the lengths only. *)
Lemma len_concat_sum (l : list bytes) : len (concat l) = foldr Z.add 0 (map len l).
Proof. induction l as [|x l IH]; [done|]. cbn [concat map foldr]. by rewrite len_app, IH. Qed.

Lemma offsetOf_lens l k i : map len l = map len k -> offsetOf l i = offsetOf k i.
Proof. intros E. unfold offsetOf. rewrite !len_concat_sum, <- !List.firstn_map. by rewrite E. Qed.

Lemma idAt_insert objs i d j : (i < length objs)%nat -> len d = len (objs !!! i) ->
  idAt (<[i := d]> objs) j = idAt objs j /\ len (concat (<[i := d]> objs)) = len (concat objs).
Proof.
  intros Hi Hl. assert (E : map len (<[i := d]> objs) = map len objs).
  { change (len <$> <[i := d]> objs = len <$> objs). rewrite list_fmap_insert. apply list_insert_id.
    rewrite list_lookup_fmap. destruct (lookup_lt_is_Some_2 objs i Hi) as [x Hx]. rewrite Hx. cbn. f_equal.
    rewrite Hl. by rewrite (list_lookup_total_correct _ _ _ Hx). }
  split; [|by rewrite !len_concat_sum, E]. unfold idAt. rewrite (offsetOf_lens _ objs) by done. f_equal.
  destruct (decide (i = j)) as [->|Hne]; [by rewrite list_lookup_total_insert_eq|by rewrite list_lookup_total_insert_ne].
Qed.

Lemma idAt_app objs k j : (j < length objs)%nat -> idAt (objs ++ k) j = idAt objs j.
Proof.
  intros Hj. unfold idAt, offsetOf. rewrite take_app_le by lia. by rewrite lookup_total_app_l.
Qed.

Lemma object_bounds objs i : (i < length objs)%nat -> Forall (fun d => 0 < len d) objs ->
  0 <= offsetOf objs i /\ 0 < len (objs !!! i) /\ offsetOf objs i + len (objs !!! i) <= len (concat objs).
Proof.
  intros Hi Hp. pose proof (concat_split objs i Hi) as E. apply (f_equal len) in E. rewrite !len_app in E.
  unfold offsetOf. pose proof (len_nonneg (concat (take i objs))). pose proof (len_nonneg (concat (drop (S i) objs))).
  rewrite Forall_lookup in Hp. destruct (lookup_lt_is_Some_2 objs i Hi) as [x Hx]. specialize (Hp _ _ Hx).
  rewrite (list_lookup_total_correct _ _ _ Hx) in *. lia.
Qed.

(** The object's bytes are where its identifier says. *)
Lemma window_object objs i k : (i < length objs)%nat -> Forall (fun d => 0 < len d) objs ->
  len (concat objs) <= 65536 -> 0 <= k ->
  window (concat objs ++ zeros k) (offsetOf objs i) (len (objs !!! i)) = Ret (objs !!! i).
Proof.
  intros Hi Hp Hl Hk. destruct (object_bounds objs i Hi Hp) as (H1 & H2 & H3). unfold window.
  rewrite len_app, len_zeros by lia. rewrite u64_id by (unfold is_u; lia).
  destruct (Z.geb_spec (offsetOf objs i) (len (concat objs) + k)); [lia|]. cbn [negb].
  destruct (Z.gtb_spec (offsetOf objs i + len (objs !!! i)) (len (concat objs) + k)); [lia|]. cbn [negb].
  rewrite (concat_split objs i Hi), <- !app_assoc. by eapply slice_at.
Qed.

(** Writing over an object. *)
Lemma put_object objs i k d : (i < length objs)%nat -> Forall (fun d => 0 < len d) objs -> len d = len (objs !!! i) -> 0 <= k ->
  put_bytes (concat objs ++ zeros k) (offsetOf objs i) d = Ret (concat (<[i := d]> objs) ++ zeros k).
Proof.
  intros Hi Hp Hd Hk. destruct (object_bounds objs i Hi Hp) as (H1 & H2 & H3).
  rewrite put_bytes_ret by (rewrite ?len_app, ?len_zeros by lia; lia). f_equal. rewrite concat_insert by done.
  rewrite (concat_split objs i Hi), <- !app_assoc. by rewrite blit_app by (done || lia).
Qed.

Lemma header_ids h B used : header_holds h B used ->
  (exists ls, id_sizes h ls /\ B < 256 ^ ls) /\ MaxManagedObjectSize h = 65536.
Proof. intros (f & n & r & ls & -> & _ & _ & _ & Hls & Hb). split; [exists ls; by split|done]. Qed.

Lemma locate_object fh B cap objs i : holds fh B cap objs -> (i < length objs)%nat ->
  locate (Header fh) (idAt objs i) = Ret (offsetOf objs i, len (objs !!! i)).
Proof.
  intros [_ [(ls & Hls & Hf) _]%header_ids HB (a & c & k & _ & Hk & Hl) Hp] Hi. destruct (object_bounds objs i Hi Hp) as (H1 & H2 & H3).
  apply (locate_ret _ ls); [done|lia|lia].
Qed.

(** ** The operations on a heap that holds objects *)

Definition same_place (fh fh' : WritableFractalHeap) : Prop :=
  loadedHeaderAddress fh' = loadedHeaderAddress fh /\ loadedDirectBlockAddress fh' = loadedDirectBlockAddress fh.

Lemma GetObject_ret fh B cap objs i order : holds fh B cap objs -> (i < length objs)%nat ->
  GetObject fh order (idAt objs i) = Ret (objs !!! i).
Proof.
  intros H Hi. unfold GetObject. rewrite (locate_object fh B cap) by done. destruct H as [Hr _ HB (a & c & k & Hb & Hk & Hl) Hp].
  cbn [obind]. rewrite Hr. unfold deref. rewrite Hb. cbn [obind Objects]. apply window_object; (done || lia).
Qed.

(** Writing other bytes of the same length over an object keeps the rest. *)
Lemma holds_overwrite fh B cap objs i d b h :
  holds fh B cap objs -> (i < length objs)%nat -> len d = len (objs !!! i) -> blocks fh !! DirectBlock fh = Some b ->
  header_holds h B (len (concat objs)) ->
  exists objects, put_bytes (Objects b) (offsetOf objs i) d = Ret objects /\
    holds (with_blocks fh h (<[DirectBlock fh := with_objects b objects]> (blocks fh))) B cap (<[i := d]> objs).
Proof.
  intros [Hr Hhd HB (a & c & k & Hb & Hk & Hl) Hp] Hi Hd Hb' Hh. rewrite Hb in Hb'. injection Hb' as <-.
  destruct (object_bounds objs i Hi Hp) as (H1 & H2 & H3). cbn [Objects]. rewrite put_object by done.
  eexists. split; [done|]. destruct (idAt_insert objs i d 0 Hi Hd) as [_ El]. constructor; try done.
  - cbn [with_blocks Header]. by rewrite El.
  - exists a, c, k. cbn [with_blocks blocks DirectBlock]. rewrite list_lookup_insert_eq by (by eapply lookup_lt_Some).
    rewrite El. done.
  - apply Forall_insert; [done|lia].
Qed.

Lemma OverwriteObject_ret fh B cap objs i d : holds fh B cap objs -> (i < length objs)%nat ->
  if len d =? len (objs !!! i) then
    exists fh', OverwriteObject fh (idAt objs i) d = Ret fh' /\ holds fh' B cap (<[i := d]> objs) /\ same_place fh fh'
  else OverwriteObject fh (idAt objs i) d = Err "size mismatch".
Proof.
  intros H Hi. unfold OverwriteObject. rewrite (locate_object fh B cap) by done. cbn [obind].
  destruct (Z.eqb_spec (len d) (len (objs !!! i))) as [Hd|]; [|done].
  pose proof H as [Hr Hhd HB (a & c & k & Hb & Hk & Hl) Hp]. unfold deref. rewrite Hb. cbn [obind Objects].
  rewrite window_object by (done || lia). cbn [obind].
  destruct (holds_overwrite fh B cap objs i d _ (Header fh) H Hi Hd Hb) as (objects & E & Hh); [done|].
  cbn [Objects] in E. rewrite E. cbn [obind]. eexists. split; [done|]. by split.
Qed.

Lemma DeleteObject_ret fh B cap objs i : holds fh B cap objs -> (i < length objs)%nat ->
  exists fh', DeleteObject fh (idAt objs i) = Ret fh' /\ holds fh' B cap (<[i := zeros (len (objs !!! i))]> objs) /\ same_place fh fh'.
Proof.
  intros H Hi. unfold DeleteObject. rewrite (locate_object fh B cap) by done. cbn [obind].
  pose proof H as [Hr Hhd HB (a & c & k & Hb & Hk & Hl) Hp]. unfold deref. rewrite Hb. cbn [obind Objects].
  rewrite window_object by (done || lia). cbn [obind].
  destruct (holds_overwrite fh B cap objs i (zeros (len (objs !!! i))) _ (countDelete (Header fh) (len (objs !!! i))) H Hi
    ltac:(by rewrite len_zeros by apply len_nonneg) Hb) as (objects & E & Hh).
  { destruct Hhd as (f & n & r & ls & E & Hu & Hn & Hrt & Hls). rewrite E.
    eexists _, _, _, _. split; [reflexivity|]. split; [apply u64_range|split; [apply u64_range|split; [exact Hrt|exact Hls]]]. }
  cbn [Objects] in E. rewrite E. cbn [obind]. eexists. split; [done|]. by split.
Qed.

Lemma appendObject_ret a B objs k c d : 0 <= k -> 0 < len d -> len (concat objs) + len d <= B < 2 ^ 62 ->
  exists k', appendObject (mkDirect 0 a 0 B (concat objs ++ zeros k) (len (concat objs)) c) d =
    Ret (mkDirect 0 a 0 B (concat (objs ++ [d]) ++ zeros k') (len (concat (objs ++ [d]))) c, len (concat objs)) /\
    k' = Z.max 0 (k - len d).
Proof.
  intros Hk Hd HB. pose proof (len_nonneg (concat objs)). exists (Z.max 0 (k - len d)). split; [|done].
  unfold appendObject. cbn [FreeOffset Objects BlockVersion HeapHeaderAddress BlockOffset BlockSize ChecksumEnabled].
  rewrite u64_id, i64_id by (unfold is_u; lia). rewrite len_app, len_zeros by lia.
  match goal with |- context [if ?b then ?x else ?y] => set (objects := if b then x else y) end.
  assert (Eo : objects = concat objs ++ zeros (Z.max k (len d))).
  { subst objects. destruct (Z.gtb_spec (len (concat objs) + len d) (len (concat objs) + k)).
    - rewrite <- app_assoc, zeros_app by lia. do 2 f_equal. lia.
    - do 2 f_equal. lia. }
  rewrite Eo, copy_bytes_cursor by (done || lia). cbn [obind].
  rewrite concat_app. cbn [concat]. rewrite app_nil_r, !len_app. do 4 f_equal. f_equal. lia.
Qed.

Lemma InsertObject_step fh B objs d ls a c k order : RootIndirectBlock fh = None -> id_sizes (Header fh) ls ->
  MaxManagedObjectSize (Header fh) = 65536 ->
  blocks fh !! DirectBlock fh = Some (mkDirect 0 a 0 B (concat objs ++ zeros k) (len (concat objs)) c) ->
  0 <= k -> len (concat objs) + len d <= B < 2 ^ 62 -> 0 < len d <= 65536 -> len d < 256 ^ ls ->
  InsertObject fh order d =
    (with_blocks fh (countInsert (Header fh) (len d)) (<[DirectBlock fh :=
       mkDirect 0 a 0 B (concat (objs ++ [d]) ++ zeros (Z.max 0 (k - len d))) (len (concat (objs ++ [d]))) c]> (blocks fh)),
     Ret (hid (len (concat objs)) (len d))).
Proof.
  intros Hr Hls Hm Hb Hk HB Hd Hf. pose proof (len_nonneg (concat objs)).
  unfold InsertObject. destruct (Z.eqb_spec (len d) 0); [lia|]. rewrite Hm. destruct (Z.gtb_spec (len d) 65536); [lia|].
  unfold needsTransition. rewrite Hr. unfold insertViaDirect, deref. rewrite Hb. cbn [obind FreeOffset BlockSize].
  rewrite u64_id by (unfold is_u; lia). destruct (Z.leb_spec (len (concat objs) + len d) B); [|lia]. cbn [negb]. rewrite Hr, Hb.
  cbn [obind FreeOffset BlockSize]. rewrite u64_id by (unfold is_u; lia).
  destruct (Z.gtb_spec (len (concat objs) + len d) B); [lia|]. cbn [negb].
  destruct (appendObject_ret a B objs k c d Hk ltac:(lia) ltac:(lia)) as (k' & -> & ->). cbn [obind].
  rewrite (encodeHeapID_ret _ ls) by (first [by destruct Hls | lia]). reflexivity.
Qed.

Lemma InsertObject_ret fh B cap objs d order : holds fh B cap objs -> len (concat objs) + len d <= cap -> 0 < len d <= 65536 ->
  exists fh', InsertObject fh order d = (fh', Ret (hid (len (concat objs)) (len d))) /\ holds fh' B cap (objs ++ [d]) /\
    same_place fh fh'.
Proof.
  intros [Hr Hhd HB (a & c & k & Hb & Hk & Hl) Hp] Hfit Hd. pose proof (header_ids _ _ _ Hhd) as [(ls & Hls & Hf) Hm]. pose proof (len_nonneg (concat objs)).
  eexists. split; [apply (InsertObject_step fh B objs d ls a c k order); (done || lia)|].
  split; [|by split]. constructor; try done.
  - destruct Hhd as (f & n' & r & ls' & E & Hu & Hn & Hrt & Hls'). cbn [with_blocks Header]. rewrite E.
    unfold countInsert. cbn [heapHdr Version HeapIDLength IOFiltersLength Flags MaxManagedObjectSize NextHugeObjectID
      HugeObjectBTreeAddr FreeSpace FreeSectionAddress ManagedSpaceSize AllocatedManagedSpace ManagedSpaceOffset
      NumManagedObjects SizeHugeObjects NumHugeObjects SizeTinyObjects NumTinyObjects TableWidth StartingBlockSize
      MaxDirectBlockSize MaxHeapSize StartingNumRows RootBlockAddress CurrentNumRows HeapOffsetSize HeapLengthSize].
    rewrite concat_app, len_app. cbn [concat]. rewrite app_nil_r, (u64_id (_ + len d)) by (unfold is_u; lia).
    eexists _, _, _, _. split; [reflexivity|]. split; [apply u64_range|split; [apply u64_range|split; [exact Hrt|exact Hls']]].
  - exists a, c, (Z.max 0 (k - len d)). cbn [with_blocks blocks DirectBlock]. rewrite list_lookup_insert_eq by (by eapply lookup_lt_Some).
    split; [done|]. rewrite concat_app, len_app. cbn [concat]. rewrite app_nil_r. lia.
  - apply Forall_app. split; [done|]. constructor; [lia|done].
Qed.

(** ** Runs of calls *)

Definition idsOf (objs : list bytes) : list bytes := map (idAt objs) (seq 0 (length objs)).

Lemma idsOf_snoc objs d : idsOf (objs ++ [d]) = idsOf objs ++ [hid (len (concat objs)) (len d)].
Proof.
  unfold idsOf. rewrite length_app. cbn [length]. rewrite Nat.add_1_r, seq_S, map_app. cbn [map Nat.add]. f_equal.
  - apply map_ext_in. intros j Hj%in_seq. apply idAt_app. lia.
  - unfold idAt, offsetOf. rewrite take_app_length. by rewrite list_lookup_total_middle.
Qed.

Lemma idsOf_lookup objs i : (i < length objs)%nat -> idsOf objs !!! i = idAt objs i.
Proof.
  intros Hi. apply list_lookup_total_correct. unfold idsOf.
  change (map (idAt objs) (seq 0 (length objs))) with (idAt objs <$> seq 0 (length objs)).
  rewrite list_lookup_fmap, lookup_seq_lt by done. done.
Qed.

Lemma heap_idsOf_insert objs i d : (i < length objs)%nat -> len d = len (objs !!! i) -> idsOf (<[i := d]> objs) = idsOf objs.
Proof.
  intros Hi Hd. unfold idsOf. rewrite length_insert. apply map_ext. intros j. by apply (idAt_insert objs i d j).
Qed.

Lemma heap_call_refines B cap fh objs c : holds fh B cap objs -> call_fits cap objs c ->
  (run_heap (fh, idsOf objs) c).2 = (spec_heap objs c).2 /\
  exists fh', (run_heap (fh, idsOf objs) c).1 = (fh', idsOf (spec_heap objs c).1) /\ holds fh' B cap (spec_heap objs c).1 /\
    same_place fh fh'.
Proof.
  intros H Hc. pose proof (ho_header _ _ _ _ H) as [_ Hm]%header_ids. pose proof (len_nonneg (concat objs)).
  destruct c as [d|i|i d|i]; cbn [run_heap spec_heap call_fits] in *.
  - destruct (Z.eqb_spec (len d) 0) as [E|E].
    { unfold InsertObject. rewrite E. cbn [Z.eqb fst snd]. split; [reflexivity|]. by exists fh. }
    destruct (Z.gtb_spec (len d) 65536) as [Hgt|Hle].
    { unfold InsertObject. destruct (Z.eqb_spec (len d) 0); [lia|]. rewrite Hm. destruct (Z.gtb_spec (len d) 65536); [|lia].
      cbn [fst snd]. split; [reflexivity|]. by exists fh. }
    pose proof (len_nonneg d). destruct (InsertObject_ret fh B cap objs d [] H) as (fh' & -> & Hh & Hs); [lia|lia|]. cbn [fst snd].
    split; [done|]. exists fh'. rewrite idsOf_snoc. by split.
  - rewrite idsOf_lookup by done. rewrite (GetObject_ret fh B cap) by done. cbn [fst snd]. split; [done|]. by exists fh.
  - rewrite idsOf_lookup by done. pose proof (OverwriteObject_ret fh B cap objs i d H Hc) as Ho.
    destruct (Z.eqb_spec (len d) (len (objs !!! i))) as [Hd|Hd].
    + destruct Ho as (fh' & -> & Hh & Hs). cbn [fst snd]. split; [done|]. exists fh'. rewrite heap_idsOf_insert by done. by split.
    + rewrite Ho. cbn [fst snd]. split; [done|]. by exists fh.
  - rewrite idsOf_lookup by done. destruct (DeleteObject_ret fh B cap objs i H Hc) as (fh' & -> & Hh & Hs). cbn [fst snd].
    split; [done|]. exists fh'. rewrite heap_idsOf_insert by (done || by rewrite len_zeros by apply len_nonneg). by split.
Qed.

Lemma heap_calls_refine B cap cs : forall fh objs, holds fh B cap objs -> calls_fit cap objs cs ->
  (run_heaps run_heap (fh, idsOf objs) cs).2 = (run_heaps spec_heap objs cs).2 /\
  exists fh', (run_heaps run_heap (fh, idsOf objs) cs).1 = (fh', idsOf (run_heaps spec_heap objs cs).1) /\
    holds fh' B cap (run_heaps spec_heap objs cs).1 /\ same_place fh fh'.
Proof.
  induction cs as [|c cs IH]; intros fh objs H Hf; cbn [run_heaps calls_fit] in *; [split; [done|by exists fh]|].
  destruct Hf as [Hc Hf]. destruct (heap_call_refines B cap fh objs c H Hc) as (Ea & fh' & Es & Hh & Hs).
  destruct (run_heap (fh, idsOf objs) c) as [s a], (spec_heap objs c) as [objs' b]. cbn [fst snd] in *. subst s b.
  destruct (IH fh' objs' Hh Hf) as (El & fh'' & Es' & Hh' & Hs').
  destruct (run_heaps run_heap (fh', idsOf objs') cs), (run_heaps spec_heap objs' cs). cbn [fst snd] in *. subst.
  split; [done|]. exists fh''. destruct Hs, Hs'. split; [done|]. split; [done|]. split; congruence.
Qed.

Lemma heap_New_holds B cap : 0 < B < 16777216 -> 0 <= cap <= B -> cap <= 65536 -> holds (NewWritableFractalHeap B) B cap [].
Proof.
  intros HB Hc Hcap. constructor; try done.
  - exists B, 0, 0, 3. split; [reflexivity|]. unfold is_u. split_and!; lia.
  - lia.
  - exists 0, false, 0. split; [reflexivity|]. change (len (concat [])) with 0. lia.
Qed.

(** ** The heap in a file *)

Definition sb_plain8 (sb : Superblock) : Prop :=
  OffsetSize sb = 8 /\ LengthSize sb = 8 /\ Endianness sb = LittleEndian.

Definition heapBody (h : WritableHeapHeader) (sb : Superblock) : bytes :=
  HeapSignature ++ [z2b (Version h)] ++ fieldsBytes (headerFields h sb).

Lemma headerFields_sized h sb : sb_plain8 sb -> Forall field_sized (headerFields h sb).
Proof. intros (Ho & Hl & He). unfold headerFields. rewrite Ho, Hl. repeat constructor; unfold field_sized; cbn; lia. Qed.

Lemma len_headerFields h sb : sb_plain8 sb -> len (fieldsBytes (headerFields h sb)) = 137.
Proof.
  intros (Ho & Hl & He). unfold headerFields, fieldsBytes. rewrite Ho, Hl, He. cbn [map concat fieldBytes put_order].
  rewrite !len_app, !len_le_put. reflexivity.
Qed.

Lemma len_heapBody h sb : sb_plain8 sb -> len (heapBody h sb) = 142.
Proof. intros H. unfold heapBody. rewrite !len_app, len_headerFields by done. reflexivity. Qed.

Lemma encodeHeapHeader_ret h sb : sb_plain8 sb -> encodeHeapHeader h sb = Ret (summed (heapBody h sb)).
Proof.
  intros Hsb. pose proof Hsb as (Ho & Hl & He). unfold encodeHeapHeader, heapHeaderSize. rewrite Ho, Hl.
  change (22 + 12 * 8 + 3 * 8 + 4) with 146. change (zeros 146) with ([] ++ zeros 146).
  rewrite putFields_ret by (cbn [contiguous map snd concat]; first [split_and!; done | change (len _) with 5; lia]).
  cbn [obind map snd concat]. rewrite app_nil_r, app_nil_l.
  change (len (HeapSignature ++ [z2b (Version h)])) with 5. change (146 - 5) with 141.
  rewrite writeUints_ret by first [by apply headerFields_sized | reflexivity | (rewrite len_headerFields by done; lia)].
  cbn [obind]. rewrite <- app_assoc. change (HeapSignature ++ [z2b (Version h)] ++ fieldsBytes (headerFields h sb)) with (heapBody h sb).
  rewrite len_headerFields by done. change (141 - 137) with 4. replace (5 + 137) with (len (heapBody h sb)) by (by rewrite len_heapBody).
  apply put_summed.
Qed.

(** The length size a reader computes. *)
Definition readLengthSize (B : Z) : Z := if computeOffsetSize B <? 3 then computeOffsetSize B else 3.

Lemma readLengthSize_ok B : 0 < B < 16777216 -> 1 <= readLengthSize B <= 3 /\ B < 256 ^ readLengthSize B.
Proof.
  intros HB. destruct (computeOffsetSize_fits B) as [H1 H2]; [unfold is_u; lia|]. unfold readLengthSize.
  destruct (Z.ltb_spec (computeOffsetSize B) 3); [lia|]. split; [lia|]. change (256 ^ 3) with 16777216. lia.
Qed.

Lemma headerFields_ok B free used count root ls rows sb : sb_plain8 sb -> 0 < B < 16777216 -> is_u 16 rows ->
  is_u 64 free -> is_u 64 used -> is_u 64 count -> is_u 64 root ->
  Forall (field_ok LittleEndian) (headerFields (with_rows (heapHdr B free used count root ls) rows) sb).
Proof.
  intros (Ho & Hl & He) HB Hw Hf Hu Hc Hr. unfold headerFields, is_u in *. rewrite Ho, Hl, He.
  repeat constructor; cbn; lia.
Qed.

Lemma parseHeader_ret f addr B free used count root ls rows sb (h := with_rows (heapHdr B free used count root ls) rows) :
  sb_plain8 sb -> 0 < B < 16777216 -> is_u 16 rows -> is_u 64 free -> is_u 64 used -> is_u 64 count -> is_u 64 root ->
  0 <= addr < 2 ^ 63 -> stored f addr (summed (heapBody h sb)) ->
  parseFractalHeapHeader f addr sb = Ret (with_rows (heapHdr B free used count root (readLengthSize B)) rows, false).
Proof.
  intros Hsb HB Hw Hf Hu Hc Hr Ha Hst. pose proof Hsb as (Ho & Hl & He). unfold parseFractalHeapHeader, heapHeaderSize. cbv zeta.
  apply stored_app_l in Hst. unfold stored in Hst. rewrite len_heapBody in Hst by done.
  rewrite Ho, Hl, He, i64_id by lia. change (22 + 12 * 8 + 3 * 8) with 142. rewrite Hst. cbn [obind].
  rewrite (slice_at _ [] HeapSignature ([z2b (Version h)] ++ fieldsBytes (headerFields h sb))) by done. cbn [obind].
  rewrite bool_decide_true by done. change (idx (heapBody h sb) 4) with (Ret x00). cbn [obind].
  change (b2z x00 =? 0) with true. cbn iota.
  rewrite (readUints_at LittleEndian (headerFields h sb) _ (HeapSignature ++ [z2b 0]) []); [|by apply headerFields_ok|by rewrite app_nil_r|done|].
  2: { unfold headerFields. by rewrite Ho, Hl. }
  cbn [obind headerFields map fieldValue]. unfold h, heapHdr, with_rows. cbn [HeapIDLength IOFiltersLength Flags MaxManagedObjectSize
    NextHugeObjectID HugeObjectBTreeAddr FreeSpace FreeSectionAddress ManagedSpaceSize AllocatedManagedSpace ManagedSpaceOffset
    NumManagedObjects SizeHugeObjects NumHugeObjects SizeTinyObjects NumTinyObjects TableWidth StartingBlockSize
    MaxDirectBlockSize MaxHeapSize StartingNumRows RootBlockAddress CurrentNumRows]. reflexivity.
Qed.

(** The content of a direct block before its checksum: [cap] bytes of object
    space. *)
Definition blockBody (headerAddr B : Z) (objs : list bytes) : bytes :=
  (DirectBlockSignature ++ [x00] ++ le_put 8 headerAddr ++ le_put 2 0) ++ concat objs ++ zeros (B - 19 - len (concat objs)).

Lemma len_blockBody a B objs : len (concat objs) <= B - 19 -> len (blockBody a B objs) = B - 4.
Proof. intros H. unfold blockBody. rewrite !len_app, !len_le_put, len_zeros by lia. change (len DirectBlockSignature) with 4. change (len [x00]) with 1. lia. Qed.

Lemma encodeDirectBlock_ret h a B objs k c sb : sb_plain8 sb -> HeapOffsetSize h = 2 ->
  0 <= k -> len (concat objs) + k <= B - 19 ->
  encodeDirectBlock h (mkDirect 0 a 0 B (concat objs ++ zeros k) (len (concat objs)) c) sb = Ret (summed (blockBody a B objs)).
Proof.
  intros (Ho & Hl & He) Hos Hk Hfit. pose proof (len_nonneg (concat objs)). unfold encodeDirectBlock. cbn [BlockSize BlockVersion HeapHeaderAddress BlockOffset Objects].
  rewrite Ho, He, Hos. cbv zeta. change (zeros B) with ([] ++ zeros B).
  rewrite copy_bytes_cursor by (first [reflexivity | change (len DirectBlockSignature) with 4; lia]). cbn [obind].
  rewrite app_nil_l. change (len DirectBlockSignature) with 4.
  rewrite put_bytes_cursor by (first [reflexivity | change (len [z2b 0]) with 1; lia]). cbn [obind]. change (len [z2b 0]) with 1.
  set (fs := [(LittleEndian, 8, a); (LittleEndian, 2, 0)]).
  assert (Hfs : len (fieldsBytes fs) = 10) by reflexivity.
  rewrite writeUints_ret; [|repeat constructor; unfold field_sized; cbn; lia|reflexivity|rewrite Hfs; lia].
  cbn [obind]. rewrite Hfs. change (5 + 10) with 15. rewrite copy_bytes_cursor.
  2: { rewrite len_app, Hfs. reflexivity. }
  2: { rewrite len_app, len_zeros by lia. lia. }
  cbn [obind]. rewrite len_app, len_zeros by lia.
  match goal with |- context [?b ++ zeros (B - 4 - 1 - 10 - (len (concat objs) + k))] =>
    replace (b ++ zeros (B - 4 - 1 - 10 - (len (concat objs) + k))) with (blockBody a B objs ++ zeros 4); cycle 1 end.
  { unfold blockBody, fs, fieldsBytes. cbn [map concat fieldBytes put_order]. rewrite app_nil_r.
    change (Z.to_nat 8) with 8%nat. change (Z.to_nat 2) with 2%nat. change (z2b 0) with x00. rewrite <- !app_assoc. do 5 f_equal.
    rewrite !zeros_app by lia. f_equal. lia. }
  replace (B - 4) with (len (blockBody a B objs)) by (rewrite len_blockBody; lia). apply put_summed.
Qed.

(** The fixed part of a direct block. *)
Definition blockHead (headerAddr : Z) : bytes := DirectBlockSignature ++ [x00] ++ le_put 8 headerAddr ++ le_put 2 0.

Lemma parseDirectBlock_gen f addr a B data sb dataEnd : sb_plain8 sb -> 0 < addr < 2 ^ 63 -> is_u 64 a -> B < 2 ^ 63 ->
  len data = B - 15 -> 15 <= dataEnd <= B -> stored f addr (blockHead a ++ data) ->
  parseDirectBlock f addr B 2 a dataEnd sb = Ret (mkDirectRead 0 a 0 (take (Z.to_nat (dataEnd - 15)) data)).
Proof.
  intros (Ho & Hl & He) Ha Hua HB Hdl Hd Hst. unfold parseDirectBlock. unfold MaxUint64.
  destruct (Z.eqb_spec addr 0); [lia|]. destruct (Z.eqb_spec addr (2 ^ 64 - 1)); [lia|]. cbn [orb negb].
  destruct (Z.geb_spec B (2 ^ 63)); [lia|]. unfold stored in Hst. rewrite len_app in Hst. change (len (blockHead a)) with 15 in Hst.
  rewrite i64_id by lia. replace (15 + len data) with B in Hst by lia. rewrite Hst. cbn [obind]. clear Hst. unfold blockHead.
  set (buf := _ ++ data).
  rewrite (slice_at buf [] DirectBlockSignature ([x00] ++ le_put 8 a ++ le_put 2 0 ++ data)) by (subst buf; rewrite <- ?app_assoc; done).
  cbn [obind]. rewrite bool_decide_true by done. change (idx buf 4) with (Ret x00). cbn [obind].
  change (b2z x00 =? 0) with true. cbn iota. rewrite He, Ho.
  rewrite (readUints_at LittleEndian [(LittleEndian, 8, a)] buf (DirectBlockSignature ++ [x00]) (le_put 2 0 ++ data));
    [|repeat constructor; unfold is_u in Hua; cbn; lia|subst buf; unfold fieldsBytes; cbn [map concat fieldBytes put_order]; rewrite <- !app_assoc; done|done|done].
  cbn [obind map fieldValue]. rewrite Z.eqb_refl.
  rewrite (readUints_at LittleEndian [(LittleEndian, 2, 0)] buf (DirectBlockSignature ++ [x00] ++ le_put 8 a) data);
    [|repeat constructor; cbn; lia|subst buf; unfold fieldsBytes; cbn [map concat fieldBytes put_order]; rewrite <- !app_assoc; done|done|done].
  cbn [obind map fieldValue]. change (5 + 8 + 2) with 15.
  rewrite (slice_at buf (DirectBlockSignature ++ [x00] ++ le_put 8 a ++ le_put 2 0)
    (take (Z.to_nat (dataEnd - 15)) data) (drop (Z.to_nat (dataEnd - 15)) data)); [done| |reflexivity|rewrite len_take; lia].
  subst buf. by rewrite take_drop.
Qed.

Lemma parseDirectBlock_ret f addr a B objs sb dataEnd : sb_plain8 sb -> len (concat objs) <= B - 19 -> B < 2 ^ 63 ->
  0 < addr < 2 ^ 63 -> is_u 64 a -> stored f addr (summed (blockBody a B objs)) ->
  dataEnd = B - 4 \/ dataEnd = B ->
  exists tail, parseDirectBlock f addr B 2 a dataEnd sb =
    Ret (mkDirectRead 0 a 0 (concat objs ++ zeros (B - 19 - len (concat objs)) ++ tail)) /\ len tail = dataEnd - (B - 4).
Proof.
  intros Hsb Hfit HB Ha Hua Hst Hd. pose proof (len_nonneg (concat objs)). unfold summed in Hst.
  set (c := le_put 4 _) in Hst. assert (Hc : len c = 4) by (subst c; by rewrite len_le_put). clearbody c.
  set (data := concat objs ++ zeros (B - 19 - len (concat objs))).
  assert (Hdl : len data = B - 19) by (subst data; rewrite len_app, len_zeros by lia; lia).
  change (blockBody a B objs) with (blockHead a ++ data) in Hst. rewrite <- app_assoc in Hst.
  exists (take (Z.to_nat (dataEnd - (B - 4))) c). split; [|rewrite len_take; lia].
  rewrite (parseDirectBlock_gen f addr a B (data ++ c)) by (done || lia || (rewrite len_app; lia)).
  rewrite take_app, (take_ge data) by (unfold len in *; lia). rewrite app_assoc. fold data. do 3 f_equal.
  f_equal. unfold len in *. lia.
Qed.

(** A heap holding [objs] is stored with its header at [addr] and its block of
    [B] bytes at [root]. *)
Record heap_at (f : bytes) (addr root : Z) (sb : Superblock) (B : Z) (objs : list bytes) : Prop := {
  ha_header : exists free count ls, is_u 64 free /\ is_u 64 count /\
    stored f addr (summed (heapBody (heapHdr B free (len (concat objs)) count root ls) sb));
  ha_block : stored f root (summed (blockBody addr B objs));
  ha_addr : 0 < addr < 2 ^ 63;
  ha_root : 0 < root < 2 ^ 63;
  ha_size : (0 < B < 16777216 /\ len (concat objs) <= 65536) /\ len (concat objs) <= B - 19;
  ha_objs : Forall (fun d => 0 < len d) objs }.

Lemma open_stored f addr root sb B objs : heap_at f addr root sb B objs -> sb_plain8 sb ->
  exists free count, is_u 64 free /\ is_u 64 count /\
    OpenFractalHeap f addr sb =
      Ret (mkReader (heapHdr B free (len (concat objs)) count root (readLengthSize B)) false addr).
Proof.
  intros [(free & count & ls & Hf & Hc & Hst) _ Ha Hr [HB Hfit] _] Hsb. exists free, count. split_and!; try done.
  unfold OpenFractalHeap, MaxUint64. destruct (Z.eqb_spec addr 0); [lia|]. destruct (Z.eqb_spec addr (2 ^ 64 - 1)); [lia|].
  cbn [orb negb]. pose proof (len_nonneg (concat objs)).
  rewrite (parseHeader_ret f addr B free (len (concat objs)) count root ls 0); [done|done|lia|done|done| |done| |lia|done]; unfold is_u; lia.
Qed.

Lemma parseHeapID_ret rd ls o l sb : id_sizes (rHeader rd) ls -> Endianness sb = LittleEndian ->
  0 <= o < 65536 -> 0 <= l < 256 ^ ls -> parseHeapID rd (hid o l) sb = Ret (mkHeapID (hid o l) 0 0 o l).
Proof.
  intros [H1 H2 H3 H4] He Ho Hl. unfold parseHeapID. cbv zeta. rewrite length_hid, H2, H3, He.
  change (8 <? 1) with false. cbn [negb]. change (idx (hid o l) 0) with (Ret x00). cbn [obind].
  change (Z.shiftr (Z.land (b2z x00) 0xC0) 6) with 0. change (Z.land (b2z x00) 0x30) with 0.
  change (0 =? 0) with true. change (0 =? HeapIDTypeManaged) with true. cbn iota.
  destruct (Z.ltb_spec 8 (1 + 2 + ls)); [lia|]. cbn [negb].
  rewrite (readUints_at LittleEndian [(LittleEndian, 2, o); (LittleEndian, ls, l)] _ [x00] (zeros (5 - ls))); [done| | |done|done].
  - repeat constructor; cbn; lia.
  - rewrite (hid_split ls) by done. unfold fieldsBytes. cbn [map concat fieldBytes put_order]. by rewrite app_nil_r.
Qed.

(** A reader of the file gets every object by its identifier. *)
Lemma ReadObject_ret f addr root sb B objs rd i : heap_at f addr root sb B objs -> sb_plain8 sb ->
  OpenFractalHeap f addr sb = Ret rd -> (i < length objs)%nat -> ReadObject rd f (idAt objs i) sb = Ret (objs !!! i).
Proof.
  intros H Hsb Hrd Hi. destruct (open_stored _ _ _ _ _ _ H Hsb) as (free & count & _ & _ & E). rewrite E in Hrd. injection Hrd as <-.
  destruct H as [_ Hst Ha Hr [HB Hfit] Hp]. destruct (object_bounds objs i Hi Hp) as (H1 & H2 & H3).
  destruct (readLengthSize_ok B (proj1 HB)) as [Hls Hlt]. pose proof Hsb as (Ho & Hl & He).
  unfold ReadObject, idAt. rewrite (parseHeapID_ret _ (readLengthSize B)) by (first [by split | done | lia]).
  cbn [obind IDType]. change (0 =? HeapIDTypeManaged) with true. cbn iota.
  unfold readManagedObject. cbn [rHeader heapHdr CurrentNumRows]. change (0 =? 0) with true. cbn iota.
  unfold readDirectBlock. cbn [rHeader heapHdr HeapOffsetSize headerAddr ChecksumDirectBlocks RootBlockAddress StartingBlockSize].
  destruct (parseDirectBlock_ret f root addr B objs sb B Hsb Hfit) as (tail & -> & Ht); [lia|lia|unfold is_u; lia|done|by right|].
  cbn [obind rBlockOffset rData IDOffset IDLength]. destruct (Z.ltb_spec (offsetOf objs i) 0); [lia|]. cbn [negb].
  rewrite Z.sub_0_r, !len_app, len_zeros, Ht by lia. destruct (Z.gtb_spec (offsetOf objs i) (len (concat objs) + (B - 19 - len (concat objs) + (B - (B - 4))))); [lia|].
  cbn [negb]. rewrite u64_id by (unfold is_u; lia).
  destruct (Z.gtb_spec (offsetOf objs i + len (objs !!! i)) (len (concat objs) + (B - 19 - len (concat objs) + (B - (B - 4))))); [lia|].
  cbn [negb]. rewrite (concat_split objs i Hi), <- !app_assoc. by eapply slice_at.
Qed.

Lemma holds_len fh B cap objs : holds fh B cap objs -> len (concat objs) <= cap.
Proof. intros [_ _ _ (a & c & k & _ & Hk & Hl) _]. lia. Qed.

(** Loading gives a writable heap that holds the objects. *)
Lemma heap_LoadFromFile_fits f addr root sb B cap objs fh0 : heap_at f addr root sb B objs -> sb_plain8 sb -> RootIndirectBlock fh0 = None ->
  len (concat objs) <= cap -> cap <= B - 19 -> cap <= 65536 ->
  exists fh, LoadFromFile fh0 f addr sb = Ret fh /\ holds fh B cap objs /\
    loadedHeaderAddress fh = addr /\ loadedDirectBlockAddress fh = root.
Proof.
  intros H Hsb Hr0 Hoc Hcap HB65. destruct (open_stored _ _ _ _ _ _ H Hsb) as (free & count & Hf & Hc & E).
  destruct H as [_ Hst Ha Hr [HB Hfit] Hp]. destruct (readLengthSize_ok B (proj1 HB)) as [Hls Hlt].
  unfold LoadFromFile, MaxUint64. destruct (Z.eqb_spec addr 0); [lia|]. destruct (Z.eqb_spec addr (2 ^ 64 - 1)); [lia|].
  cbn [orb negb]. rewrite E. cbn [obind rHeader headerAddr]. cbn [heapHdr CurrentNumRows RootBlockAddress StartingBlockSize HeapOffsetSize].
  change (0 =? 0) with true. cbn iota. unfold readDirectBlockFromFile.
  destruct (parseDirectBlock_ret f root addr B objs sb (B - 4) Hsb Hfit) as (tail & -> & Ht); [lia|lia|unfold is_u; lia|done|by left|].
  assert (tail = []) as -> by (apply len_0_nil; lia). cbn [obind]. eexists. split; [reflexivity|].
  split; [|by split]. constructor; try done.
  - eexists _, _, _, _. split; [reflexivity|]. split; [exact Hf|split; [exact Hc|split; [unfold is_u; lia|by split]]].
  - lia.
  - exists addr, false, (B - 19 - len (concat objs)). cbn [blocks DirectBlock]. split; [|lia].
    rewrite list_lookup_middle by done. rewrite app_nil_r. reflexivity.
Qed.

Lemma heap_LoadFromFile_ret f addr root sb B objs fh0 : heap_at f addr root sb B objs -> sb_plain8 sb -> RootIndirectBlock fh0 = None -> B <= 65536 ->
  exists fh, LoadFromFile fh0 f addr sb = Ret fh /\ holds fh B (B - 19) objs /\
    loadedHeaderAddress fh = addr /\ loadedDirectBlockAddress fh = root.
Proof. intros H Hsb Hr0 HB. pose proof (ha_size _ _ _ _ _ _ H) as Hs. apply heap_LoadFromFile_fits; [exact H|done|done|lia|lia|lia]. Qed.

(** Both writers set the addresses first. *)
Lemma with_addresses_holds fh B cap objs b ha ra : holds fh B cap objs -> blocks fh !! DirectBlock fh = Some b ->
  is_u 64 ra -> holds (with_addresses fh b ha ra) B cap objs.
Proof.
  intros [Hr (f & n & r & ls & E & Hf & Hn & Hrt & Hls) HB (a & c & k & Hb & Hk & Hl) Hp] Hb' Hra. rewrite Hb in Hb'. injection Hb' as <-.
  constructor; try done.
  - cbn [with_addresses with_blocks Header]. rewrite E. eexists _, _, _, _. split; [reflexivity|].
    split; [exact Hf|split; [exact Hn|split; [exact Hra|exact Hls]]].
  - exists ha, c, k. cbn [with_addresses with_blocks blocks DirectBlock]. rewrite list_lookup_insert_eq by (by eapply lookup_lt_Some). done.
Qed.

(** What both writers write. *)
Lemma encode_heap fh B cap objs b ha ra sb (fh' := with_addresses fh b ha ra) :
  holds fh B cap objs -> cap <= B - 19 -> sb_plain8 sb -> blocks fh !! DirectBlock fh = Some b ->
  exists free count ls, is_u 64 free /\ is_u 64 count /\
    encodeHeapHeader (Header fh') sb = Ret (summed (heapBody (heapHdr B free (len (concat objs)) count ra ls) sb)) /\
    exists b', deref fh' (DirectBlock fh') = Ret b' /\ encodeDirectBlock (Header fh') b' sb = Ret (summed (blockBody ha B objs)).
Proof.
  intros [Hr (f & n & r & ls & E & Hf & Hn & Hrt & Hls) HB (a & c & k & Hb & Hk & Hl) Hp] Hcap Hsb Hb'. rewrite Hb in Hb'. injection Hb' as <-.
  exists f, n, ls. split; [exact Hf|]. split; [exact Hn|]. subst fh'. unfold with_addresses. rewrite E. cbn [with_blocks Header]. split.
  - rewrite encodeHeapHeader_ret by done. reflexivity.
  - eexists. split.
    + unfold deref. cbn [with_blocks blocks DirectBlock]. rewrite list_lookup_insert_eq by (by eapply lookup_lt_Some). reflexivity.
    + apply encodeDirectBlock_ret; (done || lia).
Qed.

Section storing.
Context `{SL : StorageLaws St}.
Hypothesis Hfirst : 0 < first_address.

(** Storing any heap whose block can be encoded. *)
Lemma WriteToFile_gen fh b st n sb : usable st n -> sb_plain8 sb -> blocks fh !! DirectBlock fh = Some b ->
  0 < BlockSize b -> 146 + BlockSize b <= n ->
  (forall ha ra, exists bd, encodeDirectBlock (with_root_address (Header fh) ra) (with_header_address b ha) sb = Ret bd /\
     len bd = BlockSize b) ->
  exists addr root st' bd, WriteToFile fh st sb = Ret (addr, with_addresses fh b addr root, st') /\
    usable st' (n - 146 - BlockSize b) /\
    owned st' = owned st ++ [mkBlock addr 146; mkBlock root (BlockSize b)] /\ preserves (contents st) (contents st') (owned st) /\
    0 < addr < 2 ^ 63 /\ 0 < root < 2 ^ 63 /\
    encodeDirectBlock (with_root_address (Header fh) root) (with_header_address b addr) sb = Ret bd /\
    stored (contents st') addr (summed (heapBody (with_root_address (Header fh) root) sb)) /\ stored (contents st') root bd.
Proof.
  intros Hu Hsb Hb HB Hn Henc. pose proof Hsb as (Ho & Hl8 & He). set (B := BlockSize b) in *.
  destruct (allocate_law st n 146 Hu ltac:(lia)) as (ha & st1 & E1 & Hu1 & Ec1 & Eo1 & Hd1).
  destruct (allocate_law st1 _ B Hu1 ltac:(lia)) as (ra & st2 & E2 & Hu2 & Ec2 & Eo2 & Hd2).
  set (hb := mkBlock ha 146) in *. set (rb := mkBlock ra B) in *.
  assert (Eo : owned st2 = owned st ++ [hb; rb]) by (rewrite Eo2, Eo1, <- app_assoc; reflexivity).
  assert (Hih : hb ∈ owned st2) by (rewrite Eo; set_solver). assert (Hir : rb ∈ owned st2) by (rewrite Eo; set_solver).
  pose proof (owned_range _ _ _ Hu2 Hih) as (Hh1 & Hh2 & Hh3). pose proof (owned_range _ _ _ Hu2 Hir) as (Hr1 & Hr2 & Hr3).
  pose proof (owned_from _ _ _ Hu2 Hih) as Hf1. pose proof (owned_from _ _ _ Hu2 Hir) as Hf2.
  unfold bend in Hh3, Hr3. subst hb rb. cbn [Offset Size] in *.
  destruct (Henc ha ra) as (bd & Ebd & Hbd). set (hd := summed (heapBody (with_root_address (Header fh) ra) sb)).
  assert (Hhd : len hd = 146) by (subst hd; rewrite len_summed, len_heapBody by done; reflexivity).
  destruct (write_law st2 _ hd ha Hu2 ltac:(lia) ltac:(lia)) as (st3 & E3 & Hu3 & Eo3 & Ec3).
  destruct (write_law st3 _ bd ra Hu3 ltac:(lia) ltac:(lia)) as (st4 & E4 & Hu4 & Eo4 & Ec4).
  assert (Ef : contents st4 = write_at (write_at (contents st) ha hd) ra bd) by congruence.
  rewrite Eo1 in Hd2. apply Forall_app in Hd2 as [Hd2 [Hd2' _]%Forall_cons].
  exists ha, ra, st4, bd. split_and!; try lia.
  - unfold WriteToFile, deref. rewrite Hb. cbn [obind]. unfold heapHeaderSize. rewrite Ho, Hl8.
    change (22 + 12 * 8 + 3 * 8 + 4) with 146. rewrite E1. cbn [obind]. fold B. rewrite E2. cbn [obind].
    unfold writeHeaderAt. cbn [with_addresses with_blocks Header]. rewrite encodeHeapHeader_ret by done. cbn [obind]. fold hd.
    rewrite E3. cbn [obind]. unfold writeDirectBlockAt, deref. cbn [with_addresses with_blocks blocks DirectBlock Header].
    rewrite list_lookup_insert_eq by (by eapply lookup_lt_Some). cbn [obind]. rewrite Ebd. cbn [obind]. rewrite E4. reflexivity.
  - exact Hu4.
  - by rewrite Eo4, Eo3.
  - rewrite Ef. apply (preserves_trans _ (write_at (contents st) ha hd) _ (owned st) (owned st)); [done| |].
    + apply (write_preserves _ (mkBlock ha 146)); unfold bend; cbn [Offset Size]; (lia || exact Hd1).
    + apply (write_preserves _ (mkBlock ra B)); unfold bend; cbn [Offset Size]; (lia || exact Hd2).
  - exact Ebd.
  - fold hd. rewrite Ef. apply stored_other; [lia| |by apply stored_write]. unfold disjoint_blocks, bend in *. cbn [Offset Size] in *. lia.
  - rewrite Ef. apply stored_write. lia.
Qed.

(** The objects take no more than the block's object space. *)
Lemma heap_WriteToFile_fits fh B cap objs st n sb : usable st n -> holds fh B cap objs -> cap <= B - 19 -> sb_plain8 sb -> 146 + B <= n ->
  exists addr root fh' st', WriteToFile fh st sb = Ret (addr, fh', st') /\ usable st' (n - 146 - B) /\
    owned st' = owned st ++ [mkBlock addr 146; mkBlock root B] /\ preserves (contents st) (contents st') (owned st) /\
    heap_at (contents st') addr root sb B objs /\ holds fh' B cap objs.
Proof.
  intros Hu Hobj Hcap Hsb Hn. pose proof Hobj as [_ Hhd HB (a & c & k & Hb & Hk & Hl) Hp]. pose proof (len_nonneg (concat objs)).
  pose proof Hhd as (f & m & r & ls & E & Hf & Hm & Hr & Hls).
  assert (Henc : forall ha ra, encodeDirectBlock (with_root_address (Header fh) ra)
    (with_header_address (mkDirect 0 a 0 B (concat objs ++ zeros k) (len (concat objs)) c) ha) sb = Ret (summed (blockBody ha B objs))).
  { intros ha ra. rewrite E. apply encodeDirectBlock_ret; (done || lia). }
  destruct (WriteToFile_gen fh _ st n sb Hu Hsb Hb) as (addr & root & st' & bd & E1 & Hu' & Eo & Hpr & Ha & Hro & Ebd & Hsh & Hsb').
  { cbn. lia. }
  { cbn. lia. }
  { intros ha ra. exists (summed (blockBody ha B objs)). split; [apply Henc|]. rewrite len_summed, len_blockBody; cbn; lia. }
  rewrite Henc in Ebd. injection Ebd as <-. exists addr, root, (with_addresses fh (mkDirect 0 a 0 B (concat objs ++ zeros k) (len (concat objs)) c) addr root), st'.
  split_and!; [exact E1|exact Hu'|exact Eo|exact Hpr| |].
  - constructor; [|exact Hsb'|exact Ha|exact Hro|lia|exact Hp]. rewrite E in Hsh. exists f, m, ls. by split_and!.
  - apply with_addresses_holds; [exact Hobj|exact Hb|unfold is_u; lia].
Qed.

Lemma heap_WriteToFile_ok fh B objs st n sb : usable st n -> holds fh B (B - 19) objs -> sb_plain8 sb -> 146 + B <= n ->
  exists addr root fh' st', WriteToFile fh st sb = Ret (addr, fh', st') /\ usable st' (n - 146 - B) /\
    owned st' = owned st ++ [mkBlock addr 146; mkBlock root B] /\ preserves (contents st) (contents st') (owned st) /\
    heap_at (contents st') addr root sb B objs /\ holds fh' B (B - 19) objs.
Proof. intros Hu Hobj. by apply heap_WriteToFile_fits. Qed.

Lemma heap_WriteAt_fits fh B cap objs st n sb rest : usable st n -> holds fh B cap objs -> cap <= B - 19 -> sb_plain8 sb ->
  loadedHeaderAddress fh <> 0 ->
  owned st ≡ₚ mkBlock (loadedHeaderAddress fh) 146 :: mkBlock (loadedDirectBlockAddress fh) B :: rest ->
  exists fh' st', WriteAt fh st sb = Ret (fh', st') /\ usable st' n /\ owned st' = owned st /\
    preserves (contents st) (contents st') rest /\
    heap_at (contents st') (loadedHeaderAddress fh) (loadedDirectBlockAddress fh) sb B objs /\ holds fh' B cap objs.
Proof.
  intros Hu Hobj Hcap Hsb Hla Hown. pose proof Hobj as [_ _ HB (a & c & k & Hb & Hk & Hl) Hp]. pose proof (len_nonneg (concat objs)).
  set (ha := loadedHeaderAddress fh) in *. set (ra := loadedDirectBlockAddress fh) in *.
  set (hb := mkBlock ha 146) in *. set (rb := mkBlock ra B) in *.
  pose proof (owned_disjoint _ _ _ _ Hu Hown) as Hd1.
  assert (owned st ≡ₚ rb :: hb :: rest) as Hown' by (rewrite Hown; constructor).
  pose proof (owned_disjoint _ _ _ _ Hu Hown') as Hd2.
  assert (Hih : hb ∈ owned st) by (rewrite Hown; left). assert (Hir : rb ∈ owned st) by (rewrite Hown'; left).
  pose proof (owned_range _ _ _ Hu Hih) as (Hh1 & Hh2 & Hh3). pose proof (owned_range _ _ _ Hu Hir) as (Hr1 & Hr2 & Hr3).
  pose proof (owned_from _ _ _ Hu Hih) as Hf1. pose proof (owned_from _ _ _ Hu Hir) as Hf2.
  unfold bend in Hh3, Hr3. subst hb rb. cbn [Offset Size] in *.
  destruct (encode_heap fh B cap objs _ ha ra sb Hobj Hcap Hsb Hb) as (free & count & ls & Hfr & Hct & Ehd & b' & Eb' & Ebl).
  set (fh' := with_addresses fh _ ha ra) in *. set (hd := summed (heapBody _ sb)) in *. set (bd := summed (blockBody ha B objs)) in *.
  assert (Hhd : len hd = 146) by (subst hd; rewrite len_summed, len_heapBody by done; reflexivity).
  assert (Hbd : len bd = B) by (subst bd; rewrite len_summed, len_blockBody by lia; lia).
  destruct (write_law st n hd ha Hu ltac:(lia) ltac:(lia)) as (st3 & E3 & Hu3 & Eo3 & Ec3).
  destruct (write_law st3 n bd ra Hu3 ltac:(lia) ltac:(lia)) as (st4 & E4 & Hu4 & Eo4 & Ec4).
  assert (Ef : contents st4 = write_at (write_at (contents st) ha hd) ra bd) by congruence.
  apply Forall_cons in Hd1 as [Hhr Hd1]. apply Forall_cons in Hd2 as [_ Hd2].
  exists fh', st4. split_and!.
  - unfold WriteAt. fold ha ra. destruct (Z.eqb_spec ha 0); [done|]. cbn [negb]. unfold deref. rewrite Hb. cbn [obind]. fold fh'.
    change (loadedHeaderAddress fh') with ha. change (loadedDirectBlockAddress fh') with ra.
    unfold writeHeaderAt. rewrite Ehd. cbn [obind]. rewrite E3. cbn [obind]. unfold writeDirectBlockAt. rewrite Eb'. cbn [obind].
    rewrite Ebl. cbn [obind]. rewrite E4. reflexivity.
  - exact Hu4.
  - by rewrite Eo4, Eo3.
  - rewrite Ef. apply (preserves_trans _ (write_at (contents st) ha hd) _ rest rest); [done| |].
    + apply (write_preserves _ (mkBlock ha 146)); unfold bend; cbn [Offset Size]; (lia || exact Hd1).
    + apply (write_preserves _ (mkBlock ra B)); unfold bend; cbn [Offset Size]; (lia || exact Hd2).
  - constructor; [exists free, count, ls; split; [exact Hfr|split; [exact Hct|]]| |lia|lia|lia|exact Hp]; rewrite Ef.
    + apply stored_other; [lia| |by apply stored_write]. unfold disjoint_blocks, bend in *. cbn [Offset Size] in *. fold hd. lia.
    + apply stored_write. lia.
  - apply with_addresses_holds; [exact Hobj|exact Hb|unfold is_u; lia].
Qed.

Lemma heap_WriteAt_ok fh B objs st n sb rest : usable st n -> holds fh B (B - 19) objs -> sb_plain8 sb ->
  loadedHeaderAddress fh <> 0 ->
  owned st ≡ₚ mkBlock (loadedHeaderAddress fh) 146 :: mkBlock (loadedDirectBlockAddress fh) B :: rest ->
  exists fh' st', WriteAt fh st sb = Ret (fh', st') /\ usable st' n /\ owned st' = owned st /\
    preserves (contents st) (contents st') rest /\
    heap_at (contents st') (loadedHeaderAddress fh) (loadedDirectBlockAddress fh) sb B objs /\ holds fh' B (B - 19) objs.
Proof. intros Hu Hobj. by apply heap_WriteAt_fits. Qed.
End storing.

(** ** Indirect blocks *)

Definition indirectFields (wb : WritableIndirectBlock) (sb : Superblock) (hos : Z) : list (ByteOrder * Z * Z) :=
  (Endianness sb, OffsetSize sb, IHeapHeaderAddr wb) :: (Endianness sb, hos, IBlockOffset wb) ::
  map (fun addr => (Endianness sb, OffsetSize sb, addr)) (ChildAddresses wb).

Definition indirectBody (wb : WritableIndirectBlock) (sb : Superblock) (hos : Z) : bytes :=
  IndirectBlockSignature ++ [z2b (IVersion wb)] ++ fieldsBytes (indirectFields wb sb hos).

Lemma len_children o n cs : 0 <= n <= 8 -> len (fieldsBytes (map (fun addr => (o, n, addr)) cs)) = len cs * n.
Proof.
  intros Hn. induction cs as [|c cs IH]; [done|]. cbn [map]. rewrite fieldsBytes_cons, len_app, IH, len_cons.
  cbn [fieldBytes]. rewrite len_put_order. lia.
Qed.

Lemma len_indirectBody wb sb hos : 0 <= OffsetSize sb <= 8 -> 0 <= hos <= 8 ->
  len (indirectBody wb sb hos) = 5 + OffsetSize sb + hos + len (ChildAddresses wb) * OffsetSize sb.
Proof.
  intros Ho Hh. unfold indirectBody, indirectFields. rewrite !len_app, !fieldsBytes_cons, !len_app, len_children by done.
  cbn [fieldBytes]. rewrite !len_put_order. change (len IndirectBlockSignature) with 4. change (len [z2b (IVersion wb)]) with 1. lia.
Qed.

Lemma encodeIndirect_ret wb sb hos : 0 <= OffsetSize sb <= 8 -> 0 <= hos <= 8 ->
  encodeIndirect wb sb hos = Ret (if IChecksumEnabled wb then summed (indirectBody wb sb hos) else indirectBody wb sb hos).
Proof.
  intros Ho Hh. pose proof (len_indirectBody wb sb hos Ho Hh) as Hl. pose proof (len_nonneg (ChildAddresses wb)).
  unfold encodeIndirect. fold (indirectFields wb sb hos). unfold indirectSize.
  set (n := _ + _ * _). set (t := if IChecksumEnabled wb then 4 else 0). assert (0 <= t) by (subst t; by destruct (IChecksumEnabled wb)).
  assert (Hn : n = len (indirectBody wb sb hos)) by (subst n; lia).
  assert (Hfs : len (fieldsBytes (indirectFields wb sb hos)) = n - 5).
  { rewrite Hn. unfold indirectBody. rewrite !len_app. change (len IndirectBlockSignature) with 4. change (len [z2b (IVersion wb)]) with 1. lia. }
  change (zeros (n + t)) with ([] ++ zeros (n + t)).
  rewrite putFields_ret; cycle 1.
  { cbn [contiguous]. split_and!; done. }
  { cbn [map snd concat]. change (len _) with 5. pose proof (len_nonneg (fieldsBytes (indirectFields wb sb hos))). lia. }
  cbn [obind map snd concat]. rewrite app_nil_r, app_nil_l. change (len (IndirectBlockSignature ++ [z2b (IVersion wb)])) with 5.
  rewrite writeUints_ret; [| |reflexivity|rewrite Hfs; lia].
  2: { unfold indirectFields. repeat constructor; unfold field_sized; cbn [fieldSize]; try lia.
       apply Forall_forall. intros f (x & -> & _)%list_elem_of_fmap. cbn. lia. }
  cbn [obind]. rewrite <- app_assoc. fold (indirectBody wb sb hos). rewrite Hfs.
  replace (n + t - 5 - (n - 5)) with t by lia. replace (5 + (n - 5)) with (len (indirectBody wb sb hos)) by lia.
  subst t. destruct (IChecksumEnabled wb); [apply put_summed|]. change (zeros 0) with (@nil byte). by rewrite app_nil_r.
Qed.

(** ** Properties *)


Definition demo_object : bytes := String.list_byte_of_string "temperature".


(** C16. The heap persists, in a file with 8-byte little-endian addresses and
    lengths and for a block from 19 bytes to 16 MiB: after any calls that hold
    no more than the block's object space (its size less 19 bytes) and no more
    than 64 KiB in all, the heap is written to new space, a reader of the file
    gets every object by its identifier, the heap loaded from the file answers
    further calls as the list of objects does, and once it is written back in
    place the reader gets every object again; everything stored in the blocks
    owned before is preserved. *)
Theorem heap_persists {St} `{SL : StorageLaws St} B cs cs' st n sb
  (Hfirst : 0 < first_address) (Hu : usable st n) (Hsb : sb_plain8 sb) (HB : 19 <= B < 16777216) (Hroom : 146 + B <= n)
  (objs := (run_heaps spec_heap [] cs).1) (objs' := (run_heaps spec_heap objs cs').1)
  (Hfit : calls_fit (Z.min (B - 19) 65536) [] cs) (Hfit' : calls_fit (Z.min (B - 19) 65536) objs cs') :
  exists addr fh1 st1, WriteToFile (run_heaps run_heap (NewWritableFractalHeap B, []) cs).1.1 st sb = Ret (addr, fh1, st1) /\
    (exists rd, OpenFractalHeap (contents st1) addr sb = Ret rd /\
       forall i, (i < length objs)%nat -> ReadObject rd (contents st1) (idAt objs i) sb = Ret (objs !!! i)) /\
    exists fh2, LoadFromFile (NewWritableFractalHeap B) (contents st1) addr sb = Ret fh2 /\
      (run_heaps run_heap (fh2, idsOf objs) cs').2 = (run_heaps spec_heap objs cs').2 /\
      exists fh3 st3 rd, WriteAt (run_heaps run_heap (fh2, idsOf objs) cs').1.1 st1 sb = Ret (fh3, st3) /\
        preserves (contents st) (contents st3) (owned st) /\ OpenFractalHeap (contents st3) addr sb = Ret rd /\
        forall i, (i < length objs')%nat -> ReadObject rd (contents st3) (idAt objs' i) sb = Ret (objs' !!! i).
Proof.
  set (cap := Z.min (B - 19) 65536) in *. assert (Hcap : cap <= B - 19 /\ cap <= 65536 /\ 0 <= cap) by lia. destruct Hcap as (Hc1 & Hc2 & Hc3).
  destruct (heap_calls_refine B cap cs (NewWritableFractalHeap B) []) as (_ & fh & Es & Hh & _); [apply heap_New_holds; lia|done|].
  change (idsOf []) with (@nil bytes) in Es. rewrite Es. cbn [fst]. fold objs in Hh.
  destruct (heap_WriteToFile_fits Hfirst fh B cap objs st n sb Hu Hh Hc1 Hsb Hroom) as (addr & root & fh1 & st1 & E1 & Hu1 & Eo1 & Hp1 & Hat1 & _).
  exists addr, fh1, st1. split; [exact E1|]. split.
  { destruct (open_stored _ _ _ _ _ _ Hat1 Hsb) as (free & count & _ & _ & E). eexists. split; [exact E|].
    intros i Hi. by eapply ReadObject_ret. }
  destruct (heap_LoadFromFile_fits _ _ _ _ _ _ _ (NewWritableFractalHeap B) Hat1 Hsb eq_refl (holds_len _ _ _ _ Hh) Hc1 Hc2) as (fh2 & E2 & Hh2 & Ha2 & Hr2).
  exists fh2. split; [exact E2|].
  destruct (heap_calls_refine B cap cs' fh2 objs Hh2 Hfit') as (Ea & fh3 & Es3 & Hh3 & Hs1 & Hs2). split; [exact Ea|].
  rewrite Es3. cbn [fst]. fold objs' in Hh3. rewrite Ha2 in Hs1. rewrite Hr2 in Hs2.
  destruct (heap_WriteAt_fits Hfirst fh3 B cap objs' st1 _ sb (owned st) Hu1 Hh3 Hc1 Hsb) as (fh4 & st3 & E3 & _ & _ & Hp3 & Hat3 & _).
  { destruct Hat1. rewrite Hs1. lia. }
  { rewrite Hs1, Hs2, Eo1. by rewrite Permutation_app_comm. }
  rewrite Hs1 in Hat3. destruct (open_stored _ _ _ _ _ _ Hat3 Hsb) as (free & count & _ & _ & E4).
  eexists _, st3, _. split; [exact E3|]. split; [by eapply preserves_trans|]. split; [exact E4|].
  intros i Hi. by eapply ReadObject_ret.
Qed.

Definition demo_sb : Superblock := mkSuperblock 2 8 8 0 48 LittleEndian 0 0 0 0.

Lemma heap_persists_witness : exists addr fh1 st1 rd,
  WriteToFile (run_heaps run_heap (NewWritableFractalHeap 64, []) [HInsert demo_object]).1.1 (NewFileWriter 48) demo_sb =
    Ret (addr, fh1, st1) /\ OpenFractalHeap (contents st1) addr demo_sb = Ret rd /\
  ReadObject rd (contents st1) (hid 0 11) demo_sb = Ret demo_object.
Proof.
  destruct (@heap_persists _ _ (FileWriter_laws 48) 64 [HInsert demo_object] [HDelete 0] (NewFileWriter 48) 1000 demo_sb)
    as (addr & fh1 & st1 & E1 & (rd & E2 & E3) & _).
  - cbn. lia.
  - apply NewFileWriter_usable; lia.
  - done.
  - lia.
  - lia.
  - cbn [calls_fit call_fits]. split; [vm_compute; congruence|exact I].
  - cbn [calls_fit call_fits]. split; [vm_compute; lia|exact I].
  - exists addr, fh1, st1, rd. split; [exact E1|]. split; [exact E2|].
    specialize (E3 0%nat). exact (E3 ltac:(vm_compute; lia)).
Defined.

(** C19. Identifiers hold two bytes of offset: in a block larger than 64 KiB, such
    as the 512 KiB block of dense groups, the object stored at offset 65536
    gets the identifier of offset 0, and reading it gives bytes of the first
    object. *)
Theorem heap_offsets_wrap B d1 d2 (HB : 65536 + len d2 <= B < 2 ^ 62) (H1 : len d1 = 65536) (H2 : 0 < len d2 <= 65536) :
  exists fh1 id1 fh2 id2, InsertObject (NewWritableFractalHeap B) [] d1 = (fh1, Ret id1) /\
    InsertObject fh1 [] d2 = (fh2, Ret id2) /\ id2 = hid 0 (len d2) /\
    GetObject fh2 [] id2 = Ret (take (Z.to_nat (len d2)) d1).
Proof.
  assert (Hids : id_sizes (Header (NewWritableFractalHeap B)) 3) by (split; [reflexivity..|lia]).
  pose proof (InsertObject_step (NewWritableFractalHeap B) B [] d1 3 0 false 0 [] eq_refl Hids eq_refl eq_refl) as E1.
  specialize (E1 ltac:(lia) ltac:(change (len (concat [])) with 0; lia) ltac:(lia) ltac:(change (256 ^ 3) with 16777216; lia)).
  set (fh1 := with_blocks _ _ _) in E1.
  assert (Hc : concat [d1] = d1) by (cbn; apply app_nil_r).
  assert (Hids1 : id_sizes (Header fh1) 3) by (split; [reflexivity..|lia]).
  pose proof (InsertObject_step fh1 B [d1] d2 3 0 false (Z.max 0 (0 - len d1)) [] eq_refl Hids1 eq_refl eq_refl) as E2.
  rewrite Hc, H1 in E2 at 1.
  specialize (E2 ltac:(lia) ltac:(lia) ltac:(lia) ltac:(change (256 ^ 3) with 16777216; lia)).
  set (fh2 := with_blocks _ _ _) in E2. rewrite Hc, H1 in E2.
  exists fh1, (hid 0 (len d1)), fh2, (hid 65536 (len d2)). split; [exact E1|]. split; [exact E2|]. split; [reflexivity|].
  unfold GetObject. change (hid 65536 (len d2)) with (hid 0 (len d2)).
  assert (Hids2 : id_sizes (Header fh2) 3) by (split; [reflexivity..|lia]).
  rewrite (locate_ret _ 3) by (first [exact Hids2 | lia | change (256 ^ 3) with 16777216; lia]). cbn [obind].
  change (RootIndirectBlock fh2) with (@None WritableIndirectBlock).
  set (k := Z.max 0 (Z.max 0 (0 - len d1) - len d2)) in *. assert (Hk : k = 0) by lia.
  assert (Ed : deref fh2 (DirectBlock fh2) = Ret (mkDirect 0 0 0 B (concat [d1; d2] ++ zeros k) (len (concat [d1; d2])) false)) by reflexivity.
  clearbody k fh2. assert (Hcc : concat [d1; d2] = d1 ++ d2) by (cbn; by rewrite app_nil_r). rewrite Hcc, Hk in Ed.
  rewrite Ed. cbn [obind Objects]. unfold window. change (zeros 0) with (@nil byte). rewrite app_nil_r, len_app, H1.
  destruct (Z.geb_spec 0 (65536 + len d2)); [lia|]. cbn [negb]. rewrite u64_id by (unfold is_u; lia).
  destruct (Z.gtb_spec (0 + len d2) (65536 + len d2)); [lia|]. cbn [negb].
  rewrite <- (take_drop (Z.to_nat (len d2)) d1) at 1. rewrite <- app_assoc.
  apply (slice_at _ [] (take (Z.to_nat (len d2)) d1) (drop (Z.to_nat (len d2)) d1 ++ d2)); [done|done|rewrite len_take; lia].
Qed.

Lemma heap_offsets_wrap_witness : exists fh1 id1 fh2 id2,
  InsertObject (NewWritableFractalHeap 524288) [] (zeros 65536) = (fh1, Ret id1) /\
  InsertObject fh1 [] demo_object = (fh2, Ret id2) /\ GetObject fh2 [] id2 = Ret (take 11 (zeros 65536)).
Proof.
  destruct (heap_offsets_wrap 524288 (zeros 65536) demo_object) as (fh1 & id1 & fh2 & id2 & E1 & E2 & _ & E3).
  - change (len demo_object) with 11. lia.
  - apply len_zeros. lia.
  - change (len demo_object) with 11. lia.
  - exists fh1, id1, fh2, id2. split; [exact E1|]. split; [exact E2|]. exact E3.
Defined.

(** A block whose objects fill it: what does not fit after the fixed part is
    cut off, and the checksum is written over the last four bytes kept. *)
Lemma encodeDirectBlock_full h a B objects fo c sb : sb_plain8 sb -> HeapOffsetSize h = 2 -> 19 <= B -> len objects = B ->
  exists data, encodeDirectBlock h (mkDirect 0 a 0 B objects fo c) sb = Ret (blockHead a ++ data) /\ len data = B - 15.
Proof.
  intros (Ho & Hl & He) Hos HB Hlo. unfold encodeDirectBlock. cbn [BlockSize BlockVersion HeapHeaderAddress BlockOffset Objects].
  rewrite Ho, He, Hos. cbv zeta. change (zeros B) with ([] ++ zeros B).
  rewrite copy_bytes_cursor by (first [reflexivity | change (len DirectBlockSignature) with 4; lia]). cbn [obind].
  rewrite app_nil_l. change (len DirectBlockSignature) with 4.
  rewrite put_bytes_cursor by (first [reflexivity | change (len [z2b 0]) with 1; lia]). cbn [obind]. change (len [z2b 0]) with 1.
  set (fs := [(LittleEndian, 8, a); (LittleEndian, 2, 0)]).
  assert (Hfs : len (fieldsBytes fs) = 10) by reflexivity.
  rewrite writeUints_ret; [|repeat constructor; unfold field_sized; cbn; lia|reflexivity|rewrite Hfs; lia].
  cbn [obind]. rewrite Hfs. change (5 + 10) with 15. replace (B - 4 - 1 - 10) with (B - 15) by lia.
  change ((DirectBlockSignature ++ [z2b 0]) ++ fieldsBytes fs) with (blockHead a).
  unfold copy_bytes. rewrite len_app, len_zeros by lia. change (len (blockHead a)) with 15.
  destruct (Z.leb_spec 15 (15 + (B - 15))); [|lia]. cbn [andb Z.leb Z.compare]. replace (15 + (B - 15) - 15) with (B - 15) by lia.
  set (kept := take (Z.to_nat (B - 15)) objects). assert (Hk : len kept = B - 15) by (subst kept; rewrite len_take; lia).
  rewrite (blit_end (blockHead a)) by (first [reflexivity | rewrite len_zeros; lia]). cbn [obind].
  set (body := blockHead a ++ take (Z.to_nat (B - 19)) kept). set (last := drop (Z.to_nat (B - 19)) kept).
  assert (Hbody : len body = B - 4) by (subst body; rewrite len_app, len_take; change (len (blockHead a)) with 15; lia).
  assert (Eb : blockHead a ++ kept = body ++ last) by (subst body last; rewrite <- app_assoc, take_drop; done).
  assert (Hlast : len last = 4) by (subst last; rewrite len_drop; lia). rewrite Eb.
  rewrite (slice_at (body ++ last) [] body last) by (first [reflexivity | lia]). cbn [obind].
  destruct (jenkinsLookup3_ret body 0) as (cs & E & _). change (jenkinsLookup3 body 0) with (JenkinsChecksum body) in E.
  rewrite E. cbn [obind]. unfold put_le. rewrite put_bytes_ret by (rewrite ?len_app, ?len_le_put; lia).
  rewrite (blit_end body last) by (rewrite ?len_le_put; lia). exists (take (Z.to_nat (B - 19)) kept ++ le_put 4 cs).
  split; [subst body; by rewrite <- app_assoc|]. rewrite len_app, len_take, len_le_put. lia.
Qed.

(** The free space the heap accounts for is not the space a block has: an
    object as large as the block is accepted and read back from the writable
    heap, but the file keeps 19 bytes less, and the reader refuses the
    identifier. *)
Theorem heap_tail_lost {St} `{SL : StorageLaws St} B d st n sb
  (Hfirst : 0 < first_address) (Hu : usable st n) (Hsb : sb_plain8 sb) (HB : 19 <= B <= 65536) (Hd : len d = B)
  (Hroom : 146 + B <= n) :
  exists fh1 id addr fh2 st', InsertObject (NewWritableFractalHeap B) [] d = (fh1, Ret id) /\
    GetObject fh1 [] id = Ret d /\ WriteToFile fh1 st sb = Ret (addr, fh2, st') /\
    exists rd, OpenFractalHeap (contents st') addr sb = Ret rd /\
      ReadObject rd (contents st') id sb = Err "object extends beyond block data".
Proof.
  destruct (InsertObject_ret (NewWritableFractalHeap B) B B [] d []) as (fh1 & E1 & Hh & _);
    [apply heap_New_holds; lia|change (len (concat [])) with 0; lia|lia|]. cbn [app] in Hh.
  change (len (concat [])) with 0 in E1. assert (Hc : concat [d] = d) by (cbn; apply app_nil_r).
  pose proof (GetObject_ret fh1 B B [d] 0 [] Hh ltac:(cbn; lia)) as E2. change (idAt [d] 0) with (hid 0 (len d)) in E2.
  pose proof Hh as [Hr (fr & m & r & ls & E & Hf & Hm & Hrt & Hls & Hlt) _ (a & c & k & Hb & Hk & Hl) Hp]. rewrite Hc in *.
  assert (k = 0) as -> by lia. change (zeros 0) with (@nil byte) in Hb. rewrite app_nil_r in Hb.
  destruct (WriteToFile_gen Hfirst fh1 _ st n sb Hu Hsb Hb) as (addr & root & st' & bd & E3 & Hu' & Eo & Hpr & Ha & Hro & Ebd & Hsh & Hst).
  { cbn. lia. }
  { cbn. lia. }
  { intros ha ra. destruct (encodeDirectBlock_full (with_root_address (Header fh1) ra) ha B d (len d) c sb Hsb) as (data & Ed & Hdl);
      [by rewrite E|lia|exact Hd|]. eexists. split; [exact Ed|]. cbn [BlockSize]. rewrite len_app. change (len (blockHead ha)) with 15. lia. }
  destruct (encodeDirectBlock_full (with_root_address (Header fh1) root) addr B d (len d) c sb Hsb) as (data & Ed & Hdl);
    [by rewrite E|lia|exact Hd|].
  pose proof (eq_trans (eq_sym Ed) Ebd) as Eq.
  assert (bd = blockHead addr ++ data) as -> by congruence. clear Ebd Eq.
  eexists fh1, (hid 0 (len d)), addr, _, st'. split; [exact E1|]. split; [exact E2|]. split; [exact E3|].
  eexists. split.
  { unfold OpenFractalHeap, MaxUint64. destruct (Z.eqb_spec addr 0); [lia|]. destruct (Z.eqb_spec addr (2 ^ 64 - 1)); [lia|].
    cbn [orb negb]. rewrite E in Hsh.
    rewrite (parseHeader_ret _ addr B fr (len d) m root ls 0) by (first [exact Hsh | done | unfold is_u; lia]). reflexivity. }
  unfold ReadObject. destruct (readLengthSize_ok B ltac:(lia)) as [Hrl Hrt'].
  rewrite (parseHeapID_ret _ (readLengthSize B)) by (first [by split | apply Hsb | lia]).
  cbn [obind IDType]. change (0 =? HeapIDTypeManaged) with true. cbn iota.
  unfold readManagedObject, readDirectBlock. cbn [rHeader with_rows heapHdr CurrentNumRows HeapOffsetSize headerAddr ChecksumDirectBlocks RootBlockAddress StartingBlockSize].
  change (0 =? 0) with true. cbn iota.
  rewrite (parseDirectBlock_gen _ root addr B data) by (first [exact Hst | done | unfold is_u; lia]).
  cbn [obind rBlockOffset rData IDOffset IDLength]. change (0 <? 0) with false. cbn [negb]. rewrite len_take.
  change (0 - 0) with 0. destruct (Z.gtb_spec 0 (Z.min (Z.of_nat (Z.to_nat (B - 15))) (len data))); [lia|]. cbn [negb].
  rewrite u64_id by (unfold is_u; lia). destruct (Z.gtb_spec (0 + len d) (Z.min (Z.of_nat (Z.to_nat (B - 15))) (len data))); [reflexivity|lia].
Qed.

Lemma heap_tail_lost_witness : exists fh1 id addr fh2 st' rd,
  InsertObject (NewWritableFractalHeap 40) [] (zeros 40) = (fh1, Ret id) /\ GetObject fh1 [] id = Ret (zeros 40) /\
  WriteToFile fh1 (NewFileWriter 48) demo_sb = Ret (addr, fh2, st') /\
  OpenFractalHeap (contents st') addr demo_sb = Ret rd /\
  ReadObject rd (contents st') id demo_sb = Err "object extends beyond block data".
Proof.
  destruct (@heap_tail_lost _ _ (FileWriter_laws 48) 40 (zeros 40) (NewFileWriter 48) 1000 demo_sb)
    as (fh1 & id & addr & fh2 & st' & E1 & E2 & E3 & rd & E4 & E5).
  - cbn. lia.
  - apply NewFileWriter_usable; lia.
  - done.
  - lia.
  - reflexivity.
  - lia.
  - exists fh1, id, addr, fh2, st', rd. split; [exact E1|]. split; [exact E2|]. split; [exact E3|]. split; [exact E4|exact E5].
Defined.

(** A heap of 48-byte blocks that grew to a second one. *)
Definition grownHeap : outcome (Z * WritableFractalHeap * FileWriter) :=
  let fh := (InsertObject (NewWritableFractalHeap 48) [] demo_object).1 in
  let fh := (InsertObject fh [0] (zeros 40)).1 in
  WriteToFile fh (NewFileWriter 48) demo_sb.

(** What evaluation shows of it. *)
Definition grown_check (m : outcome (Z * WritableFractalHeap * FileWriter)) : bool :=
  match m with
  | Ret (addr, fh, st) =>
      bool_decide (GetObject fh [0; 48] (hid 0 11) = Ret demo_object) &&
      bool_decide (GetObject fh [48; 0] (hid 48 40) = Ret (zeros 40)) &&
      bool_decide (size (DirectBlocks fh) = 2%nat) && (len (contents st) =? 48 + 146 + 48) &&
      match OpenFractalHeap (contents st) addr demo_sb with
      | Ret rd => (HeapIDLength (rHeader rd) =? 8) && (HeapOffsetSize (rHeader rd) =? 2) && (HeapLengthSize (rHeader rd) =? 1) &&
          (CurrentNumRows (rHeader rd) =? 1)
      | _ => false
      end &&
      match LoadFromFile (NewWritableFractalHeap 48) (contents st) addr demo_sb with
      | Err e => bool_decide (e = "cannot modify heap with indirect blocks"%string)
      | _ => false
      end
  | _ => false
  end.

(** A heap that has grown to a second block is written without it: the writer
    reports no error and the heap still has both objects, but only the first
    block is stored, the reader refuses every identifier and the heap cannot be
    loaded again. *)
Theorem heap_growth_unreadable : exists addr fh st, grownHeap = Ret (addr, fh, st) /\
  GetObject fh [0; 48] (hid 0 11) = Ret demo_object /\ GetObject fh [48; 0] (hid 48 40) = Ret (zeros 40) /\
  size (DirectBlocks fh) = 2%nat /\ len (contents st) = 48 + 146 + 48 /\
  (exists rd, OpenFractalHeap (contents st) addr demo_sb = Ret rd /\
     forall o l, 0 <= o < 65536 -> 0 <= l < 256 ->
       ReadObject rd (contents st) (hid o l) demo_sb = Err "indirect blocks not supported in minimal implementation") /\
  LoadFromFile (NewWritableFractalHeap 48) (contents st) addr demo_sb = Err "cannot modify heap with indirect blocks".
Proof.
  assert (Hc : grown_check grownHeap = true) by (vm_compute; reflexivity). unfold grown_check in Hc.
  destruct grownHeap as [[[addr fh] st]|e|]; [|congruence..]. rewrite !andb_true_iff in Hc.
  destruct Hc as (((((H1%bool_decide_eq_true & H2%bool_decide_eq_true) & H3%bool_decide_eq_true) & H4%Z.eqb_eq) & H5) & H6).
  exists addr, fh, st. do 5 (split; [assumption || reflexivity|]). split.
  - destruct (OpenFractalHeap (contents st) addr demo_sb) as [rd|e|]; [|congruence..]. rewrite !andb_true_iff, !Z.eqb_eq in H5.
    destruct H5 as (((Hi & Hos) & Hls) & Hrows). exists rd. split; [reflexivity|]. intros o l Ho Hl. unfold ReadObject.
    rewrite (parseHeapID_ret rd 1) by (first [split; (assumption || lia) | reflexivity | lia]). cbn [obind IDType].
    change (0 =? HeapIDTypeManaged) with true. cbn iota. unfold readManagedObject. rewrite Hrows. reflexivity.
  - destruct (LoadFromFile _ (contents st) addr demo_sb) as [x|e|]; [congruence| |congruence].
    apply bool_decide_eq_true in H6. by rewrite H6.
Qed.

(** An indirect block is written without a checksum and read as if it had one:
    the reader asks for four bytes more than were written, so that it fails
    where the block ends the file; where other data follow, it gives the same
    addresses in a block marked as checksummed, which is written back four
    bytes longer than the space it was given. *)
Theorem indirect_block_overruns f addr wb sb hos (numRows := INumRows wb) (tw := ITableWidth wb) (n := indirectSize wb sb hos)
  (Hsb : sb_plain8 sb) (Hos : 0 <= hos <= 8) (Hv : IVersion wb = 0) (Hc : IChecksumEnabled wb = false)
  (Hlen : len (ChildAddresses wb) = numRows * tw) (Hh : is_u 64 (IHeapHeaderAddr wb)) (Hb : 0 <= IBlockOffset wb < 256 ^ hos)
  (Hch : Forall (is_u 64) (ChildAddresses wb)) (Ha : 0 < addr < 2 ^ 63) (Hst : stored f addr (indirectBody wb sb hos)) :
  encodeIndirect wb sb hos = Ret (indirectBody wb sb hos) /\ len (indirectBody wb sb hos) = n /\
  (len f < addr + n + 4 -> LoadIndirect f addr numRows tw (IMaxDirectRows wb) sb hos (IHeapHeaderAddr wb) = Err "EOF") /\
  (addr + n + 4 <= len f ->
   exists wb', LoadIndirect f addr numRows tw (IMaxDirectRows wb) sb hos (IHeapHeaderAddr wb) = Ret wb' /\
     ChildAddresses wb' = ChildAddresses wb /\ loadedAddress wb' = addr /\
     exists buf, encodeIndirect wb' sb hos = Ret buf /\ len buf = n + 4).
Proof.
  pose proof Hsb as (Ho & Hl8 & He). pose proof (len_nonneg (ChildAddresses wb)).
  assert (Hn : len (indirectBody wb sb hos) = n).
  { rewrite len_indirectBody by lia. unfold n, indirectSize. rewrite Hc. lia. }
  split; [rewrite encodeIndirect_ret by lia; by rewrite Hc|]. split; [exact Hn|].
  assert (Ht : 5 + OffsetSize sb + hos + numRows * tw * OffsetSize sb + 4 = n + 4).
  { unfold n, indirectSize. rewrite Hc, Hlen. lia. }
  unfold LoadIndirect, ParseIndirectBlock, MaxUint64. cbv zeta. destruct (Z.eqb_spec addr 0); [lia|].
  destruct (Z.eqb_spec addr (2 ^ 64 - 1)); [lia|]. cbn [orb negb]. rewrite i64_id, Ht by lia. split; intros Hf.
  - unfold read_at. destruct (Z.leb_spec (addr + (n + 4)) (len f)); [lia|]. by rewrite andb_false_r.
  - rewrite read_at_ret by lia. set (buf := sub f addr (n + 4)).
    assert (Eb : exists tail, buf = indirectBody wb sb hos ++ tail /\ len tail = 4).
    { exists (drop (Z.to_nat n) buf). assert (len buf = n + 4) by (subst buf; apply len_sub; lia).
      split; [|rewrite len_drop; lia]. unfold stored in Hst. apply read_at_inv in Hst as (_ & _ & Hst).
      rewrite Hst, Hn at 1. rewrite <- (take_drop (Z.to_nat n) buf) at 1. f_equal.
      subst buf. unfold sub. rewrite take_take. f_equal. lia. }
    destruct Eb as (tail & Eb & Htl). clearbody buf. cbn [obind]. unfold indirectBody in Eb. rewrite <- !app_assoc in Eb.
    rewrite (slice_at buf [] IndirectBlockSignature ([z2b (IVersion wb)] ++ fieldsBytes (indirectFields wb sb hos) ++ tail)) by done.
    cbn [obind]. rewrite bool_decide_true by done.
    assert (E4 : idx buf 4 = Ret (z2b (IVersion wb))) by (rewrite Eb; reflexivity). rewrite E4, Hv. cbn [obind].
    change (b2z (z2b 0) =? 0) with true. cbn iota. change (b2z (z2b 0)) with 0.
    set (head := [(LittleEndian, 8, IHeapHeaderAddr wb); (LittleEndian, hos, IBlockOffset wb)]).
    set (cs := map (fun a => (LittleEndian, 8, a)) (ChildAddresses wb)).
    assert (Efs : fieldsBytes (indirectFields wb sb hos) = fieldsBytes head ++ fieldsBytes cs).
    { unfold indirectFields. rewrite Ho, He. unfold fieldsBytes at 1 2. cbn [map concat head]. rewrite app_nil_r, <- app_assoc. reflexivity. }
    rewrite Efs, <- app_assoc in Eb. rewrite He, Ho.
    rewrite (readUints_at LittleEndian head buf (IndirectBlockSignature ++ [z2b (IVersion wb)]) (fieldsBytes cs ++ tail));
      [|repeat constructor; unfold is_u in Hh; cbn; lia|by rewrite Eb, <- app_assoc|done|done].
    cbn [obind map fieldValue head]. rewrite Z.eqb_refl.
    assert (Hcs : Forall (field_ok LittleEndian) cs).
    { subst cs. apply Forall_forall. intros x (a & -> & Hin)%list_elem_of_fmap. rewrite Forall_forall in Hch.
      specialize (Hch a Hin). split; [reflexivity|split; [lia|exact Hch]]. }
    rewrite (readUints_at LittleEndian cs buf (IndirectBlockSignature ++ [z2b (IVersion wb)] ++ fieldsBytes head) tail);
      [|exact Hcs|by rewrite Eb, <- !app_assoc| |].
    2: { rewrite !len_app. unfold fieldsBytes, head. cbn [map concat fieldBytes]. rewrite !len_app, !len_put_order.
         change (len IndirectBlockSignature) with 4. change (len [z2b (IVersion wb)]) with 1. change (len (@nil byte)) with 0. lia. }
    2: { subst cs. rewrite map_map. cbn [fieldSize]. rewrite <- Hlen. unfold len. rewrite Nat2Z.id.
         clear. generalize (ChildAddresses wb). intros l. induction l as [|x l IH]; cbn; [reflexivity|by f_equal]. }
    cbn [obind]. eexists. split; [reflexivity|]. cbn [ChildAddresses loadedAddress]. split; [|split; [done|]].
    + subst cs. rewrite map_map. cbn [fieldValue]. apply map_id.
    + rewrite encodeIndirect_ret by lia. cbn [IChecksumEnabled]. rewrite Z.eqb_refl. eexists. split; [reflexivity|].
      rewrite len_summed, len_indirectBody by lia. cbn [ChildAddresses]. rewrite len_map. subst cs. rewrite len_map. lia.
Qed.

(** Two addresses, in a file with room after the block. *)
Lemma indirect_block_overruns_witness (wb := with_children (NewWritableIndirectBlock 600 0 1 2 1) [700; 800]) :
  exists wb' buf, LoadIndirect (zeros 48 ++ indirectBody wb demo_sb 2 ++ zeros 4) 48 1 2 1 demo_sb 2 600 = Ret wb' /\
    ChildAddresses wb' = [700; 800] /\ encodeIndirect wb' demo_sb 2 = Ret buf /\ len buf = 35.
Proof.
  destruct (indirect_block_overruns (zeros 48 ++ indirectBody wb demo_sb 2 ++ zeros 4) 48 wb demo_sb 2)
    as (_ & _ & _ & H).
  - done.
  - lia.
  - reflexivity.
  - reflexivity.
  - reflexivity.
  - unfold is_u. cbn. lia.
  - cbn. lia.
  - repeat constructor; lia.
  - lia.
  - vm_compute. reflexivity.
  - destruct H as (wb' & E1 & E2 & _ & buf & E3 & E4); [vm_compute; congruence|].
    exists wb', buf. split; [exact E1|]. split; [exact E2|]. split; [exact E3|exact E4].
Defined.
