(* ===== verification/LinkMessages.v ===== *)
(** * Link messages: internal/core/link_message.go, linkinfo.go and
    internal/structures/linkmessage.go

    Both parsers of the link message, its encoder, and the link info message
    that says where a dense group keeps its links. *)

From S2P Require Import Prelude Superblock Messages.

(** ** internal/core/link_message.go *)

Definition LinkTypeHard : Z := 0.
Definition LinkTypeSoft : Z := 1.
Definition LinkTypeExternal : Z := 64.

Record LinkMessage := mkLinkMessage {
  LinkVersion : Z;
  LinkFlags : Z;
  LinkType : Z;
  CreationOrder : Z;
  CharSet : Z;
  LinkName : bytes;
  LinkValue : bytes }.

Definition LinkFlagSizeOfLengthMask : Z := 0x03.
Definition LinkFlagCreationOrderBit : Z := 0x04.
Definition LinkFlagLinkTypeFieldBit : Z := 0x08.
Definition LinkFlagCharSetBit : Z := 0x10.

Definition HasCreationOrder (flags : Z) : bool := negb (Z.land flags LinkFlagCreationOrderBit =? 0).
Definition HasLinkTypeField (flags : Z) : bool := negb (Z.land flags LinkFlagLinkTypeFieldBit =? 0).
Definition HasCharSetField (flags : Z) : bool := negb (Z.land flags LinkFlagCharSetBit =? 0).

Definition GetLinkNameLengthSize (flags : Z) : Z :=
  let sizeCode := Z.land flags LinkFlagSizeOfLengthMask in
  if sizeCode =? 0 then 1 else if sizeCode =? 1 then 2 else if sizeCode =? 2 then 4 else if sizeCode =? 3 then 8 else 1.

(** The fields before the name, and the offset after them. *)
Definition parseLinkMessageHeader (data : bytes) : outcome (LinkMessage * Z) :=
  guard negb (len data <? 2) else "link message too short";;
  let! version := idx data 0 in
  let! flagByte := idx data 1 in
  let flags := b2z flagByte in
  guard b2z version =? 1 else "unsupported link message version";;
  let! (type, offset) :=
    (if HasLinkTypeField flags then
       guard negb (len data <? 2 + 1) else "link message truncated (missing link type field)";;
       let! t := idx data 2 in Ret (b2z t, 3)
     else Ret (LinkTypeHard, 2)) in
  let! (order, offset) :=
    (if HasCreationOrder flags then
       guard negb (len data <? offset + 8) else "link message truncated (missing creation order field)";;
       let! v := get_le 8 data offset in Ret (v, offset + 8)
     else Ret (0, offset)) in
  let! (charSet, offset) :=
    (if HasCharSetField flags then
       guard negb (len data <? offset + 1) else "link message truncated (missing character set field)";;
       let! c := idx data offset in Ret (b2z c, offset + 1)
     else Ret (0, offset)) in
  Ret (mkLinkMessage (b2z version) flags type order charSet [] [], offset).

Definition parseLinkNameLength (data : bytes) (offset : Z) (lm : LinkMessage) : outcome (Z * Z) :=
  let lengthSize := GetLinkNameLengthSize (LinkFlags lm) in
  guard negb (len data <? offset + lengthSize) else "link message truncated (missing link name length)";;
  let! nameLength :=
    (if lengthSize =? 1 then let! b := idx data offset in Ret (b2z b)
     else get_le (Z.to_nat lengthSize) data offset) in
  Ret (nameLength, offset + lengthSize).

Definition parseLinkName (data : bytes) (offset nameLength : Z) : outcome (bytes * Z) :=
  guard negb (nameLength >? 1024 * 1024) else "link name length too large";;
  guard negb (len data <? offset + nameLength) else "link message truncated (missing link name)";;
  let! name := slice data offset (offset + nameLength) in
  Ret (name, offset + nameLength).

Definition parseHardLinkValue (data : bytes) (offset : Z) (sb : Superblock) : outcome bytes :=
  guard negb (len data <? offset + OffsetSize sb) else "link message truncated (missing hard link address)";;
  slice data offset (offset + OffsetSize sb).

Definition parseSoftLinkValue (data : bytes) (offset : Z) : outcome bytes :=
  guard negb (len data <? offset + 2) else "link message truncated (missing soft link length)";;
  let! softLinkLength := get_le 2 data offset in
  guard negb (len data <? offset + 2 + softLinkLength) else "link message truncated (missing soft link path)";;
  slice data (offset + 2) (offset + 2 + softLinkLength).

Definition parseExternalLinkValue (data : bytes) (startOffset : Z) : outcome bytes :=
  guard negb (len data <? startOffset + 2) else "link message truncated (missing external link file name length)";;
  let! fileNameLength := get_le 2 data startOffset in
  let offset := startOffset + 2 in
  guard negb (len data <? offset + fileNameLength + 2) else "link message truncated (missing external link file name or path length)";;
  let! pathLength := get_le 2 data (offset + fileNameLength) in
  let totalLength := 2 + fileNameLength + 2 + pathLength in
  guard negb (len data <? startOffset + totalLength) else "link message truncated (missing external link data)";;
  slice data startOffset (startOffset + totalLength).

Definition parseLinkValue (data : bytes) (offset : Z) (lm : LinkMessage) (sb : Superblock) : outcome bytes :=
  if LinkType lm =? LinkTypeHard then parseHardLinkValue data offset sb
  else if LinkType lm =? LinkTypeSoft then parseSoftLinkValue data offset
  else if LinkType lm =? LinkTypeExternal then parseExternalLinkValue data offset
  else Err "unsupported link type".

Definition ParseLinkMessage (data : bytes) (sb : Superblock) : outcome LinkMessage :=
  let! (lm, offset) := parseLinkMessageHeader data in
  let! (nameLength, offset) := parseLinkNameLength data offset lm in
  let! (name, offset) := parseLinkName data offset nameLength in
  let! value := parseLinkValue data offset lm sb in
  Ret (mkLinkMessage (LinkVersion lm) (LinkFlags lm) (LinkType lm) (CreationOrder lm) (CharSet lm) name value).

Definition writeLinkNameLength (buf : bytes) (offset nameLength lengthSize : Z) : outcome bytes :=
  if lengthSize =? 1 then
    guard negb (nameLength >? 255) else "name length exceeds 1-byte maximum (255)";;
    put_bytes buf offset [z2b nameLength]
  else if lengthSize =? 2 then
    guard negb (nameLength >? 65535) else "name length exceeds 2-byte maximum (65535)";;
    put_le 2 buf offset nameLength
  else if lengthSize =? 4 then
    guard negb (nameLength >? 4294967295) else "name length exceeds 4-byte maximum (4294967295)";;
    put_le 4 buf offset nameLength
  else if lengthSize =? 8 then put_le 8 buf offset nameLength
  else Err "invalid length size".

(** The optional fields are written where the flags have them. *)
Definition EncodeLinkMessage (lm : LinkMessage) : outcome bytes :=
  let flags := LinkFlags lm in
  guard LinkVersion lm =? 1 else "unsupported link message version";;
  let lengthSize := GetLinkNameLengthSize flags in
  let size := 2 + (if HasLinkTypeField flags then 1 else 0) + (if HasCreationOrder flags then 8 else 0) +
    (if HasCharSetField flags then 1 else 0) + lengthSize + len (LinkName lm) + len (LinkValue lm) in
  let! buf := put_bytes (zeros size) 0 [z2b (LinkVersion lm)] in
  let! buf := put_bytes buf 1 [z2b flags] in
  let! (buf, offset) :=
    (if HasLinkTypeField flags then let! buf := put_bytes buf 2 [z2b (LinkType lm)] in Ret (buf, 3) else Ret (buf, 2)) in
  let! (buf, offset) :=
    (if HasCreationOrder flags then let! buf := put_le 8 buf offset (CreationOrder lm) in Ret (buf, offset + 8)
     else Ret (buf, offset)) in
  let! (buf, offset) :=
    (if HasCharSetField flags then let! buf := put_bytes buf offset [z2b (CharSet lm)] in Ret (buf, offset + 1)
     else Ret (buf, offset)) in
  let! buf := writeLinkNameLength buf offset (len (LinkName lm)) lengthSize in
  let offset := offset + lengthSize in
  let! buf := copy_bytes buf offset (LinkName lm) in
  copy_bytes buf (offset + len (LinkName lm)) (LinkValue lm).

Definition GetHardLinkAddress (lm : LinkMessage) (sb : Superblock) : outcome Z :=
  guard LinkType lm =? LinkTypeHard else "not a hard link";;
  guard len (LinkValue lm) =? OffsetSize sb else "invalid hard link value size";;
  readUint64 (LinkValue lm) (OffsetSize sb) (Endianness sb).

Definition GetSoftLinkPath (lm : LinkMessage) : outcome bytes :=
  guard LinkType lm =? LinkTypeSoft else "not a soft link";;
  guard negb (len (LinkValue lm) =? 0) else "empty soft link path";;
  Ret (LinkValue lm).

Definition GetExternalLinkInfo (lm : LinkMessage) : outcome (bytes * bytes) :=
  let v := LinkValue lm in
  guard LinkType lm =? LinkTypeExternal else "not an external link";;
  guard negb (len v <? 4) else "external link value too short";;
  let! fileNameLength := get_le 2 v 0 in
  guard negb (len v <? 2 + fileNameLength + 2) else "external link value truncated (missing file name or path length)";;
  let! fileName := slice v 2 (2 + fileNameLength) in
  let offset := 2 + fileNameLength in
  let! pathLength := get_le 2 v offset in
  let offset := offset + 2 in
  guard negb (len v <? offset + pathLength) else "external link value truncated (missing object path)";;
  let! objectPath := slice v offset (offset + pathLength) in
  Ret (fileName, objectPath).

(** ** internal/structures/linkmessage.go *)

Record StructLink := mkStructLink {
  sVersion : Z;
  sFlags : Z;
  sType : Z;
  sName : bytes;
  sCreationOrder : Z;
  sCreationOrderValid : bool;
  sCharacterSet : Z;
  sObjectAddress : Z;
  sTargetPath : bytes }.

(** The name length, in the size the flags say, and the offset after it. *)
Definition structNameLength (data : bytes) (flags current : Z) : outcome (Z * Z) :=
  let size := GetLinkNameLengthSize flags in
  guard negb (current + size >? len data) else "unexpected end of data reading name length";;
  let! nameLen := get_le (Z.to_nat size) data current in
  Ret (nameLen, current + size).

(** What follows the name: the address of a hard link, the path of a soft one;
    a user-defined link is not kept. *)
Definition structTarget (data : bytes) (type current : Z) (sb : Superblock) : outcome (Z * bytes) :=
  if type =? LinkTypeHard then
    let offsetSize := OffsetSize sb in
    guard negb (current + offsetSize >? len data) else "unexpected end of data reading object address";;
    if (offsetSize =? 1) || (offsetSize =? 2) || (offsetSize =? 4) || (offsetSize =? 8) then
      let! s := slice data current (current + offsetSize) in Ret (get_order (Endianness sb) s, [])
    else Err "invalid offset size"
  else if type =? LinkTypeSoft then
    guard negb (current + 2 >? len data) else "unexpected end of data reading soft link length";;
    let! targetLen := get_le 2 data current in
    guard negb (targetLen =? 0) else "invalid soft link length: 0";;
    guard negb (current + 2 + targetLen >? len data) else "unexpected end of data reading soft link path";;
    let! s := slice data (current + 2) (current + 2 + targetLen) in Ret (0, s)
  else
    guard negb (current + 2 >? len data) else "unexpected end of data reading user-defined link length";;
    let! _ := get_le 2 data current in Ret (0, []).

(** The fields before the name, and the offset after them. *)
Definition structHeader (data : bytes) : outcome (StructLink * Z) :=
  guard negb (len data <? 2) else "link message too short";;
  let! version := idx data 0 in
  guard b2z version =? 1 else "unsupported link message version";;
  let! flagByte := idx data 1 in
  let flags := b2z flagByte in
  let! (type, current) :=
    (if HasLinkTypeField flags then
       guard negb (2 >=? len data) else "unexpected end of data reading link type";;
       let! t := idx data 2 in Ret (b2z t, 3)
     else Ret (LinkTypeHard, 2)) in
  let! (order, valid, current) :=
    (if HasCreationOrder flags then
       guard negb (current + 8 >? len data) else "unexpected end of data reading creation order";;
       let! v := get_le 8 data current in Ret (i64 v, true, current + 8)
     else Ret (0, false, current)) in
  let! (charset, current) :=
    (if HasCharSetField flags then
       guard negb (current >=? len data) else "unexpected end of data reading charset";;
       let! c := idx data current in Ret (b2z c, current + 1)
     else Ret (0, current)) in
  Ret (mkStructLink (b2z version) flags type [] order valid charset 0 [], current).

(** [int(nameLen)] is signed. *)
Definition ParseStructLink (data : bytes) (sb : Superblock) : outcome StructLink :=
  let! (h, current) := structHeader data in
  let! (nameLen, current) := structNameLength data (sFlags h) current in
  guard negb (nameLen =? 0) else "invalid name length: 0";;
  let nameEnd := i64 (current + i64 nameLen) in
  guard negb (nameEnd >? len data) else "unexpected end of data reading name";;
  let! name := slice data current nameEnd in
  let! (addr, path) := structTarget data (sType h) nameEnd sb in
  Ret (mkStructLink (sVersion h) (sFlags h) (sType h) name (sCreationOrder h) (sCreationOrderValid h) (sCharacterSet h) addr path).

Definition IsHardLink (lm : StructLink) : bool := sType lm =? LinkTypeHard.
Definition IsSoftLink (lm : StructLink) : bool := sType lm =? LinkTypeSoft.

(** ** internal/core/linkinfo.go *)

Record LinkInfoMessage := mkLinkInfo {
  liVersion : Z;
  liFlags : Z;
  MaxCreationOrder : Z;
  FractalHeapAddress : Z;
  NameBTreeAddress : Z;
  CreationOrderBTreeAddress : Z }.

Definition LinkInfoTrackCreationOrder : Z := 0x01.
Definition LinkInfoIndexCreationOrder : Z := 0x02.

Definition HasCreationOrderTracking (flags : Z) : bool := negb (Z.land flags LinkInfoTrackCreationOrder =? 0).
Definition HasCreationOrderIndex (flags : Z) : bool := negb (Z.land flags LinkInfoIndexCreationOrder =? 0).

Definition HasFractalHeap (lim : LinkInfoMessage) : bool :=
  negb (FractalHeapAddress lim =? 0) && negb (FractalHeapAddress lim =? MaxUint64).
Definition HasNameBTree (lim : LinkInfoMessage) : bool :=
  negb (NameBTreeAddress lim =? 0) && negb (NameBTreeAddress lim =? MaxUint64).
Definition HasCreationOrderBTree (lim : LinkInfoMessage) : bool :=
  negb (CreationOrderBTreeAddress lim =? 0) && negb (CreationOrderBTreeAddress lim =? MaxUint64).

(** [readUint64(data[offset:], size, order)]. *)
Definition readUint64At (data : bytes) (offset size : Z) (order : ByteOrder) : outcome Z :=
  let! tl := slice data offset (len data) in readUint64 tl size order.

Definition ParseLinkInfoMessage (data : bytes) (sb : Superblock) : outcome LinkInfoMessage :=
  let O := OffsetSize sb in
  guard negb (len data <? 2) else "link info message too short";;
  let! version := idx data 0 in
  guard b2z version =? 0 else "unsupported link info version";;
  let! flagByte := idx data 1 in
  let flags := b2z flagByte in
  guard Z.land flags 0xFC =? 0 else "invalid link info flags (reserved bits set)";;
  let! (maxOrder, offset) :=
    (if HasCreationOrderTracking flags then
       guard negb (len data <? 2 + 8) else "link info message truncated (missing max creation order)";;
       let! v := get_le 8 data 2 in
       guard negb (i64 v <? 0) else "invalid max creation order value";;
       Ret (i64 v, 10)
     else Ret (0, 2)) in
  guard negb (len data <? offset + O) else "link info message truncated (missing fractal heap address)";;
  let! heapAddr := readUint64At data offset O (Endianness sb) in
  guard negb (len data <? offset + O + O) else "link info message truncated (missing name B-tree address)";;
  let! nameAddr := readUint64At data (offset + O) O (Endianness sb) in
  let! orderAddr :=
    (if HasCreationOrderIndex flags then
       guard negb (len data <? offset + O + O + O) else "link info message truncated (missing creation order B-tree address)";;
       readUint64At data (offset + O + O) O (Endianness sb)
     else Ret 0) in
  Ret (mkLinkInfo (b2z version) flags maxOrder heapAddr nameAddr orderAddr).

Definition EncodeLinkInfoMessage (lim : LinkInfoMessage) (sb : Superblock) : outcome bytes :=
  let O := OffsetSize sb in
  let flags := liFlags lim in
  guard liVersion lim =? 0 else "unsupported link info version";;
  let size := 2 + (if HasCreationOrderTracking flags then 8 else 0) + 2 * O + (if HasCreationOrderIndex flags then O else 0) in
  let! buf := put_bytes (zeros size) 0 [z2b (liVersion lim)] in
  let! buf := put_bytes buf 1 [z2b flags] in
  let! (buf, offset) :=
    (if HasCreationOrderTracking flags then let! buf := put_le 8 buf 2 (MaxCreationOrder lim) in Ret (buf, 10) else Ret (buf, 2)) in
  let! buf := writeUint64 buf offset (FractalHeapAddress lim) O (Endianness sb) in
  let! buf := writeUint64 buf (offset + O) (NameBTreeAddress lim) O (Endianness sb) in
  if HasCreationOrderIndex flags then writeUint64 buf (offset + O + O) (CreationOrderBTreeAddress lim) O (Endianness sb)
  else Ret buf.

(** ** The two parsers of the same bytes *)

(** The headers of the two parsers stand for the same fields. *)
Definition same_header (lm : LinkMessage) (s : StructLink) : Prop :=
  LinkVersion lm = sVersion s /\ LinkFlags lm = sFlags s /\ LinkType lm = sType s /\ CharSet lm = sCharacterSet s /\
  i64 (CreationOrder lm) = sCreationOrder s /\ HasCreationOrder (LinkFlags lm) = sCreationOrderValid s.

Definition same_failure {A B} (R : A -> B -> Prop) (m : outcome A) (m' : outcome B) : Prop :=
  match m, m' with
  | Ret a, Ret b => R a b
  | Err _, Err _ => True
  | _, _ => False
  end.

Lemma same_failure_bind {A B C D} (R : A -> B -> Prop) (Q : C -> D -> Prop) m m' (k : A -> outcome C) (k' : B -> outcome D) :
  same_failure R m m' -> (forall a b, R a b -> same_failure Q (k a) (k' b)) -> same_failure Q (obind m k) (obind m' k').
Proof. destruct m, m'; cbn; try done. eauto. Qed.

Lemma headers_agree data :
  same_failure (fun p q => same_header p.1 q.1 /\ p.2 = q.2 /\ 2 <= p.2 <= 12 /\ p.2 <= len data /\
                 (idx data 1 = Ret (z2b (LinkFlags p.1)) /\ 0 <= LinkFlags p.1 < 256))
    (parseLinkMessageHeader data) (structHeader data).
Proof.
  unfold parseLinkMessageHeader, structHeader. destruct (Z.ltb_spec (len data) 2) as [|H2]; cbn [negb same_failure]; [done|].
  destruct (idx_in_range data 0) as [v Hv]; [lia|]. destruct (idx_in_range data 1) as [fl Hf]; [lia|].
  rewrite Hv. cbn [obind]. destruct (b2z v =? 1) eqn:Ev; [|rewrite Hf; cbn [obind]; done].
  rewrite Hf. cbn [obind]. cbv zeta. pose proof (b2z_range fl) as Hr. set (flags := b2z fl) in *.
  apply (same_failure_bind (fun p q => p = q /\ 2 <= p.2 <= 3 /\ p.2 <= len data)).
  { destruct (HasLinkTypeField flags); cbn [same_failure fst snd]; [|split; [reflexivity|lia]]. repeat (ztest; cbn [negb]); cbn [same_failure]; [done|].
    destruct (idx_in_range data 2) as [t ->]; [lia|]. cbn. split; [reflexivity|lia]. }
  intros [t o] q (<- & Ho & Hl). cbn [fst snd] in *.
  apply (same_failure_bind (fun p q => i64 p.1 = q.1.1 /\ HasCreationOrder flags = q.1.2 /\ p.2 = q.2 /\ 2 <= p.2 <= 11 /\ p.2 <= len data)).
  { destruct (HasCreationOrder flags); cbn [same_failure fst snd]; [|split; [reflexivity|lia]].
    repeat (ztest; cbn [negb]); cbn [same_failure]; [done|].
    destruct (get_le_in_range 8 data o) as (w & -> & _); [lia..|]. cbn. lia. }
  intros [w o'] [[w' b] o''] (Hw & Hb & E & Ho' & Hl'). cbn [fst snd] in *. subst.
  apply (same_failure_bind (fun p q => p = q /\ 2 <= p.2 <= 12 /\ p.2 <= len data)).
  { destruct (HasCharSetField flags); cbn [same_failure fst snd]; [|split; [reflexivity|lia]]. repeat (ztest; cbn [negb]); cbn [same_failure]; [done|].
    destruct (idx_in_range data o'') as [c ->]; [lia|]. cbn. split; [reflexivity|lia]. }
  intros [c o2] q (<- & Ho2 & Hl2). cbn [fst snd same_failure] in *.
  split; [done|]. split; [reflexivity|]. do 2 (split; [lia|]). split; [|exact Hr].
  cbn [LinkFlags]. subst flags. by rewrite z2b_b2z.
Qed.

(** What a link says, as each parser returns it. *)
Definition same_link (sb : Superblock) (lm : LinkMessage) (s : StructLink) : Prop :=
  same_header lm s /\ LinkName lm = sName s /\
  (LinkType lm = LinkTypeHard -> GetHardLinkAddress lm sb = Ret (sObjectAddress s)) /\
  (LinkType lm = LinkTypeSoft -> GetSoftLinkPath lm = Ret (sTargetPath s)).

(** The differences: the structures parser refuses an empty name and an empty
    path, does not read the value of a link that is neither hard nor soft, has
    no bound on the name's length, and panics when an eight-byte length is
    negative as an [int]. *)
Definition link_difference (data : bytes) (m : outcome LinkMessage) (m' : outcome StructLink) : Prop :=
  match m, m' with
  | Ret lm, Err _ => LinkName lm = [] \/ (LinkType lm = LinkTypeSoft /\ LinkValue lm = [])
  | Err _, Ret s => 1048576 < len (sName s) \/ (sType s <> LinkTypeHard /\ sType s <> LinkTypeSoft)
  | Err _, Panic => exists flags, idx data 1 = Ret flags /\ GetLinkNameLengthSize (b2z flags) = 8
  | _, _ => False
  end.

Lemma length_size flags : 
  GetLinkNameLengthSize flags = 1 \/ GetLinkNameLengthSize flags = 2 \/ GetLinkNameLengthSize flags = 4 \/ GetLinkNameLengthSize flags = 8.
Proof. unfold GetLinkNameLengthSize. repeat case_match; tauto. Qed.

Lemma get_le_one data off : 0 <= off < len data -> get_le 1 data off = (let! b := idx data off in Ret (b2z b)).
Proof.
  intros H. destruct (idx_in_range data off H) as [b Hb]. rewrite Hb. cbn [obind]. apply idx_ret in Hb as (_ & Hb).
  rewrite get_le_ret by lia. f_equal. unfold sub. rewrite (drop_S _ _ _ Hb).
  change (Z.to_nat (Z.of_nat 1)) with 1%nat. change (take 1 (b :: drop (S (Z.to_nat off)) data)) with [b]. unfold le_get. lia.
Qed.

Lemma name_lengths_agree data lm s offset : LinkFlags lm = sFlags s -> 0 <= offset <= len data ->
  same_failure (fun p q => p = q /\ 0 <= p.1 < 256 ^ GetLinkNameLengthSize (LinkFlags lm) /\ p.2 = offset + GetLinkNameLengthSize (LinkFlags lm) /\ p.2 <= len data)
    (parseLinkNameLength data offset lm) (structNameLength data (sFlags s) offset).
Proof.
  intros Hf Ho. unfold parseLinkNameLength, structNameLength. rewrite <- Hf. cbv zeta.
  pose proof (length_size (LinkFlags lm)) as Hs. set (n := GetLinkNameLengthSize (LinkFlags lm)) in *.
  ztest; cbn [negb same_failure]; [done|].
  destruct (get_le_in_range (Z.to_nat n) data offset) as (v & Hv & Hr); [lia..|]. rewrite Z2Nat.id in Hr by lia.
  rewrite Hv. cbn [obind]. destruct (Z.eqb_spec n 1) as [E|].
  - rewrite E in Hv. change (Z.to_nat 1) with 1%nat in Hv. rewrite get_le_one in Hv by lia.
    destruct (idx data offset) as [b| |]; [|done..]. cbn [obind] in *. injection Hv as ->. cbn. split; [reflexivity|lia].
  - cbn. split; [reflexivity|lia].
Qed.

Lemma get_order_idx e data off : 0 <= off < len data -> idx data off = Ret (z2b (get_order e (sub data off 1))).
Proof.
  intros H. destruct (idx_in_range data off H) as [b Hb]. rewrite Hb. apply idx_ret in Hb as (_ & Hb).
  unfold sub. rewrite (drop_S _ _ _ Hb). f_equal.
  change (Z.to_nat 1) with 1%nat. change (take 1 (b :: drop (S (Z.to_nat off)) data)) with [b].
  assert (E : le_get [b] = b2z b) by (unfold le_get; lia). destruct e; cbn [get_order rev app]; by rewrite E, z2b_b2z.
Qed.

Lemma readUint64_all e v size : validSize size = true -> len v = size -> readUint64 v size e = Ret (get_order e v).
Proof.
  intros Hs Hl. rewrite <- (app_nil_r v) at 1.
  assert (E : put_order e (Z.to_nat size) (get_order e v) = v).
  { rewrite <- Hl, len_length, Nat2Z.id. destruct e; cbn; [apply le_put_get|].
    rewrite <- (length_rev v), le_put_get. apply rev_involutive. }
  rewrite <- E at 1. apply readUint64_at; [done|]. apply get_order_range. done.
Qed.

Lemma external_shape data offset : 0 <= offset ->
  match parseExternalLinkValue data offset with Ret _ => offset + 2 <= len data | Err _ => True | Panic => False end.
Proof.
  intros Ho. unfold parseExternalLinkValue. ztest; cbn [negb]; [done|].
  destruct (get_le_in_range 2 data offset) as (n & -> & Hn); [lia..|]. cbn [obind]. ztest; cbn [negb]; [done|].
  destruct (get_le_in_range 2 data (offset + 2 + n)) as (m & -> & Hm); [lia..|]. cbn [obind]. ztest; cbn [negb]; [done|].
  rewrite slice_ret by lia. lia.
Qed.

Lemma targets_agree data lm s sb o : LinkType lm = sType s -> 0 <= o <= len data -> validSize (OffsetSize sb) = true ->
  match parseLinkValue data o lm sb, structTarget data (sType s) o sb with
  | Ret v, Ret (a, p) => (sType s = LinkTypeHard -> len v = OffsetSize sb /\ a = get_order (Endianness sb) v) /\
                         (sType s = LinkTypeSoft -> v = p /\ v <> [])
  | Ret v, Err _ => sType s = LinkTypeSoft /\ v = []
  | Err _, Ret _ => sType s <> LinkTypeHard /\ sType s <> LinkTypeSoft
  | Err _, Err _ => True
  | _, _ => False
  end.
Proof.
  intros Ht Ho Hs. unfold parseLinkValue, structTarget. rewrite Ht. pose proof (validSize_range _ Hs) as Hr.
  unfold LinkTypeHard, LinkTypeSoft, LinkTypeExternal. cbv zeta. unfold validSize in Hs. rewrite Hs.
  destruct (Z.eqb_spec (sType s) 0) as [E|N0]; [|destruct (Z.eqb_spec (sType s) 1) as [E|N1]].
  - unfold parseHardLinkValue. ztest; cbn [negb]; [done|]. rewrite slice_ret by lia. cbn [obind].
    split; [intros _|lia]. split; [rewrite len_sub by lia; lia|done].
  - unfold parseSoftLinkValue. ztest; cbn [negb]; [done|].
    destruct (get_le_in_range 2 data o) as (n & -> & Hn); [lia..|]. cbn [obind].
    destruct (Z.eqb_spec n 0) as [->|Hn0]; cbn [negb].
    + ztest; cbn [negb]. rewrite slice_ret by lia. split; [done|].
      apply len_0_nil. rewrite len_sub by lia. lia.
    + ztest; cbn [negb]; [done|]. rewrite slice_ret by lia. cbn [obind]. split; [lia|]. intros _. split; [done|].
      intros E0. apply (f_equal len) in E0. rewrite len_sub in E0 by lia. change (len (@nil byte)) with 0 in E0. lia.
  - assert (Hx : match structTarget data (sType s) o sb with Ret _ => True | Err _ => len data < o + 2 | Panic => False end).
    { unfold structTarget, LinkTypeHard, LinkTypeSoft. destruct (Z.eqb_spec (sType s) 0); [lia|].
      destruct (Z.eqb_spec (sType s) 1); [lia|]. ztest; cbn [negb]; [lia|].
      destruct (get_le_in_range 2 data o) as (u & -> & Hu); [lia..|]. done. }
    unfold structTarget, LinkTypeHard, LinkTypeSoft in Hx.
    destruct (Z.eqb_spec (sType s) 0); [lia|]. destruct (Z.eqb_spec (sType s) 1); [lia|].
    pose proof (external_shape data o ltac:(lia)) as Hc.
    set (m := guard negb (o + 2 >? len data) else _;; _) in *.
    destruct (sType s =? 64); [destruct (parseExternalLinkValue data o)|]; destruct m as [[]| |]; try done; try lia.
Qed.

(** The end of the name as an [int]: a length of 2^62 or more never gives a name. *)
Lemma huge_name {A} data o v (k : bytes -> outcome A) : 0 <= o <= 20 -> len data < 2 ^ 62 -> 2 ^ 62 <= v < 2 ^ 64 ->
  (let nameEnd := i64 (o + i64 v) in
   guard negb (nameEnd >? len data) else "unexpected end of data reading name";;
   let! name := slice data o nameEnd in k name) <> Panic ->
  (let nameEnd := i64 (o + i64 v) in
   guard negb (nameEnd >? len data) else "unexpected end of data reading name";;
   let! name := slice data o nameEnd in k name) = Err "unexpected end of data reading name".
Proof.
  intros Ho Hd Hv. cbv zeta. unfold i64. destruct (Z.gtb_spec ((o + ((v + 2 ^ 63) mod 2 ^ 64 - 2 ^ 63) + 2 ^ 63) mod 2 ^ 64 - 2 ^ 63) (len data)); cbn [negb]; [done|].
  intros Hp. destruct Hp. pose proof (len_nonneg data). unfold slice.
  set (e := (o + _ + 2 ^ 63) mod 2 ^ 64 - 2 ^ 63) in *. assert (e < o); [|].
  { subst e. pose proof (Z.div_mod (v + 2 ^ 63) (2 ^ 64) ltac:(lia)). pose proof (Z.mod_pos_bound (v + 2 ^ 63) (2 ^ 64) ltac:(lia)).
    set (q := (v + 2 ^ 63) mod 2 ^ 64) in *.
    pose proof (Z.div_mod (o + (q - 2 ^ 63) + 2 ^ 63) (2 ^ 64) ltac:(lia)).
    pose proof (Z.mod_pos_bound (o + (q - 2 ^ 63) + 2 ^ 63) (2 ^ 64) ltac:(lia)). nia. }
  case_match; [lia|done].
Qed.

Lemma small_end o v : 0 <= o <= 20 -> 0 <= v < 2 ^ 62 -> i64 (o + i64 v) = o + v.
Proof. intros. rewrite !(i64_id v), i64_id by lia. done. Qed.

(** C18. The two link-message parsers of the library (the one of internal/core
    and the one of internal/structures that readers of dense groups use) agree
    on every byte string: same version, flags, type, creation order, character
    set and name, the same address of a hard link and the same path of a soft
    link, and one fails where the other fails, except for the listed
    differences: an empty name or path, a name above 1 MiB, a link that is
    neither hard nor soft, and messages with an eight-byte name length, on which
    the structures parser can panic (its conversion to a signed integer is not
    checked) where the other gives an error. *)
Theorem link_parsers_agree data sb (Hd : len data < 2 ^ 62) (Hs : validSize (OffsetSize sb) = true) :
  same_failure (same_link sb) (ParseLinkMessage data sb) (ParseStructLink data sb) \/
  link_difference data (ParseLinkMessage data sb) (ParseStructLink data sb).
Proof.
  unfold ParseLinkMessage, ParseStructLink. pose proof (headers_agree data) as Hh.
  destruct (parseLinkMessageHeader data) as [[lm o]| |], (structHeader data) as [[s o']| |]; try done; [|by left].
  cbn [same_failure fst snd] in Hh. destruct Hh as (Hl & <- & Ho & Hol & Hi & Hf). cbn [obind].
  pose proof (name_lengths_agree data lm s o (proj1 (proj2 Hl)) ltac:(lia)) as Hn.
  destruct (parseLinkNameLength data o lm) as [[v e]| |], (structNameLength data (sFlags s) o) as [[v' e']| |]; try done; [|by left].
  cbn [same_failure fst snd] in Hn. destruct Hn as (E & Hv & He & Hel). injection E as <- <-. cbn [obind].
  pose proof (length_size (LinkFlags lm)) as Hz. assert (Hv64 : 0 <= v < 2 ^ 64).
  { destruct Hz as [Z1|[Z1|[Z1|Z1]]]; rewrite Z1 in Hv; lia. }
  unfold parseLinkName. destruct (Z.gtb_spec v (1024 * 1024)) as [Hbig|Hsmall]; cbn [negb obind].
  - destruct (Z.eqb_spec v 0); [lia|]. cbn [negb]. destruct (Z_lt_le_dec v (2 ^ 62)) as [Hlt|Hge].
    + rewrite small_end by lia. destruct (Z.gtb_spec (e + v) (len data)); cbn [negb]; [by left|].
      rewrite slice_ret by lia. cbn [obind]. pose proof (targets_agree data lm s sb (e + v) ltac:(apply Hl) ltac:(lia) Hs) as Ht.
      destruct (structTarget data (sType s) (e + v) sb) as [[a p]| |]; cbn [obind]; [right; left|by left|].
      * cbn [sName]. rewrite len_sub by lia. lia.
      * destruct (parseLinkValue data (e + v) lm sb); done.
    + assert (Hp := huge_name data e v (fun name => let! (addr, path) := structTarget data (sType s) (i64 (e + i64 v)) sb in
        Ret (mkStructLink (sVersion s) (sFlags s) (sType s) name (sCreationOrder s) (sCreationOrderValid s) (sCharacterSet s) addr path))
        ltac:(lia) Hd ltac:(lia)).
      cbv zeta in *. destruct (if negb (i64 (e + i64 v) >? len data) then _ else _) as [r|m|] eqn:Er.
      * exfalso. specialize (Hp ltac:(discriminate)). discriminate.
      * by left.
      * right. exists (z2b (LinkFlags lm)). split; [exact Hi|]. destruct Hz as [Z1|[Z1|[Z1|Z1]]]; rewrite Z1 in Hv; try lia.
        rewrite b2z_z2b_small by lia. exact Z1.
  - destruct (Z.ltb_spec (len data) (e + v)) as [Hend|Hend]; cbn [negb obind].
    { destruct (v =? 0); cbn [negb]; [by left|]. rewrite small_end by lia. ztest. by left. }
    rewrite slice_ret by lia. cbn [obind].
    pose proof (targets_agree data lm s sb (e + v) ltac:(apply Hl) ltac:(lia) Hs) as Ht.
    destruct (Z.eqb_spec v 0) as [->|Hv0]; cbn [negb].
    { destruct (parseLinkValue data (e + 0) lm sb) as [w| |]; cbn [obind]; [right|by left|by destruct (structTarget data (sType s) (e + 0) sb)].
      left. cbn [LinkName]. apply len_0_nil. rewrite len_sub by lia. lia. }
    rewrite small_end by lia. ztest; cbn [negb]. rewrite slice_ret by lia. cbn [obind].
    destruct (parseLinkValue data (e + v) lm sb) as [w| |], (structTarget data (sType s) (e + v) sb) as [[a p]| |]; cbn [obind]; try done.
    + left. cbn [same_failure]. destruct Ht as [Hth Hts]. split; [exact Hl|]. split; [reflexivity|].
      destruct Hl as (_ & _ & Hlt & _). unfold GetHardLinkAddress, GetSoftLinkPath. cbn [LinkType LinkValue sObjectAddress sTargetPath].
      rewrite Hlt. split; intros E; rewrite E; cbn [LinkTypeHard LinkTypeSoft Z.eqb Pos.eqb].
      * destruct (Hth E) as [Hw ->]. rewrite Hw, Z.eqb_refl. rewrite <- Hw at 1. by apply readUint64_all; [rewrite Hw|].
      * destruct (Hts E) as [-> Hne]. destruct (Z.eqb_spec (len p) 0) as [H0|]; [|done]. apply len_0_nil in H0. done.
    + right. right. split; [|exact (proj2 Ht)]. destruct Hl as (_ & _ & -> & _). apply Ht.
    + right. right. exact Ht.
    + by left.
Qed.

(** ** What the core encoder writes, the core parser reads *)

Definition opt (c : bool) (bs : bytes) : bytes := if c then bs else [].

Definition linkHead (lm : LinkMessage) : bytes :=
  let flags := LinkFlags lm in
  [x01; z2b flags] ++ opt (HasLinkTypeField flags) [z2b (LinkType lm)] ++
  opt (HasCreationOrder flags) (le_put 8 (CreationOrder lm)) ++ opt (HasCharSetField flags) [z2b (CharSet lm)].

Definition linkBytes (lm : LinkMessage) : bytes :=
  linkHead lm ++ le_put (Z.to_nat (GetLinkNameLengthSize (LinkFlags lm))) (len (LinkName lm)) ++ LinkName lm ++ LinkValue lm.

(** The fields the flags leave out are zero, and the name fits its length field. *)
Record link_ok (lm : LinkMessage) : Prop := {
  lo_version : LinkVersion lm = 1;
  lo_flags : 0 <= LinkFlags lm < 256;
  lo_type : 0 <= LinkType lm < (if HasLinkTypeField (LinkFlags lm) then 256 else 1);
  lo_order : 0 <= CreationOrder lm < (if HasCreationOrder (LinkFlags lm) then 2 ^ 64 else 1);
  lo_charset : 0 <= CharSet lm < (if HasCharSetField (LinkFlags lm) then 256 else 1);
  lo_name : len (LinkName lm) < 256 ^ GetLinkNameLengthSize (LinkFlags lm) }.

(** [v] is the value the parser gives for what follows the name. *)
Inductive wire_value (sb : Superblock) : Z -> bytes -> bytes -> Prop :=
  | wire_hard v : len v = OffsetSize sb -> wire_value sb LinkTypeHard v v
  | wire_soft path : len path < 65536 -> wire_value sb LinkTypeSoft path (le_put 2 (len path) ++ path)
  | wire_external f p : len f < 65536 -> len p < 65536 ->
      wire_value sb LinkTypeExternal (le_put 2 (len f) ++ f ++ le_put 2 (len p) ++ p)
        (le_put 2 (len f) ++ f ++ le_put 2 (len p) ++ p).

Lemma put_opt (c : bool) pre k bs off off' : off = len pre -> len (opt c bs) <= k -> off' = off + len bs ->
  (if c then let! buf := put_bytes (pre ++ zeros k) off bs in Ret (buf, off') else Ret (pre ++ zeros k, off)) =
  Ret ((pre ++ opt c bs) ++ zeros (k - len (opt c bs)), off + len (opt c bs)).
Proof.
  intros -> Hk ->. destruct c; cbn [opt] in *.
  - by rewrite put_bytes_cursor by lia.
  - change (len (@nil byte)) with 0. by rewrite app_nil_r, Z.sub_0_r, Z.add_0_r.
Qed.

Lemma len_opt c bs : len (opt c bs) = if c then len bs else 0.
Proof. by destruct c. Qed.

Lemma writeLinkNameLength_ret n flags pre k off (ls := GetLinkNameLengthSize flags) :
  0 <= n < 256 ^ ls -> off = len pre -> ls <= k ->
  writeLinkNameLength (pre ++ zeros k) off n ls = Ret ((pre ++ le_put (Z.to_nat ls) n) ++ zeros (k - ls)).
Proof.
  intros Hn -> Hk. unfold writeLinkNameLength.
  destruct (length_size flags) as [E|[E|[E|E]]]; fold ls in E; rewrite E in *; cbn [Z.eqb Pos.eqb].
  - ztest; cbn [negb]. by rewrite (put_bytes_cursor pre k [z2b n]) by (try done; cbn; lia).
  - ztest; cbn [negb]. by rewrite (put_le_cursor 2) by (try done; lia).
  - ztest; cbn [negb]. by rewrite (put_le_cursor 4) by (try done; lia).
  - by rewrite (put_le_cursor 8) by (try done; lia).
Qed.

Lemma EncodeLinkMessage_ret lm : link_ok lm -> EncodeLinkMessage lm = Ret (linkBytes lm).
Proof.
  intros [Hv Hf Ht Ho Hc Hn]. unfold EncodeLinkMessage. rewrite Hv. cbv zeta. cbn [negb Z.eqb Pos.eqb].
  pose proof (length_size (LinkFlags lm)) as Hls.
  set (ls := GetLinkNameLengthSize (LinkFlags lm)) in *. set (flags := LinkFlags lm) in *.
  pose proof (len_nonneg (LinkName lm)). pose proof (len_nonneg (LinkValue lm)).
  set (b1 := opt (HasLinkTypeField flags) [z2b (LinkType lm)]). set (b2 := opt (HasCreationOrder flags) (le_put 8 (CreationOrder lm))).
  set (b3 := opt (HasCharSetField flags) [z2b (CharSet lm)]).
  assert (L1 : len b1 = if HasLinkTypeField flags then 1 else 0) by apply len_opt.
  assert (L2 : len b2 = if HasCreationOrder flags then 8 else 0) by apply len_opt.
  assert (L3 : len b3 = if HasCharSetField flags then 1 else 0) by apply len_opt.
  rewrite <- L1, <- L2, <- L3. pose proof (len_nonneg b1). pose proof (len_nonneg b2). pose proof (len_nonneg b3).
  set (size := 2 + _ + _ + _ + _ + _ + _).
  rewrite (put_bytes_cursor [] size [z2b 1]) by (try done; subst size; len_lia). cbn [obind app].
  rewrite (put_bytes_cursor [x01] (size - len [z2b 1]) [z2b flags]) by (try done; subst size; len_lia). cbn [obind app].
  change (len [z2b 1]) with 1. change (len [z2b flags]) with 1.
  replace (size - 1 - 1) with (size - 2) by lia.
  rewrite (put_opt (HasLinkTypeField flags) [x01; z2b flags] (size - 2) [z2b (LinkType lm)]) by (try done; subst size; unfold b1 in *; lia).
  fold b1. cbn [obind].
  unfold put_le at 1.
  rewrite (put_opt (HasCreationOrder flags) ([x01; z2b flags] ++ b1) _ (le_put 8 (CreationOrder lm)))
    by (try done; subst size; unfold b2 in *; len_lia).
  fold b2. cbn [obind].
  rewrite (put_opt (HasCharSetField flags) _ _ [z2b (CharSet lm)]) by (try done; subst size; unfold b3 in *; len_lia).
  fold b3. cbn [obind]. subst size.
  unfold ls. rewrite writeLinkNameLength_ret by (fold ls; try done; len_lia). fold ls. cbn [obind].
  rewrite copy_bytes_cursor by len_lia. cbn [obind]. rewrite copy_bytes_cursor by len_lia.
  match goal with |- context [zeros ?z] => replace z with 0 by lia end.
  change (zeros 0) with (@nil byte). rewrite app_nil_r. unfold linkBytes, linkHead. fold flags. fold ls b1 b2 b3.
  by rewrite !app_assoc.
Qed.

Lemma read_opt_byte (c : bool) data pre v rest off off' end_ e : data = pre ++ opt c [z2b v] ++ rest -> off = len pre ->
  off' = off + 1 -> end_ = off + 1 -> 0 <= v < (if c then 256 else 1) ->
  (if c then guard negb (len data <? end_) else e;; let! t := idx data off in Ret (b2z t, off') else Ret (0, off)) =
  Ret (v, len (pre ++ opt c [z2b v])).
Proof.
  intros -> -> -> -> Hv. rewrite (len_app pre (opt _ _)), len_opt. destruct c; cbn [opt]; [|f_equal; f_equal; len_lia].
  rewrite !len_app. pose proof (len_nonneg rest). change (len [z2b v]) with 1. destruct (Z.ltb_spec (len pre + (1 + len rest)) (len pre + 1)); [lia|].
  cbn [negb]. rewrite idx_app_0. cbn [app]. rewrite idx_head. cbn [obind]. by rewrite b2z_z2b_small.
Qed.

Lemma read_opt_order (c : bool) data pre v rest off e : data = pre ++ opt c (le_put 8 v) ++ rest -> off = len pre ->
  0 <= v < (if c then 2 ^ 64 else 1) ->
  (if c then guard negb (len data <? off + 8) else e;; let! t := get_le 8 data off in Ret (t, off + 8) else Ret (0, off)) =
  Ret (v, len (pre ++ opt c (le_put 8 v))).
Proof.
  intros -> -> Hv. rewrite (len_app pre (opt _ _)), len_opt. destruct c; cbn [opt]; [|f_equal; f_equal; len_lia].
  rewrite !len_app, len_le_put. pose proof (len_nonneg rest). ztest. cbn [negb].
  rewrite get_le_app by (try done; lia). reflexivity.
Qed.

Lemma parse_head lm rest : link_ok lm ->
  parseLinkMessageHeader (linkHead lm ++ rest) =
  Ret (mkLinkMessage 1 (LinkFlags lm) (LinkType lm) (CreationOrder lm) (CharSet lm) [] [], len (linkHead lm)).
Proof.
  intros [Hv Hf Ht Ho Hc Hn]. unfold linkHead. set (flags := LinkFlags lm) in *.
  set (b1 := opt (HasLinkTypeField flags) [z2b (LinkType lm)]). set (b2 := opt (HasCreationOrder flags) (le_put 8 (CreationOrder lm))).
  set (b3 := opt (HasCharSetField flags) [z2b (CharSet lm)]).
  unfold parseLinkMessageHeader. set (data := ([x01; z2b flags] ++ _) ++ rest).
  assert (Hd0 : idx data 0 = Ret x01) by done. assert (Hd1 : idx data 1 = Ret (z2b flags)) by done.
  rewrite Hd0, Hd1. cbn [obind]. rewrite b2z_z2b_small by lia. change (b2z x01) with 1.
  destruct (Z.ltb_spec (len data) 2); [subst data; rewrite !len_app in *; change (len [x01; z2b flags]) with 2 in *; pose proof (len_nonneg rest); pose proof (len_nonneg b1); pose proof (len_nonneg b2); pose proof (len_nonneg b3); lia|].
  cbn [negb Z.eqb Pos.eqb].
  unfold LinkTypeHard. rewrite (read_opt_byte _ data [x01; z2b flags] (LinkType lm) (b2 ++ b3 ++ rest)) by (try done; subst data; by rewrite <- !app_assoc).
  fold b1. cbn [obind].
  rewrite (read_opt_order _ data ([x01; z2b flags] ++ b1) (CreationOrder lm) (b3 ++ rest)) by (try done; subst data; by rewrite <- !app_assoc).
  fold b2. cbn [obind].
  rewrite (read_opt_byte _ data (([x01; z2b flags] ++ b1) ++ b2) (CharSet lm) rest) by (try done; subst data; by rewrite <- !app_assoc).
  fold b3. cbn [obind]. by rewrite <- !app_assoc.
Qed.

Lemma parse_value sb lm pre v w pad off : wire_value sb (LinkType lm) v w -> off = len pre ->
  parseLinkValue (pre ++ w ++ pad) off lm sb = Ret v.
Proof.
  intros Hw ->. pose proof (len_nonneg pad). pose proof (len_nonneg pre). unfold parseLinkValue.
  inversion Hw as [v0 Hl Et|path Hl Et|f p Hf Hp Et]; subst v0 || subst v; subst w; cbn [LinkTypeHard LinkTypeSoft LinkTypeExternal Z.eqb Pos.eqb].
  - unfold parseHardLinkValue. rewrite !len_app. ztest. cbn [negb]. apply (slice_at _ pre v pad); lia || done.
  - unfold parseSoftLinkValue. rewrite !len_app, len_le_put. pose proof (len_nonneg path). ztest. cbn [negb].
    rewrite <- app_assoc, get_le_app by (done || lia). cbn [obind]. ztest. cbn [negb].
    rewrite (slice_at _ (pre ++ le_put 2 (len path)) path pad) by (done || len_lia || by rewrite <- !app_assoc). done.
  - unfold parseExternalLinkValue. rewrite !len_app, !len_le_put. pose proof (len_nonneg f). pose proof (len_nonneg p). ztest. cbn [negb].
    rewrite <- !app_assoc. rewrite get_le_app by (done || lia). cbn [obind]. ztest. cbn [negb].
    rewrite (get_le_at 2 _ (pre ++ le_put 2 (len f) ++ f) (len p) (p ++ pad)) by (done || len_lia || by rewrite <- !app_assoc).
    cbn [obind]. ztest. cbn [negb]. apply (slice_at _ pre (le_put 2 (len f) ++ f ++ le_put 2 (len p) ++ p) pad); [by rewrite <- !app_assoc|done|len_lia].
Qed.

Definition with_value (lm : LinkMessage) (v : bytes) : LinkMessage :=
  mkLinkMessage (LinkVersion lm) (LinkFlags lm) (LinkType lm) (CreationOrder lm) (CharSet lm) (LinkName lm) v.

Lemma parse_name data pre n lm post off (ls := GetLinkNameLengthSize (LinkFlags lm)) :
  data = pre ++ le_put (Z.to_nat ls) n ++ post -> off = len pre -> 0 <= n < 256 ^ ls ->
  parseLinkNameLength data off lm = Ret (n, off + ls).
Proof.
  intros -> -> Hn. unfold parseLinkNameLength. fold ls. pose proof (length_size (LinkFlags lm)) as Hls. fold ls in Hls.
  cbv zeta. rewrite !len_app, len_le_put. pose proof (len_nonneg post). ztest. cbn [negb].
  destruct (Z.eqb_spec ls 1) as [E|].
  - rewrite E in *. change (Z.to_nat 1) with 1%nat. rewrite idx_app_0. cbn [le_put app]. rewrite idx_head. cbn [obind].
    rewrite b2z_z2b_small by lia. reflexivity.
  - rewrite get_le_app by (done || (rewrite Z2Nat.id; lia)). reflexivity.
Qed.

(** C17. Round trip of the link message: what EncodeLinkMessage writes for a
    message whose fields fit (whatever optional fields its flags have, and
    followed by any padding), ParseLinkMessage reads back, with the value as
    the parser keeps it: the address of a hard link, the path of a soft link
    without the length before it, both strings of an external link. *)
Theorem link_message_roundtrip lm sb v pad (Hok : link_ok lm) (Hname : len (LinkName lm) <= 1024 * 1024)
    (Hv : wire_value sb (LinkType lm) v (LinkValue lm)) :
  exists bs, EncodeLinkMessage lm = Ret bs /\ ParseLinkMessage (bs ++ pad) sb = Ret (with_value lm v).
Proof.
  exists (linkBytes lm). split; [by apply EncodeLinkMessage_ret|]. unfold ParseLinkMessage, linkBytes. rewrite <- !app_assoc.
  rewrite parse_head by done. cbn [obind]. set (lm0 := mkLinkMessage 1 _ _ _ _ _ _).
  pose proof (length_size (LinkFlags lm)) as Hls. set (ls := GetLinkNameLengthSize (LinkFlags lm)) in *.
  pose proof (len_nonneg (LinkName lm)). pose proof (lo_name lm Hok) as Hn. fold ls in Hn.
  pose proof (parse_name _ (linkHead lm) (len (LinkName lm)) lm0 (LinkName lm ++ LinkValue lm ++ pad) _ eq_refl eq_refl) as Hp.
  change (GetLinkNameLengthSize (LinkFlags lm0)) with ls in Hp. rewrite Hp by lia. clear Hp. cbn [obind].
  unfold parseLinkName. ztest. cbn [negb]. pose proof (len_nonneg pad). pose proof (len_nonneg (LinkValue lm)).
  rewrite !len_app, len_le_put. ztest; cbn [negb].
  rewrite (slice_at _ (linkHead lm ++ le_put (Z.to_nat ls) (len (LinkName lm))) (LinkName lm) (LinkValue lm ++ pad))
    by (done || len_lia || by rewrite <- !app_assoc). cbn [obind].
  pose proof (parse_value sb lm0 ((linkHead lm ++ le_put (Z.to_nat ls) (len (LinkName lm))) ++ LinkName lm) v (LinkValue lm) pad
    (len (linkHead lm) + ls + len (LinkName lm)) Hv ltac:(len_lia)) as Hpv.
  rewrite <- !app_assoc in Hpv. rewrite Hpv. cbn [obind]. unfold with_value. by rewrite (lo_version lm Hok).
Qed.

Definition demo_hard : LinkMessage :=
  mkLinkMessage 1 0x10 LinkTypeHard 0 1 (String.list_byte_of_string "temperature") (le_put 8 2048).

Lemma link_message_roundtrip_witness (sb := mkSuperblock 2 8 8 0 48 LittleEndian 0 0 0 0) :
  exists bs, EncodeLinkMessage demo_hard = Ret bs /\
    ParseLinkMessage (bs ++ zeros 3) sb = Ret (with_value demo_hard (le_put 8 2048)).
Proof.
  apply (link_message_roundtrip demo_hard sb (le_put 8 2048) (zeros 3)); [|vm_compute; discriminate|].
  - constructor; vm_compute; split || idtac; try discriminate; reflexivity.
  - constructor. reflexivity.
Defined.

Lemma link_parsers_agree_witness (sb := mkSuperblock 2 8 8 0 48 LittleEndian 0 0 0 0) (data := linkBytes demo_hard) :
  is_ret (ParseStructLink data sb) = true /\
  (same_failure (same_link sb) (ParseLinkMessage data sb) (ParseStructLink data sb) \/
   link_difference data (ParseLinkMessage data sb) (ParseStructLink data sb)).
Proof. split; [vm_compute; reflexivity|]. apply (link_parsers_agree data sb); vm_compute; reflexivity. Defined.
