(* ===== verification/DenseStorage.v ===== *)
(** * Dense storage, read side: internal/core/dense_heap.go and the raw readers
    of internal/core/attribute.go

    Links and attributes beyond a few are kept as objects of a fractal heap,
    indexed by a version-2 B-tree.  The core package has readers of its own for
    the two, which take short reads and look no further than one leaf and one
    direct block.  They are related here to what the writers of BTreeV2 and
    FractalHeap leave in a file. *)

From S2P Require Import Prelude Allocator Storage Checksum Superblock BTreeV1.
From S2P Require BTreeV2 FractalHeap.
Import FractalHeap (computeOffsetSize, sb_plain8, heap_at).

(** ** Reading *)

(** [r.ReadAt(buf, off)] where [io.EOF] is ignored: the [n] bytes of the
    buffer, zero after the end of the file, and how many were read. *)
Definition readShort (f : bytes) (off n : Z) : outcome (bytes * Z) :=
  if off <? 0 then Err "negative offset"
  else let d := sub f off n in Ret (d ++ zeros (n - len d), len d).

(** [e.UintN(buf[off:off+n])] in the superblock's byte order. *)
Definition get_uint (e : ByteOrder) (n : nat) (buf : bytes) (off : Z) : outcome Z :=
  let! s := slice buf off (off + Z.of_nat n) in Ret (get_order e s).

Record btreeV2HeaderRaw := mkRawTree {
  rtVersion : Z;
  rtType : Z;
  rtNodeSize : Z;
  rtRecordSize : Z;
  rtDepth : Z;
  rtRootNodeAddr : Z;
  rtNumRecordsRoot : Z;
  rtTotalRecords : Z }.

Definition readBTreeV2HeaderRaw (f : bytes) (addr : Z) (sb : Superblock) : outcome btreeV2HeaderRaw :=
  let e := Endianness sb in
  let! (buf, n) := readShort f (i64 addr) 38 in
  guard negb (n <? 20) else "header too short";;
  let! sig := slice buf 0 4 in
  guard bool_decide (sig = BTreeV2.BTreeV2HeaderSignature) else "invalid B-tree v2 signature";;
  let! version := idx buf 4 in
  let! type := idx buf 5 in
  let! nodeSize := get_uint e 4 buf 6 in
  let! recordSize := get_uint e 2 buf 10 in
  let! depth := get_uint e 2 buf 12 in
  let offsetSize := OffsetSize sb in
  guard negb (16 + offsetSize >? len buf) else "buffer too short for root node address";;
  let! a := slice buf 16 (16 + offsetSize) in
  let! root := readAddress a offsetSize in
  guard negb (16 + offsetSize + 2 >? len buf) else "buffer too short for num records";;
  let! numRecords := get_uint e 2 buf (16 + offsetSize) in
  guard negb (16 + offsetSize + 2 + 8 >? len buf) else "buffer too short for total records";;
  let! total := get_uint e 8 buf (16 + offsetSize + 2) in
  Ret (mkRawTree (b2z version) (b2z type) nodeSize recordSize depth root numRecords total).

(** The loop over the records: the offset and the identifiers so far. *)
Definition readHeapID (buf : bytes) (_ : Z) (s : Z * list bytes) : outcome (Z * list bytes) :=
  let '(offset, ids) := s in
  guard negb (offset + 11 >? len buf) else "buffer too short for record";;
  let! id := slice buf (offset + 4) (offset + 4 + 7) in
  Ret (offset + 11, ids ++ [id]).

Definition readBTreeV2LeafRecords (f : bytes) (addr numRecords : Z) : outcome (list bytes) :=
  let! (buf, n) := readShort f (i64 addr) (6 + numRecords * 11 + 4) in
  guard negb (n <? 10) else "leaf node too short";;
  let! sig := slice buf 0 4 in
  guard bool_decide (sig = BTreeV2.BTreeV2LeafSignature) else "invalid B-tree v2 leaf signature";;
  let! (_, ids) := for_loop (Z.to_nat numRecords) 0 (readHeapID buf) (6, []) in
  Ret ids.

Record fractalHeapHeaderRaw := mkRawHeap {
  rhVersion : Z;
  rhHeapIDLen : Z;
  rhRootBlockAddress : Z;
  rhMaxHeapSize : Z;
  rhMaxDirectBlockSize : Z;
  rhMaxManagedObjSize : Z;
  rhHeapOffsetSize : Z;
  rhHeapLengthSize : Z;
  rhChecksumDirBlocks : bool }.

(** The offsets 110 and 132 are those of a header with 8-byte sizes. *)
Definition readFractalHeapHeaderRaw (f : bytes) (addr : Z) (sb : Superblock) : outcome fractalHeapHeaderRaw :=
  let e := Endianness sb in
  let! (buf, n) := readShort f (i64 addr) 144 in
  guard negb (n <? 20) else "heap header too short";;
  let! sig := slice buf 0 4 in
  guard bool_decide (sig = FractalHeap.HeapSignature) else "invalid fractal heap signature";;
  let! version := idx buf 4 in
  let! heapIDLen := get_uint e 2 buf 5 in
  let! _ := get_uint e 2 buf 7 in
  let! flags := idx buf 9 in
  let! maxManaged := get_uint e 4 buf 10 in
  let sizeofSize := LengthSize sb in
  let! d := slice buf (112 + sizeofSize) (112 + sizeofSize + sizeofSize) in
  let maxDirect := u64 (le_get d) in
  let offset := 112 + sizeofSize + sizeofSize in
  guard negb (offset + 2 >? len buf) else "buffer too short for max heap size";;
  let! maxHeapSize := get_uint e 2 buf offset in
  let heapOffsetSize := u8 (u16 (maxHeapSize + 7) / 8) in
  let c1 := computeOffsetSize maxDirect in
  let c2 := computeOffsetSize maxManaged in
  let heapLengthSize := if c1 <? c2 then c1 else c2 in
  let offsetSize := OffsetSize sb in
  guard negb (132 + offsetSize >? len buf) else "buffer too short for root block address";;
  let! a := slice buf 132 (132 + offsetSize) in
  let! root := readAddress a offsetSize in
  Ret (mkRawHeap (b2z version) heapIDLen root maxHeapSize maxDirect maxManaged heapOffsetSize heapLengthSize
         (negb (Z.land (b2z flags) 0x02 =? 0))).

(** Offset and length; the loops stop at the end of the seven bytes. *)
Definition parseHeapID (heapID : bytes) (header : fractalHeapHeaderRaw) : outcome (Z * Z) :=
  let! flags := idx heapID 0 in
  guard Z.shiftr (Z.land (b2z flags) 0x30) 4 =? 0 else "unsupported heap ID type";;
  let n := Z.min (rhHeapOffsetSize header) 6 in
  let m := Z.min (rhHeapLengthSize header) (6 - n) in
  let! o := slice heapID 1 (1 + n) in
  let! l := slice heapID (1 + n) (1 + n + m) in
  Ret (le_get o, le_get l).

Definition readHeapObject (f : bytes) (blockAddr offset length : Z) (sb : Superblock) (header : fractalHeapHeaderRaw) : outcome bytes :=
  let os := rhHeapOffsetSize header in
  let headerSize := 4 + 1 + OffsetSize sb + os + (if rhChecksumDirBlocks header then 4 else 0) in
  let! (headerBuf, n) := readShort f (i64 blockAddr) (headerSize + 16) in
  guard negb (n <? headerSize) else "direct block too short";;
  let! sig := slice headerBuf 0 4 in
  guard bool_decide (sig = FractalHeap.DirectBlockSignature) else "invalid direct block signature";;
  let headerOffset := 5 + OffsetSize sb in
  let! b := slice headerBuf headerOffset (headerOffset + os) in
  let blockOffset := u64 (le_get b) in
  let headerOffset := headerOffset + os in
  guard negb (offset <? blockOffset) else "object offset before block offset";;
  let relativeOffset := offset - blockOffset in
  let objectAddr := if rhChecksumDirBlocks header then u64 (blockAddr + relativeOffset)
                    else u64 (blockAddr + headerOffset + relativeOffset) in
  let! (objectData, n) := readShort f (i64 objectAddr) length in
  guard negb (n <? length) else "object data too short";;
  Ret objectData.

(** The objects of the identifiers, in their order. *)
Fixpoint readHeapObjects (f : bytes) (heapIDs : list bytes) (sb : Superblock) (header : fractalHeapHeaderRaw) : outcome (list bytes) :=
  match heapIDs with
  | [] => Ret []
  | hid :: heapIDs =>
      let! (off, length) := parseHeapID hid header in
      let! data := readHeapObject f (rhRootBlockAddress header) off length sb header in
      let! out := readHeapObjects f heapIDs sb header in
      Ret (data :: out)
  end.

(** ** internal/core/dense_heap.go *)

Definition ReadDenseHeapObjects (f : bytes) (btreeAddr heapAddr : Z) (sb : Superblock) : outcome (list bytes) :=
  let! btreeHeader := readBTreeV2HeaderRaw f btreeAddr sb in
  guard rtDepth btreeHeader =? 0 else "btree v2 depth unsupported (only depth=0 leaf-root)";;
  let! heapIDs := readBTreeV2LeafRecords f (rtRootNodeAddr btreeHeader) (rtNumRecordsRoot btreeHeader) in
  if len heapIDs =? 0 then Ret []
  else
    let! heapHeader := readFractalHeapHeaderRaw f heapAddr sb in
    readHeapObjects f heapIDs sb heapHeader.

(** ** What the readers find in a file *)

Lemma readShort_exact f a bs n : stored f a bs -> 0 <= n <= len bs -> readShort f a n = Ret (take (Z.to_nat n) bs, n).
Proof.
  intros H Hn. destruct (stored_bounds _ _ _ H) as [Ha Hl]. unfold readShort. ztest. cbv zeta.
  pose proof (stored_read _ _ _ n H Hn) as Hr. apply read_at_inv in Hr as (_ & _ & Hs).
  rewrite Hs, len_sub by lia. rewrite Z.sub_diag. by rewrite app_nil_r.
Qed.

Lemma readShort_prefix f a bs n : stored f a bs -> len bs <= n ->
  exists rest k, readShort f a n = Ret (bs ++ rest, k) /\ len bs <= k /\ len rest = n - len bs.
Proof.
  intros H Hn. destruct (stored_bounds _ _ _ H) as [Ha Hl]. unfold readShort. ztest. cbv zeta.
  assert (exists t, sub f a n = bs ++ t) as [t Ht].
  { exists (drop (length bs) (sub f a n)). rewrite <- (take_drop (length bs) (sub f a n)) at 1. f_equal.
    apply read_at_inv in H as (_ & _ & Hs). rewrite Hs at 2. unfold sub. rewrite take_take. f_equal. unfold len in *. lia. }
  assert (Hk : len (sub f a n) <= n) by (unfold sub; pose proof (len_nonneg bs); rewrite len_take; lia).
  rewrite Ht in *. rewrite len_app in Hk. pose proof (len_nonneg t). exists (t ++ zeros (n - len (bs ++ t))), (len (bs ++ t)).
  split; [by rewrite <- app_assoc|]. split; [rewrite len_app; lia|]. rewrite !len_app, len_zeros by lia. lia.
Qed.

Lemma get_uint_at e n data pre v post off : data = pre ++ put_order e n v ++ post -> off = len pre -> 0 <= v < 256 ^ Z.of_nat n ->
  get_uint e n data off = Ret v.
Proof.
  intros -> -> Hv. unfold get_uint. rewrite (slice_at _ pre (put_order e n v) post) by (done || len_lia). cbn [obind].
  by rewrite BTreeV2.get_order_put.
Qed.

Section reading.
Context (f : bytes) (sb : Superblock).
Hypothesis Hsb : sb_plain8 sb.

Lemma readAddress_all v : is_u 64 v -> readAddress (le_put 8 v) 8 = Ret v.
Proof. intros Hv. rewrite <- (app_nil_r (le_put 8 v)). by apply readAddress_8. Qed.

(** The header of a stored tree, in the fields the dense readers use. *)
Lemma raw_tree_ret taddr bt : BTreeV2.tree_at f taddr sb bt -> BTreeV2.tree_ok bt -> is_u 32 (BTreeV2.nodeSize bt) ->
  is_u 16 (len (BTreeV2.records bt)) ->
  exists h, readBTreeV2HeaderRaw f taddr sb = Ret h /\ rtDepth h = 0 /\
    rtRootNodeAddr h = BTreeV2.RootNodeAddr (BTreeV2.header bt) /\ rtNumRecordsRoot h = len (BTreeV2.records bt).
Proof.
  intros [Hh Hl Ha Hr] Hok Hn Hc. destruct Hsb as (Ho & Hls & He). unfold readBTreeV2HeaderRaw.
  pose proof (BTreeV2.len_header_summed bt sb Hok Ho) as Hlen.
  rewrite i64_id, (readShort_exact _ _ _ 38 Hh) by lia. rewrite take_ge by (unfold len in Hlen; lia). cbn [obind]. clear Hh Hl.
  pose proof (BTreeV2.to_header _ Hok) as E. set (r := BTreeV2.RootNodeAddr (BTreeV2.header bt)) in *.
  set (c := len (BTreeV2.records bt)) in *. set (n := BTreeV2.nodeSize bt) in *.
  assert (exists tail, summed (BTreeV2.headerBody (BTreeV2.header bt) sb) = BTreeV2.BTreeV2HeaderSignature ++ [x00] ++ [x05] ++
    le_put 4 n ++ le_put 2 11 ++ le_put 2 0 ++ [x64] ++ [x28] ++ le_put 8 r ++ le_put 2 c ++ le_put 8 (u64 c) ++ tail) as [tail Ed].
  { rewrite E. unfold summed. set (ck := le_put 4 _). exists ck. unfold BTreeV2.headerBody. rewrite Ho, He. cbn [BTreeV2.NumRecordsRoot]. rewrite u16_id by exact Hc. by rewrite <- !app_assoc. }
  rewrite Ed in *. set (data := BTreeV2.BTreeV2HeaderSignature ++ _) in *. set (s0 := BTreeV2.BTreeV2HeaderSignature) in *.
  change (38 <? 20) with false. cbn [negb]. rewrite (slice_at data [] s0 (drop 4 data)) by done. cbn [obind].
  rewrite bool_decide_true by done. change (idx data 4) with (Ret x00). change (idx data 5) with (Ret x05). cbn [obind].
  rewrite (get_uint_at (Endianness sb) 4 data (s0 ++ [x00] ++ [x05]) n (drop 10 data)) by (rewrite ?He; done). cbn [obind].
  rewrite (get_uint_at (Endianness sb) 2 data (s0 ++ [x00] ++ [x05] ++ le_put 4 n) 11 (drop 12 data)) by (rewrite ?He; done). cbn [obind].
  rewrite (get_uint_at (Endianness sb) 2 data (s0 ++ [x00] ++ [x05] ++ le_put 4 n ++ le_put 2 11) 0 (drop 14 data)) by (rewrite ?He; done).
  cbn [obind]. rewrite Ho, Hlen. change (16 + 8 >? 38) with false. cbn [negb].
  set (pre := s0 ++ [x00] ++ [x05] ++ le_put 4 n ++ le_put 2 11 ++ le_put 2 0 ++ [x64] ++ [x28]).
  rewrite (slice_at data pre (le_put 8 r) (drop 24 data)) by done. cbn [obind].
  rewrite readAddress_all by (unfold is_u; lia). cbn [obind]. change (16 + 8 + 2 >? 38) with false. cbn [negb].
  rewrite (get_uint_at (Endianness sb) 2 data (pre ++ le_put 8 r) c (drop 26 data)) by first [exact Hc | (rewrite He; done) | done].
  cbn [obind]. change (16 + 8 + 2 + 8 >? 38) with false. cbn [negb].
  rewrite (get_uint_at (Endianness sb) 8 data (pre ++ le_put 8 r ++ le_put 2 c) (u64 c) (drop 34 data)) by first [apply u64_range | (rewrite He; done) | done].
  cbn [obind]. by eexists.
Qed.

(** The identifiers of the records of a stored leaf. *)
Lemma readHeapIDs_ret rs : forall pre post acc i, Forall BTreeV2.record_ok rs ->
  for_loop (length rs) i (readHeapID (pre ++ concat (map BTreeV2.recordBytes rs) ++ post)) (len pre, acc) =
  Ret (len pre + 11 * len rs, acc ++ map BTreeV2.RecordHeapID rs).
Proof.
  induction rs as [|r rs IH]; intros pre post acc i Hok; cbn [length for_loop].
  - rewrite app_nil_r. change (len (@nil BTreeV2.LinkNameRecord)) with 0. do 2 f_equal. lia.
  - apply Forall_cons in Hok as [Hr Hok]. pose proof (BTreeV2.len_recordBytes r Hr) as Hl. destruct Hr as [_ Hid].
    cbn [map concat readHeapID]. set (data := pre ++ _). pose proof (len_nonneg post).
    assert (Hd : len data = len pre + 11 + len (concat (map BTreeV2.recordBytes rs)) + len post) by (subst data; rewrite !len_app, Hl; lia).
    pose proof (len_nonneg (concat (map BTreeV2.recordBytes rs))).
    destruct (Z.gtb_spec (len pre + 11) (len data)); [lia|]. cbn [negb].
    rewrite (slice_at data (pre ++ le_put 4 (BTreeV2.NameHash r)) (BTreeV2.RecordHeapID r) (concat (map BTreeV2.recordBytes rs) ++ post)).
    2: { subst data. unfold BTreeV2.recordBytes at 1. by rewrite <- !app_assoc. }
    2: { rewrite len_app, len_le_put. lia. }
    2: { unfold len in *. lia. }
    cbn [obind]. specialize (IH (pre ++ BTreeV2.recordBytes r) post (acc ++ [BTreeV2.RecordHeapID r]) (i + 1) Hok).
    rewrite <- !app_assoc in IH. rewrite len_app, Hl in IH. subst data. rewrite <- !app_assoc. rewrite IH, len_cons. do 2 f_equal. lia.
Qed.

Lemma raw_leaf_ret a rs (l := BTreeV2.mkLeaf BTreeV2.BTreeV2LeafSignature 0 BTreeV2.BTreeV2TypeLinkNameIndex rs) :
  Forall BTreeV2.record_ok rs -> 0 <= a < 2 ^ 63 -> stored f a (summed (BTreeV2.leafBody l)) ->
  readBTreeV2LeafRecords f a (len rs) = Ret (map BTreeV2.RecordHeapID rs).
Proof.
  intros Hok Ha Hst. unfold readBTreeV2LeafRecords. pose proof (len_nonneg rs).
  assert (Hl : len (summed (BTreeV2.leafBody l)) = 6 + len rs * 11 + 4).
  { rewrite len_summed, BTreeV2.len_leafBody; [cbn; lia|done|done]. }
  rewrite i64_id, (readShort_exact _ _ _ _ Hst) by lia. cbn [obind]. ztest. cbn [negb].
  rewrite take_ge by (unfold len in *; lia). unfold summed. set (ck := le_put 4 _).
  unfold BTreeV2.leafBody, l. cbn [BTreeV2.LeafSignature BTreeV2.LeafVersion BTreeV2.LeafType BTreeV2.Records].
  set (head := BTreeV2.BTreeV2LeafSignature ++ [z2b 0] ++ [z2b BTreeV2.BTreeV2TypeLinkNameIndex]).
  match goal with |- context [slice ?d 0 4] => assert (d = head ++ concat (map BTreeV2.recordBytes rs) ++ ck) as -> end.
  { unfold head. by rewrite <- !app_assoc. }
  rewrite (slice_at _ [] BTreeV2.BTreeV2LeafSignature ([z2b 0] ++ [z2b BTreeV2.BTreeV2TypeLinkNameIndex] ++ concat (map BTreeV2.recordBytes rs) ++ ck)) by (done || (unfold head; by rewrite <- !app_assoc)).
  cbn [obind]. rewrite bool_decide_true by done. change 6 with (len head).
  replace (Z.to_nat (len rs)) with (length rs) by (unfold len; lia). by rewrite readHeapIDs_ret.
Qed.

(** The header of a stored heap, in the fields the dense readers use. *)
Lemma raw_heap_ret a B free used count root ls (h := FractalHeap.heapHdr B free used count root ls) :
  stored f a (summed (FractalHeap.heapBody h sb)) -> 0 <= a < 2 ^ 63 -> 0 < B < 16777216 -> 0 < root < 2 ^ 63 ->
  exists r, readFractalHeapHeaderRaw f a sb = Ret r /\ rhRootBlockAddress r = root /\ rhHeapOffsetSize r = 2 /\
    rhHeapLengthSize r = FractalHeap.readLengthSize B /\ rhChecksumDirBlocks r = false.
Proof.
  intros Hst Ha HB Hr. destruct Hsb as (Ho & Hls & He).
  assert (Hlen : len (summed (FractalHeap.heapBody h sb)) = 146) by (rewrite len_summed, FractalHeap.len_heapBody by done; done).
  unfold readFractalHeapHeaderRaw. rewrite i64_id, (readShort_exact _ _ _ 144 Hst) by lia. cbn [obind].
  change (144 <? 20) with false. cbn [negb]. rewrite Ho, Hls, He.
  unfold summed. set (ck := le_put 4 _). unfold FractalHeap.heapBody, FractalHeap.headerFields, FractalHeap.fieldsBytes. rewrite Ho, Hls, He.
  clear Hlen Hst. cbn [map concat FractalHeap.fieldBytes put_order h FractalHeap.heapHdr].
  set (buf := take (Z.to_nat 144) _).
  change (slice buf 0 4) with (Ret FractalHeap.HeapSignature). cbn [obind]. rewrite bool_decide_true by done.
  change (idx buf 4) with (Ret x00). cbn [obind]. unfold get_uint.
  change (slice buf 5 (5 + Z.of_nat 2)) with (Ret (le_put 2 8)). cbn [obind].
  change (slice buf 7 (7 + Z.of_nat 2)) with (Ret (le_put 2 0)). cbn [obind].
  change (idx buf 9) with (Ret x00). cbn [obind].
  change (slice buf 10 (10 + Z.of_nat 4)) with (Ret (le_put 4 65536)). cbn [obind].
  change (slice buf (112 + 8) (112 + 8 + 8)) with (Ret (le_put 8 B)). cbn [obind].
  change (len buf) with 144. change (112 + 8 + 8 + 2 >? 144) with false. cbn [negb].
  change (slice buf (112 + 8 + 8) (112 + 8 + 8 + Z.of_nat 2)) with (Ret (le_put 2 16)). cbn [obind].
  change (132 + 8 >? 144) with false. cbn [negb].
  change (slice buf 132 (132 + 8)) with (Ret (le_put 8 root)). cbn [obind].
  rewrite readAddress_all by (unfold is_u; lia). cbn [obind]. eexists. split; [reflexivity|]. split; [reflexivity|]. split; [reflexivity|].
  split; [|reflexivity]. cbn [rhHeapLengthSize get_order]. rewrite le_get_put_small by (cbn; lia).
  rewrite u64_id by (unfold is_u; lia). change (computeOffsetSize (le_get (le_put 4 65536))) with 3. reflexivity.
Qed.

(** An identifier as the index keeps it. *)
Lemma raw_id_ret o l B r : rhHeapOffsetSize r = 2 -> rhHeapLengthSize r = FractalHeap.readLengthSize B -> 0 < B < 16777216 ->
  0 <= o < 65536 -> 0 <= l <= B -> parseHeapID (take 7 (FractalHeap.hid o l)) r = Ret (o, l).
Proof.
  intros H1 H2 HB Ho Hl. destruct (FractalHeap.readLengthSize_ok B HB) as [Hls Hlt]. unfold parseHeapID. rewrite H1, H2.
  set (ls := FractalHeap.readLengthSize B) in *. rewrite (FractalHeap.hid_split ls) by lia.
  replace (Z.min 2 6) with 2 by lia. replace (Z.min ls (6 - 2)) with ls by lia.
  assert (E : take 7 ([x00] ++ (le_put 2 o ++ le_put (Z.to_nat ls) l) ++ zeros (5 - ls)) = [x00] ++ le_put 2 o ++ le_put (Z.to_nat ls) l ++ zeros (4 - ls)).
  { rewrite <- !app_assoc. change (take 7 ([x00] ++ le_put 2 o ++ ?x)) with ([x00] ++ le_put 2 o ++ take 4 x).
    do 2 f_equal. rewrite take_app, length_le_put, take_ge by (rewrite length_le_put; lia). f_equal.
    unfold zeros. rewrite take_replicate. f_equal. lia. }
  rewrite E. change (idx ([x00] ++ _) 0) with (Ret x00). cbn [obind]. change (Z.shiftr (Z.land (b2z x00) 48) 4 =? 0) with true. cbn iota.
  rewrite (slice_at _ [x00] (le_put 2 o) (le_put (Z.to_nat ls) l ++ zeros (4 - ls))) by done. cbn [obind].
  rewrite (slice_at _ ([x00] ++ le_put 2 o) (le_put (Z.to_nat ls) l) (zeros (4 - ls))) by (rewrite <- ?app_assoc; done || (rewrite len_le_put; lia)).
  cbn [obind]. by rewrite !le_get_put_small by (rewrite ?Z2Nat.id; cbn; lia).
Qed.

(** An object of a stored block. *)
Lemma raw_object_ret root ha B objs r i : stored f root (summed (FractalHeap.blockBody ha B objs)) -> len (concat objs) <= B - 19 ->
  len (concat objs) <= 65536 -> 0 < root -> root + B < 2 ^ 63 -> Forall (fun d => 0 < len d) objs -> rhHeapOffsetSize r = 2 -> rhChecksumDirBlocks r = false ->
  (i < length objs)%nat ->
  readHeapObject f root (FractalHeap.offsetOf objs i) (len (objs !!! i)) sb r = Ret (objs !!! i).
Proof.
  intros Hst Hfit HB Hr Hrb Hp H1 H2 Hi. destruct Hsb as (Ho & Hls & He).
  destruct (FractalHeap.object_bounds objs i Hi Hp) as (Hb1 & Hb2 & Hb3). destruct (stored_bounds _ _ _ Hst) as [_ Hlf].
  unfold readHeapObject. cbv zeta. rewrite H1, H2, Ho. change (4 + 1 + 8 + 2 + 0) with 15. change (15 + 16) with 31.
  unfold summed, FractalHeap.blockBody in Hst. set (ck := le_put 4 _) in Hst.
  change (FractalHeap.DirectBlockSignature ++ [x00] ++ le_put 8 ha ++ le_put 2 0) with (FractalHeap.blockHead ha) in Hst.
  rewrite <- app_assoc in Hst. pose proof (stored_app_l _ _ _ _ Hst) as Hh.
  destruct (readShort_prefix f root (FractalHeap.blockHead ha) 31 Hh) as (rest & k & E & Hk & Hrest); [done|].
  change (len (FractalHeap.blockHead ha)) with 15 in Hk. rewrite i64_id, E by lia. cbn [obind]. ztest. cbn [negb].
  set (buf := FractalHeap.blockHead ha ++ rest). 
  rewrite (slice_at buf [] FractalHeap.DirectBlockSignature (drop 4 (FractalHeap.blockHead ha) ++ rest)) by done. cbn [obind].
  rewrite bool_decide_true by done.
  rewrite (slice_at buf (FractalHeap.DirectBlockSignature ++ [x00] ++ le_put 8 ha) (le_put 2 0) rest) by done. cbn [obind].
  change (u64 (le_get (le_put 2 0))) with 0. ztest. cbn [negb]. rewrite Z.sub_0_r. change (5 + 8 + 2) with 15.
  rewrite u64_id by (unfold is_u; lia).
  assert (Ho' : stored f (root + 15 + FractalHeap.offsetOf objs i) (objs !!! i)).
  { set (post := concat (drop (S i) objs) ++ zeros (B - 19 - len (concat objs)) ++ ck).
    assert (Es : FractalHeap.blockHead ha ++ (concat objs ++ zeros (B - 19 - len (concat objs))) ++ ck =
                 (FractalHeap.blockHead ha ++ concat (take i objs)) ++ (objs !!! i) ++ post).
    { unfold post. rewrite (FractalHeap.concat_split objs i Hi) at 1. by rewrite <- !app_assoc. }
    rewrite Es in Hst. apply stored_part in Hst. rewrite len_app in Hst. unfold FractalHeap.offsetOf.
    change (len (FractalHeap.blockHead ha)) with 15 in Hst. by rewrite Z.add_assoc in Hst. }
  rewrite i64_id, (readShort_exact _ _ _ _ Ho') by lia. cbn [obind]. ztest. cbn [negb]. rewrite take_ge by (unfold len; lia). reflexivity.
Qed.
End reading.

(** ** The interfaces of internal/core/attribute_modify.go

    [HeapWriter] and [BTreeWriter] decouple the core package from the
    structures.  An operation returns the changed heap or index; an insertion
    that fails may have changed it.  [InsertRecord], which the dense writers
    call on the index itself, is added to the second. *)

Class HeapWriter (H : Type) := {
  hwGetObject : H -> bytes -> outcome bytes;
  hwOverwriteObject : H -> bytes -> bytes -> outcome H;
  hwDeleteObject : H -> bytes -> outcome H;
  hwInsertObject : H -> bytes -> H * outcome bytes }.

Class BTreeWriter (T : Type) := {
  bwSearchRecord : T -> bytes -> outcome (option bytes);
  bwUpdateRecord : T -> bytes -> Z -> outcome T;
  bwDeleteRecord : T -> bytes -> outcome T;
  bwDeleteRecordWithRebalancing : T -> bytes -> outcome T;
  bwDeleteRecordLazy : T -> bytes -> Z -> outcome T;
  bwIsLazyRebalancingEnabled : T -> bool;
  bwInsertRecord : T -> bytes -> Z -> outcome T }.

(** What they promise: a heap keeps objects under identifiers it chooses, whose
    eighth byte is zero, in [room] bytes; an index keeps identifiers under
    names, for [room] more of them, as long as no two names [clash]. *)

Definition short_id (id : bytes) : Prop := exists h : bytes, len h = 7 /\ id = h ++ [x00].

Class HeapLaws (H : Type) `{HeapWriter H} := {
  heap_holds : H -> gmap bytes bytes -> Z -> Prop;
  heap_get h m room id d : heap_holds h m room -> m !! id = Some d -> hwGetObject h id = Ret d;
  heap_overwrite h m room id d d' : heap_holds h m room -> m !! id = Some d -> len d' = len d ->
    exists h', hwOverwriteObject h id d' = Ret h' /\ heap_holds h' (<[id := d']> m) room;
  heap_delete h m room id d : heap_holds h m room -> m !! id = Some d ->
    exists h', hwDeleteObject h id = Ret h' /\ heap_holds h' (delete id m) room;
  heap_insert h m room d : heap_holds h m room -> 0 < len d <= 65536 -> len d <= room ->
    exists h' id, hwInsertObject h d = (h', Ret id) /\ m !! id = None /\ short_id id /\
      heap_holds h' (<[id := d]> m) (room - len d);
  heap_objects h m room id d : heap_holds h m room -> m !! id = Some d -> 0 < len d }.

Class IndexLaws (T : Type) `{BTreeWriter T} := {
  clash : bytes -> bytes -> Prop;
  index_holds : T -> gmap bytes bytes -> Z -> Prop;
  index_search t ix room name : index_holds t ix room -> (forall n, is_Some (ix !! n) -> clash n name -> n = name) ->
    bwSearchRecord t name = Ret (ix !! name);
  index_insert t ix room name id : index_holds t ix room -> (forall n, is_Some (ix !! n) -> ~ clash n name) ->
    ix !! name = None -> short_id id -> 0 < room ->
    exists t', bwInsertRecord t name (le_get id) = Ret t' /\ index_holds t' (<[name := id]> ix) (room - 1);
  index_update t ix room name old id : index_holds t ix room -> ix !! name = Some old -> short_id id ->
    exists t', bwUpdateRecord t name (le_get id) = Ret t' /\ index_holds t' (<[name := id]> ix) room;
  index_delete t ix room name id rebalance now : index_holds t ix room -> ix !! name = Some id ->
    exists t', (if bwIsLazyRebalancingEnabled t then bwDeleteRecordLazy t name now
                else if (rebalance : bool) then bwDeleteRecordWithRebalancing t name else bwDeleteRecord t name) = Ret t' /\
      index_holds t' (delete name ix) (room + 1) }.

Section attribute_modify.
Context `{HeapWriter H} `{BTreeWriter T}.

(** [newAttr.Data] holds the encoded attribute. *)
Definition ModifyDenseAttribute (heap : H) (btree : T) (name newAttrData : bytes) : outcome (H * T) :=
  guard negb (bool_decide (name = [])) else "attribute name cannot be empty";;
  let! found := bwSearchRecord btree name in
  match found with
  | None => Err "attribute not found in dense storage"
  | Some heapID =>
      let! oldAttrData := hwGetObject heap heapID in
      guard negb (len newAttrData =? 0) else "new attribute data is empty (caller must encode)";;
      if len newAttrData =? len oldAttrData then
        let! heap := hwOverwriteObject heap heapID newAttrData in Ret (heap, btree)
      else
        let! heap := hwDeleteObject heap heapID in
        let '(heap, inserted) := hwInsertObject heap newAttrData in
        let! newHeapIDBytes := inserted in
        guard len newHeapIDBytes =? 8 else "unexpected heap ID length";;
        let! btree := bwUpdateRecord btree name (le_get newHeapIDBytes) in
        Ret (heap, btree)
  end.

Definition DeleteDenseAttribute (heap : H) (btree : T) (name : bytes) (rebalance : bool) (now : Z) : outcome (H * T) :=
  guard negb (bool_decide (name = [])) else "attribute name cannot be empty";;
  let! found := bwSearchRecord btree name in
  match found with
  | None => Err "attribute not found in dense storage"
  | Some heapID =>
      let! btree := (if bwIsLazyRebalancingEnabled btree then bwDeleteRecordLazy btree name now
                     else if rebalance then bwDeleteRecordWithRebalancing btree name else bwDeleteRecord btree name) in
      let! heap := hwDeleteObject heap heapID in
      Ret (heap, btree)
  end.

(** Inserting an object and its record, as the dense writers do; the heap keeps
    the object when the index refuses the record. *)
Definition insertDense (heap : H) (btree : T) (name data : bytes) : (H * T) * outcome () :=
  let '(heap, inserted) := hwInsertObject heap data in
  match inserted with
  | Ret heapIDBytes =>
      if len heapIDBytes =? 8 then
        match bwInsertRecord btree name (le_get heapIDBytes) with
        | Ret btree => ((heap, btree), Ret tt)
        | Err e => ((heap, btree), Err e)
        | Panic => ((heap, btree), Panic)
        end
      else ((heap, btree), Err "unexpected heap ID length")
  | Err e => ((heap, btree), Err e)
  | Panic => ((heap, btree), Panic)
  end.
End attribute_modify.

(** ** Dense storage is a map from names to messages *)

(** The index gives each name an identifier of its own, under which the heap
    keeps the name's message. *)
Definition linked (ix objs m : gmap bytes bytes) : Prop :=
  (forall n1 n2 id, ix !! n1 = Some id -> ix !! n2 = Some id -> n1 = n2) /\
  (forall n, is_Some (ix !! n) <-> is_Some (m !! n)) /\
  (forall n id, ix !! n = Some id -> objs !! id = m !! n).

Section dense_map.
Context `{HL : HeapLaws H} `{IL : IndexLaws T}.

Definition dense_holds (h : H) (t : T) (m : gmap bytes bytes) (heapRoom indexRoom : Z) : Prop :=
  exists objs ix, heap_holds h objs heapRoom /\ index_holds t ix indexRoom /\ linked ix objs m.

(** [name] is not confused with another name of the map. *)
Definition clear_of (m : gmap bytes bytes) (name : bytes) : Prop := forall n, is_Some (m !! n) -> clash n name -> n = name.

Lemma dense_search h t m hr ir name : dense_holds h t m hr ir -> clear_of m name ->
  match m !! name with
  | Some d => exists id, bwSearchRecord t name = Ret (Some id) /\ hwGetObject h id = Ret d
  | None => bwSearchRecord t name = Ret None
  end.
Proof.
  intros (objs & ix & Hh & Ht & Hinj & Hdom & Hm) Hc.
  assert (E : bwSearchRecord t name = Ret (ix !! name)) by (eapply index_search; [exact Ht|]; intros n Hn; apply Hc; by apply Hdom).
  rewrite E. destruct (m !! name) as [d|] eqn:Em.
  - destruct (proj2 (Hdom name) ltac:(by rewrite Em)) as [id Hid]. rewrite Hid. exists id. split; [done|].
    eapply heap_get; [exact Hh|]. by rewrite (Hm _ _ Hid).
  - destruct (ix !! name) as [id|] eqn:Ei; [|done]. destruct (proj1 (Hdom name) ltac:(by rewrite Ei)) as [d Hd]. congruence.
Qed.

Lemma dense_insert h t m hr ir name d : dense_holds h t m hr ir -> clear_of m name -> m !! name = None ->
  0 < len d <= 65536 -> len d <= hr -> 0 < ir ->
  exists h' t', insertDense h t name d = ((h', t'), Ret tt) /\ dense_holds h' t' (<[name := d]> m) (hr - len d) (ir - 1).
Proof.
  intros (objs & ix & Hh & Ht & Hinj & Hdom & Hm) Hc Hn Hd Hr Hi.
  destruct (heap_insert h objs hr d Hh Hd Hr) as (h' & id & Ei & Hfresh & Hid & Hh').
  assert (Hix : ix !! name = None) by (destruct (ix !! name) as [x|] eqn:E; [destruct (proj1 (Hdom name) ltac:(by rewrite E)); congruence|done]).
  destruct (index_insert t ix ir name id Ht) as (t' & Et & Ht').
  { intros n Hs Hcl. apply Hdom in Hs as Hs'. rewrite (Hc n Hs' Hcl) in Hs'. rewrite Hn in Hs'. by destruct Hs'. }
  { exact Hix. }
  { exact Hid. }
  { lia. }
  assert (Hl : len id = 8) by (destruct Hid as (x & Hx & ->); rewrite len_app, Hx; reflexivity).
  exists h', t'. unfold insertDense. rewrite Ei, Hl, Et. split; [done|].
  exists (<[id := d]> objs), (<[name := id]> ix). split; [done|]. split; [done|].
  assert (Hnew : forall n x, ix !! n = Some x -> x <> id).
  { intros n x Hx ->. destruct (proj1 (Hdom n) ltac:(by rewrite Hx)) as [y Hy]. rewrite <- (Hm _ _ Hx) in Hy. congruence. }
  split; [|split].
  - intros n1 n2 x. rewrite !lookup_insert. repeat case_decide; subst; try done.
    + intros [= <-] Hx. by destruct (Hnew _ _ Hx).
    + intros Hx [= <-]. by destruct (Hnew _ _ Hx).
    + apply Hinj.
  - intros n. rewrite !lookup_insert. case_decide; [split; done|]. apply Hdom.
  - intros n x. rewrite (lookup_insert ix), (lookup_insert m). case_decide; subst.
    + intros [= <-]. by rewrite lookup_insert_eq.
    + intros Hx. rewrite lookup_insert_ne by (intros <-; by destruct (Hnew _ _ Hx)). by apply Hm.
Qed.

Lemma short_id_len id : short_id id -> len id = 8.
Proof. intros (x & Hx & ->). by rewrite len_app, Hx. Qed.

(** Replacing the message of a name: in place when the length is the same,
    otherwise as a new object. *)
Lemma dense_modify h t m hr ir name old d : dense_holds h t m hr ir -> clear_of m name -> m !! name = Some old ->
  name <> [] -> 0 < len d <= 65536 -> len d <= hr ->
  exists h' t' hr', ModifyDenseAttribute h t name d = Ret (h', t') /\ dense_holds h' t' (<[name := d]> m) hr' ir /\ hr - len d <= hr'.
Proof.
  intros Hdh Hc Hn Hne Hd Hr. pose proof (dense_search _ _ _ _ _ name Hdh Hc) as Hs. rewrite Hn in Hs.
  destruct Hs as (id & Es & Eg). destruct Hdh as (objs & ix & Hh & Ht & Hinj & Hdom & Hm).
  assert (Hid : ix !! name = Some id).
  { destruct (proj2 (Hdom name) ltac:(by rewrite Hn)) as [x Hx]. rewrite Hx.
    erewrite index_search in Es; [|exact Ht|intros n Hi; apply Hc; by apply Hdom]. congruence. }
  pose proof (Hm _ _ Hid) as Ho. rewrite Hn in Ho.
  unfold ModifyDenseAttribute. rewrite bool_decide_false by done. cbn [negb]. rewrite Es. cbn [obind]. rewrite Eg. cbn [obind].
  destruct (Z.eqb_spec (len d) 0) as [|_]; [lia|]. cbn [negb].
  assert (Hdom' : forall n, is_Some (ix !! n) <-> is_Some (<[name := d]> m !! n)).
  { intros n. rewrite lookup_insert. case_decide; [subst; rewrite Hid; split; by eexists|apply Hdom]. }
  destruct (Z.eqb_spec (len d) (len old)) as [El|El].
  - destruct (heap_overwrite _ _ _ _ _ d Hh Ho El) as (h' & -> & Hh'). cbn [obind]. exists h', t, hr. split; [done|]. split; [|lia].
    exists (<[id := d]> objs), ix. split; [done|]. split; [done|]. split; [done|]. split; [done|].
    intros n x Hx. rewrite (lookup_insert m). case_decide as Hcd; subst.
    + assert (x = id) as -> by congruence. by rewrite lookup_insert_eq.
    + rewrite lookup_insert_ne; [by apply Hm|]. intros <-. by destruct Hcd; apply (Hinj _ _ id).
  - destruct (heap_delete _ _ _ _ _ Hh Ho) as (h1 & -> & Hh1). cbn [obind].
    destruct (heap_insert _ _ _ d Hh1 Hd Hr) as (h' & nid & -> & Hfresh & Hsid & Hh'). cbn [obind].
    rewrite (short_id_len _ Hsid). cbn [Z.eqb Pos.eqb]. destruct (index_update _ _ _ _ _ nid Ht Hid Hsid) as (t' & -> & Ht'). cbn [obind].
    exists h', t', (hr - len d). split; [done|]. split; [|lia]. exists (<[nid := d]> (delete id objs)), (<[name := nid]> ix).
    assert (Hnew : forall n x, n <> name -> ix !! n = Some x -> x <> nid /\ x <> id).
    { intros n x Hnn Hx. assert (x <> id) by (intros ->; by apply Hnn, (Hinj _ _ id)). split; [|done]. intros ->.
      rewrite lookup_delete_ne in Hfresh by done. destruct (proj1 (Hdom n) ltac:(by rewrite Hx)) as [y Hy].
      rewrite <- (Hm _ _ Hx) in Hy. congruence. }
    split; [done|]. split; [done|]. split; [|split].
    + intros n1 n2 x. rewrite !lookup_insert. repeat case_decide; subst; try done.
      * intros [= <-] Hx. by destruct (Hnew n2 nid ltac:(congruence) Hx).
      * intros Hx [= <-]. by destruct (Hnew n1 nid ltac:(congruence) Hx).
      * apply Hinj.
    + intros n. rewrite lookup_insert. case_decide; [subst; rewrite lookup_insert_eq; split; by eexists|].
      rewrite lookup_insert_ne by done. apply Hdom.
    + intros n x. rewrite (lookup_insert ix), (lookup_insert m). case_decide; subst.
      * intros [= <-]. by rewrite lookup_insert_eq.
      * intros Hx. destruct (Hnew n x ltac:(congruence) Hx). rewrite lookup_insert_ne, lookup_delete_ne by done. by apply Hm.
Qed.

Lemma dense_delete h t m hr ir name old rebalance now : dense_holds h t m hr ir -> clear_of m name -> m !! name = Some old ->
  name <> [] ->
  exists h' t', DeleteDenseAttribute h t name rebalance now = Ret (h', t') /\ dense_holds h' t' (delete name m) hr (ir + 1).
Proof.
  intros Hdh Hc Hn Hne. pose proof (dense_search _ _ _ _ _ name Hdh Hc) as Hs. rewrite Hn in Hs.
  destruct Hs as (id & Es & Eg). destruct Hdh as (objs & ix & Hh & Ht & Hinj & Hdom & Hm).
  assert (Hid : ix !! name = Some id).
  { destruct (proj2 (Hdom name) ltac:(by rewrite Hn)) as [x Hx]. rewrite Hx.
    erewrite index_search in Es; [|exact Ht|intros n Hi; apply Hc; by apply Hdom]. congruence. }
  pose proof (Hm _ _ Hid) as Ho. rewrite Hn in Ho.
  unfold DeleteDenseAttribute. rewrite bool_decide_false by done. cbn [negb]. rewrite Es. cbn [obind].
  destruct (index_delete _ _ _ _ _ rebalance now Ht Hid) as (t' & -> & Ht'). cbn [obind].
  destruct (heap_delete _ _ _ _ _ Hh Ho) as (h' & -> & Hh'). cbn [obind]. exists h', t'. split; [done|].
  exists (delete id objs), (delete name ix). split; [done|]. split; [done|]. split; [|split].
  - intros n1 n2 x. rewrite !lookup_delete. repeat case_decide; try done. apply Hinj.
  - intros n. rewrite !lookup_delete. case_decide; [split; by intros [? [=]]|apply Hdom].
  - intros n x. rewrite !(lookup_delete _ name). case_decide as Hcd; [done|]. intros Hx. rewrite lookup_delete_ne; [by apply Hm|].
    intros <-. by destruct Hcd; apply (Hinj _ _ id).
Qed.

(** A name that is not there is reported, and nothing changes. *)
Lemma dense_missing h t m hr ir name d rebalance now : dense_holds h t m hr ir -> clear_of m name -> m !! name = None -> name <> [] ->
  ModifyDenseAttribute h t name d = Err "attribute not found in dense storage" /\
  DeleteDenseAttribute h t name rebalance now = Err "attribute not found in dense storage".
Proof.
  intros Hdh Hc Hn Hne. pose proof (dense_search _ _ _ _ _ name Hdh Hc) as Hs. rewrite Hn in Hs.
  unfold ModifyDenseAttribute, DeleteDenseAttribute. rewrite bool_decide_false by done. cbn [negb]. by rewrite Hs.
Qed.
End dense_map.

(** ** The fractal heap and the name index keep the promises

    They are those of dense attributes: a heap block of 64 KiB and an index
    node of 4 KiB. *)

Definition denseHeapSize : Z := 64 * 1024.
Definition denseNodeSize : Z := 4096.

Definition FractalHeap_writer (order : FractalHeap.WritableFractalHeap -> list Z) : HeapWriter FractalHeap.WritableFractalHeap := {|
  hwGetObject h id := FractalHeap.GetObject h (order h) id;
  hwOverwriteObject := FractalHeap.OverwriteObject;
  hwDeleteObject := FractalHeap.DeleteObject;
  hwInsertObject h d := FractalHeap.InsertObject h (order h) d |}.

#[export] Instance BTreeV2_writer : BTreeWriter BTreeV2.WritableBTreeV2 := {|
  bwSearchRecord := BTreeV2.SearchRecord;
  bwUpdateRecord := BTreeV2.UpdateRecord;
  bwDeleteRecord := BTreeV2.DeleteRecord;
  bwDeleteRecordWithRebalancing := BTreeV2.DeleteRecordWithRebalancing;
  bwDeleteRecordLazy := BTreeV2.DeleteRecordLazy;
  bwIsLazyRebalancingEnabled := BTreeV2.IsLazyRebalancingEnabled;
  bwInsertRecord := BTreeV2.InsertRecord |}.

(** The objects by identifier: every promised one is an object of the heap. *)
Definition promised (objs : list bytes) (m : gmap bytes bytes) : Prop :=
  forall id d, m !! id = Some d -> exists i, (i < length objs)%nat /\ id = FractalHeap.idAt objs i /\ objs !!! i = d.

Lemma hid_offset o l o' l' : 0 <= o < 65536 -> 0 <= o' < 65536 -> FractalHeap.hid o l = FractalHeap.hid o' l' -> o = o'.
Proof.
  intros Ho Ho' E. assert (F : forall a b, 0 <= a < 65536 -> le_get (take 2 (drop 1 (FractalHeap.hid a b))) = a).
  { intros a b Ha. change (take 2 (drop 1 (FractalHeap.hid a b))) with (le_put 2 a). by apply le_get_put_small. }
  by rewrite <- (F o l), <- (F o' l'), E by done.
Qed.

Lemma hid_short o l : 0 <= l < 2 ^ 32 -> short_id (FractalHeap.hid o l).
Proof.
  intros Hl. exists ([x00] ++ le_put 2 o ++ le_put 4 l). split; [done|]. unfold FractalHeap.hid.
  rewrite (FractalHeap.le_put_small 4 1) by (cbn; lia). by rewrite <- !app_assoc.
Qed.

Lemma idAt_inj objs i j : (i < length objs)%nat -> (j < length objs)%nat -> Forall (fun d => 0 < len d) objs ->
  len (concat objs) <= 65536 -> FractalHeap.idAt objs i = FractalHeap.idAt objs j -> i = j.
Proof.
  intros Hi Hj Hp Hl E. destruct (FractalHeap.object_bounds objs i Hi Hp) as (A1 & A2 & A3).
  destruct (FractalHeap.object_bounds objs j Hj Hp) as (B1 & B2 & B3).
  apply hid_offset in E; [|lia..]. assert (forall a b, (a < b)%nat -> (b < length objs)%nat -> FractalHeap.offsetOf objs a < FractalHeap.offsetOf objs b) as Hmono.
  { intros a b Hab Hb. unfold FractalHeap.offsetOf. destruct (FractalHeap.object_bounds objs a ltac:(lia) Hp) as (_ & C2 & _).
    assert (len (concat (take (S a) objs)) <= len (concat (take b objs))) as Hle.
    { replace (take b objs) with (take (S a) objs ++ drop (S a) (take b objs)).
      - rewrite concat_app, len_app. pose proof (len_nonneg (concat (drop (S a) (take b objs)))). lia.
      - rewrite <- (take_drop (S a) (take b objs)) at 2. rewrite take_take. do 2 f_equal. lia. }
    rewrite (take_S_r _ _ (objs !!! a)) in Hle by (apply list_lookup_lookup_total_lt; lia).
    rewrite concat_app, len_app in Hle. cbn [concat] in Hle. rewrite app_nil_r in Hle. lia. }
  destruct (Nat.lt_trichotomy i j) as [Hlt|[->|Hgt]]; [|done|].
  - pose proof (Hmono i j Hlt Hj). lia.
  - pose proof (Hmono j i Hgt Hi). lia.
Qed.

Section heap_instance.
Context (order : FractalHeap.WritableFractalHeap -> list Z) (ha ra : Z).

(** The heap holds promised objects, and was loaded from [ha] and [ra]. *)
Definition fh_holds (fh : FractalHeap.WritableFractalHeap) (m : gmap bytes bytes) (room : Z) : Prop :=
  exists objs, FractalHeap.holds fh denseHeapSize (denseHeapSize - 19) objs /\ promised objs m /\
    room = denseHeapSize - 19 - len (concat objs) /\
    FractalHeap.loadedHeaderAddress fh = ha /\ FractalHeap.loadedDirectBlockAddress fh = ra.

Lemma promised_change objs m i d (id := FractalHeap.idAt objs i) : (i < length objs)%nat -> Forall (fun d => 0 < len d) objs ->
  len (concat objs) <= 65536 -> len d = len (objs !!! i) ->
  promised objs m -> promised (<[i := d]> objs) (delete id m) /\ promised (<[i := d]> objs) (<[id := d]> m).
Proof.
  intros Hi Hp Hl Hd Hm. assert (Hdel : promised (<[i := d]> objs) (delete id m)).
  { intros x y. rewrite lookup_delete. case_decide as Hx; [done|]. intros (j & Hj & -> & Hy)%Hm. exists j.
    rewrite length_insert. split; [done|]. destruct (FractalHeap.idAt_insert objs i d j Hi Hd) as [-> _]. split; [done|].
    rewrite list_lookup_total_insert_ne; [done|]. by intros <-. }
  split; [done|]. intros x y. rewrite lookup_insert. case_decide as Hx.
  - intros [= <-]. subst x. exists i. rewrite length_insert. split; [done|]. destruct (FractalHeap.idAt_insert objs i d i Hi Hd) as [-> _].
    split; [done|]. by rewrite list_lookup_total_insert_eq.
  - intros Hy. apply Hdel. by rewrite lookup_delete_ne.
Qed.

Lemma fh_changed fh fh' objs m room i d (id := FractalHeap.idAt objs i) : FractalHeap.holds fh denseHeapSize (denseHeapSize - 19) objs -> promised objs m ->
  room = denseHeapSize - 19 - len (concat objs) -> (i < length objs)%nat -> len d = len (objs !!! i) ->
  FractalHeap.holds fh' denseHeapSize (denseHeapSize - 19) (<[i := d]> objs) ->
  FractalHeap.loadedHeaderAddress fh' = ha /\ FractalHeap.loadedDirectBlockAddress fh' = ra -> fh_holds fh' (delete id m) room /\ fh_holds fh' (<[id := d]> m) room.
Proof.
  intros Hh Hm Hroom Hi Hd Hh' Hat. destruct Hh as [_ _ _ (a & c & k & _ & Hk & Hl) Hp]. unfold denseHeapSize in Hl.
  destruct (promised_change objs m i d Hi Hp ltac:(lia) Hd Hm) as [Hm1 Hm2].
  destruct (FractalHeap.idAt_insert objs i d 0 Hi Hd) as [_ El].
  split; exists (<[i := d]> objs); (split; [done|]; split; [done|]; split; [by rewrite El|done]).
Qed.

#[local] Program Instance FractalHeap_laws : @HeapLaws _ (FractalHeap_writer order) := {| heap_holds := fh_holds |}.
Next Obligation.
  intros h m room id d (objs & Hh & Hm & -> & _) (i & Hi & -> & <-)%Hm. by apply (FractalHeap.GetObject_ret h denseHeapSize (denseHeapSize - 19)).
Qed.
Next Obligation.
  intros h m room id d d' (objs & Hh & Hm & Hroom & Hat1 & Hat2) (i & Hi & -> & <-)%Hm Hd.
  pose proof (FractalHeap.OverwriteObject_ret h denseHeapSize (denseHeapSize - 19) objs i d' Hh Hi) as Ho. rewrite Hd, Z.eqb_refl in Ho.
  destruct Ho as (h' & E & Hh' & Hl1 & Hl2). exists h'. split; [done|]. apply (fh_changed h h' objs m room i d'); try done.
  split; congruence.
Qed.
Next Obligation.
  intros h m room id d (objs & Hh & Hm & Hroom & Hat1 & Hat2) (i & Hi & -> & <-)%Hm.
  destruct (FractalHeap.DeleteObject_ret h denseHeapSize (denseHeapSize - 19) objs i Hh Hi) as (h' & E & Hh' & Hl1 & Hl2). exists h'. split; [done|].
  apply (fh_changed h h' objs m room i (zeros (len (objs !!! i)))); try done; [by rewrite len_zeros by apply len_nonneg|].
  split; congruence.
Qed.
Next Obligation.
  intros h m room d (objs & Hh & Hm & -> & Hat1 & Hat2) Hd Hr.
  pose proof Hh as [_ _ _ (a & c & k & _ & Hk & Hl) Hp]. unfold denseHeapSize in Hl. pose proof (len_nonneg (concat objs)).
  destruct (FractalHeap.InsertObject_ret h denseHeapSize (denseHeapSize - 19) objs d (order h) Hh ltac:(unfold denseHeapSize in *; lia) ltac:(lia)) as (h' & E & Hh' & Hl1 & Hl2).
  exists h', (FractalHeap.hid (len (concat objs)) (len d)). split; [done|]. split; [|split; [apply hid_short; lia|]].
  - apply eq_None_not_Some. intros [y (i & Hi & Ei & _)%Hm]. destruct (FractalHeap.object_bounds objs i Hi Hp) as (A1 & A2 & A3).
    apply hid_offset in Ei; lia.
  - exists (objs ++ [d]). split; [done|]. split; [|split; [rewrite concat_app, len_app; cbn [concat]; rewrite app_nil_r; lia|split; congruence]].
    intros x y. rewrite lookup_insert. case_decide as Hx.
    + intros [= <-]. subst x. exists (length objs). rewrite length_app. cbn [length]. split; [lia|].
      unfold FractalHeap.idAt, FractalHeap.offsetOf. rewrite take_app_length. by rewrite list_lookup_total_middle.
    + intros (i & Hi & -> & <-)%Hm. exists i. rewrite length_app. cbn [length]. split; [lia|].
      rewrite FractalHeap.idAt_app by done. split; [done|]. by rewrite lookup_total_app_l.
Qed.
Next Obligation.
  intros h m room id d (objs & Hh & Hm & -> & _) (i & Hi & -> & <-)%Hm.
  by apply (FractalHeap.object_bounds objs i Hi (FractalHeap.ho_objs _ _ _ _ Hh)).
Qed.
End heap_instance.

(** Two names clash when the index hashes them alike. *)
Definition same_hash (n1 n2 : bytes) : Prop := BTreeV2.hashOf n1 = BTreeV2.hashOf n2.

Record bt_holds (bt : BTreeV2.WritableBTreeV2) (ix : gmap bytes bytes) (room : Z) : Prop := {
  bh_tree : BTreeV2.tree_ok bt;
  bh_size : BTreeV2.nodeSize bt = denseNodeSize;
  bh_room : room = BTreeV2.calculateMaxRecords bt - len (BTreeV2.records bt);
  bh_ids : forall n id, ix !! n = Some id -> BTreeV2.idsOf (BTreeV2.records bt) (BTreeV2.hashOf n) = [take 7 id] /\ short_id id;
  bh_all : forall h, BTreeV2.idsOf (BTreeV2.records bt) h <> [] -> exists n, is_Some (ix !! n) /\ BTreeV2.hashOf n = h;
  bh_inj : forall n1 n2, is_Some (ix !! n1) -> is_Some (ix !! n2) -> same_hash n1 n2 -> n1 = n2 }.

Lemma short_id_take id : short_id id -> take 7 id ++ zeros 1 = id /\ BTreeV2.heapIDBytes (le_get id) = take 7 id.
Proof.
  intros Hs. pose proof (short_id_len _ Hs) as Hl. split.
  - destruct Hs as (h & Hh & ->). rewrite take_app_le by (unfold len in Hh; lia). rewrite take_ge by (unfold len in Hh; lia). done.
  - unfold BTreeV2.heapIDBytes. replace 8%nat with (length id) by (unfold len in Hl; lia). by rewrite le_put_get.
Qed.

(** The identifiers under the hash of a name the index does not have. *)
Lemma bt_none bt ix room n : bt_holds bt ix room -> (forall n', is_Some (ix !! n') -> ~ same_hash n' n) ->
  BTreeV2.idsOf (BTreeV2.records bt) (BTreeV2.hashOf n) = [].
Proof.
  intros H Hc. destruct (BTreeV2.idsOf _ _) eqn:E; [done|]. destruct (bh_all _ _ _ H (BTreeV2.hashOf n)) as (n' & Hn' & Hh); [by rewrite E|].
  by destruct (Hc n' Hn').
Qed.

(** Storing, in place of what is under a name's hash, the identifier [id] or nothing. *)
Lemma bt_changed bt bt' ix room room' n (o : option bytes) : bt_holds bt ix room -> BTreeV2.tree_ok bt' -> BTreeV2.same_shape bt bt' ->
  (forall n', is_Some (ix !! n') -> n' <> n -> ~ same_hash n' n) ->
  room' = BTreeV2.calculateMaxRecords bt - len (BTreeV2.records bt') ->
  match o with Some id => short_id id | None => True end ->
  (forall h, BTreeV2.idsOf (BTreeV2.records bt') h =
     if decide (h = BTreeV2.hashOf n) then match o with Some id => [take 7 id] | None => [] end else BTreeV2.idsOf (BTreeV2.records bt) h) ->
  bt_holds bt' (partial_alter (fun _ => o) n ix) room'.
Proof.
  intros [H1 H0 H2 H3 H4 H5] Hok Hsh Hc -> Ho Hi. constructor.
  - exact Hok.
  - destruct Hsh as (E & _). by rewrite E.
  - by rewrite (BTreeV2.same_shape_capacity _ _ Hsh).
  - intros n' id. rewrite lookup_partial_alter. case_decide as Hn; [|intros Hx].
    + subst n'. intros ->. rewrite Hi, decide_True by done. done.
    + rewrite Hi, decide_False; [by apply H3|]. intros E. by apply (Hc n'); [rewrite Hx| |].
  - intros h. rewrite Hi. case_decide as Hh; [|intros Hne].
    + destruct o as [id|]; [|done]. intros _. exists n. rewrite lookup_partial_alter_eq. done.
    + destruct (H4 h Hne) as (n' & Hn' & Hh'). exists n'. split; [|done]. rewrite lookup_partial_alter_ne; [done|].
      intros <-. by rewrite Hh' in Hh.
  - intros n1 n2. rewrite !lookup_partial_alter. repeat case_decide; subst; try done; intros Hs1 Hs2 Hsame.
    + by destruct (Hc n2 Hs2 ltac:(done) (eq_sym Hsame)).
    + by destruct (Hc n1 Hs1 ltac:(done) Hsame).
    + by apply H5.
Qed.

Lemma bt_others bt ix room n : bt_holds bt ix room -> is_Some (ix !! n) -> forall n', is_Some (ix !! n') -> n' <> n -> ~ same_hash n' n.
Proof. intros H Hn n' Hn' Hne Hs. by apply Hne, (bh_inj _ _ _ H). Qed.

Section index_instance.
Context (ta la : Z).

(** The tree keeps the identifiers, and was loaded from [ta] and [la]. *)
Definition bt_loaded (bt : BTreeV2.WritableBTreeV2) (ix : gmap bytes bytes) (room : Z) : Prop :=
  bt_holds bt ix room /\ BTreeV2.loadedHeaderAddress bt = ta /\ BTreeV2.loadedLeafAddress bt = la.

Lemma bt_loaded_shape bt bt' ix room ix' room' : bt_loaded bt ix room -> BTreeV2.same_shape bt bt' -> bt_holds bt' ix' room' ->
  bt_loaded bt' ix' room'.
Proof. intros (_ & H1 & H2) (_ & E1 & E2) H. split; [done|]. split; congruence. Qed.

#[local] Program Instance BTreeV2_laws : IndexLaws BTreeV2.WritableBTreeV2 := {| clash := same_hash; index_holds := bt_loaded |}.
Next Obligation.
  intros bt ix room name [H _] Hc. cbn [bwSearchRecord BTreeV2_writer]. rewrite BTreeV2.SearchRecord_eq by apply H. f_equal.
  destruct (ix !! name) as [id|] eqn:E.
  - destruct (bh_ids _ _ _ H name id E) as [-> Hs]. f_equal. by apply short_id_take.
  - rewrite (bt_none bt ix room name H); [done|]. intros n Hn Hs. rewrite (Hc n Hn Hs), E in Hn. by destruct Hn.
Qed.
Next Obligation.
  intros bt ix room name id HL Hc Hn Hs Hroom. pose proof (proj1 HL) as H. cbn [bwInsertRecord BTreeV2_writer].
  destruct (BTreeV2.InsertRecord_cases bt name (le_get id) (bh_tree _ _ _ H)) as [(Hl & bt' & E & Hok & Hsh & _ & Hlen & Hi)|(Hl & _)].
  - exists bt'. split; [done|]. change (<[name := id]> ix) with (partial_alter (fun _ => Some id) name ix).
    apply (bt_loaded_shape bt bt' ix room); [done..|]. apply (bt_changed bt bt' ix room); try done.
    + intros n' Hn' _. by apply Hc.
    + rewrite (bh_room _ _ _ H). lia.
    + intros h. rewrite Hi. case_decide as Hh; [|done]. subst h. rewrite (bt_none bt ix room name H Hc).
      f_equal. by apply short_id_take.
  - pose proof (bh_room _ _ _ H). lia.
Qed.
Next Obligation.
  intros bt ix room name old id HL Hn Hs. pose proof (proj1 HL) as H. cbn [bwUpdateRecord BTreeV2_writer].
  destruct (bh_ids _ _ _ H name old Hn) as [Ei _].
  destruct (BTreeV2.UpdateRecord_cases bt name (le_get id) (bh_tree _ _ _ H)) as [(_ & bt' & E & Hok & Hsh & _ & Hlen & Hi)|(Hx & _)]; [|by rewrite Ei in Hx].
  exists bt'. split; [done|]. change (<[name := id]> ix) with (partial_alter (fun _ => Some id) name ix).
  apply (bt_loaded_shape bt bt' ix room); [done..|]. apply (bt_changed bt bt' ix room); try done.
  - apply (bt_others bt ix room name H). by rewrite Hn.
  - rewrite (bh_room _ _ _ H). lia.
  - intros h. rewrite Hi. case_decide as Hh; [|done]. subst h. rewrite Ei. cbn [drop]. f_equal. by apply short_id_take.
Qed.
Next Obligation.
  intros bt ix room name id rebalance now HL Hn. pose proof (proj1 HL) as H.
  destruct (bh_ids _ _ _ H name id Hn) as [Ei _].
  assert (Hdel : forall bt', BTreeV2.deleted_first bt bt' name -> bt_loaded bt' (delete name ix) (room + 1)).
  { intros bt' (Hok & Hsh & Hlen & Hi). change (delete name ix) with (partial_alter (fun _ => None) name ix).
    apply (bt_loaded_shape bt bt' ix room); [done..|]. apply (bt_changed bt bt' ix room); try done.
    - apply (bt_others bt ix room name H). by rewrite Hn.
    - rewrite (bh_room _ _ _ H). lia.
    - intros h. rewrite Hi. case_decide as Hh; [|done]. subst h. by rewrite Ei. }
  cbn [bwIsLazyRebalancingEnabled bwDeleteRecordLazy bwDeleteRecordWithRebalancing bwDeleteRecord BTreeV2_writer].
  pose proof (BTreeV2.DeleteRecordLazy_cases bt name now (bh_tree _ _ _ H)) as Hlz.
  pose proof (BTreeV2.DeleteRecord_cases bt name (bh_tree _ _ _ H)) as Hd.
  change (BTreeV2.DeleteRecordWithRebalancing bt name) with (BTreeV2.DeleteRecord bt name).
  destruct (BTreeV2.IsLazyRebalancingEnabled bt); [|destruct rebalance].
  - destruct Hlz as [(_ & bt' & E & Hdf & _)|(Hx & _)]; [exists bt'; split; [done|by apply Hdel]|by rewrite Ei in Hx].
  - destruct Hd as [(_ & bt' & E & Hdf & _)|(Hx & _)]; [exists bt'; split; [done|by apply Hdel]|by rewrite Ei in Hx].
  - destruct Hd as [(_ & bt' & E & Hdf & _)|(Hx & _)]; [exists bt'; split; [done|by apply Hdel]|by rewrite Ei in Hx].
Qed.

End index_instance.

(** ** In a file *)

(** Where the parts are: the index header and its leaf, the heap header and its
    block. *)
Record denseLoc := mkDenseLoc { dlTree : Z; dlLeaf : Z; dlHeap : Z; dlRoot : Z }.

Definition dense_blocks (l : denseLoc) : list block :=
  [mkBlock (dlHeap l) 146; mkBlock (dlRoot l) denseHeapSize; mkBlock (dlLeaf l) denseNodeSize; mkBlock (dlTree l) 38].

(** The storage is in the file: [m] at [l], with room for [hr] more bytes and
    [ir] more names. *)
Definition dense_at (f : bytes) (sb : Superblock) (l : denseLoc) (m : gmap bytes bytes) (hr ir : Z) : Prop :=
  exists bt ix objs om, BTreeV2.tree_at f (dlTree l) sb bt /\ BTreeV2.RootNodeAddr (BTreeV2.header bt) = dlLeaf l /\
    bt_holds bt ix ir /\ heap_at f (dlHeap l) (dlRoot l) sb denseHeapSize objs /\ dlRoot l + denseHeapSize < 2 ^ 63 /\
    hr = denseHeapSize - 19 - len (concat objs) /\ promised objs om /\ linked ix om m.

Lemma idsOf_single_nodup rs : (forall h, len (BTreeV2.idsOf rs h) <= 1) -> NoDup (map BTreeV2.NameHash rs).
Proof.
  induction rs as [|r rs IH]; intros H; cbn [map]; constructor.
  - intros Hin. specialize (H (BTreeV2.NameHash r)). rewrite BTreeV2.idsOf_cons, decide_True, len_cons in H by done.
    apply list_elem_of_fmap in Hin as (r' & E & Hr'). destruct (BTreeV2.idsOf rs (BTreeV2.NameHash r)) eqn:Ei.
    + assert (BTreeV2.RecordHeapID r' ∈ BTreeV2.idsOf rs (BTreeV2.NameHash r)) as Hx.
      { unfold BTreeV2.idsOf. apply list_elem_of_fmap. exists r'. split; [done|]. by apply list_elem_of_filter. }
      rewrite Ei in Hx. by apply not_elem_of_nil in Hx.
    + unfold len in H. cbn [length] in H. lia.
  - apply IH. intros h. specialize (H h). rewrite BTreeV2.idsOf_cons in H. unfold len in *. case_decide; cbn [length] in H; lia.
Qed.

(** Record and name of the same entry. *)
Definition record_of (ix : gmap bytes bytes) (r : BTreeV2.LinkNameRecord) (n : bytes) : Prop :=
  BTreeV2.NameHash r = BTreeV2.hashOf n /\ exists id, ix !! n = Some id /\ BTreeV2.RecordHeapID r = take 7 id.

Lemma records_names bt ix ir : bt_holds bt ix ir -> exists names, Forall2 (record_of ix) (BTreeV2.records bt) names.
Proof.
  intros H. assert (Hall : Forall (fun r => exists n, record_of ix r n) (BTreeV2.records bt)).
  { apply Forall_forall. intros r Hr. assert (Hin : BTreeV2.RecordHeapID r ∈ BTreeV2.idsOf (BTreeV2.records bt) (BTreeV2.NameHash r)).
    { unfold BTreeV2.idsOf. apply list_elem_of_fmap. exists r. split; [done|]. by apply list_elem_of_filter. }
    destruct (bh_all _ _ _ H (BTreeV2.NameHash r)) as (n & [id Hid] & Hh); [intros E; rewrite E in Hin; by apply not_elem_of_nil in Hin|].
    destruct (bh_ids _ _ _ H n id Hid) as [Ei _]. rewrite Hh in Ei. rewrite Ei in Hin. apply list_elem_of_singleton in Hin.
    exists n. split; [done|]. by exists id. }
  induction Hall as [|r rs (n & Hn) _ (ns & Hns)]; [by exists []|]. exists (n :: ns). by constructor.
Qed.

Definition hash_before (n1 n2 : bytes) : Prop := BTreeV2.hashOf n1 <= BTreeV2.hashOf n2.

Lemma names_sorted ix rs names : Forall2 (record_of ix) rs names -> StronglySorted BTreeV2.hash_le rs -> StronglySorted hash_before names.
Proof.
  induction 1 as [|r n rs ns [Hr _] Hrs IH]; [by constructor|]. intros [Hs Hle]%StronglySorted_inv. constructor; [by apply IH|].
  clear IH Hs. induction Hrs as [|r' n' rs ns [Hr' _] _ IH]; constructor.
  - apply Forall_cons in Hle as [Hx _]. unfold hash_before. unfold BTreeV2.hash_le in Hx. lia.
  - apply IH. by apply Forall_cons in Hle as [_ Hle].
Qed.

(** The names of the storage in the order of the index. *)
Definition names_of (m : gmap bytes bytes) (names : list bytes) : Prop :=
  NoDup names /\ (forall n, n ∈ names <-> is_Some (m !! n)) /\ StronglySorted hash_before names.

Lemma records_are_names bt ix ir om m names : bt_holds bt ix ir -> linked ix om m -> Forall2 (record_of ix) (BTreeV2.records bt) names ->
  names_of m names.
Proof.
  intros H (Hinj & Hdom & Hm) Hf. split; [|split].
  - apply (NoDup_fmap_1 BTreeV2.hashOf). assert (BTreeV2.hashOf <$> names = map BTreeV2.NameHash (BTreeV2.records bt)) as ->.
    { clear -Hf. induction Hf as [|r n rs ns [E _] _ IH]; [done|]. cbn. by rewrite E, <- IH. }
    apply idsOf_single_nodup. intros h. destruct (BTreeV2.idsOf (BTreeV2.records bt) h) eqn:E; [done|].
    destruct (bh_all _ _ _ H h) as (n & [id Hid] & Hh); [by rewrite E|]. destruct (bh_ids _ _ _ H n id Hid) as [Ei _].
    rewrite Hh, E in Ei. by rewrite Ei.
  - intros n. split.
    + intros (i & Hi)%list_elem_of_lookup. destruct (Forall2_lookup_r _ _ _ _ _ Hf Hi) as (r & _ & _ & id & Hid & _).
      apply Hdom. by rewrite Hid.
    + intros Hs. apply Hdom in Hs as [id Hid]. destruct (bh_ids _ _ _ H n id Hid) as [Ei _].
      assert (take 7 id ∈ BTreeV2.idsOf (BTreeV2.records bt) (BTreeV2.hashOf n)) as Hin by (rewrite Ei; by left).
      unfold BTreeV2.idsOf in Hin. apply list_elem_of_fmap in Hin as (r & _ & [Hh Hr]%list_elem_of_filter).
      apply list_elem_of_lookup in Hr as (i & Hi). destruct (Forall2_lookup_l _ _ _ _ _ Hf Hi) as (n' & Hn' & Hh' & id' & Hid' & _).
      assert (n' = n) as -> by (apply (bh_inj _ _ _ H); [by rewrite Hid'|by rewrite Hid|unfold same_hash; congruence]).
      by eapply list_elem_of_lookup_2.
  - eapply names_sorted; [exact Hf|apply H].
Qed.

(** What a reader gets: the identifiers of the index, and for each of them the
    message of its name. *)
Lemma dense_at_reads f sb l m hr ir : dense_at f sb l m hr ir -> sb_plain8 sb ->
  exists th ids names, readBTreeV2HeaderRaw f (dlTree l) sb = Ret th /\ rtDepth th = 0 /\
    readBTreeV2LeafRecords f (rtRootNodeAddr th) (rtNumRecordsRoot th) = Ret ids /\ names_of m names /\
    exists hh, readFractalHeapHeaderRaw f (dlHeap l) sb = Ret hh /\
      Forall2 (fun id n => exists o k d, parseHeapID id hh = Ret (o, k) /\ m !! n = Some d /\
        readHeapObject f (rhRootBlockAddress hh) o k sb hh = Ret d) ids names.
Proof.
  intros (bt & ix & objs & om & Ht & Hleaf & Hb & Hh & Hroot & Ehr & Hp & Hlk) Hsb. pose proof (bh_tree _ _ _ Hb) as Hok.
  destruct l as [taddr leafa haddr root]. cbn [dlTree dlLeaf dlHeap dlRoot] in *.
  destruct (BTreeV2.max_records bt) as [Hmr1 Hmr2]; [rewrite (bh_size _ _ _ Hb); unfold denseNodeSize; lia|].
  pose proof (BTreeV2.to_count _ Hok) as Hcnt. rewrite (bh_size _ _ _ Hb) in Hmr2. unfold denseNodeSize in Hmr2.
  pose proof (len_nonneg (BTreeV2.records bt)).
  destruct (raw_tree_ret f sb Hsb taddr bt Ht Hok) as (th & E1 & Ed & Er & En);
    [unfold is_u; rewrite (bh_size _ _ _ Hb); unfold denseNodeSize; lia|unfold is_u; lia|].
  destruct (records_names bt ix ir Hb) as [names Hn]. pose proof (records_are_names bt ix ir om m names Hb Hlk Hn) as Hnames.
  exists th, (map BTreeV2.RecordHeapID (BTreeV2.records bt)), names. split; [done|]. split; [done|]. split.
  { rewrite Er, En. apply raw_leaf_ret; [apply Hok|apply Ht|]. rewrite <- (BTreeV2.to_leaf _ Hok). apply Ht. }
  split; [done|]. destruct Hh as [(free & count & ls & _ & _ & Hst) Hblk Ha Hr [HB Hfit] Hpos].
  destruct (raw_heap_ret f sb Hsb haddr denseHeapSize free _ count root ls Hst) as (hh & E2 & Hra & Hos & Hls & Hck); [lia|lia|lia|].
  exists hh. split; [done|]. destruct Hlk as (Hinj & Hdom & Hm).
  clear E1 Ed Er En Hnames Ht Hst Hcnt H Hleaf Ehr. induction Hn as [|r n rs ns (_ & id & Hid & Hri) _ IH]; cbn [map]; [constructor|].
  constructor; [|exact IH]. destruct (proj1 (Hdom n) ltac:(by rewrite Hid)) as [d Hd]. pose proof (Hm _ _ Hid) as Ho. rewrite Hd in Ho.
  destruct (Hp _ _ Ho) as (i & Hi & Ei & Eo). destruct (FractalHeap.object_bounds objs i Hi Hpos) as (A1 & A2 & A3).
  exists (FractalHeap.offsetOf objs i), (len (objs !!! i)), d. split; [|split; [done|]].
  - rewrite Hri, Ei. unfold FractalHeap.idAt. apply (raw_id_ret _ _ denseHeapSize); unfold denseHeapSize in *; (done || lia).
  - rewrite Hra, <- Eo. apply (raw_object_ret f sb Hsb root haddr denseHeapSize objs hh i); unfold denseHeapSize in *; (done || lia).
Qed.

Lemma read_dense_objects f sb l m hr ir : dense_at f sb l m hr ir -> sb_plain8 sb ->
  exists names, names_of m names /\ ReadDenseHeapObjects f (dlTree l) (dlHeap l) sb = Ret (map (fun n => default [] (m !! n)) names).
Proof.
  intros Hd Hsb. destruct (dense_at_reads _ _ _ _ _ _ Hd Hsb) as (th & ids & names & E1 & Edep & E2 & Hn & hh & E3 & Hf).
  exists names. split; [done|]. unfold ReadDenseHeapObjects. rewrite E1. cbn [obind]. rewrite Edep. cbn [Z.eqb]. rewrite E2. cbn [obind].
  destruct (Z.eqb_spec (len ids) 0) as [E0|_].
  { apply len_0_nil in E0. subst ids. by inversion Hf. }
  rewrite E3. cbn [obind]. clear E1 Edep E2 Hn E3. induction Hf as [|id n ids ns (o & k & d & Ep & Em & Er) _ IH]; [done|].
  cbn [readHeapObjects map]. rewrite Ep. cbn [obind]. rewrite Er. cbn [obind]. rewrite IH. cbn [obind]. by rewrite Em.
Qed.

(** The heap and index in memory, holding [m]; their places in the file are
    [l], or zeros when they are new. *)
Definition dense_pair (order : FractalHeap.WritableFractalHeap -> list Z) (l : denseLoc) (h : FractalHeap.WritableFractalHeap)
    (t : BTreeV2.WritableBTreeV2) (m : gmap bytes bytes) (hr ir : Z) : Prop :=
  @dense_holds _ _ (FractalHeap_laws order (dlHeap l) (dlRoot l)) _ _ (BTreeV2_laws (dlTree l) (dlLeaf l)) h t m hr ir.

Definition newLoc : denseLoc := mkDenseLoc 0 0 0 0.

(** Loading the storage for writing. *)
Lemma dense_load f sb l m hr ir order : dense_at f sb l m hr ir -> sb_plain8 sb ->
  exists h t, FractalHeap.LoadFromFile (FractalHeap.NewWritableFractalHeap denseHeapSize) f (dlHeap l) sb = Ret h /\
    BTreeV2.LoadFromFile (BTreeV2.NewWritableBTreeV2 denseNodeSize) f (dlTree l) sb = Ret t /\
    dense_pair order l h t m hr ir.
Proof.
  intros (bt & ix & objs & om & Ht & Hleaf & Hb & Hh & Hroot & Ehr & Hp & Hlk) Hsb. pose proof (bh_tree _ _ _ Hb) as Hok.
  destruct (BTreeV2.max_records bt) as [Hmr1 Hmr2]; [rewrite (bh_size _ _ _ Hb); unfold denseNodeSize; lia|].
  pose proof (BTreeV2.to_count _ Hok) as Hcnt. rewrite (bh_size _ _ _ Hb) in Hmr2. unfold denseNodeSize in Hmr2.
  pose proof (len_nonneg (BTreeV2.records bt)).
  destruct (FractalHeap.heap_LoadFromFile_ret f (dlHeap l) (dlRoot l) sb denseHeapSize objs (FractalHeap.NewWritableFractalHeap denseHeapSize) Hh Hsb eq_refl
    ltac:(unfold denseHeapSize; lia))
    as (h & Eh & Hhh & El1 & El2).
  exists h, (BTreeV2.loaded bt (BTreeV2.NewWritableBTreeV2 denseNodeSize) (dlTree l)).
  split; [done|]. split.
  { apply BTreeV2.tree_LoadFromFile_ret; [done|done|apply Hsb| |unfold is_u; lia]. rewrite (bh_size _ _ _ Hb). unfold is_u, denseNodeSize. lia. }
  exists om, ix. split; [by exists objs|]. split; [|done]. split; [|by split]. destruct Hb as [H1 H2 H3 H4 H5 H6]. constructor; try done.
  by apply BTreeV2.loaded_ok.
Qed.

(** A new pair is empty. *)
Lemma dense_new order : dense_pair order newLoc (FractalHeap.NewWritableFractalHeap denseHeapSize)
  (BTreeV2.NewWritableBTreeV2 denseNodeSize) ∅ 65517 371.
Proof.
  exists ∅, ∅. split; [|split].
  - exists []. split; [apply FractalHeap.heap_New_holds; unfold denseHeapSize; lia|]. split; [done|split; [reflexivity|by split]].
  - split; [|by split]. constructor; [apply BTreeV2.New_ok|reflexivity|vm_compute; reflexivity|done| |intros n1 n2 Hs; rewrite lookup_empty in Hs; by destruct Hs].
    intros h Hh. by destruct Hh.
  - split; [done|]. split; [|done]. intros n. rewrite !lookup_empty. done.
Qed.

Lemma heap_at_preserved f f' ha ra sb B objs keep : heap_at f ha ra sb B objs -> sb_plain8 sb -> preserves f f' keep ->
  mkBlock ha 146 ∈ keep -> mkBlock ra B ∈ keep -> heap_at f' ha ra sb B objs.
Proof.
  intros [(free & cnt & ls & Hf & Hc & Hst) Hblk Ha Hr Hsz Hpos] Hsb Hp Hin Hrr. constructor; [| |exact Ha|exact Hr|exact Hsz|exact Hpos].
  - exists free, cnt, ls. split; [exact Hf|split; [exact Hc|]]. apply (Hp (mkBlock ha 146) ha); [exact Hin|cbn [Offset]; lia| |exact Hst].
    rewrite len_summed, FractalHeap.len_heapBody by done. unfold bend. cbn [Offset Size]. lia.
  - apply (Hp (mkBlock ra B) ra); [exact Hrr|cbn [Offset]; lia| |exact Hblk].
    rewrite len_summed, FractalHeap.len_blockBody by lia. unfold bend. cbn [Offset Size]. lia.
Qed.

Section dense_file.
Context `{SL : StorageLaws St}.
Hypothesis Hfirst : 0 < first_address.
Context (order : FractalHeap.WritableFractalHeap -> list Z).

(** Written to new space. *)
Lemma dense_WriteToFile l0 h t m hr ir st n sb : dense_pair order l0 h t m hr ir -> usable st n -> sb_plain8 sb -> 70000 <= n ->
  exists l h' st1 t' st2, FractalHeap.WriteToFile h st sb = Ret (dlHeap l, h', st1) /\
    BTreeV2.WriteToFile t st1 sb = Ret (dlTree l, t', st2) /\ usable st2 (n - 70000) /\
    owned st2 = owned st ++ dense_blocks l /\ preserves (contents st) (contents st2) (owned st) /\
    dense_at (contents st2) sb l m hr ir.
Proof.
  intros (om & ix & (objs & Hh & Hp & Ehr & _) & [Hb _] & Hlk) Hu Hsb Hn. pose proof (bh_tree _ _ _ Hb) as Hok.
  assert (Hfirst0 : 0 <= first_address) by lia.
  destruct (FractalHeap.heap_WriteToFile_ok Hfirst h denseHeapSize objs st n sb Hu Hh Hsb) as (ha & ra & h' & st1 & E1 & Hu1 & Eo1 & Hp1 & Hat1 & _);
    [unfold denseHeapSize; lia|].
  pose proof (bh_size _ _ _ Hb) as Hns. unfold denseNodeSize in Hns.
  destruct (BTreeV2.tree_WriteToFile_ok Hfirst0 t st1 _ sb Hu1 Hok (proj1 Hsb)) as (ta & la & st2 & E2 & Hu2 & Eo2 & _ & Hp2 & Hat2);
    [lia|unfold denseHeapSize; lia|].
  exists (mkDenseLoc ta la ha ra), h', st1, (BTreeV2.with_root t la), st2. cbn [dlTree dlLeaf dlHeap dlRoot].
  rewrite Hns in Hu2, Eo2. split; [done|]. split; [done|]. split; [eapply usable_mono; [exact Hu2|unfold denseHeapSize; lia]|].
  split; [rewrite Eo2, Eo1, <- app_assoc; reflexivity|].
  assert (Hin : forall b, b ∈ [mkBlock ha 146; mkBlock ra denseHeapSize] -> b ∈ owned st1) by (intros b Hbk; rewrite Eo1; apply elem_of_app; by right).
  assert (Hrr : mkBlock ra denseHeapSize ∈ owned st1) by (apply Hin; right; left).
  pose proof (owned_range _ _ _ Hu1 Hrr) as (Hr1 & _ & Hr3). unfold bend in Hr3. cbn [Offset Size] in Hr1, Hr3.
  split; [eapply (preserves_trans _ _ _ (owned st) (owned st1)); [rewrite Eo1; intros b Hbk; apply elem_of_app; by left|exact Hp1|exact Hp2]|].
  exists (BTreeV2.with_root t la), ix, objs, om. split; [exact Hat2|]. split; [reflexivity|]. split.
  { destruct Hb as [H1 H2 H3 H4 H5 H6]. constructor; [by apply BTreeV2.with_root_ok|exact H2|exact H3|exact H4|exact H5|exact H6]. }
  split; [|split; [exact Hr3|split; [exact Ehr|split; [exact Hp|exact Hlk]]]].
  apply (heap_at_preserved _ _ _ _ _ _ _ _ Hat1 Hsb Hp2); [apply Hin; left|exact Hrr].
Qed.

(** Written back in place. *)
Lemma dense_WriteAt l h t m hr ir st n sb rest : dense_pair order l h t m hr ir -> usable st n -> sb_plain8 sb ->
  owned st ≡ₚ dense_blocks l ++ rest ->
  exists h' st1 t' st2, FractalHeap.WriteAt h st sb = Ret (h', st1) /\ BTreeV2.WriteAt t st1 sb = Ret (t', st2) /\
    usable st2 n /\ owned st2 = owned st /\ preserves (contents st) (contents st2) rest /\ dense_at (contents st2) sb l m hr ir.
Proof.
  intros (om & ix & (objs & Hh & Hp & Ehr & Ea1 & Ea2) & [Hb [Ea3 Ea4]] & Hlk) Hu Hsb Hown. pose proof (bh_tree _ _ _ Hb) as Hok.
  assert (Hfirst0 : 0 <= first_address) by lia. destruct l as [ta la ha ra]. unfold dense_blocks in Hown. cbn [dlTree dlLeaf dlHeap dlRoot] in *.
  assert (Hin : forall b, b ∈ [mkBlock ha 146; mkBlock ra denseHeapSize; mkBlock la denseNodeSize; mkBlock ta 38] -> b ∈ owned st)
    by (intros b Hbk; rewrite Hown; apply elem_of_app; by left).
  assert (Hha : first_address <= ha) by (apply (owned_from _ _ (mkBlock ha 146) Hu), Hin; left).
  assert (Hta : first_address <= ta) by (apply (owned_from _ _ (mkBlock ta 38) Hu), Hin; do 3 right; left).
  assert (Hrb : mkBlock ra denseHeapSize ∈ owned st) by (apply Hin; right; left).
  pose proof (owned_range _ _ _ Hu Hrb) as (_ & _ & Hr3). unfold bend in Hr3. cbn [Offset Size] in Hr3.
  pose proof (bh_size _ _ _ Hb) as Hns. unfold denseNodeSize in Hns.
  destruct (FractalHeap.heap_WriteAt_ok Hfirst h denseHeapSize objs st n sb ([mkBlock la denseNodeSize; mkBlock ta 38] ++ rest) Hu Hh Hsb)
    as (h' & st1 & E1 & Hu1 & Eo1 & Hp1 & Hat1 & _); [lia|rewrite Ea1, Ea2; exact Hown|].
  rewrite Ea1, Ea2 in Hat1.
  destruct (BTreeV2.tree_WriteAt_ok t st1 n sb ([mkBlock ha 146; mkBlock ra denseHeapSize] ++ rest) Hu1 Hok (proj1 Hsb))
    as (st2 & E2 & Hu2 & Eo2 & Hp2 & Hat2); [rewrite Hns; lia|lia| |].
  { rewrite Eo1, Hown, Ea3, Ea4, Hns. change [mkBlock ha 146; mkBlock ra denseHeapSize; mkBlock la denseNodeSize; mkBlock ta 38]
      with ([mkBlock ha 146; mkBlock ra denseHeapSize] ++ [mkBlock la denseNodeSize; mkBlock ta 38]).
    rewrite (Permutation_app_comm [mkBlock ha 146; _]), <- app_assoc. reflexivity. }
  rewrite Ea3, Ea4 in Hat2. exists h', st1, (BTreeV2.with_root t la), st2. rewrite <- Ea4. split; [done|]. split; [done|].
  split; [done|]. split; [by rewrite Eo2|]. split.
  { intros b a d Hbr. intros H1 H2 H3. apply (Hp2 b a d); [by apply elem_of_app; right|done|done|].
    apply (Hp1 b a d); [by apply elem_of_app; right|done|done|done]. }
  exists (BTreeV2.with_root t la), ix, objs, om. rewrite <- Ea4. cbn [dlTree dlLeaf dlHeap dlRoot]. rewrite Ea4. split; [exact Hat2|]. split; [reflexivity|]. split.
  { destruct Hb as [H1 H2 H3 H4 H5 H6]. constructor; [by apply BTreeV2.with_root_ok|exact H2|exact H3|exact H4|exact H5|exact H6]. }
  split; [|split; [exact Hr3|split; [exact Ehr|split; [exact Hp|exact Hlk]]]].
  apply (heap_at_preserved _ _ _ _ _ _ _ _ Hat1 Hsb Hp2); apply elem_of_app; left; [left|right; left].
Qed.
End dense_file.
