(* ===== verification/Attributes.v ===== *)
(** * Attributes: internal/core/attribute.go, internal/core/attribute_modify.go
    and the attribute message of internal/core/messages_write.go

    The attribute message and its parser, the values a reader gets from one, the
    attribute info message that points at dense storage, the collection of an
    object's attributes from its header and its dense storage, and the edits of
    attributes kept in the object header. *)

From S2P Require Import Prelude Overflow Checksum Superblock BTreeV1 Messages ObjectHeader Datatype Convert DenseStorage.
From S2P Require GlobalHeap.

(** ** The attribute message *)

(** The private fields [reader] and [offsetSize] are set together, on
    attributes read from a file; the contents of the file are an argument of
    the operations that use them. *)
Record Attribute := mkAttribute {
  aName : bytes;
  aDatatype : option DatatypeMessage;
  aDataspace : option DataspaceMessage;
  aData : bytes;
  aOffsetSize : option Z }.

(** [int((size + 7) & ^uint16(7))] on 16 bits. *)
Definition attrAlignTo8 (size : Z) : Z := Z.land (u16 (size + 7)) 65528.

(** [endianness.Uint16(data[off:off+2])]. *)
Definition get_u16 (e : ByteOrder) (data : bytes) (off : Z) : outcome Z :=
  let! s := slice data off (off + 2) in Ret (get_order e s).

Definition ParseAttributeMessage (data : bytes) (endianness : ByteOrder) : outcome Attribute :=
  guard negb (len data <? 8) else "attribute message too short";;
  let! v := idx data 0 in
  let version := b2z v in
  let! nameSize := get_u16 endianness data 2 in
  let! datatypeSize := get_u16 endianness data 4 in
  let! dataspaceSize := get_u16 endianness data 6 in
  let offset := if version >=? 3 then 9 else 8 in
  let step size := if version <? 3 then attrAlignTo8 size else size in
  guard negb (offset + nameSize >? len data) else "name extends beyond message";;
  let! name := (if nameSize >? 0 then slice data offset (offset + nameSize - 1) else Ret []) in
  let offset := offset + step nameSize in
  guard negb (offset + datatypeSize >? len data) else "datatype extends beyond message";;
  let! datatypeData := slice data offset (offset + datatypeSize) in
  let! datatype := ParseDatatypeMessage datatypeData in
  let offset := offset + step datatypeSize in
  guard negb (offset + dataspaceSize >? len data) else "dataspace extends beyond message";;
  let! dataspaceData := slice data offset (offset + dataspaceSize) in
  let! dataspace := ParseDataspaceMessage dataspaceData in
  let offset := offset + step dataspaceSize in
  if offset <? len data then
    let! _ := ValidateBufferSize (len data - offset) MaxAttributeSize "attribute data" in
    let! d := slice data offset (len data) in
    Ret (mkAttribute name (Some datatype) (Some dataspace) d None)
  else Ret (mkAttribute name (Some datatype) (Some dataspace) [] None).

(** The buffer is sized with the truncated length of the name. *)
Definition EncodeAttributeMessage (name : bytes) (datatype : option DatatypeMessage) (dataspace : option DataspaceMessage)
    (data : bytes) : outcome bytes :=
  guard negb (bool_decide (name = [])) else "attribute name cannot be empty";;
  match datatype, dataspace with
  | None, _ => Err "datatype cannot be nil"
  | _, None => Err "dataspace cannot be nil"
  | Some dt, Some ds =>
      let! datatypeBytes := EncodeDatatypeMessage dt in
      let! dataspaceBytes := EncodeDataspaceMessage (Dimensions ds) (MaxDims ds) in
      let nameSize := u16 (len name + 1) in
      let messageSize := 9 + nameSize + len datatypeBytes + len dataspaceBytes + len data in
      let! buf := putFields (zeros messageSize)
        [(0, [z2b 3]); (1, [z2b 0]); (2, le_put 2 nameSize); (4, le_put 2 (len datatypeBytes));
         (6, le_put 2 (len dataspaceBytes)); (8, [z2b 0])] in
      let! buf := copy_bytes buf 9 name in
      let offset := 9 + len name in
      let! buf := put_bytes buf offset [x00] in
      let offset := offset + 1 in
      let! buf := copy_bytes buf offset datatypeBytes in
      let offset := offset + len datatypeBytes in
      let! buf := copy_bytes buf offset dataspaceBytes in
      let offset := offset + len dataspaceBytes in
      if len data >? 0 then copy_bytes buf offset data else Ret buf
  end.

Definition EncodeAttributeFromStruct (attr : Attribute) (sb : Superblock) : outcome bytes :=
  guard negb (bool_decide (aName attr = [])) else "attribute name cannot be empty";;
  match aDatatype attr, aDataspace attr with
  | None, _ => Err "attribute datatype is nil"
  | _, None => Err "attribute dataspace is nil"
  | Some _, Some _ => EncodeAttributeMessage (aName attr) (aDatatype attr) (aDataspace attr) (aData attr)
  end.

(** ** Values *)

(** The elements; floats are their bits, strings their bytes. *)
Inductive elements :=
| Int32s (xs : list Z)
| Int64s (xs : list Z)
| Float32s (bits : list Z)
| Float64s (bits : list Z)
| Strings (xs : list bytes).

(** [[]interface{}{}], the first element of a scalar, or the slice. *)
Inductive attrValue :=
| NoElements
| ScalarOf (first : elements)
| SliceOf (all : elements).

Definition elements_head (es : elements) : outcome elements :=
  match es with
  | Int32s xs => let! x := idx xs 0 in Ret (Int32s [x])
  | Int64s xs => let! x := idx xs 0 in Ret (Int64s [x])
  | Float32s xs => let! x := idx xs 0 in Ret (Float32s [x])
  | Float64s xs => let! x := idx xs 0 in Ret (Float64s [x])
  | Strings xs => let! x := idx xs 0 in Ret (Strings [x])
  end.

(** Element [i] of [size] bytes, little-endian. *)
Definition readWord (data : bytes) (size i : Z) : outcome Z :=
  let offset := u64 (i * size) in
  let! s := slice data offset (u64 (offset + size)) in Ret (le_get s).

(** The words of the data once it is checked to hold them. *)
Definition readWords (data : bytes) (totalElements size : Z) : outcome (list Z) :=
  let! totalBytes := SafeMultiply totalElements size in
  guard negb (totalBytes >? len data) else "attribute data size mismatch";;
  convertElements (Z.to_nat totalElements) 0 (readWord data size).

Definition readVariableLengthString (fuel : nat) (file : bytes) (offsetSize : Z) (data : bytes) : outcome bytes :=
  guard negb (len data <? 4 + offsetSize + 4) else "vlen string data too short";;
  let! d := slice data 4 (len data) in
  let! ref := GlobalHeap.ParseGlobalHeapReference d offsetSize in
  if GlobalHeap.refHeapAddress ref =? 0 then Ret []
  else
    let! collection := GlobalHeap.ReadGlobalHeapCollection fuel file (GlobalHeap.refHeapAddress ref) offsetSize in
    let! obj := GlobalHeap.GetObject collection (GlobalHeap.refObjectIndex ref) in
    Ret (TrimRight (GlobalHeap.objData obj) x00).

Definition readVLenElement (fuel : nat) (file : bytes) (offsetSize : Z) (data : bytes) (i : Z) : outcome bytes :=
  let refSize := u64 (offsetSize + 8) in
  let offset := u64 (i * refSize) in
  let! elementData := slice data offset (u64 (offset + refSize)) in
  readVariableLengthString fuel file offsetSize elementData.

(** [make([]string, n)]: 16 bytes an element, in an address space of 48 bits. *)
Definition makeStrings (n : Z) : outcome unit := if n >? 2 ^ 44 then Panic else Ret tt.

Definition readElements (fuel : nat) (file : bytes) (a : Attribute) (dt : DatatypeMessage) (totalElements : Z) : outcome elements :=
  let unsupported := @Err elements "unsupported datatype class or size" in
  if dtClass dt =? DatatypeFixed then
    if dtSize dt =? 4 then let! xs := readWords (aData a) totalElements 4 in Ret (Int32s (map (signed 32) xs))
    else if dtSize dt =? 8 then let! xs := readWords (aData a) totalElements 8 in Ret (Int64s (map (signed 64) xs))
    else unsupported
  else if dtClass dt =? DatatypeFloat then
    if dtSize dt =? 4 then let! xs := readWords (aData a) totalElements 4 in Ret (Float32s xs)
    else if dtSize dt =? 8 then let! xs := readWords (aData a) totalElements 8 in Ret (Float64s xs)
    else unsupported
  else if dtClass dt =? DatatypeString then
    guard IsFixedString dt else "variable-length strings not yet supported in attributes";;
    let! _ := makeStrings totalElements in
    let! xs := convertElements (Z.to_nat totalElements) 0 (readString (aData a) (dtSize dt) (GetStringPadding dt)) in
    Ret (Strings xs)
  else if dtClass dt =? DatatypeVarLen then
    match aOffsetSize a with
    | None => Err "variable-length attribute requires file reader (not available)"
    | Some offsetSize =>
        guard IsVariableString dt else "variable-length non-string types not yet supported in attributes";;
        let! totalBytes := SafeMultiply totalElements (u64 (offsetSize + 8)) in
        guard negb (totalBytes >? len (aData a)) else "attribute data size mismatch for vlen strings";;
        let! xs := convertElements (Z.to_nat totalElements) 0 (readVLenElement fuel file offsetSize (aData a)) in
        Ret (Strings xs)
    end
  else unsupported.

Definition attrIsScalar (ds : DataspaceMessage) : bool :=
  (len (Dimensions ds) =? 0) || bool_decide (Dimensions ds = [1]).

Definition ReadValue (fuel : nat) (file : bytes) (a : Attribute) : outcome attrValue :=
  match aDatatype a, aDataspace a with
  | Some dt, Some ds =>
      let totalElements := TotalElements ds in
      if (totalElements =? 0) || (len (aData a) =? 0) then Ret NoElements
      else
        let! es := readElements fuel file a dt totalElements in
        if attrIsScalar ds then let! e := elements_head es in Ret (ScalarOf e) else Ret (SliceOf es)
  | _, _ => Err "attribute missing datatype or dataspace"
  end.

(** ** The attribute info message *)

Definition MsgAttributeInfo : Z := 15.

Record AttributeInfoMessage := mkAttrInfo {
  aiVersion : Z;
  aiFlags : Z;
  aiFractalHeapAddr : Z;
  aiBTreeNameIndexAddr : Z;
  aiMaxCreationIndex : Z;
  aiBTreeOrderIndexAddr : Z }.

(** The two flag bits. *)
Definition tracksOrder (flags : Z) : bool := negb (Z.land flags 1 =? 0).
Definition indexesOrder (flags : Z) : bool := negb (Z.land flags 2 =? 0).

Definition readAddr (data : bytes) (offset size : Z) : outcome Z :=
  let! d := slice data offset (offset + size) in readAddress d size.

Definition ParseAttributeInfoMessage (data : bytes) (sb : Superblock) : outcome AttributeInfoMessage :=
  guard negb (len data <? 2) else "attribute info message too short";;
  let! version := idx data 0 in
  let! flags := idx data 1 in
  let track := tracksOrder (b2z flags) in
  let index := indexesOrder (b2z flags) in
  guard negb (track && (2 + 4 >? len data)) else "attribute info message too short for max compact/min dense";;
  let! maxIndex := (if track then get_u16 (Endianness sb) data 2 else Ret 0) in
  let offset := if track then 6 else 2 in
  let offsetSize := OffsetSize sb in
  guard negb (offset + offsetSize >? len data) else "attribute info message too short for fractal heap address";;
  let! heap := readAddr data offset offsetSize in
  let offset := offset + offsetSize in
  guard negb (offset + offsetSize >? len data) else "attribute info message too short for btree name index address";;
  let! btree := readAddr data offset offsetSize in
  let offset := offset + offsetSize in
  guard negb (index && (offset + offsetSize >? len data)) else "attribute info message too short for btree order index address";;
  let! order := (if index then readAddr data offset offsetSize else Ret 0) in
  Ret (mkAttrInfo (b2z version) (b2z flags) heap btree maxIndex order).

(** Sizes other than 1, 2, 4 and 8 write nothing. *)
Definition writeAddress (buf : bytes) (offset addr size : Z) (e : ByteOrder) : outcome bytes :=
  if (size =? 1) || (size =? 2) || (size =? 4) || (size =? 8)
  then put_bytes buf offset (put_order e (Z.to_nat size) addr) else Ret buf.

Definition EncodeAttributeInfoMessage (aim : AttributeInfoMessage) (sb : Superblock) : outcome bytes :=
  let track := tracksOrder (aiFlags aim) in
  let index := indexesOrder (aiFlags aim) in
  let offsetSize := OffsetSize sb in
  let e := Endianness sb in
  let size := 2 + (if track then 4 else 0) + offsetSize + offsetSize + (if index then offsetSize else 0) in
  let! buf := putFields (zeros size) [(0, [z2b (aiVersion aim)]); (1, [z2b (aiFlags aim)])] in
  let! buf := (if track then putFields buf [(2, put_order e 2 (aiMaxCreationIndex aim)); (4, put_order e 2 0)] else Ret buf) in
  let offset := if track then 6 else 2 in
  let! buf := writeAddress buf offset (aiFractalHeapAddr aim) offsetSize e in
  let offset := offset + offsetSize in
  let! buf := writeAddress buf offset (aiBTreeNameIndexAddr aim) offsetSize e in
  let offset := offset + offsetSize in
  if index then writeAddress buf offset (aiBTreeOrderIndexAddr aim) offsetSize e else Ret buf.

(** ** The attributes of an object *)

Definition withReader (a : Attribute) (offsetSize : Z) : Attribute :=
  mkAttribute (aName a) (aDatatype a) (aDataspace a) (aData a) (Some offsetSize).

(** The loop over the identifiers. *)
Fixpoint readDenseObjects (f : bytes) (heapIDs : list bytes) (sb : Superblock) (header : fractalHeapHeaderRaw) : outcome (list Attribute) :=
  match heapIDs with
  | [] => Ret []
  | heapID :: heapIDs =>
      let! (offset, length) := parseHeapID heapID header in
      let! objectData := readHeapObject f (rhRootBlockAddress header) offset length sb header in
      let! attr := ParseAttributeMessage objectData (Endianness sb) in
      let! rest := readDenseObjects f heapIDs sb header in
      Ret (withReader attr (OffsetSize sb) :: rest)
  end.

Definition readDenseAttributes (f : bytes) (attrInfo : AttributeInfoMessage) (sb : Superblock) : outcome (list Attribute) :=
  guard negb ((aiFractalHeapAddr attrInfo =? 0) || (aiBTreeNameIndexAddr attrInfo =? 0)) else "invalid dense attribute addresses";;
  let! btreeHeader := readBTreeV2HeaderRaw f (aiBTreeNameIndexAddr attrInfo) sb in
  let! heapIDs := readBTreeV2LeafRecords f (rtRootNodeAddr btreeHeader) (rtNumRecordsRoot btreeHeader) in
  if len heapIDs =? 0 then Ret []
  else
    let! heapHeader := readFractalHeapHeaderRaw f (aiFractalHeapAddr attrInfo) sb in
    readDenseObjects f heapIDs sb heapHeader.

(** The first attribute info message; one that does not parse counts as none. *)
Fixpoint firstAttrInfo (messages : list HeaderMessage) (sb : Superblock) : outcome (option AttributeInfoMessage) :=
  match messages with
  | [] => Ret None
  | msg :: messages =>
      if mType msg =? MsgAttributeInfo then
        match ParseAttributeInfoMessage (mData msg) sb with
        | Ret ai => Ret (Some ai)
        | Err _ => Ret None
        | Panic => Panic
        end
      else firstAttrInfo messages sb
  end.

(** The attribute messages that parse. *)
Fixpoint compactAttributes (messages : list HeaderMessage) (sb : Superblock) : outcome (list Attribute) :=
  match messages with
  | [] => Ret []
  | msg :: messages =>
      if mType msg =? MsgAttribute then
        match ParseAttributeMessage (mData msg) (Endianness sb) with
        | Ret attr => let! rest := compactAttributes messages sb in Ret (withReader attr (OffsetSize sb) :: rest)
        | Err _ => compactAttributes messages sb
        | Panic => Panic
        end
      else compactAttributes messages sb
  end.

Definition ParseAttributesFromMessages (f : bytes) (messages : list HeaderMessage) (sb : Superblock) : outcome (list Attribute) :=
  let! attrInfo := firstAttrInfo messages sb in
  let! attributes := compactAttributes messages sb in
  match attrInfo with
  | Some ai =>
      if negb (aiFractalHeapAddr ai =? 0) then
        let! denseAttrs := readDenseAttributes f ai sb in Ret (attributes ++ denseAttrs)
      else Ret attributes
  | None => Ret attributes
  end.

(** ** Editing attributes kept in the header *)

(** The index of the first attribute message that parses to the name. *)
Fixpoint findAttribute (messages : list HeaderMessage) (name : bytes) (e : ByteOrder) (i : Z) : outcome (option (Attribute * Z)) :=
  match messages with
  | [] => Ret None
  | msg :: messages =>
      if mType msg =? MsgAttribute then
        match ParseAttributeMessage (mData msg) e with
        | Ret attr => if bool_decide (aName attr = name) then Ret (Some (attr, i)) else findAttribute messages name e (i + 1)
        | Err _ => findAttribute messages name e (i + 1)
        | Panic => Panic
        end
      else findAttribute messages name e (i + 1)
  end.

(** The attribute and its index, or -1. *)
Definition FindCompactAttribute (oh : ObjectHeader) (name : bytes) (e : ByteOrder) : outcome (option Attribute * Z) :=
  let! found := findAttribute (hMessages oh) name e 0 in
  match found with
  | Some (attr, i) => Ret (Some attr, i)
  | None => Ret (None, -1)
  end.

Definition withMessages (oh : ObjectHeader) (messages : list HeaderMessage) : ObjectHeader :=
  mkHeader (hVersion oh) (hFlags oh) (hType oh) messages (hName oh) (ReferenceCount oh).

Definition withData (m : HeaderMessage) (data : bytes) : HeaderMessage := mkMsg (mType m) (mOffset m) data (FromContinuation m).

(** [append(messages[:i], messages[i+1:]...)]. *)
Definition removeAt (messages : list HeaderMessage) (i : Z) : list HeaderMessage :=
  take (Z.to_nat i) messages ++ drop (Z.to_nat i + 1) messages.

Definition ModifyCompactAttribute (fuel : nat) (f : bytes) (objectAddr : Z) (name : bytes) (newAttr : Attribute) (sb : Superblock)
    : outcome bytes :=
  guard negb (bool_decide (name = [])) else "attribute name cannot be empty";;
  let! oh := ReadObjectHeader fuel f objectAddr sb in
  let! found := findAttribute (hMessages oh) name (Endianness sb) 0 in
  match found with
  | None => Err "attribute not found"
  | Some (_, msgIndex) =>
      let! newAttrData := EncodeAttributeFromStruct newAttr sb in
      let! old := idx (hMessages oh) msgIndex in
      let messages :=
        if len (mData old) =? len newAttrData then <[Z.to_nat msgIndex := withData old newAttrData]> (hMessages oh)
        else removeAt (hMessages oh) msgIndex ++ [mkMsg MsgAttribute 0 newAttrData false] in
      WriteObjectHeader f objectAddr (withMessages oh messages)
  end.

Definition DeleteCompactAttribute (fuel : nat) (f : bytes) (objectAddr : Z) (name : bytes) (sb : Superblock) : outcome bytes :=
  guard negb (bool_decide (name = [])) else "attribute name cannot be empty";;
  let! oh := ReadObjectHeader fuel f objectAddr sb in
  let! found := findAttribute (hMessages oh) name (Endianness sb) 0 in
  match found with
  | None => Err "attribute not found"
  | Some (_, msgIndex) => WriteObjectHeader f objectAddr (withMessages oh (removeAt (hMessages oh) msgIndex))
  end.

(** ** Encoded attributes *)

Definition attributeBytes (name datatypeBytes dataspaceBytes data : bytes) : bytes :=
  ([z2b 3; x00] ++ le_put 2 (len name + 1) ++ le_put 2 (len datatypeBytes) ++ le_put 2 (len dataspaceBytes) ++ [x00]) ++
  name ++ [x00] ++ datatypeBytes ++ dataspaceBytes ++ data.

Lemma EncodeAttributeMessage_ret name dt ds dtb dsb data :
  name <> [] -> len name <= 65534 -> EncodeDatatypeMessage dt = Ret dtb -> EncodeDataspaceMessage (Dimensions ds) (MaxDims ds) = Ret dsb ->
  EncodeAttributeMessage name (Some dt) (Some ds) data = Ret (attributeBytes name dtb dsb data).
Proof.
  intros Hn Hl E1 E2. unfold EncodeAttributeMessage. rewrite bool_decide_false by done. cbn [negb]. rewrite E1. cbn [obind].
  rewrite E2. cbn [obind]. pose proof (len_nonneg name). pose proof (len_nonneg dtb). pose proof (len_nonneg dsb). pose proof (len_nonneg data).
  rewrite u16_id by (unfold is_u; lia). set (k := len name + 1 + len dtb + len dsb + len data).
  replace (9 + (len name + 1) + len dtb + len dsb + len data) with (9 + k) by (subst k; lia).
  change (zeros (9 + k)) with ([] ++ zeros (9 + k)). rewrite putFields_ret by (try fields_tac; cbn; lia).
  cbn [obind map snd concat]. rewrite app_nil_r, app_nil_l.
  set (hd := [z2b 3] ++ _). replace (9 + k - len hd) with k by (change (len hd) with 9; lia).
  rewrite copy_bytes_cursor by (subst k; done || lia). cbn [obind].
  rewrite put_bytes_cursor by (rewrite ?len_app; change (len hd) with 9; change (len [x00]) with 1; subst k; lia). cbn [obind].
  rewrite copy_bytes_cursor by (rewrite ?len_app; change (len hd) with 9; change (len [x00]) with 1; subst k; lia). cbn [obind].
  rewrite copy_bytes_cursor by (rewrite ?len_app; change (len hd) with 9; change (len [x00]) with 1; subst k; lia). cbn [obind].
  change (len [x00]) with 1. replace (k - len name - 1 - len dtb - len dsb) with (len data) by (subst k; lia).
  unfold attributeBytes. subst hd. destruct (Z.gtb_spec (len data) 0) as [Hd|Hd].
  - rewrite copy_bytes_cursor by (rewrite ?len_app, ?len_le_put; change (len [z2b 3]) with 1; change (len [z2b 0]) with 1; change (len [x00]) with 1; lia).
    rewrite Z.sub_diag. change (zeros 0) with (@nil byte). rewrite app_nil_r, <- !app_assoc. reflexivity.
  - assert (data = []) as -> by (apply len_0_nil; lia). change (zeros (len (@nil byte))) with (@nil byte). rewrite <- !app_assoc. reflexivity.
Qed.

(** The parser takes each part by its stored length. *)
Lemma ParseAttributeMessage_ret name dtb dsb data dt ds :
  len name <= 65534 -> len dtb < 65536 -> len dsb < 65536 -> len data <= MaxAttributeSize ->
  ParseDatatypeMessage dtb = Ret dt -> ParseDataspaceMessage dsb = Ret ds ->
  ParseAttributeMessage (attributeBytes name dtb dsb data) LittleEndian = Ret (mkAttribute name (Some dt) (Some ds) data None).
Proof.
  intros Hn Hdt Hds Hd E1 E2. pose proof (len_nonneg name). pose proof (len_nonneg dtb). pose proof (len_nonneg dsb). pose proof (len_nonneg data).
  set (m := attributeBytes name dtb dsb data). set (hd := [z2b 3; x00] ++ le_put 2 (len name + 1) ++ le_put 2 (len dtb) ++ le_put 2 (len dsb) ++ [x00]).
  assert (Em : m = hd ++ name ++ [x00] ++ dtb ++ dsb ++ data) by reflexivity.
  assert (Hl : len m = 10 + len name + len dtb + len dsb + len data).
  { rewrite Em, !len_app. change (len hd) with 9. change (len [x00]) with 1. lia. }
  assert (Hword : forall v pre post, m = pre ++ le_put 2 v ++ post -> 0 <= v < 65536 -> get_u16 LittleEndian m (len pre) = Ret v).
  { intros v pre post Ev Hv. unfold get_u16. rewrite (slice_at m pre (le_put 2 v) post) by (done || (rewrite len_le_put; lia)).
    cbn [obind get_order]. by rewrite le_get_put_small. }
  unfold ParseAttributeMessage. rewrite Hl. destruct (Z.ltb_spec (10 + len name + len dtb + len dsb + len data) 8); [lia|]. cbn [negb].
  change (idx m 0) with (Ret (z2b 3)). cbn [obind]. change (b2z (z2b 3)) with 3. cbn [Z.geb Z.ltb Z.compare Pos.compare Pos.compare_cont].
  change 2 with (len [z2b 3; x00]) at 1. rewrite (Hword (len name + 1) _ (le_put 2 (len dtb) ++ le_put 2 (len dsb) ++ [x00] ++ name ++ [x00] ++ dtb ++ dsb ++ data)) by (done || lia). cbn [obind].
  change 4 with (len ([z2b 3; x00] ++ le_put 2 (len name + 1))) at 1.
  rewrite (Hword (len dtb) _ (le_put 2 (len dsb) ++ [x00] ++ name ++ [x00] ++ dtb ++ dsb ++ data)) by (done || lia). cbn [obind].
  change 6 with (len ([z2b 3; x00] ++ le_put 2 (len name + 1) ++ le_put 2 (len dtb))) at 1.
  rewrite (Hword (len dsb) _ ([x00] ++ name ++ [x00] ++ dtb ++ dsb ++ data)) by (done || lia). cbn [obind].
  destruct (Z.gtb_spec (9 + (len name + 1)) (10 + len name + len dtb + len dsb + len data)); [lia|]. cbn [negb].
  destruct (Z.gtb_spec (len name + 1) 0); [|lia].
  rewrite (slice_at m hd name ([x00] ++ dtb ++ dsb ++ data)) by (first [exact Em | reflexivity | change (len hd) with 9; lia]). cbn [obind].
  destruct (Z.gtb_spec (9 + (len name + 1) + len dtb) (10 + len name + len dtb + len dsb + len data)); [lia|]. cbn [negb].
  rewrite (slice_at m (hd ++ name ++ [x00]) dtb (dsb ++ data))
    by (first [rewrite Em, <- !app_assoc; reflexivity | rewrite !len_app; change (len hd) with 9; change (len [x00]) with 1; lia | reflexivity | lia]).
  cbn [obind]. rewrite E1. cbn [obind].
  destruct (Z.gtb_spec (9 + (len name + 1) + len dtb + len dsb) (10 + len name + len dtb + len dsb + len data)); [lia|]. cbn [negb].
  rewrite (slice_at m (hd ++ name ++ [x00] ++ dtb) dsb data)
    by (first [rewrite Em, <- !app_assoc; reflexivity | rewrite !len_app; change (len hd) with 9; change (len [x00]) with 1; lia | reflexivity | lia]).
  cbn [obind]. rewrite E2. cbn [obind].
  destruct (Z.ltb_spec (9 + (len name + 1) + len dtb + len dsb) (10 + len name + len dtb + len dsb + len data)) as [Hp|Hp].
  - replace (10 + len name + len dtb + len dsb + len data - (9 + (len name + 1) + len dtb + len dsb)) with (len data) by lia.
    unfold ValidateBufferSize. destruct (Z.eqb_spec (len data) 0); [lia|]. destruct (Z.gtb_spec (len data) MaxAttributeSize); [lia|].
    cbn [negb obind]. rewrite (slice_at m (hd ++ name ++ [x00] ++ dtb ++ dsb) data [])
      by (first [rewrite Em, <- !app_assoc, app_nil_r; reflexivity | rewrite !len_app; change (len hd) with 9; change (len [x00]) with 1; lia | reflexivity | lia]).
    reflexivity.
  - assert (data = []) as -> by (apply len_0_nil; lia). reflexivity.
Qed.

Lemma putFields_len fields : forall buf b, putFields buf fields = Ret b -> len b = len buf.
Proof.
  induction fields as [|[off bs] fields IH]; intros buf b; cbn [putFields]; [by intros [= ->]|].
  unfold put_bytes. destruct (Z.leb_spec 0 off); [|done]. destruct (Z.leb_spec (off + len bs) (len buf)); [|done]. cbn [andb obind].
  intros E. rewrite (IH _ _ E). by apply len_blit.
Qed.

Lemma encodeMessage_len c v f s props n bs : 0 <= n -> encodeMessage c v f s props n = Ret bs -> len bs = n.
Proof. intros Hn E. apply putFields_len in E. by rewrite len_zeros in E. Qed.

Lemma floatProperties_len s p : floatProperties s = Ret p -> len p = 12.
Proof. unfold floatProperties. destruct (s =? 4); [by intros [= <-]|]. by destruct (s =? 8); [intros [= <-]|]. Qed.

Lemma EncodeDatatypeMessage_len dt bs : EncodeDatatypeMessage dt = Ret bs -> len bs <= 20 + len (Properties dt).
Proof.
  intros E. pose proof (len_nonneg (Properties dt)). unfold EncodeDatatypeMessage in E.
  destruct (negb (dtSize dt =? 0)); [|done].
  destruct (_ || _) in E.
  { unfold encodeDatatypeNumeric in E. destruct (_ || _) in E; [|done]. apply obind_ret_inv in E as (p & Ep & E).
    pose proof (len_nonneg p). apply encodeMessage_len in E; [|lia]. rewrite E. destruct (dtClass dt =? DatatypeFloat).
    - apply floatProperties_len in Ep. lia.
    - assert (len p = 4) by (injection Ep as <-; reflexivity). lia. }
  destruct (dtClass dt =? DatatypeString).
  { unfold encodeDatatypeString in E. destruct (negb _) in E; [|done]. apply encodeMessage_len in E; change (len [x00]) with 1 in *; lia. }
  destruct (dtClass dt =? DatatypeArray); [done|]. destruct (dtClass dt =? DatatypeEnum); [done|].
  destruct (dtClass dt =? DatatypeReference).
  { unfold encodeDatatypeReference in E. destruct (_ || _) in E; [|done]. apply encodeMessage_len in E; lia. }
  destruct (dtClass dt =? DatatypeOpaque).
  { unfold encodeDatatypeOpaque in E. destruct (negb _) in E; [|done]. destruct (negb _) in E; [|done].
    apply encodeMessage_len in E; Z.to_euclidean_division_equations; lia. }
  destruct (dtClass dt =? DatatypeCompound).
  { unfold encodeDatatypeCompound in E. destruct (negb _) in E; [|done]. apply encodeMessage_len in E; lia. }
  destruct (dtClass dt =? DatatypeVarLen); [|done]. apply encodeMessage_len in E; lia.
Qed.

(** The attributes that can be stored. *)
Record attr_ok (name : bytes) (dt : DatatypeMessage) (dims maxDims : list Z) (data : bytes) : Prop := {
  ao_name : name <> [] /\ len name <= 65534;
  ao_type : dt_wf dt /\ len (Properties dt) <= 65000;
  ao_dims : 0 < len dims <= 255 /\ Forall (is_u 64) dims;
  ao_max : (maxDims = [] \/ len maxDims = len dims) /\ Forall (is_u 64) maxDims;
  ao_data : len data <= MaxAttributeSize }.

(** Same class, size and class bit field, which is all that reading a value of
    these classes looks at. *)
Definition same_kind (t t' : DatatypeMessage) : Prop :=
  dtClass t' = dtClass t /\ dtSize t' = dtSize t /\ (dtClass t <> DatatypeOpaque -> ClassBitField t' = ClassBitField t).

Lemma attribute_reads_back name dt ds data dtb : attr_ok name dt (Dimensions ds) (MaxDims ds) data -> EncodeDatatypeMessage dt = Ret dtb ->
  exists bs dt', EncodeAttributeMessage name (Some dt) (Some ds) data = Ret bs /\
    ParseAttributeMessage bs LittleEndian =
      Ret (mkAttribute name (Some dt') (Some (mkDataspace 1 DataspaceSimple (Dimensions ds) (MaxDims ds))) data None) /\
    same_kind dt dt' /\ (dtClass dt = DatatypeVarLen -> dt' = dt) /\
    len bs = 10 + len name + len dtb + (8 + 8 * len (Dimensions ds) + 8 * len (MaxDims ds)) + len data.
Proof.
  intros [[Hn1 Hn2] [Ht1 Ht2] [Hd1 Hd2] [Hm1 Hm2] Hda] Edt.
  pose proof (EncodeDatatypeMessage_len _ _ Edt) as Hl.
  destruct (datatype_message_roundtrip dt dtb Ht1 ltac:(lia) Edt) as (dt' & Ep & E1 & E2 & E3 & E4).
  pose proof (EncodeDataspaceMessage_ret (Dimensions ds) (MaxDims ds) Hd1 Hm1) as Eds.
  pose proof (len_dataspaceBytes (Dimensions ds) (MaxDims ds)) as Hld. pose proof (len_nonneg (MaxDims ds)).
  assert (len (MaxDims ds) <= 255) by (destruct Hm1 as [-> | ->]; [change (len (@nil Z)) with 0|]; lia).
  exists (attributeBytes name dtb (dataspaceBytes (Dimensions ds) (MaxDims ds)) data), dt'. split; [by apply EncodeAttributeMessage_ret|].
  split; [|split; [done|split; [done|]]].
  - apply ParseAttributeMessage_ret; [done|lia|lia|done|done|].
    rewrite <- (app_nil_r (dataspaceBytes _ _)). by apply parse_dataspace.
  - unfold attributeBytes. rewrite !len_app, Hld. rewrite !len_le_put. change (len [z2b 3; x00]) with 2. change (len [x00]) with 1. lia.
Qed.

Lemma attr_info_bytes aim sb : OffsetSize sb = 8 -> Endianness sb = LittleEndian ->
  EncodeAttributeInfoMessage aim sb =
    Ret ([z2b (aiVersion aim); z2b (aiFlags aim)] ++ (if tracksOrder (aiFlags aim) then le_put 2 (aiMaxCreationIndex aim) ++ le_put 2 0 else []) ++
      le_put 8 (aiFractalHeapAddr aim) ++ le_put 8 (aiBTreeNameIndexAddr aim) ++
      (if indexesOrder (aiFlags aim) then le_put 8 (aiBTreeOrderIndexAddr aim) else [])).
Proof.
  intros Ho He. unfold EncodeAttributeInfoMessage. rewrite Ho, He. unfold writeAddress. cbn [Z.eqb Pos.eqb orb put_order].
  change (Z.to_nat 8) with 8%nat.
  destruct (tracksOrder (aiFlags aim)); destruct (indexesOrder (aiFlags aim)); cbn [app];
    match goal with |- context [zeros ?n] => change (zeros n) with ([] ++ zeros n) end;
    (rewrite putFields_ret by fields_tac); cbn [obind map snd concat]; rewrite app_nil_l, app_nil_r; cbn [app].
  all: try (match goal with |- context [putFields ?b _] => idtac end; rewrite putFields_ret by fields_tac; cbn [obind map snd concat]; rewrite app_nil_r).
  all: repeat (rewrite put_bytes_cursor by (autorewrite with len; first [reflexivity|lia]); cbn [obind]).
  all: rewrite <- ?app_assoc; cbn [app]; autorewrite with len; try rewrite app_nil_r; reflexivity.
Qed.

Lemma readAddr_at data pre v post off : data = pre ++ le_put 8 v ++ post -> off = len pre -> is_u 64 v -> readAddr data off 8 = Ret v.
Proof.
  intros E -> Hv. unfold readAddr. rewrite (slice_at data pre (le_put 8 v) post) by (rewrite ?len_le_put; done). cbn [obind].
  by apply readAddress_all.
Qed.

Lemma get_u16_at data pre v post off : data = pre ++ le_put 2 v ++ post -> off = len pre -> is_u 16 v -> get_u16 LittleEndian data off = Ret v.
Proof.
  intros E -> Hv. unfold get_u16. rewrite (slice_at data pre (le_put 2 v) post) by (rewrite ?len_le_put; done). cbn [obind get_order].
  by rewrite le_get_put_small.
Qed.

Lemma attr_info_reads_back aim sb : OffsetSize sb = 8 -> Endianness sb = LittleEndian ->
  is_u 8 (aiVersion aim) -> is_u 8 (aiFlags aim) -> is_u 16 (aiMaxCreationIndex aim) ->
  is_u 64 (aiFractalHeapAddr aim) -> is_u 64 (aiBTreeNameIndexAddr aim) -> is_u 64 (aiBTreeOrderIndexAddr aim) ->
  exists bs, EncodeAttributeInfoMessage aim sb = Ret bs /\ 18 <= len bs <= 30 /\
    ParseAttributeInfoMessage bs sb =
      Ret (mkAttrInfo (aiVersion aim) (aiFlags aim) (aiFractalHeapAddr aim) (aiBTreeNameIndexAddr aim)
        (if tracksOrder (aiFlags aim) then aiMaxCreationIndex aim else 0) (if indexesOrder (aiFlags aim) then aiBTreeOrderIndexAddr aim else 0)).
Proof.
  intros Ho He Hv Hf Hm Hh Hb Hi. eexists. split; [by apply attr_info_bytes|].
  set (hd := [z2b (aiVersion aim); z2b (aiFlags aim)]).
  set (tr := if tracksOrder (aiFlags aim) then _ else []). set (od := if indexesOrder (aiFlags aim) then le_put 8 _ else []).
  set (m := hd ++ tr ++ _ ++ _ ++ od).
  assert (Htr : len tr = if tracksOrder (aiFlags aim) then 4 else 0) by (subst tr; by destruct (tracksOrder (aiFlags aim))).
  assert (Hod : len od = if indexesOrder (aiFlags aim) then 8 else 0) by (subst od; by destruct (indexesOrder (aiFlags aim))).
  assert (Hl : len m = 18 + len tr + len od) by (subst m; rewrite !len_app, !len_le_put; change (len hd) with 2; lia).
  split; [rewrite Hl, Htr, Hod; destruct (tracksOrder _), (indexesOrder _); lia|].
  unfold ParseAttributeInfoMessage. rewrite Ho, He, Hl. pose proof (len_nonneg tr). pose proof (len_nonneg od).
  destruct (Z.ltb_spec (18 + len tr + len od) 2); [lia|]. cbn [negb].
  change (idx m 0) with (Ret (z2b (aiVersion aim))). change (idx m 1) with (Ret (z2b (aiFlags aim))). cbn [obind].
  rewrite !b2z_z2b_small by (unfold is_u in *; lia).
  set (o := if tracksOrder (aiFlags aim) then 6 else 2). assert (Eo : o = 2 + len tr) by (rewrite Htr; by subst o; destruct (tracksOrder _)).
  replace (negb (tracksOrder (aiFlags aim) && (2 + 4 >? 18 + len tr + len od))) with true
    by (destruct (tracksOrder _); [|done]; cbn [andb]; by destruct (Z.gtb_spec (2 + 4) (18 + len tr + len od)); [lia|]).
  replace (if tracksOrder (aiFlags aim) then get_u16 LittleEndian m 2 else Ret 0)
    with (Ret (if tracksOrder (aiFlags aim) then aiMaxCreationIndex aim else 0)).
  2: { subst m tr. destruct (tracksOrder _); [|done]. symmetry.
       apply (get_u16_at _ hd _ (le_put 2 0 ++ le_put 8 (aiFractalHeapAddr aim) ++ le_put 8 (aiBTreeNameIndexAddr aim) ++ od)); [by rewrite <- app_assoc|done|done]. }
  cbn [obind]. rewrite Eo. destruct (Z.gtb_spec (2 + len tr + 8) (18 + len tr + len od)); [lia|]. cbn [negb].
  rewrite (readAddr_at m (hd ++ tr) (aiFractalHeapAddr aim) (le_put 8 (aiBTreeNameIndexAddr aim) ++ od))
    by (first [subst m; by rewrite <- app_assoc | rewrite len_app; reflexivity | exact Hh]). cbn [obind].
  destruct (Z.gtb_spec (2 + len tr + 8 + 8) (18 + len tr + len od)); [lia|]. cbn [negb].
  rewrite (readAddr_at m (hd ++ tr ++ le_put 8 (aiFractalHeapAddr aim)) (aiBTreeNameIndexAddr aim) od)
    by (first [subst m; by rewrite <- !app_assoc | rewrite !len_app, len_le_put; change (len hd) with 2; lia | exact Hb]). cbn [obind].
  subst m od. destruct (indexesOrder _); cbn [andb negb obind]; [|reflexivity]. rewrite len_le_put.
  destruct (Z.gtb_spec (2 + len tr + 8 + 8 + 8) (18 + len tr + Z.of_nat 8)); [lia|]. cbn [negb].
  rewrite (readAddr_at _ (hd ++ tr ++ le_put 8 (aiFractalHeapAddr aim) ++ le_put 8 (aiBTreeNameIndexAddr aim)) (aiBTreeOrderIndexAddr aim) [])
    by (first [by rewrite app_nil_r, <- !app_assoc | rewrite !len_app, !len_le_put; change (len hd) with 2; lia | exact Hi]). reflexivity.
Qed.

(** ** Properties *)

(** C12. Attributes round-trip, in a file with 8-byte little-endian addresses:
    every attribute whose datatype can be encoded, with a name of 1 to 65534
    bytes, 1 to 255 dimensions, at most 65000 bytes of datatype properties and
    at most 64 MiB of data, is encoded, and parsed to the same name, dimensions
    and data and to a datatype of the same class and size, and of the same class
    bit field too unless it is an opaque type (whose bit field the encoder
    replaces); the attribute info message round-trips for every combination of
    its flags, without the fields its flags say are absent. *)
Theorem attribute_messages_roundtrip attr dt ds dtb aim sb
  (Hdt : aDatatype attr = Some dt) (Hds : aDataspace attr = Some ds)
  (Hok : attr_ok (aName attr) dt (Dimensions ds) (MaxDims ds) (aData attr)) (He : EncodeDatatypeMessage dt = Ret dtb)
  (Hsb : OffsetSize sb = 8 /\ Endianness sb = LittleEndian)
  (Haim : is_u 8 (aiVersion aim) /\ is_u 8 (aiFlags aim) /\ is_u 16 (aiMaxCreationIndex aim) /\
    is_u 64 (aiFractalHeapAddr aim) /\ is_u 64 (aiBTreeNameIndexAddr aim) /\ is_u 64 (aiBTreeOrderIndexAddr aim)) :
  (exists bs dt', EncodeAttributeFromStruct attr sb = Ret bs /\
    ParseAttributeMessage bs (Endianness sb) =
      Ret (mkAttribute (aName attr) (Some dt') (Some (mkDataspace 1 DataspaceSimple (Dimensions ds) (MaxDims ds))) (aData attr) None) /\
    same_kind dt dt') /\
  (exists bs, EncodeAttributeInfoMessage aim sb = Ret bs /\
    ParseAttributeInfoMessage bs sb =
      Ret (mkAttrInfo (aiVersion aim) (aiFlags aim) (aiFractalHeapAddr aim) (aiBTreeNameIndexAddr aim)
        (if tracksOrder (aiFlags aim) then aiMaxCreationIndex aim else 0) (if indexesOrder (aiFlags aim) then aiBTreeOrderIndexAddr aim else 0))).
Proof.
  destruct Hsb as [Ho Hen]. destruct Haim as (A1 & A2 & A3 & A4 & A5 & A6). split.
  - destruct (attribute_reads_back _ dt ds _ dtb Hok He) as (bs & dt' & E1 & E2 & Hk & _). exists bs, dt'.
    unfold EncodeAttributeFromStruct. rewrite bool_decide_false by apply Hok. rewrite Hdt, Hds, Hen. by split.
  - destruct (attr_info_reads_back aim sb Ho Hen A1 A2 A3 A4 A5 A6) as (bs & E1 & _ & E2). by exists bs.
Qed.

Definition demo_attr : Attribute :=
  mkAttribute (String.list_byte_of_string "units") (Some (mkDatatype DatatypeString 0 3 0 [])) (Some (mkDataspace 0 0 [1] []))
    (String.list_byte_of_string "mm" ++ [x00]) None.

Lemma attribute_messages_roundtrip_witness : exists bs dt',
  EncodeAttributeFromStruct demo_attr (mkSuperblock 2 8 8 0 48 LittleEndian 0 0 0 0) = Ret bs /\
  ParseAttributeMessage bs LittleEndian =
    Ret (mkAttribute (aName demo_attr) (Some dt') (Some (mkDataspace 1 DataspaceSimple [1] [])) (aData demo_attr) None) /\
  dtSize dt' = 3.
Proof.
  destruct (attribute_messages_roundtrip demo_attr (mkDatatype DatatypeString 0 3 0 []) (mkDataspace 0 0 [1] [])
    (match EncodeDatatypeMessage (mkDatatype DatatypeString 0 3 0 []) with Ret b => b | _ => [] end)
    (mkAttrInfo 0 3 4096 8192 7 1) (mkSuperblock 2 8 8 0 48 LittleEndian 0 0 0 0)) as [(bs & dt' & E1 & E2 & _ & E3 & _) _].
  - reflexivity.
  - reflexivity.
  - constructor.
    + split; [discriminate|vm_compute; discriminate].
    + split; [|vm_compute; discriminate]. unfold dt_wf, is_u. repeat split; vm_compute; congruence.
    + split; [vm_compute; split; [reflexivity|discriminate]|]. repeat constructor; vm_compute; congruence.
    + split; [by left|constructor].
    + vm_compute. discriminate.
  - reflexivity.
  - by split.
  - unfold is_u. repeat split; vm_compute; congruence.
  - exists bs, dt'. split; [exact E1|]. split; [exact E2|exact E3].
Defined.
