(* ===== verification/DatasetReader.v ===== *)
(** * Dataset readers: internal/core/dataset_reader.go, dataset_reader_strings.go,
    dataset_reader_compound.go and dataset_reader_vlen.go

    From an object header and the file to the values: the messages are found and
    parsed, the raw bytes fetched according to the layout, and converted. *)

From Stdlib Require Import SpecFloat.
From S2P Require Import Prelude Overflow Superblock Messages ObjectHeader Datatype Convert Pipeline ChunkedDataset GlobalHeap.
From S2P Require Import Groups.

(** ** Messages and raw data *)

(** The data of the last message of the type; the readers keep the last one. *)
Definition lastMessage (t : Z) (messages : list HeaderMessage) : option bytes :=
  fold_left (fun found msg => if mType msg =? t then Some (mData msg) else found) messages None.

(** The data of the first message of the type. *)
Definition firstMessage (t : Z) (messages : list HeaderMessage) : option bytes :=
  mData <$> List.find (fun msg => mType msg =? t) messages.

Section readers.
Context `{C : Codecs}.

Definition parsePipeline (data : option bytes) : outcome (option FilterPipelineMessage) :=
  match data with
  | None => Ret None
  | Some d => let! fp := ParseFilterPipelineMessage d in Ret (Some fp)
  end.

(** The bytes of the dataset; [getPipeline] is evaluated for chunked layouts. *)
Definition readRaw (fuel : nat) (file : bytes) (layout : DataLayoutMessage) (dataspace : DataspaceMessage)
    (datatype : DatatypeMessage) (sb : Superblock) (getPipeline : outcome (option FilterPipelineMessage)) : outcome bytes :=
  if IsCompact layout then Ret (CompactData layout)
  else if IsContiguous layout then
    let dataSize := u64 (TotalElements dataspace * dtSize datatype) in
    if dataSize >=? 2 ^ 63 then Panic else read_at file (i64 (DataAddress layout)) dataSize
  else if IsChunked layout then
    let! filterPipeline := getPipeline in
    readChunkedData fuel file layout dataspace (dtSize datatype) sb filterPipeline
  else Err "unsupported layout class".

(** The three messages every reader needs. *)
Definition findMessages (messages : list HeaderMessage) : outcome (bytes * bytes * bytes) :=
  match lastMessage MsgDatatype messages, lastMessage MsgDataspace messages, lastMessage MsgDataLayout messages with
  | None, _, _ => Err "datatype message not found"
  | _, None, _ => Err "dataspace message not found"
  | _, _, None => Err "data layout message not found"
  | Some t, Some s, Some l => Ret (t, s, l)
  end.

Definition ReadDatasetFloat64 (fuel : nat) (file : bytes) (header : ObjectHeader) (sb : Superblock) : outcome (list spec_float) :=
  let! (datatypeMsg, dataspaceMsg, layoutMsg) := findMessages (hMessages header) in
  let! datatype := ParseDatatypeMessage datatypeMsg in
  let! dataspace := ParseDataspaceMessage dataspaceMsg in
  let! layout := ParseDataLayoutMessage layoutMsg sb in
  let! filterPipeline := parsePipeline (lastMessage MsgFilterPipeline (hMessages header)) in
  let totalElements := TotalElements dataspace in
  if totalElements =? 0 then Ret []
  else
    let! rawData := readRaw fuel file layout dataspace datatype sb (Ret filterPipeline) in
    convertToFloat64 rawData datatype totalElements.

Record DatasetInfo := mkInfo {
  infoDatatype : DatatypeMessage;
  infoDataspace : DataspaceMessage;
  infoLayout : DataLayoutMessage }.

Definition ReadDatasetInfo (header : ObjectHeader) (sb : Superblock) : outcome DatasetInfo :=
  match findMessages (hMessages header) with
  | Ret (datatypeMsg, dataspaceMsg, layoutMsg) =>
      let! datatype := ParseDatatypeMessage datatypeMsg in
      let! dataspace := ParseDataspaceMessage dataspaceMsg in
      let! layout := ParseDataLayoutMessage layoutMsg sb in
      Ret (mkInfo datatype dataspace layout)
  | _ => Err "missing required messages"
  end.

Definition ReadDatasetStrings (fuel : nat) (file : bytes) (header : ObjectHeader) (sb : Superblock) : outcome (list bytes) :=
  let! (datatypeMsg, dataspaceMsg, layoutMsg) := findMessages (hMessages header) in
  let! datatype := ParseDatatypeMessage datatypeMsg in
  guard IsString datatype else "datatype is not string";;
  let! dataspace := ParseDataspaceMessage dataspaceMsg in
  let! layout := ParseDataLayoutMessage layoutMsg sb in
  let totalElements := TotalElements dataspace in
  if totalElements =? 0 then Ret []
  else
    let! rawData := readRaw fuel file layout dataspace datatype sb
      (parsePipeline (firstMessage MsgFilterPipeline (hMessages header))) in
    convertToStrings rawData datatype totalElements.

(** ** Compound values *)

(** A Go map from member names to values. *)
Inductive memberValue :=
  | VFloat64 (x : spec_float)
  | VFloat32 (x : spec_float)
  | VInt32 (n : Z)
  | VInt64 (n : Z)
  | VString (s : bytes)
  | VCompound (fields : gmap bytes memberValue).

Abbreviation CompoundValue := (gmap bytes memberValue).

Definition trimSpaceNull (data : bytes) : bytes :=
  rev ((fix trim (l : bytes) := match l with
    | [] => [] | b :: r => if byte_eqb b x20 || byte_eqb b x00 then trim r else l end) (rev data)).

Definition extractString (data : bytes) (paddingType : Z) : bytes :=
  if paddingType =? 0 then cstring data
  else if paddingType =? 1 then TrimRight data x00
  else if paddingType =? 2 then trimSpaceNull data
  else data.

(** The string a global heap reference leads to, without trailing nulls. *)
Definition readVariableString (fuel : nat) (file : bytes) (data : bytes) (sb : Superblock) : outcome bytes :=
  let offsetSize := OffsetSize sb in
  let! ref := ParseGlobalHeapReference data offsetSize in
  if refHeapAddress ref =? 0 then Ret []
  else
    let! collection := ReadGlobalHeapCollection fuel file (refHeapAddress ref) offsetSize in
    let! obj := GetObject collection (refObjectIndex ref) in
    Ret (TrimRight (objData obj) x00).

(** The members of one element. *)
Fixpoint parseMembers (parse : bytes -> DatatypeMessage -> outcome memberValue) (structData : bytes)
    (members : list CompoundMember) (value : CompoundValue) : outcome CompoundValue :=
  match members with
  | [] => Ret value
  | member :: members =>
      let! memberData := slice structData (cmOffset member) (len structData) in
      let! memberValue := parse memberData (cmType member) in
      parseMembers parse structData members (<[cmName member := memberValue]> value)
  end.

(** Element [i]. *)
Definition parseElement (parse : bytes -> DatatypeMessage -> outcome memberValue) (rawData : bytes)
    (compoundType : CompoundType) (i : Z) : outcome CompoundValue :=
  let structSize := ctSize compoundType in
  let structOffset := u64 (i * structSize) in
  guard negb (u64 (structOffset + structSize) >? len rawData) else "data truncated at element";;
  let! structData := slice rawData structOffset (u64 (structOffset + structSize)) in
  parseMembers parse structData (ctMembers compoundType) ∅.

(** [fuel] bounds the nesting of compound types, whose definitions get shorter. *)
Fixpoint parseMemberValue (fuel hfuel : nat) (file : bytes) (sb : Superblock) (data : bytes) (datatype : DatatypeMessage)
    : outcome memberValue :=
  match fuel with
  | O => Panic
  | S fuel =>
      let byteOrder := GetByteOrder datatype in
      if IsFloat64 datatype then
        guard negb (len data <? 8) else "insufficient data for float64";;
        let! d := slice data 0 8 in Ret (VFloat64 (Float64frombits (get_order byteOrder d)))
      else if IsFloat32 datatype then
        guard negb (len data <? 4) else "insufficient data for float32";;
        let! d := slice data 0 4 in Ret (VFloat32 (Float32frombits (get_order byteOrder d)))
      else if IsInt32 datatype then
        guard negb (len data <? 4) else "insufficient data for int32";;
        let! d := slice data 0 4 in Ret (VInt32 (signed 32 (get_order byteOrder d)))
      else if IsInt64 datatype then
        guard negb (len data <? 8) else "insufficient data for int64";;
        let! d := slice data 0 8 in Ret (VInt64 (signed 64 (get_order byteOrder d)))
      else if IsFixedString datatype then
        let! _ := ValidateBufferSize (dtSize datatype) MaxStringSize "compound string field" in
        guard negb (u32 (len data) <? dtSize datatype) else "insufficient data for string";;
        let! d := slice data 0 (dtSize datatype) in
        Ret (VString (extractString d (GetStringPadding datatype)))
      else if IsVariableString datatype then
        let! s := readVariableString hfuel file data sb in Ret (VString s)
      else if IsCompound datatype then
        let! nestedCompound := ParseCompoundType datatype in
        let! value := parseElement (parseMemberValue fuel hfuel file sb) data nestedCompound 0 in
        Ret (VCompound value)
      else Err "unsupported member datatype"
  end.

Definition parseCompoundData (fuel hfuel : nat) (file : bytes) (sb : Superblock) (rawData : bytes)
    (compoundType : CompoundType) (numElements : Z) : outcome (list CompoundValue) :=
  convertElements (Z.to_nat numElements) 0 (parseElement (parseMemberValue fuel hfuel file sb) rawData compoundType).

Definition ReadDatasetCompound (fuel hfuel : nat) (file : bytes) (header : ObjectHeader) (sb : Superblock)
    : outcome (list CompoundValue) :=
  let! (datatypeMsg, dataspaceMsg, layoutMsg) := findMessages (hMessages header) in
  let! datatype := ParseDatatypeMessage datatypeMsg in
  guard IsCompound datatype else "not a compound datatype";;
  let! compoundType := ParseCompoundType datatype in
  let! dataspace := ParseDataspaceMessage dataspaceMsg in
  let! layout := ParseDataLayoutMessage layoutMsg sb in
  let! filterPipeline := parsePipeline (lastMessage MsgFilterPipeline (hMessages header)) in
  let totalElements := TotalElements dataspace in
  if totalElements =? 0 then Ret []
  else
    let! rawData := readRaw fuel file layout dataspace datatype sb (Ret filterPipeline) in
    parseCompoundData (S (length datatypeMsg)) hfuel file sb rawData compoundType totalElements.

(** ** Variable-length sequences *)

(** Elements [i], [i + 1], ..., [n] of them; [cache] holds the collections read so far. *)
Fixpoint readSequences (n : nat) (i : Z) (hfuel : nat) (file rawData : bytes) (heapIDSize offsetSize : Z)
    (heapCache : gmap Z GlobalHeapCollection) : outcome (list bytes) :=
  match n with
  | O => Ret []
  | S n =>
      let idStart := u64 (i * heapIDSize) in
      guard negb (u64 (idStart + heapIDSize) >? len rawData) else "heap ID extends beyond data";;
      let! id := slice rawData (u64 (idStart + 4)) (u64 (idStart + heapIDSize)) in
      let! heapRef := ParseGlobalHeapReference id offsetSize in
      if (refHeapAddress heapRef =? 0) && (refObjectIndex heapRef =? 0) then
        let! rest := readSequences n (i + 1) hfuel file rawData heapIDSize offsetSize heapCache in
        Ret ([] :: rest)
      else
        let! (collection, heapCache) :=
          (match heapCache !! refHeapAddress heapRef with
           | Some collection => Ret (collection, heapCache)
           | None =>
               let! collection := ReadGlobalHeapCollection hfuel file (refHeapAddress heapRef) offsetSize in
               Ret (collection, <[refHeapAddress heapRef := collection]> heapCache)
           end) in
        let! obj := GetObject collection (refObjectIndex heapRef) in
        let! rest := readSequences n (i + 1) hfuel file rawData heapIDSize offsetSize heapCache in
        Ret (objData obj :: rest)
  end.

Definition ReadDatasetVLenBytes (fuel hfuel : nat) (file : bytes) (header : ObjectHeader) (sb : Superblock)
    : outcome (list bytes) :=
  let! (datatypeMsg, dataspaceMsg, layoutMsg) := findMessages (hMessages header) in
  let! datatype := ParseDatatypeMessage datatypeMsg in
  guard dtClass datatype =? DatatypeVarLen else "datatype is not variable-length";;
  let! dataspace := ParseDataspaceMessage dataspaceMsg in
  let! layout := ParseDataLayoutMessage layoutMsg sb in
  let totalElements := TotalElements dataspace in
  if totalElements =? 0 then Ret []
  else
    let! rawData := readRaw fuel file layout dataspace datatype sb
      (parsePipeline (firstMessage MsgFilterPipeline (hMessages header))) in
    readSequences (Z.to_nat totalElements) 0 hfuel file rawData (dtSize datatype) (OffsetSize sb) ∅.
End readers.
