(* ===== verification/DatasetWrite.v ===== *)
(** * Datasets: dataset_write.go and createChunkedDataset of dataset_write_chunked.go

    The public datatypes and their handlers, the creation of datasets, and the
    encoding and writing of Go values. *)

From S2P Require Import Prelude Allocator Storage Chunks Superblock Messages ObjectHeader Datatype Pipeline ChunkedDataset GlobalHeap Groups.
From S2P Require Import Filters.

(** ** Datatypes *)

Definition Int8 : Z := 0.
Definition Int16 : Z := 1.
Definition Int32 : Z := 2.
Definition Int64 : Z := 3.
Definition Uint8 : Z := 4.
Definition Uint16 : Z := 5.
Definition Uint32 : Z := 6.
Definition Uint64 : Z := 7.
Definition Float32 : Z := 8.
Definition Float64 : Z := 9.
Definition StringType : Z := 10.

(** [100 + iota] and [200 + iota], where [iota] counts from [Int8]. *)
Definition ArrayInt8 : Z := 100 + 11.
Definition EnumInt8 : Z := 200 + 21.
Definition ObjectReference : Z := 300.
Definition RegionReference : Z := 301.
Definition Opaque : Z := 400.
Definition VLenString : Z := 500.

Definition Unlimited : Z := MaxUint64.

Inductive datatypeInfo := mkTypeInfo {
  tiClass : Z;
  tiSize : Z;
  tiBits : Z;
  tiBase : option datatypeInfo;
  tiArrayDims : list Z;
  tiEnumNames : list bytes;
  tiEnumValues : list Z;
  tiOpaqueTag : bytes }.

Definition plainInfo (class size bits : Z) : datatypeInfo := mkTypeInfo class size bits None [] [] [] [].

Record datasetConfig := mkConfig {
  stringSize : Z;
  arrayDims : list Z;
  enumNames : list bytes;
  enumValues : list Z;
  opaqueTag : bytes;
  opaqueSize : Z;
  chunkDims : list Z;
  cfgPipeline : option FilterPipeline;
  enableShuffle : bool;
  maxDims : list Z }.

Inductive datatypeHandler :=
  | basicTypeHandler (class size classBitField : Z)
  | stringTypeHandler
  | arrayTypeHandler (baseType : Z)
  | enumTypeHandler (baseType : Z)
  | referenceTypeHandler (size classBitField : Z)
  | opaqueTypeHandler
  | vlenTypeHandler (baseType : Z).

Definition datatypeRegistry : list (Z * datatypeHandler) :=
  [(Int8, basicTypeHandler DatatypeFixed 1 8); (Int16, basicTypeHandler DatatypeFixed 2 8);
   (Int32, basicTypeHandler DatatypeFixed 4 8); (Int64, basicTypeHandler DatatypeFixed 8 8);
   (Uint8, basicTypeHandler DatatypeFixed 1 0); (Uint16, basicTypeHandler DatatypeFixed 2 0);
   (Uint32, basicTypeHandler DatatypeFixed 4 0); (Uint64, basicTypeHandler DatatypeFixed 8 0);
   (Float32, basicTypeHandler DatatypeFloat 4 7968); (Float64, basicTypeHandler DatatypeFloat 8 16160);
   (StringType, stringTypeHandler);
   (ArrayInt8, arrayTypeHandler Int8); (ArrayInt8 + 1, arrayTypeHandler Int16);
   (ArrayInt8 + 2, arrayTypeHandler Int32); (ArrayInt8 + 3, arrayTypeHandler Int64);
   (ArrayInt8 + 4, arrayTypeHandler Uint8); (ArrayInt8 + 5, arrayTypeHandler Uint16);
   (ArrayInt8 + 6, arrayTypeHandler Uint32); (ArrayInt8 + 7, arrayTypeHandler Uint64);
   (ArrayInt8 + 8, arrayTypeHandler Float32); (ArrayInt8 + 9, arrayTypeHandler Float64);
   (EnumInt8, enumTypeHandler Int8); (EnumInt8 + 1, enumTypeHandler Int16);
   (EnumInt8 + 2, enumTypeHandler Int32); (EnumInt8 + 3, enumTypeHandler Int64);
   (EnumInt8 + 4, enumTypeHandler Uint8); (EnumInt8 + 5, enumTypeHandler Uint16);
   (EnumInt8 + 6, enumTypeHandler Uint32); (EnumInt8 + 7, enumTypeHandler Uint64);
   (ObjectReference, referenceTypeHandler 8 0); (RegionReference, referenceTypeHandler 12 1);
   (Opaque, opaqueTypeHandler);
   (VLenString, vlenTypeHandler 0); (VLenString + 1, vlenTypeHandler Int32);
   (VLenString + 2, vlenTypeHandler Int64); (VLenString + 3, vlenTypeHandler Float32);
   (VLenString + 4, vlenTypeHandler Float64); (VLenString + 5, vlenTypeHandler Uint32);
   (VLenString + 6, vlenTypeHandler Uint64); (VLenString + 7, vlenTypeHandler Uint8)].

Definition lookupHandler (dt : Z) : option datatypeHandler :=
  snd <$> List.find (fun e => e.1 =? dt) datatypeRegistry.

(** The [uint32] product of the dimensions. *)
Definition arraySize (dims : list Z) (baseSize : Z) : Z :=
  u32 (fold_left (fun t dim => u32 (t * u32 dim)) dims 1 * baseSize).

(** [fuel]: base types of the registry are basic types, so two levels are enough. *)
Fixpoint GetInfo (fuel : nat) (h : datatypeHandler) (config : datasetConfig) : outcome datatypeInfo :=
  match fuel with
  | O => Panic
  | S fuel =>
      match h with
      | basicTypeHandler class size bits => Ret (plainInfo class size bits)
      | stringTypeHandler =>
          guard negb (stringSize config =? 0) else "string datatype requires size > 0";;
          Ret (plainInfo DatatypeString (stringSize config) 0)
      | arrayTypeHandler base =>
          guard negb (len (arrayDims config) =? 0) else "array datatype requires dimensions";;
          match lookupHandler base with
          | None => Err "invalid array base type"
          | Some bh =>
              let! baseInfo := GetInfo fuel bh config in
              Ret (mkTypeInfo DatatypeArray (arraySize (arrayDims config) (tiSize baseInfo)) 0 (Some baseInfo)
                (arrayDims config) [] [] [])
          end
      | enumTypeHandler base =>
          guard negb ((len (enumNames config) =? 0) || (len (enumValues config) =? 0))
            else "enum datatype requires names and values";;
          guard len (enumNames config) =? len (enumValues config) else "enum names and values must have same length";;
          match lookupHandler base with
          | None => Err "invalid enum base type"
          | Some bh =>
              let! baseInfo := GetInfo fuel bh config in
              Ret (mkTypeInfo DatatypeEnum (tiSize baseInfo) 0 (Some baseInfo) [] (enumNames config) (enumValues config) [])
          end
      | referenceTypeHandler size bits => Ret (plainInfo DatatypeReference size bits)
      | opaqueTypeHandler =>
          guard negb (bool_decide (opaqueTag config = []) || (opaqueSize config =? 0))
            else "opaque datatype requires tag and size > 0";;
          Ret (mkTypeInfo DatatypeOpaque (opaqueSize config) 0 None [] [] [] (opaqueTag config))
      | vlenTypeHandler _ => Ret (plainInfo DatatypeVarLen 16 0)
      end
  end.

Definition getDatatypeInfo (dt : Z) (config : datasetConfig) : outcome datatypeInfo :=
  match lookupHandler dt with
  | None => Err "unsupported datatype"
  | Some h => GetInfo 2 h config
  end.

(** The datatype message of an info without properties. *)
Definition infoMessage (info : datatypeInfo) : DatatypeMessage :=
  mkDatatype (tiClass info) 1 (tiSize info) (tiBits info) [].

(** The enum values at the width of the base type, from [i] on. *)
Fixpoint putEnumValues (values : list Z) (size i : Z) (valueBytes : bytes) : outcome bytes :=
  match values with
  | [] => Ret valueBytes
  | val :: values =>
      let! valueBytes :=
        (if (size =? 1) || (size =? 2) || (size =? 4) || (size =? 8)
         then put_bytes valueBytes (i * size) (le_put (Z.to_nat size) val) else Ret valueBytes) in
      putEnumValues values size (i + 1) valueBytes
  end.

(** A nil base type panics. *)
Definition baseOf (info : datatypeInfo) : outcome datatypeInfo :=
  match tiBase info with Some b => Ret b | None => Panic end.

Definition emptyConfig : datasetConfig := mkConfig 0 [] [] [] [] 0 [] None false [].

(** [EncodeDatatypeMessage] of the handlers. *)
Fixpoint handlerEncode (fuel : nat) (h : datatypeHandler) (info : datatypeInfo) : outcome bytes :=
  match fuel with
  | O => Panic
  | S fuel =>
      match h with
      | basicTypeHandler _ _ _ | stringTypeHandler | referenceTypeHandler _ _ => EncodeDatatypeMessage (infoMessage info)
      | arrayTypeHandler _ =>
          let! base := baseOf info in
          let! baseData := EncodeDatatypeMessage (infoMessage base) in
          EncodeArrayDatatypeMessage baseData (tiArrayDims info) (tiSize info)
      | enumTypeHandler _ =>
          let! base := baseOf info in
          let! baseData := EncodeDatatypeMessage (infoMessage base) in
          let! valueBytes := putEnumValues (tiEnumValues info) (tiSize base) 0
            (zeros (len (tiEnumValues info) * tiSize base)) in
          EncodeEnumDatatypeMessage baseData (tiEnumNames info) valueBytes (tiSize info)
      | opaqueTypeHandler => EncodeDatatypeMessage (mkDatatype DatatypeOpaque 1 (tiSize info) 0 (tiOpaqueTag info))
      | vlenTypeHandler base =>
          let! baseTypeMsg :=
            (if base =? 0 then EncodeDatatypeMessage (mkDatatype DatatypeString 1 1 0 [])
             else match lookupHandler base with
                  | None => Err "unsupported vlen base type"
                  | Some bh =>
                      let! baseInfo := GetInfo 2 bh emptyConfig in
                      handlerEncode fuel bh baseInfo
                  end) in
          let vlenType := if base =? 0 then 1 else 0 in
          EncodeDatatypeMessage (mkDatatype DatatypeVarLen 1 16 vlenType baseTypeMsg)
      end
  end.

Definition encodeType (dt : Z) (info : datatypeInfo) : outcome bytes :=
  match lookupHandler dt with
  | None => Panic
  | Some h => handlerEncode 2 h info
  end.

(** ** Encoding Go values

    The dynamic types [Write] accepts; floats are given by their bits. *)

Inductive GoData :=
  | Int8s (v : list Z) | Uint8s (v : bytes) | Int16s (v : list Z) | Uint16s (v : list Z)
  | Int32s (v : list Z) | Uint32s (v : list Z) | Int64s (v : list Z) | Uint64s (v : list Z)
  | Float32s (v : list Z) | Float64s (v : list Z)
  | Strings (v : list bytes)
  | Int32Seqs (v : list (list Z)) | Int64Seqs (v : list (list Z)) | Uint32Seqs (v : list (list Z))
  | Uint64Seqs (v : list (list Z)) | Float32Seqs (v : list (list Z)) | Float64Seqs (v : list (list Z))
  | ByteSeqs (v : list bytes)
  | OtherData.

Definition getIntegerSliceLength (data : GoData) : outcome Z :=
  match data with
  | Int8s v | Int16s v | Uint16s v | Int32s v | Uint32s v | Int64s v | Uint64s v => Ret (len v)
  | Uint8s v => Ret (len v)
  | _ => Err "unsupported data type"
  end.

(** [PutUintN(buf[i*n:], uintN(val))] for the values from [i] on. *)
Fixpoint putElems (n : nat) (v : list Z) (i : Z) (buf : bytes) : outcome bytes :=
  match v with
  | [] => Ret buf
  | val :: v => let! buf := put_le n buf (i * Z.of_nat n) val in putElems n v (i + 1) buf
  end.

Definition encode1ByteIntegers (data : GoData) (buf : bytes) : outcome bytes :=
  match data with
  | Int8s v => putElems 1 v 0 buf
  | Uint8s v => copy_bytes buf 0 v
  | _ => Err "expected []int8 or []uint8"
  end.
Definition encode2ByteIntegers (data : GoData) (buf : bytes) : outcome bytes :=
  match data with
  | Int16s v | Uint16s v => putElems 2 v 0 buf
  | _ => Err "expected []int16 or []uint16"
  end.
Definition encode4ByteIntegers (data : GoData) (buf : bytes) : outcome bytes :=
  match data with
  | Int32s v | Uint32s v => putElems 4 v 0 buf
  | _ => Err "expected []int32 or []uint32"
  end.
Definition encode8ByteIntegers (data : GoData) (buf : bytes) : outcome bytes :=
  match data with
  | Int64s v | Uint64s v => putElems 8 v 0 buf
  | _ => Err "expected []int64 or []uint64"
  end.

(** [make([]byte, n)]. *)
Definition makeBytes (n : Z) : outcome bytes := if n >=? 2 ^ 63 then Panic else Ret (zeros n).

Definition encodeFixedPointData (data : GoData) (elemSize expectedSize : Z) : outcome bytes :=
  let! dataLen := getIntegerSliceLength data in
  guard u64 (dataLen * elemSize) =? expectedSize else "data size mismatch";;
  let! buf := makeBytes expectedSize in
  if elemSize =? 1 then encode1ByteIntegers data buf
  else if elemSize =? 2 then encode2ByteIntegers data buf
  else if elemSize =? 4 then encode4ByteIntegers data buf
  else if elemSize =? 8 then encode8ByteIntegers data buf
  else Err "unsupported integer size".

Definition encodeFloatData (data : GoData) (elemSize expectedSize : Z) : outcome bytes :=
  let! dataLen := (match data with Float32s v | Float64s v => Ret (len v) | _ => Err "expected []float32 or []float64" end) in
  guard u64 (dataLen * elemSize) =? expectedSize else "data size mismatch";;
  let! buf := makeBytes expectedSize in
  if elemSize =? 4 then
    match data with Float32s v => putElems 4 v 0 buf | _ => Err "expected []float32" end
  else if elemSize =? 8 then
    match data with Float64s v => putElems 8 v 0 buf | _ => Err "expected []float64" end
  else Err "unsupported float size".

(** The strings from [offset] on, each truncated or padded with zeros to [elemSize]. *)
Fixpoint putStrings (v : list bytes) (elemSize offset : Z) (buf : bytes) : outcome bytes :=
  match v with
  | [] => Ret buf
  | strBytes :: v =>
      let! buf :=
        (if len strBytes >=? elemSize then
           let! s := slice strBytes 0 elemSize in put_bytes buf offset s
         else copy_bytes buf offset strBytes) in
      putStrings v elemSize (offset + elemSize) buf
  end.

(** The error message divides by [elemSize]. *)
Definition encodeStringData (data : GoData) (elemSize expectedSize : Z) : outcome bytes :=
  match data with
  | Strings v =>
      if negb (u64 (len v * elemSize) =? expectedSize)
      then (if elemSize =? 0 then Panic else Err "data size mismatch")
      else let! buf := makeBytes expectedSize in putStrings v elemSize 0 buf
  | _ => Err "expected []string"
  end.

Definition encodeOpaqueData (data : GoData) (expectedSize : Z) : outcome bytes :=
  match data with
  | Uint8s v => guard len v =? expectedSize else "data size mismatch";; Ret v
  | _ => Err "opaque data must be []byte"
  end.

(** ** Creating datasets *)

Definition validateDatasetName (name : bytes) : outcome () :=
  guard negb (bool_decide (name = [])) else "dataset name cannot be empty";;
  guard HasSlashPrefix name else "dataset name must start with '/'";;
  Ret tt.

Definition validateDimensions (dims : list Z) : outcome () :=
  guard negb (len dims =? 0) else "dimensions cannot be empty";;
  guard forallb (fun dim => negb (dim =? 0)) dims else "dimension cannot be 0";;
  Ret tt.

Definition calculateTotalElements (dims : list Z) : Z := mulAll 1 dims.

Definition calculateObjectHeaderSize (ohw : ObjectHeaderWriter) : outcome Z :=
  guard wVersion ohw =? 2 else "only object header version 2 supported";; Size_ ohw.

(** The DatasetWriter of the code: the fields chunked writing uses
    ([ChunkedDataset.DatasetWriter]) and the others.  [dense_attrInfo] is left out. *)
Record Dataset := mkDs {
  dsw : DatasetWriter;
  dsName : bytes;
  dsClass : Z;
  dsMaxDims : list Z;
  dsHeader : option ObjectHeader }.

(** The class and element size [Write] encodes with: the base type's for arrays
    and enums. *)
Definition writerType (info : datatypeInfo) : Z * Z :=
  match tiBase info with Some b => (tiClass b, tiSize b) | None => (tiClass info, tiSize info) end.

Section with_storage.
Context `{Storage St}.

(** Allocating and writing the object header, padded to the minimum size. *)
Definition storeDatasetHeader (st : St) (messages : list MessageWriter) : outcome (Z * Z * St) :=
  let! ohw := PadToSize (mkHeaderWriter 2 0 messages 0) MinOHDRAllocSize in
  let! headerSize := calculateObjectHeaderSize ohw in
  let! (headerAddress, st) := allocate st headerSize in
  let! (writtenSize, st) := storeHeader ohw st headerAddress in
  guard writtenSize =? headerSize else "header size mismatch";;
  Ret (headerAddress, headerSize, st).

(** A contiguous dataset of the encoded type [datatypeData]: space for the data,
    header, link. *)
Definition createContiguous (fw : FileW St) (name : bytes) (getType : outcome bytes) (size : Z) (dims : list Z)
    (class elemSize : Z) : outcome (Dataset * FileW St) :=
  let dataSize := u64 (calculateTotalElements dims * size) in
  let! (dataAddress, st) := allocate (storage fw) dataSize in
  let! datatypeData := getType in
  let! dataspaceData := EncodeDataspaceMessage dims [] in
  let! layoutData := EncodeLayoutMessage LayoutContiguous dataSize dataAddress (sblock fw) [] 0 in
  let! (headerAddress, _, st) := storeDatasetHeader st
    [(MsgDatatype, datatypeData); (MsgDataspace, dataspaceData); (MsgDataLayout, layoutData)] in
  let! (parent, datasetName) := parsePath name in
  let! fw := linkToParent (with_storage fw st) parent datasetName headerAddress in
  Ret (mkDs (mkDatasetWriter headerAddress dataAddress dataSize elemSize dims false (mkCoordinator [] [] []) [] None 0 0)
         name class [] None, fw).

(** The maximum dimensions against the dimensions. *)
Fixpoint checkMaxDims (maxDims dims : list Z) : bool :=
  match maxDims, dims with
  | maxDim :: maxDims, dim :: dims => negb (negb (maxDim =? Unlimited) && (maxDim <? dim)) && checkMaxDims maxDims dims
  | _, _ => true
  end.

Fixpoint checkChunkDims (chunkDims dims : list Z) : outcome () :=
  match chunkDims, dims with
  | chunkDim :: chunkDims, dim :: dims =>
      guard negb (chunkDim =? 0) else "chunk dimension cannot be zero";;
      guard negb (chunkDim >? dim) else "chunk dimension cannot exceed dataset dimension";;
      checkChunkDims chunkDims dims
  | _, _ => Ret tt
  end.

(** The pipeline of the configuration, with the shuffle filter first. *)
Definition configPipeline (config : datasetConfig) (size : Z) : option FilterPipeline :=
  if bool_decide (is_Some (cfgPipeline config)) || enableShuffle config then
    let pipeline := default NewFilterPipeline (cfgPipeline config) in
    Some (if enableShuffle config then AddFilterAtStart pipeline (NewShuffleFilter size) else pipeline)
  else None.

Definition createChunkedDataset (fw : FileW St) (name : bytes) (dtype : Z) (dims : list Z) (config : datasetConfig)
    : outcome (Dataset * FileW St) :=
  guard len (chunkDims config) =? len dims else "chunk dimensions must match dataset dimensions";;
  let! _ := checkChunkDims (chunkDims config) dims in
  let! dtInfo := getDatatypeInfo dtype config in
  let! chunkCoordinator := NewChunkCoordinator dims (chunkDims config) in
  let btreeAddress := 0 in
  let! datatypeData := encodeType dtype dtInfo in
  let! dataspaceData := EncodeDataspaceMessage dims (maxDims config) in
  let! layoutData := EncodeLayoutMessage LayoutChunked 0 btreeAddress (sblock fw) (chunkDims config) (tiSize dtInfo) in
  let pipeline := configPipeline config (tiSize dtInfo) in
  let messages := [(MsgDatatype, datatypeData); (MsgDataspace, dataspaceData); (MsgDataLayout, layoutData)] in
  let! messages :=
    (match pipeline with
     | Some fp => if IsEmpty fp then Ret messages
                  else let! pipelineData := EncodePipelineMessage fp in Ret (messages ++ [(MsgFilterPipeline, pipelineData)])
     | None => Ret messages
     end) in
  let! (headerAddress, headerSize, st) := storeDatasetHeader (storage fw) messages in
  let layoutBTreeOffset := u64 (headerAddress + 4 + 1 + 1 + 1 + 4 + len datatypeData + 4 + len dataspaceData + 4 + 3) in
  let! (parent, datasetName) := parsePath name in
  let! fw := linkToParent (with_storage fw st) parent datasetName headerAddress in
  let '(class, elemSize) := writerType dtInfo in
  let dataSize := u64 (calculateTotalElements dims * tiSize dtInfo) in
  Ret (mkDs (mkDatasetWriter headerAddress btreeAddress dataSize elemSize dims true chunkCoordinator (chunkDims config)
         pipeline layoutBTreeOffset headerSize) name class (maxDims config) None, fw).

Definition CreateDataset (fw : FileW St) (name : bytes) (dtype : Z) (dims : list Z) (config : datasetConfig)
    : outcome (Dataset * FileW St) :=
  let! _ := validateDatasetName name in
  let! _ := validateDimensions dims in
  let! _ :=
    (if len (maxDims config) >? 0 then
       guard len (maxDims config) =? len dims else "maxDims length must match dims length";;
       guard checkMaxDims (maxDims config) dims else "maxDims must be >= dims";;
       guard negb (len (chunkDims config) =? 0) else "resizable datasets (with maxDims) require chunked layout";;
       Ret tt
     else Ret tt) in
  if len (chunkDims config) >? 0 then createChunkedDataset fw name dtype dims config
  else
    let! dtInfo := getDatatypeInfo dtype config in
    let '(class, elemSize) := writerType dtInfo in
    createContiguous fw name (encodeType dtype dtInfo) (tiSize dtInfo) dims class elemSize.

Definition CreateCompoundDataset (fw : FileW St) (name : bytes) (compoundType : option DatatypeMessage) (dims : list Z)
    (config : datasetConfig) : outcome (Dataset * FileW St) :=
  let! _ := validateDatasetName name in
  let! _ := validateDimensions dims in
  match compoundType with
  | None => Err "compound datatype cannot be nil"
  | Some t =>
      guard dtClass t =? DatatypeCompound else "datatype must be compound";;
      guard negb (len (chunkDims config) >? 0) else "chunked compound datasets not yet implemented";;
      createContiguous fw name (EncodeDatatypeMessage t) (dtSize t) dims (dtClass t) (dtSize t)
  end.
End with_storage.

(** ** Writing values *)

Definition with_dsw (ds : Dataset) (dw : DatasetWriter) : Dataset :=
  mkDs dw (dsName ds) (dsClass ds) (dsMaxDims ds) (dsHeader ds).

(** The heap objects and sequence lengths of a variable-length value: one
    constructor of [n] bytes per element, or bytes as they are. *)
Definition seqObjects (n : nat) (v : list (list Z)) : list (outcome bytes * Z) :=
  map (fun seq => (putElems n seq 0 (zeros (len seq * Z.of_nat n)), len seq)) v.

Definition vlenObjects (data : GoData) : outcome (list (outcome bytes * Z)) :=
  match data with
  | Strings v | ByteSeqs v => Ret (map (fun s => (Ret s, len s)) v)
  | Int32Seqs v | Uint32Seqs v | Float32Seqs v => Ret (seqObjects 4 v)
  | Int64Seqs v | Uint64Seqs v | Float64Seqs v => Ret (seqObjects 8 v)
  | _ => Err "unsupported vlen data type"
  end.

Section with_storage_write.
Context `{Storage St}.

(** The objects one after the other into the global heap. *)
Fixpoint writeHeapObjects (objects : list (outcome bytes * Z)) (ghw : globalHeapWriter) (st : St)
    : outcome (list HeapID * globalHeapWriter * St) :=
  match objects with
  | [] => Ret ([], ghw, st)
  | (getBytes, seqLen) :: objects =>
      let! seqBytes := getBytes in
      let! (heapID, ghw, st) := WriteToGlobalHeap ghw st seqBytes in
      let heapID := mkHeapID (CollectionAddress heapID) (ObjectIndex heapID) (u32 seqLen) in
      let! (ids, ghw, st) := writeHeapObjects objects ghw st in
      Ret (heapID :: ids, ghw, st)
  end.

(** Raw bytes to the dataset's space, or chunk by chunk. *)
Definition storeData (ds : Dataset) (fw : FileW St) (buf : bytes) : outcome (Dataset * FileW St) :=
  if isChunked (dsw ds) then
    let! (dw, st) := writeChunkedData (dsw ds) (OffsetSize (sblock fw)) buf (storage fw) in
    Ret (with_dsw ds dw, with_storage fw st)
  else
    let! st := write_to (storage fw) buf (dataAddress (dsw ds)) in
    Ret (ds, with_storage fw st).

Definition writeVLen (ds : Dataset) (fw : FileW St) (ghw : globalHeapWriter) (data : GoData)
    : outcome (Dataset * FileW St * globalHeapWriter) :=
  let elemCount := mulAll 1 (dims (dsw ds)) in
  if elemCount >=? 2 ^ 63 then Panic
  else
    let! objects := vlenObjects data in
    guard len objects =? elemCount else "data length doesn't match dataset size";;
    let! (heapIDs, ghw, st) := writeHeapObjects objects ghw (storage fw) in
    let! (ds, fw) := storeData ds (with_storage fw st) (concat (map EncodeHeapID heapIDs)) in
    Ret (ds, fw, ghw).

(** The switch of [Write] over the datatype class. *)
Definition encodeValues (c elemSize expectedSize : Z) (data : GoData) : outcome bytes :=
  if (c =? DatatypeFixed) || (c =? DatatypeReference) then encodeFixedPointData data elemSize expectedSize
  else if c =? DatatypeFloat then encodeFloatData data elemSize expectedSize
  else if c =? DatatypeString then encodeStringData data elemSize expectedSize
  else if c =? DatatypeOpaque then encodeOpaqueData data expectedSize
  else Err "unsupported datatype class for writing".

Definition Write (ds : Dataset) (fw : FileW St) (ghw : globalHeapWriter) (data : GoData)
    : outcome (Dataset * FileW St * globalHeapWriter) :=
  let expectedSize := dataSize (dsw ds) in
  if dsClass ds =? DatatypeVarLen then writeVLen ds fw ghw data
  else
    let! buf := encodeValues (dsClass ds) (dtypeSize (dsw ds)) expectedSize data in
    guard len buf =? expectedSize else "data size mismatch";;
    let! (ds, fw) := storeData ds fw buf in
    Ret (ds, fw, ghw).

Definition WriteRaw (ds : Dataset) (fw : FileW St) (data : bytes) : outcome (Dataset * FileW St) :=
  guard len data =? dataSize (dsw ds) else "data size mismatch";;
  storeData ds fw data.

(** ** Resizing *)

(** Every new dimension within its maximum; [maxDims] shorter than [newDims] panics. *)
Fixpoint checkResize (newDims maxDims : list Z) : outcome () :=
  match newDims with
  | [] => Ret tt
  | newDim :: newDims =>
      match maxDims with
      | [] => Panic
      | maxDim :: maxDims =>
          guard negb (negb (maxDim =? Unlimited) && (newDim >? maxDim)) else "dimension exceeds maxDims";;
          checkResize newDims maxDims
      end
  end.

(** The first dataspace message replaced by [data]; it must parse. *)
Fixpoint replaceDataspace (messages : list HeaderMessage) (data : bytes) : outcome (list HeaderMessage) :=
  match messages with
  | [] => Err "dataspace message not found in object header"
  | msg :: rest =>
      if mType msg =? MsgDataspace then
        let! _ := ParseDataspaceMessage (mData msg) in
        Ret (mkMsg (mType msg) (mOffset msg) data (FromContinuation msg) :: rest)
      else let! rest := replaceDataspace rest data in Ret (msg :: rest)
  end.

(** The dataspace is encoded only after the header's message is found and parsed. *)
Definition resizeHeader (oh : ObjectHeader) (newDims maxDims : list Z) : outcome ObjectHeader :=
  let! _ := replaceDataspace (hMessages oh) [] in
  let! newDataspaceData := EncodeDataspaceMessage newDims maxDims in
  let! messages := replaceDataspace (hMessages oh) newDataspaceData in
  Ret (mkHeader (hVersion oh) (hFlags oh) (hType oh) messages (hName oh) (ReferenceCount oh)).

(** [WriteObjectHeader] on any storage. *)
Definition storeObjectHeader (st : St) (addr : Z) (oh : ObjectHeader) : outcome St :=
  guard hVersion oh =? 2 else "only object header version 2 is supported for writing";;
  let! (_, st) := storeHeader (mkHeaderWriter (hVersion oh) (hFlags oh) (messagesOf oh) 0) st addr in
  Ret st.

(** The object header is read once and kept. [fuel] is for [ReadObjectHeader]. *)
Definition Resize (fuel : nat) (ds : Dataset) (fw : FileW St) (newDims : list Z) : outcome (Dataset * FileW St) :=
  let dw := dsw ds in
  guard isChunked dw else "resize requires chunked layout";;
  guard negb (len (dsMaxDims ds) =? 0) else "dataset not resizable (maxDims not set)";;
  guard len newDims =? len (dims dw) else "dimension count mismatch";;
  let! _ := checkResize newDims (dsMaxDims ds) in
  let! oh := (match dsHeader ds with
              | Some oh => Ret oh
              | None => ReadObjectHeader fuel (contents (storage fw)) (address dw) (sblock fw)
              end) in
  let! oh := resizeHeader oh newDims (dsMaxDims ds) in
  let! st := storeObjectHeader (storage fw) (address dw) oh in
  let dataSize := u64 (calculateTotalElements newDims * dtypeSize dw) in
  let! newCoordinator := NewChunkCoordinator newDims (dwChunkDims dw) in
  let dw := mkDatasetWriter (address dw) (dataAddress dw) dataSize (dtypeSize dw) newDims (isChunked dw) newCoordinator
    (dwChunkDims dw) (pipeline dw) (layoutBTreeOffset dw) (headerSize dw) in
  Ret (mkDs dw (dsName ds) (dsClass ds) (dsMaxDims ds) (Some oh), with_storage fw st).
End with_storage_write.

(** ** Closing: the global heap and the end of file *)

(** [Close] up to closing the file itself. *)
Definition finishFile (fw : FileW FileWriter) (ghw : globalHeapWriter) : outcome FileWriter :=
  let! st := Flush ghw (storage fw) in
  let finalEOF := fwEndOfFile st in
  storeSuperblock (sblock fw) st finalEOF.

Definition closeFile (fw : FileW FileWriter) (ghw : globalHeapWriter) : outcome FileWriter :=
  let! st := finishFile fw ghw in
  Ret (Close st).
