(* ===== verification/AttributeWrite.v ===== *)
(** * Writing attributes: attribute_write.go and
    internal/writer/dense_attribute_writer.go

    An object keeps up to eight attributes as messages of its header, in a
    continuation block once the header's space is used up, and moves them to
    dense storage (a fractal heap and a name index) with the ninth. *)

From S2P Require Import Prelude Allocator Storage Checksum Superblock Messages ObjectHeader Datatype Convert Overflow Groups DatasetWrite DenseStorage Attributes.
From S2P Require GlobalHeap BTreeV2 FractalHeap.
Import GlobalHeap (globalHeapWriter, WriteToGlobalHeap, Flush, EncodeHeapID, mkHeapID, CollectionAddress, ObjectIndex).
Import FractalHeap (sb_plain8, heap_at).

(** ** Values

    The argument [value interface{}] by its kind; floats are their bits,
    integers their value.  [OtherValue] is a value of any other kind, [OtherSlice] a slice
    of [n] elements of any other kind. *)

Inductive intKind := KInt8 | KInt16 | KInt32 | KInt64 | KUint8 | KUint16 | KUint32 | KUint64.

Inductive attrArg :=
| IntValue (k : intKind) (v : Z)
| Float32Value (bits : Z)
| Float64Value (bits : Z)
| StringValue (s : bytes)
| IntSlice (k : intKind) (vs : list Z)
| Float32Slice (bits : list Z)
| Float64Slice (bits : list Z)
| StringSlice (ss : list bytes)
| NilValue
| OtherValue
| OtherSlice (n : Z).

Definition kindSize (k : intKind) : Z :=
  match k with KInt8 | KUint8 => 1 | KInt16 | KUint16 => 2 | KInt32 | KUint32 => 4 | KInt64 | KUint64 => 8 end.
Definition kindSigned (k : intKind) : bool :=
  match k with KInt8 | KInt16 | KInt32 | KInt64 => true | _ => false end.

(** The message of class [c]; the version and properties are left zero. *)
Definition typeOf (c size bits : Z) : DatatypeMessage := mkDatatype c 0 size bits [].
Definition attrSpace (n : Z) : DataspaceMessage := mkDataspace 0 0 [n] [].

Definition intType (k : intKind) : DatatypeMessage := typeOf DatatypeFixed (kindSize k) (if kindSigned k then 8 else 0).

Definition inferSlice (dt : outcome DatatypeMessage) (n : Z) : outcome (DatatypeMessage * DataspaceMessage) :=
  guard negb (n =? 0) else "cannot infer datatype from empty slice";;
  let! dt := dt in
  Ret (dt, attrSpace n).

Definition inferDatatypeFromValue (value : attrArg) : outcome (DatatypeMessage * DataspaceMessage) :=
  match value with
  | NilValue => Err "value is nil or invalid"
  | IntValue k _ => Ret (intType k, attrSpace 1)
  | Float32Value _ => Ret (typeOf DatatypeFloat 4 0, attrSpace 1)
  | Float64Value _ => Ret (typeOf DatatypeFloat 8 0, attrSpace 1)
  | StringValue s => Ret (typeOf DatatypeString (u32 (len s + 1)) 0, attrSpace 1)
  | IntSlice k vs => inferSlice (Ret (intType k)) (len vs)
  | Float32Slice bs => inferSlice (Ret (typeOf DatatypeFloat 4 0)) (len bs)
  | Float64Slice bs => inferSlice (Ret (typeOf DatatypeFloat 8 0)) (len bs)
  | StringSlice ss => inferSlice (Err "unsupported slice element type") (len ss)
  | OtherSlice n => inferSlice (Err "unsupported slice element type") n
  | OtherValue => Err "unsupported value type"
  end.

(** [Float32bits(float32(v.Float()))]: the way through float64 makes a
    signalling NaN quiet. *)
Definition quietFloat32 (bits : Z) : Z :=
  if (Z.land bits 0x7F800000 =? 0x7F800000) && negb (Z.land bits 0x7FFFFF =? 0) then Z.lor bits 0x400000 else bits.

(** [buf] filled with the elements, each at its own offset. *)
Definition putAll (size : nat) (vs : list Z) : outcome bytes :=
  putFields (zeros (len vs * Z.of_nat size)) (imap (fun i v => (Z.of_nat i * Z.of_nat size, le_put size v)) vs).

Definition encodeSliceValue (value : attrArg) : outcome bytes :=
  match value with
  | IntSlice k vs => putAll (Z.to_nat (kindSize k)) vs
  | Float32Slice bs => putAll 4 (map quietFloat32 bs)
  | Float64Slice bs => putAll 8 bs
  | _ => Err "unsupported slice element type"
  end.

Definition encodeAttributeValue (value : attrArg) : outcome bytes :=
  match value with
  | IntValue k v => Ret (le_put (Z.to_nat (kindSize k)) v)
  | Float32Value b => Ret (le_put 4 (quietFloat32 b))
  | Float64Value b => Ret (le_put 8 b)
  | StringValue s => let! buf := copy_bytes (zeros (len s + 1)) 0 s in put_bytes buf (len s) [x00]
  | IntSlice _ _ | Float32Slice _ | Float64Slice _ | StringSlice _ | OtherSlice _ => encodeSliceValue value
  | NilValue | OtherValue => Err "unsupported value type for encoding"
  end.

Section values.
Context `{Storage St}.

(** The loop over the strings: each goes to the global heap, its identifier
    gets the length of the string. *)
Fixpoint writeStrings (ghw : globalHeapWriter) (st : St) (strings : list bytes) : outcome (list GlobalHeap.HeapID * globalHeapWriter * St) :=
  match strings with
  | [] => Ret ([], ghw, st)
  | str :: strings =>
      let! (heapID, ghw, st) := WriteToGlobalHeap ghw st str in
      let! (rest, ghw, st) := writeStrings ghw st strings in
      Ret (mkHeapID (CollectionAddress heapID) (ObjectIndex heapID) (u32 (len str)) :: rest, ghw, st)
  end.

Definition prepareVLenStringAttribute (ghw : globalHeapWriter) (st : St) (strings : list bytes)
    : outcome (DatatypeMessage * DataspaceMessage * bytes * globalHeapWriter * St) :=
  let! (heapIDs, ghw, st) := writeStrings ghw st strings in
  let! st := Flush ghw st in
  let! data := putFields (zeros (len strings * 16)) (imap (fun i hid => (Z.of_nat i * 16, EncodeHeapID hid)) heapIDs) in
  let! baseTypeMsg := EncodeDatatypeMessage (mkDatatype DatatypeString 1 1 0 []) in
  Ret (mkDatatype DatatypeVarLen 1 16 1 baseTypeMsg, attrSpace (len strings), data, ghw, st).

Definition inferAndEncodeAttributeValue (ghw : globalHeapWriter) (st : St) (value : attrArg)
    : outcome (DatatypeMessage * DataspaceMessage * bytes * globalHeapWriter * St) :=
  match value with
  | StringSlice strs =>
      guard negb (len strs =? 0) else "cannot write empty []string attribute (no elements)";;
      prepareVLenStringAttribute ghw st strs
  | _ =>
      let! (datatype, dataspace) := inferDatatypeFromValue value in
      let! data := encodeAttributeValue value in
      Ret (datatype, dataspace, data, ghw, st)
  end.
End values.

(** ** The dense attribute writer *)

(** The map of attributes by its names, which are all that is looked at. *)
Record DenseAttributeWriter := mkDAW {
  dawHeap : FractalHeap.WritableFractalHeap;
  dawTree : BTreeV2.WritableBTreeV2;
  dawNames : list bytes }.

Definition NewDenseAttributeWriter : DenseAttributeWriter :=
  mkDAW (FractalHeap.NewWritableFractalHeap (64 * 1024)) (BTreeV2.NewWritableBTreeV2 4096) [].

Section dense_writer.
(** The order in which a Go map of direct blocks is visited. *)
Context (order : FractalHeap.WritableFractalHeap -> list Z).

(** The writer, changed also by some of the additions that fail. *)
Definition AddAttribute (daw : DenseAttributeWriter) (attr : Attribute) (sb : Superblock) : DenseAttributeWriter * outcome () :=
  if bool_decide (aName attr = []) then (daw, Err "attribute name cannot be empty")
  else if bool_decide (aName attr ∈ dawNames daw) then (daw, Err "attribute already exists")
  else
    match EncodeAttributeFromStruct attr sb with
    | Ret attrMsg =>
        let '((h, t), r) := @insertDense _ (FractalHeap_writer order) _ _ (dawHeap daw) (dawTree daw) (aName attr) attrMsg in
        match r with
        | Ret _ => (mkDAW h t (aName attr :: dawNames daw), Ret tt)
        | r => (mkDAW h t (dawNames daw), r)
        end
    | Err e => (daw, Err e)
    | Panic => (daw, Panic)
    end.

(** The attributes in their order, up to the first that is refused. *)
Fixpoint addAttributes (daw : DenseAttributeWriter) (attrs : list Attribute) (sb : Superblock) : outcome DenseAttributeWriter :=
  match attrs with
  | [] => Ret daw
  | attr :: attrs =>
      let '(daw, r) := AddAttribute daw attr sb in
      let! _ := r in
      addAttributes daw attrs sb
  end.

Definition dawWriteToFile `{Storage St} (daw : DenseAttributeWriter) (st : St) (sb : Superblock) : outcome (AttributeInfoMessage * St) :=
  guard negb (len (dawNames daw) =? 0) else "no attributes to write";;
  let! (heapAddr, _, st) := FractalHeap.WriteToFile (dawHeap daw) st sb in
  let! (btreeAddr, _, st) := BTreeV2.WriteToFile (dawTree daw) st sb in
  Ret (mkAttrInfo 0 0 heapAddr btreeAddr 0 0, st).
End dense_writer.

(** ** The operations on a file

    [storage_end] is the allocator's [EndOfFile]. *)

Class StorageEnd (St : Type) := storage_end : St -> Z.

#[export] Instance FileWriter_end : StorageEnd FileWriter := fwEndOfFile.

Definition MaxCompactAttributes : Z := 8.

Section operations.
Context `{Storage St} `{StorageEnd St}.
(** The bound for [ReadObjectHeader], the order of map iterations, the clock of
    lazy rebalancing and [RebalancingEnabled]. *)
Context (fuel : nat) (order : FractalHeap.WritableFractalHeap -> list Z) (now : Z) (rebalance : bool).

Definition lookupHeaderAllocSize (fw : FileW St) (objectAddr : Z) : Z :=
  if objectAddr =? rootGroupAddr fw then rootHeaderAllocSz fw
  else match List.find (fun m => headerAddr m =? objectAddr) (map snd (map_to_list (groups fw))) with
       | Some meta => headerAllocSz meta
       | None => 0
       end.

Definition filterMainChunkMessages (messages : list HeaderMessage) : list HeaderMessage :=
  List.filter (fun msg => negb (mType msg =? MsgNil) && negb (FromContinuation msg)) messages.

(** Handing out the space up to [end_] when the file ends before it. *)
Definition advancePast (st : St) (end_ : Z) : outcome St :=
  if storage_end st <? end_ then let! (_, st) := allocate st (end_ - storage_end st) in Ret st else Ret st.

Definition writeOHDRWithBoundsCheck (fw : FileW St) (objectAddr : Z) (oh : ObjectHeader) : outcome (FileW St) :=
  let! st := storeObjectHeader (storage fw) objectAddr oh in
  let! newHeaderSize := ObjectHeaderSizeFromParsed oh in
  let! st := advancePast st (u64 (objectAddr + newHeaderSize)) in
  Ret (with_storage fw st).

(** [WriteContinuationChunkV2] on any storage. *)
Definition storeContinuationChunk (st : St) (address : Z) (messages : list MessageWriter) : outcome St :=
  let totalSize := u64 (4 + sumSizes sizeV2Msg messages + 4) in
  let! buf := putFields (zeros totalSize) [(0, ochk_sig)] in
  let! (buf, offset) := putMessages messages buf 4 in
  let! head := slice buf 0 offset in
  let! checksum := JenkinsChecksum head in
  let! buf := put_le 4 buf offset checksum in
  write_to st buf address.

(** ** Dense storage *)

(** Loading heap and index, changing them, and writing both back. *)
Definition editDense (fw : FileW St) (attrInfo : AttributeInfoMessage)
    (edit : FractalHeap.WritableFractalHeap -> BTreeV2.WritableBTreeV2 ->
            outcome (FractalHeap.WritableFractalHeap * BTreeV2.WritableBTreeV2)) : outcome (FileW St) :=
  let sb := sblock fw in
  let! heap := FractalHeap.LoadFromFile (FractalHeap.NewWritableFractalHeap (64 * 1024)) (contents (storage fw)) (aiFractalHeapAddr attrInfo) sb in
  let! btree := BTreeV2.LoadFromFile (BTreeV2.NewWritableBTreeV2 4096) (contents (storage fw)) (aiBTreeNameIndexAddr attrInfo) sb in
  let! (heap, btree) := edit heap btree in
  let! (_, st) := FractalHeap.WriteAt heap (storage fw) sb in
  let! (_, st) := BTreeV2.WriteAt btree st sb in
  Ret (with_storage fw st).

(** Modifying the attribute of the name, or inserting it. *)
Definition upsertDense (name attrMsg : bytes) (heap : FractalHeap.WritableFractalHeap) (btree : BTreeV2.WritableBTreeV2)
    : outcome (FractalHeap.WritableFractalHeap * BTreeV2.WritableBTreeV2) :=
  let! found := BTreeV2.SearchRecord btree name in
  match found with
  | Some _ => @ModifyDenseAttribute _ (FractalHeap_writer order) _ _ heap btree name attrMsg
  | None => let '(st, r) := @insertDense _ (FractalHeap_writer order) _ _ heap btree name attrMsg in let! _ := r in Ret st
  end.

(** The value is encoded after the heap and the index are loaded; a string
    slice changes the file then. *)
Definition writeDenseAttributeWithInfo (fw : FileW St) (ghw : globalHeapWriter) (attrInfo : AttributeInfoMessage) (name : bytes)
    (value : attrArg) : outcome (globalHeapWriter * FileW St) :=
  let sb := sblock fw in
  let! heap := FractalHeap.LoadFromFile (FractalHeap.NewWritableFractalHeap (64 * 1024)) (contents (storage fw)) (aiFractalHeapAddr attrInfo) sb in
  let! btree := BTreeV2.LoadFromFile (BTreeV2.NewWritableBTreeV2 4096) (contents (storage fw)) (aiBTreeNameIndexAddr attrInfo) sb in
  let! (datatype, dataspace, data, ghw, st) := inferAndEncodeAttributeValue ghw (storage fw) value in
  let! attrMsg := EncodeAttributeFromStruct (mkAttribute name (Some datatype) (Some dataspace) data None) sb in
  let! (heap, btree) := upsertDense name attrMsg heap btree in
  let! (_, st) := FractalHeap.WriteAt heap st sb in
  let! (_, st) := BTreeV2.WriteAt btree st sb in
  Ret (ghw, with_storage fw st).

(** The first attribute info message; here one that does not parse is an error. *)
Fixpoint findAttrInfo (messages : list HeaderMessage) (sb : Superblock) (missing : string) : outcome AttributeInfoMessage :=
  match messages with
  | [] => Err missing
  | msg :: messages =>
      if mType msg =? MsgAttributeInfo then ParseAttributeInfoMessage (mData msg) sb else findAttrInfo messages sb missing
  end.

Definition writeDenseAttribute (fw : FileW St) (ghw : globalHeapWriter) (oh : ObjectHeader) (name : bytes) (value : attrArg)
    : outcome (globalHeapWriter * FileW St) :=
  let! attrInfo := findAttrInfo (hMessages oh) (sblock fw) "attribute info message not found (dense storage not initialized)" in
  writeDenseAttributeWithInfo fw ghw attrInfo name value.

Definition deleteDenseAttributeImpl (fw : FileW St) (attrInfo : AttributeInfoMessage) (name : bytes) : outcome (FileW St) :=
  editDense fw attrInfo (fun heap btree => @DeleteDenseAttribute _ (FractalHeap_writer order) _ _ heap btree name rebalance now).

Definition deleteDenseAttributeFromHeader (fw : FileW St) (oh : ObjectHeader) (name : bytes) : outcome (FileW St) :=
  let! attrInfo := findAttrInfo (hMessages oh) (sblock fw) "attribute info message not found" in
  deleteDenseAttributeImpl fw attrInfo name.

(** ** From the header to dense storage *)

(** Every attribute message, of the header or of a continuation block; one that
    does not parse stops the transition. *)
Fixpoint collectAttributes (messages : list HeaderMessage) (e : ByteOrder) : outcome (list Attribute) :=
  match messages with
  | [] => Ret []
  | msg :: messages =>
      if mType msg =? MsgAttribute then
        let! attr := ParseAttributeMessage (mData msg) e in
        let! rest := collectAttributes messages e in
        Ret (attr :: rest)
      else collectAttributes messages e
  end.

(** The new attribute in the place of each of its name, or last. *)
Definition replaceOrAppend (attrs : list Attribute) (newAttr : Attribute) : list Attribute :=
  let replaced := map (fun a => if bool_decide (aName a = aName newAttr) then newAttr else a) attrs in
  if existsb (fun a => bool_decide (aName a = aName newAttr)) attrs then replaced else replaced ++ [newAttr].

Definition keptMessages (messages : list HeaderMessage) : list HeaderMessage :=
  List.filter (fun msg => negb (mType msg =? MsgAttribute) && negb (mType msg =? MsgContinuation) &&
                          negb (mType msg =? MsgNil) && negb (FromContinuation msg)) messages.

Definition transitionToDenseAttributes (fw : FileW St) (ghw : globalHeapWriter) (objectAddr : Z) (name : bytes) (value : attrArg)
    : outcome (globalHeapWriter * FileW St) :=
  let sb := sblock fw in
  let! oh := ReadObjectHeader fuel (contents (storage fw)) objectAddr sb in
  let! compactAttrs := collectAttributes (hMessages oh) (Endianness sb) in
  let! (datatype, dataspace, data, ghw, st) := inferAndEncodeAttributeValue ghw (storage fw) value in
  let newAttr := mkAttribute name (Some datatype) (Some dataspace) data None in
  let! daw := addAttributes order NewDenseAttributeWriter (replaceOrAppend compactAttrs newAttr) sb in
  let oh := withMessages oh (keptMessages (hMessages oh)) in
  let! tempAttrInfoMsg := EncodeAttributeInfoMessage (mkAttrInfo 0 0 0 0 0 0) sb in
  let ohWriter := mkHeaderWriter (hVersion oh) (hFlags oh) (messagesOf oh ++ [(MsgAttributeInfo, tempAttrInfoMsg)]) 0 in
  let! objectHeaderSize := Size_ ohWriter in
  let! st := advancePast st (u64 (objectAddr + objectHeaderSize)) in
  let! (attrInfo, st) := dawWriteToFile daw st sb in
  let! attrInfoMsg := EncodeAttributeInfoMessage attrInfo sb in
  let! oh := AddMessageToObjectHeader oh MsgAttributeInfo attrInfoMsg in
  let! st := storeObjectHeader st objectAddr oh in
  Ret (ghw, with_storage fw st).

(** ** Attributes in the header *)

(** [messages[:len(messages)-1]]. *)
Definition dropLast {A} (l : list A) : list A := take (length l - 1) l.

(** The header [oh] ends with the new attribute's message, which goes to a
    continuation block of its own.  When the continuation message does not fit
    either, the object moves to dense storage, encoding the value again. *)
Definition writeAttributeViaContinuation (fw : FileW St) (ghw : globalHeapWriter) (objectAddr : Z) (oh : ObjectHeader)
    (attrMsg name : bytes) (value : attrArg) (allocSize : Z) : outcome (globalHeapWriter * FileW St) :=
  let sb := sblock fw in
  let oh := withMessages oh (dropLast (hMessages oh)) in
  let ochkMessages := [(MsgAttribute, attrMsg)] in
  let ochkSize := ContinuationChunkSizeV2 ochkMessages in
  let! (ochkAddr, st) := allocate (storage fw) ochkSize in
  let! st := storeContinuationChunk st ochkAddr ochkMessages in
  let! contMsgData := EncodeContinuationMessage ochkAddr ochkSize sb in
  let! oh := AddMessageToObjectHeader oh MsgContinuation contMsgData in
  let! newSize := ObjectHeaderSizeFromParsed oh in
  let fw := with_storage fw st in
  if newSize >? allocSize then transitionToDenseAttributes fw ghw objectAddr name value
  else let! fw := writeOHDRWithBoundsCheck fw objectAddr oh in Ret (ghw, fw).

Definition writeCompactAttribute (fw : FileW St) (ghw : globalHeapWriter) (objectAddr : Z) (oh : ObjectHeader) (name : bytes)
    (value : attrArg) : outcome (globalHeapWriter * FileW St) :=
  let sb := sblock fw in
  let! (datatype, dataspace, data, ghw, st) := inferAndEncodeAttributeValue ghw (storage fw) value in
  let fw := with_storage fw st in
  let! found := findAttribute (hMessages oh) name (Endianness sb) 0 in
  let! attrMsg := EncodeAttributeFromStruct (mkAttribute name (Some datatype) (Some dataspace) data None) sb in
  match found with
  | Some (_, i) =>
      let! old := idx (hMessages oh) i in
      let! fw := writeOHDRWithBoundsCheck fw objectAddr (withMessages oh (<[Z.to_nat i := withData old attrMsg]> (hMessages oh))) in
      Ret (ghw, fw)
  | None =>
      let oh := withMessages oh (filterMainChunkMessages (hMessages oh)) in
      let! oh := AddMessageToObjectHeader oh MsgAttribute attrMsg in
      let allocSize := lookupHeaderAllocSize fw objectAddr in
      let! newSize := ObjectHeaderSizeFromParsed oh in
      if (allocSize >? 0) && (newSize >? allocSize) then
        writeAttributeViaContinuation fw ghw objectAddr oh attrMsg name value allocSize
      else let! fw := writeOHDRWithBoundsCheck fw objectAddr oh in Ret (ghw, fw)
  end.

(** ** Entry points *)

Definition countType (t : Z) (messages : list HeaderMessage) : Z := len (List.filter (fun m => mType m =? t) messages).

(** Attributes of the header and of continuation blocks count alike. *)
Definition writeAttribute (fw : FileW St) (ghw : globalHeapWriter) (objectAddr : Z) (name : bytes) (value : attrArg)
    : outcome (globalHeapWriter * FileW St) :=
  let! oh := ReadObjectHeader fuel (contents (storage fw)) objectAddr (sblock fw) in
  let totalCompactCount := countType MsgAttribute (hMessages oh) in
  let hasDenseStorage := existsb (fun m => mType m =? MsgAttributeInfo) (hMessages oh) in
  if hasDenseStorage then writeDenseAttribute fw ghw oh name value
  else if totalCompactCount <? MaxCompactAttributes then writeCompactAttribute fw ghw objectAddr oh name value
  else transitionToDenseAttributes fw ghw objectAddr name value.

(** With the attribute info of a dataset that was opened; without it the header
    is read again, so this is [writeAttribute]. *)
Definition writeAttributeWithCachedHeader (fw : FileW St) (ghw : globalHeapWriter) (objectAddr : Z) (denseAttrInfo : option AttributeInfoMessage)
    (name : bytes) (value : attrArg) : outcome (globalHeapWriter * FileW St) :=
  match denseAttrInfo with
  | Some attrInfo => writeDenseAttributeWithInfo fw ghw attrInfo name value
  | None =>
      let! freshOH := ReadObjectHeader fuel (contents (storage fw)) objectAddr (sblock fw) in
      if existsb (fun m => mType m =? MsgAttributeInfo) (hMessages freshOH) then writeDenseAttribute fw ghw freshOH name value
      else if countType MsgAttribute (hMessages freshOH) <? MaxCompactAttributes then writeCompactAttribute fw ghw objectAddr freshOH name value
      else transitionToDenseAttributes fw ghw objectAddr name value
  end.

(** The header that remains is also what the caller holds from then on. *)
Definition deleteCompactAttributeFromHeader (fw : FileW St) (objectAddr : Z) (oh : ObjectHeader) (name : bytes) : outcome (ObjectHeader * FileW St) :=
  let! found := findAttribute (hMessages oh) name (Endianness (sblock fw)) 0 in
  match found with
  | None => Err "attribute not found"
  | Some (_, msgIndex) =>
      let oh := withMessages oh (removeAt (hMessages oh) msgIndex) in
      let! st := storeObjectHeader (storage fw) objectAddr oh in
      Ret (oh, with_storage fw st)
  end.

Definition deleteAttribute (fw : FileW St) (objectAddr : Z) (name : bytes) : outcome (FileW St) :=
  let! oh := ReadObjectHeader fuel (contents (storage fw)) objectAddr (sblock fw) in
  if existsb (fun m => mType m =? MsgAttributeInfo) (hMessages oh) then deleteDenseAttributeFromHeader fw oh name
  else let! (_, fw) := deleteCompactAttributeFromHeader fw objectAddr oh name in Ret fw.

Definition deleteAttributeWithCachedHeader (fw : FileW St) (objectAddr : Z) (oh : ObjectHeader) (denseAttrInfo : option AttributeInfoMessage)
    (name : bytes) : outcome (ObjectHeader * FileW St) :=
  match denseAttrInfo with
  | Some attrInfo =>
      guard existsb (fun m => mType m =? MsgAttributeInfo) (hMessages oh) else "attribute info message not found in cached header";;
      let! fw := deleteDenseAttributeImpl fw attrInfo name in
      Ret (oh, fw)
  | None => deleteCompactAttributeFromHeader fw objectAddr oh name
  end.

(** The methods of a dataset with the header and attribute info it may hold. *)
Definition WriteAttribute (fw : FileW St) (ghw : globalHeapWriter) (addr : Z) (cached : option ObjectHeader) (info : option AttributeInfoMessage)
    (name : bytes) (value : attrArg) : outcome (globalHeapWriter * FileW St) :=
  match cached with
  | Some _ => writeAttributeWithCachedHeader fw ghw addr info name value
  | None => writeAttribute fw ghw addr name value
  end.

Definition DeleteAttribute (fw : FileW St) (addr : Z) (cached : option ObjectHeader) (info : option AttributeInfoMessage) (name : bytes)
    : outcome (option ObjectHeader * FileW St) :=
  match cached with
  | Some oh => let! (oh, fw) := deleteAttributeWithCachedHeader fw addr oh info name in Ret (Some oh, fw)
  | None => let! fw := deleteAttribute fw addr name in Ret (None, fw)
  end.

(** The index is loaded and rebalanced in memory; nothing is written. *)
Definition RebalanceAttributeBTree (fw : FileW St) (addr : Z) (cached : option ObjectHeader) (info : option AttributeInfoMessage) : outcome () :=
  let sb := sblock fw in
  let rebalanceAt (a : AttributeInfoMessage) :=
    let! btree := BTreeV2.LoadFromFile (BTreeV2.NewWritableBTreeV2 4096) (contents (storage fw)) (aiBTreeNameIndexAddr a) sb in
    let! _ := BTreeV2.RebalanceAll btree in Ret tt in
  match info, cached with
  | None, None => Ret tt
  | Some a, _ => rebalanceAt a
  | None, Some _ =>
      let! oh := ReadObjectHeader fuel (contents (storage fw)) addr sb in
      if existsb (fun m => mType m =? MsgAttributeInfo) (hMessages oh) then
        let! a := findAttrInfo (hMessages oh) sb "" in rebalanceAt a
      else Ret tt
  end.
End operations.

(** ** Encoded values *)

Lemma imap_snd {A B} (l : list B) : forall g : nat -> A, map snd (imap (fun i x => (g i, x)) l) = l.
Proof. induction l as [|x l IH]; intros g; [done|]. rewrite imap_cons. cbn [map snd]. f_equal. apply (IH (g ∘ S)). Qed.

Lemma imap_map {A B C} (f : B -> C) (l : list B) : forall g : nat -> A,
  imap (fun i x => (g i, f x)) l = imap (fun i y => (g i, y)) (map f l).
Proof. induction l as [|x l IH]; intros g; [done|]. cbn [map]. rewrite !imap_cons. f_equal. apply (IH (g ∘ S)). Qed.

(** Blocks of one size, each written at its own place, are their concatenation. *)
Lemma putFields_blocks k (bss : list bytes) : Forall (fun bs => len bs = k) bss ->
  putFields (zeros (len bss * k)) (imap (fun i bs => (Z.of_nat i * k, bs)) bss) = Ret (concat bss).
Proof.
  intros Hk. assert (Hc : forall n (l : list bytes), Forall (fun bs => len bs = k) l ->
    contiguous (Z.of_nat n * k) (imap (fun i bs => (Z.of_nat (n + i) * k, bs)) l)).
  { intros n l. revert n. induction l as [|b l IH]; intros n Hl; [exact I|]. apply Forall_cons in Hl as [Hb Hl].
    rewrite imap_cons. cbn [contiguous]. split; [by rewrite Nat.add_0_r|]. rewrite Hb.
    replace (Z.of_nat n * k + k) with (Z.of_nat (S n) * k) by lia.
    rewrite (imap_ext _ (fun i bs => (Z.of_nat (S n + i) * k, bs))); [by apply IH|]. intros i x _. cbn. f_equal. f_equal. lia. }
  pose proof (imap_snd bss (fun i => Z.of_nat i * k)) as Hs.
  destruct (concat_block bss k Hk) as [Hl _]. rewrite <- (app_nil_l (zeros _)).
  rewrite putFields_ret; [|exact (Hc 0%nat bss Hk)|rewrite Hs; lia].
  rewrite Hs, Hl, app_nil_l. replace (len bss * k - k * len bss) with 0 by lia. change (zeros 0) with (@nil byte). by rewrite app_nil_r.
Qed.

Lemma putAll_ret n vs : putAll n vs = Ret (intBytes n vs).
Proof.
  unfold putAll, intBytes. pose proof (putFields_blocks (Z.of_nat n) (map (le_put n) vs)) as Hp.
  rewrite len_map in Hp. rewrite <- Hp.
  - f_equal. apply (imap_map (le_put n) vs (fun i => Z.of_nat i * Z.of_nat n)).
  - apply Forall_map, Forall_true. intros v. apply len_le_put.
Qed.

(** The words of encoded data. *)
Lemma readWords_ret n vs size : size = Z.of_nat n -> 0 < size <= 8 -> len vs < 2 ^ 32 ->
  readWords (intBytes n vs) (len vs) size = Ret (map (fun v => v mod 256 ^ size) vs).
Proof.
  intros -> Hn Hl. pose proof (len_nonneg vs). unfold readWords. rewrite SafeMultiply_eq by (unfold is_u; lia).
  destruct (Z.ltb_spec (len vs * Z.of_nat n) (2 ^ 64)); [|nia]. cbn [obind]. rewrite len_intBytes.
  destruct (Z.gtb_spec (len vs * Z.of_nat n) (Z.of_nat n * len vs)); [lia|]. cbn [negb].
  replace (Z.to_nat (len vs)) with (length (map (fun v => v mod 256 ^ Z.of_nat n) vs)) by (rewrite length_map; unfold len; lia).
  apply convertElements_ok. intros j x Hj. rewrite Z.add_0_l. apply list_lookup_fmap_Some in Hj as (v & -> & Hj).
  pose proof (lookup_len _ _ _ Hj) as Hjl. unfold readWord. rewrite u64_id by (unfold is_u; nia). rewrite u64_id by (unfold is_u; nia).
  unfold intBytes. destruct (concat_block (map (le_put n) vs) (Z.of_nat n)) as [_ Hs]; [apply Forall_map, Forall_true; intros y; apply len_le_put|].
  rewrite (Hs j (le_put n v)) by (by rewrite list_lookup_fmap, Hj). cbn [obind]. f_equal. apply le_get_put.
Qed.

(** What [ReadValue] makes of an attribute's elements. *)
Definition present (n : Z) (es : elements) : attrValue := if n =? 1 then ScalarOf es else SliceOf es.

Definition one_dim (n : Z) : DataspaceMessage := mkDataspace 1 DataspaceSimple [n] [].

Definition elements_len (es : elements) : Z :=
  match es with Int32s l | Int64s l | Float32s l | Float64s l => len l | Strings l => len l end.

Lemma elements_head_one es : elements_len es = 1 -> elements_head es = Ret es.
Proof.
  assert (H1 : forall A (l : list A), len l = 1 -> exists x, l = [x]).
  { intros A [|x [|y l]] Hl; [done|by exists x|]. unfold len in Hl. cbn in Hl. lia. }
  destruct es as [l|l|l|l|l]; cbn [elements_len]; intros Hl; destruct (H1 _ _ Hl) as [x ->]; reflexivity.
Qed.

Lemma ReadValue_elements fuel f name dt dt' n data o r :
  same_kind dt dt' -> dtClass dt <> DatatypeOpaque -> 0 < n < 2 ^ 32 -> 0 < len data -> (forall es, r = Ret es -> elements_len es = n) ->
  readElements fuel f (mkAttribute name (Some dt) (Some (one_dim n)) data o) dt n = r ->
  ReadValue fuel f (mkAttribute name (Some dt') (Some (one_dim n)) data o) = let! es := r in Ret (present n es).
Proof.
  intros (E1 & E2 & E3) Ho Hn Hd Hes E. specialize (E3 Ho). unfold ReadValue. cbn [aDatatype aDataspace aData].
  assert (Et : TotalElements (one_dim n) = n).
  { change (TotalElements (one_dim n)) with (u64 (1 * n)). rewrite Z.mul_1_l. apply u64_id. unfold is_u. lia. }
  rewrite Et. destruct (Z.eqb_spec n 0); [lia|]. destruct (Z.eqb_spec (len data) 0); [lia|]. cbn [orb].
  replace (readElements fuel f _ dt' n) with (readElements fuel f (mkAttribute name (Some dt) (Some (one_dim n)) data o) dt n)
    by (unfold readElements, IsFixedString, GetStringPadding, IsVariableString; cbn [aData aOffsetSize]; by rewrite E1, E2, E3).
  rewrite E. destruct r as [es|e|]; cbn [obind]; [|done..]. specialize (Hes es eq_refl). unfold attrIsScalar, present. cbn [Dimensions one_dim]. change (len [n] =? 0) with false. cbn [orb].
  case_bool_decide as Hb.
  - injection Hb as Hb. destruct (Z.eqb_spec n 1); [|done]. rewrite elements_head_one by lia. reflexivity.
  - destruct (Z.eqb_spec n 1) as [->|]; done.
Qed.

(** Values of their Go type, not empty, of at most 64 MiB. *)
Definition value_ok (v : attrArg) : Prop :=
  match v with
  | IntValue k v => int_range (kindSigned k) (8 * kindSize k) v
  | IntSlice k vs => vs <> [] /\ kindSize k * len vs <= MaxAttributeSize /\ Forall (int_range (kindSigned k) (8 * kindSize k)) vs
  | Float32Value b => is_u 32 b
  | Float64Value b => is_u 64 b
  | Float32Slice bs => bs <> [] /\ 4 * len bs <= MaxAttributeSize /\ Forall (is_u 32) bs
  | Float64Slice bs => bs <> [] /\ 8 * len bs <= MaxAttributeSize /\ Forall (is_u 64) bs
  | StringValue s => len s < MaxAttributeSize
  | StringSlice _ | NilValue | OtherValue | OtherSlice _ => False
  end.

(** The elements a reader gets: unsigned integers as signed ones of the same
    bits, no integers of one or two bytes, a string up to its first NUL. *)
Definition intsRead (k : intKind) (vs : list Z) : outcome elements :=
  match k with
  | KInt32 => Ret (Int32s vs)
  | KUint32 => Ret (Int32s (map (signed 32) vs))
  | KInt64 => Ret (Int64s vs)
  | KUint64 => Ret (Int64s (map (signed 64) vs))
  | _ => Err "unsupported datatype class or size"
  end.

Definition valueRead (v : attrArg) : outcome attrValue :=
  match v with
  | IntValue k x => let! es := intsRead k [x] in Ret (ScalarOf es)
  | IntSlice k vs => let! es := intsRead k vs in Ret (present (len vs) es)
  | Float32Value b => Ret (ScalarOf (Float32s [quietFloat32 b]))
  | Float64Value b => Ret (ScalarOf (Float64s [b]))
  | Float32Slice bs => Ret (present (len bs) (Float32s (map quietFloat32 bs)))
  | Float64Slice bs => Ret (present (len bs) (Float64s bs))
  | StringValue s => Ret (ScalarOf (Strings [cstring s]))
  | StringSlice _ | NilValue | OtherValue | OtherSlice _ => Err "unsupported value type"
  end.

(** The message type, element count and data of a value. *)
Definition valueParts (v : attrArg) : DatatypeMessage * Z * bytes :=
  match v with
  | IntValue k x => (intType k, 1, intBytes (Z.to_nat (kindSize k)) [x])
  | IntSlice k vs => (intType k, len vs, intBytes (Z.to_nat (kindSize k)) vs)
  | Float32Value b => (typeOf DatatypeFloat 4 0, 1, intBytes 4 [quietFloat32 b])
  | Float64Value b => (typeOf DatatypeFloat 8 0, 1, intBytes 8 [b])
  | Float32Slice bs => (typeOf DatatypeFloat 4 0, len bs, intBytes 4 (map quietFloat32 bs))
  | Float64Slice bs => (typeOf DatatypeFloat 8 0, len bs, intBytes 8 bs)
  | StringValue s => (typeOf DatatypeString (len s + 1) 0, 1, s ++ [x00])
  | _ => (typeOf 0 0 0, 0, [])
  end.

Lemma intBytes_one n v : intBytes n [v] = le_put n v.
Proof. unfold intBytes. cbn [map concat]. apply app_nil_r. Qed.

Lemma inferAndEncode_ret `{Storage St} ghw (st : St) v : value_ok v ->
  inferAndEncodeAttributeValue ghw st v =
    Ret ((valueParts v).1.1, attrSpace (valueParts v).1.2, (valueParts v).2, ghw, st).
Proof.
  intros Hv. assert (Hne : forall A (l : list A), l <> [] -> (len l =? 0) = false).
  { intros A [|x l] Hl; [done|]. rewrite len_cons. pose proof (len_nonneg l). destruct (Z.eqb_spec (1 + len l) 0); [lia|done]. }
  destruct v as [k x|b|b|s|k vs|bs|bs|ss| | |n]; cbn [value_ok] in Hv; try done;
    unfold inferAndEncodeAttributeValue, inferDatatypeFromValue, inferSlice, encodeAttributeValue, encodeSliceValue, valueParts;
    cbn [fst snd obind]; rewrite ?intBytes_one; try done.
  - pose proof (len_nonneg s). unfold MaxAttributeSize in Hv. rewrite u32_id by (unfold is_u; lia).
    rewrite <- (app_nil_l (zeros _)). rewrite copy_bytes_cursor by (change (len (@nil byte)) with 0; lia). cbn [obind].
    rewrite put_bytes_cursor by (rewrite ?len_app; change (len [x00]) with 1; change (len (@nil byte)) with 0; lia). cbn [obind].
    change (len [x00]) with 1. replace (len s + 1 - len s - 1) with 0 by lia. change (zeros 0) with (@nil byte). by rewrite app_nil_r.
  - rewrite (Hne _ _ (proj1 Hv)). cbn [negb obind]. rewrite putAll_ret. reflexivity.
  - rewrite (Hne _ _ (proj1 Hv)). cbn [negb obind]. rewrite putAll_ret. reflexivity.
  - rewrite (Hne _ _ (proj1 Hv)). cbn [negb obind]. rewrite putAll_ret. reflexivity.
Qed.

Definition encodes (dt : DatatypeMessage) : Prop := exists b, EncodeDatatypeMessage dt = Ret b /\ len b <= 20.

Lemma parts_ok v name : value_ok v -> name <> [] -> len name <= 65534 ->
  attr_ok name (valueParts v).1.1 [(valueParts v).1.2] [] (valueParts v).2 /\ encodes (valueParts v).1.1 /\
  0 < (valueParts v).1.2 < 2 ^ 32 /\ 0 < len (valueParts v).2 /\ dtClass (valueParts v).1.1 <> DatatypeOpaque.
Proof.
  intros Hv Hn Hl. assert (Hint : forall k, (dt_wf (intType k) /\ len (Properties (intType k)) <= 65000) /\ encodes (intType k)).
  { intros k. split; [split; [|destruct k; vm_compute; congruence]|].
    - destruct k; unfold dt_wf, is_u; repeat split; vm_compute; congruence.
    - unfold encodes. destruct k; eexists; (split; [vm_compute; reflexivity|vm_compute; congruence]). }
  assert (Hfl : forall s, s = 4 \/ s = 8 -> (dt_wf (typeOf DatatypeFloat s 0) /\ len (Properties (typeOf DatatypeFloat s 0)) <= 65000) /\ encodes (typeOf DatatypeFloat s 0)).
  { intros s [-> | ->]; (split; [split; [unfold dt_wf, is_u; repeat split; vm_compute; congruence|vm_compute; congruence]|]);
      unfold encodes; eexists; (split; [vm_compute; reflexivity|vm_compute; congruence]). }
  assert (Hall : forall n t (d : bytes), (dt_wf t /\ len (Properties t) <= 65000) /\ encodes t -> 0 < n < 2 ^ 32 -> 0 < len d <= MaxAttributeSize ->
    dtClass t <> DatatypeOpaque -> attr_ok name t [n] [] d /\ encodes t /\ 0 < n < 2 ^ 32 /\ 0 < len d /\ dtClass t <> DatatypeOpaque).
  { intros n t d [Ht He] Hn32 Hd Ho. split; [|split; [done|split; [done|split; [lia|done]]]]. constructor; [by split|done| | |lia].
    - split; [unfold len; cbn; lia|]. constructor; [unfold is_u; lia|constructor].
    - split; [by left|constructor]. }
  assert (Hlen : forall A (l : list A), l <> [] -> 1 <= len l).
  { intros A [|x l] Hl'; [done|]. rewrite len_cons. pose proof (len_nonneg l). lia. }
  assert (Hks : forall k, 1 <= kindSize k <= 8) by (intros []; cbn; lia).
  destruct v as [k x|b|b|s|k vs|bs|bs|ss| | |n]; cbn [value_ok] in Hv; try done; cbn [valueParts fst snd]; apply Hall; try done;
    try (apply Hint); try (apply Hfl; lia); rewrite ?len_intBytes, ?len_map, ?Z2Nat.id by (pose proof (Hks k); lia);
    try (change (len [_]) with 1); unfold MaxAttributeSize in *.
  - pose proof (Hks k). lia.
  - pose proof (len_nonneg s). split; [split; [unfold dt_wf, is_u, typeOf; cbn [dtClass dtVersion ClassBitField dtSize]; change DatatypeString with 3; lia|vm_compute; congruence]|].
    unfold encodes, EncodeDatatypeMessage, encodeDatatypeString, typeOf. cbn [dtSize dtClass]. destruct (Z.eqb_spec (len s + 1) 0); [lia|]. cbn [negb].
    cbn [Z.eqb Pos.eqb orb]. change (DatatypeString =? DatatypeFixed) with false. change (DatatypeString =? DatatypeFloat) with false.
    cbn [orb]. change (DatatypeString =? DatatypeString) with true. cbn iota. eexists. split; [|].
    + pose proof (encodeMessage_ret (mkDatatype DatatypeString 1 (len s + 1) 0 []) [x00] 1 ltac:(vm_compute; congruence)) as E. exact E.
    + rewrite !len_app. vm_compute. congruence.
  - rewrite len_app. change (len [x00]) with 1. pose proof (len_nonneg s). lia.
  - destruct Hv as (Hv & H2 & _). pose proof (Hlen _ _ Hv). pose proof (Hks k). nia.
  - destruct Hv as (Hv & H2 & _). pose proof (Hlen _ _ Hv). pose proof (Hks k). nia.
  - destruct Hv as (Hv & H2 & _). pose proof (Hlen _ _ Hv). lia.
  - destruct Hv as (Hv & H2 & _). pose proof (Hlen _ _ Hv). lia.
  - destruct Hv as (Hv & H2 & _). pose proof (Hlen _ _ Hv). lia.
  - destruct Hv as (Hv & H2 & _). pose proof (Hlen _ _ Hv). lia.
Qed.

(** The elements of the parts. *)
Definition partsRead (v : attrArg) : outcome elements :=
  match v with
  | IntValue k x => intsRead k [x]
  | IntSlice k vs => intsRead k vs
  | Float32Value b => Ret (Float32s [quietFloat32 b])
  | Float64Value b => Ret (Float64s [b])
  | Float32Slice bs => Ret (Float32s (map quietFloat32 bs))
  | Float64Slice bs => Ret (Float64s bs)
  | StringValue s => Ret (Strings [cstring s])
  | _ => Err "unsupported value type"
  end.

Lemma quietFloat32_range b : is_u 32 b -> is_u 32 (quietFloat32 b).
Proof.
  intros Hb. unfold quietFloat32. destruct (_ && _); [|done]. unfold is_u in *. split; [apply Z.lor_nonneg; lia|].
  assert (0 <= Z.lor b 4194304) by (apply Z.lor_nonneg; lia).
  destruct (Z.eq_dec (Z.lor b 4194304) 0) as [->|]; [lia|]. apply Z.log2_lt_pow2; [lia|]. rewrite Z.log2_lor by lia.
  apply Z.max_lub_lt; [|vm_compute; reflexivity]. destruct (Z.eq_dec b 0) as [->|]; [vm_compute; reflexivity|]. apply Z.log2_lt_pow2; lia.
Qed.

Lemma map_mod_id w (l : list Z) : Forall (is_u w) l -> map (fun v => v mod 2 ^ w) l = l.
Proof. induction 1 as [|v l Hv _ IH]; [done|]. cbn [map]. rewrite IH, Z.mod_small by exact Hv. done. Qed.

Lemma cstring_nul s : cstring (s ++ [x00]) = cstring s.
Proof. induction s as [|b s IH]; [done|]. cbn [app cstring]. destruct (b2z b =? 0); [done|]. by rewrite IH. Qed.

Lemma readElements_ints fuel f name o k vs : Forall (int_range (kindSigned k) (8 * kindSize k)) vs -> len vs < 2 ^ 32 ->
  readElements fuel f (mkAttribute name (Some (intType k)) (Some (one_dim (len vs))) (intBytes (Z.to_nat (kindSize k)) vs) o) (intType k) (len vs) =
    intsRead k vs.
Proof.
  intros Hr Hl. unfold readElements, intType, typeOf. cbn [dtClass dtSize aData]. change (DatatypeFixed =? DatatypeFixed) with true. cbn iota.
  destruct k; cbn [kindSize kindSigned Z.eqb Pos.eqb intsRead]; try reflexivity;
    rewrite readWords_ret by (first [reflexivity | lia | exact Hl]); cbn [obind]; do 2 f_equal.
  - rewrite map_map. rewrite <- (map_id vs) at 2. apply map_ext_in. intros v Hv. apply (signed_wrap 32); [lia|].
    rewrite Forall_forall in Hr. apply (Hr v). by apply list_elem_of_In.
  - rewrite map_map. rewrite <- (map_id vs) at 2. apply map_ext_in. intros v Hv. apply (signed_wrap 64); [lia|].
    rewrite Forall_forall in Hr. apply (Hr v). by apply list_elem_of_In.
  - by rewrite (map_mod_id 32).
  - by rewrite (map_mod_id 64).
Qed.

Lemma readElements_floats fuel f name o (n : nat) bs : n = 4%nat \/ n = 8%nat -> Forall (is_u (8 * Z.of_nat n)) bs -> len bs < 2 ^ 32 ->
  readElements fuel f (mkAttribute name (Some (typeOf DatatypeFloat (Z.of_nat n) 0)) (Some (one_dim (len bs))) (intBytes n bs) o)
    (typeOf DatatypeFloat (Z.of_nat n) 0) (len bs) = Ret (if Z.of_nat n =? 4 then Float32s bs else Float64s bs).
Proof.
  intros Hn Hr Hl. unfold readElements, typeOf. cbn [dtClass dtSize aData]. change (DatatypeFloat =? DatatypeFixed) with false.
  change (DatatypeFloat =? DatatypeFloat) with true. cbn iota.
  destruct Hn as [-> | ->]; [change (Z.of_nat 4) with 4 in *|change (Z.of_nat 8) with 8 in *]; cbn [Z.eqb Pos.eqb];
    rewrite readWords_ret by (first [reflexivity | lia | exact Hl]); cbn [obind]; do 2 f_equal.
  - by apply (map_mod_id 32).
  - by apply (map_mod_id 64).
Qed.

Lemma readElements_parts fuel f name o v : value_ok v -> (valueParts v).1.2 < 2 ^ 32 ->
  readElements fuel f (mkAttribute name (Some (valueParts v).1.1) (Some (one_dim (valueParts v).1.2)) (valueParts v).2 o)
    (valueParts v).1.1 (valueParts v).1.2 = partsRead v.
Proof.
  intros Hv Hn. destruct v as [k x|b|b|s|k vs|bs|bs|ss| | |n]; cbn [value_ok] in Hv; try done; cbn [valueParts fst snd partsRead] in *.
  - apply (readElements_ints fuel f name o k [x]); [by constructor|unfold len; cbn; lia].
  - apply (readElements_floats fuel f name o 4 [quietFloat32 b]); [by left|constructor; [by apply quietFloat32_range|constructor]|unfold len; cbn; lia].
  - apply (readElements_floats fuel f name o 8 [b]); [by right|by constructor|unfold len; cbn; lia].
  - unfold readElements, typeOf. cbn [dtClass dtSize aData]. change (DatatypeString =? DatatypeFixed) with false.
    change (DatatypeString =? DatatypeFloat) with false. change (DatatypeString =? DatatypeString) with true. cbn iota.
    unfold IsFixedString. cbn [dtClass dtSize]. change (DatatypeString =? DatatypeString) with true. cbn [negb]. pose proof (len_nonneg s).
    destruct (Z.gtb_spec (len s + 1) 0); [|lia]. unfold makeStrings. change (1 >? 2 ^ 44) with false. cbn iota. cbn [obind].
    change (Z.to_nat 1) with 1%nat. cbn [convertElements]. unfold readString. change (u64 (0 * (len s + 1))) with 0.
    unfold MaxAttributeSize in Hv. rewrite Z.add_0_l, u64_id by (unfold is_u; lia).
    rewrite len_app. change (len [x00]) with 1. destruct (Z.gtb_spec (len s + 1) (len s + 1)); [lia|]. cbn [negb].
    rewrite (slice_at (s ++ [x00]) [] (s ++ [x00]) []) by (first [by rewrite app_nil_r | reflexivity | rewrite len_app; reflexivity]). cbn [obind].
    unfold GetStringPadding. cbn [ClassBitField]. change (Z.land 0 15) with 0. unfold decodeFixedString. cbn [Z.eqb]. by rewrite cstring_nul.
  - apply readElements_ints; [apply Hv|lia].
  - pose proof (readElements_floats fuel f name o 4 (map quietFloat32 bs)) as Hf. rewrite len_map in Hf. apply Hf; [by left| |lia].
    apply Forall_map. destruct Hv as (_ & _ & Hv). eapply Forall_impl; [exact Hv|]. intros x. apply quietFloat32_range.
  - apply (readElements_floats fuel f name o 8 bs); [by right|apply Hv|lia].
Qed.

Lemma partsRead_len v es : value_ok v -> partsRead v = Ret es -> elements_len es = (valueParts v).1.2.
Proof.
  intros Hv E. destruct v as [k x|b|b|s|k vs|bs|bs|ss| | |n]; cbn [value_ok] in Hv; try done; cbn [valueParts fst snd partsRead] in *;
    try (injection E as <-; cbn [elements_len]; rewrite ?len_map; reflexivity).
  - destruct k; cbn [intsRead] in E; try discriminate E; injection E as <-; reflexivity.
  - destruct k; cbn [intsRead] in E; try discriminate E; injection E as <-; cbn [elements_len]; by rewrite ?len_map.
Qed.

Lemma valueRead_parts v : value_ok v -> valueRead v = let! es := partsRead v in Ret (present (valueParts v).1.2 es).
Proof. intros Hv. destruct v; cbn [value_ok] in Hv; try done. Qed.

(** Reading the value of a message that was written. *)
Lemma value_read_back fuel f name v dt' o : value_ok v -> name <> [] -> len name <= 65534 -> same_kind (valueParts v).1.1 dt' ->
  ReadValue fuel f (mkAttribute name (Some dt') (Some (one_dim (valueParts v).1.2)) (valueParts v).2 o) = valueRead v.
Proof.
  intros Hv Hn Hl Hk. destruct (parts_ok v name Hv Hn Hl) as (_ & _ & Hr & Hd & Ho). rewrite valueRead_parts by done.
  apply (ReadValue_elements _ _ _ (valueParts v).1.1); try done.
  - intros es. by apply partsRead_len.
  - apply readElements_parts; [done|lia].
Qed.

(** The message of a value. *)
Lemma value_message name v sb : value_ok v -> name <> [] -> len name <= 65534 ->
  exists bs dt', EncodeAttributeFromStruct (mkAttribute name (Some (valueParts v).1.1) (Some (attrSpace (valueParts v).1.2)) (valueParts v).2 None) sb = Ret bs /\
    ParseAttributeMessage bs LittleEndian = Ret (mkAttribute name (Some dt') (Some (one_dim (valueParts v).1.2)) (valueParts v).2 None) /\
    same_kind (valueParts v).1.1 dt' /\ len bs <= 46 + len name + len (valueParts v).2 /\ 26 < len bs.
Proof.
  intros Hv Hn Hl. destruct (parts_ok v name Hv Hn Hl) as (Hok & (b & Eb & Hb) & Hr & Hd & Ho).
  destruct (attribute_reads_back name _ (attrSpace (valueParts v).1.2) _ b Hok Eb) as (bs & dt' & E1 & E2 & Hk & _ & El).
  exists bs, dt'. unfold EncodeAttributeFromStruct. cbn [aName aDatatype aDataspace aData]. rewrite bool_decide_false by done. cbn [negb].
  split; [exact E1|]. split; [exact E2|]. split; [exact Hk|]. change (len (Dimensions _)) with 1 in El. change (len (MaxDims _)) with 0 in El.
  pose proof (len_nonneg b). pose proof (len_nonneg name). assert (0 < len name) by (destruct name; [done|rewrite len_cons in *; pose proof (len_nonneg name); lia]). lia.
Qed.

(** ** String slices *)

Section vlen.
Context `{SL : StorageLaws St}.
Import GlobalHeap (gh_ok, started, recorded, space, current, cAddress, coll_ok).

Definition withLength (id : GlobalHeap.HeapID) (s : bytes) : GlobalHeap.HeapID :=
  mkHeapID (CollectionAddress id) (ObjectIndex id) (u32 (len s)).

Lemma writeStrings_ok ss : forall ghw st n flushed rest, gh_ok ghw st (space ss + n) flushed rest -> started ghw ->
  Forall (fun d : bytes => len d < 2 ^ 62) ss -> 0 <= n ->
  exists ids ghw' st' flushed', writeStrings ghw st ss = Ret (ids, ghw', st') /\ gh_ok ghw' st' n flushed' rest /\ started ghw' /\
    Forall2 (fun id d => recorded (flushed' ++ current ghw') (id, d)) ids ss /\
    (forall e, recorded (flushed ++ current ghw) e -> recorded (flushed' ++ current ghw') e) /\
    keeps (contents st) (contents st') rest.
Proof.
  induction ss as [|d ss IH]; intros ghw st n flushed rest Hg Hst Hlen Hn; cbn [writeStrings].
  - exists [], ghw, st, flushed. split_and!; [done|done|done|constructor|done|apply keeps_refl].
  - apply Forall_cons in Hlen as [Hd Hlen]. pose proof (GlobalHeap.space_nonneg ss).
    assert (Hg' : gh_ok ghw st (GlobalHeap.itemSpace d + (space ss + n)) flushed rest).
    { change (space (d :: ss)) with (GlobalHeap.itemSpace d + space ss) in Hg. by rewrite Z.add_assoc. }
    destruct (GlobalHeap.WriteToGlobalHeap_ok ghw st (space ss + n) flushed rest d) as (id & ghw1 & st1 & fl1 & -> & Hg1 & Hs1 & Hr1 & Hp1 & Hk1); [done|done|done|lia|].
    cbn [obind]. destruct (IH ghw1 st1 n fl1 rest Hg1 Hs1 Hlen Hn) as (ids & ghw2 & st2 & fl2 & -> & Hg2 & Hs2 & Hr2 & Hp2 & Hk2).
    cbn [obind]. exists (withLength id d :: ids), ghw2, st2, fl2. split_and!; [done|done|done| | |].
    + constructor; [|done]. apply Hp2 in Hr1. destruct Hr1 as (h & Hh & Ha & Ho). by exists h.
    + intros e He. by apply Hp2, Hp1.
    + eapply keeps_trans; [|exact Hk1|exact Hk2]. done.
Qed.

Lemma len_EncodeHeapID id : len (EncodeHeapID id) = 16.
Proof. reflexivity. Qed.

Lemma readVLen_ok fuel f hs ids ss : (300 <= fuel)%nat -> Forall coll_ok hs ->
  Forall (fun h => stored f (cAddress h) (GlobalHeap.collBytes h)) hs ->
  Forall (fun h => 0 < cAddress h /\ cAddress h < 2 ^ 63) hs -> Forall2 (fun id d => recorded hs (id, d)) ids ss ->
  len ss < 2 ^ 32 ->
  convertElements (length ss) 0 (readVLenElement fuel f 8 (concat (map EncodeHeapID ids))) = Ret (map (fun s => TrimRight s x00) ss).
Proof.
  intros Hfuel Hok Hs Ha Hrec Hl. rewrite <- (length_map (fun s => TrimRight s x00) ss).
  apply convertElements_ok. intros j x Hj. rewrite Z.add_0_l. apply list_lookup_fmap_Some in Hj as (s & -> & Hj).
  pose proof (lookup_len _ _ _ Hj) as Hjl. destruct (Forall2_lookup_r _ _ _ _ _ Hrec Hj) as (id & Hid & Hr).
  destruct (GlobalHeap.recorded_read hs f id s fuel Hok Hs) as (Hca & Hoi & gc & obj & E1 & E2 & E3); [|exact Hr|exact Hfuel|].
  { eapply Forall_impl; [exact Ha|]. intros h Hh. cbn in Hh. lia. }
  unfold readVLenElement. change (u64 (8 + 8)) with 16. rewrite (u64_id (Z.of_nat j * 16)) by (unfold is_u; lia).
  rewrite u64_id by (unfold is_u; lia).
  destruct (concat_block (map EncodeHeapID ids) 16) as [_ Hsl]; [apply Forall_map, Forall_true; intros y; apply len_EncodeHeapID|].
  rewrite (Hsl j (EncodeHeapID id)) by (by rewrite list_lookup_fmap, Hid). cbn [obind]. unfold readVariableLengthString.
  rewrite len_EncodeHeapID. change (16 <? 4 + 8 + 4) with false. cbn [negb].
  rewrite (slice_at (EncodeHeapID id) (take 4 (EncodeHeapID id)) (drop 4 (EncodeHeapID id)) []) by (first [by rewrite app_nil_r, take_drop | reflexivity]).
  cbn [obind]. rewrite GlobalHeap.HeapID_reference by done. cbn [obind GlobalHeap.refHeapAddress GlobalHeap.refObjectIndex].
  assert (CollectionAddress id <> 0).
  { destruct Hr as (h & Hh & Ea & _). cbn [fst] in Ea. rewrite Forall_forall in Ha. specialize (Ha h Hh). cbn in Ha. lia. }
  destruct (Z.eqb_spec (CollectionAddress id) 0); [done|]. rewrite E1. cbn [obind]. rewrite E2. cbn [obind]. by rewrite E3.
Qed.

(** The datatype of variable-length strings. *)
Definition vlenBase : bytes := match EncodeDatatypeMessage (mkDatatype DatatypeString 1 1 0 []) with Ret b => b | _ => [] end.
Definition vlenType : DatatypeMessage := mkDatatype DatatypeVarLen 1 16 1 vlenBase.

Lemma prepareVLen_ok ghw st n flushed rest ss : gh_ok ghw st (space ss + n) flushed rest -> started ghw ->
  Forall (fun d : bytes => len d < 2 ^ 62) ss -> 0 <= n ->
  exists ids ghw' st' flushed', prepareVLenStringAttribute ghw st ss =
      Ret (vlenType, attrSpace (len ss), concat (map EncodeHeapID ids), ghw', st') /\
    len ids = len ss /\ started ghw' /\ gh_ok ghw' st' n flushed' rest /\
    Forall (fun h => stored (contents st') (cAddress h) (GlobalHeap.collBytes h)) (flushed' ++ current ghw') /\
    Forall2 (fun id d => recorded (flushed' ++ current ghw') (id, d)) ids ss /\ keeps (contents st) (contents st') rest.
Proof.
  intros Hg Hst Hlen Hn.
  destruct (writeStrings_ok ss ghw st n flushed rest Hg Hst Hlen Hn) as (ids & ghw1 & st1 & fl & E1 & Hg1 & Hs1 & Hr & _ & Hk1).
  destruct (GlobalHeap.flush_ok _ _ _ _ _ Hg1) as (st2 & E2 & Hu2 & Eo2 & Hst2 & Hk2).
  assert (Hl : len ids = len ss) by (unfold len; by rewrite (Forall2_length _ _ _ Hr)).
  exists ids, ghw1, st2, fl. unfold prepareVLenStringAttribute. rewrite E1. cbn [obind]. unfold Flush. rewrite E2. cbn [obind].
  rewrite (imap_map EncodeHeapID ids (fun i => Z.of_nat i * 16)), <- Hl, <- (len_map EncodeHeapID ids).
  rewrite (putFields_blocks 16) by (apply Forall_map, Forall_true; intros y; apply len_EncodeHeapID). cbn [obind].
  rewrite len_map. split; [reflexivity|]. split; [done|]. split; [done|]. split.
  { destruct Hg1 as [H1 H2 H3 H4 H5]. constructor; [done|done|done|by rewrite Eo2|].
    apply Forall_app in Hst2 as [Hf _]. exact Hf. }
  split; [done|]. split; [done|]. by eapply keeps_trans; [|exact Hk1|exact Hk2].
Qed.
End vlen.

(** ** Properties *)

(** The strings of a value that go to the global heap. *)
Definition valueStrings (v : attrArg) : list bytes := match v with StringSlice ss => ss | _ => [] end.

Definition writable (v : attrArg) : Prop :=
  match v with
  | StringSlice ss => ss <> [] /\ 16 * len ss <= MaxAttributeSize /\ Forall (fun d : bytes => len d < 2 ^ 62) ss
  | v => value_ok v
  end.

(** Strings of a slice lose their trailing NULs. *)
Definition readBack (v : attrArg) : outcome attrValue :=
  match v with
  | StringSlice ss => Ret (present (len ss) (Strings (map (fun s => TrimRight s x00) ss)))
  | v => valueRead v
  end.

(** C11. Any value that can be written as an attribute is encoded into a message that
    parses to an attribute of the name, and the value read from it is the one
    written: 32- and 64-bit integers (unsigned ones with the sign of their
    bits), floats bit for bit (signalling float32 NaNs quieted), strings up to
    their first NUL, slices of strings through the global heap without trailing
    NULs, one-element slices as scalars; integers of one and two bytes are
    written but reading them is refused. *)
Theorem attribute_value_roundtrip `{SL : StorageLaws St} v name sb ghw st n flushed rest fuel
  (Hfirst : 0 < first_address) (Hv : writable v) (Hn : name <> [] /\ len name <= 65534) (H0 : 0 <= n)
  (Hg : GlobalHeap.gh_ok ghw st (GlobalHeap.space (valueStrings v) + n) flushed rest) (Hs : GlobalHeap.started ghw) (Hfuel : (300 <= fuel)%nat) :
  exists dt ds data ghw' st' bs attr, inferAndEncodeAttributeValue ghw st v = Ret (dt, ds, data, ghw', st') /\
    EncodeAttributeFromStruct (mkAttribute name (Some dt) (Some ds) data None) sb = Ret bs /\
    ParseAttributeMessage bs LittleEndian = Ret attr /\ aName attr = name /\
    ReadValue fuel (contents st') (withReader attr 8) = readBack v /\ keeps (contents st) (contents st') rest.
Proof.
  destruct Hn as [Hn1 Hn2]. assert (Hplain : value_ok v -> (valueStrings v = [] /\ readBack v = valueRead v)) by (destruct v; cbn; done).
  assert (Hcase : value_ok v \/ exists ss, v = StringSlice ss).
  { destruct v; cbn [writable] in Hv; try (by left). right. by eexists. }
  destruct Hcase as [Hok|[ss ->]].
  - destruct (Hplain Hok) as [_ ->]. destruct (value_message name v sb Hok Hn1 Hn2) as (bs & dt' & E1 & E2 & Hk & _).
    exists (valueParts v).1.1, (attrSpace (valueParts v).1.2), (valueParts v).2, ghw, st, bs,
      (mkAttribute name (Some dt') (Some (one_dim (valueParts v).1.2)) (valueParts v).2 None).
    split; [by apply inferAndEncode_ret|]. split; [exact E1|]. split; [exact E2|]. split; [done|]. split; [|apply keeps_refl].
    unfold withReader. cbn [aName aDatatype aDataspace aData]. by apply value_read_back.
  - cbn [writable valueStrings] in *. destruct Hv as (Hne & Hl & Hlen). unfold MaxAttributeSize in Hl. pose proof (len_nonneg ss).
    assert (0 < len ss) by (destruct ss; [done|rewrite len_cons in *; pose proof (len_nonneg ss); lia]).
    destruct (prepareVLen_ok ghw st n flushed rest ss Hg Hs Hlen H0) as (ids & ghw' & st' & fl & E1 & Eids & _ & Hg' & Hst & Hr & Hk).
    set (data := concat (map EncodeHeapID ids)) in *.
    assert (Hbl : Forall (fun bs => len bs = 16) (map EncodeHeapID ids)) by (apply Forall_map, Forall_true; intros y; apply len_EncodeHeapID).
    assert (Hd : len data = 16 * len ss) by (destruct (concat_block _ 16 Hbl) as [Hd _]; subst data; rewrite Hd, len_map, Eids; lia).
    assert (Hok : attr_ok name vlenType [len ss] [] data).
    { constructor; [by split| | | |unfold MaxAttributeSize; lia].
      - split; [unfold dt_wf, is_u; repeat split; vm_compute; congruence|vm_compute; congruence].
      - split; [change (len [len ss]) with 1; lia|]. constructor; [unfold is_u; lia|constructor].
      - split; [by left|constructor]. }
    destruct (attribute_reads_back name vlenType (attrSpace (len ss)) data
      (match EncodeDatatypeMessage vlenType with Ret b => b | _ => [] end) Hok ltac:(vm_compute; reflexivity)) as (bs & dt' & E2 & E3 & Hkind & Edt & _).
    rewrite (Edt eq_refl) in *.
    exists vlenType, (attrSpace (len ss)), data, ghw', st', bs, (mkAttribute name (Some vlenType) (Some (one_dim (len ss))) data None).
    split.
    { unfold inferAndEncodeAttributeValue. destruct (Z.eqb_spec (len ss) 0); [lia|]. cbn [negb]. exact E1. }
    split.
    { unfold EncodeAttributeFromStruct. cbn [aName aDatatype aDataspace aData]. rewrite bool_decide_false by done. exact E2. }
    split; [exact E3|]. split; [done|]. split; [|done]. unfold withReader, readBack. cbn [aName aDatatype aDataspace aData].
    assert (Hel : readElements fuel (contents st') (mkAttribute name (Some vlenType) (Some (one_dim (len ss))) data (Some 8)) vlenType (len ss) =
      Ret (Strings (map (fun s => TrimRight s x00) ss))).
    { unfold readElements. cbn [dtClass vlenType aOffsetSize aData]. change (DatatypeVarLen =? DatatypeFixed) with false.
      change (DatatypeVarLen =? DatatypeFloat) with false. change (DatatypeVarLen =? DatatypeString) with false.
      change (DatatypeVarLen =? DatatypeVarLen) with true. cbn iota. change (IsVariableString vlenType) with true. cbn iota.
      change (u64 (8 + 8)) with 16. rewrite SafeMultiply_eq by (unfold is_u; lia).
      destruct (Z.ltb_spec (len ss * 16) (2 ^ 64)); [|lia]. cbn [obind]. rewrite Hd.
      destruct (Z.gtb_spec (len ss * 16) (16 * len ss)); [lia|]. cbn [negb].
      replace (Z.to_nat (len ss)) with (length ss) by (unfold len; lia). subst data.
      rewrite (readVLen_ok fuel (contents st') (fl ++ GlobalHeap.current ghw') ids ss Hfuel); [reflexivity| | | |exact Hr|lia].
      - apply Hg'.
      - exact Hst.
      - apply Forall_forall. intros h Hh. destruct (GlobalHeap.gh_range _ _ _ _ _ _ Hg' Hh) as (Hr1 & Hr2 & Hr3). split; [|lia].
        assert (first_address <= GlobalHeap.cAddress h); [|lia].
        apply (owned_from _ _ (GlobalHeap.collBlock h) (GlobalHeap.gh_usable _ _ _ _ _ Hg')). rewrite (GlobalHeap.gh_own _ _ _ _ _ Hg').
        apply elem_of_app. left. by apply list_elem_of_fmap_2. }
    assert (Hels : forall es, Ret (Strings (map (fun s => TrimRight s x00) ss)) = Ret es -> elements_len es = len ss).
    { intros es Ees. injection Ees as <-. cbn [elements_len]. apply len_map. }
    rewrite (ReadValue_elements fuel (contents st') name vlenType vlenType (len ss) data (Some 8) _
      (conj eq_refl (conj eq_refl (fun _ => eq_refl))) ltac:(discriminate) ltac:(lia) ltac:(lia) Hels Hel). reflexivity.
Qed.

Definition demo_sb : Superblock := mkSuperblock 2 8 8 0 48 LittleEndian 0 0 0 0.
Definition demo_topics : list bytes := [String.list_byte_of_string "camera"; String.list_byte_of_string "lidar" ++ [x00]].

Lemma attribute_value_roundtrip_witness : exists dt ds data ghw' st' bs attr,
  inferAndEncodeAttributeValue GlobalHeap.newGlobalHeapWriter (NewFileWriter 48) (StringSlice demo_topics) = Ret (dt, ds, data, ghw', st') /\
  EncodeAttributeFromStruct (mkAttribute [x74] (Some dt) (Some ds) data None) demo_sb = Ret bs /\
  ParseAttributeMessage bs LittleEndian = Ret attr /\
  ReadValue 300 (contents st') (withReader attr 8) =
    Ret (SliceOf (Strings [String.list_byte_of_string "camera"; String.list_byte_of_string "lidar"])).
Proof.
  destruct (@attribute_value_roundtrip _ _ (FileWriter_laws 48) (StringSlice demo_topics) [x74] demo_sb GlobalHeap.newGlobalHeapWriter
    (NewFileWriter 48) 0 [] [] 300) as (dt & ds & data & ghw' & st' & bs & attr & E1 & E2 & E3 & _ & E4 & _).
  - cbn. lia.
  - cbn [writable]. split; [discriminate|]. split; [vm_compute; congruence|]. repeat constructor; vm_compute; reflexivity.
  - split; [discriminate|vm_compute; congruence].
  - lia.
  - constructor; [reflexivity|apply NewFileWriter_usable; vm_compute; congruence|constructor|reflexivity|constructor].
  - exact I.
  - apply le_n.
  - exists dt, ds, data, ghw', st', bs, attr. split; [exact E1|]. split; [exact E2|]. split; [exact E3|].
    rewrite E4. vm_compute. reflexivity.
Defined.

(** ** Dense attributes in a file *)

(** No two of the names are confused by the index. *)
Definition no_clash (names : list bytes) : Prop := forall a b, a ∈ names -> b ∈ names -> same_hash a b -> a = b.

Lemma dense_upsert order l h t m hr ir name d : dense_pair order l h t m hr ir ->
  (forall n, is_Some (m !! n) -> same_hash n name -> n = name) -> name <> [] -> 0 < len d <= 65536 -> len d <= hr -> 0 < ir ->
  exists h' t' hr' ir', upsertDense order name d h t = Ret (h', t') /\ dense_pair order l h' t' (<[name := d]> m) hr' ir' /\
    hr - len d <= hr' /\ ir - 1 <= ir'.
Proof.
  intros Hp Hc Hn Hd Hr Hi. unfold dense_pair in Hp.
  pose proof (@dense_search _ _ _ _ _ (BTreeV2_laws (dlTree l) (dlLeaf l)) h t m hr ir name Hp Hc) as Hs. unfold upsertDense.
  destruct (m !! name) as [old|] eqn:Em.
  - destruct Hs as (id & Es & _). cbn [bwSearchRecord BTreeV2_writer] in Es. rewrite Es. cbn [obind].
    destruct (@dense_modify _ _ _ _ _ (BTreeV2_laws (dlTree l) (dlLeaf l)) h t m hr ir name old d Hp Hc Em Hn Hd Hr) as (h' & t' & hr' & E & Hp' & Hhr).
    exists h', t', hr', ir. split; [exact E|]. split; [exact Hp'|]. lia.
  - cbn [bwSearchRecord BTreeV2_writer] in Hs. rewrite Hs. cbn [obind].
    destruct (@dense_insert _ _ _ _ _ (BTreeV2_laws (dlTree l) (dlLeaf l)) h t m hr ir name d Hp Hc Em Hd Hr Hi) as (h' & t' & E & Hp').
    exists h', t', (hr - len d), (ir - 1). rewrite E. split; [reflexivity|]. split; [exact Hp'|]. lia.
Qed.

(** The attribute message of a value, and the messages of a map of values. *)
Definition messageOf (name : bytes) (v : attrArg) : bytes :=
  match EncodeAttributeMessage name (Some (valueParts v).1.1) (Some (attrSpace (valueParts v).1.2)) (valueParts v).2 with
  | Ret bs => bs
  | _ => []
  end.

Definition messagesOfAttrs (A : gmap bytes attrArg) : gmap bytes bytes := map_imap (fun n v => Some (messageOf n v)) A.

(** A bound for the size of the message. *)
Definition messageSpace (name : bytes) (v : attrArg) : Z := 46 + len name + len (valueParts v).2.

Definition storable (name : bytes) (v : attrArg) : Prop :=
  value_ok v /\ name <> [] /\ len name <= 65534 /\ messageSpace name v <= 65536.

Lemma messageOf_ok name v sb : storable name v ->
  EncodeAttributeFromStruct (mkAttribute name (Some (valueParts v).1.1) (Some (attrSpace (valueParts v).1.2)) (valueParts v).2 None) sb = Ret (messageOf name v) /\
  0 < len (messageOf name v) <= messageSpace name v /\
  exists dt', ParseAttributeMessage (messageOf name v) LittleEndian = Ret (mkAttribute name (Some dt') (Some (one_dim (valueParts v).1.2)) (valueParts v).2 None) /\
    same_kind (valueParts v).1.1 dt'.
Proof.
  intros (Hv & Hn & Hl & Hs). destruct (value_message name v sb Hv Hn Hl) as (bs & dt' & E1 & E2 & Hk & Hlen & Hpos).
  assert (E : messageOf name v = bs).
  { unfold messageOf. unfold EncodeAttributeFromStruct in E1. cbn [aName aDatatype aDataspace aData] in E1.
    rewrite bool_decide_false in E1 by done. cbn [negb] in E1. by rewrite E1. }
  rewrite E. split; [exact E1|]. split; [unfold messageSpace; lia|]. by exists dt'.
Qed.

Section dense_attributes.
Context `{SL : StorageLaws St}.
Hypothesis Hfirst : 0 < first_address.
Context (order : FractalHeap.WritableFractalHeap -> list Z) (now : Z) (rebalance : bool).

(** The storage at [l] holds the attributes [A] of the object, with room for
    messages of [hr] bytes and [ir] names; [rest] are the other blocks. *)
Record attrs_at (fw : FileW St) (l : denseLoc) (A : gmap bytes attrArg) (n hr ir : Z) (rest : list block) : Prop := {
  aa_usable : usable (storage fw) n;
  aa_sb : sb_plain8 (sblock fw);
  aa_owned : owned (storage fw) ≡ₚ dense_blocks l ++ rest;
  aa_dense : exists hr' ir', hr <= hr' /\ ir <= ir' /\ dense_at (contents (storage fw)) (sblock fw) l (messagesOfAttrs A) hr' ir';
  aa_stored : map_Forall storable A }.

Definition infoOf (l : denseLoc) : AttributeInfoMessage := mkAttrInfo 0 0 (dlHeap l) (dlTree l) 0 0.

Lemma messages_insert A name v : messagesOfAttrs (<[name := v]> A) = <[name := messageOf name v]> (messagesOfAttrs A).
Proof. apply map_imap_insert_Some. done. Qed.

Lemma messages_delete A name : messagesOfAttrs (delete name A) = delete name (messagesOfAttrs A).
Proof. apply map_imap_delete. Qed.

Lemma messages_some A name : is_Some (messagesOfAttrs A !! name) <-> is_Some (A !! name).
Proof. unfold messagesOfAttrs. rewrite map_lookup_imap. destruct (A !! name); cbn; split; intros [y Hy]; (discriminate Hy || by eexists). Qed.

Lemma put_attribute fw ghw l A n hr ir rest name v : attrs_at fw l A n hr ir rest -> storable name v ->
  (forall k, is_Some (A !! k) -> same_hash k name -> k = name) -> messageSpace name v <= hr -> 0 < ir ->
  exists fw', writeDenseAttributeWithInfo order fw ghw (infoOf l) name v = Ret (ghw, fw') /\
    attrs_at fw' l (<[name := v]> A) n (hr - messageSpace name v) (ir - 1) rest /\
    preserves (contents (storage fw)) (contents (storage fw')) rest /\ fw' = with_storage fw (storage fw').
Proof.
  intros [Hu Hsb Ho (hr' & ir' & Hhr & Hir & Hd) Hst] Hv Hc Hsp Hpos.
  destruct (messageOf_ok name v (sblock fw) Hv) as (Em & Hlen & _). pose proof Hv as (Hvok & Hn & Hl & Hms).
  destruct (dense_load _ _ _ _ _ _ order Hd Hsb) as (h & t & Eh & Et & Hp).
  destruct (dense_upsert order l h t (messagesOfAttrs A) hr' ir' name (messageOf name v) Hp) as (h' & t' & hr2 & ir2 & Eu & Hp' & Hh2 & Hi2); [|done|lia|lia|lia|].
  { intros k Hk. apply Hc. by apply messages_some. }
  destruct (dense_WriteAt Hfirst order l h' t' _ hr2 ir2 (storage fw) n (sblock fw) rest Hp' Hu Hsb Ho)
    as (h2 & st1 & t2 & st2 & E1 & E2 & Hu2 & Eo2 & Hpr & Hd2).
  exists (with_storage fw st2). unfold writeDenseAttributeWithInfo, infoOf. cbn [aiFractalHeapAddr aiBTreeNameIndexAddr].
  change (64 * 1024) with denseHeapSize. change 4096 with denseNodeSize. rewrite Eh. cbn [obind]. rewrite Et. cbn [obind].
  rewrite inferAndEncode_ret by done. cbn [obind]. rewrite Em. cbn [obind]. rewrite Eu. cbn [obind]. rewrite E1. cbn [obind]. rewrite E2. cbn [obind].
  split; [reflexivity|]. split; [|split; [exact Hpr|reflexivity]]. constructor; cbn [storage sblock with_storage]; [exact Hu2|exact Hsb|by rewrite Eo2| |].
  - exists hr2, ir2. split; [lia|]. split; [lia|]. by rewrite messages_insert.
  - by apply map_Forall_insert_2.
Qed.

Lemma delete_attribute fw l A n hr ir rest name : attrs_at fw l A n hr ir rest -> name <> [] ->
  (forall k, is_Some (A !! k) -> same_hash k name -> k = name) -> is_Some (A !! name) ->
  exists fw', deleteDenseAttributeImpl order now rebalance fw (infoOf l) name = Ret fw' /\
    attrs_at fw' l (delete name A) n hr ir rest /\ preserves (contents (storage fw)) (contents (storage fw')) rest /\ fw' = with_storage fw (storage fw').
Proof.
  intros [Hu Hsb Ho (hr' & ir' & Hhr & Hir & Hd) Hst] Hn Hc Hs.
  destruct (dense_load _ _ _ _ _ _ order Hd Hsb) as (h & t & Eh & Et & Hp).
  apply messages_some in Hs as [old Eold].
  destruct (@dense_delete _ _ _ _ _ (BTreeV2_laws (dlTree l) (dlLeaf l)) h t (messagesOfAttrs A) hr' ir' name old rebalance now Hp) as (h' & t' & Ed & Hp');
    [intros k Hk; apply Hc; by apply messages_some|exact Eold|exact Hn|].
  destruct (dense_WriteAt Hfirst order l h' t' _ hr' (ir' + 1) (storage fw) n (sblock fw) rest Hp' Hu Hsb Ho)
    as (h2 & st1 & t2 & st2 & E1 & E2 & Hu2 & Eo2 & Hpr & Hd2).
  exists (with_storage fw st2). unfold deleteDenseAttributeImpl, editDense, infoOf. cbn [aiFractalHeapAddr aiBTreeNameIndexAddr].
  change (64 * 1024) with denseHeapSize. change 4096 with denseNodeSize. rewrite Eh. cbn [obind]. rewrite Et. cbn [obind].
  rewrite Ed. cbn [obind]. rewrite E1. cbn [obind]. rewrite E2. cbn [obind].
  split; [reflexivity|]. split; [|split; [exact Hpr|reflexivity]]. constructor; cbn [storage sblock with_storage]; [exact Hu2|exact Hsb|by rewrite Eo2| |].
  - exists hr', (ir' + 1). split; [lia|]. split; [lia|]. by rewrite messages_delete.
  - by apply map_Forall_delete.
Qed.

Lemma delete_missing fw l A n hr ir rest name : attrs_at fw l A n hr ir rest -> name <> [] ->
  (forall k, is_Some (A !! k) -> same_hash k name -> k = name) -> A !! name = None ->
  deleteDenseAttributeImpl order now rebalance fw (infoOf l) name = Err "attribute not found in dense storage".
Proof.
  intros [Hu Hsb Ho (hr' & ir' & Hhr & Hir & Hd) Hst] Hn Hc Hs.
  destruct (dense_load _ _ _ _ _ _ order Hd Hsb) as (h & t & Eh & Et & Hp).
  assert (Hm : messagesOfAttrs A !! name = None).
  { destruct (messagesOfAttrs A !! name) eqn:E; [|done]. assert (Hx : is_Some (A !! name)) by (apply messages_some; by rewrite E). rewrite Hs in Hx. by destruct Hx. }
  destruct (@dense_missing _ _ _ _ _ (BTreeV2_laws (dlTree l) (dlLeaf l)) h t (messagesOfAttrs A) hr' ir' name [] rebalance now Hp) as [_ Ed];
    [intros k Hk; apply Hc; by apply messages_some|exact Hm|exact Hn|].
  unfold deleteDenseAttributeImpl, editDense, infoOf. cbn [aiFractalHeapAddr aiBTreeNameIndexAddr].
  change (64 * 1024) with denseHeapSize. change 4096 with denseNodeSize. rewrite Eh. cbn [obind]. rewrite Et. cbn [obind]. by rewrite Ed.
Qed.

(** What a reader gets: each attribute once, in the order of the hashes of the
    names, with its value. *)
Definition read_as (f : bytes) (A : gmap bytes attrArg) (a : Attribute) (name : bytes) : Prop :=
  aName a = name /\ exists v, A !! name = Some v /\ forall fuel, ReadValue fuel f a = valueRead v.

Definition keys_of (A : gmap bytes attrArg) (names : list bytes) : Prop :=
  NoDup names /\ (forall n, n ∈ names <-> is_Some (A !! n)) /\ StronglySorted hash_before names.

Lemma read_attributes fw l A n hr ir rest : attrs_at fw l A n hr ir rest ->
  exists attrs names, readDenseAttributes (contents (storage fw)) (infoOf l) (sblock fw) = Ret attrs /\
    keys_of A names /\ Forall2 (read_as (contents (storage fw)) A) attrs names.
Proof.
  intros [Hu Hsb Ho (hr' & ir' & Hhr & Hir & Hd) Hst]. set (f := contents (storage fw)) in *. set (sb := sblock fw) in *.
  assert (Ha : first_address <= dlHeap l /\ first_address <= dlTree l).
  { split; [apply (owned_from _ _ (mkBlock (dlHeap l) 146) Hu)|apply (owned_from _ _ (mkBlock (dlTree l) 38) Hu)]; rewrite Ho; apply elem_of_app; left; [left|do 3 right; left]. }
  destruct (dense_at_reads _ _ _ _ _ _ Hd Hsb) as (th & ids & names & E1 & _ & E2 & (Hnd & Hdom & Hsort) & hh & E3 & Hf).
  assert (Hobj : exists attrs, readDenseObjects f ids sb hh = Ret attrs /\ Forall2 (read_as f A) attrs names).
  { clear E1 E2 Hnd Hdom Hsort. induction Hf as [|id nm ids names (o & k & d & Ep & Em & Er) _ (attrs & IH1 & IH2)]; [by exists []|].
    unfold messagesOfAttrs in Em. rewrite map_lookup_imap in Em. destruct (A !! nm) as [v|] eqn:Ev; [|done]. cbn in Em. injection Em as <-.
    pose proof (Hst nm v Ev) as Hok. destruct (messageOf_ok nm v sb Hok) as (_ & _ & dt' & Epar & Hk). destruct Hok as (Hv & Hn & Hl & _).
    cbn [readDenseObjects]. rewrite Ep. cbn [obind]. rewrite Er. cbn [obind]. rewrite (proj2 (proj2 Hsb)), Epar. cbn [obind]. rewrite IH1. cbn [obind].
    eexists. split; [reflexivity|]. constructor; [|done]. split; [done|]. exists v. split; [done|]. intros fuel.
    unfold withReader. cbn [aName aDatatype aDataspace aData]. by apply value_read_back. }
  destruct Hobj as (attrs & Ea & Hr). exists attrs, names. split; [|split; [|exact Hr]].
  - unfold readDenseAttributes, infoOf. cbn [aiFractalHeapAddr aiBTreeNameIndexAddr].
    destruct (Z.eqb_spec (dlHeap l) 0); [lia|]. destruct (Z.eqb_spec (dlTree l) 0); [lia|]. cbn [orb negb].
    rewrite E1. cbn [obind]. rewrite E2. cbn [obind]. destruct (Z.eqb_spec (len ids) 0) as [El|_].
    + apply len_0_nil in El. subst ids. cbn [readDenseObjects] in Ea. exact Ea.
    + rewrite E3. exact Ea.
  - split; [exact Hnd|]. split; [|exact Hsort]. intros k. rewrite Hdom. apply messages_some.
Qed.

(** Calls on the dense attributes of an object. *)
Inductive attrCall := PutAttr (name : bytes) (v : attrArg) | DelAttr (name : bytes).

Definition callName (c : attrCall) : bytes := match c with PutAttr n _ => n | DelAttr n => n end.
Definition callStorable (c : attrCall) : Prop := match c with PutAttr n v => storable n v | DelAttr n => n <> [] end.
Definition callRoom (c : attrCall) : Z := match c with PutAttr n v => messageSpace n v | DelAttr _ => 0 end.

Definition attr_call (fw : FileW St) (ghw : globalHeapWriter) (l : denseLoc) (c : attrCall) : outcome (FileW St) :=
  match c with
  | PutAttr name v => let! (_, fw) := writeDenseAttributeWithInfo order fw ghw (infoOf l) name v in Ret fw
  | DelAttr name => deleteDenseAttributeImpl order now rebalance fw (infoOf l) name
  end.

(** A call that fails leaves the file as it was. *)
Fixpoint attr_calls (fw : FileW St) (ghw : globalHeapWriter) (l : denseLoc) (cs : list attrCall) : list bool * FileW St :=
  match cs with
  | [] => ([], fw)
  | c :: cs =>
      match attr_call fw ghw l c with
      | Ret fw' => let '(rs, fw'') := attr_calls fw' ghw l cs in (true :: rs, fw'')
      | _ => let '(rs, fw'') := attr_calls fw ghw l cs in (false :: rs, fw'')
      end
  end.

(** The map of attributes they stand for; only deleting what is not there fails. *)
Fixpoint spec_calls (A : gmap bytes attrArg) (cs : list attrCall) : list bool * gmap bytes attrArg :=
  match cs with
  | [] => ([], A)
  | PutAttr n v :: cs => let '(rs, A') := spec_calls (<[n := v]> A) cs in (true :: rs, A')
  | DelAttr n :: cs => let '(rs, A') := spec_calls (delete n A) cs in (bool_decide (is_Some (A !! n)) :: rs, A')
  end.

Lemma keys_list (B : gmap bytes attrArg) k : k ∈ map fst (map_to_list B) <-> is_Some (B !! k).
Proof.
  rewrite list_elem_of_fmap. split.
  - intros ([k' v] & -> & Hin). apply elem_of_map_to_list in Hin. by exists v.
  - intros [v Hv]. exists (k, v). split; [done|]. by apply elem_of_map_to_list.
Qed.

Lemma attr_calls_ok ghw l rest cs : forall fw A n hr ir, attrs_at fw l A n hr ir rest ->
  no_clash (map fst (map_to_list A) ++ map callName cs) -> Forall callStorable cs ->
  fold_right (fun c r => callRoom c + r) 0 cs <= hr -> len cs <= ir ->
  exists fw', attr_calls fw ghw l cs = ((spec_calls A cs).1, fw') /\ (exists hr' ir', attrs_at fw' l (spec_calls A cs).2 n hr' ir' rest) /\
    preserves (contents (storage fw)) (contents (storage fw')) rest /\ sblock fw' = sblock fw.
Proof.
  induction cs as [|c cs IH]; intros fw A n hr ir Hat Hnc Hok Hhr Hir; cbn [attr_calls].
  { exists fw. split; [done|]. split; [by exists hr, ir|]. split; [apply preserves_refl|done]. }
  apply Forall_cons in Hok as [Hc Hok]. cbn [fold_right] in Hhr. rewrite len_cons in Hir. pose proof (len_nonneg cs).
  assert (Hrest : forall cs, Forall callStorable cs -> 0 <= fold_right (fun c r => callRoom c + r) 0 cs).
  { clear. induction 1 as [|c cs Hc _ IH]; cbn [fold_right]; [lia|]. destruct c as [nm v|nm]; cbn [callRoom]; [|lia].
    unfold messageSpace. pose proof (len_nonneg nm). pose proof (len_nonneg (valueParts v).2). lia. }
  specialize (Hrest cs Hok). pose proof keys_list as Hdom.
  assert (Hcl : forall k, is_Some (A !! k) -> same_hash k (callName c) -> k = callName c).
  { intros k Hk. apply Hnc; apply elem_of_app; [left; by apply Hdom|right; left]. }
  assert (Hnc' : forall B : gmap bytes attrArg, (forall k, is_Some (B !! k) -> is_Some (A !! k) \/ k = callName c) -> no_clash (map fst (map_to_list B) ++ map callName cs)).
  { intros B HB a b Ha Hb. assert (Hsub : forall x, x ∈ map fst (map_to_list B) ++ map callName cs -> x ∈ map fst (map_to_list A) ++ map callName (c :: cs)).
    { intros x [Hx|Hx]%elem_of_app; apply elem_of_app; [|right; by right]. apply Hdom, HB in Hx as [Hx| ->]; [left; by apply Hdom|right; left]. }
    apply Hnc; by apply Hsub. }
  destruct c as [nm v|nm]; cbn [callName callStorable callRoom attr_call spec_calls] in *.
  - destruct (put_attribute fw ghw l A n hr ir rest nm v Hat Hc Hcl ltac:(lia) ltac:(lia)) as (fw1 & E & Hat1 & Hp1 & Efw). rewrite E. cbn [obind].
    destruct (IH fw1 _ n _ _ Hat1) as (fw' & E' & Hat' & Hp' & Esb); [|done|lia|lia|].
    { apply Hnc'. intros k. rewrite lookup_insert. case_decide; [by right|by left]. }
    rewrite E'. destruct (spec_calls (<[nm := v]> A) cs) as [rs A']. cbn [fst snd] in *. exists fw'. split; [done|]. split; [done|]. split; [by eapply preserves_trans|]. by rewrite Esb, Efw.
  - case_bool_decide as Hs.
    + destruct (delete_attribute fw l A n hr ir rest nm Hat Hc Hcl Hs) as (fw1 & E & Hat1 & Hp1 & Efw). rewrite E.
      destruct (IH fw1 _ n _ _ Hat1) as (fw' & E' & Hat' & Hp' & Esb); [|done|lia|lia|].
      { apply Hnc'. intros k. rewrite lookup_delete. case_decide; [by intros []|by left]. }
      rewrite E'. destruct (spec_calls (delete nm A) cs) as [rs A']. cbn [fst snd] in *. exists fw'. split; [done|]. split; [done|]. split; [by eapply preserves_trans|]. by rewrite Esb, Efw.
    + assert (Hnone : A !! nm = None) by by apply eq_None_not_Some. rewrite (delete_missing fw l A n hr ir rest nm Hat Hc Hcl Hnone).
      rewrite delete_id by done. destruct (IH fw A n hr ir Hat) as (fw' & E' & Hat' & Hp'); [apply Hnc'; by left|done|lia|lia|].
      rewrite E'. destruct (spec_calls A cs) as [rs A']. cbn [fst snd] in *. exists fw'. by split.
Qed.
End dense_attributes.

(** The attribute a value makes. *)
Definition attrOf (name : bytes) (v : attrArg) : Attribute :=
  mkAttribute name (Some (valueParts v).1.1) (Some (attrSpace (valueParts v).1.2)) (valueParts v).2 None.

(** The writer holds the attributes [A]. *)
Definition daw_holds (order : FractalHeap.WritableFractalHeap -> list Z) (daw : DenseAttributeWriter) (A : gmap bytes attrArg) (hr ir : Z) : Prop :=
  (exists hr' ir', hr <= hr' /\ ir <= ir' /\ dense_pair order newLoc (dawHeap daw) (dawTree daw) (messagesOfAttrs A) hr' ir') /\
  (forall n, n ∈ dawNames daw <-> is_Some (A !! n)) /\ map_Forall storable A.

Lemma daw_new order : daw_holds order NewDenseAttributeWriter ∅ 65517 371.
Proof.
  split; [|split; [|apply map_Forall_empty]].
  - exists 65517, 371. split; [lia|]. split; [lia|]. apply dense_new.
  - intros n. rewrite lookup_empty. split; [by intros ?%elem_of_nil|by intros []].
Qed.

(** An attribute that encodes to the message of a value is added as that value. *)
Lemma AddAttribute_ok order daw A hr ir attr name v sb : daw_holds order daw A hr ir -> storable name v -> aName attr = name ->
  EncodeAttributeFromStruct attr sb = Ret (messageOf name v) -> A !! name = None ->
  (forall k, is_Some (A !! k) -> same_hash k name -> k = name) -> messageSpace name v <= hr -> 0 < ir ->
  exists daw', AddAttribute order daw attr sb = (daw', Ret tt) /\ daw_holds order daw' (<[name := v]> A) (hr - messageSpace name v) (ir - 1).
Proof.
  intros [(hr' & ir' & Hhr & Hir & Hp) [Hdom Hst]] Hv <- Em Hnone Hc Hsp Hpos.
  destruct (messageOf_ok (aName attr) v sb Hv) as (_ & Hlen & _). pose proof Hv as (_ & Hn & _ & Hms).
  assert (Hm : messagesOfAttrs A !! aName attr = None).
  { destruct (messagesOfAttrs A !! aName attr) eqn:E; [|done]. assert (Hx : is_Some (A !! aName attr)) by (apply messages_some; by rewrite E).
    rewrite Hnone in Hx. by destruct Hx. }
  destruct (@dense_insert _ _ (FractalHeap_laws order 0 0) _ _ (BTreeV2_laws 0 0) (dawHeap daw) (dawTree daw) (messagesOfAttrs A) hr' ir' (aName attr) (messageOf (aName attr) v) Hp)
    as (h' & t' & E & Hp'); [intros k Hk; apply Hc; by apply messages_some|exact Hm|lia|lia|lia|].
  exists (mkDAW h' t' (aName attr :: dawNames daw)). unfold AddAttribute. rewrite bool_decide_false by exact Hn.
  rewrite bool_decide_false by (rewrite Hdom, Hnone; by intros []). rewrite Em, E. split; [reflexivity|].
  split; [|split; [|by apply map_Forall_insert_2]].
  - exists (hr' - len (messageOf (aName attr) v)), (ir' - 1). split; [lia|]. split; [lia|]. rewrite messages_insert. exact Hp'.
  - intros k. cbn [dawNames]. rewrite elem_of_cons, Hdom, lookup_insert. case_decide as Hcd; [|naive_solver].
    split; [by eexists|]. intros _. by left.
Qed.

Definition listSpace (l : list (bytes * attrArg)) : Z := fold_right (fun e r => messageSpace e.1 e.2 + r) 0 l.

(** Attributes that encode to the messages of the values [l] of distinct names. *)
Lemma addAttributes_ok order sb l : forall attrs daw A hr ir, daw_holds order daw A hr ir ->
  Forall2 (fun a e => aName a = e.1 /\ EncodeAttributeFromStruct a sb = Ret (messageOf e.1 e.2)) attrs l ->
  Forall (fun e => storable e.1 e.2) l -> NoDup l.*1 -> (forall n, n ∈ l.*1 -> A !! n = None) ->
  no_clash (map fst (map_to_list A) ++ l.*1) -> listSpace l <= hr -> len l <= ir ->
  exists daw', addAttributes order daw attrs sb = Ret daw' /\
    daw_holds order daw' (list_to_map l ∪ A) (hr - listSpace l) (ir - len l) /\ len (dawNames daw') = len (dawNames daw) + len l.
Proof.
  induction l as [|[nm v] l IH]; intros attrs daw A hr ir Hd Hf Hst Hnd Hnew Hnc Hhr Hir.
  - inversion Hf; subst. exists daw. cbn [addAttributes listSpace fold_right list_to_map foldr]. rewrite map_empty_union, !Z.sub_0_r.
    change (len (@nil (bytes * attrArg))) with 0. by rewrite Z.add_0_r.
  - apply Forall2_cons_inv_r in Hf as (a & attrs' & [Ha Ea] & Hf & ->). apply Forall_cons in Hst as [Hv Hst]. cbn [fst snd] in *.
    rewrite fmap_cons in Hnd, Hnew, Hnc. cbn [fst] in Hnd, Hnew, Hnc. apply NoDup_cons in Hnd as [Hni Hnd].
    unfold listSpace in Hhr. cbn [fold_right fst snd] in Hhr. fold (listSpace l) in Hhr. rewrite len_cons in Hir. pose proof (len_nonneg l).
    assert (Hls : 0 <= listSpace l).
    { clear. induction l as [|[n v] l IH]; [cbn; lia|]. unfold listSpace in *. cbn [fold_right fst snd]. unfold messageSpace at 1.
      pose proof (len_nonneg n). pose proof (len_nonneg (valueParts v).2). lia. }
    destruct (AddAttribute_ok order daw A hr ir a nm v sb Hd Hv Ha Ea) as (daw1 & E1 & Hd1); [apply Hnew; left| |lia|lia|].
    { intros k Hk. apply Hnc; apply elem_of_app; [left; by apply keys_list|right; left]. }
    destruct (IH attrs' daw1 _ _ _ Hd1 Hf Hst Hnd) as (daw2 & E2 & Hd2 & Hl2); [| |lia|lia|].
    { intros k Hk. rewrite lookup_insert_ne by (intros <-; done). apply Hnew. by right. }
    { intros x y Hx Hy. assert (Hsub : forall z, z ∈ map fst (map_to_list (<[nm := v]> A)) ++ l.*1 -> z ∈ map fst (map_to_list A) ++ nm :: l.*1).
      { intros z [Hz|Hz]%elem_of_app; apply elem_of_app; [|right; by right]. apply keys_list in Hz. rewrite lookup_insert in Hz.
        case_decide as Hcd; [subst; right; left|left; by apply keys_list]. }
      apply Hnc; by apply Hsub. }
    exists daw2. cbn [addAttributes]. rewrite E1. cbn [obind]. split; [exact E2|]. split.
    + cbn [list_to_map foldr]. rewrite <- insert_union_l. rewrite <- insert_union_r in Hd2.
      * unfold listSpace. cbn [fold_right fst snd]. fold (listSpace l). rewrite len_cons.
        replace (hr - (messageSpace nm v + listSpace l)) with (hr - messageSpace nm v - listSpace l) by lia.
        replace (ir - (1 + len l)) with (ir - 1 - len l) by lia. exact Hd2.
      * by apply not_elem_of_list_to_map_1.
    + unfold AddAttribute in E1. destruct (bool_decide _); [discriminate E1|]. destruct (bool_decide _); [discriminate E1|].
      rewrite Ea in E1. destruct (insertDense _ _ _ _) as [[h t] [u|e|]]; [|discriminate E1..]. injection E1 as <-.
      cbn [dawNames] in Hl2. rewrite len_cons in Hl2. rewrite len_cons. lia.
Qed.

Section creating.
Context `{SL : StorageLaws St}.
Hypothesis Hfirst : 0 < first_address.

Lemma dawWriteToFile_ok order daw A hr ir st n fw : daw_holds order daw A hr ir -> usable st n -> sb_plain8 (sblock fw) -> 70000 <= n ->
  dawNames daw <> [] ->
  exists l st', dawWriteToFile daw st (sblock fw) = Ret (infoOf l, st') /\ owned st' = owned st ++ dense_blocks l /\
    attrs_at (with_storage fw st') l A (n - 70000) hr ir (owned st) /\ preserves (contents st) (contents st') (owned st).
Proof.
  intros [(hr' & ir' & Hhr & Hir & Hp) [Hdom Hst]] Hu Hsb Hn Hne.
  destruct (dense_WriteToFile Hfirst order newLoc _ _ _ hr' ir' st n (sblock fw) Hp Hu Hsb Hn) as (l & h' & st1 & t' & st2 & E1 & E2 & Hu2 & Eo2 & Hpr & Hd).
  exists l, st2. unfold dawWriteToFile. destruct (Z.eqb_spec (len (dawNames daw)) 0) as [Hz|_]; [by apply len_0_nil in Hz|]. cbn [negb].
  rewrite E1. cbn [obind]. rewrite E2. cbn [obind]. split; [reflexivity|]. split; [exact Eo2|]. split; [|exact Hpr].
  constructor; cbn [storage sblock with_storage]; [exact Hu2|exact Hsb| |by exists hr', ir'|exact Hst].
  rewrite Eo2. by rewrite Permutation_app_comm.
Qed.
End creating.

(** C10. Dense attributes are a map, for values kept in their messages:
    integers, floats, strings and non-empty slices of integers or of floats, in
    the range of their Go type; not for slices of strings, which go to the
    global heap, nor for what the encoder refuses (nil, empty slices, other
    types). Names have 1 to 65534 bytes, messages (46 bytes, name and data) at
    most 65536. With 8-byte little-endian fields, storage made for a non-empty
    list of such attributes of distinct names, then changed by any calls that
    write such attributes or delete attributes (within 65517 bytes of heap, 371
    index records and distinct name hashes), answers as a map from names to
    values: only deleting a name that is not there fails. A reader of the file
    then gets every attribute once, in the order of the name hashes, each with
    what it makes of the value written last (unsigned integers as signed, an
    error for 8 and 16 bits, strings up to a NUL); every other block keeps its
    contents. *)
Theorem dense_attributes_refine `{SL : StorageLaws St} (order : FractalHeap.WritableFractalHeap -> list Z) (now : Z) (rebalance : bool)
  (fw : FileW St) (ghw : globalHeapWriter) (l : list (bytes * attrArg)) (cs : list attrCall) (n : Z)
  (Hfirst : 0 < first_address) (Hu : usable (storage fw) n) (Hsb : sb_plain8 (sblock fw)) (Hn : 70000 <= n)
  (Hl : l <> []) (Hst : Forall (fun e => storable e.1 e.2) l) (Hnd : NoDup l.*1) (Hcs : Forall callStorable cs)
  (Hnc : no_clash (l.*1 ++ map callName cs))
  (Hspace : listSpace l + fold_right (fun c r => callRoom c + r) 0 cs <= 65517) (Hcount : len l + len cs <= 371)
  (A0 := list_to_map l : gmap bytes attrArg) (A := (spec_calls A0 cs).2) :
  exists daw loc st1 fw' attrs names,
    addAttributes order NewDenseAttributeWriter (map (fun e => attrOf e.1 e.2) l) (sblock fw) = Ret daw /\
    dawWriteToFile daw (storage fw) (sblock fw) = Ret (infoOf loc, st1) /\
    attr_calls order now rebalance (with_storage fw st1) ghw loc cs = ((spec_calls A0 cs).1, fw') /\
    readDenseAttributes (contents (storage fw')) (infoOf loc) (sblock fw) = Ret attrs /\
    keys_of A names /\ Forall2 (read_as (contents (storage fw')) A) attrs names /\
    preserves (contents (storage fw)) (contents (storage fw')) (owned (storage fw)).
Proof.
  assert (Hroom : forall cs, Forall callStorable cs -> 0 <= fold_right (fun c r => callRoom c + r) 0 cs).
  { clear. induction 1 as [|c cs Hc _ IH]; cbn [fold_right]; [lia|]. destruct c as [nm v|nm]; cbn [callRoom]; [|lia].
    unfold messageSpace. pose proof (len_nonneg nm). pose proof (len_nonneg (valueParts v).2). lia. }
  pose proof (Hroom cs Hcs). pose proof (len_nonneg cs).
  destruct (addAttributes_ok order (sblock fw) l (map (fun e => attrOf e.1 e.2) l) NewDenseAttributeWriter ∅ 65517 371 (daw_new order)) as (daw & E1 & Hd & Hlen).
  - clear - Hst. induction Hst as [|e l He _ IH]; cbn [map]; constructor; [|done]. split; [done|]. by apply messageOf_ok.
  - exact Hst.
  - exact Hnd.
  - intros k _. apply lookup_empty.
  - rewrite map_to_list_empty. cbn [map app]. intros a b Ha Hb. apply Hnc; by apply elem_of_app; left.
  - lia.
  - lia.
  - rewrite map_union_empty in Hd. fold A0 in Hd.
    destruct (dawWriteToFile_ok Hfirst order daw A0 _ _ (storage fw) n fw Hd Hu Hsb Hn) as (loc & st1 & E2 & _ & Hat & Hp1).
    { intros En. rewrite En in Hlen. change (len []) with 0 in Hlen. destruct l; [done|]. rewrite len_cons in Hlen. pose proof (len_nonneg l). cbn [dawNames NewDenseAttributeWriter] in Hlen. change (len (@nil bytes)) with 0 in Hlen. lia. }
    destruct (attr_calls_ok Hfirst order now rebalance ghw loc (owned (storage fw)) cs (with_storage fw st1) A0 _ _ _ Hat) as (fw' & E3 & (hr' & ir' & Hat') & Hp2 & Esb);
      [|exact Hcs|lia|lia|].
    { intros a b Ha Hb. assert (Hsub : forall z, z ∈ map fst (map_to_list A0) ++ map callName cs -> z ∈ l.*1 ++ map callName cs).
      { intros z [Hz|Hz]%elem_of_app; apply elem_of_app; [left|by right]. apply keys_list in Hz as [v Hv].
        apply elem_of_list_to_map_2 in Hv. apply list_elem_of_fmap. by exists (z, v). }
      apply Hnc; by apply Hsub. }
    destruct (read_attributes Hfirst fw' loc _ _ _ _ _ Hat') as (attrs & names & E4 & Hk & Hf).
    rewrite Esb in E4. exists daw, loc, st1, fw', attrs, names. split; [exact E1|]. split; [exact E2|]. split; [exact E3|]. split; [exact E4|].
    split; [exact Hk|]. split; [exact Hf|]. by eapply preserves_trans.
Qed.

Definition demo_fw : FileW FileWriter := mkFW (NewFileWriter 48) demo_sb 0 0 0 0 0 ∅.
Definition alpha : bytes := String.list_byte_of_string "alpha".
Definition beta : bytes := String.list_byte_of_string "beta".
Definition demo_list : list (bytes * attrArg) := [(alpha, IntValue KInt32 7); (beta, StringValue [x79])].
Definition demo_edits : list attrCall := [PutAttr alpha (IntValue KInt32 (-9)); DelAttr beta; DelAttr beta].

Lemma demo_no_clash : no_clash (demo_list.*1 ++ map callName demo_edits).
Proof.
  cbn [demo_list demo_edits fmap list_fmap fst map callName app]. intros a b Ha Hb.
  assert (a = alpha \/ a = beta) as Ha' by (repeat (apply elem_of_cons in Ha as [->|Ha]; [by auto|]); by apply elem_of_nil in Ha).
  assert (b = alpha \/ b = beta) as Hb' by (repeat (apply elem_of_cons in Hb as [->|Hb]; [by auto|]); by apply elem_of_nil in Hb).
  destruct Ha' as [-> | ->], Hb' as [-> | ->]; intros E; [reflexivity|vm_compute in E; discriminate E|vm_compute in E; discriminate E|reflexivity].
Qed.

Lemma demo_storable : storable alpha (IntValue KInt32 7) /\ storable beta (StringValue [x79]) /\ storable alpha (IntValue KInt32 (-9)).
Proof.
  split; [|split]; (split; [cbn [value_ok]; try (vm_compute; reflexivity); cbn; lia|]); (split; [discriminate|]); split; vm_compute; congruence.
Qed.

Lemma dense_attributes_refine_witness : exists daw loc st1 fw' attrs,
  addAttributes (fun _ => []) NewDenseAttributeWriter (map (fun e => attrOf e.1 e.2) demo_list) demo_sb = Ret daw /\
  dawWriteToFile daw (NewFileWriter 48) demo_sb = Ret (infoOf loc, st1) /\
  attr_calls (fun _ => []) 0 false (with_storage demo_fw st1) GlobalHeap.newGlobalHeapWriter loc demo_edits = ([true; true; false], fw') /\
  readDenseAttributes (contents (storage fw')) (infoOf loc) demo_sb = Ret attrs /\
  exists names, Forall2 (read_as (contents (storage fw')) {[alpha := IntValue KInt32 (-9)]}) attrs names.
Proof.
  destruct demo_storable as (H1 & H2 & H3).
  destruct (@dense_attributes_refine _ _ (FileWriter_laws 48) (fun _ => []) 0 false demo_fw GlobalHeap.newGlobalHeapWriter demo_list demo_edits 100000)
    as (daw & loc & st1 & fw' & attrs & names & E1 & E2 & E3 & E4 & _ & E5 & _).
  - cbn. lia.
  - apply NewFileWriter_usable; lia.
  - done.
  - lia.
  - discriminate.
  - constructor; [exact H1|constructor; [exact H2|constructor]].
  - apply NoDup_cons. split; [|apply NoDup_singleton]. intros Hin. apply list_elem_of_singleton in Hin. discriminate Hin.
  - constructor; [exact H3|]. constructor; [discriminate|]. constructor; [discriminate|constructor].
  - exact demo_no_clash.
  - vm_compute. congruence.
  - vm_compute. congruence.
  - exists daw, loc, st1, fw', attrs. split; [exact E1|]. split; [exact E2|]. split; [exact E3|]. split; [exact E4|]. exists names. exact E5.
Defined.
