(* ===== verification/DatasetLaws.v ===== *)
(** * Lemmas on stored datasets

    The object header a dataset gets, as the readers find it, and what creating
    and writing a contiguous dataset does to the file. *)

From S2P Require Import Prelude Allocator Storage Chunks Superblock Messages ObjectHeader Datatype Convert Pipeline ChunkedDataset GlobalHeap.
From S2P Require Import LocalHeap Groups GroupLaws Namespace DatasetReader DatasetWrite.

(** ** Padding *)

(** The padding message [PadToSize] adds, if any. *)
Definition padding (pad : list MessageWriter) : Prop :=
  pad = [] \/ exists k, 0 < k < 256 /\ pad = [(MsgNil, zeros k)].

Lemma PadToSize_ret ms rc : len (bodyBytes ms) + 18 < 2 ^ 63 ->
  exists pad, PadToSize (mkHeaderWriter 2 0 ms rc) MinOHDRAllocSize = Ret (mkHeaderWriter 2 0 (ms ++ pad) rc) /\ padding pad /\
    (len (bodyBytes ms) <= 255 -> len (bodyBytes (ms ++ pad)) <= 255).
Proof.
  intros Hl. destruct (encodeV2_ret (mkHeaderWriter 2 0 ms rc) Hl) as (c & _ & _ & _ & Es).
  pose proof (len_headBytes (mkHeaderWriter 2 0 ms rc) ltac:(cbn [Messages]; lia)) as Hh. cbn [Messages] in Hh.
  pose proof (len_nonneg (bodyBytes ms)). destruct (width_cases (len (bodyBytes ms)) ltac:(lia)) as (Hw & _).
  unfold PadToSize, Size_. cbn [wVersion wFlags Messages RefCount Z.eqb Pos.eqb obind]. rewrite Es. set (n := len (headBytes _)) in *.
  unfold MinOHDRAllocSize. destruct (Z.geb_spec (n + 4) 256).
  - exists []. rewrite app_nil_r. split; [done|]. by split; [left|].
  - cbv zeta. eexists. split; [reflexivity|]. split.
    + right. eexists. split; [|reflexivity]. destruct (Z.leb_spec (256 - (n + 4)) 4); lia.
    + intros H255. rewrite bodyBytes_app, bodyBytes_cons, !len_app, len_msgBytes. change (len (bodyBytes [])) with 0. cbn [snd].
      rewrite len_zeros by (destruct (Z.leb_spec (256 - (n + 4)) 4); lia).
      assert (chunkSizeFieldWidth (len (bodyBytes ms)) = 1) by (unfold chunkSizeFieldWidth; destruct (Z.leb_spec (len (bodyBytes ms)) 255); lia).
      destruct (Z.leb_spec (256 - (n + 4)) 4); lia.
Qed.

Lemma padding_ok pad : padding pad -> Forall msg_ok pad.
Proof.
  intros [-> | (k & Hk & ->)]; [constructor|]. constructor; [|constructor]. split; cbn [fst snd].
  - unfold MsgNil. lia.
  - rewrite len_zeros by lia. lia.
Qed.

Lemma len_padding pad : padding pad -> len (bodyBytes pad) <= 260.
Proof.
  intros [-> | (k & Hk & ->)]; [done|]. rewrite bodyBytes_cons. change (bodyBytes []) with (@nil byte).
  rewrite app_nil_r, len_msgBytes. cbn [snd]. rewrite len_zeros by lia. lia.
Qed.

Section stored_headers.
Context `{StorageLaws St}.

(** ** Allocating and writing an object header *)

Lemma storeDatasetHeader_ok st m ms : Forall msg_ok ms -> len (bodyBytes ms) <= 69000 -> usable st (69300 + m) -> 0 <= m ->
  exists a n st' pad c, let h := headBytes (mkHeaderWriter 2 0 (ms ++ pad) 0) ++ le_put 4 c in
    storeDatasetHeader st ms = Ret (a, n, st') /\ n = len h /\ usable st' m /\ padding pad /\
    owned st' = owned st ++ [mkBlock a n] /\ keeps (contents st) (contents st') (owned st) /\ 0 <= a < 2 ^ 63 /\
    stored (contents st') a h /\ (len (bodyBytes ms) <= 255 -> len (bodyBytes (ms ++ pad)) <= 255).
Proof.
  intros Hms Hl Hu Hm. destruct (PadToSize_ret ms 0 ltac:(lia)) as (pad & Ep & Hpad & H255). unfold storeDatasetHeader.
  rewrite Ep. cbn [obind]. pose proof (len_padding pad Hpad) as Hlp. pose proof (len_nonneg (bodyBytes pad)). pose proof (len_nonneg (bodyBytes ms)).
  set (ohw := mkHeaderWriter 2 0 (ms ++ pad) 0).
  assert (Hb : len (bodyBytes (Messages ohw)) <= 69260) by (cbn [Messages ohw]; rewrite bodyBytes_app, len_app; lia).
  pose proof (len_nonneg (bodyBytes (Messages ohw))).
  destruct (encodeV2_ret ohw ltac:(lia)) as (c & _ & _ & Ee & Es). pose proof (len_headBytes ohw ltac:(lia)) as Hh.
  destruct (width_cases (len (bodyBytes (Messages ohw))) ltac:(lia)) as (Hw & _).
  assert (Hlen : len (headBytes ohw ++ le_put 4 c) = len (headBytes ohw) + 4) by (rewrite len_app, len_le_put; lia).
  unfold calculateObjectHeaderSize, Size_. cbn [wVersion ohw Z.eqb Pos.eqb]. fold ohw. rewrite Es. cbn [obind].
  destruct (allocate_law st _ (len (headBytes ohw) + 4) Hu ltac:(lia)) as (a & st1 & E1 & Hu1 & Hc1 & Ho1 & Hd).
  rewrite E1. cbn [obind].
  assert (Hblk : mkBlock a (len (headBytes ohw) + 4) ∈ owned st1) by (rewrite Ho1; apply elem_of_app; right; by left).
  destruct (owned_range _ _ _ Hu1 Hblk) as (Hr1 & _ & Hr2). unfold bend in Hr2. cbn [Offset Size] in *.
  destruct (write_law st1 _ (headBytes ohw ++ le_put 4 c) a Hu1 ltac:(lia) ltac:(lia)) as (st2 & E2 & Hu2 & Ho2 & Hc2).
  unfold storeHeader. cbn [wVersion ohw Z.eqb Pos.eqb]. fold ohw. rewrite Ee. cbn [obind]. rewrite E2. cbn [obind].
  rewrite Z.eqb_refl. exists a, (len (headBytes ohw) + 4), st2, pad, c. cbv zeta.
  split_and!; [done|done|eapply usable_mono; [exact Hu2|lia]|done|by rewrite Ho2, Ho1| |lia|lia| |done].
  - rewrite Hc2, Hc1. apply write_keeps; [lia|]. by rewrite Hlen.
  - rewrite Hc2. by apply stored_write.
Qed.
End stored_headers.

(** ** Finding the messages again *)

(** The object header of a dataset: datatype, dataspace and layout, perhaps a
    filter pipeline, and padding. *)
Definition datasetMessages (td sd ld : bytes) (extra : list MessageWriter) : list MessageWriter :=
  [(MsgDatatype, td); (MsgDataspace, sd); (MsgDataLayout, ld)] ++ extra.

Definition pipelineMessages (pd : option bytes) : list MessageWriter :=
  match pd with Some d => [(MsgFilterPipeline, d)] | None => [] end.

Lemma lastMessage_app t l k : lastMessage t (l ++ k) = match lastMessage t k with Some d => Some d | None => lastMessage t l end.
Proof.
  unfold lastMessage. rewrite fold_left_app. generalize (fold_left (fun found msg => if mType msg =? t then Some (mData msg) else found) l None).
  induction k as [|m k IH] using rev_ind; intros o; [done|]. rewrite !fold_left_app. cbn [fold_left].
  destruct (mType m =? t); [done|]. apply IH.
Qed.

Lemma lastMessage_padding t a pad : padding pad -> t <> MsgNil -> lastMessage t (readBackMessages a pad) = None.
Proof.
  intros [-> | (k & Hk & ->)] Ht; [done|]. cbn [readBackMessages]. destruct (len (zeros k) =? 0); [done|].
  unfold lastMessage. cbn [app fold_left mType]. destruct (Z.eqb_spec MsgNil t); [congruence|done].
Qed.

(** Messages of other types do not count. *)
Lemma lastMessage_other t a ms : Forall (fun m : MessageWriter => m.1 <> t) ms -> lastMessage t (readBackMessages a ms) = None.
Proof.
  revert a. induction ms as [|[t' d] ms IH]; intros a Hms; [done|]. apply Forall_cons in Hms as [Ht Hms]. cbn [fst] in Ht.
  cbn [readBackMessages]. rewrite lastMessage_app, IH by done. destruct (len d =? 0); [done|].
  unfold lastMessage. cbn [fold_left mType]. destruct (Z.eqb_spec t' t); [congruence|done].
Qed.

Lemma lastMessage_found t a ms d ms' : 0 < len d -> Forall (fun m : MessageWriter => m.1 <> t) ms' ->
  lastMessage t (readBackMessages a (ms ++ (t, d) :: ms')) = Some d.
Proof.
  intros Hd Hms'. rewrite readBack_app, lastMessage_app. cbn [readBackMessages]. rewrite lastMessage_app, lastMessage_other by done.
  destruct (Z.eqb_spec (len d) 0); [lia|]. unfold lastMessage. cbn [fold_left mType]. by rewrite Z.eqb_refl.
Qed.

Lemma padding_types pad t : padding pad -> t <> MsgNil -> Forall (fun m : MessageWriter => m.1 <> t) pad.
Proof. intros [-> | (k & Hk & ->)] Ht; [constructor|]. constructor; [|constructor]. cbn. congruence. Qed.

Ltac other_types := repeat (apply Forall_app_2 || apply Forall_cons_2 || apply Forall_nil_2 || (by apply padding_types) || done).

Lemma findMessages_ret ms td sd ld : lastMessage MsgDatatype ms = Some td -> lastMessage MsgDataspace ms = Some sd ->
  lastMessage MsgDataLayout ms = Some ld -> findMessages ms = Ret (td, sd, ld).
Proof. unfold findMessages. by intros -> -> ->. Qed.

Lemma dataset_messages_found a td sd ld pd pad : padding pad -> 0 < len td -> 0 < len sd -> 0 < len ld ->
  (forall d, pd = Some d -> 0 < len d) ->
  let ms := readBackMessages a (datasetMessages td sd ld (pipelineMessages pd) ++ pad) in
  findMessages ms = Ret (td, sd, ld) /\ lastMessage MsgFilterPipeline ms = pd.
Proof.
  intros Hp Ht Hs Hl Hpd ms. unfold ms, datasetMessages.
  assert (Hop : forall t, t <> MsgNil -> t <> MsgFilterPipeline -> Forall (fun m : MessageWriter => m.1 <> t) (pipelineMessages pd ++ pad)).
  { intros t Ht1 Ht2. apply Forall_app_2; [|by apply padding_types]. destruct pd; cbn; other_types. }
  set (rest := pipelineMessages pd ++ pad) in *.
  assert (E1 : lastMessage MsgDatatype ms = Some td).
  { apply (lastMessage_found _ _ [] td ((MsgDataspace, sd) :: (MsgDataLayout, ld) :: rest)); [done|]. repeat (apply Forall_cons_2; [done|]); by apply Hop. }
  assert (E2 : lastMessage MsgDataspace ms = Some sd).
  { apply (lastMessage_found _ _ [(MsgDatatype, td)] sd ((MsgDataLayout, ld) :: rest)); [done|]. repeat (apply Forall_cons_2; [done|]); by apply Hop. }
  assert (E3 : lastMessage MsgDataLayout ms = Some ld).
  { apply (lastMessage_found _ _ [(MsgDatatype, td); (MsgDataspace, sd)] ld rest); [done|]. by apply Hop. }
  assert (E4 : lastMessage MsgFilterPipeline ms = pd); [|split; [by apply findMessages_ret|exact E4]].
  unfold ms, datasetMessages. destruct pd as [d|]; cbn [pipelineMessages].
  - apply (lastMessage_found _ _ [(MsgDatatype, td); (MsgDataspace, sd); (MsgDataLayout, ld)] d pad); [by apply Hpd|].
    by apply padding_types.
  - apply lastMessage_other. other_types.
Qed.

Lemma firstMessage_app t l k : firstMessage t (l ++ k) = match firstMessage t l with Some d => Some d | None => firstMessage t k end.
Proof. unfold firstMessage. rewrite find_app. by destruct (List.find _ l). Qed.

Lemma firstMessage_other t a ms : Forall (fun m : MessageWriter => m.1 <> t) ms -> firstMessage t (readBackMessages a ms) = None.
Proof.
  revert a. induction ms as [|[t' d] ms IH]; intros a Hms; [done|]. apply Forall_cons in Hms as [Ht Hms]. cbn [fst] in Ht.
  cbn [readBackMessages]. rewrite firstMessage_app, IH by done. destruct (len d =? 0); [done|].
  unfold firstMessage. cbn [List.find mType]. destruct (Z.eqb_spec t' t); [congruence|done].
Qed.

Lemma firstMessage_found t a ms d ms' : 0 < len d -> Forall (fun m : MessageWriter => m.1 <> t) ms ->
  firstMessage t (readBackMessages a (ms ++ (t, d) :: ms')) = Some d.
Proof.
  intros Hd Hms. rewrite readBack_app, firstMessage_app, firstMessage_other by done. cbn [readBackMessages].
  destruct (Z.eqb_spec (len d) 0); [lia|]. unfold firstMessage. cbn [app List.find mType]. by rewrite Z.eqb_refl.
Qed.

(** The object header of a dataset read back from the file. *)
Lemma read_dataset_header fuel f a sb td sd ld pd pad c :
  let ms := datasetMessages td sd ld (pipelineMessages pd) in
  stored f a (headBytes (mkHeaderWriter 2 0 (ms ++ pad) 0) ++ le_put 4 c) -> Forall msg_ok ms ->
  Forall (fun m : MessageWriter => 0 < len m.2) ms -> padding pad -> len f < 2 ^ 63 ->
  exists oh, ReadObjectHeader fuel f a sb = Ret oh /\ hType oh = ObjectTypeDataset /\
    findMessages (hMessages oh) = Ret (td, sd, ld) /\ lastMessage MsgFilterPipeline (hMessages oh) = pd /\
    firstMessage MsgFilterPipeline (hMessages oh) = pd /\ firstMessage MsgDataspace (hMessages oh) = Some sd.
Proof.
  intros ms Hst Hok Hpos Hpad Hf.
  destruct (ReadObjectHeader_v2 fuel f a sb (mkHeaderWriter 2 0 (ms ++ pad) 0) (le_put 4 c)) as (off & name & E);
    [done|done|done|cbn [Messages]; apply Forall_app; split; [exact Hok|by apply padding_ok]|exact Hst|rewrite len_le_put; lia|done|].
  cbn [Messages wFlags] in E.
  assert (Hnc : Forall (fun m : MessageWriter => m.1 <> MsgContinuation) (ms ++ pad)).
  { unfold ms, datasetMessages. destruct pd; cbn [pipelineMessages]; other_types. }
  rewrite findContinuations_none in E by (by apply readBack_no_cont). cbn [obind] in E.
  destruct (refCountOf_total (readBackMessages off (ms ++ pad)) sb 1) as [rc Erc].
  unfold ms, datasetMessages in Hpos. rewrite Forall_app, !Forall_cons in Hpos. cbn [snd] in Hpos.
  destruct Hpos as [(Ht & Hs & Hl & _) Hp].
  destruct (dataset_messages_found off td sd ld pd pad) as [F1 F2]; [done..| |].
  { intros d ->. cbn [pipelineMessages] in Hp. by apply Forall_cons in Hp as [Hp _]. }
  exists (mkHeader 2 (flagsOf (mkHeaderWriter 2 0 (ms ++ pad) 0)) ObjectTypeDataset (readBackMessages off (ms ++ pad)) name rc).
  cbn [hType hMessages]. split_and!; [|done|exact F1|exact F2| |].
  - rewrite E. destruct fuel; cbn [followContinuations obind]; rewrite Erc; cbn [obind]; do 2 f_equal;
      unfold ms, datasetMessages; cbn [app readBackMessages]; rewrite !(proj2 (Z.eqb_neq _ 0)) by lia; reflexivity.
  - unfold ms, datasetMessages. destruct pd as [d|]; cbn [pipelineMessages].
    + apply (firstMessage_found _ _ [(MsgDatatype, td); (MsgDataspace, sd); (MsgDataLayout, ld)] d pad); [|other_types].
      cbn [pipelineMessages] in Hp. by apply Forall_cons in Hp as [Hp _].
    + apply firstMessage_other. other_types.
  - apply (firstMessage_found _ _ [(MsgDatatype, td)] sd); [done|other_types].
Qed.

(** ** What the readers do with a dataset whose bytes can be fetched *)

Definition infoOfDims (dims maxDims : list Z) : DataspaceMessage := mkDataspace 1 DataspaceSimple dims maxDims.

Section readers.
Context `{C : Codecs}.

(** The header's messages parse as type [t] and dimensions [dims], and its layout
    leads to the bytes [buf]. *)
Definition dataset_reads (fuel : nat) (f : bytes) (oh : ObjectHeader) (sb : Superblock) (t : DatatypeMessage) (dims : list Z)
    (buf : bytes) : Prop :=
  exists td sd ld layout maxDims fp,
    findMessages (hMessages oh) = Ret (td, sd, ld) /\ ParseDatatypeMessage td = Ret t /\
    ParseDataspaceMessage sd = Ret (infoOfDims dims maxDims) /\ ParseDataLayoutMessage ld sb = Ret layout /\
    parsePipeline (lastMessage MsgFilterPipeline (hMessages oh)) = Ret fp /\
    parsePipeline (firstMessage MsgFilterPipeline (hMessages oh)) = Ret fp /\
    readRaw fuel f layout (infoOfDims dims maxDims) t sb (Ret fp) = Ret buf.

Lemma TotalElements_dims dims maxDims : dims <> [] -> TotalElements (infoOfDims dims maxDims) = mulAll 1 dims.
Proof.
  intros Hd. unfold TotalElements, infoOfDims. cbn [dsType Dimensions]. destruct (Z.eqb_spec (len dims) 0) as [E|_]; [|done].
  by apply len_0_nil in E.
Qed.

Context (fuel : nat) (f : bytes) (oh : ObjectHeader) (sb : Superblock) (t : DatatypeMessage) (dims : list Z) (buf : bytes).
Hypothesis Hreads : dataset_reads fuel f oh sb t dims buf.
Hypothesis Hdims : dims <> [].
Hypothesis Htotal : mulAll 1 dims <> 0.

Lemma reads_Float64 : ReadDatasetFloat64 fuel f oh sb = convertToFloat64 buf t (mulAll 1 dims).
Proof.
  destruct Hreads as (td & sd & ld & layout & mx & fp & E1 & E2 & E3 & E4 & E5 & E6 & E7). unfold ReadDatasetFloat64.
  rewrite E1. cbn [obind]. rewrite E2. cbn [obind]. rewrite E3. cbn [obind]. rewrite E4. cbn [obind]. rewrite E5. cbn [obind].
  rewrite TotalElements_dims by done. destruct (Z.eqb_spec (mulAll 1 dims) 0); [done|]. by rewrite E7.
Qed.

Lemma reads_Strings : IsString t = true -> ReadDatasetStrings fuel f oh sb = convertToStrings buf t (mulAll 1 dims).
Proof.
  intros Ht. destruct Hreads as (td & sd & ld & layout & mx & fp & E1 & E2 & E3 & E4 & E5 & E6 & E7). unfold ReadDatasetStrings.
  rewrite E1. cbn [obind]. rewrite E2. cbn [obind]. rewrite Ht, E3. cbn [obind]. rewrite E4. cbn [obind].
  rewrite TotalElements_dims by done. destruct (Z.eqb_spec (mulAll 1 dims) 0); [done|]. by rewrite E6, E7.
Qed.

Lemma reads_VLen hfuel : dtClass t = DatatypeVarLen -> ReadDatasetVLenBytes fuel hfuel f oh sb =
  readSequences (Z.to_nat (mulAll 1 dims)) 0 hfuel f buf (dtSize t) (OffsetSize sb) ∅.
Proof.
  intros Ht. destruct Hreads as (td & sd & ld & layout & mx & fp & E1 & E2 & E3 & E4 & E5 & E6 & E7). unfold ReadDatasetVLenBytes.
  rewrite E1. cbn [obind]. rewrite E2. cbn [obind]. rewrite Ht, E3. cbn [obind]. rewrite E4. cbn [obind].
  rewrite TotalElements_dims by done. destruct (Z.eqb_spec (mulAll 1 dims) 0); [done|]. rewrite E6, E7. reflexivity.
Qed.
End readers.

Lemma len_pos_ne {A} (l : list A) : 0 < len l <= 255 -> l <> [].
Proof. intros [Hl _] ->. by vm_compute in Hl. Qed.

(** A contiguous dataset: the layout gives the address of the data. *)
Lemma contiguous_reads `{C : Codecs} fuel f oh sb td t dims pd size addr buf :
  findMessages (hMessages oh) = Ret (td, dataspaceBytes dims [], contiguousBytes size addr sb) ->
  lastMessage MsgFilterPipeline (hMessages oh) = pd -> firstMessage MsgFilterPipeline (hMessages oh) = pd -> pd = None ->
  sb8 sb -> 0 <= Superblock.Version sb < 4 -> ParseDatatypeMessage td = Ret t -> 0 < len dims <= 255 -> Forall (is_u 64) dims ->
  size = u64 (mulAll 1 dims * dtSize t) -> stored f addr buf -> len buf = size -> size < 2 ^ 63 -> addr < 2 ^ 63 ->
  dataset_reads fuel f oh sb t dims buf.
Proof.
  intros Hf <- Hfirst Hnone (HO & HL & HE) Hv Ht Hd Hu Hs Hst Hl Hlt Ha. destruct (stored_bounds _ _ _ Hst) as [Ha0 _].
  assert (Hs0 : 0 <= size) by (rewrite <- Hl; apply len_nonneg).
  assert (Ep : ParseDataspaceMessage (dataspaceBytes dims []) = Ret (infoOfDims dims [])).
  { rewrite <- (app_nil_r (dataspaceBytes dims [])). apply parse_dataspace; [done|done|constructor|by left]. }
  exists td, (dataspaceBytes dims []), (contiguousBytes size addr sb), (mkLayout 3 LayoutContiguous addr size [] [] 4), [], None.
  split_and!; [done|done|exact Ep| | | |].
  - rewrite <- (app_nil_r (contiguousBytes size addr sb)). apply parse_contiguous; rewrite ?HO, ?HL; done || lia.
  - rewrite Hnone. reflexivity.
  - rewrite Hfirst, Hnone. reflexivity.
  - unfold readRaw, IsCompact, IsContiguous. cbn [Class_ DataAddress]. change (LayoutContiguous =? LayoutCompact) with false.
    change (LayoutContiguous =? LayoutContiguous) with true. cbn iota. rewrite TotalElements_dims by (by apply len_pos_ne).
    rewrite <- Hs. destruct (Z.geb_spec size (2 ^ 63)); [lia|]. rewrite i64_id by lia. rewrite <- Hl. exact Hst.
Qed.

(** ** Creating and writing a contiguous dataset *)

(** The dataset writer [createContiguous] returns. *)
Definition contiguousHandle (a da size elem : Z) (dims : list Z) (name : bytes) (class : Z) : Dataset :=
  mkDs (mkDatasetWriter a da size elem dims false (mkCoordinator [] [] []) [] None 0 0) name class [] None.

(** The object header of a contiguous dataset. *)
Definition contiguousHeader (td : bytes) (dims : list Z) (size da : Z) (sb : Superblock) (pad : list MessageWriter) : ObjectHeaderWriter :=
  mkHeaderWriter 2 0 (datasetMessages td (dataspaceBytes dims []) (contiguousBytes size da sb) (pipelineMessages None) ++ pad) 0.

Definition contiguous_stored (f : bytes) (a : Z) (td : bytes) (dims : list Z) (size da : Z) (sb : Superblock) (hsize : Z) : Prop :=
  exists pad c, padding pad /\ let h := headBytes (contiguousHeader td dims size da sb pad) ++ le_put 4 c in
    len h = hsize /\ stored f a h.

Lemma len_contiguousBytes size addr sb : sb8 sb -> len (contiguousBytes size addr sb) = 18.
Proof.
  intros (HO & HL & _). unfold contiguousBytes. rewrite !len_app, !len_put_order, HO, HL. reflexivity.
Qed.

Lemma contiguous_messages_ok td dims size da sb : sb8 sb -> 0 < len td < 65536 -> 0 < len dims <= 255 ->
  let ms := datasetMessages td (dataspaceBytes dims []) (contiguousBytes size da sb) (pipelineMessages None) in
  Forall msg_ok ms /\ Forall (fun m : MessageWriter => 0 < len m.2) ms /\ len (bodyBytes ms) <= 69000.
Proof.
  intros Hsb Ht Hd ms. unfold ms, datasetMessages. cbn [pipelineMessages app].
  pose proof (len_contiguousBytes size da sb Hsb) as Hl. pose proof (len_dataspaceBytes dims []) as Hs. change (len (@nil Z)) with 0 in Hs.
  split_and!.
  - repeat constructor; cbn [fst snd]; rewrite ?Hl, ?Hs; unfold MsgDatatype, MsgDataspace, MsgDataLayout; lia.
  - repeat constructor; cbn [snd]; rewrite ?Hl, ?Hs; lia.
  - rewrite !bodyBytes_cons. change (bodyBytes []) with (@nil byte). rewrite !len_app, !len_msgBytes. change (len (@nil byte)) with 0. cbn [snd].
    rewrite Hl, Hs. lia.
Qed.

Section creating.
Context `{StorageLaws St}.
Hypothesis Hfirst : 0 < first_address.

(** More blocks allocated, those of the groups untouched. *)
Lemma fs_extend fw G rest st' new : fs_ok fw G rest -> owned st' = owned (storage fw) ++ new ->
  keeps (contents (storage fw)) (contents st') (blocksOf G) -> fs_ok (with_storage fw st') G (new ++ rest).
Proof.
  intros Hfs Ho Hk. constructor; cbn [sblock groups storage with_storage rootGroupAddr rootHeapAddr rootBTreeAddr]; try apply Hfs.
  - intros p g Hg. eapply (fg_ok_keeps Hfirst); [by apply (fs_groups _ _ _ Hfs p)|]. eapply keeps_sub; [|exact Hk]. by apply (in_blocksOf Hfirst _ p).
  - rewrite Ho, (fs_own _ _ _ Hfs). solve_Permutation.
Qed.

Lemma createContiguous_ok fw G rest p n g getType td size dims class elem m :
  let dsize := u64 (mulAll 1 dims * size) in
  fs_ok fw G rest -> G !! norm p = Some g -> path_ok p n -> name_ok n -> dEntries (group_abs g) !! n = None ->
  dUsed (group_abs g) + len n + 1 <= 4096 -> Z.of_nat (base.size (dEntries (group_abs g))) < 256 ->
  getType = Ret td -> 0 < len td < 65536 -> 0 < len dims <= 255 -> 0 < dsize ->
  usable (storage fw) (dsize + 69628 + m) -> 0 <= m ->
  exists a da hsize fw' g', createContiguous fw (childPath p n) getType size dims class elem =
      Ret (contiguousHandle a da dsize elem dims (childPath p n) class, fw') /\ usable (storage fw') m /\
    fs_ok fw' (<[norm p := g']> G) ([mkBlock da dsize; mkBlock a hsize] ++ rest) /\ group_abs g' = addEntry (group_abs g) n a /\
    keeps (contents (storage fw)) (contents (storage fw')) rest /\ sblock fw' = sblock fw /\ rootGroupAddr fw' = rootGroupAddr fw /\ is_u 64 a /\
    contiguous_stored (contents (storage fw')) a td dims dsize da (sblock fw) hsize.
Proof.
  intros dsize Hfs Hg Hp Hn Hfresh Hroom H256 -> Htd Hd Hs Hu Hm. pose proof (fs_sb _ _ _ Hfs) as Hsb. pose proof Hsb as (HO & HL & HE).
  pose proof Hp as (_ & Hne & Hns). unfold createContiguous, calculateTotalElements. fold dsize.
  destruct (allocate_law _ _ dsize Hu ltac:(lia)) as (da & st1 & E1 & Hu1 & Hc1 & Ho1 & _). rewrite E1. cbn [obind].
  assert (Hda : mkBlock da dsize ∈ owned st1) by (rewrite Ho1; apply elem_of_app; right; by left).
  destruct (owned_range _ _ _ Hu1 Hda) as (Hr1 & _ & Hr2). unfold bend in Hr2. cbn [Offset Size] in *.
  rewrite EncodeDataspaceMessage_ret by (done || by left). cbn [obind]. unfold EncodeLayoutMessage.
  change (LayoutContiguous =? LayoutContiguous) with true. cbn iota.
  rewrite encodeContiguousLayout_ret by (rewrite ?HO, ?HL; done || lia). cbn [obind].
  destruct (contiguous_messages_ok td dims dsize da (sblock fw) Hsb Htd Hd) as (Hmok & _ & Hml). cbv zeta in *.
  destruct (storeDatasetHeader_ok st1 (328 + m) _ Hmok Hml) as (a & hsize & st2 & pad & c & E2 & Hhs & Hu2 & Hpad & Ho2 & Hk2 & Ha & Hst & _);
    [eapply usable_mono; [exact Hu1|lia]|lia|].
  unfold datasetMessages in E2. cbn [pipelineMessages app] in E2. rewrite E2. cbn [obind]. rewrite parsePath_child by done. cbn [obind].
  assert (Hk : keeps (contents (storage fw)) (contents st2) (owned (storage fw))).
  { rewrite <- Hc1. eapply keeps_sub; [|exact Hk2]. rewrite Ho1. by apply list_subseteq_app_l. }
  assert (Hown2 : owned st2 = owned (storage fw) ++ [mkBlock da dsize; mkBlock a hsize]) by by rewrite Ho2, Ho1, <- app_assoc.
  assert (Hfs2 : fs_ok (with_storage fw st2) G ([mkBlock da dsize; mkBlock a hsize] ++ rest)).
  { apply fs_extend; [done|exact Hown2|].
    eapply keeps_sub; [|exact Hk]. rewrite (fs_own _ _ _ Hfs). by apply list_subseteq_app_l. }
  destruct (fs_link Hfirst _ G _ p n a g m Hfs2 Hg) as (st3 & g3 & E3 & Hu3 & Hfs3 & Habs3 & Hk3%preserves_keeps);
    [eapply usable_mono; [exact Hu2|lia]|done|done|unfold is_u; lia|done..|].
  rewrite E3. cbn [obind]. cbn [storage with_storage] in *. exists a, da, hsize, (with_storage (with_storage fw st2) st3), g3.
  split_and!; [reflexivity|exact Hu3|exact Hfs3|exact Habs3| |done|done|unfold is_u; lia|].
  - cbn [storage with_storage]. eapply keeps_trans; [| |exact Hk3]; [by apply list_subseteq_app_r|].
    eapply keeps_sub; [|exact Hk]. rewrite (fs_own _ _ _ Hfs). by apply list_subseteq_app_r.
  - exists pad, c. split; [done|]. cbv zeta. split; [by symmetry|]. cbn [storage with_storage].
    apply (Hk3 (mkBlock a hsize)); [set_solver|by symmetry|]. exact Hst.
Qed.
End creating.

Section writing.
Context `{StorageLaws St}.
Hypothesis Hfirst : 0 < first_address.

(** Bytes of the right size go to the dataset's block and touch nothing else. *)
Lemma storeData_ok fw G rest others' h da dsize buf m : fs_ok fw G rest -> rest ≡ₚ mkBlock da dsize :: others' ->
  usable (storage fw) m -> isChunked (dsw h) = false -> dataAddress (dsw h) = da -> len buf = dsize ->
  exists st', storeData h fw buf = Ret (h, with_storage fw st') /\ usable st' m /\ fs_ok (with_storage fw st') G rest /\
    stored (contents st') da buf /\ keeps (contents (storage fw)) (contents st') others'.
Proof.
  intros Hfs Hrest Hu Hch Hda Hl. assert (Hin : mkBlock da dsize ∈ owned (storage fw)).
  { rewrite (fs_own _ _ _ Hfs), Hrest. apply elem_of_app. right. by left. }
  destruct (owned_range _ _ _ Hu Hin) as (Hr1 & Hr2 & Hr3). unfold bend in Hr3. cbn [Offset Size] in *.
  unfold storeData. rewrite Hch, Hda. destruct (write_law _ _ buf da Hu ltac:(lia) ltac:(lia)) as (st' & -> & Hu' & Ho' & Hc').
  cbn [obind]. assert (Hd : Forall (disjoint_blocks (mkBlock da dsize)) (blocksOf G ++ others')).
  { eapply owned_disjoint; [exact Hu|]. rewrite (fs_own _ _ _ Hfs), Hrest. solve_Permutation. }
  assert (Hk : keeps (contents (storage fw)) (contents st') (blocksOf G ++ others')).
  { rewrite Hc'. apply write_keeps; [lia|]. by rewrite Hl. }
  exists st'. split_and!; [done|exact Hu'| | |].
  - apply (fs_extend Hfirst fw G rest st' []); [done|by rewrite app_nil_r|]. eapply keeps_sub; [|exact Hk]. by apply list_subseteq_app_l.
  - rewrite Hc'. by apply stored_write.
  - eapply keeps_sub; [|exact Hk]. by apply list_subseteq_app_r.
Qed.
End writing.

(** ** Encoding never panics *)

Definition goLen (data : GoData) : Z :=
  match data with
  | Int8s v | Int16s v | Int32s v | Int64s v | Uint16s v | Uint32s v | Uint64s v | Float32s v | Float64s v => len v
  | Uint8s v => len v
  | Strings v | ByteSeqs v => len v
  | Int32Seqs v | Int64Seqs v | Uint32Seqs v | Uint64Seqs v | Float32Seqs v | Float64Seqs v => len v
  | OtherData => 0
  end.

Lemma putElems_ret n v : forall pre k i, i * Z.of_nat n = len pre -> Z.of_nat n * len v <= k ->
  putElems n v i (pre ++ zeros k) = Ret ((pre ++ intBytes n v) ++ zeros (k - Z.of_nat n * len v)).
Proof.
  induction v as [|x v IH]; intros pre k i Hi Hk; cbn [putElems].
  - change (intBytes n []) with (@nil byte). change (len (@nil Z)) with 0. rewrite Z.mul_0_r, Z.sub_0_r, app_nil_r. done.
  - rewrite len_cons in *. pose proof (len_nonneg v). rewrite put_le_cursor by lia. cbn [obind].
    rewrite IH by (rewrite ?len_app, ?len_le_put; nia). unfold intBytes. cbn [map concat]. rewrite <- !app_assoc. do 5 f_equal. lia.
Qed.

Lemma putElems_all n v : putElems n v 0 (zeros (Z.of_nat n * len v)) = Ret (intBytes n v).
Proof.
  change (zeros ?k) with ([] ++ zeros k). rewrite (putElems_ret n v []) by (reflexivity || lia). rewrite Z.sub_diag. cbn [app]. change (zeros 0) with (@nil byte).
  by rewrite app_nil_r.
Qed.

(** A string at its width: cut off or padded with zeros. *)
Definition fixedString (w : Z) (s : bytes) : bytes := take (Z.to_nat w) (s ++ zeros (w - len s)).

Lemma len_fixedString w s : 0 <= w -> len (fixedString w s) = w.
Proof.
  intros Hw. unfold fixedString. pose proof (len_nonneg s). destruct (Z.le_gt_cases w (len s)).
  - rewrite len_take, len_app. pose proof (len_nonneg (zeros (w - len s))). lia.
  - rewrite len_take, len_app, len_zeros by lia. lia.
Qed.

Lemma putStrings_ret w v : 0 < w -> forall pre k off, off = len pre -> w * len v <= k ->
  putStrings v w off (pre ++ zeros k) = Ret ((pre ++ concat (map (fixedString w) v)) ++ zeros (k - w * len v)).
Proof.
  intros Hw. induction v as [|s v IH]; intros pre k off Hoff Hk; cbn [putStrings].
  - change (len (@nil bytes)) with 0. cbn [map concat]. rewrite Z.mul_0_r, Z.sub_0_r, app_nil_r. done.
  - rewrite len_cons in *. pose proof (len_nonneg v). pose proof (len_nonneg s).
    assert (E : (if len s >=? w then let! s0 := slice s 0 w in put_bytes (pre ++ zeros k) off s0 else copy_bytes (pre ++ zeros k) off s) =
      Ret ((pre ++ fixedString w s) ++ zeros (k - w))).
    { unfold fixedString. destruct (Z.geb_spec (len s) w).
      - rewrite slice_ret by lia. cbn [obind]. rewrite put_bytes_cursor by (rewrite ?len_sub; lia). rewrite len_sub by lia.
        unfold sub. rewrite Z.sub_0_r. cbn [drop Z.to_nat]. rewrite take_app_le by (unfold len in *; lia). reflexivity.
      - rewrite copy_bytes_cursor by lia. f_equal. rewrite <- app_assoc, <- app_assoc. f_equal.
        rewrite (take_ge (s ++ zeros (w - len s))); [|pose proof (len_zeros (w - len s) ltac:(lia)) as Hz; unfold len in *; rewrite length_app; lia].
        rewrite <- app_assoc. f_equal. rewrite zeros_app by lia. f_equal. lia. }
    rewrite E. cbn [obind]. rewrite IH by (rewrite ?len_app, ?len_fixedString; nia). cbn [map concat]. rewrite <- !app_assoc. do 5 f_equal. lia.
Qed.

Lemma copy_bytes_all v : copy_bytes (zeros (len v)) 0 v = Ret v.
Proof.
  change (zeros (len v)) with ([] ++ zeros (len v)). rewrite copy_bytes_cursor by (reflexivity || lia). rewrite Z.sub_diag.
  change (zeros 0) with (@nil byte). by rewrite app_nil_r.
Qed.

Lemma putElems_fits n v e k : e = Z.of_nat n -> len v * e = k -> putElems n v 0 (zeros k) = Ret (intBytes n v).
Proof. intros -> <-. rewrite Z.mul_comm. apply putElems_all. Qed.

Lemma putStrings_all w v : 0 < w -> putStrings v w 0 (zeros (w * len v)) = Ret (concat (map (fixedString w) v)).
Proof.
  intros Hw. change (zeros ?k) with ([] ++ zeros k). rewrite (putStrings_ret w v Hw []) by (reflexivity || lia).
  rewrite Z.sub_diag. cbn [app]. change (zeros 0) with (@nil byte). by rewrite app_nil_r.
Qed.

Section encoding.
Variable (e size : Z).
Hypothesis He : 0 < e.
Hypothesis Hsize : 0 <= size < 2 ^ 63.

Lemma make_ok : makeBytes size = Ret (zeros size).
Proof. unfold makeBytes. destruct (Z.geb_spec size (2 ^ 63)); [lia|done]. Qed.

Lemma size_eq n : 0 <= n -> n * e < 2 ^ 63 -> (u64 (n * e) =? size) = true -> n * e = size.
Proof. intros Hn Hlt E%Z.eqb_eq. by rewrite u64_id in E by (unfold is_u; nia). Qed.

(** The integers of a slice and their width. *)
Definition goInts (data : GoData) : option (Z * list Z) :=
  match data with
  | Int8s v => Some (1, v)
  | Uint8s v => Some (1, map b2z v)
  | Int16s v | Uint16s v => Some (2, v)
  | Int32s v | Uint32s v => Some (4, v)
  | Int64s v | Uint64s v => Some (8, v)
  | _ => None
  end.

Lemma intBytes_bytes (v : bytes) : intBytes 1 (map b2z v) = v.
Proof.
  unfold intBytes. induction v as [|b v IH]; [done|]. cbn [map concat]. rewrite IH. cbn [le_put app].
  by rewrite z2b_b2z.
Qed.

Lemma len_goInts data w vs : goInts data = Some (w, vs) -> goLen data = len vs /\ getIntegerSliceLength data = Ret (len vs).
Proof. destruct data; cbn; try done; intros [= <- <-]; rewrite ?len_map; done. Qed.

(** An integer slice is encoded element by element when its width is the
    dataset's; anything else is an error. *)
Lemma encodeFixed_cases data : goLen data * e < 2 ^ 63 ->
  (exists vs, goInts data = Some (e, vs) /\ len vs * e = size /\
     encodeFixedPointData data e size = Ret (intBytes (Z.to_nat e) vs)) \/
  (is_err (encodeFixedPointData data e size) = true /\ forall vs, goInts data = Some (e, vs) -> len vs * e <> size).
Proof.
  intros Hlt. unfold encodeFixedPointData. destruct (goInts data) as [[w vs]|] eqn:Ei.
  2:{ right. split; [|intros ? [=]]. by destruct data. }
  destruct (len_goInts data w vs Ei) as [Hl ->]. cbn [obind]. pose proof (len_nonneg vs). rewrite Hl in Hlt.
  rewrite (u64_id (len vs * e)) by (unfold is_u; nia). destruct (Z.eqb_spec (len vs * e) size) as [Es|Es].
  2:{ right. split; [done|]. by intros ? [= <- <-]. }
  rewrite make_ok. cbn [obind]. destruct (decide (w = e)) as [<- |Hne].
  - left. exists vs. split_and!; [done..|].
    destruct data; cbn in Ei; try discriminate Ei; injection Ei as <- <-; cbn [Z.eqb Pos.eqb encode1ByteIntegers encode2ByteIntegers
      encode4ByteIntegers encode8ByteIntegers];
      try (eapply putElems_fits; [|exact Es]; reflexivity).
    change (Z.to_nat 1) with 1%nat. rewrite intBytes_bytes. rewrite len_map, Z.mul_1_r in Es. rewrite <- Es. apply copy_bytes_all.
  - right. split; [|intros ? [= ? ?]; congruence].
    destruct data; cbn in Ei; try discriminate Ei; injection Ei as <- <-;
      (destruct (Z.eqb_spec e 1); [congruence || done|]); (destruct (Z.eqb_spec e 2); [congruence || done|]);
      (destruct (Z.eqb_spec e 4); [congruence || done|]); (destruct (Z.eqb_spec e 8); [congruence || done|done]).
Qed.

Definition goFloats (data : GoData) : option (Z * list Z) :=
  match data with Float32s v => Some (4, v) | Float64s v => Some (8, v) | _ => None end.

Lemma encodeFloat_cases data : goLen data * e < 2 ^ 63 ->
  (exists vs, goFloats data = Some (e, vs) /\ len vs * e = size /\
     encodeFloatData data e size = Ret (intBytes (Z.to_nat e) vs)) \/
  (is_err (encodeFloatData data e size) = true /\ forall vs, goFloats data = Some (e, vs) -> len vs * e <> size).
Proof.
  intros Hlt. unfold encodeFloatData. destruct (goFloats data) as [[w vs]|] eqn:Ei.
  2:{ right. split; [|intros ? [=]]. by destruct data. }
  assert (goLen data = len vs /\ (match data with Float32s v | Float64s v => Ret (len v) | _ => Err "expected []float32 or []float64" end) =
    Ret (len vs)) as [Hl ->] by (destruct data; cbn in Ei; try done; by injection Ei as <- <-).
  cbn [obind]. pose proof (len_nonneg vs). rewrite Hl in Hlt.
  rewrite (u64_id (len vs * e)) by (unfold is_u; nia). destruct (Z.eqb_spec (len vs * e) size) as [Es|Es].
  2:{ right. split; [done|]. by intros ? [= <- <-]. }
  rewrite make_ok. cbn [obind]. destruct (decide (w = e)) as [<- |Hne].
  - left. exists vs. split_and!; [done..|].
    destruct data; cbn in Ei; try discriminate Ei; injection Ei as <- <-; cbn [Z.eqb Pos.eqb];
      (eapply putElems_fits; [|exact Es]; reflexivity).
  - right. split; [|intros ? [= ? ?]; congruence].
    destruct data; cbn in Ei; try discriminate Ei; injection Ei as <- <-;
      (destruct (Z.eqb_spec e 4); [congruence || done|]); (destruct (Z.eqb_spec e 8); [congruence || done|done]).
Qed.

Lemma encodeString_cases data : goLen data * e < 2 ^ 63 ->
  (exists v, data = Strings v /\ len v * e = size /\ encodeStringData data e size = Ret (concat (map (fixedString e) v))) \/
  (is_err (encodeStringData data e size) = true /\ forall v, data = Strings v -> len v * e <> size).
Proof.
  intros Hlt. destruct data; try (right; split; [done|]; by intros ? [=]). cbn in Hlt. pose proof (len_nonneg v).
  unfold encodeStringData. rewrite (u64_id (len v * e)) by (unfold is_u; nia). destruct (Z.eqb_spec (len v * e) size) as [Es|Es]; cbn [negb].
  - left. exists v. split_and!; [done..|]. rewrite make_ok. cbn [obind]. rewrite <- Es, Z.mul_comm. by apply putStrings_all.
  - right. destruct (Z.eqb_spec e 0); [lia|]. split; [done|]. by intros ? [= <-].
Qed.

Lemma encodeValues_no_panic c data : goLen data * e < 2 ^ 63 -> encodeValues c e size data <> Panic.
Proof.
  intros Hlt. unfold encodeValues. destruct (encodeFixed_cases data Hlt) as [(? & _ & _ & E1)|[E1 _]];
    destruct (encodeFloat_cases data Hlt) as [(? & _ & _ & E2)|[E2 _]];
    destruct (encodeString_cases data Hlt) as [(? & _ & _ & E3)|[E3 _]];
  (destruct (_ || _); [by destruct (encodeFixedPointData _ _ _)|]); (destruct (c =? _); [by destruct (encodeFloatData _ _ _)|]);
  (destruct (c =? _); [by destruct (encodeStringData _ _ _)|]); (destruct (c =? _); [|done]);
  unfold encodeOpaqueData; destruct data; try done; by destruct (_ =? _).
Qed.
End encoding.
