(* ===== verification/DatasetValues.v ===== *)
(** * Values: what Write encodes, the readers decode

    The encoders of dataset_write.go against convertToFloat64 and convertToStrings
    of the readers, through the datatype message [CreateDataset] writes. *)

From Stdlib Require Import SpecFloat.
From S2P Require Import Prelude Overflow Allocator Storage Chunks Superblock Messages ObjectHeader Datatype Convert Pipeline ChunkedDataset.
From S2P Require Import GlobalHeap LocalHeap Groups DatasetReader DatasetWrite DatasetLaws.

(** ** Numbers *)

(** The datatype that holds a slice. *)
Definition goKind (data : GoData) : option Z :=
  match data with
  | Int8s _ => Some Int8 | Int16s _ => Some Int16 | Int32s _ => Some Int32 | Int64s _ => Some Int64
  | Uint8s _ => Some Uint8 | Uint16s _ => Some Uint16 | Uint32s _ => Some Uint32 | Uint64s _ => Some Uint64
  | Float32s _ => Some Float32 | Float64s _ => Some Float64
  | _ => None
  end.

Definition signedKind (dt : Z) : bool := dt <=? 3.

(** The elements of the slice are values of its type, integers exact in a
    [float64]. *)
Definition values_ok (data : GoData) : Prop :=
  match goKind data, goInts data, goFloats data with
  | Some dt, Some (w, vs), _ => Forall (int_range (signedKind dt) (8 * w)) vs /\ Forall (fun x => Z.abs x < 2 ^ 53) vs
  | Some _, None, Some (w, vs) => Forall (is_u (8 * w)) vs
  | _, _, _ => False
  end.

Definition decodeFloat (w : Z) (bits : Z) : spec_float :=
  if w =? 4 then float64_of_float32 (Float32frombits bits) else Float64frombits bits.

(** What a reader of [float64] values should see. *)
Definition read_as (data : GoData) (fs : list spec_float) : Prop :=
  match goInts data, goFloats data with
  | Some (_, vs), _ => map SF2Z fs = map Some vs
  | None, Some (w, vs) => fs = map (decodeFloat w) vs
  | None, None => False
  end.

Lemma intBytes_order n vs : intBytes n vs = concat (map (put_order LittleEndian n) vs).
Proof. reflexivity. Qed.

(** Fixed-width floats, element by element. *)
Lemma convert_blocks {A} (w : Z) (vs : list Z) (dec : Z -> A) (read : Z -> outcome A) :
  0 < w -> w * len vs < 2 ^ 63 ->
  (forall j x, vs !! j = Some x -> slice (intBytes (Z.to_nat w) vs) (Z.of_nat j * w) (Z.of_nat j * w + w) = Ret (le_put (Z.to_nat w) x) ->
     Z.of_nat j * w + w <= len (intBytes (Z.to_nat w) vs) -> read (Z.of_nat j) = Ret (dec x)) ->
  convertElements (Z.to_nat (len vs)) 0 read = Ret (map dec vs).
Proof.
  intros Hw Hl Hr. replace (Z.to_nat (len vs)) with (length (map dec vs)) by (rewrite length_map; unfold len; lia).
  assert (Hbl : Forall (fun bs => len bs = w) (map (le_put (Z.to_nat w)) vs)).
  { apply Forall_map, Forall_forall. intros v _. rewrite len_le_put. lia. }
  destruct (concat_block _ w Hbl) as [Hcl Hsl]. rewrite len_map in Hcl.
  apply convertElements_ok. intros j x Hj. rewrite Z.add_0_l. apply list_lookup_fmap_Some in Hj as (v & -> & Hj).
  pose proof (lookup_len _ _ _ Hj). apply (Hr j v Hj).
  - apply (Hsl j). by rewrite list_lookup_fmap, Hj.
  - unfold intBytes. rewrite Hcl. nia.
Qed.

Lemma convert_float64s vs t : IsFloat64 t = true -> GetByteOrder t = LittleEndian -> Forall (is_u 64) vs -> 8 * len vs < 2 ^ 63 ->
  convertToFloat64 (intBytes 8 vs) t (len vs) = Ret (map Float64frombits vs).
Proof.
  intros Ht Ho Hvs Hl. unfold convertToFloat64. rewrite Ht, Ho. apply (convert_blocks 8); [lia|done|].
  intros j x Hj Hs Hle. pose proof (lookup_len _ _ _ Hj). unfold readFloat64.
  rewrite (u64_id (Z.of_nat j * 8)) by (unfold is_u; lia). rewrite u64_id by (unfold is_u; lia).
  change (Z.to_nat 8) with 8%nat in *. destruct (Z.gtb_spec (Z.of_nat j * 8 + 8) (len (intBytes 8 vs))); [lia|]. cbn [negb].
  rewrite Hs. cbn [obind]. change (get_order LittleEndian (le_put 8 x)) with (le_get (le_put 8 x)).
  pose proof (proj1 (Forall_lookup _ _) Hvs j x Hj) as Hx. unfold is_u in Hx. by rewrite le_get_put_small by (change (256 ^ Z.of_nat 8) with (2 ^ 64); lia).
Qed.

Lemma convert_float32s vs t : IsFloat64 t = false -> IsFloat32 t = true -> GetByteOrder t = LittleEndian -> Forall (is_u 32) vs ->
  4 * len vs < 2 ^ 63 ->
  convertToFloat64 (intBytes 4 vs) t (len vs) = Ret (map (fun x => float64_of_float32 (Float32frombits x)) vs).
Proof.
  intros Hn Ht Ho Hvs Hl. unfold convertToFloat64. rewrite Hn, Ht, Ho. apply (convert_blocks 4); [lia|done|].
  intros j x Hj Hs Hle. pose proof (lookup_len _ _ _ Hj). unfold readFloat32.
  rewrite (u64_id (Z.of_nat j * 4)) by (unfold is_u; lia). rewrite u64_id by (unfold is_u; lia).
  change (Z.to_nat 4) with 4%nat in *. destruct (Z.gtb_spec (Z.of_nat j * 4 + 4) (len (intBytes 4 vs))); [lia|]. cbn [negb].
  rewrite Hs. cbn [obind]. change (get_order LittleEndian (le_put 4 x)) with (le_get (le_put 4 x)).
  pose proof (proj1 (Forall_lookup _ _) Hvs j x Hj) as Hx. unfold is_u in Hx. by rewrite le_get_put_small by (change (256 ^ Z.of_nat 4) with (2 ^ 32); lia).
Qed.

(** The datatype message of a numeric type, parsed back. *)
Record numeric_type (data : GoData) (info : datatypeInfo) (t : DatatypeMessage) (dt : Z) : Prop := {
  nt_class : dtClass t = tiClass info;
  nt_size : dtSize t = tiSize info;
  nt_order : GetByteOrder t = LittleEndian;
  nt_int w vs : goInts data = Some (w, vs) -> tiClass info = DatatypeFixed /\ tiSize info = w /\
    IsSignedFixedPoint t = signedKind dt /\ (w = 1 \/ w = 2 \/ w = 4 \/ w = 8);
  nt_float w vs : goInts data = None -> goFloats data = Some (w, vs) -> tiClass info = DatatypeFloat /\ tiSize info = w /\
    (w = 4 \/ w = 8) }.

Lemma kind_numeric data dt config : goKind data = Some dt ->
  exists info td t, getDatatypeInfo dt config = Ret info /\ encodeType dt info = Ret td /\ ParseDatatypeMessage td = Ret t /\
    numeric_type data info t dt.
Proof.
  destruct data; intros [= <-]; eexists _, _, _;
    (split; [reflexivity|]); (split; [reflexivity|]); (split; [vm_compute; reflexivity|]);
    constructor; try reflexivity; intros ? ?; cbn [goInts goFloats]; try discriminate;
    first [intros [= <- <-]|intros _ [= <- <-]]; split_and!; try reflexivity; lia.
Qed.

Section numbers.
Context (data : GoData) (info : datatypeInfo) (t : DatatypeMessage) (dt : Z).
Hypothesis Hnum : numeric_type data info t dt.
Hypothesis Hkind : goKind data = Some dt.
Hypothesis Hok : values_ok data.
Hypothesis Hlen : 8 * goLen data < 2 ^ 63.

Definition encodes_to (buf : bytes) : Prop :=
  encodeValues (tiClass info) (tiSize info) (goLen data * tiSize info) data = Ret buf /\ len buf = goLen data * tiSize info.

Lemma encoded_ints w vs : goInts data = Some (w, vs) ->
  exists buf fs, encodes_to buf /\ convertToFloat64 buf t (goLen data) = Ret fs /\ map SF2Z fs = map Some vs.
Proof.
  intros Hi. destruct (nt_int _ _ _ _ Hnum w vs Hi) as (Hc & Hw & Hsg & Hcases). destruct (len_goInts _ _ _ Hi) as [Hl _].
  unfold values_ok in Hok. rewrite Hkind, Hi in Hok. destruct Hok as [Hr Hb]. pose proof (len_nonneg vs).
  destruct (encodeFixed_cases (tiSize info) (goLen data * tiSize info) ltac:(lia) ltac:(nia) data) as [(vs' & Hi' & _ & Ee)|[_ Hbad]];
    [nia| |exfalso; apply (Hbad vs); [by rewrite Hi, Hw|by rewrite Hl]].
  rewrite Hi in Hi'. injection Hi' as _ <-. exists (intBytes (Z.to_nat w) vs).
  destruct (convert_integers t vs) as (fs & Ec & Hfs);
    [split; [rewrite (nt_class _ _ _ _ Hnum); exact Hc|by rewrite (nt_size _ _ _ _ Hnum), Hw]
    |by rewrite (nt_size _ _ _ _ Hnum), Hw, Hsg|done|rewrite (nt_size _ _ _ _ Hnum), Hw; nia|].
  exists fs. rewrite (nt_size _ _ _ _ Hnum), Hw, (nt_order _ _ _ _ Hnum), <- intBytes_order, <- Hl in Ec.
  split_and!; [split|exact Ec|exact Hfs].
  - unfold encodeValues. rewrite Hc. change (DatatypeFixed =? DatatypeFixed) with true. cbn [orb]. by rewrite Ee, Hw.
  - rewrite len_intBytes, Hl, Hw. nia.
Qed.

Lemma encoded_floats w vs : goInts data = None -> goFloats data = Some (w, vs) ->
  exists buf, encodes_to buf /\ convertToFloat64 buf t (goLen data) = Ret (map (decodeFloat w) vs).
Proof.
  intros Hni Hi. destruct (nt_float _ _ _ _ Hnum w vs Hni Hi) as (Hc & Hw & Hcases).
  assert (Hl : goLen data = len vs) by (destruct data; cbn in Hi; try done; by injection Hi as _ <-).
  unfold values_ok in Hok. rewrite Hkind, Hni, Hi in Hok. pose proof (len_nonneg vs).
  destruct (encodeFloat_cases (tiSize info) (goLen data * tiSize info) ltac:(lia) ltac:(nia) data) as [(vs' & Hi' & _ & Ee)|[_ Hbad]];
    [nia| |exfalso; apply (Hbad vs); [by rewrite Hi, Hw|by rewrite Hl]].
  rewrite Hi in Hi'. injection Hi' as _ <-. exists (intBytes (Z.to_nat w) vs). split; [split|].
  - unfold encodeValues. rewrite Hc. change (DatatypeFloat =? DatatypeFixed) with false.
    change (DatatypeFloat =? DatatypeReference) with false. change (DatatypeFloat =? DatatypeFloat) with true. cbn [orb]. by rewrite Ee, Hw.
  - rewrite len_intBytes, Hl, Hw. nia.
  - assert (F1 : IsFloat64 t = (w =? 8)) by (unfold IsFloat64; by rewrite (nt_class _ _ _ _ Hnum), (nt_size _ _ _ _ Hnum), Hc, Hw).
    assert (F2 : IsFloat32 t = (w =? 4)) by (unfold IsFloat32; by rewrite (nt_class _ _ _ _ Hnum), (nt_size _ _ _ _ Hnum), Hc, Hw).
    pose proof (nt_order _ _ _ _ Hnum). rewrite Hl. destruct Hcases as [-> | ->].
    + apply convert_float32s; try done. lia.
    + apply convert_float64s; try done. lia.
Qed.

Lemma encoded_numbers : exists buf fs, encodes_to buf /\ convertToFloat64 buf t (goLen data) = Ret fs /\ read_as data fs.
Proof.
  unfold read_as. destruct (goInts data) as [[w vs]|] eqn:Ei; [by apply (encoded_ints w)|].
  destruct (goFloats data) as [[w vs]|] eqn:Ef; [|by destruct data].
  destruct (encoded_floats w vs Ei Ef) as (buf & He & Ec). by eexists _, _.
Qed.
End numbers.

(** ** Properties *)

(** C30. Numbers are read back as they were written: for every slice type [Write]
    accepts, the datatype message [CreateDataset] stores for it parses back, the slice
    encodes to a buffer of the dataset's size, and a reader of a dataset with that
    type and buffer gets, for integers (exact up to 2^53), the same integers as
    floats, and for floats the numbers of the same bits. *)
Theorem numbers_read_back `{C : Codecs} fuel f oh sb config dims data dt :
  goKind data = Some dt -> values_ok data -> 8 * goLen data < 2 ^ 63 -> dims <> [] -> mulAll 1 dims = goLen data -> 0 < goLen data ->
  exists info td t buf fs, getDatatypeInfo dt config = Ret info /\ encodeType dt info = Ret td /\ ParseDatatypeMessage td = Ret t /\
    dtSize t = tiSize info /\ encodeValues (tiClass info) (tiSize info) (mulAll 1 dims * tiSize info) data = Ret buf /\
    len buf = mulAll 1 dims * tiSize info /\ read_as data fs /\
    (dataset_reads fuel f oh sb t dims buf -> ReadDatasetFloat64 fuel f oh sb = Ret fs).
Proof.
  intros Hk Hok Hlen Hd Hn Hpos. destruct (kind_numeric data dt config Hk) as (info & td & t & E1 & E2 & E3 & Hnum).
  destruct (encoded_numbers data info t dt Hnum Hk Hok Hlen) as (buf & fs & [He Hl] & Ec & Hr). exists info, td, t, buf, fs. rewrite Hn.
  split_and!; [done|done|done|apply Hnum|done|done|done|]. intros Hreads.
  rewrite (reads_Float64 fuel f oh sb t dims buf Hreads Hd) by lia. by rewrite Hn.
Qed.

Example numbers_read_back_witness :
  exists info td t buf fs, getDatatypeInfo Int16 emptyConfig = Ret info /\ encodeType Int16 info = Ret td /\
    ParseDatatypeMessage td = Ret t /\ encodeValues (tiClass info) (tiSize info) (mulAll 1 [2] * tiSize info) (Int16s [5; -2]) = Ret buf /\
    convertToFloat64 buf t 2 = Ret fs /\ map SF2Z fs = [Some 5; Some (-2)].
Proof.
  destruct (@numbers_read_back Pipeline.storedCodecs 0 [] (mkHeader 2 0 ObjectTypeDataset [] [] 0)
    (mkSuperblock 2 8 8 0 0 LittleEndian 0 0 0 0) emptyConfig [2] (Int16s [5; -2]) Int16)
    as (info & td & t & buf & fs & E1 & E2 & E3 & _ & E5 & _ & E7 & _).
  - reflexivity.
  - split; repeat (apply Forall_cons_2; [by vm_compute|]); apply Forall_nil_2.
  - reflexivity.
  - discriminate.
  - reflexivity.
  - reflexivity.
  - exists info, td, t, buf. destruct (convertToFloat64 buf t 2) as [fs'| |] eqn:Ec.
    + exists fs'. split_and!; try assumption; try reflexivity.
      vm_compute in E1. injection E1 as <-. vm_compute in E2. injection E2 as <-. vm_compute in E3. injection E3 as <-.
      vm_compute in E5. injection E5 as <-. vm_compute in Ec. injection Ec as <-. reflexivity.
    + exfalso. vm_compute in E1. injection E1 as <-. vm_compute in E2. injection E2 as <-. vm_compute in E3. injection E3 as <-.
      vm_compute in E5. injection E5 as <-. vm_compute in Ec. discriminate.
    + exfalso. vm_compute in E1. injection E1 as <-. vm_compute in E2. injection E2 as <-. vm_compute in E3. injection E3 as <-.
      vm_compute in E5. injection E5 as <-. vm_compute in Ec. discriminate.
Defined.

(** ** Strings *)

(** What is left of a string in a field of [w] bytes: cut off at [w] and at its
    first null byte. *)
Definition keptString (w : Z) (s : bytes) : bytes := cstring (take (Z.to_nat w) s).

Lemma cstring_zeros n : cstring (zeros n) = [].
Proof. unfold zeros. by destruct (Z.to_nat n). Qed.

Lemma cstring_app_zeros s n : cstring (s ++ zeros n) = cstring s.
Proof. induction s as [|b s IH]; [apply cstring_zeros|]. cbn [app cstring]. destruct (b2z b =? 0); [done|]. by rewrite IH. Qed.

Lemma cstring_fixedString w s : 0 <= w -> cstring (fixedString w s) = keptString w s.
Proof.
  intros Hw. unfold fixedString, keptString. destruct (Z.le_gt_cases w (len s)).
  - rewrite take_app_le by (unfold len in *; lia). done.
  - rewrite (take_ge s) by (unfold len in *; lia). rewrite take_ge; [apply cstring_app_zeros|].
    pose proof (len_zeros (w - len s) ltac:(lia)). unfold len in *. rewrite length_app. lia.
Qed.

(** The datatype message of strings of [w] bytes, parsed back. *)
Lemma string_type config (w := stringSize config) : 0 < w <= MaxStringSize ->
  exists td t, getDatatypeInfo StringType config = Ret (plainInfo DatatypeString w 0) /\
    encodeType StringType (plainInfo DatatypeString w 0) = Ret td /\ ParseDatatypeMessage td = Ret t /\
    dtClass t = DatatypeString /\ dtSize t = w /\ GetStringPadding t = 0.
Proof.
  intros Hw. assert (Hmax : MaxStringSize = 2 ^ 24) by reflexivity. set (info := plainInfo DatatypeString w 0). set (dt := infoMessage info).
  destruct (parse_header dt [x00]) as [props E3].
  { unfold dt_wf, is_u. change (dtClass dt) with 3. change (dtVersion dt) with 1. change (ClassBitField dt) with 0. change (dtSize dt) with w. lia. }
  exists (headerBytes dt ++ [x00]). eexists. split; [|split; [|split; [exact E3|by split_and!]]].
  - unfold getDatatypeInfo. change (lookupHandler StringType) with (Some stringTypeHandler). cbn [GetInfo]. fold w.
    destruct (Z.eqb_spec w 0); [lia|]. reflexivity.
  - unfold encodeType. change (lookupHandler StringType) with (Some stringTypeHandler). cbn [handlerEncode]. fold dt.
    unfold EncodeDatatypeMessage. change (dtSize dt) with w. destruct (Z.eqb_spec w 0); [lia|]. cbn [negb].
    change (dtClass dt) with DatatypeString. cbn [Z.eqb Pos.eqb orb]. unfold encodeDatatypeString. change (dtSize dt) with w.
    destruct (Z.eqb_spec w 0); [lia|]. cbn [negb]. exact (encodeMessage_ret dt [x00] 1 ltac:(reflexivity)).
Qed.

Lemma convert_strings w v t : 0 < w <= MaxStringSize -> w * len v < 2 ^ 63 -> dtClass t = DatatypeString -> dtSize t = w ->
  GetStringPadding t = 0 -> convertToStrings (concat (map (fixedString w) v)) t (len v) = Ret (map (keptString w) v).
Proof.
  intros Hw Hl Hc Hs Hp. assert (Hbl : Forall (fun bs => len bs = w) (map (fixedString w) v)).
  { apply Forall_map, Forall_forall. intros s _. apply len_fixedString. lia. }
  destruct (concat_block _ w Hbl) as [Hcl Hsl]. rewrite len_map in Hcl. set (buf := concat (map (fixedString w) v)) in *.
  unfold convertToStrings, IsFixedString. rewrite Hc, Hs, Hp. change (negb (DatatypeString =? DatatypeString)) with false. cbn iota.
  destruct (Z.gtb_spec w 0); [|lia]. unfold ValidateBufferSize. destruct (Z.eqb_spec w 0); [lia|].
  destruct (Z.gtb_spec w MaxStringSize); [lia|]. cbn [negb obind].
  replace (Z.to_nat (len v)) with (length (map (keptString w) v)) by (rewrite length_map; unfold len; lia).
  apply convertElements_ok. intros j x Hj. rewrite Z.add_0_l. apply list_lookup_fmap_Some in Hj as (s & -> & Hj).
  pose proof (lookup_len _ _ _ Hj). unfold readString. rewrite (u64_id (Z.of_nat j * w)) by (unfold is_u; nia).
  rewrite u64_id by (unfold is_u; nia). rewrite Hcl. destruct (Z.gtb_spec (Z.of_nat j * w + w) (w * len v)); [nia|]. cbn [negb].
  rewrite (Hsl j (fixedString w s)) by (by rewrite list_lookup_fmap, Hj). cbn [obind].
  change (decodeFixedString ?d 0) with (cstring d). by rewrite cstring_fixedString by lia.
Qed.

Lemma keptString_fits w s : no_nul s -> len s <= w -> keptString w s = s.
Proof.
  intros Hs Hle. unfold keptString. rewrite take_ge by (unfold len in *; lia). clear Hle.
  induction Hs as [|b s Hb _ IH]; [done|]. cbn [cstring]. destruct (Z.eqb_spec (b2z b) 0); [done|]. by rewrite IH.
Qed.

(** C31. Fixed-length strings are read back cut off: a dataset of strings of [w]
    bytes gets a datatype message that parses to a null-terminated string type of
    size [w]; every list of strings of the right number encodes to a buffer of the
    dataset's size; and the reader returns of each string its first [w] bytes up to
    the first null byte - the string itself when it has no null byte and fits. *)
Theorem strings_read_back `{C : Codecs} fuel f oh sb config dims v (w := stringSize config) :
  0 < w <= MaxStringSize -> w * len v < 2 ^ 63 -> dims <> [] -> mulAll 1 dims = len v -> 0 < len v ->
  exists info td t buf, getDatatypeInfo StringType config = Ret info /\ encodeType StringType info = Ret td /\
    ParseDatatypeMessage td = Ret t /\ dtSize t = tiSize info /\
    encodeValues (tiClass info) (tiSize info) (mulAll 1 dims * tiSize info) (Strings v) = Ret buf /\
    len buf = mulAll 1 dims * tiSize info /\
    (forall s, no_nul s -> len s <= w -> keptString w s = s) /\
    (dataset_reads fuel f oh sb t dims buf -> ReadDatasetStrings fuel f oh sb = Ret (map (keptString w) v)).
Proof.
  intros Hw Hl Hd Hn Hpos. destruct (string_type config Hw) as (td & t & E1 & E2 & E3 & Hc & Hs & Hp). fold w in E1, E2, Hs.
  pose proof (len_nonneg v). destruct (encodeString_cases w (len v * w) ltac:(lia) ltac:(lia) (Strings v)) as [(v' & [= <-] & _ & Ee)|[_ Hbad]];
    [cbn [goLen]; lia| |exfalso; by apply (Hbad v)].
  assert (Hbl : Forall (fun bs => len bs = w) (map (fixedString w) v)).
  { apply Forall_map, Forall_forall. intros s _. apply len_fixedString. lia. }
  destruct (concat_block _ w Hbl) as [Hcl _]. rewrite len_map in Hcl.
  eexists _, td, t, (concat (map (fixedString w) v)). rewrite Hn. cbn [tiSize tiClass plainInfo].
  split_and!; [exact E1|exact E2|exact E3|exact Hs|exact Ee|rewrite Hcl; apply Z.mul_comm|by apply keptString_fits|].
  intros Hreads. rewrite (reads_Strings fuel f oh sb t dims _ Hreads Hd) by (lia || (unfold IsString; by rewrite Hc)).
  rewrite Hn. by apply convert_strings.
Qed.

Example strings_read_back_witness : exists info td t buf,
  getDatatypeInfo StringType (mkConfig 3 [] [] [] [] 0 [] None false []) = Ret info /\ encodeType StringType info = Ret td /\
  ParseDatatypeMessage td = Ret t /\
  encodeValues (tiClass info) (tiSize info) (mulAll 1 [2] * tiSize info) (Strings [[x61; x62; x63; x64]; [x65]]) = Ret buf.
Proof.
  destruct (@strings_read_back Pipeline.storedCodecs 0 [] (mkHeader 2 0 ObjectTypeDataset [] [] 0)
    (mkSuperblock 2 8 8 0 0 LittleEndian 0 0 0 0) (mkConfig 3 [] [] [] [] 0 [] None false []) [2] [[x61; x62; x63; x64]; [x65]])
    as (info & td & t & buf & E1 & E2 & E3 & _ & E5 & _).
  - split; reflexivity || (vm_compute; congruence).
  - reflexivity.
  - discriminate.
  - reflexivity.
  - reflexivity.
  - exists info, td, t, buf. split_and!; assumption.
Defined.
