(* ===== verification/Hyperslab.v ===== *)
(** * Partial reads: dataset_read_hyperslab.go and dataset_chunk_iterator.go

    A hyperslab selects, in every dimension, [Count] blocks of [Block] elements,
    [Stride] apart, from [Start] on.  The three layouts are read by different
    routines; the reference they are compared with takes the elements at the
    selected points out of the whole dataset. *)

From Stdlib Require Import SpecFloat.
From S2P Require Import Prelude Overflow Grid Chunks Superblock Messages ObjectHeader Datatype Convert Storage BTreeV1 Pipeline ChunkedDataset.
From S2P Require Import Groups DatasetReader.

(** ** Selections *)

(** A nil [Stride] or [Block] is [None]. *)
Record HyperslabSelection := mkSelection {
  Start : list Z;
  Count : list Z;
  Stride : option (list Z);
  Block : option (list Z) }.

(** A nil slice has no elements. *)
Definition strides_ (sel : HyperslabSelection) : list Z := default [] (Stride sel).
Definition blocks_ (sel : HyperslabSelection) : list Z := default [] (Block sel).

Definition validateSelectionDimensions (sel : HyperslabSelection) (ndims : Z) : outcome unit :=
  guard len (Start sel) =? ndims else "start dimensions != dataset dimensions";;
  guard len (Count sel) =? ndims else "count dimensions != dataset dimensions";;
  guard (match Stride sel with Some s => len s =? ndims | None => true end)
    else "stride dimensions != dataset dimensions";;
  guard (match Block sel with Some b => len b =? ndims | None => true end)
    else "block dimensions != dataset dimensions";;
  Ret tt.

Definition fillHyperslabDefaults (sel : HyperslabSelection) (ndims : Z) : HyperslabSelection :=
  let ones := replicate (Z.to_nat ndims) 1 in
  mkSelection (Start sel) (Count sel) (Some (default ones (Stride sel))) (Some (default ones (Block sel))).

Definition validateDimensionBounds (sel : HyperslabSelection) (dims : list Z) (dim : Z) : outcome unit :=
  let! count := idx (Count sel) dim in
  guard negb (count =? 0) else "count must be > 0";;
  let! stride := idx (strides_ sel) dim in
  guard negb (stride =? 0) else "stride must be > 0";;
  let! block := idx (blocks_ sel) dim in
  guard negb (block =? 0) else "block must be > 0";;
  let! start := idx (Start sel) dim in
  let lastCoord := u64 (start + u64 (count - 1) * stride + block) in
  let! size := idx dims dim in
  guard negb (lastCoord >? size) else "selection out of bounds";;
  Ret tt.

Definition validateHyperslabBounds (sel : HyperslabSelection) (dims : list Z) : outcome unit :=
  let! _ := ValidateHyperslabBounds (Start sel) (Count sel) (strides_ sel) dims in
  let! _ := CalculateHyperslabElements (Count sel) in
  for_loop (length dims) 0 (fun i _ => validateDimensionBounds sel dims i) tt.

(** The defaults are filled into the caller's selection. *)
Definition validateHyperslabSelection (sel : HyperslabSelection) (dims : list Z) : outcome HyperslabSelection :=
  let! _ := validateSelectionDimensions sel (len dims) in
  let sel := fillHyperslabDefaults sel (len dims) in
  let! _ := validateHyperslabBounds sel dims in
  Ret sel.

Definition calculateHyperslabOutputSize (sel : HyperslabSelection) : outcome Z :=
  if len (Count sel) =? 0 then Ret 0
  else for_loop (length (Count sel)) 0 (fun i total =>
    let! blockSize := idx (blocks_ sel) i in
    let blockSize := if blockSize =? 0 then 1 else blockSize in
    let! count := idx (Count sel) i in
    Ret (u64 (total * u64 (count * blockSize)))) 1.

(** ** Walking over a selection *)

(** The loops over dimensions from the last to the first that add up a position
    and multiply up a stride; [term i] is the position and the extent in
    dimension [i]. *)
Definition rowMajor (n : nat) (term : Z -> outcome (Z * Z)) : outcome Z :=
  let! (index, _) :=
    for_loop n 0 (fun k '(index, stride) =>
      let! (pos, extent) := term (Z.of_nat n - 1 - k) in
      Ret (u64 (index + pos * stride), u64 (stride * extent))) (0, 1) in
  Ret index.

Definition calculateLinearOffset (coords dims : list Z) : outcome Z :=
  rowMajor (length coords) (fun i =>
    let! c := idx coords i in let! d := idx dims i in Ret (c, d)).

(** The double loop over the coordinates selected in dimension [dim]. *)
Definition blockLoop {S : Type} (sel : HyperslabSelection) (dim : Z) (body : Z -> S -> outcome S) (s : S) : outcome S :=
  let! count := idx (Count sel) dim in
  for_loop (Z.to_nat count) 0 (fun c s =>
    let! start := idx (Start sel) dim in
    let! stride := idx (strides_ sel) dim in
    let blockStart := u64 (start + c * stride) in
    let! block := idx (blocks_ sel) dim in
    for_loop (Z.to_nat block) 0 (fun b s => body (u64 (blockStart + b)) s) s) s.

(** [copy(dst[o:o+n], src[p:p+n])] on [uint64] offsets. *)
Definition copyElement (dst src : bytes) (o p n : Z) : outcome bytes :=
  let! _ := slice dst o (u64 (o + n)) in
  let! s := slice src p (u64 (p + n)) in
  put_bytes dst o s.

Section extract.
Context (rawData : bytes) (dims : list Z) (selection : HyperslabSelection) (elementSize : Z).

(** [n] dimensions are left from [dimIdx] on.  The array of coordinates is
    shared by all calls, but a call sets its own entry before anything reads it. *)
Fixpoint extractHyperslabRecursive (n : nat) (coords : list Z) (dimIdx : Z) (s : bytes * Z) : outcome (bytes * Z) :=
  match n with
  | O =>
      let! offset := calculateLinearOffset coords dims in
      let byteOffset := u64 (offset * elementSize) in
      if u64 (byteOffset + elementSize) >? len rawData then Ret s
      else
        let '(outputData, outputIdx) := s in
        let! outputData := copyElement outputData rawData (u64 (outputIdx * elementSize)) byteOffset elementSize in
        Ret (outputData, u64 (outputIdx + 1))
  | S n =>
      blockLoop selection dimIdx (fun coord s =>
        let! coords := set_idx coords dimIdx coord in
        let! d := idx dims dimIdx in
        if coord >=? d then Ret s
        else extractHyperslabRecursive n coords (dimIdx + 1) s) s
  end.
End extract.

(** [copy(coords, src)] into a new array of [n] zeros. *)
Definition copyInto (n : Z) (src : list Z) : list Z :=
  take (Z.to_nat n) src ++ replicate (Z.to_nat n - length src) 0.

(** [make([]byte, n)] for a [uint64]. *)
Definition makeBytes (n : Z) : outcome bytes := if n >=? 2 ^ 63 then Panic else Ret (zeros n).

Definition extractHyperslabFromRawData (selection : HyperslabSelection) (datatype : DatatypeMessage)
    (dataspace : DataspaceMessage) (rawData : bytes) : outcome (list spec_float) :=
  let elementSize := dtSize datatype in
  let dims := Dimensions dataspace in
  let! outputElements := calculateHyperslabOutputSize selection in
  if outputElements =? 0 then Ret []
  else
    let! outputData := makeBytes (u64 (outputElements * elementSize)) in
    let coords := copyInto (len dims) (Start selection) in
    let! (outputData, _) := extractHyperslabRecursive rawData dims selection elementSize (length dims) coords 0 (outputData, 0) in
    convertToFloat64 outputData datatype outputElements.

(** ** Contiguous datasets *)

Definition isContiguousSelection (sel : HyperslabSelection) (dims : list Z) : outcome bool :=
  if len dims =? 0 then Ret true
  else
    let lastDim := len dims - 1 in
    let! stride := idx (strides_ sel) lastDim in
    let! block := idx (blocks_ sel) lastDim in
    if negb (stride =? 1) || negb (block =? 1) then Ret false
    else
      let! count := idx (Count sel) lastDim in
      let! d := idx dims lastDim in
      Ret (u64 (count * block) =? d).

Section contiguous.
Context (file : bytes) (selection : HyperslabSelection) (datatype : DatatypeMessage)
  (dataspace : DataspaceMessage) (layout : DataLayoutMessage).
Let elementSize := dtSize datatype.
Let dims := Dimensions dataspace.

(** One run of bytes from the first selected element on. *)
Definition readContiguousOptimized : outcome (list spec_float) :=
  let! outputElements := calculateHyperslabOutputSize selection in
  if outputElements =? 0 then Ret []
  else
    let! startOffset :=
      (if len dims =? 1 then let! s := idx (Start selection) 0 in Ret (u64 (s * elementSize))
       else let! startLinearOffset := calculateLinearOffset (Start selection) dims in
            Ret (u64 (startLinearOffset * elementSize))) in
    let byteCount := u64 (outputElements * elementSize) in
    let! _ := makeBytes byteCount in
    let! outputData := read_at file (i64 (u64 (DataAddress layout + startOffset))) byteCount in
    convertToFloat64 outputData datatype outputElements.

(** Element by element, in row-major order. *)
Definition readContiguous2DOptimized : outcome (list spec_float) :=
  let! outputElements := calculateHyperslabOutputSize selection in
  let! outputData := makeBytes (u64 (outputElements * elementSize)) in
  let! (outputData, _) :=
    blockLoop selection 0 (fun row s =>
      let! d0 := idx dims 0 in
      if row >=? d0 then Ret s
      else blockLoop selection 1 (fun col s =>
        let! d1 := idx dims 1 in
        if col >=? d1 then Ret s
        else
          let '(outputData, outputIdx) := s in
          let linearOffset := u64 (row * d1 + col) in
          let byteOffset := u64 (DataAddress layout + linearOffset * elementSize) in
          let lo := u64 (outputIdx * elementSize) in
          let! window := slice outputData lo (u64 (u64 (outputIdx + 1) * elementSize)) in
          let! element := read_at file (i64 byteOffset) (len window) in
          let! outputData := put_bytes outputData lo element in
          Ret (outputData, u64 (outputIdx + 1))) s) (outputData, 0) in
  convertToFloat64 outputData datatype outputElements.

(** The lower and upper corner of the selection. *)
Definition boundingBox : outcome (list Z * list Z) :=
  for_loop (length dims) 0 (fun i '(minCoords, maxCoords) =>
    let! start := idx (Start selection) i in
    let! count := idx (Count selection) i in
    let! stride := idx (strides_ selection) i in
    let! block := idx (blocks_ selection) i in
    Ret (minCoords ++ [start], maxCoords ++ [u64 (start + u64 (count - 1) * stride + block)])) ([], []).

Definition readContiguousRowByRow : outcome (list spec_float) :=
  let! outputElements := calculateHyperslabOutputSize selection in
  if outputElements =? 0 then Ret []
  else
    let! outputData := makeBytes (u64 (outputElements * elementSize)) in
    if len dims =? 2 then readContiguous2DOptimized
    else
      let! (minCoords, maxCoords) := boundingBox in
      let boundingElements := mulAll 1 (zip_with (fun hi lo => u64 (hi - lo)) maxCoords minCoords) in
      let byteCount := u64 (boundingElements * elementSize) in
      let! _ := makeBytes byteCount in
      let! offset := calculateLinearOffset minCoords dims in
      let startOffset := u64 (offset * elementSize) in
      let! rawData := read_at file (i64 (u64 (DataAddress layout + startOffset))) byteCount in
      let coords := copyInto (len dims) (Start selection) in
      let! (outputData, _) := extractHyperslabRecursive rawData dims selection elementSize (length dims) coords 0 (outputData, 0) in
      convertToFloat64 outputData datatype outputElements.

Definition readHyperslabContiguous : outcome (list spec_float) :=
  let! contiguous :=
    (if len dims =? 1 then Ret true else isContiguousSelection selection dims) in
  if contiguous then readContiguousOptimized else readContiguousRowByRow.
End contiguous.

(** ** Chunked datasets *)

(** Unsigned division; dividing by zero panics. *)
Definition divide (a b : Z) : outcome Z := if b =? 0 then Panic else Ret (a / b).

Definition findOverlappingBounds (sel : HyperslabSelection) (chunkDims datasetDims : list Z) : outcome (list Z * list Z) :=
  for_loop (length (Start sel)) 0 (fun i '(firstChunk, lastChunk) =>
    let! start := idx (Start sel) i in
    let! chunkDim := idx chunkDims i in
    let! first := divide start chunkDim in
    let! count := idx (Count sel) i in
    let! stride := idx (strides_ sel) i in
    let! block := idx (blocks_ sel) i in
    let endPos := u64 (start + u64 (count - 1) * stride + block - 1) in
    let! d := idx datasetDims i in
    let endPos := if endPos >=? d then u64 (d - 1) else endPos in
    let! last := divide endPos chunkDim in
    Ret (firstChunk ++ [first], lastChunk ++ [last])) ([], []).

(** [current] holds the coordinates of the dimensions done; the result is
    appended to.  The counter cannot pass [last]: that is below 2^64 - 1 for a
    dataset without an empty dimension. *)
Fixpoint generateChunkCoordsRecursive (first last current : list Z) (result : list (list Z)) : list (list Z) :=
  match first, last with
  | f :: first, l :: last =>
      fold_left (fun result i => generateChunkCoordsRecursive first last (current ++ [i]) result)
        (seqZ f (l - f + 1)) result
  | _, _ => result ++ [current]
  end.

Definition generateChunkCoordinates (first last : list Z) : outcome (list (list Z)) :=
  if len first =? 0 then Ret []
  else
    let totalChunks := fold_left (fun t '(f, l) => i64 (t * i64 (u64 (l - f + 1)))) (zip first last) 1 in
    if totalChunks <? 0 then Panic
    else Ret (generateChunkCoordsRecursive first last [] []).

Definition findOverlappingChunks (sel : HyperslabSelection) (chunkDims datasetDims : list Z) : outcome (list (list Z)) :=
  let! (first, last) := findOverlappingBounds sel chunkDims datasetDims in
  generateChunkCoordinates first last.

(** [Sprintf("%d")] of a [uint64]. *)
Fixpoint digits (fuel : nat) (n : Z) (acc : bytes) : bytes :=
  match fuel with
  | O => acc
  | S fuel =>
      let acc := z2b (48 + n mod 10) :: acc in
      if n / 10 =? 0 then acc else digits fuel (n / 10) acc
  end.
Definition decimal (n : Z) : bytes := digits 20 n [].

(** [strings.Join] with a comma. *)
Fixpoint join (parts : list bytes) : bytes :=
  match parts with
  | [] => []
  | [p] => p
  | p :: rest => p ++ x2c :: join rest
  end.

Definition chunkCoordsToKey (coords : list Z) : bytes := join (map decimal coords).

Record chunkIndexEntry := mkIndexEntry { ieAddress : Z; ieNbytes : Z }.

(** The map from keys to chunks; a later chunk replaces an earlier one. *)
Fixpoint indexChunks (ndims : Z) (chunks : list ChunkEntry) (chunkIndex : gmap bytes chunkIndexEntry)
    : outcome (gmap bytes chunkIndexEntry) :=
  match chunks with
  | [] => Ret chunkIndex
  | chunk :: rest =>
      let! coords := slice (Scaled (Key chunk)) 0 ndims in
      indexChunks ndims rest
        (<[chunkCoordsToKey coords := mkIndexEntry (Address chunk) (Nbytes (Key chunk))]> chunkIndex)
  end.

Definition selectionOutputIndex (coords : list Z) (sel : HyperslabSelection) : outcome Z :=
  rowMajor (length coords) (fun i =>
    let! coord := idx coords i in
    let! start := idx (Start sel) i in
    let rel := u64 (coord - start) in
    let! stride := idx (strides_ sel) i in
    let! block := idx (blocks_ sel) i in
    let! count := idx (Count sel) i in
    let pos := if stride <=? 1 then rel else u64 (rel / stride * block + rel mod stride) in
    Ret (pos, u64 (count * block))).

(** Lower and upper corner of a chunk, the upper one cut off at the dataset's. *)
Definition chunkCorners (chunkCoord chunkDims datasetDims : list Z) : outcome (list Z * list Z) :=
  for_loop (length chunkCoord) 0 (fun i '(chunkStart, chunkEnd) =>
    let! coord := idx chunkCoord i in
    let! chunkDim := idx chunkDims i in
    let! d := idx datasetDims i in
    let start := u64 (coord * chunkDim) in
    let end_ := u64 (start + chunkDim) in
    Ret (chunkStart ++ [start], chunkEnd ++ [if end_ >? d then d else end_])) ([], []).

Section portion.
Context (chunkData : bytes) (chunkStart chunkEnd chunkDims : list Z) (selection : HyperslabSelection) (elementSize : Z).

Definition inChunk (coords : list Z) : outcome bool :=
  for_loop (length coords) 0 (fun i inside =>
    if inside : bool then
      let! c := idx coords i in
      let! lo := idx chunkStart i in
      let! hi := idx chunkEnd i in
      Ret (negb ((c <? lo) || (c >=? hi)))
    else Ret false) true.

Definition chunkOffset (coords : list Z) : outcome Z :=
  rowMajor (length coords) (fun i =>
    let! c := idx coords i in
    let! lo := idx chunkStart i in
    let! d := idx chunkDims i in
    Ret (u64 (c - lo), d)).

(** A coordinate at or past the end of the chunk ends the call, both of its
    loops: the flag says that it has. *)
Fixpoint extractChunkPortionRecursive (n : nat) (coords : list Z) (dim : Z) (outputData : bytes) : outcome bytes :=
  match n with
  | O =>
      let! inside := inChunk coords in
      if negb inside then Ret outputData
      else
        let! offset := chunkOffset coords in
        let srcOffset := u64 (offset * elementSize) in
        let! index := selectionOutputIndex coords selection in
        let dstOffset := u64 (index * elementSize) in
        if (u64 (srcOffset + elementSize) <=? len chunkData) && (u64 (dstOffset + elementSize) <=? len outputData)
        then copyElement outputData chunkData dstOffset srcOffset elementSize
        else Ret outputData
  | S n =>
      let! (outputData, _) :=
        blockLoop selection dim (fun coord '(outputData, returned) =>
          if returned : bool then Ret (outputData, true)
          else
            let! coords := set_idx coords dim coord in
            let! hi := idx chunkEnd dim in
            if coord >=? hi then Ret (outputData, true)
            else
              let! outputData := extractChunkPortionRecursive n coords (dim + 1) outputData in
              Ret (outputData, false)) (outputData, false) in
      Ret outputData
  end.
End portion.

Definition extractChunkPortion (chunkData : bytes) (chunkCoord chunkDims datasetDims : list Z) (selection : HyperslabSelection)
    (elementSize : Z) (outputData : bytes) : outcome bytes :=
  let! (chunkStart, chunkEnd) := chunkCorners chunkCoord chunkDims datasetDims in
  extractChunkPortionRecursive chunkData chunkStart chunkEnd chunkDims selection elementSize
    (length chunkCoord) (copyInto (len chunkCoord) (Start selection)) 0 outputData.

Section chunked.
Context `{C : Codecs}.
Context (file : bytes) (selection : HyperslabSelection) (chunkDims datasetDims : list Z) (elementSize : Z)
  (filterPipeline : option FilterPipelineMessage).

(** A chunk that is not in the index leaves zeros. *)
Definition extractFromChunk (chunkIndex : gmap bytes chunkIndexEntry) (chunkCoord : list Z) (outputData : bytes) : outcome bytes :=
  match chunkIndex !! chunkCoordsToKey chunkCoord with
  | None => Ret outputData
  | Some chunkInfo =>
      let! chunkData := read_at file (i64 (ieAddress chunkInfo)) (ieNbytes chunkInfo) in
      let! chunkData := unfilterChunk filterPipeline chunkData in
      extractChunkPortion chunkData chunkCoord chunkDims datasetDims selection elementSize outputData
  end.

Fixpoint extractFromChunks (chunkIndex : gmap bytes chunkIndexEntry) (chunkCoords : list (list Z)) (outputData : bytes)
    : outcome bytes :=
  match chunkCoords with
  | [] => Ret outputData
  | chunkCoord :: rest =>
      let! outputData := extractFromChunk chunkIndex chunkCoord outputData in
      extractFromChunks chunkIndex rest outputData
  end.
End chunked.

Section readers.
Context `{C : Codecs}.

(** [fuel] bounds the height of the index tree. *)
Definition readHyperslabChunked (fuel : nat) (file : bytes) (sb : Superblock) (selection : HyperslabSelection)
    (datatype : DatatypeMessage) (dataspace : DataspaceMessage) (layout : DataLayoutMessage)
    (filterPipeline : option FilterPipelineMessage) : outcome (list spec_float) :=
  let elementSize := dtSize datatype in
  let dims := Dimensions dataspace in
  let chunkDims := ChunkSize layout in
  let! outputElements := calculateHyperslabOutputSize selection in
  if outputElements =? 0 then Ret []
  else
    let! overlappingChunks := findOverlappingChunks selection chunkDims dims in
    if len overlappingChunks =? 0 then Ret []
    else
      let! btreeNode := ParseBTreeV1Node file (DataAddress layout) (OffsetSize sb) (length chunkDims) chunkDims in
      let! allChunks := CollectAllChunks fuel file btreeNode (OffsetSize sb) chunkDims in
      let! chunkIndex := indexChunks (len dims) allChunks ∅ in
      let! outputData := makeBytes (u64 (outputElements * elementSize)) in
      let! outputData := extractFromChunks file selection chunkDims dims elementSize filterPipeline chunkIndex
        overlappingChunks outputData in
      convertToFloat64 outputData datatype outputElements.

(** ** The readers *)

Definition dispatchHyperslabReader (fuel : nat) (file : bytes) (sb : Superblock) (selection : HyperslabSelection)
    (datatype : DatatypeMessage) (dataspace : DataspaceMessage) (layout : DataLayoutMessage)
    (filterPipeline : option FilterPipelineMessage) : outcome (list spec_float) :=
  if IsCompact layout then extractHyperslabFromRawData selection datatype dataspace (CompactData layout)
  else if IsContiguous layout then readHyperslabContiguous file selection datatype dataspace layout
  else if IsChunked layout then readHyperslabChunked fuel file sb selection datatype dataspace layout filterPipeline
  else Err "unsupported layout class".

(** The last message of each type; the pipeline is parsed last. *)
Definition readHyperslab (fuel : nat) (file : bytes) (sb : Superblock) (selection : HyperslabSelection) (header : ObjectHeader)
    : outcome (list spec_float) :=
  let! (datatypeMsg, dataspaceMsg, layoutMsg) := findMessages (hMessages header) in
  let! datatype := ParseDatatypeMessage datatypeMsg in
  let! dataspace := ParseDataspaceMessage dataspaceMsg in
  let! layout := ParseDataLayoutMessage layoutMsg sb in
  let! filterPipeline := parsePipeline (lastMessage MsgFilterPipeline (hMessages header)) in
  dispatchHyperslabReader fuel file sb selection datatype dataspace layout filterPipeline.

(** Both readers check against the first dataspace message. *)
Definition firstDataspace (header : ObjectHeader) : outcome DataspaceMessage :=
  match firstMessage MsgDataspace (hMessages header) with
  | None => Err "dataspace message not found in dataset"
  | Some data => ParseDataspaceMessage data
  end.

Definition ReadHyperslab (fuel : nat) (file : bytes) (sb : Superblock) (address : Z) (selection : HyperslabSelection)
    : outcome (list spec_float) :=
  let! header := ReadObjectHeader fuel file address sb in
  let! dataspace := firstDataspace header in
  let! selection := validateHyperslabSelection selection (Dimensions dataspace) in
  readHyperslab fuel file sb selection header.

Definition ReadSlice (fuel : nat) (file : bytes) (sb : Superblock) (address : Z) (start count : list Z) : outcome (list spec_float) :=
  let! header := ReadObjectHeader fuel file address sb in
  let! dataspace := firstDataspace header in
  let dims := Dimensions dataspace in
  guard len start =? len dims else "start dimensions != dataset dimensions";;
  guard len count =? len dims else "count dimensions != dataset dimensions";;
  let! _ := for_loop (length start) 0 (fun i _ =>
    let! s := idx start i in let! c := idx count i in let! d := idx dims i in
    guard negb (u64 (s + c) >? d) else "selection out of bounds";; Ret tt) tt in
  let selection := fillHyperslabDefaults (mkSelection start count None None) (len dims) in
  readHyperslab fuel file sb selection header.
End readers.
