(* ===== verification/HyperslabLaws.v ===== *)
(** * What partial reads promise: the theorems about Hyperslab.v

    The reference is the list of the selected points in row-major order; a read
    is right when it returns the elements of the whole dataset at these points. *)

From Stdlib Require Import SpecFloat.
From S2P Require Import Prelude Overflow Grid Chunks Superblock Messages ObjectHeader Datatype Convert Storage BTreeV1 Pipeline ChunkedDataset.
From S2P Require Import Groups DatasetReader Hyperslab.

(** ** The reference *)

(** A selection along one dimension. *)
Record axis := mkAxis { aStart : Z; aCount : Z; aStride : Z; aBlock : Z }.

Definition axis_coords (a : axis) : list Z :=
  flat_map (fun c => map (fun b => aStart a + c * aStride a + b) (seqZ 0 (aBlock a))) (seqZ 0 (aCount a)).

(** The selected points in row-major order. *)
Fixpoint points (axes : list axis) : list (list Z) :=
  match axes with
  | [] => [[]]
  | a :: axes => flat_map (fun x => map (cons x) (points axes)) (axis_coords a)
  end.

(** The selected elements of a dataset of dimensions [dims]. *)
Definition selected (es : Z) (dims : list Z) (raw : bytes) (axes : list axis) : list bytes :=
  map (fun p => elem es raw (lin dims p)) (points axes).

(** The selection lies inside a dimension of size [d]. *)
Definition axis_in (d : Z) (a : axis) : Prop :=
  0 <= aStart a /\ 0 < aCount a /\ 0 < aStride a < 2 ^ 64 /\ 0 < aBlock a /\
  aStart a + (aCount a - 1) * aStride a + aBlock a <= d /\ d < 2 ^ 64.

Definition selOf (axes : list axis) : HyperslabSelection :=
  mkSelection (map aStart axes) (map aCount axes) (Some (map aStride axes)) (Some (map aBlock axes)).

(** The number of points selected along a dimension. *)
Definition extent (a : axis) : Z := aCount a * aBlock a.

(** ** Points *)

Lemma elem_of_axis a x :
  x ∈ axis_coords a <-> exists c b, 0 <= c < aCount a /\ 0 <= b < aBlock a /\ x = aStart a + c * aStride a + b.
Proof.
  unfold axis_coords. rewrite list_elem_of_In, in_flat_map. split.
  - intros (c & Hc & Hx). rewrite <- list_elem_of_In, elem_of_seqZ in Hc. apply in_map_iff in Hx as (b & <- & Hb).
    rewrite <- list_elem_of_In, elem_of_seqZ in Hb. exists c, b. split_and!; (lia || done).
  - intros (c & b & Hc & Hb & ->). exists c. rewrite <- list_elem_of_In, elem_of_seqZ. split; [lia|].
    apply in_map_iff. exists b. rewrite <- list_elem_of_In, elem_of_seqZ. split; [done|lia].
Qed.

Lemma axis_coords_range d a x : axis_in d a -> x ∈ axis_coords a -> 0 <= x < d.
Proof. intros (? & ? & ? & ? & ? & ?) (c & b & ? & ? & ->)%elem_of_axis. nia. Qed.

Lemma points_in_box dims axes p : Forall2 axis_in dims axes -> p ∈ points axes -> in_box dims p.
Proof.
  intros H. revert p. induction H as [|d a dims axes Ha H IH]; intros p Hp; cbn in Hp.
  - apply list_elem_of_singleton in Hp as ->. constructor.
  - rewrite list_elem_of_In, in_flat_map in Hp. destruct Hp as (x & Hx & Hp).
    rewrite <- list_elem_of_In in Hx. apply in_map_iff in Hp as (q & <- & Hq). rewrite <- list_elem_of_In in Hq.
    apply in_box_cons. split; [by eapply axis_coords_range|by apply IH].
Qed.

Lemma len_flat_map {A B} (f : A -> list B) n l : (forall x, x ∈ l -> len (f x) = n) -> len (flat_map f l) = len l * n.
Proof.
  induction l as [|x l IH]; intros H; cbn [flat_map]; [done|]. rewrite len_app, len_cons, H by left.
  rewrite IH by (intros y Hy; apply H; by right). lia.
Qed.

Lemma len_seqZ a n : len (seqZ a n) = Z.max 0 n.
Proof. unfold len. rewrite length_seqZ. lia. Qed.

Lemma len_axis_coords d a : axis_in d a -> len (axis_coords a) = extent a.
Proof.
  intros (? & ? & ? & ? & ? & ?). unfold axis_coords, extent.
  rewrite (len_flat_map _ (aBlock a)); [rewrite len_seqZ; lia|]. intros c _. rewrite len_map, len_seqZ. lia.
Qed.

Lemma len_points dims axes : Forall2 axis_in dims axes -> len (points axes) = prod (map extent axes).
Proof.
  induction 1 as [|d a dims axes Ha H IH]; [done|]. cbn [points map]. rewrite prod_cons.
  rewrite (len_flat_map _ (prod (map extent axes))); [by rewrite (len_axis_coords d)|].
  intros x _. by rewrite len_map.
Qed.

Lemma extents_pos dims axes : Forall2 axis_in dims axes -> Forall (fun n => 0 < n) (map extent axes).
Proof. induction 1 as [|d a dims axes Ha H IH]; constructor; [|done]. unfold extent. destruct Ha. nia. Qed.

(** ** The loops *)

Lemma concat_singletons' {A B} (f : A -> B) l : concat (map (fun x => [f x]) l) = map f l.
Proof. induction l as [|x l IH]; cbn [map concat app]; [done|]. by rewrite IH. Qed.

Lemma obind_ret_r {A} (m : outcome A) : obind m (fun a => Ret a) = m.
Proof. by destruct m. Qed.

Lemma idx_map {A} (f : A -> Z) axes i a : axes !! i = Some a -> idx (map f axes) (Z.of_nat i) = Ret (f a).
Proof. intros H. apply idx_lookup. by rewrite list_lookup_fmap, H. Qed.

Lemma blockLoop_each {S} axes i a d (body : Z -> S -> outcome S) s :
  axes !! i = Some a -> axis_in d a ->
  blockLoop (selOf axes) (Z.of_nat i) body s = for_each (axis_coords a) body s.
Proof.
  intros Hi (? & ? & ? & ? & ? & ?). unfold blockLoop.
  change (strides_ (selOf axes)) with (map aStride axes). change (blocks_ (selOf axes)) with (map aBlock axes).
  cbn [selOf Start Count]. rewrite !(idx_map _ _ _ _ Hi). cbn [obind]. rewrite for_loop_each, Z2Nat.id by lia.
  unfold axis_coords. rewrite for_each_flat_map. apply for_each_ext. intros c t Hc%elem_of_seqZ.
  rewrite for_loop_each, Z2Nat.id, for_each_map by lia.
  apply for_each_ext. intros b u Hb%elem_of_seqZ. f_equal.
  rewrite (u64_id (aStart a + c * aStride a)) by (unfold is_u; nia). apply u64_id. unfold is_u. nia.
Qed.

(** Loops that collect two lists. *)
Lemma for_loop_gather {A B C} (f : A -> B) (g : A -> C) (step : Z -> list B * list C -> outcome (list B * list C)) (l : list A) :
  (forall k x xs ys, l !! k = Some x -> step (Z.of_nat k) (xs, ys) = Ret (xs ++ [f x], ys ++ [g x])) ->
  for_loop (length l) 0 step ([], []) = Ret (map f l, map g l).
Proof.
  intros Hstep.
  assert (forall post pre, l = pre ++ post ->
    for_loop (length post) (Z.of_nat (length pre)) step (map f pre, map g pre) = Ret (map f l, map g l)) as G.
  { induction post as [|x post IH]; intros pre Hpre; cbn [length for_loop]; [by rewrite Hpre, app_nil_r|].
    rewrite (Hstep _ x) by (rewrite Hpre; by apply list_lookup_middle). cbn [obind].
    specialize (IH (pre ++ [x])). rewrite !map_app, length_app, Nat2Z.inj_add in IH. apply IH. by rewrite <- app_assoc. }
  exact (G l [] eq_refl).
Qed.

(** The position loops compute row-major indices. *)
Lemma rowMajor_ok ps : forall ds term,
  length ps = length ds ->
  (forall i p d, ps !! i = Some p -> ds !! i = Some d -> term (Z.of_nat i) = Ret (p, d)) ->
  rowMajor (length ds) term = Ret (u64 (lin ds ps)).
Proof.
  intros ds term Hl Ht. unfold rowMajor.
  assert (forall n k, (k + n = length ds)%nat ->
    for_loop n (Z.of_nat k) (fun k '(index, stride) =>
      let! (pos, extent) := term (Z.of_nat (length ds) - 1 - k) in
      Ret (u64 (index + pos * stride), u64 (stride * extent)))
      (u64 (lin (drop n ds) (drop n ps)), u64 (prod (drop n ds))) = Ret (u64 (lin ds ps), u64 (prod ds))) as H.
  { induction n as [|n IH]; intros k Hk; cbn [for_loop]; [done|].
    destruct (idx_some ps n) as [p Hp]; [lia|]. destruct (idx_some ds n) as [d Hd]; [lia|].
    replace (Z.of_nat (length ds) - 1 - Z.of_nat k) with (Z.of_nat n) by lia.
    rewrite (Ht n p d Hp Hd). cbn [obind]. rewrite u64_mul_l, u64_add_l.
    rewrite <- u64_add_r, u64_mul_r, u64_add_r.
    specialize (IH (S k) ltac:(lia)). rewrite Nat2Z.inj_succ, <- Z.add_1_r in IH.
    rewrite (drop_S ps p n Hp), (drop_S ds d n Hd) in IH. cbn [lin] in IH. rewrite prod_cons in IH.
    replace (lin (drop (S n) ds) (drop (S n) ps) + p * prod (drop (S n) ds))
      with (p * prod (drop (S n) ds) + lin (drop (S n) ds) (drop (S n) ps)) by lia.
    rewrite (Z.mul_comm (prod _) d). exact IH. }
  specialize (H (length ds) 0%nat eq_refl). rewrite !drop_ge in H by lia.
  change (u64 (lin [] [])) with 0 in H. change (u64 (prod [])) with 1 in H. change (Z.of_nat 0) with 0 in H.
  rewrite H. done.
Qed.

Lemma calculateLinearOffset_ok dims p : length p = length dims -> calculateLinearOffset p dims = Ret (u64 (lin dims p)).
Proof.
  intros Hl. unfold calculateLinearOffset. rewrite Hl. apply rowMajor_ok; [done|].
  intros i c d Hc Hd. by rewrite (idx_lookup _ _ _ Hc), (idx_lookup _ _ _ Hd).
Qed.

Lemma outputSize_ok dims axes : Forall2 axis_in dims axes -> axes <> [] ->
  calculateHyperslabOutputSize (selOf axes) = Ret (u64 (prod (map extent axes))).
Proof.
  intros H Hne. unfold calculateHyperslabOutputSize.
  change (blocks_ (selOf axes)) with (map aBlock axes). cbn [selOf Count].
  destruct (Z.eqb_spec (len (map aCount axes)) 0) as [E|_]; [destruct axes; [done|rewrite len_map, len_cons in E; pose proof (len_nonneg axes); lia]|].
  rewrite length_map.
  assert (forall post pre t, axes = pre ++ post ->
    for_loop (length post) (len pre) (fun i total =>
      let! blockSize := idx (map aBlock axes) i in
      let blockSize := if blockSize =? 0 then 1 else blockSize in
      let! count := idx (map aCount axes) i in
      Ret (u64 (total * u64 (count * blockSize)))) (u64 t) = Ret (u64 (t * prod (map extent post)))) as G.
  { clear Hne. induction post as [|a post IH]; intros pre t Hpre; cbn [length for_loop map]; [f_equal; cbn; f_equal; lia|].
    assert (Ha : axes !! length pre = Some a) by (rewrite Hpre; by apply list_lookup_middle).
    unfold len. rewrite !(idx_map _ _ _ _ Ha). cbn [obind].
    destruct (Forall2_lookup_r _ _ _ _ _ H Ha) as (d & _ & _ & _ & _ & Hb & _).
    destruct (Z.eqb_spec (aBlock a) 0); [lia|]. cbn [obind]. rewrite u64_mul_r, u64_mul_l.
    specialize (IH (pre ++ [a]) (t * (aCount a * aBlock a))). rewrite len_app in IH.
    replace (Z.of_nat (length pre) + 1) with (len pre + len [a]) by done.
    refine (eq_trans (IH _) _); [by rewrite <- app_assoc|]. rewrite prod_cons. f_equal. f_equal. unfold extent. lia. }
  specialize (G axes [] 1 eq_refl). change (u64 1) with 1 in G. change (len (@nil axis)) with 0 in G. refine (eq_trans G _). by rewrite Z.mul_1_l.
Qed.

(** ** Filling the output in order *)

Lemma copyElement_ok dst src o p n :
  0 <= n -> 0 <= o -> o + n <= len dst -> len dst < 2 ^ 64 -> 0 <= p -> p + n <= len src -> len src < 2 ^ 64 ->
  copyElement dst src o p n = Ret (blit dst o (sub src p n)).
Proof.
  intros. unfold copyElement. rewrite !u64_id by (unfold is_u; lia). rewrite !slice_ret by lia. cbn [obind].
  replace (p + n - p) with n by lia. apply put_bytes_ret; [lia|]. rewrite len_sub; lia.
Qed.

(** The output of [T] elements, of which those in [done] have been delivered. *)
Definition filled (es T : Z) (done : list bytes) : bytes * Z :=
  (concat done ++ zeros ((T - len done) * es), len done).

Lemma len_concat es (done : list bytes) : Forall (fun e => len e = es) done -> len (concat done) = len done * es.
Proof. induction 1 as [|e done He Hd IH]; [done|]. cbn [concat]. rewrite len_app, len_cons, He, IH. lia. Qed.

Lemma blit_filled es T done e :
  0 <= es -> Forall (fun e => len e = es) done -> len done < T -> len e = es ->
  blit (filled es T done).1 (len done * es) e = (filled es T (done ++ [e])).1.
Proof.
  intros Hes Hd HT He. unfold filled. cbn [fst]. rewrite len_app.
  replace (zeros ((T - len done) * es)) with (zeros es ++ zeros ((T - (len done + len [e])) * es)).
  2: { change (len [e]) with 1. rewrite zeros_app by nia. f_equal. nia. }
  rewrite blit_app; [|by rewrite (len_concat es)|rewrite len_zeros; lia].
  by rewrite concat_app, <- app_assoc; cbn [concat]; rewrite app_nil_r.
Qed.

Lemma filled_nil es T : 0 <= T -> filled es T [] = (zeros (T * es), 0).
Proof. intros. unfold filled. change (len (@nil bytes)) with 0. by rewrite Z.sub_0_r. Qed.

Lemma filled_all es T done : len done = T -> (filled es T done).1 = concat done.
Proof. intros <-. unfold filled. cbn [fst]. rewrite Z.sub_diag. change (zeros (0 * es)) with (@nil byte). apply app_nil_r. Qed.

(** A loop whose rounds deliver one element each. *)
Lemma for_each_filled {A} es T (f : A -> bytes) (body : A -> bytes * Z -> outcome (bytes * Z)) l : forall done,
  Forall (fun e => len e = es) done -> len done + len l <= T ->
  (forall x done, x ∈ l -> Forall (fun e => len e = es) done -> len done < T ->
     len (f x) = es /\ body x (filled es T done) = Ret (filled es T (done ++ [f x]))) ->
  for_each l body (filled es T done) = Ret (filled es T (done ++ map f l)).
Proof.
  induction l as [|x l IH]; intros done Hd HT Hb; cbn [for_each map]; [by rewrite app_nil_r|].
  rewrite len_cons in HT. pose proof (len_nonneg l).
  destruct (Hb x done) as [Hx ->]; [left|done|lia|]. cbn [obind]. rewrite IH.
  - by rewrite <- app_assoc.
  - apply Forall_app. by split; [|constructor].
  - rewrite len_app. change (len [f x]) with 1. lia.
  - intros y d Hy. apply Hb. by right.
Qed.

Lemma for_each_filter {A S} (P : A -> Prop) `{!forall x, Decision (P x)} (body : A -> S -> outcome S) l : forall s,
  (forall x s, x ∈ l -> ~ P x -> body x s = Ret s) -> for_each l body s = for_each (filter P l) body s.
Proof.
  induction l as [|x l IH]; intros s Hb; [done|]. rewrite filter_cons. destruct (decide (P x)); cbn [for_each].
  - destruct (body x s); cbn [obind]; [|done|done]. apply IH. intros y u Hy. apply Hb. by right.
  - rewrite Hb by (done || by left). cbn [obind]. apply IH. intros y u Hy. apply Hb. by right.
Qed.

Lemma list_filter_all {A} (P : A -> Prop) `{!forall x, Decision (P x)} (l : list A) : (forall x, x ∈ l -> P x) -> filter P l = l.
Proof.
  induction l as [|x l IH]; intros Hb; [done|]. rewrite filter_cons, decide_True by (apply Hb; by left).
  f_equal. apply IH. intros y Hy. apply Hb. by right.
Qed.

(** ** Extraction from the whole dataset *)

Section recursive.
Context (raw : bytes) (dims : list Z) (axes : list axis) (es : Z).
Hypothesis Hax : Forall2 axis_in dims axes.

(** The recursion is a loop over the selected points. *)
Lemma extractRecursive_each apost : forall apre pre rest s,
  axes = apre ++ apost -> length apre = length pre -> length rest = length apost ->
  extractHyperslabRecursive raw dims (selOf axes) es (length apost) (pre ++ rest) (len pre) s =
  for_each (map (app pre) (points apost)) (fun p => extractHyperslabRecursive raw dims (selOf axes) es 0 p 0) s.
Proof.
  induction apost as [|a apost IH]; intros apre pre rest s Hsplit Hpre Hrest.
  - destruct rest; [|done]. cbn [length points map for_each].
    change (extractHyperslabRecursive raw dims (selOf axes) es 0 (pre ++ []) (len pre) s)
      with (extractHyperslabRecursive raw dims (selOf axes) es 0 (pre ++ []) 0 s). by rewrite obind_ret_r.
  - destruct rest as [|r rest]; [done|]. cbn [length extractHyperslabRecursive]. change (len pre) with (Z.of_nat (length pre)).
    assert (Ha : axes !! length pre = Some a) by (rewrite Hsplit, <- Hpre; by apply list_lookup_middle).
    destruct (Forall2_lookup_r _ _ _ _ _ Hax Ha) as (d & Hd & Hin).
    rewrite (blockLoop_each axes _ a d) by done. cbn [points]. rewrite for_each_map, for_each_flat_map.
    apply for_each_ext. intros x t Hx. rewrite set_idx_ret by (rewrite len_app, len_cons; pose proof (len_nonneg rest); unfold len in *; lia).
    change (Z.of_nat (length pre)) with (len pre) at 1. rewrite list_set_middle. cbn [obind]. rewrite (idx_lookup _ _ _ Hd). cbn [obind].
    pose proof (axis_coords_range _ _ _ Hin Hx). destruct (Z.geb_spec x d); [lia|].
    replace (Z.of_nat (length pre) + 1) with (len (pre ++ [x])) by (rewrite len_app; done).
    rewrite (IH (apre ++ [a])); [|by rewrite <- app_assoc|rewrite !length_app; cbn; lia|by injection Hrest].
    rewrite !for_each_map. apply for_each_ext. intros q u _. by rewrite <- app_assoc.
Qed.

Hypothesis Hes : 0 < es.
Hypothesis Hdl : prod dims * es < 2 ^ 64.
Hypothesis Hlt : len raw < 2 ^ 64.
Let T := prod (map extent axes).
Hypothesis HT : T * es < 2 ^ 64.

(** The points whose element lies inside the buffer. *)
Definition covered : list (list Z) := filter (fun p => lin dims p * es + es <= len raw) (points axes).

(** Every point inside the buffer delivers its element; the others are skipped. *)
Lemma extractRecursive_covered :
  extractHyperslabRecursive raw dims (selOf axes) es (length dims) (copyInto (len dims) (Start (selOf axes))) 0 (zeros (T * es), 0) =
  Ret (filled es T (map (fun p => elem es raw (lin dims p)) covered)).
Proof.
  pose proof (prod_pos _ (extents_pos dims axes Hax)) as Hp. fold T in Hp.
  assert (Hl : length dims = length axes) by by apply Forall2_length in Hax.
  rewrite Hl.
  refine (eq_trans (extractRecursive_each axes [] [] (copyInto (len dims) (Start (selOf axes))) _ eq_refl eq_refl _) _).
  { unfold copyInto. cbn [selOf Start]. rewrite length_app, length_take, length_replicate, length_map. unfold len. lia. }
  rewrite for_each_map. rewrite <- (filled_nil es T) by lia.
  assert (Hleaf : forall p s, p ∈ points axes ->
    0 <= lin dims p /\ (lin dims p + 1) * es <= prod dims * es /\
    extractHyperslabRecursive raw dims (selOf axes) es 0 p 0 s =
      if lin dims p * es + es >? len raw then Ret s
      else let! outputData := copyElement s.1 raw (u64 (s.2 * es)) (lin dims p * es) es in Ret (outputData, u64 (s.2 + 1))).
  { intros p [o k] Hpt. pose proof (points_in_box _ _ _ Hax Hpt) as Hin. pose proof (lin_range _ _ Hin) as H0.
    split; [lia|]. split; [nia|]. cbn [extractHyperslabRecursive fst snd]. rewrite calculateLinearOffset_ok by by apply in_box_length. cbn [obind].
    by rewrite u64_mul_l, !u64_id by (rewrite ?u64_id; unfold is_u; nia). }
  rewrite (for_each_filter (fun p => lin dims p * es + es <= len raw)).
  2: { intros p s Hpt Hno. destruct (Hleaf p s Hpt) as (_ & _ & E). cbn [app]. rewrite E.
       by destruct (Z.gtb_spec (lin dims p * es + es) (len raw)); [|lia]. }
  fold covered. rewrite (for_each_filled es T (fun p => elem es raw (lin dims p))); [done|constructor| |].
  - change (len (@nil bytes)) with 0. pose proof (len_points dims axes Hax) as HlT. fold T in HlT.
    pose proof (length_filter (fun p => lin dims p * es + es <= len raw) (points axes)). unfold covered, len in *. lia.
  - intros p done (Hr & Hpt)%list_elem_of_filter Hdone Hd. destruct (Hleaf p (filled es T done) Hpt) as (H0 & H1 & E).
    assert (He : len (elem es raw (lin dims p)) = es) by (apply len_elem; lia). split; [done|]. cbn [app]. rewrite E. clear E Hleaf.
    destruct (Z.gtb_spec (lin dims p * es + es) (len raw)); [lia|]. pose proof (len_nonneg done).
    assert (Hf : len (filled es T done).1 = T * es).
    { unfold filled. cbn [fst]. rewrite len_app, (len_concat es), len_zeros by (done || nia). nia. }
    change ((filled es T done).2) with (len done). rewrite (u64_id (len done * es)) by (unfold is_u; nia).
    rewrite copyElement_ok by (rewrite ?Hf; nia). cbn [obind].
    change (sub raw (lin dims p * es) es) with (elem es raw (lin dims p)).
    rewrite blit_filled by (done || lia). rewrite u64_id by (unfold is_u; nia).
    unfold filled. rewrite len_app. done.
Qed.

(** From the whole dataset, all points deliver. *)
Lemma extractHyperslab_ok :
  prod dims * es <= len raw ->
  extractHyperslabRecursive raw dims (selOf axes) es (length dims) (copyInto (len dims) (Start (selOf axes))) 0 (zeros (T * es), 0) =
  Ret (concat (selected es dims raw axes), T).
Proof.
  intros Hraw. rewrite extractRecursive_covered.
  assert (covered = points axes) as ->.
  { apply list_filter_all. intros p Hpt. pose proof (lin_range _ _ (points_in_box _ _ _ Hax Hpt)). nia. }
  fold (selected es dims raw axes).
  assert (HlT : len (selected es dims raw axes) = T) by (unfold selected; rewrite len_map; exact (len_points dims axes Hax)).
  rewrite (surjective_pairing (filled es T _)), filled_all by done. unfold filled. cbn [snd]. by rewrite HlT.
Qed.
End recursive.

(** ** Contiguous storage *)

Lemma stored_sub f a bs o n : stored f a bs -> 0 <= o -> 0 <= n -> o + n <= len bs -> read_at f (a + o) n = Ret (sub bs o n).
Proof.
  intros Hs Ho Hn Hl. rewrite <- (take_drop (Z.to_nat o) bs) in Hs. apply stored_app_r in Hs.
  rewrite len_take, Z2Nat.id, Z.min_l in Hs by lia. apply (stored_read _ _ _ n) in Hs; [exact Hs|].
  rewrite len_drop. lia.
Qed.

Definition consecutive (dims : list Z) (axes : list axis) : Prop :=
  exists first, map (lin dims) (points axes) = seqZ first (len (points axes)).

Lemma elems_run es raw first : 0 < es -> 0 <= first -> forall n, (first + Z.of_nat n) * es <= len raw ->
  concat (map (elem es raw) (seqZ first (Z.of_nat n))) = sub raw (first * es) (Z.of_nat n * es).
Proof.
  intros Hes Hf n. revert first Hf. induction n as [|n IH]; intros first Hf Hl; [done|].
  rewrite seqZ_cons by lia. cbn [map concat]. replace (Z.pred (Z.of_nat (S n))) with (Z.of_nat n) by lia.
  rewrite IH by lia. unfold elem, sub.
  replace (Z.to_nat (Z.of_nat (S n) * es)) with (Z.to_nat es + Z.to_nat (Z.of_nat n * es))%nat
    by (rewrite <- Z2Nat.inj_add by nia; f_equal; nia).
  replace (Z.to_nat (Z.succ first * es)) with (Z.to_nat (first * es) + Z.to_nat es)%nat
    by (rewrite <- Z2Nat.inj_add by nia; f_equal; nia).
  by rewrite <- drop_drop, take_take_drop.
Qed.

(** *** The corner of the selection *)

(** The length of the interval a selection lies in. *)
Definition span (a : axis) : Z := (aCount a - 1) * aStride a + aBlock a.

Lemma span_pos d a : axis_in d a -> 0 < span a /\ aStart a + span a <= d.
Proof. intros (?&?&?&?&?&?). unfold span. nia. Qed.

Lemma axes_ne dims axes : Forall2 axis_in dims axes -> dims <> [] -> axes <> [].
Proof. intros Hax Hne ->. apply Forall2_nil_inv_r in Hax. done. Qed.

Lemma starts_in dims axes : Forall2 axis_in dims axes -> in_box dims (Start (selOf axes)).
Proof.
  cbn [selOf Start]. induction 1 as [|d a dims axes (? & ? & ? & ? & ? & ?) H IH]; [constructor|].
  cbn [map]. apply in_box_cons. split; [nia|exact IH].
Qed.

Lemma box_end dims axes : Forall2 axis_in dims axes ->
  lin dims (map aStart axes) + prod (map span axes) <= prod dims /\ 0 < prod (map span axes).
Proof.
  induction 1 as [|d a dims axes Ha H [H1 H2]]; [done|].
  cbn [map lin]. rewrite !prod_cons. destruct (span_pos d a Ha) as [H3 H4]. destruct Ha as (H5 & _).
  assert (0 <= lin dims (map aStart axes)) by (pose proof (starts_in dims axes H) as Hs; apply lin_range in Hs; cbn [selOf Start] in Hs; lia). nia.
Qed.

Lemma first_point dims axes : Forall2 axis_in dims axes -> exists rest, points axes = Start (selOf axes) :: rest.
Proof.
  cbn [selOf Start]. induction 1 as [|d a dims axes (? & ? & ? & ? & ? & ?) H [rest IH]]; [by exists []|].
  cbn [points map]. unfold axis_coords. rewrite (seqZ_cons 0 (aCount a)) by lia. cbn [flat_map].
  rewrite (seqZ_cons 0 (aBlock a)) by lia. cbn [map app flat_map]. rewrite IH. cbn [map app].
  rewrite Z.mul_0_l, !Z.add_0_r. by eexists.
Qed.

Section contiguous.
Context (file : bytes) (raw : bytes) (dims : list Z) (axes : list axis) (dt : DatatypeMessage) (ds : DataspaceMessage) (layout : DataLayoutMessage).
Let es := dtSize dt.
Let T := prod (map extent axes).
Hypothesis Hax : Forall2 axis_in dims axes.
Hypothesis Hne : dims <> [].
Hypothesis Hdims : Dimensions ds = dims.
Hypothesis Hes : 0 < es.
Hypothesis Hraw : len raw = prod dims * es.
Hypothesis Hst : stored file (DataAddress layout) raw.
Hypothesis Haddr : DataAddress layout + len raw < 2 ^ 63.
Hypothesis HT : T * es < 2 ^ 63.

(** The elements from the first selected one on, as many as are selected. *)
Lemma readOptimized_run :
  let l := lin dims (Start (selOf axes)) in
  l + T <= prod dims ->
  readContiguousOptimized file (selOf axes) dt ds layout = convertToFloat64 (sub raw (l * es) (T * es)) dt T.
Proof.
  intros l Hfit. pose proof (prod_pos _ (extents_pos dims axes Hax)) as HTp. fold T in HTp.
  pose proof (starts_in dims axes Hax) as Hs. pose proof (lin_range _ _ Hs) as Hl. fold l in Hl.
  pose proof (stored_bounds _ _ _ Hst) as [H0 _].
  unfold readContiguousOptimized. rewrite Hdims. fold es.
  rewrite (outputSize_ok dims) by (done || by apply (axes_ne dims)). cbn [obind]. fold T.
  rewrite (u64_id T) by (unfold is_u; nia). destruct (Z.eqb_spec T 0); [lia|].
  assert (Hoff : (if len dims =? 1 then let! s := idx (Start (selOf axes)) 0 in Ret (u64 (s * es))
       else let! startLinearOffset := calculateLinearOffset (Start (selOf axes)) dims in
            Ret (u64 (startLinearOffset * es))) = Ret (l * es)).
  { assert (H63 : l * es < 2 ^ 63) by nia. subst l. destruct (Z.eqb_spec (len dims) 1) as [E1|E1].
    - destruct dims as [|d [|? ?]]; try (rewrite !len_cons in E1; pose proof (len_nonneg l); lia); [done|].
      apply Forall2_cons_inv_l in Hs as (x & [|? ?] & ? & Hs & ->); [|by apply Forall2_nil_inv_l in Hs].
      cbn [idx obind lin prod foldr] in *. change (idx [x] 0) with (Ret x). cbn [obind]. rewrite u64_id by (unfold is_u; nia). f_equal. nia.
    - rewrite calculateLinearOffset_ok by by apply in_box_length. cbn [obind]. rewrite u64_mul_l, u64_id by (unfold is_u; nia). done. }
  rewrite Hoff. cbn [obind]. rewrite !(u64_id (T * es)) by (unfold is_u; nia).
  unfold makeBytes. destruct (Z.geb_spec (T * es) (2 ^ 63)); [lia|]. cbn [obind].
  rewrite u64_id, i64_id by (unfold is_u; nia).
  by rewrite (stored_sub _ _ _ _ _ Hst) by nia.
Qed.

(** The run is right when the selected points are consecutive. *)
Lemma readOptimized_ok :
  consecutive dims axes ->
  readContiguousOptimized file (selOf axes) dt ds layout = convertToFloat64 (concat (selected es dims raw axes)) dt T.
Proof.
  intros (first & Hc). pose proof (prod_pos _ (extents_pos dims axes Hax)) as HTp. fold T in HTp.
  pose proof (starts_in dims axes Hax) as Hs. destruct (first_point dims axes Hax) as (rest & Hp).
  assert (first = lin dims (Start (selOf axes))) as ->.
  { rewrite Hp in Hc. cbn [map] in Hc. rewrite len_cons in Hc. pose proof (len_nonneg rest). rewrite seqZ_cons in Hc by lia. by injection Hc. }
  pose proof (lin_range _ _ Hs) as Hl. set (l := lin dims (Start (selOf axes))) in *.
  assert (Hlen : len (points axes) = T) by by apply (len_points dims).
  assert (Hfit : l + T <= prod dims).
  { assert (Hin : l + T - 1 ∈ map (lin dims) (points axes)) by (rewrite Hc, elem_of_seqZ; lia).
    rewrite list_elem_of_In, in_map_iff in Hin. destruct Hin as (p & E & Hin). rewrite <- list_elem_of_In in Hin.
    pose proof (lin_range _ _ (points_in_box _ _ _ Hax Hin)). lia. }
  rewrite readOptimized_run by done. fold l. f_equal.
  unfold selected. rewrite <- (map_map (lin dims) (elem es raw)), Hc, Hlen. symmetry.
  rewrite <- (Z2Nat.id T) by lia. apply elems_run; [done|lia|nia].
Qed.

(** Two dimensions: every element is read on its own. *)
Lemma read2D_ok d0 d1 :
  dims = [d0; d1] ->
  readContiguous2DOptimized file (selOf axes) dt ds layout = convertToFloat64 (concat (selected es dims raw axes)) dt T.
Proof.
  intros Hd. pose proof (prod_pos _ (extents_pos dims axes Hax)) as HTp. fold T in HTp.
  pose proof (stored_bounds _ _ _ Hst) as [H0 _].
  assert (Hlen : len (points axes) = T) by exact (len_points dims axes Hax).
  assert (exists a0 a1, axes = [a0; a1] /\ axis_in d0 a0 /\ axis_in d1 a1) as (a0 & a1 & Ha & H_0 & H_1).
  { rewrite Hd in Hax. apply Forall2_cons_inv_l in Hax as (a0 & ? & ? & Hax' & E). apply Forall2_cons_inv_l in Hax' as (a1 & ? & ? & Hax' & ->).
    apply Forall2_nil_inv_l in Hax' as ->. by exists a0, a1. }
  unfold readContiguous2DOptimized. rewrite Hdims. fold es.
  rewrite (outputSize_ok dims) by (done || by apply (axes_ne dims)). cbn [obind]. fold T.
  rewrite (u64_id T), (u64_id (T * es)) by (unfold is_u; nia).
  unfold makeBytes. destruct (Z.geb_spec (T * es) (2 ^ 63)); [lia|]. cbn [obind].
  rewrite <- (filled_nil es T) by lia.
  set (loop := blockLoop _ _ _ _).
  assert (loop = Ret (filled es T (selected es dims raw axes))) as ->.
  2: { cbn [obind]. rewrite (surjective_pairing (filled es T _)), filled_all; [done|]. unfold selected. by rewrite len_map. }
  subst loop. change 0 with (Z.of_nat 0) at 1.
  rewrite (blockLoop_each axes 0 a0 d0) by (done || by rewrite Ha).
  set (f := fun p : Z * Z => elem es raw (lin dims [p.1; p.2])).
  assert (selected es dims raw axes = [] ++ map f (flat_map (fun row => map (pair row) (axis_coords a1)) (axis_coords a0))) as Hsel.
  { unfold selected. rewrite Ha. cbn [points app]. rewrite !flat_map_concat_map, !concat_map, !map_map. f_equal. apply map_ext. intros row.
    cbn [map]. rewrite concat_singletons', !map_map. done. }
  rewrite Hsel, <- (for_each_filled es T f (fun p s => 
      let '(outputData, outputIdx) := s in
      let byteOffset := u64 (DataAddress layout + u64 (p.1 * d1 + p.2) * es) in
      let lo := u64 (outputIdx * es) in
      let! window := slice outputData lo (u64 (u64 (outputIdx + 1) * es)) in
      let! element := read_at file (i64 byteOffset) (len window) in
      let! outputData := put_bytes outputData lo element in
      Ret (outputData, u64 (outputIdx + 1)))); [|constructor| |].
  - rewrite for_each_flat_map. apply for_each_ext. intros row t Hrow.
    rewrite Hd. cbn [idx obind]. change (idx [d0; d1] 0) with (Ret d0). cbn [obind].
    pose proof (axis_coords_range _ _ _ H_0 Hrow). destruct (Z.geb_spec row d0); [lia|].
    change 1 with (Z.of_nat 1) at 1. rewrite (blockLoop_each axes 1 a1 d1) by (done || by rewrite Ha).
    rewrite for_each_map. apply for_each_ext. intros col u Hcol.
    change (idx [d0; d1] 1) with (Ret d1). cbn [obind fst snd].
    pose proof (axis_coords_range _ _ _ H_1 Hcol). destruct (Z.geb_spec col d1); [lia|]. done.
  - change (len (@nil bytes)) with 0. rewrite <- Hlen. apply (f_equal len) in Hsel. unfold selected in Hsel.
    rewrite app_nil_l, !len_map in Hsel. by rewrite Hsel.
  - intros [row col] done Hp Hdone HdT. cbn [fst snd].
    assert (Hin : in_box dims [row; col]).
    { rewrite list_elem_of_In, in_flat_map in Hp. destruct Hp as (r & Hr & Hp). apply in_map_iff in Hp as (c & [= -> ->] & Hc).
      rewrite <- list_elem_of_In in Hr, Hc. rewrite Hd.
      apply in_box_cons. split; [by eapply axis_coords_range|]. apply in_box_cons. split; [by eapply axis_coords_range|constructor]. }
    assert (El : lin dims [row; col] = row * d1 + col) by (rewrite Hd; cbn [lin prod foldr]; lia).
    pose proof (lin_range _ _ Hin) as Hl. subst f. cbn [fst snd]. rewrite El in *. set (l := row * d1 + col) in *.
    assert (He : len (elem es raw l) = es) by (apply len_elem; nia). split; [exact He|].
    pose proof (len_nonneg done).
    assert (Hf : len (filled es T done).1 = T * es).
    { unfold filled. cbn [fst]. rewrite len_app, (len_concat es), len_zeros by (done || nia). nia. }
    unfold filled at 1. change (concat done ++ zeros ((T - len done) * es)) with (filled es T done).1.
    rewrite (u64_id l), (u64_id (len done + 1)) by (unfold is_u; nia).
    rewrite !u64_id by (unfold is_u; nia). rewrite slice_ret by (rewrite ?Hf; nia). cbn [obind].
    rewrite len_sub by (rewrite ?Hf; nia). replace ((len done + 1) * es - len done * es) with es by lia.
    rewrite i64_id by nia. rewrite (stored_sub _ _ _ _ _ Hst) by nia. cbn [obind].
    change (sub raw (l * es) es) with (elem es raw l). rewrite put_bytes_ret by (rewrite ?Hf, ?He; nia). cbn [obind].
    rewrite blit_filled by (done || lia). unfold filled. rewrite len_app. done.
Qed.
(** More dimensions: one read of the bounding box, as if it were contiguous,
    and elements looked up in it as if it were the whole dataset. *)
Lemma boundingBox_ok :
  boundingBox (selOf axes) ds = Ret (map aStart axes, map (fun a => aStart a + span a) axes).
Proof.
  unfold boundingBox. rewrite Hdims, (Forall2_length _ _ _ Hax).
  change (strides_ (selOf axes)) with (map aStride axes). change (blocks_ (selOf axes)) with (map aBlock axes).
  cbn [selOf Start Count]. apply (for_loop_gather aStart (fun a => aStart a + span a)). intros k a xs ys Ha.
  destruct (Forall2_lookup_r _ _ _ _ _ Hax Ha) as (d & _ & ? & ? & ? & ? & ? & ?).
  rewrite !(idx_map _ _ _ _ Ha). cbn [obind]. rewrite (u64_id (aCount a - 1)) by (unfold is_u; nia).
  rewrite u64_id by (unfold is_u; nia). unfold span. by rewrite Z.add_assoc.
Qed.

Definition shifted (first bound : Z) : list bytes :=
  map (fun p => elem es raw (first + lin dims p)) (filter (fun p => lin dims p < bound) (points axes)).

Lemma rowByRow_shift :
  length dims <> 2%nat ->
  let first := lin dims (map aStart axes) in
  let got := shifted first (prod (map span axes)) in
  readContiguousRowByRow file (selOf axes) dt ds layout =
  convertToFloat64 (concat got ++ zeros ((T - len got) * es)) dt T.
Proof.
  intros H2 first got. pose proof (prod_pos _ (extents_pos dims axes Hax)) as HTp. fold T in HTp.
  pose proof (lin_range _ _ (starts_in dims axes Hax)) as Hl. cbn [selOf Start] in Hl. fold first in Hl.
  destruct (box_end dims axes Hax) as [Hb0 Hb1]. fold first in Hb0. set (Bd := prod (map span axes)) in *.
  pose proof (stored_bounds _ _ _ Hst) as [H0 _].
  unfold readContiguousRowByRow. rewrite Hdims. fold es.
  rewrite (outputSize_ok dims) by (done || by apply (axes_ne dims)). cbn [obind]. fold T.
  rewrite (u64_id T) by (unfold is_u; nia). destruct (Z.eqb_spec T 0); [lia|].
  rewrite (u64_id (T * es)) by (unfold is_u; nia). unfold makeBytes. destruct (Z.geb_spec (T * es) (2 ^ 63)); [lia|]. cbn [obind].
  destruct (Z.eqb_spec (len dims) 2) as [E|_]; [unfold len in E; lia|].
  rewrite boundingBox_ok. cbn [obind].
  assert (Hspan : zip_with (fun hi lo => u64 (hi - lo)) (map (fun a => aStart a + span a) axes) (map aStart axes) = map span axes).
  { clear -Hax. induction Hax as [|d a dims axes Ha H IH]; [done|]. cbn [map zip_with]. rewrite IH by done. f_equal.
    destruct (span_pos d a Ha). destruct Ha as (?&?&?&?&?&?). rewrite u64_id by (unfold is_u; lia). lia. }
  rewrite Hspan, mulAll_1. fold Bd. rewrite (u64_id Bd), (u64_id (Bd * es)) by (unfold is_u; nia).
  destruct (Z.geb_spec (Bd * es) (2 ^ 63)); [nia|]. cbn [obind].
  rewrite calculateLinearOffset_ok by (rewrite length_map; by rewrite (Forall2_length _ _ _ Hax)). cbn [obind]. fold first.
  rewrite u64_mul_l. rewrite !u64_id by (rewrite ?u64_id; unfold is_u; nia).
  rewrite i64_id by nia. rewrite (stored_sub _ _ _ _ _ Hst) by nia. cbn [obind].
  assert (Hbl : len (sub raw (first * es) (Bd * es)) = Bd * es) by (apply len_sub; nia).
  assert (Hc : T * es < 2 ^ 64) by lia. assert (Hd64 : prod dims * es < 2 ^ 64) by lia. assert (Hb64 : Bd * es < 2 ^ 64) by nia.
  pose proof (extractRecursive_covered (sub raw (first * es) (Bd * es)) dims axes es Hax Hes Hd64 ltac:(by rewrite Hbl) Hc) as Hex.
  fold T in Hex. rewrite Hex. unfold filled. cbn [obind].
  assert (map (fun p => elem es (sub raw (first * es) (Bd * es)) (lin dims p)) (covered (sub raw (first * es) (Bd * es)) dims axes es) = got) as ->; [|done].
  subst got. unfold shifted, covered. rewrite Hbl.
  rewrite (list_filter_iff _ (fun p => lin dims p < Bd)) by (intros p; nia).
  apply map_ext_in. intros p Hp%list_elem_of_In. apply list_elem_of_filter in Hp as [Hp Hpt].
  pose proof (lin_range _ _ (points_in_box _ _ _ Hax Hpt)).
  rewrite elem_sub by nia. done.
Qed.
End contiguous.

(** ** Validation *)

(** The axes of a selection whose defaults are filled in. *)
Definition axesOf (sel : HyperslabSelection) : list axis :=
  zip_with (fun '(s, c) '(t, b) => mkAxis s c t b) (zip (Start sel) (Count sel)) (zip (strides_ sel) (blocks_ sel)).

Definition ranks_ok (sel : HyperslabSelection) (n : nat) : Prop :=
  length (Start sel) = n /\ length (Count sel) = n /\
  (forall s, Stride sel = Some s -> length s = n) /\ (forall b, Block sel = Some b -> length b = n).

Lemma selOf_axesOf sel n : ranks_ok sel n ->
  let sel' := fillHyperslabDefaults sel (Z.of_nat n) in selOf (axesOf sel') = sel' /\ length (axesOf sel') = n.
Proof.
  intros (Hs & Hc & Ht & Hb). destruct sel as [s c t b]. cbn [Start Count Stride Block] in *.
  unfold fillHyperslabDefaults. cbn [Start Count Stride Block]. rewrite Nat2Z.id.
  assert (H1 : length (default (replicate n 1) t) = n) by (destruct t; [by apply Ht|apply length_replicate]).
  assert (H2 : length (default (replicate n 1) b) = n) by (destruct b; [by apply Hb|apply length_replicate]).
  set (t' := default _ t) in *. set (b' := default _ b) in *. clearbody t' b'. clear Ht Hb.
  cbv zeta. unfold axesOf, strides_, blocks_, selOf. cbn [Start Count Stride Block default].
  unfold id.
  assert (forall n s c t b, length s = n -> length c = n -> length t = n -> length b = n ->
    let l := zip_with (fun '(s, c) '(t, b) => mkAxis s c t b) (zip s c) (zip t b) in
    map aStart l = s /\ map aCount l = c /\ map aStride l = t /\ map aBlock l = b /\ length l = n) as G.
  { clear. induction n as [|n IH]; intros [|x s] [|y c] [|z t] [|w b] Hs Hc Ht Hb; try discriminate; [done|].
    injection Hs as Hs. injection Hc as Hc. injection Ht as Ht. injection Hb as Hb.
    destruct (IH s c t b Hs Hc Ht Hb) as (E1 & E2 & E3 & E4 & E5). cbn in *. rewrite E1, E2, E3, E4, E5. done. }
  pose proof (G n s c t' b' Hs Hc H1 H2) as E.  cbv zeta in E. destruct E as (E1 & E2 & E3 & E4 & E5).
  by rewrite E1, E2, E3, E4, E5.
Qed.

Lemma validateSelectionDimensions_iff sel n :
  validateSelectionDimensions sel (Z.of_nat n) = Ret tt <-> ranks_ok sel n.
Proof.
  unfold validateSelectionDimensions, ranks_ok, len.
  destruct (Z.eqb_spec (Z.of_nat (length (Start sel))) (Z.of_nat n)); [|split; [done|lia]].
  destruct (Z.eqb_spec (Z.of_nat (length (Count sel))) (Z.of_nat n)); [|split; [done|lia]].
  destruct (Stride sel) as [t|].
  - destruct (Z.eqb_spec (Z.of_nat (length t)) (Z.of_nat n)); [|split; [done|naive_solver lia]].
    destruct (Block sel) as [b|]; [destruct (Z.eqb_spec (Z.of_nat (length b)) (Z.of_nat n))|]; naive_solver lia.
  - destruct (Block sel) as [b|]; [destruct (Z.eqb_spec (Z.of_nat (length b)) (Z.of_nat n))|]; naive_solver lia.
Qed.

Lemma for_loop_checks (check : Z -> outcome unit) n : forall k,
  for_loop n (Z.of_nat k) (fun i _ => check i) tt = Ret tt <-> forall i, (k <= i < k + n)%nat -> check (Z.of_nat i) = Ret tt.
Proof.
  induction n as [|n IH]; intros k; cbn [for_loop]; [split; [lia|done]|].
  specialize (IH (S k)). rewrite Nat2Z.inj_succ, <- Z.add_1_r in IH. split.
  - intros ([] & H1 & H2)%obind_ret_inv. rewrite IH in H2. intros i Hi.
    destruct (decide (i = k)) as [-> |]; [done|apply H2; lia].
  - intros H. rewrite (H k) by lia. cbn [obind]. apply IH. intros i Hi. apply H. lia.
Qed.

(** The selections that are meant to pass. *)
Definition axis_fits (a : axis) : Prop :=
  is_u 64 (aStart a) /\ is_u 64 (aCount a) /\ is_u 64 (aStride a) /\ is_u 64 (aBlock a) /\
  aStart a + (aCount a - 1) * aStride a + aBlock a < 2 ^ 64.

Lemma validateDimensionBounds_iff dims axes i d a :
  dims !! i = Some d -> is_u 64 d -> axes !! i = Some a -> axis_fits a ->
  validateDimensionBounds (selOf axes) dims (Z.of_nat i) = Ret tt <-> axis_in d a.
Proof.
  intros Hd Hdu Ha (H1 & H2 & H3 & H4 & H5). unfold validateDimensionBounds, axis_in, is_u in *.
  change (strides_ (selOf axes)) with (map aStride axes). change (blocks_ (selOf axes)) with (map aBlock axes).
  cbn [selOf Start Count]. rewrite !(idx_map _ _ _ _ Ha), (idx_lookup _ _ _ Hd). cbn [obind].
  destruct (Z.eqb_spec (aCount a) 0); cbn [negb]; [split; [done|lia]|].
  destruct (Z.eqb_spec (aStride a) 0); cbn [negb]; [split; [done|lia]|].
  destruct (Z.eqb_spec (aBlock a) 0); cbn [negb]; [split; [done|lia]|].
  rewrite (u64_id (aCount a - 1)) by (unfold is_u; lia). rewrite u64_id by (unfold is_u; nia).
  destruct (Z.gtb_spec (aStart a + (aCount a - 1) * aStride a + aBlock a) d); cbn [negb]; (split; [try done; lia|try lia; done]).
Qed.

Lemma axes_bounds dims axes : Forall2 axis_in dims axes ->
  ValidateHyperslabBounds (Start (selOf axes)) (Count (selOf axes)) (strides_ (selOf axes)) dims = Ret tt.
Proof.
  intros H. pose proof (Forall2_length _ _ _ H) as Hl. change (strides_ (selOf axes)) with (map aStride axes). cbn [selOf Start Count].
  assert (Hu : forall f : axis -> Z, (forall d a, axis_in d a -> is_u 64 (f a)) -> Forall (is_u 64) (map f axes)).
  { intros f Hf. apply Forall_map. eapply Forall2_Forall_r; [exact H|]. apply Forall_forall. intros d _ a. apply Hf. }
  apply ValidateHyperslabBounds_spec.
  - apply Hu. intros d a (?&?&?&?&?&?). unfold is_u. nia.
  - apply Hu. intros d a (?&?&?&?&?&?). unfold is_u. nia.
  - apply Hu. intros d a (?&?&?&?&?&?). unfold is_u. nia.
  - clear Hu Hl. induction H as [|d a dims axes (?&?&?&?&?&?) H IH]; cbn; constructor; [|done]. cbn. unfold last_index. nia.
  - rewrite !length_map. split_and!; [done..|]. intros i s c t d Hs Hc Ht Hd.
    destruct (Forall2_lookup_l _ _ _ _ _ H Hd) as (a & Ha & ?&?&?&?&?&?).
    rewrite list_lookup_fmap, Ha in Hs, Hc, Ht. injection Hs as <-. injection Hc as <-. injection Ht as <-. unfold last_index. nia.
Qed.

(** A selection inside the dataset, of not too many blocks. *)
Definition inside (dims : list Z) (sel : HyperslabSelection) : Prop :=
  ranks_ok sel (length dims) /\
  Forall2 axis_in dims (axesOf (fillHyperslabDefaults sel (len dims))) /\ prod (Count sel) <= MaxHyperslabElements.

Lemma validate_iff dims sel :
  dims <> [] -> Forall (is_u 64) dims -> Forall axis_fits (axesOf (fillHyperslabDefaults sel (len dims))) ->
  validateHyperslabSelection sel dims = Ret (fillHyperslabDefaults sel (len dims)) <-> inside dims sel.
Proof.
  intros Hne Hdu Hfit. unfold validateHyperslabSelection, inside. unfold len in *.
  destruct (validateSelectionDimensions sel (Z.of_nat (length dims))) as [[]| |] eqn:Ev; cbn [obind].
  2, 3: split; [done|]; intros (Hr & _); apply validateSelectionDimensions_iff in Hr; congruence.
  apply validateSelectionDimensions_iff in Ev as Hr. destruct (selOf_axesOf sel _ Hr) as [Hsel Hlen].
  set (sel' := fillHyperslabDefaults sel _) in *. set (axes := axesOf sel') in *.
  assert (Hc : Count sel = map aCount axes) by (transitivity (Count sel'); [done|by rewrite <- Hsel]).
  assert (Hin : Forall2 axis_in dims axes <-> forall i, (i < length dims)%nat -> validateDimensionBounds sel' dims (Z.of_nat i) = Ret tt).
  { rewrite <- Hsel. split.
    - intros H i Hi. destruct (idx_some dims i Hi) as [d Hd]. destruct (idx_some axes i) as [a Ha]; [lia|].
      apply (validateDimensionBounds_iff dims axes i d a Hd); [|done| |]; [by eapply Forall_lookup_1|by eapply Forall_lookup_1|].
      by eapply Forall2_lookup_lr.
    - intros H. apply Forall2_same_length_lookup. split; [done|]. intros i d a Hd Ha.
      apply (validateDimensionBounds_iff dims axes i d a Hd); [by eapply Forall_lookup_1|done|by eapply Forall_lookup_1|].
      apply H. by eapply lookup_lt_Some. }
  assert (Hcs : Count sel' = map aCount axes) by exact Hc.
  assert (Hb : validateHyperslabBounds sel' dims = Ret tt <-> Forall2 axis_in dims axes /\ prod (Count sel) <= MaxHyperslabElements).
  { unfold validateHyperslabBounds. change 0 with (Z.of_nat 0). split.
    - intros ([] & _ & (n & E & H)%obind_ret_inv)%obind_ret_inv. rewrite for_loop_checks in H.
      assert (Hf : Forall2 axis_in dims axes) by (apply Hin; intros i Hi; apply H; lia). split; [done|].
      apply CalculateHyperslabElements_exact in E as (_ & E & _); [exact E| |].
      + change (Count sel') with (Count sel). rewrite Hc. apply Forall_map. eapply Forall_impl; [exact Hfit|]. intros a (?&?&?&?&?). done.
      + change (Count sel') with (Count sel). rewrite Hc. intros E0%map_eq_nil. by apply (axes_ne dims axes).
    - intros [Hf Hm]. assert (HV : ValidateHyperslabBounds (Start sel') (Count sel') (strides_ sel') dims = Ret tt) by (rewrite <- Hsel; by apply axes_bounds).
      assert (HE : CalculateHyperslabElements (Count sel') = Ret (prod (Count sel'))).
      { apply CalculateHyperslabElements_exact; rewrite Hcs; [apply Forall_map; eapply Forall_impl; [exact Hfit|]; by intros a (?&?&?&?&?)| |].
        - intros E0%map_eq_nil. by apply (axes_ne dims axes).
        - split; [|by rewrite <- Hcs]. apply Forall_map. eapply Forall2_Forall_r; [exact Hf|].
          apply Forall_forall. intros d _ a (?&?&?&?&?&?). done. }
      rewrite HV, HE. cbn [obind]. change 0 with (Z.of_nat 0). apply for_loop_checks. intros i Hi. apply Hin; [done|lia]. }
  split.
  - intros ([] & E & _)%obind_ret_inv. by apply Hb in E.
  - intros (_ & H). by rewrite (proj2 Hb H).
Qed.

(** ** Reading through the object header *)

Lemma axis_in_fits d a : axis_in d a -> axis_fits a.
Proof. intros (?&?&?&?&?&?). unfold axis_fits, is_u. nia. Qed.

Lemma axes_fit dims axes : Forall2 axis_in dims axes -> Forall axis_fits axes.
Proof. intros H. eapply Forall2_Forall_r; [exact H|]. apply Forall_forall. intros d _ a. apply axis_in_fits. Qed.

(** A header whose messages describe a dataset. *)
Definition described (header : ObjectHeader) (sb : Superblock) (dt : DatatypeMessage) (ds : DataspaceMessage)
    (layout : DataLayoutMessage) (fp : option FilterPipelineMessage) : Prop :=
  exists t s l, findMessages (hMessages header) = Ret (t, s, l) /\ firstMessage MsgDataspace (hMessages header) = Some s /\
    ParseDatatypeMessage t = Ret dt /\ ParseDataspaceMessage s = Ret ds /\ ParseDataLayoutMessage l sb = Ret layout /\
    parsePipeline (lastMessage MsgFilterPipeline (hMessages header)) = Ret fp.

(** Where the routines for contiguous data are right: a run of consecutive
    elements, or two dimensions and rows that are not read whole. *)
Definition contiguous_case (dims : list Z) (axes : list axis) : Prop :=
  (length dims = 1%nat \/ isContiguousSelection (selOf axes) dims = Ret true) /\ consecutive dims axes \/
  length dims = 2%nat /\ isContiguousSelection (selOf axes) dims = Ret false.

(** The data [raw] are stored the way [layout] says. *)
Definition holds (file : bytes) (layout : DataLayoutMessage) (raw : bytes) : Prop :=
  Class_ layout = LayoutCompact /\ CompactData layout = raw \/
  Class_ layout = LayoutContiguous /\ stored file (DataAddress layout) raw /\ DataAddress layout + len raw < 2 ^ 63.

Section through.
Context `{C : Codecs}.
Context (fuel : nat) (file : bytes) (sb : Superblock) (header : ObjectHeader) (dt : DatatypeMessage) (ds : DataspaceMessage)
  (layout : DataLayoutMessage) (fp : option FilterPipelineMessage) (raw : bytes).
Let dims := Dimensions ds.
Let es := dtSize dt.
Hypothesis Hdesc : described header sb dt ds layout fp.
Hypothesis Hne : dims <> [].
Hypothesis Hes : 0 < es.
Hypothesis Hraw : len raw = prod dims * es.
Hypothesis Hmax : len raw < 2 ^ 63.
Hypothesis Hhold : holds file layout raw.

Lemma readHyperslab_selects axes :
  Forall2 axis_in dims axes -> prod (map extent axes) * es < 2 ^ 63 ->
  (Class_ layout = LayoutContiguous -> contiguous_case dims axes) ->
  readHyperslab fuel file sb (selOf axes) header =
  convertToFloat64 (concat (selected es dims raw axes)) dt (prod (map extent axes)).
Proof.
  intros Hax HT Hcase. destruct Hdesc as (t & s & l & E1 & _ & E2 & E3 & E4 & E5).
  pose proof (prod_pos _ (extents_pos dims axes Hax)) as HTp.
  unfold readHyperslab. rewrite E1. cbn [obind]. rewrite E2, E3, E4, E5. cbn [obind].
  unfold dispatchHyperslabReader, IsCompact, IsContiguous. destruct Hhold as [[-> Hc]|(Hcl & Hst & Haddr)].
  - change (LayoutCompact =? LayoutCompact) with true. cbn iota. rewrite Hc.
    unfold extractHyperslabFromRawData. fold dims es. rewrite (outputSize_ok dims) by (done || by apply (axes_ne dims)). cbn [obind].
    rewrite (u64_id (prod _)) by (unfold is_u; nia). destruct (Z.eqb_spec (prod (map extent axes)) 0); [lia|].
    rewrite u64_id by (unfold is_u; nia). unfold makeBytes. destruct (Z.geb_spec (prod (map extent axes) * es) (2 ^ 63)); [lia|].
    cbn [obind]. rewrite (extractHyperslab_ok raw dims axes es) by (done || lia). done.
  - rewrite Hcl. change (LayoutContiguous =? LayoutCompact) with false. change (LayoutContiguous =? LayoutContiguous) with true. cbn iota.
    unfold readHyperslabContiguous. fold dims. destruct (Hcase Hcl) as [[Hone Hcons]|[Htwo Hcontig]].
    + assert ((if len dims =? 1 then Ret true else isContiguousSelection (selOf axes) dims) = Ret true) as ->.
      { unfold len. destruct (Z.eqb_spec (Z.of_nat (length dims)) 1); [done|]. destruct Hone; [lia|done]. }
      cbn [obind]. by apply (readOptimized_ok file raw dims axes).
    + unfold len. rewrite Htwo. cbn [Z.of_nat Pos.of_succ_nat Z.eqb Pos.eqb]. rewrite Hcontig. cbn [obind].
      unfold readContiguousRowByRow. fold dims es. rewrite (outputSize_ok dims) by (done || by apply (axes_ne dims)). cbn [obind].
      rewrite (u64_id (prod _)) by (unfold is_u; nia). destruct (Z.eqb_spec (prod (map extent axes)) 0); [lia|].
      rewrite u64_id by (unfold is_u; nia). unfold makeBytes. destruct (Z.geb_spec (prod (map extent axes) * es) (2 ^ 63)); [lia|].
      cbn [obind]. unfold len. rewrite Htwo. change (Z.of_nat 2 =? 2) with true. cbn iota.
      destruct dims as [|d0 [|d1 [|? ?]]] eqn:Ed; try discriminate. by apply (read2D_ok file raw [d0; d1] axes dt ds layout) with (d0 := d0) (d1 := d1).
Qed.

Lemma firstDataspace_ok : firstDataspace header = Ret ds.
Proof. destruct Hdesc as (t & s & l & _ & E & _ & E3 & _). unfold firstDataspace. by rewrite E, E3. Qed.
End through.

Lemma inside_axes dims sel : inside dims sel ->
  let sel' := fillHyperslabDefaults sel (len dims) in
  selOf (axesOf sel') = sel' /\ Forall2 axis_in dims (axesOf sel').
Proof. intros (Hr & Hax & _). split; [by apply selOf_axesOf|done]. Qed.

(** The axes of a plain box. *)
Definition boxAxes (start count : list Z) : list axis := zip_with (fun s c => mkAxis s c 1 1) start count.

Definition box_in (dims start count : list Z) : Prop :=
  length start = length dims /\ length count = length dims /\
  Forall2 (fun d '(s, c) => 0 <= s /\ 0 < c /\ s + c <= d /\ d < 2 ^ 64) dims (zip start count).

Lemma boxAxes_ok dims start count : box_in dims start count ->
  let sel := fillHyperslabDefaults (mkSelection start count None None) (len dims) in
  selOf (boxAxes start count) = sel /\ Forall2 axis_in dims (boxAxes start count) /\
  map extent (boxAxes start count) = count.
Proof.
  intros (Hs & Hc & H). unfold fillHyperslabDefaults. cbn [Start Count Stride Block default from_option]. unfold len. rewrite Nat2Z.id.
  revert start count Hs Hc H. induction dims as [|d dims IH]; intros [|s start] [|c count] Hs Hc H; try discriminate; [done|].
  cbn in H. apply Forall2_cons in H as [(H1 & H2 & H3 & H4) H]. injection Hs as Hs. injection Hc as Hc.
  destruct (IH start count Hs Hc H) as (E & Hin & Hx). injection E as E1 E2 E3 E4. cbn [boxAxes zip_with map length replicate selOf].
  unfold boxAxes in *. cbn [selOf map aStart aCount aStride aBlock]. rewrite Hx. split_and!.
  - unfold selOf. cbn [map aStart aCount aStride aBlock]. rewrite E1, E2, E3, E4. done.
  - constructor; [|done]. unfold axis_in. cbn. lia.
  - unfold extent. cbn. f_equal. lia.
Qed.

Lemma axis_coords_one s c : 0 <= c -> axis_coords (mkAxis s c 1 1) = seqZ s c.
Proof.
  intros Hc. unfold axis_coords. cbn [aStart aCount aStride aBlock].
  assert (forall l, flat_map (fun x => map (fun b => s + x * 1 + b) (seqZ 0 1)) l = map (fun x => s + x) l) as ->.
  { induction l as [|x l IH]; [done|]. cbn [flat_map map]. rewrite IH. change (seqZ 0 1) with [0]. cbn [map app]. f_equal. lia. }
  apply list_eq. intros i. unfold seqZ. rewrite !list_lookup_fmap. destruct (seq 0 (Z.to_nat c) !! i); cbn; [f_equal; lia|done].
Qed.

(** In one dimension, and in two with whole rows, a box is one run. *)
Lemma box_case dims start count : box_in dims start count -> (length dims <= 2)%nat -> dims <> [] ->
  contiguous_case dims (boxAxes start count).
Proof.
  intros (Hs & Hc & H) Hl Hne. destruct dims as [|d0 [|d1 [|? ?]]]; [done| | |cbn in Hl; lia].
  - destruct start as [|s [|? ?]], count as [|c [|? ?]]; try discriminate. left. split; [by left|].
    apply Forall2_cons in H as [(? & ? & ? & ?) _]. exists s. cbn [boxAxes zip_with points]. rewrite axis_coords_one by lia.
    rewrite flat_map_concat_map. cbn [map]. rewrite concat_singletons', len_map, len_seqZ, Z.max_r, map_map by lia.
    transitivity (map (fun x => x) (seqZ s c)); [|by rewrite map_id]. apply map_ext. intros x. cbn. lia.
  - destruct start as [|s0 [|s1 [|? ?]]], count as [|c0 [|c1 [|? ?]]]; try discriminate.
    cbn in H. apply Forall2_cons in H as [(? & ? & ? & ?) Hr]. apply Forall2_cons in Hr as [(? & ? & ? & ?) _].
    assert (Hcg : isContiguousSelection (selOf (boxAxes [s0; s1] [c0; c1])) [d0; d1] = Ret (c1 =? d1)).
    { change (Ret (u64 (c1 * 1) =? d1) = Ret (c1 =? d1)). rewrite Z.mul_1_r, u64_id by (unfold is_u; lia). done. }
    destruct (Z.eqb_spec c1 d1) as [->|]; [left|right; done]. split; [by right|].
    exists (s0 * d1). assert (s1 = 0) as -> by lia. cbn [boxAxes zip_with points]. rewrite !axis_coords_one by lia.
    rewrite !flat_map_concat_map. cbn [map]. rewrite concat_singletons'.
    assert (forall n s, 0 <= s ->
      map (lin [d0; d1]) (concat (map (fun x => map (cons x) (map (fun y => [y]) (seqZ 0 d1))) (seqZ s (Z.of_nat n)))) = seqZ (s * d1) (Z.of_nat n * d1)) as G.
    { induction n as [|n IH]; intros s Hs0; [done|]. rewrite (seqZ_cons s) by lia. cbn [map concat]. rewrite map_app.
      replace (Z.pred (Z.of_nat (S n))) with (Z.of_nat n) by lia. rewrite IH by lia. rewrite !map_map.
      rewrite <- Z.add_1_r, Z.mul_add_distr_r, Z.mul_1_l. 
      replace (Z.of_nat (S n) * d1) with (d1 + Z.of_nat n * d1) by lia. rewrite seqZ_app by nia. f_equal.
      apply list_eq. intros i. unfold seqZ. rewrite !list_lookup_fmap. destruct (seq 0 (Z.to_nat d1) !! i); cbn; [f_equal; lia|done]. }
    specialize (G (Z.to_nat c0) s0 ltac:(lia)). rewrite Z2Nat.id in G by lia. rewrite G. f_equal.
    apply (f_equal len) in G. rewrite len_map, len_seqZ in G. rewrite G. nia.
Qed.

(** ReadSlice accepts a box inside the dataset. *)
Lemma ReadSlice_box `{C : Codecs} fuel file sb address start count header ds :
  ReadObjectHeader fuel file address sb = Ret header -> firstDataspace header = Ret ds -> box_in (Dimensions ds) start count ->
  ReadSlice fuel file sb address start count = readHyperslab fuel file sb (selOf (boxAxes start count)) header.
Proof.
  intros Hh Hfd Hbox. destruct (boxAxes_ok _ _ _ Hbox) as (Hsel & _ & _).
  unfold ReadSlice. rewrite Hh. cbn [obind]. rewrite Hfd. cbn [obind].
  pose proof Hbox as (Hs & Hc & Hall). unfold len. rewrite Hs, Hc, Z.eqb_refl.
  change 0 with (Z.of_nat 0) at 1. set (checks := for_loop _ _ _ _).
  assert (checks = Ret tt) as ->.
  { apply (for_loop_checks (fun i => let! s := idx start i in let! c := idx count i in let! d := idx (Dimensions ds) i in
      guard negb (u64 (s + c) >? d) else "selection out of bounds";; Ret tt)). intros i Hi.
    destruct (idx_some (Dimensions ds) i) as [d Hd]; [lia|]. destruct (idx_some start i) as [s Es]; [lia|]. destruct (idx_some count i) as [c Ec]; [lia|].
    rewrite (idx_lookup _ _ _ Hd), (idx_lookup _ _ _ Es), (idx_lookup _ _ _ Ec). cbn [obind].
    assert (Hz : zip start count !! i = Some (s, c)) by (apply lookup_zip_with_Some; by exists s, c).
    pose proof (Forall2_lookup_lr _ _ _ _ _ _ Hall Hd Hz) as (? & ? & ? & ?). rewrite u64_id by (unfold is_u; lia).
    by destruct (Z.gtb_spec (s + c) d); [lia|]. }
  cbn [obind]. unfold len in Hsel. by rewrite <- Hsel.
Qed.

(** ** Properties *)

(** C28. A selection is accepted exactly when it lies inside the dataset.  For
    every dataset of at least one dimension and every selection whose last
    coordinates do not exceed 64 bits, validateHyperslabSelection fills in the
    defaults and returns if and only if all four lists have the dataset's rank,
    count, stride and block are positive, start + (count - 1) * stride + block
    stays within every dimension, and there are at most 10^9 blocks. *)
Theorem selection_validation dims sel :
  dims <> [] -> Forall (is_u 64) dims -> Forall axis_fits (axesOf (fillHyperslabDefaults sel (len dims))) ->
  validateHyperslabSelection sel dims = Ret (fillHyperslabDefaults sel (len dims)) <-> inside dims sel.
Proof. apply validate_iff. Qed.

Example selection_validation_witness :
  validateHyperslabSelection (mkSelection [1; 1] [2; 2] (Some [2; 3]) (Some [1; 2])) [4; 6] =
    Ret (mkSelection [1; 1] [2; 2] (Some [2; 3]) (Some [1; 2])) <->
  inside [4; 6] (mkSelection [1; 1] [2; 2] (Some [2; 3]) (Some [1; 2])).
Proof.
  apply (selection_validation [4; 6] (mkSelection [1; 1] [2; 2] (Some [2; 3]) (Some [1; 2]))); [done|..];
    repeat constructor; cbn; (lia || unfold is_u; cbn; lia).
Defined.

(** C8. A hyperslab read returns the selected elements.  For a dataset whose
    object header describes [raw], stored compactly or contiguously, and every
    selection inside it (in any number of dimensions when compact; as one run of
    consecutive elements, or in two dimensions without whole rows, when
    contiguous), ReadHyperslab returns the converted elements of [raw] at exactly
    the selected points, in row-major order. *)
Theorem hyperslab_selects `{C : Codecs} fuel file sb address sel header dt ds layout fp raw :
  let axes := axesOf (fillHyperslabDefaults sel (len (Dimensions ds))) in
  ReadObjectHeader fuel file address sb = Ret header -> described header sb dt ds layout fp ->
  Dimensions ds <> [] -> Forall (is_u 64) (Dimensions ds) -> inside (Dimensions ds) sel ->
  0 < dtSize dt -> len raw = prod (Dimensions ds) * dtSize dt -> len raw < 2 ^ 63 -> prod (map extent axes) * dtSize dt < 2 ^ 63 ->
  holds file layout raw -> (Class_ layout = LayoutContiguous -> contiguous_case (Dimensions ds) axes) ->
  ReadHyperslab fuel file sb address sel =
  convertToFloat64 (concat (selected (dtSize dt) (Dimensions ds) raw axes)) dt (prod (map extent axes)).
Proof.
  intros axes Hh Hdesc Hne Hdu Hin Hes Hraw Hmax HT Hhold Hcase. destruct (inside_axes _ _ Hin) as [Hsel Hax].
  unfold ReadHyperslab. rewrite Hh. cbn [obind]. rewrite (firstDataspace_ok sb header dt ds layout fp Hdesc). cbn [obind].
  assert (Hfit : Forall axis_fits axes) by by apply (axes_fit (Dimensions ds)).
  rewrite (proj2 (validate_iff _ _ Hne Hdu Hfit) Hin). cbn [obind].
  rewrite <- Hsel. by apply (readHyperslab_selects fuel file sb header dt ds layout fp raw).
Qed.

(** ReadSlice returns the box that was asked for: the elements of [raw] from
    [start] on, [count] of them in each dimension, in row-major order, for
    compact datasets of any rank and contiguous ones of one or two dimensions. *)
Theorem slice_selects `{C : Codecs} fuel file sb address start count header dt ds layout fp raw :
  ReadObjectHeader fuel file address sb = Ret header -> described header sb dt ds layout fp ->
  Dimensions ds <> [] -> box_in (Dimensions ds) start count ->
  0 < dtSize dt -> len raw = prod (Dimensions ds) * dtSize dt -> len raw < 2 ^ 63 -> prod count * dtSize dt < 2 ^ 63 ->
  holds file layout raw -> (Class_ layout = LayoutContiguous -> (length (Dimensions ds) <= 2)%nat) ->
  ReadSlice fuel file sb address start count =
  convertToFloat64 (concat (selected (dtSize dt) (Dimensions ds) raw (boxAxes start count))) dt (prod count).
Proof.
  intros Hh Hdesc Hne Hbox Hes Hraw Hmax HT Hhold Hcase. destruct (boxAxes_ok _ _ _ Hbox) as (_ & Hax & Hx).
  rewrite (ReadSlice_box fuel file sb address start count header ds) by (done || by eapply firstDataspace_ok).
  rewrite (readHyperslab_selects fuel file sb header dt ds layout fp raw) by (done || (by rewrite Hx) || (intros Hcl; apply box_case; auto)).
  by rewrite Hx.
Qed.

(** C39. Contiguous datasets of other shapes are read wrongly.  In one dimension
    stride and block are ignored: the read returns the [count * block] elements
    that follow the first.  In three or more dimensions, when rows are not read
    whole, the bounding box is read as one run and elements are looked up in it
    with their indices in the whole dataset: every element is returned shifted by
    the index of the first one, those beyond the run are dropped, and zeros fill
    the rest. *)
Theorem contiguous_misread `{C : Codecs} fuel file sb address sel header dt ds layout fp raw :
  let dims := Dimensions ds in let es := dtSize dt in
  let axes := axesOf (fillHyperslabDefaults sel (len dims)) in
  let first := lin dims (map aStart axes) in let T := prod (map extent axes) in
  ReadObjectHeader fuel file address sb = Ret header -> described header sb dt ds layout fp ->
  dims <> [] -> Forall (is_u 64) dims -> inside dims sel ->
  0 < es -> len raw = prod dims * es -> len raw < 2 ^ 63 -> T * es < 2 ^ 63 ->
  Class_ layout = LayoutContiguous -> stored file (DataAddress layout) raw -> DataAddress layout + len raw < 2 ^ 63 ->
  (length dims = 1%nat -> first + T <= prod dims ->
     ReadHyperslab fuel file sb address sel = convertToFloat64 (sub raw (first * es) (T * es)) dt T) /\
  ((3 <= length dims)%nat -> isContiguousSelection (selOf axes) dims = Ret false ->
     let got := map (fun p => elem es raw (first + lin dims p))
                  (filter (fun p => lin dims p < prod (map span axes)) (points axes)) in
     ReadHyperslab fuel file sb address sel = convertToFloat64 (concat got ++ zeros ((T - len got) * es)) dt T).
Proof.
  intros dims es axes first T Hh Hdesc Hne Hdu Hin Hes Hraw Hmax HT Hcl Hst Haddr. destruct (inside_axes _ _ Hin) as [Hsel Hax].
  assert (Hfit : Forall axis_fits axes) by by apply (axes_fit dims).
  assert (E : ReadHyperslab fuel file sb address sel = readHyperslabContiguous file (selOf axes) dt ds layout).
  { unfold ReadHyperslab. rewrite Hh. cbn [obind]. rewrite (firstDataspace_ok sb header dt ds layout fp Hdesc). cbn [obind].
    change (Dimensions ds) with dims. rewrite (proj2 (validate_iff _ _ Hne Hdu Hfit) Hin). cbn [obind]. rewrite <- Hsel.
    destruct Hdesc as (t & s & l & E1 & _ & E2 & E3 & E4 & E5). unfold readHyperslab. rewrite E1. cbn [obind]. rewrite E2, E3, E4, E5. cbn [obind].
    unfold dispatchHyperslabReader, IsCompact, IsContiguous. by rewrite Hcl. }
  rewrite E. unfold readHyperslabContiguous. fold dims. split.
  - intros H1 Hfit1. unfold len. rewrite H1. cbn [Z.of_nat Pos.of_succ_nat Z.eqb Pos.eqb obind].
    by apply (readOptimized_run file raw dims axes).
  - intros H3 Hncg. unfold len. destruct (Z.eqb_spec (Z.of_nat (length dims)) 1); [lia|]. rewrite Hncg. cbn [obind].
    apply (rowByRow_shift file raw dims axes dt ds layout); (done || lia).
Qed.

(** ** Witnesses

    A dataset of 24 two-byte integers 0 ... 23 at address 0, with its header
    behind it, as 24, 4 x 6 and 2 x 3 x 4 elements. *)
#[local] Existing Instance Pipeline.storedCodecs.

Definition demo_sb : Superblock := mkSuperblock 2 8 8 0 0 LittleEndian 0 0 0 0.
Definition demo_raw : bytes := Eval vm_compute in concat (map (le_put 2) (seqZ 0 24)).
Definition int16Type : bytes := [x10; x08; x00; x00; x02; x00; x00; x00; x00; x00; x10; x00].
Definition demo_encode (dims : list Z) : outcome bytes :=
  let! s := EncodeDataspaceMessage dims [] in
  let! l := EncodeLayoutMessage LayoutContiguous 48 0 demo_sb [] 0 in
  let! (_, h) := encodeV2 (mkHeaderWriter 2 0 [(MsgDatatype, int16Type); (MsgDataspace, s); (MsgDataLayout, l)] 0) in
  Ret (demo_raw ++ h).
Definition demo_file (dims : list Z) : bytes := match demo_encode dims with Ret f => f | _ => [] end.
Definition demo_dt : DatatypeMessage := mkDatatype DatatypeFixed 1 2 8 [x00; x00; x10; x00].
Definition demo_layout : DataLayoutMessage := mkLayout 3 LayoutContiguous 0 48 [] [] 4.

(** What the read is meant to return, converted. *)
Definition ints (r : outcome (list spec_float)) : option (list (option Z)) :=
  match r with Ret l => Some (map SF2Z l) | _ => None end.

Lemma demo_described dims :
  (let! h := ReadObjectHeader 3 (demo_file dims) 48 demo_sb in
   let! (t, s, l) := findMessages (hMessages h) in
   let! dt := ParseDatatypeMessage t in let! ds := ParseDataspaceMessage s in let! lay := ParseDataLayoutMessage l demo_sb in
   let! fp := parsePipeline (lastMessage MsgFilterPipeline (hMessages h)) in
   Ret (bool_decide (firstMessage MsgDataspace (hMessages h) = Some s), dt, ds, lay, fp)) =
  Ret (true, demo_dt, mkDataspace 1 DataspaceSimple dims [], demo_layout, None) ->
  exists h, ReadObjectHeader 3 (demo_file dims) 48 demo_sb = Ret h /\
    described h demo_sb demo_dt (mkDataspace 1 DataspaceSimple dims []) demo_layout None.
Proof.
  intros (h & Hh & H)%obind_ret_inv. exists h. split; [exact Hh|]. apply obind_ret_inv in H as ([[t s] l] & E1 & H).
  apply obind_ret_inv in H as (dt & E2 & H). apply obind_ret_inv in H as (ds & E3 & H).
  apply obind_ret_inv in H as (lay & E4 & H). apply obind_ret_inv in H as (fp & E5 & H). injection H as Hs -> -> -> ->.
  apply bool_decide_eq_true in Hs. exists t, s, l. split_and!; assumption.
Qed.

Lemma demo_holds dims : read_at (demo_file dims) 0 48 = Ret demo_raw -> holds (demo_file dims) demo_layout demo_raw.
Proof. intros H. right. split; [reflexivity|]. split; [exact H|reflexivity]. Qed.

Ltac demo_axes := repeat constructor; cbn; (lia || unfold is_u; cbn; lia || done).

Ltac demo_inside := split; [by apply validateSelectionDimensions_iff|split; [demo_axes|vm_compute; discriminate]].

Example hyperslab_selects_witness :
  ints (ReadHyperslab 3 (demo_file [4; 6]) demo_sb 48 (mkSelection [1; 1] [2; 2] (Some [2; 3]) (Some [1; 2]))) =
  Some (map Some [7; 8; 10; 11; 19; 20; 22; 23]).
Proof.
  destruct (demo_described [4; 6]) as (h & Hh & Hd); [vm_compute; reflexivity|].
  rewrite (hyperslab_selects 3 (demo_file [4; 6]) demo_sb 48 (mkSelection [1; 1] [2; 2] (Some [2; 3]) (Some [1; 2])) h demo_dt
    (mkDataspace 1 DataspaceSimple [4; 6] []) demo_layout None demo_raw Hh Hd); [vm_compute; reflexivity|discriminate|demo_axes| |reflexivity..| |].
  - demo_inside.
  - apply demo_holds. vm_compute. reflexivity.
  - intros _. right. split; [reflexivity|vm_compute; reflexivity].
Defined.

Example slice_selects_witness :
  ints (ReadSlice 3 (demo_file [4; 6]) demo_sb 48 [1; 2] [2; 3]) = Some (map Some [8; 9; 10; 14; 15; 16]).
Proof.
  destruct (demo_described [4; 6]) as (h & Hh & Hd); [vm_compute; reflexivity|].
  rewrite (slice_selects 3 (demo_file [4; 6]) demo_sb 48 [1; 2] [2; 3] h demo_dt
    (mkDataspace 1 DataspaceSimple [4; 6] []) demo_layout None demo_raw Hh Hd); [vm_compute; reflexivity|discriminate| |reflexivity..| |].
  - split; [done|]. split; [done|]. demo_axes.
  - apply demo_holds. vm_compute. reflexivity.
  - intros _. cbn. lia.
Defined.

Example contiguous_misread_witness :
  ints (ReadHyperslab 3 (demo_file [24]) demo_sb 48 (mkSelection [3] [4] (Some [2]) None)) = Some (map Some [3; 4; 5; 6]) /\
  ints (ReadHyperslab 3 (demo_file [2; 3; 4]) demo_sb 48 (mkSelection [0; 0; 1] [2; 2; 2] None None)) =
    Some (map Some [2; 3; 6; 7; 0; 0; 0; 0]).
Proof.
  split.
  - destruct (demo_described [24]) as (h & Hh & Hd); [vm_compute; reflexivity|].
    rewrite (proj1 (contiguous_misread 3 (demo_file [24]) demo_sb 48 (mkSelection [3] [4] (Some [2]) None) h demo_dt
      (mkDataspace 1 DataspaceSimple [24] []) demo_layout None demo_raw Hh Hd ltac:(discriminate) ltac:(demo_axes)
      ltac:(demo_inside) eq_refl eq_refl eq_refl eq_refl eq_refl
      ltac:(vm_compute; reflexivity) eq_refl) eq_refl ltac:(vm_compute; congruence)). vm_compute. reflexivity.
  - destruct (demo_described [2; 3; 4]) as (h & Hh & Hd); [vm_compute; reflexivity|].
    rewrite (proj2 (contiguous_misread 3 (demo_file [2; 3; 4]) demo_sb 48 (mkSelection [0; 0; 1] [2; 2; 2] None None) h demo_dt
      (mkDataspace 1 DataspaceSimple [2; 3; 4] []) demo_layout None demo_raw Hh Hd ltac:(discriminate) ltac:(demo_axes)
      ltac:(demo_inside) eq_refl eq_refl eq_refl eq_refl eq_refl
      ltac:(vm_compute; reflexivity) eq_refl) ltac:(cbn; lia) ltac:(vm_compute; reflexivity)). vm_compute. reflexivity.
Defined.
