(* ===== verification/HyperslabChunks.v ===== *)
(** * Partial reads of chunked datasets: the theorem about readHyperslabChunked

    Every chunk that a selection can touch is read once and the selected elements
    in it go to their places in the output.  For blocks that do not overlap this
    gives the elements of the reference of HyperslabLaws.v. *)

From Stdlib Require Import SpecFloat.
From S2P Require Import Prelude Overflow Grid Chunks Superblock Messages ObjectHeader Datatype Convert Allocator Storage BTreeV1 BTreeChunk Pipeline ChunkedDataset.
From S2P Require Import Groups DatasetReader Hyperslab HyperslabLaws.

(** ** Positions in the output *)

(** The blocks of the axis do not overlap. *)
Definition separate (a : axis) : Prop := aBlock a <= aStride a.

Definition coordinate (a : axis) (k : Z) : Z := aStart a + k / aBlock a * aStride a + k mod aBlock a.
Definition posOf (a : axis) (x : Z) : Z := (x - aStart a) / aStride a * aBlock a + (x - aStart a) mod aStride a.

Lemma flat_grid {A} (g : Z -> Z -> A) b n : 0 < b ->
  flat_map (fun c => map (g c) (seqZ 0 b)) (seqZ 0 (Z.of_nat n)) = map (fun k => g (k / b) (k mod b)) (seqZ 0 (Z.of_nat n * b)).
Proof.
  intros Hb. induction n as [|n IH]; [done|]. rewrite seqZ_S, flat_map_app, IH. cbn [flat_map]. rewrite app_nil_r, Z.add_0_l.
  replace (Z.of_nat (S n) * b) with (Z.of_nat n * b + b) by lia. rewrite seqZ_app, map_app by lia. f_equal.
  apply list_eq. intros i. unfold seqZ. rewrite !list_lookup_fmap.
  destruct (seq 0 (Z.to_nat b) !! i) as [j|] eqn:Ej; cbn; [|done]. f_equal. apply lookup_seq in Ej as [-> Hi].
  rewrite Z.add_0_l, Z.add_0_r. replace (Z.of_nat (0 + i) + Z.of_nat n * b) with (Z.of_nat n * b + Z.of_nat (0 + i)) by lia.
  rewrite Z.div_add_l, Z.div_small, Z.add_0_r by lia.
  rewrite Z.add_comm, Z.mod_add, Z.mod_small by lia. done.
Qed.

Lemma axis_coords_index d a : axis_in d a -> axis_coords a = map (coordinate a) (seqZ 0 (extent a)).
Proof.
  intros (?&?&?&?&?&?). unfold axis_coords, extent. rewrite <- (Z2Nat.id (aCount a)) by lia.
  by rewrite (flat_grid (fun c b => aStart a + c * aStride a + b)) by lia.
Qed.

Lemma posOf_coordinate a k : 0 < aBlock a -> separate a -> 0 <= k -> posOf a (coordinate a k) = k.
Proof.
  intros Hb Hs Hk. unfold separate in Hs. unfold posOf, coordinate.
  pose proof (Z.mod_pos_bound k (aBlock a) Hb). pose proof (Z.div_mod k (aBlock a) ltac:(lia)).
  replace (aStart a + k / aBlock a * aStride a + k mod aBlock a - aStart a) with (k / aBlock a * aStride a + k mod aBlock a) by lia.
  rewrite Z.div_add_l, (Z.div_small (k mod aBlock a)), Z.add_0_r by lia.
  rewrite (Z.add_comm (_ * aStride a)), Z.mod_add, (Z.mod_small (k mod aBlock a)) by lia. lia.
Qed.

Lemma map_posOf d a : axis_in d a -> separate a -> map (posOf a) (axis_coords a) = seqZ 0 (extent a).
Proof.
  intros Ha Hs. rewrite (axis_coords_index d a Ha), map_map. destruct Ha as (?&?&?&?&?&?).
  transitivity (map (fun k => k) (seqZ 0 (extent a))); [|by rewrite map_id].
  apply map_ext_in. intros k Hk%list_elem_of_In%elem_of_seqZ. by apply posOf_coordinate; [|done|lia].
Qed.

Lemma coordinate_mono a k k' : 0 < aBlock a -> separate a -> 0 <= k <= k' -> coordinate a k <= coordinate a k'.
Proof.
  intros Hb Hs Hk. unfold separate in Hs. unfold coordinate.
  pose proof (Z.mod_pos_bound k (aBlock a) Hb). pose proof (Z.div_mod k (aBlock a) ltac:(lia)).
  pose proof (Z.mod_pos_bound k' (aBlock a) Hb). pose proof (Z.div_mod k' (aBlock a) ltac:(lia)).
  pose proof (Z.div_le_mono k k' (aBlock a) Hb ltac:(lia)).
  destruct (decide (k / aBlock a = k' / aBlock a)) as [E|]; [rewrite E in *; lia|nia].
Qed.

Lemma axis_coords_sorted d a : axis_in d a -> separate a -> StronglySorted Z.le (axis_coords a).
Proof.
  intros Ha Hs. rewrite (axis_coords_index d a Ha). destruct Ha as (?&?&?&?&?&?).
  assert (forall n s, 0 <= s -> StronglySorted Z.le (map (coordinate a) (seqZ s (Z.of_nat n)))) as G.
  { induction n as [|n IH]; intros s Hs0; [constructor|]. rewrite seqZ_cons by lia. cbn [map].
    replace (Z.pred (Z.of_nat (S n))) with (Z.of_nat n) by lia. constructor; [apply IH; lia|].
    apply Forall_map, Forall_forall. intros k Hk%elem_of_seqZ. apply coordinate_mono; (done || lia). }
  specialize (G (Z.to_nat (extent a)) 0 ltac:(lia)). rewrite Z2Nat.id in G; [done|]. unfold extent. nia.
Qed.

Definition outPos (axes : list axis) (p : list Z) : Z := lin (map extent axes) (zip_with posOf axes p).

(** The selected points have consecutive positions. *)
Lemma map_outPos dims axes : Forall2 axis_in dims axes -> Forall separate axes ->
  map (outPos axes) (points axes) = seqZ 0 (prod (map extent axes)).
Proof.
  intros Hax Hs. induction Hax as [|d a dims axes Ha Hax IH]; [done|]. apply Forall_cons in Hs as [Hsa Hs]. specialize (IH Hs).
  cbn [points map]. rewrite prod_cons. set (P := prod (map extent axes)) in *.
  assert (HP : 0 < P) by exact (prod_pos _ (extents_pos dims axes Hax)).
  rewrite flat_map_concat_map, concat_map, map_map.
  transitivity (concat (map (fun i => map (fun j => i * P + j) (seqZ 0 P)) (map (posOf a) (axis_coords a)))).
  { rewrite map_map. f_equal. apply map_ext. intros x. rewrite <- IH, !map_map. apply map_ext. intros q. done. }
  rewrite (map_posOf d) by done. rewrite <- flat_map_concat_map.
  assert (HE : 0 < extent a) by (destruct Ha as (?&?&?&?&?&?); unfold extent; nia).
  rewrite <- (Z2Nat.id (extent a)) by lia. rewrite (flat_grid (fun i j => i * P + j)) by lia.
  transitivity (map (fun k => k) (seqZ 0 (Z.of_nat (Z.to_nat (extent a)) * P))); [|by rewrite map_id].
  apply map_ext. intros k. pose proof (Z.div_mod k P ltac:(lia)). lia.
Qed.

Lemma outPos_inj dims axes p q : Forall2 axis_in dims axes -> Forall separate axes ->
  p ∈ points axes -> q ∈ points axes -> outPos axes p = outPos axes q -> p = q.
Proof.
  intros Hax Hs Hp Hq E. pose proof (map_outPos dims axes Hax Hs) as Hm.
  apply list_elem_of_lookup_1 in Hp as [i Hi], Hq as [j Hj].
  assert (H1 : map (outPos axes) (points axes) !! i = Some (outPos axes p)) by by rewrite list_lookup_fmap, Hi.
  assert (H2 : map (outPos axes) (points axes) !! j = Some (outPos axes q)) by by rewrite list_lookup_fmap, Hj.
  rewrite Hm in H1, H2. apply lookup_seqZ in H1 as [H1 _], H2 as [H2 _]. assert (i = j) as -> by lia. congruence.
Qed.

Lemma outPos_lookup dims axes p : Forall2 axis_in dims axes -> Forall separate axes -> p ∈ points axes ->
  0 <= outPos axes p < prod (map extent axes) /\ points axes !! Z.to_nat (outPos axes p) = Some p.
Proof.
  intros Hax Hs Hp. pose proof (map_outPos dims axes Hax Hs) as Hm. apply list_elem_of_lookup_1 in Hp as [i Hi].
  assert (H1 : map (outPos axes) (points axes) !! i = Some (outPos axes p)) by by rewrite list_lookup_fmap, Hi.
  rewrite Hm in H1. apply lookup_seqZ in H1 as [H1 Hr]. split; [lia|]. by replace (Z.to_nat (outPos axes p)) with i by lia.
Qed.

(** ** The chunks a selection overlaps *)

Lemma overlapping_bounds ds cs es axes :
  Forall2 axis_in ds axes -> Forall2 (fun d c => 0 < d /\ 0 < c /\ d + c <= 2 ^ 64) ds cs ->
  findOverlappingBounds (selOf axes) (cs ++ [es]) ds =
  Ret (map (fun '(a, c) => aStart a / c) (zip axes cs), map (fun '(a, c) => (aStart a + span a - 1) / c) (zip axes cs)).
Proof.
  intros Hax Hcs. pose proof (Forall2_length _ _ _ Hax) as L1. pose proof (Forall2_length _ _ _ Hcs) as L2.
  unfold findOverlappingBounds.
  change (strides_ (selOf axes)) with (map aStride axes). change (blocks_ (selOf axes)) with (map aBlock axes).
  cbn [selOf Start Count]. replace (length (map aStart axes)) with (length (zip axes cs)) by (rewrite length_zip, length_map; lia).
  apply for_loop_gather. intros k [a c] xs ys Hk. apply lookup_zip_with_Some in Hk as (a' & c' & [= <- <-] & Ha & Hc).
  destruct (Forall2_lookup_r _ _ _ _ _ Hax Ha) as (d & Hd & H1 & H2 & H3 & H4 & H5 & H6).
  destruct (Forall2_lookup_lr _ _ _ _ _ _ Hcs Hd Hc) as (_ & Hc0 & _).
  rewrite !(idx_map _ _ _ _ Ha), (idx_lookup _ _ _ Hd). rewrite (idx_lookup (cs ++ [es]) k c) by (by apply lookup_app_l_Some).
  cbn [obind]. unfold divide. destruct (Z.eqb_spec c 0); [lia|]. cbn [obind].
  rewrite (u64_id (aCount a - 1)) by (unfold is_u; nia). rewrite u64_id by (unfold is_u; nia). unfold span.
  destruct (Z.geb_spec (aStart a + (aCount a - 1) * aStride a + aBlock a - 1) d); [lia|].
  by replace (aStart a + ((aCount a - 1) * aStride a + aBlock a) - 1) with (aStart a + (aCount a - 1) * aStride a + aBlock a - 1) by lia.
Qed.

(** The coordinates from [first] to [last], in row-major order. *)
Fixpoint boxList (first last : list Z) : list (list Z) :=
  match first, last with
  | f :: first, l :: last => flat_map (fun i => map (cons i) (boxList first last)) (seqZ f (l - f + 1))
  | _, _ => [[]]
  end.

Lemma generate_ok first : forall last current result,
  generateChunkCoordsRecursive first last current result = result ++ map (app current) (boxList first last).
Proof.
  induction first as [|f first IH]; intros [|l last] current result; cbn [generateChunkCoordsRecursive boxList map]; rewrite ?app_nil_r; try done.
  generalize (seqZ f (l - f + 1)). intros ks. revert result. induction ks as [|i ks IHi]; intros result; cbn [fold_left flat_map map]; [by rewrite app_nil_r|].
  rewrite IHi, IH, map_app, map_map, <- app_assoc. do 2 f_equal. apply map_ext. intros q. by rewrite <- app_assoc.
Qed.

Lemma elem_of_boxList first last c : length first = length last ->
  c ∈ boxList first last <-> Forall2 (fun '(f, l) x => f <= x <= l) (zip first last) c.
Proof.
  revert last c. induction first as [|f first IH]; intros [|l last] c Hl; try discriminate; cbn [boxList zip zip_with].
  - rewrite list_elem_of_singleton. split; [by intros ->|by intros ->%Forall2_nil_inv_l].
  - rewrite list_elem_of_In, in_flat_map. split.
    + intros (i & Hi & Hc). rewrite <- list_elem_of_In, elem_of_seqZ in Hi. apply in_map_iff in Hc as (q & <- & Hq).
      rewrite <- list_elem_of_In in Hq. apply IH in Hq; [|by injection Hl]. constructor; [lia|done].
    + intros (x & q & Hx & Hq & ->)%Forall2_cons_inv_l. exists x. rewrite <- list_elem_of_In, elem_of_seqZ. split; [lia|].
      apply in_map. rewrite <- list_elem_of_In. apply IH; [by injection Hl|done].
Qed.

Lemma total_nonneg l : forall t, 0 < t -> Forall (fun '(f, l) => 0 < l - f + 1) l ->
  t * prod (map (fun '(f, l) => l - f + 1) l) < 2 ^ 63 ->
  fold_left (fun t '(f, l) => i64 (t * i64 (u64 (l - f + 1)))) l t = t * prod (map (fun '(f, l) => l - f + 1) l).
Proof.
  induction l as [|[f u] l IH]; intros t Ht Hl Hp; cbn [fold_left map] in *; [cbn; lia|]. rewrite prod_cons in *.
  apply Forall_cons in Hl as [Hn Hl]. set (n := u - f + 1) in *.
  assert (HP : 0 < prod (map (fun '(f, l) => l - f + 1) l)).
  { apply prod_pos, Forall_map. eapply Forall_impl; [exact Hl|]. by intros [? ?]. }
  rewrite (u64_id n) by (unfold is_u; nia). rewrite !i64_id by (rewrite ?i64_id; nia). rewrite IH; [lia|nia|done|nia].
Qed.

Lemma points_span dims axes p : Forall2 axis_in dims axes -> p ∈ points axes ->
  Forall2 (fun a x => aStart a <= x < aStart a + span a) axes p.
Proof.
  intros H. revert p. induction H as [|d a dims axes Ha H IH]; intros p Hp; cbn in Hp.
  - apply list_elem_of_singleton in Hp as ->. constructor.
  - rewrite list_elem_of_In, in_flat_map in Hp. destruct Hp as (x & Hx & Hp).
    rewrite <- list_elem_of_In in Hx. apply in_map_iff in Hp as (q & <- & Hq). rewrite <- list_elem_of_In in Hq.
    constructor; [|by apply IH]. apply elem_of_axis in Hx as (c & b & ? & ? & ->). destruct Ha as (?&?&?&?&?&?). unfold span. nia.
Qed.

Section overlap.
Context (ds cs : list Z) (es : Z) (axes : list axis).
Hypothesis Hok : dims_ok ds cs.
Hypothesis Hax : Forall2 axis_in ds axes.
Let nums := zip_with chunksIn ds cs.
Let cc := mkCoordinator ds cs nums.
Let firsts := map (fun '(a, c) => aStart a / c) (zip axes cs).
Let lasts := map (fun '(a, c) => (aStart a + span a - 1) / c) (zip axes cs).

Lemma overlap_at i d : ds !! i = Some d -> exists a c, axes !! i = Some a /\ cs !! i = Some c /\ axis_in d a /\ 0 < c /\ d + c <= 2 ^ 64 /\
  firsts !! i = Some (aStart a / c) /\ lasts !! i = Some ((aStart a + span a - 1) / c).
Proof.
  intros Hd. destruct (Forall2_lookup_l _ _ _ _ _ Hax Hd) as (a & Ha & Hin).
  destruct (Forall2_lookup_l _ _ _ _ _ (dims_at _ _ Hok) Hd) as (c & Hc & _ & H1 & H2). exists a, c.
  assert (Hz : zip axes cs !! i = Some (a, c)) by (apply lookup_zip_with_Some; by exists a, c).
  split_and!; try done; subst firsts lasts; by rewrite list_lookup_fmap, Hz.
Qed.

Lemma overlap_lengths : length firsts = length ds /\ length lasts = length ds /\ length cs = length ds.
Proof.
  pose proof (Forall2_length _ _ _ Hax). pose proof (Forall2_length _ _ _ (dims_at _ _ Hok)).
  subst firsts lasts. rewrite !length_map, length_zip. lia.
Qed.

Lemma counts_le : Forall (fun '(f, l) => 0 < l - f + 1) (zip firsts lasts) /\
  prod (map (fun '(f, l) => l - f + 1) (zip firsts lasts)) <= prod ds.
Proof.
  subst firsts lasts nums. clear cc. pose proof (dims_at _ _ Hok) as Hat. clear Hok.
  revert cs Hat. induction Hax as [|d a ds axes Ha H IH]; intros cs Hat; [done|].
  apply Forall2_cons_inv_l in Hat as (c & cs' & (H1 & H2 & H3) & Hat & ->). destruct (IH H cs' Hat) as [IH1 IH2].
  cbn [zip zip_with map] in *. destruct (span_pos d a Ha) as [Hs1 Hs2]. destruct Ha as (H4 & _).
  pose proof (Z.div_le_mono (aStart a) (aStart a + span a - 1) c H2 ltac:(lia)).
  assert (0 <= aStart a / c) by (apply Z.div_pos; lia).
  assert ((aStart a + span a - 1) / c < d) by (apply Z.div_lt_upper_bound; nia).
  split; [constructor; [lia|done]|]. rewrite !prod_cons.
  assert (0 < prod (map (fun '(f, l) => l - f + 1) (zip (map (fun '(a, c) => aStart a / c) (zip axes cs')) (map (fun '(a, c) => (aStart a + span a - 1) / c) (zip axes cs'))))).
  { apply prod_pos, Forall_map. eapply Forall_impl; [exact IH1|]. by intros [? ?]. }
  apply Z.mul_le_mono_nonneg; lia.
Qed.

Lemma overlapping_ok : prod ds < 2 ^ 63 ->
  exists L, findOverlappingChunks (selOf axes) (cs ++ [es]) ds = Ret L /\ L <> [] /\
    (forall c, c ∈ L -> in_box nums c) /\
    (forall c k, in_box nums c -> in_box (sizeOf cc c) k -> vadd (corner c cs) k ∈ points axes -> c ∈ L).
Proof.
  intros Hp. destruct overlap_lengths as (L1 & L2 & L3). destruct counts_le as [Hc1 Hc2].
  assert (Hmem : forall c, c ∈ boxList firsts lasts <-> Forall2 (fun '(f, l) x => f <= x <= l) (zip firsts lasts) c) by (intros c; apply elem_of_boxList; lia).
  exists (boxList firsts lasts). split_and!.
  - unfold findOverlappingChunks. rewrite (overlapping_bounds ds cs es axes Hax (dims_at _ _ Hok)). cbn [obind]. fold firsts lasts.
    unfold generateChunkCoordinates. destruct (Z.eqb_spec (len firsts) 0) as [E|_].
    { exfalso. apply (dims_ne _ _ Hok). unfold len in E. apply nil_length_inv. lia. }
    rewrite (total_nonneg (zip firsts lasts) 1) by (done || lia).
    assert (0 < prod (map (fun '(f, l) => l - f + 1) (zip firsts lasts))).
    { apply prod_pos, Forall_map. eapply Forall_impl; [exact Hc1|]. by intros [? ?]. }
    destruct (Z.ltb_spec (1 * prod (map (fun '(f, l) => l - f + 1) (zip firsts lasts))) 0); [lia|].
    rewrite generate_ok. cbn [app]. by rewrite map_id.
  - intros E. assert (Hin : firsts ∈ boxList firsts lasts).
    { apply Hmem. apply Forall2_same_length_lookup. split; [rewrite length_zip; lia|]. intros i [f l] x Hz Hx.
      apply lookup_zip_with_Some in Hz as (f' & l' & [= <- <-] & Hf & Hl). simplify_eq.
      destruct (idx_some ds i) as [d Hd]; [apply lookup_lt_Some in Hf; lia|].
      destruct (overlap_at i d Hd) as (a & c & _ & _ & Ha & Hc & _ & E1 & E2). simplify_eq.
      destruct (span_pos d a Ha). pose proof (Z.div_le_mono (aStart a) (aStart a + span a - 1) c Hc ltac:(lia)). lia. }
    rewrite E in Hin. by apply not_elem_of_nil in Hin.
  - intros c Hc. apply Hmem in Hc. pose proof (Forall2_length _ _ _ Hc) as Lc. rewrite length_zip in Lc.
    apply Forall2_same_length_lookup. subst nums. rewrite length_zip_with. split; [lia|]. intros i n x Hn Hx.
    apply lookup_zip_with_Some in Hn as (d & c' & -> & Hd & Hc').
    destruct (overlap_at i d Hd) as (a & c'' & _ & Hc'' & Ha & Hc0 & Hle & E1 & E2). simplify_eq.
    assert (Hz : zip firsts lasts !! i = Some (aStart a / c', (aStart a + span a - 1) / c')) by (apply lookup_zip_with_Some; eauto).
    pose proof (Forall2_lookup_lr _ _ _ _ _ _ Hc Hz Hx) as Hr. cbn in Hr.
    destruct (span_pos d a Ha) as [Hs1 Hs2]. destruct Ha as (H4 & _). apply chunksIn_spec; [lia|done|done|].
    assert (0 <= aStart a / c') by (apply Z.div_pos; lia). split; [lia|].
    pose proof (Z.mul_div_le (aStart a + span a - 1) c' Hc0). nia.
  - intros c k Hc Hk Hpt. apply Hmem. pose proof (points_span ds axes _ Hax Hpt) as Hsp.
    destruct (Chunks.grid_lengths ds cs Hok c Hc) as [Lc _]. apply Forall2_same_length_lookup. rewrite length_zip. split; [lia|].
    intros i [f l] x Hz Hx. apply lookup_zip_with_Some in Hz as (f' & l' & [= <- <-] & Hf & Hl).
    destruct (idx_some ds i) as [d Hd]; [apply lookup_lt_Some in Hf; lia|].
    destruct (overlap_at i d Hd) as (a & c' & Ha' & Hc' & Ha & Hc0 & Hle & E1 & E2).
    assert (f = aStart a / c') as -> by congruence. assert (l = (aStart a + span a - 1) / c') as -> by congruence.
    destruct (Chunks.grid_at ds cs Hok c i d Hc Hd) as (c'' & x' & Hcc & Hxx & _ & Hx0 & _ & Hco & Hsz & _).
    assert (c'' = c') as -> by congruence. assert (x' = x) as -> by congruence.
    destruct (Forall2_lookup_l _ _ _ _ _ Hk Hsz) as (kk & Hkk & Hkr).
    assert (Hv : vadd (corner c cs) k !! i = Some (x * c' + kk)) by (apply lookup_zip_with_Some; eauto).
    pose proof (Forall2_lookup_lr _ _ _ _ _ _ Hsp Ha' Hv) as Hr. cbn in Hr.
    split; [apply Z.lt_succ_r, Z.div_lt_upper_bound; nia|apply Z.div_le_lower_bound; nia].
Qed.
End overlap.

(** ** Keys *)

Definition numval (l : bytes) : Z := fold_left (fun v b => v * 10 + (b2z b - 48)) l 0.

Lemma digits_ok fuel : forall n acc, 0 <= n < 10 ^ Z.of_nat fuel -> (0 < fuel)%nat ->
  exists pre, digits fuel n acc = pre ++ acc /\ numval pre = n /\ x2c ∉ pre.
Proof.
  induction fuel as [|fuel IH]; intros n acc Hn Hf; [lia|]. cbn [digits].
  pose proof (Z.mod_pos_bound n 10 ltac:(lia)) as Hm. pose proof (Z.div_mod n 10 ltac:(lia)) as Hd.
  assert (Hb : b2z (z2b (48 + n mod 10)) = 48 + n mod 10) by (apply b2z_z2b_small; lia).
  assert (Hc : z2b (48 + n mod 10) <> x2c) by (intros E; rewrite E in Hb; change (b2z x2c) with 44 in Hb; lia).
  destruct (Z.eqb_spec (n / 10) 0) as [E|E].
  - exists [z2b (48 + n mod 10)]. split_and!; [done| |by rewrite list_elem_of_singleton]. unfold numval. cbn [fold_left]. lia.
  - rewrite Nat2Z.inj_succ, Z.pow_succ_r in Hn by lia. assert (Hr : 0 <= n / 10 < 10 ^ Z.of_nat fuel) by (split; [apply Z.div_pos; lia|apply Z.div_lt_upper_bound; lia]).
    destruct fuel as [|fuel']; [cbn in Hr; lia|].
    destruct (IH (n / 10) (z2b (48 + n mod 10) :: acc) Hr ltac:(lia)) as (pre & -> & Hv & Hnc).
    exists (pre ++ [z2b (48 + n mod 10)]). split_and!; [by rewrite <- app_assoc| |].
    + unfold numval in *. rewrite fold_left_app, Hv. cbn [fold_left]. lia.
    + rewrite elem_of_app, list_elem_of_singleton. intros [?| ?]; [done|congruence].
Qed.

Lemma decimal_ok n : is_u 64 n -> numval (decimal n) = n /\ x2c ∉ decimal n.
Proof.
  intros Hn. unfold decimal. destruct (digits_ok 20 n []) as (pre & -> & Hv & Hc); [unfold is_u in Hn; lia|lia|].
  by rewrite app_nil_r.
Qed.

Lemma split_comma (p q r s : bytes) : x2c ∉ p -> x2c ∉ q -> p ++ x2c :: r = q ++ x2c :: s -> p = q /\ r = s.
Proof.
  revert q. induction p as [|x p IH]; intros [|y q] Hp Hq E; cbn in E.
  - by injection E.
  - injection E as <- E. exfalso. apply Hq. by left.
  - injection E as -> E. exfalso. apply Hp. by left.
  - injection E as -> E. destruct (IH q) as [-> ->]; [by intros ?; apply Hp; right|by intros ?; apply Hq; right|done|done].
Qed.

Lemma chunkCoordsToKey_inj a b : length a = length b -> Forall (is_u 64) a -> Forall (is_u 64) b ->
  chunkCoordsToKey a = chunkCoordsToKey b -> a = b.
Proof.
  unfold chunkCoordsToKey. revert b. induction a as [|x a IH]; intros [|y b] Hl Ha Hb E; try discriminate; [done|].
  apply Forall_cons in Ha as [Hx Ha], Hb as [Hy Hb]. injection Hl as Hl.
  destruct (decimal_ok x Hx) as [Vx Cx], (decimal_ok y Hy) as [Vy Cy].
  destruct a as [|x' a], b as [|y' b]; try discriminate; cbn [map join] in E.
  - f_equal. rewrite <- Vx, <- Vy. by rewrite E.
  - apply split_comma in E as [E1 E2]; [|done|done]. f_equal; [rewrite <- Vx, <- Vy; by rewrite E1|by apply IH].
Qed.

Lemma indexChunks_ok n l : forall m,
  Forall (fun e => length (Coordinate e) = n /\ Forall (is_u 64) (Coordinate e)) l -> NoDup (map Coordinate l) ->
  exists m', indexChunks (Z.of_nat n) (map entryOf l) m = Ret m' /\
    (forall e, e ∈ l -> m' !! chunkCoordsToKey (Coordinate e) = Some (mkIndexEntry (eAddress e) (eNbytes e))) /\
    (forall c, length c = n -> Forall (is_u 64) c -> c ∉ map Coordinate l -> m' !! chunkCoordsToKey c = m !! chunkCoordsToKey c).
Proof.
  induction l as [|e l IH]; intros m Hf Hnd; cbn [map indexChunks].
  - exists m. split; [done|]. split; [by intros e He%not_elem_of_nil|done].
  - apply Forall_cons in Hf as [[Hl Hu] Hf]. apply NoDup_cons in Hnd as [Hni Hnd]. unfold entryOf at 1. cbn [Key Scaled].
    rewrite (slice_at _ [] (Coordinate e) [0]) by (done || (unfold len; lia)). cbn [obind].
    destruct (IH (<[chunkCoordsToKey (Coordinate e) := mkIndexEntry (eAddress e) (eNbytes e)]> m) Hf Hnd) as (m' & E & H1 & H2).
    exists m'. split; [exact E|]. split.
    + intros e' [-> |He']%elem_of_cons; [|by apply H1]. rewrite H2 by done. apply lookup_insert_eq.
    + intros c Hc Hcu Hcn. apply not_elem_of_cons in Hcn as [Hne Hcn]. rewrite H2 by done.
      apply lookup_insert_ne. intros Ek. apply Hne. symmetry. apply chunkCoordsToKey_inj in Ek; [done|congruence|done|done].
Qed.

(** ** Loops that may end early *)

Lemma for_each_skip {A S} (l : list A) (s : S) : for_each l (fun _ s => Ret s) s = Ret s.
Proof. induction l as [|x l IH]; [done|exact IH]. Qed.

(** Leaving a loop over an increasing list at the first element that reaches [hi]
    changes nothing when the elements from [hi] on do nothing. *)
Lemma for_each_return {S} (l : list Z) hi (g : Z -> S -> outcome S) s :
  StronglySorted Z.le l -> (forall x t, x ∈ l -> hi <= x -> g x t = Ret t) ->
  (let! (o, _) := for_each l (fun x '(o, returned) =>
     if returned : bool then Ret (o, true)
     else if x >=? hi then Ret (o, true) else let! o := g x o in Ret (o, false)) (s, false) in Ret o) = for_each l g s.
Proof.
  intros Hs. revert s. induction Hs as [|x l Hs IH Hx]; intros s Hg; cbn [for_each]; [done|].
  destruct (Z.geb_spec x hi) as [Hge|Hlt].
  - cbn [obind]. rewrite Hg by (done || left). cbn [obind].
    assert (for_each l (fun x '(o, returned) =>
     if returned : bool then Ret (o, true)
     else if x >=? hi then Ret (o, true) else let! o := g x o in Ret (o, false)) (s, true) = Ret (s, true)) as ->.
    { clear. induction l as [|y l IH]; [done|exact IH]. }
    cbn [obind]. rewrite (for_each_ext _ _ (fun _ t => Ret t)); [by rewrite for_each_skip|]. intros y t Hy. apply Hg; [by right|].
    rewrite Forall_forall in Hx. specialize (Hx y Hy). lia.
  - destruct (g x s) as [t| |]; cbn [obind]; [|done|done]. apply IH. intros y u Hy. apply Hg. by right.
Qed.

Lemma points_app a1 : forall a2 p q, p ∈ points a1 -> q ∈ points a2 -> p ++ q ∈ points (a1 ++ a2).
Proof.
  induction a1 as [|a a1 IH]; intros a2 p q Hp Hq; cbn [points app] in *.
  - by apply list_elem_of_singleton in Hp as ->.
  - rewrite list_elem_of_In, in_flat_map in Hp. destruct Hp as (x & Hx & Hp). apply in_map_iff in Hp as (p' & <- & Hp').
    rewrite <- list_elem_of_In in Hp'. rewrite list_elem_of_In, in_flat_map. exists x. split; [done|]. cbn [app].
    apply in_map. rewrite <- list_elem_of_In. by apply IH.
Qed.

(** ** Sizes of chunks *)

Lemma chunk_size_prod ds cs c : dims_ok ds cs -> in_box (zip_with chunksIn ds cs) c ->
  0 < prod (sizeOf (mkCoordinator ds cs (zip_with chunksIn ds cs)) c) <= prod ds.
Proof.
  intros Hok Hc. set (zs := sizeOf _ _).
  assert (Forall2 (fun d z => 0 < z <= d) ds zs) as H.
  { destruct (Chunks.grid_lengths ds cs Hok c Hc) as [L1 L2]. apply Forall2_same_length_lookup.
    split; [unfold zs, sizeOf; cbn [chunkDims datasetDims]; rewrite !length_zip_with; lia|]. intros i d z Hd Hz.
    destruct (Chunks.grid_at ds cs Hok c i d Hc Hd) as (cd & x & _ & _ & ? & ? & ? & _ & Hz' & _).
    pose proof (eq_trans (eq_sym Hz') Hz) as Ez. injection Ez as <-. lia. }
  clearbody zs. clear -H. induction H as [|d z ds zs Hd H [IH1 IH2]]; [done|].
  rewrite !prod_cons. split; [apply Z.mul_pos_pos; lia|apply Z.mul_le_mono_nonneg; lia].
Qed.

Lemma lin_exact ds cs c k : dims_ok ds cs -> inner_exact ds cs -> in_box (zip_with chunksIn ds cs) c ->
  lin cs k = lin (sizeOf (mkCoordinator ds cs (zip_with chunksIn ds cs)) c) k.
Proof. intros Hok Hex Hc. rewrite !lin_dot. f_equal. symmetry. by apply (exact_strides ds cs Hok c Hex Hc). Qed.

(** ** The selected part of one chunk *)

Section portion.
Context (ds cs : list Z) (es : Z) (axes : list axis) (buf chunk : bytes) (c : list Z).
Let nums := zip_with chunksIn ds cs.
Let cc := mkCoordinator ds cs nums.
Let T := prod (map extent axes).
Let lo := corner c cs.
Let hi := vadd (corner c cs) (sizeOf cc c).
Hypothesis Hok : dims_ok ds cs.
Hypothesis Hex : inner_exact ds cs.
Hypothesis Hax : Forall2 axis_in ds axes.
Hypothesis Hsep : Forall separate axes.
Hypothesis Hes : 0 < es.
Hypothesis Hbuf : len buf = prod ds * es.
Hypothesis Hmax : len buf < 2 ^ 63.
Hypothesis HT : T * es < 2 ^ 63.
Hypothesis Hc : in_box nums c.
Hypothesis Hlen : len chunk = prod (sizeOf cc c) * es.
Hypothesis Hchunk : forall k, in_box (sizeOf cc c) k -> elem es chunk (lin cs k) = elem es buf (lin ds (vadd lo k)).

Lemma portion_lengths : length axes = length ds /\ length cs = length ds /\ length c = length ds /\ length (sizeOf cc c) = length ds /\
  length lo = length ds /\ length hi = length ds.
Proof.
  pose proof (Forall2_length _ _ _ Hax). destruct (Chunks.grid_lengths ds cs Hok c Hc) as [L1 L2].
  unfold lo, hi, vadd, corner, sizeOf, cc. cbn [chunkDims datasetDims]. rewrite !length_zip_with. lia.
Qed.

(** The corners of the chunk, dimension by dimension. *)
Lemma portion_at i d : ds !! i = Some d -> exists cd l z, cs !! i = Some cd /\ lo !! i = Some l /\ sizeOf cc c !! i = Some z /\
  hi !! i = Some (l + z) /\ 0 < cd /\ 0 <= l /\ z = Z.min cd (d - l) /\ l < d /\ c !! i = Some (l / cd) /\ l = l / cd * cd.
Proof.
  intros Hd. destruct (Chunks.grid_at ds cs Hok c i d Hc Hd) as (cd & x & Hcd & Hx & Hcd0 & Hx0 & Hxd & Hco & Hsz & _).
  exists cd, (x * cd), (Z.min cd (d - x * cd)). rewrite Z.div_mul by lia. split_and!; try done; [|nia].
  unfold hi. apply lookup_zip_with_Some. exists (x * cd), (Z.min cd (d - x * cd)). done.
Qed.

Lemma chunkCorners_ok : chunkCorners c (cs ++ [es]) ds = Ret (lo, hi).
Proof.
  destruct portion_lengths as (L1 & L2 & L3 & L4 & L5 & L6). unfold chunkCorners.
  set (f := fun p : Z * (Z * Z) => u64 (p.1 * p.2.1)).
  set (g := fun p : Z * (Z * Z) => let e := u64 (f p + p.2.1) in if e >? p.2.2 then p.2.2 else e).
  set (l := zip c (zip cs ds)). assert (Ll : length l = length c) by (subst l; rewrite !length_zip; lia).
  rewrite <- Ll. rewrite (for_loop_gather f g).
  - assert (Hl : forall i d, ds !! i = Some d -> exists x cd, l !! i = Some (x, (cd, d)) /\ c !! i = Some x /\ cs !! i = Some cd).
    { intros i d Hd. destruct (portion_at i d Hd) as (cd & l' & z' & Hcd & _ & _ & _ & _ & _ & _ & _ & Hx & _).
      eexists _, cd. split; [|by split]. apply lookup_zip_with_Some. eexists _, (cd, d). split_and!; [reflexivity|done|].
      apply lookup_zip_with_Some. by exists cd, d. }
    f_equal. f_equal.
    + apply list_eq_same_length with (length ds); [lia|rewrite length_map; lia|]. intros i y z Hi Hy Hz.
      destruct (idx_some ds i Hi) as [d Hd]. destruct (Hl i d Hd) as (x & cd & Hli & Hx & Hcd).
      rewrite list_lookup_fmap, Hli in Hy. injection Hy as <-. unfold lo in Hz.
      apply lookup_zip_with_Some in Hz as (x' & cd' & -> & Hx' & Hcd'). simplify_eq. done.
    + apply list_eq_same_length with (length ds); [lia|rewrite length_map; lia|]. intros i y z Hi Hy Hz.
      destruct (idx_some ds i Hi) as [d Hd]. destruct (Hl i d Hd) as (x & cd & Hli & Hx & Hcd).
      destruct (portion_at i d Hd) as (cd' & lo' & sz & E1 & E2 & E3 & E4 & H1 & H2 & H3 & H4 & E5 & H5).
      rewrite list_lookup_fmap, Hli in Hy. injection Hy as <-. assert (cd' = cd) as -> by congruence. assert (z = lo' + sz) as -> by congruence.
      assert (x = lo' / cd) as -> by congruence. subst g f. cbn [fst snd].
      destruct (Forall2_lookup_l _ _ _ _ _ (dims_at _ _ Hok) Hd) as (cd' & Hcd' & _ & _ & Hle). assert (cd' = cd) as -> by congruence.
      rewrite <- H5. rewrite (u64_id lo') by (unfold is_u; lia). rewrite u64_id by (unfold is_u; lia).
      destruct (Z.gtb_spec (lo' + cd) d); lia.
  - intros k [x [cd d]] xs ys Hk. apply lookup_zip_with_Some in Hk as (x' & [cd' d'] & [= <- <- <-] & Hx & Hk).
    apply lookup_zip_with_Some in Hk as (cd' & d' & [= <- <-] & Hcd & Hd).
    rewrite (idx_lookup _ _ _ Hx), (idx_lookup (cs ++ [es]) k cd), (idx_lookup _ _ _ Hd) by by apply lookup_app_l_Some. done.
Qed.

(** A point is inside when it is a corner plus an offset in the chunk. *)
Lemma inChunk_ok p : in_box ds p -> exists b, inChunk lo hi p = Ret b /\
  (b = true <-> exists k, in_box (sizeOf cc c) k /\ p = vadd lo k).
Proof.
  intros Hp. pose proof (in_box_length _ _ Hp) as Lp. destruct portion_lengths as (L1 & L2 & L3 & L4 & L5 & L6).
  assert (G : forall n k b, (k + n = length ds)%nat ->
    (b = true <-> forall i x l h, (i < k)%nat -> p !! i = Some x -> lo !! i = Some l -> hi !! i = Some h -> l <= x < h) ->
    exists b', for_loop n (Z.of_nat k) (fun i inside => if inside : bool then
      let! x := idx p i in let! l := idx lo i in let! h := idx hi i in Ret (negb ((x <? l) || (x >=? h))) else Ret false) b = Ret b' /\
    (b' = true <-> forall i x l h, (i < length ds)%nat -> p !! i = Some x -> lo !! i = Some l -> hi !! i = Some h -> l <= x < h)).
  { induction n as [|n IH]; intros k b Hk Hb; cbn [for_loop].
    - exists b. split; [done|]. by replace (length ds) with k by lia.
    - destruct (idx_some p k) as [x Hx]; [lia|]. destruct (idx_some lo k) as [l Hl]; [lia|]. destruct (idx_some hi k) as [h Hh]; [lia|].
      rewrite (idx_lookup _ _ _ Hx), (idx_lookup _ _ _ Hl), (idx_lookup _ _ _ Hh). cbn [obind].
      replace (Z.of_nat k + 1) with (Z.of_nat (S k)) by lia.
      assert (Hs : (if b then Ret (negb ((x <? l) || (x >=? h))) else Ret false) = Ret (b && negb ((x <? l) || (x >=? h)))) by by destruct b.
      rewrite Hs. cbn [obind]. apply IH; [lia|]. rewrite andb_true_iff, Hb.
      destruct (Z.ltb_spec x l), (Z.geb_spec x h); cbn [orb negb]; (split; [intros [Hbs Hin]; try done|intros Hbs]).
      all: try (specialize (Hbs k x l h ltac:(lia) Hx Hl Hh); lia).
      + intros i x' l' h' Hi Hx' Hl' Hh'. destruct (decide (i = k)) as [-> |]; [simplify_eq; lia|apply (Hbs i); (done || lia)].
      + split; [|done]. intros i x' l' h' Hi. apply Hbs. lia. }
  destruct (G (length ds) 0%nat true eq_refl) as (b & E & Hb); [split; [intros _ ????; lia|done]|].
  exists b. split; [unfold inChunk; rewrite Lp; exact E|]. rewrite Hb. split.
  - intros H. exists (zip_with Z.sub p lo). split.
    + apply Forall2_same_length_lookup. rewrite length_zip_with. split; [lia|]. intros i z y Hz Hy.
      apply lookup_zip_with_Some in Hy as (x & l & -> & Hx & Hl). destruct (idx_some ds i) as [d Hd]; [apply lookup_lt_Some in Hx; lia|].
      destruct (portion_at i d Hd) as (cd & l' & z' & _ & El & Ez & Eh & _).
      assert (l' = l) as -> by congruence. assert (z' = z) as -> by congruence.
      specialize (H i x l (l + z) ltac:(apply lookup_lt_Some in Hx; lia) Hx Hl Eh). lia.
    + apply list_eq_same_length with (length ds); [unfold vadd; rewrite !length_zip_with; lia|lia|]. intros i y x Hi Hy Hx.
      apply lookup_zip_with_Some in Hx as (l & k & -> & Hl & Hk). apply lookup_zip_with_Some in Hk as (x' & l' & -> & Hx' & Hl').
      assert (y = x') as -> by congruence. assert (l' = l) as -> by congruence. lia.
  - intros (k & Hk & ->) i x l h Hi Hx Hl Hh. apply lookup_zip_with_Some in Hx as (l' & y & -> & Hl' & Hy).
    pose proof (eq_trans (eq_sym Hl') Hl) as E0. injection E0 as ->. destruct (Forall2_lookup_r _ _ _ _ _ Hk Hy) as (z & Hz & Hr).
    unfold hi in Hh. apply lookup_zip_with_Some in Hh as (l' & z' & -> & Hl2 & Hz2).
    pose proof (eq_trans (eq_sym Hl2) Hl) as E1. pose proof (eq_trans (eq_sym Hz2) Hz) as E2.
    injection E1 as ->. injection E2 as ->. lia.
Qed.

Lemma chunkOffset_ok k : in_box (sizeOf cc c) k -> chunkOffset lo (cs ++ [es]) (vadd lo k) = Ret (lin cs k).
Proof.
  intros Hk. destruct portion_lengths as (L1 & L2 & L3 & L4 & L5 & L6). pose proof (in_box_length _ _ Hk) as Lk.
  assert (Lv : length (vadd lo k) = length cs) by (unfold vadd; rewrite length_zip_with; lia).
  unfold chunkOffset. rewrite Lv, (rowMajor_ok k cs); [|lia|].
  - f_equal. apply u64_id. pose proof (lin_range _ _ Hk). pose proof (chunk_size_prod ds cs c Hok Hc) as Hsp. fold nums cc in Hsp. rewrite (lin_exact ds cs c k Hok Hex Hc). fold nums cc. unfold is_u. nia.
  - intros i y cd Hy Hcd. destruct (idx_some ds i) as [d Hd]; [apply lookup_lt_Some in Hcd; lia|].
    destruct (portion_at i d Hd) as (cd' & l & z & E1 & E2 & E3 & _ & H1 & H2 & H3 & H4 & _).
    assert (Hv : vadd lo k !! i = Some (l + y)) by (apply lookup_zip_with_Some; eauto).
    destruct (Forall2_lookup_r _ _ _ _ _ Hk Hy) as (z' & Hz' & Hr). pose proof (eq_trans (eq_sym E3) Hz') as E. injection E as <-.
    rewrite (idx_lookup _ _ _ Hv), (idx_lookup _ _ _ E2), (idx_lookup (cs ++ [es]) i cd) by by apply lookup_app_l_Some.
    cbn [obind]. destruct (Forall2_lookup_l _ _ _ _ _ (dims_at _ _ Hok) Hd) as (cd2 & Hcd2 & _ & _ & Hle).
    rewrite u64_id by (unfold is_u; assert (cd2 = cd') by congruence; lia). f_equal. f_equal. lia.
Qed.

Lemma selectionOutputIndex_ok p : p ∈ points axes -> selectionOutputIndex p (selOf axes) = Ret (outPos axes p).
Proof.
  intros Hp. destruct (outPos_lookup ds axes p Hax Hsep Hp) as [Hr _]. fold T in Hr.
  pose proof (in_box_length _ _ (points_in_box _ _ _ Hax Hp)) as Lp. pose proof (Forall2_length _ _ _ Hax) as La.
  unfold selectionOutputIndex. replace (length p) with (length (map extent axes)) by (rewrite length_map; lia).
  rewrite (rowMajor_ok (zip_with posOf axes p)).
  - f_equal. apply u64_id. unfold outPos, is_u in *. nia.
  - rewrite length_zip_with, length_map. lia.
  - intros i y e Hy He. apply lookup_zip_with_Some in Hy as (a & x & -> & Ha & Hx).
    rewrite list_lookup_fmap, Ha in He. injection He as <-.
    change (strides_ (selOf axes)) with (map aStride axes). change (blocks_ (selOf axes)) with (map aBlock axes). cbn [selOf Start Count].
    rewrite (idx_lookup _ _ _ Hx), !(idx_map _ _ _ _ Ha). cbn [obind].
    destruct (Forall2_lookup_r _ _ _ _ _ Hax Ha) as (d & Hd & H1 & H2 & H3 & H4 & H5 & H6).
    pose proof (Forall_lookup_1 _ _ _ _ Hsep Ha) as Hs. unfold separate in Hs.
    pose proof (Forall2_lookup_lr _ _ _ _ _ _ (points_span ds axes p Hax Hp) Ha Hx) as Hsp. cbn in Hsp. unfold span in Hsp.
    rewrite (u64_id (x - aStart a)) by (unfold is_u; lia).
    assert (Hext : u64 (aCount a * aBlock a) = extent a) by (apply u64_id; pose proof (Z.mul_le_mono_nonneg_l (aBlock a) (aStride a) (aCount a - 1) ltac:(lia) Hs);
      pose proof (Z.mul_nonneg_nonneg (aCount a) (aBlock a) ltac:(lia) ltac:(lia)); unfold is_u, extent; lia).
    rewrite Hext. f_equal. f_equal. unfold posOf.
    pose proof (Z.mod_pos_bound (x - aStart a) (aStride a) ltac:(lia)). pose proof (Z.div_mod (x - aStart a) (aStride a) ltac:(lia)).
    assert (0 <= (x - aStart a) / aStride a) by (apply Z.div_pos; lia).
    destruct (Z.leb_spec (aStride a) 1) as [E1|_].
    + assert (aStride a = 1) as -> by lia. assert (aBlock a = 1) as -> by lia. rewrite Z.div_1_r, Z.mod_1_r. lia.
    + apply u64_id. unfold is_u. split; [nia|]. assert ((x - aStart a) / aStride a * aBlock a <= (x - aStart a) / aStride a * aStride a) by nia. lia.
Qed.

(** The element of an inside point goes to its position. *)
Lemma portion_leaf p out dim : p ∈ points axes -> len out = T * es ->
  exists out', extractChunkPortionRecursive chunk lo hi (cs ++ [es]) (selOf axes) es 0 p dim out = Ret out' /\ len out' = T * es /\
    forall q, q ∈ points axes ->
      elem es out (outPos axes q) = elem es buf (lin ds q) \/ q = p /\ (exists k, in_box (sizeOf cc c) k /\ q = vadd lo k) ->
      elem es out' (outPos axes q) = elem es buf (lin ds q).
Proof.
  intros Hp Hout. destruct (inChunk_ok p (points_in_box _ _ _ Hax Hp)) as (b & E & Hb). cbn [extractChunkPortionRecursive].
  rewrite E. cbn [obind]. destruct b; cbn [negb].
  2: { exists out. split; [done|]. split; [done|]. intros q Hq [Hold|[-> Hk]]; [done|]. apply Hb in Hk. done. }
  destruct (proj1 Hb eq_refl) as (k & Hk & ->). rewrite chunkOffset_ok, selectionOutputIndex_ok by done. cbn [obind].
  destruct (outPos_lookup ds axes _ Hax Hsep Hp) as [Hr _]. fold T in Hr. set (pos := outPos axes (vadd lo k)) in *.
  pose proof (lin_range _ _ Hk) as Hl. pose proof (chunk_size_prod ds cs c Hok Hc) as Hsz. fold nums cc in Hsz.
  pose proof (lin_exact ds cs c k Hok Hex Hc) as El. fold nums cc in El. rewrite <- El in Hl. set (src := lin cs k) in *.
  assert (Hle : src * es + es <= len chunk) by nia. assert (Hlc : len chunk < 2 ^ 63) by nia.
  assert (Hlo : pos * es + es <= len out) by nia.
  rewrite !u64_id by (rewrite ?u64_id; unfold is_u; nia).
  destruct (Z.leb_spec (src * es + es) (len chunk)); [|lia]. destruct (Z.leb_spec (pos * es + es) (len out)); [|lia]. cbn [andb].
  rewrite copyElement_ok by nia. eexists. split; [reflexivity|].
  assert (He : len (sub chunk (src * es) es) = es) by (apply len_sub; lia).
  split; [rewrite len_blit; lia|]. intros q Hq Hor.
  destruct (decide (q = vadd lo k)) as [-> |Hne].
  - fold pos. rewrite (elem_blit_same es out pos 1) by lia. rewrite Z.sub_diag. unfold elem at 1. rewrite Z.mul_0_l, sub_all by lia.
    by apply Hchunk.
  - assert (Hpq : outPos axes q <> pos) by (intros E'; apply Hne; by apply (outPos_inj ds axes)).
    destruct (outPos_lookup ds axes q Hax Hsep Hq) as [Hrq _].
    rewrite (elem_blit_other es out pos 1) by lia. naive_solver.
Qed.

(** *** The recursion as a loop over the points *)

Lemma portion_each apost : forall apre pre rest out,
  axes = apre ++ apost -> pre ∈ points apre -> length rest = length apost ->
  extractChunkPortionRecursive chunk lo hi (cs ++ [es]) (selOf axes) es (length apost) (pre ++ rest) (len pre) out =
  for_each (map (app pre) (points apost))
    (fun p => extractChunkPortionRecursive chunk lo hi (cs ++ [es]) (selOf axes) es 0 p 0) out.
Proof.
  induction apost as [|a apost IH]; intros apre pre rest out Hsplit Hpre Hrest.
  - destruct rest; [|done]. cbn [length points map for_each].
    change (extractChunkPortionRecursive chunk lo hi (cs ++ [es]) (selOf axes) es 0 (pre ++ []) (len pre) out)
      with (extractChunkPortionRecursive chunk lo hi (cs ++ [es]) (selOf axes) es 0 (pre ++ []) 0 out). by rewrite obind_ret_r.
  - destruct rest as [|r rest]; [done|]. cbn [length extractChunkPortionRecursive].
    assert (Hlp : length pre = length apre).
    { clear -Hax Hsplit Hpre. rewrite Hsplit in Hax. apply Forall2_app_inv_r in Hax as (d1 & d2 & H1 & _ & _).
      rewrite (in_box_length _ _ (points_in_box _ _ _ H1 Hpre)). by apply Forall2_length in H1. }
    assert (Ha : axes !! length pre = Some a) by (rewrite Hsplit, Hlp; by apply list_lookup_middle).
    destruct (Forall2_lookup_r _ _ _ _ _ Hax Ha) as (d & Hd & Hin). change (len pre) with (Z.of_nat (length pre)).
    destruct (portion_at _ d Hd) as (cd & l & z & _ & _ & _ & Hhi & _).
    rewrite (blockLoop_each axes _ a d) by done.
    assert (Hset : forall x, set_idx (pre ++ r :: rest) (Z.of_nat (length pre)) x = Ret ((pre ++ [x]) ++ rest)).
    { intros x. rewrite set_idx_ret by (rewrite len_app, len_cons; pose proof (len_nonneg rest); unfold len in *; lia).
      change (Z.of_nat (length pre)) with (len pre) at 1. by rewrite list_set_middle. }
    assert (Hin' : forall x q, x ∈ axis_coords a -> q ∈ points apost -> pre ++ x :: q ∈ points axes).
    { intros x q Hx Hq. rewrite Hsplit. apply points_app; [done|]. cbn [points]. rewrite list_elem_of_In, in_flat_map.
      exists x. rewrite <- list_elem_of_In. split; [done|]. apply in_map. by rewrite <- list_elem_of_In. }
    set (g := fun x (o : bytes) => for_each (map (app (pre ++ [x])) (points apost))
      (fun p => extractChunkPortionRecursive chunk lo hi (cs ++ [es]) (selOf axes) es 0 p 0) o).
    transitivity (for_each (axis_coords a) g out).
    + rewrite <- (for_each_return (axis_coords a) (l + z) g out).
      * f_equal. apply for_each_ext. intros x [o returned] Hx. destruct returned; [done|]. rewrite Hset. cbn [obind].
        rewrite (idx_lookup _ _ _ Hhi). cbn [obind]. destruct (x >=? l + z); [done|].
        replace (Z.of_nat (length pre) + 1) with (len (pre ++ [x])) by (rewrite len_app; done).
        rewrite (IH (apre ++ [a])); [done|by rewrite <- app_assoc| |by injection Hrest].
        apply points_app; [done|]. cbn [points]. rewrite list_elem_of_In, in_flat_map. exists x. rewrite <- list_elem_of_In. split; [done|]. by left.
      * apply (axis_coords_sorted d); [done|]. by eapply Forall_lookup_1.
      * intros x o Hx Hge. subst g. cbn beta. rewrite for_each_map.
        rewrite (for_each_ext _ _ (fun _ o => Ret o)); [by rewrite for_each_skip|]. intros q o' Hq. rewrite <- app_assoc. cbn [app].
        destruct (inChunk_ok (pre ++ x :: q)) as (b & E & Hb); [eapply points_in_box; [exact Hax|by apply Hin']|].
        cbn [extractChunkPortionRecursive]. rewrite E. cbn [obind]. destruct b; [exfalso|done].
        destruct (proj1 Hb eq_refl) as (k & Hk & Ek).
        assert (Hx1 : (pre ++ x :: q) !! length pre = Some x) by by apply list_lookup_middle.
        rewrite Ek in Hx1. apply lookup_zip_with_Some in Hx1 as (l' & y & -> & Hl' & Hy).
        destruct (portion_at _ d Hd) as (cd' & l2 & z2 & _ & El & Ez & Eh & _).
        destruct (Forall2_lookup_r _ _ _ _ _ Hk Hy) as (z3 & Hz3 & Hr).
        pose proof (eq_trans (eq_sym Hl') El) as E1. injection E1 as ->. pose proof (eq_trans (eq_sym Hz3) Ez) as E2. injection E2 as ->.
        rewrite Hhi in Eh. injection Eh as Eh. lia.
    + cbn [points]. rewrite for_each_map, for_each_flat_map. apply for_each_ext. intros x o _. subst g. cbn beta.
      rewrite !for_each_map. apply for_each_ext. intros q o' _. by rewrite <- app_assoc.
Qed.

Lemma extractChunkPortion_ok out : len out = T * es ->
  exists out', extractChunkPortion chunk c (cs ++ [es]) ds (selOf axes) es out = Ret out' /\ len out' = T * es /\
    forall q, q ∈ points axes ->
      elem es out (outPos axes q) = elem es buf (lin ds q) \/ (exists k, in_box (sizeOf cc c) k /\ q = vadd lo k) ->
      elem es out' (outPos axes q) = elem es buf (lin ds q).
Proof.
  intros Hout. destruct portion_lengths as (L1 & L2 & L3 & L4 & L5 & L6).
  unfold extractChunkPortion. rewrite chunkCorners_ok. cbn [obind].
  replace (length c) with (length axes) by lia.
  destruct (for_each_inv (fun done o => len o = T * es /\ forall q, q ∈ points axes ->
      elem es out (outPos axes q) = elem es buf (lin ds q) \/ q ∈ done /\ (exists k, in_box (sizeOf cc c) k /\ q = vadd lo k) ->
      elem es o (outPos axes q) = elem es buf (lin ds q))
    (fun p => extractChunkPortionRecursive chunk lo hi (cs ++ [es]) (selOf axes) es 0 p 0) (points axes) [] out)
    as (out' & E & Hl & Hq).
  - split; [done|]. intros q Hq [?|[Hn _]]; [done|]. by apply not_elem_of_nil in Hn.
  - intros done p o Hpre [Hl Hinv]. assert (Hp : p ∈ points axes).
    { destruct Hpre as [k Hk]. cbn [app] in Hk. rewrite Hk. set_solver. }
    destruct (portion_leaf p o 0 Hp Hl) as (o' & E & Hl' & Hg). exists o'. split; [exact E|]. split; [done|].
    intros q Hq Hor. apply Hg; [done|]. destruct Hor as [?|[Hd Hk]]; [left; apply Hinv; auto|].
    apply elem_of_app in Hd as [Hd|Hd%list_elem_of_singleton]; [left; apply Hinv; auto|right; auto].
  - exists out'. split; [|split; [done|]].
    + refine (eq_trans (portion_each axes [] [] (copyInto (len c) (Start (selOf axes))) out eq_refl _ _) _); [by left| |].
      * unfold copyInto. cbn [selOf Start]. rewrite length_app, length_take, length_replicate, length_map. unfold len. lia.
      * rewrite for_each_map. exact E.
    + intros q Hq' Hor. apply Hq; [done|]. destruct Hor as [?|?]; [by left|right; split; [done|done]].
Qed.
End portion.

(** ** All chunks *)

Lemma elem_concat es (ls : list bytes) : Forall (fun e : bytes => len e = es) ls -> 0 < es -> forall i e,
  0 <= i -> ls !! Z.to_nat i = Some e -> elem es (concat ls) i = e.
Proof.
  intros Hl Hes. induction Hl as [|x ls Hx Hl IH]; intros i e Hi He; [done|]. cbn [concat].
  destruct (decide (i = 0)) as [-> |Hne].
  - injection He as <-. unfold elem, sub. rewrite Z.mul_0_l, drop_0, take_app_le by (unfold len in Hx; lia).
    apply take_ge. unfold len in Hx. lia.
  - replace (Z.to_nat i) with (S (Z.to_nat (i - 1))) in He by lia. cbn in He. rewrite <- (IH (i - 1) e) by (done || lia).
    unfold elem, sub. rewrite drop_app_ge by (unfold len in Hx; nia). do 2 f_equal. unfold len in Hx. nia.
Qed.

(** A stored chunk holds the elements of its box. *)
Lemma chunk_elements ds cs es buf c chunk :
  dims_ok ds cs -> inner_exact ds cs -> 0 < es -> len buf = prod ds * es -> len buf < 2 ^ 63 ->
  in_box (zip_with chunksIn ds cs) c ->
  ExtractChunkData (mkCoordinator ds cs (zip_with chunksIn ds cs)) buf c es = Ret chunk ->
  let cc := mkCoordinator ds cs (zip_with chunksIn ds cs) in
  len chunk = prod (sizeOf cc c) * es /\
  forall k, in_box (sizeOf cc c) k -> elem es chunk (lin cs k) = elem es buf (lin ds (vadd (corner c cs) k)).
Proof.
  intros Hok Hex Hes Hbuf Hmax Hc E cc.
  destruct (chunk_back ds cs Hok c es buf buf Hex Hc Hes Hbuf ltac:(lia) eq_refl) as (ch & _ & E' & Hl & _).
  pose proof (eq_trans (eq_sym E') E) as Eq. injection Eq as ->. split; [exact Hl|].
  pose proof (grid_chunk_fits ds cs Hok c Hc) as Hfit.
  assert (Hsz : prod (sizeOf cc c) * es < 2 ^ 64).
  { pose proof (chunk_size_prod ds cs c Hok Hc) as Hsp. fold cc in Hsp. nia. }
  destruct (ExtractChunkData_ok cc c es Hfit buf Hes (eq_sym Hbuf) ltac:(lia) Hsz) as (ch & E2 & _ & Hbox).
  pose proof (eq_trans (eq_sym E2) E) as Eq. injection Eq as ->.
  intros k Hk. destruct (grid_in ds cs Hok c k Hc Hk) as [_ Hlk]. rewrite lin_vadd by done.
  rewrite (lin_exact ds cs c k Hok Hex Hc). fold cc. exact (Hbox k Hk).
Qed.

Section all.
Context `{C : Codecs}.
Context (ds cs : list Z) (es B : Z) (buf : bytes) (rp : option FilterPipelineMessage) (axes : list axis).
Context (f : bytes) (own : list Allocator.block) (l : list ChunkBTreeEntry) (index : gmap bytes chunkIndexEntry).
Let nums := zip_with chunksIn ds cs.
Let cc := mkCoordinator ds cs nums.
Let T := prod (map extent axes).
Hypothesis Hds : dataset_ok ds cs es buf.
Hypothesis Hax : Forall2 axis_in ds axes.
Hypothesis Hsep : Forall separate axes.
Hypothesis HT : T * es < 2 ^ 63.
Hypothesis Hdone : Forall (chunk_done ds cs es B buf rp f own) l.
Hypothesis Hall : forall c, in_box nums c -> c ∈ map Coordinate l.
Hypothesis Hindex : forall e, e ∈ l -> index !! chunkCoordsToKey (Coordinate e) = Some (mkIndexEntry (eAddress e) (eNbytes e)).

Lemma extractFromChunk_ok c out : in_box nums c -> len out = T * es ->
  exists out', extractFromChunk f (selOf axes) (cs ++ [es]) ds es rp index c out = Ret out' /\ len out' = T * es /\
    forall q, q ∈ points axes ->
      elem es out (outPos axes q) = elem es buf (lin ds q) \/ (exists k, in_box (sizeOf cc c) k /\ q = vadd (corner c cs) k) ->
      elem es out' (outPos axes q) = elem es buf (lin ds q).
Proof.
  intros Hc Hout. destruct Hds as [Hok Hex Hes Hbuf Hm]. unfold MaxChunkSize in Hm.
  specialize (Hall c Hc). apply list_elem_of_fmap in Hall as (e & -> & He).
  unfold extractFromChunk. rewrite (Hindex e He). cbn [ieAddress ieNbytes].
  pose proof (proj1 (Forall_forall _ _) Hdone e He) as [_ (chunk & s & Ex & Eu & Hs & Hst) Hsz Ha _].
  rewrite i64_id by lia. unfold stored in Hst. rewrite Hs in Hst. rewrite Hst. cbn [obind]. rewrite Eu. cbn [obind].
  destruct (chunk_elements ds cs es buf _ chunk Hok Hex ltac:(lia) Hbuf ltac:(lia) Hc Ex) as [Hl Hel].
  apply (extractChunkPortion_ok ds cs es axes buf chunk); (done || lia).
Qed.

Lemma extractFromChunks_ok L : forall out, Forall (in_box nums) L -> len out = T * es ->
  exists out', extractFromChunks f (selOf axes) (cs ++ [es]) ds es rp index L out = Ret out' /\ len out' = T * es /\
    forall q, q ∈ points axes ->
      elem es out (outPos axes q) = elem es buf (lin ds q) \/
        (exists c k, c ∈ L /\ in_box (sizeOf cc c) k /\ q = vadd (corner c cs) k) ->
      elem es out' (outPos axes q) = elem es buf (lin ds q).
Proof.
  induction L as [|c L IH]; intros out HL Hout; cbn [extractFromChunks].
  - exists out. split; [done|]. split; [done|]. intros q Hq [?|(c & k & Hn & _)]; [done|]. by apply not_elem_of_nil in Hn.
  - apply Forall_cons in HL as [Hc HL]. destruct (extractFromChunk_ok c out Hc Hout) as (o1 & -> & Hl1 & H1). cbn [obind].
    destruct (IH o1 HL Hl1) as (o2 & E & Hl2 & H2). exists o2. split; [exact E|]. split; [done|].
    intros q Hq Hor. apply H2; [done|]. destruct Hor as [?|(c' & k & [-> |Hc']%elem_of_cons & Hk & Eq)].
    + left. apply H1; auto.
    + left. apply H1; [done|]. right. by exists k.
    + right. by exists c', k.
Qed.

(** The output that has every selected element at its place is the reference. *)
Lemma output_complete out : len out = T * es ->
  (forall q, q ∈ points axes -> elem es out (outPos axes q) = elem es buf (lin ds q)) -> out = concat (selected es ds buf axes).
Proof.
  intros Hout Hq. destruct Hds as [Hok Hex Hes Hbuf Hm]. unfold MaxChunkSize in Hm.
  assert (Hel : Forall (fun e : bytes => len e = es) (selected es ds buf axes)).
  { apply Forall_map, Forall_forall. intros p Hp. pose proof (lin_range _ _ (points_in_box _ _ _ Hax Hp)). apply len_elem; nia. }
  assert (HlT : len (selected es ds buf axes) = T) by (unfold selected; rewrite len_map; exact (len_points ds axes Hax)).
  apply (elem_ext es T); [lia|done|by rewrite (len_concat es), HlT|]. intros i Hi.
  destruct (idx_some (points axes) (Z.to_nat i)) as [p Hp].
  { pose proof (len_points ds axes Hax) as E. fold T in E. unfold len in E. lia. }
  assert (Hpos : outPos axes p = i).
  { pose proof (map_outPos ds axes Hax Hsep) as Hm'. assert (H1 : map (outPos axes) (points axes) !! Z.to_nat i = Some (outPos axes p)) by by rewrite list_lookup_fmap, Hp.
    rewrite Hm' in H1. apply lookup_seqZ in H1 as [H1 _]. lia. }
  rewrite <- Hpos at 1. rewrite Hq by by apply list_elem_of_lookup_2 in Hp.
  symmetry. apply (elem_concat es _ Hel (proj1 Hes)); [lia|]. unfold selected. by rewrite list_lookup_fmap, Hp.
Qed.
End all.

Lemma listed_NoDup ds cs l : listed ds cs l -> NoDup (map Coordinate l).
Proof.
  intros Hl. apply NoDup_alt. intros i j c Hi Hj. rewrite list_lookup_fmap in Hi, Hj.
  destruct (l !! i) as [e1|] eqn:E1; [|done]. destruct (l !! j) as [e2|] eqn:E2; [|done].
  pose proof (Hl _ _ E1). pose proof (Hl _ _ E2). cbn in Hi, Hj. assert (Coordinate e1 = Coordinate e2) as Eq by congruence.
  rewrite Eq in *. lia.
Qed.

Lemma in_box_u64 ds cs c : Forall2 (fun d c => 0 < d /\ 0 < c /\ d + c <= 2 ^ 64) ds cs ->
  in_box (zip_with chunksIn ds cs) c -> Forall (is_u 64) c.
Proof.
  intros H. revert c. induction H as [|d cd ds cs (H1 & H2 & H3) H IH]; intros c Hc; cbn in Hc.
  - apply Forall2_nil_inv_l in Hc as ->. constructor.
  - apply in_box_cons_inv in Hc as (x & c' & -> & Hx & Hc). constructor; [|by apply IH].
    apply (chunksIn_spec d cd x H1 H2 H3) in Hx as [Hx0 Hx]. unfold is_u. nia.
Qed.

Lemma readHyperslabChunked_ok `{C : Codecs} ds cs es B buf rp f root fuel axes sb dt dspace layout :
  dataset_ok ds cs es buf -> B <= MaxChunkSize -> chunks_stored ds cs es B buf rp f root -> (256 <= fuel)%nat ->
  Forall2 axis_in ds axes -> Forall separate axes -> prod (map extent axes) * es < 2 ^ 63 ->
  DataAddress layout = root -> ChunkSize layout = cs ++ [es] -> Dimensions dspace = ds -> dtSize dt = es -> OffsetSize sb = 8 ->
  readHyperslabChunked fuel f sb (selOf axes) dt dspace layout rp =
  convertToFloat64 (concat (selected es ds buf axes)) dt (prod (map extent axes)).
Proof.
  intros Hds HB (l & own & top & ownT & Hd & Hli & Hl & Htop & Hb) Hf Hax Hsep HT Hroot Hcs Hdim Hdt Hsb.
  pose proof Hds as [Hok Hex Hes Hlen Hm]. unfold MaxChunkSize in Hm. pose proof (dims_at _ _ Hok) as Hat.
  pose proof (prod_pos _ (extents_pos ds axes Hax)) as HTp. set (T := prod (map extent axes)) in *.
  unfold readHyperslabChunked. rewrite Hroot, Hcs, Hdim, Hdt, Hsb.
  rewrite (outputSize_ok ds) by (done || (apply (axes_ne ds axes Hax), (dims_ne _ _ Hok))). cbn [obind]. fold T.
  rewrite (u64_id T) by (unfold is_u; nia). destruct (Z.eqb_spec T 0); [lia|].
  destruct (overlapping_ok ds cs es axes Hok Hax ltac:(nia)) as (L & -> & HLne & HL1 & HL2). cbn [obind].
  destruct (Z.eqb_spec (len L) 0) as [E0|_]; [by apply len_0_nil in E0|].
  apply built_indexes in Hb; [|rewrite length_app; cbn; lia|].
  2: { apply Forall_app. split; [|repeat constructor; lia]. eapply Forall2_Forall_r; [exact Hat|].
       apply Forall_forall. intros d _ c' ?. naive_solver. }
  destruct (CollectAllChunks_ok _ _ _ _ _ fuel Hb ltac:(lia)) as (node & Ep & Hcol).
  rewrite Ep. cbn [obind]. rewrite Hcol. cbn [obind].
  assert (Hps : sortEntries l ≡ₚ l) by apply merge_sort_Permutation.
  assert (Hbox : Forall (fun e => in_box (zip_with chunksIn ds cs) (Coordinate e)) l).
  { eapply Forall_impl; [exact Hd|]. by intros e [? _ _ _ _]. }
  unfold len at 1. destruct (indexChunks_ok (length ds) (sortEntries l) ∅) as (index & -> & Hidx & _).
  { rewrite Hps. eapply Forall_impl; [exact Hbox|]. intros e He. destruct (Chunks.grid_lengths ds cs Hok _ He). split; [lia|].
    exact (in_box_u64 ds cs _ Hat He). }
  { rewrite Hps. by apply (listed_NoDup ds cs). }
  cbn [obind]. rewrite u64_id by (unfold is_u; nia). unfold makeBytes. destruct (Z.geb_spec (T * es) (2 ^ 63)); [lia|]. cbn [obind].
  destruct (extractFromChunks_ok ds cs es B buf rp axes f own l index Hds Hax Hsep HT Hd) with (L := L) (out := zeros (T * es)) as (out & -> & Hlo & Hq).
  - intros c Hc. by apply (listed_complete ds cs).
  - intros e He. apply Hidx. by rewrite Hps.
  - apply Forall_forall. exact HL1.
  - rewrite len_zeros; nia.
  - cbn [obind]. f_equal. apply (output_complete ds cs es buf axes Hds Hax Hsep out Hlo). intros q Hqp. apply Hq; [done|]. right.
    destruct (grid_cover ds cs Hok q (points_in_box _ _ _ Hax Hqp)) as (c & k & Hc & Hk & ->). exists c, k. split; [|done].
    by apply (HL2 c k).
Qed.

(** ** Properties *)

(** C9. A hyperslab of a chunked dataset is what was written there.  For every
    rank, chunk shape, element size and filter chain for which a chunked dataset
    is read back whole, and every selection inside it whose blocks do not overlap:
    [writeChunkedData] returns, and reading the selection through the chunk index
    (only the chunks it overlaps, found by their printed coordinates, and leaving
    each chunk's loops at its edge) gives the elements of the written data at
    exactly the selected points, in row-major order. *)
Theorem chunked_hyperslab_selects `{SL : StorageLaws St} `{C : Codecs} `{CL : !CodecLaws C}
    ds cs es B buf wp rp addr da o hdr st axes :
  let nums := zip_with chunksIn ds cs in
  let dw := mkDatasetWriter addr da (len buf) es ds true (mkCoordinator ds cs nums) cs wp (addr + o) (len hdr) in
  dataset_ok ds cs es buf -> same_pipeline wp rp -> chunks_accepted ds cs es B buf wp -> B <= MaxChunkSize ->
  nodeBytes (len ds + 1) < 2 ^ 63 -> usable st (prod nums * (B + 2 * nodeBytes (len ds + 1))) ->
  mkBlock addr (len hdr) ∈ owned st -> stored (contents st) addr hdr -> 0 < addr + o -> 0 <= o -> o + 12 <= len hdr ->
  Forall2 axis_in ds axes -> Forall separate axes -> prod (map extent axes) * es < 2 ^ 63 ->
  exists root st',
    writeChunkedData dw 8 buf st =
      Ret (mkDatasetWriter addr root (len buf) es ds true (mkCoordinator ds cs nums) cs wp (addr + o) (len hdr), st') /\
    forall fuel sb dt dspace layout, (256 <= fuel)%nat -> OffsetSize sb = 8 ->
      DataAddress layout = root -> ChunkSize layout = cs ++ [es] -> Dimensions dspace = ds -> dtSize dt = es ->
      readHyperslabChunked fuel (contents st') sb (selOf axes) dt dspace layout rp =
      convertToFloat64 (concat (selected es ds buf axes)) dt (prod (map extent axes)).
Proof.
  intros nums dw Hds Hsp Hacc HB Hns Hu Hin Hst Hpos Ho0 Ho12 Hax Hsep HT.
  destruct (writeChunkedData_ok ds cs es B buf wp rp addr da o hdr st Hds Hsp Hacc HB Hns Hu Hin Hst Hpos Ho0 Ho12)
    as (root & st' & c & E & _ & _ & Hch & _).
  exists root, st'. split; [exact E|]. intros fuel sb dt dspace layout Hf Hsb Hroot Hcs Hdim Hdt.
  by apply (readHyperslabChunked_ok ds cs es B buf rp (contents st') root).
Qed.

#[local] Existing Instance Pipeline.storedCodecs.
#[local] Existing Instance Pipeline.storedLaws.

(** Three one-byte integers in chunks of two, through LZF and Fletcher-32: the
    first and the third. *)
Example chunked_hyperslab_selects_witness :
  exists addr root st dw' st', @owned _ _ (FileWriter_laws 48) st = [mkBlock addr 20] /\
    writeChunkedData (mkDatasetWriter addr 0 3 1 [3] true (mkCoordinator [3] [2] [2]) [2] (Some demo_filters) (addr + 4) 20)
      8 [x01; x02; x03] st = Ret (dw', st') /\
    ints (readHyperslabChunked 256 (contents st') demo_sb (mkSelection [0] [2] (Some [2]) (Some [1]))
      (mkDatatype DatatypeFixed 1 1 8 []) (mkDataspace 1 DataspaceSimple [3] []) (mkLayout 3 LayoutChunked root 0 [] [2; 1] 4)
      (Some (mkMessage 1 2 (map infoOf (filters demo_filters))))) = Some [Some 1; Some 3].
Proof.
  destruct demo_storage as (addr & st & Hu & Ha & Ho & Hst).
  destruct (@chunked_hyperslab_selects FileWriter _ (FileWriter_laws 48) _ _ [3] [2] 1 100 [x01; x02; x03]
    (Some demo_filters) (Some (mkMessage 1 2 (map infoOf (filters demo_filters)))) addr 0 4 (zeros 20) st [mkAxis 0 2 2 1])
    as (root & st' & Ew & Hr).
  - split; [split; [discriminate|]|..].
    + repeat constructor; lia.
    + constructor.
    + lia.
    + reflexivity.
    + vm_compute. congruence.
  - split; [reflexivity|]. repeat (constructor; [discriminate|]). constructor.
  - exact demo_accepted.
  - vm_compute. congruence.
  - vm_compute. reflexivity.
  - exact Hu.
  - rewrite Ho. apply list_elem_of_singleton. reflexivity.
  - exact Hst.
  - lia.
  - lia.
  - vm_compute. congruence.
  - demo_axes.
  - constructor; [vm_compute; congruence|constructor].
  - reflexivity.
  - exists addr, root, st. eexists. exists st'. split; [exact Ho|]. split; [exact Ew|].
    pose proof (Hr 256%nat demo_sb (mkDatatype DatatypeFixed 1 1 8 []) (mkDataspace 1 DataspaceSimple [3] [])
      (mkLayout 3 LayoutChunked root 0 [] [2; 1] 4) ltac:(lia) eq_refl eq_refl eq_refl eq_refl eq_refl) as E.
    change (selOf [mkAxis 0 2 2 1]) with (mkSelection [0] [2] (Some [2]) (Some [1])) in E. rewrite E. vm_compute. reflexivity.
Defined.
