(* ===== verification/ChunkIterator.v ===== *)
(** * The chunk iterator: dataset_chunk_iterator.go

    A dataset read chunk by chunk: the coordinates come from the index, each
    chunk is a slice of the dataset. *)

From Stdlib Require Import SpecFloat.
From S2P Require Import Prelude Overflow Grid Chunks Superblock Messages ObjectHeader Datatype Convert Allocator Storage BTreeV1 BTreeChunk Pipeline ChunkedDataset.
From S2P Require Import Groups DatasetReader Hyperslab HyperslabLaws HyperslabChunks.

(** ** Definitions *)

(** [dataset] is the address of the dataset's header; [onProgress] says whether a
    callback is set.  The context is an argument of [Next]: what its [Err] gives. *)
Record ChunkIterator := mkIterator {
  dataset : Z;
  chunkCoords : list (list Z);
  itChunkDims : list Z;
  itDatasetDims : list Z;
  current : Z;
  err : option string;
  onProgress : bool }.

Section iterator.
Context `{C : Codecs}.

Fixpoint coordsOf (ndims : Z) (chunks : list ChunkEntry) : outcome (list (list Z)) :=
  match chunks with
  | [] => Ret []
  | chunk :: rest =>
      let! coord := slice (Scaled (Key chunk)) 0 ndims in
      let! coords := coordsOf ndims rest in
      Ret (coord :: coords)
  end.

Definition collectChunkCoordinates (fuel : nat) (file : bytes) (sb : Superblock) (layout : DataLayoutMessage)
    (dataspace : DataspaceMessage) : outcome (list (list Z)) :=
  let! btreeNode := ParseBTreeV1Node file (DataAddress layout) (OffsetSize sb) (length (ChunkSize layout)) (ChunkSize layout) in
  let! allChunks := CollectAllChunks fuel file btreeNode (OffsetSize sb) (ChunkSize layout) in
  coordsOf (len (Dimensions dataspace)) allChunks.

Definition ChunkIteratorWithContext (fuel : nat) (file : bytes) (sb : Superblock) (address : Z) : outcome ChunkIterator :=
  let! header := ReadObjectHeader fuel file address sb in
  match lastMessage MsgDataLayout (hMessages header), lastMessage MsgDataspace (hMessages header) with
  | None, _ => Err "data layout message not found"
  | _, None => Err "dataspace message not found"
  | Some l, Some s =>
      let! layout := ParseDataLayoutMessage l sb in
      guard IsChunked layout else "ChunkIterator only supports chunked datasets";;
      let! dataspace := ParseDataspaceMessage s in
      let! coords := collectChunkCoordinates fuel file sb layout dataspace in
      let dims := Dimensions dataspace in
      let actualChunkDims :=
        if len (ChunkSize layout) >? len dims then take (length dims) (ChunkSize layout) else ChunkSize layout in
      Ret (mkIterator address coords actualChunkDims dims 0 None false)
  end.

Definition with_current (it : ChunkIterator) (current : Z) (err : option string) : ChunkIterator :=
  mkIterator (dataset it) (chunkCoords it) (itChunkDims it) (itDatasetDims it) current err (onProgress it).

(** The answer, the new state, and what the callback is told. *)
Definition Next (ctxErr : option string) (it : ChunkIterator) : bool * ChunkIterator * list (Z * Z) :=
  match err it with
  | Some _ => (false, it, [])
  | None =>
      match ctxErr with
      | Some e => (false, with_current it (current it) (Some e), [])
      | None =>
          let it := with_current it (current it + 1) None in
          if current it >? len (chunkCoords it) then (false, it, [])
          else (true, it, if onProgress it then [(current it, len (chunkCoords it))] else [])
      end
  end.

(** The slice of a chunk, cut off at the end of the dataset. *)
Definition chunkBox (coords chunkDims datasetDims : list Z) : outcome (list Z * list Z) :=
  for_loop (length coords) 0 (fun i '(start, count) =>
    let! coord := idx coords i in
    let! chunkDim := idx chunkDims i in
    let s := u64 (coord * chunkDim) in
    let! d := idx datasetDims i in
    Ret (start ++ [s], count ++ [if u64 (s + chunkDim) >? d then u64 (d - s) else chunkDim])) ([], []).

Definition currentCoords (it : ChunkIterator) : outcome (list Z) :=
  if (current it <? 1) || (current it >? len (chunkCoords it)) then Err "no current chunk: call Next() first"
  else idx (chunkCoords it) (current it - 1).

Definition Chunk (fuel : nat) (file : bytes) (sb : Superblock) (it : ChunkIterator) : outcome (list spec_float) :=
  let! coords := currentCoords it in
  let! (start, count) := chunkBox coords (itChunkDims it) (itDatasetDims it) in
  ReadSlice fuel file sb (dataset it) start count.

(** Nil for no current chunk. *)
Definition ChunkCoords (it : ChunkIterator) : list Z := match currentCoords it with Ret c => c | _ => [] end.
Definition Progress (it : ChunkIterator) : Z * Z := (current it, len (chunkCoords it)).
Definition Total (it : ChunkIterator) : Z := len (chunkCoords it).
Definition OnProgress (it : ChunkIterator) (set : bool) : ChunkIterator :=
  mkIterator (dataset it) (chunkCoords it) (itChunkDims it) (itDatasetDims it) (current it) (err it) set.
Definition Reset (it : ChunkIterator) : ChunkIterator := with_current it 0 None.
End iterator.

(** ** Iterating *)

(** The loop [for it.Next() { visit(it) }], with a context that is not cancelled:
    the iterators the body sees, the one left at the end, and the notifications.
    Running out of [fuel] gives [None]. *)
Fixpoint iterate (fuel : nat) (it : ChunkIterator) : option (list ChunkIterator * ChunkIterator * list (Z * Z)) :=
  match fuel with
  | O => None
  | S fuel =>
      let '(more, it, told) := Next None it in
      if more : bool then
        match iterate fuel it with
        | Some (seen, it', told') => Some (it :: seen, it', told ++ told')
        | None => None
        end
      else Some ([], it, told)
  end.

Lemma iterate_S fuel it : iterate (S fuel) it =
  let '(more, it, told) := Next None it in
  if more : bool then
    match iterate fuel it with
    | Some (seen, it', told') => Some (it :: seen, it', told ++ told')
    | None => None
    end
  else Some ([], it, told).
Proof. done. Qed.

Lemma iterate_from it n k : err it = None -> current it = Z.of_nat k -> length (chunkCoords it) = (k + n)%nat ->
  exists seen end_ told, iterate (S n) it = Some (seen, end_, told) /\
    map currentCoords seen = map Ret (drop k (chunkCoords it)) /\
    Forall (fun i => dataset i = dataset it /\ itChunkDims i = itChunkDims it /\ itDatasetDims i = itDatasetDims it) seen /\
    err end_ = None /\ current end_ = len (chunkCoords it) + 1 /\ chunkCoords end_ = chunkCoords it /\
    told = if onProgress it then map (fun i => (i, len (chunkCoords it))) (seqZ (Z.of_nat k + 1) (Z.of_nat n)) else [].
Proof.
  revert k it. induction n as [|n IH]; intros k it He Hc Hl; rewrite iterate_S; unfold Next; rewrite He; cbn [with_current current chunkCoords].
  - rewrite Hc. unfold len. rewrite Hl. destruct (Z.gtb_spec (Z.of_nat k + 1) (Z.of_nat (k + 0))); [|lia].
    eexists [], _, []. split; [reflexivity|]. cbn [with_current current err chunkCoords]. rewrite drop_ge by lia. split_and!; try done; [lia|].
    by destruct (onProgress it).
  - rewrite Hc. unfold len at 1. rewrite Hl. destruct (Z.gtb_spec (Z.of_nat k + 1) (Z.of_nat (k + S n))); [lia|].
    set (it1 := with_current it (Z.of_nat k + 1) None).
    destruct (IH (S k) it1) as (seen & end_ & told & E & Hs & Hf & H1 & H2 & H3 & H4); [done|cbn; lia|cbn; lia|].
    rewrite E. eexists (it1 :: seen), end_, _. split; [reflexivity|].
    destruct (idx_some (chunkCoords it) k) as [c Hck]; [lia|]. split_and!.
    + cbn [map]. rewrite Hs. rewrite (drop_S (chunkCoords it) c k Hck). cbn [map]. f_equal.
      unfold currentCoords. cbn [it1 with_current current chunkCoords]. unfold len. rewrite Hl.
      destruct (Z.ltb_spec (Z.of_nat k + 1) 1); [lia|]. destruct (Z.gtb_spec (Z.of_nat k + 1) (Z.of_nat (k + S n))); [lia|]. cbn [orb].
      replace (Z.of_nat k + 1 - 1) with (Z.of_nat k) by lia. by apply idx_lookup.
    + constructor; [done|exact Hf].
    + exact H1.
    + exact H2.
    + exact H3.
    + rewrite H4. cbn [it1 with_current onProgress chunkCoords current]. destruct (onProgress it); [|done].
      rewrite (seqZ_cons (Z.of_nat k + 1)) by lia. cbn [map app]. f_equal. do 2 f_equal; lia.
Qed.

(** ** The chunk under the iterator *)

Section chunk.
Context (ds cs : list Z) (es : Z) (buf : bytes) (c : list Z).
Let nums := zip_with chunksIn ds cs.
Let cc := mkCoordinator ds cs nums.
Hypothesis Hds : dataset_ok ds cs es buf.
Hypothesis Hc : in_box nums c.

Lemma chunkBox_ok : chunkBox c cs ds = Ret (corner c cs, sizeOf cc c).
Proof.
  destruct Hds as [Hok _ _ _ _]. destruct (Chunks.grid_lengths ds cs Hok c Hc) as [L1 L2].
  set (f := fun p : Z * (Z * Z) => u64 (p.1 * p.2.1)).
  set (g := fun p : Z * (Z * Z) => if u64 (f p + p.2.1) >? p.2.2 then u64 (p.2.2 - f p) else p.2.1).
  set (l := zip c (zip cs ds)). assert (Ll : length l = length c) by (subst l; rewrite !length_zip; lia).
  assert (Hl : forall i d, ds !! i = Some d -> exists x cd, l !! i = Some (x, (cd, d)) /\ cs !! i = Some cd /\ 0 < cd /\ d + cd <= 2 ^ 64 /\
    0 <= x /\ x * cd < d /\ corner c cs !! i = Some (x * cd) /\ sizeOf cc c !! i = Some (Z.min cd (d - x * cd)) /\ 0 < d).
  { intros i d Hd. destruct (Chunks.grid_at ds cs Hok c i d Hc Hd) as (cd & x & Hcd & Hx & H1 & H2 & H3 & H4 & H5 & _).
    destruct (Forall2_lookup_lr _ _ _ _ _ _ (dims_at _ _ Hok) Hd Hcd) as (H6 & _ & H7). exists x, cd. split_and!; try done.
    apply lookup_zip_with_Some. exists x, (cd, d). split_and!; [done..|]. apply lookup_zip_with_Some. by exists cd, d. }
  unfold chunkBox. rewrite <- Ll. rewrite (for_loop_gather f g).
  - f_equal. f_equal.
    + apply list_eq_same_length with (length ds); [unfold corner; rewrite length_zip_with; lia|rewrite length_map; lia|]. intros i y z Hi Hy Hz.
      destruct (idx_some ds i Hi) as [d Hd]. destruct (Hl i d Hd) as (x & cd & Hli & _ & H1 & H2 & H3 & H4 & H5 & _).
      rewrite list_lookup_fmap, Hli in Hy. injection Hy as <-. rewrite H5 in Hz. injection Hz as <-. subst f. cbn [fst snd].
      apply u64_id. unfold is_u. nia.
    + apply list_eq_same_length with (length ds); [unfold sizeOf, cc; cbn [chunkDims datasetDims]; rewrite !length_zip_with; lia|rewrite length_map; lia|]. intros i y z Hi Hy Hz.
      destruct (idx_some ds i Hi) as [d Hd]. destruct (Hl i d Hd) as (x & cd & Hli & _ & H1 & H2 & H3 & H4 & _ & H6 & H7).
      rewrite list_lookup_fmap, Hli in Hy. injection Hy as <-. pose proof (eq_trans (eq_sym H6) Hz) as Ez. injection Ez as <-. subst g f. cbn [fst snd].
      rewrite (u64_id (x * cd)) by (unfold is_u; nia). rewrite (u64_id (x * cd + cd)) by (unfold is_u; nia).
      destruct (Z.gtb_spec (x * cd + cd) d); [|lia]. rewrite u64_id by (unfold is_u; nia). lia.
  - intros k [x [cd d]] xs ys Hk. apply lookup_zip_with_Some in Hk as (x' & [cd' d'] & [= <- <- <-] & Hx & Hk).
    apply lookup_zip_with_Some in Hk as (cd' & d' & [= <- <-] & Hcd & Hd).
    by rewrite (idx_lookup _ _ _ Hx), (idx_lookup _ _ _ Hcd), (idx_lookup _ _ _ Hd).
Qed.

Lemma chunk_box_in : box_in ds (corner c cs) (sizeOf cc c).
Proof.
  destruct Hds as [Hok _ _ _ _]. destruct (Chunks.grid_lengths ds cs Hok c Hc) as [L1 L2].
  assert (Lc : length (corner c cs) = length ds) by (unfold corner; rewrite length_zip_with; lia).
  assert (Lz : length (sizeOf cc c) = length ds) by (unfold sizeOf, cc; cbn [chunkDims datasetDims]; rewrite !length_zip_with; lia).
  split; [done|]. split; [done|]. apply Forall2_same_length_lookup. rewrite length_zip. split; [lia|].
  intros i d [s z] Hd Hz. apply lookup_zip_with_Some in Hz as (s' & z' & [= <- <-] & Hs & Hz).
  destruct (Chunks.grid_at ds cs Hok c i d Hc Hd) as (cd & x & Hcd & Hx & H1 & H2 & H3 & H4 & H5 & _).
  destruct (Forall2_lookup_lr _ _ _ _ _ _ (dims_at _ _ Hok) Hd Hcd) as (H6 & _ & H7).
  pose proof (eq_trans (eq_sym H4) Hs) as E1. injection E1 as <-. pose proof (eq_trans (eq_sym H5) Hz) as E2. injection E2 as <-. nia.
Qed.

Lemma elem_of_box start count k : in_box count k -> length start = length count -> vadd start k ∈ points (boxAxes start count).
Proof.
  intros Hk. revert start. induction Hk as [|n x count k Hx Hk IH]; intros [|s start] Hl; try discriminate; [by left|].
  injection Hl as Hl. cbn [boxAxes zip_with points vadd]. rewrite list_elem_of_In, in_flat_map. exists (s + x).
  split; [rewrite axis_coords_one by lia; rewrite <- list_elem_of_In, elem_of_seqZ; lia|].
  apply in_map. rewrite <- list_elem_of_In. by apply IH.
Qed.

Lemma box_separate start count : Forall separate (boxAxes start count).
Proof.
  revert count. induction start as [|s start IH]; intros [|n count]; try constructor; [|apply IH]. unfold separate. cbn. lia.
Qed.

Lemma outPos_box start count k : length start = length count -> length k = length count ->
  outPos (boxAxes start count) (vadd start k) = lin (map extent (boxAxes start count)) k.
Proof.
  unfold outPos. intros H1 H2. f_equal. revert count k H1 H2. induction start as [|s start IH]; intros [|n count] [|x k] H1 H2; try discriminate; [done|].
  cbn [boxAxes vadd zip_with]. f_equal; [|apply IH; [by injection H1|by injection H2]]. unfold posOf. cbn. rewrite Z.div_1_r, Z.mod_1_r. lia.
Qed.

(** The slice of a chunk's box is what the writer cut out. *)
Lemma chunk_slice chunk : ExtractChunkData cc buf c es = Ret chunk ->
  concat (selected es ds buf (boxAxes (corner c cs) (sizeOf cc c))) = chunk.
Proof.
  intros Ex. pose proof chunk_box_in as Hbox. destruct (boxAxes_ok _ _ _ Hbox) as (_ & Hax & Hext). destruct Hds as [Hok Hex Hes Hbuf Hm]. unfold MaxChunkSize in Hm.
  destruct (chunk_elements ds cs es buf c chunk Hok Hex (proj1 Hes) Hbuf ltac:(lia) Hc Ex) as [Hl Hel]. fold nums cc in Hl, Hel.
  set (lo := corner c cs) in *. set (sz := sizeOf cc c) in *. set (axes := boxAxes lo sz) in *.
  assert (Hsel : Forall (fun e : bytes => len e = es) (selected es ds buf axes)).
  { apply Forall_map, Forall_forall. intros p Hp. pose proof (lin_range _ _ (points_in_box _ _ _ Hax Hp)). apply len_elem; nia. }
  assert (HlT : len (selected es ds buf axes) = prod sz).
  { unfold selected. rewrite len_map, (len_points ds) by done. by rewrite Hext. }
  apply (elem_ext es (prod sz)); [lia|by rewrite (len_concat es), HlT|lia|]. intros i Hi.
  destruct (lin_surj sz i) as (k & Hk & <-); [|done|].
  { destruct Hbox as (_ & _ & Hb). rewrite <- Hext. exact (extents_pos ds axes Hax). }
  pose proof Hbox as (Lo & Ls & _). pose proof (in_box_length _ _ Hk) as Lk.
  assert (Hp : vadd lo k ∈ points axes) by (apply elem_of_box; [done|lia]).
  destruct (outPos_lookup ds axes (vadd lo k) Hax (box_separate lo sz) Hp) as [_ Hlk].
  unfold axes in Hlk. rewrite outPos_box in Hlk by lia. fold axes in Hlk. rewrite Hext in Hlk.
  rewrite (elem_concat es _ Hsel (proj1 Hes) (lin sz k) (elem es buf (lin ds (vadd lo k)))); [|by apply lin_range in Hk; lia|].
  - rewrite <- (Hel k Hk). unfold lo, sz. by rewrite (lin_exact ds cs c k Hok Hex Hc).
  - unfold selected. by rewrite list_lookup_fmap, Hlk.
Qed.
End chunk.
