(* ===== verification/ChunkedFile.v ===== *)
(** * A chunked dataset from its creation to its readers

    [CreateDataset] with a chunk shape, [Write], and the readers of the file: the
    whole dataset, hyperslabs, and the chunk iterator. *)

From Stdlib Require Import SpecFloat.
From S2P Require Import Prelude Overflow Grid Chunks Superblock Messages ObjectHeader Datatype Convert Allocator Storage BTreeV1 BTreeChunk Checksum Pipeline ChunkedDataset.
From S2P Require Import LocalHeap Groups GroupLaws Namespace GlobalHeap DatasetReader DatasetWrite DatasetLaws DatasetValues Hyperslab HyperslabLaws HyperslabChunks ChunkIterator.

(** ** Elements and their values *)

(** One element as a [float64]. *)
Definition decodeElem (t : DatatypeMessage) (e : bytes) : spec_float :=
  let x := get_order (GetByteOrder t) e in
  if IsFloat64 t then Float64frombits x
  else if IsFloat32 t then float64_of_float32 (Float32frombits x)
  else float64_of_int (if IsSignedFixedPoint t then signed (8 * dtSize t) x else x).

(** The types [convertToFloat64] accepts. *)
Definition decodable (t : DatatypeMessage) : bool :=
  IsFloat64 t || IsFloat32 t ||
  (IsFixedPoint t && ((dtSize t =? 1) || (dtSize t =? 2) || (dtSize t =? 4) || (dtSize t =? 8))).

Lemma convert_blocks_of t (es : list bytes) : Forall (fun e : bytes => len e = dtSize t) es -> 0 < dtSize t -> len es * dtSize t < 2 ^ 63 ->
  convertToFloat64 (concat es) t (len es) =
  if decodable t then Ret (map (decodeElem t) es)
  else Err (if IsFixedPoint t then "unsupported fixed-point width" else "unsupported datatype for conversion to float64").
Proof.
  intros Hes Hs Hl. destruct (concat_block es (dtSize t) Hes) as [Hcl Hel]. pose proof (len_nonneg es).
  assert (Hn : Z.to_nat (len es) = length (map (decodeElem t) es)) by (rewrite length_map; unfold len; lia).
  unfold convertToFloat64, decodable, decodeElem in *. rewrite Hn.
  destruct (IsFloat64 t) eqn:E64; [|destruct (IsFloat32 t) eqn:E32; [|destruct (IsFixedPoint t) eqn:Ef; [|done]]]; cbn [orb andb].
  - assert (H8 : dtSize t = 8) by (unfold IsFloat64 in E64; lia).
    apply convertElements_ok. intros j x Hj. rewrite Z.add_0_l. apply list_lookup_fmap_Some in Hj as (e & -> & Hj).
    pose proof (lookup_len _ _ _ Hj). unfold readFloat64. rewrite (u64_id (Z.of_nat j * 8)) by (unfold is_u; nia).
    rewrite u64_id by (unfold is_u; nia). rewrite Hcl. destruct (Z.gtb_spec (Z.of_nat j * 8 + 8) (dtSize t * len es)); [nia|]. cbn [negb].
    rewrite <- H8, (Hel j e Hj). reflexivity.
  - assert (H4 : dtSize t = 4) by (unfold IsFloat32 in E32; lia).
    apply convertElements_ok. intros j x Hj. rewrite Z.add_0_l. apply list_lookup_fmap_Some in Hj as (e & -> & Hj).
    pose proof (lookup_len _ _ _ Hj). unfold readFloat32. rewrite (u64_id (Z.of_nat j * 4)) by (unfold is_u; nia).
    rewrite u64_id by (unfold is_u; nia). rewrite Hcl. destruct (Z.gtb_spec (Z.of_nat j * 4 + 4) (dtSize t * len es)); [nia|]. cbn [negb].
    rewrite <- H4, (Hel j e Hj). reflexivity.
  - destruct (_ || _); [|done]. rewrite Hcl, (u64_id (len es * dtSize t)) by (unfold is_u; nia).
    destruct (Z.gtb_spec (len es * dtSize t) (dtSize t * len es)); [nia|]. cbn [negb].
    apply convertElements_ok. intros j x Hj. rewrite Z.add_0_l. apply list_lookup_fmap_Some in Hj as (e & -> & Hj).
    pose proof (lookup_len _ _ _ Hj). unfold readFixed. rewrite (u64_id (Z.of_nat j * dtSize t)) by (unfold is_u; nia).
    rewrite u64_id by (unfold is_u; nia). rewrite (Hel j e Hj). reflexivity.
Qed.

(** A buffer is the concatenation of its elements. *)
Lemma concat_elems es n (buf : bytes) : 0 < es -> 0 <= n -> len buf = n * es ->
  concat (map (elem es buf) (seqZ 0 n)) = buf /\ Forall (fun e : bytes => len e = es) (map (elem es buf) (seqZ 0 n)).
Proof.
  intros Hes Hn Hl. assert (Hf : Forall (fun e : bytes => len e = es) (map (elem es buf) (seqZ 0 n))).
  { apply Forall_map, Forall_forall. intros i Hi%elem_of_seqZ. apply len_elem; nia. }
  split; [|done]. apply (elem_ext es n); [done| |done|].
  - rewrite (len_concat es) by done. rewrite len_map. unfold len. rewrite length_seqZ. nia.
  - intros i Hi. apply (elem_concat es _ Hf Hes); [lia|]. rewrite list_lookup_fmap, (proj2 (lookup_seqZ 0 n (Z.to_nat i) i)) by lia. done.
Qed.

(** What a selection gives is what the whole dataset gives at the selected points. *)
Lemma convert_selected t ds buf fs axes :
  0 < dtSize t -> Forall2 axis_in ds axes -> len buf = prod ds * dtSize t -> prod ds * dtSize t < 2 ^ 63 ->
  prod (map extent axes) * dtSize t < 2 ^ 63 -> convertToFloat64 buf t (prod ds) = Ret fs ->
  exists out, convertToFloat64 (concat (selected (dtSize t) ds buf axes)) t (prod (map extent axes)) = Ret out /\
    map Some out = map (fun p => fs !! Z.to_nat (lin ds p)) (points axes).
Proof.
  intros Hes Hax Hl Hm HT Hc. pose proof (points_in_box ds axes) as Hbox.
  assert (Hp : forall p, p ∈ points axes -> 0 <= lin ds p < prod ds) by (intros p Hp; exact (lin_range _ _ (Hbox _ Hax Hp))).
  assert (Hsel : Forall (fun e : bytes => len e = dtSize t) (selected (dtSize t) ds buf axes)).
  { apply Forall_map, Forall_forall. intros p Hpp. specialize (Hp p Hpp). apply len_elem; nia. }
  assert (HlT : len (selected (dtSize t) ds buf axes) = prod (map extent axes)) by (unfold selected; rewrite len_map; exact (len_points ds axes Hax)).
  assert (0 <= prod ds) by (pose proof (len_nonneg buf); nia). destruct (concat_elems (dtSize t) (prod ds) buf Hes ltac:(lia) Hl) as [Ecat Hel].
  assert (Hle : len (map (elem (dtSize t) buf) (seqZ 0 (prod ds))) = prod ds) by (rewrite len_map; unfold len; rewrite length_seqZ; lia).
  pose proof (convert_blocks_of t _ Hel Hes) as Eb. rewrite Hle, Ecat, Hc in Eb. specialize (Eb Hm).
  pose proof (convert_blocks_of t _ Hsel Hes) as Es. rewrite HlT in Es. specialize (Es HT).
  destruct (decodable t); [|discriminate]. injection Eb as ->. exists (map (decodeElem t) (selected (dtSize t) ds buf axes)). split; [exact Es|].
  unfold selected. rewrite !map_map. apply map_ext_in. intros p Hpp%list_elem_of_In. specialize (Hp p Hpp).
  rewrite !list_lookup_fmap, (proj2 (lookup_seqZ 0 (prod ds) _ (lin ds p))) by lia. done.
Qed.

(** ** The patched object header *)

Lemma blit_app_r {A} (pre l bs : list A) off : 0 <= off -> blit (pre ++ l) (len pre + off) bs = pre ++ blit l off bs.
Proof.
  intros Ho. unfold blit, len. replace (Z.to_nat (Z.of_nat (length pre) + off)) with (length pre + Z.to_nat off)%nat by lia.
  rewrite take_app_add, <- app_assoc.
  replace (Z.to_nat (Z.of_nat (length pre) + off + Z.of_nat (length bs))) with (length pre + Z.to_nat (off + Z.of_nat (length bs)))%nat by lia.
  by rewrite drop_app_add.
Qed.

Lemma blit_msg t d k x : 0 <= k -> k + len x <= len d -> blit (msgBytes (t, d)) (4 + k) x = msgBytes (t, blit d k x).
Proof.
  intros Hk Hl. unfold msgBytes. cbn [fst snd]. rewrite len_blit by done.
  replace ([z2b t] ++ le_put 2 (len d) ++ [x00] ++ d) with (([z2b t] ++ le_put 2 (len d) ++ [x00]) ++ d) by by rewrite <- !app_assoc.
  replace (4 + k) with (len ([z2b t] ++ le_put 2 (len d) ++ [x00]) + k) by (rewrite !len_app, len_le_put; reflexivity).
  rewrite blit_app_r by done. by rewrite <- !app_assoc.
Qed.

(** Bytes [k] to [k + len x] of the data of one message replaced. *)
Lemma patched_header ms1 t d ms2 k x (n := len (bodyBytes (ms1 ++ (t, d) :: ms2))) :
  n < 2 ^ 63 -> 0 <= k -> k + len x <= len d ->
  blit (headBytes (mkHeaderWriter 2 0 (ms1 ++ (t, d) :: ms2) 0)) (6 + chunkSizeFieldWidth n + len (bodyBytes ms1) + 4 + k) x =
  headBytes (mkHeaderWriter 2 0 (ms1 ++ (t, blit d k x) :: ms2) 0).
Proof.
  intros Hn Hk Hl. assert (Hn0 : 0 <= n) by apply len_nonneg. destruct (width_cases n ltac:(lia)) as (Hw & _).
  assert (En : len (bodyBytes (ms1 ++ (t, blit d k x) :: ms2)) = n).
  { subst n. rewrite !bodyBytes_app, !bodyBytes_cons, !len_app, !len_msgBytes. cbn [snd]. by rewrite len_blit. }
  unfold headBytes, flagsOf. cbn [wVersion wFlags Messages]. rewrite En. fold n.
  set (pre := ohdr_sig ++ [z2b 2] ++ [z2b (Z.lor (Z.land 0 252) (flagsBits (chunkSizeFieldWidth n)))] ++ le_put (Z.to_nat (chunkSizeFieldWidth n)) n).
  assert (Hp : len pre = 6 + chunkSizeFieldWidth n).
  { subst pre. rewrite !len_app, len_le_put, Z2Nat.id by lia. change (len ohdr_sig) with 4. change (len [z2b 2]) with 1. rewrite len_cons.
    change (len (@nil byte)) with 0. lia. }
  transitivity (blit (pre ++ bodyBytes ms1 ++ msgBytes (t, d) ++ bodyBytes ms2) (len pre + (len (bodyBytes ms1) + (4 + k))) x).
  { f_equal; [|lia]. subst pre. rewrite bodyBytes_app, bodyBytes_cons, <- !app_assoc. reflexivity. }
  pose proof (len_nonneg (bodyBytes ms1)). rewrite blit_app_r by lia. rewrite blit_app_r by lia. rewrite blit_app_l by (rewrite ?len_msgBytes; cbn [snd]; lia).
  rewrite blit_msg by done. subst pre. rewrite bodyBytes_app, bodyBytes_cons, <- !app_assoc. reflexivity.
Qed.

Lemma len_chunkedBytes dims addr sb es : sb8 sb -> len (chunkedBytes dims addr sb es) = 15 + 4 * len dims.
Proof.
  intros (HO & _ & _). unfold chunkedBytes. rewrite !len_app, len_put_order, len_intBytes, len_app, HO.
  change (len [_; _; _]) with 3. change (len [es]) with 1. lia.
Qed.

(** The address in the layout message. *)
Lemma chunkedBytes_patched dims a a' sb es : sb8 sb -> blit (chunkedBytes dims a sb es) 3 (le_put 8 a') = chunkedBytes dims a' sb es.
Proof.
  intros (HO & _ & HE). unfold chunkedBytes. rewrite HO, HE. apply blit_app; [done|]. by rewrite !len_le_put.
Qed.

(** ** Creating a chunked dataset *)

(** The messages of its object header, with the index at address [root]. *)
Definition chunkedMessages (td : bytes) (dims maxDims cs : list Z) (es root : Z) (sb : Superblock) : list MessageWriter :=
  datasetMessages td (dataspaceBytes dims maxDims) (chunkedBytes cs root sb es) (pipelineMessages None).

(** Those messages with the address put at byte [k] of the layout message. *)
Definition patchedMessages (td : bytes) (dims maxDims cs : list Z) (es root : Z) (sb : Superblock) (k : Z) : list MessageWriter :=
  datasetMessages td (dataspaceBytes dims maxDims) (blit (chunkedBytes cs 0 sb es) k (le_put 8 root)) (pipelineMessages None).

Lemma patchedMessages_3 td dims maxDims cs es root sb : sb8 sb -> patchedMessages td dims maxDims cs es root sb 3 = chunkedMessages td dims maxDims cs es root sb.
Proof. intros Hsb. unfold patchedMessages, chunkedMessages. by rewrite chunkedBytes_patched. Qed.

Definition addressOffset (td : bytes) (dims maxDims : list Z) : Z := 11 + len td + 4 + len (dataspaceBytes dims maxDims) + 7.

Definition chunkedHandle (a size es : Z) (dims maxDims cs : list Z) (td name : bytes) (class hsize : Z) : Dataset :=
  mkDs (mkDatasetWriter a 0 size es dims true (mkCoordinator dims cs (zip_with chunksIn dims cs)) cs None
    (a + addressOffset td dims maxDims) hsize) name class maxDims None.

(** The configurations of a chunked dataset of plain elements without filters. *)
Record chunked_config (config : datasetConfig) (dims : list Z) (es : Z) : Prop := {
  cc_dims : dims_ok dims (chunkDims config);
  cc_le : Forall2 (fun d c => c <= d /\ c < 2 ^ 32) dims (chunkDims config);
  cc_rank : len dims <= 254;
  cc_max : maxDims config = [] \/ len (maxDims config) = len dims /\ Forall (is_u 64) (maxDims config) /\ checkMaxDims (maxDims config) dims = true;
  cc_filters : configPipeline config es = None }.

Lemma chunked_messages_ok td dims maxDims cs es root sb : sb8 sb -> 0 < len td <= 50000 -> 0 < len dims <= 254 -> len cs = len dims ->
  maxDims = [] \/ len maxDims = len dims ->
  let ms := chunkedMessages td dims maxDims cs es root sb in
  Forall msg_ok ms /\ Forall (fun m : MessageWriter => 0 < len m.2) ms /\ len (bodyBytes ms) <= 69000.
Proof.
  intros Hsb Ht Hd Hcs Hmx ms. unfold ms, chunkedMessages, datasetMessages. cbn [pipelineMessages app].
  pose proof (len_chunkedBytes cs root sb es Hsb) as Hl. pose proof (len_dataspaceBytes dims maxDims) as Hs.
  assert (Hm : 0 <= len maxDims <= len dims) by (destruct Hmx as [-> | ->]; [change (len (@nil Z)) with 0|]; lia).
  split_and!.
  - repeat constructor; cbn [fst snd]; rewrite ?Hl, ?Hs; unfold MsgDatatype, MsgDataspace, MsgDataLayout; lia.
  - repeat constructor; cbn [snd]; rewrite ?Hl, ?Hs; lia.
  - rewrite !bodyBytes_cons. change (bodyBytes []) with (@nil byte). rewrite !len_app, !len_msgBytes. change (len (@nil byte)) with 0. cbn [snd].
    rewrite Hl, Hs. lia.
Qed.

(** The header is long enough for the address and the checksum. *)
Lemma chunked_header_room td dims maxDims cs es root sb pad c (ms := chunkedMessages td dims maxDims cs es root sb) :
  sb8 sb -> len (bodyBytes ms) <= 69000 -> padding pad ->
  addressOffset td dims maxDims + 12 <= len (headBytes (mkHeaderWriter 2 0 (ms ++ pad) 0) ++ le_put 4 c).
Proof.
  intros Hsb Hl Hpad. pose proof (len_padding pad Hpad). pose proof (len_nonneg (bodyBytes pad)). pose proof (len_nonneg (bodyBytes ms)).
  assert (Hb : len (bodyBytes (ms ++ pad)) = len (bodyBytes ms) + len (bodyBytes pad)) by by rewrite bodyBytes_app, len_app.
  rewrite len_app, len_le_put, len_headBytes by (cbn [Messages]; lia). cbn [Messages].
  destruct (width_cases (len (bodyBytes (ms ++ pad)))) as (Hw & _); [lia|]. set (w := chunkSizeFieldWidth _) in *. clearbody w.
  rewrite Hb. unfold ms, chunkedMessages, datasetMessages, addressOffset. cbn [app pipelineMessages]. rewrite !bodyBytes_cons, !len_app, !len_msgBytes. cbn [snd].
  rewrite (len_chunkedBytes cs root sb es Hsb). change (len (bodyBytes [])) with 0. pose proof (len_nonneg cs). lia.
Qed.

Lemma checkChunkDims_ok dims cs : Forall2 (fun d c => 0 < d /\ 0 < c /\ d + c <= 2 ^ 64) dims cs -> Forall2 (fun d c => c <= d /\ c < 2 ^ 32) dims cs ->
  checkChunkDims cs dims = Ret tt.
Proof.
  induction 1 as [|d c dims cs (H1 & H2 & _) H IH]; intros Hle; [done|]. apply Forall2_cons in Hle as [[H3 _] Hle].
  cbn [checkChunkDims]. destruct (Z.eqb_spec c 0); [lia|]. destruct (Z.gtb_spec c d); [lia|]. by apply IH.
Qed.

Section creating.
Context `{StorageLaws St}.
Hypothesis Hfirst : 0 < first_address.

(** The object header written for a chunked dataset. *)
Definition header_stored (f : bytes) (a hsize : Z) (ms pad : list MessageWriter) (c : Z) : Prop :=
  padding pad /\ (len (bodyBytes ms) <= 255 -> len (bodyBytes (ms ++ pad)) <= 255) /\
  let h := headBytes (mkHeaderWriter 2 0 (ms ++ pad) 0) ++ le_put 4 c in len h = hsize /\ stored f a h.

Lemma createChunked_ok fw G rest p n g dt dims config info td m (cs := chunkDims config) (es := tiSize info) :
  fs_ok fw G rest -> G !! norm p = Some g -> path_ok p n -> name_ok n -> dEntries (group_abs g) !! n = None ->
  dUsed (group_abs g) + len n + 1 <= 4096 -> Z.of_nat (base.size (dEntries (group_abs g))) < 256 ->
  chunked_config config dims es -> getDatatypeInfo dt config = Ret info -> tiBase info = None -> encodeType dt info = Ret td ->
  0 < len td <= 50000 -> usable (storage fw) (69628 + m) -> 0 <= m ->
  exists a hsize fw' g' pad c,
    CreateDataset fw (childPath p n) dt dims config =
      Ret (chunkedHandle a (u64 (mulAll 1 dims * es)) es dims (maxDims config) cs td (childPath p n) (tiClass info) hsize, fw') /\
    usable (storage fw') m /\ fs_ok fw' (<[norm p := g']> G) (mkBlock a hsize :: rest) /\ group_abs g' = addEntry (group_abs g) n a /\
    sblock fw' = sblock fw /\ 0 <= a /\ a + hsize < 2 ^ 63 /\
    header_stored (contents (storage fw')) a hsize (chunkedMessages td dims (maxDims config) cs es 0 (sblock fw)) pad c.
Proof.
  intros Hfs Hg Hp Hn Hfresh Hroom H256 [Hd Hle Hrk Hmx Hfl] Hi Hb Htd Hlt Hu Hm. fold cs in Hd, Hle.
  pose proof (fs_sb _ _ _ Hfs) as Hsb. pose proof Hsb as (HO & HL & HE). pose proof (dims_at _ _ Hd) as Hat.
  assert (Hlen : len cs = len dims) by (unfold len; by rewrite (Forall2_length _ _ _ Hat)).
  assert (Hd0 : 0 < len dims) by (destruct (Z.lt_ge_cases 0 (len dims)) as [|E]; [done|]; exfalso; apply (dims_ne _ _ Hd), len_0_nil; pose proof (len_nonneg dims); lia).
  assert (Hml : maxDims config = [] \/ len (maxDims config) = len dims) by tauto.
  pose proof Hp as (_ & Hne & Hns).
  destruct (childPath_not_root p n Hne) as [Hroot _].
  assert (Hv1 : validateDatasetName (childPath p n) = Ret tt).
  { unfold validateDatasetName. rewrite bool_decide_false, prefix_child by done. done. }
  assert (Hv2 : validateDimensions dims = Ret tt).
  { unfold validateDimensions. destruct (Z.eqb_spec (len dims) 0); [lia|]. cbn [negb]. rewrite (proj2 (forallb_forall _ dims)); [done|].
    intros x Hx%list_elem_of_In%list_elem_of_lookup_1. destruct Hx as [i Hx]. destruct (Forall2_lookup_l _ _ _ _ _ Hat Hx) as (c & _ & Hc & _).
    destruct (Z.eqb_spec x 0); [lia|done]. }
  unfold CreateDataset. rewrite Hv1. cbn [obind]. rewrite Hv2. cbn [obind].
  assert (Ecase : (if len (maxDims config) >? 0 then
       guard len (maxDims config) =? len dims else "maxDims length must match dims length";;
       guard checkMaxDims (maxDims config) dims else "maxDims must be >= dims";;
       guard negb (len (chunkDims config) =? 0) else "resizable datasets (with maxDims) require chunked layout";;
       Ret tt
     else Ret tt) = Ret tt).
  { fold cs. destruct Hmx as [-> | (E1 & _ & E3)]; [done|]. rewrite E1, Z.eqb_refl, E3. destruct (Z.eqb_spec (len cs) 0); [lia|]. by destruct (_ >? _). }
  rewrite Ecase. cbn [obind]. fold cs. destruct (Z.gtb_spec (len cs) 0); [|lia].
  unfold createChunkedDataset. fold cs. rewrite Hlen, Z.eqb_refl. cbn [negb]. rewrite (checkChunkDims_ok dims cs) by done. cbn [obind].
  rewrite Hi. cbn [obind]. rewrite (NewChunkCoordinator_ok dims cs Hd). cbn [obind]. rewrite Htd. cbn [obind].
  rewrite EncodeDataspaceMessage_ret by (done || lia). cbn [obind]. unfold EncodeLayoutMessage. cbn [LayoutChunked LayoutContiguous Z.eqb Pos.eqb].
  destruct (Z.eqb_spec (len cs) 0) as [|_]; [lia|]. fold es.
  assert (Hf32 : Forall (is_u 32) cs).
  { apply Forall_lookup. intros i c Hc. destruct (Forall2_lookup_r _ _ _ _ _ Hle Hc) as (d & Hdi & _ & Hlt32).
    destruct (Forall2_lookup_lr _ _ _ _ _ _ Hat Hdi Hc) as (_ & Hc0 & _). unfold is_u. lia. }
  rewrite encodeChunkedLayout_ret by (rewrite ?HO; done || lia). cbn [negb obind]. rewrite Hfl. cbn [obind].
  destruct (chunked_messages_ok td dims (maxDims config) cs es 0 (sblock fw) Hsb Hlt ltac:(lia) Hlen Hml) as (Hmok & _ & Hmlen).
  destruct (storeDatasetHeader_ok (storage fw) (328 + m) _ Hmok Hmlen) as (a & hsize & st2 & pad & c & E2 & Hhs & Hu2 & Hpad & Ho2 & Hk2 & Ha & Hst & H255);
    [eapply usable_mono; [exact Hu|lia]|lia|].
  unfold chunkedMessages, datasetMessages in E2. cbn [pipelineMessages app] in E2. rewrite E2. cbn [obind]. rewrite parsePath_child by done. cbn [obind].
  assert (Hfs2 : fs_ok (with_storage fw st2) G ([mkBlock a hsize] ++ rest)).
  { apply (fs_extend Hfirst); [done|exact Ho2|]. eapply keeps_sub; [|exact Hk2]. rewrite (fs_own _ _ _ Hfs). by apply list_subseteq_app_l. }
  destruct (fs_link Hfirst _ G _ p n a g m Hfs2 Hg) as (st3 & g3 & E3 & Hu3 & Hfs3 & Habs3 & Hk3%preserves_keeps);
    [eapply usable_mono; [exact Hu2|lia]|done|done|unfold is_u; lia|done..|].
  rewrite E3. cbn [obind]. unfold writerType. rewrite Hb. cbn [storage with_storage] in *.
  assert (Hin : mkBlock a hsize ∈ owned st2) by (rewrite Ho2; apply elem_of_app; right; by left).
  destruct (owned_range _ _ _ Hu2 Hin) as (_ & _ & Hr). unfold bend in Hr. cbn [Offset Size] in Hr.
  exists a, hsize, (with_storage (with_storage fw st2) st3), g3, pad, c.
  assert (Hsl : addressOffset td dims (maxDims config) + 12 <= hsize).
  { rewrite Hhs. by apply chunked_header_room. }
  split_and!; [|exact Hu3|exact Hfs3|exact Habs3|done|lia|lia|].
  - unfold chunkedHandle, calculateTotalElements. do 4 f_equal. unfold addressOffset in *. pose proof (len_nonneg (dataspaceBytes dims (maxDims config))). rewrite u64_id by (unfold is_u; lia). lia.
  - split; [done|]. split; [exact H255|]. cbv zeta. split; [by symmetry|]. cbn [storage with_storage]. apply (Hk3 (mkBlock a hsize)); [set_solver|by symmetry|]. exact Hst.
Qed.
End creating.

(** One byte too early: the low byte of the address takes the place of the number
    of dimensions, the others are shifted. *)
Lemma chunkedBytes_early cs root sb es : sb8 sb -> 0 <= root < 2 ^ 63 ->
  blit (chunkedBytes cs 0 sb es) 2 (le_put 8 root) = [z2b 3; z2b LayoutChunked; z2b root] ++ le_put 8 (root / 256) ++ intBytes 4 (cs ++ [es]).
Proof.
  intros (HO & _ & HE) Hr. unfold chunkedBytes. rewrite HO, HE.
  change ([z2b 3; z2b LayoutChunked; z2b (len cs + 1)] ++ put_order LittleEndian (Z.to_nat 8) 0 ++ intBytes 4 (cs ++ [es])) with
    ([z2b 3; z2b LayoutChunked] ++ [z2b (len cs + 1); x00; x00; x00; x00; x00; x00; x00] ++ [x00] ++ intBytes 4 (cs ++ [es])).
  rewrite blit_app by reflexivity.
  assert (E : le_put 8 root ++ [x00] = z2b root :: le_put 8 (root / 256)).
  { cbn [le_put app]. do 8 f_equal. rewrite !Z.div_div by lia. by rewrite Z.div_small by lia. }
  rewrite (app_assoc (le_put 8 root)), E. reflexivity.
Qed.

Lemma parse_early cs root es sb layout : sb8 sb -> 0 <= root < 2 ^ 63 ->
  ParseDataLayoutMessage ([z2b 3; z2b LayoutChunked; z2b root] ++ le_put 8 (root / 256) ++ intBytes 4 (cs ++ [es])) sb = Ret layout ->
  DataAddress layout = root / 256.
Proof.
  intros (HO & _ & HE) Hr. set (data := _ ++ _). intros E.
  assert (Hq : 0 <= root / 256 < 256 ^ 8) by (split; [apply Z.div_pos; lia|apply Z.div_lt_upper_bound; lia]).
  destruct (readUint64_field data [z2b 3; z2b LayoutChunked; z2b root] (root / 256) (intBytes 4 (cs ++ [es])) LittleEndian 8 eq_refl eq_refl Hq) as (rest & S1 & R1).
  change (len [z2b 3; z2b LayoutChunked; z2b root]) with 3 in S1.
  unfold ParseDataLayoutMessage in E. change (idx data 0) with (Ret (z2b 3)) in E.
  destruct (len data <? 1); [discriminate|]. cbn [negb obind] in E.
  change (b2z (z2b 3)) with 3 in E. cbn [Z.ltb Z.gtb Z.compare Pos.compare Pos.compare_cont orb negb Z.eqb Pos.eqb] in E.
  unfold parseLayoutV3 in E. change (idx data 1) with (Ret (z2b 2)) in E. change (idx data 2) with (Ret (z2b root)) in E.
  destruct (len data <? 2); [discriminate|]. cbn [negb obind] in E.
  change (b2z (z2b 2)) with 2 in E. change (2 =? LayoutCompact) with false in E. change (2 =? LayoutContiguous) with false in E.
  change (2 =? LayoutChunked) with true in E. cbn iota zeta in E. rewrite HO, HE, S1 in E.
  destruct (len data <? 3); [discriminate|]. cbn [negb obind] in E. destruct (3 + 8 >? len data); [discriminate|]. cbn [negb obind] in E.
  rewrite R1 in E. cbn [obind] in E. apply obind_ret_inv in E as (ds & _ & E). injection E as <-. reflexivity.
Qed.

(** ** What the readers find *)

Definition spaceOf (dims maxDims : list Z) : DataspaceMessage := infoOfDims dims maxDims.
Definition layoutOf (root : Z) (cs : list Z) (es : Z) : DataLayoutMessage := mkLayout 3 LayoutChunked root 0 [] (cs ++ [es]) 4.

Lemma len_pos_dims ds cs : dims_ok ds cs -> 0 < len ds /\ len cs = len ds.
Proof.
  intros Hd. pose proof (Forall2_length _ _ _ (dims_at _ _ Hd)) as Hl. pose proof (len_nonneg ds). split; [|unfold len; by rewrite Hl].
  destruct (Z.lt_ge_cases 0 (len ds)) as [|E]; [done|]. exfalso. apply (dims_ne _ _ Hd), len_0_nil. lia.
Qed.

Section reading.
Context `{C : Codecs}.
Context (f : bytes) (a : Z) (td : bytes) (t : DatatypeMessage) (dims maxDims cs : list Z) (root c : Z) (sb0 sb : Superblock) (pad : list MessageWriter) (buf : bytes).
Let es := dtSize t.
Hypothesis Hsb0 : sb8 sb0.
Hypothesis Hsb : sb8 sb.
Hypothesis Hver : 0 <= Superblock.Version sb < 4.
Hypothesis Htd : ParseDatatypeMessage td = Ret t.
Hypothesis Hltd : 0 < len td <= 50000.
Hypothesis Hds : dataset_ok dims cs es buf.
Hypothesis Hrank : len dims <= 254.
Hypothesis Hdu : Forall (is_u 64) dims.
Hypothesis Hcu : Forall (is_u 32) cs.
Hypothesis Hmax : maxDims = [] \/ len maxDims = len dims /\ Forall (is_u 64) maxDims.
Hypothesis Hroot : 0 <= root < 2 ^ 63.
Hypothesis Hpad : padding pad.
Hypothesis Hlen : len f < 2 ^ 63.
Hypothesis Hst : stored f a (headBytes (mkHeaderWriter 2 0 (chunkedMessages td dims maxDims cs es root sb0 ++ pad) 0) ++ le_put 4 c).

Lemma chunked_described fuel : exists oh, ReadObjectHeader fuel f a sb = Ret oh /\ hType oh = ObjectTypeDataset /\
  described oh sb t (spaceOf dims maxDims) (layoutOf root cs es) None /\ firstMessage MsgFilterPipeline (hMessages oh) = None.
Proof.
  destruct (len_pos_dims _ _ (ok_dims _ _ _ _ Hds)) as [Hd0 Hlc]. pose proof (ok_es _ _ _ _ Hds) as He.
  assert (Hml : maxDims = [] \/ len maxDims = len dims) by tauto.
  destruct (chunked_messages_ok td dims maxDims cs es root sb0 Hsb0 Hltd ltac:(lia) Hlc Hml) as (Hmok & Hmpos & _).
  destruct (read_dataset_header fuel f a sb td _ _ None pad c Hst Hmok Hmpos Hpad Hlen) as (oh & E & Hty & Hfind & Hl & Hfp & Hfs).
  exists oh. split_and!; [exact E|exact Hty| |exact Hfp]. eexists _, _, _. split_and!; [exact Hfind|exact Hfs|exact Htd| | |by rewrite Hl].
  - rewrite <- (app_nil_r (dataspaceBytes dims maxDims)). apply parse_dataspace; [lia|done| |done].
    destruct Hmax as [-> | [_ ?]]; [constructor|done].
  - rewrite <- (app_nil_r (chunkedBytes cs root sb0 es)).
    assert (Esb : chunkedBytes cs root sb0 es = chunkedBytes cs root sb es).
    { destruct Hsb0 as (O1 & _ & E1), Hsb as (O2 & _ & E2). unfold chunkedBytes. by rewrite O1, O2, E1, E2. }
    rewrite Esb. destruct Hsb as (O2 & _ & _). apply parse_chunked; rewrite ?O2; try done; try lia.
    unfold is_u. lia.
Qed.
End reading.

Lemma chunks_stored_root `{C : Codecs} ds cs es B buf rp f root : chunks_stored ds cs es B buf rp f root -> 0 <= root < 2 ^ 63.
Proof.
  intros (l & own & top & ownT & _ & _ & _ & _ & Hb). destruct top; destruct Hb as (node & Hst & _ & _ & _ & Ha & _);
    destruct (stored_bounds _ _ _ Hst); lia.
Qed.

(** The coordinates of the index. *)
Lemma coordsOf_ok n l : Forall (fun e => (n <= length (Scaled (Key e)))%nat) l ->
  coordsOf (Z.of_nat n) l = Ret (map (fun e => take n (Scaled (Key e))) l).
Proof.
  induction 1 as [|e l He Hl IH]; [done|]. cbn [coordsOf map]. rewrite slice_ret by (unfold len; lia). cbn [obind]. rewrite IH. cbn [obind].
  unfold sub. rewrite Z.sub_0_r, Nat2Z.id. done.
Qed.

(** The readers of a stored chunked dataset of [buf]. *)
Section readers.
Context `{C : Codecs}.
Context (fuel : nat) (f : bytes) (a : Z) (sb : Superblock) (oh : ObjectHeader) (t : DatatypeMessage) (dims maxDims cs : list Z)
  (B root : Z) (buf : bytes).
Let es := dtSize t.
Hypothesis Hfuel : (256 <= fuel)%nat.
Hypothesis Hsb : sb8 sb.
Hypothesis Hds : dataset_ok dims cs es buf.
Hypothesis HB : B <= MaxChunkSize.
Hypothesis Hch : chunks_stored dims cs es B buf None f root.
Hypothesis Hoh : ReadObjectHeader fuel f a sb = Ret oh.
Hypothesis Hdesc : described oh sb t (spaceOf dims maxDims) (layoutOf root cs es) None.
Hypothesis Hfp : firstMessage MsgFilterPipeline (hMessages oh) = None.
Hypothesis Hdu : Forall (is_u 64) dims.

Lemma chunked_reads : dataset_reads fuel f oh sb t dims buf.
Proof.
  destruct Hdesc as (td & sd & ld & E1 & _ & E3 & E4 & E5 & E6). exists td, sd, ld, (layoutOf root cs es), maxDims, None.
  split_and!; [exact E1|exact E3|exact E4|exact E5|exact E6|by rewrite Hfp|].
  unfold readRaw, layoutOf, IsCompact, IsContiguous, IsChunked. cbn [Class_]. change (LayoutChunked =? LayoutCompact) with false.
  change (LayoutChunked =? LayoutContiguous) with false. change (LayoutChunked =? LayoutChunked) with true. cbn iota. cbn [obind].
  apply (chunks_stored_read dims cs es B buf None f root); try done. apply Hsb.
Qed.

Lemma chunked_readHyperslab axes : Forall2 axis_in dims axes -> Forall separate axes -> prod (map extent axes) * es < 2 ^ 63 ->
  readHyperslab fuel f sb (selOf axes) oh = convertToFloat64 (concat (selected es dims buf axes)) t (prod (map extent axes)).
Proof.
  intros Hax Hsep HT. destruct Hdesc as (td & sd & ld & E1 & _ & E3 & E4 & E5 & E6).
  unfold readHyperslab. rewrite E1. cbn [obind]. rewrite E3, E4, E5, E6. cbn [obind].
  unfold dispatchHyperslabReader, layoutOf, IsCompact, IsContiguous, IsChunked. cbn [Class_]. change (LayoutChunked =? LayoutCompact) with false.
  change (LayoutChunked =? LayoutContiguous) with false. change (LayoutChunked =? LayoutChunked) with true. cbn iota.
  apply (readHyperslabChunked_ok dims cs es B buf None f root); try done. apply Hsb.
Qed.

Lemma chunked_ReadHyperslab sel (axes := axesOf (fillHyperslabDefaults sel (len dims))) :
  inside dims sel -> Forall separate axes -> prod (map extent axes) * es < 2 ^ 63 ->
  ReadHyperslab fuel f sb a sel = convertToFloat64 (concat (selected es dims buf axes)) t (prod (map extent axes)).
Proof.
  intros Hin Hsep HT. destruct (inside_axes _ _ Hin) as [Hsel Hax]. fold axes in Hsel, Hax.
  unfold ReadHyperslab. rewrite Hoh. cbn [obind]. rewrite (firstDataspace_ok sb oh t _ _ _ Hdesc). cbn [obind spaceOf infoOfDims Dimensions].
  rewrite (proj2 (validate_iff _ _ (dims_ne _ _ (ok_dims _ _ _ _ Hds)) Hdu (axes_fit dims axes Hax)) Hin). cbn [obind].
  rewrite <- Hsel. by apply chunked_readHyperslab.
Qed.

(** The iterator: every coordinate of the grid once. *)
Lemma iterator_made : exists it, ChunkIteratorWithContext fuel f sb a = Ret it /\
  dataset it = a /\ itChunkDims it = cs /\ itDatasetDims it = dims /\ current it = 0 /\ err it = None /\
  NoDup (chunkCoords it) /\ (forall c, c ∈ chunkCoords it <-> in_box (zip_with chunksIn dims cs) c) /\
  len (chunkCoords it) = prod (zip_with chunksIn dims cs).
Proof.
  destruct Hch as (l & own & top & ownT & Hd & Hli & Hl & Htop & Hb). destruct Hds as [Hok Hex Hes Hlen Hm]. pose proof (dims_at _ _ Hok) as Hat.
  assert (Hcl : length cs = length dims) by (symmetry; exact (Forall2_length _ _ _ Hat)).
  assert (Hbox : Forall (fun e => in_box (zip_with chunksIn dims cs) (Coordinate e)) l) by (eapply Forall_impl; [exact Hd|]; by intros e [? _ _ _ _]).
  assert (Hps : sortEntries l ≡ₚ l) by apply merge_sort_Permutation.
  apply built_indexes in Hb; [|rewrite length_app; cbn; lia|].
  2: { apply Forall_app. split; [|repeat constructor; lia]. eapply Forall2_Forall_r; [exact Hat|]. apply Forall_forall. intros d _ c' (_ & ? & _). done. }
  destruct (CollectAllChunks_ok _ _ _ _ _ fuel Hb ltac:(lia)) as (node & Ep & Hcol).
  assert (Hco : collectChunkCoordinates fuel f sb (layoutOf root cs es) (spaceOf dims maxDims) = Ret (map Coordinate (sortEntries l))).
  { unfold collectChunkCoordinates, layoutOf, spaceOf, infoOfDims. cbn [DataAddress ChunkSize Dimensions]. destruct Hsb as (-> & _ & _).
    rewrite Ep. cbn [obind]. rewrite Hcol. cbn [obind]. unfold len. rewrite coordsOf_ok.
    - f_equal. rewrite map_map. apply map_ext_in. intros e He%list_elem_of_In. rewrite Hps in He.
      pose proof (proj1 (Forall_forall _ _) Hbox e He) as Hbe. cbn beta in Hbe. destruct (Chunks.grid_lengths dims cs Hok _ Hbe) as [Hl1 _]. unfold entryOf. cbn [Key Scaled]. by rewrite take_app_le, take_ge by lia.
    - apply Forall_map. rewrite Hps. eapply Forall_impl; [exact Hbox|]. intros e He. destruct (Chunks.grid_lengths dims cs Hok _ He) as [Hl1 _].
      unfold entryOf. cbn [Key Scaled]. rewrite length_app. lia. }
  destruct Hdesc as (td & sd & ld & E1 & _ & E3 & E4 & E5 & E6). unfold findMessages in E1.
  unfold ChunkIteratorWithContext. rewrite Hoh. cbn [obind].
  destruct (lastMessage MsgDatatype _) as [?|]; [|done]. destruct (lastMessage MsgDataspace _) as [?|]; [|done].
  destruct (lastMessage MsgDataLayout _) as [?|]; [|done]. injection E1 as -> -> ->. rewrite E5. cbn [obind].
  unfold IsChunked, layoutOf. cbn [Class_]. change (LayoutChunked =? LayoutChunked) with true. cbn iota. rewrite E4. cbn [obind].
  fold (layoutOf root cs es). rewrite Hco. cbn [obind]. eexists. split; [reflexivity|]. cbn [dataset itChunkDims itDatasetDims current err chunkCoords].
  cbn [layoutOf spaceOf infoOfDims ChunkSize Dimensions].
  split_and!; try done.
  - destruct (Z.gtb_spec (len (cs ++ [es])) (len dims)) as [_|E]; [|unfold len in E; rewrite length_app in E; cbn in E; lia].
    rewrite take_app_le, take_ge by lia. done.
  - rewrite Hps. by apply (listed_NoDup dims cs).
  - intros c. rewrite Hps. split.
    + intros (e & -> & He)%list_elem_of_fmap. exact (proj1 (Forall_forall _ _) Hbox e He).
    + by apply (listed_complete dims cs).
  - unfold len. rewrite Hps. rewrite length_map. exact Hl.
Qed.

(** What the iterator returns for a chunk. *)
Lemma chunk_read it c fs (cc := mkCoordinator dims cs (zip_with chunksIn dims cs)) :
  dataset it = a -> itChunkDims it = cs -> itDatasetDims it = dims -> currentCoords it = Ret c -> in_box (zip_with chunksIn dims cs) c ->
  convertToFloat64 buf t (prod dims) = Ret fs ->
  exists out, Chunk fuel f sb it = Ret out /\
    map Some out = map (fun p => fs !! Z.to_nat (lin dims p)) (points (boxAxes (corner c cs) (sizeOf cc c))).
Proof.
  intros E1 E2 E3 E4 Hc Hfs. pose proof (chunk_box_in dims cs es buf c Hds Hc) as Hbox. fold cc in Hbox.
  destruct (boxAxes_ok _ _ _ Hbox) as (_ & Hax & Hx). destruct Hds as [Hok Hex Hes Hlen Hm] eqn:Ed. unfold MaxChunkSize in Hm.
  pose proof (chunk_size_prod dims cs c Hok Hc) as Hsz. fold cc in Hsz.
  destruct (convert_selected t dims buf fs _ (proj1 Hes) Hax Hlen ltac:(fold es; lia)) as (out & Eo & Hout); [rewrite Hx; fold es; nia|exact Hfs|].
  exists out. split; [|exact Hout]. unfold Chunk. rewrite E4. cbn [obind]. rewrite E1, E2, E3, (chunkBox_ok dims cs es buf c Hds Hc). cbn [obind]. fold cc.
  rewrite (ReadSlice_box fuel f sb a _ _ oh (spaceOf dims maxDims)) by (done || by eapply firstDataspace_ok).
  rewrite chunked_readHyperslab by (done || apply box_separate || (rewrite Hx; nia)). exact Eo.
Qed.
End readers.

(** ** Writing the values *)

Lemma chunk_size_le ds cs c (zs := sizeOf (mkCoordinator ds cs (zip_with chunksIn ds cs)) c) :
  dims_ok ds cs -> in_box (zip_with chunksIn ds cs) c -> 0 < prod zs <= prod cs.
Proof.
  intros Hok Hc. assert (Forall2 (fun d z => 0 < z <= d) cs zs) as H.
  { destruct (Chunks.grid_lengths ds cs Hok c Hc) as [L1 L2]. apply Forall2_same_length_lookup.
    split; [unfold zs, sizeOf; cbn [Chunks.chunkDims datasetDims]; rewrite !length_zip_with; lia|]. intros i d z Hd Hz.
    destruct (idx_some ds i) as [d' Hd']; [apply lookup_lt_Some in Hd; lia|].
    destruct (Chunks.grid_at ds cs Hok c i d' Hc Hd') as (cd & x & Hcd & _ & Hx0 & Hx1 & Hx2 & _ & Hs & _).
    pose proof (eq_trans (eq_sym Hcd) Hd) as E1. injection E1 as ->. pose proof (eq_trans (eq_sym Hs) Hz) as E2. injection E2 as <-.
    destruct (Forall2_lookup_lr _ _ _ _ _ _ (dims_at _ _ Hok) Hd' Hcd) as (_ & ? & _). lia. }
  clearbody zs. clear -H. induction H as [|d z cs zs Hd H IH]; [done|]. rewrite !prod_cons. nia.
Qed.

(** Without filters every chunk is stored as it is. *)
Lemma plain_accepted `{Codecs} ds cs es buf : dataset_ok ds cs es buf -> chunks_accepted ds cs es (prod cs * es) buf None.
Proof.
  intros [Hok Hex Hes Hlen Hm] c chunk Hc Ex. unfold MaxChunkSize in Hm. split; [done|]. intros s [= <-].
  destruct (chunk_elements ds cs es buf c chunk Hok Hex (proj1 Hes) Hlen ltac:(lia) Hc Ex) as [-> _].
  pose proof (chunk_size_le ds cs c Hok Hc). nia.
Qed.

Section writing.
Context `{SL : StorageLaws St} `{C : Codecs} `{CL : !CodecLaws C}.

(** The bytes of the dataset go to chunks and index, and the address of the index
    into the header: where it belongs when the header's size field has one byte,
    one byte too early when it has two. *)
Lemma storeChunked_ok fw a hsize td dims maxDims cs es buf name class pad c (nums := zip_with chunksIn dims cs)
    (ms := chunkedMessages td dims maxDims cs es 0 (sblock fw)) (w := chunkSizeFieldWidth (len (bodyBytes (ms ++ pad)))) :
  sb8 (sblock fw) -> dataset_ok dims cs es buf -> prod cs * es <= MaxChunkSize -> nodeBytes (len dims + 1) < 2 ^ 63 ->
  usable (storage fw) (prod nums * (prod cs * es + 2 * nodeBytes (len dims + 1))) -> mkBlock a hsize ∈ owned (storage fw) ->
  0 <= a -> len (bodyBytes ms) <= 65000 -> header_stored (contents (storage fw)) a hsize ms pad c ->
  exists root st' h' c', storeData (chunkedHandle a (len buf) es dims maxDims cs td name class hsize) fw buf = Ret (h', with_storage fw st') /\
    chunks_stored dims cs es (prod cs * es) buf None (contents st') root /\
    stored (contents st') a (headBytes (mkHeaderWriter 2 0 (patchedMessages td dims maxDims cs es root (sblock fw) (4 - w) ++ pad) 0) ++ le_put 4 c') /\
    (forall rest, owned (storage fw) ≡ₚ mkBlock a hsize :: rest -> keeps (contents (storage fw)) (contents st') rest).
Proof.
  intros Hsb Hds HB Hns Hu Hin Ha Hbody (Hpad & _ & Hl & Hst). set (hdr := headBytes (mkHeaderWriter 2 0 (ms ++ pad) 0) ++ le_put 4 c) in *.
  cbv zeta in Hl, Hst. fold hdr in Hl, Hst.
  pose proof (chunked_header_room td dims maxDims cs es 0 (sblock fw) pad c Hsb ltac:(fold ms; lia) Hpad) as Hroom. fold ms hdr in Hroom.
  assert (Ho : 0 < addressOffset td dims maxDims) by (unfold addressOffset; pose proof (len_nonneg td); pose proof (len_nonneg (dataspaceBytes dims maxDims)); lia).
  rewrite <- Hl in Hin.
  destruct (writeChunkedData_ok dims cs es (prod cs * es) buf None None a 0 (addressOffset td dims maxDims) hdr (storage fw) Hds eq_refl
    (plain_accepted dims cs es buf Hds) HB Hns Hu Hin Hst ltac:(lia) ltac:(lia) Hroom) as (root & st' & c' & E & _ & Hst' & Hch & Hk).
  exists root, st'. eexists. exists c'. split_and!; [| exact Hch | |by rewrite Hl in Hk].
  - unfold storeData, chunkedHandle. cbn [dsw isChunked]. destruct Hsb as (-> & _ & _). rewrite Hl in E. rewrite E. reflexivity.
  - replace (headBytes (mkHeaderWriter 2 0 (patchedMessages td dims maxDims cs es root (sblock fw) (4 - w) ++ pad) 0)) with
      (blit (take (Z.to_nat (len hdr - 4)) hdr) (addressOffset td dims maxDims) (le_put 8 root)); [exact Hst'|].
    assert (Et : take (Z.to_nat (len hdr - 4)) hdr = headBytes (mkHeaderWriter 2 0 (ms ++ pad) 0)).
    { subst hdr. rewrite len_app, len_le_put, take_app_le, take_ge by (unfold len; lia). done. }
    rewrite Et. pose proof (len_padding pad Hpad) as Hlp. pose proof (len_nonneg (bodyBytes ms)). pose proof (len_nonneg (bodyBytes pad)).
    assert (Hb : len (bodyBytes (ms ++ pad)) = len (bodyBytes ms) + len (bodyBytes pad)) by by rewrite bodyBytes_app, len_app.
    assert (Hw : 1 <= w <= 2) by (subst w; unfold chunkSizeFieldWidth; rewrite Hb; repeat ztest; lia).
    pose proof (patched_header [(MsgDatatype, td); (MsgDataspace, dataspaceBytes dims maxDims)] MsgDataLayout (chunkedBytes cs 0 (sblock fw) es) pad (4 - w) (le_put 8 root)) as Hp.
    cbv zeta in Hp. change ([(MsgDatatype, td); (MsgDataspace, dataspaceBytes dims maxDims)] ++ (MsgDataLayout, chunkedBytes cs 0 (sblock fw) es) :: pad) with (ms ++ pad) in Hp.
    fold w in Hp. refine (eq_trans _ (Hp _ _ _)); [|lia|lia|rewrite len_chunkedBytes, len_le_put by done; pose proof (len_nonneg cs); lia].
    f_equal. rewrite !bodyBytes_cons, !len_app, !len_msgBytes. change (len (bodyBytes [])) with 0. cbn [snd]. unfold addressOffset. lia.
Qed.
End writing.

(** ** From creation to the readers *)

(** A name that can be linked into a group of the file. *)
Record fresh_link `{StorageLaws St} (fw : FileW St) (G : gmap bytes FG) (rest : list block) (p n : bytes) (g : FG) : Prop := {
  fl_fs : fs_ok fw G rest;
  fl_group : G !! norm p = Some g;
  fl_path : path_ok p n;
  fl_name : name_ok n;
  fl_fresh : dEntries (group_abs g) !! n = None;
  fl_room : dUsed (group_abs g) + len n + 1 <= 4096;
  fl_count : Z.of_nat (base.size (dEntries (group_abs g))) < 256 }.

(** Numbers for a chunked dataset. *)
Record chunked_values (config : datasetConfig) (dims : list Z) (data : GoData) (dt : Z) (info : datatypeInfo) : Prop := {
  cv_config : chunked_config config dims (tiSize info);
  cv_info : getDatatypeInfo dt config = Ret info;
  cv_kind : goKind data = Some dt;
  cv_values : values_ok data;
  cv_count : prod dims = goLen data;
  cv_exact : inner_exact dims (chunkDims config);
  cv_size : goLen data * tiSize info <= MaxChunkSize * 1024;
  cv_chunk : prod (chunkDims config) * tiSize info <= MaxChunkSize }.

(** The bytes of the object header that depend on the rank. *)
Definition rankBytes (config : datasetConfig) (dims : list Z) : Z := 12 * len dims + 8 * len (maxDims config).

(** The space the file needs. *)
Definition chunkedSpace (config : datasetConfig) (dims : list Z) (es : Z) : Z :=
  69628 + prod (zip_with chunksIn dims (chunkDims config)) * (prod (chunkDims config) * es + 2 * nodeBytes (len dims + 1)).

Lemma kind_small data dt config info td : goKind data = Some dt -> getDatatypeInfo dt config = Ret info -> encodeType dt info = Ret td ->
  12 <= len td <= 20 /\ tiBase info = None /\ (tiClass info = DatatypeFixed \/ tiClass info = DatatypeFloat) /\ 1 <= tiSize info <= 8.
Proof.
  destruct data; intros [= <-] [= <-] E; vm_compute in E; injection E as <-; (split; [split; vm_compute; congruence|]); (split; [done|]);
    (split; [by (left + right)|]); cbn; lia.
Qed.

Lemma dims_prods ds cs : dims_ok ds cs -> 0 < prod ds /\ 0 < prod cs /\ 0 < prod (zip_with chunksIn ds cs).
Proof.
  intros Hd. pose proof (dims_at _ _ Hd) as Hat. split_and!; apply prod_pos; [| |by apply numChunks_pos].
  - eapply Forall2_Forall_l; [exact Hat|]. apply Forall_forall. by intros c _ d (? & _).
  - eapply Forall2_Forall_r; [exact Hat|]. apply Forall_forall. by intros d _ c (_ & ? & _).
Qed.

Section file.
Context `{SL : StorageLaws St} `{C : Codecs} `{CL : !CodecLaws C}.
Hypothesis Hfirst : 0 < first_address.

(** What [CreateDataset] and [Write] leave in the file [f] at [a]. *)
Record chunked_written (f : bytes) (a : Z) (config : datasetConfig) (dims : list Z) (data : GoData) (fs : list spec_float)
    (t : DatatypeMessage) (buf : bytes) (root : Z) : Prop := {
  cw_data : dataset_ok dims (chunkDims config) (dtSize t) buf;
  cw_chunk : prod (chunkDims config) * dtSize t <= MaxChunkSize;
  cw_chunks : chunks_stored dims (chunkDims config) (dtSize t) (prod (chunkDims config) * dtSize t) buf None f root;
  cw_values : convertToFloat64 buf t (prod dims) = Ret fs;
  cw_read : read_as data fs;
  cw_dims : Forall (is_u 64) dims;
  cw_header : forall fuel sb, sb8 sb -> 0 <= Superblock.Version sb < 4 -> len f < 2 ^ 63 -> exists oh, ReadObjectHeader fuel f a sb = Ret oh /\
    hType oh = ObjectTypeDataset /\ described oh sb t (spaceOf dims (maxDims config)) (layoutOf root (chunkDims config) (dtSize t)) None /\
    firstMessage MsgFilterPipeline (hMessages oh) = None }.

(** The two calls, up to the header. *)
Lemma chunked_calls_ok fw G rest p n g config dims data dt info :
  fresh_link fw G rest p n g -> chunked_values config dims data dt info -> usable (storage fw) (chunkedSpace config dims (tiSize info)) ->
  exists h fw1 h2 fw2 fs td t buf root pad w c, CreateDataset fw (childPath p n) dt dims config = Ret (h, fw1) /\
    (forall ghw, Write h fw1 ghw data = Ret (h2, fw2, ghw)) /\
    ParseDatatypeMessage td = Ret t /\ 12 <= len td <= 20 /\ dtSize t = tiSize info /\ dataset_ok dims (chunkDims config) (dtSize t) buf /\
    convertToFloat64 buf t (prod dims) = Ret fs /\ read_as data fs /\ sb8 (sblock fw1) /\ padding pad /\
    (rankBytes config dims <= 200 -> w = 1) /\ (208 < rankBytes config dims -> w = 2) /\
    chunks_stored dims (chunkDims config) (dtSize t) (prod (chunkDims config) * dtSize t) buf None (contents (storage fw2)) root /\
    stored (contents (storage fw2)) (address (dsw h))
      (headBytes (mkHeaderWriter 2 0 (patchedMessages td dims (maxDims config) (chunkDims config) (dtSize t) root (sblock fw1) (4 - w) ++ pad) 0) ++ le_put 4 c) /\
    exists hsize others, owned (storage fw1) ≡ₚ mkBlock (address (dsw h)) hsize :: others /\
      keeps (contents (storage fw1)) (contents (storage fw2)) others.
Proof.
  intros [Hfs Hg Hp Hn Hfresh Hroom H256] [Hcfg Hinfo Hk Hok Hn' Hex Hsz Hck] Hu.
  pose proof (cc_dims _ _ _ Hcfg) as Hd. pose proof (cc_rank _ _ _ Hcfg) as Hrk. set (cs := chunkDims config) in *.
  destruct (len_pos_dims _ _ Hd) as [Hd0 Hlc].
  destruct (kind_numeric data dt config Hk) as (info' & td & t & E1 & E2 & E3 & Hnum). rewrite Hinfo in E1. injection E1 as <-.
  destruct (kind_small data dt config info td Hk Hinfo E2) as (Htd & Hbase & Hclass & Hes). set (es := tiSize info) in *.
  assert (Hts : dtSize t = es) by apply Hnum. unfold MaxChunkSize in Hsz. destruct (dims_prods dims cs Hd) as (Hpd & Hpc & Hpn).
  destruct (encoded_numbers data info t dt Hnum Hk Hok ltac:(lia)) as (buf & fs & [He Hlb] & Ec & Hr).
  fold es in He, Hlb. rewrite <- Hn' in He, Hlb, Ec.
  assert (Hdso : dataset_ok dims cs es buf) by (split; [exact Hd|exact Hex|lia|exact Hlb|rewrite Hlb, Hn'; unfold MaxChunkSize; lia]).
  assert (HN : 0 < nodeBytes (len dims + 1) < 2 ^ 63) by (unfold nodeBytes, chunkBTreeK; lia).
  assert (Hm0 : 0 <= prod (zip_with chunksIn dims cs) * (prod cs * es + 2 * nodeBytes (len dims + 1))) by nia.
  destruct (createChunked_ok Hfirst fw G rest p n g dt dims config info td _ Hfs Hg Hp Hn Hfresh Hroom H256 Hcfg Hinfo Hbase E2 ltac:(lia) Hu Hm0)
    as (a & hsize & fw1 & g' & pad & c & Ecr & Hu1 & Hfs1 & _ & Hsb1 & Ha & Hah & Hhdr). fold cs es in Ecr, Hu1, Hhdr.
  assert (Hmul : mulAll 1 dims = prod dims) by (rewrite mulAll_1; apply u64_id; unfold is_u; nia).
  assert (Hsize : u64 (mulAll 1 dims * es) = len buf) by (rewrite Hmul, Hlb; apply u64_id; unfold is_u; nia).
  rewrite Hsize in Ecr. assert (Hperm : owned (storage fw1) ≡ₚ mkBlock a hsize :: blocksOf (<[norm p := g']> G) ++ rest) by (rewrite (fs_own _ _ _ Hfs1); solve_Permutation).
  assert (Hin : mkBlock a hsize ∈ owned (storage fw1)) by (rewrite Hperm; by left).
  rewrite <- Hsb1 in Hhdr. pose proof (fs_sb _ _ _ Hfs1) as Hsb. set (ms := chunkedMessages td dims (maxDims config) cs es 0 (sblock fw1)) in *.
  assert (Hbody : len (bodyBytes ms) = 35 + len td + rankBytes config dims).
  { unfold ms, chunkedMessages, datasetMessages, rankBytes. cbn [pipelineMessages app]. rewrite !bodyBytes_cons, !len_app, !len_msgBytes. change (len (bodyBytes [])) with 0.
    cbn [snd]. rewrite (len_chunkedBytes cs 0 (sblock fw1) es Hsb), len_dataspaceBytes. lia. }
  assert (Hrb : 0 <= rankBytes config dims <= 6000).
  { unfold rankBytes. pose proof (len_nonneg (maxDims config)). destruct (cc_max _ _ _ Hcfg) as [E0|[E0 _]]; [rewrite E0; change (len (@nil Z)) with 0|]; lia. }
  destruct (storeChunked_ok fw1 a hsize td dims (maxDims config) cs es buf (childPath p n) (tiClass info) pad c Hsb Hdso Hck ltac:(lia) Hu1 Hin Ha ltac:(fold ms; lia) Hhdr)
    as (root & st2 & h2 & c' & Ew & Hch & Hst & Hkeep). fold ms in Hst.
  destruct Hhdr as (Hpad & H255 & _). pose proof (len_padding pad Hpad) as Hlp. pose proof (len_nonneg (bodyBytes pad)) as Hlp0.
  assert (Hall : len (bodyBytes (ms ++ pad)) = len (bodyBytes ms) + len (bodyBytes pad)) by by rewrite bodyBytes_app, len_app.
  eexists _, fw1, h2, (with_storage fw1 st2), fs, td, t, buf, root, pad, (chunkSizeFieldWidth (len (bodyBytes (ms ++ pad)))), c'. rewrite Hts.
  split_and!; [exact Ecr| |exact E3|lia|lia|done|exact Hdso|exact Ec|exact Hr|exact Hsb|exact Hpad| | |exact Hch|exact Hst|].
  - intros ghw. unfold Write. cbn [dsw chunkedHandle dataSize dsClass dtypeSize].
    destruct (Z.eqb_spec (tiClass info) DatatypeVarLen) as [Ev|_]; [exfalso; rewrite Ev in Hclass; by destruct Hclass|].
    rewrite Hlb, He. cbn [obind]. rewrite Hlb, Z.eqb_refl. cbn [negb]. rewrite <- Hlb, Ew. done.
  - intros Hs. specialize (H255 ltac:(lia)). unfold chunkSizeFieldWidth. destruct (Z.leb_spec (len (bodyBytes (ms ++ pad))) 255); lia.
  - intros Hs. unfold chunkSizeFieldWidth. repeat ztest; lia.
  - exists hsize, (blocksOf (<[norm p := g']> G) ++ rest). cbn [dsw chunkedHandle address storage with_storage]. split; [exact Hperm|]. by apply Hkeep.
Qed.

Lemma config_dims_u config dims es : chunked_config config dims es -> Forall (is_u 64) dims /\ Forall (is_u 32) (chunkDims config).
Proof.
  intros Hcfg. pose proof (dims_at _ _ (cc_dims _ _ _ Hcfg)) as Hat. split.
  - eapply Forall2_Forall_l; [exact Hat|]. apply Forall_forall. intros d0 _ x (? & ? & ?). unfold is_u. lia.
  - apply Forall_lookup. intros i x Hx. destruct (Forall2_lookup_r _ _ _ _ _ (cc_le _ _ _ Hcfg) Hx) as (d & Hdi & _ & Hlt32).
    destruct (Forall2_lookup_lr _ _ _ _ _ _ Hat Hdi Hx) as (_ & Hc0 & _). unfold is_u. lia.
Qed.

Lemma chunked_file_ok fw G rest p n g config dims data dt info :
  fresh_link fw G rest p n g -> chunked_values config dims data dt info -> rankBytes config dims <= 200 ->
  usable (storage fw) (chunkedSpace config dims (tiSize info)) ->
  exists h fw1 h2 fw2 fs t buf root, CreateDataset fw (childPath p n) dt dims config = Ret (h, fw1) /\
    (forall ghw, Write h fw1 ghw data = Ret (h2, fw2, ghw)) /\
    chunked_written (contents (storage fw2)) (address (dsw h)) config dims data fs t buf root /\ dtSize t = tiSize info /\
    exists hsize others, owned (storage fw1) ≡ₚ mkBlock (address (dsw h)) hsize :: others /\
      keeps (contents (storage fw1)) (contents (storage fw2)) others.
Proof.
  intros Hl Hv Hs Hu. destruct (chunked_calls_ok fw G rest p n g config dims data dt info Hl Hv Hu)
    as (h & fw1 & h2 & fw2 & fs & td & t & buf & root & pad & w & c & Ec & Ew & Et & Hltd & Hts & Hds & Hfs & Hr & Hsb & Hpad & Hw & _ & Hch & Hst & Hown).
  rewrite (Hw Hs) in Hst. change (4 - 1) with 3 in Hst. rewrite patchedMessages_3 in Hst by done.
  destruct (config_dims_u _ _ _ (cv_config _ _ _ _ _ Hv)) as [Hdu Hcu].
  exists h, fw1, h2, fw2, fs, t, buf, root. split_and!; [exact Ec|exact Ew| |exact Hts|exact Hown].
  constructor; try done; [rewrite Hts; apply Hv|].
  intros fuel sb Hsb' Hver Hlen.
  apply (chunked_described (contents (storage fw2)) (address (dsw h)) td t dims (maxDims config) (chunkDims config) root c (sblock fw1) sb pad buf); try done; try lia.
  - exact (cc_rank _ _ _ (cv_config _ _ _ _ _ Hv)).
  - destruct (cc_max _ _ _ (cv_config _ _ _ _ _ Hv)) as [-> | (? & ? & _)]; [by left|by right].
  - by eapply chunks_stored_root.
Qed.

(** ** Properties *)

(** C5. A chunked dataset of numbers, created without filters, is read back from
    the file, when its object header stays short: 12 bytes for each dimension
    and 8 for each maximum dimension, at most 200 in all (rank up to 16, or 10
    with maximum dimensions); inner dimensions are multiples of the chunk's, no
    chunk is larger than its dimension or [MaxChunkSize], the data not than 1024
    times that. For each such rank, chunk shape and slice of integers (up to
    2^53) or floats, given free space, [CreateDataset] and [Write] return; the
    header, as it is after the address of the index was patched into it,
    describes the dataset; through a superblock with 8-byte little-endian fields
    [ReadDatasetFloat64] returns the numbers written, and [ReadHyperslab] those
    of them at the selected points, for every selection inside the dataset whose
    blocks do not overlap; and every other block of the file is untouched. *)
Theorem chunked_file_roundtrip fw G rest p n g config dims data dt info :
  fresh_link fw G rest p n g -> chunked_values config dims data dt info -> rankBytes config dims <= 200 ->
  usable (storage fw) (chunkedSpace config dims (tiSize info)) ->
  exists h fw1 h2 fw2 fs, CreateDataset fw (childPath p n) dt dims config = Ret (h, fw1) /\
    (forall ghw, Write h fw1 ghw data = Ret (h2, fw2, ghw)) /\ read_as data fs /\
    (let f := contents (storage fw2) in let a := address (dsw h) in
     forall fuel sb, (256 <= fuel)%nat -> sb8 sb -> 0 <= Superblock.Version sb < 4 -> len f < 2 ^ 63 ->
       exists oh, ReadObjectHeader fuel f a sb = Ret oh /\ hType oh = ObjectTypeDataset /\
         ReadDatasetFloat64 fuel f oh sb = Ret fs /\
         forall sel, let axes := axesOf (fillHyperslabDefaults sel (len dims)) in
           inside dims sel -> Forall separate axes -> prod (map extent axes) * tiSize info < 2 ^ 63 ->
           exists out, ReadHyperslab fuel f sb a sel = Ret out /\
             map Some out = map (fun p => fs !! Z.to_nat (lin dims p)) (points axes)) /\
    exists hsize others, owned (storage fw1) ≡ₚ mkBlock (address (dsw h)) hsize :: others /\
      keeps (contents (storage fw1)) (contents (storage fw2)) others.
Proof.
  intros Hl Hv Hs Hu. destruct (chunked_file_ok fw G rest p n g config dims data dt info Hl Hv Hs Hu)
    as (h & fw1 & h2 & fw2 & fs & t & buf & root & Ec & Ew & Hcw & Hts & Hown). destruct Hcw as [Hds Hck Hch Hfs Hr Hdu Hhd].
  exists h, fw1, h2, fw2, fs. split_and!; [exact Ec|exact Ew|exact Hr| |exact Hown].
  cbv zeta. intros fuel sb Hf Hsb Hver Hlen. destruct (Hhd fuel sb Hsb Hver Hlen) as (oh & E & Hty & Hdesc & Hfp).
  set (cs := chunkDims config) in *. set (f := contents (storage fw2)) in *. set (a := address (dsw h)) in *.
  pose proof Hds as [Hok _ Hes Hlb Hmx]. unfold MaxChunkSize in Hmx. destruct (dims_prods dims cs Hok) as (Hpd & _ & _).
  exists oh. split_and!; [exact E|exact Hty| |].
  - pose proof (chunked_reads fuel f sb oh t dims (maxDims config) cs _ root buf Hf Hsb Hds Hck Hch Hdesc Hfp) as Hreads.
    assert (Hmul : mulAll 1 dims = prod dims) by (rewrite mulAll_1; apply u64_id; unfold is_u; nia).
    rewrite (reads_Float64 fuel f oh sb t dims buf Hreads (dims_ne _ _ Hok)) by lia. by rewrite Hmul.
  - intros sel Hin Hsep HT. rewrite <- Hts in HT.
    rewrite (chunked_ReadHyperslab fuel f a sb oh t dims (maxDims config) cs _ root buf Hf Hsb Hds Hck Hch E Hdesc Hdu sel Hin Hsep HT).
    destruct (inside_axes _ _ Hin) as [_ Hax]. apply convert_selected; (done || lia).
Qed.

(** C6. The chunk iterator delivers the whole dataset, for the datasets whose
    chunks are read back: numbers, created without filters, with a short object
    header (twelve bytes for each dimension and eight for each maximum
    dimension, at most 200 in all), every dimension but the first a multiple of
    the chunk's, no chunk larger than its dimension or [MaxChunkSize], and data
    at most 1024 times [MaxChunkSize]. After [CreateDataset] and [Write] of such
    a dataset, [ChunkIteratorWithContext] returns; its loop ends, without an
    error, after exactly as many steps as the grid has chunks, and tells the
    callback each of 1, 2, ..., [Total]; the coordinates it visits are those of
    the grid, each once; and [Chunk] gives at every step the numbers written in
    that chunk's part of the dataset. *)
Theorem iterator_delivers_chunks fw G rest p n g config dims data dt info :
  fresh_link fw G rest p n g -> chunked_values config dims data dt info -> rankBytes config dims <= 200 ->
  usable (storage fw) (chunkedSpace config dims (tiSize info)) ->
  let cs := chunkDims config in let nums := zip_with chunksIn dims cs in let cc := mkCoordinator dims cs nums in
  exists h fw1 h2 fw2 fs, CreateDataset fw (childPath p n) dt dims config = Ret (h, fw1) /\
    (forall ghw, Write h fw1 ghw data = Ret (h2, fw2, ghw)) /\ read_as data fs /\
    let f := contents (storage fw2) in
    forall fuel sb, (256 <= fuel)%nat -> sb8 sb -> 0 <= Superblock.Version sb < 4 -> len f < 2 ^ 63 ->
      exists it, ChunkIteratorWithContext fuel f sb (address (dsw h)) = Ret it /\ Total it = prod nums /\
      exists seen end_, iterate (S (Z.to_nat (Total it))) (OnProgress it true) =
          Some (seen, end_, map (fun i => (i, Total it)) (seqZ 1 (Total it))) /\
        err end_ = None /\ NoDup (map ChunkCoords seen) /\ (forall c, c ∈ map ChunkCoords seen <-> in_box nums c) /\
        Forall (fun i => exists out, Chunk fuel f sb i = Ret out /\
          map Some out = map (fun p => fs !! Z.to_nat (lin dims p))
            (points (boxAxes (corner (ChunkCoords i) cs) (sizeOf cc (ChunkCoords i))))) seen.
Proof.
  intros Hl Hv Hs Hu cs nums cc. destruct (chunked_file_ok fw G rest p n g config dims data dt info Hl Hv Hs Hu)
    as (h & fw1 & h2 & fw2 & fs & t & buf & root & Ec & Ew & [Hds Hck Hch Hfs Hr Hdu Hhd] & Hts & _).
  exists h, fw1, h2, fw2, fs. split_and!; [exact Ec|exact Ew|exact Hr|].
  intros f fuel sb Hf Hsb Hver Hlen. destruct (Hhd fuel sb Hsb Hver Hlen) as (oh & E & _ & Hdesc & _). fold cs in Hds, Hck, Hch, Hdesc. fold f in Hch, E.
  destruct (iterator_made fuel f (address (dsw h)) sb oh t dims (maxDims config) cs _ root buf Hf Hsb Hds Hch E Hdesc)
    as (it & Eit & I1 & I2 & I3 & I4 & I5 & Hnd & Hin & Hln). fold nums in Hin, Hln.
  exists it. split; [exact Eit|]. split; [exact Hln|].
  destruct (iterate_from (OnProgress it true) (length (chunkCoords it)) 0) as (seen & end_ & told & Ei & Hseen & Hsame & He & _ & _ & Ht);
    [exact I5|exact I4|reflexivity|].
  cbn [OnProgress chunkCoords onProgress dataset itChunkDims itDatasetDims] in *. rewrite drop_0 in Hseen.
  assert (Hcoords : map ChunkCoords seen = chunkCoords it).
  { unfold ChunkCoords. rewrite <- (map_map currentCoords (fun o => match o with Ret c => c | _ => [] end)), Hseen, map_map. apply map_id. }
  exists seen, end_. rewrite Hcoords. split_and!; [|exact He|exact Hnd|exact Hin|].
  - unfold Total at 1, len. rewrite Nat2Z.id, Ei, Ht. done.
  - apply Forall_lookup. intros k i Hk. destruct (proj1 (Forall_lookup _ _) Hsame k i Hk) as (S1 & S2 & S3).
    assert (Hc : exists c, currentCoords i = Ret c /\ in_box nums c).
    { assert (Hm : map currentCoords seen !! k = Some (currentCoords i)) by by rewrite list_lookup_fmap, Hk.
      rewrite Hseen, list_lookup_fmap in Hm. destruct (chunkCoords it !! k) as [c|] eqn:Ek; [|done]. injection Hm as Hm.
      exists c. split; [by symmetry|]. apply Hin. by eapply list_elem_of_lookup_2. }
    destruct Hc as (c & Hc & Hbox). assert (Ecc : ChunkCoords i = c) by (unfold ChunkCoords; by rewrite Hc). rewrite Ecc.
    apply (chunk_read fuel f (address (dsw h)) sb oh t dims (maxDims config) cs _ root buf Hf Hsb Hds Hck Hch E Hdesc i c fs); congruence || done.
Qed.

(** C40. The index of a dataset with a long object header is lost: when the messages
    exceed 255 bytes (for numbers, from rank 18 on, or from rank 11 on with maximum
    dimensions) the header's size field has two bytes, but [createChunkedDataset]
    computes the place of the index address for one byte.  Create and write still
    succeed, and chunks and index are in the file at [root]; but whatever a reader
    parses from the layout message of the patched header has address [root / 256]. *)
Theorem long_header_loses_index fw G rest p n g config dims data dt info :
  fresh_link fw G rest p n g -> chunked_values config dims data dt info -> 208 < rankBytes config dims ->
  usable (storage fw) (chunkedSpace config dims (tiSize info)) ->
  exists h fw1 h2 fw2 root buf, CreateDataset fw (childPath p n) dt dims config = Ret (h, fw1) /\
    (forall ghw, Write h fw1 ghw data = Ret (h2, fw2, ghw)) /\
    let f := contents (storage fw2) in
    chunks_stored dims (chunkDims config) (tiSize info) (prod (chunkDims config) * tiSize info) buf None f root /\
    forall fuel sb, sb8 sb -> len f < 2 ^ 63 ->
      exists oh ld, ReadObjectHeader fuel f (address (dsw h)) sb = Ret oh /\ lastMessage MsgDataLayout (hMessages oh) = Some ld /\
        forall layout, ParseDataLayoutMessage ld sb = Ret layout -> DataAddress layout = root / 256.
Proof.
  intros Hl Hv Hs Hu. destruct (chunked_calls_ok fw G rest p n g config dims data dt info Hl Hv Hu)
    as (h & fw1 & h2 & fw2 & fs & td & t & buf & root & pad & w & c & Ec & Ew & Et & Hltd & Hts & Hds & Hfs & Hr & Hsb & Hpad & _ & Hw & Hch & Hst & _).
  exists h, fw1, h2, fw2, root, buf. rewrite <- Hts. split_and!; [exact Ec|exact Ew|]. cbv zeta. split; [exact Hch|].
  intros fuel sb Hsb' Hlen. rewrite (Hw Hs) in Hst. change (4 - 2) with 2 in Hst.
  pose proof (chunks_stored_root _ _ _ _ _ _ _ _ Hch) as Hroot. pose proof (ok_dims _ _ _ _ Hds) as Hd. destruct (len_pos_dims _ _ Hd) as [Hd0 Hlc].
  pose proof (cc_rank _ _ _ (cv_config _ _ _ _ _ Hv)) as Hrk.
  assert (Hmx : 0 <= len (maxDims config) <= len dims).
  { destruct (cc_max _ _ _ (cv_config _ _ _ _ _ Hv)) as [E0|[E0 _]]; [rewrite E0; change (len (@nil Z)) with 0|]; lia. }
  unfold patchedMessages in Hst. rewrite chunkedBytes_early in Hst by done. set (ld := [z2b 3; _; _] ++ _) in *.
  assert (Hld : len ld = 15 + 4 * len dims).
  { subst ld. rewrite !len_app, len_le_put, len_intBytes, len_app. change (len [_; _; _]) with 3. change (len [dtSize t]) with 1. lia. }
  pose proof (len_dataspaceBytes dims (maxDims config)) as Hls.
  destruct (read_dataset_header fuel (contents (storage fw2)) _ sb td _ ld None pad c Hst) as (oh & E & _ & Hfind & _); [| |done|done|].
  - unfold datasetMessages. cbn [pipelineMessages app]. repeat constructor; cbn [fst snd]; rewrite ?Hld, ?Hls; unfold MsgDatatype, MsgDataspace, MsgDataLayout; lia.
  - unfold datasetMessages. cbn [pipelineMessages app]. repeat constructor; cbn [snd]; rewrite ?Hld, ?Hls; lia.
  - exists oh, ld. split; [exact E|]. unfold findMessages in Hfind. destruct (lastMessage MsgDatatype _); [|done].
    destruct (lastMessage MsgDataspace _); [|done]. destruct (lastMessage MsgDataLayout _); [|done]. injection Hfind as _ _ ->.
    split; [done|]. intros layout. by apply parse_early.
Qed.
End file.

(** ** Examples on a new file *)

#[local] Existing Instance Pipeline.storedCodecs.
#[local] Existing Instance Pipeline.storedLaws.
#[local] Instance laws48 : StorageLaws FileWriter := FileWriter_laws 48.

(** The name [d] in the root group of a new file. *)
Lemma new_file_link : exists fw g, CreateForWrite 2 = Ret fw /\ fresh_link fw {[ [] := g ]} [] [] [x64] g /\ usable (storage fw) (2 ^ 61).
Proof.
  destruct (CreateForWrite_ok (2 ^ 61)) as (fw & g & b & h & E & Hfs & Habs & Hu & _); [lia|].
  exists fw, g. split; [exact E|]. split; [|exact Hu].
  constructor; [exact Hfs|reflexivity| | |rewrite Habs; reflexivity|rewrite Habs; vm_compute; congruence|rewrite Habs; vm_compute; reflexivity].
  - split; [by left|]. split; [done|]. by rewrite list_elem_of_singleton.
  - split; [done|]. constructor; [done|constructor].
Qed.

(** Five 16-bit integers in chunks of two. *)
Definition demo_config (cs : list Z) : datasetConfig := mkConfig 0 [] [] [] [] 0 cs None false [].

Lemma demo_values : chunked_values (demo_config [2]) [5] (Int16s [1; -2; 3; -4; 5]) Int16 (plainInfo DatatypeFixed 2 8).
Proof.
  constructor.
  - constructor; [|repeat constructor; vm_compute; congruence|vm_compute; congruence|by left|vm_compute; reflexivity].
    split; [discriminate|repeat constructor; vm_compute; congruence].
  - vm_compute. reflexivity.
  - vm_compute. reflexivity.
  - split; repeat (apply Forall_cons_2; [by vm_compute|]); apply Forall_nil_2.
  - vm_compute. reflexivity.
  - constructor.
  - vm_compute. congruence.
  - vm_compute. congruence.
Qed.

Lemma demo_ranks : chunked_values (demo_config (replicate 18 1)) (replicate 18 1) (Uint8s [x07]) Uint8 (plainInfo DatatypeFixed 1 0).
Proof.
  constructor.
  - constructor; [|repeat constructor; vm_compute; congruence|vm_compute; congruence|by left|vm_compute; reflexivity].
    split; [discriminate|repeat constructor; vm_compute; congruence].
  - vm_compute. reflexivity.
  - vm_compute. reflexivity.
  - split; repeat (apply Forall_cons_2; [by vm_compute|]); apply Forall_nil_2.
  - vm_compute. reflexivity.
  - repeat constructor.
  - vm_compute. congruence.
  - vm_compute. congruence.
Qed.

Lemma file_first : 0 < @first_address _ _ laws48.
Proof. cbn. lia. Qed.

Example chunked_file_roundtrip_witness :
  exists fw h fw1 h2 fw2 fs, CreateForWrite 2 = Ret fw /\
    CreateDataset fw [x2f; x64] Int16 [5] (demo_config [2]) = Ret (h, fw1) /\
    Write h fw1 newGlobalHeapWriter (Int16s [1; -2; 3; -4; 5]) = Ret (h2, fw2, newGlobalHeapWriter) /\
    map SF2Z fs = [Some 1; Some (-2); Some 3; Some (-4); Some 5] /\
    (len (contents (storage fw2)) < 2 ^ 63 -> exists oh, ReadObjectHeader 256 (contents (storage fw2)) (address (dsw h)) demo_sb = Ret oh /\
      ReadDatasetFloat64 256 (contents (storage fw2)) oh demo_sb = Ret fs /\
      exists out, ReadHyperslab 256 (contents (storage fw2)) demo_sb (address (dsw h)) (mkSelection [1] [2] (Some [3]) None) = Ret out /\
        map Some out = [fs !! 1%nat; fs !! 4%nat]).
Proof.
  destruct new_file_link as (fw & g & E & Hl & Hu).
  destruct (@chunked_file_roundtrip FileWriter _ laws48 _ _ file_first fw _ _ _ _ _ (demo_config [2]) [5] (Int16s [1; -2; 3; -4; 5]) Int16 _ Hl demo_values)
    as (h & fw1 & h2 & fw2 & fs & E1 & E2 & E3 & E4 & _); [vm_compute; congruence|eapply usable_mono; [exact Hu|vm_compute; congruence]|].
  exists fw, h, fw1, h2, fw2, fs. split; [exact E|]. split; [exact E1|]. split; [exact (E2 newGlobalHeapWriter)|]. split; [exact E3|].
  intros Hf. destruct (E4 256%nat demo_sb) as (oh & R1 & _ & R2 & R3); [lia|split_and!; reflexivity|cbn; lia|exact Hf|].
  exists oh. split; [exact R1|]. split; [exact R2|].
  destruct (R3 (mkSelection [1] [2] (Some [3]) None)) as (out & R4 & R5); [|constructor; [vm_compute; congruence|constructor]|reflexivity|].
  - demo_inside.
  - exists out. split; [exact R4|]. exact R5.
Defined.

Example iterator_delivers_chunks_witness :
  exists fw h fw1 h2 fw2 fs, CreateForWrite 2 = Ret fw /\
    CreateDataset fw [x2f; x64] Int16 [5] (demo_config [2]) = Ret (h, fw1) /\
    Write h fw1 newGlobalHeapWriter (Int16s [1; -2; 3; -4; 5]) = Ret (h2, fw2, newGlobalHeapWriter) /\
    map SF2Z fs = [Some 1; Some (-2); Some 3; Some (-4); Some 5] /\
    (len (contents (storage fw2)) < 2 ^ 63 ->
      exists it seen end_, ChunkIteratorWithContext 256 (contents (storage fw2)) demo_sb (address (dsw h)) = Ret it /\ Total it = 3 /\
        iterate 4 (OnProgress it true) = Some (seen, end_, [(1, 3); (2, 3); (3, 3)]) /\ [2] ∈ map ChunkCoords seen /\
        Forall (fun i => ChunkCoords i = [2] -> exists out,
          Chunk 256 (contents (storage fw2)) demo_sb i = Ret out /\ map Some out = [fs !! 4%nat]) seen).
Proof.
  destruct new_file_link as (fw & g & E & Hl & Hu).
  destruct (@iterator_delivers_chunks FileWriter _ laws48 _ _ file_first fw _ _ _ _ _ (demo_config [2]) [5] (Int16s [1; -2; 3; -4; 5]) Int16 _ Hl demo_values)
    as (h & fw1 & h2 & fw2 & fs & E1 & E2 & E3 & E4); [vm_compute; congruence|eapply usable_mono; [exact Hu|vm_compute; congruence]|].
  exists fw, h, fw1, h2, fw2, fs. split; [exact E|]. split; [exact E1|]. split; [exact (E2 newGlobalHeapWriter)|]. split; [exact E3|].
  intros Hf. destruct (E4 256%nat demo_sb) as (it & R1 & R2 & seen & end_ & R3 & _ & _ & R4 & R5); [lia|split_and!; reflexivity|cbn; lia|exact Hf|].
  change (Total it = 3) in R2. rewrite R2 in R3. exists it, seen, end_. split; [exact R1|]. split; [exact R2|]. split; [exact R3|]. split.
  - apply R4. constructor; [vm_compute; split; congruence|constructor].
  - eapply Forall_impl; [exact R5|]. intros i (out & S1 & S2) Hi. exists out. split; [exact S1|]. rewrite Hi in S2. exact S2.
Defined.

Example long_header_loses_index_witness :
  exists fw h fw1 h2 fw2 root, CreateForWrite 2 = Ret fw /\
    CreateDataset fw [x2f; x64] Uint8 (replicate 18 1) (demo_config (replicate 18 1)) = Ret (h, fw1) /\
    Write h fw1 newGlobalHeapWriter (Uint8s [x07]) = Ret (h2, fw2, newGlobalHeapWriter) /\
    (len (contents (storage fw2)) < 2 ^ 63 ->
      exists oh ld, ReadObjectHeader 0 (contents (storage fw2)) (address (dsw h)) demo_sb = Ret oh /\
        lastMessage MsgDataLayout (hMessages oh) = Some ld /\
        forall layout, ParseDataLayoutMessage ld demo_sb = Ret layout -> DataAddress layout = root / 256).
Proof.
  destruct new_file_link as (fw & g & E & Hl & Hu).
  destruct (@long_header_loses_index FileWriter _ laws48 _ _ file_first fw _ _ _ _ _ (demo_config (replicate 18 1)) (replicate 18 1) (Uint8s [x07]) Uint8 _ Hl demo_ranks)
    as (h & fw1 & h2 & fw2 & root & buf & E1 & E2 & _ & E3); [vm_compute; congruence|eapply usable_mono; [exact Hu|vm_compute; congruence]|].
  exists fw, h, fw1, h2, fw2, root. split; [exact E|]. split; [exact E1|]. split; [exact (E2 newGlobalHeapWriter)|].
  intros Hf. apply (E3 0%nat demo_sb); [split_and!; reflexivity|exact Hf].
Defined.
