(* ===== verification/Session.v ===== *)
(** * A session on a file: dataset_write.go and group_write.go as a refinement

    What a user of the write API does between [CreateForWrite] and [Close]:
    groups are made, objects linked, unlinked and looked up, datasets created and
    written.  The abstract specification keeps a map of directories (Namespace.v)
    and the list of the datasets with their last contents; [session_ok] says that
    the file represents it. *)

From S2P Require Import Prelude Allocator Storage Chunks Superblock Messages ObjectHeader Datatype Convert Pipeline ChunkedDataset GlobalHeap.
From S2P Require Import LocalHeap GroupTree Groups GroupLaws Namespace DatasetReader DatasetWrite DatasetLaws.

(** ** Specification *)

(** A contiguous dataset: where its object header is, its encoded type, the class
    and element size values are encoded with, its dimensions, its size in bytes and
    the bytes written last. *)
Record dataset := mkDataset {
  dAddr : Z;
  dType : bytes;
  dClass : Z;
  dElem : Z;
  dDims : list Z;
  dSize : Z;
  dContent : option bytes }.

Definition setContent (d : dataset) (buf : bytes) : dataset :=
  mkDataset (dAddr d) (dType d) (dClass d) (dElem d) (dDims d) (dSize d) (Some buf).

(** A type given to [CreateDataset] or to [CreateCompoundDataset]. *)
Inductive typeArg :=
  | Plain (dt : Z) (config : datasetConfig)
  | Compound (t : DatatypeMessage).

(** Element size, class and element size of the values, and the encoding. *)
Definition typeInfo (ty : typeArg) : outcome (Z * Z * Z * outcome bytes) :=
  match ty with
  | Plain dt config =>
      let! info := getDatatypeInfo dt config in
      let '(class, elem) := writerType info in
      Ret (tiSize info, class, elem, encodeType dt info)
  | Compound t =>
      guard dtClass t =? DatatypeCompound else "datatype must be compound";;
      Ret (dtSize t, dtClass t, dtSize t, EncodeDatatypeMessage t)
  end.

Inductive fileOp :=
  | Space (op : nsOp)
  | Create (parent name : bytes) (ty : typeArg) (dims : list Z)
  | Values (i : nat) (data : GoData)
  | Raw (i : nat) (data : bytes).

Abbreviation fileState := (ns * list dataset)%type.

Inductive file_step : fileState -> fileOp -> outcome Z -> fileState -> Prop :=
  | step_space A D op r A' : ns_step A op r A' -> file_step (A, D) (Space op) r (A', D)
  | step_create A D p n ty dims d a size class elem td :
      validateDimensions dims = Ret tt -> typeInfo ty = Ret (size, class, elem, Ret td) ->
      A !! norm p = Some d -> dEntries d !! n = None -> is_u 64 a ->
      file_step (A, D) (Create p n ty dims) (Ret a)
        (<[norm p := addEntry d n a]> A,
         D ++ [mkDataset a td class elem dims (u64 (mulAll 1 dims * size)) None])
  | step_create_dims A D p n ty dims e : validateDimensions dims = Err e ->
      file_step (A, D) (Create p n ty dims) (Err e) (A, D)
  | step_create_type A D p n ty dims e : validateDimensions dims = Ret tt -> typeInfo ty = Err e ->
      file_step (A, D) (Create p n ty dims) (Err e) (A, D)
  | step_values A D i data d buf : D !! i = Some d -> encodeValues (dClass d) (dElem d) (dSize d) data = Ret buf ->
      len buf = dSize d -> file_step (A, D) (Values i data) (Ret 0) (A, <[i := setContent d buf]> D)
  | step_values_bad A D i data d e : D !! i = Some d -> encodeValues (dClass d) (dElem d) (dSize d) data = Err e ->
      file_step (A, D) (Values i data) (Err e) (A, D)
  | step_values_size A D i data d buf : D !! i = Some d -> encodeValues (dClass d) (dElem d) (dSize d) data = Ret buf ->
      len buf <> dSize d -> file_step (A, D) (Values i data) (Err "data size mismatch") (A, D)
  | step_raw A D i data d : D !! i = Some d -> len data = dSize d ->
      file_step (A, D) (Raw i data) (Ret 0) (A, <[i := setContent d data]> D)
  | step_raw_size A D i data d : D !! i = Some d -> len data <> dSize d ->
      file_step (A, D) (Raw i data) (Err "data size mismatch") (A, D).

Inductive file_run : fileState -> list fileOp -> list (outcome Z) -> fileState -> Prop :=
  | frun_nil s : file_run s [] [] s
  | frun_cons s op r s' ops rs s'' : file_step s op r s' -> file_run s' ops rs s'' -> file_run s (op :: ops) (r :: rs) s''.

(** The encoding of the element type that a header message can hold: not empty,
    less than 64 KiB, not of the variable-length class (whose values go through
    the global heap). *)
Definition type_ok (ty : typeArg) (dims : list Z) : Prop :=
  typeInfo ty <> Panic /\
  (forall dt config, ty = Plain dt config -> chunkDims config = [] /\ maxDims config = []) /\
  forall size class elem getType, typeInfo ty = Ret (size, class, elem, getType) ->
    class <> DatatypeVarLen /\ 0 < elem /\ 0 < u64 (mulAll 1 dims * size) /\
    exists td, getType = Ret td /\ 0 < len td < 65536.

Definition fop_ok (s : fileState) (op : fileOp) : Prop :=
  match op with
  | Space op => op_ok s.1 op
  | Create p n ty dims => name_ok n /\ path_ok p n /\ is_Some (s.1 !! norm p) /\ room s.1 p n /\ len dims <= 255 /\
      Forall (is_u 64) dims /\ type_ok ty dims
  | Values i data => exists d, s.2 !! i = Some d /\ goLen data * dElem d < 2 ^ 63
  | Raw i data => is_Some (s.2 !! i)
  end.

Fixpoint fadmissible (s : fileState) (ops : list fileOp) : Prop :=
  match ops with
  | [] => True
  | op :: ops => fop_ok s op /\ forall r s', file_step s op r s' -> fadmissible s' ops
  end.

(** ** The session of the code *)

Record Session (St : Type) := mkSession { sFile : FileW St; sHandles : list Dataset; sHeap : globalHeapWriter }.
Arguments mkSession {St}.
Arguments sFile {St}.
Arguments sHandles {St}.
Arguments sHeap {St}.

Definition with_file {St} (s : Session St) (fw : FileW St) : Session St := mkSession fw (sHandles s) (sHeap s).

Section session.
Context `{Storage St}.

(** The public call an operation stands for; [WriteTo] and [WriteBytes] use the
    dataset writers returned so far. *)
Definition callOp (s : Session St) (op : fileOp) : outcome (Z * Session St) :=
  match op with
  | Space op =>
      match runOp (sFile s) op with
      | (Ret a, fw) => Ret (a, with_file s fw)
      | (Err e, _) => Err e
      | (Panic, _) => Panic
      end
  | Create p n ty dims =>
      let! (ds, fw) :=
        (match ty with
         | Plain dt config => CreateDataset (sFile s) (childPath p n) dt dims config
         | Compound t => CreateCompoundDataset (sFile s) (childPath p n) (Some t) dims emptyConfig
         end) in
      Ret (address (dsw ds), mkSession fw (sHandles s ++ [ds]) (sHeap s))
  | Values i data =>
      match sHandles s !! i with
      | None => Panic
      | Some ds => let! (ds, fw, ghw) := Write ds (sFile s) (sHeap s) data in
                   Ret (0, mkSession fw (<[i := ds]> (sHandles s)) ghw)
      end
  | Raw i data =>
      match sHandles s !! i with
      | None => Panic
      | Some ds => let! (ds, fw) := WriteRaw ds (sFile s) data in
                   Ret (0, mkSession fw (<[i := ds]> (sHandles s)) (sHeap s))
      end
  end.

(** One call; an error leaves the session as it was. *)
Definition runCall (s : Session St) (op : fileOp) : outcome Z * Session St :=
  match callOp s op with
  | Ret (a, s') => (Ret a, s')
  | Err e => (Err e, s)
  | Panic => (Panic, s)
  end.

Fixpoint runCalls (s : Session St) (ops : list fileOp) : list (outcome Z) * Session St :=
  match ops with
  | [] => ([], s)
  | op :: ops =>
      let '(r, s) := runCall s op in
      let '(rs, s) := runCalls s ops in
      (r :: rs, s)
  end.
End session.

(** Bytes of the file an operation takes at most. *)
Definition callSpace (op : fileOp) : Z :=
  match op with
  | Space _ => opSpace
  | Create _ _ ty dims =>
      match typeInfo ty with
      | Ret (size, _, _, _) => u64 (mulAll 1 dims * size) + 69628
      | _ => 0
      end
  | Values _ _ | Raw _ _ => 0
  end.

Definition sessionSpace (ops : list fileOp) : Z := fold_right (fun op n => callSpace op + n) 0 ops.

(** ** Representation *)

(** A dataset, its writer and the size of its object header. *)
Record FD := mkFD { fdSpec : dataset; fdHandle : Dataset; fdHeader : Z }.

Definition fdData (x : FD) : Z := dataAddress (dsw (fdHandle x)).

Definition fdBlocks (x : FD) : list block :=
  [mkBlock (fdData x) (dSize (fdSpec x)); mkBlock (dAddr (fdSpec x)) (fdHeader x)].

Definition fdsBlocks (X : list FD) : list block := X ≫= fdBlocks.

(** The file holds the object header, and the data once written. *)
Record fd_ok (f : bytes) (sb : Superblock) (x : FD) : Prop := {
  fd_handle : exists name, fdHandle x = contiguousHandle (dAddr (fdSpec x)) (fdData x) (dSize (fdSpec x)) (dElem (fdSpec x))
    (dDims (fdSpec x)) name (dClass (fdSpec x));
  fd_class : dClass (fdSpec x) <> DatatypeVarLen;
  fd_elem : 0 < dElem (fdSpec x);
  fd_type : 0 < len (dType (fdSpec x)) < 65536;
  fd_dims : 0 < len (dDims (fdSpec x)) <= 255 /\ Forall (is_u 64) (dDims (fdSpec x));
  fd_size : exists s, dSize (fdSpec x) = u64 (mulAll 1 (dDims (fdSpec x)) * s);
  fd_stored : contiguous_stored f (dAddr (fdSpec x)) (dType (fdSpec x)) (dDims (fdSpec x)) (dSize (fdSpec x)) (fdData x) sb (fdHeader x);
  fd_content buf : dContent (fdSpec x) = Some buf -> len buf = dSize (fdSpec x) /\ stored f (fdData x) buf }.

Section refinement.
Context `{StorageLaws St}.
Hypothesis Hfirst : 0 < first_address.

(** The superblock [CreateForWrite] makes. *)
Definition sb_made (fw : FileW St) : Prop :=
  exists b h, sblock fw = mkSuperblock 2 8 8 0 (rootGroupAddr fw) LittleEndian 0 0 b h.

Record files_ok (s : Session St) (G : gmap bytes FG) (X : list FD) (extra : list block) : Prop := {
  fo_fs : fs_ok (sFile s) G (fdsBlocks X ++ extra);
  fo_handles : sHandles s = map fdHandle X;
  fo_fds : Forall (fd_ok (contents (storage (sFile s))) (sblock (sFile s))) X;
  fo_heap : sHeap s = newGlobalHeapWriter;
  fo_sb : sb_made (sFile s) }.

Lemma sb_made_same fw fw' : sb_made fw -> sblock fw' = sblock fw -> rootGroupAddr fw' = rootGroupAddr fw -> sb_made fw'.
Proof. intros (b & h & E) E1 E2. exists b, h. by rewrite E1, E2. Qed.

Definition abs (G : gmap bytes FG) (X : list FD) : fileState := (group_abs <$> G, map fdSpec X).

Definition session_ok (s : Session St) (a : fileState) : Prop := exists G X extra, files_ok s G X extra /\ a = abs G X.

Lemma fd_ok_keeps f f' sb x : fd_ok f sb x -> keeps f f' (fdBlocks x) -> fd_ok f' sb x.
Proof.
  intros [] Hk. constructor; try done.
  - destruct fd_stored0 as (pad & c & Hp & Hl & Hst). exists pad, c. split; [done|]. split; [done|].
    apply (Hk (mkBlock (dAddr (fdSpec x)) (fdHeader x))); [by right; left|done|done].
  - intros buf Hb. destruct (fd_content0 buf Hb) as [Hl Hst]. split; [done|].
    apply (Hk (mkBlock (fdData x) (dSize (fdSpec x)))); [by left|done|done].
Qed.

Lemma fds_in X x : x ∈ X -> fdBlocks x ⊆ fdsBlocks X.
Proof. intros Hx b Hb. apply list_elem_of_bind. eauto. Qed.

Lemma fds_keeps f f' sb X : Forall (fd_ok f sb) X -> keeps f f' (fdsBlocks X) -> Forall (fd_ok f' sb) X.
Proof.
  rewrite !Forall_forall. intros Hx Hk x Hin. eapply fd_ok_keeps; [by apply Hx|]. eapply keeps_sub; [|exact Hk]. by apply fds_in.
Qed.

Lemma handle_lookup s G X extra i : files_ok s G X extra -> sHandles s !! i = fdHandle <$> X !! i.
Proof. intros [_ -> _ _ _]. apply list_lookup_fmap. Qed.

(** ** The operations *)

Lemma space_ok s G X extra op m : files_ok s G X extra -> op_ok (group_abs <$> G) op -> usable (storage (sFile s)) (opSpace + m) ->
  0 <= m -> exists r s' G' extra', runCall s (Space op) = (r, s') /\ ns_step (group_abs <$> G) op r (group_abs <$> G') /\
    files_ok s' G' X extra' /\ usable (storage (sFile s')) m.
Proof.
  intros [Hfs Hh Hx Hheap Hmade] Hop Hu Hm.
  destruct (fs_runOp Hfirst (sFile s) G _ op m Hfs Hop Hu Hm) as (r & fw' & G' & ex & E & Hs & Hfs' & Hu' & Hk & Hsb & Hra).
  unfold runCall, callOp. rewrite E. assert (Hok : files_ok (with_file s fw') G' X (ex ++ extra)).
  { unfold with_file. constructor; cbn [sFile sHandles sHeap]; [|done| |done|by eapply sb_made_same].
    - constructor; try apply Hfs'. rewrite (fs_own _ _ _ Hfs'). solve_Permutation.
    - rewrite Hsb. eapply fds_keeps; [exact Hx|]. eapply keeps_sub; [|exact Hk]. by apply list_subseteq_app_l. }
  destruct r as [a|e|]; cbn iota.
  - exists (Ret a), (with_file s fw'), G', (ex ++ extra). split_and!; [done|done|exact Hok|exact Hu'].
  - (* an error leaves the writer as it was *)
    assert (fw' = sFile s) as ->. { unfold runOp in E. destruct (match op with Link _ _ _ => _ | _ => _ end) as [[? ?]| |]; by simplify_eq. }
    exists (Err e), s, G', (ex ++ extra). split_and!; [done|done| |exact Hu'].
    destruct s as [fw hs gh]. exact Hok.
  - exfalso. inversion Hs.
Qed.

Lemma validateDimensions_cases dims : (validateDimensions dims = Ret tt /\ 0 < len dims) \/ exists e, validateDimensions dims = Err e.
Proof.
  unfold validateDimensions. pose proof (len_nonneg dims). destruct (Z.eqb_spec (len dims) 0); cbn [negb]; [by right; eexists|].
  destruct (forallb _ dims); [left; split; [done|lia]|by right; eexists].
Qed.

(** What [CreateDataset] and [CreateCompoundDataset] come to. *)
Lemma create_call fw p n ty dims : path_ok p n -> (forall dt config, ty = Plain dt config -> chunkDims config = [] /\ maxDims config = []) ->
  typeInfo ty <> Panic ->
  match ty with
  | Plain dt config => CreateDataset fw (childPath p n) dt dims config
  | Compound t => CreateCompoundDataset fw (childPath p n) (Some t) dims emptyConfig
  end =
  let! _ := validateDimensions dims in
  let! (size, class, elem, getType) := typeInfo ty in
  createContiguous fw (childPath p n) getType size dims class elem.
Proof.
  intros Hp Hc Hnp. pose proof Hp as (_ & Hne & _). destruct (childPath_not_root p n Hne) as [H1 _].
  assert (Hv : validateDatasetName (childPath p n) = Ret tt).
  { unfold validateDatasetName. rewrite bool_decide_false, prefix_child by done. done. }
  destruct ty as [dt config|t].
  - destruct (Hc dt config eq_refl) as [Hc1 Hc2]. unfold CreateDataset. rewrite Hv. cbn [obind].
    destruct (validateDimensions dims); cbn [obind]; try done. rewrite Hc1, Hc2. change (len (@nil Z)) with 0. cbn [Z.gtb Z.compare obind].
    unfold typeInfo. destruct (getDatatypeInfo dt config) as [info|e|]; cbn [obind]; try done. by destruct (writerType info).
  - unfold CreateCompoundDataset. rewrite Hv. cbn [obind]. destruct (validateDimensions dims); cbn [obind]; try done.
    unfold typeInfo. destruct (dtClass t =? DatatypeCompound); cbn [obind]; done.
Qed.

Lemma norm_abs (G : gmap bytes FG) p d : (group_abs <$> G) !! norm p = Some d -> exists g, G !! norm p = Some g /\ group_abs g = d.
Proof. rewrite abs_lookup. destruct (G !! norm p) as [g|]; [|done]. intros [= <-]. by exists g. Qed.

Lemma create_ok s G X extra p n ty dims m : files_ok s G X extra -> fop_ok (abs G X) (Create p n ty dims) ->
  usable (storage (sFile s)) (callSpace (Create p n ty dims) + m) -> 0 <= m ->
  exists r s' G' X', runCall s (Create p n ty dims) = (r, s') /\ file_step (abs G X) (Create p n ty dims) r (abs G' X') /\
    files_ok s' G' X' extra /\ usable (storage (sFile s')) m.
Proof.
  intros Hf (Hn & Hp & [d Hd] & Hroom & Hlen & Hu64 & Hnp & Hcfg & Hty) Hu Hm. pose proof Hf as [Hfs Hh Hx Hheap Hmade].
  unfold abs in *. cbn [fst snd] in *. destruct (norm_abs G p d Hd) as (g & Hg & <-). destruct (Hroom _ Hd) as (R1 & R2 & R3).
  assert (Hsame : forall e, usable (storage (sFile s)) (0 + m) -> file_step (abs G X) (Create p n ty dims) (Err e) (abs G X) ->
    exists r s' G' X', (Err e, s) = (r, s') /\ file_step (abs G X) (Create p n ty dims) r (abs G' X') /\
      files_ok s' G' X' extra /\ usable (storage (sFile s')) m).
  { intros e Hu0 Hs. exists (Err e), s, G, X. split_and!; [done|done|done|by eapply usable_mono; [exact Hu0|lia]]. }
  unfold runCall, callOp. rewrite (create_call _ _ _ _ _ Hp Hcfg Hnp).
  assert (Hpos : 0 <= callSpace (Create p n ty dims)).
  { unfold callSpace. destruct (typeInfo ty) as [[[[sz ?] ?] ?]| |]; try done. pose proof (u64_range (mulAll 1 dims * sz)). unfold is_u in *. lia. }
  destruct (validateDimensions_cases dims) as [[Hv Hl0]|[e Hv]]; rewrite Hv; cbn [obind].
  2:{ apply Hsame; [eapply usable_mono; [exact Hu|lia]|]. by apply step_create_dims. }
  cbn [callSpace] in Hu. destruct (typeInfo ty) as [[[[size class] elem] getType]|e|] eqn:Ety; cbn [obind]; [|by apply Hsame; [|by apply step_create_type]|done].
  destruct (Hty _ _ _ _ eq_refl) as (Hcl & Hel & Hsz & td & -> & Htd).
  destruct (createContiguous_ok Hfirst (sFile s) G _ p n g (Ret td) td size dims class elem m Hfs Hg Hp Hn R1 R2 R3 eq_refl Htd ltac:(lia) Hsz)
    as (a & da & hsz & fw' & g' & -> & Hu' & Hfs' & Habs & Hk & Hsb & Hra & Ha & Hst); [exact Hu|done|]. cbn [obind].
  set (x := mkFD (mkDataset a td class elem dims (u64 (mulAll 1 dims * size)) None)
    (contiguousHandle a da (u64 (mulAll 1 dims * size)) elem dims (childPath p n) class) hsz).
  exists (Ret a), (mkSession fw' (sHandles s ++ [fdHandle x]) (sHeap s)), (<[norm p := g']> G), (X ++ [x]).
  split_and!; [done| | |exact Hu'].
  - unfold abs. rewrite fmap_insert, Habs, map_app. by eapply step_create.
  - constructor; cbn [sFile sHandles sHeap]; [| | |done|by eapply sb_made_same].
    + unfold fdsBlocks. rewrite bind_app. cbn [mbind list_bind]. rewrite app_nil_r. unfold fdBlocks at 2. cbn [fdSpec dSize dAddr fdHeader x].
      change (fdData x) with da. constructor; try apply Hfs'. rewrite (fs_own _ _ _ Hfs'). unfold fdsBlocks. solve_Permutation.
    + by rewrite Hh, map_app.
    + apply Forall_app. split.
      * rewrite Hsb. eapply fds_keeps; [exact Hx|]. eapply keeps_sub; [|exact Hk]. by apply list_subseteq_app_l.
      * apply Forall_singleton. constructor; cbn [fdSpec fdHandle fdHeader x dAddr dSize dElem dDims dClass dType dContent]; try done.
        -- by exists (childPath p n).
        -- by exists size.
        -- by rewrite Hsb.
Qed.

(** Bytes written to dataset [i]. *)
Lemma store_ok s G X extra i x buf m : files_ok s G X extra -> X !! i = Some x -> len buf = dSize (fdSpec x) ->
  usable (storage (sFile s)) m ->
  exists st', storeData (fdHandle x) (sFile s) buf = Ret (fdHandle x, with_storage (sFile s) st') /\ usable st' m /\
    files_ok (mkSession (with_storage (sFile s) st') (<[i := fdHandle x]> (sHandles s)) (sHeap s)) G
      (<[i := mkFD (setContent (fdSpec x) buf) (fdHandle x) (fdHeader x)]> X) extra.
Proof.
  intros [Hfs Hh Hx Hheap Hmade] Hi Hl Hu. pose proof (proj1 (Forall_lookup _ _) Hx i x Hi) as Hxi.
  destruct (fd_handle _ _ _ Hxi) as [name Hhx]. set (rest' := mkBlock (dAddr (fdSpec x)) (fdHeader x) :: fdsBlocks (take i X ++ drop (S i) X) ++ extra).
  assert (Hperm : fdsBlocks X ++ extra ≡ₚ mkBlock (fdData x) (dSize (fdSpec x)) :: rest').
  { unfold rest'. rewrite <- (take_drop_middle X i x Hi) at 1. unfold fdsBlocks. rewrite !bind_app, bind_cons. unfold fdBlocks at 2. solve_Permutation. }
  destruct (storeData_ok Hfirst (sFile s) G _ rest' (fdHandle x) (fdData x) (dSize (fdSpec x)) buf m Hfs Hperm Hu)
    as (st' & E & Hu' & Hfs' & Hst & Hk); [by rewrite Hhx|done|done|].
  exists st'. split_and!; [exact E|exact Hu'|]. constructor; cbn [sFile sHandles sHeap storage sblock with_storage]; [| | |done|by eapply sb_made_same].
  - assert (fdsBlocks (<[i:=mkFD (setContent (fdSpec x) buf) (fdHandle x) (fdHeader x)]> X) = fdsBlocks X) as ->; [|exact Hfs'].
    unfold fdsBlocks. pose proof (lookup_lt_Some _ _ _ Hi). rewrite insert_take_drop by done.
    rewrite <- (take_drop_middle X i x Hi) at 3. rewrite !bind_app, !bind_cons. reflexivity.
  - by rewrite Hh, list_fmap_insert.
  - apply Forall_lookup. intros j y Hj. destruct (decide (i = j)) as [<- |Hne].
    + rewrite list_lookup_insert_eq in Hj by (by eapply lookup_lt_Some). injection Hj as <-.
      destruct Hxi. constructor; cbn [fdSpec fdHandle fdHeader setContent dAddr dSize dElem dDims dClass dType dContent fdData]; try done.
      * destruct fd_stored0 as (pad & c & Hp & Hlh & Hsth). exists pad, c. split; [done|]. split; [done|].
        apply (Hk (mkBlock (dAddr (fdSpec x)) (fdHeader x))); [by left|done|done].
      * intros b [= <-]. split; [done|exact Hst].
    + rewrite list_lookup_insert_ne in Hj by done. eapply fd_ok_keeps; [by apply (proj1 (Forall_lookup _ _) Hx j y)|].
      eapply keeps_sub; [|exact Hk]. unfold rest'. intros b Hb. right. apply elem_of_app. left.
      apply (fds_in _ y); [|exact Hb]. apply elem_of_app. destruct (decide (j < i)%nat).
      * left. apply (list_elem_of_lookup_2 _ j). by rewrite lookup_take_lt.
      * right. apply (list_elem_of_lookup_2 _ (j - S i)). rewrite lookup_drop. rewrite <- Hj. f_equal. lia.
Qed.

(** A dataset's size in bytes. *)
Lemma fd_size_range s G X extra i x m : files_ok s G X extra -> X !! i = Some x -> usable (storage (sFile s)) m ->
  0 < dSize (fdSpec x) < 2 ^ 63 /\ 0 <= fdData x /\ fdData x + dSize (fdSpec x) < 2 ^ 63.
Proof.
  intros [Hfs _ Hx _ _] Hi Hu. assert (Hin : mkBlock (fdData x) (dSize (fdSpec x)) ∈ owned (storage (sFile s))).
  { rewrite (fs_own _ _ _ Hfs). apply elem_of_app. right. apply elem_of_app. left. apply (fds_in _ x); [by eapply list_elem_of_lookup_2|by left]. }
  destruct (owned_range _ _ _ Hu Hin) as (Hr1 & Hr2 & Hr3). unfold bend in Hr3. cbn [Offset Size] in *. lia.
Qed.

Lemma values_ok s G X extra i data m : files_ok s G X extra -> fop_ok (abs G X) (Values i data) -> usable (storage (sFile s)) m ->
  exists r s' X', runCall s (Values i data) = (r, s') /\ file_step (abs G X) (Values i data) r (abs G X') /\
    files_ok s' G X' extra /\ usable (storage (sFile s')) m.
Proof.
  intros Hf (d & Hd & Hlen) Hu. pose proof Hf as [Hfs Hh Hx Hheap Hmade]. unfold abs in *. cbn [snd] in *.
  rewrite list_lookup_fmap in Hd. destruct (X !! i) as [x|] eqn:Ei; [|done]. injection Hd as <-.
  pose proof (proj1 (Forall_lookup _ _) Hx i x Ei) as Hxi. destruct (fd_handle _ _ _ Hxi) as [name Hhx].
  destruct (fd_size_range _ _ _ _ _ _ _ Hf Ei Hu) as (Hsz & _).
  assert (Hl : map fdSpec X !! i = Some (fdSpec x)) by (by rewrite list_lookup_fmap, Ei).
  unfold runCall, callOp. rewrite (handle_lookup _ _ _ _ i Hf), Ei. cbn [fmap option_fmap option_map]. unfold Write.
  assert (Hc1 : dsClass (fdHandle x) = dClass (fdSpec x)) by by rewrite Hhx.
  assert (Hc2 : dtypeSize (dsw (fdHandle x)) = dElem (fdSpec x)) by by rewrite Hhx.
  assert (Hc3 : dataSize (dsw (fdHandle x)) = dSize (fdSpec x)) by by rewrite Hhx.
  rewrite Hc1, Hc2, Hc3. destruct (Z.eqb_spec (dClass (fdSpec x)) DatatypeVarLen) as [Hv|_]; [by destruct (fd_class _ _ _ Hxi)|].
  assert (Hnp := encodeValues_no_panic (dElem (fdSpec x)) (dSize (fdSpec x)) (fd_elem _ _ _ Hxi) ltac:(lia) (dClass (fdSpec x)) data Hlen).
  destruct (encodeValues _ _ _ data) as [buf|e|] eqn:Ee; cbn [obind]; [| |done].
  - destruct (Z.eqb_spec (len buf) (dSize (fdSpec x))) as [Hb|Hb].
    + destruct (store_ok s G X extra i x buf m Hf Ei Hb Hu) as (st' & -> & Hu' & Hf'). cbn [obind].
      eexists _, _, _. split_and!; [reflexivity| |exact Hf'|exact Hu']. rewrite list_fmap_insert. by eapply step_values.
    + exists (Err "data size mismatch"), s, X. split_and!; [done| |done|done]. by eapply step_values_size.
  - exists (Err e), s, X. split_and!; [done| |done|done]. by eapply step_values_bad.
Qed.

Lemma raw_ok s G X extra i data m : files_ok s G X extra -> fop_ok (abs G X) (Raw i data) -> usable (storage (sFile s)) m ->
  exists r s' X', runCall s (Raw i data) = (r, s') /\ file_step (abs G X) (Raw i data) r (abs G X') /\
    files_ok s' G X' extra /\ usable (storage (sFile s')) m.
Proof.
  intros Hf [d Hd] Hu. pose proof Hf as [Hfs Hh Hx Hheap Hmade]. unfold abs in *. cbn [snd] in *.
  rewrite list_lookup_fmap in Hd. destruct (X !! i) as [x|] eqn:Ei; [|done]. injection Hd as <-.
  pose proof (proj1 (Forall_lookup _ _) Hx i x Ei) as Hxi. destruct (fd_handle _ _ _ Hxi) as [name Hhx].
  assert (Hl : map fdSpec X !! i = Some (fdSpec x)) by (by rewrite list_lookup_fmap, Ei).
  unfold runCall, callOp. rewrite (handle_lookup _ _ _ _ i Hf), Ei. cbn [fmap option_fmap option_map]. unfold WriteRaw.
  assert (Hc3 : dataSize (dsw (fdHandle x)) = dSize (fdSpec x)) by by rewrite Hhx.
  rewrite Hc3. destruct (Z.eqb_spec (len data) (dSize (fdSpec x))) as [Hb|Hb].
  - destruct (store_ok s G X extra i x data m Hf Ei Hb Hu) as (st' & -> & Hu' & Hf'). cbn [obind].
    eexists _, _, _. split_and!; [reflexivity| |exact Hf'|exact Hu']. rewrite list_fmap_insert. by eapply step_raw.
  - exists (Err "data size mismatch"), s, X. split_and!; [done| |done|done]. by eapply step_raw_size.
Qed.

Lemma call_ok s G X extra op m : files_ok s G X extra -> fop_ok (abs G X) op -> usable (storage (sFile s)) (callSpace op + m) -> 0 <= m ->
  exists r s' G' X' extra', runCall s op = (r, s') /\ file_step (abs G X) op r (abs G' X') /\
    files_ok s' G' X' extra' /\ usable (storage (sFile s')) m.
Proof.
  intros Hf Hop Hu Hm. destruct op as [op|p n ty dims|i data|i data].
  - destruct (space_ok s G X extra op m Hf Hop Hu Hm) as (r & s' & G' & extra' & E & Hs & Hf' & Hu').
    exists r, s', G', X, extra'. split_and!; [done|by apply step_space|done|done].
  - destruct (create_ok s G X extra p n ty dims m Hf Hop Hu Hm) as (r & s' & G' & X' & ?). by exists r, s', G', X', extra.
  - destruct (values_ok s G X extra i data m Hf Hop Hu) as (r & s' & X' & ?). by exists r, s', G, X', extra.
  - destruct (raw_ok s G X extra i data m Hf Hop Hu) as (r & s' & X' & ?). by exists r, s', G, X', extra.
Qed.

Lemma callSpace_nonneg op : 0 <= callSpace op.
Proof.
  destruct op as [op|p n ty dims|i data|i data]; cbn [callSpace]; [unfold opSpace; lia| |lia..].
  destruct (typeInfo ty) as [[[[sz ?] ?] ?]| |]; try done. pose proof (u64_range (mulAll 1 dims * sz)). unfold is_u in *. lia.
Qed.

Lemma sessionSpace_nonneg ops : 0 <= sessionSpace ops.
Proof. induction ops as [|op ops IH]; [done|]. change (0 <= callSpace op + sessionSpace ops). pose proof (callSpace_nonneg op). lia. Qed.

(** Every admissible sequence of calls behaves as the specification says. *)
Lemma calls_refine ops : forall s G X extra m, files_ok s G X extra -> fadmissible (abs G X) ops ->
  usable (storage (sFile s)) (sessionSpace ops + m) -> 0 <= m ->
  exists rs s' G' X' extra', runCalls s ops = (rs, s') /\ file_run (abs G X) ops rs (abs G' X') /\ files_ok s' G' X' extra' /\
    usable (storage (sFile s')) m.
Proof.
  induction ops as [|op ops IH]; intros s G X extra m Hf Had Hu Hm; cbn [runCalls].
  - exists [], s, G, X, extra. split_and!; [done|constructor|done|exact Hu].
  - destruct Had as [Hop Had]. pose proof (sessionSpace_nonneg ops).
    destruct (call_ok s G X extra op (sessionSpace ops + m) Hf Hop) as (r & s1 & G1 & X1 & ex1 & E & Hs & Hf1 & Hu1);
      [by rewrite Z.add_assoc|lia|].
    destruct (IH s1 G1 X1 ex1 m Hf1 (Had _ _ Hs) Hu1 Hm) as (rs & s2 & G2 & X2 & ex2 & E2 & Hs2 & Hf2 & Hu2).
    rewrite E, E2. exists (r :: rs), s2, G2, X2, ex2. split_and!; [done|by econstructor|done|done].
Qed.

(** ** What a reader finds *)

(** The superblock only gives the sizes and the byte order. *)
Definition with_sblock (fw : FileW St) (sb : Superblock) : FileW St :=
  mkFW (storage fw) sb (rootGroupAddr fw) (rootBTreeAddr fw) (rootHeapAddr fw) (rootStNodeAddr fw) (rootHeaderAllocSz fw) (groups fw).

Lemma contiguousBytes_sb size da sb sb' : sb8 sb -> sb8 sb' -> contiguousBytes size da sb = contiguousBytes size da sb'.
Proof. intros (? & ? & ?) (? & ? & ?). unfold contiguousBytes. congruence. Qed.

(** A written dataset: its header is found, and the readers get its bytes. *)
Lemma fd_readable `{C : Codecs} fuel f sb0 sb x buf t : fd_ok f sb0 x -> sb8 sb0 -> sb8 sb -> 0 <= Superblock.Version sb < 4 ->
  len f < 2 ^ 63 -> dContent (fdSpec x) = Some buf -> ParseDatatypeMessage (dType (fdSpec x)) = Ret t ->
  dSize (fdSpec x) = u64 (mulAll 1 (dDims (fdSpec x)) * dtSize t) ->
  exists oh, ReadObjectHeader fuel f (dAddr (fdSpec x)) sb = Ret oh /\ hType oh = ObjectTypeDataset /\
    dataset_reads fuel f oh sb t (dDims (fdSpec x)) buf.
Proof.
  intros Hx Hsb0 Hsb Hv Hf Hb Ht Hsz. pose proof Hx as []. destruct fd_stored0 as (pad & c & Hpad & _ & Hst). unfold contiguousHeader in Hst.
  rewrite (contiguousBytes_sb _ _ sb0 sb) in Hst by done. destruct fd_dims0 as [Hd Hdu].
  destruct (contiguous_messages_ok (dType (fdSpec x)) (dDims (fdSpec x)) (dSize (fdSpec x)) (fdData x) sb Hsb fd_type0 Hd) as (M1 & M2 & _).
  destruct (read_dataset_header fuel f _ sb _ _ _ None pad c Hst M1 M2 Hpad Hf) as (oh & E & Hty & Hfind & Hl & Hfi & _).
  exists oh. split; [done|]. split; [done|]. destruct (fd_content0 buf Hb) as [Hlen Hstd]. destruct (stored_bounds _ _ _ Hstd).
  pose proof (len_nonneg buf).
  eapply contiguous_reads; [exact Hfind|exact Hl|exact Hfi|done|done|done|exact Ht|done|done|exact Hsz|exact Hstd|done|lia|lia].
Qed.
End refinement.

(** ** From an empty file to a closed one *)

Definition newSession (fw : FileW FileWriter) : Session FileWriter := mkSession fw [] newGlobalHeapWriter.

#[local] Instance laws48 : StorageLaws FileWriter := FileWriter_laws 48.

Lemma first48 : 0 < @first_address _ _ laws48.
Proof. cbn. lia. Qed.

(** The superblock written last is the one a reader gets. *)
Lemma storeSuperblock_reads st sb eof m stale : Superblock.Version sb = 2 -> OffsetSize sb = 8 -> LengthSize sb = 8 ->
  BaseAddress sb = 0 -> SuperExtension sb = 0 -> is_u 64 (RootGroup sb) -> length stale = 128%nat -> usable st m ->
  exists st', storeSuperblock sb st eof = Ret st' /\ usable st' m /\ owned st' = owned st /\
    keeps (contents st) (contents st') (owned st) /\
    ReadSuperblock stale (contents st') = Ret (mkSuperblock 2 8 8 0 (RootGroup sb) LittleEndian MaxUint64 0 0 0).
Proof.
  intros Hv HO HL Hb He Hr Hstale Hu. destruct (storeSuperblock_keeps st sb eof m Hv HO HL Hu) as (st' & E & Hu' & Ho & Hk).
  exists st'. split_and!; [exact E|exact Hu'|exact Ho|exact Hk|].
  destruct (encodeSbV2_ret sb eof HO HL) as (c & _ & _ & Ee). rewrite He in Ee.
  change (undef_if_zero 0) with MaxUint64 in Ee. unfold storeSuperblock in E. rewrite Hv in E.
  cbn [Z.eqb Pos.eqb negb andb] in E. rewrite Ee in E. cbn [obind] in E.
  set (bs := v2_head sb MaxUint64 eof ++ le_put 4 c) in *.
  assert (Hlb : len bs = 48) by (unfold bs; by rewrite len_app, len_v2_head, len_le_put).
  destruct (write_law st m bs 0 Hu ltac:(lia) ltac:(lia)) as (st2 & E2 & _ & _ & Hc). rewrite E in E2. injection E2 as <-.
  rewrite Hc, write_at_0.
  destruct (fillBuffer_prefix stale bs (drop (length bs) (contents st)) Hstale) as (tl & n & Ef & Hn & _); [unfold len in Hlb; lia|].
  rewrite (ReadSuperblock_v2 stale _ _ n sb MaxUint64 eof (le_put 4 c ++ tl) Ef); [by rewrite Hv, Hb|lia| |left; exact Hv|rewrite Hb; unfold is_u; lia|exact Hr|apply MaxUint64_u].
  unfold bs. by rewrite <- app_assoc.
Qed.

Lemma fs_with_sblock (fw : FileW FileWriter) G rest sb : sb8 sb -> fs_ok fw G rest -> fs_ok (with_sblock fw sb) G rest.
Proof. intros Hsb []. constructor; done. Qed.

Lemma session_starts ops : (forall a, fadmissible (newSpace a, []) ops) -> sessionSpace ops < 2 ^ 62 ->
  exists fw0 rs s G X extra, CreateForWrite 2 = Ret fw0 /\ runCalls (newSession fw0) ops = (rs, s) /\
    file_run (newSpace (rootGroupAddr fw0), []) ops rs (abs G X) /\ files_ok s G X extra /\ usable (storage (sFile s)) 0.
Proof.
  intros Had Hsp. pose proof (sessionSpace_nonneg ops).
  destruct (CreateForWrite_ok (sessionSpace ops)) as (fw0 & g & b & h & E & Hfs & Habs & Hu & Hsb); [lia|].
  assert (Ha : abs {[ [] := g ]} [] = (newSpace (rootGroupAddr fw0), [])) by (unfold abs, newSpace; by rewrite map_fmap_singleton, Habs).
  destruct (calls_refine first48 ops (newSession fw0) {[ [] := g ]} [] [] 0) as (rs & s & G & X & extra & E2 & Hrun & Hok & Hu').
  - constructor; [exact Hfs|done|constructor|done|by exists b, h].
  - rewrite Ha. apply Had.
  - cbn [sFile newSession]. by rewrite Z.add_0_r.
  - lia.
  - rewrite Ha in Hrun. exists fw0, rs, s, G, X, extra. split_and!; [exact E|exact E2|exact Hrun|exact Hok|exact Hu'].
Qed.

(** ** Properties *)

(** C1. A session on a new file refines a file system with datasets: whatever
    admissible sequence of links, removals, group creations, look-ups, dataset
    creations and writes is made, every call returns what the specification allows -
    the address of a new object or the code's error, never a panic - and the file
    and the writer's tables then represent the specified directories and datasets. *)
Theorem session_refinement ops : (forall a, fadmissible (newSpace a, []) ops) -> sessionSpace ops < 2 ^ 62 ->
  exists fw0 rs s A, CreateForWrite 2 = Ret fw0 /\ runCalls (newSession fw0) ops = (rs, s) /\
    file_run (newSpace (rootGroupAddr fw0), []) ops rs A /\ session_ok s A.
Proof.
  intros Had Hsp. destruct (session_starts ops Had Hsp) as (fw0 & rs & s & G & X & extra & E1 & E2 & E3 & Hok & _).
  exists fw0, rs, s, (abs G X). split_and!; [exact E1|exact E2|exact E3|]. exists G, X, extra. split; [exact Hok|reflexivity].
Qed.

(** C2. The file a session leaves is readable from its bytes alone: after [Close],
    [ReadSuperblock] finds the root group; every directory of the final state has
    an object header, B-tree and heap from which the reader gets exactly its
    entries, sorted by name; and every dataset that was written has an object header
    from which the readers get its type, its dimensions and the bytes written last. *)
Theorem session_readable `{C : Codecs} ops fuel stale :
  (forall a, fadmissible (newSpace a, []) ops) -> sessionSpace ops < 2 ^ 62 -> length stale = 128%nat ->
  exists fw0 rs s A D st, CreateForWrite 2 = Ret fw0 /\ runCalls (newSession fw0) ops = (rs, s) /\
    file_run (newSpace (rootGroupAddr fw0), []) ops rs (A, D) /\ finishFile (sFile s) (sHeap s) = Ret st /\
    (let f := contents st in len f < 2 ^ 63 -> exists sb root, ReadSuperblock stale f = Ret sb /\
      A !! [] = Some root /\ RootGroup sb = dHeader root /\
      (forall p d, A !! p = Some d ->
        exists oh off ba ha heap es its, ReadObjectHeader fuel f (dHeader d) sb = Ret oh /\ hType oh = ObjectTypeGroup /\
          hMessages oh = [mkMsg MsgSymbolTable off (le_put 8 ba ++ le_put 8 ha) false; mkMsg MsgNil (off + 20) (zeros 221) false] /\
          LoadLocalHeap f ha sb = Ret heap /\ ReadGroupBTreeEntries f ba sb = Ret es /\
          Forall2 (fun e it => GetString heap (LinkNameOffset e) = Ret it.1 /\ ObjectAddress e = ObjectAddress it.2) es its /\
          NoDup (map fst its) /\ StronglySorted item_le its /\ links its = dEntries d) /\
      (forall d buf t, d ∈ D -> dContent d = Some buf -> ParseDatatypeMessage (dType d) = Ret t ->
        dSize d = u64 (mulAll 1 (dDims d) * dtSize t) ->
        exists oh, ReadObjectHeader fuel f (dAddr d) sb = Ret oh /\ hType oh = ObjectTypeDataset /\
          dataset_reads fuel f oh sb t (dDims d) buf)).
Proof.
  intros Had Hsp Hstale. destruct (session_starts ops Had Hsp) as (fw0 & rs & s & G & X & extra & E1 & E2 & E3 & [Hfs Hh Hx Hheap Hmade] & Hu).
  destruct Hmade as (b & h & Esb). 
  assert (Efin : finishFile (sFile s) (sHeap s) =
    storeSuperblock (sblock (sFile s)) (storage (sFile s)) (fwEndOfFile (storage (sFile s)))) by (unfold finishFile; rewrite Hheap; reflexivity).
  destruct (fs_root _ _ _ Hfs) as (g & Hg & Hga & _).
  assert (Hroot : is_u 64 (rootGroupAddr (sFile s))) by (rewrite <- Hga; destruct (fs_groups _ _ _ Hfs _ _ Hg) as (_ & _ & Ho & _); exact Ho).
  destruct (storeSuperblock_reads (storage (sFile s)) (sblock (sFile s)) (fwEndOfFile (storage (sFile s))) 0 stale)
    as (st & E4 & Hu4 & Ho4 & Hk4 & E5); [rewrite Esb; first [reflexivity|exact Hroot]..|exact Hstale|exact Hu|].
  exists fw0, rs, s, (group_abs <$> G), (map fdSpec X), st. split_and!; [exact E1|exact E2|exact E3|rewrite Efin; exact E4|].
  cbv zeta. intros Hlen. set (sb := mkSuperblock 2 8 8 0 (RootGroup (sblock (sFile s))) LittleEndian MaxUint64 0 0 0) in *.
  assert (Hsb8 : sb8 sb) by (split_and!; reflexivity).
  pose proof (fs_with_sblock _ _ _ sb Hsb8 (fs_keeps first48 _ _ _ st Hfs Ho4 Hk4)) as Hfs4.
  exists sb, (group_abs g). split_and!; [exact E5|rewrite abs_lookup, Hg; reflexivity|unfold sb; cbn [RootGroup]; rewrite Esb; symmetry; exact Hga| |].
  - intros p d Hp. set (fw' := with_sblock (with_storage (sFile s) st) sb) in *.
    assert (Hrepr : repr fw' (group_abs <$> G)) by (exists G, (fdsBlocks X ++ extra); split; [exact Hfs4|reflexivity]).
    destruct (repr_readable fuel fw' _ p d Hrepr Hp Hlen)
      as (oh & off & ba & ha & heap & es & R1 & R2 & R3 & _ & _ & R4 & R5 & its & R6 & R7 & R8 & R9).
    exists oh, off, ba, ha, heap, es, its. split_and!; assumption.
  - intros d buf t Hd Hb Ht Hsz. apply list_elem_of_fmap in Hd as (x & -> & Hxin).
    apply (fd_readable fuel (contents st) (sblock (sFile s)) sb x buf t); try assumption.
    + eapply fd_ok_keeps; [by apply (proj1 (Forall_forall _ _) Hx)|]. eapply keeps_sub; [|exact Hk4].
      rewrite (fs_own _ _ _ Hfs). apply list_subseteq_app_r, list_subseteq_app_l. by apply fds_in.
    + rewrite Esb. split_and!; reflexivity.
    + cbn. lia.
Qed.

(** A group, a dataset of two 32-bit integers in it, a write of floats that is
    refused, the integers, and a look-up. *)
Definition demo_calls : list fileOp :=
  [Space (Mkdir [] [x67]); Create [x2f; x67] [x64] (Plain Int32 emptyConfig) [2]; Values 0 (Float64s [0; 0]);
   Values 0 (Int32s [5; -3]); Space (Lookup [x2f; x67] [x64])].

Definition int32Type : bytes := [x10; x08; x00; x00; x04; x00; x00; x00; x00; x00; x20; x00].

Lemma typeInfo_int32 : typeInfo (Plain Int32 emptyConfig) = Ret (4, DatatypeFixed, 4, Ret int32Type).
Proof. vm_compute. reflexivity. Qed.

Lemma demo_names b : b <> x00 -> b <> slash -> name_ok [b] /\ path_ok [x2f; x67] [b] /\ path_ok [] [b].
Proof.
  intros H0 Hs. assert (slash ∉ [b]) by (by rewrite list_elem_of_singleton).
  split; [|split; (split; [first [by left|by right]|done])]. split; [done|]. constructor; [|constructor].
  intros He. apply H0. by apply b2z_inj.
Qed.

Lemma step_space_inv s op r s' : file_step s (Space op) r s' -> ns_step s.1 op r s'.1 /\ s'.2 = s.2.
Proof. intros S. by inversion S; subst. Qed.

Lemma step_create_inv s p n ty dims r s' size class elem td : file_step s (Create p n ty dims) r s' ->
  validateDimensions dims = Ret tt -> typeInfo ty = Ret (size, class, elem, Ret td) ->
  exists a d, s.1 !! norm p = Some d /\ dEntries d !! n = None /\ s' = (<[norm p := addEntry d n a]> s.1,
    s.2 ++ [mkDataset a td class elem dims (u64 (mulAll 1 dims * size)) None]).
Proof.
  intros S Hv Ht. inversion S as [|? ? ? ? ? ? d a ? ? ? ? ? Ht' Hp Hn| ? ? ? ? ? ? ? Hv'| ? ? ? ? ? ? ? ? Ht'| | | | |]; subst; try congruence.
  rewrite Ht in Ht'. injection Ht' as <- <- <- <-. by exists a, d.
Qed.

Lemma step_values_inv s i data d r s' : file_step s (Values i data) r s' -> s.2 !! i = Some d ->
  exists o, s' = (s.1, <[i := mkDataset (dAddr d) (dType d) (dClass d) (dElem d) (dDims d) (dSize d) o]> s.2).
Proof.
  intros S Hd. inversion S; subst; cbn [fst snd] in *; simplify_eq; unfold setContent; [by eexists|exists (dContent d)..];
    destruct d; cbn; by rewrite list_insert_id.
Qed.

Lemma demo_calls_admissible a : fadmissible (newSpace a, []) demo_calls.
Proof.
  destruct (demo_names x67) as (N1 & _ & N2); [done..|]. destruct (demo_names x64) as (N3 & N4 & _); [done..|].
  cbn [fadmissible demo_calls].
  split; [split_and!; [exact N1|exact N2|]; intros d Hd; cbn [fst] in *; ns_simpl; done|].
  intros r1 [A1 D1] [S1 HD1]%step_space_inv. cbn [fst snd] in *. subst D1. inversion S1; subst; ns_simpl.
  split; [cbn [fop_ok fst]; split_and!; [exact N3|exact N4| |intros d' Hd; ns_simpl; done|done|apply Forall_singleton; unfold is_u; lia|]|].
  { exact (ex_intro _ _ eq_refl). }
  { unfold type_ok; split_and!; [by rewrite typeInfo_int32|by intros ? ? [= <- <-]|].
    intros ? ? ? ? E. rewrite typeInfo_int32 in E. injection E as <- <- <- <-. split_and!; [done..|].
    exists int32Type. by split. }
  intros r2 s2 S2. destruct (step_create_inv _ _ _ _ _ _ _ _ _ _ _ S2 eq_refl typeInfo_int32) as (b & d & _ & _ & ->). clear S2.
  split; [eexists; split; [reflexivity|vm_compute; reflexivity]|].
  intros r3 s3 S3. destruct (step_values_inv _ _ _ _ _ _ S3 eq_refl) as (o & ->). clear S3.
  split; [eexists; split; [reflexivity|vm_compute; reflexivity]|].
  intros r4 s4 S4. split; [exact N4|done].
Qed.

Example session_refinement_witness : exists fw0 rs s A, CreateForWrite 2 = Ret fw0 /\ runCalls (newSession fw0) demo_calls = (rs, s) /\
  file_run (newSpace (rootGroupAddr fw0), []) demo_calls rs A /\ session_ok s A.
Proof. apply (session_refinement demo_calls demo_calls_admissible). vm_compute. reflexivity. Defined.

#[local] Existing Instance Pipeline.storedCodecs.

Example session_readable_witness : exists fw0 rs s A D st, CreateForWrite 2 = Ret fw0 /\ runCalls (newSession fw0) demo_calls = (rs, s) /\
  file_run (newSpace (rootGroupAddr fw0), []) demo_calls rs (A, D) /\ finishFile (sFile s) (sHeap s) = Ret st.
Proof.
  destruct (session_readable demo_calls 0 (zeros 128) demo_calls_admissible) as (fw0 & rs & s & A & D & st & E1 & E2 & E3 & E4 & _);
    [vm_compute; reflexivity|reflexivity|]. exists fw0, rs, s, A, D, st. split_and!; assumption.
Defined.

(** The same session, computed: what it returns, and what a reader of the closed
    file gets for the dataset. *)
Example demo_session :
  (let! fw0 := CreateForWrite 2 in
   let '(rs, s) := runCalls (newSession fw0) demo_calls in
   let! st := finishFile (sFile s) (sHeap s) in
   let! sb := ReadSuperblock (zeros 128) (contents st) in
   match rs with
   | [_; Ret a; _; _; _] =>
       let! oh := ReadObjectHeader 0 (contents st) a sb in
       let! fs := ReadDatasetFloat64 0 (contents st) oh sb in
       Ret (rs, map SF2Z fs)
   | _ => Panic
   end) = Ret ([Ret 10304; Ret 10568; Err "unsupported data type"; Ret 0; Ret 10568], [Some 5; Some (-3)]).
Proof. vm_compute. reflexivity. Qed.
