(* ===== verification/OpenFile.v ===== *)
(** * Opening a file: file.go and group.go

    [Open] checks the signature, reads the superblock and loads the tree of
    objects that hang from the root group: links are followed through link
    messages, dense storage or the symbol table, and each object found is a group,
    a dataset or a named datatype.  The addresses of the B-trees whose children
    have been loaded are remembered in the file, so that a cycle ends in an empty
    group.  [Walk] lists the tree with its paths. *)

From Stdlib Require Import SpecFloat.
From S2P Require Import Prelude Allocator Storage Superblock Messages ObjectHeader Datatype Convert Pipeline ChunkedDataset GlobalHeap.
From S2P Require Import LocalHeap GroupTree Groups GroupLaws Namespace DenseStorage Attributes DatasetReader DatasetWrite DatasetLaws Session.
From S2P Require LinkMessages.

(** ** Objects *)

(** The implementations of the interface [Object]. *)
Inductive Object :=
  | GroupObject (name : bytes) (address : Z) (children : list Object) (symbolTable : option SymbolTable) (localHeap : option LocalHeap)
  | DatasetObject (name : bytes) (address : Z)
  | NamedDatatypeObject (name : bytes) (address : Z) (datatype : option DatatypeMessage).

Definition Name (o : Object) : bytes :=
  match o with GroupObject name _ _ _ _ | DatasetObject name _ | NamedDatatypeObject name _ _ => name end.

Definition Children (o : Object) : list Object := match o with GroupObject _ _ children _ _ => children | _ => [] end.

(** [group.name = name], where a name was given. *)
Definition named (name : bytes) (o : Object) : Object :=
  match o with
  | GroupObject old address children st heap => GroupObject (if bool_decide (name = []) then old else name) address children st heap
  | _ => o
  end.

(** ** The addresses seen

    [file.visitedBTrees] keeps what was added to it when a call fails. *)

Definition visit (A : Type) : Type := gset Z -> gset Z * outcome A.
Definition vlift {A} (o : outcome A) : visit A := fun V => (V, o).
Definition vbind {A B} (m : visit A) (k : A -> visit B) : visit B := fun V =>
  match m V with (V, Ret x) => k x V | (V, Err e) => (V, Err e) | (V, Panic) => (V, Panic) end.
(** The error is looked at and dropped. *)
Definition vtry {A} (m : visit A) : visit (option A) := fun V =>
  match m V with (V, Ret x) => (V, Ret (Some x)) | (V, Err _) => (V, Ret None) | (V, Panic) => (V, Panic) end.

Declare Scope visit_scope.
Delimit Scope visit_scope with visit.
Open Scope visit_scope.
Notation "'let^' x := m 'in' k" := (vbind m (fun x => k))
  (at level 10, x name, m at level 100, k at level 200) : visit_scope.
Notation "'let^' ' p := m 'in' k" := (vbind m (fun x => match x with p => k end))
  (at level 10, p strict pattern, m at level 100, k at level 200) : visit_scope.

(** ** Reading headers *)

Definition SignatureSNOD : bytes := snod_sig.

(** The address is converted to int64; a short read gives the empty string. *)
Definition readSignature (file : bytes) (address : Z) : outcome bytes :=
  match read_at file (i64 address) 4 with Ret buf => Ret buf | Err _ => Ret [] | Panic => Panic end.

Section loading.
Variable hfuel : nat.
Variable file : bytes.
Variable sb : Superblock.

(** [core.ReadObjectHeader] with the attributes it parses last, whose errors are
    dropped. *)
Definition readHeader (address : Z) : outcome (ObjectHeader * list Attribute) :=
  let! oh := ReadObjectHeader hfuel file address sb in
  match ParseAttributesFromMessages file (hMessages oh) sb with
  | Ret attributes => Ret (oh, attributes)
  | Err _ => Ret (oh, [])
  | Panic => Panic
  end.

(** The symbol table messages of a header, the last one counts. *)
Fixpoint symbolTableOf (messages : list HeaderMessage) (found : option SymbolTable) : outcome (option SymbolTable) :=
  match messages with
  | [] => Ret found
  | msg :: rest =>
      if (mType msg =? MsgSymbolTable) && (len (mData msg) >=? 16) then
        let! btreeAddr := readU 8 (Endianness sb) (mData msg) 0 in
        let! heapAddr := readU 8 (Endianness sb) (mData msg) 8 in
        symbolTableOf rest (Some (mkTable 1 0 btreeAddr heapAddr))
      else symbolTableOf rest found
  end.

(** The heap of the first symbol table message of the root group. *)
Fixpoint firstHeap (messages : list HeaderMessage) : outcome (option LocalHeap) :=
  match messages with
  | [] => Ret None
  | msg :: rest =>
      if (mType msg =? MsgSymbolTable) && (len (mData msg) >=? 16) then
        let! heapAddr := readU 8 (Endianness sb) (mData msg) 8 in
        let! heap := LoadLocalHeap file heapAddr sb in
        Ret (Some heap)
      else firstHeap rest
  end.

(** ** Loading *)

(** [loadObject] and [loadGroupWithCachedSymbolTable], one call further down. *)
Variable loadObject_ : Z -> bytes -> visit Object.
Variable loadCached_ : Z -> bytes -> Z -> Z -> visit Object.

(** The children of hard links; soft links and children that fail are skipped. *)
Fixpoint linkChildren (messages : list HeaderMessage) : visit (bool * list Object) :=
  match messages with
  | [] => vlift (Ret (false, []))
  | msg :: rest =>
      if mType msg =? MsgLinkMessage then
        let^ linkMsg := vlift (LinkMessages.ParseStructLink (mData msg) sb) in
        if LinkMessages.IsHardLink linkMsg then
          let^ child := vtry (loadObject_ (LinkMessages.sObjectAddress linkMsg) (LinkMessages.sName linkMsg)) in
          let^ '(_, children) := linkChildren rest in
          vlift (Ret (true, match child with Some c => c :: children | None => children end))
        else
          let^ '(_, children) := linkChildren rest in
          vlift (Ret (true, children))
      else linkChildren rest
  end.

(** The same for the objects of a heap; here a message that cannot be parsed is
    skipped too. *)
Fixpoint denseChildren (objects : list bytes) : visit (list Object) :=
  match objects with
  | [] => vlift (Ret [])
  | raw :: rest =>
      match LinkMessages.ParseStructLink raw sb with
      | Panic => vlift Panic
      | Err _ => denseChildren rest
      | Ret linkMsg =>
          if LinkMessages.IsSoftLink linkMsg || negb (LinkMessages.IsHardLink linkMsg) then denseChildren rest
          else
            let^ child := vtry (loadObject_ (LinkMessages.sObjectAddress linkMsg) (LinkMessages.sName linkMsg)) in
            let^ children := denseChildren rest in
            vlift (Ret (match child with Some c => c :: children | None => children end))
      end
  end.

(** The first link info message with dense storage. *)
Fixpoint infoChildren (messages : list HeaderMessage) : visit (option (list Object)) :=
  match messages with
  | [] => vlift (Ret None)
  | msg :: rest =>
      if negb (mType msg =? MsgLinkInfo) then infoChildren rest
      else
        let^ linkInfo := vlift (LinkMessages.ParseLinkInfoMessage (mData msg) sb) in
        if negb (LinkMessages.HasFractalHeap linkInfo) || negb (LinkMessages.HasNameBTree linkInfo) then infoChildren rest
        else
          let^ objects := vlift (ReadDenseHeapObjects file (LinkMessages.NameBTreeAddress linkInfo) (LinkMessages.FractalHeapAddress linkInfo) sb) in
          let^ children := denseChildren objects in
          vlift (Ret (Some children))
  end.

(** The object an entry names, through the cached symbol table where it has one. *)
Definition loadEntry (heap : LocalHeap) (entry : SymbolTableEntry) : visit Object :=
  let^ childName := vlift (GetString heap (LinkNameOffset entry)) in
  if (CacheType entry =? CacheTypeSymbolTable) && negb (CachedBTreeAddr entry =? 0)
  then loadCached_ (ObjectAddress entry) childName (CachedBTreeAddr entry) (CachedHeapAddr entry)
  else loadObject_ (ObjectAddress entry) childName.

Fixpoint loadNodeEntries (heap : LocalHeap) (entries : list SymbolTableEntry) : visit (list Object) :=
  match entries with
  | [] => vlift (Ret [])
  | entry :: rest =>
      if IsSoftLink entry then loadNodeEntries heap rest
      else
        let^ child := loadEntry heap entry in
        let^ children := loadNodeEntries heap rest in
        vlift (Ret (child :: children))
  end.

Fixpoint loadEntries (heap : LocalHeap) (entries : list BTreeEntry) : visit (list Object) :=
  match entries with
  | [] => vlift (Ret [])
  | entry :: rest =>
      if IsSoftLink entry then loadEntries heap rest
      else
        let^ sig := vlift (readSignature file (ObjectAddress entry)) in
        let^ here :=
          (if (LinkNameOffset entry =? 0) && bool_decide (sig = SignatureSNOD) then
             let^ node := vlift (ParseSymbolTableNode file (ObjectAddress entry) sb) in
             loadNodeEntries heap (Entries node)
           else
             let^ child := loadEntry heap entry in vlift (Ret [child])) in
        let^ children := loadEntries heap rest in
        vlift (Ret (here ++ children))
  end.

(** A B-tree that was seen before has no children. *)
Definition loadChildren (table : SymbolTable) : visit (list Object) := fun V =>
  let btreeAddr := BTreeAddress table in
  if bool_decide (btreeAddr ∈ V) then (V, Ret [])
  else
    (let^ heap := vlift (LoadLocalHeap file (HeapAddress table) sb) in
     let^ btreeSig := vlift (readSignature file btreeAddr) in
     let^ entries := vlift
       (if bool_decide (btreeSig = tree_sig) then ReadGroupBTreeEntries file btreeAddr sb
        else if bool_decide (btreeSig = btre_sig) then ReadBTreeEntries file btreeAddr sb
        else Err "unknown B-tree signature") in
     loadEntries heap entries) ({[btreeAddr]} ∪ V).

Definition loadModernGroup (address : Z) : visit Object :=
  let^ '(header, _) := vlift (readHeader address) in
  let name := hName header in
  let isGroup :=
    match hType header with
    | ObjectTypeGroup => true
    | ObjectTypeUnknown => Superblock.Version sb =? 0
    | _ => false
    end in
  if negb isGroup then vlift (Ret (GroupObject name address [] None None))
  else
    let^ '(hasLinks, children) := linkChildren (hMessages header) in
    if hasLinks then vlift (Ret (GroupObject name address children None None))
    else
      let^ dense := infoChildren (hMessages header) in
      match dense with
      | Some children => vlift (Ret (GroupObject name address children None None))
      | None =>
          let^ table := vlift (symbolTableOf (hMessages header) None) in
          let table :=
            match table with
            | Some t => Some t
            | None =>
                if (Superblock.Version sb =? 0) && (address =? RootGroup sb) && negb (RootBTreeAddr sb =? 0) && negb (RootHeapAddr sb =? 0)
                then Some (mkTable 1 0 (RootBTreeAddr sb) (RootHeapAddr sb)) else None
            end in
          match table with
          | None => vlift (Ret (GroupObject name address [] None None))
          | Some t => let^ children := loadChildren t in vlift (Ret (GroupObject name address children (Some t) None))
          end
      end.

Fixpoint loadPlainEntries (heap : LocalHeap) (entries : list SymbolTableEntry) : visit (list Object) :=
  match entries with
  | [] => vlift (Ret [])
  | entry :: rest =>
      if IsSoftLink entry then loadPlainEntries heap rest
      else
        let^ linkName := vlift (GetString heap (LinkNameOffset entry)) in
        let^ child := loadObject_ (ObjectAddress entry) linkName in
        let^ children := loadPlainEntries heap rest in
        vlift (Ret (child :: children))
  end.

(** A symbol table node taken for a group; its names are in the root's heap. *)
Definition loadTraditionalGroup (address : Z) : visit Object :=
  let^ node := vlift (ParseSymbolTableNode file address sb) in
  let^ heap := vlift
    (match readHeader (RootGroup sb) with
     | Ret (rootHeader, _) => firstHeap (hMessages rootHeader)
     | Err _ => Ret None
     | Panic => Panic
     end) in
  match heap with
  | None => vlift (Err "could not find local heap for traditional group")
  | Some heap =>
      let^ children := loadPlainEntries heap (Entries node) in
      vlift (Ret (GroupObject [slash] 0 children None (Some heap)))
  end.

Definition loadGroup (address : Z) : visit Object :=
  if address =? 0 then vlift (Err "invalid group address: 0")
  else
    let^ sig := vlift (readSignature file address) in
    if bool_decide (sig = SignatureSNOD) then loadTraditionalGroup address else loadModernGroup address.

(** The address a node with the single entry [name] stands for. *)
Definition singleEntry (node : SymbolTableNode) (name : bytes) : outcome (option Z) :=
  match Entries node with
  | [entry] =>
      let! (rootHeader, _) := readHeader (RootGroup sb) in
      let! heap := firstHeap (hMessages rootHeader) in
      match heap with
      | None => Ret None
      | Some heap =>
          match GetString heap (LinkNameOffset entry) with
          | Ret linkName => Ret (if bool_decide (linkName = name) then Some (ObjectAddress entry) else None)
          | Err _ => Ret None
          | Panic => Panic
          end
      end
  | _ => Ret None
  end.

(** The type of the first datatype message. *)
Fixpoint firstDatatype (messages : list HeaderMessage) : outcome (option DatatypeMessage) :=
  match messages with
  | [] => Ret None
  | msg :: rest =>
      if mType msg =? MsgDatatype then let! dt := ParseDatatypeMessage (mData msg) in Ret (Some dt) else firstDatatype rest
  end.

Definition loadObjectBody (address : Z) (name : bytes) : visit Object :=
  let^ sig := vlift (readSignature file address) in
  if bool_decide (sig = SignatureSNOD) then
    let^ node := vlift (ParseSymbolTableNode file address sb) in
    let^ single := vlift (singleEntry node name) in
    match single with
    | Some a => loadObject_ a name
    | None => let^ group := loadTraditionalGroup address in vlift (Ret (named name group))
    end
  else
    let^ '(header, _) := vlift (readHeader address) in
    match hType header with
    | ObjectTypeGroup => let^ group := loadGroup address in vlift (Ret (named name group))
    | ObjectTypeDataset => vlift (Ret (DatasetObject name address))
    | ObjectTypeDatatype =>
        let^ datatype := vlift (firstDatatype (hMessages header)) in
        vlift (Ret (NamedDatatypeObject name address datatype))
    | ObjectTypeUnknown =>
        if Superblock.Version sb =? 0 then
          let^ group := vtry (loadGroup address) in
          match group with
          | Some group => vlift (Ret (named name group))
          | None => vlift (Err "unsupported object type")
          end
        else vlift (Err "unsupported object type")
    end.

Definition loadGroupWithCachedSymbolTableBody (address : Z) (name : bytes) (btreeAddr heapAddr : Z) : visit Object :=
  let table := mkTable 1 0 btreeAddr heapAddr in
  let^ children := loadChildren table in
  vlift (Ret (GroupObject name address children (Some table) None)).
End loading.

(** The recursion; [depth] is the depth of the stack. *)
Fixpoint loadObject (depth hfuel : nat) (file : bytes) (sb : Superblock) (address : Z) (name : bytes) : visit Object :=
  match depth with
  | O => vlift Panic
  | S depth => loadObjectBody hfuel file sb (loadObject depth hfuel file sb) (loadGroupWithCachedSymbolTable depth hfuel file sb) address name
  end
with loadGroupWithCachedSymbolTable (depth hfuel : nat) (file : bytes) (sb : Superblock) (address : Z) (name : bytes)
    (btreeAddr heapAddr : Z) : visit Object :=
  match depth with
  | O => vlift Panic
  | S depth => loadGroupWithCachedSymbolTableBody file sb (loadObject depth hfuel file sb) (loadGroupWithCachedSymbolTable depth hfuel file sb)
      address name btreeAddr heapAddr
  end.

(** ** Opening *)

Record File := mkFile { osFile : bytes; fsb : Superblock; root : Object; visitedBTrees : gset Z }.

Definition isHDF5File (file : bytes) : outcome bool :=
  match read_at file 0 8 with
  | Ret buf => Ret (bool_decide (buf = Superblock.signature))
  | Err _ => Ret false
  | Panic => Panic
  end.

(** [stale] is what the pooled buffer of the superblock held. *)
Definition Open (depth hfuel : nat) (stale file : bytes) : outcome File :=
  let! ok := isHDF5File file in
  guard ok else "not an HDF5 file";;
  let! sb := ReadSuperblock stale file in
  guard negb (RootGroup sb >=? len file) else "root group address beyond file size";;
  match loadGroup hfuel file sb (loadObject depth hfuel file sb) (loadGroupWithCachedSymbolTable depth hfuel file sb) (RootGroup sb) ∅ with
  | (V, Ret root) => Ret (mkFile file sb (named [slash] root) V)
  | (_, Err e) => Err e
  | (_, Panic) => Panic
  end.

(** The calls of [fn], in order. *)
Fixpoint walkGroup (g : Object) (currentPath : bytes) : list (bytes * Object) :=
  match g with
  | GroupObject _ _ children _ _ =>
      (currentPath, g) ::
      flat_map (fun child =>
        let childPath := currentPath ++ Name child in
        match child with
        | GroupObject _ _ _ _ _ => walkGroup child (childPath ++ [slash])
        | _ => [(childPath, child)]
        end) children
  | _ => []
  end.

Definition Walk (f : File) : list (bytes * Object) := walkGroup (root f) [slash].

(** ** What objects give

    Each call reads the object header again.  A group without an address has no
    attributes. *)

Definition attributesOf (hfuel : nat) (f : File) (o : Object) : outcome (list Attribute) :=
  match o with
  | GroupObject _ address _ _ _ =>
      if address =? 0 then Ret [] else let! (_, attributes) := readHeader hfuel (osFile f) (fsb f) address in Ret attributes
  | DatasetObject _ address => let! (_, attributes) := readHeader hfuel (osFile f) (fsb f) address in Ret attributes
  | NamedDatatypeObject _ _ _ => Err "no attributes"
  end.

Definition ListAttributes (hfuel : nat) (f : File) (o : Object) : outcome (list bytes) :=
  let! attrs := attributesOf hfuel f o in Ret (map aName attrs).

(** The value of the first attribute of the name. *)
Definition ReadAttribute (hfuel : nat) (f : File) (o : Object) (name : bytes) : outcome attrValue :=
  let! attrs := attributesOf hfuel f o in
  match List.find (fun attr => bool_decide (aName attr = name)) attrs with
  | Some attr => ReadValue hfuel (osFile f) attr
  | None => Err "attribute not found"
  end.

Section reading.
Context `{C : Codecs}.

Definition Read (hfuel : nat) (f : File) (address : Z) : outcome (list spec_float) :=
  let! (header, _) := readHeader hfuel (osFile f) (fsb f) address in
  ReadDatasetFloat64 hfuel (osFile f) header (fsb f).

Definition ReadStrings (hfuel : nat) (f : File) (address : Z) : outcome (list bytes) :=
  let! (header, _) := readHeader hfuel (osFile f) (fsb f) address in
  ReadDatasetStrings hfuel (osFile f) header (fsb f).

Definition ReadCompound (hfuel : nat) (f : File) (address : Z) :=
  let! (header, _) := readHeader hfuel (osFile f) (fsb f) address in
  ReadDatasetCompound hfuel hfuel (osFile f) header (fsb f).

Definition ReadVLenBytes (hfuel : nat) (f : File) (address : Z) :=
  let! (header, _) := readHeader hfuel (osFile f) (fsb f) address in
  ReadDatasetVLenBytes hfuel hfuel (osFile f) header (fsb f).
End reading.

(** ** Headers the library writes *)

Lemma ParseAttributes_none f ms sb : Forall (fun m => mType m <> MsgAttribute /\ mType m <> MsgAttributeInfo) ms ->
  ParseAttributesFromMessages f ms sb = Ret [].
Proof.
  intros H. unfold ParseAttributesFromMessages. assert (firstAttrInfo ms sb = Ret None) as ->.
  { induction H as [|m ms [_ Hm] _ IH]; [done|]. cbn [firstAttrInfo]. by rewrite (proj2 (Z.eqb_neq _ _) Hm). }
  cbn [obind]. assert (compactAttributes ms sb = Ret []) as ->; [|done].
  induction H as [|m ms [Hm _] _ IH]; [done|]. cbn [compactAttributes]. by rewrite (proj2 (Z.eqb_neq _ _) Hm).
Qed.

Lemma readBack_types (P : Z -> Prop) ms : forall off, Forall (fun m : MessageWriter => P m.1) ms -> Forall (fun m => P (mType m)) (readBackMessages off ms).
Proof.
  induction ms as [|[t d] ms IH]; intros off H; [constructor|]. apply Forall_cons in H as [Hm H]. cbn [readBackMessages].
  apply Forall_app. split; [|by apply IH]. destruct (len d =? 0); constructor; [done|constructor].
Qed.

Lemma stored_signature f a sig rest : stored f a (sig ++ rest) -> len sig = 4 -> len f < 2 ^ 63 -> readSignature f a = Ret sig.
Proof.
  intros Hst Hl Hf. destruct (stored_bounds _ _ _ Hst) as [Ha Hb]. rewrite len_app in Hb. pose proof (len_nonneg rest).
  unfold readSignature. rewrite i64_id by lia. rewrite (stored_read f a (sig ++ rest)) by (rewrite ?len_app; done || lia).
  change (Z.to_nat 4) with 4%nat. unfold len in Hl. by rewrite take_app_length' by lia.
Qed.

(** The messages the library writes: no attribute and no reference count. *)
Definition plain_type (t : Z) : Prop := t <> MsgAttribute /\ t <> MsgAttributeInfo /\ t <> MsgRefCount.

Lemma refCountOf_none ms sb c : Forall (fun m => mType m <> MsgRefCount) ms -> refCountOf ms sb c = Ret c.
Proof. induction 1 as [|m ms Hm _ IH]; [done|]. cbn [refCountOf]. by rewrite (proj2 (Z.eqb_neq _ _) Hm). Qed.

(** A header without continuations, attributes or reference count. *)
Lemma readHeader_ok fuel f a sb ms c : stored f a (headBytes (mkHeaderWriter 2 0 ms 0) ++ le_put 4 c) -> Forall msg_ok ms ->
  Forall (fun m : MessageWriter => m.1 <> MsgContinuation) ms ->
  Forall (fun m : MessageWriter => plain_type m.1) ms -> len f < 2 ^ 63 ->
  exists off name, let messages := readBackMessages off ms in
    readHeader fuel f sb a = Ret (mkHeader 2 (flagsOf (mkHeaderWriter 2 0 ms 0)) (determineObjectType messages) messages name 1, []).
Proof.
  intros Hst Hok Hc Ha Hf.
  destruct (ReadObjectHeader_v2 fuel f a sb (mkHeaderWriter 2 0 ms 0) (le_put 4 c)) as (off & name & E);
    [done|done|done|exact Hok|exact Hst|rewrite len_le_put; lia|done|]. cbn [Messages] in E.
  rewrite findContinuations_none in E by (by apply readBack_no_cont). cbn [obind] in E. pose proof (readBack_types plain_type ms off Ha) as Hp.
  assert (Erc : refCountOf (readBackMessages off ms) sb 1 = Ret 1) by (apply refCountOf_none; eapply Forall_impl; [exact Hp|by intros m (_ & _ & ?)]).
  exists off, name. cbv zeta. unfold readHeader.
  assert (ReadObjectHeader fuel f a sb = Ret (mkHeader 2 (flagsOf (mkHeaderWriter 2 0 ms 0)) (determineObjectType (readBackMessages off ms))
    (readBackMessages off ms) name 1)) as ->.
  { rewrite E. destruct fuel; cbn [followContinuations obind]; by rewrite Erc. }
  cbn [obind hMessages]. rewrite ParseAttributes_none; [done|]. eapply Forall_impl; [exact Hp|by intros m (? & ? & _)].
Qed.

(** Messages read back as they were written. *)
Lemma messagesOf_readBack ms : forall off, Forall (fun m : MessageWriter => 0 < len m.2) ms -> map (fun m => (mType m, mData m)) (readBackMessages off ms) = ms.
Proof.
  induction ms as [|[t d] ms IH]; intros off Hm; [done|]. apply Forall_cons in Hm as [Hd Hm]. cbn [snd] in Hd. cbn [readBackMessages].
  rewrite (proj2 (Z.eqb_neq _ 0)) by lia. cbn [app map mType mData]. by rewrite IH.
Qed.

Lemma header_signature f a ms c : stored f a (headBytes (mkHeaderWriter 2 0 ms 0) ++ le_put 4 c) -> len f < 2 ^ 63 ->
  readSignature f a = Ret ohdr_sig.
Proof. intros Hst Hf. unfold headBytes in Hst. rewrite <- !app_assoc in Hst. by eapply stored_signature; [exact Hst| |]. Qed.

(** ** The listing of an abstract state *)

Inductive kind := AGroup (addr : Z) | ADataset (addr : Z) | ANamedDatatype (addr : Z).

Definition kindOf (o : Object) : kind :=
  match o with
  | GroupObject _ a _ _ _ => AGroup a
  | DatasetObject _ a => ADataset a
  | NamedDatatypeObject _ a _ => ANamedDatatype a
  end.

Definition describe (e : bytes * Object) : bytes * kind := (e.1, kindOf e.2).

(** [c] is a directory linked from [p] by its name. *)
Definition subdir (A : ns) (p c : bytes) : Prop := exists n d d',
  A !! p = Some d /\ dEntries d !! n = Some (dHeader d') /\ c = childPath p n /\ A !! c = Some d'.

(** What is listed below [p]: every directory reached, with a slash after its
    path, and every dataset linked from one. *)
Inductive listed (A : ns) (D : list dataset) (p : bytes) : bytes -> kind -> Prop :=
  | listed_group q d : rtc (subdir A) p q -> A !! q = Some d -> listed A D p (q ++ [slash]) (AGroup (dHeader d))
  | listed_dataset q d n x : rtc (subdir A) p q -> A !! q = Some d -> x ∈ D -> dEntries d !! n = Some (dAddr x) ->
      listed A D p (childPath q n) (ADataset (dAddr x)).

(** Every link leads to the directory its path names or to a dataset. *)
Definition linked (A : ns) (D : list dataset) : Prop := forall p d n a, A !! p = Some d -> dEntries d !! n = Some a ->
  (n <> [] /\ slash ∉ n) /\ ((exists d', A !! childPath p n = Some d' /\ dHeader d' = a) \/ exists x, x ∈ D /\ dAddr x = a).

(** *** Paths below a path *)

Definition under (p q : bytes) : Prop := q = p \/ exists r, q = p ++ slash :: r.

Lemma under_trans p q r : under p q -> under q r -> under p r.
Proof.
  intros [-> |[x ->]] [-> |[y ->]]; [by left|right; by exists y|right; by exists x|].
  right. exists (x ++ slash :: y). by rewrite <- app_assoc.
Qed.

Lemma under_child p n : under p (childPath p n).
Proof. right. by exists n. Qed.

Lemma under_child_inj p n m q : slash ∉ n -> slash ∉ m -> under (childPath p n) q -> under (childPath p m) q -> n = m.
Proof.
  intros Hn Hm H1 H2. assert (H : forall n' q', under (childPath p n') q' -> exists r, q' = p ++ slash :: n' ++ r /\ (r = [] \/ head r = Some slash)).
  { intros n' q' [-> |[r ->]]; [exists []; rewrite app_nil_r; by split; [|left]|]. exists (slash :: r). unfold childPath. rewrite <- app_assoc. by split; [|right]. }
  destruct (H _ _ H1) as (r1 & -> & R1), (H _ _ H2) as (r2 & E & R2). apply app_inv_head in E. injection E as E. clear H H1 H2.
  revert m Hm E. induction n as [|b n IH]; intros [|c m] Hm E; [done|..].
  - destruct R1 as [-> |R1]; [done|]. destruct r1 as [|b r1]; [done|]. cbn in R1, E. injection R1 as ->. injection E as <- _. set_solver.
  - destruct R2 as [-> |R2]; [done|]. destruct r2 as [|c r2]; [done|]. cbn in R2, E. injection R2 as ->. injection E as -> _. set_solver.
  - cbn in E. injection E as -> E. f_equal. apply IH; [set_solver|set_solver|done].
Qed.

Lemma length_child p n : n <> [] -> (length p + 2 <= length (childPath p n))%nat.
Proof. intros Hn. unfold childPath. rewrite length_app. destruct n; [done|]. cbn. lia. Qed.

Lemma subdir_under A p q : rtc (subdir A) p q -> under p q.
Proof.
  induction 1 as [p|p c q (n & d & d' & _ & _ & -> & _) _ IH]; [by left|]. eapply under_trans; [apply under_child|exact IH].
Qed.

Lemma listed_under A D p path k : listed A D p path k -> under p path.
Proof.
  intros [q d Hq _|q d n x Hq _ _ _]; (eapply under_trans; [by eapply subdir_under|]); [right; by exists []|apply under_child].
Qed.

(** What one link contributes. *)
Definition item_listed (A : ns) (D : list dataset) (p : bytes) (it : item) (path : bytes) (k : kind) : Prop :=
  (exists d', A !! childPath p it.1 = Some d' /\ dHeader d' = ObjectAddress it.2 /\ listed A D (childPath p it.1) path k) \/
  (exists x, x ∈ D /\ dAddr x = ObjectAddress it.2 /\ path = childPath p it.1 /\ k = ADataset (ObjectAddress it.2)).

Lemma item_listed_under A D p it path k : item_listed A D p it path k -> under (childPath p it.1) path.
Proof. intros [(d' & _ & _ & H)|(x & _ & _ & -> & _)]; [by eapply listed_under|by left]. Qed.

Lemma listed_items A D p d its path k : A !! p = Some d -> NoDup (map fst its) -> links its = dEntries d ->
  listed A D p path k <-> (path = p ++ [slash] /\ k = AGroup (dHeader d)) \/ exists it, it ∈ its /\ item_listed A D p it path k.
Proof.
  intros Hd Hnd Hl.
  assert (Hin : forall n a, dEntries d !! n = Some a -> exists it, it ∈ its /\ it.1 = n /\ ObjectAddress it.2 = a).
  { intros n a Hn. rewrite <- Hl in Hn. destruct (links_Some its n a Hnd Hn) as (i1 & it & i2 & -> & H1 & H2). exists it. split; [set_solver|done]. }
  split.
  - intros [q d0 Hq Hd0|q d0 n x Hq Hd0 Hx Hn].
    + inversion Hq as [|? c ? (n & d1 & d' & E1 & E2 & -> & E3) Hr]; subst; [left; simplify_eq; done|]. simplify_eq.
      destruct (Hin _ _ E2) as (it & Hit & <- & Ha). right. exists it. split; [done|]. left. exists d'. split_and!; [done|done|]. by apply listed_group.
    + inversion Hq as [|? c ? (n1 & d1 & d' & E1 & E2 & -> & E3) Hr]; subst.
      * simplify_eq. destruct (Hin _ _ Hn) as (it & Hit & <- & Ha). right. exists it. split; [done|]. right. exists x. by rewrite Ha.
      * simplify_eq. destruct (Hin _ _ E2) as (it & Hit & <- & Ha). right. exists it. split; [done|]. left. exists d'.
        split_and!; [done|done|]. by eapply listed_dataset.
  - intros [[-> ->]|(it & Hit & [(d' & E1 & E2 & H)|(x & Hx & E & -> & ->)])].
    + by apply listed_group; [apply rtc_refl|].
    + assert (Hs : subdir A p (childPath p it.1)).
      { exists it.1, d, d'. split_and!; [done| |done|done]. rewrite <- Hl, E2. by apply links_lookup. }
      destruct H as [q d0 Hq Hd0|q d0 n x Hq Hd0 Hx Hn]; [apply listed_group|eapply listed_dataset]; try done; by eapply rtc_l.
    + rewrite <- E. eapply listed_dataset; [apply rtc_refl|done|done|]. rewrite <- Hl, E. by apply links_lookup.
Qed.

(** ** Loading what a session wrote *)

Section dfs.
Variable hfuel : nat.
Variable f : bytes.
Variable sb sb0 : Superblock.
Variable G : gmap bytes FG.
Variable X : list FD.
Hypothesis Hf : len f < 2 ^ 63.
Hypothesis Hsb : sb8 sb.
Hypothesis Hsb0 : sb8 sb0.
Hypothesis HG : map_Forall (fun _ => fg_ok f) G.
Hypothesis HX : Forall (fd_ok f sb0) X.
Hypothesis Hzero : map_Forall (fun _ g => gOh g <> 0) G.
Hypothesis Hba : forall p q g g', G !! p = Some g -> G !! q = Some g' -> gBa g = gBa g' -> p = q.
Abbreviation A := (group_abs <$> G).
Abbreviation D := (map fdSpec X).
Hypothesis Hlinked : linked A D.
Abbreviation load depth := (loadObject depth hfuel f sb).
Abbreviation cached depth := (loadGroupWithCachedSymbolTable depth hfuel f sb).

Lemma group_header g : fg_ok f g -> exists off name,
  readHeader hfuel f sb (gOh g) = Ret (mkHeader 2 0 ObjectTypeGroup
    [mkMsg MsgSymbolTable off (le_put 8 (gBa g) ++ le_put 8 (gHa g)) false; mkMsg MsgNil (off + 20) (zeros 221) false] name 1, []) /\
  readSignature f (gOh g) = Ret ohdr_sig.
Proof.
  intros (Hg & _ & _ & c & Hc).
  destruct (readHeader_ok hfuel f (gOh g) sb (Messages (groupHeader (gBa g) (gHa g))) c) as (off & name & E); [exact Hc|..|exact Hf|].
  - repeat constructor; cbn [fst snd]; rewrite ?len_app, ?len_le_put; by vm_compute.
  - by repeat constructor.
  - by repeat constructor.
  - exists off, name. split; [|by eapply header_signature]. cbv zeta in E. cbn [Messages groupHeader readBackMessages] in E.
    rewrite len_app, !len_le_put in E. exact E.
Qed.

Lemma dataset_header x : x ∈ X -> exists oh, readHeader hfuel f sb (dAddr (fdSpec x)) = Ret (oh, []) /\ hType oh = ObjectTypeDataset /\
  readSignature f (dAddr (fdSpec x)) = Ret ohdr_sig.
Proof.
  intros Hx. destruct (proj1 (Forall_forall _ _) HX x Hx) as [_ _ _ fd_type0 fd_dims0 _ fd_stored0 _]. destruct fd_stored0 as (pad & c & Hpad & _ & Hst). unfold contiguousHeader in Hst.
  destruct (contiguous_messages_ok (dType (fdSpec x)) (dDims (fdSpec x)) (dSize (fdSpec x)) (fdData x) sb0 Hsb0 fd_type0 (proj1 fd_dims0)) as (M1 & M2 & _).
  set (ms := datasetMessages _ _ _ _) in *.
  destruct (readHeader_ok hfuel f (dAddr (fdSpec x)) sb (ms ++ pad) c) as (off & name & E); [exact Hst|..|exact Hf|].
  - apply Forall_app. split; [exact M1|by apply padding_ok].
  - unfold ms, datasetMessages. cbn [pipelineMessages]. other_types.
  - unfold ms, datasetMessages. cbn [pipelineMessages]. apply Forall_app. split; [by repeat constructor|].
    destruct Hpad as [-> |(k & _ & ->)]; by repeat constructor.
  - eexists. split; [exact E|]. split; [|by eapply header_signature]. cbn [hType]. unfold ms, datasetMessages in M2 |- *.
    cbn [pipelineMessages app] in M2 |- *. rewrite !Forall_cons in M2. cbn [snd] in M2. destruct M2 as (T1 & T2 & _). cbn [readBackMessages app].
    by rewrite !(proj2 (Z.eqb_neq _ 0)) by lia.
Qed.

Lemma not_both x g : x ∈ X -> fg_ok f g -> dAddr (fdSpec x) <> gOh g.
Proof.
  intros Hx Hg E. destruct (dataset_header x Hx) as (oh & H1 & H2 & _). destruct (group_header g Hg) as (off & nm & H3 & _).
  rewrite E, H3 in H1. by injection H1 as <-.
Qed.

(** The B-tree and the heap of a group. *)
Lemma group_tree g : fg_ok f g -> exists heap,
  LoadLocalHeap f (gHa g) sb = Ret heap /\ readSignature f (gBa g) = Ret tree_sig /\
  ReadGroupBTreeEntries f (gBa g) sb = Ret (map snd (gsItems (gSt g))) /\
  Forall (fun it => GetString heap (LinkNameOffset it.2) = Ret it.1 /\ CacheType it.2 = 0) (gsItems (gSt g)).
Proof.
  intros (Hg & _). pose proof Hsb as (HO & HL & HE). destruct (go_count _ _ _ _ Hg) as [_ H32]. pose proof (go_ba _ _ _ _ Hg).
  eexists. split_and!.
  - apply (LoadLocalHeap_ok _ _ (gsHeapSize (gSt g)) (gsUsed (gSt g))); [done|apply Hg|apply Hg|apply Hg].
  - pose proof (go_tree _ _ _ _ Hg) as Hst. unfold groupNodeBytes in Hst. by eapply stored_signature; [exact Hst| |].
  - rewrite (ReadGroupBTreeEntries_ok f (gBa g) (gsKeys (gSt g)) (gsSnods (gSt g))
      (map (map snd) (chunks (length (gsSnods (gSt g))) (gsItems (gSt g))))); [|done|done|lia|done|apply Hg|apply Hg|].
    + by rewrite <- concat_map, (group_items_chunks _ _ _ _ Hg).
    + rewrite Forall2_fmap_r. eapply Forall2_impl; [apply Hg|]. done.
  - eapply Forall_impl; [apply (go_items _ _ _ _ Hg)|]. intros it Hit. split; [by eapply item_name|].
    destruct Hit as ((_ & _ & ->) & _). reflexivity.
Qed.

(** What is loaded for a link: the calls one level further down behave. *)
Definition loads_item (depth : nat) (p : bytes) (V : gset Z) (it : item) (V' : gset Z) (o : Object) : Prop :=
  load depth (ObjectAddress it.2) it.1 V = (V', Ret o) /\ Name o = it.1 /\
  (forall b, b ∈ V' -> b ∈ V \/ exists q g, under (childPath p it.1) q /\ G !! q = Some g /\ gBa g = b) /\
  let walked := match o with GroupObject _ _ _ _ _ => walkGroup o (childPath p it.1 ++ [slash]) | _ => [(childPath p it.1, o)] end in
  (forall path k, (path, k) ∈ map describe walked <-> item_listed A D p it path k) /\ NoDup (map fst walked).

Definition walkChild (currentPath : bytes) (c : Object) : list (bytes * Object) :=
  match c with
  | GroupObject _ _ _ _ _ => walkGroup c ((currentPath ++ Name c) ++ [slash])
  | _ => [(currentPath ++ Name c, c)]
  end.

Lemma walkGroup_eq nm a ch st h currentPath :
  walkGroup (GroupObject nm a ch st h) currentPath = (currentPath, GroupObject nm a ch st h) :: flat_map (walkChild currentPath) ch.
Proof. reflexivity. Qed.

Lemma entry_step depth heap it es V : GetString heap (LinkNameOffset it.2) = Ret it.1 /\ CacheType it.2 = 0 ->
  readSignature f (ObjectAddress it.2) = Ret ohdr_sig ->
  loadEntries f sb (load depth) (cached depth) heap (it.2 :: es) V =
    vbind (load depth (ObjectAddress it.2) it.1) (fun c => vbind (loadEntries f sb (load depth) (cached depth) heap es)
      (fun cs => vlift (Ret (c :: cs)))) V.
Proof.
  intros [Hn Hc] Hs. cbn [loadEntries]. unfold IsSoftLink. rewrite Hc. cbn [Z.eqb CacheTypeSoftLink]. unfold vbind at 1. cbn [vlift].
  rewrite Hs. rewrite (bool_decide_false (ohdr_sig = SignatureSNOD)) by done. rewrite andb_false_r. unfold loadEntry. rewrite Hn, Hc.
  cbn [Z.eqb CacheTypeSymbolTable andb]. unfold vbind, vlift. destruct (load depth (ObjectAddress it.2) it.1 V) as [V' [o|e|]]; reflexivity.
Qed.

(** The links of a group, one after the other. *)
Lemma entries_ok depth p heap its : forall V, NoDup (map fst its) ->
  Forall (fun it => GetString heap (LinkNameOffset it.2) = Ret it.1 /\ CacheType it.2 = 0) its ->
  Forall (fun it => (slash ∉ it.1) /\ readSignature f (ObjectAddress it.2) = Ret ohdr_sig /\
    forall V, (forall q g, under (childPath p it.1) q -> G !! q = Some g -> gBa g ∉ V) -> exists V' o, loads_item depth p V it V' o) its ->
  (forall it q g, it ∈ its -> under (childPath p it.1) q -> G !! q = Some g -> gBa g ∉ V) ->
  exists V' ch, loadEntries f sb (load depth) (cached depth) heap (map snd its) V = (V', Ret ch) /\
    (forall b, b ∈ V' -> b ∈ V \/ exists it q g, it ∈ its /\ under (childPath p it.1) q /\ G !! q = Some g /\ gBa g = b) /\
    let walked := flat_map (walkChild (p ++ [slash])) ch in
    (forall path k, (path, k) ∈ map describe walked <-> exists it, it ∈ its /\ item_listed A D p it path k) /\ NoDup (map fst walked).
Proof.
  induction its as [|it its IH]; intros V Hnd Hh Hl HV; cbn [map].
  - exists V, []. split; [done|]. split; [by left|]. cbn. split; [|constructor]. intros path k. split; [by intros ?%not_elem_of_nil|].
    by intros (it & ?%not_elem_of_nil & _).
  - apply Forall_cons in Hh as [Hit Hh], Hl as [(Hsl & Hs & Hload) Hl]. cbn [map] in Hnd. apply NoDup_cons in Hnd as [Hnin Hnd].
    rewrite entry_step by done. destruct (Hload V) as (V1 & o & E1 & Hname & HV1 & Hw1 & Hnd1); [intros q g; apply HV; left|].
    destruct (IH V1 Hnd Hh Hl) as (V2 & ch & E2 & HV2 & Hw2 & Hnd2).
    { intros it' q g Hit' Hu Hg Hin. destruct (HV1 _ Hin) as [Hin'|(q' & g' & Hu' & Hg' & Hb)]; [by eapply HV; [right| | |]|].
      pose proof (Hba _ _ _ _ Hg' Hg Hb) as ->. apply Hnin.
      rewrite (under_child_inj p it.1 it'.1 q); [by apply list_elem_of_fmap_2|done| |done|done]. by apply (proj1 (Forall_forall _ _) Hl it'). }
    exists V2, (o :: ch). split; [unfold vbind; rewrite E1, E2; reflexivity|]. split.
    { intros b Hb. destruct (HV2 b Hb) as [Hb1|(it' & q & g & Hit' & Hr)].
      - destruct (HV1 b Hb1) as [?|(q & g & Hr)]; [by left|]. right. exists it, q, g. by split; [left|].
      - right. exists it', q, g. by split; [right|]. }
    cbn [flat_map]. assert (Hwc : walkChild (p ++ [slash]) o =
      match o with GroupObject _ _ _ _ _ => walkGroup o (childPath p it.1 ++ [slash]) | _ => [(childPath p it.1, o)] end).
    { unfold walkChild. rewrite Hname. unfold childPath. rewrite <- (app_assoc p [slash] it.1). cbn [app]. destruct o; reflexivity. }
    rewrite <- Hwc in Hw1, Hnd1. split.
    + intros path k. rewrite map_app, elem_of_app, Hw1, Hw2. split.
      * intros [H|(it' & Hin & H)]; [exists it; by split; [left|]|exists it'; by split; [right|]].
      * intros (it' & [-> |Hin]%elem_of_cons & H); [by left|right; by exists it'].
    + rewrite map_app. apply NoDup_app. split; [done|]. split; [|done]. intros path (e1 & -> & He1)%list_elem_of_fmap (e2 & He & He2)%list_elem_of_fmap.
      assert (I1 : item_listed A D p it e1.1 (kindOf e1.2)) by (apply Hw1; apply list_elem_of_fmap; by exists e1).
      assert (I2 : exists it', it' ∈ its /\ item_listed A D p it' e2.1 (kindOf e2.2)) by (apply Hw2; apply list_elem_of_fmap; by exists e2).
      destruct I2 as (it' & Hin & I2). rewrite <- He in I2. apply Hnin.
      rewrite (under_child_inj p it.1 it'.1 e1.1); [by apply list_elem_of_fmap_2|done| |by eapply item_listed_under..].
      by apply (proj1 (Forall_forall _ _) Hl it').
Qed.

Lemma load_step depth a name V : readSignature f a = Ret ohdr_sig ->
  load (S depth) a name V = vbind (vlift (readHeader hfuel f sb a)) (fun h =>
    match hType h.1 with
    | ObjectTypeGroup => vbind (loadGroup hfuel f sb (load depth) (cached depth) a) (fun g => vlift (Ret (named name g)))
    | ObjectTypeDataset => vlift (Ret (DatasetObject name a))
    | ObjectTypeDatatype => vbind (vlift (firstDatatype (hMessages h.1))) (fun dt => vlift (Ret (NamedDatatypeObject name a dt)))
    | ObjectTypeUnknown =>
        if Superblock.Version sb =? 0 then
          vbind (vtry (loadGroup hfuel f sb (load depth) (cached depth) a)) (fun g =>
            match g with Some group => vlift (Ret (named name group)) | None => vlift (Err "unsupported object type") end)
        else vlift (Err "unsupported object type")
    end) V.
Proof.
  intros Hs. change (load (S depth) a name V) with (loadObjectBody hfuel f sb (load depth) (cached depth) a name V).
  unfold loadObjectBody. unfold vbind at 1. cbn [vlift]. rewrite Hs. rewrite (bool_decide_false (ohdr_sig = SignatureSNOD)) by done.
  unfold vbind, vlift. destruct (readHeader hfuel f sb a) as [[oh at_]|e|]; reflexivity.
Qed.

Lemma group_step depth g V : fg_ok f g -> gOh g <> 0 -> gBa g ∉ V -> exists name heap,
  GroupTree.ReadGroupBTreeEntries f (gBa g) sb = Ret (map snd (gsItems (gSt g))) /\
  Forall (fun it => GetString heap (LinkNameOffset it.2) = Ret it.1 /\ CacheType it.2 = 0) (gsItems (gSt g)) /\
  loadGroup hfuel f sb (load depth) (cached depth) (gOh g) V =
    vbind (loadEntries f sb (load depth) (cached depth) heap (map snd (gsItems (gSt g)))) (fun ch =>
      vlift (Ret (GroupObject name (gOh g) ch (Some (mkTable 1 0 (gBa g) (gHa g))) None))) ({[gBa g]} ∪ V).
Proof.
  intros Hg H0 HV. destruct (group_header g Hg) as (off & name & Eh & Es). destruct (group_tree g Hg) as (heap & E1 & E2 & E3 & E4).
  exists name, heap. split; [exact E3|]. split; [exact E4|]. unfold loadGroup. rewrite (proj2 (Z.eqb_neq _ _) H0).
  unfold vbind at 1. cbn [vlift]. rewrite Es. rewrite (bool_decide_false (ohdr_sig = SignatureSNOD)) by done.
  unfold loadModernGroup. rewrite Eh. unfold vbind at 1. cbn [vlift hType hName hMessages negb linkChildren infoChildren mType Z.eqb Pos.eqb MsgSymbolTable MsgLinkMessage MsgNil MsgLinkInfo].
  unfold vbind at 1. cbn [vlift]. unfold vbind at 1. cbn [vlift]. pose proof Hg as (Hgo & _).
  assert (Et : symbolTableOf sb [mkMsg MsgSymbolTable off (le_put 8 (gBa g) ++ le_put 8 (gHa g)) false; mkMsg MsgNil (off + 20) (zeros 221) false] None =
    Ret (Some (mkTable 1 0 (gBa g) (gHa g)))).
  { cbn [symbolTableOf mType mData Z.eqb Pos.eqb MsgSymbolTable andb]. rewrite len_app, !len_le_put. cbn [andb].
    change (Z.of_nat 8 + Z.of_nat 8 >=? 16) with true. cbn iota. pose proof (go_ba _ _ _ _ Hgo). pose proof (go_ha _ _ _ _ Hgo) as Hha.
    rewrite (proj1 (proj2 Hg)) in Hha.
    destruct Hsb as (_ & _ & ->). rewrite (readU_at 8 _ [] (gBa g) (le_put 8 (gHa g))) by (done || (change (256 ^ Z.of_nat 8) with (2 ^ 64); lia)).
    cbn [obind]. rewrite (readU_at 8 _ (le_put 8 (gBa g)) (gHa g) []) by (rewrite ?app_nil_r, ?len_le_put; done || (change (256 ^ Z.of_nat 8) with (2 ^ 64); lia)).
    reflexivity. }
  unfold vbind at 1. cbn [vlift]. rewrite Et. cbn iota. unfold vbind at 1, loadChildren. cbn [BTreeAddress HeapAddress].
  rewrite bool_decide_false by done. unfold vbind at 1. cbn [vlift]. rewrite E1. unfold vbind at 1. cbn [vlift]. rewrite E2.
  rewrite (bool_decide_true (tree_sig = tree_sig)) by done. unfold vbind at 1. cbn [vlift]. rewrite E3.
  unfold vbind, vlift. destruct (loadEntries _ _ _ _ _ _ _) as [V' [ch|e|]]; reflexivity.
Qed.

Lemma describe_named n o currentPath : map describe (walkGroup (named n o) currentPath) = map describe (walkGroup o currentPath) /\
  map fst (walkGroup (named n o) currentPath) = map fst (walkGroup o currentPath).
Proof. by destruct o. Qed.

(** The tree below a group whose subdirectories have not been seen. *)
Lemma group_ok_loads depth : forall p g V, G !! p = Some g -> (forall q g', under p q -> G !! q = Some g' -> gBa g' ∉ V) ->
  (forall q g', G !! q = Some g' -> (length q < length p + depth)%nat) ->
  exists V' name ch, let o := GroupObject name (gOh g) ch (Some (mkTable 1 0 (gBa g) (gHa g))) None in
    loadGroup hfuel f sb (load depth) (cached depth) (gOh g) V = (V', Ret o) /\
    (forall b, b ∈ V' -> b ∈ V \/ exists q g', under p q /\ G !! q = Some g' /\ gBa g' = b) /\
    (forall path k, (path, k) ∈ map describe (walkGroup o (p ++ [slash])) <-> listed A D p path k) /\
    NoDup (map fst (walkGroup o (p ++ [slash]))).
Proof.
  induction depth as [|depth IH]; intros p g V Hg HV Hdep; [specialize (Hdep p g Hg); lia|].
  pose proof (HG p g Hg) as Hok. destruct (group_step (S depth) g V Hok (Hzero p g Hg)) as (name & heap & _ & Hh & ->).
  { apply (HV p); [by left|done]. }
  assert (HA : A !! p = Some (group_abs g)) by (rewrite abs_lookup, Hg; done).
  assert (Hin : forall it, it ∈ gsItems (gSt g) -> dEntries (group_abs g) !! it.1 = Some (ObjectAddress it.2)).
  { intros it Hit. apply (links_lookup (gsItems (gSt g)) it); [apply Hok|done]. }
  destruct (entries_ok (S depth) p heap (gsItems (gSt g)) ({[gBa g]} ∪ V)) as (V' & ch & E & HV' & Hw & Hnd); [apply Hok|exact Hh| | |].
  - apply Forall_forall. intros it Hit. destruct (Hlinked p _ _ _ HA (Hin it Hit)) as [[Hne Hsl] [(d' & Hd' & Ha)|(x & Hx & Ha)]].
    + rewrite abs_lookup in Hd'. destruct (G !! childPath p it.1) as [gc|] eqn:Ec; [|done]. injection Hd' as <-. cbn [group_abs dHeader] in Ha.
      pose proof (HG _ _ Ec) as Hokc. destruct (group_header gc Hokc) as (off & nm & Eh & Es). split; [done|]. split; [by rewrite <- Ha|].
      intros V0 HV0. destruct (IH (childPath p it.1) gc V0 Ec HV0) as (V1 & nm1 & ch1 & E1 & HV1 & Hw1 & Hnd1).
      { intros q g' Hq. pose proof (Hdep q g' Hq). pose proof (length_child p it.1 Hne). lia. }
      exists V1, (named it.1 (GroupObject nm1 (gOh gc) ch1 (Some (mkTable 1 0 (gBa gc) (gHa gc))) None)).
      destruct (describe_named it.1 (GroupObject nm1 (gOh gc) ch1 (Some (mkTable 1 0 (gBa gc) (gHa gc))) None) (childPath p it.1 ++ [slash])) as [D1 D2].
      unfold loads_item. cbv zeta. split_and!.
      * rewrite <- Ha, load_step by done. rewrite Eh. unfold vbind at 1. cbn [vlift fst hType]. unfold vbind. by rewrite E1.
      * cbn [named Name]. by rewrite bool_decide_false.
      * exact HV1.
      * intros path k. change (match named _ _ with GroupObject _ _ _ _ _ => _ | _ => _ end) with (walkGroup (named it.1 (GroupObject nm1 (gOh gc) ch1 (Some (mkTable 1 0 (gBa gc) (gHa gc))) None)) (childPath p it.1 ++ [slash])).
        rewrite D1, Hw1. split; [intros H; left; exists (group_abs gc); by rewrite abs_lookup, Ec|].
        intros [(d' & _ & _ & H)|(x & Hx & Hax & _)]; [done|]. exfalso. apply list_elem_of_fmap in Hx as (y & -> & Hy).
        apply (not_both y gc Hy Hokc). by rewrite Hax, Ha.
      * change (match named _ _ with GroupObject _ _ _ _ _ => _ | _ => _ end) with (walkGroup (named it.1 (GroupObject nm1 (gOh gc) ch1 (Some (mkTable 1 0 (gBa gc) (gHa gc))) None)) (childPath p it.1 ++ [slash])).
        by rewrite D2.
    + apply list_elem_of_fmap in Hx as (y & -> & Hy). destruct (dataset_header y Hy) as (oh & Eh & Et & Es). split; [done|]. split; [by rewrite <- Ha|].
      intros V0 _. exists V0, (DatasetObject it.1 (dAddr (fdSpec y))). unfold loads_item. cbv zeta. split_and!.
      * rewrite <- Ha, load_step by done. rewrite Eh. unfold vbind at 1. cbn [vlift fst]. by rewrite Et.
      * done.
      * by left.
      * intros path k. cbn [map]. rewrite list_elem_of_singleton. unfold describe. cbn [fst snd kindOf]. split.
        -- intros [= -> ->]. right. exists (fdSpec y). rewrite Ha. split_and!; [by apply list_elem_of_fmap_2|done..].
        -- intros [(d' & Hd' & Ha' & _)|(x & _ & _ & -> & ->)]; [|by rewrite Ha]. exfalso. rewrite abs_lookup in Hd'.
           destruct (G !! childPath p it.1) as [gc|] eqn:Ec; [|done]. injection Hd' as <-. apply (not_both y gc Hy (HG _ _ Ec)). by rewrite Ha, <- Ha'.
      * cbn. constructor; [apply not_elem_of_nil|constructor].
  - intros it q g' Hit Hu Hq. apply not_elem_of_union. split.
    + intros Hb%elem_of_singleton. pose proof (Hba _ _ _ _ Hq Hg Hb) as ->.
      destruct (Hlinked p _ _ _ HA (Hin it Hit)) as [[Hne _] _]. pose proof (length_child p it.1 Hne).
      destruct Hu as [Hu|[r Hu]]; apply (f_equal length) in Hu; rewrite ?length_app in Hu; lia.
    + apply (HV q g'); [|done]. eapply under_trans; [apply under_child|exact Hu].
  - exists V', name, ch. cbv zeta. split_and!.
    + unfold vbind. by rewrite E.
    + intros b Hb. destruct (HV' b Hb) as [[Hb'%elem_of_singleton|Hb']%elem_of_union|(it & q & g' & _ & Hu & Hr)].
      * right. exists p, g. by split; [left|].
      * by left.
      * right. exists q, g'. split; [|done]. eapply under_trans; [apply under_child|exact Hu].
    + intros path k. rewrite walkGroup_eq. cbn [map]. rewrite elem_of_cons, Hw.
      rewrite (listed_items A D p (group_abs g) (gsItems (gSt g)) path k HA) by (done || apply Hok). unfold describe at 1. cbn [fst snd kindOf].
      split; (intros [H|H]; [left|by right]); [injection H as -> ->; done|destruct H as [-> ->]; done].
    + rewrite walkGroup_eq. cbn [map fst]. apply NoDup_cons. split; [|done]. intros (e & Ee & He)%list_elem_of_fmap.
      assert (I : exists it, it ∈ gsItems (gSt g) /\ item_listed A D p it e.1 (kindOf e.2)) by (apply Hw; apply list_elem_of_fmap; by exists e).
      destruct I as (it & Hit & I). apply item_listed_under in I. destruct (Hlinked p _ _ _ HA (Hin it Hit)) as [[Hne _] _].
      rewrite <- Ee in I. pose proof (length_child p it.1 Hne). destruct I as [I|[r I]]; apply (f_equal length) in I; rewrite ?length_app in I; cbn in I; lia.
Qed.
End dfs.

(** ** Sessions without hard links *)

(** No object is linked a second time, and no path has two slashes in a row. *)
Definition plain_call (op : fileOp) : Prop :=
  match op with
  | Space (Link _ _ _) => False
  | Space (Mkdir p _) | Create p _ _ _ => p <> [slash]
  | _ => True
  end.

Lemma norm_plain p : p <> [slash] -> norm p = p.
Proof.
  intros Hp. unfold norm, is_root. rewrite (bool_decide_false (p = [slash])) by done. rewrite orb_false_r.
  by destruct (bool_decide_reflect (p = [])) as [-> |].
Qed.

Lemma childPath_inj p n q m : n <> [] -> slash ∉ n -> m <> [] -> slash ∉ m -> childPath p n = childPath q m -> p = q /\ n = m.
Proof.
  intros Hn Hn' Hm Hm' E. pose proof (parsePath_child p n Hn Hn') as H1. rewrite E, (parsePath_child q m Hm Hm') in H1. by injection H1 as -> ->.
Qed.

(** More or other entries under the same headers. *)
Lemma linked_insert A D D' p d n a : linked A D -> A !! p = Some d -> (forall x, x ∈ D -> exists y, y ∈ D' /\ dAddr y = dAddr x) ->
  n <> [] -> slash ∉ n ->
  ((exists d', (<[p := addEntry d n a]> A) !! childPath p n = Some d' /\ dHeader d' = a) \/ exists x, x ∈ D' /\ dAddr x = a) ->
  linked (<[p := addEntry d n a]> A) D'.
Proof.
  intros Hl Hp HD Hn Hsl Hnew q e m b He Hm.
  assert (Hold : forall e0, A !! q = Some e0 -> dEntries e0 !! m = Some b -> (m <> [] /\ slash ∉ m) /\
    ((exists d', (<[p := addEntry d n a]> A) !! childPath q m = Some d' /\ dHeader d' = b) \/ exists x, x ∈ D' /\ dAddr x = b)).
  { intros e0 H0 Hb. destruct (Hl q e0 m b H0 Hb) as [Hm' [(d' & Hd' & <-)|(x & Hx & <-)]]; (split; [done|]).
    - left. destruct (decide (p = childPath q m)) as [-> |Hne]; [|exists d'; by rewrite lookup_insert_ne].
      eexists. rewrite lookup_insert_eq. split; [done|]. cbn. congruence.
    - right. destruct (HD x Hx) as (y & Hy & <-). by exists y. }
  destruct (decide (p = q)) as [<- |Hne].
  - rewrite lookup_insert_eq in He. injection He as <-. cbn [addEntry dEntries] in Hm. destruct (decide (n = m)) as [<- |Hnm].
    + rewrite lookup_insert_eq in Hm. injection Hm as <-. split; [done|exact Hnew].
    + rewrite lookup_insert_ne in Hm by done. by eapply Hold.
  - rewrite lookup_insert_ne in He by done. by eapply Hold.
Qed.

Lemma linked_fresh A D c a u : linked A D -> (forall q d m b, A !! q = Some d -> dEntries d !! m = Some b -> childPath q m <> c) ->
  linked (<[c := mkDir a ∅ u]> A) D.
Proof.
  intros Hl Hc q e m b He Hm. destruct (decide (c = q)) as [<- |Hne].
  - rewrite lookup_insert_eq in He. injection He as <-. cbn in Hm. by rewrite lookup_empty in Hm.
  - rewrite lookup_insert_ne in He by done. destruct (Hl q e m b He Hm) as [Hm' [(d' & Hd' & <-)|Hd]]; (split; [done|]); [left|by right].
    exists d'. split; [|done]. rewrite lookup_insert_ne; [done|]. intros E. exact (Hc q e m _ He Hm (eq_sym E)).
Qed.

Lemma linked_content A D D' : linked A D -> map dAddr D' = map dAddr D -> linked A D'.
Proof.
  intros Hl E q e m b He Hm. destruct (Hl q e m b He Hm) as [Hm' [Hd|(x & Hx & <-)]]; (split; [done|]); [by left|right].
  apply (list_elem_of_fmap_2 dAddr) in Hx. change (dAddr <$> D) with (map dAddr D) in Hx. rewrite <- E in Hx.
  apply list_elem_of_fmap in Hx as (y & -> & Hy). by exists y.
Qed.

Lemma step_linked s op r s' : file_step s op r s' -> fop_ok s op -> plain_call op -> linked s.1 s.2 -> linked s'.1 s'.2.
Proof.
  intros Hs Hop Hplain Hl. destruct Hs as [A D op r A' Hs|A D p n ty dims d a size class elem td _ _ Hd Hn Ha| | |A D i data d buf Hd| | |A D i data d Hd|];
    cbn [fst snd] in *; try done.
  - destruct Hs as [A p n a d|A p n a|A p n d a Hd Hn|A p n d|A p n|A p n d a Hd Hn Ha|A p n|A p n d a|A p n d|A p n]; try done.
    + (* unlink *) intros q e m b He Hm. assert (Hold : exists e0, A !! q = Some e0 /\ dEntries e0 !! m = Some b).
      { destruct (decide (norm p = q)) as [<- |Hne]; [|rewrite lookup_insert_ne in He by done; by exists e].
        rewrite lookup_insert_eq in He. injection He as <-. cbn [dEntries] in Hm. apply lookup_delete_Some in Hm as [_ Hm]. by exists d. }
      destruct Hold as (e0 & He0 & Hm0). destruct (Hl q e0 m b He0 Hm0) as [Hm' [(d' & Hd' & <-)|Hx]]; (split; [done|]); [left|by right].
      destruct (decide (norm p = childPath q m)) as [E|Hne]; [|exists d'; by rewrite lookup_insert_ne].
      rewrite E, lookup_insert_eq. eexists. split; [done|]. cbn. congruence.
    + (* mkdir *) cbn [fop_ok op_ok fst] in Hop. destruct Hop as ((Hn0 & _) & (_ & _ & Hsl) & _). cbn in Hplain. rewrite (norm_plain p Hplain) in *.
      pose proof (length_child p n Hn0) as Hlen. assert (Hne : childPath p n <> p) by (intros E; rewrite E in Hlen; lia).
      apply (linked_insert _ D); [|by rewrite lookup_insert_ne|by intros x Hx; exists x|done|done|].
      * apply linked_fresh; [done|]. intros q e m b He Hm E. destruct (Hl q e m b He Hm) as [[Hm1 Hm2] _].
        destruct (childPath_inj q m p n Hm1 Hm2 Hn0 Hsl E) as [-> ->]. congruence.
      * left. rewrite lookup_insert_ne by done. rewrite lookup_insert_eq. by eexists.
  - cbn [fop_ok fst snd] in Hop. destruct Hop as ((Hn0 & _) & (_ & _ & Hsl) & _). cbn in Hplain. rewrite (norm_plain p Hplain) in *.
    apply (linked_insert _ D); [done|done| |done|done|].
    + intros x Hx. exists x. split; [apply elem_of_app; by left|done].
    + right. eexists. split; [apply elem_of_app; right; by apply list_elem_of_singleton|done].
  - eapply linked_content; [exact Hl|]. rewrite list_fmap_insert. apply list_insert_id. by rewrite list_lookup_fmap, Hd.
  - eapply linked_content; [exact Hl|]. rewrite list_fmap_insert. apply list_insert_id. by rewrite list_lookup_fmap, Hd.
Qed.

Lemma run_linked s ops rs s' : file_run s ops rs s' -> fadmissible s ops -> Forall plain_call ops -> linked s.1 s.2 -> linked s'.1 s'.2.
Proof.
  induction 1 as [s|s op r s1 ops rs s2 Hs Hr IH]; intros Had Hp Hl; [done|]. apply Forall_cons in Hp as [Hp Hps]. destruct Had as [Hop Had].
  apply IH; [by eapply Had|done|]. by eapply step_linked.
Qed.

Lemma linked_new a : linked (newSpace a) [].
Proof.
  intros p d n b Hp Hn. unfold newSpace in Hp. apply lookup_singleton_Some in Hp as [_ <-]. cbn [dEntries] in Hn. by rewrite lookup_empty in Hn.
Qed.

(** ** Properties *)

Lemma isHDF5File_ok stale f sb : length stale = 128%nat -> ReadSuperblock stale f = Ret sb -> isHDF5File f = Ret true.
Proof.
  intros Hs E. unfold ReadSuperblock, fillBuffer in E. set (n := take 128 f) in *. pose proof (len_nonneg f).
  assert (Hn : len n = Z.min 128 (len f)) by (unfold n; by rewrite len_take).
  destruct (Z.ltb_spec (len n) 48); cbn [negb obind] in E; [done|].
  assert (Ef : f = take 8 f ++ drop 8 f) by (by rewrite take_drop). assert (Hl8 : len (take 8 f) = 8) by (rewrite len_take; lia).
  assert (En : n = take 8 f ++ drop 8 n) by (unfold n; rewrite <- (take_drop 8 (take 128 f)) at 1; by rewrite take_take).
  rewrite (slice_at _ [] (take 8 f) (drop 8 n ++ drop (length n) (take 128 stale))) in E; [|rewrite En at 1; by rewrite <- app_assoc|done|done].
  cbn [obind] in E. destruct (bool_decide_reflect (take 8 f = signature)) as [Esig|]; [|done].
  unfold isHDF5File. rewrite read_at_ret by lia. unfold sub. change (Z.to_nat 0) with 0%nat. rewrite drop_0. change (Z.to_nat 8) with 8%nat.
  rewrite Esig. by rewrite bool_decide_true.
Qed.

#[local] Existing Instance Session.laws48.

(** Two groups have different B-trees; no header is at address 0. *)
Lemma fs_distinct (fw : FileW FileWriter) G rest n : fs_ok fw G rest -> usable (storage fw) n ->
  (forall p q g g', G !! p = Some g -> G !! q = Some g' -> gBa g = gBa g' -> p = q) /\ map_Forall (fun _ g => gOh g <> 0) G.
Proof.
  intros Hfs Hu. split.
  - intros p q g g' Hp Hq E. destruct (decide (p = q)) as [|Hne]; [done|]. exfalso. pose proof (fs_own _ _ _ Hfs) as Ho.
    rewrite (blocksOf_delete G p g Hp) in Ho. assert (Hq' : delete p G !! q = Some g') by (by rewrite lookup_delete_ne).
    rewrite (blocksOf_delete (delete p G) q g' Hq') in Ho.
    assert (Hd : exists rest', owned (storage fw) ≡ₚ mkBlock (gBa g) 544 :: mkBlock (gBa g') 544 :: rest').
    { exists (mkBlock (gOh g) 256 :: mkBlock (gHa g) (32 + gsHeapSize (gSt g)) :: map snodBlock (gsSnods (gSt g)) ++
        mkBlock (gOh g') 256 :: mkBlock (gHa g') (32 + gsHeapSize (gSt g')) :: map snodBlock (gsSnods (gSt g')) ++ blocksOf (delete q (delete p G)) ++ rest).
      rewrite Ho. unfold gBlocks, groupBlocks. cbn [app]. rewrite <- !app_assoc. cbn [app]. solve_Permutation. }
    destruct Hd as [rest' Hd]. pose proof (owned_disjoint _ _ _ _ Hu Hd) as Hdis. apply Forall_cons in Hdis as [Hdis _]. clear Hd. rename Hdis into Hd. rewrite E in Hd. unfold disjoint_blocks, bend in Hd. cbn [Offset Size] in Hd. lia.
  - intros p g Hp E. assert (Hin : mkBlock (gOh g) 256 ∈ owned (storage fw)).
    { rewrite (fs_own _ _ _ Hfs). apply elem_of_app. left. apply (in_blocksOf first48 G p g Hp). by left. }
    pose proof (owned_from _ _ _ Hu Hin) as Ho. cbn [Offset] in Ho. pose proof first48. lia.
Qed.

(** C3. Opening what a session wrote: after any admissible calls that make no
    hard links, the closed file is accepted by [Open], and [Walk] lists exactly
    the directories and datasets that can be reached from the root by their links,
    each once, with its path, its kind and the address of its object header. *)
Theorem open_lists_session ops depth hfuel stale :
  (forall a, fadmissible (newSpace a, []) ops) -> Forall plain_call ops -> sessionSpace ops < 2 ^ 62 -> length stale = 128%nat ->
  exists fw0 rs s A D st, CreateForWrite 2 = Ret fw0 /\ runCalls (newSession fw0) ops = (rs, s) /\
    file_run (newSpace (rootGroupAddr fw0), []) ops rs (A, D) /\ finishFile (sFile s) (sHeap s) = Ret st /\
    (len (contents st) < 2 ^ 63 -> (forall p d, A !! p = Some d -> (length p < depth)%nat) ->
      exists file, Open depth hfuel stale (contents st) = Ret file /\
        (forall path k, (path, k) ∈ map describe (Walk file) <-> listed A D [] path k) /\
        NoDup (map fst (Walk file))).
Proof.
  intros Had Hplain Hsp Hstale. destruct (session_starts ops Had Hsp) as (fw0 & rs & s & G & X & extra & E1 & E2 & E3 & [Hfs Hh Hx Hheap Hmade] & Hu).
  destruct Hmade as (b & h & Esb).
  assert (Efin : finishFile (sFile s) (sHeap s) =
    storeSuperblock (sblock (sFile s)) (storage (sFile s)) (fwEndOfFile (storage (sFile s)))) by (unfold finishFile; rewrite Hheap; reflexivity).
  destruct (fs_root _ _ _ Hfs) as (g & Hg & Hga & _).
  assert (Hroot : is_u 64 (rootGroupAddr (sFile s))) by (rewrite <- Hga; destruct (fs_groups _ _ _ Hfs _ _ Hg) as (_ & _ & Ho & _); exact Ho).
  destruct (storeSuperblock_reads (storage (sFile s)) (sblock (sFile s)) (fwEndOfFile (storage (sFile s))) 0 stale)
    as (st & E4 & Hu4 & Ho4 & Hk4 & E5); [rewrite Esb; first [reflexivity|exact Hroot]..|exact Hstale|exact Hu|].
  exists fw0, rs, s, (group_abs <$> G), (map fdSpec X), st. split_and!; [exact E1|exact E2|exact E3|rewrite Efin; exact E4|].
  intros Hlen Hdepth. set (sb := mkSuperblock 2 8 8 0 (RootGroup (sblock (sFile s))) LittleEndian MaxUint64 0 0 0) in *.
  assert (Hsb8 : sb8 sb) by (split_and!; reflexivity).
  pose proof (fs_with_sblock _ _ _ sb Hsb8 (fs_keeps first48 _ _ _ st Hfs Ho4 Hk4)) as Hfs4.
  destruct (fs_distinct _ _ _ 0 Hfs4 Hu4) as [Hba Hzero]. pose proof (fs_groups _ _ _ Hfs4) as HG. cbn [storage with_sblock with_storage] in HG.
  assert (HX : Forall (fd_ok (contents st) (sblock (sFile s))) X).
  { eapply fds_keeps; [exact Hx|]. eapply keeps_sub; [|exact Hk4]. rewrite (fs_own _ _ _ Hfs). by apply list_subseteq_app_r, list_subseteq_app_l. }
  assert (Hsb0 : sb8 (sblock (sFile s))) by (rewrite Esb; split_and!; reflexivity).
  assert (Hlinked : linked (group_abs <$> G) (map fdSpec X)).
  { apply (run_linked _ _ _ _ E3 (Had _) Hplain), linked_new. }
  destruct (group_ok_loads hfuel (contents st) sb (sblock (sFile s)) G X Hlen Hsb8 Hsb0 HG HX Hzero Hba Hlinked depth [] g ∅ Hg)
    as (V & name & ch & E & _ & Hw & Hnd); [by intros q g' _ _; apply not_elem_of_empty| |].
  { intros q g' Hq. cbn [length]. apply (Hdepth q (group_abs g')). by rewrite abs_lookup, Hq. }
  set (o := GroupObject name (gOh g) ch _ None) in *. exists (mkFile (contents st) sb (named [slash] o) V).
  assert (Hr : RootGroup sb = gOh g) by (unfold sb; cbn [RootGroup]; rewrite Esb; symmetry; exact Hga).
  split; [|unfold Walk; cbn [root]; destruct (describe_named [slash] o [slash]) as [D1 D2]; split; [intros path k; rewrite D1; apply Hw|rewrite D2; exact Hnd]].
  unfold Open. rewrite (isHDF5File_ok stale _ sb Hstale E5). cbn [obind]. rewrite E5. cbn [obind].
  assert (Hlt : gOh g < len (contents st)).
  { destruct (HG _ _ Hg) as (_ & _ & _ & c & Hc). destruct (stored_bounds _ _ _ Hc) as [_ Hb]. rewrite len_app, len_groupHeader, len_le_put in Hb. lia. }
  rewrite Hr. destruct (Z.geb_spec (gOh g) (len (contents st))); [lia|]. cbn [negb obind]. by rewrite E.
Qed.

Lemma demo_plain : Forall plain_call demo_calls.
Proof. repeat constructor; cbn [plain_call]; done. Qed.

Example open_lists_session_witness : exists fw0 rs s A D st, CreateForWrite 2 = Ret fw0 /\ runCalls (newSession fw0) demo_calls = (rs, s) /\
  file_run (newSpace (rootGroupAddr fw0), []) demo_calls rs (A, D) /\ finishFile (sFile s) (sHeap s) = Ret st.
Proof.
  destruct (open_lists_session demo_calls 8 0 (zeros 128) demo_calls_admissible demo_plain) as (fw0 & rs & s & A & D & st & E1 & E2 & E3 & E4 & _);
    [vm_compute; reflexivity|reflexivity|]. exists fw0, rs, s, A, D, st. split_and!; assumption.
Defined.

(** The same session, computed. *)
Example demo_walk :
  (let! fw0 := CreateForWrite 2 in
   let '(rs, s) := runCalls (newSession fw0) demo_calls in
   let! st := finishFile (sFile s) (sHeap s) in
   let! file := Open 8 0 (zeros 128) (contents st) in
   Ret (map describe (Walk file))) =
  Ret [([x2f], AGroup 5048); ([x2f; x67; x2f], AGroup 10304); ([x2f; x67; x2f; x64], ADataset 10568)].
Proof. vm_compute. reflexivity. Qed.

(** ** Link messages and cycles

    Groups whose links are messages of the header are not remembered: a group with
    a hard link to itself is loaded inside itself for ever. *)

(** The header at [a] has link messages only, as the writer of headers lays them
    out; one of them at least is a hard link to an object of [S]. *)
Definition link_group (f : bytes) (sb : Superblock) (S : Z -> Prop) (a : Z) : Prop := exists (ls : list (bytes * LinkMessages.StructLink)) c,
  0 < a /\ stored f a (headBytes (mkHeaderWriter 2 0 (map (fun l => (MsgLinkMessage, l.1)) ls) 0) ++ le_put 4 c) /\
  Forall (fun l => 0 < len l.1 < 65536 /\ LinkMessages.ParseStructLink l.1 sb = Ret l.2) ls /\
  Exists (fun l => LinkMessages.IsHardLink l.2 = true /\ S (LinkMessages.sObjectAddress l.2)) ls.

(** The messages of such a header as they are read. *)
Definition reads_links (sb : Superblock) (msgs : list HeaderMessage) (ls : list LinkMessages.StructLink) : Prop :=
  Forall2 (fun m l => mType m = MsgLinkMessage /\ LinkMessages.ParseStructLink (mData m) sb = Ret l) msgs ls.

Lemma link_group_read f sb S a hfuel : link_group f sb S a -> len f < 2 ^ 63 -> exists msgs ls name,
  readHeader hfuel f sb a = Ret (mkHeader 2 (flagsOf (mkHeaderWriter 2 0 (map (fun m => (mType m, mData m)) msgs) 0)) ObjectTypeGroup msgs name 1, []) /\
  readSignature f a = Ret ohdr_sig /\ 0 < a /\ reads_links sb msgs ls /\
  Exists (fun l => LinkMessages.IsHardLink l = true /\ S (LinkMessages.sObjectAddress l)) ls.
Proof.
  intros (ls & c & Ha & Hst & Hls & Hex) Hf. set (ms := map (fun l => (MsgLinkMessage, l.1)) ls) in *.
  destruct (readHeader_ok hfuel f a sb ms c Hst) as (off & name & E).
  - apply Forall_map. eapply Forall_impl; [exact Hls|]. intros l [Hl _]. split; cbn [fst snd]; [unfold MsgLinkMessage; lia|lia].
  - apply Forall_map, Forall_true. done.
  - apply Forall_map, Forall_true. done.
  - exact Hf.
  - cbv zeta in E. assert (Hrb : map (fun m => (mType m, mData m)) (readBackMessages off ms) = ms).
    { apply messagesOf_readBack, Forall_map. eapply Forall_impl; [exact Hls|]. by intros l [[? _] _]. }
    set (msgs := readBackMessages off ms) in *. exists msgs, ls.*2, name. split_and!; [| |exact Ha| |].
    + rewrite E, Hrb. destruct Hex as [l ls' _|l ls' _]; subst ms; cbn [map] in Hrb; destruct msgs as [|m msgs]; try discriminate Hrb;
        injection Hrb as Ht _ _; unfold determineObjectType; cbn [firstType]; by rewrite Ht.
    + by apply (header_signature _ _ _ _ Hst).
    + clear - Hrb Hls. unfold reads_links. subst ms. revert Hrb. generalize msgs. clear msgs.
      induction Hls as [|l ls [_ Hp] _ IH]; intros [|m msgs] Hrb; try discriminate Hrb; [constructor|].
      cbn [map] in Hrb. injection Hrb as Ht Hd Hr. rewrite fmap_cons. constructor; [|by apply IH]. rewrite Hd. by split.
    + apply Exists_fmap. exact Hex.
Qed.

(** The children are those of the hard links, by the recursion. *)
Lemma link_group_body f sb hfuel load cached S a name V : link_group f sb S a -> len f < 2 ^ 63 -> exists msgs ls nm,
  reads_links sb msgs ls /\ Exists (fun l => LinkMessages.IsHardLink l = true /\ S (LinkMessages.sObjectAddress l)) ls /\
  loadGroup hfuel f sb load cached a V = (let^ '(_, children) := linkChildren sb load msgs in vlift (Ret (GroupObject nm a children None None))) V /\
  loadObjectBody hfuel f sb load cached a name V =
    (let^ '(_, children) := linkChildren sb load msgs in vlift (Ret (named name (GroupObject nm a children None None)))) V.
Proof.
  intros Hg Hf. destruct (link_group_read f sb S a hfuel Hg Hf) as (msgs & ls & nm & E & Hs & Ha & Hm & Hex).
  assert (Hlinks : forall V V' b cs, linkChildren sb load msgs V = (V', Ret (b, cs)) -> b = true).
  { clear - Hm Hex. revert Hex. destruct Hm as [|m l msgs ls [Ht Hp] _]; intros Hex; [by inversion Hex|]. clear Hex. intros V V' b cs. cbn [linkChildren].
    rewrite Ht, Hp. change (MsgLinkMessage =? MsgLinkMessage) with true. cbn iota. unfold vbind at 1. cbn [vlift].
    destruct (LinkMessages.IsHardLink l); unfold vbind, vlift, vtry.
    - destruct (load _ _ V) as [V1 [o|e|]]; try done; destruct (linkChildren sb load msgs V1) as [V2 [[b' cs']|e'|]]; congruence.
    - destruct (linkChildren sb load msgs V) as [V2 [[b' cs']|e'|]]; congruence. }
  assert (Hlg : loadGroup hfuel f sb load cached a V = (let^ '(_, children) := linkChildren sb load msgs in vlift (Ret (GroupObject nm a children None None))) V).
  { unfold loadGroup. rewrite (proj2 (Z.eqb_neq a 0)) by lia. unfold vbind at 1. cbn [vlift]. rewrite Hs.
    rewrite (bool_decide_false (ohdr_sig = SignatureSNOD)) by done. unfold loadModernGroup. unfold vbind at 1. cbn [vlift]. rewrite E. cbn [hType hName hMessages negb].
    unfold vbind. destruct (linkChildren sb load msgs V) as [V' [[b cs]|e|]] eqn:El; [|done..]. by rewrite (Hlinks _ _ _ _ El). }
  exists msgs, ls, nm. split; [done|]. split; [done|]. split; [exact Hlg|].
  unfold loadObjectBody. unfold vbind at 1. cbn [vlift]. rewrite Hs. rewrite (bool_decide_false (ohdr_sig = SignatureSNOD)) by done.
  unfold vbind at 1. cbn [vlift]. rewrite E. cbn [hType]. unfold vbind at 1. rewrite Hlg. unfold vbind.
  by destruct (linkChildren sb load msgs V) as [V' [[b cs]|e|]].
Qed.

(** A child that does not return keeps the group from returning. *)
Lemma children_diverge sb (S : Z -> Prop) load msgs ls : reads_links sb msgs ls ->
  Exists (fun l => LinkMessages.IsHardLink l = true /\ S (LinkMessages.sObjectAddress l)) ls ->
  (forall b n V, S b -> (load b n V).2 = Panic) -> forall V, (linkChildren sb load msgs V).2 = Panic.
Proof.
  intros Hm Hex Hl. induction Hm as [|m l msgs ls [Ht Hp] _ IH]; [by inversion Hex|]. intros V. cbn [linkChildren].
  rewrite Ht, Hp. change (MsgLinkMessage =? MsgLinkMessage) with true. cbn iota. unfold vbind at 1. cbn [vlift].
  apply Exists_cons in Hex as [[Hh HS]|Hex].
  - rewrite Hh. unfold vbind, vtry, vlift. specialize (Hl _ (LinkMessages.sName l) V HS). by destruct (load _ _ V) as [V1 [o|e|]].
  - destruct (LinkMessages.IsHardLink l); unfold vbind, vlift, vtry.
    + destruct (load _ _ V) as [V1 [o|e|]]; [..|done]; specialize (IH Hex V1); by destruct (linkChildren sb load msgs V1) as [V2 [[b cs]|e'|]].
    + specialize (IH Hex V). by destruct (linkChildren sb load msgs V) as [V2 [[b cs]|e'|]].
Qed.

(** Nothing but a child that does not return does so. *)
Lemma children_return sb load msgs ls : reads_links sb msgs ls -> (forall b n V, (load b n V).2 <> Panic) ->
  forall V, (linkChildren sb load msgs V).2 <> Panic.
Proof.
  intros Hm Hl. induction Hm as [|m l msgs ls [Ht Hp] _ IH]; intros V; [done|]. cbn [linkChildren].
  rewrite Ht, Hp. change (MsgLinkMessage =? MsgLinkMessage) with true. cbn iota. unfold vbind at 1. cbn [vlift].
  destruct (LinkMessages.IsHardLink l); unfold vbind, vlift, vtry.
  - specialize (Hl (LinkMessages.sObjectAddress l) (LinkMessages.sName l) V).
    destruct (load _ _ V) as [V1 [o|e|]]; [..|done]; specialize (IH V1); by destruct (linkChildren sb load msgs V1) as [V2 [[b cs]|e'|]].
  - specialize (IH V). by destruct (linkChildren sb load msgs V) as [V2 [[b cs]|e'|]].
Qed.

Lemma cycle_object f sb hfuel (S : Z -> Prop) : len f < 2 ^ 63 -> (forall a, S a -> link_group f sb S a) ->
  forall depth a name V, S a -> (loadObject depth hfuel f sb a name V).2 = Panic.
Proof.
  intros Hf HS. induction depth as [|depth IH]; intros a name V Ha; [done|].
  change (loadObject (Datatypes.S depth) hfuel f sb a name) with
    (loadObjectBody hfuel f sb (loadObject depth hfuel f sb) (loadGroupWithCachedSymbolTable depth hfuel f sb) a name).
  destruct (link_group_body f sb hfuel (loadObject depth hfuel f sb) (loadGroupWithCachedSymbolTable depth hfuel f sb) S a name V (HS a Ha) Hf)
    as (msgs & ls & nm & Hm & Hex & _ & ->).
  pose proof (children_diverge sb S _ msgs ls Hm Hex (fun b n V Hb => IH b n V Hb) V) as Hp. unfold vbind.
  by destruct (linkChildren _ _ msgs V) as [V' [[b cs]|e|]].
Qed.

(** C38. Cycles of link messages are not cut. Let every object of a set [S] of a
    file have a version-2 header, as the header writer lays it out, of link
    messages that parse, one of them at least a hard link into [S]. Then no
    depth of the recursion is enough to load an object of [S], whatever B-trees
    were visited, nor for [Open] when the root group is in [S], so that they
    exhaust the stack; and this is the recursion only, no crash: with any loader
    that returns in the place of the recursive calls, loading the object
    returns. With a symbol table, whose B-trees are remembered, a second visit
    of the group needs one call and gives an empty group. *)
Theorem link_cycle_diverges f sb hfuel stale (S : Z -> Prop) :
  len f < 2 ^ 63 -> (forall a, S a -> link_group f sb S a) ->
  (forall depth a name V, S a -> (loadObject depth hfuel f sb a name V).2 = Panic) /\
  (forall depth, length stale = 128%nat -> ReadSuperblock stale f = Ret sb -> S (RootGroup sb) -> Open depth hfuel stale f = Panic) /\
  (forall load cached a name V, S a -> (forall b n V, (load b n V).2 <> Panic) ->
    (loadObjectBody hfuel f sb load cached a name V).2 <> Panic) /\
  (forall depth a name btreeAddr heapAddr V, btreeAddr ∈ V ->
    loadGroupWithCachedSymbolTable (Datatypes.S depth) hfuel f sb a name btreeAddr heapAddr V =
      (V, Ret (GroupObject name a [] (Some (mkTable 1 0 btreeAddr heapAddr)) None))).
Proof.
  intros Hf HS. split; [by apply cycle_object|]. split; [|split].
  - intros depth Hs E Hr. pose proof (HS _ Hr) as Hg. pose proof Hg as (ls & c & _ & Hst & _). destruct (stored_bounds _ _ _ Hst) as [_ Hb].
    unfold Open. rewrite (isHDF5File_ok stale f sb Hs E). cbn [obind]. rewrite E. cbn [obind].
    assert (0 < len (headBytes (mkHeaderWriter 2 0 (map (fun l => (MsgLinkMessage, l.1)) ls) 0) ++ le_put 4 c))
      by (rewrite len_app, len_le_put; pose proof (len_nonneg (headBytes (mkHeaderWriter 2 0 (map (fun l => (MsgLinkMessage, l.1)) ls) 0))); lia).
    destruct (Z.geb_spec (RootGroup sb) (len f)); [lia|]. cbn [negb obind].
    destruct (link_group_body f sb hfuel (loadObject depth hfuel f sb) (loadGroupWithCachedSymbolTable depth hfuel f sb) S (RootGroup sb) [] ∅ Hg Hf)
      as (msgs & ls' & nm & Hm & Hex & -> & _).
    pose proof (children_diverge sb S _ msgs ls' Hm Hex (cycle_object f sb hfuel S Hf HS depth) ∅) as Hp. unfold vbind.
    by destruct (linkChildren _ _ msgs ∅) as [V' [[b cs]|e|]].
  - intros load cached a name V Ha Hl. destruct (link_group_body f sb hfuel load cached S a name V (HS a Ha) Hf) as (msgs & ls & nm & Hm & _ & _ & ->).
    pose proof (children_return sb load msgs ls Hm Hl V) as Hp. unfold vbind. by destruct (linkChildren sb load msgs V) as [V' [[b cs]|e|]].
  - intros depth a name btreeAddr heapAddr V Hin.
    change (loadGroupWithCachedSymbolTable (Datatypes.S depth) hfuel f sb) with
      (loadGroupWithCachedSymbolTableBody f sb (loadObject depth hfuel f sb) (loadGroupWithCachedSymbolTable depth hfuel f sb)).
    unfold loadGroupWithCachedSymbolTableBody, loadChildren. cbn [BTreeAddress]. unfold vbind. by rewrite bool_decide_true.
Qed.

(** A version-2 file whose root group, at address 48, holds one hard link to
    address 48. *)
Definition loopLink : bytes := [x01; x00; x01; x78] ++ le_put 8 48.

Definition loopFile : bytes :=
  let ohw := mkHeaderWriter 2 0 [(MsgLinkMessage, loopLink)] 0 in
  match encodeSbV2 (mkSuperblock 2 8 8 0 48 LittleEndian 0 0 0 0) 76, encodeV2 ohw with
  | Ret sbBytes, Ret (_, header) => sbBytes ++ header
  | _, _ => []
  end.

Definition loopSb : Superblock := mkSuperblock 2 8 8 0 48 LittleEndian MaxUint64 0 0 0.

Lemma loop_prefix : loopFile = v2_head loopSb MaxUint64 76 ++ drop 44 loopFile.
Proof. vm_compute. reflexivity. Qed.

Lemma fillBuffer_count stale file buf n : fillBuffer stale file = (buf, n) -> n = len (take 128 file).
Proof. unfold fillBuffer. by intros [= _ ->]. Qed.

Lemma loop_superblock stale : length stale = 128%nat -> ReadSuperblock stale loopFile = Ret loopSb.
Proof.
  intros Hs. destruct (fillBuffer_prefix stale (v2_head loopSb MaxUint64 76) (drop 44 loopFile) Hs) as (tl & n & Eb & _ & _); [vm_compute; lia|].
  rewrite <- loop_prefix in Eb. pose proof (fillBuffer_count _ _ _ _ Eb) as En.
  assert (Hn : 48 <= n) by (rewrite En; vm_compute; congruence). clear En.
  rewrite (ReadSuperblock_v2 stale loopFile _ n loopSb MaxUint64 76 tl Eb Hn); [reflexivity|reflexivity|by left|..];
    [unfold is_u, loopSb; cbn; lia..|apply MaxUint64_u].
Qed.


Lemma loop_links a : a = 48 -> link_group loopFile loopSb (fun a => a = 48) a.
Proof.
  intros ->. exists [(loopLink, LinkMessages.mkStructLink 1 0 0 [x78] 0 false 0 48 [])], (le_get (drop 71 loopFile)). split; [lia|].
  split; [vm_compute; reflexivity|]. split.
  - repeat constructor; vm_compute; reflexivity.
  - constructor. by split.
Qed.

Example link_cycle_diverges_witness : Open 100 0 (zeros 128) loopFile = Panic.
Proof.
  destruct (link_cycle_diverges loopFile loopSb 0 (zeros 128) (fun a => a = 48)) as (_ & H & _).
  - vm_compute. reflexivity.
  - exact loop_links.
  - apply H; [reflexivity|by apply loop_superblock|reflexivity].
Defined.
