(* ===== verification/Links.v ===== *)
(** * Links: link_write.go

    Hard links add an entry for an existing object and count it in the object's
    header; soft and external links get an object header of their own that holds
    the link message. *)

From Stdlib Require Import SpecFloat.
From S2P Require Import Prelude Allocator Storage Superblock Messages ObjectHeader Datatype Convert Pipeline ChunkedDataset GlobalHeap.
From S2P Require Import LocalHeap GroupTree Groups GroupLaws Namespace DatasetReader DatasetWrite DatasetLaws Session OpenFile.
From S2P Require LinkMessages.
Import LinkMessages (mkLinkMessage, LinkTypeSoft, LinkTypeExternal, LinkFlagLinkTypeFieldBit, LinkFlagCharSetBit, EncodeLinkMessage).

(** ** Paths *)

(** [strings.Contains]. *)
Fixpoint Contains (s sub : bytes) : bool :=
  bool_decide (take (length sub) s = sub) || match s with [] => false | _ :: s => Contains s sub end.

Definition dot : byte := x2e.

Definition validateLinkPath (path : bytes) : outcome () :=
  guard negb (bool_decide (path = [])) else "path cannot be empty";;
  guard HasSlashPrefix path else "path must start with '/'";;
  guard negb (bool_decide (path = [slash])) else "cannot create link to root group";;
  guard negb (Contains path [slash; slash]) else "path cannot contain consecutive slashes";;
  Ret tt.

Definition validateSoftLinkTargetPath (path : bytes) : outcome () :=
  guard negb (bool_decide (path = [])) else "target path cannot be empty";;
  guard HasSlashPrefix path else "target path must be absolute";;
  guard negb (Contains path [slash; slash]) else "target path cannot contain consecutive slashes";;
  Ret tt.

Definition validateExternalFileName (fileName : bytes) : outcome () :=
  guard negb (bool_decide (fileName = [])) else "file name cannot be empty";;
  guard negb (Contains fileName [dot; dot]) else "file name cannot contain '..'";;
  Ret tt.

(** ** Reference counts *)

(** The first reference count message of four bytes or more is overwritten. *)
Fixpoint setRefCount (messages : list HeaderMessage) (data : bytes) : option (list HeaderMessage) :=
  match messages with
  | [] => None
  | msg :: rest =>
      if (mType msg =? MsgRefCount) && (len (mData msg) >=? 4)
      then Some (mkMsg (mType msg) (mOffset msg) (data ++ drop 4 (mData msg)) (FromContinuation msg) :: rest)
      else (fun rest => msg :: rest) <$> setRefCount rest data
  end.

Definition ensureRefCountMessage (sb : Superblock) (oh : ObjectHeader) : outcome ObjectHeader :=
  let data := put_order (Endianness sb) 4 (ReferenceCount oh) in
  match setRefCount (hMessages oh) data with
  | Some messages => Ret (mkHeader (hVersion oh) (hFlags oh) (hType oh) messages (hName oh) (ReferenceCount oh))
  | None => AddMessageToObjectHeader oh MsgRefCount data
  end.

(** A parent group that exists. *)
Definition parentExists {St} (fw : FileW St) (parent : bytes) : bool := is_root parent || bool_decide (is_Some (groups fw !! parent)).

Section links.
Context `{Storage St}.

Definition writeV1RefCount (st : St) (sb : Superblock) (addr : Z) (oh : ObjectHeader) : outcome St :=
  write_to st (put_order (Endianness sb) 4 (ReferenceCount oh)) (u64 (addr + 4)).

(** The header is changed in memory too. *)
Definition writeV2RefCount (st : St) (sb : Superblock) (addr : Z) (oh : ObjectHeader) : outcome (ObjectHeader * St) :=
  let! oh := (if ReferenceCount oh >? 1 then ensureRefCountMessage sb oh else Ret oh) in
  let! st := storeObjectHeader st addr oh in
  Ret (oh, st).

Definition writeObjectHeaderWithRefCount (st : St) (sb : Superblock) (addr : Z) (oh : ObjectHeader) : outcome (ObjectHeader * St) :=
  if hVersion oh =? 1 then let! st := writeV1RefCount st sb addr oh in Ret (oh, st)
  else if hVersion oh =? 2 then writeV2RefCount st sb addr oh
  else Err "unsupported object header version".

(** ** Hard links *)

(** Up to the count in the target's header: its address, the header and the
    path's parts. *)
Definition countHardLink (hfuel : nat) (fw : FileW St) (linkPath targetPath : bytes) : outcome (Z * ObjectHeader * bytes * bytes * St) :=
  let! _ := validateLinkPath linkPath in
  let! _ := validateLinkPath targetPath in
  let! targetAddr := resolveObjectAddress fw targetPath in
  let! (targetHeader, _) := readHeader hfuel (contents (storage fw)) (sblock fw) targetAddr in
  let '(_, targetHeader) := IncrementReferenceCount targetHeader in
  let! (targetHeader, st) := writeObjectHeaderWithRefCount (storage fw) (sblock fw) targetAddr targetHeader in
  let! (parent, linkName) := parsePath linkPath in
  Ret (targetAddr, targetHeader, parent, linkName, st).

(** The writer as it is left, and the result: the count is taken back when the
    link cannot be made, but not when its parent does not exist. *)
Definition CreateHardLink (hfuel : nat) (fw : FileW St) (linkPath targetPath : bytes) : FileW St * outcome () :=
  match countHardLink hfuel fw linkPath targetPath with
  | Err e => (fw, Err e)
  | Panic => (fw, Panic)
  | Ret (targetAddr, targetHeader, parent, linkName, st) =>
      let fw := with_storage fw st in
      if negb (parentExists fw parent) then (fw, Err "parent group does not exist")
      else
        match linkToParent fw parent linkName targetAddr with
        | Ret fw => (fw, Ret tt)
        | Panic => (fw, Panic)
        | Err _ =>
            let '(_, targetHeader) := DecrementReferenceCount targetHeader in
            match writeObjectHeaderWithRefCount (storage fw) (sblock fw) targetAddr targetHeader with
            | Ret (_, st) => (with_storage fw st, Err "failed to create link in parent group")
            | Err _ => (fw, Err "failed to create link in parent group")
            | Panic => (fw, Panic)
            end
        end
  end.

(** ** Soft and external links *)

(** An object header with the link message alone, linked into the parent. *)
Definition storeLink (fw : FileW St) (parent linkName : bytes) (linkType : Z) (linkValue : bytes) : outcome (FileW St) :=
  let linkMsg := mkLinkMessage 1 (Z.lor LinkFlagLinkTypeFieldBit LinkFlagCharSetBit) linkType 0 0 linkName linkValue in
  let! linkMsgData := EncodeLinkMessage linkMsg in
  let! linkOHW := PadToSize (mkHeaderWriter 2 0 [(MsgLinkMessage, linkMsgData)] 0) MinOHDRAllocSize in
  let! headerSize := calculateObjectHeaderSize linkOHW in
  let! (linkAddr, st) := allocate (storage fw) headerSize in
  let! (_, st) := storeHeader linkOHW st linkAddr in
  linkToParent (with_storage fw st) parent linkName linkAddr.

Definition sizedString (sb : Superblock) (s : bytes) : bytes := put_order (Endianness sb) 2 (len s) ++ s.

Definition CreateSoftLink (fw : FileW St) (linkPath targetPath : bytes) : outcome (FileW St) :=
  let! _ := validateLinkPath linkPath in
  let! _ := validateSoftLinkTargetPath targetPath in
  let! (parent, linkName) := parsePath linkPath in
  guard parentExists fw parent else "parent group does not exist";;
  guard negb (len targetPath >? 65535) else "target path too long";;
  storeLink fw parent linkName LinkTypeSoft (sizedString (sblock fw) targetPath).

Definition CreateExternalLink (fw : FileW St) (linkPath fileName objectPath : bytes) : outcome (FileW St) :=
  let! _ := validateLinkPath linkPath in
  let! _ := validateExternalFileName fileName in
  let! _ := validateSoftLinkTargetPath objectPath in
  let! (parent, linkName) := parsePath linkPath in
  guard parentExists fw parent else "parent group does not exist";;
  guard negb (len fileName >? 65535) else "file name too long";;
  guard negb (len objectPath >? 65535) else "object path too long";;
  storeLink fw parent linkName LinkTypeExternal (sizedString (sblock fw) fileName ++ sizedString (sblock fw) objectPath).
End links.

Definition resolveSoftLink (linkAddr : Z) : outcome Z := Err "soft link resolution not yet implemented".
Definition resolveExternalLink (linkAddr : Z) : outcome Z := Err "external link resolution not yet implemented".

(** ** The link message as a reader of groups parses it *)

Definition linkData (linkType : Z) (name value : bytes) : bytes := [x01; x18; z2b linkType; x00; z2b (len name)] ++ name ++ value.

Lemma EncodeLink_ret linkType name value : 0 <= linkType < 256 -> len name < 256 ->
  EncodeLinkMessage (mkLinkMessage 1 (Z.lor LinkFlagLinkTypeFieldBit LinkFlagCharSetBit) linkType 0 0 name value) = Ret (linkData linkType name value).
Proof.
  intros Ht Hn. rewrite LinkMessages.EncodeLinkMessage_ret; [|constructor; cbn [LinkMessages.LinkVersion LinkMessages.LinkFlags LinkMessages.LinkType LinkMessages.CreationOrder LinkMessages.CharSet LinkMessages.LinkName]; try (vm_compute; split; congruence); try exact Ht; try exact Hn; reflexivity]. reflexivity.
Qed.

(** A link that is not a hard one parses to its type. *)
Lemma ParseStructLink_type linkType name value sb : 0 < linkType < 256 -> 0 < len name < 256 ->
  (if linkType =? LinkTypeSoft then exists path, 0 < len path < 65536 /\ value = le_put 2 (len path) ++ path else 2 <= len value) ->
  len value < 65536 ->
  exists lm, LinkMessages.ParseStructLink (linkData linkType name value) sb = Ret lm /\ LinkMessages.sType lm = linkType.
Proof.
  intros Ht Hn Hv Hlv. set (data := linkData linkType name value). pose proof (len_nonneg name). pose proof (len_nonneg value).
  assert (Hl : len data = 5 + len name + len value) by (unfold data, linkData; rewrite !len_app; change (len [x01; x18; z2b linkType; x00; z2b (len name)]) with 5; lia).
  unfold LinkMessages.ParseStructLink.
  assert (LinkMessages.structHeader data = Ret (LinkMessages.mkStructLink 1 24 linkType [] 0 false 0 0 [], 4)) as ->.
  { unfold LinkMessages.structHeader. rewrite Hl. ztest. cbn [negb obind].
    change (idx data 0) with (Ret x01). change (idx data 1) with (Ret x18). change (idx data 2) with (Ret (z2b linkType)).
    change (idx data 3) with (Ret x00). cbn [obind]. change (b2z x01) with 1. change (b2z x18) with 24. cbn [negb obind Z.eqb Pos.eqb].
    change (LinkMessages.HasLinkTypeField 24) with true. change (LinkMessages.HasCreationOrder 24) with false.
    change (LinkMessages.HasCharSetField 24) with true. cbn iota. ztest. cbn [negb obind]. ztest. cbn [negb obind].
    change (idx data 3) with (Ret x00). cbn [obind]. rewrite b2z_z2b_small by lia. reflexivity. }
  cbn [obind LinkMessages.sFlags]. unfold LinkMessages.structNameLength. change (LinkMessages.GetLinkNameLengthSize 24) with 1.
  rewrite Hl. ztest. cbn [negb obind]. change (Z.to_nat 1) with 1%nat.
  assert (get_le 1 data 4 = Ret (len name)) as ->.
  { unfold data, linkData. rewrite (get_le_at 1 _ [x01; x18; z2b linkType; x00] (len name) (name ++ value));
      [done|reflexivity|reflexivity|change (256 ^ Z.of_nat 1) with 256; lia]. }
  cbn [obind]. destruct (Z.eqb_spec (len name) 0); [lia|]. cbn [negb obind]. change (4 + 1) with 5. cbv zeta.
  rewrite !i64_id by (rewrite ?i64_id; lia). ztest. cbn [negb obind].
  rewrite (slice_at data [x01; x18; z2b linkType; x00; z2b (len name)] name value) by (first [reflexivity|lia]). cbn [obind LinkMessages.sType].
  assert (exists ap, LinkMessages.structTarget data linkType (5 + len name) sb = Ret ap) as [[addr path] ->]; [|cbn [obind]; by eexists].
  assert (Hd : data = ([x01; x18; z2b linkType; x00; z2b (len name)] ++ name) ++ value) by (unfold data, linkData; by rewrite <- app_assoc).
  assert (Hlp : 5 + len name = len ([x01; x18; z2b linkType; x00; z2b (len name)] ++ name)) by (by rewrite len_app).
  unfold LinkMessages.structTarget, LinkMessages.LinkTypeHard. rewrite (proj2 (Z.eqb_neq linkType 0)) by lia.
  destruct (linkType =? LinkTypeSoft) eqn:Es.
  - destruct Hv as (path & Hp & ->). rewrite len_app, len_le_put in Hl, Hlv. change (Z.of_nat 2) with 2 in *. ztest. cbn [negb obind].
    rewrite (get_le_at 2 data _ (len path) path _ Hd Hlp) by (change (256 ^ Z.of_nat 2) with 65536; lia). cbn [obind]. ztest. cbn [negb obind]. ztest. cbn [negb obind].
    rewrite (slice_at data (([x01; x18; z2b linkType; x00; z2b (len name)] ++ name) ++ le_put 2 (len path)) path []); [by eexists| | |].
    + by rewrite app_nil_r, <- app_assoc.
    + rewrite len_app, <- Hlp, len_le_put. reflexivity.
    + reflexivity.
  - ztest. cbn [negb obind]. destruct (get_le_in_range 2 data (5 + len name)) as (v & Ev & _); [lia|change (Z.of_nat 2) with 2; lia|]. rewrite Ev. by eexists.
Qed.

(** ** The header of a link *)

Lemma padding_plain pad : padding pad -> Forall (fun m : MessageWriter => plain_type m.1) pad.
Proof. intros [-> |(k & _ & ->)]; by repeat constructor. Qed.

Lemma structTarget_pos linkType name value : len (linkData linkType name value) = 5 + len name + len value.
Proof. unfold linkData. rewrite !len_app. change (len [x01; x18; z2b linkType; x00; z2b (len name)]) with 5. lia. Qed.

(** An object whose header holds a link message that is no hard link is loaded as
    a group without children. *)
Lemma load_link depth hfuel f sb a data lm pad c name V :
  stored f a (headBytes (mkHeaderWriter 2 0 ((MsgLinkMessage, data) :: pad) 0) ++ le_put 4 c) -> len data < 65536 -> 0 < len data -> padding pad ->
  len f < 2 ^ 63 -> a <> 0 -> LinkMessages.ParseStructLink data sb = Ret lm -> LinkMessages.IsHardLink lm = false -> name <> [] ->
  loadObject (S depth) hfuel f sb a name V = (V, Ret (GroupObject name a [] None None)).
Proof.
  intros Hst Hl Hpos Hpad Hf Ha Hlm Hh Hn. pose proof (header_signature _ _ _ _ Hst Hf) as Hs.
  destruct (readHeader_ok hfuel f a sb ((MsgLinkMessage, data) :: pad) c Hst) as (off & nm & E); [| | |exact Hf|].
  - constructor; [split; cbn [fst snd]; unfold MsgLinkMessage; lia|by apply padding_ok].
  - constructor; [done|]. destruct Hpad as [-> |(k & _ & ->)]; by repeat constructor.
  - constructor; [done|by apply padding_plain].
  - cbv zeta in E. cbn [readBackMessages] in E. rewrite (proj2 (Z.eqb_neq _ 0)) in E by lia. cbn [app] in E.
    rewrite load_step by exact Hs. rewrite E. unfold vbind at 1. cbn [vlift fst hType].
    change (determineObjectType (mkMsg MsgLinkMessage off data false :: _)) with ObjectTypeGroup. cbn iota.
    assert (loadGroup hfuel f sb (loadObject depth hfuel f sb) (loadGroupWithCachedSymbolTable depth hfuel f sb) a V = (V, Ret (GroupObject nm a [] None None))) as Hg.
    { unfold loadGroup. rewrite (proj2 (Z.eqb_neq _ _) Ha). unfold vbind at 1. cbn [vlift]. rewrite Hs.
      rewrite (bool_decide_false (ohdr_sig = SignatureSNOD)) by done. unfold loadModernGroup. rewrite E. unfold vbind at 1. cbn [vlift hType hName hMessages negb].
      change (determineObjectType (mkMsg MsgLinkMessage off data false :: _)) with ObjectTypeGroup. cbn [negb linkChildren mType mData].
      change (MsgLinkMessage =? MsgLinkMessage) with true. cbn iota. rewrite Hlm. unfold vbind, vlift. cbn iota. rewrite Hh.
      assert (Hr : forall o V, linkChildren sb (loadObject depth hfuel f sb) (readBackMessages o pad) V = (V, Ret (false, []))).
      { intros o V0. destruct Hpad as [-> |(k & Hk & ->)]; [done|]. cbn [readBackMessages app]. by destruct (len (zeros k) =? 0). }
      by rewrite Hr. }
    unfold vbind. rewrite Hg. cbn [vlift named]. by rewrite bool_decide_false.
Qed.

Section laws.
Context `{StorageLaws St}.
Hypothesis Hfirst : 0 < first_address.

(** [storeLink] is [storeDatasetHeader] and [linkToParent]. *)
Lemma storeLink_ok fw G rest p n g linkType value m : fs_ok fw G rest -> G !! norm p = Some g -> path_ok p n -> name_ok n -> len n < 256 ->
  dEntries (group_abs g) !! n = None -> dUsed (group_abs g) + len n + 1 <= 4096 -> Z.of_nat (base.size (dEntries (group_abs g))) < 256 ->
  0 <= linkType < 256 -> len n + len value < 65500 -> usable (storage fw) (69628 + m) -> 0 <= m ->
  exists a n' fw' g' pad c, storeLink fw p n linkType value = Ret fw' /\ usable (storage fw') m /\ 0 < a < 2 ^ 63 /\
    fs_ok fw' (<[norm p := g']> G) (mkBlock a n' :: rest) /\ group_abs g' = addEntry (group_abs g) n a /\ sblock fw' = sblock fw /\ padding pad /\
    keeps (contents (storage fw)) (contents (storage fw')) rest /\
    stored (contents (storage fw')) a (headBytes (mkHeaderWriter 2 0 ((MsgLinkMessage, linkData linkType n value) :: pad) 0) ++ le_put 4 c).
Proof.
  intros Hfs Hg Hp Hn Hl Hfresh Hroom H256 Ht Hv Hu Hm. pose proof (len_nonneg n). pose proof (len_nonneg value).
  set (data := linkData linkType n value). assert (Hld : len data = 5 + len n + len value) by apply structTarget_pos.
  assert (Hlb : len (bodyBytes [(MsgLinkMessage, data)]) <= 69000).
  { rewrite bodyBytes_cons. change (bodyBytes []) with (@nil byte). rewrite app_nil_r, len_msgBytes. cbn [snd]. lia. }
  destruct (storeDatasetHeader_ok (storage fw) (328 + m) [(MsgLinkMessage, data)]) as (a & hsize & st2 & pad & c & E2 & Hhs & Hu2 & Hpad & Ho2 & Hk2 & Ha & Hst & _);
    [constructor; [split; cbn [fst snd]; unfold MsgLinkMessage; lia|constructor]|exact Hlb|eapply usable_mono; [exact Hu|lia]|lia|].
  assert (Hown : mkBlock a hsize ∈ owned st2) by (rewrite Ho2; apply elem_of_app; right; by left).
  pose proof (owned_from _ _ _ Hu2 Hown) as Hfrom. cbn [Offset] in Hfrom.
  assert (Hfs2 : fs_ok (with_storage fw st2) G ([mkBlock a hsize] ++ rest)).
  { apply (fs_extend Hfirst); [done|exact Ho2|]. eapply keeps_sub; [|exact Hk2]. rewrite (fs_own _ _ _ Hfs). by apply list_subseteq_app_l. }
  destruct (fs_link Hfirst _ G _ p n a g m Hfs2 Hg) as (st3 & g3 & E3 & Hu3 & Hfs3 & Habs3 & Hk3%preserves_keeps);
    [eapply usable_mono; [exact Hu2|lia]|done|done|unfold is_u; lia|done..|].
  exists a, hsize, (with_storage (with_storage fw st2) st3), g3, pad, c. split_and!; [|exact Hu3|lia|lia|exact Hfs3|exact Habs3|done|done| |].
  - unfold storeLink. rewrite EncodeLink_ret by lia. fold data. cbn [obind]. unfold storeDatasetHeader in E2.
    destruct (PadToSize _ _) as [ohw|e|]; cbn [obind] in *; [|done..]. destruct (calculateObjectHeaderSize ohw) as [hs|e|]; cbn [obind] in *; [|done..].
    destruct (allocate (storage fw) hs) as [[a0 st0]|e|]; cbn [obind] in *; [|done..]. destruct (storeHeader ohw st0 a0) as [[w st1]|e|]; cbn [obind] in *; [|done..].
    destruct (w =? hs); cbn [obind] in E2; [|done]. injection E2 as -> _ ->. exact E3.
  - cbn [storage with_storage] in *. eapply keeps_trans; [| |exact Hk3]; [by apply list_subseteq_app_r|].
    eapply keeps_sub; [|exact Hk2]. rewrite (fs_own _ _ _ Hfs). by apply list_subseteq_app_r.
  - cbn [storage with_storage] in *. apply (Hk3 (mkBlock a hsize)); [by left|by symmetry|exact Hst].
Qed.
End laws.

Section properties.
Context `{StorageLaws St}.
Hypothesis Hfirst : 0 < first_address.

Lemma parent_exists fw G rest p g : fs_ok fw G rest -> G !! norm p = Some g -> parentExists fw p = true.
Proof.
  intros Hfs Hg. unfold parentExists. destruct (is_root p) eqn:Er; [done|]. cbn [orb]. apply bool_decide_true.
  assert (p <> []) as Hp by (intros ->; by vm_compute in Er). pose proof (fs_table _ _ _ Hfs p Hp) as Ht. unfold norm in Hg. rewrite Er in Hg.
  rewrite Hg in Ht. destruct (groups fw !! p); [by eexists|done].
Qed.

(** A stored link: the new entry, and what a reader makes of it. *)
Lemma stored_link_loads fw A p n d linkType value m : repr fw A -> A !! norm p = Some d -> path_ok p n -> name_ok n -> len n < 256 -> room A p n ->
  0 < linkType < 256 -> len n + len value < 65500 ->
  (if linkType =? LinkTypeSoft then exists path, 0 < len path < 65536 /\ value = le_put 2 (len path) ++ path else 2 <= len value) ->
  usable (storage fw) (69628 + m) -> 0 <= m ->
  parentExists fw p = true /\ sb8 (sblock fw) /\
  exists a fw', storeLink fw p n linkType value = Ret fw' /\ usable (storage fw') m /\ repr fw' (<[norm p := addEntry d n a]> A) /\
    forall depth hfuel V, len (contents (storage fw')) < 2 ^ 63 ->
      loadObject (S depth) hfuel (contents (storage fw')) (sblock fw') a n V = (V, Ret (GroupObject n a [] None None)).
Proof.
  intros (G & rest & Hfs & ->) Hd Hp Hn Hl Hroom Ht Hlv Hv Hu Hm. destruct (norm_abs G p d Hd) as (g & Hg & <-). destruct (Hroom _ Hd) as (R1 & R2 & R3).
  split; [by eapply parent_exists|]. split; [apply Hfs|].
  destruct (storeLink_ok Hfirst fw G rest p n g linkType value m Hfs Hg Hp Hn Hl R1 R2 R3 ltac:(lia) Hlv Hu Hm)
    as (a & n' & fw' & g' & pad & c & E & Hu' & Ha & Hfs' & Habs & Hsb & Hpad & _ & Hst).
  exists a, fw'. split; [exact E|]. split; [exact Hu'|]. split; [exists (<[norm p:=g']> G), (mkBlock a n' :: rest); by rewrite fmap_insert, Habs|].
  intros depth hfuel V Hf. assert (0 < len n) by (destruct Hn as [Hn _]; destruct n; [done|]; rewrite len_cons; pose proof (len_nonneg n); lia).
  pose proof (structTarget_pos linkType n value). pose proof (len_nonneg value).
  destruct (ParseStructLink_type linkType n value (sblock fw') Ht ltac:(lia) Hv ltac:(lia)) as (lm & Elm & Ety).
  eapply load_link; [exact Hst|lia|lia|exact Hpad|exact Hf|lia|exact Elm| |apply Hn].
  unfold LinkMessages.IsHardLink, LinkMessages.LinkTypeHard. rewrite Ety. apply Z.eqb_neq. lia.
Qed.

(** The reference count message does not fit into the header of a group. *)
Lemma group_recount fw A p d oh attrs hfuel n : repr fw A -> A !! p = Some d -> len (contents (storage fw)) < 2 ^ 63 -> usable (storage fw) n ->
  readHeader hfuel (contents (storage fw)) (sblock fw) (dHeader d) = Ret (oh, attrs) ->
  mkBlock (dHeader d) 256 ∈ owned (storage fw) /\
  exists oh' st' bs, writeObjectHeaderWithRefCount (storage fw) (sblock fw) (dHeader d) (IncrementReferenceCount oh).2 = Ret (oh', st') /\
    contents st' = write_at (contents (storage fw)) (dHeader d) bs /\ len bs = 264.
Proof.
  intros (G & rest & Hfs & ->) Hd Hf Hu E. rewrite abs_lookup in Hd. destruct (G !! p) as [g|] eqn:Eg; [|done]. injection Hd as <-. cbn [group_abs dHeader] in *.
  pose proof (fs_groups _ _ _ Hfs p g Eg) as Hok. assert (Hin : mkBlock (gOh g) 256 ∈ owned (storage fw)).
  { rewrite (fs_own _ _ _ Hfs). apply elem_of_app. left. apply (in_blocksOf Hfirst G p g Eg). by left. }
  split; [done|]. destruct (owned_range _ _ _ Hu Hin) as (Hr1 & _ & Hr2). unfold bend in Hr2. cbn [Offset Size] in *.
  destruct (group_header hfuel _ (sblock fw) Hf g Hok) as (off & nm & Eh & _). rewrite Eh in E. injection E as <- <-.
  unfold IncrementReferenceCount. cbn [hVersion hFlags hType hMessages hName ReferenceCount snd]. change (u32 (1 + 1)) with 2.
  unfold writeObjectHeaderWithRefCount. cbn [hVersion Z.eqb Pos.eqb]. unfold writeV2RefCount. cbn [ReferenceCount]. change (2 >? 1) with true. cbn iota.
  unfold ensureRefCountMessage. cbn [hMessages ReferenceCount]. set (data := put_order (Endianness (sblock fw)) 4 2).
  assert (Hlen : len data = 4) by (unfold data; by rewrite len_put_order).
  change (setRefCount _ data) with (@None (list HeaderMessage)). unfold AddMessageToObjectHeader. cbn [hVersion hFlags hType hMessages hName ReferenceCount Z.eqb Pos.eqb obind app].
  unfold storeObjectHeader. cbn [hVersion hFlags Z.eqb Pos.eqb obind]. unfold messagesOf. cbn [hMessages map mType mData].
  set (ohw := mkHeaderWriter 2 0 _ 0). unfold storeHeader. cbn [wVersion ohw Z.eqb Pos.eqb].
  assert (Hb : len (bodyBytes (Messages ohw)) = 253).
  { cbn [Messages ohw]. rewrite !bodyBytes_cons. change (bodyBytes []) with (@nil byte). rewrite !len_app, !len_msgBytes. cbn [snd].
    rewrite Hlen, len_zeros by lia. reflexivity. }
  destruct (encodeV2_ret ohw) as (c & _ & _ & Ee & _); [lia|]. rewrite Ee. cbn [obind].
  assert (Hlb : len (headBytes ohw ++ le_put 4 c) = 264).
  { rewrite len_app, len_le_put, len_headBytes by lia. rewrite Hb. reflexivity. }
  destruct (write_law _ _ (headBytes ohw ++ le_put 4 c) (gOh g) Hu ltac:(lia) ltac:(lia)) as (st' & Ew & _ & _ & Hc).
  rewrite Ew. cbn [obind]. eexists _, st', (headBytes ohw ++ le_put 4 c). split; [reflexivity|]. split; [exact Hc|exact Hlb].
Qed.
End properties.

(** ** Properties *)

(** C35. Soft and external links are written so that they read as empty groups:
    for every link path and target the code accepts, of names below 256 and
    targets below 65000 bytes, [CreateSoftLink] and [CreateExternalLink] succeed
    and add the entry to the parent, and whoever loads the entry gets a group of
    the link's name without children; the target is never looked at. *)
Theorem links_open_as_groups `{StorageLaws St} (fw : FileW St) (A : ns) (p n : bytes) (d : dir) (target fileName objectPath : bytes) (m : Z)
  (Hfirst : 0 < first_address) (Hr : repr fw A) (Hd : A !! norm p = Some d) (Hp : path_ok p n) (Hn : name_ok n) (Hl : len n < 256)
  (Hroom : room A p n) (Hv : validateLinkPath (childPath p n) = Ret tt) (Ht : validateSoftLinkTargetPath target = Ret tt)
  (Hf : validateExternalFileName fileName = Ret tt) (Ho : validateSoftLinkTargetPath objectPath = Ret tt)
  (Hlen : len target < 65000 /\ len fileName + len objectPath < 65000) (Hu : usable (storage fw) (69628 + m)) (Hm : 0 <= m) :
  (exists a fw', CreateSoftLink fw (childPath p n) target = Ret fw' /\ repr fw' (<[norm p := addEntry d n a]> A) /\
    forall depth hfuel V, len (contents (storage fw')) < 2 ^ 63 ->
      loadObject (S depth) hfuel (contents (storage fw')) (sblock fw') a n V = (V, Ret (GroupObject n a [] None None))) /\
  (exists a fw', CreateExternalLink fw (childPath p n) fileName objectPath = Ret fw' /\ repr fw' (<[norm p := addEntry d n a]> A) /\
    forall depth hfuel V, len (contents (storage fw')) < 2 ^ 63 ->
      loadObject (S depth) hfuel (contents (storage fw')) (sblock fw') a n V = (V, Ret (GroupObject n a [] None None))).
Proof.
  assert (Hpos : forall s, validateSoftLinkTargetPath s = Ret tt -> 0 < len s).
  { intros s Hs. destruct s as [|b s]; [by vm_compute in Hs|]. rewrite len_cons. pose proof (len_nonneg s). lia. }
  pose proof (Hpos _ Ht). pose proof (len_nonneg fileName). pose proof (len_nonneg objectPath). destruct Hp as (Hp1 & Hp2 & Hp3).
  pose proof (parsePath_child p n Hp2 Hp3) as Epp. assert (Hsb8 : Endianness (sblock fw) = LittleEndian) by (destruct Hr as (G & rest & Hfs & _); apply Hfs).
  split.
  - destruct (stored_link_loads Hfirst fw A p n d LinkTypeSoft (sizedString (sblock fw) target) m Hr Hd (conj Hp1 (conj Hp2 Hp3)) Hn Hl Hroom)
      as (Hpe & _ & a & fw' & E & _ & Hr' & Hload); [by vm_compute| | |exact Hu|exact Hm|].
    + unfold sizedString. rewrite len_app, len_put_order. lia.
    + change (LinkTypeSoft =? LinkTypeSoft) with true. cbn iota. exists target. unfold sizedString. rewrite Hsb8. split; [lia|done].
    + exists a, fw'. split; [|by split]. unfold CreateSoftLink. rewrite Hv. cbn [obind]. rewrite Ht. cbn [obind]. rewrite Epp. cbn [obind].
      rewrite Hpe. cbn [obind]. destruct (Z.gtb_spec (len target) 65535); [lia|]. exact E.
  - destruct (stored_link_loads Hfirst fw A p n d LinkTypeExternal (sizedString (sblock fw) fileName ++ sizedString (sblock fw) objectPath) m Hr Hd
      (conj Hp1 (conj Hp2 Hp3)) Hn Hl Hroom) as (Hpe & _ & a & fw' & E & _ & Hr' & Hload); [by vm_compute| | |exact Hu|exact Hm|].
    + unfold sizedString. rewrite !len_app, !len_put_order. lia.
    + change (LinkTypeExternal =? LinkTypeSoft) with false. cbn iota. unfold sizedString. rewrite !len_app, !len_put_order. lia.
    + exists a, fw'. split; [|by split]. unfold CreateExternalLink. rewrite Hv. cbn [obind]. rewrite Hf. cbn [obind]. rewrite Ho. cbn [obind].
      rewrite Epp. cbn [obind]. rewrite Hpe. cbn [obind]. destruct (Z.gtb_spec (len fileName) 65535); [lia|].
      destruct (Z.gtb_spec (len objectPath) 65535); [lia|]. exact E.
Qed.

#[local] Existing Instance Session.laws48.

Example links_open_as_groups_witness : exists fw a fw', CreateForWrite 2 = Ret fw /\ CreateSoftLink fw [x2f; x73] [x2f; x74] = Ret fw' /\
  forall V, loadObject 1 0 (contents (storage fw')) (sblock fw') a [x73] V = (V, Ret (GroupObject [x73] a [] None None)).
Proof.
  destruct (CreateForWrite_ok 100000) as (fw & g & b & h & E & Hfs & Habs & Hu & Hsb); [lia|].
  assert (Hr : repr fw (newSpace (rootGroupAddr fw))).
  { exists {[ [] := g ]}, []. split; [exact Hfs|]. unfold newSpace. by rewrite map_fmap_singleton, Habs. }
  destruct (links_open_as_groups fw _ [] [x73] (mkDir (rootGroupAddr fw) ∅ 1) [x2f; x74] [x66] [x2f; x74] 0 first48 Hr)
    as [(a & fw' & E1 & _ & Hload) _].
  - reflexivity.
  - split; [by left|]. split; [done|]. intros [=]%list_elem_of_singleton.
  - split; [done|]. constructor; [|constructor]. by vm_compute.
  - reflexivity.
  - intros d Hd. unfold newSpace in Hd. apply lookup_singleton_Some in Hd as [_ <-]. cbn [dEntries dUsed].
    split; [apply lookup_empty|]. split; [vm_compute; congruence|]. rewrite map_size_empty. lia.
  - reflexivity.
  - reflexivity.
  - reflexivity.
  - reflexivity.
  - split; reflexivity.
  - eapply usable_mono; [exact Hu|lia].
  - lia.
  - exists fw, a, fw'. split; [exact E|]. split; [exact E1|]. intros V. apply Hload.
    assert (El : (let! fw := CreateForWrite 2 in let! fw' := CreateSoftLink fw [x2f; x73] [x2f; x74] in Ret (len (contents (storage fw')) <? 2 ^ 63)) = Ret true)
      by (vm_compute; reflexivity). rewrite E in El. cbn [obind] in El. change (childPath [] [x73]) with [x2f; x73] in E1. rewrite E1 in El. cbn [obind] in El.
    injection El as El. by apply Z.ltb_lt.
Defined.

#[local] Existing Instance Pipeline.storedCodecs.

(** Two datasets of two integers, the second with values. *)
Definition two_datasets : list fileOp :=
  [Create [] [x61] (Plain Int32 emptyConfig) [2]; Create [] [x62] (Plain Int32 emptyConfig) [2]; Values 1 (Int32s [5; -3])].

Definition valuesOf (fw : FileW FileWriter) (address : Z) : outcome (list (option Z)) :=
  let! oh := ReadObjectHeader 0 (contents (storage fw)) address (sblock fw) in
  let! vs := ReadDatasetFloat64 0 (contents (storage fw)) oh (sblock fw) in
  Ret (map SF2Z vs).

(** The values of the second dataset before and after a hard link to the first,
    and the reference count a link without a parent leaves behind. *)
Definition link_session : outcome (outcome () * outcome (list (option Z)) * outcome (list (option Z)) * outcome () * outcome Z) :=
  let! fw0 := CreateForWrite 2 in
  let '(rs, s) := runCalls (newSession fw0) two_datasets in
  match rs with
  | [Ret a; Ret b; Ret _] =>
      let '(fw1, r1) := CreateHardLink 0 (sFile s) [x2f; x63] [x2f; x61] in
      let '(fw2, r2) := CreateHardLink 0 (sFile s) [x2f; x78; x2f; x63] [x2f; x61] in
      Ret (r1, valuesOf (sFile s) b, valuesOf fw1 b, r2,
        let! (oh, _) := readHeader 0 (contents (storage fw2)) (sblock fw2) a in Ret (ReferenceCount oh))
  | _ => Panic
  end.

(** C36. A hard link damages the file: the reference count message that counts it
    is appended to the object's header, which was allocated without room for it.
    For every group of every file, 264 bytes are written into the 256 of its
    header; in a file with two datasets the hard link to the first replaces the
    values of the second.  A link whose parent does not exist is refused, but the
    count stays raised. *)
Theorem hard_link_overruns :
  (forall `{StorageLaws St} (fw : FileW St) A p d oh attrs hfuel n, 0 < first_address -> repr fw A -> A !! p = Some d ->
    len (contents (storage fw)) < 2 ^ 63 -> usable (storage fw) n ->
    readHeader hfuel (contents (storage fw)) (sblock fw) (dHeader d) = Ret (oh, attrs) ->
    mkBlock (dHeader d) 256 ∈ owned (storage fw) /\
    exists oh' st' bs, writeObjectHeaderWithRefCount (storage fw) (sblock fw) (dHeader d) (IncrementReferenceCount oh).2 = Ret (oh', st') /\
      contents st' = write_at (contents (storage fw)) (dHeader d) bs /\ len bs = 264) /\
  link_session = Ret (Ret tt, Ret [Some 5; Some (-3)], Ret [Some 2; Some (-1844067097)], Err "parent group does not exist", Ret 2).
Proof. split; [intros; by eapply group_recount|vm_compute; reflexivity]. Qed.
