(* ===== verification/Delete.v ===== *)
(** * Deleting objects: delete_write.go

    The entry is taken out of the parent; the object's reference count goes down
    and, at zero, its header, its data or the structures of an empty group are
    given back to the allocator. *)

From S2P Require Import Prelude Allocator Storage Superblock Messages ObjectHeader Datatype Convert Pipeline ChunkedDataset GlobalHeap.
From S2P Require Import LocalHeap GroupTree Groups GroupLaws Namespace DatasetReader DatasetWrite DatasetLaws Session OpenFile Links.

Definition undefinedAddress : Z := MaxUint64.

(** ** The allocator's [Free]

    Its errors are dropped by every caller here. *)

Class StorageFree (St : Type) := free_space : St -> Z -> Z -> St.

#[export] Instance FileWriter_free : StorageFree FileWriter := fun w offset size =>
  match Free (allocator w) offset size with Ret a => mkWriter (file w) a | _ => w end.

(** Space that was allocated as one block can be freed. *)
Class StorageFreeLaws (St : Type) `{StorageLaws St} `{StorageFree St} :=
  free_law st n b rest : usable st n -> owned st ≡ₚ b :: rest ->
    usable (free_space st (Offset b) (Size b)) n /\ owned (free_space st (Offset b) (Size b)) ≡ₚ rest /\
    contents (free_space st (Offset b) (Size b)) = contents st.

#[export] Instance FileWriter_free_laws init : @StorageFreeLaws FileWriter _ (FileWriter_laws init) FileWriter_free.
Proof.
  intros w n b rest (Hf & HI & Hn & Hm) Ho. cbn [owned FileWriter_laws] in Ho. assert (Hb : b ∈ blocks (allocator w)) by (rewrite Ho; by left).
  destruct (Free_tracked init (allocator w) b HI Hb) as (a' & E & HI' & Hp & _ & He). unfold free_space, FileWriter_free. rewrite E.
  unfold EndOfFile in He. split; [|split; [|done]].
  - cbn [usable FileWriter_laws]. unfold fw_usable in *. cbn [file allocator]. split_and!; [done|done|lia|lia].
  - cbn [owned FileWriter_laws allocator]. rewrite Hp in Ho. by apply Permutation_cons_inv in Ho.
Defined.

Section delete.
Context `{Storage St} `{StorageFree St}.

(** ** Data *)

(** The keys and children of a leaf, read with keys of [keySize] bytes: chunk
    addresses and sizes; nothing where the data end or an address is undefined. *)
Fixpoint chunkInfos (n : nat) (data : bytes) (pos keySize offsetSize : Z) (o : ByteOrder) : outcome (option (list (Z * Z))) :=
  match n with
  | O => Ret (Some [])
  | S n =>
      if pos + keySize >? len data then Ret None
      else
        let! chunkSize := readU 4 o data pos in
        let pos := pos + keySize in
        if pos + offsetSize >? len data then Ret None
        else
          let! tl := slice data pos (len data) in
          let! childAddr := readAddrFromBuf tl offsetSize o in
          let pos := pos + offsetSize in
          if (childAddr =? 0) || (childAddr =? undefinedAddress) then Ret None
          else
            let! rest := chunkInfos n data pos keySize offsetSize o in
            Ret ((fun l => (childAddr, chunkSize) :: l) <$> rest)
  end.

(** The numbers of dimensions are tried in turn. *)
Fixpoint tryDims (ndims : list Z) (st : St) (btreeAddr headerSize entriesUsed : Z) (sb : Superblock) : outcome St :=
  match ndims with
  | [] => Ret st
  | n :: ndims =>
      let keySize := 4 + 4 + 4 * n in
      let totalDataSize := (entriesUsed + 1) * keySize + entriesUsed * OffsetSize sb in
      match read_at (contents st) (i64 (i64 btreeAddr + headerSize)) totalDataSize with
      | Panic => Panic
      | Err _ => tryDims ndims st btreeAddr headerSize entriesUsed sb
      | Ret data =>
          let! chunks := chunkInfos (Z.to_nat entriesUsed) data 0 keySize (OffsetSize sb) (Endianness sb) in
          match chunks with
          | Some cs => Ret (fold_left (fun st c => free_space st c.1 c.2) cs st)
          | None => tryDims ndims st btreeAddr headerSize entriesUsed sb
          end
      end
  end.

Definition freeChunkedData (st : St) (sb : Superblock) (btreeAddr : Z) : outcome St :=
  let headerSize := 8 + 2 * OffsetSize sb in
  match read_at (contents st) (i64 btreeAddr) headerSize with
  | Panic => Panic
  | Err _ => Ret st
  | Ret header =>
      if negb (bool_decide (take 4 header = tree_sig)) then Ret st
      else
        let! nodeType := idx header 4 in
        if negb (b2z nodeType =? 1) then Ret st
        else
          let! entriesUsed := readU 2 (Endianness sb) header 6 in
          if entriesUsed =? 0 then Ret st
          else
            let! nodeLevel := idx header 5 in
            if b2z nodeLevel >? 0 then Ret st
            else tryDims [1; 2; 3; 4] st btreeAddr headerSize entriesUsed sb
  end.

Definition freeDataLayout (st : St) (sb : Superblock) (layout : DataLayoutMessage) : outcome St :=
  if IsContiguous layout then
    if negb (DataAddress layout =? undefinedAddress) && negb (DataAddress layout =? 0) && (DataSize layout >? 0)
    then Ret (free_space st (DataAddress layout) (DataSize layout)) else Ret st
  else if IsChunked layout then
    if negb (DataAddress layout =? undefinedAddress) && negb (DataAddress layout =? 0)
    then freeChunkedData st sb (DataAddress layout) else Ret st
  else Ret st.

(** ** Groups *)

(** Nodes that cannot be read are passed over. *)
Fixpoint checkEmpty (f : bytes) (sb : Superblock) (snodAddrs : list Z) : outcome () :=
  match snodAddrs with
  | [] => Ret tt
  | addr :: rest =>
      match ParseSymbolTableNode f addr sb with
      | Panic => Panic
      | Err _ => checkEmpty f sb rest
      | Ret sn => if len (Entries sn) >? 0 then Err "cannot delete non-empty group" else checkEmpty f sb rest
      end
  end.

Definition freeGroupStructures (st : St) (sb : Superblock) (symTableData : bytes) : outcome St :=
  let osSize := OffsetSize sb in
  if len symTableData <? 2 * osSize then Ret st
  else
    let! btreeAddr := readAddrFromBuf symTableData osSize (Endianness sb) in
    let! tl := slice symTableData osSize (len symTableData) in
    let! heapAddr := readAddrFromBuf tl osSize (Endianness sb) in
    match readGroupBTree (contents st) btreeAddr sb with
    | Panic => Panic
    | Err _ => Ret st
    | Ret (_, snodAddrs) =>
        let! _ := checkEmpty (contents st) sb snodAddrs in
        let st := fold_left (fun st addr => free_space st addr snodTotalSize) snodAddrs st in
        match readLocalHeap (contents st) heapAddr sb with
        | Panic => Panic
        | Err _ => Ret st
        | Ret heap => Ret (free_space st heapAddr (heapSize heap))
        end
    end.

(** ** Objects *)

(** The message loop; the state is kept where it stops with an error. *)
Fixpoint freeMessages (st : St) (sb : Superblock) (messages : list HeaderMessage) : St * outcome () :=
  match messages with
  | [] => (st, Ret tt)
  | msg :: rest =>
      if mType msg =? MsgDataLayout then
        match ParseDataLayoutMessage (mData msg) sb with
        | Panic => (st, Panic)
        | Err _ => freeMessages st sb rest
        | Ret layout =>
            match freeDataLayout st sb layout with
            | Ret st => freeMessages st sb rest
            | Err e => (st, Err e)
            | Panic => (st, Panic)
            end
        end
      else if mType msg =? MsgSymbolTable then
        match freeGroupStructures st sb (mData msg) with
        | Ret st => freeMessages st sb rest
        | Err e => (st, Err e)
        | Panic => (st, Panic)
        end
      else freeMessages st sb rest
  end.

Definition cascadeDelete (st : St) (sb : Superblock) (objectAddr : Z) (oh : ObjectHeader) : St * outcome () :=
  match freeMessages st sb (hMessages oh) with
  | (st, Ret _) =>
      match ObjectHeaderSizeFromParsed oh with
      | Ret ohdrSize => ((if ohdrSize >? 0 then free_space st objectAddr ohdrSize else st), Ret tt)
      | Err e => (st, Err e)
      | Panic => (st, Panic)
      end
  | r => r
  end.

(** [copy] overwrites as much of the message as there is. *)
Fixpoint replaceRefCount (messages : list HeaderMessage) (data : bytes) : option (list HeaderMessage) :=
  match messages with
  | [] => None
  | msg :: rest =>
      if mType msg =? MsgRefCount
      then Some (mkMsg (mType msg) (mOffset msg) (take (length (mData msg)) data ++ drop 4 (mData msg)) (FromContinuation msg) :: rest)
      else (fun rest => msg :: rest) <$> replaceRefCount rest data
  end.

(** Version-1 headers keep the count they have. *)
Definition writeRefCount (st : St) (sb : Superblock) (addr : Z) (oh : ObjectHeader) : outcome St :=
  if negb (hVersion oh =? 2) then Ret st
  else
    let data := put_order (Endianness sb) 4 (ReferenceCount oh) in
    let! oh :=
      (match replaceRefCount (hMessages oh) data with
       | Some messages => Ret (mkHeader (hVersion oh) (hFlags oh) (hType oh) messages (hName oh) (ReferenceCount oh))
       | None => AddMessageToObjectHeader oh MsgRefCount data
       end) in
    storeObjectHeader st addr oh.

(** The writer as it is left, and the result. *)
Definition Delete (hfuel : nat) (fw : FileW St) (path : bytes) : FileW St * outcome () :=
  if bool_decide (path = []) then (fw, Err "delete: path cannot be empty")
  else if negb (HasSlashPrefix path) then (fw, Err "delete: path must start with '/'")
  else if bool_decide (path = [slash]) then (fw, Err "delete: cannot delete root group")
  else
    match (let! (parent, name) := parsePath path in unlinkFromParent fw parent name) with
    | Err e => (fw, Err e)
    | Panic => (fw, Panic)
    | Ret (objectAddr, fw) =>
        if (objectAddr =? undefinedAddress) || (objectAddr =? 0) then (fw, Ret tt)
        else
          match readHeader hfuel (contents (storage fw)) (sblock fw) objectAddr with
          | Err e => (fw, Err "unlinked but could not read object header")
          | Panic => (fw, Panic)
          | Ret (oh, _) =>
              let '(newRefCount, oh) := DecrementReferenceCount oh in
              if newRefCount >? 0 then
                match writeRefCount (storage fw) (sblock fw) objectAddr oh with
                | Ret st => (with_storage fw st, Ret tt)
                | Err e => (fw, Err "failed to update reference count")
                | Panic => (fw, Panic)
                end
              else
                match cascadeDelete (storage fw) (sblock fw) objectAddr oh with
                | (st, Ret _) => (with_groups (with_storage fw st) (base.delete path (groups fw)), Ret tt)
                | (st, Err e) => (with_storage fw st, Err e)
                | (st, Panic) => (with_storage fw st, Panic)
                end
          end
    end.
End delete.

(** ** Specification *)

Definition without (d : dir) (n : bytes) : dir := mkDir (dHeader d) (base.delete n (dEntries d)) (dUsed d).

(** Deleting [n] from the directory [p].  The tables forget the group of that path,
    also where another object has taken its name. *)
Inductive delete_step (A : ns) (D : list dataset) (p n : bytes) : outcome () -> fileState -> Prop :=
  | delete_dataset d D1 x D2 : A !! norm p = Some d -> dEntries d !! n = Some (dAddr x) -> D = D1 ++ x :: D2 ->
      delete_step A D p n (Ret tt) (base.delete (childPath p n) (<[norm p := without d n]> A), D1 ++ D2)
  | delete_group d d' : A !! norm p = Some d -> dEntries d !! n = Some (dHeader d') -> A !! childPath p n = Some d' -> dEntries d' = ∅ ->
      delete_step A D p n (Ret tt) (base.delete (childPath p n) (<[norm p := without d n]> A), D)
  | delete_nonempty d d' : A !! norm p = Some d -> dEntries d !! n = Some (dHeader d') -> A !! childPath p n = Some d' -> dEntries d' <> ∅ ->
      delete_step A D p n (Err "cannot delete non-empty group") (<[norm p := without d n]> A, D)
  | delete_absent d : A !! norm p = Some d -> dEntries d !! n = None ->
      delete_step A D p n (Err "child not found in parent group") (A, D)
  | delete_parent : A !! norm p = None -> delete_step A D p n (Err "parent group not found") (A, D).

(** ** Freeing what a session allocated *)

Section refinement.
Context `{StorageFreeLaws St}.
Hypothesis Hfirst : 0 < first_address.

Lemma fs_free fw G b rest n : fs_ok fw G (b :: rest) -> usable (storage fw) n ->
  fs_ok (with_storage fw (free_space (storage fw) (Offset b) (Size b))) G rest /\
  usable (free_space (storage fw) (Offset b) (Size b)) n /\
  contents (free_space (storage fw) (Offset b) (Size b)) = contents (storage fw).
Proof.
  intros Hfs Hu. destruct (free_law (storage fw) n b (blocksOf G ++ rest) Hu) as (Hu' & Ho' & Hc).
  { rewrite (fs_own _ _ _ Hfs). solve_Permutation. }
  split; [|done]. constructor; cbn [sblock groups storage with_storage rootGroupAddr rootHeapAddr rootBTreeAddr]; try apply Hfs; [|done].
  rewrite Hc. apply Hfs.
Qed.

Lemma with_storage_twice (fw : FileW St) st st' : with_storage (with_storage fw st) st' = with_storage fw st'.
Proof. reflexivity. Qed.

Lemma padding_pos pad : padding pad -> Forall (fun m : MessageWriter => 0 < len m.2) pad.
Proof. intros [-> |(k & Hk & ->)]; [constructor|]. constructor; [cbn [snd]; rewrite len_zeros; lia|constructor]. Qed.

(** The size of a header as it was read. *)
Lemma sizeFromParsed ms off name ty rc : Forall (fun m : MessageWriter => 0 < len m.2) ms -> len (bodyBytes ms) + 18 < 2 ^ 63 ->
  ObjectHeaderSizeFromParsed (mkHeader 2 (flagsOf (mkHeaderWriter 2 0 ms 0)) ty (readBackMessages off ms) name rc) =
    Ret (len (headBytes (mkHeaderWriter 2 0 ms 0)) + 4).
Proof.
  intros Hpos Hl. pose proof (len_nonneg (bodyBytes ms)). unfold ObjectHeaderSizeFromParsed. cbn [hVersion hFlags Z.eqb Pos.eqb negb andb].
  unfold messagesOf. cbn [hMessages]. rewrite messagesOf_readBack by done. unfold Size_. cbn [wVersion Z.eqb Pos.eqb].
  destruct (encodeV2_ret (mkHeaderWriter 2 (flagsOf (mkHeaderWriter 2 0 ms 0)) ms 0)) as (c & _ & _ & _ & ->); [exact Hl|].
  rewrite !len_headBytes by (cbn [Messages]; lia). reflexivity.
Qed.

(** *** Datasets *)

Lemma dataset_cascade fw G X1 x X2 extra n hfuel oh attrs : fs_ok fw G (fdsBlocks (X1 ++ x :: X2) ++ extra) ->
  fd_ok (contents (storage fw)) (sblock fw) x -> usable (storage fw) n -> len (contents (storage fw)) < 2 ^ 63 -> 0 <= Superblock.Version (sblock fw) < 4 ->
  readHeader hfuel (contents (storage fw)) (sblock fw) (dAddr (fdSpec x)) = Ret (oh, attrs) ->
  ReferenceCount oh = 1 /\
  exists st', cascadeDelete (storage fw) (sblock fw) (dAddr (fdSpec x)) (DecrementReferenceCount oh).2 = (st', Ret tt) /\
    usable st' n /\ contents st' = contents (storage fw) /\ fs_ok (with_storage fw st') G (fdsBlocks (X1 ++ X2) ++ extra).
Proof.
  intros Hfs Hx Hu Hf Hver Eh. pose proof (fs_sb _ _ _ Hfs) as Hsb. pose proof Hsb as (HO & HL & HE).
  assert (Hp : fs_ok fw G (mkBlock (fdData x) (dSize (fdSpec x)) :: mkBlock (dAddr (fdSpec x)) (fdHeader x) :: fdsBlocks (X1 ++ X2) ++ extra)).
  { constructor; try apply Hfs. rewrite (fs_own _ _ _ Hfs). unfold fdsBlocks. rewrite !bind_app, bind_cons. unfold fdBlocks at 2. cbn [app]. solve_Permutation. }
  assert (Hin : forall b, b ∈ fdBlocks x -> b ∈ owned (storage fw)).
  { intros b Hb. rewrite (fs_own _ _ _ Hp). apply elem_of_app. right. unfold fdBlocks in Hb. set_solver. }
  pose proof (Hin (mkBlock (fdData x) (dSize (fdSpec x))) ltac:(by left)) as Hd.
  destruct (owned_range _ _ _ Hu Hd) as (Hd0 & Hd1 & Hd2). pose proof (owned_from _ _ _ Hu Hd) as Hd3. unfold bend in Hd2. cbn [Offset Size] in *.
  destruct Hx as [_ _ _ fd_type0 [fd_dims0 _] _ (pad & c & Hpad & Hlh & Hst) _]. unfold contiguousHeader in Hst.
  destruct (contiguous_messages_ok (dType (fdSpec x)) (dDims (fdSpec x)) (dSize (fdSpec x)) (fdData x) (sblock fw) Hsb fd_type0 fd_dims0) as (M1 & M2 & M3).
  assert (Hms : Forall (fun m : MessageWriter => m.1 <> MsgContinuation) (datasetMessages (dType (fdSpec x)) (dataspaceBytes (dDims (fdSpec x)) [])
    (contiguousBytes (dSize (fdSpec x)) (fdData x) (sblock fw)) (pipelineMessages None) ++ pad)) by (unfold datasetMessages; cbn [pipelineMessages]; other_types).
  assert (Hpl : Forall (fun m : MessageWriter => plain_type m.1) (datasetMessages (dType (fdSpec x)) (dataspaceBytes (dDims (fdSpec x)) [])
    (contiguousBytes (dSize (fdSpec x)) (fdData x) (sblock fw)) (pipelineMessages None) ++ pad)).
  { apply Forall_app. split; [by repeat constructor|by apply padding_plain]. }
  set (ms := datasetMessages _ _ _ _) in *.
  destruct (readHeader_ok hfuel (contents (storage fw)) (dAddr (fdSpec x)) (sblock fw) (ms ++ pad) c Hst) as (off & name & E);
    [by apply Forall_app_2, padding_ok|exact Hms|exact Hpl|exact Hf|]. cbv zeta in E. rewrite E in Eh.
  remember (readBackMessages off (ms ++ pad)) as l eqn:El. injection Eh as <- _. split; [done|].
  assert (Hpos : Forall (fun m : MessageWriter => 0 < len m.2) (ms ++ pad)) by (by apply Forall_app_2, padding_pos).
  unfold DecrementReferenceCount. cbv zeta. cbn [hVersion hFlags hType hMessages hName ReferenceCount snd]. unfold cascadeDelete. cbn [hMessages].
  assert (Hlp : len (bodyBytes (ms ++ pad)) + 18 < 2 ^ 63).
  { rewrite bodyBytes_app, len_app. pose proof (len_padding pad Hpad). lia. }
  rewrite El, sizeFromParsed by done. assert (Hhs : len (headBytes (mkHeaderWriter 2 0 (ms ++ pad) 0)) + 4 = fdHeader x).
  { rewrite <- Hlh. unfold contiguousHeader. fold ms. rewrite len_app, len_le_put. lia. }
  rewrite Hhs.
  assert (Em : freeMessages (storage fw) (sblock fw) (readBackMessages off (ms ++ pad)) =
    (free_space (storage fw) (fdData x) (dSize (fdSpec x)), Ret tt)).
  { unfold ms, datasetMessages. cbn [pipelineMessages app readBackMessages]. unfold ms, datasetMessages in M2. cbn [pipelineMessages app] in M2.
    rewrite !Forall_cons in M2. cbn [snd] in M2. destruct M2 as (T1 & T2 & T3 & _).
    rewrite !(proj2 (Z.eqb_neq _ 0)) by lia. cbn [app freeMessages mType mData].
    change (MsgDatatype =? MsgDataLayout) with false. change (MsgDatatype =? MsgSymbolTable) with false. change (MsgDataspace =? MsgDataLayout) with false.
    change (MsgDataspace =? MsgSymbolTable) with false. change (MsgDataLayout =? MsgDataLayout) with true. cbn iota.
    rewrite <- (app_nil_r (contiguousBytes _ _ _)). rewrite parse_contiguous by (rewrite ?HO, ?HL; first [done|lia]). unfold freeDataLayout, IsContiguous. cbn [Class_ DataAddress DataSize].
    change (LayoutContiguous =? LayoutContiguous) with true. cbn iota. unfold undefinedAddress, MaxUint64. rewrite !(proj2 (Z.eqb_neq _ _)) by lia.
    destruct (Z.gtb_spec (dSize (fdSpec x)) 0); [|lia]. cbn [negb andb].
    assert (Hr : forall st o, freeMessages st (sblock fw) (readBackMessages o pad) = (st, Ret tt)); [|apply Hr].
    intros st o. destruct Hpad as [-> |(k & _ & ->)]; [done|]. cbn [readBackMessages app]. by destruct (len (zeros k) =? 0). }
  rewrite Em. cbv beta iota zeta.
  destruct (fs_free fw G (mkBlock (fdData x) (dSize (fdSpec x))) _ n Hp Hu) as (Hfs1 & Hu1 & Hc1). cbn [Offset Size] in *.
  set (st1 := free_space (storage fw) (fdData x) (dSize (fdSpec x))) in *.
  pose proof (Hin (mkBlock (dAddr (fdSpec x)) (fdHeader x)) ltac:(right; by left)) as Hh. destruct (owned_range _ _ _ Hu Hh) as (_ & Hh1 & _). cbn [Size] in Hh1.
  destruct (Z.gtb_spec (fdHeader x) 0); [|lia].
  destruct (fs_free (with_storage fw st1) G (mkBlock (dAddr (fdSpec x)) (fdHeader x)) _ n Hfs1 Hu1) as (Hfs2 & Hu2 & Hc2). cbn [Offset Size storage with_storage] in *.
  eexists. split; [reflexivity|]. split; [exact Hu2|]. split; [by rewrite Hc2|exact Hfs2].
Qed.

Lemma readHeader_dataset hfuel fw x : fd_ok (contents (storage fw)) (sblock fw) x -> len (contents (storage fw)) < 2 ^ 63 -> sb8 (sblock fw) ->
  exists oh attrs, readHeader hfuel (contents (storage fw)) (sblock fw) (dAddr (fdSpec x)) = Ret (oh, attrs).
Proof.
  intros Hx Hf Hsb. destruct (dataset_header hfuel _ (sblock fw) (sblock fw) [x] Hf Hsb ltac:(by apply Forall_singleton) x) as (oh & E & _); [by left|].
  by exists oh, [].
Qed.

(** *** Groups *)

Lemma checkEmpty_ok f sb cs (itss : list (list item)) : OffsetSize sb = 8 -> Endianness sb = LittleEndian ->
  Forall2 (fun a its => snod_at f a (map snd its)) cs itss ->
  checkEmpty f sb cs = if bool_decide (concat itss = []) then Ret tt else Err "cannot delete non-empty group".
Proof.
  intros HO HE. induction 1 as [|a its cs itss (Ha & Hl & Hp & Hst) _ IH]; [done|]. cbn [checkEmpty concat].
  rewrite (ParseSymbolTableNode_ok f a (map snd its)) by done. unfold nodeOf. cbn [Entries]. destruct its as [|it its]; [exact IH|].
  cbn [map]. rewrite len_cons. pose proof (len_nonneg (map snd its)). destruct (Z.gtb_spec (1 + len (map snd its)) 0); [|lia].
  by rewrite bool_decide_false.
Qed.

Lemma free_snods fw G rest n cs : fs_ok fw G (map snodBlock cs ++ rest) -> usable (storage fw) n ->
  exists st', fold_left (fun st addr => free_space st addr snodTotalSize) cs (storage fw) = st' /\
    fs_ok (with_storage fw st') G rest /\ usable st' n /\ contents st' = contents (storage fw).
Proof.
  revert fw. induction cs as [|a cs IH]; intros fw Hfs Hu; cbn [map app fold_left] in *.
  - exists (storage fw). split_and!; [done| |done|done]. by destruct fw.
  - destruct (fs_free fw G (snodBlock a) _ n Hfs Hu) as (Hfs1 & Hu1 & Hc1). change snodTotalSize with (Size (snodBlock a)).
    change a with (Offset (snodBlock a)). destruct (IH (with_storage fw (free_space (storage fw) (Offset (snodBlock a)) (Size (snodBlock a)))) Hfs1 Hu1)
      as (st' & E & Hfs2 & Hu2 & Hc2). cbn [storage with_storage] in *. exists st'. split_and!; [exact E|exact Hfs2|exact Hu2|by rewrite Hc2].
Qed.

(** The group [k] leaves the tables. *)
Lemma fs_drop fw G rest k g : fs_ok fw G rest -> G !! k = Some g -> k <> [] -> k <> [slash] ->
  fs_ok (with_groups fw (base.delete k (groups fw))) (base.delete k G) (gBlocks g ++ rest).
Proof.
  intros Hfs Hk Hne Hns. constructor; cbn [sblock groups storage with_groups rootGroupAddr rootHeapAddr rootBTreeAddr].
  - apply Hfs.
  - destruct (fs_root _ _ _ Hfs) as (r & Hr & ?). exists r. by rewrite lookup_delete_ne.
  - destruct (fs_noroot _ _ _ Hfs). by rewrite !lookup_delete_ne.
  - intros p Hp. destruct (decide (k = p)) as [<- |Hkp].
    + by rewrite !lookup_delete_eq.
    + rewrite !lookup_delete_ne by done. by apply (fs_table _ _ _ Hfs).
  - apply map_Forall_delete, Hfs.
  - rewrite (fs_own _ _ _ Hfs), (blocksOf_delete G k g Hk). solve_Permutation.
Qed.

Lemma group_cascade fw G rest k g n hfuel oh attrs : fs_ok fw G rest -> G !! k = Some g -> k <> [] -> k <> [slash] ->
  usable (storage fw) n -> len (contents (storage fw)) < 2 ^ 63 ->
  readHeader hfuel (contents (storage fw)) (sblock fw) (gOh g) = Ret (oh, attrs) ->
  ReferenceCount oh = 1 /\
  if bool_decide (gsItems (gSt g) = []) then
    exists st', cascadeDelete (storage fw) (sblock fw) (gOh g) (DecrementReferenceCount oh).2 = (st', Ret tt) /\
      usable st' n /\ contents st' = contents (storage fw) /\
      fs_ok (with_groups (with_storage fw st') (base.delete k (groups fw))) (base.delete k G) (mkBlock (gBa g) 544 :: rest)
  else cascadeDelete (storage fw) (sblock fw) (gOh g) (DecrementReferenceCount oh).2 = (storage fw, Err "cannot delete non-empty group").
Proof.
  intros Hfs Hk Hne Hns Hu Hf Eh. pose proof (fs_sb _ _ _ Hfs) as Hsb. pose proof Hsb as (HO & HL & HE).
  pose proof (fs_groups _ _ _ Hfs k g Hk) as Hok. pose proof Hok as (Hg & Hsz & _).
  destruct (group_header hfuel _ (sblock fw) Hf g Hok) as (off & nm & E & _).
  match type of E with _ = Ret (?h, _) => assert (h = oh) as <- by congruence end. split; [done|].
  pose proof (go_ha _ _ _ _ Hg) as Hha. rewrite Hsz in Hha. pose proof (go_ba _ _ _ _ Hg) as Hba.
  pose proof (fs_drop fw G rest k g Hfs Hk Hne Hns) as Hfs0. unfold gBlocks, groupBlocks in Hfs0. rewrite Hsz in Hfs0.
  unfold DecrementReferenceCount. cbv zeta. cbn [hVersion hFlags hType hMessages hName ReferenceCount snd]. unfold cascadeDelete. cbn [hMessages freeMessages mType mData].
  change (MsgSymbolTable =? MsgDataLayout) with false. change (MsgSymbolTable =? MsgSymbolTable) with true.
  change (MsgNil =? MsgDataLayout) with false. change (MsgNil =? MsgSymbolTable) with false. cbn iota.
  unfold freeGroupStructures. rewrite HO, HE. rewrite len_app, !len_le_put. change (Z.of_nat 8 + Z.of_nat 8 <? 2 * 8) with false. cbn iota.
  assert (R1 : readAddrFromBuf (le_put 8 (gBa g) ++ le_put 8 (gHa g)) 8 LittleEndian = Ret (gBa g)).
  { pose proof (readAddrFromBuf_at (le_put 8 (gBa g) ++ le_put 8 (gHa g)) [] (gBa g) (le_put 8 (gHa g)) 0 eq_refl eq_refl ltac:(unfold is_u; lia)) as R.
    rewrite (slice_at _ [] (le_put 8 (gBa g) ++ le_put 8 (gHa g)) []) in R; [exact R|by rewrite app_nil_r|reflexivity|lia]. }
  rewrite R1. cbn [obind].
  pose proof (readAddrFromBuf_at (le_put 8 (gBa g) ++ le_put 8 (gHa g)) (le_put 8 (gBa g)) (gHa g) [] 8
    ltac:(by rewrite app_nil_r) ltac:(by rewrite len_le_put) ltac:(unfold is_u; lia)) as R2. rewrite len_app, !len_le_put in R2.
  destruct (slice _ 8 _) as [tl|e|]; cbn [obind] in R2 |- *; [|done..]. rewrite R2. cbn [obind]. clear R1 R2.
  destruct (go_count _ _ _ _ Hg) as [_ H32].
  destruct (readGroupBTree_ok (contents (storage fw)) (gBa g) (gsKeys (gSt g)) (gsSnods (gSt g)) (sblock fw) HO HE Hba H32 (go_addrs _ _ _ _ Hg) (go_keys _ _ _ _ Hg)
    (go_tree _ _ _ _ Hg)) as (node & -> & _).
  rewrite (checkEmpty_ok _ _ _ _ HO HE (go_snods _ _ _ _ Hg)), (group_items_chunks _ _ _ _ Hg).
  destruct (bool_decide_reflect (gsItems (gSt g) = [])) as [Hemp|Hnemp]; cbn [obind]; [|reflexivity].
  set (fw0 := with_groups fw (base.delete k (groups fw))) in *.
  assert (Hfs1 : fs_ok fw0 (base.delete k G) (map snodBlock (gsSnods (gSt g)) ++ mkBlock (gHa g) 4128 :: mkBlock (gOh g) 256 :: mkBlock (gBa g) 544 :: rest)).
  { constructor; try apply Hfs0. rewrite (fs_own _ _ _ Hfs0). change (32 + 4096) with 4128. cbn [app]. solve_Permutation. }
  destruct (free_snods fw0 _ _ n _ Hfs1 Hu) as (st1 & E1 & Hfs2 & Hu2 & Hc2). change (storage fw0) with (storage fw) in E1, Hc2. rewrite E1, Hc2.
  rewrite (readLocalHeap_ok (contents (storage fw)) (gHa g) 4096 (gsUsed (gSt g))); [|done|lia| |apply Hg|].
  2:{ rewrite <- Hsz. apply Hg. }
  2:{ rewrite <- Hsz. apply Hg. }
  unfold heapSize. cbn [DataSegmentSize]. change (u64 (32 + 4096)) with 4128.
  destruct (fs_free (with_storage fw0 st1) _ (mkBlock (gHa g) 4128) _ n Hfs2 Hu2) as (Hfs3 & Hu3 & Hc3). cbn [Offset Size storage with_storage] in *.
  set (st2 := free_space st1 (gHa g) 4128) in *.
  assert (Es : ObjectHeaderSizeFromParsed (mkHeader 2 0 ObjectTypeGroup [mkMsg MsgSymbolTable off (le_put 8 (gBa g) ++ le_put 8 (gHa g)) false;
    mkMsg MsgNil (off + 20) (zeros 221) false] nm (if 1 >? 0 then 1 - 1 else 1)) = Ret 256).
  { unfold ObjectHeaderSizeFromParsed. cbn [hVersion hFlags Z.eqb Pos.eqb negb andb]. unfold messagesOf. cbn [hMessages map mType mData].
    destruct (encode_group (gBa g) (gHa g) 0) as (c & _ & Es). exact Es. }
  rewrite Es. change (256 >? 0) with true. cbn iota.
  destruct (fs_free (with_storage (with_storage fw0 st1) st2) _ (mkBlock (gOh g) 256) _ n Hfs3 Hu3) as (Hfs4 & Hu4 & Hc4). cbn [Offset Size storage with_storage] in *.
  exists (free_space st2 (gOh g) 256). split_and!; [reflexivity|exact Hu4|by rewrite Hc4, Hc3|exact Hfs4].
Qed.

Definition file_state (fw : FileW St) (s : fileState) : Prop := exists G X extra,
  fs_ok fw G (fdsBlocks X ++ extra) /\ Forall (fd_ok (contents (storage fw)) (sblock fw)) X /\ s = (group_abs <$> G, map fdSpec X).

Lemma fs_reorder fw G rest rest' : fs_ok fw G rest -> rest ≡ₚ rest' -> fs_ok fw G rest'.
Proof. intros Hfs Hp. constructor; try apply Hfs. by rewrite (fs_own _ _ _ Hfs), Hp. Qed.

Lemma fs_forget fw G rest k : fs_ok fw G rest -> k <> [] -> k <> [slash] ->
  exists rest', fs_ok (with_groups fw (base.delete k (groups fw))) (base.delete k G) (rest' ++ rest).
Proof.
  intros Hfs Hne Hns. destruct (G !! k) as [g|] eqn:Ek; [exists (gBlocks g); by apply fs_drop|]. exists [].
  assert (groups fw !! k = None) as Eg by (pose proof (fs_table _ _ _ Hfs k Hne) as Ht; rewrite Ek in Ht; by destruct (groups fw !! k)).
  rewrite !delete_id by done. by destruct fw.
Qed.

Lemma links_empty its : links its = ∅ <-> its = [].
Proof.
  split; [|by intros ->]. destruct its as [|it its]; [done|]. unfold links. cbn [map list_to_map foldr fst]. intros E.
  apply (f_equal (fun m : gmap bytes Z => m !! it.1)) in E. cbn in E. by rewrite lookup_insert_eq, lookup_empty in E.
Qed.

Lemma norm_not_child p n : n <> [] -> norm p <> childPath p n.
Proof.
  intros Hn E. pose proof (length_child p n Hn) as Hl. unfold norm in E. destruct (is_root p); [|rewrite <- E in Hl; lia].
  rewrite <- E in Hl. cbn in Hl. lia.
Qed.

Lemma offset_free st n b rest : usable st n -> owned st ≡ₚ b :: rest -> Forall (fun c => Offset c <> Offset b) rest.
Proof.
  intros Hu Ho. pose proof (owned_disjoint _ _ _ _ Hu Ho) as Hd. apply Forall_forall. intros c Hc E. rewrite Forall_forall in Hd. specialize (Hd c Hc).
  destruct (owned_range st n b Hu) as (_ & H1' & _); [rewrite Ho; by left|]. destruct (owned_range st n c Hu) as (_ & H2' & _); [rewrite Ho; by right|].
  unfold disjoint_blocks, bend in Hd. lia.
Qed.

Lemma Delete_path fw p n hfuel : path_ok p n -> Delete hfuel fw (childPath p n) =
  match unlinkFromParent fw p n with
  | Err e => (fw, Err e)
  | Panic => (fw, Panic)
  | Ret (objectAddr, fw) =>
      if (objectAddr =? undefinedAddress) || (objectAddr =? 0) then (fw, Ret tt)
      else
        match readHeader hfuel (contents (storage fw)) (sblock fw) objectAddr with
        | Err e => (fw, Err "unlinked but could not read object header")
        | Panic => (fw, Panic)
        | Ret (oh, _) =>
            let '(newRefCount, oh) := DecrementReferenceCount oh in
            if newRefCount >? 0 then
              match writeRefCount (storage fw) (sblock fw) objectAddr oh with
              | Ret st => (with_storage fw st, Ret tt)
              | Err e => (fw, Err "failed to update reference count")
              | Panic => (fw, Panic)
              end
            else
              match cascadeDelete (storage fw) (sblock fw) objectAddr oh with
              | (st, Ret _) => (with_groups (with_storage fw st) (base.delete (childPath p n) (groups fw)), Ret tt)
              | (st, Err e) => (with_storage fw st, Err e)
              | (st, Panic) => (with_storage fw st, Panic)
              end
        end
  end.
Proof.
  intros Hp. pose proof Hp as (_ & Hne & Hns). destruct (childPath_not_root p n Hne) as [H1' H2']. unfold Delete.
  rewrite !bool_decide_false by done. rewrite prefix_child by done. cbn [negb]. rewrite parsePath_child by done. reflexivity.
Qed.

Lemma unlinked_address a : 0 < a < 2 ^ 63 -> (a =? undefinedAddress) || (a =? 0) = false.
Proof. intros Ha. unfold undefinedAddress, MaxUint64. by rewrite !(proj2 (Z.eqb_neq _ _)) by lia. Qed.

Lemma delete_ok fw A D p n hfuel m : file_state fw (A, D) -> path_ok p n -> usable (storage fw) m -> 0 <= Superblock.Version (sblock fw) < 4 ->
  (forall d a, A !! norm p = Some d -> dEntries d !! n = Some a ->
    (exists x, x ∈ D /\ dAddr x = a) \/ exists d', A !! childPath p n = Some d' /\ dHeader d' = a) ->
  (forall a fw', unlinkFromParent fw p n = Ret (a, fw') -> len (contents (storage fw')) < 2 ^ 63) ->
  exists r fw' s', Delete hfuel fw (childPath p n) = (fw', r) /\ delete_step A D p n r s' /\ file_state fw' s' /\ usable (storage fw') m /\
    (r = Ret tt -> forall d a, A !! norm p = Some d -> dEntries d !! n = Some a -> Forall (fun b => Offset b <> a) (owned (storage fw'))).
Proof.
  intros (G & X & extra & Hfs & HX & [= -> ->]) Hp Hu Hver Hlink Hlen. pose proof Hp as (_ & Hne & Hns). rewrite (Delete_path _ _ _ _ Hp).
  destruct (childPath_not_root p n Hne) as [Hk1 Hk2].
  assert (Hsame : file_state fw (group_abs <$> G, map fdSpec X)) by (by exists G, X, extra).
  destruct ((group_abs <$> G) !! norm p) as [d|] eqn:Ed.
  2:{ rewrite abs_lookup in Ed. destruct (G !! norm p) eqn:Eg; [done|]. destruct (fs_no_addrs _ _ _ _ Hfs Eg) as (_ & _ & Ea).
      assert (unlinkFromParent fw p n = Err "parent group not found") as -> by (unfold unlinkFromParent; by rewrite Ea).
      exists (Err "parent group not found"), fw, (group_abs <$> G, map fdSpec X). split_and!; [done| |done|done|done].
      apply delete_parent. by rewrite abs_lookup, Eg. }
  destruct (norm_abs G p d Ed) as (g & Hg & <-). destruct (dEntries (group_abs g) !! n) as [a|] eqn:En.
  2:{ assert (unlinkFromParent fw p n = Err "child not found in parent group") as ->.
      { eapply (unlinkFromParent_absent fw p (gHa g) (gBa g) (gSt g) n (others G (norm p) g (fdsBlocks X ++ extra)));
          [apply Hfs|by eapply fs_addrs|by apply fs_group_in|]. apply links_None; [|exact En].
        destruct (fs_groups _ _ _ Hfs _ _ Hg) as (Hgo & _). apply Hgo. }
      exists (Err "child not found in parent group"), fw, (group_abs <$> G, map fdSpec X). split_and!; [done| |done|done|done]. by eapply delete_absent. }
  destruct (fs_unlink Hfirst fw G _ p n a g m Hfs Hg Hu En) as (st1 & g' & ex & E1 & Hu1 & Hfs1 & Habs & Hk).
  rewrite E1. specialize (Hlen _ _ E1). cbn [storage with_storage] in Hlen.
  assert (HX1 : Forall (fd_ok (contents st1) (sblock fw)) X) by (eapply fds_keeps; [exact HX|]; eapply keeps_sub; [|exact Hk]; by apply list_subseteq_app_l).
  set (fw1 := with_storage fw st1) in *. set (G1 := <[norm p := g']> G) in *.
  assert (HA1 : group_abs <$> G1 = <[norm p := without (group_abs g) n]> (group_abs <$> G)) by (unfold G1; by rewrite fmap_insert, Habs).
  pose proof (norm_not_child p n Hne) as Hnc.
  assert (Hrange : forall s, mkBlock a s ∈ owned st1 -> (a =? undefinedAddress) || (a =? 0) = false).
  { intros s Hin. destruct (owned_range _ _ _ Hu1 Hin) as (_ & H1' & H2'). pose proof (owned_from _ _ _ Hu1 Hin). unfold bend in H2'. cbn [Offset Size] in *.
    apply unlinked_address. lia. }
  destruct (Hlink _ _ eq_refl En) as [(y & Hy & <-)|(d' & Hd' & <-)].
  - apply list_elem_of_fmap in Hy as (x & -> & Hx). apply list_elem_of_split in Hx as (X1 & X2 & ->).
    assert (Hfs2 : fs_ok fw1 G1 (fdsBlocks (X1 ++ x :: X2) ++ ex ++ extra)) by (eapply fs_reorder; [exact Hfs1|solve_Permutation]).
    apply Forall_app in HX1 as [HX1 [Hxok HX2]%Forall_cons].
    assert (Hperm : owned st1 ≡ₚ mkBlock (dAddr (fdSpec x)) (fdHeader x) :: mkBlock (fdData x) (dSize (fdSpec x)) :: blocksOf G1 ++ fdsBlocks (X1 ++ X2) ++ ex ++ extra).
    { change (owned st1) with (owned (storage fw1)). rewrite (fs_own _ _ _ Hfs2). unfold fdsBlocks. rewrite !bind_app, bind_cons. unfold fdBlocks at 2. cbn [app]. solve_Permutation. }
    rewrite (Hrange (fdHeader x)) by (rewrite Hperm; by left). destruct (readHeader_dataset hfuel fw1 x) as (oh & attrs & Eh); [done|done|apply Hfs1|].
    cbn [storage sblock with_storage fw1] in Eh |- *. rewrite Eh.
    destruct (dataset_cascade fw1 G1 X1 x X2 (ex ++ extra) m hfuel oh attrs Hfs2 Hxok Hu1 Hlen Hver Eh) as (Hrc & st2 & E2 & Hu2 & Hc2 & Hfs3).
    destruct (DecrementReferenceCount oh) as [c oh'] eqn:Edec. cbn [snd] in E2. assert (c = 0) as ->.
    { unfold DecrementReferenceCount in Edec. rewrite Hrc in Edec. by injection Edec as <- _. }
    change (0 >? 0) with false. cbn iota. cbn [storage sblock with_storage fw1] in E2. rewrite E2.
    destruct (fs_forget (with_storage fw st2) G1 _ (childPath p n) Hfs3 Hk1 Hk2) as (rest' & Hfs4).
    exists (Ret tt), (with_groups (with_storage fw st2) (base.delete (childPath p n) (groups fw))),
      (group_abs <$> base.delete (childPath p n) G1, map fdSpec (X1 ++ X2)). split_and!; [reflexivity| | |exact Hu2|].
    + rewrite fmap_delete, HA1, (map_app fdSpec X1 X2). eapply delete_dataset; [done|exact En|by rewrite map_app].
    + exists (base.delete (childPath p n) G1), (X1 ++ X2), (rest' ++ ex ++ extra). split_and!; [|cbn [storage sblock with_groups with_storage]; rewrite Hc2; by apply Forall_app|done].
      eapply fs_reorder; [exact Hfs4|solve_Permutation].
    + intros _ d a [= <-] Ha. rewrite En in Ha. injection Ha as <-. cbn [storage with_groups with_storage].
      pose proof (offset_free _ _ _ _ Hu1 Hperm) as Hoff. apply Forall_cons in Hoff as [_ Hoff]. cbn [Offset] in Hoff.
      change (owned st2) with (owned (storage (with_storage fw1 st2))). rewrite (fs_own _ _ _ Hfs3). exact Hoff.
  - rewrite abs_lookup in Hd'. destruct (G !! childPath p n) as [gc|] eqn:Ec; [|done]. injection Hd' as <-. cbn [group_abs dHeader] in *.
    assert (Ec1 : G1 !! childPath p n = Some gc) by (unfold G1; by rewrite lookup_insert_ne).
    assert (Hfs2 : fs_ok fw1 G1 (fdsBlocks X ++ ex ++ extra)) by (eapply fs_reorder; [exact Hfs1|solve_Permutation]).
    rewrite (Hrange 256) by (change (owned st1) with (owned (storage fw1)); rewrite (fs_own _ _ _ Hfs2); apply elem_of_app; left; apply (in_blocksOf Hfirst G1 _ gc Ec1); by left).
    pose proof (fs_groups _ _ _ Hfs2 _ _ Ec1) as Hok. destruct (group_header hfuel _ (sblock fw) Hlen gc Hok) as (off & nm & Eh & _).
    cbn [storage sblock with_storage fw1] in Eh |- *. rewrite Eh.
    destruct (group_cascade fw1 G1 _ (childPath p n) gc m hfuel _ _ Hfs2 Ec1 Hk1 Hk2 Hu1 Hlen Eh) as (Hrc & Hcase).
    destruct (DecrementReferenceCount _) as [c oh'] eqn:Edec in |- *. rewrite Edec in Hcase. cbn [snd] in Hcase. assert (c = 0) as ->.
    { unfold DecrementReferenceCount in Edec. rewrite Hrc in Edec. by injection Edec as <- _. }
    change (0 >? 0) with false. cbn iota. cbn [storage sblock with_storage fw1] in Hcase.
    destruct (bool_decide_reflect (gsItems (gSt gc) = [])) as [Hemp|Hnemp].
    + destruct Hcase as (st2 & E2 & Hu2 & Hc2 & Hfs3). rewrite E2.
      exists (Ret tt), (with_groups (with_storage fw st2) (base.delete (childPath p n) (groups fw))), (group_abs <$> base.delete (childPath p n) G1, map fdSpec X).
      split_and!; [reflexivity| | |exact Hu2|].
      * rewrite fmap_delete, HA1. eapply (delete_group _ _ _ _ (group_abs g) (group_abs gc)); [done|exact En|by rewrite abs_lookup, Ec|].
        cbn [group_abs dEntries]. by apply links_empty.
      * exists (base.delete (childPath p n) G1), X, (mkBlock (gBa gc) 544 :: ex ++ extra). split_and!; [|cbn [storage sblock with_groups with_storage]; by rewrite Hc2|done].
        eapply fs_reorder; [exact Hfs3|solve_Permutation].
      * intros _ d a [= <-] Ha. cbn [group_abs dEntries] in Ha, En. rewrite En in Ha. injection Ha as <-. cbn [storage with_groups with_storage].
        assert (Hperm : exists r, owned st1 ≡ₚ mkBlock (gOh gc) 256 :: r /\ owned st2 ⊆ r).
        { pose proof (fs_own _ _ _ Hfs3) as Ho3. cbn [storage with_groups with_storage] in Ho3. pose proof (fs_own _ _ _ Hfs2) as Ho2. cbn [storage with_storage fw1] in Ho2.
          eexists. split; [rewrite Ho2, (blocksOf_delete G1 _ gc Ec1); unfold gBlocks at 1; cbn [app]; reflexivity|].
          intros b Hb. rewrite Ho3 in Hb. unfold groupBlocks. set_solver. }
        destruct Hperm as (r & Hr & Hsub). pose proof (offset_free _ _ _ _ Hu1 Hr) as Hoff. cbn [Offset] in Hoff.
        rewrite Forall_forall in Hoff. apply Forall_forall. intros b Hb. apply Hoff, Hsub, Hb.
    + rewrite Hcase. exists (Err "cannot delete non-empty group"), fw1, (group_abs <$> G1, map fdSpec X). split_and!; [done| | |exact Hu1|done].
      * rewrite HA1. eapply (delete_nonempty _ _ _ _ (group_abs g) (group_abs gc)); [done|exact En|by rewrite abs_lookup, Ec|].
        cbn [group_abs dEntries]. intros E. by apply Hnemp, links_empty.
      * by exists G1, X, (ex ++ extra).
Qed.
End refinement.

(** ** Properties *)

(** C4. Deleting does what the specification says on every file a session can
    leave: a dataset or an empty group is unlinked and its header's space given
    back, a name or parent that does not exist is an error that changes nothing,
    and a group with children is an error too - but it has been unlinked before.
    Everything else, the directories and the contents of the other datasets,
    stays as it was. *)
Theorem delete_refines {St} `{FL : StorageFreeLaws St} (Hfirst : 0 < first_address) fw A D p n hfuel m :
  file_state fw (A, D) -> path_ok p n -> usable (storage fw) m -> 0 <= Superblock.Version (sblock fw) < 4 ->
  (forall d a, A !! norm p = Some d -> dEntries d !! n = Some a ->
    (exists x, x ∈ D /\ dAddr x = a) \/ exists d', A !! childPath p n = Some d' /\ dHeader d' = a) ->
  (forall a fw', unlinkFromParent fw p n = Ret (a, fw') -> len (contents (storage fw')) < 2 ^ 63) ->
  exists r fw' s', Delete hfuel fw (childPath p n) = (fw', r) /\ delete_step A D p n r s' /\ file_state fw' s' /\ usable (storage fw') m /\
    (r = Ret tt -> forall d a, A !! norm p = Some d -> dEntries d !! n = Some a -> Forall (fun b => Offset b <> a) (owned (storage fw'))).
Proof. by apply delete_ok. Qed.

#[local] Existing Instance Session.laws48.
#[local] Instance free48 : StorageFreeLaws FileWriter := FileWriter_free_laws 48.

Example delete_refines_witness : exists fw0 rs s r fw', CreateForWrite 2 = Ret fw0 /\ runCalls (newSession fw0) demo_calls = (rs, s) /\
  Delete 0 (sFile s) [x2f; x67; x2f; x64] = (fw', r).
Proof.
  destruct (session_starts demo_calls demo_calls_admissible) as (fw0 & rs & s & G & X & extra & E1 & E2 & E3 & Hok & Hu); [vm_compute; reflexivity|].
  pose proof Hok as [Hfs _ Hx _ (b & h & Esb)].
  destruct (delete_refines first48 (sFile s) (group_abs <$> G) (map fdSpec X) [x2f; x67] [x64] 0 0) as (r & fw' & s' & E & _).
  - exists G, X, extra. split; [exact Hfs|]. split; [exact Hx|reflexivity].
  - destruct (demo_names x64) as (_ & N & _); [done..|exact N].
  - exact Hu.
  - rewrite Esb. cbn. lia.
  - intros d a Hd Ha. pose proof (run_linked _ _ _ _ E3 (demo_calls_admissible _) demo_plain (linked_new _)) as Hl. cbn [fst snd abs] in Hl.
    destruct (Hl _ d [x64] a Hd Ha) as [_ [?|?]]; [by right|by left].
  - intros a fw' E. assert (El : (let! fw0 := CreateForWrite 2 in let '(_, s) := runCalls (newSession fw0) demo_calls in
      let! (_, fw') := unlinkFromParent (sFile s) [x2f; x67] [x64] in Ret (len (contents (storage fw')) <? 2 ^ 63)) = Ret true) by (vm_compute; reflexivity).
    rewrite E1 in El. cbn [obind] in El. rewrite E2, E in El. cbn [obind] in El. injection El as El. by apply Z.ltb_lt.
  - exists fw0, rs, s, r, fw'. split; [exact E1|]. split; [exact E2|exact E].
Defined.

(** Two datasets, the first with a second link; both links deleted: where the next
    272 bytes are allocated, and where the data of the second dataset are. *)
Definition linked_session : outcome (outcome () * outcome () * Z * bool) :=
  let! fw0 := CreateForWrite 2 in
  let '(_, s) := runCalls (newSession fw0) two_datasets in
  let '(fw, _) := CreateHardLink 0 (sFile s) [x2f; x63] [x2f; x61] in
  let '(fw, r1) := Delete 0 fw [x2f; x63] in
  let '(fw, r2) := Delete 0 fw [x2f; x61] in
  let! (a, _) := allocate (storage fw) 272 in
  Ret (r1, r2, a, bool_decide (mkBlock 5568 8 ∈ blocks (allocator (storage fw)))).

(** The header of an object that was linked twice is freed with the size it grew
    to: the next 272 bytes overlap the data of the next dataset. *)
Example linked_header_misfreed : linked_session = Ret (Ret tt, Ret tt, 5304, true).
Proof. vm_compute. reflexivity. Qed.
