(* ===== verification/DenseGroup.v ===== *)
(** * Dense groups: internal/writer/densegroup_writer.go and the end of
    group_write.go

    A group made with more than eight links keeps them as messages in a fractal
    heap with a name index.  The messages are laid out differently from what the
    readers of link messages expect: no link of such a group is found again. *)

From Stdlib Require Import SpecFloat.
From S2P Require Import Prelude Allocator Storage Checksum Superblock Messages ObjectHeader LocalHeap Groups Namespace.
From S2P Require Import GroupLaws DenseStorage Attributes DatasetReader DatasetWrite DatasetLaws Session OpenFile Links.
From S2P Require FractalHeap BTreeV2 LinkMessages.
Import FractalHeap (WritableFractalHeap, NewWritableFractalHeap, heap_at, sb_plain8, ha_addr, ha_header, ha_root).
Import BTreeV2 (WritableBTreeV2, NewWritableBTreeV2).

(** ** Link messages *)

Record denseLink := mkDenseLink { dlName : bytes; targetAddr : Z }.

(** The loop shifts the value down to zero; 64 bits take at most eight rounds. *)
Fixpoint compactSize (fuel : nat) (value : Z) : Z :=
  match fuel with
  | O => 0
  | S fuel => if value >? 0 then 1 + compactSize fuel (Z.shiftr value 8) else 0
  end.

Definition compactUint64Size (value : Z) : Z := if value =? 0 then 1 else compactSize 8 value.

Definition encodeCompactUint64 (buf : bytes) (off value : Z) : outcome bytes :=
  for_loop (Z.to_nat (compactUint64Size value)) 0 (fun i buf => put_bytes buf (off + i) [z2b (Z.shiftr value (8 * i))]) buf.

(** Other sizes write nothing. *)
Definition writeUint64 (buf : bytes) (off value size : Z) (endianness : ByteOrder) : outcome bytes :=
  if (size =? 1) || (size =? 2) || (size =? 4) || (size =? 8)
  then put_bytes buf off (put_order endianness (Z.to_nat size) value) else Ret buf.

Definition createLinkMessage (link : denseLink) (sb : Superblock) : outcome bytes :=
  let nameLen := len (dlName link) in
  let nameLenSize := compactUint64Size nameLen in
  let messageSize := 4 + nameLenSize + nameLen + OffsetSize sb in
  let! buf := put_bytes (zeros messageSize) 0 [x01; x00; x04; x00] in
  let! buf := encodeCompactUint64 buf 4 nameLen in
  let! buf := copy_bytes buf (4 + nameLenSize) (dlName link) in
  writeUint64 buf (4 + nameLenSize + nameLen) (targetAddr link) (OffsetSize sb) (Endianness sb).

(** ** The writer *)

Record DenseGroupWriter := mkDGW {
  fractalHeap : WritableFractalHeap;
  btree : WritableBTreeV2;
  links : list denseLink }.

Definition NewDenseGroupWriter : DenseGroupWriter := mkDGW (NewWritableFractalHeap (512 * 1024)) (NewWritableBTreeV2 4096) [].

Definition AddLink (dgw : DenseGroupWriter) (name : bytes) (addr : Z) : outcome DenseGroupWriter :=
  guard negb (bool_decide (name = [])) else "link name cannot be empty";;
  guard negb (existsb (fun l => bool_decide (dlName l = name)) (links dgw)) else "duplicate link name";;
  Ret (mkDGW (fractalHeap dgw) (btree dgw) (links dgw ++ [mkDenseLink name addr])).

Definition createScalarDataspaceMessage : bytes := x01 :: zeros 7.

Section dense_group.
Context `{Storage St}.
(** The order in which a Go map of direct blocks is visited. *)
Context (order : WritableFractalHeap -> list Z).

(** Each link's message goes to the heap, its identifier to the index. *)
Fixpoint insertLinks (h : WritableFractalHeap) (t : WritableBTreeV2) (ls : list denseLink) (sb : Superblock)
    : outcome (WritableFractalHeap * WritableBTreeV2) :=
  match ls with
  | [] => Ret (h, t)
  | link :: ls =>
      let! linkMsg := createLinkMessage link sb in
      let '(h, inserted) := FractalHeap.InsertObject h (order h) linkMsg in
      let! heapID := inserted in
      guard len heapID >=? 8 else "invalid heap ID length";;
      let! t := BTreeV2.InsertRecord t (dlName link) (le_get (take 8 heapID)) in
      insertLinks h t ls sb
  end.

Definition createObjectHeader (linkInfo : LinkMessages.LinkInfoMessage) (st : St) (sb : Superblock) : outcome (Z * St) :=
  let! linkInfoData := LinkMessages.EncodeLinkInfoMessage linkInfo sb in
  let ohw := mkHeaderWriter 2 0 [(MsgLinkInfo, linkInfoData); (MsgDataspace, createScalarDataspaceMessage)] 0 in
  let! headerSize := Size_ ohw in
  let! (headerAddr, st) := allocate st headerSize in
  let! (writtenSize, st) := storeHeader ohw st headerAddr in
  guard writtenSize =? headerSize else "header size mismatch";;
  Ret (headerAddr, st).

Definition dgwWriteToFile (dgw : DenseGroupWriter) (st : St) (sb : Superblock) : outcome (Z * St) :=
  guard negb (len (links dgw) =? 0) else "dense group must have at least one link";;
  let! (h, t) := insertLinks (fractalHeap dgw) (btree dgw) (links dgw) sb in
  let! (heapAddr, _, st) := FractalHeap.WriteToFile h st sb in
  let! (btreeAddr, _, st) := BTreeV2.WriteToFile t st sb in
  createObjectHeader (LinkMessages.mkLinkInfo 0 0 0 heapAddr btreeAddr 0) st sb.

(** ** group_write.go *)

(** The map of links in the order in which it is visited. *)
Fixpoint addLinks (fw : FileW St) (dgw : DenseGroupWriter) (ls : list (bytes * bytes)) : outcome DenseGroupWriter :=
  match ls with
  | [] => Ret dgw
  | (linkName, targetPath) :: ls =>
      let! addr := resolveObjectAddress fw targetPath in
      let! dgw := AddLink dgw linkName addr in
      addLinks fw dgw ls
  end.

(** The parent is looked for when the group has been written; the writer as it
    is left then, and the result. *)
Definition CreateDenseGroup (fw : FileW St) (name : bytes) (ls : list (bytes * bytes)) : FileW St * outcome () :=
  match (guard HasSlashPrefix name else "group name must start with /";;
         let! dgw := addLinks fw NewDenseGroupWriter ls in
         let! (ohAddr, st) := dgwWriteToFile dgw (storage fw) (sblock fw) in
         let! (parent, childName) := parsePath name in
         Ret (ohAddr, with_storage fw st, parent, childName)) with
  | Ret (ohAddr, fw, parent, childName) =>
      if negb (parentExists fw parent) then (fw, Err "parent group does not exist")
      else match linkToParent fw parent childName ohAddr with
           | Ret fw => (fw, Ret tt)
           | Err e => (fw, Err e)
           | Panic => (fw, Panic)
           end
  | Err e => (fw, Err e)
  | Panic => (fw, Panic)
  end.

Definition denseGroupThreshold : Z := 8.

(** A small group is created before its links are refused. *)
Definition CreateGroupWithLinks (fw : FileW St) (name : bytes) (ls : list (bytes * bytes)) : FileW St * outcome () :=
  if len ls >? denseGroupThreshold then CreateDenseGroup fw name ls
  else match CreateGroup fw name with
       | Ret (_, fw) => (fw, if len ls >? 0 then Err "adding links to symbol table groups not yet supported" else Ret tt)
       | Err e => (fw, Err e)
       | Panic => (fw, Panic)
       end.
End dense_group.

(** ** What the readers make of the messages *)

Lemma compactUint64Size_byte v : 0 <= v < 256 -> compactUint64Size v = 1.
Proof.
  intros Hv. unfold compactUint64Size. destruct (Z.eqb_spec v 0); [done|]. cbn [compactSize]. destruct (Z.gtb_spec v 0); [|lia].
  rewrite Z.shiftr_div_pow2 by lia. by rewrite Z.div_small by lia.
Qed.

(** Names of up to 255 bytes have a length of one byte. *)
Lemma createLinkMessage_ret name addr sb : OffsetSize sb = 8 -> Endianness sb = LittleEndian -> len name < 256 ->
  createLinkMessage (mkDenseLink name addr) sb = Ret ([x01; x00; x04; x00; z2b (len name)] ++ name ++ le_put 8 addr).
Proof.
  intros Ho He Hn. pose proof (len_nonneg name). unfold createLinkMessage. cbn [dlName targetAddr]. rewrite Ho, He.
  rewrite compactUint64Size_byte by lia. change (zeros (4 + 1 + len name + 8)) with ([] ++ zeros (4 + 1 + len name + 8)).
  rewrite put_bytes_cursor by (autorewrite with len; lia). cbn [obind]. rewrite app_nil_l. unfold encodeCompactUint64. rewrite compactUint64Size_byte by lia.
  change (Z.to_nat 1) with 1%nat. cbn [for_loop]. rewrite Z.mul_0_r, Z.shiftr_0_r.
  rewrite (put_bytes_cursor [x01; x00; x04; x00]) by (autorewrite with len; lia). cbn [obind].
  rewrite copy_bytes_cursor by (autorewrite with len; lia). cbn [obind]. unfold writeUint64. cbn [Z.eqb Pos.eqb orb].
  rewrite put_bytes_cursor; [|autorewrite with len; lia|rewrite len_put_order; autorewrite with len; lia].
  match goal with |- Ret (?p ++ zeros ?k) = _ => replace k with 0; [by rewrite app_nil_r, <- !app_assoc|] end.
  rewrite len_put_order. autorewrite with len. lia.
Qed.

(** The length of a message that is long enough counts as part of the name. *)
Lemma ParseStructLink_misread name addr sb : OffsetSize sb = 8 -> Endianness sb = LittleEndian -> 2 <= len name ->
  LinkMessages.ParseStructLink ([x01; x00; x04; x00; z2b (len name)] ++ name ++ le_put 8 addr) sb =
  Ret (LinkMessages.mkStructLink 1 0 LinkMessages.LinkTypeHard ([x00; z2b (len name)] ++ take 2 name) 0 false 0
    (le_get (take 8 (drop 2 name ++ le_put 8 addr))) []).
Proof.
  intros Ho He Hn. destruct name as [|n0 [|n1 name]]; [rewrite ?len_cons, ?len_nil in Hn; lia..|].
  set (c := z2b (len (n0 :: n1 :: name))). set (tail := name ++ le_put 8 addr). pose proof (len_nonneg name).
  assert (Ht : 8 <= len tail) by (unfold tail; rewrite len_app, len_le_put; lia).
  change (_ ++ (n0 :: n1 :: name) ++ _) with ([x01; x00; x04] ++ [x00; c; n0; n1] ++ tail).
  unfold LinkMessages.ParseStructLink, LinkMessages.structHeader, LinkMessages.structNameLength, LinkMessages.structTarget.
  assert (Hl : len ([x01; x00; x04] ++ [x00; c; n0; n1] ++ tail) = 7 + len tail) by (rewrite !len_app; change (len [_; _; _; _]) with 4; change (len [x01; _; _]) with 3; lia).
  rewrite Hl. destruct (Z.ltb_spec (7 + len tail) 2); [lia|]. cbn [negb].
  change (idx (_ ++ _) 0) with (Ret x01). change (idx (_ ++ _) 1) with (Ret x00). cbn [obind].
  change (b2z x01 =? 1) with true. cbn iota. change (b2z x00) with 0.
  change (LinkMessages.HasLinkTypeField 0) with false. change (LinkMessages.HasCreationOrder 0) with false.
  change (LinkMessages.HasCharSetField 0) with false. cbn [obind LinkMessages.sFlags LinkMessages.sType].
  change (LinkMessages.GetLinkNameLengthSize 0) with 1.
  destruct (Z.gtb_spec (2 + 1) (7 + len tail)); [lia|]. cbn [negb].
  unfold get_le at 1. rewrite (slice_at _ [x01; x00] [x04] ([x00; c; n0; n1] ++ tail)) by done. cbn [obind]. change (le_get [x04]) with 4. change (4 =? 0) with false. change (i64 (2 + 1 + i64 4)) with 7. cbn [negb].
  destruct (Z.gtb_spec 7 (7 + len tail)); [lia|]. cbn [negb].
  rewrite (slice_at _ [x01; x00; x04] [x00; c; n0; n1] tail) by done. cbn [obind].
  change (LinkMessages.LinkTypeHard =? LinkMessages.LinkTypeHard) with true. cbn iota. rewrite Ho, He.
  destruct (Z.gtb_spec (7 + 8) (7 + len tail)); [lia|]. cbn [negb Z.eqb Pos.eqb orb].
  assert (Es : slice ([x01; x00; x04] ++ [x00; c; n0; n1] ++ tail) 7 (7 + 8) = Ret (take 8 tail)).
  { apply (slice_at _ [x01; x00; x04; x00; c; n0; n1] (take 8 tail) (drop 8 tail)); [by rewrite take_drop|done|]. unfold len in *. rewrite length_take. lia. }
  rewrite Es. reflexivity.
Qed.

(** ** What the writer stores *)

(** The message of a link as it is written. *)
Definition linkBytes (l : denseLink) : bytes := [x01; x00; x04; x00; z2b (len (dlName l))] ++ dlName l ++ le_put 8 (targetAddr l).

Lemma len_linkBytes l : len (linkBytes l) = 13 + len (dlName l).
Proof. unfold linkBytes. rewrite !len_app, len_le_put. change (len [_; _; _; _; _]) with 5. lia. Qed.

(** The records of the index: the hash of a link's name, and the identifier of
    its message in the heap. *)
Definition indexOf (ls : list denseLink) : list BTreeV2.LinkNameRecord :=
  imap (fun i l => BTreeV2.mkRecord (BTreeV2.hashOf (dlName l)) (take 7 (FractalHeap.idAt (map linkBytes ls) i))) ls.

Lemma indexOf_app ls l : indexOf (ls ++ [l]) = indexOf ls ++
  [BTreeV2.mkRecord (BTreeV2.hashOf (dlName l)) (take 7 (FractalHeap.hid (len (concat (map linkBytes ls))) (len (linkBytes l))))].
Proof.
  unfold indexOf. rewrite imap_app, map_app. f_equal.
  - apply imap_ext. intros i x Hx. rewrite FractalHeap.idAt_app; [done|]. rewrite length_map. by eapply lookup_lt_Some.
  - cbn [imap map]. do 3 f_equal. rewrite Nat.add_0_r. unfold FractalHeap.idAt, FractalHeap.offsetOf.
    rewrite <- (length_map linkBytes), take_app_length. by rewrite list_lookup_total_middle.
Qed.

(** The identifiers are those of the objects, in their order. *)
Lemma indexOf_ids ls : map BTreeV2.RecordHeapID (indexOf ls) =
  map (fun i => take 7 (FractalHeap.idAt (map linkBytes ls) i)) (seq 0 (length ls)).
Proof.
  apply list_eq. intros i. change (map BTreeV2.RecordHeapID) with (fmap (M:=list) BTreeV2.RecordHeapID).
  change (map (fun i => take 7 ?x)) with (fmap (M:=list) (fun i => take 7 x)). unfold indexOf. rewrite !list_lookup_fmap, list_lookup_imap.
  destruct (ls !! i) eqn:E; cbn.
  - apply lookup_lt_Some in E. by rewrite lookup_seq_lt by done.
  - apply lookup_ge_None in E. by rewrite lookup_seq_ge by done.
Qed.

(** The heap and the index of a dense group that hold the links, with room for
    [hr] more bytes and [ir] more links. *)
Definition group_holds (h : WritableFractalHeap) (t : WritableBTreeV2) (ls : list denseLink) (hr ir : Z) : Prop :=
  FractalHeap.holds h 524288 65536 (map linkBytes ls) /\ len (concat (map linkBytes ls)) + hr <= 65536 /\
  BTreeV2.tree_ok t /\ BTreeV2.nodeSize t = 4096 /\ len (BTreeV2.records t) + ir <= 371 /\
  BTreeV2.records t ≡ₚ indexOf ls.

Lemma new_group_holds : group_holds (NewWritableFractalHeap (512 * 1024)) (NewWritableBTreeV2 4096) [] 65536 371.
Proof.
  split; [apply FractalHeap.heap_New_holds; lia|]. split; [reflexivity|]. split; [apply BTreeV2.New_ok|]. split; [reflexivity|].
  split; [reflexivity|constructor].
Qed.

Lemma insert_link h t ls hr ir order l sb : group_holds h t ls hr ir -> OffsetSize sb = 8 -> Endianness sb = LittleEndian ->
  len (dlName l) < 256 -> 13 + len (dlName l) <= hr -> 0 < ir -> let id := FractalHeap.hid (len (concat (map linkBytes ls))) (len (linkBytes l)) in
  exists h' t', createLinkMessage l sb = Ret (linkBytes l) /\
    FractalHeap.InsertObject h order (linkBytes l) = (h', Ret id) /\
    BTreeV2.InsertRecord t (dlName l) (le_get (take 8 id)) = Ret t' /\
    group_holds h' t' (ls ++ [l]) (hr - (13 + len (dlName l))) (ir - 1).
Proof.
  intros (Hh & Hhr & Ht & Hns & Hir & Hrs) Ho He Hn Hroom Hpos id. pose proof (len_nonneg (dlName l)). pose proof (len_linkBytes l) as Hl.
  assert (Hmsg : createLinkMessage l sb = Ret (linkBytes l)) by (destruct l; by apply createLinkMessage_ret). rewrite Hmsg.
  destruct (FractalHeap.InsertObject_ret h 524288 65536 (map linkBytes ls) (linkBytes l) order Hh) as (h' & E1 & Hh' & _); [lia|lia|]. fold id in E1.
  assert (Hid : short_id id) by (apply hid_short; lia).
  assert (E8 : take 8 id = id) by (apply take_ge; pose proof (short_id_len _ Hid) as E; unfold len in E; lia).
  destruct (BTreeV2.max_records t) as [Hm1 Hm2]; [lia|].
  assert (Hmax : BTreeV2.calculateMaxRecords t = 371) by (unfold BTreeV2.calculateMaxRecords; by rewrite Hns).
  destruct (BTreeV2.InsertRecord_cases t (dlName l) (le_get id) Ht) as [(_ & t' & E2 & Ht' & (Hns' & _) & _ & Hlen & _)|[Hfull _]]; [|lia].
  exists h', t'. rewrite E8. split; [reflexivity|]. split; [exact E1|]. split; [exact E2|]. unfold group_holds. rewrite map_app. cbn [map].
  split; [exact Hh'|]. split; [rewrite concat_app, len_app; cbn [concat]; rewrite app_nil_r; lia|]. split; [exact Ht'|].
  split; [by rewrite Hns'|]. split; [lia|].
  unfold BTreeV2.InsertRecord in E2. rewrite BTreeV2.jenkinsHash_eq in E2. cbn [obind] in E2.
  destruct (Z.geb_spec (len (BTreeV2.records t)) (BTreeV2.calculateMaxRecords t)); [lia|]. cbn [negb] in E2.
  assert (t' = BTreeV2.with_records t (BTreeV2.insertRecordSorted (BTreeV2.records t) (BTreeV2.mkRecord (BTreeV2.hashOf (dlName l)) (BTreeV2.heapIDBytes (le_get id)))) 1) as -> by congruence.
  cbn [BTreeV2.with_records BTreeV2.records]. rewrite (proj2 (short_id_take id Hid)), indexOf_app. fold id.
  destruct (BTreeV2.insert_split (BTreeV2.records t) (BTreeV2.mkRecord (BTreeV2.hashOf (dlName l)) (take 7 id))) as (l1 & l2 & E & -> & _).
  rewrite E in Hrs. rewrite <- Hrs. rewrite <- Permutation_middle, (Permutation_app_comm (l1 ++ l2)). reflexivity.
Qed.

Definition linksSpace (ls : list denseLink) : Z := fold_right (fun l r => 13 + len (dlName l) + r) 0 ls.

Lemma linksSpace_nonneg ls : 0 <= linksSpace ls.
Proof. induction ls as [|l ls IH]; cbn; [lia|]. pose proof (len_nonneg (dlName l)). fold (linksSpace ls) in *. lia. Qed.

Lemma insertLinks_ok order sb ls : OffsetSize sb = 8 -> Endianness sb = LittleEndian -> forall h t old hr ir, group_holds h t old hr ir ->
  Forall (fun l => len (dlName l) < 256) ls -> linksSpace ls <= hr -> len ls <= ir ->
  exists h' t', insertLinks order h t ls sb = Ret (h', t') /\ group_holds h' t' (old ++ ls) (hr - linksSpace ls) (ir - len ls).
Proof.
  intros Ho He. induction ls as [|l ls IH]; intros h t old hr ir Hg Hn Hhr Hir.
  - exists h, t. split; [reflexivity|]. cbn [linksSpace fold_right]. rewrite app_nil_r. change (len (@nil denseLink)) with 0. by rewrite !Z.sub_0_r.
  - apply Forall_cons in Hn as [Hl Hn]. unfold linksSpace in Hhr. cbn [fold_right] in Hhr. fold (linksSpace ls) in Hhr. rewrite len_cons in Hir.
    pose proof (linksSpace_nonneg ls). pose proof (len_nonneg ls).
    destruct (insert_link h t old hr ir (order h) l sb Hg Ho He Hl) as (h1 & t1 & E1 & E2 & E3 & Hg1); [lia|lia|].
    destruct (IH h1 t1 _ _ _ Hg1 Hn) as (h2 & t2 & E4 & Hg2); [lia|lia|]. exists h2, t2. split.
    + cbn [insertLinks]. rewrite E1. cbn [obind]. rewrite E2. cbn [obind]. rewrite FractalHeap.length_hid.
      change (8 >=? 8) with true. cbn iota. rewrite E3. exact E4.
    + unfold linksSpace. cbn [fold_right]. fold (linksSpace ls). rewrite len_cons. rewrite <- app_assoc in Hg2.
      replace (hr - (13 + len (dlName l) + linksSpace ls)) with (hr - (13 + len (dlName l)) - linksSpace ls) by lia.
      replace (ir - (1 + len ls)) with (ir - 1 - len ls) by lia. exact Hg2.
Qed.

(** ** The header of a dense group *)

Definition linkInfoBytes (heapAddr btreeAddr : Z) : bytes := [x00; x00] ++ le_put 8 heapAddr ++ le_put 8 btreeAddr.

Lemma EncodeLinkInfo_ret ha ta sb : OffsetSize sb = 8 -> Endianness sb = LittleEndian ->
  LinkMessages.EncodeLinkInfoMessage (LinkMessages.mkLinkInfo 0 0 0 ha ta 0) sb = Ret (linkInfoBytes ha ta).
Proof.
  intros Ho He. unfold LinkMessages.EncodeLinkInfoMessage. rewrite Ho, He. cbn [LinkMessages.liFlags LinkMessages.liVersion
    LinkMessages.FractalHeapAddress LinkMessages.NameBTreeAddress]. reflexivity.
Qed.

Lemma ParseLinkInfo_ret ha ta sb : OffsetSize sb = 8 -> Endianness sb = LittleEndian -> is_u 64 ha -> is_u 64 ta ->
  LinkMessages.ParseLinkInfoMessage (linkInfoBytes ha ta) sb = Ret (LinkMessages.mkLinkInfo 0 0 0 ha ta 0).
Proof.
  intros Ho He Hh Ht. unfold LinkMessages.ParseLinkInfoMessage. rewrite Ho, He. set (data := linkInfoBytes ha ta).
  change (len data <? 2) with false. change (idx data 0) with (Ret x00). change (idx data 1) with (Ret x00). cbn [obind negb].
  change (b2z x00) with 0. change (0 =? 0) with true. change (Z.land 0 252 =? 0) with true. cbn iota.
  change (LinkMessages.HasCreationOrderTracking 0) with false. change (LinkMessages.HasCreationOrderIndex 0) with false. cbn iota. cbn [obind].
  change (len data <? 2 + 8) with false. change (len data <? 2 + 8 + 8) with false. cbn [negb].
  unfold LinkMessages.readUint64At.
  change (slice data 2 (len data)) with (Ret (le_put 8 ha ++ le_put 8 ta)). change (slice data (2 + 8) (len data)) with (Ret (le_put 8 ta)).
  cbn [obind]. change (le_put 8 ha) with (put_order LittleEndian (Z.to_nat 8) ha).
  rewrite readUint64_at by (first [reflexivity|exact Hh]). cbn [obind].
  rewrite <- (app_nil_r (le_put 8 ta)). change (le_put 8 ta ++ []) with (put_order LittleEndian (Z.to_nat 8) ta ++ []).
  rewrite readUint64_at by (first [reflexivity|exact Ht]). reflexivity.
Qed.

Definition headerMessages (ha ta : Z) : list MessageWriter := [(MsgLinkInfo, linkInfoBytes ha ta); (MsgDataspace, createScalarDataspaceMessage)].

(** A dense group of the links is stored with its header at [a]; its blocks. *)
Record dense_group_at (f : bytes) (sb : Superblock) (a : Z) (ls : list denseLink) (own : list block) : Prop := {
  dg_parts : exists ha ra ta la t c n,
    own = [mkBlock ha 146; mkBlock ra 524288; mkBlock la 4096; mkBlock ta 38; mkBlock a n] /\
    n = len (headBytes (mkHeaderWriter 2 0 (headerMessages ha ta) 0) ++ le_put 4 c) /\
    stored f a (headBytes (mkHeaderWriter 2 0 (headerMessages ha ta) 0) ++ le_put 4 c) /\
    heap_at f ha ra sb 524288 (map linkBytes ls) /\ ra + 524288 < 2 ^ 63 /\
    BTreeV2.tree_at f ta sb t /\ 0 < ta /\ BTreeV2.tree_ok t /\ BTreeV2.nodeSize t = 4096 /\ BTreeV2.RootNodeAddr (BTreeV2.header t) = la /\
    len (BTreeV2.records t) <= 371 /\ BTreeV2.records t ≡ₚ indexOf ls;
  dg_addr : 0 < a < 2 ^ 63 }.

Lemma dense_group_preserved f f' sb a ls own keep : dense_group_at f sb a ls own -> sb_plain8 sb -> preserves f f' keep -> own ⊆ keep ->
  dense_group_at f' sb a ls own.
Proof.
  intros [(ha & ra & ta & la & t & c & n & -> & Hn & Hst & Hh & Hr & Ht & Hta & Hok & Hns & Hla & Hlen & Hrs) Ha] Hsb Hp Hsub.
  constructor; [|exact Ha]. exists ha, ra, ta, la, t, c, n. split_and!; try done.
  - apply (Hp (mkBlock a n) a); [apply Hsub; do 4 right; left|done|unfold bend; cbn [Offset Size]; lia|exact Hst].
  - eapply heap_at_preserved; [exact Hh|exact Hsb|exact Hp|apply Hsub; left|apply Hsub; right; left].
  - destruct Ht as [T1 T2 T3 T4]. constructor; [| |done|done].
    + apply (Hp (mkBlock ta 38) ta); [apply Hsub; do 3 right; left|done| |exact T1].
      rewrite BTreeV2.len_header_summed by (done || apply Hsb). unfold bend. cbn [Offset Size]. lia.
    + rewrite Hla in T2 |- *. apply (Hp (mkBlock la 4096) la); [apply Hsub; do 2 right; left|done| |exact T2].
      rewrite len_summed, BTreeV2.len_leafBody; rewrite (BTreeV2.to_leaf _ Hok); [|done|apply Hok].
      cbn [BTreeV2.Records]. unfold bend. cbn [Offset Size]. lia.
Qed.

Lemma lookups_all (l : list bytes) : map (fun i => l !!! i) (seq 0 (length l)) = l.
Proof.
  apply list_eq. intros i. change (map ?g ?k) with (g <$> k). rewrite list_lookup_fmap. destruct (l !! i) as [x|] eqn:E.
  - rewrite lookup_seq_lt by (by eapply lookup_lt_Some). cbn. f_equal. by apply list_lookup_total_correct.
  - rewrite lookup_seq_ge by (by apply lookup_ge_None). done.
Qed.

(** A reader of the heap gets the messages the identifiers name. *)
Lemma readHeapObjects_links f sb hh ha ra ls : sb_plain8 sb -> heap_at f ha ra sb 524288 (map linkBytes ls) -> ra + 524288 < 2 ^ 63 ->
  rhRootBlockAddress hh = ra -> rhHeapOffsetSize hh = 2 -> rhHeapLengthSize hh = FractalHeap.readLengthSize 524288 -> rhChecksumDirBlocks hh = false ->
  forall ks, Forall (fun i => (i < length ls)%nat) ks ->
  readHeapObjects f (map (fun i => take 7 (FractalHeap.idAt (map linkBytes ls) i)) ks) sb hh = Ret (map (fun i => map linkBytes ls !!! i) ks).
Proof.
  intros Hsb Hh Hend H1 H2 H3 H4. destruct Hh as [_ Hblk Ha Hr [[HB H65] Hfit] Hpos].
  induction 1 as [|i ks Hi _ IH]; [done|]. cbn [map readHeapObjects]. rewrite <- (length_map linkBytes) in Hi.
  destruct (FractalHeap.object_bounds _ i Hi Hpos) as (B1 & B2 & B3). unfold FractalHeap.idAt at 1.
  rewrite (raw_id_ret _ _ 524288) by (first [exact H2|exact H3|lia]). cbn [obind]. rewrite H1.
  rewrite (raw_object_ret f sb Hsb ra ha 524288 (map linkBytes ls) hh i) by (first [done|lia]). cbn [obind]. rewrite IH. reflexivity.
Qed.

(** What is in the file for a dense group of the links: an object header with the
    addresses of a heap and of a name index; the index has a record for each
    link, and whoever follows its identifiers into the heap gets the message of
    each link once. *)
Definition links_stored (f : bytes) (sb : Superblock) (a : Z) (ls : list denseLink) : Prop :=
  exists ha ta t raws c, stored f a (headBytes (mkHeaderWriter 2 0 (headerMessages ha ta) 0) ++ le_put 4 c) /\
    0 < ha < 2 ^ 63 /\ 0 < ta < 2 ^ 63 /\ BTreeV2.tree_at f ta sb t /\ BTreeV2.records t ≡ₚ indexOf ls /\
    ReadDenseHeapObjects f ta ha sb = Ret raws /\ raws ≡ₚ map linkBytes ls.

Lemma read_dense_links f sb a ls own : dense_group_at f sb a ls own -> sb_plain8 sb -> links_stored f sb a ls.
Proof.
  intros [(ha & ra & ta & la & t & c & n & _ & _ & Hst & Hh & Hr & Ht & Hta & Hok & Hns & Hla & Hlen & Hrs) Ha] Hsb.
  pose proof (ha_addr _ _ _ _ _ _ Hh) as Hha. pose proof (ha_header _ _ _ _ _ _ Hh) as (free & count & ls' & _ & _ & Hhst).
  pose proof (ha_root _ _ _ _ _ _ Hh) as Hra. pose proof (BTreeV2.ta_addr _ _ _ _ Ht). pose proof (len_nonneg (BTreeV2.records t)).
  destruct (raw_tree_ret f sb Hsb ta t Ht Hok) as (th & E1 & Ed & Er & En); [rewrite Hns; unfold is_u; lia|unfold is_u; lia|].
  destruct (raw_heap_ret f sb Hsb ha 524288 free _ count ra ls' Hhst) as (hh & E2 & Hra' & Hos & Hls & Hck); [lia|lia|lia|].
  assert (E4 : readBTreeV2LeafRecords f (rtRootNodeAddr th) (rtNumRecordsRoot th) = Ret (map BTreeV2.RecordHeapID (BTreeV2.records t))).
  { rewrite Er, En. apply raw_leaf_ret; [apply Hok|apply Ht|]. rewrite <- (BTreeV2.to_leaf _ Hok). exact (BTreeV2.ta_leaf _ _ _ _ Ht). }
  pose proof (Permutation_map BTreeV2.RecordHeapID Hrs) as Hids. rewrite indexOf_ids in Hids.
  destruct (Permutation_map_inv _ _ Hids) as (ks & Eks & Hks).
  assert (Hin : Forall (fun i => (i < length ls)%nat) ks) by (rewrite <- Hks; apply Forall_forall; intros i Hi%elem_of_seq; lia).
  exists ha, ta, t, (map (fun i => map linkBytes ls !!! i) ks), c. split_and!; [exact Hst|lia|lia|lia|lia|exact Ht|exact Hrs| |].
  - unfold ReadDenseHeapObjects. rewrite E1. cbn [obind]. rewrite Ed. change (0 =? 0) with true. cbn iota. rewrite E4. cbn [obind].
    rewrite Eks. destruct (Z.eqb_spec (len (map (fun i => take 7 (FractalHeap.idAt (map linkBytes ls) i)) ks)) 0) as [Hz|_].
    + rewrite len_map in Hz. by apply len_0_nil in Hz as ->.
    + rewrite E2. cbn [obind]. by eapply readHeapObjects_links.
  - rewrite <- Hks, <- (length_map linkBytes). by rewrite lookups_all.
Qed.

(** A name that is not too short puts eight of its bytes where the address is
    looked for. *)
Definition long_name (name : bytes) : Prop := len name < 256 /\ exists b, name !! 9%nat = Some b /\ b <> x00.

Lemma misread_address name addr : long_name name -> 2 ^ 56 <= le_get (take 8 (drop 2 name ++ le_put 8 addr)) < 2 ^ 64.
Proof.
  intros (_ & b & Hb & Hne). apply list_elem_of_split_length in Hb as (l1 & l2 & -> & Hl1).
  destruct l1 as [|? [|? [|b0 [|b1 [|b2 [|b3 [|b4 [|b5 [|b6 [|? ?]]]]]]]]]]; try discriminate Hl1.
  change (take 8 _) with [b0; b1; b2; b3; b4; b5; b6; b]. cbn [le_get].
  pose proof (b2z_range b0). pose proof (b2z_range b1). pose proof (b2z_range b2). pose proof (b2z_range b3). pose proof (b2z_range b4).
  pose proof (b2z_range b5). pose proof (b2z_range b6). pose proof (b2z_range b).
  assert (b2z b <> 0) by (intros E; apply Hne, b2z_inj; rewrite E; reflexivity). lia.
Qed.

Lemma headerMessages_ok ha ta : Forall msg_ok (headerMessages ha ta).
Proof.
  assert (len (linkInfoBytes ha ta) = 18) by reflexivity. assert (len createScalarDataspaceMessage = 8) by reflexivity.
  constructor; [split; cbn [fst snd]; unfold MsgLinkInfo; lia|]. constructor; [split; cbn [fst snd]; unfold MsgDataspace; lia|constructor].
Qed.

(** Nothing can be loaded from an address behind the end of the file. *)
Lemma load_beyond depth hfuel f sb a name V : 2 ^ 56 <= a < 2 ^ 64 -> len f < 2 ^ 56 ->
  exists e, loadObject (S depth) hfuel f sb a name V = (V, Err e).
Proof.
  intros Ha Hf. change (loadObject (S depth) hfuel f sb a name) with
    (loadObjectBody hfuel f sb (loadObject depth hfuel f sb) (loadGroupWithCachedSymbolTable depth hfuel f sb) a name).
  assert (Hi : i64 a < 0 \/ 2 ^ 56 <= i64 a).
  { destruct (Z.lt_ge_cases a (2 ^ 63)); [right; rewrite i64_id by lia; lia|left]. unfold i64. Z.to_euclidean_division_equations; lia. }
  assert (Hr : forall n, 0 < n -> read_at f (i64 a) n = Err "EOF").
  { intros n Hn. unfold read_at. destruct (Z.leb_spec 0 (i64 a)), (Z.leb_spec (i64 a + n) (len f)); try done; lia. }
  unfold loadObjectBody. unfold vbind at 1. cbn [vlift]. unfold readSignature. rewrite Hr by lia.
  rewrite (bool_decide_false ([] = SignatureSNOD)) by done. unfold vbind at 1. cbn [vlift]. unfold readHeader, ReadObjectHeader.
  destruct (Z.ltb_spec (i64 a) 0); cbn [negb obind]; [by eexists|]. rewrite Hr by lia. cbn [obind]. by eexists.
Qed.

Lemma denseChildren_lost depth hfuel f sb ls raws V : OffsetSize sb = 8 -> Endianness sb = LittleEndian -> len f < 2 ^ 56 ->
  Forall (fun l => long_name (dlName l)) ls -> raws ≡ₚ map linkBytes ls ->
  denseChildren sb (loadObject (S depth) hfuel f sb) raws V = (V, Ret []).
Proof.
  intros Ho He Hf Hls Hr. destruct (Permutation_map_inv _ _ Hr) as (ls' & -> & Hp). rewrite Hp in Hls. clear Hr Hp.
  induction Hls as [|l ls' Hlong _ IH]; [done|]. cbn [map denseChildren]. pose proof Hlong as (_ & b & Hb & _). apply lookup_lt_Some in Hb.
  unfold linkBytes at 1. rewrite ParseStructLink_misread by (done || (unfold len; lia)).
  set (lm := LinkMessages.mkStructLink _ _ _ _ _ _ _ _ _). change (LinkMessages.IsSoftLink lm) with false. change (LinkMessages.IsHardLink lm) with true.
  cbn [negb orb]. unfold vbind at 1, vtry.
  destruct (load_beyond depth hfuel f sb (LinkMessages.sObjectAddress lm) (LinkMessages.sName lm) V) as [e ->]; [by apply misread_address|done|].
  unfold vbind. rewrite IH. reflexivity.
Qed.

Lemma load_dense_group depth hfuel f sb a ls own name V : dense_group_at f sb a ls own -> sb_plain8 sb -> len f < 2 ^ 56 ->
  Forall (fun l => long_name (dlName l)) ls -> name <> [] ->
  loadObject (S (S depth)) hfuel f sb a name V = (V, Ret (GroupObject name a [] None None)).
Proof.
  intros Hg Hsb Hf Hls Hn. pose proof (dg_addr _ _ _ _ _ Hg) as Ha. pose proof Hsb as (Ho & _ & He).
  destruct (read_dense_links _ _ _ _ _ Hg Hsb) as (ha & ta & t & raws & c & Hst & Hha & Hta & _ & _ & Er & Hraws).
  pose proof (header_signature _ _ _ _ Hst ltac:(lia)) as Hs.
  destruct (readHeader_ok hfuel f a sb (headerMessages ha ta) c Hst) as (off & nm & E);
    [by apply headerMessages_ok|repeat constructor; done|repeat constructor; done|lia|].
  cbv zeta in E. set (msgs := readBackMessages off _) in E.
  assert (Em : exists o1, msgs = [mkMsg MsgLinkInfo off (linkInfoBytes ha ta) false; mkMsg MsgDataspace o1 createScalarDataspaceMessage false])
    by (eexists; reflexivity). destruct Em as [o1 Em]. rewrite Em in E. clear msgs Em.
  rewrite load_step by exact Hs. rewrite E. unfold vbind at 1. cbn [vlift fst hType].
  change (determineObjectType (mkMsg MsgLinkInfo off _ false :: _)) with ObjectTypeGroup. cbn iota.
  assert (loadGroup hfuel f sb (loadObject (S depth) hfuel f sb) (loadGroupWithCachedSymbolTable (S depth) hfuel f sb) a V =
    (V, Ret (GroupObject nm a [] None None))) as Hld.
  { unfold loadGroup. rewrite (proj2 (Z.eqb_neq a 0)) by lia. unfold vbind at 1. cbn [vlift]. rewrite Hs.
    rewrite (bool_decide_false (ohdr_sig = SignatureSNOD)) by done. unfold loadModernGroup. rewrite E. unfold vbind at 1.
    cbn [vlift hType hName hMessages]. change (determineObjectType (mkMsg MsgLinkInfo off _ false :: _)) with ObjectTypeGroup. cbn [negb].
    change (linkChildren sb ?l [mkMsg MsgLinkInfo off ?d false; mkMsg MsgDataspace o1 ?d' false]) with (vlift (Ret (false, @nil Object))).
    unfold vbind at 1. cbn [vlift infoChildren mType mData]. change (MsgLinkInfo =? MsgLinkInfo) with true. cbn [negb].
    rewrite ParseLinkInfo_ret by (first [done | unfold is_u; lia]). unfold vbind at 2. cbn [vlift].
    unfold LinkMessages.HasFractalHeap, LinkMessages.HasNameBTree. cbn [LinkMessages.FractalHeapAddress LinkMessages.NameBTreeAddress].
    rewrite (proj2 (Z.eqb_neq ha 0)), (proj2 (Z.eqb_neq ta 0)), (proj2 (Z.eqb_neq ha MaxUint64)), (proj2 (Z.eqb_neq ta MaxUint64))
      by (unfold MaxUint64; lia). cbn [negb andb orb]. rewrite Er. unfold vbind. cbn [vlift].
    rewrite (denseChildren_lost depth hfuel f sb ls raws V) by done. reflexivity. }
  unfold vbind. rewrite Hld. cbn [vlift named]. by rewrite bool_decide_false.
Qed.

Section storing.
Context `{SL : StorageLaws St}.
Hypothesis Hfirst : 0 < first_address.

Lemma createObjectHeader_ok ha ta st m sb : OffsetSize sb = 8 -> Endianness sb = LittleEndian -> usable st (100 + m) -> 0 <= m ->
  exists a n st' c, let h := headBytes (mkHeaderWriter 2 0 (headerMessages ha ta) 0) ++ le_put 4 c in
    createObjectHeader (LinkMessages.mkLinkInfo 0 0 0 ha ta 0) st sb = Ret (a, st') /\ n = len h /\ usable st' m /\
    owned st' = owned st ++ [mkBlock a n] /\ preserves (contents st) (contents st') (owned st) /\ 0 < a < 2 ^ 63 /\
    stored (contents st') a h.
Proof.
  intros Ho He Hu Hm. unfold createObjectHeader. rewrite EncodeLinkInfo_ret by done. cbn [obind]. fold (headerMessages ha ta).
  set (ohw := mkHeaderWriter 2 0 (headerMessages ha ta) 0).
  assert (Hb : len (bodyBytes (Messages ohw)) = 34) by reflexivity.
  destruct (encodeV2_ret ohw ltac:(lia)) as (c & _ & _ & Ee & Es). pose proof (len_headBytes ohw ltac:(lia)) as Hh.
  destruct (width_cases (len (bodyBytes (Messages ohw))) ltac:(lia)) as (Hw & _).
  assert (Hlen : len (headBytes ohw ++ le_put 4 c) = len (headBytes ohw) + 4) by (rewrite len_app, len_le_put; lia).
  unfold Size_. cbn [wVersion ohw Z.eqb Pos.eqb]. fold ohw. rewrite Es. cbn [obind].
  destruct (allocate_law st _ (len (headBytes ohw) + 4) Hu ltac:(lia)) as (a & st1 & E1 & Hu1 & Hc1 & Ho1 & Hd).
  rewrite E1. cbn [obind].
  assert (Hblk : mkBlock a (len (headBytes ohw) + 4) ∈ owned st1) by (rewrite Ho1; apply elem_of_app; right; by left).
  destruct (owned_range _ _ _ Hu1 Hblk) as (Hr1 & _ & Hr2). unfold bend in Hr2. cbn [Offset Size] in *.
  pose proof (owned_from _ _ _ Hu1 Hblk) as Hfrom. cbn [Offset] in Hfrom.
  destruct (write_law st1 _ (headBytes ohw ++ le_put 4 c) a Hu1 ltac:(lia) ltac:(lia)) as (st2 & E2 & Hu2 & Ho2 & Hc2).
  unfold storeHeader. cbn [wVersion ohw Z.eqb Pos.eqb]. fold ohw. rewrite Ee. cbn [obind]. rewrite E2. cbn [obind].
  rewrite Z.eqb_refl. exists a, (len (headBytes ohw) + 4), st2, c. cbv zeta.
  split_and!; [done|done|eapply usable_mono; [exact Hu2|lia]|by rewrite Ho2, Ho1| |lia|lia|].
  - rewrite Hc2, Hc1. apply (write_preserves _ (mkBlock a (len (headBytes ohw) + 4))); cbn [Offset]; unfold bend; cbn [Offset Size]; (done || lia).
  - rewrite Hc2. apply stored_write. lia.
Qed.

Lemma addLinks_ok fw es : forall dgw ts, Forall2 (fun e t => resolveObjectAddress fw e.2 = Ret t /\ is_u 64 t) es ts ->
  Forall (fun e : bytes * bytes => e.1 <> []) es -> NoDup es.*1 -> (forall e l, e ∈ es -> l ∈ links dgw -> dlName l <> e.1) ->
  addLinks fw dgw es = Ret (mkDGW (fractalHeap dgw) (btree dgw) (links dgw ++ zip_with (fun e t => mkDenseLink e.1 t) es ts)).
Proof.
  induction es as [|[nm tp] es IH]; intros dgw ts Hf Hne Hnd Hnew.
  - inversion Hf; subst. cbn [addLinks zip_with]. rewrite app_nil_r. by destruct dgw.
  - apply Forall2_cons_inv_l in Hf as (t & ts' & [Et _] & Hf & ->). apply Forall_cons in Hne as [Hn Hne]. cbn [fst snd] in *.
    rewrite fmap_cons in Hnd. apply NoDup_cons in Hnd as [Hni Hnd]. cbn [addLinks]. rewrite Et. cbn [obind]. unfold AddLink.
    rewrite bool_decide_false by done. cbn [negb].
    assert (existsb (fun l => bool_decide (dlName l = nm)) (links dgw) = false) as ->.
    { apply not_true_iff_false. intros (l & Hl & Hb%bool_decide_eq_true)%existsb_exists. apply list_elem_of_In in Hl.
      by apply (Hnew (nm, tp) l); [left|..]. }
    cbn [negb obind]. rewrite (IH _ ts' Hf Hne Hnd).
    + cbn [fractalHeap btree links zip_with fst]. by rewrite <- app_assoc.
    + cbn [links]. intros e l He [Hl|Hl]%elem_of_app; [apply Hnew; [by right|done]|]. apply list_elem_of_singleton in Hl as ->. cbn [dlName].
      intros E. apply Hni. rewrite E. exact (list_elem_of_fmap_2 fst es e He).
Qed.

Lemma dgwWriteToFile_ok order ls st m sb : sb_plain8 sb -> Forall (fun l => len (dlName l) < 256) ls -> linksSpace ls <= 65536 ->
  0 < len ls <= 371 -> usable st (528668 + 100 + m) -> 0 <= m ->
  exists a st' own, dgwWriteToFile order (mkDGW (NewWritableFractalHeap (512 * 1024)) (NewWritableBTreeV2 4096) ls) st sb = Ret (a, st') /\
    usable st' m /\ owned st' = owned st ++ own /\ preserves (contents st) (contents st') (owned st) /\ dense_group_at (contents st') sb a ls own.
Proof.
  intros Hsb Hn Hsp Hc Hu Hm. pose proof Hsb as (Ho & _ & He). unfold dgwWriteToFile. cbn [links fractalHeap btree].
  rewrite (proj2 (Z.eqb_neq (len ls) 0)) by lia. cbn [negb].
  destruct (insertLinks_ok order sb ls Ho He _ _ [] 65536 371 new_group_holds Hn) as (h & t & E1 & Hh & Hhr & Hok & Hns & Hir & Hrs); [lia|lia|].
  rewrite E1. cbn [obind app] in *. assert (Hf0 : 0 <= first_address) by lia.
  destruct (FractalHeap.heap_WriteToFile_fits Hfirst h 524288 65536 (map linkBytes ls) st _ sb Hu Hh ltac:(lia) Hsb) as (ha & ra & h' & st1 & E2 & Hu1 & Eo1 & Hp1 & Hat & _); [lia|].
  rewrite E2. cbn [obind].
  destruct (BTreeV2.tree_WriteToFile_ok Hf0 t st1 _ sb Hu1 Hok Ho) as (ta & la & st2 & E3 & Hu2 & Eo2 & Hta & Hp2 & Htat); [lia|lia|].
  rewrite E3. cbn [obind]. rewrite Hns in Hu2, Eo2.
  destruct (createObjectHeader_ok ha ta st2 m sb Ho He) as (a & n & st3 & c & E4 & Hlen & Hu3 & Eo3 & Hp3 & Ha & Hst); [eapply usable_mono; [exact Hu2|lia]|lia|].
  set (own := [mkBlock ha 146; mkBlock ra 524288; mkBlock la 4096; mkBlock ta 38; mkBlock a n]).
  assert (Ho2 : owned st2 = owned st ++ [mkBlock ha 146; mkBlock ra 524288; mkBlock la 4096; mkBlock ta 38]) by (rewrite Eo2, Eo1, <- app_assoc; reflexivity).
  assert (Ho3 : owned st3 = owned st ++ own) by (rewrite Eo3, Ho2, <- app_assoc; reflexivity).
  exists a, st3, own. split; [exact E4|]. split; [exact Hu3|]. split; [exact Ho3|]. split.
  { apply (preserves_trans _ (contents st2) _ _ (owned st2)); [rewrite Ho2; by apply list_subseteq_app_l| |exact Hp3].
    apply (preserves_trans _ (contents st1) _ _ (owned st1)); [rewrite Eo1; by apply list_subseteq_app_l|exact Hp1|exact Hp2]. }
  assert (Hin1 : forall b, b ∈ [mkBlock ha 146; mkBlock ra 524288] -> b ∈ owned st1) by (intros b Hb; rewrite Eo1; apply elem_of_app; by right).
  assert (Hin2 : forall b, b ∈ [mkBlock ha 146; mkBlock ra 524288; mkBlock la 4096; mkBlock ta 38] -> b ∈ owned st2) by (intros b Hb; rewrite Ho2; apply elem_of_app; by right).
  destruct (owned_range _ _ _ Hu1 (Hin1 (mkBlock ra 524288) ltac:(right; left))) as (_ & _ & Hr). unfold bend in Hr. cbn [Offset Size] in Hr.
  constructor; [|exact Ha]. exists ha, ra, ta, la, (BTreeV2.with_root t la), c, n. split_and!; try done.
  - apply (heap_at_preserved (contents st2) _ _ _ _ _ _ (owned st2)); [|exact Hsb|exact Hp3|apply Hin2; left|apply Hin2; right; left].
    apply (heap_at_preserved (contents st1) _ _ _ _ _ _ (owned st1)); [exact Hat|exact Hsb|exact Hp2|apply Hin1; left|apply Hin1; right; left].
  - pose proof (BTreeV2.with_root_ok t la Hok) as Hok'. destruct Htat as [T1 T2 T3 T4]. constructor; [| |exact T3|exact T4].
    + apply (Hp3 (mkBlock ta 38) ta); [apply Hin2; do 3 right; left|done| |exact T1].
      rewrite BTreeV2.len_header_summed by done. unfold bend. cbn [Offset Size]. lia.
    + apply (Hp3 (mkBlock la 4096) la); [apply Hin2; do 2 right; left|done| |exact T2].
      rewrite len_summed, BTreeV2.len_leafBody; rewrite (BTreeV2.to_leaf _ Hok'); [|done|apply Hok'].
      cbn [BTreeV2.Records BTreeV2.with_root BTreeV2.records]. unfold bend. cbn [Offset Size]. lia.
  - lia.
  - by apply BTreeV2.with_root_ok.
  - cbn [BTreeV2.with_root BTreeV2.records]. pose proof (len_nonneg ls). lia.
Qed.
End storing.

(** ** Properties *)

(** C34. A group created with more than eight links loses them. For every file
    and group the code accepts and enough free space, [CreateGroupWithLinks]
    with 9 to 371 links of distinct names of 10 to 255 bytes (the tenth not
    zero), whose messages (13 bytes and the name) take at most 65536 bytes, to
    objects of the file succeeds and adds the new group to its parent. The file
    then has an object header for it that names a fractal heap and a name index;
    the index has for each link a record of the name's hash and of the link's
    message in the heap, and whoever follows the records into the heap gets the
    message of each link once; but whoever loads the group, in a file below 2^56
    bytes, finds no children. The messages put type, flags and character set
    where the reader expects flags and the length of the name, so that it takes
    four bytes, two of them of the name, for the name and the next eight bytes
    of the name for the object's address. *)
Theorem dense_groups_lose_links `{StorageLaws St} (order : WritableFractalHeap -> list Z) (fw : FileW St) (A : ns) (p n : bytes) (d : dir)
  (ls : list (bytes * bytes)) (ts : list Z) (m : Z)
  (Hfirst : 0 < first_address) (Hr : repr fw A) (Hd : A !! norm p = Some d) (Hp : path_ok p n) (Hn : name_ok n) (Hroom : room A p n)
  (Hlen : 8 < len ls <= 371) (Hnd : NoDup ls.*1) (Hlong : Forall (fun e => long_name e.1) ls)
  (Hsp : fold_right (fun e r => 13 + len e.1 + r) 0 ls <= 65536)
  (Ht : Forall2 (fun e t => resolveObjectAddress fw e.2 = Ret t /\ is_u 64 t) ls ts)
  (Hu : usable (storage fw) (529096 + m)) (Hm : 0 <= m) :
  exists a fw', CreateGroupWithLinks order fw (childPath p n) ls = (fw', Ret tt) /\ repr fw' (<[norm p := addEntry d n a]> A) /\
    links_stored (contents (storage fw')) (sblock fw) a (zip_with (fun e t => mkDenseLink e.1 t) ls ts) /\
    forall depth hfuel V, len (contents (storage fw')) < 2 ^ 56 ->
      loadObject (S (S depth)) hfuel (contents (storage fw')) (sblock fw') a n V = (V, Ret (GroupObject n a [] None None)).
Proof.
  destruct Hr as (G & rest & Hfs & ->). destruct (norm_abs G p d Hd) as (g & Hg & <-). destruct (Hroom _ Hd) as (R1 & R2 & R3).
  destruct (fs_sb _ _ _ Hfs) as (Ho & Hlsz & He). assert (Hsb : sb_plain8 (sblock fw)) by (by split_and!).
  set (dls := zip_with (fun e t => mkDenseLink e.1 t) ls ts).
  assert (El : map dlName dls = ls.*1).
  { unfold dls. clear - Ht. induction Ht as [|e t ls ts _ _ IH]; [done|]. cbn [zip_with map]. rewrite fmap_cons. by rewrite IH. }
  assert (Hl : length dls = length ls) by (apply (f_equal length) in El; by rewrite length_map, length_fmap in El).
  assert (Hlg : Forall (fun l => long_name (dlName l)) dls).
  { apply (Forall_map dlName). rewrite El. by apply Forall_fmap. }
  assert (Hs : linksSpace dls = fold_right (fun e r => 13 + len e.1 + r) 0 ls).
  { clear - Ht. unfold dls. induction Ht as [|e t ls ts _ _ IH]; [done|]. unfold linksSpace in *. cbn [zip_with fold_right dlName]. by rewrite IH. }
  destruct (dgwWriteToFile_ok Hfirst order dls (storage fw) (328 + m) (sblock fw) Hsb) as (a & st & own & E1 & Hu1 & Ho1 & Hp1 & Hg1);
    [by eapply Forall_impl; [exact Hlg|]; intros l [Hx _]|lia|unfold len in *; lia|eapply usable_mono; [exact Hu|lia]|lia|].
  assert (Hfs1 : fs_ok (with_storage fw st) G (own ++ rest)).
  { apply (fs_extend Hfirst); [done|exact Ho1|]. apply preserves_keeps. eapply preserves_sub; [|exact Hp1]. rewrite (fs_own _ _ _ Hfs). by apply list_subseteq_app_l. }
  destruct (fs_link Hfirst _ G _ p n a g m Hfs1 Hg) as (st2 & g2 & E2 & Hu2 & Hfs2 & Habs2 & Hk2);
    [exact Hu1|done|done|pose proof (dg_addr _ _ _ _ _ Hg1); unfold is_u; lia|done..|].
  exists a, (with_storage (with_storage fw st) st2).
  assert (Hg2 : dense_group_at (contents (storage (with_storage (with_storage fw st) st2))) (sblock fw) a dls own).
  { eapply dense_group_preserved; [exact Hg1|exact Hsb|exact Hk2|by apply list_subseteq_app_l]. }
  split_and!.
  - unfold CreateGroupWithLinks, denseGroupThreshold. destruct (Z.gtb_spec (len ls) 8); [|lia]. unfold CreateDenseGroup.
    assert (HasSlashPrefix (childPath p n) = true) as ->.
    { unfold childPath. destruct p as [|b p]; [reflexivity|]. destruct Hp as ([Hp|Hp] & _ & _); [done|]. destruct b; done. }
    cbn [obind]. rewrite (addLinks_ok fw ls NewDenseGroupWriter ts Ht); [|eapply Forall_impl; [exact Hlong|]|exact Hnd|].
    2: { intros e (_ & b & Hb & _) E. by rewrite E in Hb. }
    2: { intros e l _ Hx. by apply elem_of_nil in Hx. }
    cbn [obind NewDenseGroupWriter fractalHeap btree links app]. fold dls. rewrite E1. cbn [obind].
    destruct Hp as (Hp1' & Hp2 & Hp3). rewrite (parsePath_child p n Hp2 Hp3). cbn [obind].
    rewrite (parent_exists _ G (own ++ rest) p g Hfs1 Hg). cbn [negb]. by rewrite E2.
  - exists (<[norm p := g2]> G), (own ++ rest). split; [exact Hfs2|]. by rewrite fmap_insert, Habs2.
  - exact (read_dense_links _ _ _ _ _ Hg2 Hsb).
  - intros depth hfuel V Hf. eapply load_dense_group; [exact Hg2|exact Hsb|exact Hf|exact Hlg|apply Hn].
Qed.

#[local] Existing Instance Session.laws48.

Definition demo_links : list (bytes * bytes) :=
  map (fun i => (String.list_byte_of_string "temperature" ++ [z2b (48 + Z.of_nat i)], [slash])) (seq 0 9).

Example dense_groups_lose_links_witness : exists fw a fw', CreateForWrite 2 = Ret fw /\
  CreateGroupWithLinks (fun _ => []) fw [x2f; x67] demo_links = (fw', Ret tt) /\
  repr fw' (<[[] := addEntry (mkDir (rootGroupAddr fw) ∅ 1) [x67] a]> (newSpace (rootGroupAddr fw))).
Proof.
  destruct (CreateForWrite_ok 600000) as (fw & g & b & h & E & Hfs & Habs & Hu & Hsb); [lia|].
  assert (Hr : repr fw (newSpace (rootGroupAddr fw))).
  { exists {[ [] := g ]}, []. split; [exact Hfs|]. unfold newSpace. by rewrite map_fmap_singleton, Habs. }
  assert (Ea : is_u 64 (rootGroupAddr fw)).
  { assert (El : (let! fw := CreateForWrite 2 in Ret ((0 <=? rootGroupAddr fw) && (rootGroupAddr fw <? 2 ^ 64))) = Ret true) by (vm_compute; reflexivity).
    rewrite E in El. cbn [obind] in El. injection El as El. apply andb_prop in El as [E1 E2]. unfold is_u. lia. }
  destruct (dense_groups_lose_links (fun _ => []) fw _ [] [x67] (mkDir (rootGroupAddr fw) ∅ 1) demo_links (replicate 9 (rootGroupAddr fw)) 0 first48 Hr)
    as (a & fw' & E1 & Hr' & _).
  - reflexivity.
  - split; [by left|]. split; [done|]. intros [=]%list_elem_of_singleton.
  - split; [done|]. constructor; [|constructor]. by vm_compute.
  - intros d Hd. unfold newSpace in Hd. apply lookup_singleton_Some in Hd as [_ <-]. cbn [dEntries dUsed].
    split; [apply lookup_empty|]. split; [vm_compute; congruence|]. rewrite map_size_empty. lia.
  - vm_compute. split; congruence.
  - apply (bool_decide_unpack _). vm_compute. exact I.
  - repeat (apply Forall_cons; split; [split; [vm_compute; congruence|eexists; split; [reflexivity|done]]|]). apply Forall_nil. exact I.
  - vm_compute. congruence.
  - repeat (apply Forall2_cons; split; [split; [reflexivity|exact Ea]|]). apply Forall2_nil. exact I.
  - eapply usable_mono; [exact Hu|lia].
  - lia.
  - exists fw, a, fw'. split; [exact E|]. split; [exact E1|exact Hr'].
Defined.
