(* ===== verification/DeleteChunks.v ===== *)
(** * The space of chunks on deletion: freeChunkedData of delete_write.go

    The loop that frees the chunks of a deleted dataset guesses the size of the
    keys of the chunk index.  What it frees depends on the rank and the number of
    chunks only: nothing, the chunks, or space that is not the dataset's. *)

From S2P Require Import Prelude Overflow Allocator Storage Superblock Messages Grid Chunks BTreeV1 BTreeChunk Pipeline ChunkedDataset.
From S2P Require Import LocalHeap GroupTree Groups GroupLaws DatasetReader Session Delete.

(** ** What is freed *)

(** The address read from the four zero bytes before a child and the lower half
    of it, unless that is zero. *)
Definition shiftedAddr (a : Z) : Z := if a mod 2 ^ 32 =? 0 then a else a mod 2 ^ 32 * 2 ^ 32.

(** The address and size of a chunk. *)
Definition chunkSpace (e : ChunkBTreeEntry) : Z * Z := (eAddress e, eNbytes e).

Definition freedChunks (rank : Z) (chunks : list (Z * Z)) : list (Z * Z) :=
  if (rank =? 1) && (len chunks <=? 64)
  then match chunks with [(a, n)] => [(shiftedAddr a, n)] | _ => chunks end
  else [].

(** ** The bytes of a leaf *)

Lemma coordBytes_zeros k : coordBytes (replicate k 0) = zeros (8 * Z.of_nat k).
Proof.
  unfold coordBytes. induction k as [|k IH]; [done|]. cbn [replicate map concat]. rewrite IH. change (le_put 8 0) with (zeros 8).
  rewrite zeros_app by lia. f_equal. lia.
Qed.

Lemma firstKey_bytes n cs e : Coordinate e = replicate n 0 ->
  keyBytes (rawOf (S n) cs (keyOf e)) = le_put 4 (eNbytes e) ++ zeros (12 + 8 * Z.of_nat n).
Proof.
  intros Hc. unfold keyBytes, rawOf, keyOf. cbn [rNbytes rMask rCoords wNbytes wFilterMask Coords]. rewrite Hc.
  assert (map (coordZ (replicate n 0) cs) (seq 0 (S n)) = replicate (S n) 0) as ->.
  { apply list_eq_same_length with (S n); [by rewrite length_replicate|by rewrite length_map, length_seq|].
    intros i x y Hi Hx Hy. apply lookup_replicate in Hy as [-> _]. apply list_lookup_fmap_Some in Hx as (j & -> & Hj).
    apply lookup_seq in Hj as [-> _]. unfold coordZ. destruct (replicate n 0 !! (0 + i)%nat) as [c|] eqn:E; [|done].
    apply lookup_replicate in E as [-> _]. by destruct (cs !! (0 + i)%nat). }
  rewrite coordBytes_zeros. change (le_put 4 0) with (zeros 4). rewrite zeros_app by lia. do 2 f_equal. lia.
Qed.

Lemma le_put_add n m v : 0 <= v -> le_put (n + m) v = le_put n v ++ le_put m (v / 256 ^ Z.of_nat n).
Proof.
  revert v. induction n as [|n IH]; intros v Hv; cbn [Nat.add le_put]; [change (256 ^ Z.of_nat 0) with 1; by rewrite Z.div_1_r|].
  rewrite IH by (apply Z.div_pos; lia). cbn [app]. do 3 f_equal. rewrite Nat2Z.inj_succ, Z.pow_succ_r by lia. by rewrite Z.div_div by lia.
Qed.

Lemma le_get_app a b : le_get (a ++ b) = le_get a + 256 ^ len a * le_get b.
Proof.
  induction a as [|x a IH]; cbn [app le_get]; [change (256 ^ len []) with 1; lia|].
  rewrite IH, len_cons, Z.pow_add_r by (try apply len_nonneg; lia). lia.
Qed.

(** The lower half of an address behind four zero bytes. *)
Lemma shifted_child a : le_get (zeros 4 ++ le_put 4 a) = a mod 2 ^ 32 * 2 ^ 32.
Proof. rewrite le_get_app, le_get_put. change (le_get (zeros 4)) with 0. change (256 ^ len (zeros 4)) with (2 ^ 32). change (256 ^ Z.of_nat 4) with (2 ^ 32). lia. Qed.

(** ** The guesses *)

(** An entry with keys of [ks] bytes, in the first [total] bytes of the node's
    body. *)
Lemma chunkInfos_step n body total pos pre nb mid child post ks : body = pre ++ le_put 4 nb ++ mid ++ child ++ post -> pos = len pre ->
  4 <= ks -> len mid = ks - 4 -> len child = 8 -> is_u 32 nb -> len pre + ks + 8 <= total ->
  chunkInfos (S n) (take (Z.to_nat total) body) pos ks 8 LittleEndian =
    if (le_get child =? 0) || (le_get child =? undefinedAddress) then Ret None
    else let! rest := chunkInfos n (take (Z.to_nat total) body) (pos + ks + 8) ks 8 LittleEndian in
      Ret ((fun l => (le_get child, nb) :: l) <$> rest).
Proof.
  intros -> -> Hks Hm Hc Hnb Ht. pose proof (len_nonneg pre).
  assert (E : take (Z.to_nat total) (pre ++ le_put 4 nb ++ mid ++ child ++ post) = pre ++ le_put 4 nb ++ mid ++ child ++
    take (Z.to_nat (total - (len pre + ks + 8))) post).
  { rewrite !app_assoc. rewrite take_app. f_equal.
    - apply take_ge. apply Nat2Z.inj_le. change (Z.of_nat (length ?l)) with (len l). rewrite !len_app, len_le_put. lia.
    - f_equal. apply Nat2Z.inj. unfold len in *. rewrite !length_app, length_le_put in *. lia. }
  rewrite E. set (tail := take _ post). cbn [chunkInfos]. set (data := pre ++ _).
  assert (Hl : len data = len pre + ks + 8 + len tail) by (subst data; rewrite !len_app, len_le_put; lia). pose proof (len_nonneg tail).
  destruct (Z.gtb_spec (len pre + ks) (len data)); [lia|].
  rewrite (readU_at 4 data pre nb (mid ++ child ++ tail)) by done. cbn [obind].
  destruct (Z.gtb_spec (len pre + ks + 8) (len data)); [lia|].
  rewrite (slice_at data (pre ++ le_put 4 nb ++ mid) (child ++ tail) []); cycle 1.
  { by rewrite app_nil_r, <- !app_assoc. }
  { rewrite !len_app, len_le_put. lia. }
  { rewrite Hl, len_app. lia. }
  cbn [obind]. unfold readAddrFromBuf. rewrite len_app, Hc. destruct (Z.gtb_spec 8 (8 + len tail)); [lia|].
  cbn [Z.eqb Pos.eqb orb]. rewrite (slice_at _ [] child tail) by done. cbn [obind get_order]. done.
Qed.

Lemma chunkInfos_zero n body total pos pre nb k post ks : body = pre ++ le_put 4 nb ++ zeros k ++ post -> pos = len pre ->
  4 <= ks -> ks + 4 <= k -> is_u 32 nb -> len pre + ks + 8 <= total ->
  chunkInfos (S n) (take (Z.to_nat total) body) pos ks 8 LittleEndian = Ret None.
Proof.
  intros Hb Hp Hks Hk Hnb Ht.
  rewrite (chunkInfos_step n body total pos pre nb (zeros (ks - 4)) (zeros 8) (zeros (k - (ks + 4)) ++ post) ks); [reflexivity|..].
  - rewrite Hb. do 2 f_equal. rewrite !app_assoc. f_equal. rewrite !zeros_app by lia. f_equal. lia.
  - exact Hp.
  - exact Hks.
  - apply len_zeros. lia.
  - done.
  - exact Hnb.
  - exact Ht.
Qed.

Lemma undefined_address a : 0 < a < 2 ^ 63 -> (a =? 0) || (a =? undefinedAddress) = false.
Proof. intros Ha. unfold undefinedAddress, MaxUint64. destruct (Z.eqb_spec a 0), (Z.eqb_spec a (2 ^ 64 - 1)); lia || done. Qed.

(** Keys of 24 bytes are those of one dimension. *)
Lemma chunkInfos_right cs sent post l : forall body total pos pre,
  body = pre ++ BTreeV1.entryBytes (map (rawOf 2 cs) (map keyOf l ++ [sent])) (map eAddress l) ++ post -> pos = len pre ->
  Forall (fun e => is_u 32 (eNbytes e) /\ 0 < eAddress e < 2 ^ 63) l -> len pre + 32 * len l <= total ->
  chunkInfos (length l) (take (Z.to_nat total) body) pos 24 8 LittleEndian = Ret (Some (map chunkSpace l)).
Proof.
  induction l as [|e l IH]; intros body total pos pre Hb Hp He Ht; [done|]. apply Forall_cons in He as [[Hn Ha] He].
  rewrite len_cons in Ht. pose proof (len_nonneg l). pose proof (len_key 2 (keyOf e) cs) as Hk. change (8 + 8 * Z.of_nat 2) with 24 in Hk.
  cbn [map app BTreeV1.entryBytes length] in Hb |- *. set (raw := rawOf 2 cs (keyOf e)) in *. set (rest := BTreeV1.entryBytes _ (map eAddress l)) in Hb.
  rewrite (chunkInfos_step _ body total pos pre (eNbytes e) (le_put 4 0 ++ coordBytes (rCoords raw)) (le_put 8 (eAddress e)) (rest ++ post) 24); cycle 1.
  { rewrite Hb. unfold keyBytes. rewrite <- !app_assoc. done. }
  { done. }
  { lia. }
  { unfold keyBytes in Hk. rewrite !len_app, !len_le_put in Hk. rewrite len_app, len_le_put. lia. }
  { done. }
  { done. }
  { lia. }
  rewrite le_get_put_small by (change (256 ^ Z.of_nat 8) with (2 ^ 64); lia). rewrite undefined_address by done.
  rewrite (IH body total _ (pre ++ keyBytes raw ++ le_put 8 (eAddress e))); [reflexivity| | |done|].
  - rewrite Hb, <- !app_assoc. done.
  - rewrite !len_app, Hk, len_le_put. lia.
  - rewrite !len_app, Hk, len_le_put. lia.
Qed.

(** ** The first chunk *)

(** The chunk at the origin comes first. *)
Lemma origin_first n l : Sorted entry_le l -> Forall (fun e => length (Coordinate e) = n /\ Forall (Z.le 0) (Coordinate e)) l ->
  replicate n 0 ∈ map Coordinate l -> exists e l', l = e :: l' /\ Coordinate e = replicate n 0.
Proof.
  induction l as [|e l IH]; intros Hs Hl Hin; [by apply elem_of_nil in Hin|].
  exists e, l. split; [done|]. cbn [map] in Hin. apply elem_of_cons in Hin as [<-|Hin]; [done|].
  apply Sorted_inv in Hs as [Hs Hd]. apply Forall_cons in Hl as [[He H0] Hl].
  destruct (IH Hs Hl Hin) as (e' & l' & -> & E'). apply HdRel_inv in Hd. unfold entry_le, compareChunkCoords in Hd. rewrite E' in Hd.
  clear - He H0 Hd. revert n He Hd. induction H0 as [|x c Hx _ IH]; intros n He Hd; [by subst n|].
  cbn [length] in He. subst n. cbn [replicate compareCoords] in Hd |- *. destruct (Z.ltb_spec x 0); [lia|].
  destruct (Z.gtb_spec x 0); [lia|]. assert (x = 0) as -> by lia. f_equal. by apply IH.
Qed.

(** ** The node *)

Section leaf.
Context `{Storage St} `{StorageFree St}.
Context (st : St) (sb : Superblock) (root u : Z) (head body : bytes).
Hypothesis Hsb : sb8 sb.
Hypothesis Hst : stored (contents st) root (head ++ body).
Hypothesis Hhead : len head = 24.
Hypothesis Hroot : 0 <= root < 2 ^ 63 - 24.

Lemma tryDims_step n ns r (total := (u + 1) * (4 + 4 + 4 * n) + u * 8) : 0 <= total <= len body ->
  chunkInfos (Z.to_nat u) (take (Z.to_nat total) body) 0 (4 + 4 + 4 * n) 8 LittleEndian = Ret r ->
  tryDims (n :: ns) st root 24 u sb =
    match r with
    | Some cs => Ret (fold_left (fun st c => free_space st c.1 c.2) cs st)
    | None => tryDims ns st root 24 u sb
    end.
Proof.
  intros Ht E. pose proof Hsb as (Ho & _ & He). cbn [tryDims]. rewrite Ho, He. fold total.
  apply stored_app_r in Hst. rewrite Hhead in Hst. rewrite (i64_id root), i64_id by lia.
  rewrite (stored_read _ _ _ _ Hst) by lia. rewrite E. reflexivity.
Qed.
End leaf.

Section node.
Context `{Storage St} `{StorageFree St}.
Context (st : St) (sb : Superblock) (root : Z).
Hypothesis Hsb : sb8 sb.
Hypothesis Hroot : 0 <= root < 2 ^ 63 - 24.

Lemma freeChunkedData_head level u left right body :
  stored (contents st) root (BTreeV1.headerBytes level u left right ++ body) -> 0 < u < 2 ^ 16 -> 0 <= level < 256 ->
  freeChunkedData st sb root = if level >? 0 then Ret st else tryDims [1; 2; 3; 4] st root 24 u sb.
Proof.
  intros Hst Hu Hlv. pose proof Hsb as (Ho & _ & He). unfold freeChunkedData. rewrite Ho, He, i64_id by lia. change (8 + 2 * 8) with 24.
  apply stored_app_l in Hst. set (h := BTreeV1.headerBytes level u left right) in *. assert (Hh : len h = 24) by apply BTreeV1.len_headerBytes.
  unfold stored in Hst. rewrite Hh in Hst.
  rewrite Hst. assert (Eh : h = tree_sig ++ [z2b 1; z2b level] ++ le_put 2 u ++ le_put 8 left ++ le_put 8 right) by done.
  rewrite bool_decide_true by done. change (idx h 4) with (Ret (z2b 1)). change (idx h 5) with (Ret (z2b level)). cbn [negb obind].
  change (b2z (z2b 1) =? 1) with true. cbn [negb].
  rewrite (readU_at 2 h (tree_sig ++ [z2b 1; z2b level]) u (le_put 8 left ++ le_put 8 right)) by (done || (change (256 ^ Z.of_nat 2) with (2 ^ 16); lia)).
  cbn [obind]. destruct (Z.eqb_spec u 0); [lia|]. rewrite b2z_z2b, Z.mod_small by lia. done.
Qed.

(** A node above the leaves is passed over. *)
Lemma inner_kept nd cs node : stored (contents st) root (layout nd cs node) -> node_ok node -> 0 < wLevel node ->
  freeChunkedData st sb root = Ret st.
Proof.
  intros Hst [_ Hs Hu Hl _ _ _ _] Hlv. unfold layout in Hst. rewrite Hu in Hst.
  rewrite (freeChunkedData_head _ _ _ _ _ Hst) by (unfold len; lia). by destruct (Z.gtb_spec (wLevel node) 0); [|lia].
Qed.

(** What the guesses make of a leaf with one or several dimensions. *)
Lemma guesses_fail u head body nb n R : stored (contents st) root (head ++ body) -> len head = 24 ->
  body = le_put 4 nb ++ zeros (12 + 8 * Z.of_nat n) ++ R -> is_u 32 nb -> 0 < u <= 64 -> 2072 <= len body -> (2 <= n)%nat ->
  tryDims [1; 2; 3; 4] st root 24 u sb = Ret st.
Proof.
  intros Hst Hh Hb Hnb Hu Hl Hn. assert (Eu : exists m, Z.to_nat u = S m) by (exists (Z.to_nat (u - 1)); lia). destruct Eu as [m Eu].
  repeat (erewrite (tryDims_step st sb root u head body) by
    (first [done | lia | rewrite Eu; apply (chunkInfos_zero _ _ _ _ [] nb (12 + 8 * Z.of_nat n) R); (done || (change (len []) with 0; lia))]); cbn iota).
  reflexivity.
Qed.

Lemma guesses_line head body nb a R u r4 : stored (contents st) root (head ++ body) -> len head = 24 ->
  body = le_put 4 nb ++ zeros 20 ++ le_put 8 a ++ R -> is_u 32 nb -> 0 < a < 2 ^ 63 -> 0 < u <= 64 -> 2072 <= len body ->
  chunkInfos (Z.to_nat u) (take (Z.to_nat ((u + 1) * 24 + u * 8)) body) 0 24 8 LittleEndian = Ret (Some r4) ->
  (1 < u -> exists nb1 k R', R = le_put 4 nb1 ++ le_put 4 0 ++ le_put 8 k ++ zeros 8 ++ R') ->
  tryDims [1; 2; 3; 4] st root 24 u sb =
    Ret (fold_left (fun st c => free_space st c.1 c.2) (if u =? 1 then if a mod 2 ^ 32 =? 0 then r4 else [(a mod 2 ^ 32 * 2 ^ 32, nb)] else r4) st).
Proof.
  intros Hst Hh Hb Hnb Ha Hu Hl E4 Hkey. assert (Eu : exists m, Z.to_nat u = S m) by (exists (Z.to_nat (u - 1)); lia). destruct Eu as [m Eu].
  do 2 (erewrite (tryDims_step st sb root u head body) by
    (first [done | lia | rewrite Eu; apply (chunkInfos_zero _ _ _ _ [] nb 20 (le_put 8 a ++ R)); (done || (change (len []) with 0; lia))]); cbn iota).
  assert (E5 : tryDims [4] st root 24 u sb = Ret (fold_left (fun st c => free_space st c.1 c.2) r4 st)).
  { rewrite (tryDims_step st sb root u head body Hsb Hst Hh Hroot 4 [] (Some r4)); [done|lia|exact E4]. }
  set (a0 := a mod 2 ^ 32) in *. set (sh := a0 * 2 ^ 32). pose proof (Z.mod_pos_bound a (2 ^ 32) ltac:(lia)) as Ha0. fold a0 in Ha0.
  pose proof (le_put_add 4 4 a ltac:(lia)) as Eh. change (256 ^ Z.of_nat 4) with (2 ^ 32) in Eh. change (4 + 4)%nat with 8%nat in Eh.
  assert (Ec : le_get (zeros 4 ++ le_put 4 a) = sh) by apply shifted_child.
  set (data := take (Z.to_nat ((u + 1) * 20 + u * 8)) body).
  assert (E3 : chunkInfos (Z.to_nat u) data 0 20 8 LittleEndian = Ret (if (u =? 1) && negb (a0 =? 0) then Some [(sh, nb)] else None)).
  { subst data. rewrite Eu.
    rewrite (chunkInfos_step m body _ 0 [] nb (zeros 16) (zeros 4 ++ le_put 4 a) (le_put 4 (a / 2 ^ 32) ++ R) 20); cycle 1.
    { rewrite Hb, Eh. change (zeros 20) with (zeros 16 ++ zeros 4). rewrite <- !app_assoc. done. }
    { done. }
    { lia. }
    { done. }
    { done. }
    { done. }
    { change (len []) with 0. lia. }
    rewrite Ec. subst sh. unfold undefinedAddress, MaxUint64. destruct (Z.eqb_spec a0 0) as [->|Hz]; [cbn; by rewrite andb_false_r|].
    destruct (Z.eqb_spec (a0 * 2 ^ 32) 0); [lia|]. destruct (Z.eqb_spec (a0 * 2 ^ 32) (2 ^ 64 - 1)); [lia|]. cbn [orb negb]. rewrite andb_true_r.
    destruct (Z.eqb_spec u 1) as [E1|E1].
    { assert (m = 0%nat) as -> by lia. reflexivity. }
    destruct (Hkey ltac:(lia)) as (nb1 & k & R' & ER). destruct m as [|m]; [lia|].
    rewrite (chunkInfos_step m body _ (0 + 20 + 8) (le_put 4 nb ++ zeros 20 ++ le_put 4 a) (a / 2 ^ 32) (le_put 4 nb1 ++ le_put 4 0 ++ le_put 8 k) (zeros 8) R' 20); [reflexivity|..].
    - rewrite Hb, Eh, ER, <- !app_assoc. done.
    - done.
    - lia.
    - done.
    - done.
    - unfold is_u. split; [apply Z.div_pos; lia|apply Z.div_lt_upper_bound; lia].
    - change (len (le_put 4 nb ++ zeros 20 ++ le_put 4 a)) with 28. lia. }
  rewrite (tryDims_step st sb root u head body Hsb Hst Hh Hroot 3 [4] _ ltac:(lia) E3). rewrite E5.
  destruct (Z.eqb_spec u 1), (Z.eqb_spec a0 0); cbn [andb negb]; done.
Qed.

(** A single leaf whose first chunk is at the origin. *)
Lemma leaf_freed n cs dim es l e l' (s := sortEntries l) : stored (contents st) root (layout (S n) cs (singleLeaf dim cs es l)) ->
  node_ok (singleLeaf dim cs es l) -> s = e :: l' -> Coordinate e = replicate n 0 -> (0 < n)%nat ->
  Forall (fun e => is_u 32 (eNbytes e) /\ 0 < eAddress e < 2 ^ 63) s -> Forall (fun e => length (Coordinate e) = n) s ->
  freeChunkedData st sb root = Ret (fold_left (fun st c => free_space st c.1 c.2) (freedChunks (Z.of_nat n) (map chunkSpace s)) st).
Proof.
  intros Hst Hok Hs Hc Hn He Hlen. pose proof (node_size _ Hok) as H64. pose proof (len_layout (S n) cs _ Hok) as Hll. rewrite nodeBytes_eq in Hll.
  unfold layout in Hst, Hll. cbn [singleLeaf buildLeafNode wLevel wEntriesUsed wLeft wRight wKeys ChildAddrs] in *. fold s in Hst, H64, Hll. rewrite length_map in H64.
  rewrite u16_id in Hst, Hll by (unfold is_u, len; lia). set (sent := mkWKey _ 0 0) in *. set (pad := zeros _) in *. set (head := BTreeV1.headerBytes _ _ _ _) in *.
  rewrite len_app in Hll. set (body := _ ++ pad) in *. change (len head) with 24 in Hll.
  rewrite (freeChunkedData_head 0 (len s) _ _ _ Hst) by (unfold len; lia). cbn [Z.gtb Z.compare].
  assert (Hu : 0 < len s <= 64) by (unfold len; lia).
  assert (Hb : exists R, body = le_put 4 (eNbytes e) ++ zeros (12 + 8 * Z.of_nat n) ++ le_put 8 (eAddress e) ++ R /\
    (1 < len s -> n = 1%nat -> exists nb1 k R', R = le_put 4 nb1 ++ le_put 4 0 ++ le_put 8 k ++ zeros 8 ++ R')).
  { subst body. rewrite Hs. cbn [map app BTreeV1.entryBytes]. rewrite (firstKey_bytes n cs e Hc). eexists. split; [by rewrite <- !app_assoc|].
    intros H1 ->. rewrite Hs in Hlen. destruct l' as [|e1 l1]; [rewrite len_cons in H1; change (len []) with 0 in H1; lia|].
    apply Forall_cons in Hlen as [_ [He1 _]%Forall_cons]. cbn [map app BTreeV1.entryBytes].
    exists (eNbytes e1), (coordZ (Coordinate e1) cs 0). eexists. unfold keyBytes, rawOf, keyOf. cbn [rNbytes rMask rCoords wNbytes wFilterMask Coords seq map].
    assert (coordZ (Coordinate e1) cs 1 = 0) as -> by (unfold coordZ; rewrite lookup_ge_None_2; [done|lia]).
    unfold coordBytes. cbn [map concat]. change (le_put 8 0) with (zeros 8). rewrite <- !app_assoc. cbn [app]. reflexivity. }
  destruct Hb as (R & Hb & HR). pose proof He as He'. rewrite Hs in He'. apply Forall_cons in He' as [[Hnb Ha] _].
  unfold freedChunks. rewrite len_map. destruct (Z.leb_spec (len s) 64); [|lia]. rewrite andb_true_r.
  destruct (Z.eqb_spec (Z.of_nat n) 1) as [E1|E1].
  - assert (n = 1%nat) as -> by lia.
    assert (E4 : chunkInfos (Z.to_nat (len s)) (take (Z.to_nat ((len s + 1) * 24 + len s * 8)) body) 0 24 8 LittleEndian = Ret (Some (map chunkSpace s))).
    { unfold len at 1. rewrite Nat2Z.id. apply (chunkInfos_right cs sent pad s body _ 0 []); [done|done|done|change (len []) with 0; lia]. }
    rewrite (guesses_line head body _ _ R (len s) _ Hst eq_refl Hb Hnb Ha Hu ltac:(lia) E4) by (intros Hlt; by apply HR).
    rewrite Hs. cbn [map]. destruct l' as [|e1 l']; rewrite ?len_cons; cbn [map].
    + change (1 + len [] =? 1) with true. cbn iota. unfold shiftedAddr, chunkSpace. by destruct (eAddress e mod 2 ^ 32 =? 0).
    + pose proof (len_nonneg l'). destruct (Z.eqb_spec (1 + (1 + len l')) 1); [lia|]. done.
  - apply (guesses_fail (len s) head body (eNbytes e) n _ Hst eq_refl Hb Hnb Hu); lia.
Qed.
End node.

(** ** Chunks written by [writeChunkedData] *)

Lemma chunk_coordinates `{C : Codecs} ds cs es B buf rp f own l : Forall (chunk_done ds cs es B buf rp f own) l -> len ds = len cs ->
  Forall (fun e => length (Coordinate e) = length ds /\ Forall (Z.le 0) (Coordinate e)) l.
Proof.
  intros Hd Hl. eapply Forall_impl; [exact Hd|]. intros e [Hb _ _ _ _]. pose proof (Forall2_length _ _ _ Hb) as E.
  rewrite length_zip_with in E. unfold len in Hl. split; [lia|]. eapply Forall2_Forall_r; [exact Hb|]. apply Forall_forall. intros d _ i Hi. lia.
Qed.

(** More chunks than fit in a leaf are under a node of a higher level. *)
Lemma built_inner nd wcd rcd top f own a l : built top f own nd wcd rcd a (map entryOf l) -> (64 < length l)%nat ->
  exists node, stored f a (layout nd wcd node) /\ node_ok node /\ 0 < wLevel node.
Proof.
  intros Hb Hl. destruct top as [|top]; destruct Hb as (node & Hst & _ & Hok & Hlv & _ & H).
  - apply (f_equal length) in H. rewrite length_map, length_zip_with, length_map in H. pose proof (node_size _ Hok). lia.
  - exists node. split; [done|]. split; [done|lia].
Qed.

Lemma chunks_freed `{Storage St} `{StorageFree St} `{C : Codecs} ds cs es B buf rp (st : St) sb root l lo : sb8 sb -> 0 < lo ->
  dataset_ok ds cs es buf -> B <= MaxChunkSize -> chunks_listed lo ds cs es B buf rp (contents st) root l ->
  0 < root < 2 ^ 63 /\
  freeChunkedData st sb root = Ret (fold_left (fun st c => free_space st c.1 c.2) (freedChunks (len ds) (map chunkSpace (sortEntries l))) st).
Proof.
  intros Hsb Hlo Hds HB [[own Hd] Hli Hcnt (top & ownT & Ht & Hb) Hleaf [Hr Ha]].
  assert (Hcl : len ds = len cs) by (unfold len; by rewrite (Forall2_length _ _ _ (dims_at _ _ (ok_dims _ _ _ _ Hds)))).
  assert (Hp : sortEntries l ≡ₚ l) by apply merge_sort_Permutation. pose proof (ok_dims _ _ _ _ Hds) as Hdm.
  pose proof (numChunks_pos ds cs Hdm) as Hnp. assert (Hpos : 0 < prod (zip_with chunksIn ds cs)) by (by apply prod_pos).
  assert (Hok : Forall (entry_ok cs) l) by (eapply Forall_impl; [exact Hd|]; intros e He; by eapply (chunk_done_entry ds cs es B buf rp Hds HB)).
  pose proof (chunk_coordinates _ _ _ _ _ _ _ _ _ Hd Hcl) as Hco. pose proof (Permutation_length Hp) as Hpl.
  assert (R2 : root < 2 ^ 63 - 24) by (destruct top; destruct Hb as (node & _ & _ & _ & _ & R & _); lia).
  split; [lia|]. destruct (Z.le_gt_cases (len l) 64) as [H64|H64].
  - specialize (Hleaf H64). pose proof (singleLeaf_ok (len ds) cs es l Hok ltac:(lia)) as Hn.
    assert (Hln : length (zip_with chunksIn ds cs) = length ds) by (rewrite length_zip_with; unfold len in Hcl; lia).
    destruct (origin_first (length ds) (sortEntries l)) as (e & l' & Hs & He); [apply sortEntries_sorted|by rewrite Hp| |].
    { rewrite (Permutation_map Coordinate Hp). apply (listed_complete ds cs); [exact Hli|exact Hcnt| |].
      - eapply Forall_impl; [exact Hd|]. by intros e [? _ _ _ _].
      - rewrite <- Hln. by apply zero_in_box. }
    assert (Hlc : length cs = length ds) by (unfold len in Hcl; lia). rewrite Hlc in Hleaf.
    apply (leaf_freed st sb root Hsb ltac:(lia) (length ds) cs (len ds) es l e l'); try done.
    + pose proof (dims_ne _ _ Hdm). destruct ds; [done|cbn; lia].
    + rewrite Hp. apply Forall_forall. intros x Hx. pose proof (proj1 (Forall_forall _ _) Ha x Hx) as Hx1. cbn in Hx1.
      destruct (proj1 (Forall_forall _ _) Hd x Hx) as [_ _ _ Hx2 _]. pose proof (entry_nbytes _ _ (proj1 (Forall_forall _ _) Hok x Hx)).
      split; [done|]. destruct (proj1 (Forall_forall _ _) Hd x Hx) as [_ _ Hx3 _ _]. lia.
    + rewrite Hp. eapply Forall_impl; [exact Hco|]. by intros x [? _].
  - destruct (built_inner _ _ _ _ _ _ _ _ Hb) as (node & Hst & Hno & Hlv); [unfold len in H64; lia|].
    rewrite (inner_kept st sb root Hsb ltac:(lia) _ _ node Hst Hno Hlv). unfold freedChunks. rewrite len_map.
    unfold len in H64 |- *. rewrite Hpl. destruct (Z.leb_spec (Z.of_nat (length l)) 64); [lia|]. by rewrite andb_false_r.
Qed.

(** ** Properties *)

(** C37. What deleting a chunked dataset gives back of its chunks. On any
    storage with room, for every rank, chunk shape and element size (inner
    dimensions multiples of the chunk's) and no filters or a chain of shuffle,
    LZF and Fletcher-32, [writeChunkedData] stores the chunks, and
    [freeDataLayout] of the layout with the index it wrote, with 8-byte
    little-endian fields, succeeds and frees: nothing, when the dataset has two
    or more dimensions or more than 64 chunks; each chunk with the size it was
    stored in, when it has one dimension and 2 to 64 chunks; but when it has one
    dimension and a single chunk at [a], space of the chunk's size at [a mod
    2^32 * 2^32] instead (at [a] only if [a] is a multiple of 2^32), because the
    keys of the index are taken to be four bytes shorter than they are. *)
Theorem chunk_space_freed `{SL : StorageLaws St} `{StorageFree St} `{C : Codecs} `{CL : !CodecLaws C}
    ds cs es B buf wp rp addr da o hdr st :
  let nums := zip_with chunksIn ds cs in
  let cc := mkCoordinator ds cs nums in
  let dw := mkDatasetWriter addr da (len buf) es ds true cc cs wp (addr + o) (len hdr) in
  0 < first_address -> dataset_ok ds cs es buf -> same_pipeline wp rp -> chunks_accepted ds cs es B buf wp -> B <= MaxChunkSize ->
  nodeBytes (len ds + 1) < 2 ^ 63 -> usable st (prod nums * (B + 2 * nodeBytes (len ds + 1))) ->
  mkBlock addr (len hdr) ∈ owned st -> stored (contents st) addr hdr -> 0 < addr + o -> 0 <= o -> o + 12 <= len hdr ->
  exists root dw' st' l, writeChunkedData dw 8 buf st = Ret (dw', st') /\ dataAddress dw' = root /\
    len l = prod nums /\ (forall c, in_box nums c -> c ∈ map Coordinate l) /\
    Forall (fun e => exists chunk s, ExtractChunkData cc buf (Coordinate e) es = Ret chunk /\ unfilterChunk rp s = Ret chunk /\
      stored (contents st') (eAddress e) s /\ len s = eNbytes e) l /\
    forall sb layout, sb8 sb -> Class_ layout = LayoutChunked -> DataAddress layout = root ->
      freeDataLayout st' sb layout =
        Ret (fold_left (fun st c => free_space st c.1 c.2) (freedChunks (len ds) (map chunkSpace l)) st').
Proof.
  intros nums cc dw Hf Hds Hsp Hacc HB Hns Hu Hin Hst Hpos Ho0 Ho12.
  destruct (writeChunkedData_listed ds cs es B buf wp rp addr da o hdr st Hds Hsp Hacc HB Hns Hu Hin Hst Hpos Ho0 Ho12)
    as (root & st' & c & l & E & _ & _ & Hl & _).
  assert (Hp : sortEntries l ≡ₚ l) by apply merge_sort_Permutation. destruct (cl_done _ _ _ _ _ _ _ _ _ _ Hl) as [own Hd].
  exists root. eexists. exists st', (sortEntries l). split; [exact E|]. split; [done|]. split_and!.
  - pose proof (cl_count _ _ _ _ _ _ _ _ _ _ Hl) as Hn. unfold len in *. rewrite Hp. exact Hn.
  - intros x Hx. rewrite Hp. apply (listed_complete ds cs); [apply Hl|apply Hl| |exact Hx].
    eapply Forall_impl; [exact Hd|]. by intros e [? _ _ _ _].
  - rewrite Hp. eapply Forall_impl; [exact Hd|]. intros e [_ (chunk & s & H1 & H2 & H3 & H4) _ _ _]. by exists chunk, s.
  - intros sb layout Hsb Hc Ha. destruct (chunks_freed ds cs es B buf rp st' sb root l first_address Hsb Hf Hds HB Hl) as [Hr Hfr].
    unfold freeDataLayout, IsContiguous, IsChunked. rewrite Hc, Ha, Hfr.
    change (LayoutChunked =? LayoutContiguous) with false. change (LayoutChunked =? LayoutChunked) with true. cbn iota.
    unfold undefinedAddress, MaxUint64. destruct (Z.eqb_spec root (2 ^ 64 - 1)); [lia|]. destruct (Z.eqb_spec root 0); [lia|]. done.
Qed.

#[local] Existing Instance Pipeline.storedCodecs.
#[local] Existing Instance Pipeline.storedLaws.
#[local] Existing Instance Session.laws48.

(** Two elements of four bytes in a single chunk, in a new file. *)
Example chunk_space_freed_witness : exists addr st dw' st' a,
  writeChunkedData (mkDatasetWriter addr 0 8 4 [2] true (mkCoordinator [2] [2] [1]) [2] None (addr + 4) 20) 8 (zeros 8) st = Ret (dw', st') /\
  stored (contents st') a (zeros 8) /\
  freeDataLayout st' (mkSuperblock 2 8 8 0 48 LittleEndian 0 0 0 0) (mkLayout 3 LayoutChunked (dataAddress dw') 0 [] [2; 4] 4) =
    Ret (free_space st' (shiftedAddr a) 8).
Proof.
  destruct demo_storage as (addr & st & Hu & Ha & Ho & Hst).
  destruct (chunk_space_freed [2] [2] 4 8 (zeros 8) None None addr 0 4 (zeros 20) st)
    as (root & dw' & st' & l & Ew & Er & Hl & Hc & Hs & Hfr).
  - exact first48.
  - split; [split; [discriminate|]|..].
    + repeat constructor; lia.
    + constructor.
    + lia.
    + reflexivity.
    + vm_compute. congruence.
  - reflexivity.
  - intros coord chunk Hb Ex. split; [discriminate|]. intros s [= <-].
    apply in_box_cons_inv in Hb as (i & r & -> & Hi & Hr). apply Forall2_nil_inv_l in Hr as ->.
    change (chunksIn 2 2) with 1 in Hi. assert (i = 0) as -> by lia. change (Ret (zeros 8) = Ret chunk) in Ex. injection Ex as <-. split; vm_compute; congruence.
  - vm_compute. congruence.
  - vm_compute. reflexivity.
  - eapply usable_mono; [exact Hu|vm_compute; congruence].
  - change (mkBlock addr 20 ∈ @owned _ _ (FileWriter_laws 48) st). rewrite Ho. apply list_elem_of_singleton. reflexivity.
  - exact Hst.
  - lia.
  - lia.
  - vm_compute. congruence.
  - destruct l as [|e [|e' l]]; [rewrite len_nil in Hl; vm_compute in Hl; discriminate Hl| |].
    + assert (Ec : [0] ∈ map Coordinate [e]) by (apply Hc; repeat constructor; lia). apply list_elem_of_singleton in Ec.
      apply Forall_cons in Hs as [(chunk & s & Ex & Eu & Est & Hn) _]. injection Eu as ->. rewrite <- Ec in Ex.
      assert (chunk = zeros 8) as -> by (change (Ret (zeros 8) = Ret chunk) in Ex; congruence).
      exists addr, st, dw', st', (eAddress e). split; [exact Ew|]. split; [exact Est|].
      rewrite (Hfr (mkSuperblock 2 8 8 0 48 LittleEndian 0 0 0 0)) by (done || by rewrite Er). unfold freedChunks. cbn [map chunkSpace fold_left fst snd].
      rewrite <- Hn. reflexivity.
    + rewrite !len_cons in Hl. pose proof (len_nonneg l). change (prod (zip_with chunksIn [2] [2])) with 1 in Hl. lia.
Defined.
