(* ===== verification/LowFloat.v ===== *)
(** * Low-precision floats: internal/core/datatype_bfloat16.go

    BFloat16 is the upper half of a [float32]; both conversions work on its bits,
    which stand for it here. *)

From S2P Require Import Prelude.

(** ** BFloat16 *)

Module BFloat16.

(** The bits of the [float32]. *)
Definition ToFloat32 (b : Z) : Z := u32 (Z.shiftl b 16).

(** The argument is [math.Float32bits(f)]. *)
Definition Float32ToBFloat16 (bits : Z) : Z :=
  let bits :=
    if negb (Z.land bits 0x8000 =? 0) then
      if negb (Z.land bits 0x7FFF =? 0) then u32 (bits + 0x8000)
      else if negb (Z.land bits 0x10000 =? 0) then u32 (bits + 0x8000)
      else bits
    else bits in
  u16 (Z.shiftr bits 16).

Definition Encode (b : Z) : bytes := le_put 2 b.

Definition DecodeBFloat16 (data : bytes) : outcome Z := get_le 2 data 0.

(** Halves of a word. *)
Lemma land_low x n : 0 <= n -> Z.land x (2 ^ n - 1) = x mod 2 ^ n.
Proof. intros Hn. rewrite <- Z.land_ones by done. f_equal. rewrite Z.ones_equiv. lia. Qed.

Lemma land_bit x n : 0 <= n -> (Z.land x (2 ^ n) =? 0) = negb (Z.testbit x n).
Proof.
  intros Hn. assert (E : Z.land x (2 ^ n) = if Z.testbit x n then 2 ^ n else 0).
  { apply Z.bits_inj'. intros k Hk. rewrite Z.land_spec, Z.pow2_bits_eqb by done. destruct (Z.eqb_spec n k) as [<-|Hne].
    - rewrite andb_true_r. destruct (Z.testbit x n); [by rewrite Z.pow2_bits_true|by rewrite Z.bits_0].
    - rewrite andb_false_r. destruct (Z.testbit x n); [by rewrite Z.pow2_bits_false|by rewrite Z.bits_0]. }
  rewrite E. destruct (Z.testbit x n); [|done]. pose proof (Z.pow_pos_nonneg 2 n). destruct (Z.eqb_spec (2 ^ n) 0); [lia|done].
Qed.

(** What the conversion does in terms of quotient and remainder. *)
Lemma round_eq bits : is_u 32 bits -> let q := bits / 65536 in let r := bits mod 65536 in
  Float32ToBFloat16 bits = u16 (if (32768 <? r) || ((r =? 32768) && Z.odd q) then q + 1 else q).
Proof.
  intros Hb q r. set (rhs := if (32768 <? r) || _ then q + 1 else q). unfold Float32ToBFloat16. change 0x8000 with (2 ^ 15). change 0x10000 with (2 ^ 16). change 0x7FFF with (2 ^ 15 - 1).
  rewrite !land_bit, land_low by lia. rewrite !negb_involutive.
  assert (Hr : 0 <= r < 65536) by (apply Z.mod_pos_bound; lia). assert (E : bits = q * 65536 + r) by (unfold q, r; pose proof (Z.div_mod bits 65536); lia).
  assert (Hq : 0 <= q < 65536) by (unfold is_u in Hb; lia).
  assert (E16 : Z.testbit bits 16 = Z.odd q).
  { unfold q. change 65536 with (2 ^ 16). rewrite <- Z.shiftr_div_pow2 by lia. rewrite <- Z.bit0_odd, Z.shiftr_spec by lia. reflexivity. }
  assert (E15 : Z.testbit bits 15 = (32768 <=? r)).
  { change 15 with (0 + 15) at 1. rewrite <- Z.shiftr_spec by lia. rewrite Z.bit0_odd, Z.shiftr_div_pow2 by lia.
    rewrite E. replace ((q * 65536 + r) / 2 ^ 15) with (2 * q + r / 32768) by (change (2 ^ 15) with 32768; Z.to_euclidean_division_equations; lia).
    rewrite Z.odd_add, Z.odd_mul. cbn [Z.odd andb xorb]. destruct (Z.leb_spec 32768 r).
    - replace (r / 32768) with 1 by (Z.to_euclidean_division_equations; lia). reflexivity.
    - rewrite Z.div_small by lia. reflexivity. }
  assert (El : bits mod 2 ^ 15 = if 32768 <=? r then r - 32768 else r).
  { rewrite E. change (2 ^ 15) with 32768. destruct (Z.leb_spec 32768 r); Z.to_euclidean_division_equations; lia. }
  assert (Hup : 32768 <= r -> u16 (Z.shiftr (u32 (bits + 2 ^ 15)) 16) = u16 (q + 1)).
  { intros Hge. rewrite Z.shiftr_div_pow2 by lia. unfold u16, u32. rewrite E. change (2 ^ 15) with 32768. change (2 ^ 16) with 65536. change (2 ^ 32) with 4294967296.
    Z.to_euclidean_division_equations; lia. }
  assert (Hdown : u16 (Z.shiftr bits 16) = u16 q) by (by rewrite Z.shiftr_div_pow2 by lia).
  rewrite E15, El, E16. unfold rhs. destruct (Z.leb_spec 32768 r).
  - destruct (Z.eqb_spec (r - 32768) 0); cbn [negb].
    + destruct (Z.ltb_spec 32768 r); [lia|]. destruct (Z.eqb_spec r 32768); [|lia]. cbn [orb andb]. destruct (Z.odd q); [by apply Hup|exact Hdown].
    + destruct (Z.ltb_spec 32768 r); [|lia]. cbn [orb]. by apply Hup.
  - destruct (Z.ltb_spec 32768 r); [lia|]. destruct (Z.eqb_spec r 32768); [lia|]. cbn [orb andb]. exact Hdown.
Qed.

(** BFloat16 conversion.  A finite [float32] is rounded to the nearest bfloat16
    (in the order of the bits, so overflow gives infinity), ties to the even one,
    with its sign; widening and converting back is the identity, as is encoding
    and decoding.  NaNs are not treated apart: those whose payload has only low
    bits become infinities, and those near the end of the range become a zero of
    the other sign. *)
Theorem bfloat16_rounds :
  (forall bits, is_u 32 bits -> bits mod 2 ^ 31 < 0x7F800000 ->
     let b := Float32ToBFloat16 bits in
     is_u 16 b /\ Z.abs (ToFloat32 b - bits) <= 32768 /\ (Z.abs (ToFloat32 b - bits) = 32768 -> Z.even b = true) /\
     ToFloat32 b / 2 ^ 31 = bits / 2 ^ 31) /\
  (forall b, is_u 16 b -> Float32ToBFloat16 (ToFloat32 b) = b /\ DecodeBFloat16 (Encode b) = Ret b) /\
  (forall s p, 0 <= s <= 1 -> 0 < p <= 0x8000 -> Float32ToBFloat16 (s * 2 ^ 31 + 0x7F800000 + p) = s * 2 ^ 15 + 0x7F80) /\
  (forall s p, 0 <= s <= 1 -> 0 < p < 0x8000 -> Float32ToBFloat16 (s * 2 ^ 31 + 0x7FFF8000 + p) = (1 - s) * 2 ^ 15).
Proof.
  assert (Hw : forall b, is_u 16 b -> ToFloat32 b = b * 65536).
  { intros b Hb. unfold ToFloat32. rewrite Z.shiftl_mul_pow2 by lia. apply u32_id. unfold is_u in *. lia. }
  split; [|split; [|split]].
  - intros bits Hb Hfin b. unfold is_u in Hb. pose proof (round_eq bits Hb) as E. cbv zeta in E. fold b in E.
    set (q := bits / 65536) in *. set (r := bits mod 65536) in *.
    assert (Hr : 0 <= r < 65536) by (apply Z.mod_pos_bound; lia). assert (Eb : bits = q * 65536 + r) by (unfold q, r; pose proof (Z.div_mod bits 65536); lia).
    set (up := (32768 <? r) || ((r =? 32768) && Z.odd q)) in E.
    assert (Hq : q mod 32768 < 32640) by (clearbody q r; subst bits; clear E; Z.to_euclidean_division_equations; lia).
    assert (Eb' : b = if up then q + 1 else q) by (rewrite E; apply u16_id; destruct up; unfold is_u; Z.to_euclidean_division_equations; lia).
    assert (Hbu : is_u 16 b) by (rewrite E; apply u16_range). split; [exact Hbu|]. rewrite Hw by exact Hbu.
    assert (Hup : if up then 32768 <= r /\ (r = 32768 -> Z.odd q = true) else r <= 32768 /\ (r = 32768 -> Z.odd q = false)).
    { unfold up. destruct (Z.ltb_spec 32768 r); cbn [orb]; [lia|]. destruct (Z.eqb_spec r 32768); cbn [andb]; [|lia].
      destruct (Z.odd q) eqn:Eo; split; (lia || done). }
    destruct up; rewrite Eb'.
    + split; [lia|]. split.
      * intros Ht. rewrite Z.add_1_r, Z.even_succ. apply Hup. lia.
      * clearbody q r. subst bits. clear E. Z.to_euclidean_division_equations; lia.
    + split; [lia|]. split.
      * intros Ht. rewrite <- Z.negb_odd. rewrite (proj2 Hup) by lia. reflexivity.
      * clearbody q r. subst bits. clear E. Z.to_euclidean_division_equations; lia.
  - intros b Hb. rewrite Hw by done. split.
    + rewrite round_eq by (unfold is_u in *; lia). rewrite Z.mod_mul, Z.div_mul by lia. cbn [Z.ltb Z.compare orb Z.eqb andb]. by apply u16_id.
    + unfold Encode, DecodeBFloat16. rewrite <- (app_nil_r (le_put 2 b)). apply (get_le_at 2 _ [] b []); [done|done|]. exact Hb.
  - intros s p Hs Hp. rewrite round_eq by (unfold is_u; lia).
    assert (Eq : (s * 2 ^ 31 + 0x7F800000 + p) / 65536 = s * 32768 + 32640) by (Z.to_euclidean_division_equations; lia).
    assert (Er : (s * 2 ^ 31 + 0x7F800000 + p) mod 65536 = p) by (Z.to_euclidean_division_equations; lia).
    rewrite Eq, Er. destruct (Z.ltb_spec 32768 p); [lia|]. cbn [orb].
    assert (Z.odd (s * 32768 + 32640) = false) as -> by (rewrite Z.odd_add, Z.odd_mul; cbn [Z.odd]; by rewrite andb_false_r).
    rewrite andb_false_r. rewrite u16_id by (unfold is_u; lia). reflexivity.
  - intros s p Hs Hp. rewrite round_eq by (unfold is_u; lia).
    assert (Eq : (s * 2 ^ 31 + 0x7FFF8000 + p) / 65536 = s * 32768 + 32767) by (Z.to_euclidean_division_equations; lia).
    assert (Er : (s * 2 ^ 31 + 0x7FFF8000 + p) mod 65536 = 32768 + p) by (Z.to_euclidean_division_equations; lia).
    rewrite Eq, Er. destruct (Z.ltb_spec 32768 (32768 + p)); [|lia]. cbn [orb].
    assert (s = 0 \/ s = 1) as [-> | ->] by lia; reflexivity.
Qed.
End BFloat16.
